(* ===== verification/_CoqProject ===== *)
-Q . S2P
Prelude.v
PyText.v
Numerals.v
Sha256.v
Json.v
JsonCanon.v
Docs.v
ArtifactStore.v
World.v
Lease.v
Contract.v
ReadPlan.v
Generation.v
WorkQueue.v
QueueStore.v
QueueTasks.v
QueueOps.v
QueueResults.v
QueueHistory.v
QueueLeadership.v
QueueDemo.v
QueueProps.v
QueueMembership.v
QueueRequests.v
QueuePublish.v
LruCache.v
Sources.v
Dialects.v
Floats.v
Snapshots.v
SplitPlanner.v
SplitPartition.v
SplitQueries.v
S3Auth.v
Authorization.v
OperatorGate.v
AccessKeys.v
Placement.v
PlacementProps.v
Egress.v
Federation.v
FederationProps.v
Registry.v
RegistryProps.v
PolicyBundle.v
Scheduler.v
SchedulerProps.v
Sha1.v
MirrorState.v
Landing.v
MirrorPublish.v
MirrorChanges.v
LandingProps.v
MirrorLog.v
MirrorProtocol.v
MirrorPages.v
MirrorLoop.v
Md5.v
S3Xml.v
S3Range.v
SplitCompletion.v
Blake2.v
Tokenization.v
TokenizationProps.v
Iceberg.v
DeltaLog.v
Retention.v
Freshness.v
Reidentification.v
ReidentificationProps.v
DeltaProps.v
FreshnessProps.v
TableHealth.v
Materializer.v
S3Router.v
ListingProps.v
