(* ===== verification/Prelude.v ===== *)
(** * Fabric Shortcut Proxy: a verification development

    Fabric Shortcut Proxy serves database tables as Iceberg and Delta tables
    through an S3 endpoint.  An Agent (the package [fabric_shortcut_proxy]) plans
    the reads of a table as splits, materializes each split as a Parquet object
    and serves the objects; in a fleet, a Manager (the package [enterprise])
    elects a leader, hands materialization tasks to Agents through a durable
    queue and publishes the finished snapshots.  This library models the parts
    whose logic is the program's own and proves what they promise each other.

    ** The parts and the files

    Foundations.
    - [Prelude]: exceptions as values ([res]), stateful code as a state and
      exception monad ([M]) with a small program logic ([wp], [maintains]),
      insertion-ordered dictionaries.
    - [PyText], [Numerals], [Sha256], [Sha1], [Md5], [Blake2], [Json], [Docs],
      [Floats]: Python's string methods, numbers as texts, the digests computed,
      decoded JSON documents with Python's conversions, and binary64 arithmetic;
      [JsonCanon]: the canonical encoding of a document is injective.

    The Manager.
    - [ArtifactStore]: [runtime/artifact_store.py], key normalization and the
      in-memory store with compare-and-swap, fenced and guarded writes.
    - [World]: the store, the lease object and the sources of time and randomness
      a Manager process acts on.
    - [Lease]: [control/lease.py], the leader lease and its fencing token.
    - [Contract]: [control/contract.py], task states and the message codecs.
    - [ReadPlan], [Generation]: [db/read_points.py] and [runtime/generation.py],
      table read plans and the generations that pin them.
    - [WorkQueue]: [control/work_queue.py], every operation of the durable queue;
      [QueueStore], [QueueTasks], [QueueOps], [QueueResults], [QueueHistory],
      [QueueLeadership], [QueueProps], [QueueMembership], [QueueRequests],
      [QueuePublish] prove its properties and [QueueDemo] is a worked run.
    - [Placement]: [control/placement.py], pools, stores and policies of residency
      and tenancy; [PlacementProps] proves what an accepted configuration means.
    - [PolicyBundle]: [control/policy_bundle.py], signed policies with the cached
      copy of the last good one.
    - [Registry]: [control/registry.py], the Agents of the fleet, and [Scheduler]:
      [control/task_scheduler.py], one pass of the scheduler over the queue; their
      theorems are in [RegistryProps] and [SchedulerProps].
    - [Egress]: [control/egress.py], the ledger of transfers.
    - [Federation]: [control/federation.py], the catalog shared by regional
      Managers, the verifier and the coordinator; theorems in [FederationProps].

    Open mirroring.
    - [MirrorState]: [open_mirror/state.py], [changes.py] and [config.py], the state
      kept between cycles and the change sets; [MirrorChanges] proves that a change
      set brings the mirror up to date.
    - [Landing]: [landing_zone.py], [manifest.py], [metadata.py], [publisher.py],
      the files of the landing zone, with the trace of the durable writes;
      [LandingProps]: their names and numbers.
    - [MirrorPublish]: [source.py], the publication of a table by snapshot or by
      watermark and the recovery of a pending batch; [MirrorLog], [MirrorProtocol],
      [MirrorPages], [MirrorLoop] prove the write-ahead protocol, the page query
      and the page loop.

    The Agent.
    - [Sources]: [config.py] (columns, tables, effective settings) and
      [db/capabilities.py] (what each database flavor can do).
    - [Dialects]: [planner/dialects.py], quoting and the split queries as text, one
      function per method of each dialect class.
    - [Snapshots]: [iceberg/state_store.py], the registry of snapshots and splits.
    - [SplitPlanner]: [planner/split_planner.py], keys, ranges, split counts and
      queries; [SplitPartition] proves that the splits partition the rows, and
      [SplitQueries] that the text of each query returns its part.
    - [LruCache]: [cache/lru_cache.py], the result cache and its three tiers; an
      oracle says which file operations fail.
    - [Iceberg]: [iceberg/metadata.py], [manifest.py], [schema.py] and [stats.py],
      the metadata documents; [DeltaLog]: [delta/log.py], the Delta transaction
      log, with theorems in [DeltaProps].
    - [Freshness]: [iceberg/freshness.py], change detection and publication;
      [FreshnessProps]: what a polling cycle keeps.
    - [Materializer]: [runtime/materializer.py], the materialization of a snapshot
      on one Agent; [SplitCompletion]: [runtime/split_completion.py], the records
      by which workers share finished splits; [TableHealth]:
      [runtime/quarantine.py] and [table_health.py], onboarding and retries.
    - [S3Xml], [S3Range], [S3Router]: [s3/xml_responses.py] and [s3/router.py], the
      bodies, the byte ranges and the routes; [ListingProps]: the listing.
    - [Retention]: [enterprise/retention.py], the collection of orphaned files.
    - [Tokenization]: [tokenization/policy.py] and [storage/tokenizer.py], policies,
      tokens and the projection of a batch; theorems in [TokenizationProps].

    Access.
    - [S3Auth]: [s3/auth.py], signature verification, HMAC computed.
    - [Authorization]: [security/authorization.py], users, roles, permissions and
      the user directory.
    - [OperatorGate]: [security/authorization_middleware.py] with the route
      predicates it calls, the gate of the operator API.
    - [AccessKeys]: [security/access_keys.py] and the data-plane middleware of
      [main.py], with the backend key of a mounted object ([storage/mounts.py],
      [storage/passthrough.py]).
    - [Reidentification]: [reidentification/mappings.py], [source_lookup.py],
      [limits.py] and [router.py] with the audit record of [observability/audit.py],
      the lookup of a token's value; theorems in [ReidentificationProps].

    ** How code is represented

    A function that can raise returns [res]; one that changes state is in [M] over
    the state it changes, and the state survives a raise.  A [for] loop is [foldM]
    or a structural recursion, so every definition terminates.  Fuel appears where
    neither fits: the compare-and-swap retries of the lease, the queue and the
    catalog, where the source bounds the attempts by the same number;
    [take_quantiles], whose fuel is the number of quantiles left; the matcher of
    file patterns in [Placement] and the scanner of [redact_loop], which get the
    length of their text, as does the reference reader of XML; the client that
    follows the pages of a listing, one unit per object;
    and [watermark_pages], one unit per page, where
    [watermark_cycle_terminates] shows that one more than the full pages there are
    suffices.  Clock readings and random tokens
    come from the class [Env] and are arbitrary; where a theorem needs a monotone
    clock it says so.  Integers are unbounded as in Python; floating-point
    arithmetic of the planner is computed exactly as binary64 does.  Strings are
    byte strings: a text outside ASCII is its UTF-8 encoding, and functions that
    depend on Unicode properties are modelled on ASCII.  Code outside the
    repository is a parameter: the database session of the planner
    ([read_session]), SQLAlchemy's URL parser, the row counts pyarrow reads, the
    network tests of [ipaddress], the identity services, the Parquet writer, and
    the source database, reflection, clock and leadership of open mirroring, the
    queries, row streams and random identifiers of materialization, the Avro
    encoder, the resolution of a table against its source, the scrubber and
    file of the audit log, and the JSON reader, signature scheme and endpoint of
    policy bundles.  So are the JSON form of a registry record, which holds a float, and the key that
    signs placement receipts.

    ** What the theorems show

    Queue and leadership: a task is claimed by one worker at a time, a result is
    accepted only from the holder of the current claim, every call of any history
    keeps to the published transition table (retrying a failed task apart), a
    deposed Manager changes nothing (the retention calls and the federation's own
    objects apart), creation is idempotent, a published snapshot is complete,
    verified and, without a federation, durable in the queue's own records.
    Generations: once a later one is acquired, every operation under an earlier
    fence is refused.
    Store and lease: fenced writes need the live term, compare-and-swap has one
    winner, fences identify owners, keys stay below the root.
    Planning: every row in the key range is in exactly one split, for equal spans
    and for equal counts, and the text of a split's query selects its part up to the
    row limit; which rows are in none; when planning raises; how many splits are
    chosen; the capability matrix and the generated projections agree.
    Serving: retained splits stay addressable, caches stay within their capacity,
    pinned splits, and persisted ones while file operations succeed, are served
    unchanged; a ranged response is exact, a
    paged listing is complete and ends, replaying the Delta log gives the current
    version, a poll leaves the files of retained versions alone, a completion record
    is read back as it was published, a retry sweep recovers exactly the tables that
    can be brought online without touching the rest, and retention collects the
    orphans only, when keys are in normal form.
    Policies: a loaded policy bundle is verified, and its revision never goes back.
    Fleet: every effective placement stays inside its residency boundary, an Agent
    gets only tasks its policy and its limits allow, commands are delivered once,
    the catalog of generations only moves forward and implements its abstract
    specification, a federated snapshot is verified before it is served, a
    transfer is counted once.
    Mirroring: a crash at any durable step leaves a landing zone that recovery
    completes without loss or duplication, a change set makes the mirror equal to
    the scan, the page query is the lexicographic order, and the page loop ends
    having landed every row once.
    Access: a signature is good for one request only and a correct one is
    accepted; the front door lets in only enabled keys within their scope, by the
    snapshots of the keys it looks at, revoked keys are refused once the cache has
    expired, and a prefix scope confines the object of the backend; role decisions implement an abstract policy, survive
    saving and loading, and never lose the last administrator by disabling;
    re-identification needs the auditor's duty, stays within its quotas and releases
    a value only after its audit event; durable tokens join exactly the equal values
    and a tokenized batch shows nothing else of its source; the limits on mount operations
    hold under every interleaving.
    Examples at the end of a file record where the code departs from its intent.

    ** What is not modelled

    HTTP routing and rendering, process supervision and start-up, logs, metrics
    and dashboards, encryption and cloud identity, Parquet and Avro encoding, the
    database drivers and the remote object stores: they are input and output
    around the parts above, or calls into libraries.  The operator pages
    ([configbuilder], [admin.py], [manager_app.py]) render and edit the
    configuration the modelled parts read.  Mounted buckets are passed through to
    their storage services; materialization sharded over several Agents or pinned
    to a database snapshot is driven by sessions of the database and left out.  Of
    the modelled files, reports for display and file operations are left out. *)

From stdpp Require Export gmap strings list sorting pretty.
From Stdlib Require Export ZArith.
#[global] Open Scope Z_scope.
#[export] Set Warnings "-clear-no-such-hyp".

(** ** Outcomes: a value or a raised Python exception *)

(** The exceptions the modelled code raises or lets through.  A constructor
    carries the part of the message (or the key) that the code builds;
    [Unmodelled] marks a path the model does not follow. *)
Inductive exn :=
| ValueError (msg : string)
| TypeError (msg : string)
| KeyError (key : string)
| AttributeError (msg : string)
| NotImplementedError (msg : string)
| TimeoutError (msg : string)
| RuntimeError (msg : string)
| ObjectNotFound (key : string)
| ObjectConflict (key : string)
| LeaseStoreError (msg : string)
| StaleLeaderError (msg : string)
| WorkQueueError (msg : string)
| WorkQueueConflict (msg : string)
| GenerationError (msg : string)
| AuthorizationError (msg : string)
| LeaseError (msg : string)
| PlacementPolicyViolation (code detail : string)
| AgentVersionUnsupported (detail : string)
| CatalogConflict (msg : string)
| OSError (msg : string)
| StateSafetyError (msg : string)
| PendingStateError (msg : string)
| SourceUnavailable (msg : string)
| TokenizationPolicyError (msg : string)
| TokenizerError (msg : string)
| ReidentificationMappingError (msg : string)
| AuditUnavailable (msg : string)
| PolicyBundleUnavailable (msg : string)
| PolicyBundleValidationError (msg : string)
| Unmodelled (what : string).

#[global] Instance exn_eq_dec : EqDecision exn.
Proof. solve_decision. Defined.

Inductive res (A : Type) :=
| Ok (a : A)
| Err (e : exn).
Arguments Ok {A} a.
Arguments Err {A} e.

#[global] Instance res_eq_dec `{EqDecision A} : EqDecision (res A).
Proof. solve_decision. Defined.

#[global] Instance res_ret : MRet res := fun A a => Ok a.
#[global] Instance res_bind : MBind res := fun A B f m =>
  match m with Ok a => f a | Err e => Err e end.

Definition is_Ok {A} (r : res A) : Prop := exists a, r = Ok a.

Definition of_option {A} (e : exn) (o : option A) : res A :=
  match o with Some a => Ok a | None => Err e end.

(** Apply a fallible function to every element, stopping at the first raise. *)
Fixpoint res_map {A B} (f : A -> res B) (l : list A) : res (list B) :=
  match l with
  | [] => Ok []
  | a :: l => b ← f a; bs ← res_map f l; Ok (b :: bs)
  end.

Lemma bind_Ok {A B} (m : res A) (f : A -> res B) b :
  (m ≫= f) = Ok b -> exists a, m = Ok a /\ f a = Ok b.
Proof. destruct m; [by eexists|done]. Qed.

(** Invert a successful chain of fallible steps. *)
Ltac invert_Ok H :=
  repeat match type of H with
    | (_ ≫= _) = Ok _ => let x := fresh "v" in let E := fresh "E" in
        apply bind_Ok in H as (x & E & H)
    end.

Lemma res_map_Forall {A B} (f : A -> res B) (P : B -> Prop) l k :
  (forall a b, f a = Ok b -> P b) -> res_map f l = Ok k -> Forall P k.
Proof.
  intros Hf. revert k. induction l as [|a l IH]; cbn; intros k H; [by injection H as <-|].
  invert_Ok H. injection H as <-. eauto.
Qed.

Lemma res_map_source {A B} (f : A -> res B) l k b : res_map f l = Ok k -> b ∈ k -> exists a, a ∈ l /\ f a = Ok b.
Proof.
  revert k. induction l as [|a l IH]; intros k Hk Hb; cbn [res_map] in Hk.
  - injection Hk as <-. by apply not_elem_of_nil in Hb.
  - apply bind_Ok in Hk as (b0 & E0 & Hk). apply bind_Ok in Hk as (bs & E1 & Hk). injection Hk as <-.
    apply elem_of_cons in Hb as [->|Hb]; [exists a; split; [left|done]|].
    destruct (IH _ E1 Hb) as (a' & ? & ?). exists a'. split; [by right|done].
Qed.

Lemma res_map_ok {A B} (f : A -> res B) g l :
  (forall a, a ∈ l -> f a = Ok (g a)) -> res_map f l = Ok (map g l).
Proof.
  induction l as [|a l IH]; intros Hf; [done|]. cbn [res_map map]. rewrite Hf by (by left).
  cbn [mbind res_bind]. rewrite IH; [done|]. intros a' Ha'. apply Hf. by right.
Qed.

Lemma res_map_image {A B} (f : A -> res B) l k a : res_map f l = Ok k -> a ∈ l -> exists b, b ∈ k /\ f a = Ok b.
Proof.
  revert k. induction l as [|x l IH]; intros k Hk Ha; [by apply not_elem_of_nil in Ha|]. cbn in Hk.
  apply bind_Ok in Hk as (b0 & E0 & Hk). apply bind_Ok in Hk as (bs & E1 & Hk). injection Hk as <-.
  apply elem_of_cons in Ha as [->|Ha]; [exists b0; split; [left|done]|].
  destruct (IH _ E1 Ha) as (b & ? & ?). exists b. split; [by right|done].
Qed.

Lemma res_map_roundtrip {A B C} (f : B -> res C) (g : A -> B) (h : A -> C) l :
  (forall a, a ∈ l -> f (g a) = Ok (h a)) -> res_map f (map g l) = Ok (map h l).
Proof.
  induction l as [|a l IH]; intros Hf; [done|]. cbn. rewrite Hf by left. cbn. rewrite IH; [done|]. intros. apply Hf. by right.
Qed.

(** ** Insertion-ordered dictionaries *)

Section odict.
Context {V : Type}.
Implicit Types d : list (string * V).

Fixpoint odict_get (k : string) (d : list (string * V)) : option V :=
  match d with
  | [] => None
  | (k', v) :: d => if String.eqb k' k then Some v else odict_get k d
  end.

(** [d[k] = v] *)
Fixpoint odict_set (k : string) (v : V) (d : list (string * V)) : list (string * V) :=
  match d with
  | [] => [(k, v)]
  | (k', v') :: d => if String.eqb k' k then (k', v) :: d else (k', v') :: odict_set k v d
  end.

(** [d.pop(k, None)] *)
Definition odict_pop (k : string) (d : list (string * V)) : list (string * V) :=
  filter (fun kv => kv.1 <> k) d.
End odict.

Lemma odict_get_In {V} k (v : V) d : odict_get k d = Some v -> (k, v) ∈ d.
Proof.
  induction d as [|[k' v'] d IH]; cbn; [done|]. destruct (String.eqb_spec k' k) as [->|].
  - intros [= ->]. by left.
  - right. auto.
Qed.

Lemma odict_get_set_eq {V} k (v : V) d : odict_get k (odict_set k v d) = Some v.
Proof.
  induction d as [|[k' v'] d IH]; cbn; [by rewrite String.eqb_refl|].
  destruct (String.eqb k' k) eqn:E; cbn; by rewrite E.
Qed.

Lemma odict_get_set_ne {V} k k2 (v : V) d : k <> k2 -> odict_get k2 (odict_set k v d) = odict_get k2 d.
Proof.
  intros Hk. induction d as [|[k' v'] d IH]; cbn; [by rewrite (proj2 (String.eqb_neq k k2))|].
  destruct (String.eqb_spec k' k) as [->|]; cbn; [by rewrite (proj2 (String.eqb_neq k k2))|].
  by destruct (String.eqb k' k2).
Qed.

Lemma odict_set_keys {V} k (v : V) d x : x ∈ map fst (odict_set k v d) <-> x = k \/ x ∈ map fst d.
Proof.
  induction d as [|[k' v'] d IH]; cbn.
  - rewrite list_elem_of_singleton. split; [by left|]. intros [?|?%not_elem_of_nil]; done.
  - destruct (String.eqb_spec k' k) as [->|]; cbn; rewrite !elem_of_cons, ?IH; tauto.
Qed.

Lemma odict_set_NoDup {V} k (v : V) d : NoDup (map fst d) -> NoDup (map fst (odict_set k v d)).
Proof.
  induction d as [|[k' v'] d IH]; cbn; [intros _; by apply NoDup_singleton|].
  intros [Hk Hd]%NoDup_cons. destruct (String.eqb_spec k' k) as [->|]; cbn; apply NoDup_cons; [done|].
  split; [|auto]. rewrite odict_set_keys. naive_solver.
Qed.

Lemma elem_of_odict_set {V} k (v : V) d x : x ∈ odict_set k v d -> x = (k, v) \/ x ∈ d.
Proof.
  induction d as [|[k' v'] d IH]; cbn; [by intros ->%list_elem_of_singleton; left|].
  destruct (String.eqb_spec k' k) as [->|]; intros [->|Hin]%elem_of_cons; [by left|right; by right|right; by left|].
  destruct (IH Hin); [by left|right; by right].
Qed.

Lemma odict_set_other {V} k (v : V) d x : x ∈ d -> x.1 <> k -> x ∈ odict_set k v d.
Proof.
  induction d as [|[k' v'] d IH]; cbn; [by intros ?%not_elem_of_nil|].
  intros [->|Hin]%elem_of_cons Hx.
  - cbn in Hx. rewrite (proj2 (String.eqb_neq k' k) Hx). by left.
  - destruct (String.eqb k' k); right; auto.
Qed.

Lemma odict_set_fresh {V} k (v : V) d : k ∉ map fst d -> odict_set k v d = d ++ [(k, v)].
Proof.
  induction d as [|[k' v'] d IH]; [done|]. cbn. intros Hk. apply not_elem_of_cons in Hk as [Hk Hd].
  rewrite (proj2 (String.eqb_neq k' k)) by done. by rewrite IH.
Qed.

Lemma odict_get_elem {V} k (v : V) d : NoDup (map fst d) -> (k, v) ∈ d -> odict_get k d = Some v.
Proof.
  induction d as [|[k' v'] d IH]; cbn; [by intros _ ?%not_elem_of_nil|].
  intros [Hk Hd]%NoDup_cons [[= -> ->]|Hin]%elem_of_cons; [by rewrite String.eqb_refl|].
  destruct (String.eqb_spec k' k) as [->|]; [|auto]. destruct Hk. apply list_elem_of_fmap. by exists (k, v).
Qed.

Lemma odict_get_perm {V W} (f : V -> W) (l l' : list (string * V)) k : NoDup (map fst l) -> l' ≡ₚ l ->
  odict_get k (map (fun kv => (kv.1, f kv.2)) l') = f <$> odict_get k l.
Proof.
  intros Hn Hp. assert (Hn' : NoDup (map fst l')) by (by rewrite Hp).
  transitivity (f <$> odict_get k l').
  { clear. induction l' as [|[k' v] l' IH]; [done|]. cbn. by destruct (String.eqb k' k). }
  f_equal. destruct (odict_get k l) as [v|] eqn:E.
  - apply odict_get_elem; [done|]. rewrite Hp. by apply odict_get_In.
  - destruct (odict_get k l') as [v|] eqn:E'; [|done]. apply odict_get_In in E'. rewrite Hp in E'.
    rewrite (odict_get_elem _ _ _ Hn E') in E. done.
Qed.

(** Two dictionaries updated together stay related key by key. *)
Section paired.
Context {V W : Type} (P : string -> V -> W -> Prop).

Definition paired (d : list (string * V)) (e : list (string * W)) : Prop :=
  Forall2 (fun kv kw => kw.1 = kv.1 /\ P kv.1 kv.2 kw.2) d e.

Lemma paired_set d e k v w : paired d e -> P k v w -> paired (odict_set k v d) (odict_set k w e).
Proof.
  intros Hde Hp. induction Hde as [|[k1 v1] [k2 w1] d e [Hk Hv] Hde IH]; cbn in *.
  { by constructor; [|constructor]. }
  subst k2. destruct (String.eqb_spec k1 k) as [->|]; by constructor.
Qed.

Lemma paired_pop d e k : paired d e -> paired (odict_pop k d) (odict_pop k e).
Proof.
  intros Hde. induction Hde as [|[k1 v1] [k2 w1] d e [Hk Hv] Hde IH]; [constructor|].
  cbn [fst snd] in Hk, Hv. subst k2. unfold odict_pop in *. destruct (decide (k1 = k)) as [->|Hk].
  - by rewrite !filter_cons_False by (cbn; naive_solver).
  - rewrite !filter_cons_True by done. by constructor.
Qed.

Lemma paired_get d e k :
  paired d e ->
  (odict_get k d = None /\ odict_get k e = None) \/
  exists v w, odict_get k d = Some v /\ odict_get k e = Some w /\ P k v w.
Proof.
  intros Hde. induction Hde as [|[k1 v1] [k2 w1] d e [Hk Hv] Hde IH]; [by left|].
  cbn in *. subst k2. destruct (String.eqb_spec k1 k) as [->|]; [right; by exists v1, w1|done].
Qed.

Lemma paired_In_l d e k v : paired d e -> (k, v) ∈ d -> exists w, (k, w) ∈ e /\ P k v w.
Proof.
  intros Hde. induction Hde as [|[k1 v1] [k2 w1] d e [Hk Hv] Hde IH]; [by intros ?%not_elem_of_nil|].
  cbn in *. subst k2. intros [[= <- <-]|Hin]%elem_of_cons; [exists w1; split; [by left|done]|].
  destruct (IH Hin) as (w & ? & ?). exists w. split; [by right|done].
Qed.
End paired.

(** ** Stateful code: a state and exception monad

    [M S A] is a computation over the mutable state [S]; the state survives
    a raised exception, as Python's does. *)
Definition M (S A : Type) : Type := S -> res A * S.

#[global] Instance M_ret S : MRet (M S) := fun A a s => (Ok a, s).
#[global] Instance M_bind S : MBind (M S) := fun A B f m s =>
  match m s with
  | (Ok a, s') => f a s'
  | (Err e, s') => (Err e, s')
  end.

Lemma run_bind {S A B} (m : M S A) (f : A -> M S B) a s s' : m s = (Ok a, s') -> (m ≫= f) s = f a s'.
Proof. intros H. unfold mbind, M_bind. by rewrite H. Qed.

Definition raise {S A} (e : exn) : M S A := fun s => (Err e, s).
Definition lift {S A} (r : res A) : M S A := fun s => (r, s).
Definition gets {S A} (f : S -> A) : M S A := fun s => (Ok (f s), s).
Definition modify {S} (f : S -> S) : M S unit := fun s => (Ok tt, f s).

(** Split a successful run at its first step. *)
Lemma fbind_Ok {S A B} (m : M S A) (f : A -> M S B) w b w' :
  (m ≫= f) w = (Ok b, w') -> exists a w1, m w = (Ok a, w1) /\ f a w1 = (Ok b, w').
Proof. unfold mbind, M_bind. destruct (m w) as [[a|e] w1]; [by exists a, w1|done]. Qed.

Lemma lift_Ok {S A} (r : res A) (w : S) a w' : lift r w = (Ok a, w') -> r = Ok a /\ w' = w.
Proof. by intros [= -> ->]. Qed.

(** Take successful steps apart: pure checks are turned into their results. *)
Ltac run_Ok H :=
  repeat match type of H with
    | (_ ≫= _) _ = (Ok _, _) =>
        let a := fresh "a" in let w := fresh "w" in let E := fresh "E" in
        apply fbind_Ok in H as (a & w & E & H);
        lazymatch type of E with lift _ _ = _ => apply lift_Ok in E as [E ->] | _ => idtac end
    end.

(** [try m except h]: the handler sees the state the raising code left. *)
Definition catch {S A} (m : M S A) (h : exn -> M S A) : M S A := fun s =>
  match m s with
  | (Err e, s') => h e s'
  | r => r
  end.

(** A [for] loop with one accumulated variable. *)
Fixpoint foldM {S A B} (f : B -> A -> M S B) (b : B) (l : list A) : M S B :=
  match l with
  | [] => mret b
  | a :: l => b' ← f b a; foldM f b' l
  end.

Definition forM_ {S A} (f : A -> M S unit) (l : list A) : M S unit :=
  foldM (fun _ a => f a) tt l.

(** ** Reasoning about stateful code *)

Definition wp {S A} (m : M S A) (Q : res A -> S -> Prop) (s : S) : Prop :=
  Q (m s).1 (m s).2.

Section wp.
Context {S : Type}.
Implicit Types s : S.

Lemma wp_ret {A} (a : A) Q s : Q (Ok a) s -> wp (mret a) Q s.
Proof. done. Qed.

Lemma wp_raise {A} e (Q : res A -> S -> Prop) s : Q (Err e) s -> wp (raise e) Q s.
Proof. done. Qed.

Lemma wp_lift {A} (r : res A) Q s : Q r s -> wp (lift r) Q s.
Proof. done. Qed.

Lemma wp_bind {A B} (m : M S A) (f : A -> M S B) Q s :
  wp m (fun r s' => match r with Ok a => wp (f a) Q s' | Err e => Q (Err e) s' end) s ->
  wp (m ≫= f) Q s.
Proof.
  unfold wp, mbind, M_bind. destruct (m s) as [[a|e] s'] eqn:E; done.
Qed.

Lemma wp_run {A} (m : M S A) r s s' (Q : res A -> S -> Prop) :
  m s = (r, s') -> Q r s' -> wp m Q s.
Proof. unfold wp. by intros ->. Qed.

Lemma wp_mono {A} (m : M S A) (P Q : res A -> S -> Prop) s :
  wp m P s -> (forall r s', P r s' -> Q r s') -> wp m Q s.
Proof. unfold wp. eauto. Qed.

(** Loop rule: [I] holds of the elements still to visit and the state. *)
Lemma wp_foldM {A B} (f : B -> A -> M S B) (I : B -> list A -> S -> Prop)
    (E : exn -> S -> Prop) :
  (forall b a l s, I b (a :: l) s ->
     wp (f b a) (fun r s' => match r with Ok b' => I b' l s' | Err e => E e s' end) s) ->
  forall l b s, I b l s ->
    wp (foldM f b l) (fun r s' => match r with Ok b' => I b' [] s' | Err e => E e s' end) s.
Proof.
  intros Hstep l. induction l as [|a l IH]; intros b s HI; [done|].
  apply wp_bind. eapply wp_mono; [by apply Hstep|].
  intros [b'|e] s'; [apply IH|done].
Qed.
End wp.

(** ** Invariants and evolution relations

    [maintains I R m]: from a state satisfying [I], [m] ends (normally or by a
    raise) in a state satisfying [I] and related to the first by [R]. *)
Definition maintains {S A} (I : S -> Prop) (R : S -> S -> Prop) (m : M S A) : Prop :=
  forall s, I s -> I (m s).2 /\ R s (m s).2.

Section maintains.
Context {S : Type} (I : S -> Prop) (R : S -> S -> Prop) `{!PreOrder R}.

Lemma maintains_pure {A} (m : M S A) :
  (forall s, (m s).2 = s) -> maintains I R m.
Proof. intros H s HI. rewrite H. split; [done|reflexivity]. Qed.

Lemma maintains_ret {A} (a : A) : maintains I R (mret a).
Proof. by apply maintains_pure. Qed.

Lemma maintains_raise {A} e : maintains I R (raise (A:=A) e).
Proof. by apply maintains_pure. Qed.

Lemma maintains_lift {A} (r : res A) : maintains I R (lift r).
Proof. by apply maintains_pure. Qed.

Lemma maintains_gets {A} (f : S -> A) : maintains I R (gets f).
Proof. by apply maintains_pure. Qed.

Lemma maintains_bind {A B} (m : M S A) (f : A -> M S B) :
  maintains I R m -> (forall a, maintains I R (f a)) -> maintains I R (m ≫= f).
Proof.
  intros Hm Hf s HI. destruct (Hm s HI) as [HI' HR].
  unfold mbind, M_bind. destruct (m s) as [[a|e] s'] eqn:E; simpl in *; [|done].
  destruct (Hf a s' HI') as [??]. split; [done|]. by etrans.
Qed.

Lemma maintains_foldM {A B} (f : B -> A -> M S B) l : forall b,
  (forall b a, maintains I R (f b a)) -> maintains I R (foldM f b l).
Proof.
  induction l as [|a l IH]; intros b Hf; [apply maintains_ret|].
  apply maintains_bind; [done|]. intros b'. by apply IH.
Qed.

Lemma maintains_catch {A} (m : M S A) h :
  maintains I R m -> (forall e, maintains I R (h e)) -> maintains I R (catch m h).
Proof.
  intros Hm Hh s HI. destruct (Hm s HI) as [HI' HR].
  unfold catch. destruct (m s) as [[a|e] s'] eqn:E; simpl in *; [done|].
  destruct (Hh e s' HI') as [??]. split; [done|]. by etrans.
Qed.
End maintains.

Create HintDb fsp.
#[export] Hint Resolve maintains_ret maintains_raise maintains_lift maintains_gets : fsp.

(** One symbolic step of a [wp] goal. *)
Ltac wp_step :=
  lazymatch goal with
  | |- wp (mret _) _ _ => apply wp_ret
  | |- wp (raise _) _ _ => apply wp_raise
  | |- wp (lift _) _ _ => apply wp_lift
  | |- wp (_ ≫= _) _ _ => apply wp_bind
  end.

(** Case analysis on the scrutinee of the [match] in the goal. *)
Ltac case_scrut :=
  match goal with
  | |- context [match ?x with _ => _ end] =>
      lazymatch x with
      | context [match _ with _ => _ end] => fail
      | _ => destruct x eqn:?
      end
  end.

(** ** Generic facts on integers, lists and options *)

Lemma bool_decide_reflect_false (P : Prop) `{Decision P} :
  bool_decide P = false <-> ~ P.
Proof. apply bool_decide_eq_false. Qed.

Lemma Forall_filter_keep {A} (P : A -> Prop) (f : A -> Prop) `{forall x, Decision (f x)} l :
  Forall P l -> Forall P (filter f l).
Proof. rewrite !Forall_forall. intros HP x Hx. apply list_elem_of_filter in Hx as [??]. auto. Qed.

Lemma Forall_elem {A} (P : A -> Prop) l x : Forall P l -> x ∈ l -> P x.
Proof. rewrite Forall_forall. auto. Qed.

(** Truthiness tests of Python's [x or y] on strings and integers. *)
Definition truthy_str (s : string) : bool := negb (String.eqb s "").
Definition truthy_int (z : Z) : bool := negb (z =? 0).
Definition str_or (a b : string) : string := if truthy_str a then a else b.
Definition int_or (a b : Z) : Z := if truthy_int a then a else b.

Lemma truthy_str_true s : truthy_str s = true <-> s <> "".
Proof. unfold truthy_str. rewrite negb_true_iff. apply String.eqb_neq. Qed.
Lemma truthy_str_false s : truthy_str s = false <-> s = "".
Proof. unfold truthy_str. rewrite negb_false_iff. apply String.eqb_eq. Qed.
