(* ===== verification/PyText.v ===== *)
(** * Python text operations

    The [str] methods the modelled code uses ([replace], [strip], [split],
    [join], [startswith], [rpartition], [lower], [int()], zero padded
    formatting), on strings of bytes, with the lemmas the store keys need. *)

From S2P Require Import Prelude.
From Stdlib Require Import Ascii.

(** ** Definitions *)

Fixpoint str_map (f : ascii -> ascii) (s : string) : string :=
  match s with
  | EmptyString => EmptyString
  | String a s => String (f a) (str_map f s)
  end.

Fixpoint str_forallb (p : ascii -> bool) (s : string) : bool :=
  match s with
  | EmptyString => true
  | String a s => p a && str_forallb p s
  end.

(** [s.replace(a, b)] for one-character [a] and [b]. *)
Definition replace_char (a b : ascii) : string -> string :=
  str_map (fun c => if Ascii.eqb c a then b else c).

Fixpoint lstrip_char (c : ascii) (s : string) : string :=
  match s with
  | String a s' => if Ascii.eqb a c then lstrip_char c s' else s
  | EmptyString => EmptyString
  end.

Fixpoint rstrip_char (c : ascii) (s : string) : string :=
  match s with
  | String a s' =>
      let r := rstrip_char c s' in
      if Ascii.eqb a c && String.eqb r "" then "" else String a r
  | EmptyString => EmptyString
  end.

Definition strip_char (c : ascii) (s : string) : string :=
  rstrip_char c (lstrip_char c s).

(** [s.split(c)]: never empty. *)
Fixpoint split_on (c : ascii) (s : string) : list string :=
  match s with
  | EmptyString => [""]
  | String a s' =>
      if Ascii.eqb a c then "" :: split_on c s'
      else match split_on c s' with
           | x :: xs => String a x :: xs
           | [] => [String a ""]
           end
  end.

Definition join (sep : string) (l : list string) : string := String.concat sep l.

Definition startswith (s p : string) : bool := String.prefix p s.

Fixpoint str_rev_app (s acc : string) : string :=
  match s with
  | EmptyString => acc
  | String a s => str_rev_app s (String a acc)
  end.
Definition str_rev (s : string) : string := str_rev_app s "".

Definition endswith (s p : string) : bool := startswith (str_rev s) (str_rev p).

(** [s.find(c)] as an option: what precedes and what follows the first [c]. *)
Fixpoint partition (c : ascii) (s : string) : option (string * string) :=
  match s with
  | EmptyString => None
  | String a s' =>
      if Ascii.eqb a c then Some ("", s')
      else match partition c s' with
           | Some (h, t) => Some (String a h, t)
           | None => None
           end
  end.

(** [s.rpartition(c)[0]]: the part before the last [c], or [""]. *)
Fixpoint rpartition_head (c : ascii) (s : string) : string :=
  match s with
  | EmptyString => ""
  | String a s' =>
      match partition c s' with
      | Some _ => String a (rpartition_head c s')
      | None => ""
      end
  end.

Fixpoint str_take (n : nat) (s : string) : string :=
  match n, s with
  | S n, String a s => String a (str_take n s)
  | _, _ => ""
  end.

Fixpoint str_drop (n : nat) (s : string) : string :=
  match n, s with
  | O, _ => s
  | S n, String _ s => str_drop n s
  | S _, EmptyString => ""
  end.

Definition ascii_lower (a : ascii) : ascii :=
  let n := N_of_ascii a in
  if (N.leb 65 n && N.leb n 90)%bool then ascii_of_N (n + 32) else a.
Definition lower : string -> string := str_map ascii_lower.

Definition is_space (a : ascii) : bool :=
  let n := N_of_ascii a in
  (N.leb 9 n && N.leb n 13) || (N.leb 28 n && N.leb n 32).

Fixpoint lstrip (s : string) : string :=
  match s with
  | String a s' => if is_space a then lstrip s' else s
  | EmptyString => EmptyString
  end.
Definition strip (s : string) : string := str_rev (lstrip (str_rev (lstrip s))).

(** [s.strip("{}")] *)
Definition is_brace (a : ascii) : bool := Ascii.eqb a "{" || Ascii.eqb a "}".
Fixpoint lstrip_braces (s : string) : string :=
  match s with
  | String a s' => if is_brace a then lstrip_braces s' else s
  | EmptyString => ""
  end.
Definition strip_braces (s : string) : string := str_rev (lstrip_braces (str_rev (lstrip_braces s))).

Definition digit_value (a : ascii) : option Z :=
  let n := Z.of_N (N_of_ascii a) in
  if (48 <=? n) && (n <=? 57) then Some (n - 48) else None.

(** The digits of [int()]: at least one, single underscores allowed between
    two digits. *)
Fixpoint digits_value (acc : Z) (s : string) : option Z :=
  match s with
  | EmptyString => Some acc
  | String a s' =>
      match digit_value a with
      | Some d => digits_value (10 * acc + d) s'
      | None =>
          match s' with
          | String b s'' =>
              match Ascii.eqb a "_", digit_value b with
              | true, Some d => digits_value (10 * acc + d) s''
              | _, _ => None
              end
          | EmptyString => None
          end
      end
  end.

Definition unsigned_value (s : string) : option Z :=
  match s with
  | String a s' =>
      match digit_value a with Some d => digits_value d s' | None => None end
  | EmptyString => None
  end.

(** [int(s)] on a string. *)
Definition int_of_string (s : string) : option Z :=
  match strip s with
  | String a s' =>
      if Ascii.eqb a "-" then Z.opp <$> unsigned_value s'
      else if Ascii.eqb a "+" then unsigned_value s'
      else unsigned_value (String a s')
  | EmptyString => None
  end.

Fixpoint zeros (n : nat) : string :=
  match n with O => "" | S n => String "0" (zeros n) end.

(** [f"{n:020d}"] for a nonnegative [n]. *)
Definition pad20 (z : Z) : string :=
  let s := pretty z in zeros (20 - String.length s) +:+ s.

(** [sorted(set(l))], strings compared by their characters *)
Definition str_le (a b : string) : Prop := (a ≤ b)%string.
#[global] Instance str_le_dec a b : Decision (str_le a b).
Proof. unfold str_le. apply _. Defined.
Definition sorted_set (l : list string) : list string := merge_sort str_le (remove_dups l).

Lemma str_le_total a b : str_le a b \/ str_le b a.
Proof. unfold str_le. apply total. apply _. Qed.
Lemma str_le_trans a b c : str_le a b -> str_le b c -> str_le a c.
Proof. unfold str_le. apply transitivity. Qed.
Lemma str_le_antisym a b : str_le a b -> str_le b a -> a = b.
Proof. unfold str_le. apply (anti_symm (≤)%string). Qed.

Definition is_hex_lower (a : ascii) : bool :=
  let n := N_of_ascii a in
  (N.leb 48 n && N.leb n 57) || (N.leb 97 n && N.leb n 102).

Definition is_hex (a : ascii) : bool :=
  let n := N_of_ascii a in is_hex_lower a || (N.leb 65 n && N.leb n 70).

(** ** Lemmas *)

#[local] Arguments String.append !_ _ /.

Lemma app_assoc_s (a b c : string) : (a +:+ b) +:+ c = a +:+ (b +:+ c).
Proof. induction a; cbn; f_equal; auto. Qed.

Lemma app_nil_r_s (a : string) : a +:+ "" = a.
Proof. induction a; cbn; f_equal; auto. Qed.

Lemma app_cons_s a (s t : string) : String a s +:+ t = String a (s +:+ t).
Proof. done. Qed.

Lemma length_app_s (a b : string) :
  (String.length (a +:+ b) = String.length a + String.length b)%nat.
Proof. induction a; cbn; auto. Qed.

Lemma app_inv_l_s (a x y : string) : a +:+ x = a +:+ y -> x = y.
Proof. induction a as [|c a IH]; [done|]. cbn. intros H. injection H. exact IH. Qed.
Lemma app_inv_r_s (a b c : string) : a +:+ c = b +:+ c -> a = b.
Proof.
  revert b. induction a as [|x a IH]; intros [|y b] H; [done| | |].
  - apply (f_equal String.length) in H. cbn in H. rewrite length_app_s in H. lia.
  - apply (f_equal String.length) in H. cbn in H. rewrite length_app_s in H. lia.
  - cbn in H. injection H as -> H. f_equal. by apply IH.
Qed.

Lemma str_forallb_app p (a b : string) :
  str_forallb p (a +:+ b) = str_forallb p a && str_forallb p b.
Proof. induction a; cbn; [done|]. by rewrite IHa, andb_assoc. Qed.

Lemma str_forallb_impl (p q : ascii -> bool) s :
  (forall a, p a = true -> q a = true) -> str_forallb p s = true -> str_forallb q s = true.
Proof.
  intros Hpq. induction s as [|a s IH]; cbn; [done|].
  rewrite !andb_true_iff. intros [??]; auto.
Qed.

Lemma length_str_map f s : String.length (str_map f s) = String.length s.
Proof. induction s as [|a s IH]; [done|]. cbn. by rewrite IH. Qed.

Lemma str_map_app f (a b : string) : str_map f (a +:+ b) = str_map f a +:+ str_map f b.
Proof. induction a; cbn; f_equal; auto. Qed.

Lemma replace_char_app a b (s t : string) :
  replace_char a b (s +:+ t) = replace_char a b s +:+ replace_char a b t.
Proof. apply str_map_app. Qed.

Lemma replace_char_id a b s :
  str_forallb (fun c => negb (Ascii.eqb c a)) s = true -> replace_char a b s = s.
Proof.
  unfold replace_char. induction s as [|c s IH]; cbn; [done|].
  rewrite andb_true_iff, negb_true_iff. intros [-> Hs]. by rewrite IH.
Qed.

Lemma startswith_app (p s : string) : startswith (p +:+ s) p = true.
Proof.
  unfold startswith. induction p as [|a p IH]; cbn; [by destruct s|].
  destruct (ascii_dec a a); [done|congruence].
Qed.

Lemma startswith_inv (s p : string) : startswith s p = true -> exists t, s = p +:+ t.
Proof.
  unfold startswith. revert s. induction p as [|a p IH]; intros s; [by exists s|].
  destruct s as [|b s]; cbn; [done|].
  destruct (ascii_dec a b) as [->|]; [|done].
  intros [t ->]%IH. by exists t.
Qed.

Lemma startswith_spec (s p : string) : startswith s p = true <-> exists t, s = p +:+ t.
Proof.
  split; [apply startswith_inv|]. intros [t ->]. apply startswith_app.
Qed.

Lemma split_on_ne c s : split_on c s <> [].
Proof. destruct s as [|a s]; cbn; [done|]. destruct (Ascii.eqb a c); [done|]. by destruct (split_on c s). Qed.

Lemma split_on_free c s :
  Forall (fun p => str_forallb (fun a => negb (Ascii.eqb a c)) p = true) (split_on c s).
Proof.
  induction s as [|a s IH]; cbn; [by constructor|].
  destruct (Ascii.eqb a c) eqn:E; [by constructor|].
  destruct (split_on c s) as [|x xs]; [repeat constructor; cbn; by rewrite E|].
  inversion IH; subst. constructor; [|done]. cbn. by rewrite E.
Qed.

Lemma split_on_app c (a b : string) :
  split_on c (a +:+ String c b) = split_on c a ++ split_on c b.
Proof.
  induction a as [|x a IH]; cbn.
  - by rewrite Ascii.eqb_refl.
  - destruct (Ascii.eqb x c); [by rewrite IH|]. rewrite IH.
    destruct (split_on c a) as [|y ys] eqn:E; [by apply split_on_ne in E|done].
Qed.

Lemma split_on_single c s :
  str_forallb (fun a => negb (Ascii.eqb a c)) s = true -> split_on c s = [s].
Proof.
  induction s as [|a s IH]; cbn; [done|].
  rewrite andb_true_iff, negb_true_iff. intros [-> Hs]. by rewrite IH.
Qed.

Lemma join_cons c (x : string) xs : xs <> [] ->
  join (String c "") (x :: xs) = x +:+ String c (join (String c "") xs).
Proof. by destruct xs. Qed.

Lemma split_on_join c l : l <> [] ->
  Forall (fun p => str_forallb (fun a => negb (Ascii.eqb a c)) p = true) l ->
  split_on c (join (String c "") l) = l.
Proof.
  intros Hne Hl. induction Hl as [|x xs Hx Hxs IH]; [done|].
  destruct (decide (xs = [])) as [->|Hxs'].
  - cbn. by apply split_on_single.
  - rewrite join_cons by done. rewrite split_on_app, IH, split_on_single by done. done.
Qed.

Lemma join_split_on c s : join (String c "") (split_on c s) = s.
Proof.
  induction s as [|a s IH]; cbn; [done|].
  destruct (Ascii.eqb a c) eqn:E.
  - apply Ascii.eqb_eq in E as ->.
    rewrite join_cons by apply split_on_ne. by rewrite IH.
  - destruct (split_on c s) as [|x xs] eqn:Es; [by apply split_on_ne in Es|].
    destruct xs as [|y ys]; cbn in *; [by rewrite IH|]. by rewrite IH.
Qed.

Lemma join_app c (l k : list string) : l <> [] -> k <> [] ->
  join (String c "") (l ++ k) = join (String c "") l +:+ String c (join (String c "") k).
Proof.
  intros Hl Hk. induction l as [|x l IH]; [done|].
  destruct (decide (l = [])) as [->|Hl'].
  - cbn [app]. by rewrite join_cons.
  - cbn [app]. rewrite !join_cons by (try done; by destruct l).
    rewrite IH by done. rewrite app_assoc_s. done.
Qed.

(** Stripping separators changes the pieces of a split only by empty ones. *)
Definition nonempty_str (s : string) : Prop := s <> "".
#[global] Instance nonempty_str_dec s : Decision (nonempty_str s).
Proof. unfold nonempty_str. apply _. Defined.

Lemma split_lstrip c s :
  filter nonempty_str (split_on c (lstrip_char c s)) = filter nonempty_str (split_on c s).
Proof.
  induction s as [|a s IH]; [done|]. cbn [lstrip_char].
  destruct (Ascii.eqb a c) eqn:E; [|done].
  rewrite IH. cbn [split_on]. by rewrite E.
Qed.

(** The first piece survives [rstrip]; the later ones lose only empty pieces. *)
Lemma split_rstrip_strong c s : forall x xs y ys,
  split_on c (rstrip_char c s) = x :: xs -> split_on c s = y :: ys ->
  x = y /\ filter nonempty_str xs = filter nonempty_str ys.
Proof.
  induction s as [|b s IHs]; intros x xs y ys E1 E2; [cbn in *; by simplify_eq|].
  cbn [rstrip_char] in E1. cbn [split_on] in E2.
  destruct (split_on c s) as [|y0 ys0] eqn:Es; [by apply split_on_ne in Es|].
  destruct (split_on c (rstrip_char c s)) as [|x0 xs0] eqn:Ex; [by apply split_on_ne in Ex|].
  destruct (IHs _ _ _ _ eq_refl eq_refl) as [-> Hf].
  destruct (Ascii.eqb b c) eqn:Eb; cbn [andb] in E1.
  - destruct (String.eqb (rstrip_char c s) "") eqn:Er.
    + apply String.eqb_eq in Er. rewrite Er in Ex. cbn in E1, Ex. simplify_eq.
      split; [done|].
      by rewrite (filter_cons_False nonempty_str "") by (unfold nonempty_str; congruence).
    + cbn [split_on] in E1. rewrite Eb, Ex in E1. simplify_eq. split; [done|].
      by rewrite !filter_cons, Hf.
  - cbn [split_on] in E1. rewrite Eb, Ex in E1. by simplify_eq.
Qed.

Lemma split_rstrip c s :
  filter nonempty_str (split_on c (rstrip_char c s)) = filter nonempty_str (split_on c s).
Proof.
  destruct (split_on c (rstrip_char c s)) as [|x xs] eqn:E1; [by apply split_on_ne in E1|].
  destruct (split_on c s) as [|y ys] eqn:E2; [by apply split_on_ne in E2|].
  destruct (split_rstrip_strong _ _ _ _ _ _ E1 E2) as [-> Hf]. by rewrite !filter_cons, Hf.
Qed.

Lemma split_strip c s :
  filter nonempty_str (split_on c (strip_char c s)) = filter nonempty_str (split_on c s).
Proof. unfold strip_char. by rewrite split_rstrip, split_lstrip. Qed.

Lemma str_take_length n s : (String.length (str_take n s) <= n)%nat.
Proof. revert s. induction n; intros [|]; cbn; try lia. specialize (IHn s). lia. Qed.

Lemma str_take_drop n s : str_take n s +:+ str_drop n s = s.
Proof. revert s. induction n as [|n IH]; intros [|a s]; cbn; try done. by rewrite IH. Qed.

Lemma str_drop_length n s : (String.length (str_drop n s) = String.length s - n)%nat.
Proof. revert s. induction n; intros [|]; cbn; try lia. by rewrite IHn. Qed.

Lemma str_drop_app (a b : string) : str_drop (String.length a) (a +:+ b) = b.
Proof. induction a as [|x a IH]; [by destruct b|]. exact IH. Qed.

(** A character that does not occur. *)
Definition char_free (c : ascii) (s : string) : bool := str_forallb (fun a => negb (Ascii.eqb a c)) s.

Lemma partition_app_free c s t : char_free c s = true -> partition c (s +:+ String c t) = Some (s, t).
Proof.
  induction s as [|a s IH]; intros Hs.
  - change (partition c (String c t) = Some ("", t)). cbn [partition]. by rewrite Ascii.eqb_refl.
  - apply andb_true_iff in Hs as [Ha Hs]. apply negb_true_iff in Ha. rewrite app_cons_s. cbn [partition].
    by rewrite Ha, IH.
Qed.

Lemma partition_free c s : char_free c s = true -> partition c s = None.
Proof.
  induction s as [|a s IH]; [done|]. intros [Ha Hs]%andb_true_iff. apply negb_true_iff in Ha.
  cbn [partition]. by rewrite Ha, IH.
Qed.

(** ** Reversal, white space and case *)

Definition unspaced (s : string) : bool := str_forallb (fun a => negb (is_space a)) s.

Lemma str_rev_app_spec s acc : str_rev_app s acc = str_rev s +:+ acc.
Proof.
  unfold str_rev. revert acc. induction s as [|a s IH]; intros acc; [done|]. cbn [str_rev_app].
  rewrite (IH (String a acc)), (IH (String a "")). by rewrite app_assoc_s.
Qed.

Lemma str_rev_cons a s : str_rev (String a s) = str_rev s +:+ String a "".
Proof. unfold str_rev at 1. cbn [str_rev_app]. apply str_rev_app_spec. Qed.

Lemma str_rev_app_dist s t : str_rev (s +:+ t) = str_rev t +:+ str_rev s.
Proof.
  induction s as [|a s IH]; [by rewrite app_nil_r_s|]. rewrite app_cons_s, !str_rev_cons, IH. apply app_assoc_s.
Qed.

Lemma str_rev_involutive s : str_rev (str_rev s) = s.
Proof. induction s as [|a s IH]; [done|]. rewrite str_rev_cons, str_rev_app_dist, IH. done. Qed.

Lemma unspaced_rev s : unspaced (str_rev s) = unspaced s.
Proof.
  unfold unspaced. induction s as [|a s IH]; [done|]. rewrite str_rev_cons, str_forallb_app, IH. cbn.
  by rewrite andb_true_r, andb_comm.
Qed.

Lemma lstrip_unspaced s : unspaced s = true -> lstrip s = s.
Proof. destruct s as [|a s]; [done|]. cbn. intros [Ha _]%andb_prop. apply negb_true_iff in Ha. by rewrite Ha. Qed.

Lemma strip_unspaced s : unspaced s = true -> strip s = s.
Proof.
  intros Hs. unfold strip. rewrite (lstrip_unspaced s Hs), lstrip_unspaced by (by rewrite unspaced_rev).
  apply str_rev_involutive.
Qed.

Lemma unspaced_app a b : unspaced (a +:+ b) = unspaced a && unspaced b.
Proof. apply str_forallb_app. Qed.

Lemma lstrip_idem s : lstrip (lstrip s) = lstrip s.
Proof. induction s as [|a s IH]; [done|]. cbn. destruct (is_space a) eqn:E; [done|]. cbn. by rewrite E. Qed.

(** What [lstrip] drops is white space. *)
Lemma lstrip_suffix s : exists w, s = w +:+ lstrip s.
Proof.
  induction s as [|a s [w IH]]; [by exists ""|]. cbn. destruct (is_space a); [|by exists ""].
  exists (String a w). by rewrite app_cons_s, <- IH.
Qed.

Lemma lstrip_prefix s t : s <> "" -> lstrip (s +:+ t) = s +:+ t -> lstrip s = s.
Proof.
  destruct s as [|a s]; [done|]. intros _. rewrite app_cons_s. cbn. destruct (is_space a) eqn:E; [|done].
  intros H. destruct (lstrip_suffix (s +:+ t)) as [w Hw]. rewrite H in Hw.
  apply (f_equal String.length) in Hw. rewrite (length_app_s w) in Hw. cbn [String.length] in Hw. lia.
Qed.

Lemma strip_idem s : strip (strip s) = strip s.
Proof.
  unfold strip at 2 3. set (u := lstrip (str_rev (lstrip s))).
  assert (Hu : lstrip (str_rev u) = str_rev u).
  { destruct (lstrip_suffix (str_rev (lstrip s))) as [w Hw]. fold u in Hw.
    apply (f_equal str_rev) in Hw. rewrite str_rev_involutive, str_rev_app_dist in Hw.
    destruct (decide (str_rev u = "")) as [->|Hne]; [done|].
    apply (lstrip_prefix _ (str_rev w)); [done|]. rewrite <- Hw. apply lstrip_idem. }
  unfold strip. rewrite Hu, str_rev_involutive. f_equal. apply lstrip_idem.
Qed.

Lemma is_space_lower a : is_space (ascii_lower a) = is_space a.
Proof. by destruct a as [[] [] [] [] [] [] [] []]. Qed.

Lemma str_map_rev f s : str_map f (str_rev s) = str_rev (str_map f s).
Proof.
  induction s as [|a s IH]; [done|]. cbn [str_map]. rewrite !str_rev_cons, <- IH. clear IH.
  generalize (str_rev s) as t. intros t. induction t as [|b t IH]; [done|].
  rewrite app_cons_s. cbn [str_map]. by rewrite IH, app_cons_s.
Qed.

Lemma lstrip_lower s : lstrip (lower s) = lower (lstrip s).
Proof. unfold lower. induction s as [|a s IH]; [done|]. cbn. rewrite is_space_lower. by destruct (is_space a). Qed.

Lemma strip_lower s : strip (lower s) = lower (strip s).
Proof.
  unfold strip, lower. rewrite str_map_rev. fold lower. rewrite <- lstrip_lower. unfold lower. rewrite str_map_rev.
  fold lower. by rewrite <- lstrip_lower.
Qed.

Lemma lower_idem s : lower (lower s) = lower s.
Proof.
  unfold lower. induction s as [|a s IH]; [done|]. cbn. rewrite IH. f_equal.
  by destruct a as [[] [] [] [] [] [] [] []].
Qed.
