(* ===== verification/Numerals.v ===== *)
(** * Decimal numerals

    What [int()] makes of the numerals Python prints: [str(n)] and the zero-padded
    forms of file names. *)

From S2P Require Import Prelude PyText.
From Stdlib Require Import Ascii.

Lemma digits_value_go x : forall s, digits_value 0 (pretty_N_go x s) = digits_value (Z.of_N x) s.
Proof.
  induction (N.lt_wf_0 x) as [x _ IH]. intros s.
  destruct (decide (x = 0%N)) as [->|Hx]; [by rewrite pretty_N_go_0|].
  rewrite pretty_N_go_step by lia. rewrite IH by (apply N.div_lt; lia).
  assert (x `mod` 10 < 10)%N as Hm by (apply N.mod_lt; lia).
  assert (Hd : forall d s a, (d < 10)%N -> digits_value a (String (pretty_N_char d) s) = digits_value (10 * a + Z.of_N d) s).
  { clear. intros d s a Hd. destruct d as [|[[[[]|[]|]|[[]|[]|]|]|[[[]|[]|]|[[]|[]|]|]|]]; try done; lia. }
  rewrite Hd by done. f_equal. pose proof (N.div_mod x 10). lia.
Qed.

Definition is_digit (a : ascii) : bool := bool_decide (is_Some (digit_value a)).

Lemma pretty_N_go_digits x : forall s, str_forallb is_digit s = true -> str_forallb is_digit (pretty_N_go x s) = true.
Proof.
  induction (N.lt_wf_0 x) as [x _ IH]. intros s Hs.
  destruct (decide (x = 0%N)) as [->|Hx]; [by rewrite pretty_N_go_0|].
  rewrite pretty_N_go_step by lia. apply IH; [apply N.div_lt; lia|]. cbn [str_forallb]. rewrite Hs, andb_true_r.
  assert (x `mod` 10 < 10)%N as Hm by (apply N.mod_lt; lia).
  destruct (x `mod` 10)%N as [|[[[[]|[]|]|[[]|[]|]|]|[[[]|[]|]|[[]|[]|]|]|]]; try done; lia.
Qed.

Lemma zeros_value n s : digits_value 0 (zeros n +:+ s) = digits_value 0 s.
Proof. induction n as [|n IH]; [done|]. exact IH. Qed.

Lemma zeros_digits n : str_forallb is_digit (zeros n) = true.
Proof. induction n as [|n IH]; [done|]. exact IH. Qed.

Lemma pad20_digits n : 0 < n -> str_forallb is_digit (pad20 n) = true.
Proof.
  intros Hn. unfold pad20. rewrite str_forallb_app, zeros_digits. destruct n as [|p|p]; [done| |lia].
  by apply pretty_N_go_digits.
Qed.

Lemma pad20_value n : 0 < n -> digits_value 0 (pad20 n) = Some n.
Proof.
  intros Hn. unfold pad20. rewrite zeros_value. destruct n as [|p|p]; [done| |lia].
  change (pretty (Z.pos p)) with (pretty_N_go (N.pos p) ""). by rewrite digits_value_go.
Qed.

Lemma pad20_nonempty n : 0 < n -> exists a s, pad20 n = String a s.
Proof.
  intros Hn. destruct (pad20 n) as [|a s] eqn:E; [|eauto]. pose proof (pad20_value n Hn) as Hv. rewrite E in Hv.
  injection Hv as <-. lia.
Qed.

Lemma digit_chars a : is_digit a = true -> a <> "."%char /\ a <> "_"%char /\ a <> "/"%char /\ a <> "\"%char /\ is_space a = false.
Proof. destruct a as [[] [] [] [] [] [] [] []]; vm_compute; intros H; try done. Qed.


Lemma pretty_digits n : 0 <= n -> str_forallb is_digit (pretty n) = true.
Proof. intros Hn. destruct n as [|p|p]; [done| |lia]. by apply pretty_N_go_digits. Qed.

Lemma unsigned_digits s : str_forallb is_digit s = true -> s <> "" -> unsigned_value s = digits_value 0 s.
Proof.
  destruct s as [|a s]; [done|]. intros [Ha _]%andb_true_iff _. apply bool_decide_eq_true in Ha as [d Hd].
  unfold unsigned_value. cbn [digits_value]. by rewrite Hd.
Qed.

Lemma pretty_value n : 0 <= n -> unsigned_value (pretty n) = Some n.
Proof.
  intros Hn. destruct n as [|p|p]; [done| |lia]. change (pretty (Z.pos p)) with (pretty_N_go (N.pos p) "").
  assert (digits_value 0 (pretty_N_go (N.pos p) "") = Some (Z.pos p)) as Hv by (by rewrite digits_value_go).
  rewrite unsigned_digits; [done|by apply pretty_N_go_digits|]. intros E. by rewrite E in Hv.
Qed.

Lemma digits_unspaced s : str_forallb is_digit s = true -> unspaced s = true.
Proof. apply str_forallb_impl. intros a Ha. apply negb_true_iff. by apply digit_chars in Ha as (_ & _ & _ & _ & ?). Qed.

(** [int(str(n)) == n] *)
Lemma int_of_pretty n : 0 <= n -> int_of_string (pretty n) = Some n.
Proof.
  intros Hn. pose proof (pretty_digits n Hn) as Hd. unfold int_of_string. rewrite strip_unspaced by (by apply digits_unspaced).
  rewrite <- (pretty_value n Hn). destruct (pretty n) as [|a s]; [done|].
  apply andb_true_iff in Hd as [Ha _]. destruct (Ascii.eqb_spec a "-") as [->|_]; [done|].
  by destruct (Ascii.eqb_spec a "+") as [->|_].
Qed.

Lemma digits_free c s : is_digit c = false -> str_forallb is_digit s = true -> char_free c s = true.
Proof. intros Hc. apply str_forallb_impl. intros a Ha. apply negb_true_iff, Ascii.eqb_neq. intros ->. congruence. Qed.

Lemma pretty_not_empty n : 0 <= n -> pretty n <> "".
Proof. intros Hn E. pose proof (pretty_value n Hn) as Hv. by rewrite E in Hv. Qed.
