(* ===== verification/Sha256.v ===== *)
(** * SHA-256

    [hashlib.sha256(data).hexdigest()], the digest that names queue records,
    claims, leases and staged outputs.  It is the FIPS 180-4 algorithm on
    32-bit words kept as [N] below [2^32], so the models that use it run. *)

From S2P Require Import Prelude PyText.
From Stdlib Require Import Ascii.

Local Open Scope N_scope.

Definition word_mask : N := 4294967295.
Definition add32 (a b : N) : N := N.land (a + b) word_mask.
Definition rotr (n : N) (x : N) : N :=
  N.lor (N.shiftr x n) (N.land (N.shiftl x (32 - n)) word_mask).
Definition xor3 (a b c : N) : N := N.lxor a (N.lxor b c).

Definition small_sigma0 (x : N) : N := xor3 (rotr 7 x) (rotr 18 x) (N.shiftr x 3).
Definition small_sigma1 (x : N) : N := xor3 (rotr 17 x) (rotr 19 x) (N.shiftr x 10).
Definition big_sigma0 (x : N) : N := xor3 (rotr 2 x) (rotr 13 x) (rotr 22 x).
Definition big_sigma1 (x : N) : N := xor3 (rotr 6 x) (rotr 11 x) (rotr 25 x).
Definition ch (x y z : N) : N := N.lxor (N.land x y) (N.land (N.lxor x word_mask) z).
Definition maj (x y z : N) : N := xor3 (N.land x y) (N.land x z) (N.land y z).

Definition round_constants : list N :=
  [1116352408; 1899447441; 3049323471; 3921009573; 961987163; 1508970993;
   2453635748; 2870763221; 3624381080; 310598401; 607225278; 1426881987;
   1925078388; 2162078206; 2614888103; 3248222580; 3835390401; 4022224774;
   264347078; 604807628; 770255983; 1249150122; 1555081692; 1996064986;
   2554220882; 2821834349; 2952996808; 3210313671; 3336571891; 3584528711;
   113926993; 338241895; 666307205; 773529912; 1294757372; 1396182291;
   1695183700; 1986661051; 2177026350; 2456956037; 2730485921; 2820302411;
   3259730800; 3345764771; 3516065817; 3600352804; 4094571909; 275423344;
   430227734; 506948616; 659060556; 883997877; 958139571; 1322822218;
   1537002063; 1747873779; 1955562222; 2024104815; 2227730452; 2361852424;
   2428436474; 2756734187; 3204031479; 3329325298].

Definition initial_hash : list N :=
  [1779033703; 3144134277; 1013904242; 2773480762; 1359893119; 2600822924; 528734635; 1541459225].

(** The message as words: a [1] bit, zeros, and the 64-bit bit length. *)
Fixpoint string_bytes (s : string) : list N :=
  match s with
  | EmptyString => []
  | String a s => N_of_ascii a :: string_bytes s
  end.

Fixpoint be_bytes (n : nat) (x : N) : list N :=
  match n with
  | O => []
  | S n => N.land (N.shiftr x (8 * N.of_nat n)) 255 :: be_bytes n x
  end.

Definition pad (bytes : list N) : list N :=
  let len := length bytes in
  let zeros := ((119 - len mod 64) mod 64)%nat in
  bytes ++ [128] ++ replicate zeros 0 ++ be_bytes 8 (8 * N.of_nat len).

Fixpoint words (bytes : list N) : list N :=
  match bytes with
  | a :: b :: c :: d :: rest =>
      (N.shiftl a 24 + N.shiftl b 16 + N.shiftl c 8 + d) :: words rest
  | _ => []
  end.

(** Message schedule, most recent word first. *)
Fixpoint schedule (n : nat) (ws : list N) : list N :=
  match n with
  | O => ws
  | S n =>
      let w := add32 (add32 (small_sigma1 (nth 1 ws 0)) (nth 6 ws 0))
                     (add32 (small_sigma0 (nth 14 ws 0)) (nth 15 ws 0)) in
      schedule n (w :: ws)
  end.

Definition round (st : list N) (kw : N * N) : list N :=
  match st with
  | [a; b; c; d; e; f; g; h] =>
      let t1 := add32 (add32 h (big_sigma1 e)) (add32 (ch e f g) (add32 kw.1 kw.2)) in
      let t2 := add32 (big_sigma0 a) (maj a b c) in
      [add32 t1 t2; a; b; c; add32 d t1; e; f; g]
  | _ => st
  end.

Definition compress (st block : list N) : list N :=
  let ws := rev (schedule 48 (rev block)) in
  zip_with add32 st (foldl round st (zip round_constants ws)).

Fixpoint blocks (n : nat) (ws : list N) (st : list N) : list N :=
  match n with
  | O => st
  | S n => blocks n (drop 16 ws) (compress st (take 16 ws))
  end.

Definition hex_digit (x : N) : ascii :=
  ascii_of_N (if x <? 10 then 48 + x else 87 + x).

Fixpoint hex_word (n : nat) (x : N) : string :=
  match n with
  | O => ""
  | S n => String (hex_digit (N.land (N.shiftr x (4 * N.of_nat n)) 15)) (hex_word n x)
  end.

(** [hashlib.sha256(s).hexdigest()] *)
Definition sha256_hex (s : string) : string :=
  let ws := words (pad (string_bytes s)) in
  foldr (fun w acc => hex_word 8 w +:+ acc) ""
    (blocks (length ws / 16) ws initial_hash).

Example sha256_abc :
  sha256_hex "abc" = "ba7816bf8f01cfea414140de5dae2223b00361a396177a9cb410ff61f20015ad".
Proof. vm_compute. reflexivity. Qed.

Example sha256_two_blocks :
  sha256_hex "abcdbcdecdefdefgefghfghighijhijkijkljklmklmnlmnomnopnopq"
  = "248d6a61d20638b8e5c026930c3e6039a33ce45964ff2167f6ecedd419db06c1".
Proof. vm_compute. reflexivity. Qed.

(** ** The digest is 64 lowercase hexadecimal digits *)

Lemma hex_digit_is_hex x : x < 16 -> is_hex_lower (hex_digit x) = true.
Proof.
  intros Hx.
  assert (Hin : In x (map N.of_nat (seq 0 16))).
  { apply in_map_iff. exists (N.to_nat x). split; [lia|]. apply in_seq. lia. }
  cbn in Hin. intuition (subst; reflexivity).
Qed.

Lemma hex_word_is_hex n x : str_forallb is_hex_lower (hex_word n x) = true.
Proof.
  induction n as [|n IH]; cbn [hex_word str_forallb]; [done|].
  rewrite IH, andb_true_r. apply hex_digit_is_hex.
  change 15 with (N.ones 4). rewrite N.land_ones. by apply N.mod_lt.
Qed.

Lemma hex_word_length n x : String.length (hex_word n x) = n.
Proof. induction n; cbn; auto. Qed.

Lemma round_length st kw : length (round st kw) = length st.
Proof. by do 9 (destruct st as [|? st]; [done|]). Qed.

Lemma blocks_length n : forall ws st, length (blocks n ws st) = length st.
Proof.
  induction n as [|n IH]; intros ws st; cbn; [done|].
  rewrite IH. unfold compress. rewrite length_zip_with.
  enough (length (foldl round st (zip round_constants (rev (schedule 48 (rev (take 16 ws))))))
    = length st) as -> by lia.
  generalize (zip round_constants (rev (schedule 48 (rev (take 16 ws))))) as l. clear.
  intros l. revert st. induction l as [|kw l IH]; intros st; cbn; [done|].
  by rewrite IH, round_length.
Qed.

Lemma hex_words_shape l :
  let s := foldr (fun w acc => hex_word 8 w +:+ acc) "" l in
  str_forallb is_hex_lower s = true /\ String.length s = (8 * length l)%nat.
Proof.
  induction l as [|w l [IH1 IH2]]; cbn [foldr length]; [done|].
  rewrite str_forallb_app, hex_word_is_hex, length_app_s, hex_word_length, IH1, IH2.
  split; [done|lia].
Qed.

Lemma sha256_is_hex s : str_forallb is_hex_lower (sha256_hex s) = true.
Proof. apply hex_words_shape. Qed.

Lemma sha256_length s : String.length (sha256_hex s) = 64%nat.
Proof.
  unfold sha256_hex. destruct (hex_words_shape
    (blocks (length (words (pad (string_bytes s))) / 16) (words (pad (string_bytes s))) initial_hash))
    as [_ ->].
  by rewrite blocks_length.
Qed.

#[global] Opaque sha256_hex.
