(* ===== verification/Json.v ===== *)
(** * JSON documents and stored objects

    Decoded JSON values ([dict] as a finite map, so that Leibniz equality is
    Python's [==] on dicts), the conversions [int()], [str()], [bool()] and
    [dict.get] the code applies to them, the canonical encoding
    [json.dumps(v, sort_keys=True, separators=(",", ":"))], and the contents
    of a stored object.  A stored object is either a canonical JSON document
    or other bytes; the canonical encoding is injective and [json.loads] is
    its left inverse, so a document is kept as the value it encodes. *)

From S2P Require Import Prelude PyText.
From Stdlib Require Import Ascii.
#[local] Set Warnings "-register-all".

Inductive json :=
| JNull
| JBool (b : bool)
| JInt (z : Z)
| JStr (s : string)
| JList (l : list json)
| JObj (d : gmap string json).

Abbreviation dict := (gmap string json).

#[global] Instance json_eq_dec : EqDecision json.
Proof.
  refine (fix go a b := let _ : EqDecision json := @go in
    match a, b with
    | JNull, JNull => left eq_refl
    | JBool x, JBool y => cast_if (decide (x = y))
    | JInt x, JInt y => cast_if (decide (x = y))
    | JStr x, JStr y => cast_if (decide (x = y))
    | JList x, JList y => cast_if (decide (x = y))
    | JObj x, JObj y => cast_if (decide (x = y))
    | _, _ => right _
    end); abstract congruence.
Defined.

(** ** Conversions *)

(** [int(v)] *)
Definition py_int (v : json) : res Z :=
  match v with
  | JInt z => Ok z
  | JBool b => Ok (if b then 1 else 0)
  | JStr s => of_option (ValueError "invalid literal for int()") (int_of_string s)
  | JNull | JList _ | JObj _ => Err (TypeError "int() argument")
  end.

(** [str(v)]; the representation of containers is not modelled. *)
Definition py_str (v : json) : res string :=
  match v with
  | JStr s => Ok s
  | JInt z => Ok (pretty z)
  | JBool true => Ok "True"
  | JBool false => Ok "False"
  | JNull => Ok "None"
  | JList _ | JObj _ => Err (Unmodelled "str() of a container")
  end.

(** [bool(v)] *)
Definition truthy (v : json) : bool :=
  match v with
  | JNull => false
  | JBool b => b
  | JInt z => truthy_int z
  | JStr s => truthy_str s
  | JList l => negb (bool_decide (l = []))
  | JObj d => negb (bool_decide (d = ∅))
  end.

(** [d[k]] *)
Definition dget_req (d : dict) (k : string) : res json :=
  of_option (KeyError k) (d !! k).

(** [d.get(k, v)] *)
Definition dget (d : dict) (k : string) (v : json) : json := default v (d !! k).

(** [int(d[k])], [str(d[k])], [int(d.get(k, n))], [str(d.get(k, s))],
    [bool(d.get(k, b))] *)
Definition req_int (d : dict) (k : string) : res Z := v ← dget_req d k; py_int v.
Definition req_str (d : dict) (k : string) : res string := v ← dget_req d k; py_str v.
Definition get_int (d : dict) (k : string) (n : Z) : res Z := py_int (dget d k (JInt n)).
Definition get_str (d : dict) (k : string) (s : string) : res string :=
  py_str (dget d k (JStr s)).
Definition get_bool (d : dict) (k : string) (b : bool) : bool :=
  truthy (dget d k (JBool b)).

(** [d.get(k) or {}], and an iteration over [d.get(k, [])]. *)
Definition get_dict (d : dict) (k : string) : res dict :=
  match dget d k JNull with
  | JObj m => Ok m
  | v => if truthy v then Err (TypeError "expected an object") else Ok ∅
  end.
Definition get_list (d : dict) (k : string) : res (list json) :=
  match d !! k with
  | None => Ok []
  | Some (JList l) => Ok l
  | Some (JStr s) => if truthy_str s then Err (Unmodelled "iteration over a string") else Ok []
  | Some (JObj m) =>
      if bool_decide (m = ∅) then Ok [] else Err (Unmodelled "iteration over a dict")
  | Some _ => Err (TypeError "object is not iterable")
  end.

Definition as_obj (v : json) : res dict :=
  match v with JObj d => Ok d | _ => Err (TypeError "expected an object") end.

(** A number of a document ([bool] is an [int]), [v == n], and [d.get] on a value. *)
Definition as_num (v : json) : res Z :=
  match v with
  | JInt z => Ok z
  | JBool b => Ok (if b then 1 else 0)
  | _ => Err (TypeError "unsupported operand type(s)")
  end.
Definition eq_num (v : json) (n : Z) : bool :=
  match as_num v with Ok z => z =? n | Err _ => false end.
Definition attr_obj (v : json) : res dict :=
  match v with JObj d => Ok d | _ => Err (AttributeError "get") end.

(** [if bad: raise e] *)
Definition raise_if (bad : bool) (e : exn) : res unit := if bad then Err e else Ok tt.

(** ** Building documents *)

(** [{"k": v, ...}] *)
Definition mk_dict (fields : list (string * json)) : dict := list_to_map fields.

(** [if cond: d[k] = v] *)
Definition opt_field (k : string) (cond : bool) (v : json) (d : dict) : dict :=
  if cond then <[k := v]> d else d.

(** ** The canonical encoding *)

Definition quote_char : ascii := "034".
Definition hex4 (n : N) : string :=
  let h x := ascii_of_N (if (x <? 10)%N then 48 + x else 87 + x)%N in
  String "0" (String "0" (String (h (N.div n 16)) (String (h (N.modulo n 16)) ""))).

Definition escape_char (a : ascii) : string :=
  let n := N_of_ascii a in
  if Ascii.eqb a quote_char then String "\" (String quote_char "")
  else if Ascii.eqb a "\" then "\\"
  else if (n =? 8)%N then "\b" else if (n =? 9)%N then "\t"
  else if (n =? 10)%N then "\n" else if (n =? 12)%N then "\f"
  else if (n =? 13)%N then "\r"
  else if (n <? 32)%N || (126 <? n)%N then "\u" +:+ hex4 n
  else String a "".

Fixpoint escape (s : string) : string :=
  match s with
  | EmptyString => ""
  | String a s => escape_char a +:+ escape s
  end.

Definition dumps_str (s : string) : string :=
  String quote_char (escape s) +:+ String quote_char "".

Definition key_le (a b : string * string) : Prop := (a.1 ≤ b.1)%string.
#[global] Instance key_le_dec a b : Decision (key_le a b).
Proof. unfold key_le. apply _. Defined.

(** [json.dumps(v, sort_keys=True, separators=(",", ":"))] *)
Fixpoint dumps (v : json) : string :=
  match v with
  | JNull => "null"
  | JBool true => "true"
  | JBool false => "false"
  | JInt z => pretty z
  | JStr s => dumps_str s
  | JList l => "[" +:+ join "," (map dumps l) +:+ "]"
  | JObj d =>
      let items := map_fold (fun k v acc => (k, dumps v) :: acc) [] d in
      "{" +:+ join "," (map (fun kv => dumps_str kv.1 +:+ ":" +:+ kv.2)
                            (merge_sort key_le items)) +:+ "}"
  end.

(** ** Stored objects *)

Inductive blob :=
| BJson (v : json)
| BRaw (b : string).

#[global] Instance blob_eq_dec : EqDecision blob.
Proof. solve_decision. Defined.

Definition blob_bytes (b : blob) : string :=
  match b with BJson v => dumps v | BRaw s => s end.

Definition blob_size (b : blob) : Z := Z.of_nat (String.length (blob_bytes b)).

(** [json.loads(raw)], [None] for a [JSONDecodeError] or [UnicodeDecodeError]. *)
Definition loads (b : blob) : option json :=
  match b with BJson v => Some v | BRaw _ => None end.

(** ** Lemmas on documents *)

Lemma raise_if_Ok b e u : raise_if b e = Ok u -> b = false.
Proof. by destruct b. Qed.

Lemma eq_num_int n m : eq_num (JInt n) m = (n =? m).
Proof. done. Qed.

Lemma dget_insert_eq (d : dict) k v w : dget (<[k := v]> d) k w = v.
Proof. unfold dget. by rewrite lookup_insert_eq. Qed.

Lemma dget_insert_ne (d : dict) k k' v w : k <> k' -> dget (<[k := v]> d) k' w = dget d k' w.
Proof. intros. unfold dget. by rewrite lookup_insert_ne. Qed.

Lemma lookup_opt_field_eq k c v (d : dict) :
  opt_field k c v d !! k = if c then Some v else d !! k.
Proof. unfold opt_field. destruct c; [apply lookup_insert_eq|done]. Qed.

Lemma lookup_opt_field_ne k k' c v (d : dict) :
  k <> k' -> opt_field k c v d !! k' = d !! k'.
Proof. intros. unfold opt_field. destruct c; [by apply lookup_insert_ne|done]. Qed.

(** Evaluate a lookup of a literal key in a document built from literal keys. *)
Ltac dict_lookup :=
  repeat first
    [ rewrite lookup_opt_field_eq
    | rewrite lookup_opt_field_ne by discriminate
    | rewrite lookup_insert_eq
    | rewrite lookup_insert_ne by discriminate ].

Example dumps_canonical :
  dumps (JObj (mk_dict [("b", JList [JInt (-2); JNull]); ("a", JStr "x\y")]))
  = String "{" (String quote_char ("a" +:+ String quote_char (":" +:+ String quote_char
      ("x\\y" +:+ String quote_char ("," +:+ String quote_char ("b" +:+ String quote_char
       ":[-2,null]}")))))).
Proof. vm_compute. reflexivity. Qed.
