(* ===== verification/JsonCanon.v ===== *)
(** * The canonical encoding determines the document

    [json.dumps(v, sort_keys=True, separators=(",", ":"))] is injective on the
    documents of [Json]: two documents with the same bytes are equal.  This is what
    allows a stored document to be kept as the value it encodes, and a digest of the
    bytes to stand for the document. *)

From S2P Require Import Prelude PyText Sha256 Json.
From Stdlib Require Import Ascii.

(** ** Strings *)

(** The value of a hexadecimal digit as [escape_char] writes it. *)
Definition unhex (a : ascii) : N :=
  let n := N_of_ascii a in if (n <? 58)%N then (n - 48)%N else (n - 87)%N.

(** The character an escaped text begins with, and the text after it. *)
Definition unescape (s : string) : option (ascii * string) :=
  match s with
  | String "\" (String c r) =>
      if Ascii.eqb c "u" then
        match r with
        | String _ (String _ (String h (String l r))) => Some (ascii_of_N (16 * unhex h + unhex l), r)
        | _ => None
        end
      else
        let plain := if Ascii.eqb c "b" then ascii_of_N 8 else if Ascii.eqb c "t" then ascii_of_N 9
                     else if Ascii.eqb c "n" then ascii_of_N 10 else if Ascii.eqb c "f" then ascii_of_N 12
                     else if Ascii.eqb c "r" then ascii_of_N 13 else c in
        Some (plain, r)
  | String a r => if Ascii.eqb a quote_char then None else Some (a, r)
  | EmptyString => None
  end.

Lemma unescape_char a r : unescape (escape_char a +:+ r) = Some (a, r).
Proof. destruct a as [[] [] [] [] [] [] [] []]; reflexivity. Qed.

Lemma unescape_quote r : unescape (String quote_char r) = None.
Proof. reflexivity. Qed.

Lemma escape_inj s : forall t x y,
  escape s +:+ String quote_char x = escape t +:+ String quote_char y -> s = t /\ x = y.
Proof.
  induction s as [|a s IH]; intros [|b t] x y H; cbn [escape] in H; rewrite ?app_assoc_s in H.
  - by injection H as ->.
  - apply (f_equal unescape) in H. rewrite unescape_char in H. discriminate.
  - apply (f_equal unescape) in H. rewrite unescape_char in H. discriminate.
  - apply (f_equal unescape) in H. rewrite !unescape_char in H. injection H as -> H.
    by destruct (IH _ _ _ H) as [-> ->].
Qed.

Lemma dumps_str_inj s t x y : dumps_str s +:+ x = dumps_str t +:+ y -> s = t /\ x = y.
Proof.
  unfold dumps_str. rewrite !app_assoc_s. intros H. injection H as H. by apply escape_inj in H.
Qed.

(** ** Numbers *)

Definition num_char (a : ascii) : bool := Ascii.eqb a "-" || bool_decide (is_Some (digit_value a)).

Lemma pretty_N_go_num x : forall s, str_forallb num_char s = true -> str_forallb num_char (pretty_N_go x s) = true.
Proof.
  induction (N.lt_wf_0 x) as [x _ IH]. intros s Hs.
  destruct (decide (x = 0%N)) as [->|Hx]; [by rewrite pretty_N_go_0|].
  rewrite pretty_N_go_step by lia. apply IH; [apply N.div_lt; lia|]. cbn [str_forallb].
  rewrite Hs, andb_true_r. assert (x `mod` 10 < 10)%N as Hm by (apply N.mod_lt; lia).
  destruct (x `mod` 10)%N as [|[[[[]|[]|]|[[]|[]|]|]|[[[]|[]|]|[[]|[]|]|]|]]; try reflexivity; lia.
Qed.

Lemma pretty_num (z : Z) : exists a s, pretty z = String a s /\ str_forallb num_char (pretty z) = true.
Proof.
  assert (H : forall p, exists a s, pretty_N_go (Npos p) "" = String a s /\ str_forallb num_char (String a s) = true).
  { intros p. destruct (pretty_N_go (Npos p) "") as [|a s] eqn:E.
    - exfalso. assert (pretty (N.pos p) = "") as Hp by done.
      rewrite pretty_N_go_step in E by lia. revert E. generalize (N.pos p / 10)%N. intros x.
      assert (forall x s, s <> "" -> pretty_N_go x s <> "") as Hne.
      { clear. intros x. induction (N.lt_wf_0 x) as [x _ IH]. intros s Hs.
        destruct (decide (x = 0%N)) as [->|Hx]; [by rewrite pretty_N_go_0|].
        rewrite pretty_N_go_step by lia. apply IH; [apply N.div_lt; lia|done]. }
      by apply Hne.
    - exists a, s. split; [done|]. rewrite <- E. by apply pretty_N_go_num. }
  destruct z as [|p|p]; [by exists "0"%char, ""| |].
  - destruct (H p) as (a & s & E & Hs). exists a, s. change (pretty (Z.pos p)) with (pretty_N_go (Npos p) "").
    by rewrite E.
  - change (pretty (Z.neg p)) with (String "-" (pretty_N_go (Npos p) "")). do 2 eexists. split; [done|].
    cbn. by apply pretty_N_go_num.
Qed.

(** ** Where a value ends *)

(** What follows a value in an encoding. *)
Definition closed (r : string) : Prop :=
  match r with EmptyString => True | String a _ => a = ","%char \/ a = "]"%char \/ a = "}"%char end.

Lemma num_prefix s : forall t x y, str_forallb num_char s = true -> str_forallb num_char t = true ->
  closed x -> closed y -> s +:+ x = t +:+ y -> s = t /\ x = y.
Proof.
  induction s as [|a s IH]; intros [|b t] x y Hs Ht Hx Hy H; cbn [str_forallb] in *.
  - done.
  - change ("" +:+ x) with x in H. subst x. apply andb_true_iff in Ht as [Hb _]. destruct Hx as [->|[->| ->]]; discriminate.
  - change ("" +:+ y) with y in H. subst y. apply andb_true_iff in Hs as [Ha _]. destruct Hy as [->|[->| ->]]; discriminate.
  - apply andb_true_iff in Hs as [_ Hs], Ht as [_ Ht]. injection H as -> H.
    by destruct (IH t x y Hs Ht Hx Hy H) as [-> ->].
Qed.

(** The first character tells the kind of value. *)
Definition kind (v : json) : nat :=
  match v with
  | JNull => 0 | JBool true => 1 | JBool false => 2 | JInt _ => 3 | JStr _ => 4 | JList _ => 5 | JObj _ => 6
  end%nat.
Definition kind_of_char (a : ascii) : nat :=
  (if Ascii.eqb a "n" then 0 else if Ascii.eqb a "t" then 1 else if Ascii.eqb a "f" then 2
   else if Ascii.eqb a quote_char then 4 else if Ascii.eqb a "[" then 5 else if Ascii.eqb a "{" then 6
   else if num_char a then 3 else 7)%nat.

Lemma num_char_kind a : num_char a = true -> kind_of_char a = 3%nat.
Proof. destruct a as [[] [] [] [] [] [] [] []]; vm_compute; congruence. Qed.

Lemma dumps_first v : exists a s, dumps v = String a s /\ kind_of_char a = kind v.
Proof.
  destruct v as [|[]|z|s|l|d]; try by do 2 eexists.
  destruct (pretty_num z) as (a & s & E & Hs). exists a, s. cbn [dumps]. rewrite E in *. split; [done|].
  apply num_char_kind. cbn in Hs. by apply andb_true_iff in Hs as [? _].
Qed.

Lemma dumps_kind v w x y : dumps v +:+ x = dumps w +:+ y -> kind v = kind w.
Proof.
  destruct (dumps_first v) as (a & s & -> & <-), (dumps_first w) as (b & t & -> & <-). by intros [= -> _].
Qed.

Lemma kind_closing v : kind v <> 7%nat.
Proof. by destruct v as [|[]| | | |]. Qed.

(** ** Sequences *)

(** The elements of a sequence, each followed by the rest of the text. *)
Definition encodes {A} (f : A -> string) (a : A) : Prop :=
  forall b x y, closed x -> closed y -> f a +:+ x = f b +:+ y -> a = b /\ x = y.

Lemma join_step {A} (f : A -> string) a l :
  join "," (map f (a :: l)) = f a +:+ match l with [] => "" | _ => "," +:+ join "," (map f l) end.
Proof. destruct l as [|b l]; cbn [map]; [by rewrite app_nil_r_s|]. by rewrite join_cons. Qed.

Lemma join_inj {A} (f : A -> string) (close : ascii) l :
  close = "]"%char \/ close = "}"%char ->
  (forall a, exists c s, f a = String c s /\ c <> close) ->
  Forall (encodes f) l -> forall k x y,
  join "," (map f l) +:+ String close x = join "," (map f k) +:+ String close y -> l = k /\ x = y.
Proof.
  intros Hc Hf Hl. assert (Hcl : forall r, closed (String close r)) by (intros r; destruct Hc as [->| ->]; cbn; auto).
  assert (Hne : ","%char <> close) by (destruct Hc as [->| ->]; done).
  assert (Htail : forall (l : list A) r, closed (match l with [] => "" | _ => "," +:+ join "," (map f l) end +:+ String close r)).
  { intros [|b m] r; [apply Hcl|]. by left. }
  induction Hl as [|a l Ha Hl IH]; intros [|b k] x y H.
  - cbn in H. by injection H as ->.
  - rewrite join_step in H. destruct (Hf b) as (c & s & E & Hn). rewrite E in H. cbn in H. by injection H as ->.
  - rewrite join_step in H. destruct (Hf a) as (c & s & E & Hn). rewrite E in H. cbn in H. by injection H as ->.
  - rewrite !join_step, !app_assoc_s in H. apply Ha in H as [-> H]; [|apply Htail..].
    destruct l as [|a' l], k as [|b' k].
    + cbn in H. by injection H as ->.
    + cbn in H. injection H as He _. by destruct Hne.
    + cbn in H. injection H as He _. by destruct Hne.
    + rewrite !app_assoc_s in H. injection H as H. by destruct (IH (b' :: k) _ _ H) as [[= -> ->] ->].
Qed.

(** ** Objects *)

Definition dumps_item (kv : string * string) : string := dumps_str kv.1 +:+ ":" +:+ kv.2.
Definition encode_pair (kv : string * json) : string * string := (kv.1, dumps kv.2).

Lemma map_fold_items (d : dict) :
  map_fold (fun k v acc => (k, dumps v) :: acc) [] d = map encode_pair (map_to_list d).
Proof. rewrite map_fold_foldr. induction (map_to_list d) as [|[k v] l IH]; cbn; [done|]. by rewrite IH. Qed.

(** The members of an object in the order they are written. *)
Lemma dumps_obj (d : dict) : exists l, l ≡ₚ map_to_list d /\
  dumps (JObj d) = "{" +:+ join "," (map (fun kv => dumps_item (encode_pair kv)) l) +:+ "}".
Proof.
  cbn [dumps]. rewrite map_fold_items.
  destruct (Permutation_map_inv encode_pair (map_to_list d) (merge_sort_Permutation key_le (map encode_pair (map_to_list d))))
    as (l & E & Hp).
  exists l. split; [done|]. cbn [dumps]. rewrite E, map_map. done.
Qed.

Lemma join_member {A} (f : A -> string) a l : a ∈ l -> (String.length (f a) <= String.length (join "," (map f l)))%nat.
Proof.
  induction l as [|b l IH]; intros Ha; [by apply not_elem_of_nil in Ha|]. rewrite join_step, length_app_s.
  apply elem_of_cons in Ha as [->|Ha]; [lia|]. specialize (IH Ha). destruct l; [by apply not_elem_of_nil in Ha|].
  rewrite length_app_s. lia.
Qed.

Lemma dumps_nonempty v : (0 < String.length (dumps v))%nat.
Proof. destruct (dumps_first v) as (a & s & -> & _). cbn. lia. Qed.

Lemma dumps_encodes n : forall v, (String.length (dumps v) < n)%nat -> encodes dumps v.
Proof.
  induction n as [|n IH]; intros v Hn; [lia|]. intros w x y Hx Hy H. pose proof (dumps_kind _ _ _ _ H) as Hk.
  destruct v as [|[]|z|s|l|d], w as [|[]|z'|s'|l'|d']; try discriminate Hk.
  - by injection H.
  - by injection H.
  - by injection H.
  - cbn [dumps] in H. destruct (pretty_num z) as (? & ? & _ & H1), (pretty_num z') as (? & ? & _ & H2).
    apply num_prefix in H as [H ->]; [|done..]. by apply (inj pretty) in H as ->.
  - cbn [dumps] in H. by apply dumps_str_inj in H as [-> ->].
  - cbn [dumps] in H, Hn. rewrite !app_assoc_s in H. injection H as H. rewrite !length_app_s in Hn. cbn in Hn.
    apply (join_inj dumps) in H as [-> ->]; [done|by left| |].
    + intros v. destruct (dumps_first v) as (a & s & E & Hv). exists a, s. split; [done|]. intros ->.
      apply (kind_closing v). by rewrite <- Hv.
    + apply Forall_forall. intros v Hv. apply IH. pose proof (join_member dumps v l Hv). lia.
  - destruct (dumps_obj d) as (l & Hl & E), (dumps_obj d') as (l' & Hl' & E').
    rewrite E in Hn, H. rewrite E' in H. rewrite !app_assoc_s in H. injection H as H. rewrite !length_app_s in Hn. cbn in Hn.
    apply (join_inj (fun kv => dumps_item (encode_pair kv))) in H as [-> ->].
    + split; [|done]. f_equal. apply map_to_list_inj. by rewrite <- Hl, <- Hl'.
    + by right.
    + intros [k v]. by do 2 eexists.
    + apply Forall_forall. intros [k v] Hv. pose proof (join_member (fun kv => dumps_item (encode_pair kv)) _ l Hv) as Hlen.
      assert (String.length (dumps v) < n)%nat as Hvn.
      { cbv beta in Hlen. assert (String.length (dumps v) <= String.length (dumps_item (encode_pair (k, v))))%nat; [|lia].
        unfold dumps_item, encode_pair. cbn [fst snd]. rewrite !length_app_s. lia. }
      intros [k' v'] x' y' Hx' Hy' He. unfold dumps_item, encode_pair in He. cbn [fst snd] in He.
      rewrite !app_assoc_s in He. apply dumps_str_inj in He as [-> He]. injection He as He.
      by destruct (IH v Hvn v' x' y' Hx' Hy' He) as [-> ->].
Qed.

#[global] Instance dumps_inj : Inj (=) (=) dumps.
Proof.
  intros v w H. pose proof (dumps_encodes _ v (Nat.lt_succ_diag_r _) w "" "" I I) as Hi.
  rewrite H in Hi. by destruct Hi as [-> _].
Qed.

(** The canonical encoding is injective: two documents have the same bytes exactly
    when they are equal, whatever their nesting and whatever characters, control
    characters and quotes included, their strings and member names hold. *)
Theorem canonical_encoding_injective v w : dumps v = dumps w <-> v = w.
Proof.
  split; [apply (inj dumps)|by intros ->].
Qed.
