(* ===== verification/Docs.v ===== *)
(** * Ordered documents

    JSON documents whose objects keep the order of their members, as Python's [dict]
    does, with the conversions the code applies to them and the texts [json.dumps]
    makes of them. *)

From S2P Require Import Prelude PyText Json.
From Stdlib Require Import Ascii.
#[local] Set Warnings "-register-all".

(** ** Documents *)

Inductive doc :=
| DNull
| DBool (b : bool)
| DInt (z : Z)
| DStr (s : string)
| DList (l : list doc)
| DObj (d : list (string * doc)).

Abbreviation members := (list (string * doc)).

#[global] Instance doc_eq_dec : EqDecision doc.
Proof.
  refine (fix go a b := let _ : EqDecision doc := @go in
    match a, b with
    | DNull, DNull => left eq_refl
    | DBool x, DBool y => cast_if (decide (x = y))
    | DInt x, DInt y => cast_if (decide (x = y))
    | DStr x, DStr y => cast_if (decide (x = y))
    | DList x, DList y => cast_if (decide (x = y))
    | DObj x, DObj y => cast_if (decide (x = y))
    | _, _ => right _
    end); abstract congruence.
Defined.

(** [d.get(k)] and [d.get(k, v)] *)
Definition oget_or (d : members) (k : string) (v : doc) : doc := default v (odict_get k d).
Definition oget (d : members) (k : string) : doc := oget_or d k DNull.

Definition doc_truthy (v : doc) : bool :=
  match v with
  | DNull => false | DBool b => b | DInt z => truthy_int z | DStr s => truthy_str s
  | DList l => negb (bool_decide (l = [])) | DObj d => negb (bool_decide (d = []))
  end.

(** [a == b]: members of an object are compared whatever their order. *)
Fixpoint doc_eqb (a b : doc) : bool :=
  match a, b with
  | DNull, DNull => true
  | DBool x, DBool y => Bool.eqb x y
  | DInt x, DInt y => x =? y
  | DBool x, DInt y | DInt y, DBool x => (if x then 1 else 0) =? y
  | DStr x, DStr y => String.eqb x y
  | DList l, DList k =>
      (fix eqs (l k : list doc) : bool :=
        match l, k with
        | [], [] => true
        | x :: l, y :: k => doc_eqb x y && eqs l k
        | _, _ => false
        end) l k
  | DObj d, DObj e =>
      Nat.eqb (length d) (length e) &&
      (fix eqm (d : members) : bool :=
        match d with
        | [] => true
        | (k, v) :: d => match odict_get k e with Some w => doc_eqb v w | None => false end && eqm d
        end) d
  | _, _ => false
  end.

(** [str(v)] and [int(v)] *)
Definition doc_str (v : doc) : res string :=
  match v with
  | DStr s => Ok s | DInt z => Ok (pretty z) | DBool true => Ok "True" | DBool false => Ok "False" | DNull => Ok "None"
  | DList _ | DObj _ => Err (Unmodelled "str() of a container")
  end.
Definition doc_int (v : doc) : res Z :=
  match v with
  | DInt z => Ok z
  | DBool b => Ok (if b then 1 else 0)
  | DStr s => of_option (ValueError "invalid literal for int()") (int_of_string s)
  | DNull | DList _ | DObj _ => Err (TypeError "int() argument")
  end.

(** ** [json.dumps] *)

(** [json.dumps(v, separators=(isep, ksep))] *)
Fixpoint doc_dumps (isep ksep : string) (v : doc) : string :=
  match v with
  | DNull => "null"
  | DBool true => "true"
  | DBool false => "false"
  | DInt z => pretty z
  | DStr s => dumps_str s
  | DList l => "[" +:+ join isep (map (doc_dumps isep ksep) l) +:+ "]"
  | DObj d => "{" +:+ join isep (map (fun kv => dumps_str kv.1 +:+ ksep +:+ doc_dumps isep ksep kv.2) d) +:+ "}"
  end.

(** A line break and the indentation of a level. *)
Definition indent_line (level : nat) : string := String "010" (String.concat "" (replicate level "  ")).

(** [json.dumps(v, indent=2)] *)
Fixpoint doc_dumps_indent (level : nat) (v : doc) : string :=
  match v with
  | DList ((_ :: _) as l) =>
      "[" +:+ indent_line (S level) +:+ join ("," +:+ indent_line (S level)) (map (doc_dumps_indent (S level)) l)
      +:+ indent_line level +:+ "]"
  | DObj ((_ :: _) as d) =>
      "{" +:+ indent_line (S level)
      +:+ join ("," +:+ indent_line (S level)) (map (fun kv => dumps_str kv.1 +:+ ": " +:+ doc_dumps_indent (S level) kv.2) d)
      +:+ indent_line level +:+ "}"
  | _ => doc_dumps ", " ": " v
  end.

Definition member_le (a b : string * doc) : Prop := str_le a.1 b.1.
#[global] Instance member_le_dec a b : Decision (member_le a b).
Proof. unfold member_le. apply _. Defined.

(** The same document with the members of every object sorted ([sort_keys=True]). *)
Fixpoint sort_doc (v : doc) : doc :=
  match v with
  | DList l => DList (map sort_doc l)
  | DObj d => DObj (merge_sort member_le (map (fun kv => (kv.1, sort_doc kv.2)) d))
  | _ => v
  end.

Example indented :
  doc_dumps_indent 0 (DObj [("a", DList [DInt 1; DObj []]); ("b", DBool true)]) =
  "{" +:+ String "010" "  " +:+ dumps_str "a" +:+ ": [" +:+ String "010" "    1," +:+ String "010" "    {}"
  +:+ String "010" "  ]," +:+ String "010" "  " +:+ dumps_str "b" +:+ ": true" +:+ String "010" "}".
Proof. reflexivity. Qed.
