(* ===== verification/ArtifactStore.v ===== *)
(** * The artifact store

    [src/fabric_shortcut_proxy/runtime/artifact_store.py]: the durable object
    layer every other component shares.  Keys are validated by
    [_normalize_key]; [MemoryStore] is the backend whose state is the map
    itself, so it is also what the other components are verified against.
    Each operation below is the critical section of the method's lock. *)

From S2P Require Import Prelude PyText Sha256 Json.
From Stdlib Require Import Ascii.

(** ** Keys *)

Definition slash : ascii := "/".
Definition backslash : ascii := "\".

(** The loop of [_normalize_key] over [k.split("/")]. *)
Fixpoint normalize_parts (parts : list string) : res (list string) :=
  match parts with
  | [] => Ok []
  | seg :: rest =>
      if bool_decide (seg = "") || bool_decide (seg = ".") then normalize_parts rest
      else if bool_decide (seg = "..") then
        Err (ValueError "artifact key must not contain '..'")
      else ps ← normalize_parts rest; Ok (seg :: ps)
  end.

Definition normalize_key (key : string) : res string :=
  if bool_decide (key = "") then Err (ValueError "artifact key must be a non-empty string")
  else
    let k := strip_char slash (replace_char backslash slash key) in
    if bool_decide (k = "") then
      Err (ValueError "artifact key must not be empty after normalization")
    else
      parts ← normalize_parts (split_on slash k);
      if bool_decide (parts = []) then Err (ValueError "invalid artifact key")
      else Ok (join "/" parts).

(** ** Object metadata and slices *)

Record object_stat := ObjectStat {
  os_key : string;
  os_size : Z;
  os_mtime_ms : option Z;
  os_etag : option string;
}.

Definition mk_stat (k : string) (b : blob) : object_stat :=
  ObjectStat k (blob_size b) None None.

(** [data[start:stop]] for [start >= 0]: a negative [stop] counts from the end. *)
Definition py_slice (data : string) (start stop : Z) : string :=
  let n := Z.of_nat (String.length data) in
  let stop := if stop <? 0 then Z.max 0 (stop + n) else Z.min stop n in
  str_take (Z.to_nat (stop - start)) (str_drop (Z.to_nat start) data).

Definition slice (data : blob) (offset : Z) (length : option Z) : res blob :=
  if offset <? 0 then
    Err (ValueError "offset must be >= 0 (use head() to derive suffix ranges)")
  else
    match length with
    | None =>
        if offset =? 0 then Ok data
        else Ok (BRaw (py_slice (blob_bytes data) offset (blob_size data)))
    | Some l => Ok (BRaw (py_slice (blob_bytes data) offset (offset + l)))
    end.

(** Order of stats and of names: Python compares strings by code point. *)
Definition stat_le (a b : object_stat) : Prop := (os_key a ≤ os_key b)%string.
#[global] Instance stat_le_dec a b : Decision (stat_le a b).
Proof. unfold stat_le. apply _. Defined.

(** ** MemoryStore *)

Module MemoryStore.

Abbreviation mem := (gmap string blob).

(** Run the body with the normalized key, or raise. *)
Definition with_key {A} (key : string) (f : string -> M mem A) : M mem A :=
  match normalize_key key with Ok k => f k | Err e => raise e end.

Definition put (key : string) (data : blob) : M mem object_stat :=
  with_key key (fun k s => (Ok (mk_stat k data), <[k := data]> s)).

Definition get (key : string) (offset : Z) (length : option Z) : M mem blob :=
  with_key key (fun k s =>
    match s !! k with
    | None => (Err (ObjectNotFound k), s)
    | Some b => (slice b offset length, s)
    end).

Definition head (key : string) : M mem (option object_stat) :=
  with_key key (fun k s => (Ok (mk_stat k <$> s !! k), s)).

Definition verify (key : string) (size : Z) (content_hash : string) : M mem bool :=
  with_key key (fun k s =>
    (Ok (match s !! k with
         | None => false
         | Some data =>
             (blob_size data =? size) &&
             String.eqb (sha256_hex (blob_bytes data)) content_hash
         end), s)).

Definition exists_ (key : string) : M mem bool :=
  with_key key (fun k s => (Ok (bool_decide (is_Some (s !! k))), s)).

Definition list_ (prefix : string) : M mem (list object_stat) := fun s =>
  let pfx := lstrip_char slash (replace_char backslash slash prefix) in
  let items := omap (fun kv : string * blob =>
                 if startswith kv.1 pfx then Some (mk_stat kv.1 kv.2) else None)
                 (map_to_list s) in
  (Ok (merge_sort stat_le items), s).

Definition delete_ (key : string) : M mem bool :=
  with_key key (fun k s => (Ok (bool_decide (is_Some (s !! k))), delete k s)).

Definition compare_and_swap (key : string) (expected : option blob) (data : blob)
  : M mem bool :=
  with_key key (fun k s =>
    if bool_decide (s !! k = expected) then (Ok true, <[k := data]> s)
    else (Ok false, s)).

(** The body of [_fence_matches] after the record is read; a conversion error
    is the [except (UnicodeDecodeError, ValueError, TypeError)] branch. *)
Definition fence_live (record : dict) (owner_id : string) (fence now_ms : Z) : res bool :=
  renew_ms ← get_int record "renew_ms" 0;
  ttl_ms ← get_int record "ttl_ms" 0;
  expires_at_ms ← get_int record "expires_at_ms" 0;
  let live := if 0 <? renew_ms then now_ms - renew_ms <=? ttl_ms
              else now_ms <? expires_at_ms in
  if bool_decide (dget record "owner_id" (dget record "generation_id" JNull) = JStr owner_id)
  then f ← get_int record "fence" (-1); Ok ((f =? fence) && live)
  else Ok false.

Definition fence_matches (fence_key owner_id : string) (fence now_ms : Z) (s : mem)
  : res bool :=
  k ← normalize_key fence_key;
  match s !! k with
  | None => Ok false
  | Some raw =>
      match loads raw with
      | None => Ok false
      | Some (JObj record) =>
          match fence_live record owner_id fence now_ms with
          | Ok b => Ok b
          | Err (ValueError _) | Err (TypeError _) => Ok false
          | Err e => Err e
          end
      | Some _ => Err (AttributeError "get")
      end
  end.

Definition fenced_put (now_ms : Z) (fence_key owner_id : string) (fence : Z)
    (key : string) (data : blob) : M mem bool := fun s =>
  match fence_matches fence_key owner_id fence now_ms s with
  | Err e => (Err e, s)
  | Ok false => (Ok false, s)
  | Ok true =>
      match normalize_key key with
      | Err e => (Err e, s)
      | Ok k => (Ok true, <[k := data]> s)
      end
  end.

(** [None] is the lost fence, [Some b] whether the object existed. *)
Definition fenced_delete (now_ms : Z) (fence_key owner_id : string) (fence : Z)
    (key : string) : M mem (option bool) := fun s =>
  match fence_matches fence_key owner_id fence now_ms s with
  | Err e => (Err e, s)
  | Ok false => (Ok None, s)
  | Ok true =>
      match normalize_key key with
      | Err e => (Err e, s)
      | Ok k => (Ok (Some (bool_decide (is_Some (s !! k)))), delete k s)
      end
  end.

(** [for key, data in values.items(): self._data[_normalize_key(key)] = data] *)
Definition put_all (values : list (string * blob)) : M mem unit :=
  forM_ (fun kd => with_key kd.1 (fun k s => (Ok tt, <[k := kd.2]> s))) values.

Definition guarded_put_batch (guard_key : string) (expected_guard : blob)
    (values : list (string * blob)) : M mem bool :=
  with_key guard_key (fun g s =>
    if bool_decide (s !! g = Some expected_guard)
    then (put_all values;; mret true) s
    else (Ok false, s)).

Definition fenced_guarded_put_batch (now_ms : Z) (fence_key owner_id : string) (fence : Z)
    (guard_key : string) (expected_guard : blob) (values : list (string * blob))
  : M mem bool := fun s =>
  match fence_matches fence_key owner_id fence now_ms s with
  | Err e => (Err e, s)
  | Ok false => (Ok false, s)
  | Ok true => guarded_put_batch guard_key expected_guard values s
  end.

End MemoryStore.

(** ** Default methods of the abstract class, at [MemoryStore] *)

Module StreamOps.
Import MemoryStore.

Definition concat_chunks (chunks : list string) : string := join "" chunks.

Definition length_mismatch (length : option Z) (value : string) : bool :=
  match length with
  | Some l => negb (Z.of_nat (String.length value) =? l)
  | None => false
  end.

Definition negative (length : option Z) : bool :=
  match length with Some l => l <? 0 | None => false end.

Definition put_stream (key : string) (chunks : list string) (length : option Z)
  : M mem object_stat :=
  if negative length then raise (ValueError "length must be >= 0")
  else
    let value := concat_chunks chunks in
    if length_mismatch length value then
      raise (ValueError "artifact stream length mismatch")
    else put key (BRaw value).

(** [put_stream_if_absent] on the contents the stream yields. *)
Definition put_blob_if_absent (key : string) (value : blob) (length : option Z)
  : M mem object_stat :=
  if negative length then raise (ValueError "length must be >= 0")
  else if length_mismatch length (blob_bytes value) then
    raise (ValueError "artifact stream length mismatch")
  else
    swapped ← compare_and_swap key None value;
    if (swapped : bool) then
      stat ← head key;
      match stat with
      | None => raise (ObjectNotFound key)
      | Some st => mret st
      end
    else
      stat ← head key;
      match stat with
      | Some st =>
          if os_size st =? blob_size value then
            ok ← verify key (blob_size value) (sha256_hex (blob_bytes value));
            if (ok : bool) then mret st else raise (ObjectConflict key)
          else raise (ObjectConflict key)
      | None => raise (ObjectConflict key)
      end.

Definition put_stream_if_absent (key : string) (chunks : list string) (length : option Z)
  : M mem object_stat :=
  put_blob_if_absent key (BRaw (concat_chunks chunks)) length.

(** The children [(name, is_dir, size, mtime)] of one directory level. *)
Definition dir_entry : Type := string * bool * Z * option Z.

Definition split_child (pfx : string) (st : object_stat) : (string * object_stat) + string :=
  let rest := str_drop (String.length pfx) (os_key st) in
  match partition slash rest with
  | None => inl (rest, st)
  | Some (d, _) => inr d
  end.

Definition name_le (a b : string) : Prop := (a ≤ b)%string.
#[global] Instance name_le_dec a b : Decision (name_le a b).
Proof. unfold name_le. apply _. Defined.
Definition file_le (a b : dir_entry) : Prop := (a.1.1.1 ≤ b.1.1.1)%string.
#[global] Instance file_le_dec a b : Decision (file_le a b).
Proof. unfold file_le. apply _. Defined.

Definition list_dir (prefix : string) : M mem (list dir_entry) :=
  let pfx0 := lstrip_char slash (replace_char backslash slash prefix) in
  let pfx := if truthy_str pfx0 && negb (endswith pfx0 "/") then pfx0 +:+ "/" else pfx0 in
  items ← list_ pfx;
  let children := map (split_child pfx) items in
  let dirs := remove_dups (omap (fun c => match c with inr d => Some d | inl _ => None end)
                             children) in
  let files := omap (fun c => match c with
                              | inl (n, st) => Some (n, false, os_size st, os_mtime_ms st)
                              | inr _ => None end) children in
  mret (map (fun d => (d, true, 0, None)) (merge_sort name_le dirs)
        ++ merge_sort file_le files).

End StreamOps.

(** * Theorems *)

(** ** Key normalization *)

(** A segment of a normalized key. *)
Definition clean_segment (seg : string) : Prop :=
  seg <> "" /\ seg <> "." /\ seg <> ".."
  /\ str_forallb (fun a => negb (Ascii.eqb a slash)) seg = true
  /\ str_forallb (fun a => negb (Ascii.eqb a backslash)) seg = true.

Definition safe_key (k : string) : Prop :=
  exists segs, segs <> [] /\ Forall clean_segment segs /\ k = join "/" segs.

Definition keep_segment (seg : string) : Prop := seg <> "" /\ seg <> ".".
#[global] Instance keep_segment_dec seg : Decision (keep_segment seg).
Proof. unfold keep_segment. apply _. Defined.

Lemma normalize_parts_spec parts ps :
  normalize_parts parts = Ok ps <->
  ps = filter keep_segment parts /\ ".." ∉ parts.
Proof.
  revert ps. induction parts as [|seg rest IH]; intros ps; cbn [normalize_parts].
  { split; [intros [= <-]; split; [done|]; apply not_elem_of_nil|intros [-> _]; done]. }
  rewrite not_elem_of_cons. destruct (decide (keep_segment seg)) as [Hk|Hk].
  - rewrite filter_cons_True by done. destruct Hk as [H1 H2].
    rewrite !bool_decide_eq_false_2 by done. cbn [orb].
    destruct (decide (seg = "..")) as [->|Hd]; [rewrite bool_decide_eq_true_2 by done; clear IH; naive_solver|].
    rewrite bool_decide_eq_false_2 by done.
    unfold mbind, res_bind. destruct (normalize_parts rest) as [qs|e] eqn:E.
    + destruct (proj1 (IH qs) eq_refl) as [-> Hr]. clear IH. naive_solver.
    + split; [done|]. intros [-> [_ Hr]].
      pose proof (proj2 (IH _) (conj eq_refl Hr)). congruence.
  - rewrite filter_cons_False by done.
    assert (seg = "" \/ seg = ".") as Hs.
    { unfold keep_segment in Hk.
      destruct (decide (seg = "")); [by left|]. destruct (decide (seg = ".")); [by right|naive_solver]. }
    assert (bool_decide (seg = "") || bool_decide (seg = ".") = true) as ->
      by (destruct Hs as [->| ->]; done).
    rewrite IH. clear IH. destruct Hs as [->| ->]; naive_solver.
Qed.

Lemma filter_keep_nonempty (l : list string) : filter keep_segment (filter nonempty_str l) = filter keep_segment l.
Proof.
  rewrite list_filter_filter. apply list_filter_iff. intros x. unfold keep_segment, nonempty_str. naive_solver.
Qed.

Lemma elem_of_dotdot_nonempty (l : list string) : ".." ∈ filter nonempty_str l <-> ".." ∈ l.
Proof. rewrite list_elem_of_filter. unfold nonempty_str. naive_solver. Qed.

(** Stripping the separators first does not matter to the segments. *)
Lemma normalize_parts_strip s ps :
  normalize_parts (split_on slash (strip_char slash s)) = Ok ps <->
  ps = filter keep_segment (split_on slash s) /\ ".." ∉ split_on slash s.
Proof.
  rewrite normalize_parts_spec.
  rewrite <- (filter_keep_nonempty (split_on slash (strip_char slash s))).
  rewrite <- (elem_of_dotdot_nonempty (split_on slash (strip_char slash s))).
  rewrite split_strip, filter_keep_nonempty, elem_of_dotdot_nonempty. done.
Qed.

Lemma normalize_key_spec key k :
  normalize_key key = Ok k <->
  let segs := split_on slash (replace_char backslash slash key) in
  (".." ∉ segs) /\ filter keep_segment segs <> [] /\ k = join "/" (filter keep_segment segs).
Proof.
  unfold normalize_key. cbn zeta. set (segs := split_on slash (replace_char backslash slash key)).
  destruct (decide (key = "")) as [->|Hne].
  { rewrite bool_decide_eq_true_2 by done. split; [done|]. by intros (_ & ? & _). }
  rewrite (bool_decide_eq_false_2 (key = "")) by done.
  case_bool_decide as Hs.
  { split; [done|]. intros (_ & Hf & _). exfalso. apply Hf.
    subst segs. rewrite <- filter_keep_nonempty, <- split_strip, Hs. done. }
  unfold mbind, res_bind.
  destruct (normalize_parts (split_on slash (strip_char slash (replace_char backslash slash key))))
    as [ps|e] eqn:E.
  - apply normalize_parts_strip in E as [-> Hd]. fold segs in Hd |- *. case_bool_decide; naive_solver.
  - split; [done|]. intros (Hd & _ & _).
    assert (normalize_parts (split_on slash (strip_char slash (replace_char backslash slash key)))
      = Ok (filter keep_segment segs)) by (by apply normalize_parts_strip). congruence.
Qed.

Lemma replace_backslash_free s :
  str_forallb (fun a => negb (Ascii.eqb a backslash)) (replace_char backslash slash s) = true.
Proof.
  unfold replace_char. induction s as [|a s IH]; cbn; [done|].
  rewrite IH, andb_true_r. destruct (Ascii.eqb a backslash) eqn:E; [done|by rewrite E].
Qed.

Lemma split_on_forallb p c s :
  str_forallb p s = true -> Forall (fun x => str_forallb p x = true) (split_on c s).
Proof.
  induction s as [|a s IH]; cbn; [by constructor|].
  rewrite andb_true_iff. intros [Ha Hs]. specialize (IH Hs).
  destruct (Ascii.eqb a c); [by constructor|].
  destruct (split_on c s); [repeat constructor; cbn; by rewrite Ha|].
  inversion IH; subst. constructor; [cbn; by rewrite Ha|done].
Qed.

Lemma normalized_is_safe key k : normalize_key key = Ok k -> safe_key k.
Proof.
  intros (Hd & Hne & ->)%normalize_key_spec. eexists; split; [exact Hne|]. split; [|done].
  apply Forall_forall. intros seg Hin. apply list_elem_of_filter in Hin as [[H1 H2] Hin].
  unfold clean_segment. repeat split; [done|done|by intros ->| |].
  - exact (Forall_elem _ _ _ (split_on_free slash _) Hin).
  - exact (Forall_elem _ _ _ (split_on_forallb _ slash _ (replace_backslash_free key)) Hin).
Qed.

Lemma join_slash_free segs :
  Forall clean_segment segs ->
  str_forallb (fun a => negb (Ascii.eqb a backslash)) (join "/" segs) = true.
Proof.
  induction 1 as [|x xs Hx Hxs IH]; [done|].
  destruct (decide (xs = [])) as [->|Hne]; [by apply Hx|].
  rewrite join_cons by done. rewrite str_forallb_app. cbn [str_forallb].
  destruct Hx as (_ & _ & _ & _ & ->). done.
Qed.

Lemma split_on_clean segs :
  segs <> [] -> Forall clean_segment segs -> split_on slash (join "/" segs) = segs.
Proof.
  intros Hne Hs. apply split_on_join; [done|].
  eapply Forall_impl; [exact Hs|]. intros x Hx. apply Hx.
Qed.

(** A key that is already a path of clean segments is left alone. *)
Lemma normalize_safe k : safe_key k -> normalize_key k = Ok k.
Proof.
  intros (segs & Hne & Hs & ->). apply normalize_key_spec. cbn zeta.
  rewrite replace_char_id by (by apply join_slash_free).
  rewrite split_on_clean by done.
  assert (filter keep_segment segs = segs) as Hf.
  { clear Hne. induction Hs as [|x xs Hx Hxs IH]; [done|].
    rewrite filter_cons_True, IH by (split; apply Hx). done. }
  rewrite Hf. split; [|done].
  intros Hin. by destruct (Forall_elem _ _ _ Hs Hin) as (_ & _ & ? & _).
Qed.

(** [_normalize_key] confines keys to the store root.  Whatever the caller
    passes, a key it accepts is a path of segments none of which is empty,
    ["."], [".."] or contains a separator or backslash, and normalizing it
    again changes nothing, so a stored object has exactly one name. *)
Theorem normalize_key_confines key k :
  normalize_key key = Ok k -> safe_key k /\ normalize_key k = Ok k.
Proof.
  intros Hk. apply normalized_is_safe in Hk as Hs. split; [done|by apply normalize_safe].
Qed.

Lemma normalize_key_confines_witness :
  safe_key "warehouse/db/t/data" /\ normalize_key "warehouse/db/t/data" = Ok "warehouse/db/t/data".
Proof. apply (normalize_key_confines "//warehouse\./db//t/data/"). vm_compute. reflexivity. Defined.

Lemma hex_clean s :
  s <> "" -> str_forallb is_hex_lower s = true -> clean_segment s.
Proof.
  intros Hne Hx. split_and!; [done|by intros ->|by intros ->|..];
    (eapply str_forallb_impl; [|exact Hx]); intros [[] [] [] [] [] [] [] []]; vm_compute; congruence.
Qed.

Definition key_char (a : Ascii.ascii) : bool :=
  negb (Ascii.eqb a slash) && negb (Ascii.eqb a backslash).

Lemma pretty_N_go_chars x : forall s,
  str_forallb key_char s = true -> str_forallb key_char (pretty_N_go x s) = true.
Proof.
  induction (N.lt_wf_0 x) as [x _ IH]. intros s Hs.
  destruct (decide (x = 0%N)) as [->|Hx]; [by rewrite pretty_N_go_0|].
  rewrite pretty_N_go_step by lia. apply IH.
  - apply N.div_lt; lia.
  - cbn [str_forallb]. rewrite Hs, andb_true_r.
    assert (x `mod` 10 < 10)%N as Hm by (apply N.mod_lt; lia).
    destruct (x `mod` 10)%N as [|[[[[]|[]|]|[[]|[]|]|]|[[[]|[]|]|[[]|[]|]|]|]]; try done; lia.
Qed.

Lemma pretty_chars (z : Z) : str_forallb key_char (pretty z) = true.
Proof.
  destruct z as [|p|p]; [done|by apply pretty_N_go_chars|].
  change (pretty (Z.neg p)) with ("-" +:+ pretty_N_go (Npos p) ""). rewrite str_forallb_app.
  by rewrite pretty_N_go_chars.
Qed.

(** A segment of at least three admissible characters. *)
Lemma key_chars_clean s : str_forallb key_char s = true -> (2 < String.length s)%nat -> clean_segment s.
Proof.
  intros Hc Hl. split_and!; try (intros Heq; rewrite Heq in Hl; cbn in Hl; lia);
    (eapply str_forallb_impl; [|exact Hc]); intros a; unfold key_char; by intros [? ?]%andb_true_iff.
Qed.

Lemma sha256_chars s : str_forallb key_char (sha256_hex s) = true.
Proof.
  eapply str_forallb_impl; [|apply sha256_is_hex].
  intros [[] [] [] [] [] [] [] []]; vm_compute; congruence.
Qed.

Lemma sha256_clean s : clean_segment (sha256_hex s).
Proof. apply key_chars_clean; [apply sha256_chars|]. rewrite sha256_length. lia. Qed.

Lemma sha256_json_clean s : clean_segment (sha256_hex s +:+ ".json").
Proof.
  apply key_chars_clean; [by rewrite str_forallb_app, sha256_chars|].
  rewrite length_app_s, sha256_length. lia.
Qed.

(** Prefixing a clean directory keeps the result below that directory. *)
Lemma normalize_under_segs dir rest k :
  safe_key dir ->
  normalize_key (dir +:+ "/" +:+ rest) = Ok k ->
  k = match filter keep_segment (split_on slash (replace_char backslash slash rest)) with
      | [] => dir
      | segs => dir +:+ "/" +:+ join "/" segs
      end.
Proof.
  intros (segs & Hne & Hs & ->) (Hd & _ & ->)%normalize_key_spec. cbn zeta in Hd |- *.
  rewrite replace_char_app in *. rewrite (replace_char_id _ _ (join "/" segs)) in * by (by apply join_slash_free).
  change (replace_char backslash slash ("/" +:+ rest))
    with (String slash (replace_char backslash slash rest)) in *.
  rewrite split_on_app, split_on_clean in * by done.
  rewrite filter_app.
  assert (filter keep_segment segs = segs) as ->.
  { clear Hne Hd. induction Hs as [|x xs Hx Hxs IH]; [done|].
    rewrite filter_cons_True, IH by (split; apply Hx). done. }
  destruct (filter keep_segment _) as [|y ys]; [by rewrite app_nil_r|by rewrite join_app].
Qed.

Lemma normalize_under dir rest k :
  safe_key dir ->
  normalize_key (dir +:+ "/" +:+ rest) = Ok k ->
  k = dir \/ exists t, k = dir +:+ "/" +:+ t.
Proof.
  intros Hd Hk. rewrite (normalize_under_segs _ _ _ Hd Hk).
  destruct (filter _ _); [by left|right; by eexists].
Qed.

Section store_theorems.
Import MemoryStore StreamOps.
Implicit Types s : mem.

Lemma with_key_Ok {A} key k (f : string -> M mem A) :
  normalize_key key = Ok k -> with_key key f = f k.
Proof. unfold with_key. by intros ->. Qed.

Lemma with_key_Err {A} key e (f : string -> M mem A) :
  normalize_key key = Err e -> with_key key f = raise e.
Proof. unfold with_key. by intros ->. Qed.

Lemma get_read_only key off len s : (get key off len s).2 = s.
Proof. unfold get, with_key. destruct (normalize_key key); [|done]. by destruct (s !! a). Qed.

Lemma get_whole key k s :
  normalize_key key = Ok k ->
  get key 0 None s = (of_option (ObjectNotFound k) (s !! k), s).
Proof. intros Hk. unfold get. rewrite (with_key_Ok _ k) by done. by destruct (s !! k). Qed.

(** Writes are atomic overwrites of one name.  A [put] either raises and
    changes nothing, or afterwards every key that normalizes to the written
    name reads back exactly the written object, and every other key reads
    what it read before. *)
Theorem put_get_roundtrip key data s :
  match put key data s with
  | (Err e, s') => s' = s /\ normalize_key key = Err e
  | (Ok st, s') =>
      normalize_key key = Ok (os_key st) /\ os_size st = blob_size data /\
      forall key' k', normalize_key key' = Ok k' ->
        get key' 0 None s' =
          (if decide (k' = os_key st) then (Ok data, s')
           else ((get key' 0 None s).1, s'))
  end.
Proof.
  unfold put. destruct (normalize_key key) as [k|e] eqn:Hk.
  - rewrite (with_key_Ok _ k) by done. cbn. split_and!; [done|done|].
    intros key' k' Hk'. rewrite !(get_whole _ k') by done. cbn.
    case_decide as Hd; [subst; by rewrite lookup_insert_eq|].
    by rewrite lookup_insert_ne.
  - by rewrite (with_key_Err _ e).
Qed.

Lemma compare_and_swap_spec key k expected data s :
  normalize_key key = Ok k ->
  compare_and_swap key expected data s =
    (if decide (s !! k = expected) then (Ok true, <[k := data]> s) else (Ok false, s)).
Proof.
  intros Hk. unfold compare_and_swap. rewrite (with_key_Ok _ k) by done.
  by repeat case_bool_decide; case_decide.
Qed.

(** A compare-and-swap race has one winner.  After a successful swap from
    the expected value, a second swap from that same value (through any
    spelling of the key) fails and leaves the winner's object in place,
    unless the winner wrote back the expected bytes. *)
Theorem compare_and_swap_single_winner key1 key2 k expected d1 d2 s s1 :
  normalize_key key1 = Ok k -> normalize_key key2 = Ok k ->
  expected <> Some d1 ->
  compare_and_swap key1 expected d1 s = (Ok true, s1) ->
  s !! k = expected /\ s1 !! k = Some d1 /\
  compare_and_swap key2 expected d2 s1 = (Ok false, s1).
Proof.
  intros H1 H2 Hne. rewrite !(compare_and_swap_spec _ k) by done.
  case_decide as Hd; [|done]. intros [= <-].
  rewrite lookup_insert_eq. split_and!; [done|done|].
  rewrite decide_False by congruence. done.
Qed.

Lemma compare_and_swap_single_winner_witness :
  (∅ : mem) !! "lease" = None /\
  (<["lease" := BRaw "a"]> ∅ : mem) !! "lease" = Some (BRaw "a") /\
  compare_and_swap "lease" None (BRaw "b") (<["lease" := BRaw "a"]> ∅)
    = (Ok false, <["lease" := BRaw "a"]> ∅).
Proof.
  apply (compare_and_swap_single_winner "lease" "/lease" "lease" None (BRaw "a") (BRaw "b"));
    [reflexivity | reflexivity | discriminate | reflexivity].
Defined.

(** What it means to hold a fence: the record at the fence key names the
    owner and the fence number and has not expired at [now]. *)
Definition fence_held (s : mem) (k owner : string) (fence now : Z) : Prop :=
  exists record renew ttl expires,
    s !! k = Some (BJson (JObj record)) /\
    dget record "owner_id" (dget record "generation_id" JNull) = JStr owner /\
    get_int record "fence" (-1) = Ok fence /\
    get_int record "renew_ms" 0 = Ok renew /\ get_int record "ttl_ms" 0 = Ok ttl /\
    get_int record "expires_at_ms" 0 = Ok expires /\
    (if 0 <? renew then now - renew <= ttl else now < expires).

Lemma fence_live_true record owner fence now :
  fence_live record owner fence now = Ok true ->
  exists renew ttl expires,
    dget record "owner_id" (dget record "generation_id" JNull) = JStr owner /\
    get_int record "fence" (-1) = Ok fence /\
    get_int record "renew_ms" 0 = Ok renew /\ get_int record "ttl_ms" 0 = Ok ttl /\
    get_int record "expires_at_ms" 0 = Ok expires /\
    (if 0 <? renew then now - renew <= ttl else now < expires).
Proof.
  unfold fence_live, mbind, res_bind.
  destruct (get_int record "renew_ms" 0) as [renew|] eqn:E1; [|done].
  destruct (get_int record "ttl_ms" 0) as [ttl|] eqn:E2; [|done].
  destruct (get_int record "expires_at_ms" 0) as [expires|] eqn:E3; [|done].
  case_bool_decide as Ho; [|done].
  destruct (get_int record "fence" (-1)) as [f|] eqn:E4; [|done].
  intros [= [Hf Hl]%andb_true_iff]. apply Z.eqb_eq in Hf as ->.
  exists renew, ttl, expires. split_and!; try done.
  destruct (0 <? renew); [by apply Z.leb_le|by apply Z.ltb_lt].
Qed.

Lemma fence_matches_true fence_key k owner fence now s :
  normalize_key fence_key = Ok k ->
  fence_matches fence_key owner fence now s = Ok true <-> fence_held s k owner fence now.
Proof.
  intros Hk. unfold fence_matches. rewrite Hk. cbn. split.
  - destruct (s !! k) as [raw|] eqn:Es; [|done].
    destruct raw as [v|]; cbn; [|done]. destruct v as [| | | | |record]; try done.
    destruct (fence_live record owner fence now) as [b|e] eqn:El; [|by destruct e].
    intros [= ->]. apply fence_live_true in El as (renew & ttl & expires & ?).
    by exists record, renew, ttl, expires.
  - intros (record & renew & ttl & expires & -> & Ho & Hf & H1 & H2 & H3 & Hl). cbn.
    unfold fence_live. rewrite H1, H2, H3, Ho. cbn.
    rewrite bool_decide_eq_true_2 by done. rewrite Hf. cbn.
    rewrite Z.eqb_refl. cbn. f_equal.
    destruct (0 <? renew); [by apply Z.leb_le|by apply Z.ltb_lt].
Qed.

Lemma fenced_put_effect now fence_key fk owner fence key k data s :
  normalize_key fence_key = Ok fk -> normalize_key key = Ok k ->
  let '(r, s') := fenced_put now fence_key owner fence key data s in
  (r = Ok true <-> fence_held s fk owner fence now) /\
  s' = (if decide (r = Ok true) then <[k := data]> s else s).
Proof.
  intros Hfk Hk. unfold fenced_put. rewrite Hk.
  pose proof (fence_matches_true fence_key fk owner fence now s Hfk) as Hm.
  destruct (fence_matches fence_key owner fence now s) as [[]|e]; cbn.
  - tauto.
  - split; [|done]. rewrite <- Hm. split; discriminate.
  - split; [|done]. rewrite <- Hm. split; discriminate.
Qed.

(** Fenced writes are safe against stale leaders.  A fenced put commits
    exactly when the fence record names this owner and this fence number and
    is live at the moment of the write; in every other case, an error
    included, the store is left untouched. *)
Theorem fenced_put_requires_live_fence now fence_key fk owner fence key k data s :
  normalize_key fence_key = Ok fk -> normalize_key key = Ok k ->
  let '(r, s') := fenced_put now fence_key owner fence key data s in
  (r = Ok true <-> fence_held s fk owner fence now) /\
  s' = (if decide (r = Ok true) then <[k := data]> s else s).
Proof. apply fenced_put_effect. Qed.

Lemma fenced_put_requires_live_fence_witness :
  let s : mem := <["lease" := BJson (JObj (mk_dict
      [("owner_id", JStr "m1"); ("fence", JInt 3); ("renew_ms", JInt 100); ("ttl_ms", JInt 50)]))]> ∅ in
  let '(r, s') := fenced_put 120 "lease" "m1" 3 "q/x" (BRaw "v") s in
  (r = Ok true <-> fence_held s "lease" "m1" 3 120) /\
  s' = (if decide (r = Ok true) then <["q/x" := BRaw "v"]> s else s).
Proof.
  apply (fenced_put_requires_live_fence 120 "lease" "lease" "m1" 3 "q/x" "q/x" (BRaw "v"));
    vm_compute; reflexivity.
Defined.

(** Writing several objects whose keys are all valid. *)
Definition normalized_values (values : list (string * blob)) : list (string * blob) :=
  omap (fun kd => match normalize_key kd.1 with Ok k => Some (k, kd.2) | Err _ => None end)
       values.

Lemma put_all_spec values s :
  Forall (fun kd => is_Ok (normalize_key kd.1)) values ->
  put_all values s =
    (Ok tt, foldl (fun m kd => <[kd.1 := kd.2]> m) s (normalized_values values)).
Proof.
  intros Hv. revert s. unfold put_all, forM_.
  induction Hv as [|[key d] values [k Hk] Hv IH]; intros s; [done|].
  unfold normalized_values in *. cbn in *. rewrite Hk.
  unfold mbind, M_bind. rewrite (with_key_Ok _ k) by done. apply IH.
Qed.

(** A guarded batch is all-or-nothing.  For a batch of valid keys, the
    fenced guarded write either commits every object of the batch (exactly
    when the fence is held and the guard object is byte-identical to what
    the writer read) or changes nothing at all. *)
Theorem guarded_batch_atomic now fence_key fk owner fence guard_key gk guard values s :
  normalize_key fence_key = Ok fk -> normalize_key guard_key = Ok gk ->
  Forall (fun kd => is_Ok (normalize_key kd.1)) values ->
  let '(r, s') := fenced_guarded_put_batch now fence_key owner fence guard_key guard values s in
  (r = Ok true <-> fence_held s fk owner fence now /\ s !! gk = Some guard) /\
  s' = (if decide (r = Ok true)
        then foldl (fun m kd => <[kd.1 := kd.2]> m) s (normalized_values values) else s).
Proof.
  intros Hfk Hgk Hv. unfold fenced_guarded_put_batch, guarded_put_batch.
  rewrite (with_key_Ok _ gk) by done.
  pose proof (fence_matches_true fence_key fk owner fence now s Hfk) as Hm.
  destruct (fence_matches fence_key owner fence now s) as [[]|e]; cbn.
  2,3: split; [|done]; rewrite <- Hm; split; [discriminate|intros [? _]; discriminate].
  case_bool_decide as Hg.
  - unfold mbind, M_bind. rewrite put_all_spec by done. cbn. tauto.
  - cbn. split; [|done]. split; [discriminate|]. intros [_ ?]; congruence.
Qed.

Lemma guarded_batch_atomic_witness :
  let s : mem := <["gen" := BRaw "g1"]> (<["lease" := BJson (JObj (mk_dict
      [("owner_id", JStr "m1"); ("fence", JInt 3); ("renew_ms", JInt 100); ("ttl_ms", JInt 50)]))]> ∅) in
  let values := [("a", BRaw "1"); ("b", BRaw "2")] in
  let '(r, s') := fenced_guarded_put_batch 120 "lease" "m1" 3 "gen" (BRaw "g1") values s in
  (r = Ok true <-> fence_held s "lease" "m1" 3 120 /\ s !! "gen" = Some (BRaw "g1")) /\
  s' = (if decide (r = Ok true)
        then foldl (fun m kd => <[kd.1 := kd.2]> m) s (normalized_values values) else s).
Proof.
  apply (guarded_batch_atomic 120 "lease" "lease" "m1" 3 "gen" "gen"); [reflexivity|reflexivity|].
  repeat constructor; eexists; vm_compute; reflexivity.
Defined.

#[local] Instance stat_le_trans : Transitive stat_le.
Proof. intros a b c. unfold stat_le. apply transitivity. Qed.
#[local] Instance stat_le_total : Total stat_le.
Proof. intros a b. unfold stat_le. apply total, _. Qed.

Lemma list_items_elem pfx s st :
  st ∈ omap (fun kv : string * blob =>
         if startswith kv.1 pfx then Some (mk_stat kv.1 kv.2) else None) (map_to_list s) <->
  exists k b, s !! k = Some b /\ startswith k pfx = true /\ st = mk_stat k b.
Proof.
  rewrite list_elem_of_omap. split.
  - intros ([k b] & Hin & Hst). apply elem_of_map_to_list in Hin. cbn [fst snd] in Hst.
    destruct (startswith k pfx) eqn:E; [|done]. injection Hst as <-. eauto.
  - intros (k & b & Hk & Hp & ->). exists (k, b). rewrite elem_of_map_to_list. cbn [fst snd].
    by rewrite Hp.
Qed.

Lemma list_items_nodup pfx s :
  NoDup (os_key <$> omap (fun kv : string * blob =>
           if startswith kv.1 pfx then Some (mk_stat kv.1 kv.2) else None) (map_to_list s)).
Proof.
  pose proof (NoDup_fst_map_to_list s) as Hn. revert Hn. generalize (map_to_list s) as l.
  induction l as [|[k b] l IH]; intros Hn; [constructor|].
  rewrite fmap_cons in Hn. cbn [omap list_omap fst snd] in *.
  inversion Hn as [|? ? Hk Hl]; subst. specialize (IH Hl).
  destruct (startswith k pfx); [|done]. rewrite fmap_cons. constructor; [|done].
  rewrite list_elem_of_fmap. intros (st & Heq & Hst). apply list_elem_of_omap in Hst as ([k' b'] & Hin & Hst).
  cbn [fst snd] in Hst. destruct (startswith k' pfx); [|done]. simplify_eq/=.
  apply Hk. rewrite list_elem_of_fmap. by exists (k', b').
Qed.

Lemma list_spec prefix s :
  exists l, list_ prefix s = (Ok l, s) /\ Sorted stat_le l /\ NoDup (os_key <$> l) /\
  forall st, st ∈ l <-> exists k b, s !! k = Some b /\
    startswith k (lstrip_char slash (replace_char backslash slash prefix)) = true /\
    st = mk_stat k b.
Proof.
  unfold list_. eexists; split; [done|].
  set (pfx := lstrip_char slash (replace_char backslash slash prefix)).
  split_and!.
  - apply Sorted_merge_sort, _.
  - rewrite merge_sort_Permutation. apply list_items_nodup.
  - intros st. rewrite merge_sort_Permutation. apply list_items_elem.
Qed.

(** [list] is complete, sound and ordered: it returns, sorted by key and
    without repetition, the stat of exactly the stored objects whose key
    starts with the (normalized) prefix, and changes nothing. *)
Theorem list_exact prefix s :
  exists l, list_ prefix s = (Ok l, s) /\ Sorted stat_le l /\ NoDup (os_key <$> l) /\
  forall k b, s !! k = Some b ->
    (mk_stat k b ∈ l <->
     startswith k (lstrip_char slash (replace_char backslash slash prefix)) = true).
Proof.
  destruct (list_spec prefix s) as (l & Hl & Hs & Hn & Hin).
  exists l. split_and!; [done..|]. intros k b Hk. rewrite Hin. split.
  - intros (k' & b' & _ & Hp & Heq). by simplify_eq/=.
  - eauto.
Qed.

Lemma put_blob_if_absent_effect key k value len s :
  normalize_key key = Ok k ->
  put_blob_if_absent key value len s =
    (if negative len then (Err (ValueError "length must be >= 0"), s)
     else if length_mismatch len (blob_bytes value) then
       (Err (ValueError "artifact stream length mismatch"), s)
     else match s !! k with
     | None => (Ok (mk_stat k value), <[k := value]> s)
     | Some b =>
         ((if (blob_size b =? blob_size value) &&
              String.eqb (sha256_hex (blob_bytes b)) (sha256_hex (blob_bytes value))
           then Ok (mk_stat k b) else Err (ObjectConflict key)), s)
     end).
Proof.
  intros Hk. unfold put_blob_if_absent.
  destruct (negative len); [done|]. destruct (length_mismatch len (blob_bytes value)); [done|].
  unfold mbind, M_bind. rewrite (compare_and_swap_spec _ k) by done.
  unfold head, verify. rewrite !(with_key_Ok _ k) by done.
  destruct (s !! k) as [b|] eqn:Es; cbn [decide].
  - rewrite decide_False by done. rewrite Es. cbn [fmap option_fmap option_map os_size mk_stat].
    destruct (blob_size b =? blob_size value) eqn:E; cbn [andb]; [|done].
    rewrite Es, E. cbn [andb]. by destruct (String.eqb _ _).
  - rewrite decide_True by done. by rewrite lookup_insert_eq.
Qed.

(** An object already stored survives, and after a success the object has the
    size and the digest of the contents. *)
Lemma put_blob_if_absent_keeps key k value len s :
  normalize_key key = Ok k ->
  let '(r, s') := put_blob_if_absent key value len s in
  (forall k' b, s !! k' = Some b -> s' !! k' = Some b) /\
  (forall k', k' <> k -> s' !! k' = s !! k') /\
  forall st, r = Ok st ->
    exists b, s' !! k = Some b /\ st = mk_stat k b /\
      blob_size b = blob_size value /\ sha256_hex (blob_bytes b) = sha256_hex (blob_bytes value) /\
      (s !! k = None -> b = value).
Proof.
  intros Hk. rewrite (put_blob_if_absent_effect _ k) by done.
  destruct (negative len); [split; [done|]; split; [done|discriminate]|].
  destruct (length_mismatch len (blob_bytes value)); [split; [done|]; split; [done|discriminate]|].
  destruct (s !! k) as [b|] eqn:Es.
  - split; [done|]. split; [done|]. intros st.
    destruct (_ && _) eqn:E; [|discriminate]. intros [= <-].
    apply andb_true_iff in E as [E1%Z.eqb_eq E2%String.eqb_eq]. exists b. by split_and!.
  - split_and!.
    + intros k' b Hk'. destruct (decide (k = k')) as [->|]; [congruence|].
      by rewrite lookup_insert_ne.
    + intros k' Hk'. by rewrite lookup_insert_ne.
    + intros st [= <-]. exists value. rewrite lookup_insert_eq. by split_and!.
Qed.

(** Artifacts are immutable.  [put_stream_if_absent] never changes an
    object that already exists, whatever the outcome; and when it reports
    success, the object stored under the key has the size and the SHA-256
    digest of the uploaded bytes. *)
Theorem put_stream_if_absent_immutable key k chunks len s :
  normalize_key key = Ok k ->
  let '(r, s') := put_stream_if_absent key chunks len s in
  (forall k' b, s !! k' = Some b -> s' !! k' = Some b) /\
  forall st, r = Ok st ->
    exists b, s' !! k = Some b /\ st = mk_stat k b /\
      blob_size b = Z.of_nat (String.length (concat_chunks chunks)) /\
      sha256_hex (blob_bytes b) = sha256_hex (concat_chunks chunks).
Proof.
  intros Hk. unfold put_stream_if_absent.
  pose proof (put_blob_if_absent_keeps key k (BRaw (concat_chunks chunks)) len s Hk) as Hp.
  destruct (put_blob_if_absent _ _ _ s) as [r s']. destruct Hp as (H1 & _ & H2).
  split; [done|]. intros st Hr. destruct (H2 st Hr) as (b & ? & ? & ? & ? & _). by exists b.
Qed.

Lemma put_stream_if_absent_immutable_witness :
  let s : mem := <["t/split-0.parquet" := BRaw "abc"]> ∅ in
  let '(r, s') := put_stream_if_absent "t/split-0.parquet" ["ab"; "c"] (Some 3) s in
  (forall k' b, s !! k' = Some b -> s' !! k' = Some b) /\
  forall st, r = Ok st ->
    exists b, s' !! "t/split-0.parquet" = Some b /\ st = mk_stat "t/split-0.parquet" b /\
      blob_size b = Z.of_nat (String.length (concat_chunks ["ab"; "c"])) /\
      sha256_hex (blob_bytes b) = sha256_hex (concat_chunks ["ab"; "c"]).
Proof.
  apply (put_stream_if_absent_immutable "t/split-0.parquet" "t/split-0.parquet").
  vm_compute. reflexivity.
Defined.

Lemma str_take_app_split n m x :
  str_take (n + m) x = str_take n x +:+ str_take m (str_drop n x).
Proof.
  revert x. induction n as [|n IH]; intros [|a x]; cbn; try done.
  - by destruct m.
  - by rewrite IH.
Qed.

Lemma str_drop_drop n m x : str_drop n (str_drop m x) = str_drop (m + n) x.
Proof. revert x. induction m as [|m IH]; intros [|a x]; cbn; [done|done|by destruct n|apply IH]. Qed.

Lemma str_take_min n x : str_take (min n (String.length x)) x = str_take n x.
Proof. revert n. induction x as [|a x IH]; intros [|n]; cbn; try done. by rewrite IH. Qed.

Lemma py_slice_take data start len :
  0 <= start -> 0 <= len ->
  py_slice data start (start + len) = str_take (Z.to_nat len) (str_drop (Z.to_nat start) data).
Proof.
  intros Hs Hl. unfold py_slice. destruct (Z.ltb_spec (start + len) 0); [lia|].
  rewrite <- (str_take_min (Z.to_nat len)), <- (str_take_min (Z.to_nat (Z.min _ _ - _))).
  f_equal. rewrite str_drop_length. lia.
Qed.

(** Ranged reads tile.  Reading a window in two parts gives the same
    bytes as reading it at once, so any way of splitting an object into
    consecutive windows reassembles it. *)
Theorem ranged_reads_tile key k b offset n m s :
  normalize_key key = Ok k -> s !! k = Some b -> 0 <= offset -> 0 <= n -> 0 <= m ->
  exists x y,
    get key offset (Some n) s = (Ok (BRaw x), s) /\
    get key (offset + n) (Some m) s = (Ok (BRaw y), s) /\
    get key offset (Some (n + m)) s = (Ok (BRaw (x +:+ y)), s).
Proof.
  intros Hk Hb Ho Hn Hm. unfold get. rewrite !(with_key_Ok _ k) by done. rewrite Hb.
  unfold slice. rewrite !(proj2 (Z.ltb_ge _ _)) by lia.
  do 2 eexists. split; [done|]. split; [done|]. do 3 f_equal.
  rewrite !py_slice_take by lia.
  rewrite Z2Nat.inj_add, str_take_app_split, str_drop_drop by lia.
  by rewrite <- Z2Nat.inj_add by lia.
Qed.

Lemma ranged_reads_tile_witness :
  let s : mem := <["k" := BRaw "abcdef"]> ∅ in
  exists x y,
    get "k" 1 (Some 2) s = (Ok (BRaw x), s) /\
    get "k" (1 + 2) (Some 9) s = (Ok (BRaw y), s) /\
    get "k" 1 (Some (2 + 9)) s = (Ok (BRaw (x +:+ y)), s).
Proof.
  intros s. apply (ranged_reads_tile "k" "k" (BRaw "abcdef") 1 2 9 s);
    [reflexivity | reflexivity | lia | lia | lia].
Defined.
End store_theorems.
