(* ===== verification/World.v ===== *)
(** * The world a Manager process acts on

    The shared artifact store, the process' [LeaderLease] object, and the
    sources of time and randomness.  [clock n] is the [n]-th reading of
    [time.time() * 1000] and [token n] the [n]-th random token; both are
    arbitrary, so every theorem holds whatever the clock and the generator
    return. *)

From S2P Require Import Prelude PyText Sha256 Json ArtifactStore.
Import MemoryStore.

Class Env := {
  clock : nat -> Z;
  token : nat -> string;
}.

(** The attributes of a [LeaderLease] object. *)
Record lease_obj := LeaseObj {
  lo_owner_id : string;
  lo_ttl_ms : Z;
  lo_is_leader : bool;
  lo_fence : Z;
  lo_last_error : string;
}.

Record world := World {
  w_store : mem;
  w_ticks : nat;
  w_tokens : nat;
  w_lease : lease_obj;
}.

Definition set_store (s : mem) (w : world) : world :=
  World s (w_ticks w) (w_tokens w) (w_lease w).
Definition set_lease (o : lease_obj) (w : world) : world :=
  World (w_store w) (w_ticks w) (w_tokens w) o.
Definition tick (w : world) : world :=
  World (w_store w) (S (w_ticks w)) (w_tokens w) (w_lease w).

(** One operation of the store, atomic. *)
Definition st {A} (m : M mem A) : M world A := fun w =>
  ((m (w_store w)).1, set_store (m (w_store w)).2 w).

Section world.
Context `{Env}.

(** [_now_ms()] *)
Definition now_ms : M world Z := fun w => (Ok (clock (w_ticks w)), tick w).

(** [secrets.token_urlsafe(32)] and the like. *)
Definition fresh_token : M world string := fun w =>
  (Ok (token (w_tokens w)), World (w_store w) (w_ticks w) (S (w_tokens w)) (w_lease w)).

(** [now_ms() if now is None else int(now)] *)
Definition now_or (now : option Z) : M world Z :=
  match now with Some n => mret n | None => now_ms end.

(** A fenced operation of the store reads the clock itself. *)
Definition st_now {A} (m : Z -> M mem A) : M world A :=
  n ← now_ms; st (m n).
End world.

(** ** Computations that only read the store *)

Definition reads {A} (m : M world A) : Prop :=
  forall w, w_store (m w).2 = w_store w.

Section reads.
Context `{Env}.

Lemma reads_ret {A} (a : A) : reads (mret a).
Proof. done. Qed.
Lemma reads_raise {A} e : reads (raise (A:=A) e).
Proof. done. Qed.
Lemma reads_lift {A} (r : res A) : reads (lift r).
Proof. done. Qed.
Lemma reads_gets {A} (f : world -> A) : reads (gets f).
Proof. done. Qed.
Lemma reads_now_ms : reads now_ms.
Proof. done. Qed.
Lemma reads_fresh_token : reads fresh_token.
Proof. done. Qed.
Lemma reads_now_or n : reads (now_or n).
Proof. by destruct n. Qed.

Lemma reads_bind {A B} (m : M world A) (f : A -> M world B) :
  reads m -> (forall a, reads (f a)) -> reads (m ≫= f).
Proof.
  intros Hm Hf w. unfold mbind, M_bind. specialize (Hm w).
  destruct (m w) as [[a|e] w']; cbn in *; [by rewrite Hf|done].
Qed.

Lemma reads_catch {A} (m : M world A) h :
  reads m -> (forall e, reads (h e)) -> reads (catch m h).
Proof.
  intros Hm Hh w. unfold catch. specialize (Hm w).
  destruct (m w) as [[a|e] w']; cbn in *; [done|by rewrite Hh].
Qed.

Lemma reads_foldM {A B} (f : B -> A -> M world B) l : forall b,
  (forall b a, reads (f b a)) -> reads (foldM f b l).
Proof.
  induction l as [|a l IH]; intros b Hf; [apply reads_ret|].
  apply reads_bind; [done|]. intros b'. by apply IH.
Qed.

Lemma reads_modify_lease f : reads (modify (fun w => set_lease (f w) w)).
Proof. done. Qed.

Lemma reads_get key off len : reads (st (get key off len)).
Proof. intros w. unfold st. cbn. apply get_read_only. Qed.

Lemma reads_head key : reads (st (head key)).
Proof. intros w. unfold st, head, with_key. cbn. by destruct (normalize_key key). Qed.

Lemma reads_verify key size h : reads (st (verify key size h)).
Proof. intros w. unfold st, verify, with_key. cbn. by destruct (normalize_key key). Qed.

Lemma reads_list p : reads (st (list_ p)).
Proof. done. Qed.

(** A reading computation maintains any invariant of the store. *)
Lemma reads_maintains {A} (P : mem -> Prop) (R : mem -> mem -> Prop) `{!Reflexive R}
    (m : M world A) :
  reads m -> maintains (fun w => P (w_store w)) (fun w w' => R (w_store w) (w_store w')) m.
Proof. intros Hm w HP. cbn. rewrite Hm. done. Qed.
End reads.

#[export] Hint Resolve reads_ret reads_raise reads_lift reads_gets reads_now_ms
  reads_fresh_token reads_now_or reads_modify_lease reads_get reads_head reads_verify
  reads_list : fsp.

(** Prove that a computation only reads, by structure. *)
Ltac solve_reads :=
  repeat first
    [ solve [eauto with fsp]
    | apply reads_bind; [|intros ?]
    | apply reads_catch; [|intros ?]
    | apply reads_foldM; intros ? ?
    | case_scrut ].
