(* ===== verification/Lease.v ===== *)
(** * The leader lease

    [enterprise/control/lease.py]: a TTL lease over one object of the artifact
    store, taken and renewed by compare-and-swap; each takeover increments a
    fence number that every later mutation is checked against. *)

From S2P Require Import Prelude PyText Sha256 Json ArtifactStore World.
Import MemoryStore.

Definition LEASE_KEY : string := "_control/leader.json".
Definition PRESENCE_PREFIX : string := "_control/managers".

Definition exn_msg (e : exn) : string :=
  match e with
  | ValueError m | TypeError m | KeyError m | AttributeError m | NotImplementedError m
  | TimeoutError m | RuntimeError m | ObjectNotFound m | ObjectConflict m
  | LeaseStoreError m | StaleLeaderError m | WorkQueueError m | WorkQueueConflict m
  | GenerationError m | AuthorizationError m | LeaseError m
  | CatalogConflict m | OSError m | StateSafetyError m | PendingStateError m | SourceUnavailable m
  | TokenizationPolicyError m | TokenizerError m | ReidentificationMappingError m | AuditUnavailable m
  | PolicyBundleUnavailable m | PolicyBundleValidationError m | Unmodelled m => m
  | PlacementPolicyViolation code detail => code +:+ ": " +:+ detail
  | AgentVersionUnsupported detail => "agent_version_unsupported: " +:+ detail
  end.

(** [LeaderLease(store, owner_id, ttl_ms=...)] *)
Definition new_lease (owner_id : string) (ttl_ms : Z) : lease_obj :=
  LeaseObj owner_id (Z.max 1 ttl_ms) false 0 "".

(** ** Decisions, as functions of the record read *)

(** [_expired] *)
Definition expired (o : lease_obj) (rec : dict) (now : Z) : res bool :=
  renew ← get_int rec "renew_ms" 0;
  ttl ← get_int rec "ttl_ms" (lo_ttl_ms o);
  Ok (ttl <? now - renew).

(** [_record] *)
Definition record (o : lease_obj) (now fence : Z) (owner_id : string) (state : dict) : blob :=
  BJson (JObj (mk_dict [
    ("owner_id", JStr owner_id);
    ("renew_ms", JInt now);
    ("ttl_ms", JInt (lo_ttl_ms o));
    ("fence", JInt fence);
    ("state", JObj state)])).

(** The decision of [acquire_or_renew]: the fence to install, or [None] to
    stand by. *)
Definition acquire_fence (o : lease_obj) (rec : option dict) (now : Z) : res (option Z) :=
  let r := default ∅ rec in
  let present := match rec with Some d => truthy (JObj d) | None => false end in
  is_expired ← (if present then expired o r now else Ok false);
  let same_live_owner :=
    present && bool_decide (dget r "owner_id" JNull = JStr (lo_owner_id o))
    && negb is_expired in
  let can_take :=
    bool_decide (rec = None) || negb (truthy (dget r "owner_id" JNull))
    || is_expired || same_live_owner in
  if can_take then
    previous ← get_int r "fence" 0;
    Ok (Some (if same_live_owner then previous else previous + 1))
  else Ok None.

Definition acquire_record (o : lease_obj) (rec : option dict) (now fence : Z) : res blob :=
  state ← get_dict (default ∅ rec) "state";
  Ok (record o now fence (lo_owner_id o) state).

(** The check of [validate], [release] and [mutate_state] that the record is
    the caller's live term. *)
Definition owns_term (rec : option dict) (owner : string) (fence : Z) : res bool :=
  match rec with
  | None => Ok false
  | Some r =>
      if bool_decide (dget r "owner_id" JNull = JStr owner)
      then f ← get_int r "fence" (-1); Ok (f =? fence)
      else Ok false
  end.

Definition live_term (o : lease_obj) (rec : option dict) (owner : string) (fence now : Z)
  : res bool :=
  owns ← owns_term rec owner fence;
  if (owns : bool) then e ← expired o (default ∅ rec) now; Ok (negb e) else Ok false.

(** ** Operations *)

Section lease.
Context `{Env}.

Definition lease : M world lease_obj := gets w_lease.
Definition set_last_error (msg : string) : M world unit :=
  modify (fun w => let o := w_lease w in
    set_lease (LeaseObj (lo_owner_id o) (lo_ttl_ms o) (lo_is_leader o) (lo_fence o) msg) w).
Definition become (leader : bool) (fence : Z) : M world unit :=
  modify (fun w => let o := w_lease w in
    set_lease (LeaseObj (lo_owner_id o) (lo_ttl_ms o) leader fence (lo_last_error o)) w).

(** [_lose] (its log line apart) *)
Definition lose : M world unit := become false 0.

Definition read_raw : M world (option blob * option dict) :=
  raw ← catch (b ← st (get LEASE_KEY 0 None); mret (Some b))
    (fun e => match e with
      | ObjectNotFound _ => mret None
      | e => raise (LeaseStoreError ("leader lease read failed: " +:+ exn_msg e))
      end);
  match raw with
  | None => mret (None, None)
  | Some b =>
      match loads b with
      | None => raise (LeaseStoreError "leader lease record is invalid")
      | Some (JObj d) => mret (Some b, Some d)
      | Some _ => raise (LeaseStoreError "leader lease record must be an object")
      end
  end.

(** One iteration of the compare-and-swap loop: [None] means the swap lost
    and the loop goes on. *)
Definition acquire_attempt (now : Z) : M world (option bool) :=
  catch
    (rr ← read_raw;
     o ← lease;
     fence ← lift (acquire_fence o rr.2 now);
     match fence with
     | None => lose;; set_last_error "";; mret (Some false)
     | Some fence =>
         data ← lift (acquire_record o rr.2 now fence);
         swapped ← st (compare_and_swap LEASE_KEY rr.1 data);
         if (swapped : bool) then
           become true fence;; set_last_error "";; mret (Some true)
         else mret None
     end)
    (fun e => set_last_error (exn_msg e);; lose;; mret (Some false)).

Fixpoint acquire_loop (attempts : nat) (now : Z) : M world bool :=
  match attempts with
  | O => set_last_error "leader lease compare-and-swap contention";; lose;; mret false
  | S attempts =>
      r ← acquire_attempt now;
      match r with
      | Some leader => mret leader
      | None => acquire_loop attempts now
      end
  end.

Definition acquire_or_renew (now : option Z) : M world bool :=
  now ← now_or now; acquire_loop 4 now.

Definition validate (owner_id : option string) (fence : option Z) (now : option Z)
  : M world dict :=
  o ← lease;
  let expected_owner := str_or (default "" owner_id) (lo_owner_id o) in
  let expected_fence := default (lo_fence o) fence in
  now ← now_or now;
  rr ← catch read_raw
    (fun e => match e with
      | LeaseStoreError _ => lose;; raise e
      | e => raise e
      end);
  ok ← lift (live_term o rr.2 expected_owner expected_fence now);
  if (ok : bool) then mret (default ∅ rr.2)
  else lose;; raise (StaleLeaderError "Manager leadership term is stale").

Definition release : M world unit :=
  catch
    (rr ← read_raw;
     o ← lease;
     owns ← lift (owns_term rr.2 (lo_owner_id o) (lo_fence o));
     if (owns : bool) && truthy (JObj (default ∅ rr.2)) then
       fence ← lift (get_int (default ∅ rr.2) "fence" (lo_fence o));
       state ← lift (get_dict (default ∅ rr.2) "state");
       st (compare_and_swap LEASE_KEY rr.1 (record o 0 fence "" state));; mret tt
     else mret tt)
    (fun e => set_last_error (exn_msg e));;
  become false 0.

Definition current_owner : M world (option json) :=
  catch
    (rr ← read_raw;
     let v := dget (default ∅ rr.2) "owner_id" JNull in
     mret (if truthy v then Some v else None))
    (fun e => match e with LeaseStoreError _ => mret None | e => raise e end).

Definition read_state (name : string) : M world json :=
  rr ← read_raw;
  state ← lift (get_dict (default ∅ rr.2) "state");
  mret (dget state name JNull).

(** The update of [mutate_state]: the same record with one state entry. *)
Definition mutated (rec : dict) (name : string) (value : json) : res blob :=
  state ← get_dict rec "state";
  Ok (BJson (JObj (<["state" := JObj (<[name := value]> state)]> rec))).

Fixpoint mutate_loop (attempts : nat) (name : string) (value : json) (now : Z)
  : M world Z :=
  match attempts with
  | O => raise (LeaseStoreError "Manager state compare-and-swap contention")
  | S attempts =>
      rr ← read_raw;
      o ← lease;
      ok ← lift (live_term o rr.2 (lo_owner_id o) (lo_fence o) now);
      if (ok : bool) then
        data ← lift (mutated (default ∅ rr.2) name value);
        swapped ← st (compare_and_swap LEASE_KEY rr.1 data);
        if (swapped : bool) then
          set_last_error "";; lift (req_int (default ∅ rr.2) "fence")
        else mutate_loop attempts name value now
      else lose;; raise (StaleLeaderError "Manager leadership term is stale")
  end.

Definition mutate_state (name : string) (value : json) (now : option Z) : M world Z :=
  now ← now_or now; mutate_loop 8 name value now.

Definition presence_key (owner : string) : string :=
  PRESENCE_PREFIX +:+ "/" +:+ sha256_hex owner +:+ ".json".

Definition publish_presence (role : string) (now : option Z) : M world unit :=
  now ← now_or now;
  o ← lease;
  st (put (presence_key (lo_owner_id o)) (BJson (JObj (mk_dict [
    ("owner_id", JStr (lo_owner_id o));
    ("role", JStr (if String.eqb role "primary" then "primary" else "standby"));
    ("observed_ms", JInt now);
    ("fence", JInt (if String.eqb role "primary" then lo_fence o else 0))]))));;
  mret tt.

Definition remove_presence : M world unit :=
  o ← lease;
  catch (st (delete_ (presence_key (lo_owner_id o)));; mret tt) (fun _ => mret tt).
End lease.

(** * Theorems *)

(** ** The record and the steps of the protocol *)

(** The leadership term named by the lease object: its owner ([""] after a
    release) and its fence. *)
Definition term_of (b : option blob) : option (string * Z) :=
  match b with
  | Some (BJson (JObj d)) =>
      match d !! "owner_id", d !! "fence" with
      | Some (JStr o), Some (JInt f) => Some (o, f)
      | _, _ => None
      end
  | _ => None
  end.
Definition term (s : mem) : option (string * Z) := term_of (s !! LEASE_KEY).

(** A lease object is absent or a record as the code writes it. *)
Definition wf_record (d : dict) : Prop :=
  exists owner renew ttl fence state,
    d !! "owner_id" = Some (JStr owner) /\ d !! "renew_ms" = Some (JInt renew) /\
    d !! "ttl_ms" = Some (JInt ttl) /\ d !! "fence" = Some (JInt fence) /\
    d !! "state" = Some (JObj state).
Definition wf_lease (s : mem) : Prop :=
  match s !! LEASE_KEY with
  | None => True
  | Some (BJson (JObj d)) => wf_record d
  | Some _ => False
  end.

(** What a reader that saw the raw object [raw] decodes from it. *)
Definition decoded (raw : option blob) (rec : option dict) : Prop :=
  match raw with
  | None => rec = None
  | Some (BJson (JObj d)) => rec = Some d
  | Some _ => False
  end.

(** One atomic effect on the store of some Manager's lease code.  [raw] is what
    that Manager read at some earlier moment, not necessarily the current
    object: other Managers may have acted in between. *)
Inductive lease_step : mem -> mem -> Prop :=
| step_acquire o now raw rec fence data b s s' :
    lo_owner_id o <> "" -> decoded raw rec ->
    acquire_fence o rec now = Ok (Some fence) ->
    acquire_record o rec now fence = Ok data ->
    compare_and_swap LEASE_KEY raw data s = (Ok b, s') ->
    lease_step s s'
| step_release o raw rec fence state b s s' :
    decoded raw rec -> owns_term rec (lo_owner_id o) (lo_fence o) = Ok true ->
    get_int (default ∅ rec) "fence" (lo_fence o) = Ok fence ->
    get_dict (default ∅ rec) "state" = Ok state ->
    compare_and_swap LEASE_KEY raw (record o 0 fence "" state) s = (Ok b, s') ->
    lease_step s s'
| step_mutate o raw rec name value now data b s s' :
    decoded raw rec -> live_term o rec (lo_owner_id o) (lo_fence o) now = Ok true ->
    mutated (default ∅ rec) name value = Ok data ->
    compare_and_swap LEASE_KEY raw data s = (Ok b, s') ->
    lease_step s s'
| step_elsewhere s s' :
    s' !! LEASE_KEY = s !! LEASE_KEY -> lease_step s s'.

Abbreviation lease_steps := (rtc lease_step).

(** The order on terms every step respects: the fence never decreases and a
    fence number never passes to another owner. *)
Definition term_le (t t' : option (string * Z)) : Prop :=
  match t, t' with
  | None, _ => True
  | Some _, None => False
  | Some (o, f), Some (o', f') => f <= f' /\ (f = f' -> o' = o \/ o' = "")
  end.

#[global] Instance term_le_preorder : PreOrder term_le.
Proof.
  split.
  - intros [[o f]|]; cbn; [|done]. split; [lia|by left].
  - intros [[o f]|] [[o' f']|] [[o'' f'']|]; cbn; try done.
    intros [H1 H2] [H3 H4]. split; [lia|]. intros ->.
    assert (f' = f'') as -> by lia.
    destruct (H4 eq_refl) as [->| ->]; [|by right]. by apply H2.
Qed.

Lemma lease_key_normal : normalize_key LEASE_KEY = Ok LEASE_KEY.
Proof. reflexivity. Qed.

Lemma wf_term s : wf_lease s -> s !! LEASE_KEY <> None ->
  exists d o f, s !! LEASE_KEY = Some (BJson (JObj d)) /\ wf_record d /\ term s = Some (o, f).
Proof.
  unfold wf_lease, term. destruct (s !! LEASE_KEY) as [[[| | | | |d]|]|] eqn:E; try done.
  intros Hw _. destruct Hw as (o & r & t & f & st & Ho & Hr & Ht & Hf & Hs).
  exists d, o, f. split_and!; [done|by exists o, r, t, f, st|]. cbn. by rewrite Ho, Hf.
Qed.

Lemma record_wf o now fence owner state :
  exists d, record o now fence owner state = BJson (JObj d) /\ wf_record d /\
            term_of (Some (BJson (JObj d))) = Some (owner, fence).
Proof.
  eexists; split; [done|]. split; [|done].
  exists owner, now, (lo_ttl_ms o), fence, state. split_and!; reflexivity.
Qed.

(** The decision of [acquire_or_renew] on a record as the code writes it. *)
Lemma acquire_fence_wf o d now owner renew ttl f :
  d !! "owner_id" = Some (JStr owner) -> d !! "renew_ms" = Some (JInt renew) ->
  d !! "ttl_ms" = Some (JInt ttl) -> d !! "fence" = Some (JInt f) ->
  let late := ttl <? now - renew in
  let mine := bool_decide (owner = lo_owner_id o) && negb late in
  acquire_fence o (Some d) now =
    Ok (if bool_decide (owner = "") || late || mine
        then Some (if mine then f else f + 1) else None).
Proof.
  intros H1 H2 H3 H4. unfold acquire_fence, expired, get_int, dget. cbn [from_option id truthy].
  rewrite H1, H2, H3, H4. cbn.
  rewrite (bool_decide_eq_false_2 (d = ∅)) by (intros ->; by rewrite lookup_empty in H1).
  cbn. unfold truthy_str. rewrite negb_involutive.
  rewrite (bool_decide_ext (JStr owner = _) (owner = lo_owner_id o)) by (split; congruence).
  assert (String.eqb owner "" = bool_decide (owner = "")) as ->
    by (case_bool_decide; [by subst|by apply String.eqb_neq]).
  by destruct (_ || _ || _).
Qed.

(** The fence chosen from a well-formed record dominates it. *)
Lemma acquire_fence_dominates o rec now fence d :
  lo_owner_id o <> "" -> wf_record d -> rec = Some d ->
  acquire_fence o rec now = Ok (Some fence) ->
  term_le (term_of (Some (BJson (JObj d)))) (Some (lo_owner_id o, fence)).
Proof.
  intros Ho (owner & renew & ttl & f & state & H1 & H2 & H3 & H4 & H5) ->.
  rewrite (acquire_fence_wf _ _ _ owner renew ttl f) by done. cbn zeta.
  unfold term_of. rewrite H1, H4. intros Hf.
  destruct (_ || _ || _); [|done].
  case_bool_decide; destruct (ttl <? now - renew); cbn in Hf; simplify_eq; cbn; split; auto with lia.
Qed.

Lemma lease_step_ok s s' : lease_step s s' -> wf_lease s -> wf_lease s' /\ term_le (term s) (term s').
Proof.
  intros Hstep Hwf.
  destruct Hstep as [o now raw rec fence data b s s' Ho Hdec Hf Hd Hcas
                    |o raw rec fence state b s s' Hdec Howns Hf Hs Hcas
                    |o raw rec name value now data b s s' Hdec Hlive Hm Hcas
                    |s s' Heq].
  4: { unfold wf_lease, term in *. rewrite Heq. split; [done|reflexivity]. }
  all: rewrite (compare_and_swap_spec _ _ _ _ _ lease_key_normal) in Hcas;
       destruct (decide _) as [Hraw|]; [|injection Hcas as <- <-; split; [done|reflexivity]];
       injection Hcas as <- <-; unfold wf_lease, term in *; rewrite lookup_insert_eq, Hraw in *.
  - unfold acquire_record, mbind, res_bind in Hd.
    destruct (get_dict _ _) as [st|]; [|done]. injection Hd as <-.
    destruct (record_wf o now fence (lo_owner_id o) st) as (d & -> & Hd & Ht).
    split; [done|]. rewrite Ht.
    destruct raw as [[[| | | | |d0]|]|]; try done.
    by apply (acquire_fence_dominates o rec now).
  - destruct (record_wf o 0 fence "" state) as (d & -> & Hd & Ht). split; [done|]. rewrite Ht.
    destruct raw as [[[| | | | |d0]|]|]; try done.
    cbn in Hdec. subst rec. destruct Hwf as (ow & r & t & f & st & H1 & H2 & H3 & H4 & H5).
    cbn in Hf. unfold get_int, dget in Hf. rewrite H4 in Hf. injection Hf as <-.
    cbn. rewrite H1, H4. split; [lia|by right].
  - destruct raw as [[[| | | | |d0]|]|]; try done; cbn in Hdec; subst rec; cbn in *; [|done].
    unfold mutated in Hm. cbn in Hm.
    destruct Hwf as (ow & r & t & f & st & H1 & H2 & H3 & H4 & H5).
    unfold get_dict, dget in Hm. rewrite H5 in Hm. cbn in Hm. injection Hm as <-.
    cbn. dict_lookup. rewrite H1, H4. split; [|split; [lia|by left]].
    exists ow, r, t, f. eexists. dict_lookup. by split_and!.
Qed.

Lemma lease_steps_ok s s' :
  lease_steps s s' -> wf_lease s -> wf_lease s' /\ term_le (term s) (term s').
Proof.
  induction 1 as [s|s s1 s2 Hstep _ IH]; intros Hwf; [split; [done|reflexivity]|].
  destruct (lease_step_ok _ _ Hstep Hwf) as [Hwf1 Hle1]. destruct (IH Hwf1) as [Hwf2 Hle2].
  split; [done|]. by etrans.
Qed.

(** C4: A fence number belongs to one Manager forever.  Along any interleaving
    of lease operations by any number of Managers, including swaps computed
    from stale reads, the fence never decreases, and two moments that show the
    same fence show the same owner (or the released lease). *)
Theorem fence_identifies_owner s1 s2 a b f g :
  wf_lease s1 -> lease_steps s1 s2 ->
  term s1 = Some (a, f) -> term s2 = Some (b, g) ->
  f <= g /\ (f = g -> b = a \/ b = "").
Proof.
  intros Hwf Hs H1 H2. destruct (lease_steps_ok _ _ Hs Hwf) as [_ Hle].
  by rewrite H1, H2 in Hle.
Qed.

Lemma fence_held_term s owner fence now :
  wf_lease s -> fence_held s LEASE_KEY owner fence now -> term s = Some (owner, fence).
Proof.
  unfold wf_lease, term. intros Hwf (record & renew & ttl & ex & Hs & Ho & Hf & _).
  rewrite Hs in *.
  destruct Hwf as (o & r & t & f & st & H1 & H2 & H3 & H4 & H5).
  unfold get_int, dget in *. rewrite H1 in Ho. rewrite H4 in Hf. cbn in Ho, Hf. cbn.
  rewrite H1, H4. by simplify_eq.
Qed.

(** C5: A deposed leader is locked out for good.  Once the lease has moved on
    from the term [(a, f)] to a different fence, no later fenced write under
    [(a, f)] can commit, at any clock reading and after any further steps. *)
Theorem deposed_leader_locked_out s1 s2 s3 a f b g now key k data :
  wf_lease s1 -> term s1 = Some (a, f) ->
  lease_steps s1 s2 -> term s2 = Some (b, g) -> f <> g ->
  lease_steps s2 s3 -> normalize_key key = Ok k ->
  (fenced_put now LEASE_KEY a f key data s3).1 <> Ok true /\
  (fenced_put now LEASE_KEY a f key data s3).2 = s3.
Proof.
  intros Hwf Ht1 Hs12 Ht2 Hne Hs23 Hk.
  destruct (lease_steps_ok _ _ Hs12 Hwf) as [Hwf2 Hle12].
  destruct (lease_steps_ok _ _ Hs23 Hwf2) as [Hwf3 Hle23].
  assert (~ fence_held s3 LEASE_KEY a f now) as Hnot.
  { intros Hheld%fence_held_term; [|done].
    rewrite Ht1, Ht2 in Hle12. rewrite Ht2, Hheld in Hle23. cbn in Hle12, Hle23. lia. }
  pose proof (fenced_put_effect now LEASE_KEY LEASE_KEY a f key k data s3 eq_refl Hk) as Hfp.
  destruct (fenced_put now LEASE_KEY a f key data s3) as [r s']. cbn. destruct Hfp as [Hr ->].
  assert (r <> Ok true) as Hr' by (intros ->; by apply Hnot, Hr).
  split; [done|]. by rewrite decide_False.
Qed.

(** ** The operations of one Manager *)

Section operations.
Context `{Env}.

Lemma read_raw_wf w :
  wf_lease (w_store w) ->
  exists rec, read_raw w = (Ok (w_store w !! LEASE_KEY, rec), w) /\
              decoded (w_store w !! LEASE_KEY) rec.
Proof.
  unfold wf_lease, read_raw, catch, st. intros Hwf.
  unfold mbind, M_bind. rewrite (get_whole _ _ _ lease_key_normal).
  destruct w as [s t r o]. cbn in *.
  destruct (s !! LEASE_KEY) as [[[| | | | |d]|]|]; try done; cbn; eauto.
Qed.

Lemma read_raw_reads : reads read_raw.
Proof. unfold read_raw. solve_reads. Qed.

Lemma validate_reads owner fence now : reads (validate owner fence now).
Proof.
  unfold validate, lease, lose, become.
  repeat (apply reads_bind; [|intros ?]); try case_scrut; solve_reads; try apply read_raw_reads;
    auto with fsp.
Qed.

(** When the lease may be taken by [me] at [now]. *)
Definition takeable (s : mem) (me : string) (now : Z) : Prop :=
  match s !! LEASE_KEY with
  | Some (BJson (JObj d)) =>
      exists owner renew ttl,
        d !! "owner_id" = Some (JStr owner) /\ d !! "renew_ms" = Some (JInt renew) /\
        d !! "ttl_ms" = Some (JInt ttl) /\
        (owner = "" \/ owner = me \/ ttl < now - renew)
  | _ => True
  end.

Lemma acquire_fence_takeable o rec now s :
  wf_lease s -> decoded (s !! LEASE_KEY) rec ->
  exists d, acquire_fence o rec now = Ok d /\
    (is_Some d <-> takeable s (lo_owner_id o) now).
Proof.
  unfold wf_lease, takeable, decoded. intros Hwf Hdec.
  destruct (s !! LEASE_KEY) as [[[| | | | |d]|]|]; try done; subst rec.
  2: { eexists; split; [done|]. split; [done|by eexists]. }
  destruct Hwf as (owner & renew & ttl & f & state & H1 & H2 & H3 & H4 & H5).
  rewrite (acquire_fence_wf _ _ _ owner renew ttl f) by done. cbn zeta.
  eexists; split; [done|].
  transitivity (owner = "" \/ owner = lo_owner_id o \/ ttl < now - renew);
    [|rewrite H1, H2, H3; naive_solver].
  repeat case_bool_decide; destruct (Z.ltb_spec ttl (now - renew)); cbn;
    split; eauto; try (intros [? ?]; done); intuition (congruence || lia).
Qed.

Lemma acquire_record_ok o rec now fence s :
  wf_lease s -> decoded (s !! LEASE_KEY) rec ->
  exists state, acquire_record o rec now fence = Ok (record o now fence (lo_owner_id o) state).
Proof.
  unfold wf_lease, decoded, acquire_record, get_dict, dget. intros Hwf Hdec.
  destruct (s !! LEASE_KEY) as [[[| | | | |d]|]|]; try done; subst rec; cbn.
  - destruct Hwf as (? & ? & ? & ? & state & _ & _ & _ & _ & ->). by exists state.
  - by exists ∅.
Qed.

(** The whole of [acquire_or_renew] on a well-formed store. *)
Lemma acquire_or_renew_effect now w :
  wf_lease (w_store w) ->
  let o := w_lease w in
  (exists fence state,
     takeable (w_store w) (lo_owner_id o) now /\
     (exists rec, decoded (w_store w !! LEASE_KEY) rec /\
        acquire_fence o rec now = Ok (Some fence) /\
        acquire_record o rec now fence = Ok (record o now fence (lo_owner_id o) state)) /\
     acquire_or_renew (Some now) w =
       (Ok true, World (<[LEASE_KEY := record o now fence (lo_owner_id o) state]> (w_store w))
                   (w_ticks w) (w_tokens w)
                   (LeaseObj (lo_owner_id o) (lo_ttl_ms o) true fence "")))
  \/ (~ takeable (w_store w) (lo_owner_id o) now /\
      acquire_or_renew (Some now) w =
        (Ok false, set_lease (LeaseObj (lo_owner_id o) (lo_ttl_ms o) false 0 "") w)).
Proof.
  intros Hwf o. destruct (read_raw_wf w Hwf) as (rec & Hread & Hdec).
  destruct (acquire_fence_takeable o rec now (w_store w) Hwf Hdec) as (fd & Hf & Htk).
  unfold acquire_or_renew, now_or. cbn [acquire_loop]. unfold acquire_attempt, catch, lease, lift.
  unfold mret, M_ret, mbind, M_bind. rewrite Hread.
  cbn -[acquire_fence acquire_record compare_and_swap record LEASE_KEY]. fold o. rewrite Hf.
  destruct fd as [fence|].
  - left. destruct (acquire_record_ok o rec now fence (w_store w) Hwf Hdec) as (state & Hr).
    exists fence, state. split; [by apply Htk|]. split; [by exists rec|].
    rewrite Hr. unfold st. cbn -[compare_and_swap record LEASE_KEY].
    rewrite (compare_and_swap_spec _ _ _ _ _ lease_key_normal), decide_True by done. done.
  - right. split; [|done]. rewrite <- Htk. by intros [? ?].
Qed.

(** Leadership is acquired exactly when the lease is free.  On a store
    whose lease record is absent or well formed, [acquire_or_renew] succeeds
    if and only if the lease is missing, released, expired or already ours;
    on success the store names this Manager with the fence it now holds, as
    one step of the protocol, and a fenced write under that fence would
    commit at the time of acquisition; on failure the store is unchanged and
    the Manager knows it does not lead. *)
Theorem acquire_or_renew_correct now w :
  wf_lease (w_store w) -> lo_owner_id (w_lease w) <> "" ->
  0 < now -> 0 < lo_ttl_ms (w_lease w) ->
  let '(r, w') := acquire_or_renew (Some now) w in
  let me := lo_owner_id (w_lease w) in
  (r = Ok true <-> takeable (w_store w) me now) /\
  (r = Ok true ->
     lo_is_leader (w_lease w') = true /\ wf_lease (w_store w') /\
     lease_step (w_store w) (w_store w') /\
     fence_held (w_store w') LEASE_KEY me (lo_fence (w_lease w')) now) /\
  (r <> Ok true ->
     r = Ok false /\ w_store w' = w_store w /\ lo_is_leader (w_lease w') = false).
Proof.
  intros Hwf Hme Hnow Httl. destruct (acquire_or_renew_effect now w Hwf)
    as [(fence & state & Htk & (rec & Hdec & Hf & Hr) & ->)|[Hn ->]].
  2: { cbn. by split_and!. }
  cbn. split_and!; [done|intros _|done].
  assert (lease_step (w_store w)
    (<[LEASE_KEY := record (w_lease w) now fence (lo_owner_id (w_lease w)) state]> (w_store w)))
    as Hstep.
  { eapply step_acquire with (o := w_lease w) (raw := w_store w !! LEASE_KEY); try done.
    by rewrite (compare_and_swap_spec _ _ _ _ _ lease_key_normal), decide_True. }
  split_and!; [done|by eapply lease_step_ok|done|].
  unfold fence_held, record. rewrite lookup_insert_eq.
  eexists _, now, (lo_ttl_ms (w_lease w)), 0. split_and!; try reflexivity.
  destruct (Z.ltb_spec 0 now); lia.
Qed.

(** [validate] is sound and has no effect on the store: it returns the
    record only if that record names this Manager, carries its fence and has
    not expired at [now]; otherwise it raises [StaleLeaderError] and the
    Manager drops its leadership flag. *)
Theorem validate_sound now w :
  wf_lease (w_store w) ->
  let '(r, w') := validate None None (Some now) w in
  let o := w_lease w in
  w_store w' = w_store w /\
  match r with
  | Ok d => exists renew ttl,
      w_store w !! LEASE_KEY = Some (BJson (JObj d)) /\
      term (w_store w) = Some (lo_owner_id o, lo_fence o) /\
      d !! "renew_ms" = Some (JInt renew) /\ d !! "ttl_ms" = Some (JInt ttl) /\
      now - renew <= ttl /\ w' = w
  | Err e => e = StaleLeaderError "Manager leadership term is stale" /\
      lo_is_leader (w_lease w') = false /\ lo_fence (w_lease w') = 0
  end.
Proof.
  intros Hwf. destruct (read_raw_wf w Hwf) as (rec & Hread & Hdec).
  unfold validate, lease, catch, now_or, lift, str_or.
  unfold mret, M_ret, mbind, M_bind. cbn. rewrite Hread. cbn.
  unfold wf_lease, decoded, term in *.
  destruct (w_store w !! LEASE_KEY) as [[[| | | | |d]|]|] eqn:Es; try done; subst rec; cbn.
  2: done.
  destruct Hwf as (owner & renew & ttl & f & state & H1 & H2 & H3 & H4 & H5).
  unfold live_term, owns_term, expired, get_int, dget, mbind, res_bind. cbn [from_option id].
  rewrite H1, H2, H3, H4. cbn.
  rewrite (bool_decide_ext (JStr owner = _) (owner = lo_owner_id (w_lease w))) by (split; congruence).
  case_bool_decide as Ho; cbn; [|done].
  destruct (Z.eqb_spec f (lo_fence (w_lease w))); cbn; [|done].
  destruct (Z.ltb_spec ttl (now - renew)); cbn; [done|].
  split; [done|]. exists renew, ttl. subst. by split_and!.
Qed.
End operations.

(** ** Witnesses *)

Definition demo_record (owner : string) (renew fence : Z) : blob :=
  BJson (JObj (mk_dict [("owner_id", JStr owner); ("renew_ms", JInt renew);
    ("ttl_ms", JInt 100); ("fence", JInt fence); ("state", JObj ∅)])).

Lemma demo_wf owner renew fence s : wf_lease (<[LEASE_KEY := demo_record owner renew fence]> s).
Proof. unfold wf_lease. rewrite lookup_insert_eq. exists owner, renew, 100, fence, ∅. by split_and!. Qed.

Lemma demo_takeover :
  lease_step (<[LEASE_KEY := demo_record "a" 1000 4]> ∅)
             (<[LEASE_KEY := demo_record "b" 2000 5]> (<[LEASE_KEY := demo_record "a" 1000 4]> ∅)).
Proof.
  eapply (step_acquire (new_lease "b" 100) 2000 (Some (demo_record "a" 1000 4)) _ 5);
    [done|reflexivity|vm_compute; reflexivity|vm_compute; reflexivity|].
  rewrite (compare_and_swap_spec _ _ _ _ _ lease_key_normal), decide_True by reflexivity.
  reflexivity.
Qed.

Lemma fence_identifies_owner_witness : 4 <= 5 /\ (4 = 5 -> "b" = "a" \/ "b" = "").
Proof.
  apply (fence_identifies_owner (<[LEASE_KEY := demo_record "a" 1000 4]> ∅)
    (<[LEASE_KEY := demo_record "b" 2000 5]> (<[LEASE_KEY := demo_record "a" 1000 4]> ∅)) "a" "b").
  - apply demo_wf.
  - apply rtc_once, demo_takeover.
  - vm_compute; reflexivity.
  - vm_compute; reflexivity.
Defined.

Lemma deposed_leader_locked_out_witness :
  let s := <[LEASE_KEY := demo_record "b" 2000 5]> (<[LEASE_KEY := demo_record "a" 1000 4]> ∅) in
  (fenced_put 1050 LEASE_KEY "a" 4 "x" (BRaw "late") s).1 <> Ok true /\
  (fenced_put 1050 LEASE_KEY "a" 4 "x" (BRaw "late") s).2 = s.
Proof.
  intros s. apply (deposed_leader_locked_out (<[LEASE_KEY := demo_record "a" 1000 4]> ∅) s s "a" 4 "b" 5 1050 "x" "x").
  - apply demo_wf.
  - vm_compute; reflexivity.
  - apply rtc_once, demo_takeover.
  - vm_compute; reflexivity.
  - lia.
  - apply rtc_refl.
  - reflexivity.
Defined.

#[local] Instance demo_env : Env := {| clock _ := 0; token _ := "t" |}.

Lemma acquire_or_renew_correct_witness :
  let w := World (<[LEASE_KEY := demo_record "a" 1000 4]> ∅) 0 0 (new_lease "b" 100) in
  let '(r, w') := acquire_or_renew (Some 2000) w in
  let me := lo_owner_id (w_lease w) in
  (r = Ok true <-> takeable (w_store w) me 2000) /\
  (r = Ok true ->
     lo_is_leader (w_lease w') = true /\ wf_lease (w_store w') /\
     lease_step (w_store w) (w_store w') /\
     fence_held (w_store w') LEASE_KEY me (lo_fence (w_lease w')) 2000) /\
  (r <> Ok true ->
     r = Ok false /\ w_store w' = w_store w /\ lo_is_leader (w_lease w') = false).
Proof.
  intros w. apply (acquire_or_renew_correct 2000 w); [apply demo_wf|discriminate|lia|cbn; lia].
Defined.

Lemma validate_sound_witness :
  let w := World (<[LEASE_KEY := demo_record "a" 1000 4]> ∅) 0 0 (LeaseObj "a" 100 true 4 "") in
  let '(r, w') := validate None None (Some 1050) w in
  let o := w_lease w in
  w_store w' = w_store w /\
  match r with
  | Ok d => exists renew ttl,
      w_store w !! LEASE_KEY = Some (BJson (JObj d)) /\
      term (w_store w) = Some (lo_owner_id o, lo_fence o) /\
      d !! "renew_ms" = Some (JInt renew) /\ d !! "ttl_ms" = Some (JInt ttl) /\
      1050 - renew <= ttl /\ w' = w
  | Err e => e = StaleLeaderError "Manager leadership term is stale" /\
      lo_is_leader (w_lease w') = false /\ lo_fence (w_lease w') = 0
  end.
Proof. intros w. apply (validate_sound 1050 w). apply demo_wf. Defined.
