(* ===== verification/Contract.v ===== *)
(** * The Manager/Agent contract

    [enterprise/control/contract.py]: task states and their transitions, the
    version check of registration, and the message shapes with their
    [to_dict]/[from_dict] codecs. *)

From S2P Require Import Prelude PyText Sha256 Json.
From Stdlib Require Import Ascii.

(** ** Versions *)

Definition CONTRACT_VERSION : string := "1.1".
Definition MIN_COMPATIBLE_CONTRACT_VERSION : string := "1.0".

(** [_version_tuple] *)
Definition version_tuple (value : string) : res (Z * Z) :=
  match partition "." value with
  | None => Err (ValueError "invalid control contract version")
  | Some (major, minor) =>
      a ← of_option (ValueError "int") (int_of_string major);
      b ← of_option (ValueError "int") (int_of_string minor);
      Ok (a, b)
  end.

Definition tuple_le (a b : Z * Z) : bool :=
  (a.1 <? b.1) || ((a.1 =? b.1) && (a.2 <=? b.2)).

Definition contract_compatible (value : string) : bool :=
  match version_tuple CONTRACT_VERSION, version_tuple MIN_COMPATIBLE_CONTRACT_VERSION,
        version_tuple value with
  | Ok current, Ok minimum, Ok candidate =>
      (candidate.1 =? current.1) && tuple_le minimum candidate && tuple_le candidate current
  | _, _, _ => false
  end.

(** ** Task states *)

Inductive task_state :=
| TASK_QUEUED | TASK_CLAIMED | TASK_SUCCEEDED | TASK_RETRY_WAIT
| TASK_FAILED | TASK_EXPIRED | TASK_CANCELLED.

#[global] Instance task_state_eq_dec : EqDecision task_state.
Proof. solve_decision. Defined.

Definition state_str (s : task_state) : string :=
  match s with
  | TASK_QUEUED => "QUEUED" | TASK_CLAIMED => "CLAIMED" | TASK_SUCCEEDED => "SUCCEEDED"
  | TASK_RETRY_WAIT => "RETRY_WAIT" | TASK_FAILED => "FAILED" | TASK_EXPIRED => "EXPIRED"
  | TASK_CANCELLED => "CANCELLED"
  end.

Definition TASK_STATES : list task_state :=
  [TASK_QUEUED; TASK_CLAIMED; TASK_SUCCEEDED; TASK_RETRY_WAIT; TASK_FAILED; TASK_EXPIRED;
   TASK_CANCELLED].

Definition state_of_str (s : string) : option task_state :=
  list_find (fun t => state_str t = s) TASK_STATES ≫= fun it => Some it.2.

Definition TASK_TERMINAL_STATES : list task_state :=
  [TASK_SUCCEEDED; TASK_FAILED; TASK_CANCELLED].

Definition terminal (s : task_state) : bool := bool_decide (s ∈ TASK_TERMINAL_STATES).

Definition TASK_TRANSITIONS (s : task_state) : list task_state :=
  match s with
  | TASK_QUEUED => [TASK_CLAIMED; TASK_FAILED; TASK_CANCELLED]
  | TASK_CLAIMED =>
      [TASK_SUCCEEDED; TASK_RETRY_WAIT; TASK_FAILED; TASK_EXPIRED; TASK_CANCELLED]
  | TASK_RETRY_WAIT => [TASK_QUEUED; TASK_FAILED; TASK_CANCELLED]
  | TASK_EXPIRED => [TASK_QUEUED; TASK_FAILED; TASK_CANCELLED]
  | TASK_SUCCEEDED | TASK_FAILED | TASK_CANCELLED => []
  end.

Definition valid_task_transition (current target : task_state) : bool :=
  bool_decide (target ∈ TASK_TRANSITIONS current).

(** ** Result codes *)

Definition RESULT_ACCEPTED : string := "accepted".
Definition RESULT_DUPLICATE : string := "duplicate".
Definition RESULT_STALE_CLAIM : string := "stale_claim".
Definition RESULT_STALE_GENERATION : string := "stale_generation".
Definition RESULT_WRONG_OWNER : string := "wrong_owner".
Definition RESULT_INVALID_OUTPUT : string := "invalid_output".
Definition RESULT_CONFLICT : string := "conflict".
Definition RESULT_REJECTED : string := "rejected".

(** ** Value types *)

Record key_range := KeyRange { kr_lo : Z; kr_hi : Z }.

Definition key_range_to_dict (r : key_range) : dict :=
  mk_dict [("lo", JInt (kr_lo r)); ("hi", JInt (kr_hi r))].
Definition key_range_from_dict (d : dict) : res key_range :=
  lo ← req_int d "lo"; hi ← req_int d "hi"; Ok (KeyRange lo hi).

Record column := Column {
  col_field_id : Z;
  col_name : string;
  col_iceberg_type : string;
  col_nullable : bool;
  col_source : string;
  col_transform : option dict;
  col_policy_id : string;
}.

Definition opt_dict (k : string) (v : option dict) (d : dict) : dict :=
  match v with Some m => <[k := JObj m]> d | None => d end.

Definition column_to_dict (c : column) : dict :=
  opt_field "policy_id" (truthy_str (col_policy_id c)) (JStr (col_policy_id c)) $
  opt_dict "transform" (col_transform c) $
  opt_field "source" (truthy_str (col_source c)) (JStr (col_source c)) $
  mk_dict [("field_id", JInt (col_field_id c)); ("name", JStr (col_name c));
           ("iceberg_type", JStr (col_iceberg_type c)); ("nullable", JBool (col_nullable c))].

Definition column_from_dict (d : dict) : res column :=
  field_id ← req_int d "field_id";
  name ← req_str d "name";
  iceberg_type ← req_str d "iceberg_type";
  source ← get_str d "source" "";
  policy_id ← get_str d "policy_id" "";
  Ok (Column field_id name iceberg_type (get_bool d "nullable" true) source
        (match dget d "transform" JNull with JObj m => Some m | _ => None end) policy_id).

(** [X.from_dict(rng) if rng else None] *)
Definition opt_range (d : dict) : res (option key_range) :=
  match dget d "range" JNull with
  | JObj r => if truthy (JObj r) then x ← key_range_from_dict r; Ok (Some x) else Ok None
  | v => if truthy v then Err (TypeError "range must be an object") else Ok None
  end.

Definition of_objs {A} (f : dict -> res A) (l : list json) : res (list A) :=
  res_map (fun v => d ← as_obj v; f d) l.

Record split_ref := SplitRef {
  sr_object_key : string;
  sr_size_bytes : Z;
  sr_record_count : Z;
  sr_content_hash : string;
  sr_range : option key_range;
}.

Definition split_ref_to_dict (s : split_ref) : dict :=
  opt_dict "range" (key_range_to_dict <$> sr_range s) $
  mk_dict [("object_key", JStr (sr_object_key s)); ("size_bytes", JInt (sr_size_bytes s));
           ("record_count", JInt (sr_record_count s)); ("content_hash", JStr (sr_content_hash s))].

Definition split_ref_from_dict (d : dict) : res split_ref :=
  object_key ← req_str d "object_key";
  size ← req_int d "size_bytes";
  count ← req_int d "record_count";
  hash ← req_str d "content_hash";
  range ← opt_range d;
  Ok (SplitRef object_key size count hash range).

(** The elements of a [list[str]] field. *)
Definition as_str (v : json) : res string :=
  match v with JStr s => Ok s | _ => Err (Unmodelled "a list element that is not a string") end.

(** ** Table state *)

Record snapshot_manifest := SnapshotManifest {
  sm_table : string;
  sm_epoch : Z;
  sm_table_format : string;
  sm_splits : list split_ref;
  sm_metadata_keys : list string;
  sm_generation_id : string;
  sm_generation_fence : Z;
  sm_plan_sha256 : string;
  sm_published_at_ms : Z;
  sm_request_id : string;
  sm_dataset_id : string;
  sm_produced_at_ms : Z;
  sm_tenant_id : string;
}.

Definition str_field (k v : string) : dict -> dict := opt_field k (truthy_str v) (JStr v).
Definition int_field (k : string) (v : Z) : dict -> dict := opt_field k (truthy_int v) (JInt v).

Definition manifest_to_dict (m : snapshot_manifest) : dict :=
  str_field "tenant_id" (sm_tenant_id m) $
  int_field "produced_at_ms" (sm_produced_at_ms m) $
  str_field "dataset_id" (sm_dataset_id m) $
  str_field "request_id" (sm_request_id m) $
  int_field "published_at_ms" (sm_published_at_ms m) $
  str_field "plan_sha256" (sm_plan_sha256 m) $
  int_field "generation_fence" (sm_generation_fence m) $
  str_field "generation_id" (sm_generation_id m) $
  mk_dict [("table", JStr (sm_table m)); ("epoch", JInt (sm_epoch m));
           ("table_format", JStr (sm_table_format m));
           ("splits", JList (map (fun s => JObj (split_ref_to_dict s)) (sm_splits m)));
           ("metadata_keys", JList (map JStr (sm_metadata_keys m)))].

Definition manifest_from_dict (d : dict) : res snapshot_manifest :=
  table ← req_str d "table";
  epoch ← req_int d "epoch";
  table_format ← req_str d "table_format";
  splits ← get_list d "splits";
  splits ← of_objs split_ref_from_dict splits;
  keys ← get_list d "metadata_keys";
  keys ← res_map as_str keys;
  generation_id ← get_str d "generation_id" "";
  generation_fence ← get_int d "generation_fence" 0;
  plan_sha256 ← get_str d "plan_sha256" "";
  published_at_ms ← get_int d "published_at_ms" 0;
  request_id ← get_str d "request_id" "";
  dataset_id ← get_str d "dataset_id" "";
  produced_at_ms ← get_int d "produced_at_ms" 0;
  tenant_id ← get_str d "tenant_id" "";
  Ok (SnapshotManifest table epoch table_format splits keys generation_id generation_fence
        plan_sha256 published_at_ms request_id dataset_id produced_at_ms tenant_id).

(** ** Materialization work queue *)

Record materialize_task := MaterializeTask {
  mt_table : string;
  mt_epoch : Z;
  mt_split_index : Z;
  mt_source_table : string;
  mt_output_key : string;
  mt_schema : list column;
  mt_range : option key_range;
  mt_task_id : string;
  mt_request_id : string;
  mt_claim_token : string;
  mt_attempt : Z;
  mt_claim_expires_at_ms : Z;
  mt_connection_id : string;
  mt_connection_fingerprint : string;
  mt_generation_id : string;
  mt_generation_fence : Z;
  mt_plan_sha256 : string;
  mt_table_format : string;
  mt_deadline_ms : Z;
  mt_num_splits : Z;
  mt_key_column : string;
  mt_split_strategy : string;
  mt_membership_version : Z;
  mt_worker_fence : Z;
  mt_tenant_id : string;
}.

Definition materialize_task_to_dict (t : materialize_task) : dict :=
  int_field "worker_fence" (mt_worker_fence t) $
  int_field "membership_version" (mt_membership_version t) $
  int_field "num_splits" (mt_num_splits t) $
  int_field "deadline_ms" (mt_deadline_ms t) $
  int_field "generation_fence" (mt_generation_fence t) $
  int_field "claim_expires_at_ms" (mt_claim_expires_at_ms t) $
  int_field "attempt" (mt_attempt t) $
  str_field "tenant_id" (mt_tenant_id t) $
  str_field "split_strategy" (mt_split_strategy t) $
  str_field "key_column" (mt_key_column t) $
  str_field "table_format" (mt_table_format t) $
  str_field "plan_sha256" (mt_plan_sha256 t) $
  str_field "generation_id" (mt_generation_id t) $
  str_field "connection_fingerprint" (mt_connection_fingerprint t) $
  str_field "connection_id" (mt_connection_id t) $
  str_field "claim_token" (mt_claim_token t) $
  str_field "request_id" (mt_request_id t) $
  str_field "task_id" (mt_task_id t) $
  opt_dict "range" (key_range_to_dict <$> mt_range t) $
  mk_dict [("table", JStr (mt_table t)); ("epoch", JInt (mt_epoch t));
           ("split_index", JInt (mt_split_index t)); ("source_table", JStr (mt_source_table t));
           ("output_key", JStr (mt_output_key t));
           ("schema", JList (map (fun c => JObj (column_to_dict c)) (mt_schema t)))].

Definition materialize_task_from_dict (d : dict) : res materialize_task :=
  range ← opt_range d;
  table ← req_str d "table";
  epoch ← req_int d "epoch";
  split_index ← req_int d "split_index";
  source_table ← req_str d "source_table";
  output_key ← req_str d "output_key";
  schema ← get_list d "schema";
  schema ← of_objs column_from_dict schema;
  task_id ← get_str d "task_id" "";
  request_id ← get_str d "request_id" "";
  claim_token ← get_str d "claim_token" "";
  attempt ← get_int d "attempt" 0;
  claim_expires_at_ms ← get_int d "claim_expires_at_ms" 0;
  connection_id ← get_str d "connection_id" "default";
  connection_fingerprint ← get_str d "connection_fingerprint" "";
  generation_id ← get_str d "generation_id" "";
  generation_fence ← get_int d "generation_fence" 0;
  plan_sha256 ← get_str d "plan_sha256" "";
  table_format ← get_str d "table_format" "";
  deadline_ms ← get_int d "deadline_ms" 0;
  num_splits ← get_int d "num_splits" 1;
  key_column ← get_str d "key_column" "";
  split_strategy ← get_str d "split_strategy" "";
  membership_version ← get_int d "membership_version" 0;
  worker_fence ← get_int d "worker_fence" 0;
  tenant_id ← get_str d "tenant_id" "";
  Ok (MaterializeTask table epoch split_index source_table output_key schema range task_id
        request_id claim_token attempt claim_expires_at_ms connection_id connection_fingerprint
        generation_id generation_fence plan_sha256 table_format deadline_ms num_splits key_column
        split_strategy membership_version worker_fence tenant_id).

Record task_result := TaskResult {
  rs_agent_id : string;
  rs_table : string;
  rs_epoch : Z;
  rs_split_index : Z;
  rs_ok : bool;
  rs_size_bytes : Z;
  rs_record_count : Z;
  rs_content_hash : string;
  rs_error : string;
  rs_task_id : string;
  rs_request_id : string;
  rs_claim_token : string;
  rs_attempt : Z;
  rs_generation_id : string;
  rs_generation_fence : Z;
  rs_plan_sha256 : string;
  rs_retryable : bool;
  rs_completed_at_ms : Z;
  rs_error_code : string;
  rs_membership_version : Z;
  rs_worker_fence : Z;
  rs_s3_etag : string;
}.

Definition task_result_to_dict (r : task_result) : dict :=
  mk_dict [("agent_id", JStr (rs_agent_id r)); ("table", JStr (rs_table r));
    ("epoch", JInt (rs_epoch r)); ("split_index", JInt (rs_split_index r));
    ("ok", JBool (rs_ok r)); ("size_bytes", JInt (rs_size_bytes r));
    ("record_count", JInt (rs_record_count r)); ("content_hash", JStr (rs_content_hash r));
    ("error", JStr (rs_error r)); ("task_id", JStr (rs_task_id r));
    ("request_id", JStr (rs_request_id r)); ("claim_token", JStr (rs_claim_token r));
    ("attempt", JInt (rs_attempt r)); ("generation_id", JStr (rs_generation_id r));
    ("generation_fence", JInt (rs_generation_fence r));
    ("plan_sha256", JStr (rs_plan_sha256 r)); ("retryable", JBool (rs_retryable r));
    ("completed_at_ms", JInt (rs_completed_at_ms r)); ("error_code", JStr (rs_error_code r));
    ("membership_version", JInt (rs_membership_version r));
    ("worker_fence", JInt (rs_worker_fence r)); ("s3_etag", JStr (rs_s3_etag r))].

Definition task_result_from_dict (d : dict) : res task_result :=
  agent_id ← req_str d "agent_id";
  table ← req_str d "table";
  epoch ← req_int d "epoch";
  split_index ← req_int d "split_index";
  ok ← dget_req d "ok";
  size_bytes ← get_int d "size_bytes" 0;
  record_count ← get_int d "record_count" 0;
  content_hash ← get_str d "content_hash" "";
  s3_etag ← get_str d "s3_etag" "";
  error ← get_str d "error" "";
  task_id ← get_str d "task_id" "";
  request_id ← get_str d "request_id" "";
  claim_token ← get_str d "claim_token" "";
  attempt ← get_int d "attempt" 0;
  generation_id ← get_str d "generation_id" "";
  generation_fence ← get_int d "generation_fence" 0;
  plan_sha256 ← get_str d "plan_sha256" "";
  completed_at_ms ← get_int d "completed_at_ms" 0;
  error_code ← get_str d "error_code" "";
  membership_version ← get_int d "membership_version" 0;
  worker_fence ← get_int d "worker_fence" 0;
  Ok (TaskResult agent_id table epoch split_index (truthy ok) size_bytes record_count
        content_hash error task_id request_id claim_token attempt generation_id
        generation_fence plan_sha256 (get_bool d "retryable" false) completed_at_ms error_code
        membership_version worker_fence s3_etag).

(** ** Registration *)

Record register_request := RegisterRequest {
  rr_agent_id : string;
  rr_host : string;
  rr_port : Z;
  rr_os : string;
  rr_version : string;
  rr_capacity_hint : Z;
  rr_advertise_host : string;
  rr_contract_version : string;
  rr_capabilities : list string;
  rr_pool_id : string;
  rr_location : string;
  rr_shard_index : Z;
}.

Definition register_request_to_dict (r : register_request) : dict :=
  mk_dict [("agent_id", JStr (rr_agent_id r)); ("host", JStr (rr_host r));
    ("port", JInt (rr_port r)); ("os", JStr (rr_os r)); ("version", JStr (rr_version r));
    ("capacity_hint", JInt (rr_capacity_hint r));
    ("advertise_host", JStr (rr_advertise_host r));
    ("contract_version", JStr (rr_contract_version r));
    ("capabilities", JList (map JStr (rr_capabilities r)));
    ("pool_id", JStr (rr_pool_id r)); ("location", JStr (rr_location r));
    ("shard_index", JInt (rr_shard_index r))].

Definition register_request_from_dict (d : dict) : res register_request :=
  agent_id ← req_str d "agent_id";
  host ← req_str d "host";
  port ← req_int d "port";
  os ← req_str d "os";
  version ← req_str d "version";
  capacity_hint ← get_int d "capacity_hint" 0;
  advertise_host ← get_str d "advertise_host" "";
  contract_version ← get_str d "contract_version" MIN_COMPATIBLE_CONTRACT_VERSION;
  capabilities ← get_list d "capabilities";
  capabilities ← res_map py_str capabilities;
  pool_id ← get_str d "pool_id" "";
  location ← get_str d "location" "";
  shard_index ← get_int d "shard_index" (-1);
  Ok (RegisterRequest agent_id host port os version capacity_hint advertise_host
        contract_version (sorted_set (filter nonempty_str capabilities)) pool_id location shard_index).

Record register_response := RegisterResponse {
  rp_lease_id : string;
  rp_heartbeat_ms : Z;
  rp_contract_version : string;
}.

Definition register_response_to_dict (r : register_response) : dict :=
  mk_dict [("lease_id", JStr (rp_lease_id r)); ("heartbeat_ms", JInt (rp_heartbeat_ms r));
    ("contract_version", JStr (rp_contract_version r))].
Definition register_response_from_dict (d : dict) : res register_response :=
  lease_id ← req_str d "lease_id";
  heartbeat_ms ← req_int d "heartbeat_ms";
  contract_version ← get_str d "contract_version" MIN_COMPATIBLE_CONTRACT_VERSION;
  Ok (RegisterResponse lease_id heartbeat_ms contract_version).

(** ** Commands *)

Definition assignment_to_dict (agent_id : string) (tables : list string) : dict :=
  mk_dict [("agent_id", JStr agent_id); ("tables", JList (map JStr tables))].
Definition assignment_from_dict (d : dict) : res (string * list string) :=
  agent_id ← req_str d "agent_id";
  tables ← get_list d "tables";
  tables ← res_map as_str tables;
  Ok (agent_id, tables).

(** [Drain], [ReloadConfig], [PublishSnapshot] *)
Definition drain_to_dict (grace_ms : Z) : dict := mk_dict [("grace_ms", JInt grace_ms)].
Definition drain_from_dict (d : dict) : res Z := get_int d "grace_ms" 5000.
Definition reload_to_dict (reason : string) : dict := mk_dict [("reason", JStr reason)].
Definition reload_from_dict (d : dict) : res string := get_str d "reason" "".
Definition publish_to_dict (p : string * Z) : dict :=
  mk_dict [("table", JStr p.1); ("epoch", JInt p.2)].
Definition publish_from_dict (d : dict) : res (string * Z) :=
  table ← req_str d "table"; epoch ← req_int d "epoch"; Ok (table, epoch).

Record control_command := ControlCommand {
  cc_kind : string;
  cc_drain : option Z;
  cc_reload : option string;
  cc_materialize : option materialize_task;
  cc_publish : option (string * Z);
}.

Definition control_command_to_dict (c : control_command) : dict :=
  opt_dict "publish" (publish_to_dict <$> cc_publish c) $
  opt_dict "materialize" (materialize_task_to_dict <$> cc_materialize c) $
  opt_dict "reload" (reload_to_dict <$> cc_reload c) $
  opt_dict "drain" (drain_to_dict <$> cc_drain c) $
  mk_dict [("kind", JStr (cc_kind c))].

(** [X.from_dict(d[k]) if d.get(k) else None] *)
Definition opt_message {A} (d : dict) (k : string) (f : dict -> res A) : res (option A) :=
  let v := dget d k JNull in
  if truthy v then m ← as_obj v; x ← f m; Ok (Some x) else Ok None.

Definition control_command_from_dict (d : dict) : res control_command :=
  kind ← req_str d "kind";
  drain ← opt_message d "drain" drain_from_dict;
  reload ← opt_message d "reload" reload_from_dict;
  materialize ← opt_message d "materialize" materialize_task_from_dict;
  publish ← opt_message d "publish" publish_from_dict;
  Ok (ControlCommand kind drain reload materialize publish).

Record ack := Ack {
  ack_ok : bool;
  ack_state : string;
  ack_duplicate : bool;
  ack_terminal : bool;
  ack_reason_code : string;
}.

Definition ack_to_dict (a : ack) : dict :=
  str_field "reason_code" (ack_reason_code a) $
  opt_field "terminal" (ack_terminal a) (JBool true) $
  opt_field "duplicate" (ack_duplicate a) (JBool true) $
  str_field "state" (ack_state a) $
  mk_dict [("ok", JBool (ack_ok a))].

Definition ack_from_dict (d : dict) : res ack :=
  state ← get_str d "state" "";
  reason_code ← get_str d "reason_code" "";
  Ok (Ack (get_bool d "ok" true) state (get_bool d "duplicate" false)
        (get_bool d "terminal" false) reason_code).

(** * Theorems *)

(** ** States *)

Lemma state_str_inj s t : state_str s = state_str t -> s = t.
Proof. by destruct s, t. Qed.

Lemma state_of_str_str s : state_of_str (state_str s) = Some s.
Proof. by destruct s. Qed.

(** A possibly empty chain of transitions of the published table. *)
Definition evolves_to : relation task_state :=
  rtc (fun a b => valid_task_transition a b = true).

#[global] Instance evolves_to_preorder : PreOrder evolves_to.
Proof. unfold evolves_to. apply _. Qed.

Lemma evolves_once s t : valid_task_transition s t = true -> evolves_to s t.
Proof. intros H. by apply rtc_once. Qed.

Lemma terminal_stuck s t : terminal s = true -> evolves_to s t -> t = s.
Proof.
  intros Hs Hst. destruct Hst as [|s u t Hu _]; [done|].
  exfalso. by destruct s, u.
Qed.

(** The task state machine is closed and terminating: every state other
    than the three terminal ones has a way out and the terminal ones have none,
    and from every state a terminal state can still be reached. *)
Theorem task_transitions_wellformed s :
  (terminal s = true <-> TASK_TRANSITIONS s = []) /\
  (forall t, valid_task_transition s t = true -> s <> t /\ terminal s = false) /\
  exists t, evolves_to s t /\ terminal t = true.
Proof.
  split_and!.
  - by destruct s.
  - by intros t; destruct s, t.
  - destruct (terminal s) eqn:E; [by exists s|]. exists TASK_FAILED. split; [|done].
    apply evolves_once. by destruct s.
Qed.

(** ** Codecs *)

(** Lookup of a key in a document built field by field: through a field of
    another name, and at the field itself. *)
Lemma miss_opt_field k k' c v (d : dict) x :
  k <> k' -> d !! k' = x -> opt_field k c v d !! k' = x.
Proof. intros ? <-. by apply lookup_opt_field_ne. Qed.
Lemma hit_opt_field k c v (d : dict) x :
  d !! k = x -> opt_field k c v d !! k = if c then Some v else x.
Proof. intros <-. apply lookup_opt_field_eq. Qed.
Lemma miss_opt_dict k k' v (d : dict) x :
  k <> k' -> d !! k' = x -> opt_dict k v d !! k' = x.
Proof. intros ? <-. destruct v; [by apply lookup_insert_ne|done]. Qed.
Lemma hit_opt_dict k v (d : dict) x :
  d !! k = x -> opt_dict k v d !! k = match v with Some m => Some (JObj m) | None => x end.
Proof. intros <-. destruct v; [apply lookup_insert_eq|done]. Qed.

Lemma miss_dict k k' v l x : k <> k' -> mk_dict l !! k' = x -> mk_dict ((k, v) :: l) !! k' = x.
Proof. intros ? <-. by apply lookup_insert_ne. Qed.
Lemma hit_dict k v l : mk_dict ((k, v) :: l) !! k = Some v.
Proof. apply lookup_insert_eq. Qed.

Ltac solve_lookup :=
  unfold str_field, int_field;
  repeat lazymatch goal with
    | |- opt_field ?k _ _ _ !! ?k = _ => apply hit_opt_field
    | |- opt_field _ _ _ _ !! _ = _ => apply miss_opt_field; [discriminate|]
    | |- opt_dict ?k _ _ !! ?k = _ => apply hit_opt_dict
    | |- opt_dict _ _ _ !! _ = _ => apply miss_opt_dict; [discriminate|]
    | |- mk_dict ((?k, _) :: _) !! ?k = _ => apply hit_dict
    | |- mk_dict (_ :: _) !! _ = _ => apply miss_dict; [discriminate|]
    end; try reflexivity.

(** Evaluate every lookup in the document [d] that occurs in the goal. *)
Ltac read_fields d :=
  repeat match goal with
    | |- context [@lookup string json dict ?I ?k d] =>
        let H := fresh in
        eassert (@lookup string json dict I k d = _) as H by (unfold d; solve_lookup);
        rewrite H; clear H
    end.

(** Reading back an omitted falsy field gives the falsy value. *)
Lemma str_field_default (v : string) :
  py_str (default (JStr "") (if truthy_str v then Some (JStr v) else None)) = Ok v.
Proof. unfold truthy_str. by destruct (String.eqb_spec v "") as [->|]. Qed.
Lemma int_field_default (v : Z) :
  py_int (default (JInt 0) (if truthy_int v then Some (JInt v) else None)) = Ok v.
Proof. unfold truthy_int. by destruct (Z.eqb_spec v 0) as [->|]. Qed.

Ltac unfold_reads :=
  unfold req_int, req_str, get_str, get_int, get_bool, get_list, dget_req, dget.

Lemma res_map_map {A B} (f : B -> res A) (g : A -> B) l :
  (forall a, f (g a) = Ok a) -> res_map f (map g l) = Ok l.
Proof. intros Hf. induction l as [|a l IH]; cbn; [done|]. by rewrite Hf, IH. Qed.

Lemma of_objs_map {A} (f : dict -> res A) (g : A -> dict) l :
  (forall a, f (g a) = Ok a) -> of_objs f (map (fun a => JObj (g a)) l) = Ok l.
Proof. intros. by apply res_map_map. Qed.

Lemma as_str_map l : res_map as_str (map JStr l) = Ok l.
Proof. by apply res_map_map. Qed.

Lemma key_range_roundtrip r : key_range_from_dict (key_range_to_dict r) = Ok r.
Proof. by destruct r. Qed.

Lemma opt_range_roundtrip (r : option key_range) (d : dict) :
  d !! "range" = (JObj <$> (key_range_to_dict <$> r)) -> opt_range d = Ok r.
Proof. unfold opt_range, dget. intros ->. by destruct r as [[lo hi]|]. Qed.

Ltac decode_fields := rewrite ?str_field_default, ?int_field_default.

Lemma column_roundtrip c : column_from_dict (column_to_dict c) = Ok c.
Proof.
  destruct c as [i n t nu s tr p]. unfold column_from_dict. unfold_reads.
  set (d := column_to_dict _). unfold column_to_dict in d. read_fields d. decode_fields.
  cbn. by destruct tr.
Qed.

Lemma split_ref_roundtrip s : split_ref_from_dict (split_ref_to_dict s) = Ok s.
Proof.
  destruct s as [k n c h r]. unfold split_ref_from_dict. unfold_reads.
  set (d := split_ref_to_dict _). unfold split_ref_to_dict in d. read_fields d.
  cbn -[opt_range]. rewrite (opt_range_roundtrip r); [done|]. unfold d. by destruct r.
Qed.

(** Snapshot manifests survive the wire: decoding an encoded manifest gives
    it back unchanged, optional fields and split ranges included. *)
Theorem manifest_roundtrip m : manifest_from_dict (manifest_to_dict m) = Ok m.
Proof.
  unfold manifest_from_dict. unfold_reads. set (d := manifest_to_dict _).
  unfold manifest_to_dict in d. read_fields d. decode_fields.
  cbn -[of_objs res_map]. rewrite (of_objs_map _ _ _ split_ref_roundtrip).
  cbn -[res_map]. rewrite as_str_map. by destruct m.
Qed.

Lemma str_field_or (v w : string) :
  py_str (default (JStr w) (if truthy_str v then Some (JStr v) else None)) = Ok (str_or v w).
Proof. unfold str_or. by destruct (truthy_str v). Qed.
Lemma int_field_or (v w : Z) :
  py_int (default (JInt w) (if truthy_int v then Some (JInt v) else None)) = Ok (int_or v w).
Proof. unfold int_or. by destruct (truthy_int v). Qed.

(** What a task message decodes to: the encoder omits falsy fields, and the
    decoder's defaults for the connection id and the split count are
    ["default"] and [1]. *)
Definition wire_image (t : materialize_task) : materialize_task :=
  MaterializeTask (mt_table t) (mt_epoch t) (mt_split_index t) (mt_source_table t)
    (mt_output_key t) (mt_schema t) (mt_range t) (mt_task_id t) (mt_request_id t)
    (mt_claim_token t) (mt_attempt t) (mt_claim_expires_at_ms t)
    (str_or (mt_connection_id t) "default") (mt_connection_fingerprint t)
    (mt_generation_id t) (mt_generation_fence t) (mt_plan_sha256 t) (mt_table_format t)
    (mt_deadline_ms t) (int_or (mt_num_splits t) 1) (mt_key_column t)
    (mt_split_strategy t) (mt_membership_version t) (mt_worker_fence t) (mt_tenant_id t).

Lemma materialize_task_decoded t :
  materialize_task_from_dict (materialize_task_to_dict t) = Ok (wire_image t).
Proof.
  unfold materialize_task_from_dict. unfold_reads.
  set (d := materialize_task_to_dict _). unfold materialize_task_to_dict in d.
  read_fields d. decode_fields. rewrite str_field_or, int_field_or.
  rewrite (opt_range_roundtrip (mt_range t)).
  2:{ etrans; [unfold d; solve_lookup|]. by destruct (mt_range t). }
  cbn -[of_objs]. rewrite (of_objs_map _ _ _ column_roundtrip). done.
Qed.

Lemma wire_image_id t :
  wire_image t = t <-> mt_connection_id t <> "" /\ mt_num_splits t <> 0.
Proof.
  destruct t. unfold wire_image, str_or, int_or, truthy_str, truthy_int. cbn. split.
  - intros [= H1 H2].
    destruct (String.eqb_spec mt_connection_id0 ""), (Z.eqb_spec mt_num_splits0 0);
      cbn in *; by simplify_eq.
  - intros [H1 H2].
    by rewrite (proj2 (String.eqb_neq _ _) H1), (proj2 (Z.eqb_neq _ _) H2).
Qed.

(** A materialization task survives the wire unchanged exactly when its
    connection id is not empty and its split count is not zero. *)
Theorem materialize_task_roundtrip t :
  materialize_task_from_dict (materialize_task_to_dict t) = Ok t <->
  mt_connection_id t <> "" /\ mt_num_splits t <> 0.
Proof.
  rewrite materialize_task_decoded, <- wire_image_id. split; [congruence|by intros ->].
Qed.

Lemma task_result_roundtrip r : task_result_from_dict (task_result_to_dict r) = Ok r.
Proof.
  unfold task_result_from_dict. unfold_reads. set (d := task_result_to_dict _).
  unfold task_result_to_dict in d. read_fields d. by destruct r.
Qed.

Lemma ack_roundtrip a : ack_from_dict (ack_to_dict a) = Ok a.
Proof.
  unfold ack_from_dict. unfold_reads. set (d := ack_to_dict _).
  unfold ack_to_dict in d. read_fields d. decode_fields. cbn. by destruct a as [o s [] [] r].
Qed.

(** A nested message is present in the encoding exactly when it is set, as an
    encoded message is never the empty (falsy) object. *)
Lemma opt_message_roundtrip {A} (d : dict) k (from : dict -> res A) (to : A -> dict) x (img : A -> A) :
  d !! k = (JObj <$> (to <$> x)) -> (forall a, to a <> ∅) ->
  (forall a, from (to a) = Ok (img a)) ->
  opt_message d k from = Ok (img <$> x).
Proof.
  intros Hd Hne Hrt. unfold opt_message, dget. rewrite Hd. destruct x as [a|]; cbn; [|done].
  rewrite bool_decide_eq_false_2 by apply Hne. cbn. by rewrite Hrt.
Qed.

Lemma nonempty_at (d : dict) k v : d !! k = Some v -> d <> ∅.
Proof. intros H ->. by rewrite lookup_empty in H. Qed.

Lemma opt_dict_fmap {A} (to : A -> dict) (x : option A) :
  match to <$> x with Some m => Some (JObj m) | None => None end = JObj <$> (to <$> x).
Proof. by destruct x. Qed.

Ltac decode_nested d k to x img key :=
  rewrite (opt_message_roundtrip d k _ to x img);
  [ cbn -[opt_message]
  | etrans; [unfold d; solve_lookup|apply opt_dict_fmap]
  | intros ?; eapply (nonempty_at _ key); unfold to; solve_lookup
  | ].

(** Every command the Manager sends decodes to the command it encoded, the
    materialization payload to its wire image. *)
Theorem control_command_roundtrip c :
  control_command_from_dict (control_command_to_dict c) =
  Ok (ControlCommand (cc_kind c) (cc_drain c) (cc_reload c)
        (wire_image <$> cc_materialize c) (cc_publish c)).
Proof.
  unfold control_command_from_dict. unfold_reads.
  set (d := control_command_to_dict _). unfold control_command_to_dict in d. read_fields d.
  cbn -[opt_message].
  decode_nested d "drain" drain_to_dict (cc_drain c) (@id Z) "grace_ms"; [|done].
  decode_nested d "reload" reload_to_dict (cc_reload c) (@id string) "reason"; [|done].
  decode_nested d "materialize" materialize_task_to_dict (cc_materialize c) wire_image "table";
    [|apply materialize_task_decoded].
  decode_nested d "publish" publish_to_dict (cc_publish c) (@id (string * Z)%type) "table";
    [|by intros []].
  by rewrite !option_fmap_id.
Qed.

(** Registration accepts exactly the contract versions of the current
    major release between the oldest compatible and the current minor one. *)
Theorem contract_compatible_iff v :
  contract_compatible v = true <-> exists minor, version_tuple v = Ok (1, minor) /\ 0 <= minor <= 1.
Proof.
  unfold contract_compatible. change (version_tuple CONTRACT_VERSION) with (@Ok (Z * Z) (1, 1)).
  change (version_tuple MIN_COMPATIBLE_CONTRACT_VERSION) with (@Ok (Z * Z) (1, 0)).
  destruct (version_tuple v) as [[a b]|e]; unfold tuple_le; cbn [fst snd]; [|naive_solver].
  split.
  - intros H. exists b. assert (a = 1) as -> by lia. split; [done|lia].
  - intros (m & [= -> ->] & Hm). lia.
Qed.
