(* ===== verification/ReadPlan.v ===== *)
(** * Source read plans

    [db/read_points.py]: split boundaries with their tagged encoding, the
    descriptor of a table's read point, and the immutable read plan of one
    generation, with the validation their constructors perform. *)

From S2P Require Import Prelude PyText Json Contract.

(** A split boundary.  Floats, decimals and timestamps are outside the model:
    decoding one is [Unmodelled]. *)
Inductive boundary :=
| BNone | BBool (b : bool) | BInt (z : Z) | BStr (s : string).

#[global] Instance boundary_eq_dec : EqDecision boundary.
Proof. solve_decision. Defined.

Definition tagged (kind : string) (v : json) : dict :=
  mk_dict [("type", JStr kind); ("value", v)].

Definition encode_boundary (b : boundary) : dict :=
  match b with
  | BNone => tagged "none" JNull
  | BBool b => tagged "bool" (JBool b)
  | BInt z => tagged "int" (JInt z)
  | BStr s => tagged "string" (JStr s)
  end.

Definition decode_boundary (encoded : json) : res boundary :=
  match encoded with
  | JObj d =>
      let t := dget d "type" JNull in
      kind ← (if truthy t then py_str t else Ok "");
      let value := dget d "value" JNull in
      if String.eqb kind "none" then
        match value with
        | JNull => Ok BNone
        | _ => Err (ValueError "none boundary must have a null value")
        end
      else if String.eqb kind "bool" then
        match value with
        | JBool b => Ok (BBool b)
        | _ => Err (TypeError "bool boundary must contain a boolean")
        end
      else if String.eqb kind "int" then
        match value with
        | JInt z => Ok (BInt z)
        | _ => Err (TypeError "int boundary must contain an integer")
        end
      else if bool_decide (kind ∈ ["float"; "decimal"; "datetime"; "date"]) then
        Err (Unmodelled "boundary kind")
      else if String.eqb kind "string" then
        match value with
        | JStr s => Ok (BStr s)
        | _ => Err (TypeError "string boundary must contain a string")
        end
      else Err (ValueError "unsupported split boundary tag")
  | _ => Err (TypeError "encoded split boundary must be an object")
  end.

(** ** ReadPointDescriptor *)

Record descriptor := Descriptor {
  rd_version : Z;
  rd_provider : string;
  rd_connection_id : string;
  rd_table_id : string;
  rd_owner_shard : Z;
  rd_generation_id : string;
  rd_generation_fence : Z;
  rd_acquired_at_ms : Z;
  rd_expires_at_ms : option Z;
  rd_token : option string;
  rd_reopenable : bool;
}.

#[global] Instance descriptor_eq_dec : EqDecision descriptor.
Proof. solve_decision. Defined.

Definition blank (s : string) : bool := String.eqb (strip s) "".

(** [__post_init__]: the first violated condition, in order. *)
Definition descriptor_post_init (d : descriptor) : res descriptor :=
  if negb (rd_version d =? 1) then Err (ValueError "unsupported read-point descriptor version")
  else if blank (rd_provider d) then Err (ValueError "provider is required")
  else if blank (rd_connection_id d) then Err (ValueError "connection_id is required")
  else if blank (rd_table_id d) then Err (ValueError "table_id is required")
  else if blank (rd_generation_id d) then Err (ValueError "generation_id is required")
  else if rd_owner_shard d <? 0 then Err (ValueError "owner_shard must be >= 0")
  else if rd_generation_fence d <? 0 then Err (ValueError "generation_fence must be >= 0")
  else if rd_acquired_at_ms d <? 0 then Err (ValueError "acquired_at_ms must be >= 0")
  else match rd_expires_at_ms d with
       | Some e => if e <=? rd_acquired_at_ms d
                   then Err (ValueError "expiry must be after acquisition") else Ok d
       | None => Ok d
       end.

Definition opt_json {A} (f : A -> json) (o : option A) : json :=
  match o with Some a => f a | None => JNull end.

(** [to_dict]: metadata safe for logs *)
Definition descriptor_to_dict (d : descriptor) : dict :=
  mk_dict [("version", JInt (rd_version d)); ("provider", JStr (rd_provider d));
    ("connection_id", JStr (rd_connection_id d)); ("table_id", JStr (rd_table_id d));
    ("owner_shard", JInt (rd_owner_shard d)); ("generation_id", JStr (rd_generation_id d));
    ("generation_fence", JInt (rd_generation_fence d));
    ("acquired_at_ms", JInt (rd_acquired_at_ms d));
    ("expires_at_ms", opt_json JInt (rd_expires_at_ms d));
    ("token_present", JBool (bool_decide (rd_token d <> None)));
    ("reopenable", JBool (rd_reopenable d))].

Definition descriptor_to_state_dict (d : descriptor) : dict :=
  <["token" := opt_json JStr (rd_token d)]> (delete "token_present" (descriptor_to_dict d)).

(** [f(raw[k]) if raw.get(k) is not None else None] *)
Definition get_opt {A} (f : json -> res A) (d : dict) (k : string) : res (option A) :=
  match d !! k with
  | None | Some JNull => Ok None
  | Some v => a ← f v; Ok (Some a)
  end.

Definition descriptor_from_dict (raw : json) : res descriptor :=
  match raw with
  | JObj d =>
      version ← req_int d "version";
      provider ← req_str d "provider";
      connection_id ← req_str d "connection_id";
      table_id ← req_str d "table_id";
      owner_shard ← req_int d "owner_shard";
      generation_id ← req_str d "generation_id";
      generation_fence ← req_int d "generation_fence";
      acquired_at_ms ← req_int d "acquired_at_ms";
      expires_at_ms ← get_opt py_int d "expires_at_ms";
      token ← get_opt py_str d "token";
      descriptor_post_init
        (Descriptor version provider connection_id table_id owner_shard generation_id
           generation_fence acquired_at_ms expires_at_ms token (get_bool d "reopenable" false))
  | _ => Err (TypeError "read-point descriptor must be an object")
  end.

(** ** TableReadPlan *)

Record table_read_plan := TableReadPlan {
  tp_version : Z;
  tp_table_id : string;
  tp_descriptor : descriptor;
  tp_split_count : Z;
  tp_split_strategy : string;
  tp_split_key : string;
  tp_split_key_type : option string;
  tp_ranges : list (boundary * boundary);
}.

#[global] Instance table_read_plan_eq_dec : EqDecision table_read_plan.
Proof. solve_decision. Defined.

Definition plan_post_init (p : table_read_plan) : res table_read_plan :=
  if negb (tp_version p =? 1) then Err (ValueError "unsupported table read-plan version")
  else if blank (tp_table_id p) then Err (ValueError "table_id is required")
  else if negb (String.eqb (rd_table_id (tp_descriptor p)) (tp_table_id p))
  then Err (ValueError "table read-plan and descriptor table IDs differ")
  else if tp_split_count p <? 1 then Err (ValueError "split_count must be >= 1")
  else if negb (bool_decide (tp_ranges p = []))
          && negb (Z.of_nat (length (tp_ranges p)) =? tp_split_count p)
  then Err (ValueError "ranges must match split_count")
  else Ok p.

Definition range_to_dict (r : boundary * boundary) : dict :=
  mk_dict [("lo", JObj (encode_boundary r.1)); ("hi", JObj (encode_boundary r.2))].

Definition range_from_dict (item : json) : res (boundary * boundary) :=
  d ← as_obj item;
  lo ← dget_req d "lo"; lo ← decode_boundary lo;
  hi ← dget_req d "hi"; hi ← decode_boundary hi;
  Ok (lo, hi).

Definition plan_fields (desc : dict) (p : table_read_plan) : dict :=
  mk_dict [("version", JInt (tp_version p)); ("table_id", JStr (tp_table_id p));
    ("descriptor", JObj desc); ("split_count", JInt (tp_split_count p));
    ("split_strategy", JStr (tp_split_strategy p)); ("split_key", JStr (tp_split_key p));
    ("split_key_type", opt_json JStr (tp_split_key_type p));
    ("ranges", JList (map (fun r => JObj (range_to_dict r)) (tp_ranges p)))].

Definition plan_to_dict (p : table_read_plan) : dict :=
  plan_fields (descriptor_to_dict (tp_descriptor p)) p.
Definition plan_to_state_dict (p : table_read_plan) : dict :=
  <["descriptor" := JObj (descriptor_to_state_dict (tp_descriptor p))]> (plan_to_dict p).

Definition plan_from_dict (raw : json) : res table_read_plan :=
  match raw with
  | JObj d =>
      items ← get_list d "ranges";
      ranges ← res_map range_from_dict items;
      version ← req_int d "version";
      table_id ← req_str d "table_id";
      desc ← dget_req d "descriptor";
      desc ← descriptor_from_dict desc;
      split_count ← req_int d "split_count";
      split_strategy ← req_str d "split_strategy";
      split_key ← req_str d "split_key";
      split_key_type ← get_opt py_str d "split_key_type";
      plan_post_init (TableReadPlan version table_id desc split_count split_strategy split_key
                        split_key_type ranges)
  | _ => Err (TypeError "table read-plan must be an object")
  end.

(** * Theorems *)

(** The plans and descriptors the constructors let through. *)
Definition valid_descriptor (d : descriptor) : Prop := descriptor_post_init d = Ok d.
Definition valid_plan (p : table_read_plan) : Prop :=
  plan_post_init p = Ok p /\ valid_descriptor (tp_descriptor p).

Lemma boundary_roundtrip b : decode_boundary (JObj (encode_boundary b)) = Ok b.
Proof. by destruct b. Qed.

Lemma range_roundtrip r : range_from_dict (JObj (range_to_dict r)) = Ok r.
Proof.
  unfold range_from_dict.
  change (decode_boundary (JObj (encode_boundary r.1)) ≫= (fun lo =>
    decode_boundary (JObj (encode_boundary r.2)) ≫= (fun hi => Ok (lo, hi))) = Ok r).
  rewrite !boundary_roundtrip. by destruct r.
Qed.

Lemma descriptor_post_init_id d x : descriptor_post_init d = Ok x -> x = d.
Proof. unfold descriptor_post_init. intros H. repeat case_match; by simplify_eq. Qed.

Lemma plan_post_init_id p x : plan_post_init p = Ok x -> x = p.
Proof. unfold plan_post_init. intros H. repeat case_match; by simplify_eq. Qed.

Lemma descriptor_roundtrip d :
  descriptor_from_dict (JObj (descriptor_to_state_dict d)) = descriptor_post_init d.
Proof. destruct d as [v p c t o g f a [e|] [k|] r]; reflexivity. Qed.

Lemma plan_roundtrip p :
  valid_descriptor (tp_descriptor p) ->
  plan_from_dict (JObj (plan_to_state_dict p)) = plan_post_init p.
Proof.
  intros Hd. unfold plan_from_dict.
  change (get_list (plan_to_state_dict p) "ranges") with
    (@Ok (list json) (map (fun r => JObj (range_to_dict r)) (tp_ranges p))).
  cbn [mbind res_bind]. rewrite (res_map_map _ _ _ range_roundtrip).
  change (dget_req (plan_to_state_dict p) "descriptor") with
    (@Ok json (JObj (descriptor_to_state_dict (tp_descriptor p)))).
  cbn -[plan_post_init descriptor_from_dict descriptor_to_state_dict plan_to_state_dict].
  rewrite descriptor_roundtrip, Hd.
  cbn -[plan_post_init plan_to_state_dict]. by destruct p as [? ? ? ? ? ? [k|] ?].
Qed.

Lemma plan_from_dict_valid raw p : plan_from_dict raw = Ok p -> valid_plan p.
Proof.
  unfold plan_from_dict. destruct raw as [| | | | |d]; try done. intros H. invert_Ok H.
  pose proof (plan_post_init_id _ _ H) as ->. split; [done|]. cbn [tp_descriptor].
  match goal with E : descriptor_from_dict ?v = Ok _ |- _ =>
    unfold descriptor_from_dict in E; destruct v; try done; invert_Ok E; rename E into Hdesc end.
  by pose proof (descriptor_post_init_id _ _ Hdesc) as ->.
Qed.

(** Read plans: a plan survives its durable encoding exactly when it
    satisfies the constructor's checks, decoding never produces a plan that
    violates them, and the log-safe encoding carries no provider token. *)
Theorem read_plan_roundtrip p :
  valid_descriptor (tp_descriptor p) ->
  (plan_from_dict (JObj (plan_to_state_dict p)) = Ok p <-> valid_plan p) /\
  (forall raw q, plan_from_dict raw = Ok q -> valid_plan q) /\
  exists d, plan_to_dict p !! "descriptor" = Some (JObj d) /\ d !! "token" = None.
Proof.
  intros Hd. split_and!.
  - rewrite plan_roundtrip by done. unfold valid_plan. naive_solver.
  - apply plan_from_dict_valid.
  - by exists (descriptor_to_dict (tp_descriptor p)).
Qed.

Definition demo_plan : table_read_plan :=
  TableReadPlan 1 "t" (Descriptor 1 "oracle_scn" "default" "t" 0 "g" 3 10 (Some 20) (Some "scn") true)
    2 "range" "id" (Some "int") [(BInt 0, BInt 5); (BInt 5, BNone)].

Lemma read_plan_roundtrip_witness :
  plan_from_dict (JObj (plan_to_state_dict demo_plan)) = Ok demo_plan.
Proof.
  destruct (read_plan_roundtrip demo_plan) as [H _]; [reflexivity|].
  apply H. split; reflexivity.
Defined.
