(* ===== verification/Generation.v ===== *)
(** * Generation coordination

    [runtime/generation.py]: the coordinator record that names the current
    build generation, taken with a new fence by compare-and-swap, the publication
    of its table plan, its renewal, and the checks that stop a fenced worker. *)

From S2P Require Import Prelude PyText Sha256 Json ArtifactStore World Contract ReadPlan.
Import MemoryStore.

Definition COORDINATOR_KEY : string := ".fsp/generation-coordinator.json".
Definition BUILD_KEY : string := ".fsp/generation-build.json".
Definition GENERATION_VERSION : Z := 2.
Definition PLAN_PREPARING : string := "PREPARING".
Definition PLAN_READY : string := "READY".
Definition PLAN_FAILED : string := "FAILED".
Definition PLAN_ACTIVE : string := "ACTIVE".

Record generation_context := GenerationContext {
  gc_generation_id : string;
  gc_fence : Z;
  gc_lease_token : string;
  gc_shard_count : Z;
  gc_expires_at_ms : Z;
  gc_source_consistency : string;
  gc_version : Z;
  gc_plan_state : string;
  gc_table_plans : list table_read_plan;
  gc_plan_sha256 : string;
}.

#[global] Instance generation_context_eq_dec : EqDecision generation_context.
Proof. solve_decision. Defined.

(** [dataclasses.replace] on the fields the code replaces. *)
Definition with_expiry (e : Z) (c : generation_context) : generation_context :=
  GenerationContext (gc_generation_id c) (gc_fence c) (gc_lease_token c) (gc_shard_count c) e
    (gc_source_consistency c) (gc_version c) (gc_plan_state c) (gc_table_plans c)
    (gc_plan_sha256 c).
Definition with_plan (state : string) (plans : list table_read_plan) (digest : string)
  (c : generation_context) : generation_context :=
  GenerationContext (gc_generation_id c) (gc_fence c) (gc_lease_token c) (gc_shard_count c)
    (gc_expires_at_ms c) (gc_source_consistency c) (gc_version c) state plans digest.

(** ** Records *)

Definition encode (d : dict) : blob := BJson (JObj d).

Definition plan_le (a b : table_read_plan) : Prop := str_le (tp_table_id a) (tp_table_id b).
#[global] Instance plan_le_dec a b : Decision (plan_le a b).
Proof. unfold plan_le. apply _. Defined.

(** [sorted(plans, key=lambda item: item.table_id)] *)
Definition sort_plans (plans : list table_read_plan) : list table_read_plan :=
  merge_sort plan_le plans.

Definition plan_payload (plans : list table_read_plan) : list json :=
  map (fun p => JObj (plan_to_state_dict p)) (sort_plans plans).

Definition plan_digest (plans : list table_read_plan) : string :=
  sha256_hex (dumps (JObj (mk_dict [("table_plans", JList (plan_payload plans))]))).

Definition plan_entries (c : generation_context) : list (string * json) :=
  [("plan_state", JStr (gc_plan_state c)); ("plan_sha256", JStr (gc_plan_sha256 c));
   ("table_plans", JList (plan_payload (gc_table_plans c)))].

(** [_record] *)
Definition gen_record (c : generation_context) : dict :=
  mk_dict ((if 2 <=? gc_version c then plan_entries c else []) ++
    [("version", JInt (gc_version c)); ("generation_id", JStr (gc_generation_id c));
     ("fence", JInt (gc_fence c)); ("lease_token", JStr (gc_lease_token c));
     ("shard_count", JInt (gc_shard_count c)); ("expires_at_ms", JInt (gc_expires_at_ms c));
     ("source_consistency", JStr (gc_source_consistency c))]).

(** The body of [_context]'s [try]. *)
Definition context_body (record : dict) : res generation_context :=
  version ← get_int record "version" 1;
  plans ← (if 2 <=? version then
             items ← get_list record "table_plans"; res_map plan_from_dict items
           else Ok []);
  generation_id ← req_str record "generation_id";
  fence ← req_int record "fence";
  lease_token ← req_str record "lease_token";
  shard_count ← req_int record "shard_count";
  expires_at_ms ← req_int record "expires_at_ms";
  source_consistency ← get_str record "source_consistency" "best_effort";
  plan_state ← (if 2 <=? version then get_str record "plan_state" PLAN_READY else Ok PLAN_READY);
  plan_sha256 ← (if 2 <=? version then
                   let v := dget record "plan_sha256" JNull in
                   if truthy v then py_str v else Ok (plan_digest plans)
                 else Ok "");
  let context := GenerationContext generation_id fence lease_token shard_count expires_at_ms
                   source_consistency version plan_state plans plan_sha256 in
  if (2 <=? version) && negb (String.eqb plan_sha256 (plan_digest plans))
  then Err (GenerationError "generation table-plan digest mismatch")
  else Ok context.

(** [_context] *)
Definition context_of (record : dict) : res generation_context :=
  match context_body record with
  | Err (KeyError m) | Err (TypeError m) | Err (ValueError m) =>
      Err (GenerationError ("invalid generation context: " +:+ m))
  | r => r
  end.

(** [_same_generation] *)
Definition same_generation (a b : generation_context) : bool :=
  String.eqb (gc_generation_id a) (gc_generation_id b)
  && (gc_fence a =? gc_fence b)
  && String.eqb (gc_lease_token a) (gc_lease_token b)
  && (gc_shard_count a =? gc_shard_count b)
  && (gc_version a =? gc_version b)
  && String.eqb (gc_plan_state a) (gc_plan_state b)
  && String.eqb (gc_plan_sha256 a) (gc_plan_sha256 b).

(** [str.replace(value, "[REDACTED]")] for a non-empty [value]. *)
Fixpoint redact_loop (fuel : nat) (value : string) (s : string) : string :=
  match fuel with
  | O => s
  | S fuel =>
      match s with
      | EmptyString => ""
      | String c rest =>
          if startswith s value
          then "[REDACTED]" +:+ redact_loop fuel value (str_drop (String.length value) s)
          else String c (redact_loop fuel value rest)
      end
  end.

(** [str.replace("", "[REDACTED]")] puts the text around every character. *)
Fixpoint interleave (sep s : string) : string :=
  match s with
  | EmptyString => sep
  | String c rest => sep +:+ String c (interleave sep rest)
  end.

Definition redact (value s : string) : string :=
  if String.eqb value "" then interleave "[REDACTED]" s
  else redact_loop (String.length s) value s.

Section generation.
Context `{Env}.

(** [_read_raw_json] *)
Definition read_raw_json (key : string) : M world (option blob * option dict) :=
  raw ← catch (b ← st (get key 0 None); mret (Some b))
    (fun e => match e with ObjectNotFound _ => mret None | e => raise e end);
  match raw with
  | None => mret (None, None)
  | Some b =>
      match loads b with
      | None => raise (GenerationError "invalid generation record")
      | Some (JObj d) => mret (Some b, Some d)
      | Some _ => raise (GenerationError "invalid generation record: expected object")
      end
  end.

Definition read_json (key : string) : M world (option dict) :=
  r ← read_raw_json key; mret r.2.

Definition current_generation_record : M world (option blob * option generation_context) :=
  r ← read_raw_json COORDINATOR_KEY;
  match r.2 with
  | Some d => c ← lift (context_of d); mret (r.1, Some c)
  | None => mret (r.1, None)
  end.

Definition current_generation : M world (option generation_context) :=
  r ← current_generation_record; mret r.2.

(** [acquire_generation] from the record [prev] it has read *)
Definition acquire_from (prev : option blob * option dict) (shard_count lease_seconds : Z) (source_consistency : string)
  (prepare_plan : bool) : M world generation_context :=
  let previous := default ∅ prev.2 in
  fence ← lift (get_int previous "fence" 0);
  let fence := fence + 1 in
  now ← now_ms;
  id_token ← fresh_token;
  lease_token ← fresh_token;
  let context := GenerationContext (pad20 fence +:+ "-" +:+ id_token) fence lease_token
    shard_count (now + lease_seconds * 1000) source_consistency GENERATION_VERSION
    (if prepare_plan then PLAN_PREPARING else PLAN_READY) [] (plan_digest []) in
  let record := gen_record context in
  swapped ← st (compare_and_swap COORDINATOR_KEY prev.1 (encode record));
  if negb (swapped : bool) then
    raise (GenerationError "coordinator lease was lost while being acquired")
  else
    confirmed ← read_json COORDINATOR_KEY;
    if negb (bool_decide (confirmed = Some record)) then
      raise (GenerationError "coordinator lease was lost while being acquired")
    else
      st (put BUILD_KEY (encode (<["state" := JStr (gc_plan_state context)]> record)));;
      mret context.

Definition acquire_generation (shard_count lease_seconds : Z) (source_consistency : string)
  (prepare_plan : bool) : M world generation_context :=
  prev ← read_raw_json COORDINATOR_KEY;
  acquire_from prev shard_count lease_seconds source_consistency prepare_plan.

(** [a or b] on the record tests: the second is evaluated only if needed. *)
Definition assert_generation_lease (context : generation_context) : M world unit :=
  lease ← read_json COORDINATOR_KEY;
  let l := default ∅ lease in
  if negb (truthy (JObj l)) then raise (GenerationError "coordinator lease is missing")
  else
    stale ← lift (if bool_decide (dget l "lease_token" JNull = JStr (gc_lease_token context))
                  then f ← get_int l "fence" (-1); Ok (negb (f =? gc_fence context))
                  else Ok true);
    if (stale : bool) then
      raise (GenerationError "coordinator lease was fenced by a newer generation")
    else
      expires ← lift (get_int l "expires_at_ms" 0);
      now ← now_ms;
      if expires <=? now then raise (GenerationError "coordinator lease expired")
      else mret tt.

Definition assert_generation_identity (generation_id : string) (fence : Z)
  (lease_token plan_sha256 : string) : M world unit :=
  lease ← read_json COORDINATOR_KEY;
  let l := default ∅ lease in
  if negb (truthy (JObj l)) then raise (GenerationError "coordinator lease is missing")
  else
    stale ← lift (if bool_decide (dget l "generation_id" JNull = JStr generation_id)
                  then f ← get_int l "fence" (-1);
                       Ok (negb (f =? fence)
                           || negb (bool_decide (dget l "lease_token" JNull = JStr lease_token)))
                  else Ok true);
    if (stale : bool) then
      raise (GenerationError "worker generation was fenced by a newer coordinator")
    else
      expires ← lift (get_int l "expires_at_ms" 0);
      now ← now_ms;
      if expires <=? now then raise (GenerationError "worker generation lease expired")
      else if truthy_str plan_sha256
              && negb (bool_decide (dget l "plan_sha256" JNull = JStr plan_sha256))
      then raise (GenerationError "worker generation table plan does not match coordinator")
      else mret tt.

(** The per-plan checks of [publish_generation_plan]. *)
Fixpoint check_plans (context : generation_context) (plans : list table_read_plan)
  : res unit :=
  match plans with
  | [] => Ok tt
  | p :: plans =>
      let d := tp_descriptor p in
      if negb (String.eqb (rd_generation_id d) (gc_generation_id context))
         || negb (rd_generation_fence d =? gc_fence context)
      then Err (GenerationError "table plan belongs to a different generation")
      else if gc_shard_count context <=? rd_owner_shard d
      then Err (GenerationError "table plan owner shard is outside the generation")
      else check_plans context plans
  end.

(** [publish_generation_plan] from the record [cur] it has read *)
Definition publish_from (cur : option blob * option dict) (ready context : generation_context) : M world generation_context :=
  let record := gen_record ready in
  same ← match cur.2 with
         | None => mret false
         | Some d => c ← lift (context_of d); mret (bool_decide (c = context))
         end;
  if negb (same : bool) then
    raise (GenerationError "generation changed while plan was prepared")
  else
    swapped ← st (compare_and_swap COORDINATOR_KEY cur.1 (encode record));
    if negb (swapped : bool) then
      raise (GenerationError "generation plan changed while being published")
    else
      st (put BUILD_KEY (encode (<["state" := JStr PLAN_READY]> record)));;
      confirmed ← read_json COORDINATOR_KEY;
      confirmed ← lift (context_of (default ∅ confirmed));
      if negb (bool_decide (confirmed = ready)) then
        raise (GenerationError "generation plan changed while being published")
      else mret ready.

Definition publish_generation_plan (context : generation_context)
  (table_plans : list table_read_plan) : M world generation_context :=
  assert_generation_lease context;;
  if gc_version context <? 2 then
    raise (GenerationError "generation plans require state version 2")
  else if negb (String.eqb (gc_plan_state context) PLAN_PREPARING) then
    raise (GenerationError "generation plan cannot be published from state")
  else
    let plans := sort_plans table_plans in
    if negb (bool_decide (NoDup (map tp_table_id plans))) then
      raise (GenerationError "generation plan contains duplicate table IDs")
    else
      lift (check_plans context plans);;
      let ready := with_plan PLAN_READY plans (plan_digest plans) context in
      cur ← read_raw_json COORDINATOR_KEY;
      publish_from cur ready context.

Definition failure_record (context : generation_context) (safe_reason : string) : dict :=
  mk_dict [("version", JInt (Z.max 2 (gc_version context))); ("state", JStr PLAN_FAILED);
    ("plan_state", JStr PLAN_FAILED); ("generation_id", JStr (gc_generation_id context));
    ("fence", JInt (gc_fence context)); ("shard_count", JInt (gc_shard_count context));
    ("source_consistency", JStr (gc_source_consistency context));
    ("plan_sha256", JStr (gc_plan_sha256 context));
    ("table_ids", JList (map (fun p => JStr (tp_table_id p)) (gc_table_plans context)));
    ("error", JStr (str_take 500 safe_reason))].

Definition sensitive_values (context : generation_context) : list string :=
  gc_lease_token context ::
  omap (fun p => match rd_token (tp_descriptor p) with
                 | Some t => if truthy_str t then Some t else None
                 | None => None
                 end) (gc_table_plans context).

Definition fail_generation_plan (context : generation_context) (reason : string)
  : M world unit :=
  assert_generation_lease context;;
  let safe_reason := fold_left (fun acc v => redact v acc) (sensitive_values context) reason in
  st (put BUILD_KEY (encode (failure_record context safe_reason)));; mret tt.

(** One poll of [join_generation]: [None] means sleep and poll again. *)
Definition join_poll (shard_count : Z) : M world (option generation_context) :=
  build ← read_json BUILD_KEY;
  lease ← read_json COORDINATOR_KEY;
  let b := default ∅ build in
  let l := default ∅ lease in
  if negb (truthy (JObj b) && truthy (JObj l)) then mret None else
  let state := dget b "state" JNull in
  failed ← (if bool_decide (state = JStr PLAN_FAILED)
               && bool_decide (dget b "generation_id" JNull = dget l "generation_id" JNull)
            then lift (bf ← get_int b "fence" (-1); lf ← get_int l "fence" (-2);
                       Ok (bf =? lf))
            else mret false);
  if (failed : bool) then raise (GenerationError "generation planning failed") else
  if negb (bool_decide (state ∈ [JStr "STAGING"; JStr PLAN_READY; JStr PLAN_ACTIVE]))
  then mret None else
  match context_of l with
  | Err (GenerationError _) => mret None
  | Err e => raise e
  | Ok context =>
      build_version ← lift (get_int b "version" 1);
      let plan_matches :=
        (gc_version context =? 1)
        || ((2 <=? build_version)
            && String.eqb (gc_plan_state context) PLAN_READY
            && bool_decide (dget b "plan_sha256" JNull = JStr (gc_plan_sha256 context))) in
      build_active ←
        (if bool_decide (state = JStr PLAN_ACTIVE)
            && bool_decide (dget b "lease_token" JNull = dget l "lease_token" JNull)
         then lift (f ← get_int b "fence" (-1); Ok (f =? gc_fence context))
         else mret false);
      identity ←
        (if (gc_shard_count context =? shard_count)
            && bool_decide (dget b "generation_id" JNull = JStr (gc_generation_id context))
            && bool_decide (dget l "lease_token" JNull = JStr (gc_lease_token context))
         then lift (f ← get_int l "fence" (-1); Ok (f =? gc_fence context))
         else mret false);
      live ← (if (build_active : bool) then mret true
              else if (identity : bool)
              then now ← now_ms; mret (now <? gc_expires_at_ms context) else mret false);
      if (identity : bool) && live && plan_matches then
        mret (Some (if bool_decide (state = JStr PLAN_ACTIVE)
                    then with_plan PLAN_ACTIVE (gc_table_plans context)
                           (gc_plan_sha256 context) context
                    else context))
      else mret None
  end.

(** [join_generation]; [polls] is the number of polls the deadline allows. *)
Fixpoint join_generation (polls : nat) (shard_count : Z) : M world generation_context :=
  match polls with
  | O => raise (TimeoutError "timed out waiting for shard 0 generation coordination")
  | S polls =>
      r ← join_poll shard_count;
      match r with
      | Some c => mret c
      | None => join_generation polls shard_count
      end
  end.

(** The build record [renew_generation] writes. *)
Definition renewed_build (build : option dict) (renewed : generation_context) : res dict :=
  let b := default ∅ build in
  ours ← (if truthy (JObj b)
             && bool_decide (dget b "generation_id" JNull = JStr (gc_generation_id renewed))
          then f ← get_int b "fence" (-1); Ok (f =? gc_fence renewed)
          else Ok false);
  if (ours : bool) then
    let updated := <["expires_at_ms" := JInt (gc_expires_at_ms renewed)]>
                   (<["lease_token" := JStr (gc_lease_token renewed)]> b) in
    Ok (if (2 <=? gc_version renewed)
           && negb (bool_decide (dget updated "state" JNull = JStr "ACTIVE"))
        then list_to_map (plan_entries renewed) ∪ <["version" := JInt (gc_version renewed)]> updated
        else updated)
  else Ok (<["state" := JStr (gc_plan_state renewed)]> (gen_record renewed)).

(** [renew_generation] from the record [cur] it has read *)
Definition renew_from (cur : option blob * option dict) (renewed context : generation_context) : M world generation_context :=
  let record := gen_record renewed in
  same ← match cur.2 with
         | None => mret false
         | Some d => c ← lift (context_of d); mret (same_generation c context)
         end;
  if negb (same : bool) then
    raise (GenerationError "generation lease was lost before renewal")
  else
    swapped ← st (compare_and_swap COORDINATOR_KEY cur.1 (encode record));
    if negb (swapped : bool) then
      raise (GenerationError "generation lease was lost while renewing")
    else
      build ← read_json BUILD_KEY;
      b ← lift (renewed_build build renewed);
      st (put BUILD_KEY (encode b));;
      mret renewed.

Definition renew_generation (context : generation_context) (lease_seconds : Z)
  : M world generation_context :=
  assert_generation_lease context;;
  now ← now_ms;
  let renewed := with_expiry (now + lease_seconds * 1000) context in
  cur ← read_raw_json COORDINATOR_KEY;
  renew_from cur renewed context.
End generation.

(** * Theorems *)

(** ** Records and contexts *)

(** The contexts the coordinator code builds: version 2, valid plans in table
    order without duplicates, and the digest of those plans. *)
Definition wf_context (c : generation_context) : Prop :=
  gc_version c = 2 /\ Forall valid_plan (gc_table_plans c) /\
  NoDup (map tp_table_id (gc_table_plans c)) /\
  StronglySorted plan_le (gc_table_plans c) /\
  gc_plan_sha256 c = plan_digest (gc_table_plans c).

#[local] Instance plan_le_trans : Transitive plan_le.
Proof. intros a b c. unfold plan_le, str_le. apply transitivity. Qed.
#[local] Instance plan_le_total : Total plan_le.
Proof. intros a b. unfold plan_le, str_le. apply total. apply _. Qed.

Lemma sort_plans_sorted l : StronglySorted plan_le (sort_plans l).
Proof. apply StronglySorted_merge_sort; apply _. Qed.

Lemma sort_plans_perm l : sort_plans l ≡ₚ l.
Proof. apply merge_sort_Permutation. Qed.

Lemma table_id_inj (l : list table_read_plan) a b :
  NoDup (map tp_table_id l) -> a ∈ l -> b ∈ l -> tp_table_id a = tp_table_id b -> a = b.
Proof.
  intros Hnd Ha Hb Hab.
  apply list_elem_of_lookup in Ha as [i Ha]. apply list_elem_of_lookup in Hb as [j Hb].
  assert (i = j) as ->; [|congruence].
  eapply NoDup_lookup; [exact Hnd| |]; change (map tp_table_id l) with (tp_table_id <$> l);
    rewrite list_lookup_fmap; [by rewrite Ha|]. rewrite Hb. cbn. by rewrite Hab.
Qed.

Lemma sort_plans_id l :
  NoDup (map tp_table_id l) -> StronglySorted plan_le l -> sort_plans l = l.
Proof.
  intros Hnd Hs. eapply StronglySorted_unique_strong;
    [|apply sort_plans_sorted|exact Hs|apply sort_plans_perm].
  intros a b Ha Hb H1 H2. rewrite sort_plans_perm in Ha.
  eapply table_id_inj; [done..|]. unfold plan_le, str_le in *. by apply (anti_symm (≤)%string).
Qed.

Lemma plans_roundtrip l :
  Forall valid_plan l ->
  res_map plan_from_dict (map (fun p => JObj (plan_to_state_dict p)) l) = Ok l.
Proof.
  induction 1 as [|p l [Hp Hd] Hl IH]; [done|]. cbn [res_map map].
  rewrite plan_roundtrip by done. rewrite Hp. cbn -[plan_from_dict plan_to_state_dict].
  by rewrite IH.
Qed.

Lemma context_roundtrip c : wf_context c -> context_of (gen_record c) = Ok c.
Proof.
  intros (Hv & Hval & Hnd & Hs & Hd). unfold context_of, context_body. unfold_reads.
  unfold gen_record. rewrite Hv. cbn [Z.leb Z.compare Pos.compare Pos.compare_cont app plan_entries].
  match goal with |- context [mk_dict ?l] => set (d := mk_dict l) end.
  read_fields d. cbn -[plan_digest res_map truthy_str plan_payload].
  unfold plan_payload. rewrite sort_plans_id, plans_roundtrip by done.
  cbn -[plan_digest truthy_str]. rewrite <- Hd.
  destruct (truthy_str (gc_plan_sha256 c)); cbn; rewrite String.eqb_refl; cbn;
    by destruct c; cbn in *; subst.
Qed.

(** ** The coordinator object *)

(** The coordinator object is absent or the record of a well-formed context. *)
Definition coordinator (s : mem) (o : option generation_context) : Prop :=
  match o with
  | None => s !! COORDINATOR_KEY = None
  | Some c => s !! COORDINATOR_KEY = Some (encode (gen_record c)) /\ wf_context c
  end.
Definition wf_generation (s : mem) : Prop := exists o, coordinator s o.

(** The identity that fences are compared on. *)
Definition current_fence (o : option generation_context) : Z :=
  match o with Some c => gc_fence c | None => 0 end.

Lemma gen_record_field c k v :
  mk_dict [("version", JInt (gc_version c)); ("generation_id", JStr (gc_generation_id c));
     ("fence", JInt (gc_fence c)); ("lease_token", JStr (gc_lease_token c));
     ("shard_count", JInt (gc_shard_count c)); ("expires_at_ms", JInt (gc_expires_at_ms c));
     ("source_consistency", JStr (gc_source_consistency c))] !! k = Some v ->
  k ∉ ["plan_state"; "plan_sha256"; "table_plans"] ->
  gen_record c !! k = Some v.
Proof.
  intros Hk Hn. unfold gen_record. destruct (2 <=? gc_version c); [|done].
  cbn [app plan_entries]. repeat (apply miss_dict; [set_solver|]). exact Hk.
Qed.

Lemma gen_record_fence c : gen_record c !! "fence" = Some (JInt (gc_fence c)).
Proof. apply gen_record_field; [reflexivity|set_solver]. Qed.
Lemma gen_record_token c : gen_record c !! "lease_token" = Some (JStr (gc_lease_token c)).
Proof. apply gen_record_field; [reflexivity|set_solver]. Qed.
Lemma gen_record_expiry c : gen_record c !! "expires_at_ms" = Some (JInt (gc_expires_at_ms c)).
Proof. apply gen_record_field; [reflexivity|set_solver]. Qed.
Lemma gen_record_id c : gen_record c !! "generation_id" = Some (JStr (gc_generation_id c)).
Proof. apply gen_record_field; [reflexivity|set_solver]. Qed.

Lemma coordinator_normal : normalize_key COORDINATOR_KEY = Ok COORDINATOR_KEY.
Proof. reflexivity. Qed.
Lemma build_normal : normalize_key BUILD_KEY = Ok BUILD_KEY.
Proof. reflexivity. Qed.

Section operations.
Context `{Env}.

Lemma set_store_id w : set_store (w_store w) w = w.
Proof. by destruct w. Qed.

Lemma read_raw_json_reads key : reads (read_raw_json key).
Proof. unfold read_raw_json. solve_reads. Qed.

Lemma read_coordinator w o :
  coordinator (w_store w) o ->
  read_raw_json COORDINATOR_KEY w =
    (Ok (w_store w !! COORDINATOR_KEY, gen_record <$> o), w).
Proof.
  unfold read_raw_json, catch, st, mbind, M_bind. intros Ho.
  rewrite (get_whole _ _ _ coordinator_normal). cbn [fst snd]. rewrite set_store_id.
  destruct o as [c|]; cbn in Ho; [destruct Ho as [-> _]|rewrite Ho]; done.
Qed.

Lemma read_json_coordinator w o :
  coordinator (w_store w) o -> read_json COORDINATOR_KEY w = (Ok (gen_record <$> o), w).
Proof. intros Ho. unfold read_json, mbind, M_bind. by rewrite (read_coordinator _ o). Qed.

Lemma gen_record_truthy c : truthy (JObj (gen_record c)) = true.
Proof.
  cbn. rewrite bool_decide_eq_false_2; [done|].
  eapply (nonempty_at _ "fence"). apply gen_record_fence.
Qed.

(** The lease check, on a store as the code leaves it. *)
Definition lease_valid (o : option generation_context) (c : generation_context) (now : Z)
  : bool :=
  match o with
  | Some cur => String.eqb (gc_lease_token cur) (gc_lease_token c)
                && (gc_fence cur =? gc_fence c) && (now <? gc_expires_at_ms cur)
  | None => false
  end.

Lemma assert_lease_effect w o c :
  coordinator (w_store w) o ->
  if lease_valid o c (clock (w_ticks w))
  then assert_generation_lease c w = (Ok tt, tick w)
  else exists m w', assert_generation_lease c w = (Err (GenerationError m), w') /\
                    w_store w' = w_store w.
Proof.
  intros Ho. unfold assert_generation_lease. unfold mbind, M_bind.
  rewrite (read_json_coordinator _ o Ho).
  destruct o as [cur|]; cbn [fmap option_fmap option_map from_option id]; [|by eexists _, _].
  rewrite gen_record_truthy. cbn [negb]. unfold lease_valid, get_int, dget, lift.
  rewrite gen_record_token, gen_record_fence, gen_record_expiry. cbn.
  rewrite (bool_decide_ext (JStr (gc_lease_token cur) = _)
             (gc_lease_token cur = gc_lease_token c)) by (split; congruence).
  case_bool_decide as Ht; cbn; [|rewrite (proj2 (String.eqb_neq _ _) Ht); by eexists _, _].
  rewrite Ht, String.eqb_refl. destruct (gc_fence cur =? gc_fence c); cbn; [|by eexists _, _].
  rewrite Z.ltb_antisym. destruct (gc_expires_at_ms cur <=? _); cbn; [by eexists _, _|done].
Qed.

Lemma read_back_coordinator s w c :
  w_store w = <[COORDINATOR_KEY := encode (gen_record c)]> s ->
  read_json COORDINATOR_KEY w = (Ok (Some (gen_record c)), w).
Proof.
  intros Hw. unfold read_json, read_raw_json, catch, st, mbind, M_bind.
  rewrite (get_whole _ _ _ coordinator_normal). cbn [fst snd].
  rewrite set_store_id, Hw, lookup_insert_eq. done.
Qed.

(** The context [acquire_generation] builds from the previous fence. *)
Definition acquired (o : option generation_context) (w : world) (n ls : Z) (sc : string)
  (prep : bool) : generation_context :=
  let fence := current_fence o + 1 in
  GenerationContext (pad20 fence +:+ "-" +:+ token (w_tokens w)) fence
    (token (S (w_tokens w))) n (clock (w_ticks w) + ls * 1000) sc GENERATION_VERSION
    (if prep then PLAN_PREPARING else PLAN_READY) [] (plan_digest []).

Lemma acquired_wf o w n ls sc prep : wf_context (acquired o w n ls sc prep).
Proof. split_and!; try done; constructor. Qed.

Lemma acquire_effect w o n ls sc prep :
  coordinator (w_store w) o ->
  let c := acquired o w n ls sc prep in
  exists w', acquire_generation n ls sc prep w = (Ok c, w') /\
    w_store w' = <[BUILD_KEY := encode (<["state" := JStr (gc_plan_state c)]> (gen_record c))]>
                 (<[COORDINATOR_KEY := encode (gen_record c)]> (w_store w)).
Proof.
  intros Ho c. unfold acquire_generation. unfold mbind at 1, M_bind at 1.
  rewrite (read_coordinator _ o Ho). unfold acquire_from. cbn [fst snd].
  assert (get_int (default ∅ (gen_record <$> o)) "fence" 0 = Ok (current_fence o)) as Hf.
  { destruct o as [x|]; cbn [fmap option_fmap option_map from_option id]; [|done].
    unfold get_int, dget. by rewrite gen_record_fence. }
  unfold lift. rewrite Hf. unfold mbind at 1, M_bind at 1. cbn [current_fence].
  unfold now_ms, fresh_token. unfold mbind at 1 2 3, M_bind at 1 2 3.
  cbn [w_tokens w_ticks w_store tick w_lease]. fold (acquired o w n ls sc prep). fold c.
  unfold mbind at 1, M_bind at 1. unfold st at 1. cbn [w_store].
  rewrite (compare_and_swap_spec _ _ _ _ _ coordinator_normal), decide_True by done.
  cbn [fst snd negb set_store w_ticks w_tokens w_lease].
  unfold mbind at 1, M_bind at 1. rewrite (read_back_coordinator (w_store w) _ c) by done.
  rewrite bool_decide_eq_true_2 by done. cbn [negb].
  unfold mbind at 1, M_bind at 1. unfold st, put.
  rewrite (with_key_Ok _ _ _ build_normal). cbn. by eexists.
Qed.

Lemma read_json_world key w : (read_json key w).2 = w.
Proof.
  unfold read_json, read_raw_json, catch, st, mbind, M_bind.
  destruct (get key 0 None (w_store w)) as [r s] eqn:E.
  assert (s = w_store w) as -> by (by pose proof (get_read_only key 0 None (w_store w)) as Hg; rewrite E in Hg).
  cbn [fst snd]. rewrite set_store_id.
  destruct r as [b|e]; [|by destruct e]. cbn. destruct (loads b) as [[]|]; done.
Qed.

(** What renewal, publication and failure may do to the coordinator: nothing,
    or replace it by a context of the same generation under a valid lease. *)
Definition updates (o : option generation_context) (c : generation_context) (now : Z)
  (o' : option generation_context) : Prop :=
  o' = o \/ exists cur c', o = Some cur /\ o' = Some c' /\ lease_valid o c now = true /\
    gc_generation_id c' = gc_generation_id cur /\ gc_fence c' = gc_fence cur /\
    gc_lease_token c' = gc_lease_token cur.

Definition elsewhere (s s' : mem) : Prop :=
  forall k, k <> COORDINATOR_KEY -> k <> BUILD_KEY -> s' !! k = s !! k.

Lemma coordinator_put_build s o b :
  coordinator s o -> coordinator (<[BUILD_KEY := b]> s) o.
Proof. unfold coordinator. by rewrite lookup_insert_ne by done. Qed.

Lemma coordinator_put s c :
  wf_context c -> coordinator (<[COORDINATOR_KEY := encode (gen_record c)]> s) (Some c).
Proof. intros. split; [by rewrite lookup_insert_eq|done]. Qed.

Lemma elsewhere_put s s' k b :
  k = COORDINATOR_KEY \/ k = BUILD_KEY -> elsewhere s s' -> elsewhere s (<[k := b]> s').
Proof.
  intros Hk Hs x H1 H2. rewrite lookup_insert_ne by naive_solver. by apply Hs.
Qed.

Lemma elsewhere_refl s : elsewhere s s.
Proof. by intros k. Qed.

Lemma same_generation_identity a b :
  same_generation a b = true ->
  gc_generation_id b = gc_generation_id a /\ gc_fence b = gc_fence a /\
  gc_lease_token b = gc_lease_token a.
Proof.
  unfold same_generation. rewrite !andb_true_iff, !String.eqb_eq, !Z.eqb_eq.
  intros ((((((-> & ->) & ->) & _) & _) & _) & _). done.
Qed.

Lemma renew_effect w o c ls :
  coordinator (w_store w) o -> wf_context c ->
  wp (renew_generation c ls) (fun r w' =>
    elsewhere (w_store w) (w_store w') /\
    exists o', coordinator (w_store w') o' /\ updates o c (clock (w_ticks w)) o' /\
      forall x, r = Ok x ->
        x = with_expiry (clock (S (w_ticks w)) + ls * 1000) c /\ o' = Some x) w.
Proof.
  intros Ho Hc. apply wp_bind. pose proof (assert_lease_effect w o c Ho) as Ha.
  destruct (lease_valid o c (clock (w_ticks w))) eqn:Hl.
  2: { destruct Ha as (m & w1 & Ha & Hw1). eapply wp_run; [exact Ha|]. rewrite Hw1.
       split; [apply elsewhere_refl|]. exists o. split_and!; [done|by left|done]. }
  eapply wp_run; [exact Ha|]. apply wp_bind. eapply wp_run; [reflexivity|].
  apply wp_bind. eapply wp_run; [by apply (read_coordinator _ o)|]. unfold renew_from, publish_from. cbn [fst snd].
  destruct o as [cur|]; [|done]. destruct Ho as [Hs Hcur].
  cbn [fmap option_fmap option_map]. apply wp_bind.
  unfold lift. rewrite context_roundtrip by done. eapply wp_run; [reflexivity|].
  destruct (same_generation cur c) eqn:Hsame; cbn [negb].
  2: { apply wp_raise. split; [apply elsewhere_refl|]. exists (Some cur).
       split_and!; [by split|by left|done]. }
  apply wp_bind. unfold st at 1.
  eapply wp_run; [cbn [w_store tick]; rewrite (compare_and_swap_spec _ _ _ _ _ coordinator_normal),
    decide_True by done; reflexivity|]. cbn [negb fst snd].
  set (c' := with_expiry _ c). set (w2 := set_store _ _).
  assert (wf_context c') as Hc' by exact Hc.
  assert (updates (Some cur) c (clock (w_ticks w)) (Some c')) as Hup.
  { right. exists cur, c'. split_and!; [done..| | |]; by apply same_generation_identity. }
  assert (elsewhere (w_store w) (w_store w2)) as He
    by (apply elsewhere_put; [by left|apply elsewhere_refl]).
  assert (coordinator (w_store w2) (Some c')) as Ho2 by (by apply coordinator_put).
  apply wp_bind. pose proof (read_json_world BUILD_KEY w2) as Hw2.
  destruct (read_json BUILD_KEY w2) as [[b|e] w3] eqn:Eb; cbn in Hw2; subst w3.
  2: { eapply wp_run; [exact Eb|]. split; [done|]. exists (Some c'). by split_and!. }
  eapply wp_run; [exact Eb|]. apply wp_bind, wp_lift.
  destruct (renewed_build b c') as [b'|e]; [|split; [done|]; exists (Some c'); by split_and!].
  apply wp_bind. unfold st, put. eapply wp_run; [rewrite (with_key_Ok _ _ _ build_normal); reflexivity|].
  apply wp_ret. cbn [fst snd w_store set_store].
  split; [apply elsewhere_put; [by right|done]|].
  exists (Some c'). split_and!; [by apply coordinator_put_build|done|]. by intros x [= <-].
Qed.

(** The check every plan of a publication passes. *)
Definition belongs (c : generation_context) (p : table_read_plan) : Prop :=
  rd_generation_id (tp_descriptor p) = gc_generation_id c /\
  rd_generation_fence (tp_descriptor p) = gc_fence c /\
  rd_owner_shard (tp_descriptor p) < gc_shard_count c.

Lemma check_plans_ok c l : check_plans c l = Ok tt <-> Forall (belongs c) l.
Proof.
  induction l as [|p l IH]; cbn; [split; [constructor|done]|].
  rewrite Forall_cons, <- IH. unfold belongs.
  destruct (String.eqb_spec (rd_generation_id (tp_descriptor p)) (gc_generation_id c)),
    (Z.eqb_spec (rd_generation_fence (tp_descriptor p)) (gc_fence c)),
    (Z.leb_spec (gc_shard_count c) (rd_owner_shard (tp_descriptor p))); cbn;
    split; try done; intros H1; try (destruct H1 as [(?&?&?) ?]; congruence || lia).
Qed.

Lemma ready_wf c plans :
  wf_context c -> Forall valid_plan plans -> NoDup (map tp_table_id (sort_plans plans)) ->
  wf_context (with_plan PLAN_READY (sort_plans plans) (plan_digest (sort_plans plans)) c).
Proof.
  intros (Hv & _) Hp Hnd. split_and!; cbn; try done; [|apply sort_plans_sorted].
  by rewrite sort_plans_perm.
Qed.

Lemma publish_effect w o c plans :
  coordinator (w_store w) o -> wf_context c -> Forall valid_plan plans ->
  let ready := with_plan PLAN_READY (sort_plans plans) (plan_digest (sort_plans plans)) c in
  wp (publish_generation_plan c plans) (fun r w' =>
    elsewhere (w_store w) (w_store w') /\
    match r with
    | Err _ => w_store w' !! COORDINATOR_KEY = w_store w !! COORDINATOR_KEY
    | Ok x => x = ready /\ coordinator (w_store w') (Some ready) /\ o = Some c /\
        lease_valid o c (clock (w_ticks w)) = true /\
        gc_plan_state c = PLAN_PREPARING /\ NoDup (map tp_table_id plans) /\
        Forall (belongs c) plans
    end) w.
Proof.
  intros Ho Hc Hp ready. apply wp_bind. pose proof (assert_lease_effect w o c Ho) as Ha.
  destruct (lease_valid o c (clock (w_ticks w))) eqn:Hl.
  2: { destruct Ha as (m & w1 & Ha & Hw1). eapply wp_run; [exact Ha|]. by rewrite Hw1. }
  eapply wp_run; [exact Ha|].
  destruct (gc_version c <? 2); [by apply wp_raise|].
  destruct (String.eqb_spec (gc_plan_state c) PLAN_PREPARING) as [Hst|]; cbn [negb];
    [|by apply wp_raise].
  case_bool_decide as Hnd; cbn [negb]; [|by apply wp_raise].
  apply wp_bind, wp_lift. destruct (check_plans c (sort_plans plans)) as [[]|e] eqn:Hck; [|done].
  fold ready. apply wp_bind. eapply wp_run; [by apply (read_coordinator _ o)|]. unfold renew_from, publish_from. cbn [fst snd].
  destruct o as [cur|]; [|done]. destruct Ho as [Hs Hcur].
  cbn [fmap option_fmap option_map]. apply wp_bind.
  unfold lift. rewrite context_roundtrip by done. eapply wp_run; [reflexivity|].
  case_bool_decide as Heq; cbn [negb]; [subst cur|by apply wp_raise].
  apply wp_bind. unfold st at 1.
  eapply wp_run; [cbn [w_store tick]; rewrite (compare_and_swap_spec _ _ _ _ _ coordinator_normal),
    decide_True by done; reflexivity|]. cbn [negb fst snd].
  apply wp_bind. unfold st, put.
  eapply wp_run; [rewrite (with_key_Ok _ _ _ build_normal); reflexivity|].
  assert (wf_context ready) as Hr by (by apply ready_wf).
  cbn [fst snd w_store set_store w_ticks w_tokens w_lease].
  match goal with |- wp _ _ ?x => set (w2 := x) end.
  assert (coordinator (w_store w2) (Some ready)) as Ho2
    by (apply coordinator_put_build; by apply coordinator_put).
  apply wp_bind. eapply wp_run; [by apply (read_json_coordinator _ (Some ready))|].
  cbn [fmap option_fmap option_map from_option id].
  apply wp_bind, wp_lift. rewrite context_roundtrip, bool_decide_eq_true_2 by done.
  cbn [negb]. apply wp_ret. split.
  { apply elsewhere_put; [by right|]. apply elsewhere_put; [by left|apply elsewhere_refl]. }
  split_and!; try done.
  - by rewrite <- (sort_plans_perm plans).
  - rewrite <- (sort_plans_perm plans). by apply check_plans_ok.
Qed.

(** A context whose fence is not the current one has no valid lease. *)
Lemma older_invalid o c now :
  gc_fence c <> current_fence o -> lease_valid o c now = false.
Proof.
  destruct o as [cur|]; cbn; [|done]. intros Hf.
  rewrite (proj2 (Z.eqb_neq (gc_fence cur) (gc_fence c))) by done.
  by rewrite andb_false_r.
Qed.

(** An operation that starts with the lease check does nothing for a fenced
    context. *)
Definition fenced_out {A} (m : M world A) (w : world) : Prop :=
  exists msg w', m w = (Err (GenerationError msg), w') /\ w_store w' = w_store w.

Lemma lease_checked_fenced {A} (k : unit -> M world A) w o c :
  coordinator (w_store w) o -> lease_valid o c (clock (w_ticks w)) = false ->
  fenced_out (assert_generation_lease c ≫= k) w.
Proof.
  intros Ho Hl. pose proof (assert_lease_effect w o c Ho) as Ha. rewrite Hl in Ha.
  destruct Ha as (m & w' & Ha & Hw). exists m, w'. unfold mbind, M_bind. by rewrite Ha.
Qed.

Lemma all_fenced_out w o c :
  coordinator (w_store w) o -> gc_fence c <> current_fence o ->
  fenced_out (assert_generation_lease c) w /\
  (forall ls, fenced_out (renew_generation c ls) w) /\
  (forall plans, fenced_out (publish_generation_plan c plans) w) /\
  (forall reason, fenced_out (fail_generation_plan c reason) w).
Proof.
  intros Ho Hf. pose proof (older_invalid o c (clock (w_ticks w)) Hf) as Hl.
  split_and!; intros; try by eapply lease_checked_fenced.
  pose proof (assert_lease_effect w o c Ho) as Ha. by rewrite Hl in Ha.
Qed.
End operations.

(** ** Interleavings of coordinators

    One step of some coordinator process.  The operations that replace the coordinator object read
    it first and swap it later; in between any steps of other processes may happen, so a step runs
    the code from a record that was read at some earlier moment. *)

(** [prev] is what some process has read from a well-formed store. *)
Definition was_read (prev : option blob * option dict) (o : option generation_context) : Prop :=
  prev = ((fun c => encode (gen_record c)) <$> o, gen_record <$> o) /\ from_option wf_context True o.

Lemma read_was_read `{Env} w o : coordinator (w_store w) o -> exists prev, read_raw_json COORDINATOR_KEY w = (Ok prev, w) /\ was_read prev o.
Proof.
  intros Ho. eexists. split; [by apply (read_coordinator w o)|]. destruct o as [c|]; cbn in *.
  - destruct Ho as [-> Hc]. by split.
  - by rewrite Ho.
Qed.

Inductive gen_step `{Env} : world -> world -> Prop :=
| gstep_acquire prev o n ls sc prep w :
    was_read prev o -> gen_step w (acquire_from prev n ls sc prep w).2
| gstep_renew cur o expiry c w :
    was_read cur o -> wf_context c -> gen_step w (renew_from cur (with_expiry expiry c) c w).2
| gstep_publish cur o c plans w :
    was_read cur o -> wf_context c -> Forall valid_plan plans -> NoDup (map tp_table_id (sort_plans plans)) ->
    gen_step w (publish_from cur (with_plan PLAN_READY (sort_plans plans) (plan_digest (sort_plans plans)) c) c w).2
| gstep_fail c reason w : gen_step w (fail_generation_plan c reason w).2
| gstep_other w w' :
    w_store w' !! COORDINATOR_KEY = w_store w !! COORDINATOR_KEY -> gen_step w w'.

(** The fence never decreases, and a fence number names one generation. *)
Definition gen_le (o o' : option generation_context) : Prop :=
  match o, o' with
  | None, _ => True
  | Some _, None => False
  | Some a, Some b =>
      gc_fence a <= gc_fence b /\
      (gc_fence a = gc_fence b ->
         gc_generation_id a = gc_generation_id b /\ gc_lease_token a = gc_lease_token b)
  end.

#[local] Instance gen_le_preorder : PreOrder gen_le.
Proof.
  split.
  - intros [a|]; cbn; [|done]. split; [lia|done].
  - intros [a|] [b|] [c|]; cbn; try done. intros [H1 H2] [H3 H4]. split; [lia|].
    intros Heq. destruct H2 as [-> ->]; [lia|]. apply H4. lia.
Qed.

Lemma coordinator_record_inj a b :
  wf_context a -> wf_context b -> encode (gen_record a) = encode (gen_record b) -> a = b.
Proof.
  intros Ha Hb [= Heq]. pose proof (context_roundtrip a Ha) as H1.
  rewrite Heq, context_roundtrip in H1 by done. congruence.
Qed.

Section interleaving.
Context `{Env}.

(** The swap succeeds only when the object is still the one that was read. *)
Lemma swap_coordinator prev o0 o c w :
  was_read prev o0 -> coordinator (w_store w) o -> wf_context c ->
  exists b w', st (compare_and_swap COORDINATOR_KEY prev.1 (encode (gen_record c))) w = (Ok b, w') /\
    if b then o0 = o /\ coordinator (w_store w') (Some c) else coordinator (w_store w') o.
Proof.
  intros [-> Hwf] Ho Hc. unfold st. rewrite (compare_and_swap_spec _ _ _ _ _ coordinator_normal). cbn [fst].
  case_decide as Hd; do 2 eexists; (split; [reflexivity|]); cbn [snd]; [|done].
  split; [|by apply coordinator_put]. destruct o as [x|], o0 as [y|]; cbn in *.
  - destruct Ho as [Hs Hx]. f_equal. apply coordinator_record_inj; [done..|]. congruence.
  - destruct Ho as [Hs Hx]. congruence.
  - congruence.
  - done.
Qed.

(** What a step leaves of the coordinator object [o]. *)
Definition leaves (o : option generation_context) (P : generation_context -> Prop) (w' : world) : Prop :=
  coordinator (w_store w') o \/ exists c, coordinator (w_store w') (Some c) /\ P c.

Lemma leaves_same o P w w' : w_store w' = w_store w -> coordinator (w_store w) o -> leaves o P w'.
Proof. intros E Ho. left. by rewrite E. Qed.

Lemma acquire_from_leaves prev o0 o n ls sc prep w :
  was_read prev o0 -> coordinator (w_store w) o ->
  wp (acquire_from prev n ls sc prep) (fun _ w' => leaves o (fun c => gc_fence c = current_fence o + 1) w') w.
Proof.
  intros Hr Ho. unfold acquire_from.
  assert (get_int (default ∅ prev.2) "fence" 0 = Ok (current_fence o0)) as Hf.
  { destruct Hr as [-> _]. destruct o0 as [x|]; cbn [snd fmap option_fmap option_map from_option id]; [|done].
    unfold get_int, dget. by rewrite gen_record_fence. }
  apply wp_bind, wp_lift. rewrite Hf. apply wp_bind. eapply wp_run; [reflexivity|].
  apply wp_bind. eapply wp_run; [reflexivity|]. apply wp_bind. eapply wp_run; [reflexivity|]. cbv zeta.
  cbv beta iota. match goal with |- context [gen_record ?x] => set (c := x) end. apply wp_bind.
  match goal with |- wp _ _ ?x => set (w1 := x) end.
  assert (wf_context c) as Hc by (split_and!; try done; constructor).
  destruct (swap_coordinator prev o0 o c w1 Hr Ho Hc) as (b & w2 & Hs & Hb). eapply wp_run; [exact Hs|].
  destruct b; cbn [negb]; [|apply wp_raise; by left]. destruct Hb as [-> Hb].
  assert (leaves o (fun c => gc_fence c = current_fence o + 1) w2) as Hl by (right; by exists c).
  apply wp_bind. eapply wp_run; [by apply (read_json_coordinator _ (Some c))|]. cbv beta iota.
  destruct (negb _); [by apply wp_raise|]. apply wp_bind. unfold st, put.
  eapply wp_run; [rewrite (with_key_Ok _ _ _ build_normal); reflexivity|]. apply wp_ret. right. exists c.
  split; [by apply coordinator_put_build|done].
Qed.

Lemma renew_from_leaves cur o0 o expiry c w :
  was_read cur o0 -> coordinator (w_store w) o -> wf_context c ->
  wp (renew_from cur (with_expiry expiry c) c) (fun _ w' => leaves o (fun c' => gen_le o (Some c')) w') w.
Proof.
  intros Hr Ho Hc. unfold renew_from. pose proof Hr as [Ecur Hwf]. rewrite Ecur at 1. cbn [snd]. apply wp_bind.
  destruct o0 as [x|]; cbn [fmap option_fmap option_map from_option] in *; [|apply wp_ret, wp_raise; by left].
  apply wp_bind, wp_lift. rewrite context_roundtrip by done. apply wp_ret.
  destruct (same_generation x c) eqn:Hsame; cbn [negb]; [|apply wp_raise; by left].
  assert (wf_context (with_expiry expiry c)) as Hc' by exact Hc. apply wp_bind.
  destruct (swap_coordinator cur (Some x) o _ w Hr Ho Hc') as (b & w2 & Hs & Hb). eapply wp_run; [exact Hs|].
  destruct b; cbn [negb]; [|apply wp_raise; by left]. destruct Hb as [<- Hb].
  assert (gen_le (Some x) (Some (with_expiry expiry c))) as Hle.
  { apply same_generation_identity in Hsame as (E1 & E2 & E3). cbn. split; [lia|]. by rewrite E1, E3. }
  apply wp_bind. pose proof (read_json_world BUILD_KEY w2) as Hw2.
  destruct (read_json BUILD_KEY w2) as [[b|e] w3] eqn:Eb; cbn in Hw2; subst w3; (eapply wp_run; [exact Eb|]);
    [|right; by eexists].
  apply wp_bind, wp_lift. destruct (renewed_build b _) as [b'|e]; [|right; by eexists].
  apply wp_bind. unfold st, put. eapply wp_run; [rewrite (with_key_Ok _ _ _ build_normal); reflexivity|].
  apply wp_ret. right. eexists. split; [by apply coordinator_put_build|done].
Qed.

Lemma publish_from_leaves cur o0 o c plans w :
  let ready := with_plan PLAN_READY (sort_plans plans) (plan_digest (sort_plans plans)) c in
  was_read cur o0 -> coordinator (w_store w) o -> wf_context c -> Forall valid_plan plans ->
  NoDup (map tp_table_id (sort_plans plans)) ->
  wp (publish_from cur ready c) (fun _ w' => leaves o (fun c' => gen_le o (Some c')) w') w.
Proof.
  intros ready Hr Ho Hc Hp Hnd. unfold publish_from. pose proof Hr as [Ecur Hwf]. rewrite Ecur at 1. cbn [snd]. apply wp_bind.
  destruct o0 as [x|]; cbn [fmap option_fmap option_map from_option] in *; [|apply wp_ret, wp_raise; by left].
  apply wp_bind, wp_lift. rewrite context_roundtrip by done. apply wp_ret.
  case_bool_decide as Hsame; cbn [negb]; [subst x|apply wp_raise; by left].
  assert (wf_context ready) as Hc' by (by apply ready_wf). apply wp_bind.
  destruct (swap_coordinator cur (Some c) o _ w Hr Ho Hc') as (b & w2 & Hs & Hb). eapply wp_run; [exact Hs|].
  destruct b; cbn [negb]; [|apply wp_raise; by left]. destruct Hb as [<- Hb]. apply wp_bind. unfold st, put.
  eapply wp_run; [rewrite (with_key_Ok _ _ _ build_normal); reflexivity|]. cbn [fst snd].
  match goal with |- wp _ _ ?x => set (w3 := x) end.
  assert (coordinator (w_store w3) (Some ready)) as Ho3 by (by apply coordinator_put_build).
  assert (leaves (Some c) (fun c' => gen_le (Some c) (Some c')) w3) as Hl by (right; exists ready; split; [done|cbn; split; [lia|done]]).
  apply wp_bind. eapply wp_run; [by apply (read_json_coordinator _ (Some ready))|]. cbv beta iota.
  apply wp_bind, wp_lift. destruct (context_of _); [|done]. destruct (negb _); [by apply wp_raise|by apply wp_ret].
Qed.

Lemma fail_leaves c reason o w : coordinator (w_store w) o -> coordinator (w_store (fail_generation_plan c reason w).2) o.
Proof.
  intros Ho. unfold fail_generation_plan. pose proof (assert_lease_effect w o c Ho) as Ha. unfold mbind at 1, M_bind at 1.
  destruct (lease_valid o c (clock (w_ticks w))).
  - rewrite Ha. unfold mbind, M_bind, st, put. rewrite (with_key_Ok _ _ _ build_normal). by apply coordinator_put_build.
  - destruct Ha as (m & w1 & Ha & Hw1). rewrite Ha. cbn [snd]. by rewrite Hw1.
Qed.

Lemma gen_step_ok w w' o :
  gen_step w w' -> coordinator (w_store w) o ->
  exists o', coordinator (w_store w') o' /\ gen_le o o'.
Proof.
  intros Hst Ho.
  assert (forall P, (forall c, P c -> gen_le o (Some c)) -> leaves o P w' -> exists o', coordinator (w_store w') o' /\ gen_le o o') as Hl.
  { intros P HP [Hsame|(c & Hc & Hp)]; [by exists o|]. exists (Some c). split; [done|by apply HP]. }
  destruct Hst as [prev o0 n ls sc prep w Hr|cur o0 expiry c w Hr Hc|cur o0 c plans w Hr Hc Hp Hnd|c reason w|w w' E].
  - eapply Hl; [|by eapply (acquire_from_leaves prev o0 o)]. cbn. intros c Hf. destruct o as [x|]; [|done]. cbn in *. split; lia.
  - eapply Hl; [|by eapply (renew_from_leaves cur o0 o)]. done.
  - eapply Hl; [|by eapply (publish_from_leaves cur o0 o)]. done.
  - exists o. split; [by apply fail_leaves|done].
  - exists o. split; [|done]. unfold coordinator in *. by rewrite E.
Qed.

Lemma gen_steps_ok w w' o :
  rtc gen_step w w' -> coordinator (w_store w) o -> exists o', coordinator (w_store w') o' /\ gen_le o o'.
Proof.
  intros Hst. revert o. induction Hst as [w|w1 w2 w3 H1 _ IH]; intros o Ho; [by exists o|].
  destruct (gen_step_ok _ _ _ H1 Ho) as (o2 & Ho2 & Hle).
  destruct (IH _ Ho2) as (o3 & Ho3 & Hle3). exists o3. split; [done|by etrans].
Qed.

Lemma identity_fenced w o gid fence tok sha :
  coordinator (w_store w) o -> fence <> current_fence o -> fenced_out (assert_generation_identity gid fence tok sha) w.
Proof.
  intros Ho Hf. unfold fenced_out, assert_generation_identity, mbind, M_bind. rewrite (read_json_coordinator _ o Ho).
  destruct o as [cur|]; cbn [fmap option_fmap option_map from_option id]; [|by eexists _, _].
  rewrite gen_record_truthy. cbn [negb]. unfold get_int, dget, lift. rewrite gen_record_id, gen_record_fence, gen_record_token.
  cbn. cbn in Hf. rewrite (proj2 (Z.eqb_neq (gc_fence cur) fence)) by done. cbn.
  case_bool_decide; by eexists _, _.
Qed.
End interleaving.

(** ** Properties *)

(** The durable generation record is faithful and tamper-evident: the
    record of a well-formed context decodes to that context, and whatever
    decodes as a version 2 record has valid plans whose digest is the one it
    carries. *)
Theorem generation_record_roundtrip c :
  wf_context c ->
  context_of (gen_record c) = Ok c /\
  forall d c', context_of d = Ok c' -> 2 <= gc_version c' ->
    Forall valid_plan (gc_table_plans c') /\
    gc_plan_sha256 c' = plan_digest (gc_table_plans c').
Proof.
  intros Hc. split; [by apply context_roundtrip|]. intros d c' Hd Hv.
  assert (context_body d = Ok c') as Hb.
  { unfold context_of in Hd. destruct (context_body d) as [x|[]]; done. }
  unfold context_body in Hb. invert_Ok Hb. cbv zeta in Hb.
  destruct ((2 <=? v) && _) eqn:Ed; [done|]. injection Hb as <-. cbn [gc_version] in Hv.
  cbn [gc_table_plans gc_plan_sha256]. rewrite (proj2 (Z.leb_le 2 v) Hv) in *.
  apply negb_false_iff, String.eqb_eq in Ed. split; [|done].
  match goal with E : (get_list _ _ ≫= _) = _ |- _ => invert_Ok E; clear -E end.
  eapply res_map_Forall; [apply plan_from_dict_valid|done].
Qed.

Section properties.
Context `{Env}.

(** Taking over a generation fences every earlier one: acquisition always
    installs a fence one above the previous record's, keeps the record well
    formed, and from then on no context with an earlier fence can renew,
    publish a plan, report a failure or pass the lease check, and its
    attempts change nothing. *)
Theorem acquire_generation_fences w o n ls sc prep :
  coordinator (w_store w) o ->
  exists c w', acquire_generation n ls sc prep w = (Ok c, w') /\
    gc_fence c = current_fence o + 1 /\ coordinator (w_store w') (Some c) /\
    forall old w2, gc_fence old <= current_fence o -> w_store w2 = w_store w' ->
      fenced_out (assert_generation_lease old) w2 /\
      (forall ls, fenced_out (renew_generation old ls) w2) /\
      (forall plans, fenced_out (publish_generation_plan old plans) w2) /\
      (forall reason, fenced_out (fail_generation_plan old reason) w2).
Proof.
  intros Ho. destruct (acquire_effect w o n ls sc prep Ho) as (w' & Hacq & Hs).
  set (c := acquired o w n ls sc prep) in *.
  assert (coordinator (w_store w') (Some c)) as Ho'.
  { rewrite Hs. apply coordinator_put_build, coordinator_put, acquired_wf. }
  exists c, w'. split_and!; [done|done|done|]. intros old w2 Hle Hw2.
  apply (all_fenced_out w2 (Some c)); [by rewrite Hw2|]. cbn. lia.
Qed.

(** C6: A fenced generation stays fenced.  After a generation was acquired, other coordinators
    may acquire, renew, publish plans and report failures in any interleaving (each operation may swap
    the coordinator object long after it has read it); once some coordinator has acquired a later
    generation, then after any further steps every operation under the fence of the first one or of
    an earlier one, by its coordinator or by a worker, is refused and changes nothing. *)
Theorem fenced_generation_stays_fenced o n ls sc prep n' ls' sc' prep' old new w0 w1 w2 w3 w4 :
  coordinator (w_store w0) o ->
  acquire_generation n ls sc prep w0 = (Ok old, w1) -> rtc gen_step w1 w2 ->
  acquire_generation n' ls' sc' prep' w2 = (Ok new, w3) -> rtc gen_step w3 w4 ->
  gc_fence old < gc_fence new /\
  forall c, gc_fence c <= gc_fence old ->
    fenced_out (assert_generation_lease c) w4 /\
    (forall ls, fenced_out (renew_generation c ls) w4) /\
    (forall plans, fenced_out (publish_generation_plan c plans) w4) /\
    (forall reason, fenced_out (fail_generation_plan c reason) w4) /\
    (forall gid tok sha, fenced_out (assert_generation_identity gid (gc_fence c) tok sha) w4).
Proof.
  intros Ho H1 S1 H2 S2.
  assert (forall o n ls sc prep c w w', coordinator (w_store w) o -> acquire_generation n ls sc prep w = (Ok c, w') ->
    gc_fence c = current_fence o + 1 /\ coordinator (w_store w') (Some c)) as Hacq.
  { clear. intros o n ls sc prep c w w' Ho Ha. destruct (acquire_effect w o n ls sc prep Ho) as (w2 & E & Hs).
    rewrite Ha in E. injection E as -> ->. split; [done|]. rewrite Hs. apply coordinator_put_build, coordinator_put, acquired_wf. }
  destruct (Hacq _ _ _ _ _ _ _ _ Ho H1) as [_ Ho1]. destruct (gen_steps_ok _ _ _ S1 Ho1) as (o2 & Ho2 & Hle2).
  destruct (Hacq _ _ _ _ _ _ _ _ Ho2 H2) as [Hf Ho3]. destruct (gen_steps_ok _ _ _ S2 Ho3) as (o4 & Ho4 & Hle4).
  assert (gc_fence old < gc_fence new) as Hlt by (destruct o2; cbn in *; [lia|done]). split; [done|]. intros c Hc.
  assert (gc_fence c <> current_fence o4) as Hne by (destruct o4; cbn in *; [lia|done]).
  destruct (all_fenced_out w4 o4 c Ho4 Hne) as (F1 & F2 & F3 & F4). split_and!; [done..|].
  intros gid tok sha. by apply (identity_fenced w4 o4).
Qed.

(** Publishing a plan is the transition PREPARING to READY of the current
    generation and nothing else: it succeeds only for the exact context in
    the coordinator record, under a live lease, with distinct tables whose
    plans all belong to this generation and its shards; then the record is
    the same generation with the sorted plans and their digest.  On any error
    the coordinator record is untouched; no other object but the build record
    is ever written. *)
Theorem publish_generation_plan_correct w o c plans :
  coordinator (w_store w) o -> wf_context c -> Forall valid_plan plans ->
  let '(r, w') := publish_generation_plan c plans w in
  elsewhere (w_store w) (w_store w') /\
  match r with
  | Err _ => w_store w' !! COORDINATOR_KEY = w_store w !! COORDINATOR_KEY
  | Ok x =>
      x = with_plan PLAN_READY (sort_plans plans) (plan_digest (sort_plans plans)) c /\
      coordinator (w_store w') (Some x) /\ o = Some c /\
      lease_valid o c (clock (w_ticks w)) = true /\
      gc_plan_state c = PLAN_PREPARING /\ NoDup (map tp_table_id plans) /\
      Forall (belongs c) plans
  end.
Proof.
  intros Ho Hc Hp. pose proof (publish_effect w o c plans Ho Hc Hp) as Hw. unfold wp in Hw.
  destruct (publish_generation_plan c plans w) as [[x|e] w']; cbn in Hw; [|done].
  destruct Hw as (He & -> & Hrest). by split_and!; try apply Hrest.
Qed.

(** Renewal only moves the expiry: it returns the given context with the
    new expiry, and the coordinator record is either unchanged or a record
    of the same generation, fence and token, written while the lease was
    valid. *)
Theorem renew_generation_correct w o c ls :
  coordinator (w_store w) o -> wf_context c ->
  let '(r, w') := renew_generation c ls w in
  elsewhere (w_store w) (w_store w') /\
  exists o', coordinator (w_store w') o' /\ updates o c (clock (w_ticks w)) o' /\
    forall x, r = Ok x ->
      x = with_expiry (clock (S (w_ticks w)) + ls * 1000) c /\ o' = Some x.
Proof.
  intros Ho Hc. pose proof (renew_effect w o c ls Ho Hc) as Hw. unfold wp in Hw.
  by destruct (renew_generation c ls w) as [r w'].
Qed.
End properties.

(** ** Witnesses *)

#[local] Instance demo_env : Env := {| clock n := 1000 + Z.of_nat n; token n := "tok" |}.

Definition demo_context (fence : Z) : generation_context :=
  GenerationContext "g" fence "tok" 2 5000 "best_effort" 2 PLAN_PREPARING [] (plan_digest []).

Lemma demo_context_wf fence : wf_context (demo_context fence).
Proof. split_and!; try done; constructor. Qed.

Definition demo_store (fence : Z) : mem :=
  <[COORDINATOR_KEY := encode (gen_record (demo_context fence))]> ∅.

Definition demo_world (fence : Z) : world :=
  World (demo_store fence) 0 0 (LeaseObj "m" 100 true 1 "").

Lemma generation_record_roundtrip_witness :
  context_of (gen_record (demo_context 3)) = Ok (demo_context 3).
Proof. apply (generation_record_roundtrip (demo_context 3) (demo_context_wf 3)). Defined.

Lemma acquire_generation_fences_witness :
  exists c w', acquire_generation 2 300 "best_effort" true (demo_world 3) = (Ok c, w') /\
    gc_fence c = 4 /\ coordinator (w_store w') (Some c) /\
    forall old w2, gc_fence old <= 3 -> w_store w2 = w_store w' ->
      fenced_out (assert_generation_lease old) w2 /\
      (forall ls, fenced_out (renew_generation old ls) w2) /\
      (forall plans, fenced_out (publish_generation_plan old plans) w2) /\
      (forall reason, fenced_out (fail_generation_plan old reason) w2).
Proof.
  apply (acquire_generation_fences (demo_world 3) (Some (demo_context 3)) 2 300 "best_effort" true).
  apply coordinator_put, demo_context_wf.
Defined.

(** A second coordinator takes over and reports a failure of its planning. *)
Definition first_acquired : res generation_context * world := acquire_generation 2 300 "best_effort" true (demo_world 3).
Definition second_acquired : res generation_context * world := acquire_generation 2 300 "best_effort" true first_acquired.2.

Lemma fenced_generation_stays_fenced_witness :
  exists old new, first_acquired.1 = Ok old /\ second_acquired.1 = Ok new /\ gc_fence old < gc_fence new /\
    fenced_out (renew_generation old 300) (fail_generation_plan new "slow" second_acquired.2).2.
Proof.
  destruct (acquire_effect (demo_world 3) (Some (demo_context 3)) 2 300 "best_effort" true) as (w1 & E1 & _);
    [apply coordinator_put, demo_context_wf|].
  assert (first_acquired.2 = w1) as F1 by (unfold first_acquired; by rewrite E1).
  set (old := acquired (Some (demo_context 3)) (demo_world 3) 2 300 "best_effort" true) in *.
  destruct (acquire_effect w1 (Some old) 2 300 "best_effort" true) as (w2 & E2 & _).
  { destruct (acquire_generation_fences (demo_world 3) (Some (demo_context 3)) 2 300 "best_effort" true) as (c & w' & E & _ & Hc & _);
      [apply coordinator_put, demo_context_wf|]. rewrite E1 in E. injection E as -> ->. exact Hc. }
  set (new := acquired (Some old) w1 2 300 "best_effort" true) in *. exists old, new.
  assert (second_acquired = (Ok new, w2)) as F2 by (unfold second_acquired; by rewrite F1).
  split; [unfold first_acquired; by rewrite E1|]. split; [by rewrite F2|]. rewrite F2. cbn [snd].
  destruct (fenced_generation_stays_fenced (Some (demo_context 3)) 2 300 "best_effort" true 2 300 "best_effort" true old new
              (demo_world 3) w1 w1 w2 (fail_generation_plan new "slow" w2).2) as [Hlt Hout].
  - apply coordinator_put, demo_context_wf.
  - exact E1.
  - apply rtc_refl.
  - exact E2.
  - apply rtc_once. apply gstep_fail.
  - split; [exact Hlt|]. apply (Hout old). lia.
Defined.

Definition demo_gen_plan : table_read_plan :=
  TableReadPlan 1 "t" (Descriptor 1 "best_effort" "default" "t" 1 "g" 3 10 None None false)
    1 "hash" "id" None [].

Lemma publish_generation_plan_correct_witness :
  let '(r, w') := publish_generation_plan (demo_context 3) [demo_gen_plan] (demo_world 3) in
  elsewhere (w_store (demo_world 3)) (w_store w') /\
  match r with
  | Err _ => w_store w' !! COORDINATOR_KEY = w_store (demo_world 3) !! COORDINATOR_KEY
  | Ok x =>
      x = with_plan PLAN_READY (sort_plans [demo_gen_plan])
            (plan_digest (sort_plans [demo_gen_plan])) (demo_context 3) /\
      coordinator (w_store w') (Some x) /\ Some (demo_context 3) = Some (demo_context 3) /\
      lease_valid (Some (demo_context 3)) (demo_context 3) (clock (w_ticks (demo_world 3))) = true /\
      gc_plan_state (demo_context 3) = PLAN_PREPARING /\
      NoDup (map tp_table_id [demo_gen_plan]) /\ Forall (belongs (demo_context 3)) [demo_gen_plan]
  end.
Proof.
  apply (publish_generation_plan_correct (demo_world 3) (Some (demo_context 3)) (demo_context 3)
           [demo_gen_plan]).
  - apply coordinator_put, demo_context_wf.
  - apply demo_context_wf.
  - repeat constructor.
Defined.

Lemma renew_generation_correct_witness :
  let '(r, w') := renew_generation (demo_context 3) 300 (demo_world 3) in
  elsewhere (w_store (demo_world 3)) (w_store w') /\
  exists o', coordinator (w_store w') o' /\
    updates (Some (demo_context 3)) (demo_context 3) (clock (w_ticks (demo_world 3))) o' /\
    forall x, r = Ok x -> x = with_expiry (clock (S (w_ticks (demo_world 3))) + 300 * 1000) (demo_context 3) /\ o' = Some x.
Proof.
  apply (renew_generation_correct (demo_world 3) (Some (demo_context 3)) (demo_context 3) 300).
  - apply coordinator_put, demo_context_wf.
  - apply demo_context_wf.
Defined.
