(* ===== verification/WorkQueue.v ===== *)
(** * The durable work queue

    [enterprise/control/work_queue.py]: materialization requests, tasks, claims,
    results, memberships and snapshots, kept as JSON objects of the artifact
    store.  Records are the dictionaries the code reads and writes, so that
    defaults, missing keys and fields of other versions behave as in the source.
    The queue's re-entrant lock makes every method one critical section of its
    process; metrics have no effect on the state and are left out. *)

From S2P Require Import Prelude PyText Sha256 Json ArtifactStore World Lease Contract ReadPlan.
From S2P Require Import Generation.
Import MemoryStore.
From Stdlib Require Import Ascii.

Definition PREFIX : string := "_control/work-queue/v1".
Definition REQUESTS_PREFIX : string := PREFIX +:+ "/requests".
Definition TASKS_PREFIX : string := PREFIX +:+ "/tasks".
Definition RESULTS_PREFIX : string := PREFIX +:+ "/results".
Definition SNAPSHOTS_PREFIX : string := PREFIX +:+ "/snapshots".
Definition IDEMPOTENCY_PREFIX : string := PREFIX +:+ "/idempotency".
Definition MEMBERSHIP_PREFIX : string := PREFIX +:+ "/memberships".
Definition STAGING_PREFIX : string := ".fsp/staging".

(** ** Keys *)

Definition request_key (request_id : string) : string :=
  REQUESTS_PREFIX +:+ "/" +:+ request_id +:+ ".json".
Definition task_key (task_id : string) : string :=
  TASKS_PREFIX +:+ "/" +:+ task_id +:+ ".json".
Definition result_key (task_id : string) (attempt : Z) : string :=
  RESULTS_PREFIX +:+ "/" +:+ task_id +:+ "/" +:+ pretty attempt +:+ ".json".
Definition results_dir (task_id : string) : string :=
  RESULTS_PREFIX +:+ "/" +:+ task_id +:+ "/".
Definition snapshot_key (table : string) (epoch : Z) : string :=
  SNAPSHOTS_PREFIX +:+ "/" +:+ sha256_hex table +:+ "/" +:+ pad20 epoch +:+ ".json".
Definition idempotency_file (digest : string) : string :=
  IDEMPOTENCY_PREFIX +:+ "/" +:+ digest +:+ ".json".
Definition idempotency_key (value : string) : string := idempotency_file (sha256_hex value).
Definition membership_key (generation_id : string) : string :=
  MEMBERSHIP_PREFIX +:+ "/" +:+ sha256_hex generation_id +:+ ".json".

Definition staging_generation_prefix (output_key generation_id : string) : string :=
  let parent := rpartition_head slash output_key in
  (if truthy_str parent then parent +:+ "/" else "")
    +:+ STAGING_PREFIX +:+ "/" +:+ sha256_hex generation_id +:+ "/".
Definition staging_prefix (output_key generation_id task_id : string) : string :=
  staging_generation_prefix output_key generation_id +:+ task_id +:+ "/".
Definition staging_key (output_key generation_id task_id : string) (attempt : Z)
  (claim_token : string) : string :=
  staging_prefix output_key generation_id task_id
    +:+ pretty attempt +:+ "-" +:+ sha256_hex claim_token +:+ ".parquet".

(** [split_completion.completion_key] *)
Definition completion_key (object_key generation_id : string) : string :=
  ".fsp/generations" +:+ "/" +:+ generation_id +:+ "/split-completions/"
    +:+ sha256_hex object_key +:+ ".json".

(** ** Collaborators and configuration *)

(** What the queue uses of other code: [config.redact_db_url], and the row
    count pyarrow reads from a Parquet object ([None]: not valid Parquet). *)
Class QueueEnv := {
  redact_db_url : string -> string;
  parquet_num_rows : blob -> option Z;
}.

(** The operations of [FederatedPublicationCoordinator] the queue calls. *)
Record federation_ops := FederationOps {
  fed_publish : snapshot_manifest -> M world unit;
  fed_snapshot : string -> string -> Z -> M world (option snapshot_manifest);
}.

Record queue := Queue {
  q_task_lease_seconds : Z;
  q_max_attempts : Z;
  q_retry_backoff_seconds : Z;
  q_retry_max_seconds : Z;
  q_leadership_check : option (M world dict);
  q_federation : option federation_ops;
  q_federated_tables : list (string * string);
}.

(** [DurableWorkQueue(...)] *)
Definition new_queue (task_lease_seconds max_attempts retry_backoff_seconds retry_max_seconds : Z)
  (leadership_check : option (M world dict)) : queue :=
  let backoff := Z.max 0 retry_backoff_seconds in
  Queue (Z.max 1 task_lease_seconds) (Z.max 1 max_attempts) backoff
    (Z.max backoff retry_max_seconds) leadership_check None [].

Definition configure_federation (q : queue) (coordinator : federation_ops)
  (tables : list (string * string)) : queue :=
  Queue (q_task_lease_seconds q) (q_max_attempts q) (q_retry_backoff_seconds q)
    (q_retry_max_seconds q) (q_leadership_check q) (Some coordinator) tables.

(** ** Python idioms on records *)

(** A sequence of assignments [d[k] = v]. *)
Definition assign (fields : list (string * json)) (d : dict) : dict :=
  foldl (fun d kv => <[kv.1 := kv.2]> d) d fields.

Definition js (s : task_state) : json := JStr (state_str s).

(** [v in {A, B}]: a set literal hashes [v]. *)
Definition in_set (v : json) (states : list task_state) : res bool :=
  match v with
  | JList _ | JObj _ => Err (TypeError "unhashable type")
  | _ => Ok (bool_decide (v ∈ map js states))
  end.

(** [v in TASK_TERMINAL_STATES], a tuple *)
Definition in_terminal (v : json) : bool := bool_decide (v ∈ map js TASK_TERMINAL_STATES).

(** [hmac.compare_digest] on strings, which must be ASCII. *)
Definition is_ascii (s : string) : bool := str_forallb (fun a => (N_of_ascii a <? 128)%N) s.
Definition compare_digest (a b : string) : res bool :=
  if is_ascii a && is_ascii b then Ok (String.eqb a b)
  else Err (TypeError "comparing strings with non-ASCII characters is not supported").

(** [int(task["revision"]) + 1] *)
Definition bump (task : dict) : res Z := r ← req_int task "revision"; Ok (r + 1).

(** [int((task.get("task") or {}).get("deadline_ms", 0))] *)
Definition deadline_of (task : dict) : res Z :=
  payload ← get_dict task "task"; get_int payload "deadline_ms" 0.

(** [deadline and deadline <= now] *)
Definition past (deadline now : Z) : bool := truthy_int deadline && (deadline <=? now).

Definition task_id_of (task : dict) : res string :=
  v ← dget_req task "task_id";
  match v with JStr s => Ok s | _ => Err (Unmodelled "task_id is not a string") end.

Definition id_le (a b : string * dict) : Prop := str_le a.1 b.1.
#[global] Instance id_le_dec a b : Decision (id_le a b).
Proof. unfold id_le. apply _. Defined.

(** [sorted(records, key=lambda value: value["task_id"])] *)
Definition sort_by_task_id (records : list dict) : res (list dict) :=
  keyed ← res_map (fun d => i ← task_id_of d; Ok (i, d)) records;
  Ok (map snd (merge_sort id_le keyed)).

Definition member_le (a b : (Z * string) * dict) : Prop :=
  a.1.1 < b.1.1 \/ (a.1.1 = b.1.1 /\ str_le a.1.2 b.1.2).
#[global] Instance member_le_dec a b : Decision (member_le a b).
Proof. unfold member_le. apply _. Defined.

Section queue.
Context `{Env, QueueEnv} (q : queue).

(** [_safe_error] *)
Definition safe_error (value : string) : string := str_take 500 (redact_db_url value).

(** ** Records *)

(** [_read] *)
Definition read_ (key : string) : M world (option dict) :=
  raw ← catch (b ← st (get key 0 None); mret (Some b))
    (fun e => match e with ObjectNotFound _ => mret None | e => raise e end);
  match raw with
  | None => mret None
  | Some b =>
      match loads b with
      | None => raise (WorkQueueError ("invalid queue record " +:+ key))
      | Some (JObj d) => mret (Some d)
      | Some _ => raise (WorkQueueError ("invalid queue record " +:+ key +:+ ": expected object"))
      end
  end.

(** The five read-backs of [_write]. *)
Fixpoint verify_write (attempts : nat) (key : string) (value : dict) : M world unit :=
  match attempts with
  | O => raise (WorkQueueError ("queue record verification failed: " +:+ key))
  | S attempts =>
      r ← read_ key;
      if bool_decide (r = Some value) then mret tt else verify_write attempts key value
  end.

(** The fields [_write] adds when leadership is checked. *)
Definition stamp (owner : string) (fence : Z) : dict -> dict :=
  assign [("manager_owner", JStr owner); ("manager_fence", JInt fence)].

(** [term["owner_id"]] and [term["fence"]] of a leadership check. *)
Definition leadership (chk : M world dict) : M world (string * Z) :=
  term ← chk;
  owner ← lift (req_str term "owner_id");
  fence ← lift (req_int term "fence");
  mret (owner, fence).

(** [_write] *)
Definition write_ (key : string) (value : dict) : M world unit :=
  value ← match q_leadership_check q with
          | Some chk =>
              t ← leadership chk;
              let value := stamp t.1 t.2 value in
              committed ← st_now (fun n => fenced_put n LEASE_KEY t.1 t.2 key (encode value));
              if (committed : bool) then mret value
              else raise (StaleLeaderError "Manager leadership changed before queue write")
          | None => st (put key (encode value));; mret value
          end;
  verify_write 5 key value.

(** [_delete] *)
Definition delete_rec (key : string) : M world bool :=
  match q_leadership_check q with
  | None => st (delete_ key)
  | Some chk =>
      t ← leadership chk;
      deleted ← st_now (fun n => fenced_delete n LEASE_KEY t.1 t.2 key);
      match deleted with
      | None => raise (StaleLeaderError "Manager leadership changed before queue delete")
      | Some b => mret b
      end
  end.

(** [_guarded_write_batch] *)
Definition guarded_write_batch (guard_key : string) (expected_guard : blob)
  (values : list (string * dict)) : M world unit :=
  prepared_committed ←
    match q_leadership_check q with
    | Some chk =>
        t ← leadership chk;
        let prepared := map (fun kv => (kv.1, stamp t.1 t.2 kv.2)) values in
        c ← st_now (fun n => fenced_guarded_put_batch n LEASE_KEY t.1 t.2 guard_key
                      expected_guard (map (fun kv => (kv.1, encode kv.2)) prepared));
        mret (prepared, c)
    | None =>
        c ← st (guarded_put_batch guard_key expected_guard
                  (map (fun kv => (kv.1, encode kv.2)) values));
        mret (values, c)
    end;
  let '(prepared, committed) := prepared_committed in
  if negb (committed : bool)
  then raise (WorkQueueConflict "guard changed before durable publication commit")
  else forM_ (fun kv => r ← read_ kv.1;
                if bool_decide (r = Some kv.2) then mret tt
                else raise (WorkQueueError ("queue batch verification failed: " +:+ kv.1)))
         prepared.

Definition get_request (request_id : string) : M world (option dict) :=
  read_ (request_key request_id).
Definition get_task (task_id : string) : M world (option dict) := read_ (task_key task_id).

(** The records under a prefix that are still there when read. *)
Definition read_all (prefix : string) : M world (list dict) :=
  items ← st (list_ (prefix +:+ "/"));
  foldM (fun acc item => r ← read_ (os_key item);
           mret (match r with Some d => acc ++ [d] | None => acc end)) [] items.

Definition list_tasks : M world (list dict) :=
  records ← read_all TASKS_PREFIX; lift (sort_by_task_id records).

Definition get_membership (generation_id : string) : M world (option dict) :=
  read_ (membership_key generation_id).

Definition list_memberships : M world (list dict) :=
  records ← read_all MEMBERSHIP_PREFIX;
  keyed ← lift (res_map (fun d =>
    u ← get_int d "updated_at_ms" 0; g ← get_str d "generation_id" ""; Ok ((u, g), d)) records);
  mret (map snd (merge_sort member_le keyed)).

(** ** Membership *)

(** One entry of [current_workers]. *)
Definition observed_worker (worker : dict) : res (string * dict) :=
  agent_id ← req_str worker "agent_id";
  lease_id ← req_str worker "lease_id";
  let c := dget worker "capacity" (JInt 1) in
  capacity ← py_int (if truthy c then c else JInt 1);
  Ok (agent_id, mk_dict [("agent_id", JStr agent_id);
    ("lease_hash", JStr (sha256_hex lease_id)); ("capacity", JInt (Z.max 1 capacity))]).

Definition current_workers (workers : list dict) : res (gmap string dict) :=
  ws ← res_map observed_worker workers;
  Ok (foldl (fun m kw => <[kw.1 := kw.2]> m) ∅ ws).

(** [{**worker, "state": "active", "worker_fence": 1, ...}] *)
Definition joined_worker (now : Z) (worker : dict) : dict :=
  assign [("state", JStr "active"); ("worker_fence", JInt 1);
          ("joined_at_ms", JInt now); ("last_seen_ms", JInt now)] worker.

Definition membership_record (generation_id : string) (fence version : Z) (policy : string)
  (workers : gmap string json) (reason : string) (now : Z) : dict :=
  mk_dict [("version", JInt 1); ("generation_id", JStr generation_id);
    ("generation_fence", JInt fence); ("membership_version", JInt version);
    ("policy", JStr policy); ("workers", JObj workers); ("reassignment_count", JInt 0);
    ("last_change_reason", JStr reason); ("created_at_ms", JInt now);
    ("updated_at_ms", JInt now)].

Definition next_fence (prior : dict) : res Z :=
  f ← get_int prior "worker_fence" 0; Ok (f + 1).

(** A worker of the record that is observed again. *)
Definition refresh_worker (now : Z) (prior observed : dict) : res (dict * list string) :=
  ph ← get_str prior "lease_hash" "";
  oh ← req_str observed "lease_hash";
  same ← compare_digest ph oh;
  step ← (if negb same || negb (bool_decide (dget prior "state" JNull = JStr "active"))
          then f ← next_fence prior;
               Ok (assign [("worker_fence", JInt f); ("joined_at_ms", JInt now);
                           ("state", JStr "active")] prior, ["worker_rejoined"])
          else Ok (prior, []));
  let '(prior, reasons) := step in
  pc ← get_int prior "capacity" 1;
  oc ← req_int observed "capacity";
  let '(prior, reasons) :=
    if negb (pc =? oc)
    then (<["capacity" := JInt oc]> prior, reasons ++ ["capacity_changed"])
    else (prior, reasons) in
  Ok (assign [("lease_hash", JStr oh); ("last_seen_ms", JInt now)] prior, reasons).

(** The body of the loop over [sorted(allowed)]: what happens to one agent. *)
Definition reconcile_worker (now : Z) (prior observed : option dict)
  : res (option dict * list string) :=
  match prior, observed with
  | None, Some o => Ok (Some (joined_worker now o), ["worker_joined"])
  | None, None => Ok (None, [])
  | Some p, None =>
      if bool_decide (dget p "state" JNull = JStr "active")
      then f ← next_fence p;
           Ok (Some (assign [("state", JStr "departed"); ("worker_fence", JInt f);
                             ("last_seen_ms", JInt now)] p), ["worker_departed"])
      else Ok (Some p, [])
  | Some p, Some o => r ← refresh_worker now p o; Ok (Some r.1, r.2)
  end.

Fixpoint reconcile_loop (now : Z) (observed : gmap string dict) (agents : list string)
  (existing : gmap string dict) (reasons : list string)
  : res (gmap string dict * list string) :=
  match agents with
  | [] => Ok (existing, reasons)
  | a :: agents =>
      r ← reconcile_worker now (existing !! a) (observed !! a);
      reconcile_loop now observed agents
        (match r.1 with Some w => <[a := w]> existing | None => existing end)
        (reasons ++ r.2)
  end.

Definition obj_values (d : gmap string dict) : gmap string json := JObj <$> d.

(** The workers of a stored membership, as copies. *)
Definition stored_workers (membership : dict) : res (gmap string dict) :=
  ws ← get_dict membership "workers";
  kvs ← res_map (fun kv : string * json => d ← as_obj kv.2; Ok (kv.1, d)) (map_to_list ws);
  Ok (list_to_map kvs).

Definition sorted_keys (m : gset string) : list string := merge_sort str_le (elements m).

(** The update of an existing membership record. *)
Definition reconciled (membership : dict) (current : gmap string dict) (policy : string)
  (now : Z) : res dict :=
  existing ← stored_workers membership;
  let allowed := if String.eqb policy "elastic" then dom existing ∪ dom current
                 else dom existing in
  r ← reconcile_loop now current (sorted_keys allowed) existing [];
  let membership := assign [("workers", JObj (obj_values r.1)); ("updated_at_ms", JInt now)]
                      membership in
  if bool_decide (r.2 = []) then Ok membership
  else v ← get_int membership "membership_version" 0;
       Ok (assign [("membership_version", JInt (v + 1));
                   ("last_change_reason",
                    JStr (join "," (merge_sort str_le (remove_dups r.2))))] membership).

Definition reconcile_membership (generation_id : string) (generation_fence : Z)
  (workers : list dict) (policy : string) (now : option Z) : M world dict :=
  now ← now_or now;
  let policy := lower (strip policy) in
  if negb (bool_decide (policy ∈ ["fixed"; "elastic"]))
  then raise (ValueError "membership policy must be 'fixed' or 'elastic'")
  else
    current ← lift (current_workers workers);
    let key := membership_key generation_id in
    found ← read_ key;
    match found with
    | None =>
        if bool_decide (current = ∅)
        then mret (membership_record generation_id generation_fence 0 policy ∅
                     "waiting_for_workers" now)
        else
          let membership := membership_record generation_id generation_fence 1 policy
            (obj_values (joined_worker now <$> current)) "initialized" now in
          write_ key membership;; mret membership
    | Some membership =>
        gid ← lift (py_str (dget membership "generation_id" JNull));
        fence ← lift (get_int membership "generation_fence" (-1));
        if negb (String.eqb gid generation_id) || negb (fence =? generation_fence)
        then raise (WorkQueueConflict "membership belongs to another generation")
        else
          pol ← lift (py_str (dget membership "policy" JNull));
          if negb (String.eqb pol policy)
          then raise (WorkQueueConflict
                        "membership policy cannot change during an active generation")
          else
            membership ← lift (reconciled membership current policy now);
            write_ key membership;; mret membership
    end.

(** [bool(worker and worker.get("state") == "active" and compare_digest(...) and ...)] *)
Definition worker_matches (worker : option json) (lease_hash : string) (fence : res Z)
  : res bool :=
  match worker with
  | Some v =>
      if truthy v then
        w ← as_obj v;
        if bool_decide (dget w "state" JNull = JStr "active") then
          h ← get_str w "lease_hash" "";
          same ← compare_digest h lease_hash;
          if (same : bool) then f ← get_int w "worker_fence" (-1); g ← fence; Ok (f =? g)
          else Ok false
        else Ok false
      else Ok false
  | None => Ok false
  end.

(** Whether a claimed task's holder is still the registered worker. *)
Definition claim_still_valid (workers claim : dict) : res bool :=
  agent ← get_str claim "agent_id" "";
  hash ← get_str claim "agent_lease_hash" "";
  worker_matches (workers !! agent) hash (get_int claim "worker_fence" (-2)).

Definition reassigned_task (now : Z) (task : dict) : res dict :=
  rev ← get_int task "revision" 0;
  count ← get_int task "reassignment_count" 0;
  Ok (assign [("state", js TASK_RETRY_WAIT); ("claim", JNull); ("available_at_ms", JInt now);
              ("last_error", JStr "worker_membership_fenced"); ("updated_at_ms", JInt now);
              ("revision", JInt (rev + 1)); ("reassignment_count", JInt (count + 1))] task).

Definition reassign_one (generation_id : string) (workers : dict) (now count : Z) (task : dict)
  : M world Z :=
  payload ← lift (get_dict task "task");
  skip ← lift (if bool_decide (dget task "state" JNull = js TASK_CLAIMED)
               then g ← get_str payload "generation_id" ""; Ok (negb (String.eqb g generation_id))
               else Ok true);
  if (skip : bool) then mret count else
  claim ← lift (get_dict task "claim");
  valid ← lift (claim_still_valid workers claim);
  if (valid : bool) then mret count else
  task ← lift (reassigned_task now task);
  tid ← lift (task_id_of task);
  write_ (task_key tid) task;; mret (count + 1).

Definition reassign_fenced_claims (generation_id : string) (membership : dict)
  (now : option Z) : M world Z :=
  now ← now_or now;
  workers ← lift (get_dict membership "workers");
  tasks ← list_tasks;
  reassigned ← foldM (reassign_one generation_id workers now) 0 tasks;
  if truthy_int reassigned then
    c ← lift (get_int membership "reassignment_count" 0);
    write_ (membership_key generation_id)
      (assign [("reassignment_count", JInt (c + reassigned)); ("updated_at_ms", JInt now);
               ("last_change_reason", JStr "unfinished_work_reassigned")] membership);;
    mret reassigned
  else mret reassigned.

(** ** Requests *)

(** A set of strings that must have at most one element. *)
Definition singleton_or_empty (l : list string) : option string :=
  match remove_dups l with [] => Some "" | [x] => Some x | _ => None end.

(** The tenant of the tasks, or [None] if they span several. *)
Definition request_tenant (tasks : list materialize_task) : option string :=
  let tenants := filter nonempty_str (map mt_tenant_id tasks) in
  match singleton_or_empty tenants with
  | None => None
  | Some t =>
      if negb (bool_decide (tenants = []))
         && existsb (fun t => negb (truthy_str (mt_tenant_id t))) tasks
      then None else Some t
  end.

Definition dataset_ids (tasks : list materialize_task) : list string :=
  map (fun t => mt_connection_id t +:+ "::" +:+ mt_source_table t)
    (filter (fun t => mt_connection_id t <> "" /\ mt_source_table t <> "") tasks).

Definition request_identity (table : string) (epoch : Z) (generation_id : string)
  (generation_fence : Z) (plan_sha256 tenant_id : string) : string :=
  join "|" ([table; pretty epoch; generation_id; pretty generation_fence; plan_sha256]
            ++ if truthy_str tenant_id then [tenant_id] else []).

Definition new_task_id (request_id : string) (task : materialize_task) : string :=
  sha256_hex (request_id +:+ "|" +:+ pretty (mt_split_index task) +:+ "|"
              +:+ mt_output_key task).

(** [replace(task, task_id=..., request_id=..., ...)] *)
Definition bound_task (task : materialize_task) (task_id request_id generation_id : string)
  (generation_fence : Z) (plan_sha256 : string) (deadline_ms : Z) : materialize_task :=
  MaterializeTask (mt_table task) (mt_epoch task) (mt_split_index task) (mt_source_table task)
    (mt_output_key task) (mt_schema task) (mt_range task) task_id request_id
    (mt_claim_token task) (mt_attempt task) (mt_claim_expires_at_ms task)
    (mt_connection_id task) (mt_connection_fingerprint task) generation_id generation_fence
    plan_sha256 (mt_table_format task) deadline_ms (mt_num_splits task) (mt_key_column task)
    (mt_split_strategy task) (mt_membership_version task) (mt_worker_fence task)
    (mt_tenant_id task).

Definition new_task_record (task_id request_id : string) (payload : dict) (created_at : Z)
  : dict :=
  mk_dict [("version", JInt 1); ("task_id", JStr task_id); ("request_id", JStr request_id);
    ("state", js TASK_QUEUED); ("attempt", JInt 0); ("max_attempts", JInt (q_max_attempts q));
    ("available_at_ms", JInt created_at); ("claim", JNull); ("task", JObj payload);
    ("result", JNull); ("last_error", JStr ""); ("created_at_ms", JInt created_at);
    ("updated_at_ms", JInt created_at); ("revision", JInt 1)].

Definition new_request_record (request_id identity requested_key table : string) (epoch : Z)
  (table_format dataset_id tenant_id generation_id : string) (generation_fence : Z)
  (plan_sha256 : string) (deadline_ms : Z) (task_ids : list string) (created_at : Z) : dict :=
  mk_dict [("version", JInt 1); ("request_id", JStr request_id);
    ("idempotency_key", JStr (sha256_hex identity)); ("requested_key", JStr requested_key);
    ("table", JStr table); ("epoch", JInt epoch); ("table_format", JStr table_format);
    ("dataset_id", JStr dataset_id); ("tenant_id", JStr tenant_id);
    ("generation_id", JStr generation_id); ("generation_fence", JInt generation_fence);
    ("plan_sha256", JStr plan_sha256); ("deadline_ms", JInt deadline_ms);
    ("task_ids", JList (map JStr task_ids)); ("state", js TASK_QUEUED);
    ("published", JBool false); ("snapshot_key", JStr ""); ("error", JStr "");
    ("created_at_ms", JInt created_at); ("updated_at_ms", JInt created_at);
    ("ready", JBool false)].

Definition create_request (requested_key table : string) (epoch : Z) (table_format : string)
  (generation_id : string) (generation_fence : Z) (plan_sha256 : string)
  (tasks : list materialize_task) (deadline_ms : Z) : M world dict :=
  match request_tenant tasks with
  | None => raise (WorkQueueConflict "materialization request spans multiple tenants")
  | Some tenant_id =>
      let identity := request_identity table epoch generation_id generation_fence plan_sha256
                        tenant_id in
      let request_id := sha256_hex identity in
      let id_key := idempotency_key identity in
      existing_id ← read_ id_key;
      match existing_id with
      | Some e =>
          rid ← lift (req_str e "request_id");
          request ← get_request rid;
          match request with
          | None => raise (WorkQueueError "idempotency record points to a missing request")
          | Some r => mret r
          end
      | None =>
          created_at ← now_ms;
          match singleton_or_empty (dataset_ids tasks) with
          | None => raise (WorkQueueConflict "materialization request spans multiple datasets")
          | Some dataset_id =>
              let records := map (fun t =>
                let tid := new_task_id request_id t in
                (tid, new_task_record tid request_id
                        (materialize_task_to_dict
                           (bound_task t tid request_id generation_id generation_fence
                              plan_sha256 deadline_ms)) created_at)) tasks in
              let request := new_request_record request_id identity requested_key table epoch
                table_format dataset_id tenant_id generation_id generation_fence plan_sha256
                deadline_ms (map fst records) created_at in
              write_ (request_key request_id) request;;
              forM_ (fun r => write_ (task_key r.1) r.2) records;;
              let request := <["ready" := JBool true]> request in
              write_ (request_key request_id) request;;
              write_ id_key (mk_dict [("version", JInt 1); ("request_id", JStr request_id)]);;
              mret request
          end
      end
  end.

(** [request.get("task_ids", [])], used as path components. *)
Definition task_ids_of (request : dict) : res (list string) :=
  l ← get_list request "task_ids"; res_map as_str l.

Definition task_ids_req (request : dict) : res (list string) :=
  v ← dget_req request "task_ids"; task_ids_of request.

(** The records of the listed tasks that exist. *)
Definition get_tasks (ids : list string) : M world (list dict) :=
  foldM (fun acc i => t ← get_task i;
           mret (match t with Some d => acc ++ [d] | None => acc end)) [] ids.

Definition cancelled_task (now : Z) (reason : string) (task : dict) : res dict :=
  rev ← bump task;
  Ok (assign [("state", js TASK_CANCELLED); ("claim", JNull); ("last_error", JStr reason);
              ("updated_at_ms", JInt now); ("revision", JInt rev)] task).

(** The inner loop of [_refresh_requests] over a failed request's tasks. *)
Definition cancel_sibling (now : Z) (task : dict) : M world unit :=
  state ← lift (dget_req task "state");
  if in_terminal state then mret tt
  else task ← lift (cancelled_task now "request_failed" task);
       tid ← lift (task_id_of task);
       write_ (task_key tid) task.

(** The state of a request as a function of its tasks' states. *)
Definition has_state (states : list json) (s : task_state) : bool :=
  bool_decide (js s ∈ states).

Definition refresh_request (now : Z) (item : object_stat) : M world unit :=
  found ← read_ (os_key item);
  match found with
  | None => mret tt
  | Some request =>
      if truthy (dget request "published" JNull) || in_terminal (dget request "state" JNull)
      then mret tt
      else
        ids ← lift (task_ids_of request);
        tasks ← get_tasks ids;
        states ← lift (res_map (fun t => v ← dget_req t "state";
                                  _ ← in_set v []; Ok v) tasks);
        request ←
          (if negb (bool_decide (tasks = [])) && forallb (fun v => bool_decide (v = js TASK_SUCCEEDED)) states
           then mret (<["state" := js TASK_SUCCEEDED]> request)
           else if has_state states TASK_FAILED then
             let error := match filter (fun t => dget t "state" JNull = js TASK_FAILED) tasks with
                          | failed :: _ => dget failed "last_error" (JStr "")
                          | [] => JStr ""
                          end in
             forM_ (cancel_sibling now) tasks;;
             mret (assign [("state", js TASK_FAILED); ("error", error)] request)
           else if has_state states TASK_CLAIMED
           then mret (<["state" := js TASK_CLAIMED]> request)
           else if has_state states TASK_RETRY_WAIT
           then mret (<["state" := js TASK_RETRY_WAIT]> request)
           else mret (<["state" := js TASK_QUEUED]> request));
        write_ (os_key item) (<["updated_at_ms" := JInt now]> request)
  end.

(** [_refresh_requests] *)
Definition refresh_requests (now : Z) : M world unit :=
  items ← st (list_ (REQUESTS_PREFIX +:+ "/"));
  forM_ (refresh_request now) items.

(** ** Expiry and dispatch *)

Definition deadline_failed (now : Z) (task : dict) : res dict :=
  rev ← bump task;
  Ok (assign [("state", js TASK_FAILED); ("last_error", JStr "deadline_expired");
              ("updated_at_ms", JInt now); ("revision", JInt rev)] task).

Definition expired_task (now deadline : Z) (task : dict) : res dict :=
  rev ← bump task;
  Ok (assign [("available_at_ms", JInt now); ("claim", JNull);
              ("last_error", JStr (if past deadline now then "deadline_expired"
                                   else "claim_expired"));
              ("updated_at_ms", JInt now); ("revision", JInt rev);
              ("state", js TASK_EXPIRED)] task).

Definition settled_task (target : task_state) (task : dict) : res dict :=
  rev ← bump task;
  Ok (assign [("state", js target); ("revision", JInt rev)] task).

(** [TASK_FAILED if attempts are used up or the deadline passed else TASK_QUEUED] *)
Definition exhausted (deadline now : Z) (task : dict) : res bool :=
  a ← req_int task "attempt"; m ← req_int task "max_attempts";
  Ok ((m <=? a) || past deadline now).

Definition expire_one (now count : Z) (task : dict) : M world Z :=
  claim ← lift (get_dict task "claim");
  deadline ← lift (deadline_of task);
  state ← lift (dget_req task "state");
  waiting ← lift (in_set state [TASK_QUEUED; TASK_RETRY_WAIT]);
  if (waiting : bool) && past deadline now then
    task ← lift (deadline_failed now task);
    tid ← lift (task_id_of task);
    write_ (task_key tid) task;; mret (count + 1)
  else if bool_decide (state = js TASK_CLAIMED) then
    expires ← lift (get_int claim "expires_at_ms" 0);
    if (expires <=? now) || past deadline now then
      failed ← lift (exhausted deadline now task);
      let target := if (failed : bool) then TASK_FAILED else TASK_QUEUED in
      tid ← lift (task_id_of task);
      task ← lift (expired_task now deadline task);
      write_ (task_key tid) task;;
      task ← lift (settled_task target task);
      write_ (task_key tid) task;; mret (count + 1)
    else mret count
  else mret count.

Definition expire_claims (now : option Z) : M world Z :=
  now ← now_or now;
  tasks ← list_tasks;
  expired ← foldM (expire_one now) 0 tasks;
  refresh_requests now;;
  mret expired.

(** [task["state"] not in {...} or int(task.get("available_at_ms", 0)) > now] *)
Definition not_runnable (now : Z) (task : dict) : res bool :=
  state ← dget_req task "state";
  waiting ← in_set state [TASK_QUEUED; TASK_RETRY_WAIT];
  if (waiting : bool) then a ← get_int task "available_at_ms" 0; Ok (now <? a) else Ok true.

Definition runnable_tasks (now : option Z) (tasks : option (list dict)) (expire : bool)
  : M world (list dict) :=
  now ← now_or now;
  (if expire then expire_claims (Some now);; mret tt else mret tt);;
  tasks ← match tasks with Some l => mret l | None => list_tasks end;
  foldM (fun acc task =>
    skip ← lift (not_runnable now task);
    if (skip : bool) then mret acc else
    rid ← lift (get_str task "request_id" "");
    request ← get_request rid;
    mret (match request with
          | Some r => if get_bool r "ready" true then acc ++ [task] else acc
          | None => acc
          end)) [] tasks.

Definition set_dispatch_status (task_id reason : string) : M world bool :=
  now ← now_ms;
  found ← get_task task_id;
  match found with
  | None => mret false
  | Some task =>
      state ← lift (dget_req task "state");
      waiting ← lift (in_set state [TASK_QUEUED; TASK_RETRY_WAIT]);
      if negb (waiting : bool) then mret false else
      current ← lift (get_str task "dispatch_status" "");
      if String.eqb current reason then mret false else
      let task := if truthy_str reason then <["dispatch_status" := JStr reason]> task
                  else delete "dispatch_status" task in
      rev ← lift (bump task);
      write_ (task_key task_id)
        (assign [("updated_at_ms", JInt now); ("revision", JInt rev)] task);;
      mret true
  end.

(** ** Recovery *)

(** The tasks of [ids] that no longer exist. *)
Definition missing_tasks (ids : list string) : M world (list string) :=
  foldM (fun acc i => t ← get_task i;
           mret (match t with Some _ => acc | None => acc ++ [i] end)) [] ids.

(** A request that was completely created: its index entry is rewritten. *)
Definition recover_ready (request_id : string) (request : dict) : M world unit :=
  ids ← lift (task_ids_of request);
  missing ← missing_tasks ids;
  (if negb (bool_decide (missing = [])) then
     now ← now_ms;
     write_ (request_key request_id)
       (assign [("state", js TASK_FAILED); ("error", JStr "missing_task_record");
                ("updated_at_ms", JInt now)] request)
   else mret tt);;
  digest ← lift (req_str request "idempotency_key");
  write_ (idempotency_file digest)
    (mk_dict [("version", JInt 1); ("request_id", JStr request_id)]).

(** An incomplete create: its tasks, the request and the index entry go. *)
Definition recover_incomplete (request_id : string) (request : dict) : M world Z :=
  ids ← lift (task_ids_of request);
  removed ← foldM (fun n i => d ← delete_rec (task_key i);
                     mret (if (d : bool) then n + 1 else n)) 0 ids;
  delete_rec (request_key request_id);;
  digest ← lift (req_str request "idempotency_key");
  delete_rec (idempotency_file digest);;
  mret removed.

Definition delete_results (task_id : string) : M world unit :=
  items ← st (list_ (results_dir task_id));
  forM_ (fun r => delete_rec (os_key r);; mret tt) items.

(** The loop over the tasks: orphans go, interrupted expiries are settled.
    [_now_ms()] is read for the deadline only when one is set. *)
Definition recover_task (live : list string) (removed : Z) (task : dict) : M world Z :=
  rid ← lift (get_str task "request_id" "");
  tid ← lift (task_id_of task);
  if negb (bool_decide (rid ∈ live)) then
    delete_results tid;;
    d ← delete_rec (task_key tid);
    mret (if (d : bool) then removed + 1 else removed)
  else
    state ← lift (dget_req task "state");
    if bool_decide (state = js TASK_EXPIRED) then
      deadline ← lift (deadline_of task);
      a ← lift (req_int task "attempt"); m ← lift (req_int task "max_attempts");
      failed ← (if m <=? a then mret true
                else if truthy_int deadline
                then n ← now_ms; mret (deadline <=? n) else mret false);
      n1 ← now_ms; n2 ← now_ms;
      rev ← lift (bump task);
      write_ (task_key tid)
        (assign [("state", js (if (failed : bool) then TASK_FAILED else TASK_QUEUED));
                 ("available_at_ms", JInt n1); ("updated_at_ms", JInt n2);
                 ("revision", JInt rev)] task);;
      mret removed
    else mret removed.

(** [requests]: the last record read for each request id, in reading order. *)
Definition request_index (records : list dict) : res (list (string * dict)) :=
  keyed ← res_map (fun r => i ← req_str r "request_id"; Ok (i, r)) records;
  Ok (foldl (fun acc kr =>
        if bool_decide (kr.1 ∈ map fst acc)
        then map (fun x => if String.eqb x.1 kr.1 then kr else x) acc
        else acc ++ [kr]) [] keyed).

Definition recover : M world (Z * Z * Z) :=
  records ← read_all REQUESTS_PREFIX;
  requests ← lift (request_index records);
  r ← foldM (fun acc kr =>
        let '(live, removed_requests, removed_tasks) := acc in
        if get_bool kr.2 "ready" true
        then recover_ready kr.1 kr.2;; mret (live ++ [kr.1], removed_requests, removed_tasks)
        else n ← recover_incomplete kr.1 kr.2;
             mret (live, removed_requests + 1, removed_tasks + n))
      ([], 0, 0) requests;
  let '(live, removed_requests, removed_tasks) := r in
  tasks ← list_tasks;
  removed_tasks ← foldM (recover_task live) removed_tasks tasks;
  expired ← expire_claims None;
  mret (removed_requests, removed_tasks, expired).

(** ** Claims *)

(** [min(now + duration * 1000, deadline or now + duration * 1000)] *)
Definition claim_expiry (now duration deadline : Z) : Z :=
  Z.min (now + duration * 1000) (int_or deadline (now + duration * 1000)).

Definition new_claim (agent_id agent_lease_id claim_token manager_owner : string)
  (manager_fence membership_version worker_fence now expires_at : Z) (staging : string)
  (duration : Z) : dict :=
  mk_dict [("agent_id", JStr agent_id); ("agent_lease_hash", JStr (sha256_hex agent_lease_id));
    ("claim_token", JStr claim_token); ("claimed_at_ms", JInt now);
    ("expires_at_ms", JInt expires_at); ("manager_owner", JStr manager_owner);
    ("manager_fence", JInt manager_fence); ("membership_version", JInt membership_version);
    ("worker_fence", JInt worker_fence); ("staging_key", JStr staging);
    ("lease_seconds", JInt duration)].

(** [replace(task_payload, output_key=..., claim_token=..., ...)] *)
Definition claimed_payload (t : materialize_task) (output_key claim_token : string)
  (attempt expires_at membership_version worker_fence : Z) : materialize_task :=
  MaterializeTask (mt_table t) (mt_epoch t) (mt_split_index t) (mt_source_table t)
    output_key (mt_schema t) (mt_range t) (mt_task_id t) (mt_request_id t) claim_token attempt
    expires_at (mt_connection_id t) (mt_connection_fingerprint t) (mt_generation_id t)
    (mt_generation_fence t) (mt_plan_sha256 t) (mt_table_format t) (mt_deadline_ms t)
    (mt_num_splits t) (mt_key_column t) (mt_split_strategy t) membership_version worker_fence
    (mt_tenant_id t).

(** [MaterializeTask.from_dict(task["task"])] *)
Definition payload_of (task : dict) : res materialize_task :=
  v ← dget_req task "task"; d ← as_obj v; materialize_task_from_dict d.

(** The write that turns a task due for retry back into a queued one. *)
Definition requeue_waiting (task_id : string) (now : Z) (task : dict) : M world dict :=
  state ← lift (dget_req task "state");
  if bool_decide (state = js TASK_RETRY_WAIT) then
    rev ← lift (bump task);
    let task := assign [("state", js TASK_QUEUED); ("updated_at_ms", JInt now);
                        ("revision", JInt rev)] task in
    write_ (task_key task_id) task;; mret task
  else mret task.

Definition claimed_task (attempt now : Z) (claim : dict) (task : dict) : res dict :=
  rev ← bump task;
  Ok (assign [("state", js TASK_CLAIMED); ("attempt", JInt attempt); ("claim", JObj claim);
              ("updated_at_ms", JInt now); ("revision", JInt rev)]
             (delete "dispatch_status" task)).

Definition claim_task (task_id agent_id agent_lease_id manager_owner : string)
  (manager_fence membership_version worker_fence : Z) (now lease_seconds : option Z)
  : M world materialize_task :=
  let duration := default (q_task_lease_seconds q) lease_seconds in
  if duration <? 1 then raise (ValueError "claim lease_seconds must be a positive integer")
  else
    now ← now_or now;
    found ← get_task task_id;
    match found with
    | None => raise (WorkQueueError "unknown task")
    | Some task =>
        state ← lift (dget_req task "state");
        waiting ← lift (in_set state [TASK_QUEUED; TASK_RETRY_WAIT]);
        if negb (waiting : bool) then raise (WorkQueueConflict "task cannot be claimed") else
        available ← lift (get_int task "available_at_ms" 0);
        if now <? available then raise (WorkQueueConflict "task is not available yet") else
        task ← requeue_waiting task_id now task;
        prev ← lift (req_int task "attempt");
        let attempt := prev + 1 in
        claim_token ← fresh_token;
        deadline ← lift (deadline_of task);
        let expires_at := claim_expiry now duration deadline in
        payload ← lift (payload_of task);
        let staging := staging_key (mt_output_key payload) (mt_generation_id payload) task_id
                         attempt claim_token in
        task ← lift (claimed_task attempt now
          (new_claim agent_id agent_lease_id claim_token manager_owner manager_fence
             membership_version worker_fence now expires_at staging duration) task);
        write_ (task_key task_id) task;;
        mret (claimed_payload payload staging claim_token attempt expires_at
                membership_version worker_fence)
    end.

(** The conjunction [renew_agent_claims] tests. *)
Definition renewable (agent_id lease_hash : string) (now : Z) (task claim : dict) : res bool :=
  state ← dget_req task "state";
  if bool_decide (state = js TASK_CLAIMED) then
    e ← get_int claim "expires_at_ms" 0;
    if (now <? e) && bool_decide (dget claim "agent_id" JNull = JStr agent_id)
    then h ← get_str claim "agent_lease_hash" ""; compare_digest h lease_hash
    else Ok false
  else Ok false.

(** [claim] is the object inside [task], so extending it changes the task. *)
Definition renewed_task (now : Z) (task claim : dict) : res dict :=
  duration ← get_int claim "lease_seconds" (q_task_lease_seconds q);
  deadline ← deadline_of task;
  rev ← bump task;
  Ok (assign [("claim", JObj (<["expires_at_ms" := JInt (claim_expiry now duration deadline)]>
                                claim));
              ("updated_at_ms", JInt now); ("revision", JInt rev)] task).

Definition renew_one (agent_id lease_hash : string) (now renewed : Z) (task_id : string)
  : M world Z :=
  found ← get_task task_id;
  match found with
  | None => mret renewed
  | Some task =>
      claim ← lift (get_dict task "claim");
      ok ← lift (renewable agent_id lease_hash now task claim);
      if (ok : bool) then
        task ← lift (renewed_task now task claim);
        write_ (task_key task_id) task;; mret (renewed + 1)
      else mret renewed
  end.

(** The set of task ids is visited in some order; [task_ids] lists it. *)
Definition renew_agent_claims (agent_id agent_lease_id : string) (task_ids : list string)
  (now : option Z) : M world Z :=
  now ← now_or now;
  foldM (renew_one agent_id (sha256_hex agent_lease_id) now) 0 (remove_dups task_ids).

Definition retry_waiting_task (now : Z) (reason : string) (task : dict) : res dict :=
  rev ← bump task;
  Ok (assign [("state", js TASK_RETRY_WAIT); ("claim", JNull); ("available_at_ms", JInt now);
              ("last_error", JStr reason); ("updated_at_ms", JInt now);
              ("revision", JInt rev)] task).

Definition release_claim (task_id claim_token reason : string) : M world bool :=
  now ← now_ms;
  found ← get_task task_id;
  match found with
  | None => mret false
  | Some task =>
      state ← lift (dget_req task "state");
      if negb (bool_decide (state = js TASK_CLAIMED)) then mret false else
      claim ← lift (get_dict task "claim");
      held ← lift (get_str claim "claim_token" "");
      same ← lift (compare_digest held claim_token);
      if negb (same : bool) then mret false else
      task ← lift (retry_waiting_task now (safe_error reason) task);
      write_ (task_key task_id) task;;
      refresh_requests now;;
      mret true
  end.

Definition cancel_one (now : Z) (reason : string) (task_id : string) : M world unit :=
  found ← get_task task_id;
  match found with
  | None => mret tt
  | Some task =>
      if negb (truthy (JObj task)) then mret tt else
      state ← lift (dget_req task "state");
      if in_terminal state then mret tt else
      task ← lift (cancelled_task now reason task);
      write_ (task_key task_id) task
  end.

Definition cancel_request (request_id reason : string) : M world bool :=
  now ← now_ms;
  found ← get_request request_id;
  match found with
  | None => mret false
  | Some request =>
      ids ← lift (task_ids_req request);
      forM_ (cancel_one now (safe_error reason)) ids;;
      write_ (request_key request_id)
        (assign [("state", js TASK_CANCELLED); ("error", JStr (safe_error reason));
                 ("updated_at_ms", JInt now)] request);;
      mret true
  end.

(** The reset of [retry_task]. *)
Definition retried_task (now deadline : Z) (task : dict) : res dict :=
  v ← dget_req task "task"; payload ← as_obj v;
  rev ← bump task;
  Ok (assign [("state", js TASK_QUEUED); ("attempt", JInt 0); ("available_at_ms", JInt now);
              ("claim", JNull); ("result", JNull); ("last_error", JStr "");
              ("task", JObj (<["deadline_ms" := JInt deadline]> payload));
              ("updated_at_ms", JInt now); ("revision", JInt rev)] task).

Definition retry_task (task_id : string) : M world bool :=
  now ← now_ms;
  found ← get_task task_id;
  match found with
  | None => mret false
  | Some task =>
      state ← lift (dget_req task "state");
      if negb (bool_decide (state = js TASK_FAILED)) then mret false else
      rid ← lift (req_str task "request_id");
      found ← get_request rid;
      match found with
      | None => mret false
      | Some request =>
          if truthy (dget request "published" JNull) then mret false else
          d ← lift (get_int request "deadline_ms" 0);
          c ← lift (get_int request "created_at_ms" 0);
          let deadline := now + Z.max 1000 (d - c) in
          delete_results task_id;;
          task ← lift (retried_task now deadline task);
          write_ (task_key task_id) task;;
          rid' ← lift (req_str request "request_id");
          write_ (request_key rid')
            (assign [("state", js TASK_QUEUED); ("error", JStr "");
                     ("deadline_ms", JInt deadline); ("updated_at_ms", JInt now)] request);;
          mret true
      end
  end.

(** Whether a claim belongs to the given leadership term. *)
Definition claim_of_term (manager_owner : string) (manager_fence : Z) (claim : dict)
  : res bool :=
  if bool_decide (dget claim "manager_owner" JNull = JStr manager_owner)
  then f ← get_int claim "manager_fence" (-1); Ok (f =? manager_fence)
  else Ok false.

Definition fence_one (manager_owner : string) (manager_fence now fenced : Z) (task : dict)
  : M world Z :=
  claim ← lift (get_dict task "claim");
  state ← lift (dget_req task "state");
  if negb (bool_decide (state = js TASK_CLAIMED)) then mret fenced else
  ours ← lift (claim_of_term manager_owner manager_fence claim);
  if (ours : bool) then mret fenced else
  task ← lift (retry_waiting_task now "manager_fenced" task);
  tid ← lift (task_id_of task);
  write_ (task_key tid) task;; mret (fenced + 1).

Definition fence_claims (manager_owner : string) (manager_fence : Z) : M world Z :=
  now ← now_ms;
  tasks ← list_tasks;
  fenced ← foldM (fence_one manager_owner manager_fence now) 0 tasks;
  (if truthy_int fenced then refresh_requests now else mret tt);;
  mret fenced.

(** ** Results *)

Definition nack (state reason : string) : ack := Ack false state false false reason.

(** [str(v) in TASK_TERMINAL_STATES] *)
Definition terminal_name (s : string) : bool := in_terminal (JStr s).

(** The comparison of a resent result with the saved one. *)
Definition same_result (saved : dict) (r : task_result) : res bool :=
  if negb (bool_decide (dget saved "agent_id" JNull = JStr (rs_agent_id r))) then Ok false else
  attempt ← get_int saved "attempt" (-1);
  if negb (attempt =? rs_attempt r) then Ok false else
  size ← get_int saved "size_bytes" 0;
  if negb (size =? rs_size_bytes r) then Ok false else
  count ← get_int saved "record_count" 0;
  if negb (count =? rs_record_count r) then Ok false else
  hash ← get_str saved "content_hash" "";
  if negb (String.eqb hash (rs_content_hash r)) then Ok false else
  etag ← get_str saved "s3_etag" "";
  if negb (String.eqb etag (rs_s3_etag r)) then Ok false else
  code ← get_str saved "error_code" "";
  if negb (String.eqb code (rs_error_code r)) then Ok false else
  mv ← get_int saved "membership_version" 0;
  if negb (mv =? rs_membership_version r) then Ok false else
  wf ← get_int saved "worker_fence" 0;
  Ok (wf =? rs_worker_fence r).

(** The reply to a result whose attempt already has a saved result. *)
Definition duplicate_reply (prior : dict) (r : task_result) (agent_lease_id : string)
  : res ack :=
  prior_hash ← get_str prior "agent_lease_hash" "";
  state ← get_str prior "state" "";
  other ← (if truthy_str prior_hash
           then same ← compare_digest prior_hash (sha256_hex agent_lease_id); Ok (negb same)
           else Ok false);
  if (other : bool) then Ok (Ack false state false (terminal_name state) RESULT_STALE_CLAIM)
  else
    saved ← get_dict prior "result";
    same ← same_result saved r;
    Ok (Ack same state same (terminal_name state)
          (if same then RESULT_DUPLICATE else RESULT_CONFLICT)).

(** The reply to a result for a task that already succeeded. *)
Definition succeeded_reply (accepted : dict) (r : task_result) : res ack :=
  same ←
    (if negb (bool_decide (dget accepted "content_hash" JNull = JStr (rs_content_hash r)))
     then Ok false else
     size ← get_int accepted "size_bytes" (-1);
     if negb (size =? rs_size_bytes r) then Ok false else
     count ← get_int accepted "record_count" (-1);
     if negb (count =? rs_record_count r) then Ok false else
     etag ← get_str accepted "s3_etag" "";
     Ok (String.eqb etag (rs_s3_etag r)));
  Ok (Ack same (state_str TASK_SUCCEEDED) same true
        (if same then RESULT_DUPLICATE else RESULT_CONFLICT)).

(** The claim checks, in order: [Some ack] is the refusal. *)
Definition check_claim (task claim : dict) (r : task_result) (agent_lease_id : string)
  : res (option ack) :=
  let claimed := state_str TASK_CLAIMED in
  state ← dget_req task "state";
  token_ok ← (if bool_decide (state = js TASK_CLAIMED)
              then t ← get_str claim "claim_token" ""; compare_digest t (rs_claim_token r)
              else Ok false);
  if negb token_ok then
    s ← py_str state;
    Ok (Some (Ack false s false (in_terminal state) RESULT_STALE_CLAIM))
  else if negb (bool_decide (dget claim "agent_id" JNull = JStr (rs_agent_id r)))
  then Ok (Some (nack claimed RESULT_WRONG_OWNER))
  else
    attempt ← req_int task "attempt";
    if negb (rs_attempt r =? attempt) then Ok (Some (nack claimed RESULT_STALE_CLAIM)) else
    h ← get_str claim "agent_lease_hash" "";
    lease_ok ← compare_digest h (sha256_hex agent_lease_id);
    if negb lease_ok then Ok (Some (nack claimed RESULT_STALE_CLAIM)) else
    mv ← get_int claim "membership_version" 0;
    fenced ← (if mv =? rs_membership_version r
              then wf ← get_int claim "worker_fence" 0; Ok (negb (wf =? rs_worker_fence r))
              else Ok true);
    if (fenced : bool) then Ok (Some (nack claimed RESULT_STALE_CLAIM)) else Ok None.

(** The membership check of the reporting worker. *)
Definition check_membership (membership : option dict) (r : task_result)
  (agent_lease_id : string) : res (option ack) :=
  match membership with
  | None => Ok None
  | Some m =>
      workers ← get_dict m "workers";
      ok ← worker_matches (workers !! rs_agent_id r) (sha256_hex agent_lease_id)
             (Ok (rs_worker_fence r));
      Ok (if (ok : bool) then None
          else Some (nack (state_str TASK_CLAIMED) RESULT_STALE_CLAIM))
  end.

(** [_verify_output]: [None] when the staged object is what was reported. *)
Definition verify_output (output_key : string) (r : task_result) : M world (option string) :=
  stat ← st (head output_key);
  match stat with
  | None => mret (Some "size_mismatch")
  | Some stat =>
      if negb (os_size stat =? rs_size_bytes r) then mret (Some "size_mismatch") else
      ok ← st (verify output_key (rs_size_bytes r) (rs_content_hash r));
      if negb (ok : bool) then mret (Some "output_verification_failed") else
      if negb (String.length (rs_s3_etag r) =? 32)%nat
         || negb (str_forallb is_hex (rs_s3_etag r))
      then mret (Some "invalid_s3_etag") else
      data ← st (get output_key 0 None);
      match parquet_num_rows data with
      | None => mret (Some "invalid_parquet")
      | Some n =>
          if negb (n =? rs_record_count r) then mret (Some "row_count_mismatch")
          else mret None
      end
  end.

Definition success_record (r : task_result) (staging : string) (now : Z) : dict :=
  mk_dict [("agent_id", JStr (rs_agent_id r)); ("attempt", JInt (rs_attempt r));
    ("size_bytes", JInt (rs_size_bytes r)); ("record_count", JInt (rs_record_count r));
    ("content_hash", JStr (rs_content_hash r)); ("s3_etag", JStr (rs_s3_etag r));
    ("output_key", JStr staging); ("completed_at_ms", JInt (int_or (rs_completed_at_ms r) now));
    ("error_code", JStr "")].

Definition failure_result (r : task_result) (now : Z) : dict :=
  mk_dict [("agent_id", JStr (rs_agent_id r)); ("attempt", JInt (rs_attempt r));
    ("completed_at_ms", JInt (int_or (rs_completed_at_ms r) now));
    ("error_code", JStr (str_or (rs_error_code r) "agent_error"))].

(** [min(retry_max, backoff * 2 ** max(0, attempt - 1))] seconds *)
Definition retry_delay (attempt : Z) : Z :=
  Z.min (q_retry_max_seconds q) (q_retry_backoff_seconds q * 2 ^ Z.max 0 (attempt - 1)).

(** The task after a successful report whose staged output is verified, or
    [None] when the output is not acceptable. *)
Definition succeed_task (task claim : dict) (payload : materialize_task) (r : task_result)
  (now : Z) : M world (option (task_state * dict)) :=
  staging ← lift (get_str claim "staging_key" "");
  attempt ← lift (req_int task "attempt");
  held ← lift (get_str claim "claim_token" "");
  let expected := staging_key (mt_output_key payload) (mt_generation_id payload) (rs_task_id r)
                    attempt held in
  if negb (truthy_str staging) || negb (String.eqb staging expected) then mret None else
  reason ← verify_output staging r;
  match reason with
  | Some _ => mret None
  | None =>
      mret (Some (TASK_SUCCEEDED,
        assign [("state", js TASK_SUCCEEDED); ("result", JObj (success_record r staging now));
                ("last_error", JStr "")] task))
  end.

(** The task after a failure report. *)
Definition fail_task (task : dict) (r : task_result) (now : Z) : res (task_state * dict) :=
  let task := <["last_error" := JStr (safe_error (str_or (rs_error r) (rs_error_code r)))]> task in
  attempt ← req_int task "attempt";
  retry ← (if rs_retryable r then m ← req_int task "max_attempts"; Ok (attempt <? m)
           else Ok false);
  let result := JObj (failure_result r now) in
  if (retry : bool)
  then Ok (TASK_RETRY_WAIT,
           assign [("state", js TASK_RETRY_WAIT);
                   ("available_at_ms", JInt (now + retry_delay attempt * 1000));
                   ("result", result)] task)
  else Ok (TASK_FAILED, assign [("state", js TASK_FAILED); ("result", result)] task).

(** The durable commit of an accepted result. *)
Definition commit_result (task claim : dict) (state : task_state) (r : task_result) (now : Z)
  : M world ack :=
  rev ← lift (bump task);
  let task := assign [("claim", JNull); ("updated_at_ms", JInt now); ("revision", JInt rev)]
                task in
  write_ (task_key (rs_task_id r)) task;;
  attempt ← lift (req_int task "attempt");
  result ← lift (dget_req task "result");
  hash ← lift (get_str claim "agent_lease_hash" "");
  write_ (result_key (rs_task_id r) attempt)
    (mk_dict [("version", JInt 1); ("task_id", JStr (rs_task_id r)); ("attempt", JInt attempt);
      ("state", js state); ("result", result); ("agent_lease_hash", JStr hash)]);;
  refresh_requests now;;
  mret (Ack true (state_str state) false (terminal state) RESULT_ACCEPTED).

Definition stale_generation (r : task_result) (id : string) (fence : Z) (sha : string) : bool :=
  negb (String.eqb (rs_generation_id r) id) || negb (rs_generation_fence r =? fence)
  || negb (String.eqb (rs_plan_sha256 r) sha).

(** The checks against the generation, then the outcome of the report. *)
Definition settle_result (task claim : dict) (r : task_result) (now : Z) : M world ack :=
  payload ← lift (payload_of task);
  if stale_generation r (mt_generation_id payload) (mt_generation_fence payload)
       (mt_plan_sha256 payload)
  then mret (nack (state_str TASK_CLAIMED) RESULT_STALE_GENERATION) else
  generation ← current_generation;
  let superseded := match generation with
    | Some g => stale_generation r (gc_generation_id g) (gc_fence g) (gc_plan_sha256 g)
    | None => false
    end in
  if superseded then
    rid ← lift (req_str task "request_id");
    cancel_request rid "generation_fenced";;
    mret (Ack false (state_str TASK_CANCELLED) false true RESULT_STALE_GENERATION)
  else if rs_ok r then
    outcome ← succeed_task task claim payload r now;
    match outcome with
    | None => mret (nack (state_str TASK_CLAIMED) RESULT_INVALID_OUTPUT)
    | Some (state, task) => commit_result task claim state r now
    end
  else
    outcome ← lift (fail_task task r now);
    commit_result outcome.2 claim outcome.1 r now.

Definition accept_result (r : task_result) (agent_lease_id : string) (now : option Z)
  : M world ack :=
  now ← now_or now;
  prior ← read_ (result_key (rs_task_id r) (rs_attempt r));
  match prior with
  | Some prior => lift (duplicate_reply prior r agent_lease_id)
  | None =>
      expire_claims (Some now);;
      found ← get_task (rs_task_id r);
      match found with
      | None => mret (Ack false "" false true RESULT_REJECTED)
      | Some task =>
          accepted ← lift (get_dict task "result");
          state ← lift (dget_req task "state");
          if bool_decide (state = js TASK_SUCCEEDED) then lift (succeeded_reply accepted r)
          else
            claim ← lift (get_dict task "claim");
            refusal ← lift (check_claim task claim r agent_lease_id);
            match refusal with
            | Some a => mret a
            | None =>
                membership ← (if truthy_str (rs_generation_id r)
                              then get_membership (rs_generation_id r) else mret None);
                refusal ← lift (check_membership membership r agent_lease_id);
                match refusal with
                | Some a => mret a
                | None => settle_result task claim r now
                end
            end
      end
  end.

(** ** Retention *)

(** [prune_staging]; [prefixes] is visited in some order.  Output objects are
    deleted directly, not through the fence. *)
Definition prune_staging (generation_id : string) (output_keys keep : list string) : M world Z :=
  match q_federation q with
  | Some _ => mret 0
  | None =>
      foldM (fun removed prefix =>
        items ← st (list_ prefix);
        foldM (fun removed item =>
          if bool_decide (os_key item ∈ keep) then mret removed else
          st (delete_ (os_key item));;
          st (delete_ (completion_key (os_key item) generation_id));;
          mret (removed + 1)) removed items)
        0 (remove_dups (map (fun k => staging_generation_prefix k generation_id) output_keys))
  end.

Definition prunable (request : dict) (cutoff : Z) : res bool :=
  let state := dget request "state" JNull in
  if negb (in_terminal state) then Ok false else
  u ← get_int request "updated_at_ms" 0;
  Ok (negb (cutoff <? u)
      && negb (bool_decide (state = js TASK_SUCCEEDED)
               && negb (truthy (dget request "published" JNull)))).

Definition prune_task (request : dict) (task_id : string) : M world unit :=
  found ← get_task task_id;
  (match found with
   | Some task =>
       if negb (truthy (dget request "published" JNull))
       then discarded ← lift (in_set (dget request "state" JNull)
                                [TASK_FAILED; TASK_CANCELLED; TASK_EXPIRED]);
            if (discarded : bool) then
              payload ← lift (get_dict task "task");
              gid ← lift (get_str payload "generation_id" "");
              if truthy_str gid then
                out ← lift (get_str payload "output_key" "");
                prune_staging gid [out] [];; mret tt
              else mret tt
            else mret tt
       else mret tt
   | None => mret tt
   end);;
  delete_results task_id;;
  delete_rec (task_key task_id);;
  mret tt.

Definition prune_request (cutoff pruned : Z) (item : object_stat) : M world Z :=
  found ← read_ (os_key item);
  match found with
  | None => mret pruned
  | Some request =>
      old ← lift (prunable request cutoff);
      if negb (old : bool) then mret pruned else
      ids ← lift (task_ids_of request);
      forM_ (prune_task request) ids;;
      digest ← lift (req_str request "idempotency_key");
      delete_rec (idempotency_file digest);;
      delete_rec (os_key item);;
      mret (pruned + 1)
  end.

Definition prune_terminal (retention_seconds : Z) (now : option Z) : M world Z :=
  now ← now_or now;
  let cutoff := now - Z.max 0 retention_seconds * 1000 in
  items ← st (list_ (REQUESTS_PREFIX +:+ "/"));
  foldM (prune_request cutoff) 0 items.

(** [wait_request]; [polls] is the number of polls the deadline allows. *)
Fixpoint wait_request (polls : nat) (request_id : string) : M world dict :=
  match polls with
  | O => raise (TimeoutError ("materialization request timed out: " +:+ request_id))
  | S polls =>
      expire_claims None;;
      found ← get_request request_id;
      match found with
      | None => raise (WorkQueueError "unknown request")
      | Some request =>
          state ← lift (dget_req request "state");
          if in_terminal state then mret request else wait_request polls request_id
      end
  end.

(** ** Publication *)

(** The identity test of [publish_snapshot], left to right. *)
Definition manifest_matches (request_id : string) (request : dict) (m : snapshot_manifest)
  : res bool :=
  if negb (String.eqb (sm_request_id m) request_id) then Ok false else
  table ← dget_req request "table";
  if negb (bool_decide (table = JStr (sm_table m))) then Ok false else
  epoch ← req_int request "epoch";
  if negb (sm_epoch m =? epoch) then Ok false else
  gid ← dget_req request "generation_id";
  if negb (bool_decide (gid = JStr (sm_generation_id m))) then Ok false else
  fence ← req_int request "generation_fence";
  if negb (sm_generation_fence m =? fence) then Ok false else
  sha ← dget_req request "plan_sha256";
  if negb (bool_decide (sha = JStr (sm_plan_sha256 m))) then Ok false else
  tenant ← get_str request "tenant_id" "";
  Ok (String.eqb (sm_tenant_id m) tenant).

(** Whether the current generation is another one or has expired. *)
Definition generation_stale (g : option generation_context) (m : snapshot_manifest) (now : Z)
  : bool :=
  match g with
  | None => false
  | Some g =>
      negb (String.eqb (gc_generation_id g) (sm_generation_id m))
      || negb (gc_fence g =? sm_generation_fence m)
      || negb (String.eqb (gc_plan_sha256 g) (sm_plan_sha256 m))
      || (gc_expires_at_ms g <=? now)
  end.

(** Verify every split, then every metadata object. *)
Definition verify_objects (bad_split bad_metadata : string -> exn) (m : snapshot_manifest) : M world unit :=
  forM_ (fun s => ok ← st (verify (sr_object_key s) (sr_size_bytes s) (sr_content_hash s));
           if (ok : bool) then mret tt else raise (bad_split (sr_object_key s))) (sm_splits m);;
  forM_ (fun k => h ← st (head k);
           match h with Some _ => mret tt | None => raise (bad_metadata k) end) (sm_metadata_keys m).

(** The datasets the request's tasks read. *)
Definition task_dataset (acc : list string) (task_id : string) : M world (list string) :=
  found ← get_task task_id;
  match found with
  | None => raise (WorkQueueConflict ("snapshot task is missing: " +:+ task_id))
  | Some task =>
      v ← lift (dget_req task "task");
      payload ← lift (as_obj v);
      connection ← lift (get_str payload "connection_id" "");
      source ← lift (get_str payload "source_table" "");
      mret (if truthy_str connection && truthy_str source
            then acc ++ [connection +:+ "::" +:+ source] else acc)
  end.

(** The payload of the snapshot record. *)
Definition snapshot_payload (m : snapshot_manifest) (dataset_id : string) (produced_at : Z)
  : dict :=
  assign [("dataset_id", JStr dataset_id); ("produced_at_ms", JInt produced_at)]
    (manifest_to_dict m).

(** The commit: through the federation catalog, as one guarded batch under the
    current generation, or as two writes when no generation exists. *)
Definition commit_snapshot (request_id : string) (request payload : dict)
  (generation_raw : option blob) (generation : option generation_context)
  (m : snapshot_manifest) (now : Z) : M world dict :=
  match q_federation q with
  | Some fed =>
      manifest ← lift (manifest_from_dict payload);
      fed_publish fed manifest;;
      let request := assign [("published", JBool true); ("updated_at_ms", JInt now)] request in
      write_ (request_key request_id) request;;
      mret request
  | None =>
      let key := snapshot_key (sm_table m) (sm_epoch m) in
      let request := assign [("published", JBool true); ("snapshot_key", JStr key);
                             ("updated_at_ms", JInt now)] request in
      let record := mk_dict [("version", JInt 1); ("manifest", JObj payload)] in
      (match generation, generation_raw with
       | Some _, Some raw =>
           guarded_write_batch COORDINATOR_KEY raw
             [(key, record); (request_key request_id, request)]
       | _, _ => write_ key record;; write_ (request_key request_id) request
       end);;
      mret request
  end.

Definition publish_snapshot (request_id : string) (m : snapshot_manifest) : M world dict :=
  now ← now_ms;
  found ← get_request request_id;
  match found with
  | None => raise (WorkQueueError "unknown request")
  | Some request =>
      state ← lift (dget_req request "state");
      if negb (bool_decide (state = js TASK_SUCCEEDED))
      then raise (WorkQueueConflict "request is not ready for publication") else
      same ← lift (manifest_matches request_id request m);
      if negb (same : bool)
      then raise (WorkQueueConflict "snapshot identity does not match request") else
      rg ← current_generation_record;
      if generation_stale rg.2 m now
      then raise (WorkQueueConflict "snapshot generation is no longer active") else
      verify_objects
        (fun k => WorkQueueConflict ("snapshot output verification failed: " +:+ k))
        (fun k => WorkQueueConflict ("snapshot metadata is missing: " +:+ k)) m;;
      ids ← lift (task_ids_req request);
      datasets ← foldM task_dataset [] ids;
      match singleton_or_empty datasets with
      | None => raise (WorkQueueConflict "snapshot request spans multiple datasets")
      | Some dataset_id =>
          produced_at ← lift (req_int request "created_at_ms");
          if truthy_str (sm_dataset_id m) && negb (String.eqb (sm_dataset_id m) dataset_id)
          then raise (WorkQueueConflict "snapshot dataset identity does not match request") else
          if truthy_int (sm_produced_at_ms m) && negb (sm_produced_at_ms m =? produced_at)
          then raise (WorkQueueConflict "snapshot production timestamp does not match request")
          else commit_snapshot request_id request (snapshot_payload m dataset_id produced_at)
                 rg.1 rg.2 m now
      end
  end.

(** [SnapshotManifest.from_dict(record["manifest"])] *)
Definition manifest_of (record : dict) : res snapshot_manifest :=
  v ← dget_req record "manifest"; d ← as_obj v; manifest_from_dict d.

Definition list_snapshot_manifests : M world (list snapshot_manifest) :=
  match q_federation q with
  | Some fed =>
      foldM (fun acc td => m ← fed_snapshot fed td.2 td.1 0;
               mret (match m with Some m => acc ++ [m] | None => acc end))
        [] (q_federated_tables q)
  | None =>
      records ← read_all SNAPSHOTS_PREFIX;
      lift (res_map manifest_of records)
  end.

Definition get_snapshot (table : string) (epoch : Z) : M world (option snapshot_manifest) :=
  match q_federation q with
  | Some fed =>
      match list_find (fun td : string * string => td.1 = table) (q_federated_tables q) with
      | None => mret None
      | Some (_, (_, dataset_id)) => fed_snapshot fed dataset_id table epoch
      end
  | None =>
      records ← st (list_ (SNAPSHOTS_PREFIX +:+ "/" +:+ sha256_hex table +:+ "/"));
      let selected :=
        if epoch =? 0 then last records
        else snd <$> list_find (fun item => os_key item = snapshot_key table epoch) records in
      match selected with
      | None => mret None
      | Some item =>
          found ← read_ (os_key item);
          match found with
          | None => mret None
          | Some record =>
              m ← lift (manifest_of record);
              verify_objects
                (fun k => WorkQueueError
                   ("published snapshot output is missing or invalid: " +:+ k))
                (fun k => WorkQueueError
                   ("published snapshot metadata is missing: " +:+ k)) m;;
              mret (Some m)
          end
      end
  end.
End queue.
