(* ===== verification/QueueStore.v ===== *)
(** * How the queue touches the store

    The effect of the queue's record access on the artifact store, the areas of
    the key space, and the invariant of the task records with the step relation
    every durable write of a task must follow. *)

From S2P Require Import Prelude PyText Sha256 Json ArtifactStore World Lease Contract ReadPlan.
From S2P Require Import Generation WorkQueue.
Import MemoryStore.

(** ** Areas of the key space *)

Definition area (dir k : string) : Prop := k = dir \/ exists t, k = dir +:+ "/" +:+ t.

Abbreviation task_area := (area TASKS_PREFIX).

Lemma area_startswith dir k : area dir k -> startswith k dir = true.
Proof.
  intros [->|[t ->]]; [|apply startswith_app].
  rewrite <- (app_nil_r_s dir) at 1. apply startswith_app.
Qed.

(** Two literal directories that differ before either ends have no common key. *)
Ltac solve_disjoint :=
  intros H1 H2; apply area_startswith, startswith_spec in H1 as [? ->];
  apply area_startswith, startswith_spec in H2 as [? H2]; cbn in H2; discriminate.

Lemma request_not_task k : area REQUESTS_PREFIX k -> task_area k -> False.
Proof. solve_disjoint. Qed.
Lemma result_not_task k : area RESULTS_PREFIX k -> task_area k -> False.
Proof. solve_disjoint. Qed.
Lemma snapshot_not_task k : area SNAPSHOTS_PREFIX k -> task_area k -> False.
Proof. solve_disjoint. Qed.
Lemma idempotency_not_task k : area IDEMPOTENCY_PREFIX k -> task_area k -> False.
Proof. solve_disjoint. Qed.
Lemma membership_not_task k : area MEMBERSHIP_PREFIX k -> task_area k -> False.
Proof. solve_disjoint. Qed.

Lemma area_normalize dir rest k :
  normalize_key dir = Ok dir -> normalize_key (dir +:+ "/" +:+ rest) = Ok k -> area dir k.
Proof. intros Hd%normalized_is_safe Hk. by apply normalize_under in Hk. Qed.

Lemma task_key_area id k : normalize_key (task_key id) = Ok k -> task_area k.
Proof. apply area_normalize. reflexivity. Qed.
(** The object name of a task: its id always contributes a path segment. *)
Definition slot (t : string) : string := TASKS_PREFIX +:+ "/" +:+ t.

Lemma split_on_suffix c s :
  str_forallb (fun a => negb (Ascii.eqb a c)) ".json" = true ->
  exists xs y, split_on c (s +:+ ".json") = xs ++ [y +:+ ".json"].
Proof.
  intros Hc. induction s as [|a s (xs & y & IH)].
  - exists [], "". by apply split_on_single.
  - rewrite app_cons_s. cbn [split_on]. destruct (Ascii.eqb a c).
    + exists ("" :: xs), y. by rewrite IH.
    + rewrite IH. destruct xs as [|x xs]; [by exists [], (String a y)|].
      by exists (String a x :: xs), y.
Qed.

Lemma task_key_slot id k : normalize_key (task_key id) = Ok k -> exists t, k = slot t.
Proof.
  intros Hk. apply normalize_under_segs in Hk; [|by apply normalized_is_safe with TASKS_PREFIX].
  unfold replace_char in Hk. rewrite str_map_app in Hk.
  destruct (split_on_suffix slash (str_map (fun x => if Ascii.eqb x backslash then slash else x) id))
    as (xs & y & Hx); [done|].
  change (str_map _ ".json") with ".json" in Hk. rewrite Hx in Hk.
  rewrite filter_app, filter_cons_True in Hk by (by destruct y as [|? [|]]).
  destruct (filter keep_segment xs ++ _) eqn:E; [by apply app_nil in E as [_ ?]|].
  rewrite Hk. by eexists.
Qed.

Lemma request_key_area id k : normalize_key (request_key id) = Ok k -> area REQUESTS_PREFIX k.
Proof. apply area_normalize. reflexivity. Qed.
Lemma result_key_area id n k : normalize_key (result_key id n) = Ok k -> area RESULTS_PREFIX k.
Proof. apply area_normalize. reflexivity. Qed.
Lemma snapshot_key_area t e k : normalize_key (snapshot_key t e) = Ok k -> area SNAPSHOTS_PREFIX k.
Proof. apply area_normalize. reflexivity. Qed.
Lemma idempotency_file_area h k :
  normalize_key (idempotency_file h) = Ok k -> area IDEMPOTENCY_PREFIX k.
Proof. apply area_normalize. reflexivity. Qed.
Lemma membership_key_area g k :
  normalize_key (membership_key g) = Ok k -> area MEMBERSHIP_PREFIX k.
Proof. apply area_normalize. reflexivity. Qed.

(** ** Record access *)

(** What [_read] returns, as a function of the store. *)
Definition read_result (s : mem) (key : string) : res (option dict) :=
  match normalize_key key with
  | Err e => match e with ObjectNotFound _ => Ok None | e => Err e end
  | Ok k =>
      match s !! k with
      | None => Ok None
      | Some (BJson (JObj d)) => Ok (Some d)
      | Some (BJson _) => Err (WorkQueueError ("invalid queue record " +:+ key +:+ ": expected object"))
      | Some (BRaw _) => Err (WorkQueueError ("invalid queue record " +:+ key))
      end
  end.

Lemma read_eq key w : read_ key w = (read_result (w_store w) key, w).
Proof.
  unfold read_, read_result, catch, st, mbind, M_bind.
  destruct (normalize_key key) as [k|e] eqn:Hk.
  - rewrite (get_whole _ _ _ Hk). cbn [fst snd]. rewrite set_store_id.
    by destruct (w_store w !! k) as [[[]|]|].
  - unfold get. rewrite (with_key_Err _ _ _ Hk). cbn [fst snd raise]. rewrite set_store_id.
    by destruct e.
Qed.

Lemma read_result_some s key d :
  read_result s key = Ok (Some d) ->
  exists k, normalize_key key = Ok k /\ s !! k = Some (encode d).
Proof.
  unfold read_result. destruct (normalize_key key) as [k|[]]; try done.
  intros H. exists k. split; [done|].
  destruct (s !! k) as [[[]|]|]; by simplify_eq.
Qed.

Lemma read_result_at s key k d :
  normalize_key key = Ok k -> s !! k = Some (encode d) -> read_result s key = Ok (Some d).
Proof. unfold read_result. by intros -> ->. Qed.

Lemma read_result_none s key k :
  normalize_key key = Ok k -> s !! k = None -> read_result s key = Ok None.
Proof. unfold read_result. by intros -> ->. Qed.

(** [_write] may add the two fields of the leadership term. *)
Definition stamped (v v' : dict) : Prop :=
  forall k, k <> "manager_owner" -> k <> "manager_fence" -> v' !! k = v !! k.

Lemma stamped_refl v : stamped v v.
Proof. by intros k. Qed.

Lemma stamped_stamp o f v : stamped v (stamp o f v).
Proof. intros k H1 H2. unfold stamp, assign. cbn. by rewrite !lookup_insert_ne. Qed.

(** What the queue relies on from its leadership check: it only reads the
    store.  [LeaderLease.validate] provides it. *)
Class Leadership (q : queue) : Prop :=
  leadership_reads : forall chk, q_leadership_check q = Some chk -> reads chk.

Section access.
Context `{Env, QueueEnv} (q : queue) `{!Leadership q}.

#[global] Instance validate_leadership a b c d :
  Leadership (new_queue a b c d (Some (validate None None None))).
Proof. intros chk [= <-]. apply validate_reads. Qed.

#[global] Instance no_leadership a b c d : Leadership (new_queue a b c d None).
Proof. intros chk [=]. Qed.

Lemma read_reads key : reads (read_ key).
Proof. intros w. by rewrite read_eq. Qed.

Lemma leadership_check_reads chk :
  q_leadership_check q = Some chk -> reads (leadership chk).
Proof. intros Hc. unfold leadership. repeat (apply reads_bind; [|intros ?]); eauto with fsp. Qed.

Lemma verify_write_hit n key k v w :
  normalize_key key = Ok k -> w_store w !! k = Some (encode v) ->
  verify_write (S n) key v w = (Ok tt, w).
Proof.
  intros Hk Hs. cbn [verify_write]. unfold mbind, M_bind. rewrite read_eq.
  rewrite (read_result_at _ _ _ _ Hk Hs). by rewrite bool_decide_eq_true_2.
Qed.

(** [_write] raises without any effect, or replaces exactly the object at its
    key by the (stamped) record; with a leadership check, only under a fence
    that is held at that moment. *)
Definition written (key : string) (v : dict) (r : res unit) (s s' : mem) : Prop :=
  match r with
  | Err _ => s' = s
  | Ok _ => exists k v', normalize_key key = Ok k /\ stamped v v' /\
      s' = <[k := encode v']> s /\
      match q_leadership_check q with
      | None => v' = v
      | Some _ => exists owner fence now,
          fence_held s LEASE_KEY owner fence now /\ v' = stamp owner fence v
      end
  end.

Lemma write_effect key v w :
  wp (write_ q key v) (fun r w' => written key v r (w_store w) (w_store w')) w.
Proof.
  unfold write_. apply wp_bind. destruct (q_leadership_check q) as [chk|] eqn:Hq.
  - apply wp_bind. pose proof (leadership_check_reads chk Hq w) as Hr.
    destruct (leadership chk w) as [[[owner fence]|e] w1] eqn:El; cbn in Hr;
      (eapply wp_run; [exact El|]); [|done].
    cbn [fst snd]. apply wp_bind. unfold st_now, now_ms, st.
    eapply wp_run; [unfold mbind, M_bind; cbn; reflexivity|]. cbn [w_store tick].
    destruct (normalize_key key) as [k|e] eqn:Hk.
    + pose proof (fenced_put_effect (clock (w_ticks w1)) LEASE_KEY LEASE_KEY owner fence key k
        (encode (stamp owner fence v)) (w_store w1) lease_key_normal Hk) as Hp.
      destruct (fenced_put _ _ _ _ _ _ _) as [r s'] eqn:Ef. destruct Hp as [Hh ->].
      cbn [fst snd]. destruct r as [[|]|e]; [|apply wp_raise|].
      * rewrite decide_True by done. apply wp_ret. eapply wp_run.
        { apply (verify_write_hit 4 key k); [done|]. cbn. by rewrite lookup_insert_eq. }
        exists k, (stamp owner fence v). rewrite Hq. split_and!; [done|apply stamped_stamp| |].
        { cbn. by rewrite Hr. }
        rewrite <- Hr. exists owner, fence, (clock (w_ticks w1)). split; [by apply Hh|done].
      * cbn. by rewrite Hr.
      * cbn. by rewrite Hr.
    + unfold fenced_put. rewrite Hk.
      destruct (fence_matches _ _ _ _ _) as [[]|]; cbn [fst snd]; [|apply wp_raise|]; cbn; by rewrite Hr.
  - apply wp_bind. unfold st, put. destruct (normalize_key key) as [k|e] eqn:Hk.
    + eapply wp_run; [rewrite (with_key_Ok _ _ _ Hk); reflexivity|]. apply wp_ret.
      eapply wp_run.
      { apply (verify_write_hit 4 key k); [done|]. cbn. by rewrite lookup_insert_eq. }
      exists k, v. rewrite Hq. split_and!; [done|apply stamped_refl|done..].
    + eapply wp_run; [rewrite (with_key_Err _ _ _ Hk); reflexivity|]. by cbn.
Qed.

(** [_delete] raises without any effect or removes exactly its key. *)
Definition deleted (key : string) (r : res bool) (s s' : mem) : Prop :=
  match r with
  | Err _ => s' = s
  | Ok b => exists k, normalize_key key = Ok k /\ s' = delete k s /\
      (b = true <-> is_Some (s !! k))
  end.

Lemma delete_effect key w :
  wp (delete_rec q key) (fun r w' => deleted key r (w_store w) (w_store w')) w.
Proof.
  unfold delete_rec. destruct (q_leadership_check q) as [chk|] eqn:Hq.
  - apply wp_bind. pose proof (leadership_check_reads chk Hq w) as Hr.
    destruct (leadership chk w) as [[[owner fence]|e] w1] eqn:El; cbn in Hr;
      (eapply wp_run; [exact El|]); [|done].
    cbn [fst snd]. apply wp_bind. unfold st_now, now_ms, st.
    eapply wp_run; [unfold mbind, M_bind; cbn; reflexivity|]. cbn [w_store tick].
    rewrite Hr. unfold fenced_delete.
    destruct (fence_matches _ _ _ _ _) as [[]|]; cbn [fst snd];
      [destruct (normalize_key key) as [k|] eqn:Hk; cbn [fst snd]|apply wp_raise|]; try done.
    apply wp_ret. exists k. cbn. by rewrite bool_decide_eq_true.
  - unfold st, delete_. destruct (normalize_key key) as [k|e] eqn:Hk.
    + eapply wp_run; [rewrite (with_key_Ok _ _ _ Hk); reflexivity|].
      exists k. cbn. by rewrite bool_decide_eq_true.
    + eapply wp_run; [rewrite (with_key_Err _ _ _ Hk); reflexivity|]. by cbn.
Qed.
End access.

(** ** Task records *)

(** The fields of a task record the queue's control flow depends on. *)
Record tview := TView {
  tv_id : string;
  tv_state : task_state;
  tv_claim : option dict;
  tv_attempt : Z;
  tv_max : Z;
  tv_rev : Z;
  tv_payload : dict;
}.

Definition view_of (d : dict) : option tview :=
  match d !! "task_id", d !! "state", d !! "claim", d !! "attempt", d !! "max_attempts",
        d !! "revision", d !! "task" with
  | Some (JStr id), Some (JStr st), Some c, Some (JInt a), Some (JInt m), Some (JInt r),
    Some (JObj p) =>
      match state_of_str st, c with
      | Some s, JNull => Some (TView id s None a m r p)
      | Some s, JObj cl => Some (TView id s (Some cl) a m r p)
      | _, _ => None
      end
  | _, _, _, _, _, _, _ => None
  end.

Definition blob_view (b : blob) : option tview :=
  match b with BJson (JObj d) => view_of d | _ => None end.

Definition opt_obj (c : option dict) : json := match c with Some d => JObj d | None => JNull end.

Lemma state_of_str_Some n s : state_of_str n = Some s -> n = state_str s.
Proof.
  unfold state_of_str. destruct (list_find _ _) as [[i t]|] eqn:E; cbn; [|done].
  intros [= ->]. by apply list_find_Some in E as (_ & <- & _).
Qed.

Lemma view_of_spec d v :
  view_of d = Some v <->
  d !! "task_id" = Some (JStr (tv_id v)) /\ d !! "state" = Some (js (tv_state v)) /\
  d !! "claim" = Some (opt_obj (tv_claim v)) /\ d !! "attempt" = Some (JInt (tv_attempt v)) /\
  d !! "max_attempts" = Some (JInt (tv_max v)) /\ d !! "revision" = Some (JInt (tv_rev v)) /\
  d !! "task" = Some (JObj (tv_payload v)).
Proof.
  unfold view_of. split.
  - intros H. repeat case_match; simplify_eq; cbn;
      match goal with E : state_of_str _ = Some _ |- _ => apply state_of_str_Some in E as -> end;
      by split_and!.
  - intros (-> & -> & -> & -> & -> & -> & ->). unfold js. cbn -[state_of_str state_str].
    rewrite state_of_str_str. by destruct v as [i s [c|] a m r p].
Qed.

Lemma stamped_view v v' : stamped v v' -> view_of v' = view_of v.
Proof. intros Hs. unfold view_of. by rewrite !Hs by done. Qed.

(** The invariant of one task record at its key. *)
Definition wf_view (k : string) (v : tview) : Prop :=
  normalize_key (task_key (tv_id v)) = Ok k /\
  (is_Some (tv_claim v) <-> tv_state v = TASK_CLAIMED).

Definition wf_tasks (s : mem) : Prop :=
  forall k b, task_area k -> s !! k = Some b -> exists v, blob_view b = Some v /\ wf_view k v.

(** One durable write of a task: a transition of the published table under the next revision,
    or a rewrite in the same state; the attempt never decreases. *)
Definition step_ok (v v' : tview) : Prop :=
  ((tv_state v' = tv_state v /\ tv_rev v <= tv_rev v') \/
   (valid_task_transition (tv_state v) (tv_state v') = true /\ tv_rev v' = tv_rev v + 1)) /\
  tv_attempt v <= tv_attempt v'.

Definition new_ok (v : tview) : Prop :=
  tv_state v = TASK_QUEUED /\ tv_attempt v = 0.

(** A record before and after some writes: every write is counted in its revision. *)
Definition moved (b b' : blob) : Prop :=
  b' = b \/ exists v v', blob_view b = Some v /\ blob_view b' = Some v' /\ rtc step_ok v v'.

(** No task is created or deleted, and each one moves along the table. *)
Definition task_steps (s s' : mem) : Prop :=
  forall k, task_area k ->
    match s !! k, s' !! k with
    | Some b, Some b' => moved b b'
    | None, None => True
    | _, _ => False
    end.

(** Tasks move along the table or are deleted. *)
Definition task_shrinks (s s' : mem) : Prop :=
  forall k, task_area k ->
    match s !! k, s' !! k with
    | Some b, Some b' => moved b b'
    | _, None => True
    | None, Some _ => False
    end.

#[global] Instance moved_preorder : PreOrder moved.
Proof.
  split; [by left|]. intros a b c [->|(v & v' & H1 & H2 & H3)] [->|(u & u' & G1 & G2 & G3)];
    [by left|right..]; [by exists u, u'|by exists v, v'|].
  assert (u = v') as -> by congruence. exists v, u'. split_and!; [done..|by etrans].
Qed.

Lemma task_steps_same s s' : (forall k, task_area k -> s' !! k = s !! k) -> task_steps s s'.
Proof. intros Hs k Hk. rewrite Hs by done. by destruct (s !! k). Qed.

Lemma steps_shrink s s' : task_steps s s' -> task_shrinks s s'.
Proof. intros Hs k Hk. specialize (Hs k Hk). by destruct (s !! k), (s' !! k). Qed.

Lemma task_shrinks_delete s k : task_shrinks s (delete k s).
Proof.
  intros k' Hk'. destruct (decide (k' = k)) as [->|Hne].
  - rewrite lookup_delete_eq. by destruct (s !! k).
  - rewrite lookup_delete_ne by done. by destruct (s !! k').
Qed.

Lemma wf_tasks_same s s' :
  (forall k, task_area k -> s' !! k = s !! k) -> wf_tasks s -> wf_tasks s'.
Proof. intros Hs Hwf k b Hk. rewrite Hs by done. by apply Hwf. Qed.

Lemma wf_tasks_delete s k : wf_tasks s -> wf_tasks (delete k s).
Proof. intros Hwf k' b Hk'. rewrite lookup_delete_Some. intros [_ Hb]. by apply Hwf. Qed.

(** ** Operations that keep the tasks well formed

    [keeps R m]: [m] preserves the invariant and relates the stores by [R], a
    preorder that holds whenever no task changes. *)

Class TaskRel (R : relation mem) : Prop := {
  task_rel_preorder :: PreOrder R;
  task_rel_same s s' : (forall k, task_area k -> s' !! k = s !! k) -> R s s';
}.

Definition keeps {A} (R : relation mem) (m : M world A) : Prop :=
  maintains (fun w => wf_tasks (w_store w)) (fun w w' => R (w_store w) (w_store w')) m.

(** The central instance: the tasks move by steps of the table. *)
Abbreviation good := (keeps task_steps).

#[global] Instance task_steps_rel : TaskRel task_steps.
Proof.
  split; [split|apply task_steps_same]; [by intros s; apply task_steps_same|].
  intros s1 s2 s3 H1 H2 k Hk. specialize (H1 k Hk). specialize (H2 k Hk).
  destruct (s1 !! k), (s2 !! k), (s3 !! k); try done. by etrans.
Qed.

(** Retention and recovery also delete. *)
#[global] Instance task_shrinks_rel : TaskRel task_shrinks.
Proof.
  split; [split|intros; by apply steps_shrink, task_steps_same]; [intros s; by apply steps_shrink, task_steps_same|].
  intros s1 s2 s3 H1 H2 k Hk. specialize (H1 k Hk). specialize (H2 k Hk).
  destruct (s1 !! k), (s2 !! k), (s3 !! k); try done. by etrans.
Qed.

#[global] Instance world_preorder (R : relation mem) `{!PreOrder R} :
  PreOrder (fun w w' : world => R (w_store w) (w_store w')).
Proof. split; [by intros w|]. intros a b c. apply transitivity. Qed.

Section keeps.
Context `{Env, QueueEnv} (q : queue) `{!Leadership q} {R : relation mem} `{!TaskRel R}.

Lemma keeps_reads {A} (m : M world A) : reads m -> keeps R m.
Proof. intros Hm. by apply reads_maintains; [apply _|]. Qed.

Lemma keeps_ret {A} (a : A) : keeps R (mret a).
Proof. by apply keeps_reads. Qed.

Lemma keeps_bind {A B} (m : M world A) (f : A -> M world B) :
  keeps R m -> (forall a, keeps R (f a)) -> keeps R (m ≫= f).
Proof. apply maintains_bind, _. Qed.

Lemma keeps_foldM {A B} (f : B -> A -> M world B) l : forall b,
  (forall b a, a ∈ l -> keeps R (f b a)) -> keeps R (foldM f b l).
Proof.
  induction l as [|a l IH]; intros b Hf; [apply keeps_ret|].
  apply keeps_bind; [apply Hf; by left|]. intros b'. apply IH. intros; apply Hf. by right.
Qed.

Lemma keeps_intro {A} (m : M world A) :
  (forall w, wf_tasks (w_store w) -> wp m (fun _ w' => wf_tasks (w_store w') /\
     R (w_store w) (w_store w')) w) -> keeps R m.
Proof. done. Qed.

(** Continue after [w] was reached from [s]. *)
Lemma wp_after {A} (m : M world A) s w :
  keeps R m -> wf_tasks (w_store w) -> R s (w_store w) ->
  wp m (fun _ w' => wf_tasks (w_store w') /\ R s (w_store w')) w.
Proof. intros Hm Hwf Hs. destruct (Hm w Hwf). split; [done|]. by etrans. Qed.

(** A listing is a list of existing keys below the directory. *)
Lemma keeps_list {A} dir (f : list object_stat -> M world A) :
  lstrip_char slash (replace_char backslash slash (dir +:+ "/")) = dir +:+ "/" ->
  (forall items, (forall i, i ∈ items -> exists t, os_key i = dir +:+ "/" +:+ t) ->
     keeps R (f items)) ->
  keeps R (st (list_ (dir +:+ "/")) ≫= f).
Proof.
  intros Hdir Hf w Hwf. destruct (list_spec (dir +:+ "/") (w_store w)) as (l & Hl & _ & _ & Hin).
  unfold mbind, M_bind, st. rewrite Hl. cbn [fst snd]. rewrite set_store_id.
  apply Hf; [|done]. intros i (k & b & _ & Hp & ->)%Hin. rewrite Hdir in Hp.
  apply startswith_spec in Hp as [t ->]. exists t. by rewrite app_assoc_s.
Qed.

(** A record written outside the tasks. *)
Lemma keeps_write_elsewhere key v :
  (forall k, normalize_key key = Ok k -> ~ task_area k) -> keeps R (write_ q key v).
Proof.
  intros Hk w Hwf. pose proof (write_effect q key v w) as Hw. unfold wp in Hw.
  destruct (write_ q key v w) as [[u|e] w']; cbn in *; [|by rewrite Hw].
  destruct Hw as (k & v' & Hn & _ & Hs & _). specialize (Hk k Hn).
  assert (forall k', task_area k' -> w_store w' !! k' = w_store w !! k') as Hsame.
  { intros k' Hk'. rewrite Hs, lookup_insert_ne; [done|]. by intros ->. }
  split; [by eapply wf_tasks_same|by apply task_rel_same].
Qed.

Lemma keeps_write_request id v : keeps R (write_ q (request_key id) v).
Proof.
  apply keeps_write_elsewhere. intros k Hk%request_key_area ?. by eapply request_not_task.
Qed.
Lemma keeps_write_result id n v : keeps R (write_ q (result_key id n) v).
Proof. apply keeps_write_elsewhere. intros k Hk%result_key_area ?. by eapply result_not_task. Qed.
Lemma keeps_write_snapshot t e v : keeps R (write_ q (snapshot_key t e) v).
Proof.
  apply keeps_write_elsewhere. intros k Hk%snapshot_key_area ?. by eapply snapshot_not_task.
Qed.
Lemma keeps_write_idempotency h v : keeps R (write_ q (idempotency_file h) v).
Proof.
  apply keeps_write_elsewhere. intros k Hk%idempotency_file_area ?. by eapply idempotency_not_task.
Qed.
Lemma keeps_write_membership g v : keeps R (write_ q (membership_key g) v).
Proof.
  apply keeps_write_elsewhere. intros k Hk%membership_key_area ?. by eapply membership_not_task.
Qed.

Lemma keeps_read {A} key (f : option dict -> M world A) :
  (forall o, keeps R (f o)) -> keeps R (read_ key ≫= f).
Proof. intros Hf. apply keeps_bind; [apply keeps_reads, read_reads|done]. Qed.
End keeps.

Section deletes.
Context `{Env, QueueEnv} (q : queue) `{!Leadership q}.

Lemma shrinks_delete key : keeps task_shrinks (delete_rec q key).
Proof.
  intros w Hwf. pose proof (delete_effect q key w) as Hw. unfold wp in Hw.
  destruct (delete_rec q key w) as [[b|e] w']; cbn in *; [|by rewrite Hw].
  destruct Hw as (k & _ & -> & _).
  split; [by apply wf_tasks_delete|apply task_shrinks_delete].
Qed.

Lemma shrinks_store_delete key : keeps task_shrinks (st (delete_ key)).
Proof.
  intros w Hwf. unfold st, delete_. cbn. destruct (normalize_key key) as [k|e] eqn:Hk.
  - rewrite (with_key_Ok _ _ _ Hk). cbn.
    split; [by apply wf_tasks_delete|apply task_shrinks_delete].
  - by rewrite (with_key_Err _ _ _ Hk).
Qed.
End deletes.

#[export] Hint Resolve keeps_write_request keeps_write_result keeps_write_snapshot
  keeps_write_idempotency keeps_write_membership shrinks_delete shrinks_store_delete read_reads
  keeps_ret task_steps_rel task_shrinks_rel : fsp.

(** Prove [keeps R] by structure; what is left are the writes of tasks. *)
Ltac solve_keeps :=
  repeat first
    [ solve [eauto with fsp]
    | solve [apply keeps_reads; solve_reads]
    | apply keeps_bind; [|intros ?]
    | apply keeps_foldM; intros ? ? ?
    | case_scrut ].
