(* ===== verification/QueueTasks.v ===== *)
(** * Every durable write of a task follows the transition table

    The operations of the queue keep the task records well formed, and each
    single write they make to a task is a transition of [TASK_TRANSITIONS]. *)

From S2P Require Import Prelude PyText Sha256 Json ArtifactStore World Lease Contract ReadPlan.
From S2P Require Import Generation WorkQueue QueueStore.
Import MemoryStore.

(** ** What the record updates do to the view of a task *)

Definition set_view (s : task_state) (c : option dict) (a : Z) (v : tview) : tview :=
  TView (tv_id v) s c a (tv_max v) (tv_rev v + 1) (tv_payload v).

Lemma bump_view d v : view_of d = Some v -> bump d = Ok (tv_rev v + 1).
Proof.
  intros (_ & _ & _ & _ & _ & Hr & _)%view_of_spec. unfold bump, req_int, dget_req. by rewrite Hr.
Qed.

Lemma state_view d v : view_of d = Some v -> dget_req d "state" = Ok (js (tv_state v)).
Proof. intros (_ & Hs & _)%view_of_spec. unfold dget_req. by rewrite Hs. Qed.

Lemma id_view d v : view_of d = Some v -> task_id_of d = Ok (tv_id v).
Proof. intros (Hi & _)%view_of_spec. unfold task_id_of, dget_req. by rewrite Hi. Qed.

Lemma attempt_view d v : view_of d = Some v -> req_int d "attempt" = Ok (tv_attempt v).
Proof. intros (_ & _ & _ & Ha & _)%view_of_spec. unfold req_int, dget_req. by rewrite Ha. Qed.

Lemma max_view d v : view_of d = Some v -> req_int d "max_attempts" = Ok (tv_max v).
Proof. intros (_ & _ & _ & _ & Hm & _)%view_of_spec. unfold req_int, dget_req. by rewrite Hm. Qed.

Lemma claim_view d v : view_of d = Some v -> get_dict d "claim" = Ok (default ∅ (tv_claim v)).
Proof.
  intros (_ & _ & Hc & _)%view_of_spec. unfold get_dict, dget. rewrite Hc. by destruct (tv_claim v).
Qed.

Lemma payload_view d v : view_of d = Some v -> get_dict d "task" = Ok (tv_payload v).
Proof. intros (_ & _ & _ & _ & _ & _ & Hp)%view_of_spec. unfold get_dict, dget. by rewrite Hp. Qed.

Lemma in_set_js s l : in_set (js s) l = Ok (bool_decide (s ∈ l)).
Proof.
  unfold in_set, js. f_equal. apply bool_decide_ext.
  rewrite list_elem_of_fmap. split; [|by exists s].
  intros (t & Heq & Ht). injection Heq as Heq%state_str_inj. by subst.
Qed.

Lemma js_inj s t : js s = js t <-> s = t.
Proof. split; [|by intros ->]. by intros [= H%state_str_inj]. Qed.

Lemma in_terminal_js s : in_terminal (js s) = terminal s.
Proof. by destruct s. Qed.

(** The view of an updated record, given the view of the original. *)
Ltac solve_view :=
  match goal with H : view_of ?d = Some ?v |- view_of _ = Some _ =>
    apply view_of_spec in H as (? & ? & ? & ? & ? & ? & ?);
    apply view_of_spec; unfold assign; cbn [foldl fst snd tv_id tv_state tv_claim tv_attempt tv_max
      tv_rev tv_payload set_view opt_obj];
    split_and!; repeat first
      [ rewrite lookup_insert_eq; reflexivity
      | rewrite lookup_insert_ne by done
      | rewrite lookup_delete_ne by done
      | done ]
  end.

Ltac bump_eq :=
  match goal with E : bump ?d = Ok ?x, H : view_of ?d = Some _ |- _ =>
    rewrite (bump_view _ _ H) in E; injection E as <- end.

Ltac updated H := invert_Ok H; injection H as <-; try bump_eq.

Lemma deadline_failed_view now d d' v :
  deadline_failed now d = Ok d' -> view_of d = Some v ->
  view_of d' = Some (set_view TASK_FAILED (tv_claim v) (tv_attempt v) v).
Proof. unfold deadline_failed. intros H Hv. updated H. solve_view. Qed.

Lemma expired_task_view now dl d d' v :
  expired_task now dl d = Ok d' -> view_of d = Some v ->
  view_of d' = Some (set_view TASK_EXPIRED None (tv_attempt v) v).
Proof. unfold expired_task. intros H Hv. updated H. solve_view. Qed.

Lemma settled_task_view t d d' v :
  settled_task t d = Ok d' -> view_of d = Some v ->
  view_of d' = Some (set_view t (tv_claim v) (tv_attempt v) v).
Proof. unfold settled_task. intros H Hv. updated H. solve_view. Qed.

Lemma cancelled_task_view now r d d' v :
  cancelled_task now r d = Ok d' -> view_of d = Some v ->
  view_of d' = Some (set_view TASK_CANCELLED None (tv_attempt v) v).
Proof. unfold cancelled_task. intros H Hv. updated H. solve_view. Qed.

Lemma retry_waiting_task_view now r d d' v :
  retry_waiting_task now r d = Ok d' -> view_of d = Some v ->
  view_of d' = Some (set_view TASK_RETRY_WAIT None (tv_attempt v) v).
Proof. unfold retry_waiting_task. intros H Hv. updated H. solve_view. Qed.

Lemma reassigned_task_view now d d' v :
  reassigned_task now d = Ok d' -> view_of d = Some v ->
  view_of d' = Some (set_view TASK_RETRY_WAIT None (tv_attempt v) v).
Proof.
  unfold reassigned_task. intros H Hv. invert_Ok H. injection H as <-.
  assert (v0 = tv_rev v) as ->.
  { apply view_of_spec in Hv as (_ & _ & _ & _ & _ & Hr & _).
    unfold get_int, dget in E. rewrite Hr in E. by injection E. }
  solve_view.
Qed.

Lemma claimed_task_view a now c d d' v :
  claimed_task a now c d = Ok d' -> view_of d = Some v ->
  view_of d' = Some (set_view TASK_CLAIMED (Some c) a v).
Proof. unfold claimed_task. intros H Hv. updated H. solve_view. Qed.

(** ** Writing a task *)

Section tasks.
Context `{Env, QueueEnv} (q : queue) `{!Leadership q}.

(** The record at [k] has view [v]. *)
Definition at_view (s : mem) (k : string) (v : tview) : Prop :=
  exists b, s !! k = Some b /\ blob_view b = Some v.

Lemma wf_at_view s k v : wf_tasks s -> task_area k -> at_view s k v -> wf_view k v.
Proof. intros Hwf Hk (b & Hb & Hv). destruct (Hwf k b Hk Hb) as (v' & Hv' & Hw). congruence. Qed.

(** After a write of the task at [k]: only [k] changed, by one step, to the
    new view; or nothing changed. *)
Definition task_written (k : string) (v' : tview) (r : res unit) (s s' : mem) : Prop :=
  wf_tasks s' /\ task_steps s s' /\ (forall k', k' <> k -> s' !! k' = s !! k') /\
  match r with Ok _ => at_view s' k v' | Err _ => s' = s end.

Lemma write_task key k v v' new w :
  wf_tasks (w_store w) -> normalize_key key = Ok k -> task_area k ->
  at_view (w_store w) k v -> view_of new = Some v' -> step_ok v v' -> wf_view k v' ->
  wp (write_ q key new) (fun r w' => task_written k v' r (w_store w) (w_store w')) w.
Proof.
  intros Hwf Hn Hk (b & Hb & Hv) Hnew Hstep Hwv.
  eapply wp_mono; [by apply write_effect|]. intros [[]|e] w'; cbn; intros Hw.
  2: { rewrite Hw. by split_and!. }
  destruct Hw as (k1 & d & Hn1 & Hst & Hs & _). rewrite Hn in Hn1. injection Hn1 as <-.
  assert (blob_view (encode d) = Some v') as Hd by (cbn; by rewrite (stamped_view _ _ Hst)).
  rewrite Hs. split_and!.
  - intros k' b' Hk' Hb'. destruct (decide (k' = k)) as [->|Hne].
    + rewrite lookup_insert_eq in Hb'. injection Hb' as <-. by exists v'.
    + rewrite lookup_insert_ne in Hb' by done. by apply Hwf.
  - intros k' Hk'. destruct (decide (k' = k)) as [->|Hne].
    + rewrite Hb, lookup_insert_eq. right. exists v, v'. split_and!; [done..|by apply rtc_once].
    + rewrite lookup_insert_ne by done. by destruct (w_store w !! k').
  - intros k' Hne. by rewrite lookup_insert_ne.
  - exists (encode d). by rewrite lookup_insert_eq.
Qed.

(** Reading a task by id. *)
Lemma get_task_wf id w d :
  wf_tasks (w_store w) -> read_result (w_store w) (task_key id) = Ok (Some d) ->
  exists k v, normalize_key (task_key id) = Ok k /\ task_area k /\ view_of d = Some v /\
    at_view (w_store w) k v /\ wf_view k v.
Proof.
  intros Hwf (k & Hk & Hs)%read_result_some.
  pose proof (task_key_area _ _ Hk) as Ha. destruct (Hwf _ _ Ha Hs) as (v & Hv & Hw).
  exists k, v. split_and!; [done..| |done]. by exists (encode d).
Qed.

(** The computation [f] run on the task read at an id. *)
Lemma good_get_task {A} id (f : option dict -> M world A) :
  good (f None) ->
  (forall d k v w, wf_tasks (w_store w) -> normalize_key (task_key id) = Ok k -> task_area k ->
     view_of d = Some v -> at_view (w_store w) k v -> wf_view k v ->
     wp (f (Some d)) (fun _ w' => wf_tasks (w_store w') /\
                                  task_steps (w_store w) (w_store w')) w) ->
  good (get_task id ≫= f).
Proof.
  intros Hnone Hsome w Hwf. unfold get_task, mbind, M_bind. rewrite read_eq.
  destruct (read_result (w_store w) (task_key id)) as [[d|]|e] eqn:E; [|by apply Hnone|done].
  destruct (get_task_wf _ _ _ Hwf E) as (k & v & ? & ? & ? & ? & ?). by eapply Hsome.
Qed.

Lemma write_task_then {A} key k v v' new (m : M world A) w :
  wf_tasks (w_store w) -> normalize_key key = Ok k -> task_area k ->
  at_view (w_store w) k v -> view_of new = Some v' -> step_ok v v' -> wf_view k v' ->
  good m ->
  wp (write_ q key new ≫= fun _ => m)
    (fun _ w' => wf_tasks (w_store w') /\ task_steps (w_store w) (w_store w')) w.
Proof.
  intros. apply wp_bind. eapply wp_mono; [by eapply write_task|].
  intros [[]|e] w' (Hwf & Hst & _ & Hr); [|done]. by apply wp_after.
Qed.

Lemma wf_view_set k s c a v :
  wf_view k v -> (is_Some c <-> s = TASK_CLAIMED) -> wf_view k (set_view s c a v).
Proof. intros [Hk _] Hc. by split. Qed.

Lemma step_ok_set s c a v :
  (s = tv_state v \/ valid_task_transition (tv_state v) s = true) -> tv_attempt v <= a ->
  step_ok v (set_view s c a v).
Proof. intros [->|Hs] Ha; (split; [|done]); [left; cbn; split; [done|lia]|by right]. Qed.

(** ** The list of tasks *)

Definition record_at (s : mem) (k : string) : dict :=
  match s !! k with Some (BJson (JObj d)) => d | _ => ∅ end.

Lemma wf_record_at s k b :
  wf_tasks s -> task_area k -> s !! k = Some b ->
  b = encode (record_at s k) /\ normalize_key k = Ok k /\
  exists v, view_of (record_at s k) = Some v /\ wf_view k v.
Proof.
  intros Hwf Hk Hb. destruct (Hwf k b Hk Hb) as (v & Hv & Hn & Hc).
  unfold record_at. rewrite Hb. destruct b as [[| | | | |d]|]; try done.
  split_and!; [done| |by exists v]. by eapply normalize_safe, normalized_is_safe.
Qed.

Lemma fold_read s (items : list object_stat) acc w :
  w_store w = s ->
  (forall i, i ∈ items -> read_result s (os_key i) = Ok (Some (record_at s (os_key i)))) ->
  foldM (fun acc item => r ← read_ (os_key item);
           mret (match r with Some d => acc ++ [d] | None => acc end)) acc items w
  = (Ok (acc ++ map (fun i => record_at s (os_key i)) items), w).
Proof.
  intros Hw. revert acc. induction items as [|i items IH]; intros acc Hi; cbn.
  - by rewrite app_nil_r.
  - unfold mbind at 1, M_bind at 1. unfold mbind at 1, M_bind at 1. rewrite read_eq, Hw.
    rewrite Hi by (by left). cbn. rewrite IH by (intros; apply Hi; by right).
    by rewrite <- app_assoc.
Qed.

Lemma tasks_dir k :
  startswith k (lstrip_char slash (replace_char backslash slash (TASKS_PREFIX +:+ "/"))) = true
  <-> exists t, k = TASKS_PREFIX +:+ "/" +:+ t.
Proof.
  change (lstrip_char slash (replace_char backslash slash (TASKS_PREFIX +:+ "/")))
    with (TASKS_PREFIX +:+ "/").
  rewrite startswith_spec. by setoid_rewrite app_assoc_s.
Qed.

Lemma read_all_tasks w :
  wf_tasks (w_store w) ->
  exists l, read_all TASKS_PREFIX w = (Ok l, w) /\ NoDup l /\
    forall d, d ∈ l <-> exists t, w_store w !! (TASKS_PREFIX +:+ "/" +:+ t) = Some (encode d).
Proof.
  intros Hwf. set (s := w_store w).
  destruct (list_spec (TASKS_PREFIX +:+ "/") s) as (items & Hl & _ & Hnd & Hin).
  assert (forall i, i ∈ items -> exists b, s !! os_key i = Some b /\ task_area (os_key i)) as Hit.
  { intros i (k & b & Hb & Hp & ->)%Hin. exists b. split; [done|].
    apply tasks_dir in Hp as [t Hp]. right. by exists t. }
  exists (map (fun i => record_at s (os_key i)) items). split_and!.
  - unfold read_all, st. unfold mbind at 1, M_bind at 1. fold s. rewrite Hl. cbn [fst snd].
    unfold s. rewrite set_store_id. apply (fold_read (w_store w) items []); [done|]. fold s. intros i Hi.
    destruct (Hit i Hi) as (b & Hb & Ha).
    destruct (wf_record_at s _ _ Hwf Ha Hb) as (Heq & Hn & _).
    eapply read_result_at; [exact Hn|]. by rewrite Hb, Heq.
  - clear Hl Hin. induction items as [|i items IH]; [constructor|].
    inversion Hnd as [|? ? Hni Hnd']; subst. cbn. constructor.
    2: { apply IH; [done|]. intros; apply Hit; by right. }
    intros (j & Heq & Hj)%list_elem_of_fmap. apply Hni.
    destruct (Hit i) as (b & Hb & Ha); [by left|].
    destruct (Hit j) as (b' & Hb' & Ha'); [by right|].
    destruct (wf_record_at s _ _ Hwf Ha Hb) as (_ & _ & v & Hv & [Hn _]).
    destruct (wf_record_at s _ _ Hwf Ha' Hb') as (_ & _ & v' & Hv' & [Hn' _]).
    assert (v = v') as <- by congruence. rewrite Hn in Hn'. injection Hn' as ->.
    apply list_elem_of_fmap. by exists j.
  - intros d. rewrite list_elem_of_fmap. split.
    + intros (i & -> & Hi). destruct (Hit i Hi) as (b & Hb & Ha).
      destruct (wf_record_at s _ _ Hwf Ha Hb) as (Heq & _ & _).
      apply Hin in Hi as (k & b2 & Hk & Hp & ->). cbn in *.
      apply tasks_dir in Hp as [t ->]. exists t. by rewrite Hb, Heq.
    + intros [t Ht]. exists (mk_stat (TASKS_PREFIX +:+ "/" +:+ t) (encode d)). split.
      * unfold record_at. cbn [os_key mk_stat]. by rewrite Ht.
      * apply Hin. exists (TASKS_PREFIX +:+ "/" +:+ t), (encode d). split_and!; [done| |done].
        apply tasks_dir. by exists t.
Qed.

Lemma sort_by_task_id_ok l :
  Forall (fun d => exists v, view_of d = Some v) l ->
  exists l', sort_by_task_id l = Ok l' /\ l' ≡ₚ l.
Proof.
  intros Hl. unfold sort_by_task_id.
  assert (exists keyed, res_map (fun d => i ← task_id_of d; Ok (i, d)) l = Ok keyed /\
            map snd keyed = l) as (keyed & -> & Hk).
  { induction Hl as [|d l [v Hv] Hl (keyed & IH & Hk)]; [by exists []|].
    exists ((tv_id v, d) :: keyed). cbn [res_map]. rewrite (id_view _ _ Hv). cbn.
    rewrite IH. cbn. split; [done|by rewrite Hk]. }
  cbn. eexists. split; [done|]. rewrite <- Hk. apply fmap_Permutation.
  apply merge_sort_Permutation.
Qed.

Lemma list_tasks_ok w :
  wf_tasks (w_store w) ->
  exists l, list_tasks w = (Ok l, w) /\ NoDup l /\
    forall d, d ∈ l <-> exists t, w_store w !! (TASKS_PREFIX +:+ "/" +:+ t) = Some (encode d).
Proof.
  intros Hwf. destruct (read_all_tasks w Hwf) as (l & Hl & Hnd & Hin).
  destruct (sort_by_task_id_ok l) as (l' & Hs & Hp).
  { apply Forall_forall. intros d [t Ht]%Hin.
    destruct (Hwf _ _ (or_intror (ex_intro _ t eq_refl)) Ht) as (v & Hv & _). by exists v. }
  exists l'. split_and!.
  - unfold list_tasks, mbind, M_bind. rewrite Hl. unfold lift. by rewrite Hs.
  - by rewrite Hp.
  - intros d. by rewrite Hp.
Qed.

(** ** Loops over the list of tasks *)

(** [d] is the record of some task in the store, at its own key. *)
Definition current (s : mem) (d : dict) : Prop :=
  exists k v, task_area k /\ s !! k = Some (encode d) /\ view_of d = Some v /\ wf_view k v.

(** The key of a record. *)
Definition key_is (d : dict) (k : string) : Prop :=
  exists v, view_of d = Some v /\ normalize_key (task_key (tv_id v)) = Ok k.

Lemma current_in_list s l :
  wf_tasks s ->
  (forall d, d ∈ l <-> exists t, s !! (TASKS_PREFIX +:+ "/" +:+ t) = Some (encode d)) ->
  Forall (current s) l.
Proof.
  intros Hwf Hin. apply Forall_forall. intros d [t Ht]%Hin.
  assert (task_area (TASKS_PREFIX +:+ "/" +:+ t)) as Ha by (right; by exists t).
  destruct (Hwf _ _ Ha Ht) as (v & Hv & Hw). by eexists _, v.
Qed.

Lemma current_other s s' d d' :
  current s d -> current s d' -> d <> d' ->
  (forall k, task_area k -> ~ key_is d k -> s' !! k = s !! k) -> current s' d'.
Proof.
  intros (k & v & Ha & Hs & Hv & Hw) (k' & v' & Ha' & Hs' & Hv' & Hw') Hne Hsame.
  exists k', v'. split_and!; try done. rewrite Hsame; [done|done|].
  intros (v2 & Hv2 & Hn). destruct Hw as [Hw _]. assert (v2 = v) as -> by congruence.
  rewrite Hw in Hn. injection Hn as ->. rewrite Hs in Hs'. by injection Hs' as ->.
Qed.

Lemma key_is_area d k : key_is d k -> task_area k.
Proof. intros (v & _ & Hk). by apply task_key_area in Hk. Qed.

Lemma key_is_inj s d d' k :
  current s d -> current s d' -> key_is d k -> key_is d' k -> d = d'.
Proof.
  intros (k1 & v1 & _ & Hs1 & Hv1 & [Hn1 _]) (k2 & v2 & _ & Hs2 & Hv2 & [Hn2 _])
    (u1 & Hu1 & Hk1) (u2 & Hu2 & Hk2).
  assert (u1 = v1) as -> by congruence. assert (u2 = v2) as -> by congruence.
  rewrite Hn1 in Hk1. rewrite Hn2 in Hk2. injection Hk1 as ->. injection Hk2 as ->.
  rewrite Hs1 in Hs2. by injection Hs2.
Qed.

(** A loop whose body, on a current record, behaves and touches no other
    task.  [Q d] is what the body establishes of the record it visited. *)
Lemma task_loop {R : relation mem} `{!TaskRel R} {B} (f : B -> dict -> M world B) (Q : dict -> mem -> Prop) :
  (forall d s s', Q d s -> (forall k, key_is d k -> s' !! k = s !! k) -> Q d s') ->
  (forall b d w, wf_tasks (w_store w) -> current (w_store w) d ->
     wp (f b d) (fun r w' => wf_tasks (w_store w') /\ R (w_store w) (w_store w') /\
       (forall k, task_area k -> ~ key_is d k -> w_store w' !! k = w_store w !! k) /\
       (is_Ok r -> Q d (w_store w'))) w) ->
  forall l b w, wf_tasks (w_store w) -> NoDup l -> Forall (current (w_store w)) l ->
    wp (foldM f b l) (fun r w' => wf_tasks (w_store w') /\
       R (w_store w) (w_store w') /\
       (forall k, task_area k -> (forall d, d ∈ l -> ~ key_is d k) ->
          w_store w' !! k = w_store w !! k) /\
       (is_Ok r -> forall d, d ∈ l -> Q d (w_store w'))) w.
Proof.
  intros HQ Hf l. induction l as [|d l IH]; intros b w Hwf Hnd Hcur.
  { apply wp_ret. split_and!; [done..|]. intros _ d Hd. set_solver. }
  apply NoDup_cons in Hnd as [Hd Hnd]. apply Forall_cons in Hcur as [Hc Hcur].
  apply wp_bind. eapply wp_mono; [by apply Hf|].
  intros [b'|e] w' (Hwf' & Hst & Hsame & HQd).
  2: { split_and!; [done|done| |by intros []]. intros k Ha Hk. apply Hsame; [done|]. apply Hk. by left. }
  eapply wp_mono; [apply IH; try done|].
  - apply Forall_forall. intros d' Hd'. eapply (current_other _ _ d d'); try done.
    + by eapply Forall_elem.
    + by intros ->.
  - intros r w2 (H1 & H2 & H3 & H4). split_and!; [done|by etrans| |].
    + intros k Ha Hk. rewrite H3, Hsame; [done|done|apply Hk; by left|done|].
      intros; apply Hk. by right.
    + intros Hr d' [->|Hd']%elem_of_cons; [|by apply H4].
      eapply HQ; [apply HQd; by eexists|]. intros k Hk.
      apply H3; [by eapply key_is_area|]. intros d2 Hd2 Hk2.
      apply Hd. rewrite (key_is_inj (w_store w) d d2 k); try done.
      by eapply Forall_elem.
Qed.
End tasks.
