(* ===== verification/QueueOps.v ===== *)
(** * The operations of the queue, one by one

    Each operation keeps the task records well formed and changes them only by
    steps of the transition table. *)

From S2P Require Import Prelude PyText Sha256 Json ArtifactStore World Lease Contract ReadPlan.
From S2P Require Import Generation WorkQueue QueueStore QueueTasks.
Import MemoryStore.

(** The effect of a loop body on the task [d] it visits. *)
Definition visits_by (R : relation mem) (d : dict) (s s' : mem) : Prop :=
  wf_tasks s' /\ R s s' /\ forall k, task_area k -> ~ key_is d k -> s' !! k = s !! k.
Abbreviation visits := (visits_by task_steps).

Lemma visits_refl {R : relation mem} `{HR : !TaskRel R} d s : wf_tasks s -> visits_by R d s s.
Proof. intros Hs. unfold visits_by. by split_and!. Qed.

(** Run a fallible pure step whose failure leaves the state alone. *)
Ltac try_lift :=
  apply wp_bind, wp_lift;
  lazymatch goal with
  | |- match ?x with _ => _ end => destruct x eqn:?; [|first [done|by apply visits_refl]]
  end.

(** Run a pure step whose result the view of the record determines. *)
Ltac view_step :=
  lazymatch goal with
  | H : view_of ?d = Some _ |- match get_dict ?d "claim" with _ => _ end => rewrite (claim_view _ _ H)
  | H : view_of ?d = Some _ |- match get_dict ?d "task" with _ => _ end => rewrite (payload_view _ _ H)
  | H : view_of ?d = Some _ |- match dget_req ?d "state" with _ => _ end => rewrite (state_view _ _ H)
  | H : view_of ?d = Some _ |- match task_id_of ?d with _ => _ end => rewrite (id_view _ _ H)
  | H : view_of ?d = Some _ |- match req_int ?d "attempt" with _ => _ end => rewrite (attempt_view _ _ H)
  | H : view_of ?d = Some _ |- match req_int ?d "max_attempts" with _ => _ end => rewrite (max_view _ _ H)
  | H : view_of ?d = Some _ |- match bump ?d with _ => _ end => rewrite (bump_view _ _ H)
  | |- match in_set (js _) _ with _ => _ end => rewrite in_set_js
  end.
Ltac view_lift := apply wp_bind, wp_lift; view_step.

Lemma waiting_inv s : s ∈ [TASK_QUEUED; TASK_RETRY_WAIT] -> s = TASK_QUEUED \/ s = TASK_RETRY_WAIT.
Proof. set_solver. Qed.

Section ops.
Context `{Env, QueueEnv} (q : queue) `{!Leadership q}.

Lemma queued_no_claim k v :
  wf_view k v -> tv_state v <> TASK_CLAIMED -> tv_claim v = None.
Proof. intros [_ Hc] Hs. destruct (tv_claim v); [|done]. exfalso. apply Hs, Hc. by eexists. Qed.

(** A body that rewrites its own task once and returns. *)
Lemma visit_write {A} (x : A) d k v new s' c' a' w :
  wf_tasks (w_store w) -> task_area k -> w_store w !! k = Some (encode d) ->
  view_of d = Some v -> wf_view k v ->
  view_of new = Some (set_view s' c' a' v) ->
  (s' = tv_state v \/ valid_task_transition (tv_state v) s' = true) ->
  tv_attempt v <= a' -> (is_Some c' <-> s' = TASK_CLAIMED) ->
  wp (write_ q (task_key (tv_id v)) new ≫= fun _ => mret x)
    (fun _ w' => visits d (w_store w) (w_store w')) w.
Proof.
  intros Hwf Ha Hs Hv Hw Hnew Hst Hat Hc. apply wp_bind.
  assert (forall k', ~ key_is d k' -> k' <> k) as Hk.
  { intros k' Hn ->. apply Hn. exists v. split; [done|apply Hw]. }
  eapply wp_mono.
  { eapply (write_task q _ k v (set_view s' c' a' v)); try done; [apply Hw|by exists (encode d)| |].
    - by apply step_ok_set.
    - by apply wf_view_set. }
  intros [[]|e] w' (H1 & H2 & H3 & _); [apply wp_ret|]; split_and!; auto.
Qed.

Lemma fence_one_visits owner fence now n d w :
  wf_tasks (w_store w) -> current (w_store w) d ->
  wp (fence_one q owner fence now n d) (fun _ w' => visits d (w_store w) (w_store w')) w.
Proof.
  intros Hwf (k & v & Ha & Hs & Hv & Hw). unfold fence_one.
  view_lift. view_lift. case_bool_decide as Hc; cbn [negb]; [|by apply wp_ret, visits_refl].
  apply js_inj in Hc. try_lift. destruct a; [by apply wp_ret, visits_refl|].
  try_lift. rename a into new.
  match goal with E : retry_waiting_task _ _ _ = Ok _ |- _ =>
    pose proof (retry_waiting_task_view _ _ _ _ _ E Hv) as Hnew end.
  apply wp_bind, wp_lift. rewrite (id_view _ _ Hnew). cbn [tv_id set_view].
  eapply visit_write; try done. right. by rewrite Hc.
Qed.

Lemma reassign_one_visits g ws now n d w :
  wf_tasks (w_store w) -> current (w_store w) d ->
  wp (reassign_one q g ws now n d) (fun _ w' => visits d (w_store w) (w_store w')) w.
Proof.
  intros Hwf (k & v & Ha & Hs & Hv & Hw). unfold reassign_one. view_lift.
  assert (dget d "state" JNull = js (tv_state v)) as ->.
  { apply view_of_spec in Hv as (_ & Hst & _). unfold dget. by rewrite Hst. }
  case_bool_decide as Hc.
  2: { apply wp_bind, wp_lift, wp_ret. by apply visits_refl. }
  apply js_inj in Hc. try_lift. destruct a; [by apply wp_ret, visits_refl|].
  view_lift. try_lift. destruct a; [by apply wp_ret, visits_refl|].
  try_lift. rename a into new.
  match goal with E : reassigned_task _ _ = Ok _ |- _ =>
    pose proof (reassigned_task_view _ _ _ _ E Hv) as Hnew end.
  apply wp_bind, wp_lift. rewrite (id_view _ _ Hnew). cbn [tv_id set_view].
  eapply visit_write; try done. right. by rewrite Hc.
Qed.

(** A task that expiry has nothing to do with at [now]: an unfinished one is
    within its deadline, and a claimed one within its claim. *)
Definition not_due (now : Z) (v : tview) : Prop :=
  (tv_state v ∈ [TASK_QUEUED; TASK_RETRY_WAIT; TASK_CLAIMED] ->
     exists dl, get_int (tv_payload v) "deadline_ms" 0 = Ok dl /\ past dl now = false) /\
  (tv_state v = TASK_CLAIMED ->
     exists e, get_int (default ∅ (tv_claim v)) "expires_at_ms" 0 = Ok e /\ now < e).

Definition settled_at (P : tview -> Prop) (d : dict) (s : mem) : Prop :=
  exists k v, key_is d k /\ at_view s k v /\ P v.

Lemma settled_at_frame P d s s' :
  settled_at P d s -> (forall k, key_is d k -> s' !! k = s !! k) -> settled_at P d s'.
Proof.
  intros (k & v & Hk & Hat & HP) Hs. exists k, v. split_and!; try done.
  unfold at_view in *. by rewrite Hs.
Qed.

(** The first branch of the loop: an unclaimed task past its deadline. *)
Lemma expire_waiting_wp now n d k v w :
  wf_tasks (w_store w) -> task_area k -> w_store w !! k = Some (encode d) ->
  view_of d = Some v -> wf_view k v -> tv_state v ∈ [TASK_QUEUED; TASK_RETRY_WAIT] ->
  wp (task ← lift (deadline_failed now d); tid ← lift (task_id_of task);
      write_ q (task_key tid) task;; mret (n + 1))
    (fun r w' => visits d (w_store w) (w_store w') /\
       (is_Ok r -> settled_at (not_due now) d (w_store w'))) w.
Proof.
  intros Hwf Ha Hs Hv Hw Hwait. apply wp_bind, wp_lift.
  destruct (deadline_failed now d) as [new|] eqn:E; [|split; [by apply visits_refl|by intros []]].
  pose proof (deadline_failed_view _ _ _ _ E Hv) as Hnew.
  apply wp_bind, wp_lift. rewrite (id_view _ _ Hnew). cbn [tv_id set_view]. apply wp_bind.
  apply waiting_inv in Hwait. destruct Hw as [Hn Hc].
  assert (tv_claim v = None) as Hcl.
  { eapply queued_no_claim; [by split|]. destruct Hwait as [->| ->]; done. }
  rewrite Hcl in Hnew.
  eapply wp_mono.
  { eapply (write_task q _ k v); try done; [by exists (encode d)| |].
    - apply step_ok_set; [destruct Hwait as [->| ->]; by right|lia].
    - apply wf_view_set; [by split|]. split; [by intros []|done]. }
  intros r w' (H1 & H2 & H3 & H4).
  assert (visits d (w_store w) (w_store w')) as Hvis.
  { split_and!; [done|done|]. intros k' _ Hk'. apply H3. intros ->. apply Hk'. by exists v. }
  destruct r as [[]|e]; [apply wp_ret|]; (split; [done|]); [|by intros []]. intros _.
  exists k, (set_view TASK_FAILED None (tv_attempt v) v). split_and!; [by exists v|done|].
  split; [cbn; set_solver|done].
Qed.

(** The second branch: an expired claim, written as expired and then settled. *)
Lemma expire_claimed_wp now dl n d k v w :
  wf_tasks (w_store w) -> task_area k -> w_store w !! k = Some (encode d) ->
  view_of d = Some v -> wf_view k v -> tv_state v = TASK_CLAIMED ->
  get_int (tv_payload v) "deadline_ms" 0 = Ok dl ->
  wp (failed ← lift (exhausted dl now d);
      let target := if (failed : bool) then TASK_FAILED else TASK_QUEUED in
      tid ← lift (task_id_of d);
      task ← lift (expired_task now dl d);
      write_ q (task_key tid) task;;
      task ← lift (settled_task target task);
      write_ q (task_key tid) task;; mret (n + 1))
    (fun r w' => visits d (w_store w) (w_store w') /\
       (is_Ok r -> settled_at (not_due now) d (w_store w'))) w.
Proof.
  intros Hwf Ha Hs Hv Hw Hc Hdl. apply wp_bind, wp_lift. unfold exhausted.
  rewrite (attempt_view _ _ Hv). cbn [mbind res_bind]. rewrite (max_view _ _ Hv).
  cbn [mbind res_bind]. set (failed := (_ <=? _) || _). cbv zeta. view_lift.
  apply wp_bind, wp_lift.
  destruct (expired_task now dl d) as [exp|] eqn:Ee; [|split; [by apply visits_refl|by intros []]].
  pose proof (expired_task_view _ _ _ _ _ Ee Hv) as Hexp.
  assert (forall k', ~ key_is d k' -> k' <> k) as Hk.
  { intros k' Hn ->. apply Hn. exists v. split; [done|apply Hw]. }
  set (v1 := set_view TASK_EXPIRED None (tv_attempt v) v) in *.
  assert (wf_view k v1) as Hw1 by (apply wf_view_set; [done|by split; [intros []|]]).
  apply wp_bind. eapply wp_mono.
  { eapply (write_task q _ k v v1); try done; [apply Hw|by exists (encode d)|].
    apply step_ok_set; [right; by rewrite Hc|lia]. }
  intros [[]|x] w' (H1 & H2 & H3 & H4); [|split; [by split_and!; auto|by intros []]].
  apply wp_bind, wp_lift.
  destruct (settled_task _ exp) as [fin|] eqn:Ef; [|split; [by split_and!; auto|by intros []]].
  pose proof (settled_task_view _ _ _ _ Ef Hexp) as Hfin.
  apply wp_bind. eapply wp_mono.
  { eapply (write_task q _ k v1); try done; [apply Hw| |].
    - apply step_ok_set; [right; by destruct failed|lia].
    - apply wf_view_set; [done|]. split; [by intros []|by destruct failed]. }
  intros r w2 (G1 & G2 & G3 & G4).
  assert (visits d (w_store w) (w_store w2)) as Hvis.
  { split_and!; [done|by etrans|]. intros k' _ Hk'. rewrite G3, H3; auto. }
  destruct r as [[]|x]; [apply wp_ret|]; (split; [done|]); [|by intros []]. intros _.
  eexists k, _. split_and!; [exists v; split; [done|apply Hw]|exact G4|].
  split.
  - intros Hf. exists dl. split; [done|]. destruct failed eqn:Hfl; [cbn in Hf; set_solver|].
    unfold failed in Hfl. by apply orb_false_iff in Hfl as [_ ?].
  - cbn. by destruct failed.
Qed.

Lemma expire_one_wp now n d w :
  wf_tasks (w_store w) -> current (w_store w) d ->
  wp (expire_one q now n d) (fun r w' => visits d (w_store w) (w_store w') /\
       (is_Ok r -> settled_at (not_due now) d (w_store w'))) w.
Proof.
  intros Hwf (k & v & Ha & Hs & Hv & Hw). unfold expire_one. view_lift.
  assert (visits d (w_store w) (w_store w)) as Hvis by (by apply visits_refl).
  assert (key_is d k) as Hk by (exists v; split; [done|apply Hw]).
  assert (at_view (w_store w) k v) as Hat by (by exists (encode d)).
  apply wp_bind, wp_lift. unfold deadline_of. rewrite (payload_view _ _ Hv). cbn [mbind res_bind].
  destruct (get_int (tv_payload v) "deadline_ms" 0) as [dl|] eqn:Edl; [|split; [done|by intros []]].
  view_lift. view_lift. case_bool_decide as Hwait; cbn [andb].
  - destruct (past dl now) eqn:Hp; [by eapply expire_waiting_wp|].
    rewrite bool_decide_eq_false_2.
    2: { rewrite js_inj. intros Heq. rewrite Heq in Hwait. set_solver. }
    apply wp_ret. split; [done|]. intros _. exists k, v. split_and!; [done|done|]. split; [by exists dl|].
    intros Heq. rewrite Heq in Hwait. set_solver.
  - case_bool_decide as Hc.
    2: { apply wp_ret. split; [done|]. intros _. exists k, v. split_and!; [done|done|]. split.
         - intros Hin. exfalso. rewrite js_inj in Hc. set_solver.
         - intros Hcl. by rewrite js_inj in Hc. }
    apply js_inj in Hc. apply wp_bind, wp_lift.
    destruct (get_int _ "expires_at_ms" 0) as [e|] eqn:Ee; [|split; [done|by intros []]].
    destruct ((e <=? now) || past dl now) eqn:Hexp; [by eapply expire_claimed_wp|].
    apply orb_false_iff in Hexp as [He Hp]. apply wp_ret. split; [done|]. intros _.
    exists k, v. split_and!; [done|done|]. split; [by exists dl|]. intros _. exists e. split; [done|lia].
Qed.

Lemma expire_one_visits now n d w :
  wf_tasks (w_store w) -> current (w_store w) d ->
  wp (expire_one q now n d) (fun _ w' => visits d (w_store w) (w_store w')) w.
Proof. intros. eapply wp_mono; [by apply expire_one_wp|]. by intros r w' [? _]. Qed.

(** A loop over all tasks followed by other work. *)
Lemma keeps_list_tasks (R : relation mem) `{!TaskRel R} {A B} (f : B -> dict -> M world B) (b : B) (g : B -> M world A) :
  (forall b d w, wf_tasks (w_store w) -> current (w_store w) d ->
     wp (f b d) (fun _ w' => visits_by R d (w_store w) (w_store w')) w) ->
  (forall b, keeps R (g b)) ->
  keeps R (list_tasks ≫= fun l => foldM f b l ≫= g).
Proof.
  intros Hf Hg. apply keeps_intro. intros w Hwf.
  destruct (list_tasks_ok w Hwf) as (l & Hl & Hnd & Hin).
  apply wp_bind. eapply wp_run; [exact Hl|]. apply wp_bind.
  eapply wp_mono; [apply (task_loop q (R := R) f (fun _ _ => True)); try done; [|by apply current_in_list]|].
  - intros b2 d w2 Hw2 Hd. eapply wp_mono; [by apply Hf|]. intros r w3 (? & ? & ?). by split_and!.
  - intros [b'|e] w' (? & ? & _); [|done]. by apply wp_after.
Qed.

(** A loop over all tasks that establishes [P] of each, followed by [g]. *)
Lemma wp_all_tasks {A B} (f : B -> dict -> M world B) (P : tview -> Prop) b
    (g : B -> M world A) Post w :
  (forall b d w, wf_tasks (w_store w) -> current (w_store w) d ->
     wp (f b d) (fun r w' => visits d (w_store w) (w_store w') /\
       (is_Ok r -> settled_at P d (w_store w'))) w) ->
  wf_tasks (w_store w) ->
  (forall b' w', wf_tasks (w_store w') -> task_steps (w_store w) (w_store w') ->
     (forall t v, at_view (w_store w') (slot t) v -> P v) -> wp (g b') Post w') ->
  (forall e w', wf_tasks (w_store w') -> task_steps (w_store w) (w_store w') -> Post (Err e) w') ->
  wp (list_tasks ≫= fun l => foldM f b l ≫= g) Post w.
Proof.
  intros Hf Hwf Hg He. destruct (list_tasks_ok w Hwf) as (l & Hl & Hnd & Hin).
  apply wp_bind. eapply wp_run; [exact Hl|]. apply wp_bind.
  pose proof (current_in_list _ _ Hwf Hin) as Hcur.
  eapply wp_mono; [apply (task_loop q (R := task_steps) f (settled_at P)); try done|].
  - apply settled_at_frame.
  - intros b2 d w2 Hw2 Hd. eapply wp_mono; [by apply Hf|].
    intros r w3 ((? & ? & ?) & ?). by split_and!.
  - intros [b'|e] w' (H1 & H2 & H3 & H4); [|by apply He].
    apply Hg; [done|done|]. intros t v (x & Hx & Hxv).
    assert (exists d, d ∈ l /\ key_is d (slot t)) as (d & Hd & Hk).
    { set (keyed := fun d => (i ← task_id_of d; normalize_key (task_key i)) = Ok (slot t)).
      assert (forall d u, view_of d = Some u ->
        keyed d <-> normalize_key (task_key (tv_id u)) = Ok (slot t)) as Hkeyed.
      { intros d u Hu. unfold keyed. by rewrite (id_view _ _ Hu). }
      destruct (decide (Exists keyed l)) as [Hex|Hnex].
      + apply Exists_exists in Hex as (d & Hd & Hn). exists d. split; [done|].
        destruct (Forall_elem _ _ _ Hcur Hd) as (k & u & _ & _ & Hu & _). exists u.
        split; [done|by apply (Hkeyed d)].
      + exfalso. rewrite H3 in Hx.
        * destruct (Hwf _ _ (or_intror (ex_intro _ t eq_refl)) Hx) as (u & Hu & [Hn _]).
          destruct x as [[| | | | |d]|]; try done. apply Hnex, Exists_exists. exists d.
          split; [apply Hin; by exists t|by apply (Hkeyed d u)].
        * right. by exists t.
        * intros d Hd (u & Hu & Hn). apply Hnex, Exists_exists. exists d.
          split; [done|by apply (Hkeyed d u)]. }
    destruct (H4 ltac:(by eexists) d Hd) as (k & v' & Hk' & (y & Hy & Hyv) & HP).
    destruct Hk as (u1 & Hu1 & Hn1), Hk' as (u2 & Hu2 & Hn2).
    assert (u2 = u1) as -> by congruence. assert (k = slot t) as -> by congruence.
    congruence.
Qed.

(** ** Requests *)

(** What [_refresh_requests] does to the tasks: it only cancels unfinished ones. *)
Definition only_cancels (s s' : mem) : Prop :=
  task_steps s s' /\ forall k, task_area k -> s' !! k = s !! k \/
    exists v v', at_view s k v /\ (terminal (tv_state v) = false \/ tv_state v = TASK_CANCELLED) /\
      at_view s' k v' /\ tv_state v' = TASK_CANCELLED.

#[global] Instance only_cancels_rel : TaskRel only_cancels.
Proof.
  split; [split|].
  - intros s. split; [done|by left].
  - intros s1 s2 s3 [H1 G1] [H2 G2]. split; [by etrans|]. intros k Hk.
    destruct (G1 k Hk) as [E1|(v & v' & A1 & A2 & A3 & A4)],
      (G2 k Hk) as [E2|(u & u' & B1 & B2 & B3 & B4)].
    + left. congruence.
    + right. exists u, u'. unfold at_view in *. by rewrite <- E1.
    + right. exists v, v'. unfold at_view in *. by rewrite E2.
    + right. by exists v, u'.
  - intros s s' Hs. split; [by apply task_rel_same|]. intros k Hk. left. by apply Hs.
Qed.

Lemma keeps_mono {A} (R R' : relation mem) (m : M world A) :
  (forall s s', R s s' -> R' s s') -> keeps R m -> keeps R' m.
Proof. intros HR Hm w Hwf. destruct (Hm w Hwf). auto. Qed.

Lemma get_tasks_reads ids : reads (get_tasks ids).
Proof. unfold get_tasks, get_task. apply reads_foldM. intros b a. apply reads_bind; [apply read_reads|by intros]. Qed.

(** Every record [get_tasks] returns was read from the store. *)
Lemma get_tasks_from ids w :
  wp (get_tasks ids) (fun r w' => w' = w /\ forall l, r = Ok l ->
    Forall (fun t => exists i, read_result (w_store w) (task_key i) = Ok (Some t)) l) w.
Proof.
  unfold get_tasks, get_task.
  eapply wp_mono; [apply (wp_foldM _ (fun acc _ w' => w' = w /\
    Forall (fun t => exists i, read_result (w_store w) (task_key i) = Ok (Some t)) acc)
    (fun _ w' => w' = w))|].
  - intros acc i l w' [-> Hacc]. apply wp_bind. eapply wp_run; [apply read_eq|].
    destruct (read_result (w_store w) (task_key i)) as [[t|]|e] eqn:E; [| |done];
      apply wp_ret; split; try done.
    apply Forall_app. split; [done|]. constructor; [by exists i|constructor].
  - by split.
  - intros [l|e] w'; [|by intros ->]. intros [-> Hl]. split; [done|]. by intros l' [= <-].
Qed.

(** The records of a request, each still in the store as read from [s0], or
    already cancelled by this loop. *)
Definition cancelling (s0 s : mem) (t : dict) : Prop :=
  exists k v, task_area k /\ s0 !! k = Some (encode t) /\ view_of t = Some v /\ wf_view k v /\
    (at_view s k v \/
     (terminal (tv_state v) = false /\ at_view s k (set_view TASK_CANCELLED None (tv_attempt v) v))).

Lemma cancel_siblings_cancels now s0 l : forall w,
  wf_tasks (w_store w) -> Forall (cancelling s0 (w_store w)) l ->
  wp (forM_ (cancel_sibling q now) l) (fun _ w' => wf_tasks (w_store w') /\
    only_cancels (w_store w) (w_store w')) w.
Proof.
  unfold forM_. induction l as [|t l IH]; intros w Hwf Hl; [by apply wp_ret|].
  apply Forall_cons in Hl as [(k & v & Ha & Hs0 & Hv & Hw & Hcur) Hl].
  apply wp_bind. unfold cancel_sibling. view_lift. rewrite in_terminal_js.
  destruct (terminal (tv_state v)) eqn:Ht; [apply wp_ret; by apply IH|].
  try_lift. rename a into new.
  match goal with E : cancelled_task _ _ _ = Ok _ |- _ =>
    pose proof (cancelled_task_view _ _ _ _ _ E Hv) as Hnew end.
  apply wp_bind, wp_lift. rewrite (id_view _ _ Hnew). cbn [tv_id set_view].
  set (v' := set_view TASK_CANCELLED None (tv_attempt v) v) in *.
  assert (exists vc, at_view (w_store w) k vc /\ step_ok vc v' /\
    (terminal (tv_state vc) = false \/ tv_state vc = TASK_CANCELLED)) as (vc & Hvc & Hst & Hlive).
  { destruct Hcur as [Hcur|[_ Hcur]]; eexists; (split; [exact Hcur|split]).
    - apply step_ok_set; [right|lia]. by destruct (tv_state v).
    - by left.
    - split; [left; split; [done|lia]|lia].
    - by right. }
  eapply wp_mono.
  { eapply (write_task q _ k vc v'); try done; [apply Hw|].
    apply wf_view_set; [done|]. split; [by intros []|done]. }
  intros [[]|e] w' (H1 & H2 & H3 & H4); [|by rewrite H4].
  assert (only_cancels (w_store w) (w_store w')) as Hoc.
  { split; [done|]. intros k' Hk'. destruct (decide (k' = k)) as [->|Hne]; [|left; by apply H3].
    right. by exists vc, v'. }
  eapply wp_mono; [apply IH; [done|]|].
  - eapply Forall_impl; [exact Hl|]. intros t' (k' & v2 & Ha' & Hs' & Hv' & Hw' & Hcur').
    exists k', v2. split_and!; try done. destruct (decide (k' = k)) as [->|Hne].
    + rewrite Hs0 in Hs'. injection Hs' as <-. assert (v2 = v) as -> by congruence. by right.
    + unfold at_view. by rewrite H3 by done.
  - intros r w2 [? ?]. split; [done|by etrans].
Qed.

Lemma refresh_request_cancels now i t :
  os_key i = REQUESTS_PREFIX +:+ "/" +:+ t -> keeps only_cancels (refresh_request q now i).
Proof.
  intros Hi. assert (forall v, keeps only_cancels (write_ q (os_key i) v)) as Hwr.
  { intros v. apply keeps_write_elsewhere; [done|apply _|]. rewrite Hi.
    intros k Hk. apply area_normalize in Hk; [|done]. intros ?. by eapply request_not_task. }
  unfold refresh_request. apply keeps_bind; [by apply keeps_reads, read_reads|].
  intros [request|]; [|by apply keeps_reads].
  destruct (_ || _); [by apply keeps_reads|]. apply keeps_bind; [by apply keeps_reads|]. intros ids.
  apply keeps_intro. intros w Hwf. apply wp_bind. eapply wp_mono; [apply get_tasks_from|].
  intros [tasks|e] w' [-> Hg]; [|done]. specialize (Hg _ eq_refl).
  apply wp_bind, wp_lift. destruct (res_map _ tasks) as [states|e]; [|done].
  set (K := fun request : dict => write_ q (os_key i) (<["updated_at_ms" := JInt now]> request)).
  assert (forall r s w, wf_tasks (w_store w) -> only_cancels s (w_store w) ->
    wp (K r) (fun _ w' => wf_tasks (w_store w') /\ only_cancels s (w_store w')) w) as HK.
  { intros. apply wp_after; [apply Hwr|done..]. }
  apply wp_bind. destruct (_ && _); [by apply wp_ret, HK|].
  destruct (has_state states TASK_FAILED).
  2: { destruct (has_state states TASK_CLAIMED); [by apply wp_ret, HK|].
       destruct (has_state states TASK_RETRY_WAIT); by apply wp_ret, HK. }
  apply wp_bind. eapply wp_mono; [apply (cancel_siblings_cancels now (w_store w)); [done|]|].
  - eapply Forall_impl; [exact Hg|]. intros t0 [id Hid].
    destruct (get_task_wf _ _ _ Hwf Hid) as (k & v & Hk & Ha & Hv & Hat & Hw).
    apply read_result_some in Hid as (k' & Hk' & Hs). assert (k' = k) as -> by congruence.
    exists k, v. split_and!; try done. by left.
  - intros [[]|e] w' [? ?]; [|done]. by apply wp_ret, HK.
Qed.

Lemma refresh_requests_cancels now : keeps only_cancels (refresh_requests q now).
Proof.
  unfold refresh_requests. apply keeps_list; [done|]. intros items Hit.
  apply keeps_foldM. intros _ i [t Ht]%Hit. by eapply refresh_request_cancels.
Qed.

Lemma refresh_requests_good now : good (refresh_requests q now).
Proof. eapply keeps_mono; [|apply refresh_requests_cancels]. by intros s s' []. Qed.

Lemma expire_claims_good now : good (expire_claims q now).
Proof.
  unfold expire_claims. apply keeps_bind; [by apply keeps_reads, reads_now_or|]. intros n.
  apply (keeps_list_tasks task_steps (expire_one q n)); [apply expire_one_visits|].
  intros c. apply keeps_bind; [apply refresh_requests_good|]. intros. by apply keeps_reads.
Qed.

Lemma fence_claims_good o f : good (fence_claims q o f).
Proof.
  unfold fence_claims. apply keeps_bind; [by apply keeps_reads|]. intros n.
  apply (keeps_list_tasks task_steps (fence_one q o f n)); [apply fence_one_visits|]. intros c.
  apply keeps_bind; [destruct (truthy_int c); [apply refresh_requests_good|by apply keeps_reads]|].
  intros. by apply keeps_reads.
Qed.

Lemma reassign_fenced_claims_good g m now : good (reassign_fenced_claims q g m now).
Proof.
  unfold reassign_fenced_claims. apply keeps_bind; [by apply keeps_reads, reads_now_or|]. intros n.
  apply keeps_bind; [by apply keeps_reads|]. intros ws.
  apply (keeps_list_tasks task_steps (reassign_one q g ws n)); [apply reassign_one_visits|]. intros c.
  destruct (truthy_int c); [|by apply keeps_reads]. solve_keeps.
Qed.

(** ** Claims *)

Lemma requeue_waiting_wp id now d k v w :
  wf_tasks (w_store w) -> normalize_key (task_key id) = Ok k -> task_area k ->
  view_of d = Some v -> at_view (w_store w) k v -> wf_view k v ->
  tv_state v ∈ [TASK_QUEUED; TASK_RETRY_WAIT] ->
  wp (requeue_waiting q id now d) (fun r w' =>
    wf_tasks (w_store w') /\ task_steps (w_store w) (w_store w') /\
    match r with
    | Err _ => w_store w' = w_store w
    | Ok d' => exists v', view_of d' = Some v' /\ at_view (w_store w') k v' /\ wf_view k v' /\
        tv_state v' = TASK_QUEUED /\ tv_attempt v' = tv_attempt v /\ tv_id v' = tv_id v /\
        tv_payload v' = tv_payload v /\ tv_max v' = tv_max v
    end) w.
Proof.
  intros Hwf Hn Ha Hv Hat Hw Hst. unfold requeue_waiting. view_lift.
  case_bool_decide as Hr.
  2: { apply wp_ret. split_and!; [done..|]. exists v. split_and!; try done.
       apply waiting_inv in Hst as [?|Hs2]; [done|]. by rewrite Hs2 in Hr. }
  apply js_inj in Hr. view_lift. apply wp_bind.
  set (new := assign _ d).
  assert (tv_claim v = None) as Hc by (eapply queued_no_claim; [done|by rewrite Hr]).
  assert (view_of new = Some (set_view TASK_QUEUED None (tv_attempt v) v)) as Hnew.
  { rewrite <- Hc. unfold new. solve_view. }
  assert (wf_view k (set_view TASK_QUEUED None (tv_attempt v) v)) as Hwn.
  { apply wf_view_set; [done|]. split; [by intros []|done]. }
  eapply wp_mono.
  { eapply (write_task q _ k v); try done. apply step_ok_set; [right; by rewrite Hr|lia]. }
  intros [[]|e] w' (H1 & H2 & _ & H4); [apply wp_ret|by split_and!].
  split_and!; try done. by eexists.
Qed.

(** What a successful claim leaves behind. *)
Lemma claim_task_effect id agent lease owner fence mv wfence now ls w :
  wf_tasks (w_store w) ->
  wp (claim_task q id agent lease owner fence mv wfence now ls) (fun r w' =>
    wf_tasks (w_store w') /\ task_steps (w_store w) (w_store w') /\
    forall p, r = Ok p ->
      exists k v v' tok t dl staging,
        normalize_key (task_key id) = Ok k /\ at_view (w_store w) k v /\
        tv_state v ∈ [TASK_QUEUED; TASK_RETRY_WAIT] /\
        at_view (w_store w') k v' /\ tv_state v' = TASK_CLAIMED /\
        tv_attempt v' = tv_attempt v + 1 /\ tv_payload v' = tv_payload v /\
        get_int (tv_payload v) "deadline_ms" 0 = Ok dl /\
        tv_claim v' = Some (new_claim agent lease tok owner fence mv wfence t
          (claim_expiry t (default (q_task_lease_seconds q) ls) dl) staging
          (default (q_task_lease_seconds q) ls)) /\
        mt_claim_token p = tok /\ mt_attempt p = tv_attempt v' /\ mt_output_key p = staging /\
        match now with Some n => t = n | None => True end) w.
Proof.
  intros Hwf. unfold claim_task.
  destruct (_ <? 1) eqn:Hd; [by apply wp_raise|]. apply wp_bind.
  eapply (wp_mono _ (fun r w1 => w_store w1 = w_store w /\
    exists t, r = Ok t /\ match now with Some n => t = n | None => True end)).
  { destruct now; cbn; by (split; [done|eexists]). }
  intros r0 w1 (Hw1 & t & -> & Ht). apply wp_bind. unfold get_task.
  eapply wp_run; [apply read_eq|].
  destruct (read_result (w_store w1) (task_key id)) as [[d|]|e] eqn:Er;
    [|apply wp_raise; by rewrite Hw1|by rewrite Hw1].
  rewrite <- Hw1. rewrite <- Hw1 in Hwf. clear Hw1 w.
  destruct (get_task_wf _ _ _ Hwf Er) as (k & v & Hk & Ha & Hv & Hat & Hw).
  view_lift. view_lift. case_bool_decide as Hst; cbn [negb]; [|by apply wp_raise].
  try_lift. destruct (t <? a); [by apply wp_raise|]. clear a Heqr.
  apply wp_bind. eapply wp_mono; [by eapply requeue_waiting_wp|].
  intros [d'|e] w' (Hwf' & Hs' & Hp); [|by split_and!].
  destruct Hp as (v' & Hv' & Hat' & Hw' & Hst' & Hatt & Hid & Hpl & Hmx).
  view_lift. apply wp_bind. eapply wp_run; [reflexivity|]. cbn [w_store].
  apply wp_bind, wp_lift. unfold deadline_of. rewrite (payload_view _ _ Hv').
  cbn [mbind res_bind]. rewrite Hpl.
  destruct (get_int (tv_payload v) "deadline_ms" 0) as [dl|e] eqn:Edl; [|by split_and!].
  apply wp_bind, wp_lift. destruct (payload_of d') as [p|e] eqn:Ep; [|by split_and!].
  apply wp_bind, wp_lift. set (cl := new_claim _ _ _ _ _ _ _ _ _ _ _).
  destruct (claimed_task _ t cl d') as [d2|e] eqn:Ec; [|by split_and!].
  pose proof (claimed_task_view _ _ _ _ _ _ Ec Hv') as Hnew.
  apply wp_bind. eapply wp_mono.
  { eapply (write_task q _ k v'); try done.
    - apply step_ok_set; [right; by rewrite Hst'|lia].
    - apply wf_view_set; [done|]. split; [done|by eexists]. }
  intros [[]|e] w2 (H1 & H2 & _ & H4); cbn [w_store] in *; [apply wp_ret|].
  - split_and!; [done|by etrans|]. intros p' [= <-].
    eexists k, v, _, _, t, dl, _. split_and!; try done; cbn; by rewrite ?Hatt, ?Hpl.
  - split_and!; [done|by etrans|done].
Qed.

Lemma claim_task_good id agent lease owner fence mv wfence now ls :
  good (claim_task q id agent lease owner fence mv wfence now ls).
Proof.
  apply keeps_intro. intros w Hwf. eapply wp_mono; [by apply claim_task_effect|].
  intros r w' (? & ? & _). done.
Qed.

(** A single update of the task read at [id], followed by other work. *)
Lemma good_update {A} id new s' c' a' (m : M world A) k v w :
  wf_tasks (w_store w) -> normalize_key (task_key id) = Ok k -> task_area k ->
  at_view (w_store w) k v -> wf_view k v ->
  view_of new = Some (set_view s' c' a' v) ->
  (s' = tv_state v \/ valid_task_transition (tv_state v) s' = true) ->
  tv_attempt v <= a' -> (is_Some c' <-> s' = TASK_CLAIMED) -> good m ->
  wp (write_ q (task_key id) new ≫= fun _ => m)
    (fun _ w' => wf_tasks (w_store w') /\ task_steps (w_store w) (w_store w')) w.
Proof.
  intros. eapply write_task_then; try done; [by apply step_ok_set|by apply wf_view_set].
Qed.

Lemma renewable_inv a h now d v cl :
  view_of d = Some v -> renewable a h now d cl = Ok true ->
  tv_state v = TASK_CLAIMED /\ exists e, get_int cl "expires_at_ms" 0 = Ok e /\ now < e /\
    dget cl "agent_id" JNull = JStr a /\ get_str cl "agent_lease_hash" "" = Ok h.
Proof.
  intros Hv. unfold renewable. rewrite (state_view _ _ Hv). cbn [mbind res_bind].
  case_bool_decide as Hs; [|done]. apply js_inj in Hs. intros Hr. split; [done|]. invert_Ok Hr.
  destruct (now <? v0) eqn:Hn; cbn [andb] in Hr; [|done].
  case_bool_decide as Ha; [|done]. invert_Ok Hr. exists v0. split_and!; [done|lia|done|].
  unfold compare_digest in Hr. destruct (_ && _); [|done]. injection Hr as Hr.
  by apply String.eqb_eq in Hr as ->.
Qed.

Lemma renewed_task_view now cl d d' v :
  renewed_task q now d cl = Ok d' -> view_of d = Some v ->
  exists cl', view_of d' = Some (set_view (tv_state v) (Some cl') (tv_attempt v) v).
Proof. unfold renewed_task. intros H1 Hv. updated H1. eexists. solve_view. Qed.

Lemma renew_one_good a h now n id : good (renew_one q a h now n id).
Proof.
  apply good_get_task; [apply keeps_ret|].
  intros d k v w Hwf Hn Ha Hv Hat Hw. view_lift. try_lift. destruct a0; [|by apply wp_ret].
  match goal with E : renewable _ _ _ _ _ = Ok true |- _ =>
    destruct (renewable_inv _ _ _ _ _ _ Hv E) as [Hs _] end.
  try_lift. match goal with E : renewed_task _ _ _ _ = Ok _ |- _ =>
    destruct (renewed_task_view _ _ _ _ _ E Hv) as [cl' Hnew] end.
  eapply good_update; try done. by left.
Qed.

Lemma renew_agent_claims_good a l ids now : good (renew_agent_claims q a l ids now).
Proof.
  unfold renew_agent_claims. apply keeps_bind; [by apply keeps_reads, reads_now_or|]. intros n.
  apply keeps_foldM. intros. apply renew_one_good.
Qed.

Lemma release_claim_good id tok reason : good (release_claim q id tok reason).
Proof.
  unfold release_claim. apply keeps_bind; [by apply keeps_reads|]. intros now.
  apply good_get_task; [apply keeps_ret|].
  intros d k v w Hwf Hn Ha Hv Hat Hw. view_lift. case_bool_decide as Hs; cbn [negb]; [|by apply wp_ret].
  apply js_inj in Hs. view_lift. try_lift. try_lift.
  match goal with |- context [if negb ?b then _ else _] => destruct b end; cbn [negb]; [|by apply wp_ret].
  try_lift. match goal with E : retry_waiting_task _ _ _ = Ok _ |- _ =>
    pose proof (retry_waiting_task_view _ _ _ _ _ E Hv) as Hnew end.
  eapply good_update; try done; [right; by rewrite Hs|].
  apply keeps_bind; [apply refresh_requests_good|]. intros. apply keeps_ret.
Qed.

Lemma cancel_one_good now reason id : good (cancel_one q now reason id).
Proof.
  apply good_get_task; [apply keeps_ret|].
  intros d k v w Hwf Hn Ha Hv Hat Hw. destruct (truthy (JObj d)); cbn [negb]; [|by apply wp_ret].
  view_lift. rewrite in_terminal_js. destruct (terminal (tv_state v)) eqn:Ht; [by apply wp_ret|].
  try_lift. match goal with E : cancelled_task _ _ _ = Ok _ |- _ =>
    pose proof (cancelled_task_view _ _ _ _ _ E Hv) as Hnew end.
  eapply wp_mono; [eapply (write_task q _ k v); try done|].
  - apply step_ok_set; [right; by destruct (tv_state v)|lia].
  - apply wf_view_set; [done|]. split; [by intros []|done].
  - intros r w' (? & ? & _). done.
Qed.

Lemma cancel_request_good rid reason : good (cancel_request q rid reason).
Proof.
  unfold cancel_request, get_request, forM_. apply keeps_bind; [by apply keeps_reads|]. intros now.
  apply keeps_bind; [apply keeps_reads, read_reads|]. intros [r|]; [|apply keeps_ret].
  apply keeps_bind; [by apply keeps_reads|]. intros ids.
  apply keeps_bind; [apply keeps_foldM; intros; apply cancel_one_good|]. intros _. solve_keeps.
Qed.

Lemma set_dispatch_status_good id reason : good (set_dispatch_status q id reason).
Proof.
  unfold set_dispatch_status. apply keeps_bind; [by apply keeps_reads|]. intros now.
  apply good_get_task; [apply keeps_ret|].
  intros d k v w Hwf Hn Ha Hv Hat Hw. view_lift. view_lift.
  case_bool_decide as Hs; cbn [negb]; [|by apply wp_ret]. try_lift.
  destruct (String.eqb _ reason); [by apply wp_ret|].
  set (d1 := if truthy_str reason then _ else _).
  assert (view_of d1 = Some v) as Hv1.
  { rewrite <- Hv. unfold d1, view_of. destruct (truthy_str reason);
      by rewrite ?lookup_insert_ne, ?lookup_delete_ne by done. }
  view_lift.
  eapply (good_update _ _ (tv_state v) (tv_claim v) (tv_attempt v)); try done; [|by left|by destruct Hw].
  clear Hv. solve_view.
Qed.

Lemma runnable_tasks_good now ts e : good (runnable_tasks q now ts e).
Proof.
  unfold runnable_tasks. apply keeps_bind; [by apply keeps_reads, reads_now_or|]. intros n.
  apply keeps_bind.
  { destruct e; [|apply keeps_ret]. apply keeps_bind; [apply expire_claims_good|]. intros. apply keeps_ret. }
  intros _. apply keeps_bind.
  { destruct ts; [apply keeps_ret|]. intros w Hwf.
    destruct (list_tasks_ok w Hwf) as (l & -> & _). by split. }
  intros l. apply keeps_foldM. intros b a _. apply keeps_bind; [by apply keeps_reads|]. intros [].
  - apply keeps_ret.
  - apply keeps_bind; [by apply keeps_reads|]. intros rid. unfold get_request.
    apply keeps_bind; [apply keeps_reads, read_reads|]. intros. apply keeps_ret.
Qed.

Lemma wait_request_good n rid : good (wait_request q n rid).
Proof.
  induction n as [|n IH]; [by apply keeps_reads|]. cbn [wait_request].
  apply keeps_bind; [apply expire_claims_good|]. intros _. unfold get_request.
  apply keeps_bind; [apply keeps_reads, read_reads|]. intros [r|]; [|by apply keeps_reads].
  apply keeps_bind; [by apply keeps_reads|]. intros st. destruct (in_terminal st); [apply keeps_ret|done].
Qed.

Lemma reconcile_membership_good g f ws p now : good (reconcile_membership q g f ws p now).
Proof.
  unfold reconcile_membership. apply keeps_bind; [by apply keeps_reads, reads_now_or|]. intros n.
  solve_keeps.
Qed.

(** ** What the sweeps establish *)

Lemma only_cancels_at s s' k v' (P : tview -> Prop) :
  only_cancels s s' -> task_area k ->
  (forall v, at_view s k v -> P v) -> (forall v, tv_state v = TASK_CANCELLED -> P v) ->
  at_view s' k v' -> P v'.
Proof.
  intros [_ Hc] Hk HP Hcan Hat. destruct (Hc k Hk) as [Heq|(v & u & _ & _ & Hu & Hs)].
  - apply HP. unfold at_view in *. by rewrite <- Heq.
  - apply Hcan. destruct Hu as (b & Hb & Hbu), Hat as (b' & Hb' & Hbv). congruence.
Qed.

Lemma expire_claims_post now w :
  wf_tasks (w_store w) ->
  wp (expire_claims q (Some now)) (fun r w' =>
    wf_tasks (w_store w') /\ task_steps (w_store w) (w_store w') /\
    (is_Ok r -> forall t v, at_view (w_store w') (slot t) v -> not_due now v)) w.
Proof.
  intros Hwf. unfold expire_claims, now_or. apply wp_bind, wp_ret.
  eapply (wp_all_tasks _ (not_due now)); try done; [apply expire_one_wp| |].
  - intros n w' Hwf' Hst HP. apply wp_bind.
    destruct (refresh_requests_cancels now w' Hwf') as [H1 H2].
    destruct (refresh_requests q now w') as [r w2] eqn:Er.
    eapply wp_run; [exact Er|]. cbn in *. destruct r as [[]|e].
    + apply wp_ret. split_and!; [done|etrans; [done|apply H2]|]. intros _ t v Hv.
      eapply only_cancels_at; try done; [right; by exists t|apply HP|].
      intros v0 Hv0. split; rewrite Hv0; [set_solver|done].
    + split_and!; [done|etrans; [done|apply H2]|by intros []].
  - intros e w' ? ?. split_and!; [done|done|by intros []].
Qed.

(** A claim of the given leadership term. *)
Definition of_term (owner : string) (fence : Z) (v : tview) : Prop :=
  tv_state v = TASK_CLAIMED ->
  claim_of_term owner fence (default ∅ (tv_claim v)) = Ok true.

Lemma fence_one_wp owner fence now n d w :
  wf_tasks (w_store w) -> current (w_store w) d ->
  wp (fence_one q owner fence now n d) (fun r w' => visits d (w_store w) (w_store w') /\
    (is_Ok r -> settled_at (of_term owner fence) d (w_store w'))) w.
Proof.
  intros Hwf (k & v & Ha & Hs & Hv & Hw). unfold fence_one. view_lift. view_lift.
  assert (visits d (w_store w) (w_store w)) as Hvis by (by apply visits_refl).
  assert (key_is d k) as Hk by (exists v; split; [done|apply Hw]).
  assert (at_view (w_store w) k v) as Hat by (by exists (encode d)).
  case_bool_decide as Hc; cbn [negb].
  2: { apply wp_ret. split; [done|]. intros _. exists k, v. split_and!; [done|done|].
       intros Hst. by rewrite js_inj in Hc. }
  apply js_inj in Hc. apply wp_bind, wp_lift.
  destruct (claim_of_term owner fence _) as [[]|] eqn:Et; [|clear Et|split; [done|by intros []]].
  { apply wp_ret. split; [done|]. intros _. exists k, v. split_and!; [done|done|]. by intros _. }
  apply wp_bind, wp_lift.
  destruct (retry_waiting_task now "manager_fenced" d) as [new|] eqn:E; [|split; [done|by intros []]].
  pose proof (retry_waiting_task_view _ _ _ _ _ E Hv) as Hnew.
  apply wp_bind, wp_lift. rewrite (id_view _ _ Hnew). cbn [tv_id set_view]. apply wp_bind.
  eapply wp_mono.
  { eapply (write_task q _ k v); try done; [apply Hw| |].
    - apply step_ok_set; [right; by rewrite Hc|lia].
    - apply wf_view_set; [done|]. split; [by intros []|done]. }
  intros r w' (H1 & H2 & H3 & H4).
  assert (visits d (w_store w) (w_store w')) as Hvis'.
  { split_and!; [done|done|]. intros k' _ Hk'. apply H3. by intros ->. }
  destruct r as [[]|e]; [apply wp_ret|]; (split; [done|]); [|by intros []]. intros _.
  eexists k, _. split_and!; [done|exact H4|done].
Qed.

Lemma fence_claims_post owner fence w :
  wf_tasks (w_store w) ->
  wp (fence_claims q owner fence) (fun r w' =>
    wf_tasks (w_store w') /\ task_steps (w_store w) (w_store w') /\
    (is_Ok r -> forall t v, at_view (w_store w') (slot t) v -> of_term owner fence v)) w.
Proof.
  intros Hwf. unfold fence_claims. apply wp_bind. eapply wp_run; [reflexivity|].
  eapply (wp_all_tasks _ (of_term owner fence)); try done; [apply fence_one_wp| |].
  - intros n w' Hwf' Hst HP. cbn [w_store tick] in *.
    match goal with |- wp (?m ≫= _) _ _ => set (sweep := m) end.
    assert (keeps only_cancels sweep) as Hk.
    { unfold sweep. destruct (truthy_int n); [apply refresh_requests_cancels|apply keeps_ret]. }
    apply wp_bind. destruct (Hk w' Hwf') as [H1 H2].
    destruct (sweep w') as [r w2] eqn:Er.
    eapply wp_run; [exact Er|]. cbn in *. destruct r as [[]|e].
    + apply wp_ret. split_and!; [done|etrans; [done|apply H2]|]. intros _ t v Hv.
      eapply only_cancels_at; try done; [right; by exists t|apply HP|].
      intros v0 Hv0 Hc. by rewrite Hv0 in Hc.
    + split_and!; [done|etrans; [done|apply H2]|by intros []].
  - intros e w' ? ?. split_and!; [done|done|by intros []].
Qed.
End ops.
