(* ===== verification/QueueResults.v ===== *)
(** * Accepting results

    [accept_result] and its parts: which reports are accepted, what they must
    match, and what happens to the task. *)

From S2P Require Import Prelude PyText Sha256 Json ArtifactStore World Lease Contract ReadPlan.
From S2P Require Import Generation WorkQueue QueueStore QueueTasks QueueOps.
Import MemoryStore.

Definition with_state (s : task_state) (v : tview) : tview :=
  TView (tv_id v) s (tv_claim v) (tv_attempt v) (tv_max v) (tv_rev v) (tv_payload v).

Lemma compare_digest_true a b : compare_digest a b = Ok true -> a = b.
Proof.
  unfold compare_digest. destruct (_ && _); [|done]. intros [= H]. by apply String.eqb_eq.
Qed.

Lemma compare_digest_refl a : is_ascii a = true -> compare_digest a a = Ok true.
Proof. intros Ha. unfold compare_digest. rewrite Ha. cbn. by rewrite String.eqb_refl. Qed.

(** ** Computations that leave a directory of the store alone *)

Definition untouched {A} (dir : string) (m : M world A) : Prop :=
  forall w k, area dir k -> w_store (m w).2 !! k = w_store w !! k.

Lemma result_not_request k : area RESULTS_PREFIX k -> area REQUESTS_PREFIX k -> False.
Proof. solve_disjoint. Qed.

Section untouched.
Context `{Env, QueueEnv} (q : queue) `{!Leadership q} (dir : string).

Lemma untouched_reads {A} (m : M world A) : reads m -> untouched dir m.
Proof. intros Hm w k _. by rewrite Hm. Qed.

Lemma untouched_bind {A B} (m : M world A) (f : A -> M world B) :
  untouched dir m -> (forall a, untouched dir (f a)) -> untouched dir (m ≫= f).
Proof.
  intros Hm Hf w k Hk. unfold mbind, M_bind. specialize (Hm w k Hk).
  destruct (m w) as [[a|e] w']; cbn in *; [|done]. by rewrite Hf.
Qed.

Lemma untouched_foldM {A B} (f : B -> A -> M world B) l : forall b,
  (forall b a, a ∈ l -> untouched dir (f b a)) -> untouched dir (foldM f b l).
Proof.
  induction l as [|a l IH]; intros b Hf; [by apply untouched_reads|].
  apply untouched_bind; [apply Hf; by left|]. intros b'. apply IH. intros; apply Hf. by right.
Qed.

Lemma untouched_write key v :
  (forall k, normalize_key key = Ok k -> area dir k -> False) -> untouched dir (write_ q key v).
Proof.
  intros Hk w k Ha. pose proof (write_effect q key v w) as Hw. unfold wp in Hw.
  destruct (write_ q key v w) as [[u|e] w']; cbn in *; [|by rewrite Hw].
  destruct Hw as (k' & v' & Hn & _ & -> & _). rewrite lookup_insert_ne; [done|].
  intros ->. by eapply Hk.
Qed.
End untouched.

(** The refresh of the requests writes requests and tasks only. *)
Lemma refresh_requests_results `{Env, QueueEnv} (q : queue) `{!Leadership q} now :
  untouched RESULTS_PREFIX (refresh_requests q now).
Proof.
  intros w k Hk. unfold refresh_requests, mbind, M_bind, st.
  destruct (list_spec (REQUESTS_PREFIX +:+ "/") (w_store w)) as (items & Hl & _ & _ & Hin).
  rewrite Hl. cbn [fst snd]. rewrite set_store_id. apply (untouched_foldM RESULTS_PREFIX); [|done].
  intros _ i (k' & b & _ & Hp & ->)%Hin. cbn [os_key mk_stat] in *.
  change (lstrip_char slash _) with (REQUESTS_PREFIX +:+ "/") in Hp.
  apply startswith_spec in Hp as [t ->]. rewrite app_assoc_s.
  assert (forall v, untouched RESULTS_PREFIX
    (write_ q (REQUESTS_PREFIX +:+ "/" +:+ t) v)) as Hwr.
  { intros v. apply untouched_write; [done|]. intros k2 Hk2 Ha. apply area_normalize in Hk2; [|done].
    by eapply result_not_request. }
  assert (forall id v, untouched RESULTS_PREFIX (write_ q (task_key id) v)) as Hwt.
  { intros id v. apply untouched_write; [done|]. intros k2 Hk2%task_key_area Ha.
    by eapply result_not_task. }
  unfold refresh_request, cancel_sibling, get_tasks, get_task, forM_.
  repeat first
    [ solve [apply Hwr | apply Hwt]
    | solve [apply untouched_reads; solve_reads]
    | apply untouched_bind; [|intros ?]
    | apply untouched_foldM; intros ? ? ?
    | case_scrut ].
Qed.

Section results.
Context `{Env, QueueEnv} (q : queue) `{!Leadership q}.

(** The staged object is exactly what the result reports. *)
Definition verified_output (s : mem) (r : task_result) (key : string) : Prop :=
  exists k b, normalize_key key = Ok k /\ s !! k = Some b /\
    blob_size b = rs_size_bytes r /\ sha256_hex (blob_bytes b) = rs_content_hash r /\
    parquet_num_rows b = Some (rs_record_count r) /\
    String.length (rs_s3_etag r) = 32%nat /\ str_forallb is_hex (rs_s3_etag r) = true.

Lemma verify_output_wp key r w :
  wp (verify_output key r) (fun res w' => w_store w' = w_store w /\
    (res = Ok None -> verified_output (w_store w) r key)) w.
Proof.
  unfold verify_output. destruct (normalize_key key) as [k|e] eqn:Hk.
  2: { apply wp_bind. unfold st, head. rewrite (with_key_Err _ _ _ Hk). by eapply wp_run. }
  apply wp_bind. unfold st at 1, head. rewrite (with_key_Ok _ _ _ Hk).
  eapply wp_run; [reflexivity|]. cbn [fst snd]. rewrite set_store_id.
  destruct (w_store w !! k) as [b|] eqn:Hb; cbn [fmap option_fmap option_map]; [|by apply wp_ret].
  cbn [os_size mk_stat]. destruct (blob_size b =? rs_size_bytes r) eqn:Hsz; cbn [negb]; [|by apply wp_ret].
  apply wp_bind. unfold st at 1, verify. rewrite (with_key_Ok _ _ _ Hk).
  eapply wp_run; [reflexivity|]. cbn [fst snd]. rewrite set_store_id, Hb, Hsz. cbn [andb].
  destruct (String.eqb (sha256_hex (blob_bytes b)) (rs_content_hash r)) eqn:Hh; cbn [negb]; [|by apply wp_ret].
  destruct (String.length (rs_s3_etag r) =? 32)%nat eqn:Hl; cbn [negb orb]; [|by apply wp_ret].
  destruct (str_forallb is_hex (rs_s3_etag r)) eqn:Hx; cbn [negb]; [|by apply wp_ret].
  apply wp_bind. unfold st. eapply wp_run; [rewrite (get_whole _ _ _ Hk); reflexivity|].
  cbn [fst snd]. rewrite set_store_id, Hb. cbn [of_option].
  destruct (parquet_num_rows b) as [n|] eqn:Hn; [|by apply wp_ret].
  destruct (n =? rs_record_count r) eqn:Hc; cbn [negb]; apply wp_ret; split; try done.
  intros _. exists k, b. apply Z.eqb_eq in Hsz, Hc. apply String.eqb_eq in Hh.
  apply Nat.eqb_eq in Hl. subst. by split_and!.
Qed.

(** The durable record of an accepted result. *)
Definition result_saved (s : mem) (r : task_result) (attempt : Z) (state hash : string)
  (saved : dict) : Prop :=
  exists p, read_result s (result_key (rs_task_id r) attempt) = Ok (Some p) /\
    p !! "state" = Some (JStr state) /\ p !! "agent_lease_hash" = Some (JStr hash) /\
    p !! "result" = Some (JObj saved).

Lemma commit_result_wp task claim st r now k v w :
  wf_tasks (w_store w) -> normalize_key (task_key (rs_task_id r)) = Ok k -> task_area k ->
  at_view (w_store w) k v -> wf_view k v -> tv_state v = TASK_CLAIMED ->
  view_of task = Some (with_state st v) -> valid_task_transition TASK_CLAIMED st = true ->
  wp (commit_result q task claim st r now) (fun res w' =>
    wf_tasks (w_store w') /\ task_steps (w_store w) (w_store w') /\
    forall a, res = Ok a -> a = Ack true (state_str st) false (terminal st) RESULT_ACCEPTED /\
      (exists v', at_view (w_store w') k v' /\
        (tv_state v' = st \/ (terminal st = false /\ tv_state v' = TASK_CANCELLED))) /\
      exists hash, get_str claim "agent_lease_hash" "" = Ok hash /\
        forall saved, task !! "result" = Some (JObj saved) ->
          result_saved (w_store w') r (tv_attempt v) (state_str st) hash saved) w.
Proof.
  intros Hwf Hn Ha Hat Hw Hc Hv Htr. unfold commit_result. view_lift. apply wp_bind.
  set (new := assign _ task).
  assert (view_of new = Some (set_view st None (tv_attempt v) v)) as Hnew
    by (unfold new; solve_view).
  eapply wp_mono.
  { eapply (write_task q _ k v); try done.
    - apply step_ok_set; [right; by rewrite Hc|lia].
    - apply wf_view_set; [done|]. split; [by intros []|by intros ->]. }
  intros [[]|e] w1 (H1 & H2 & _ & H4); [|by split_and!].
  rewrite (attempt_view _ _ Hnew). cbn [tv_attempt set_view].
  apply wp_bind, wp_lift. apply wp_bind, wp_lift.
  destruct (dget_req new "result") as [result|] eqn:Eres; [|by split_and!].
  apply wp_bind, wp_lift.
  destruct (get_str claim "agent_lease_hash" "") as [hash|] eqn:Eh; [|by split_and!].
  apply wp_bind. match goal with |- wp (write_ q ?key ?rec) _ _ =>
    destruct (keeps_write_result q (R := only_cancels) (rs_task_id r) (tv_attempt v) rec w1 H1) as [G1 G2];
    pose proof (write_effect q key rec w1) as Heff; unfold wp in Heff;
    destruct (write_ q key rec w1) as [r2 w2] eqn:E2 end.
  eapply wp_run; [exact E2|]. cbn in G1, G2. destruct r2 as [[]|e].
  2: { split_and!; [done|etrans; [done|apply G2]|done]. }
  apply wp_bind. destruct (refresh_requests_cancels q now w2 G1) as [F1 F2].
  destruct (refresh_requests q now w2) as [r3 w3] eqn:E3. eapply wp_run; [exact E3|].
  cbn in F1, F2. assert (only_cancels (w_store w1) (w_store w3)) as Hoc by (by etrans).
  assert (task_steps (w_store w) (w_store w3)) as Hst by (etrans; [done|apply Hoc]).
  destruct r3 as [[]|e]; [apply wp_ret|by split_and!]. split_and!; [done|done|].
  intros a [= <-]. split; [done|]. destruct Hoc as [_ Hoc]. split.
  2: { exists hash. split; [done|]. intros saved Hsaved.
       destruct Heff as (kr & p & Hkr & Hstp & Hs2 & _). cbn [snd] in Hs2.
       assert (result = JObj saved) as ->.
       { unfold new, dget_req, assign in Eres. cbn [foldl fst snd] in Eres.
         rewrite !lookup_insert_ne, Hsaved in Eres by done. by injection Eres as <-. }
       exists p. split_and!; [|by rewrite (Hstp _)..].
       eapply read_result_at; [exact Hkr|].
       pose proof (refresh_requests_results q now w2 kr (result_key_area _ _ _ Hkr)) as Hfr.
       rewrite E3 in Hfr. cbn [snd] in Hfr. by rewrite Hfr, Hs2, lookup_insert_eq. }
  destruct (Hoc k Ha) as [Heq|(v1 & v' & Hv1 & Hl & Hv' & Hs')].
  - exists (set_view st None (tv_attempt v) v). unfold at_view in *. rewrite Heq. split; [done|by left].
  - exists v'. split; [done|]. rewrite Hs'.
    assert (v1 = set_view st None (tv_attempt v) v) as ->.
    { destruct Hv1 as (b & Hb & Hbv), H4 as (b' & Hb' & Hbv'). congruence. }
    cbn in Hl. destruct Hl as [Hl|Hl]; [by right|by left].
Qed.

Lemma succeed_task_wp task claim payload r now v w :
  view_of task = Some v ->
  wp (succeed_task task claim payload r now) (fun res w' => w_store w' = w_store w /\
    forall st task', res = Ok (Some (st, task')) ->
      st = TASK_SUCCEEDED /\ view_of task' = Some (with_state TASK_SUCCEEDED v) /\
      exists token staging, get_str claim "claim_token" "" = Ok token /\
        staging = staging_key (mt_output_key payload) (mt_generation_id payload)
                    (rs_task_id r) (tv_attempt v) token /\
        task' !! "result" = Some (JObj (success_record r staging now)) /\
        verified_output (w_store w) r staging) w.
Proof.
  intros Hv. unfold succeed_task.
  apply wp_bind, wp_lift. destruct (get_str claim "staging_key" "") as [staging|]; [|done].
  view_lift. apply wp_bind, wp_lift.
  destruct (get_str claim "claim_token" "") as [token|] eqn:Et; [|done].
  destruct (truthy_str staging); cbn [negb orb]; [|by apply wp_ret].
  match goal with |- context [String.eqb staging ?e] => destruct (String.eqb_spec staging e) as [Hs|] end;
    cbn [negb]; [|by apply wp_ret].
  apply wp_bind. eapply wp_mono; [apply verify_output_wp|].
  intros [[reason|]|e] w' [Hw' Hok]; [by apply wp_ret| |done].
  apply wp_ret. split; [done|]. intros st task' [= <- <-]. split_and!; [done| |].
  - unfold with_state. solve_view.
  - exists token, staging. split_and!; [done|done| |by apply Hok].
    unfold assign. cbn [foldl fst snd]. by rewrite lookup_insert_ne, lookup_insert_eq by done.
Qed.

Lemma fail_task_view task r now v st task' :
  view_of task = Some v -> fail_task q task r now = Ok (st, task') ->
  view_of task' = Some (with_state st v) /\ valid_task_transition TASK_CLAIMED st = true /\
  task' !! "result" = Some (JObj (failure_result r now)) /\
  (st = TASK_RETRY_WAIT <-> rs_retryable r = true /\ tv_attempt v < tv_max v) /\
  (st = TASK_RETRY_WAIT \/ st = TASK_FAILED).
Proof.
  intros Hv. unfold fail_task.
  set (t1 := <["last_error" := _]> task).
  assert (view_of t1 = Some v) as Hv1.
  { rewrite <- Hv. unfold t1, view_of. by rewrite !lookup_insert_ne by done. }
  rewrite (attempt_view _ _ Hv1). cbn [mbind res_bind]. rewrite (max_view _ _ Hv1). clear Hv.
  set (retry := if rs_retryable r then _ else _).
  assert (exists b, retry = Ok b /\ (b = true <-> rs_retryable r = true /\ tv_attempt v < tv_max v))
    as (b & -> & Hb).
  { unfold retry. destruct (rs_retryable r); eexists; (split; [done|]); [|naive_solver].
    rewrite Z.ltb_lt. naive_solver. }
  cbn [mbind res_bind]. destruct b; intros [= <- <-]; split_and!; try done.
  - unfold with_state. solve_view.
  - apply lookup_insert_eq.
  - rewrite <- Hb. naive_solver.
  - by left.
  - unfold with_state. solve_view.
  - apply lookup_insert_eq.
  - rewrite <- Hb. naive_solver.
  - by right.
Qed.

(** The claim checks a result passes. *)
Definition claim_matches (v : tview) (c : dict) (r : task_result) (lease : string) : Prop :=
  tv_state v = TASK_CLAIMED /\
  get_str c "claim_token" "" = Ok (rs_claim_token r) /\
  dget c "agent_id" JNull = JStr (rs_agent_id r) /\
  tv_attempt v = rs_attempt r /\
  get_str c "agent_lease_hash" "" = Ok (sha256_hex lease) /\
  get_int c "membership_version" 0 = Ok (rs_membership_version r) /\
  get_int c "worker_fence" 0 = Ok (rs_worker_fence r).

Lemma check_claim_none task v c r lease :
  view_of task = Some v -> check_claim task c r lease = Ok None -> claim_matches v c r lease.
Proof.
  intros Hv. unfold check_claim. rewrite (state_view _ _ Hv). cbn [mbind res_bind].
  destruct (bool_decide (js (tv_state v) = js TASK_CLAIMED)) eqn:Hs; [|done].
  apply bool_decide_eq_true, js_inj in Hs.
  intros H1. apply bind_Ok in H1 as ([] & Ht & H1); cbn [negb] in H1; [|done].
  apply bind_Ok in Ht as (tok & Ht & Hd). apply compare_digest_true in Hd as ->.
  case_bool_decide as Hag; cbn [negb] in H1; [|done].
  rewrite (attempt_view _ _ Hv) in H1. cbn [mbind res_bind] in H1.
  destruct (Z.eqb_spec (rs_attempt r) (tv_attempt v)); cbn [negb] in H1; [|done].
  apply bind_Ok in H1 as (h & Hh & H1). apply bind_Ok in H1 as ([] & Hl & H1); cbn [negb] in H1; [|done].
  apply compare_digest_true in Hl as ->. apply bind_Ok in H1 as (mv & Hmv & H1).
  destruct (Z.eqb_spec mv (rs_membership_version r)) as [->|]; cbn [mbind res_bind] in H1; [|done].
  apply bind_Ok in H1 as (f & Hf & H1). apply bind_Ok in Hf as (wf & Hwf & Hf).
  injection Hf as <-. destruct (Z.eqb_spec wf (rs_worker_fence r)) as [->|]; cbn in H1; [|done].
  by split_and!.
Qed.

Lemma check_claim_reason task c r lease a :
  check_claim task c r lease = Ok (Some a) -> ack_ok a = false /\ ack_reason_code a <> RESULT_ACCEPTED.
Proof.
  unfold check_claim. intros Hc. apply bind_Ok in Hc as (st & Hst & Hc).
  apply bind_Ok in Hc as (tok & Ht & Hc). destruct tok; cbn [negb] in Hc.
  2: { apply bind_Ok in Hc as (n & _ & [= <-]). done. }
  case_bool_decide; cbn [negb] in Hc; [|by injection Hc as <-].
  apply bind_Ok in Hc as (att & _ & Hc). destruct (negb _); [by injection Hc as <-|].
  apply bind_Ok in Hc as (h & _ & Hc). apply bind_Ok in Hc as (l & _ & Hc).
  destruct (negb l); [by injection Hc as <-|].
  apply bind_Ok in Hc as (mv & _ & Hc). apply bind_Ok in Hc as (f & _ & Hc).
  destruct f; [by injection Hc as <-|done].
Qed.

Lemma check_membership_reason m r lease a :
  check_membership m r lease = Ok (Some a) -> ack_ok a = false /\ ack_reason_code a <> RESULT_ACCEPTED.
Proof.
  destruct m as [m|]; [|done]. unfold check_membership. intros Hc. invert_Ok Hc.
  destruct v0; [done|]. by injection Hc as <-.
Qed.

(** What [settle_result] guarantees of an accepted report. *)
Definition settled_ok (s s' : mem) (k : string) (v : tview) (c : dict) (r : task_result)
  (now : Z) (a : ack) : Prop :=
  exists payload, materialize_task_from_dict (tv_payload v) = Ok payload /\
    stale_generation r (mt_generation_id payload) (mt_generation_fence payload)
      (mt_plan_sha256 payload) = false /\
    (rs_ok r = true -> ack_state a = state_str TASK_SUCCEEDED /\
       exists token, get_str c "claim_token" "" = Ok token /\
         verified_output s r (staging_key (mt_output_key payload) (mt_generation_id payload)
                                (rs_task_id r) (tv_attempt v) token)) /\
    (rs_ok r = false -> ack_state a = state_str TASK_RETRY_WAIT \/
                        ack_state a = state_str TASK_FAILED) /\
    (exists v', at_view s' k v' /\
      (ack_state a = state_str (tv_state v') \/
       (ack_state a = state_str TASK_RETRY_WAIT /\ tv_state v' = TASK_CANCELLED))) /\
    exists hash staging, get_str c "agent_lease_hash" "" = Ok hash /\
      result_saved s' r (tv_attempt v) (ack_state a) hash
        (if rs_ok r then success_record r staging now else failure_result r now).

Lemma settle_result_wp task c r now k v w :
  wf_tasks (w_store w) -> normalize_key (task_key (rs_task_id r)) = Ok k -> task_area k ->
  view_of task = Some v -> at_view (w_store w) k v -> wf_view k v -> tv_state v = TASK_CLAIMED ->
  wp (settle_result q task c r now) (fun res w' =>
    wf_tasks (w_store w') /\ task_steps (w_store w) (w_store w') /\
    forall a, res = Ok a -> ack_reason_code a = RESULT_ACCEPTED ->
      settled_ok (w_store w) (w_store w') k v c r now a) w.
Proof.
  intros Hwf Hn Ha Hv Hat Hw Hc. unfold settle_result.
  apply wp_bind, wp_lift. unfold payload_of. pose proof Hv as Hv0.
  apply view_of_spec in Hv0 as (_ & _ & _ & _ & _ & _ & Hp).
  unfold dget_req. rewrite Hp. cbn [of_option mbind res_bind as_obj].
  destruct (materialize_task_from_dict (tv_payload v)) as [payload|e] eqn:Ep; [|done].
  destruct (stale_generation r (mt_generation_id payload) _ _) eqn:Hsg.
  { apply wp_ret. split_and!; [done..|]. by intros a [= <-]. }
  apply wp_bind. assert (reads current_generation) as Hcg.
  { unfold current_generation, current_generation_record. apply reads_bind; [|by intros].
    apply reads_bind; [apply read_raw_json_reads|]. intros [raw [d|]]; cbn; [|by apply reads_ret].
    apply reads_bind; [done|by intros]. }
  specialize (Hcg w). destruct (current_generation w) as [[g|e] w1] eqn:Eg; cbn in Hcg;
    (eapply wp_run; [exact Eg|]); [|by rewrite Hcg].
  rewrite <- Hcg. rewrite <- Hcg in Hwf, Hat. clear Hcg Eg.
  destruct (match g with Some _ => _ | None => _ end).
  { apply wp_bind, wp_lift. destruct (req_str task "request_id") as [rid|]; [|done].
    apply wp_bind. destruct (cancel_request_good q rid "generation_fenced" w1 Hwf) as [G1 G2].
    destruct (cancel_request q rid "generation_fenced" w1) as [[b|e] w2] eqn:Ec;
      (eapply wp_run; [exact Ec|]); [|done].
    apply wp_ret. split_and!; [done|done|]. by intros a [= <-]. }
  destruct (rs_ok r) eqn:Hok.
  - apply wp_bind. eapply wp_mono; [by apply succeed_task_wp|].
    intros [[[st task']|]|e] w2 [Hw2 Hout]; [|apply wp_ret; rewrite Hw2; split_and!; [done..|]; by intros a [= <-]|by rewrite Hw2].
    destruct (Hout _ _ eq_refl) as (-> & Hv' & token & staging & Htok & Hstg & Hsav & Hver).
    eapply wp_mono; [eapply (commit_result_wp task' c TASK_SUCCEEDED r now k v); rewrite ?Hw2; done|].
    intros res w3 (G1 & G2 & G3). rewrite Hw2 in G2. split_and!; [done|done|].
    intros a Hres _. destruct (G3 a Hres) as (-> & (v' & Hav' & Hs') & hash & Hh & Hrs).
    exists payload. split_and!; [done|done| |by rewrite Hok| |].
    + intros _. split; [done|]. exists token. split; [done|]. by rewrite <- Hstg.
    + exists v'. split; [done|]. left. destruct Hs' as [->|[? _]]; done.
    + exists hash, staging. rewrite Hok. split; [done|by apply Hrs].
  - apply wp_bind, wp_lift. destruct (fail_task q task r now) as [[st task']|e] eqn:Ef; [|done].
    destruct (fail_task_view _ _ _ _ _ _ Hv Ef) as (Hv' & Htr & Hsav & _ & Hst).
    eapply wp_mono; [eapply (commit_result_wp task' c st r now k v); done|].
    intros res w3 (G1 & G2 & G3). split_and!; [done|done|].
    intros a Hres _. destruct (G3 a Hres) as (-> & (v' & Hav' & Hs') & hash & Hh & Hrs).
    exists payload. split_and!; [done|done|by rewrite Hok| | |].
    + intros _. destruct Hst as [->| ->]; [by left|by right].
    + exists v'. split; [done|]. destruct Hs' as [->|[Ht ->]]; [by left|right].
      destruct Hst as [->| ->]; done.
    + exists hash, "". rewrite Hok. split; [done|by apply Hrs].
Qed.

Lemma duplicate_reply_reason p r lease a :
  duplicate_reply p r lease = Ok a -> ack_reason_code a <> RESULT_ACCEPTED.
Proof.
  unfold duplicate_reply. intros Hd. apply bind_Ok in Hd as (h & _ & Hd).
  apply bind_Ok in Hd as (st & _ & Hd). apply bind_Ok in Hd as (o & _ & Hd).
  destruct o; [by injection Hd as <-|]. apply bind_Ok in Hd as (sv & _ & Hd).
  apply bind_Ok in Hd as (same & _ & Hd). injection Hd as <-. by destruct same.
Qed.

Lemma succeeded_reply_reason acc r a :
  succeeded_reply acc r = Ok a -> ack_reason_code a <> RESULT_ACCEPTED.
Proof.
  unfold succeeded_reply. intros Hd. apply bind_Ok in Hd as (same & _ & Hd).
  injection Hd as <-. by destruct same.
Qed.

(** The member record of the reporting worker, when the generation has one. *)
Definition worker_current (s : mem) (r : task_result) (lease : string) : Prop :=
  forall m, read_result s (membership_key (rs_generation_id r)) = Ok (Some m) ->
    rs_generation_id r <> "" ->
    exists ws, get_dict m "workers" = Ok ws /\
      worker_matches (ws !! rs_agent_id r) (sha256_hex lease) (Ok (rs_worker_fence r)) = Ok true.

(** An accepted report: in the store [s1] as the expiry sweep leaves it, on which the checks are
    made, the task was claimed under exactly the reported claim. *)
Definition accepted_ok (s1 s' : mem) (r : task_result) (lease : string) (now : Z) (a : ack) : Prop :=
  exists k v c,
    normalize_key (task_key (rs_task_id r)) = Ok k /\ at_view s1 k v /\ tv_claim v = Some c /\
    claim_matches v c r lease /\ worker_current s1 r lease /\
    settled_ok s1 s' k v c r now a /\
    not_due now v.

Lemma accept_result_wp r lease now w :
  wf_tasks (w_store w) ->
  wp (accept_result q r lease (Some now)) (fun res w' =>
    wf_tasks (w_store w') /\ task_steps (w_store w) (w_store w') /\
    forall a, res = Ok a -> ack_reason_code a = RESULT_ACCEPTED ->
      accepted_ok (w_store (expire_claims q (Some now) w).2) (w_store w') r lease now a) w.
Proof.
  intros Hwf. unfold accept_result, now_or. apply wp_bind, wp_ret. apply wp_bind.
  eapply wp_run; [apply read_eq|].
  destruct (read_result (w_store w) _) as [[prior|]|e] eqn:Er; [| |done].
  { apply wp_lift. split_and!; [done..|]. intros a Ha Hac. by apply duplicate_reply_reason in Ha. }
  apply wp_bind. pose proof (expire_claims_post q now w Hwf) as Hexp. unfold wp in Hexp.
  destruct (expire_claims q (Some now) w) as [rx w1] eqn:Ex. cbn [fst snd] in Hexp. destruct Hexp as (Hwf1 & Hst1 & Hdue).
  eapply wp_run; [exact Ex|]. cbn [snd]. destruct rx as [n|e]; [|by split_and!]. specialize (Hdue ltac:(by eexists)).
  apply wp_bind. unfold get_task. eapply wp_run; [apply read_eq|].
  destruct (read_result (w_store w1) (task_key _)) as [[task|]|e] eqn:Et; [| |by split_and!].
  2: { apply wp_ret. split_and!; [done..|]. by intros a [= <-]. }
  destruct (get_task_wf _ _ _ Hwf1 Et) as (k & v & Hn & Ha & Hv & Hat & Hw).
  apply wp_bind, wp_lift. destruct (get_dict task "result") as [acc|]; [|by split_and!].
  view_lift. case_bool_decide as Hsuc.
  { apply wp_lift. split_and!; [done..|]. intros a Hra Hac. by apply succeeded_reply_reason in Hra. }
  view_lift. apply wp_bind, wp_lift.
  destruct (check_claim task _ r lease) as [[a|]|e] eqn:Ecc; [| |by split_and!].
  { apply wp_ret. apply check_claim_reason in Ecc as [_ Hre]. split_and!; [done..|].
    by intros a' [= <-]. }
  apply wp_bind.
  set (mem_read := if truthy_str (rs_generation_id r) then _ else _).
  assert (exists om, mem_read w1 = (om, w1) /\ forall m, om = Ok m ->
    (rs_generation_id r <> "" -> read_result (w_store w1) (membership_key (rs_generation_id r)) = Ok m))
    as (om & Hom & Hmr).
  { unfold mem_read, truthy_str. destruct (String.eqb_spec (rs_generation_id r) ""); cbn [negb].
    - eexists; split; [reflexivity|]. by intros.
    - eexists. split; [apply read_eq|]. by intros m ->. }
  eapply wp_run; [exact Hom|]. destruct om as [m|e]; [|by split_and!]. specialize (Hmr m eq_refl).
  apply wp_bind, wp_lift.
  destruct (check_membership m r lease) as [[a|]|e] eqn:Ecm; [| |by split_and!].
  { apply wp_ret. apply check_membership_reason in Ecm as [_ Hre]. split_and!; [done..|].
    by intros a' [= <-]. }
  pose proof (check_claim_none _ _ _ _ _ Hv Ecc) as Hcm. destruct Hcm as [Hclaimed Hrest].
  eapply wp_mono; [by eapply settle_result_wp|].
  intros res w2 (H1 & H2 & H3). split_and!; [done|by etrans|].
  intros a Hres Hac. destruct Hw as [Hk [_ Hc]]. destruct (Hc Hclaimed) as [c Hvc].
  rewrite Hvc in *. cbn [from_option id] in *.
  exists k, v, c. split_and!; try done; [|by apply H3|].
  - intros m' Hm' Hg. specialize (Hmr Hg). rewrite Hm' in Hmr. injection Hmr as <-.
    cbn in Ecm. apply bind_Ok in Ecm as (ws & Hws & Ecm). apply bind_Ok in Ecm as (b & Hb & Ecm).
    exists ws. by destruct b.
  - destruct (task_key_slot _ _ Hn) as [t ->]. by apply (Hdue t).
Qed.

Lemma accept_result_good r lease now : good (accept_result q r lease now).
Proof.
  destruct now as [n|].
  - apply keeps_intro. intros w Hwf. eapply wp_mono; [by apply accept_result_wp|].
    by intros res w' (? & ? & _).
  - apply keeps_intro. intros w Hwf. unfold accept_result at 1.
    apply wp_bind. eapply wp_run; [reflexivity|].
    pose proof (accept_result_wp r lease (clock (w_ticks w)) (tick w) Hwf) as Hacc.
    unfold accept_result, now_or in Hacc. eapply wp_mono; [exact Hacc|].
    by intros res w' (? & ? & _).
Qed.
End results.
