(* ===== verification/QueueHistory.v ===== *)
(** * Histories of the queue

    The remaining operations (creation, recovery, retention, publication), and
    the theorem that any sequence of operations moves every task along the
    published transition table. *)

From S2P Require Import Prelude PyText Sha256 Json ArtifactStore World Lease Contract ReadPlan.
From S2P Require Import Generation WorkQueue QueueStore QueueTasks QueueOps QueueResults.
Import MemoryStore.

(** What the queue relies on from a federation coordinator: publication and
    lookup do not touch the task records of the local store. *)
Class FederationFrame `{Env} (q : queue) : Prop := {
  fed_publish_frame fed m : q_federation q = Some fed -> forall w k, task_area k ->
    w_store (fed_publish fed m w).2 !! k = w_store w !! k;
  fed_snapshot_frame fed d t e : q_federation q = Some fed -> forall w k, task_area k ->
    w_store (fed_snapshot fed d t e w).2 !! k = w_store w !! k;
}.

Section history.
Context `{Env, QueueEnv} (q : queue) `{!Leadership q} `{!FederationFrame q}.

#[global] Instance no_federation a b c d chk : FederationFrame (new_queue a b c d chk).
Proof. split; intros; done. Qed.

Lemma keeps_frame {A} (m : M world A) :
  (forall w k, task_area k -> w_store (m w).2 !! k = w_store w !! k) -> good m.
Proof.
  intros Hm w Hwf. split; [eapply wf_tasks_same; [|done]; auto|]. apply task_rel_same. auto.
Qed.

(** ** Creation *)

(** The task ids of the request are unused. *)
Definition unused (s : mem) (request_id : string) (tasks : list materialize_task) : Prop :=
  forall t k, t ∈ tasks -> normalize_key (task_key (new_task_id request_id t)) = Ok k ->
    s !! k = None.

(** Tasks are only created: in the initial state, under keys that were free. *)
Definition task_grows (s s' : mem) : Prop :=
  forall k, task_area k -> s' !! k = s !! k \/
    (s !! k = None /\ exists v, at_view s' k v /\ new_ok v /\ tv_rev v = 1).

Lemma new_task_view tid rid payload now :
  view_of (new_task_record q tid rid payload now) =
  Some (TView tid TASK_QUEUED None 0 (q_max_attempts q) 1 payload).
Proof. reflexivity. Qed.

Lemma write_new s0 tid rid payload now w :
  wf_tasks (w_store w) -> task_grows s0 (w_store w) ->
  (forall k, normalize_key (task_key tid) = Ok k -> s0 !! k = None) ->
  wp (write_ q (task_key tid) (new_task_record q tid rid payload now)) (fun _ w' =>
    wf_tasks (w_store w') /\ task_grows s0 (w_store w')) w.
Proof.
  intros Hwf Hgrow Hfree. set (d := new_task_record q tid rid payload now).
  set (v := TView tid TASK_QUEUED None 0 (q_max_attempts q) 1 payload).
  eapply wp_mono; [by apply write_effect|]. intros [[]|e] w'; cbn; intros Hw; [|by rewrite Hw].
  destruct Hw as (k & d' & Hn & Hst & Hs & _).
  assert (blob_view (encode d') = Some v) as Hd by (cbn; by rewrite (stamped_view _ _ Hst)).
  rewrite Hs. split.
  - intros k' b Hk' Hb. destruct (decide (k' = k)) as [->|Hne].
    + rewrite lookup_insert_eq in Hb. injection Hb as <-. exists v. split; [done|].
      split; [done|]. split; [by intros []|done].
    + rewrite lookup_insert_ne in Hb by done. by apply Hwf.
  - intros k' Hk'. destruct (decide (k' = k)) as [->|Hne].
    + right. split; [by apply Hfree|]. exists v. split; [|done]. exists (encode d'). by rewrite lookup_insert_eq.
    + unfold at_view. rewrite lookup_insert_ne by done. by apply Hgrow.
Qed.

Lemma write_new_loop s0 rid (records : list (string * dict)) : forall w,
  Forall (fun r => exists payload now, r.2 = new_task_record q r.1 rid payload now) records ->
  wf_tasks (w_store w) -> task_grows s0 (w_store w) ->
  (forall r k, r ∈ records -> normalize_key (task_key r.1) = Ok k -> s0 !! k = None) ->
  wp (forM_ (fun r => write_ q (task_key r.1) r.2) records) (fun _ w' =>
    wf_tasks (w_store w') /\ task_grows s0 (w_store w')) w.
Proof.
  unfold forM_. induction records as [|r records IH]; intros w Hrec Hwf Hgrow Hfree; [by apply wp_ret|].
  apply Forall_cons in Hrec as [(payload & now & Hr) Hrec]. apply wp_bind. rewrite Hr.
  eapply wp_mono; [apply (write_new s0); [done..|]|].
  { intros k Hk. by apply (Hfree r); [left|]. }
  intros [[]|e] w' (H1 & H2); [|done].
  apply IH; try done. intros r' k Hr' Hk. apply (Hfree r'); [by right|done].
Qed.

(** No task changes. *)
Definition same_tasks (s s' : mem) : Prop := forall k, task_area k -> s' !! k = s !! k.

#[global] Instance same_tasks_rel : TaskRel same_tasks.
Proof.
  split; [split|done].
  - by intros s k.
  - intros s1 s2 s3 H1 H2 k Hk. rewrite H2, H1; done.
Qed.

#[local] Hint Resolve same_tasks_rel : fsp.

Lemma grows_same s s1 s' : task_grows s s1 -> same_tasks s1 s' -> task_grows s s'.
Proof. intros Hg Hs k Hk. unfold at_view. rewrite (Hs k Hk). by apply Hg. Qed.

Lemma create_request_wp rk table epoch tf gid gf sha tasks dl w :
  wf_tasks (w_store w) ->
  (forall tenant, request_tenant tasks = Some tenant ->
     let identity := request_identity table epoch gid gf sha tenant in
     read_result (w_store w) (idempotency_key identity) = Ok None ->
     unused (w_store w) (sha256_hex identity) tasks) ->
  wp (create_request q rk table epoch tf gid gf sha tasks dl) (fun _ w' =>
    wf_tasks (w_store w') /\ task_grows (w_store w) (w_store w')) w.
Proof.
  intros Hwf Hun. assert (task_grows (w_store w) (w_store w)) as Hrefl by (by left). unfold create_request.
  destruct (request_tenant tasks) as [tenant|]; [|by apply wp_raise].
  specialize (Hun tenant eq_refl). cbv zeta in Hun |- *.
  set (identity := request_identity _ _ _ _ _ _) in *.
  apply wp_bind. eapply wp_run; [apply read_eq|].
  destruct (read_result (w_store w) (idempotency_key identity)) as [[e|]|e] eqn:Eid; [| |done].
  { apply wp_bind, wp_lift. destruct (req_str e "request_id") as [rid|]; [|done].
    apply wp_bind. unfold get_request. eapply wp_run; [apply read_eq|].
    destruct (read_result (w_store w) (request_key rid)) as [[r|]|];
      [by apply wp_ret|by apply wp_raise|done]. }
  specialize (Hun eq_refl). apply wp_bind. eapply wp_run; [reflexivity|].
  destruct (singleton_or_empty _) as [ds|]; [|by apply wp_raise].
  set (records := map _ tasks). set (request := new_request_record _ _ _ _ _ _ _ _ _ _ _ _ _ _).
  set (rid := sha256_hex identity) in *.
  pose proof (write_effect q (request_key rid) request (tick w)) as Hw1.
  pose proof (keeps_write_request q (R := same_tasks) rid request (tick w) Hwf) as [H1 H2].
  unfold wp in Hw1. apply wp_bind.
  destruct (write_ q (request_key rid) request (tick w)) as [[[]|e] w1] eqn:E1;
    (eapply wp_run; [exact E1|]); cbn in H1, H2, Hw1; [|split; [done|by eapply grows_same; [exact Hrefl|exact H2]]].
  apply wp_bind. eapply wp_mono; [apply (write_new_loop (w_store w) rid records); [|done|by eapply grows_same; [exact Hrefl|exact H2]|]|].
  - apply Forall_forall. intros r (t & -> & _)%list_elem_of_fmap. cbn. by eexists _, _.
  - intros r k (t & -> & Ht)%list_elem_of_fmap Hk. by apply (Hun t).
  - intros [[]|e] w2 [G1 G2]; [|done].
    match goal with |- wp ?m _ _ => assert (keeps same_tasks m) as Hk by solve_keeps end.
    destruct (Hk w2 G1) as [K1 K2]. split; [done|by eapply grows_same; [exact G2|exact K2]].
Qed.

(** ** Recovery and retention *)

Lemma delete_elsewhere key :
  (forall k, normalize_key key = Ok k -> ~ task_area k) -> keeps same_tasks (delete_rec q key).
Proof.
  intros Hk w Hwf. pose proof (delete_effect q key w) as Hw. unfold wp in Hw.
  destruct (delete_rec q key w) as [[b|e] w']; cbn in *; [|by rewrite Hw].
  destruct Hw as (k & Hn & -> & _). split; [by apply wf_tasks_delete|].
  intros k' Hk'. rewrite lookup_delete_ne; [done|]. intros ->. by apply (Hk k').
Qed.

Lemma results_dir_prefix id k :
  startswith k (lstrip_char slash (replace_char backslash slash (results_dir id))) = true ->
  exists t, k = RESULTS_PREFIX +:+ "/" +:+ t.
Proof.
  unfold results_dir, replace_char. rewrite !str_map_app.
  change (str_map _ RESULTS_PREFIX) with RESULTS_PREFIX. change (str_map _ "/") with "/".
  intros Hs. apply startswith_spec in Hs as [t ->].
  exists (str_map (fun c => if Ascii.eqb c backslash then slash else c) id +:+ "/" +:+ t).
  change (lstrip_char slash (RESULTS_PREFIX +:+ ?x)) with (RESULTS_PREFIX +:+ x).
  by rewrite !app_assoc_s.
Qed.

Lemma delete_results_same id : keeps same_tasks (delete_results q id).
Proof.
  intros w Hwf. unfold delete_results.
  destruct (list_spec (results_dir id) (w_store w)) as (l & Hl & _ & _ & Hin).
  unfold mbind, M_bind, st. rewrite Hl. cbn [fst snd]. rewrite set_store_id.
  apply (keeps_foldM (R := same_tasks)); [|done]. intros [] i Hi.
  apply keeps_bind; [|intros; apply keeps_ret]. apply delete_elsewhere.
  apply Hin in Hi as (k & b & _ & Hp & ->). apply results_dir_prefix in Hp as [t ->].
  cbn [os_key mk_stat]. intros k Hk. apply area_normalize in Hk; [|done].
  intros ?. by eapply result_not_task.
Qed.

Lemma delete_results_good id : keeps task_shrinks (delete_results q id).
Proof. eapply keeps_mono; [|apply delete_results_same]. intros s s'. apply task_rel_same. Qed.

Lemma recover_ready_good rid r : keeps task_shrinks (recover_ready q rid r).
Proof.
  unfold recover_ready. apply keeps_bind; [by apply keeps_reads|]. intros ids.
  apply keeps_bind.
  { unfold missing_tasks, get_task. apply keeps_foldM. intros. apply keeps_read. intros ?. apply keeps_ret. }
  intros l. solve_keeps.
Qed.

Lemma recover_incomplete_good rid r : keeps task_shrinks (recover_incomplete q rid r).
Proof. unfold recover_incomplete. solve_keeps. Qed.

Lemma recover_task_visits live n d w :
  wf_tasks (w_store w) -> current (w_store w) d ->
  wp (recover_task q live n d) (fun _ w' => visits_by task_shrinks d (w_store w) (w_store w')) w.
Proof.
  intros Hwf (k & v & Ha & Hs & Hv & Hw). unfold recover_task. try_lift. view_lift.
  destruct (negb _).
  - apply wp_bind. destruct (delete_results_same (tv_id v) w Hwf) as [H1 H2].
    destruct (delete_results q (tv_id v) w) as [[[]|e] w1] eqn:E1;
      (eapply wp_run; [exact E1|]); cbn in H1, H2.
    2: { split_and!; [done|by apply task_rel_same|]. auto. }
    apply wp_bind. eapply wp_mono; [by apply delete_effect|].
    intros [b|e] w2 Hd; cbn in Hd; [apply wp_ret|].
    + destruct Hd as (k' & Hk' & -> & _). assert (k' = k) as -> by (destruct Hw; congruence).
      split_and!; [by apply wf_tasks_delete| |].
      * etrans; [by apply task_rel_same|]. apply task_shrinks_delete.
      * intros k2 Hk2 Hn2. rewrite lookup_delete_ne; [auto|]. intros ->. apply Hn2.
        exists v. split; [done|apply Hw].
    + rewrite Hd. split_and!; [done|by apply task_rel_same|]. auto.
  - view_lift. case_bool_decide as Hst; [|by apply wp_ret, visits_refl]. apply js_inj in Hst.
    try_lift. view_lift. view_lift. apply wp_bind.
    eapply (wp_mono _ (fun r w1 => is_Ok r /\ w_store w1 = w_store w)).
    { destruct (_ <=? _); [by apply wp_ret; split; [eexists|]|].
      destruct (truthy_int a0); [|by apply wp_ret; split; [eexists|]].
      apply wp_bind. eapply wp_run; [reflexivity|]. apply wp_ret. by split; [eexists|]. }
    intros r w1 [[failed ->] Hw1]. apply wp_bind. eapply wp_run; [reflexivity|].
    apply wp_bind. eapply wp_run; [reflexivity|]. view_lift.
    rewrite <- Hw1. rewrite <- Hw1 in Hwf, Hs.
    eapply (wp_mono _ (fun _ w' => visits d (w_store (tick (tick w1))) (w_store w')));
      [|intros ? ? (V1 & V2 & V3); split_and!; [exact V1|apply steps_shrink; exact V2|exact V3]].
    eapply (visit_write q _ d k v _ (if failed then TASK_FAILED else TASK_QUEUED) (tv_claim v)
              (tv_attempt v) (tick (tick w1))); try done.
    + clear -Hv. solve_view.
    + right. rewrite Hst. by destruct failed.
    + destruct Hw as [_ Hc]. rewrite Hc, Hst. by destruct failed.
Qed.

Lemma recover_good : keeps task_shrinks (recover q).
Proof.
  unfold recover, read_all. apply keeps_bind.
  { apply keeps_list; [done|]. intros items _. apply keeps_foldM. intros. apply keeps_read.
    intros ?. apply keeps_ret. }
  intros records. apply keeps_bind; [by apply keeps_reads|]. intros reqs. apply keeps_bind.
  { apply keeps_foldM. intros [[live rr] rt] kr _. destruct (get_bool _ _ _).
    - apply keeps_bind; [apply recover_ready_good|]. intros ?. apply keeps_ret.
    - apply keeps_bind; [apply recover_incomplete_good|]. intros ?. apply keeps_ret. }
  intros [[live rr] rt].
  apply (keeps_list_tasks q task_shrinks (recover_task q live)); [apply recover_task_visits|]. intros n.
  apply keeps_bind; [|intros ?; apply keeps_ret].
  eapply keeps_mono; [apply steps_shrink|apply (expire_claims_good q)].
Qed.

Lemma prune_staging_good g outs keep : keeps task_shrinks (prune_staging q g outs keep).
Proof.
  unfold prune_staging. destruct (q_federation q); [apply keeps_ret|].
  apply keeps_foldM. intros n p _. apply keeps_bind; [by apply keeps_reads, reads_list|].
  intros items. apply keeps_foldM. intros m i _. solve_keeps.
Qed.

Lemma prune_task_good r id : keeps task_shrinks (prune_task q r id).
Proof.
  unfold prune_task, get_task. apply keeps_read. intros o. apply keeps_bind.
  { destruct o as [t|]; [|apply keeps_ret]. destruct (negb _); [|apply keeps_ret].
    apply keeps_bind; [by apply keeps_reads|]. intros []; [|apply keeps_ret].
    apply keeps_bind; [by apply keeps_reads|]. intros p.
    apply keeps_bind; [by apply keeps_reads|]. intros g. destruct (truthy_str g); [|apply keeps_ret].
    apply keeps_bind; [by apply keeps_reads|]. intros out.
    apply keeps_bind; [apply prune_staging_good|]. intros ?. apply keeps_ret. }
  intros _. apply keeps_bind; [apply delete_results_good|]. intros _. solve_keeps.
Qed.

Lemma prune_terminal_good ret now : keeps task_shrinks (prune_terminal q ret now).
Proof.
  unfold prune_terminal. apply keeps_bind; [by apply keeps_reads, reads_now_or|]. intros n.
  apply keeps_bind; [by apply keeps_reads, reads_list|]. intros items. apply keeps_foldM.
  intros p i _. unfold prune_request. apply keeps_read. intros [r|]; [|apply keeps_ret].
  apply keeps_bind; [by apply keeps_reads|]. intros old. destruct (negb old); [apply keeps_ret|].
  apply keeps_bind; [by apply keeps_reads|]. intros ids.
  apply keeps_bind; [apply keeps_foldM; intros; apply prune_task_good|]. intros _. solve_keeps.
Qed.

(** ** Publication *)

Definition off_tasks {A} (values : list (string * A)) : Prop :=
  forall kv k, kv ∈ values -> normalize_key kv.1 = Ok k -> ~ task_area k.

Lemma put_all_same (values : list (string * blob)) : forall s,
  off_tasks values -> same_tasks s (put_all values s).2.
Proof.
  unfold put_all, forM_. induction values as [|[key d] values IH]; intros s Hoff; [by intros k|].
  cbn [foldM]. unfold mbind, M_bind. cbn [fst snd].
  destruct (normalize_key key) as [k|e] eqn:Hk.
  - rewrite (with_key_Ok _ _ _ Hk). etrans; [|apply IH].
    + intros k' Hk'. rewrite lookup_insert_ne; [done|]. intros ->.
      by apply (Hoff (key, d) k'); [left|..].
    + intros kv k' Hin. apply Hoff. by right.
  - rewrite (with_key_Err _ _ _ Hk). by intros k.
Qed.

Lemma guarded_put_batch_same g b values s :
  off_tasks values -> same_tasks s (guarded_put_batch g b values s).2.
Proof.
  intros Hoff. unfold guarded_put_batch, with_key. destruct (normalize_key g); [|by intros k].
  case_bool_decide; [|by intros k]. unfold mbind, M_bind.
  pose proof (put_all_same values s Hoff) as Hp. by destruct (put_all values s) as [[]].
Qed.

Lemma st_same {A} (m : M mem A) : (forall s, same_tasks s (m s).2) -> keeps same_tasks (st m).
Proof. intros Hm w Hwf. split; [eapply wf_tasks_same; [|done]; apply Hm|apply Hm]. Qed.

Lemma off_tasks_map {A B} (f : A -> B) (values : list (string * A)) :
  off_tasks values -> off_tasks (map (fun kv => (kv.1, f kv.2)) values).
Proof.
  intros Hoff kv k (kv' & -> & Hin)%list_elem_of_fmap. cbn. by apply Hoff.
Qed.

Lemma guarded_write_batch_same g b values :
  off_tasks values -> keeps same_tasks (guarded_write_batch q g b values).
Proof.
  intros Hoff. unfold guarded_write_batch, forM_. apply keeps_bind.
  - destruct (q_leadership_check q) as [chk|] eqn:Hq.
    + apply keeps_bind; [apply keeps_reads; by eapply leadership_check_reads|]. intros [o f].
      apply keeps_bind; [|intros; apply keeps_ret]. unfold st_now.
      apply keeps_bind; [by apply keeps_reads, reads_now_ms|]. intros n. apply st_same. intros s.
      unfold fenced_guarded_put_batch. destruct (fence_matches _ _ _ _ _) as [[]|]; try (by intros k).
      apply guarded_put_batch_same. cbn [fst snd]. by do 2 apply off_tasks_map.
    + apply keeps_bind; [|intros; apply keeps_ret]. apply st_same. intros s.
      apply guarded_put_batch_same. by apply off_tasks_map.
  - intros [prepared c]. destruct (negb c); [by apply keeps_reads|]. apply keeps_foldM.
    intros [] kv _. apply keeps_read. intros o. destruct (bool_decide _); by apply keeps_reads.
Qed.

Lemma reads_verify_objects e1 e2 m : reads (verify_objects e1 e2 m).
Proof.
  unfold verify_objects, forM_. apply reads_bind.
  - apply reads_foldM. intros. apply reads_bind; [apply reads_verify|]. by intros [].
  - intros _. apply reads_foldM. intros. apply reads_bind; [apply reads_head|]. by intros [].
Qed.

Lemma current_generation_record_reads : reads current_generation_record.
Proof.
  unfold current_generation_record. apply reads_bind; [apply read_raw_json_reads|].
  intros [raw [d|]]; cbn; [|by apply reads_ret]. apply reads_bind; [done|by intros].
Qed.

Lemma commit_snapshot_good rid r p raw g m now : good (commit_snapshot q rid r p raw g m now).
Proof.
  unfold commit_snapshot. destruct (q_federation q) as [fed|] eqn:Hf.
  - apply keeps_bind; [by apply keeps_reads|]. intros m'.
    apply keeps_bind; [apply keeps_frame; intros w k Hk; by apply (fed_publish_frame fed m' Hf)|].
    intros _. solve_keeps.
  - cbv zeta. apply keeps_bind; [|intros ?; apply keeps_ret].
    destruct g as [g|], raw as [raw|]; [|solve_keeps..].
    eapply keeps_mono; [|apply guarded_write_batch_same]; [intros s s'; apply task_rel_same|].
    intros kv k [->|[->|Hn]%elem_of_cons]%elem_of_cons Hk; [| |by apply not_elem_of_nil in Hn].
    + apply snapshot_key_area in Hk. intros ?. by eapply snapshot_not_task.
    + apply request_key_area in Hk. intros ?. by eapply request_not_task.
Qed.

Lemma publish_snapshot_good rid m : good (publish_snapshot q rid m).
Proof.
  unfold publish_snapshot, get_request. apply keeps_bind; [by apply keeps_reads|]. intros now.
  apply keeps_read. intros [r|]; [|by apply keeps_reads].
  apply keeps_bind; [by apply keeps_reads|]. intros st. destruct (negb _); [by apply keeps_reads|].
  apply keeps_bind; [by apply keeps_reads|]. intros same. destruct (negb same); [by apply keeps_reads|].
  apply keeps_bind; [apply keeps_reads, current_generation_record_reads|]. intros [raw g].
  destruct (generation_stale _ _ _); [by apply keeps_reads|].
  apply keeps_bind; [apply keeps_reads, reads_verify_objects|]. intros _.
  apply keeps_bind; [by apply keeps_reads|]. intros ids. apply keeps_bind.
  { apply keeps_foldM. intros acc i _. unfold task_dataset, get_task. apply keeps_read.
    intros [t|]; [|by apply keeps_reads]. apply keeps_reads. solve_reads. }
  intros ds. destruct (singleton_or_empty ds); [|by apply keeps_reads].
  apply keeps_bind; [by apply keeps_reads|]. intros pa.
  destruct (_ && _); [by apply keeps_reads|]. destruct (_ && _); [by apply keeps_reads|].
  apply commit_snapshot_good.
Qed.

Lemma get_snapshot_good t e : good (get_snapshot q t e).
Proof.
  unfold get_snapshot. destruct (q_federation q) as [fed|] eqn:Hf.
  - destruct (list_find _ _) as [[i [t' d]]|]; [|apply keeps_ret].
    apply keeps_frame. intros w k Hk. by apply (fed_snapshot_frame fed d t e Hf).
  - apply keeps_bind; [by apply keeps_reads, reads_list|]. intros items. cbv zeta.
    destruct (if e =? 0 then _ else _); [|apply keeps_ret]. apply keeps_read.
    intros [r|]; [|apply keeps_ret]. apply keeps_bind; [by apply keeps_reads|]. intros m.
    apply keeps_bind; [apply keeps_reads, reads_verify_objects|]. intros ?. apply keeps_ret.
Qed.

(** ** Operator retry *)

Definition retried_view (deadline : Z) (v : tview) : tview :=
  TView (tv_id v) TASK_QUEUED None 0 (tv_max v) (tv_rev v + 1)
    (<["deadline_ms" := JInt deadline]> (tv_payload v)).

Lemma retried_task_view now dl d d' v :
  retried_task now dl d = Ok d' -> view_of d = Some v -> view_of d' = Some (retried_view dl v).
Proof.
  unfold retried_task. intros Hr Hv. rewrite (bump_view _ _ Hv) in Hr.
  pose proof Hv as (_ & _ & _ & _ & _ & _ & Hp)%view_of_spec. unfold dget_req in Hr. rewrite Hp in Hr.
  cbn [of_option mbind res_bind as_obj] in Hr. injection Hr as <-.
  apply view_of_spec in Hv as (H1 & _ & _ & _ & H5 & _ & _). apply view_of_spec.
  unfold assign, retried_view. cbn [foldl fst snd tv_id tv_state tv_claim tv_attempt tv_max tv_rev tv_payload opt_obj].
  split_and!; repeat first [rewrite lookup_insert_eq | rewrite lookup_insert_ne by done]; done.
Qed.

(** Only the task [id] changes: a failed one is queued anew, under the next revision. *)
Definition task_retries (id : string) (s s' : mem) : Prop :=
  forall k, task_area k -> s' !! k = s !! k \/
    (normalize_key (task_key id) = Ok k /\ exists v dl, at_view s k v /\ tv_state v = TASK_FAILED /\
       at_view s' k (retried_view dl v)).

Lemma write_retried key k v dl new w :
  wf_tasks (w_store w) -> normalize_key key = Ok k -> wf_view k v ->
  view_of new = Some (retried_view dl v) ->
  wp (write_ q key new) (fun r w' => wf_tasks (w_store w') /\
    (forall k', task_area k' -> w_store w' !! k' = w_store w !! k' \/ (k' = k /\ at_view (w_store w') k (retried_view dl v))) /\
    (is_Ok r -> at_view (w_store w') k (retried_view dl v))) w.
Proof.
  intros Hwf Hk [Hn _] Hv. eapply wp_mono; [by apply (write_effect q)|].
  intros [[]|e] w' Hw; [|cbn in Hw; rewrite Hw; split_and!; [done|by left|by intros []]].
  destruct Hw as (k' & d & Hk' & Hst & Hs & _). assert (k' = k) as -> by congruence.
  assert (blob_view (encode d) = Some (retried_view dl v)) as Hd
    by (cbn [blob_view encode]; by rewrite (stamped_view _ _ Hst)).
  assert (at_view (w_store w') k (retried_view dl v)) as Hat by (exists (encode d); by rewrite Hs, lookup_insert_eq).
  split_and!; [| |done].
  - rewrite Hs. intros k2 b Ha Hb. destruct (decide (k2 = k)) as [->|Hne].
    + rewrite lookup_insert_eq in Hb. injection Hb as <-. eexists. split; [exact Hd|].
      split; [exact Hn|]. split; [by intros []|done].
    + rewrite lookup_insert_ne in Hb by done. by apply Hwf.
  - intros k2 Hk2. destruct (decide (k2 = k)) as [->|Hne]; [by right|left]. by rewrite Hs, lookup_insert_ne.
Qed.

Lemma retry_task_effect id w :
  wf_tasks (w_store w) ->
  wp (retry_task q id) (fun _ w' => wf_tasks (w_store w') /\ task_retries id (w_store w) (w_store w')) w.
Proof.
  intros Hwf. assert (task_retries id (w_store w) (w_store w)) as Hrefl by (by left).
  unfold retry_task, get_task, get_request. apply wp_bind. eapply wp_run; [reflexivity|].
  apply wp_bind. eapply wp_run; [apply read_eq|]. cbn [w_store tick].
  destruct (read_result (w_store w) (task_key id)) as [[d|]|e] eqn:Er; [|by apply wp_ret|done].
  destruct (get_task_wf _ w _ Hwf Er) as (k & v & Hk & Ha & Hv & Hat & Hw).
  view_lift. case_bool_decide as Hst; cbn [negb]; [|by apply wp_ret]. apply js_inj in Hst.
  apply wp_bind, wp_lift. destruct (req_str d "request_id") as [rid|]; [|done].
  apply wp_bind. eapply wp_run; [apply read_eq|]. cbn [w_store tick].
  destruct (read_result (w_store w) (request_key rid)) as [[req|]|e] eqn:Eq; [|by apply wp_ret|done].
  destruct (truthy (dget req "published" JNull)) eqn:Hpub; [by apply wp_ret|].
  apply wp_bind, wp_lift. destruct (get_int req "deadline_ms" 0) as [rd|]; [|done].
  apply wp_bind, wp_lift. destruct (get_int req "created_at_ms" 0) as [rc|]; [|done].
  cbv zeta. apply wp_bind. destruct (delete_results_same id (tick w) Hwf) as [H1 H2].
  destruct (delete_results q id (tick w)) as [[[]|e] w1] eqn:E1; (eapply wp_run; [exact E1|]);
    cbn in H1, H2; [|split; [done|by left; apply H2]].
  apply wp_bind, wp_lift. destruct (retried_task _ _ d) as [new|] eqn:En; [|split; [done|by left; apply H2]].
  pose proof (retried_task_view _ _ _ _ _ En Hv) as Hnew. apply wp_bind.
  eapply wp_mono; [by eapply (write_retried _ k v _ new w1)|].
  intros r w2 (G1 & G2 & _). assert (task_retries id (w_store w) (w_store w2)) as Hr2.
  { intros k' Hk'. destruct (G2 k' Hk') as [E|[-> Hv']]; [left; rewrite E; by apply H2|right]. split; [done|]. by eexists v, _. }
  destruct r as [[]|e]; [|done].
  apply wp_bind, wp_lift. destruct (req_str req "request_id") as [rid'|]; [|done].
  match goal with |- wp ?m _ _ => assert (keeps same_tasks m) as Hkeep by solve_keeps end.
  destruct (Hkeep w2 G1) as [K1 K2]. split; [done|]. intros k' Hk'. unfold at_view. rewrite (K2 k' Hk'). by apply Hr2.
Qed.

(** ** Histories *)

(** One call of the queue by its Manager. *)
Inductive op :=
| OpCreate (requested_key table : string) (epoch : Z) (table_format generation_id : string)
    (generation_fence : Z) (plan_sha256 : string) (tasks : list materialize_task) (deadline : Z)
| OpExpire (now : option Z)
| OpRunnable (now : option Z) (tasks : option (list dict)) (expire : bool)
| OpDispatchStatus (task_id reason : string)
| OpRecover
| OpClaim (task_id agent_id lease_id owner : string) (fence mv wfence : Z)
    (now lease_seconds : option Z)
| OpRenew (agent_id lease_id : string) (task_ids : list string) (now : option Z)
| OpRelease (task_id claim_token reason : string)
| OpAccept (r : task_result) (lease_id : string) (now : option Z)
| OpCancel (request_id reason : string)
| OpRetry (task_id : string)
| OpFence (owner : string) (fence : Z)
| OpReconcile (generation_id : string) (fence : Z) (workers : list dict) (policy : string)
    (now : option Z)
| OpReassign (generation_id : string) (membership : dict) (now : option Z)
| OpPrune (retention : Z) (now : option Z)
| OpPruneStaging (generation_id : string) (output_keys keep_keys : list string)
| OpWait (polls : nat) (request_id : string)
| OpPublish (request_id : string) (m : snapshot_manifest)
| OpSnapshot (table : string) (epoch : Z).

Definition run_op (o : op) : M world unit :=
  match o with
  | OpCreate rk t e f g gf sha ts dl => create_request q rk t e f g gf sha ts dl;; mret tt
  | OpExpire now => expire_claims q now;; mret tt
  | OpRunnable now ts e => runnable_tasks q now ts e;; mret tt
  | OpDispatchStatus i r => set_dispatch_status q i r;; mret tt
  | OpRecover => recover q;; mret tt
  | OpClaim i a l o f mv wf now ls => claim_task q i a l o f mv wf now ls;; mret tt
  | OpRenew a l ids now => renew_agent_claims q a l ids now;; mret tt
  | OpRelease i t r => release_claim q i t r;; mret tt
  | OpAccept r l now => accept_result q r l now;; mret tt
  | OpCancel i r => cancel_request q i r;; mret tt
  | OpRetry i => retry_task q i;; mret tt
  | OpFence o f => fence_claims q o f;; mret tt
  | OpReconcile g f ws p now => reconcile_membership q g f ws p now;; mret tt
  | OpReassign g m now => reassign_fenced_claims q g m now;; mret tt
  | OpPrune r now => prune_terminal q r now;; mret tt
  | OpPruneStaging g outs keep => prune_staging q g outs keep;; mret tt
  | OpWait n i => wait_request q n i;; mret tt
  | OpPublish i m => publish_snapshot q i m;; mret tt
  | OpSnapshot t e => get_snapshot q t e;; mret tt
  end.

(** A request is created anew only when its tasks do not exist yet, as the
    index entry written at the end of a creation ensures. *)
Definition op_ok (o : op) (s : mem) : Prop :=
  match o with
  | OpCreate rk t e f g gf sha ts dl =>
      forall tenant, request_tenant ts = Some tenant ->
        let identity := request_identity t e g gf sha tenant in
        read_result s (idempotency_key identity) = Ok None ->
        unused s (sha256_hex identity) ts
  | _ => True
  end.

(** A sequence of calls, each of which may return or raise, interleaved with
    anything other processes do outside the task records. *)
Inductive history : world -> world -> Prop :=
| hist_nil w : history w w
| hist_op o w w' : op_ok o (w_store w) -> history (run_op o w).2 w' -> history w w'
| hist_other w w1 w' : same_tasks (w_store w) (w_store w1) -> history w1 w' -> history w w'.

(** What a call may do to the task records: creation adds new ones, retention and recovery may
    delete, an operator's retry queues one failed task anew, and every other call moves the
    tasks along the table. *)
Definition op_change (o : op) : relation mem :=
  match o with
  | OpCreate _ _ _ _ _ _ _ _ _ => task_grows
  | OpPrune _ _ | OpPruneStaging _ _ _ | OpRecover => task_shrinks
  | OpRetry id => task_retries id
  | _ => task_steps
  end.

Lemma then_ret_keeps {A} R `{!TaskRel R} (m : M world A) : keeps R m -> keeps R (m;; mret tt).
Proof. intros Hm. apply keeps_bind; [done|]. intros ?. apply keeps_ret. Qed.

Lemma then_ret_wp {A} (m : M world A) (P : world -> Prop) w : wp m (fun _ w' => P w') w -> wp (m;; mret tt) (fun _ w' => P w') w.
Proof. intros Hm. apply wp_bind. eapply wp_mono; [exact Hm|]. intros [a|e] w'; [intros; by apply wp_ret|done]. Qed.

Lemma run_op_ok o w :
  wf_tasks (w_store w) -> op_ok o (w_store w) ->
  wf_tasks (w_store (run_op o w).2) /\ op_change o (w_store w) (w_store (run_op o w).2).
Proof.
  intros Hwf Hok. destruct o; cbn [run_op op_change];
    try (apply (then_ret_keeps task_steps); [|done]); try (apply (then_ret_keeps task_shrinks); [|done]).
  - apply (then_ret_wp _ (fun w' => wf_tasks (w_store w') /\ task_grows (w_store w) (w_store w'))). by apply create_request_wp.
  - by apply expire_claims_good.
  - by apply runnable_tasks_good.
  - by apply set_dispatch_status_good.
  - by apply recover_good.
  - by apply claim_task_good.
  - by apply renew_agent_claims_good.
  - by apply release_claim_good.
  - by apply accept_result_good.
  - by apply cancel_request_good.
  - apply (then_ret_wp _ (fun w' => wf_tasks (w_store w') /\ task_retries task_id (w_store w) (w_store w'))). by apply retry_task_effect.
  - by apply fence_claims_good.
  - by apply reconcile_membership_good.
  - by apply reassign_fenced_claims_good.
  - by apply prune_terminal_good.
  - by apply prune_staging_good.
  - by apply wait_request_good.
  - by apply publish_snapshot_good.
  - by apply get_snapshot_good.
Qed.

Lemma history_ok w w' : history w w' -> wf_tasks (w_store w) -> wf_tasks (w_store w').
Proof.
  induction 1 as [w|o w w' Hok _ IH|w w1 w' Hs _ IH]; intros Hwf; [done| |].
  - apply IH. by apply run_op_ok.
  - apply IH. by eapply wf_tasks_same.
Qed.
End history.
