(* ===== verification/QueueLeadership.v ===== *)
(** * A deposed Manager cannot change the queue

    When the queue's leadership check is [LeaderLease.validate] and the lease
    record names another term, every operation of the queue leaves the store
    exactly as it was. *)

From S2P Require Import Prelude PyText Sha256 Json ArtifactStore World Lease Contract ReadPlan.
From S2P Require Import Generation WorkQueue QueueStore QueueTasks QueueOps QueueResults.
From S2P Require Import QueueHistory.
Import MemoryStore.

(** The lease record is well formed and is not the term this process holds;
    fences start at one. *)
Definition deposed (w : world) : Prop :=
  wf_lease (w_store w) /\
  forall o f, term (w_store w) = Some (o, f) ->
    0 < f /\ (o <> lo_owner_id (w_lease w) \/ f <> lo_fence (w_lease w)).

(** Computations that change neither the store nor the lease object. *)
Definition quiet {A} (m : M world A) : Prop :=
  forall w, w_store (m w).2 = w_store w /\ w_lease (m w).2 = w_lease w.

Definition frozen {A} (m : M world A) : Prop :=
  maintains deposed (fun w w' => w_store w' = w_store w) m.

#[local] Instance same_store_preorder :
  PreOrder (fun w w' : world => w_store w' = w_store w).
Proof. split; [by intros w|]. intros a b c H1 H2. congruence. Qed.

Section frozen.
Context `{Env}.

Lemma quiet_ret {A} (a : A) : quiet (mret a).
Proof. done. Qed.
Lemma quiet_raise {A} e : quiet (raise (A := A) e).
Proof. done. Qed.
Lemma quiet_lift {A} (r : res A) : quiet (lift r).
Proof. done. Qed.
Lemma quiet_now : quiet now_ms.
Proof. done. Qed.
Lemma quiet_now_or n : quiet (now_or n).
Proof. by destruct n. Qed.
Lemma quiet_token : quiet fresh_token.
Proof. done. Qed.
Lemma quiet_read key : quiet (read_ key).
Proof. intros w. by rewrite read_eq. Qed.
Lemma quiet_st {A} (m : M mem A) : (forall s, (m s).2 = s) -> quiet (st m).
Proof. intros Hm w. cbn. by rewrite Hm. Qed.
Lemma quiet_list p : quiet (st (list_ p)).
Proof. by apply quiet_st. Qed.
Lemma quiet_head k : quiet (st (head k)).
Proof. apply quiet_st. intros s. unfold head, with_key. by destruct (normalize_key k). Qed.
Lemma quiet_verify k n h : quiet (st (verify k n h)).
Proof. apply quiet_st. intros s. unfold verify, with_key. by destruct (normalize_key k). Qed.
Lemma quiet_get k o l : quiet (st (get k o l)).
Proof. apply quiet_st. intros s. apply get_read_only. Qed.

Lemma quiet_bind {A B} (m : M world A) (f : A -> M world B) :
  quiet m -> (forall a, quiet (f a)) -> quiet (m ≫= f).
Proof.
  intros Hm Hf w. unfold mbind, M_bind. destruct (Hm w) as [H1 H2].
  destruct (m w) as [[a|e] w']; cbn in *; [|done].
  destruct (Hf a w') as [H3 H4]. split; congruence.
Qed.

Lemma quiet_frozen {A} (m : M world A) : quiet m -> frozen m.
Proof.
  intros Hm w [H1 H2]. destruct (Hm w) as [Hs Hl]. split; [|done].
  unfold deposed. by rewrite Hs, Hl.
Qed.

Lemma quiet_raw key : quiet (read_raw_json key).
Proof.
  intros w. pose proof (read_json_world key w) as Hj. unfold read_json, mbind, M_bind in Hj.
  destruct (read_raw_json key w) as [[r|e] w']; cbn in *; by subst.
Qed.

Lemma frozen_bind {A B} (m : M world A) (f : A -> M world B) :
  frozen m -> (forall a, frozen (f a)) -> frozen (m ≫= f).
Proof. apply maintains_bind, _. Qed.

Lemma frozen_foldM {A B} (f : B -> A -> M world B) l b :
  (forall b a, frozen (f b a)) -> frozen (foldM f b l).
Proof. apply maintains_foldM, _. Qed.

(** The lease check of a deposed Manager raises. *)
Lemma validate_deposed w :
  deposed w -> exists e w', validate None None None w = (Err e, w') /\
    w_store w' = w_store w /\ deposed w'.
Proof.
  intros [Hwf Hterm]. destruct (read_raw_wf w Hwf) as (rec & Hread & Hdec).
  assert (read_raw (tick w) = (Ok (w_store w !! LEASE_KEY, rec), tick w)) as Hread'.
  { destruct (read_raw_wf (tick w) Hwf) as (rec' & Hr & Hd). rewrite Hr. cbn in *.
    clear Hread Hr. unfold decoded in *. change (w_store (tick w)) with (w_store w) in *.
    destruct (w_store w !! LEASE_KEY) as [[[]|]|]; try done; by subst. }
  unfold validate, lease, catch, now_or, now_ms, lift. unfold mret, M_ret, mbind, M_bind.
  cbn -[live_term]. rewrite Hread'. cbn -[live_term].
  assert (deposed (set_lease (LeaseObj (lo_owner_id (w_lease w)) (lo_ttl_ms (w_lease w)) false 0
    (lo_last_error (w_lease w))) (tick w))) as Hdep.
  { split; [done|]. cbn. intros o f Ht. destruct (Hterm o f Ht). split; [done|]. right. lia. }
  assert (live_term (w_lease w) rec (lo_owner_id (w_lease w)) (lo_fence (w_lease w))
    (clock (w_ticks w)) = Ok false) as ->; [|by eexists _, _].
  unfold wf_lease, decoded, term in *. unfold live_term, owns_term.
  destruct (w_store w !! LEASE_KEY) as [[[| | | | |d]|]|]; try done; subst rec; [|done].
  destruct Hwf as (o & rn & ttl & f & state & H1 & H2 & H3 & H4 & H5). cbn in Hterm.
  rewrite H1, H4 in Hterm. destruct (Hterm o f eq_refl) as [_ Hne].
  unfold get_int, dget. rewrite H1, H4. cbn.
  case_bool_decide as Ho; [|done]. injection Ho as ->. cbn.
  destruct (Z.eqb_spec f (lo_fence (w_lease w))); [|done]. by destruct Hne.
Qed.
End frozen.

#[export] Hint Resolve quiet_ret quiet_raise quiet_lift quiet_now quiet_now_or quiet_token quiet_read
  quiet_list quiet_head quiet_verify quiet_get quiet_raw : fsp.

Ltac solve_quiet :=
  repeat first
    [ solve [eauto with fsp]
    | apply quiet_bind; [|intros ?]
    | case_scrut ].

Ltac solve_frozen :=
  repeat first
    [ solve [eauto with fsp]
    | solve [apply quiet_frozen; solve_quiet]
    | apply frozen_bind; [|intros ?]
    | apply frozen_foldM; intros ? ?
    | case_scrut ].

Section deposed_queue.
Context `{Env, QueueEnv} (q : queue).
Context (Hq : q_leadership_check q = Some (validate None None None)).

Lemma leadership_deposed w :
  deposed w -> exists e w', leadership (validate None None None) w = (Err e, w') /\
    w_store w' = w_store w /\ deposed w'.
Proof.
  intros Hd. destruct (validate_deposed w Hd) as (e & w' & He & Hs & Hd').
  exists e, w'. unfold leadership, mbind, M_bind. by rewrite He.
Qed.

(** Whatever follows the leadership check never runs. *)
Lemma frozen_checked {A} (k : string * Z -> M world A) :
  frozen (leadership (validate None None None) ≫= k).
Proof.
  intros w Hd. destruct (leadership_deposed w Hd) as (e & w' & He & Hs & Hd').
  unfold mbind, M_bind. by rewrite He.
Qed.

Lemma frozen_write key v : frozen (write_ q key v).
Proof.
  unfold write_. rewrite Hq. intros w Hd.
  destruct (leadership_deposed w Hd) as (e & w' & He & Hs & Hd').
  unfold mbind, M_bind. by rewrite He.
Qed.

Lemma frozen_delete key : frozen (delete_rec q key).
Proof. unfold delete_rec. rewrite Hq. apply frozen_checked. Qed.

Lemma frozen_batch g b vs : frozen (guarded_write_batch q g b vs).
Proof.
  unfold guarded_write_batch. rewrite Hq. intros w Hd.
  destruct (leadership_deposed w Hd) as (e & w' & He & Hs & Hd').
  unfold mbind, M_bind. by rewrite He.
Qed.

#[local] Hint Resolve frozen_write frozen_delete frozen_batch : fsp.

Lemma frozen_read_all p : frozen (read_all p).
Proof. unfold read_all. solve_frozen. Qed.
Lemma frozen_list_tasks : frozen list_tasks.
Proof. unfold list_tasks. apply frozen_bind; [apply frozen_read_all|]. intros. solve_frozen. Qed.
Lemma frozen_get_tasks ids : frozen (get_tasks ids).
Proof. unfold get_tasks, get_task. solve_frozen. Qed.
#[local] Hint Resolve frozen_read_all frozen_list_tasks frozen_get_tasks : fsp.

Lemma frozen_refresh_requests now : frozen (refresh_requests q now).
Proof. unfold refresh_requests, refresh_request, cancel_sibling, forM_. solve_frozen. Qed.
#[local] Hint Resolve frozen_refresh_requests : fsp.

Lemma frozen_expire_claims now : frozen (expire_claims q now).
Proof. unfold expire_claims, expire_one. solve_frozen. Qed.
#[local] Hint Resolve frozen_expire_claims : fsp.

Lemma frozen_delete_results i : frozen (delete_results q i).
Proof. unfold delete_results, forM_. solve_frozen. Qed.
#[local] Hint Resolve frozen_delete_results : fsp.

Lemma frozen_cancel_request i r : frozen (cancel_request q i r).
Proof. unfold cancel_request, cancel_one, get_request, get_task, forM_. solve_frozen. Qed.
#[local] Hint Resolve frozen_cancel_request : fsp.

Lemma frozen_verify_objects e1 e2 m : frozen (verify_objects e1 e2 m).
Proof. unfold verify_objects, forM_. solve_frozen. Qed.
#[local] Hint Resolve frozen_verify_objects : fsp.

Lemma frozen_commit_result t c st r now : frozen (commit_result q t c st r now).
Proof. unfold commit_result. solve_frozen. Qed.
#[local] Hint Resolve frozen_commit_result : fsp.

Lemma frozen_settle_result t c r now : frozen (settle_result q t c r now).
Proof.
  unfold settle_result, current_generation, current_generation_record, succeed_task, verify_output.
  solve_frozen.
Qed.
#[local] Hint Resolve frozen_settle_result : fsp.

Lemma frozen_accept_result r l now : frozen (accept_result q r l now).
Proof. unfold accept_result, get_task, get_membership. solve_frozen. Qed.

Lemma frozen_recover : frozen (recover q).
Proof.
  unfold recover, recover_ready, recover_incomplete, recover_task, missing_tasks, get_task.
  solve_frozen.
Qed.

Lemma frozen_wait n i : frozen (wait_request q n i).
Proof. induction n as [|n IH]; cbn [wait_request]; unfold get_request; solve_frozen. Qed.

Lemma frozen_publish i m : q_federation q = None -> frozen (publish_snapshot q i m).
Proof.
  intros Hf. unfold publish_snapshot, commit_snapshot, task_dataset, get_request, get_task,
    current_generation_record. rewrite Hf. solve_frozen.
Qed.

Lemma frozen_get_snapshot t e : q_federation q = None -> frozen (get_snapshot q t e).
Proof. intros Hf. unfold get_snapshot. rewrite Hf. solve_frozen. Qed.

#[local] Hint Resolve frozen_accept_result frozen_recover frozen_wait frozen_publish
  frozen_get_snapshot : fsp.

(** Retention removes staged outputs directly; a federated publication writes through the
    federation coordinator, which checks its own ownership. *)
Definition unchecked (o : op) : bool :=
  match o with
  | OpPrune _ _ | OpPruneStaging _ _ _ => true
  | OpPublish _ _ | OpSnapshot _ _ => match q_federation q with Some _ => true | None => false end
  | _ => false
  end.

Lemma frozen_retry i : frozen (retry_task q i).
Proof. unfold retry_task, get_task, get_request. solve_frozen. Qed.
#[local] Hint Resolve frozen_retry : fsp.

Lemma frozen_run_op o : unchecked o = false -> frozen (run_op q o).
Proof.
  intros Ho. assert (forall i m, o = OpPublish i m -> q_federation q = None) as Hp
    by (intros i m ->; cbn in Ho; by destruct (q_federation q)).
  assert (forall t e, o = OpSnapshot t e -> q_federation q = None) as Hs
    by (intros t e ->; cbn in Ho; by destruct (q_federation q)).
  destruct o; try discriminate; cbn [run_op]; (apply frozen_bind; [|by intros; apply quiet_frozen]);
    eauto with fsp.
  - unfold create_request, get_request, forM_. solve_frozen.
  - unfold runnable_tasks, get_request. solve_frozen.
  - unfold set_dispatch_status, get_task. solve_frozen.
  - unfold claim_task, requeue_waiting, get_task. solve_frozen.
  - unfold renew_agent_claims, renew_one, get_task. solve_frozen.
  - unfold release_claim, get_task. solve_frozen.
  - unfold fence_claims, fence_one. solve_frozen.
  - unfold reconcile_membership. solve_frozen.
  - unfold reassign_fenced_claims, reassign_one. solve_frozen.
Qed.

End deposed_queue.
