(* ===== verification/QueueDemo.v ===== *)
(** * A concrete queue

    Instances of the parameters and small stores on which the theorems about the
    queue are instantiated. *)

From S2P Require Import Prelude PyText Sha256 Json ArtifactStore World Lease Contract ReadPlan.
From S2P Require Import Generation WorkQueue QueueStore QueueTasks.
Import MemoryStore.

Definition queue_env : Env := {| clock n := 1000 + Z.of_nat n; token n := "tok" |}.
Definition queue_lib : QueueEnv :=
  {| redact_db_url s := s; parquet_num_rows b := None |}.

#[local] Existing Instance queue_env.
#[local] Existing Instance queue_lib.

Definition plain_queue : queue := new_queue 120 3 5 60 None.
Definition fenced_queue : queue := new_queue 120 3 5 60 (Some (validate None None None)).

Definition some_task : materialize_task :=
  MaterializeTask "orders" 1 0 "dbo.orders" "orders/part-0.parquet" [] None "t1" "r1" "" 0 0
    "default" "" "g" 3 "sha" "delta" 90000 1 "" "" 0 0 "".

Definition waiting_record : dict :=
  new_task_record plain_queue "t1" "r1" (materialize_task_to_dict some_task) 0.

Definition held_record : dict :=
  assign [("state", js TASK_CLAIMED); ("attempt", JInt 1); ("revision", JInt 2);
          ("claim", JObj (new_claim "agent-1" "lease" "tok" "m" 4 0 0 0 5000 "x" 5))]
    waiting_record.

(** The same claim taken by a worker of an elastic membership. *)
Definition member_record : dict :=
  assign [("claim", JObj (new_claim "agent-1" "lease" "tok" "m" 4 2 1 0 5000 "x" 5))] held_record.

Definition world_with (task : dict) : world :=
  World {[ slot "t1.json" := encode task ]} 0 0 (LeaseObj "m" 100 true 4 "").

Lemma world_with_wf task v :
  view_of task = Some v -> tv_id v = "t1" ->
  (is_Some (tv_claim v) <-> tv_state v = TASK_CLAIMED) ->
  wf_tasks (w_store (world_with task)).
Proof.
  intros Hv Hid Hc k b _ Hb. unfold world_with in Hb. cbn [w_store] in Hb.
  apply lookup_singleton_Some in Hb as [<- <-]. exists v. split; [exact Hv|].
  split; [rewrite Hid; reflexivity|exact Hc].
Qed.

Lemma waiting_wf : wf_tasks (w_store (world_with waiting_record)).
Proof. eapply world_with_wf; [reflexivity|reflexivity|]. cbn. split; [by intros []|done]. Qed.

Lemma held_wf : wf_tasks (w_store (world_with held_record)).
Proof. eapply world_with_wf; [reflexivity|reflexivity|]. cbn. split; [done|by eexists]. Qed.

Lemma member_wf : wf_tasks (w_store (world_with member_record)).
Proof. eapply world_with_wf; [reflexivity|reflexivity|]. cbn. split; [done|by eexists]. Qed.

(** ** Evaluated runs *)

Definition ok_run {A} (x : res A * world) : bool := match x.1 with Ok _ => true | Err _ => false end.
Definition result {A} (d : A) (x : res A * world) : A := match x.1 with Ok a => a | Err _ => d end.

Lemma run_ok {A} (d : A) (x : res A * world) : ok_run x = true -> x = (Ok (result d x), x.2).
Proof. destruct x as [[a|e] w]; done. Qed.

Definition empty_world : world := World ∅ 0 0 (LeaseObj "m" 100 true 4 "").
