(* ===== verification/QueueProps.v ===== *)
(** * Properties of the durable work queue *)

From S2P Require Import Prelude PyText Sha256 Json ArtifactStore World Lease Contract ReadPlan.
From S2P Require Import Generation WorkQueue QueueStore QueueTasks QueueOps QueueResults.
From S2P Require Import QueueHistory QueueLeadership QueueDemo.
Import MemoryStore.

(** No step of the table leaves a terminal state. *)
Lemma steps_terminal v v' : rtc step_ok v v' -> terminal (tv_state v) = true -> tv_state v' = tv_state v.
Proof.
  induction 1 as [v|v v1 v' [[[E _]|[Hst _]] _] _ IH]; intros Ht; [done| |]; [rewrite IH; congruence|].
  exfalso. by destruct (tv_state v), (tv_state v1).
Qed.

Definition deletes (o : op) : bool :=
  match o with OpPrune _ _ | OpPruneStaging _ _ _ | OpRecover => true | _ => false end.

Lemma moved_terminal b b' v : moved b b' -> blob_view b = Some v -> terminal (tv_state v) = true ->
  exists v', blob_view b' = Some v' /\ tv_state v' = tv_state v.
Proof.
  intros [->|(u & u' & H1 & H2 & H3)] Hv Ht; [by exists v|]. assert (u = v) as -> by congruence.
  exists u'. split; [done|by eapply steps_terminal].
Qed.

Lemma terminal_change o s s' k v : op_change o s s' -> task_area k -> at_view s k v -> terminal (tv_state v) = true ->
  (exists v', at_view s' k v' /\ tv_state v' = tv_state v) \/ (s' !! k = None /\ deletes o = true) \/
  (exists id dl, o = OpRetry id /\ normalize_key (task_key id) = Ok k /\ tv_state v = TASK_FAILED /\ at_view s' k (retried_view dl v)).
Proof.
  intros Ho Hk (b & Hb & Hv) Ht.
  assert (task_steps s s' -> exists v', at_view s' k v' /\ tv_state v' = tv_state v) as Hsteps.
  { intros Hs. specialize (Hs k Hk). rewrite Hb in Hs. destruct (s' !! k) as [b'|] eqn:Hb'; [|done].
    destruct (moved_terminal b b' v Hs Hv Ht) as (v' & ? & ?). exists v'. split; [by exists b'|done]. }
  assert (task_shrinks s s' -> (exists v', at_view s' k v' /\ tv_state v' = tv_state v) \/ s' !! k = None) as Hshr.
  { intros Hs. specialize (Hs k Hk). rewrite Hb in Hs. destruct (s' !! k) as [b'|] eqn:Hb'; [left|by right].
    destruct (moved_terminal b b' v Hs Hv Ht) as (v' & ? & ?). exists v'. split; [by exists b'|done]. }
  destruct o; cbn [op_change] in Ho; try (left; by apply Hsteps); try (destruct (Hshr Ho); [by left|by right; left]).
  - left. exists v. split; [|done]. destruct (Ho k Hk) as [E|[E _]]; [|congruence]. exists b. by rewrite E.
  - destruct (Ho k Hk) as [E|(Hn & u & dl & (b2 & Hb2 & Hu) & Hf & Hv')]; [left; exists v; split; [exists b; by rewrite E|done]|].
    right. right. assert (u = v) as -> by congruence. by exists task_id, dl.
Qed.

Section props.
Context `{Env, QueueEnv} (q : queue) `{!Leadership q} `{!FederationFrame q}.

(** C1: The task state machine is respected by the whole queue.  Whatever calls were made before
    (creation, dispatch, claims, renewals, results, expiry, fencing, cancellation, retries, recovery,
    retention, publication), returning or raising, interleaved with other processes' writes outside the
    task records, the records are well formed (keyed by their id, claimed exactly when they carry a
    claim), and the next call, whatever its outcome, changes each of them only so: creation adds queued
    tasks under free keys; recovery and retention may delete; [retry_task] queues the one failed task it
    names anew; and otherwise each durable write is a transition of the published table under the next
    revision, or a rewrite in the same state, with the attempt never decreasing.  In particular a
    terminal task keeps its state but for these deletions and that retry.  A creation is assumed to
    find its task ids unused when it finds no index entry, and the objects the federation writes are
    not task records. *)
Theorem queue_history_conforms w w' o :
  history q w w' -> wf_tasks (w_store w) -> op_ok o (w_store w') ->
  let s := w_store w' in let s' := w_store (run_op q o w').2 in
  wf_tasks s /\ wf_tasks s' /\ op_change o s s' /\
  forall k v, task_area k -> at_view s k v -> terminal (tv_state v) = true ->
    (exists v', at_view s' k v' /\ tv_state v' = tv_state v) \/
    (s' !! k = None /\ deletes o = true) \/
    (exists id dl, o = OpRetry id /\ normalize_key (task_key id) = Ok k /\ tv_state v = TASK_FAILED /\ at_view s' k (retried_view dl v)).
Proof.
  intros Hh Hwf Hok. cbv zeta. pose proof (history_ok q w w' Hh Hwf) as Hwf'.
  destruct (run_op_ok q o w' Hwf' Hok) as [H1 H2]. split_and!; [done..|].
  intros k v Hk Hv Ht. by eapply terminal_change.
Qed.

(** A claim on a task that is not waiting raises and changes nothing. *)
Lemma claim_refused id k v agent lease owner fence mv wf now ls w :
  wf_tasks (w_store w) -> normalize_key (task_key id) = Ok k -> at_view (w_store w) k v ->
  (tv_state v ∉ [TASK_QUEUED; TASK_RETRY_WAIT]) ->
  1 <= default (q_task_lease_seconds q) ls ->
  claim_task q id agent lease owner fence mv wf (Some now) ls w
    = (Err (WorkQueueConflict "task cannot be claimed"), w).
Proof.
  intros Hwf Hk (b & Hb & Hv) Hst Hls. unfold claim_task.
  destruct (Z.ltb_spec (default (q_task_lease_seconds q) ls) 1); [lia|].
  unfold now_or, mret, M_ret, mbind at 1, M_bind at 1. unfold get_task. unfold mbind at 1, M_bind at 1.
  destruct b as [[| | | | |d]|]; try done.
  rewrite read_eq, (read_result_at _ _ _ d Hk Hb). unfold lift.
  unfold mbind at 1, M_bind at 1. rewrite (state_view _ _ Hv).
  unfold mbind at 1, M_bind at 1. rewrite in_set_js, bool_decide_eq_false_2 by done. done.
Qed.

(** Claims are exclusive and bounded.  A successful claim finds the task
    waiting, leaves it claimed by this agent with the next attempt number, the
    returned token and a deadline-bounded expiry; until the task leaves the
    claimed state every further claim, by anyone, is refused without any
    change.  A failed claim never leaves the task claimed by the caller. *)
Theorem claim_task_exclusive id agent lease owner fence mv wf now ls w :
  wf_tasks (w_store w) ->
  let '(r, w') := claim_task q id agent lease owner fence mv wf (Some now) ls w in
  let duration := default (q_task_lease_seconds q) ls in
  wf_tasks (w_store w') /\ task_steps (w_store w) (w_store w') /\
  forall p, r = Ok p ->
    exists k v v' c e dl,
      normalize_key (task_key id) = Ok k /\ at_view (w_store w) k v /\
      tv_state v ∈ [TASK_QUEUED; TASK_RETRY_WAIT] /\
      at_view (w_store w') k v' /\ tv_state v' = TASK_CLAIMED /\
      tv_attempt v' = tv_attempt v + 1 /\ mt_attempt p = tv_attempt v' /\
      tv_claim v' = Some c /\ c !! "agent_id" = Some (JStr agent) /\
      c !! "agent_lease_hash" = Some (JStr (sha256_hex lease)) /\
      c !! "claim_token" = Some (JStr (mt_claim_token p)) /\
      c !! "staging_key" = Some (JStr (mt_output_key p)) /\
      c !! "expires_at_ms" = Some (JInt e) /\
      get_int (tv_payload v) "deadline_ms" 0 = Ok dl /\
      e <= now + duration * 1000 /\ (dl <> 0 -> e <= dl) /\
      forall agent2 lease2 owner2 fence2 mv2 wf2 now2 ls2,
        1 <= default (q_task_lease_seconds q) ls2 ->
        claim_task q id agent2 lease2 owner2 fence2 mv2 wf2 (Some now2) ls2 w'
          = (Err (WorkQueueConflict "task cannot be claimed"), w').
Proof.
  intros Hwf. pose proof (claim_task_effect q id agent lease owner fence mv wf (Some now) ls w Hwf) as He.
  unfold wp in He. destruct (claim_task q id agent lease owner fence mv wf (Some now) ls w) as [r w'].
  cbn [fst snd] in He. destruct He as (H1 & H2 & H3). cbv zeta. split_and!; [done|done|].
  intros p ->. destruct (H3 p eq_refl) as (k & v & v' & tok & t & dl & staging & Hk & Hv & Hst & Hv' &
    Hcl & Hat & Hpl & Hdl & Hc & Htok & Hatt & Hout & ->).
  eexists k, v, v', _, _, dl.
  split; [exact Hk|]. split; [exact Hv|]. split; [exact Hst|]. split; [exact Hv'|].
  split; [exact Hcl|]. split; [exact Hat|]. split; [exact Hatt|]. split; [exact Hc|].
  split; [|split; [|split; [|split; [|split; [|split; [exact Hdl|split; [|split]]]]]]].
  - reflexivity.
  - reflexivity.
  - by rewrite Htok.
  - by rewrite Hout.
  - reflexivity.
  - unfold claim_expiry. lia.
  - intros Hne. unfold claim_expiry, int_or, truthy_int.
    rewrite (proj2 (Z.eqb_neq dl 0) Hne). cbn. lia.
  - intros. eapply claim_refused; try done. rewrite Hcl. set_solver.
Qed.

(** C2: A result is accepted only from the holder of the claim, for the
    current work, with verified output.  If [accept_result] answers
    "accepted" then, in the store as the expiry sweep of the call leaves it, the task was claimed with
    exactly the reported token, agent, attempt, agent lease, membership
    version and worker fence, the claim and the deadline had not passed, the
    worker's membership entry (if any) matched, and the report carries the
    task's generation, fence and plan digest; a success additionally means
    the staged object exists with the reported size, hash and row count, and
    the task ends up succeeded. *)
Theorem accept_result_sound r lease now w :
  wf_tasks (w_store w) ->
  let '(res, w') := accept_result q r lease (Some now) w in
  let w1 := (expire_claims q (Some now) w).2 in
  wf_tasks (w_store w') /\ task_steps (w_store w) (w_store w') /\
  forall a, res = Ok a -> ack_reason_code a = RESULT_ACCEPTED ->
    accepted_ok (w_store w1) (w_store w') r lease now a.
Proof.
  intros Hwf. pose proof (accept_result_wp q r lease now w Hwf) as Ha. unfold wp in Ha.
  by destruct (accept_result q r lease (Some now) w) as [res w'].
Qed.

(** Expiry is complete.  When [expire_claims] returns, no task is left
    claimed beyond its expiry, and no task is left waiting or claimed beyond
    its deadline. *)
Theorem expire_claims_complete now w :
  wf_tasks (w_store w) ->
  let '(r, w') := expire_claims q (Some now) w in
  wf_tasks (w_store w') /\ task_steps (w_store w) (w_store w') /\
  (is_Ok r -> forall t v, at_view (w_store w') (slot t) v -> not_due now v).
Proof.
  intros Hwf. pose proof (expire_claims_post q now w Hwf) as Ha. unfold wp in Ha.
  by destruct (expire_claims q (Some now) w) as [res w'].
Qed.

(** Fencing by a new leadership term is complete.  When [fence_claims]
    returns, every task that is still claimed was claimed under the given
    Manager and fence; all other claims are back in the queue. *)
Theorem fence_claims_complete owner fence w :
  wf_tasks (w_store w) ->
  let '(r, w') := fence_claims q owner fence w in
  wf_tasks (w_store w') /\ task_steps (w_store w) (w_store w') /\
  (is_Ok r -> forall t v, at_view (w_store w') (slot t) v -> of_term owner fence v).
Proof.
  intros Hwf. pose proof (fence_claims_post q owner fence w Hwf) as Ha. unfold wp in Ha.
  by destruct (fence_claims q owner fence w) as [res w'].
Qed.

(** C3: A deposed Manager is harmless.  If there is no lease record, or it
    names another term than the one this Manager holds, then no call of its queue changes the store in
    any way, and the Manager remains deposed.  Excepted are retention, which removes staged outputs
    directly, and publication and lookup when snapshots are published through the federation, whose
    coordinator checks the ownership of the dataset instead. *)
Theorem deposed_manager_changes_nothing o w :
  q_leadership_check q = Some (validate None None None) -> unchecked q o = false -> deposed w ->
  w_store (run_op q o w).2 = w_store w /\ deposed (run_op q o w).2.
Proof.
  intros Hq Ho Hd. by destruct (frozen_run_op q Hq o Ho w Hd).
Qed.
End props.

(** ** Witnesses *)

#[local] Existing Instance queue_env.
#[local] Existing Instance queue_lib.

(** A finished task, after an expiry, meets a cancellation of its request. *)
Definition finished_record : dict := assign [("state", js TASK_SUCCEEDED)] waiting_record.
Lemma finished_wf : wf_tasks (w_store (world_with finished_record)).
Proof. eapply world_with_wf; [reflexivity|reflexivity|]. cbn. split; [by intros []|done]. Qed.

Lemma queue_history_conforms_witness :
  let w := world_with finished_record in
  let w' := (run_op plain_queue (OpExpire (Some 5000)) w).2 in
  let o := OpCancel "r1" "stop" in
  task_steps (w_store w') (w_store (run_op plain_queue o w').2) /\
  exists v', at_view (w_store (run_op plain_queue o w').2) (slot "t1.json") v' /\ tv_state v' = TASK_SUCCEEDED.
Proof.
  intros w w' o. destruct (queue_history_conforms plain_queue w w' o) as (_ & _ & Hs & Ht).
  - eapply (hist_op _ (OpExpire (Some 5000))); [exact I|apply hist_nil].
  - exact finished_wf.
  - exact I.
  - split; [exact Hs|].
    destruct (Ht (slot "t1.json") (TView "t1" TASK_SUCCEEDED None 0 3 1 (materialize_task_to_dict some_task)))
      as [(v' & Hv & Hst)|[[_ Hd]|(id & dl & Hid & _)]]; [right; exists "t1.json"; reflexivity| |reflexivity| |discriminate Hd|discriminate Hid].
    + exists (encode finished_record). split; vm_compute; reflexivity.
    + exists v'. split; [exact Hv|exact Hst].
Defined.

Lemma claim_task_exclusive_witness :
  let w := world_with waiting_record in
  let '(r, w') := claim_task plain_queue "t1" "a" "l" "m" 4 0 0 (Some 2000) None w in
  let duration := default (q_task_lease_seconds plain_queue) None in
  wf_tasks (w_store w') /\ task_steps (w_store w) (w_store w') /\
  forall p, r = Ok p ->
    exists k v v' c e dl,
      normalize_key (task_key "t1") = Ok k /\ at_view (w_store w) k v /\
      tv_state v ∈ [TASK_QUEUED; TASK_RETRY_WAIT] /\
      at_view (w_store w') k v' /\ tv_state v' = TASK_CLAIMED /\
      tv_attempt v' = tv_attempt v + 1 /\ mt_attempt p = tv_attempt v' /\
      tv_claim v' = Some c /\ c !! "agent_id" = Some (JStr "a") /\
      c !! "agent_lease_hash" = Some (JStr (sha256_hex "l")) /\
      c !! "claim_token" = Some (JStr (mt_claim_token p)) /\
      c !! "staging_key" = Some (JStr (mt_output_key p)) /\
      c !! "expires_at_ms" = Some (JInt e) /\
      get_int (tv_payload v) "deadline_ms" 0 = Ok dl /\
      e <= 2000 + duration * 1000 /\ (dl <> 0 -> e <= dl) /\
      forall agent2 lease2 owner2 fence2 mv2 wf2 now2 ls2,
        1 <= default (q_task_lease_seconds plain_queue) ls2 ->
        claim_task plain_queue "t1" agent2 lease2 owner2 fence2 mv2 wf2 (Some now2) ls2 w'
          = (Err (WorkQueueConflict "task cannot be claimed"), w').
Proof.
  intros w.
  apply (claim_task_exclusive plain_queue "t1" "a" "l" "m" 4 0 0 2000 None w).
  exact waiting_wf.
Defined.

Definition demo_result : task_result :=
  TaskResult "agent-1" "orders" 1 0 true 10 2 "h" "" "t1" "r1" "tok" 1 "g" 3 "sha" false 0 ""
    0 0 "".

(** The staged output of the claimed task is in the store and has two rows. *)
Definition staged_key : string := staging_key "orders/part-0.parquet" "g" "t1" 1 "tok".
Definition staged_record : dict :=
  assign [("claim", JObj (new_claim "agent-1" "lease" "tok" "m" 4 0 0 0 5000 staged_key 5))] held_record.
Definition staged_world : world :=
  World (<[staged_key := BRaw "PAR1"]> (w_store (world_with staged_record))) 0 0 (LeaseObj "m" 100 true 4 "").
Definition counting_lib : QueueEnv := {| redact_db_url s := s; parquet_num_rows b := Some 2 |}.
#[local] Existing Instance counting_lib.
Definition staged_result : task_result :=
  TaskResult "agent-1" "orders" 1 0 true 4 2 (sha256_hex "PAR1") "" "t1" "r1" "tok" 1 "g" 3 "sha" false 0 ""
    0 0 "0123456789abcdef0123456789abcdef".

Lemma staged_wf : wf_tasks (w_store staged_world).
Proof.
  intros k b Hk Hb. destruct (decide (k = staged_key)) as [->|Hne].
  - exfalso. destruct Hk as [Hk|[t Hk]]; vm_compute in Hk; discriminate Hk.
  - unfold staged_world in Hb. cbn [w_store] in Hb. rewrite lookup_insert_ne in Hb by done. revert k b Hk Hne Hb.
    assert (wf_tasks (w_store (world_with staged_record))) as Hwf; [|intros k b Hk _; by apply Hwf].
    eapply world_with_wf; [reflexivity|reflexivity|]. cbn. split; [done|by eexists].
Qed.

Lemma accept_result_sound_witness :
  let run := accept_result plain_queue staged_result "lease" (Some 2000) staged_world in
  let w1 := (expire_claims plain_queue (Some 2000) staged_world).2 in
  exists a, run.1 = Ok a /\ ack_reason_code a = RESULT_ACCEPTED /\ ack_state a = state_str TASK_SUCCEEDED /\
    accepted_ok (w_store w1) (w_store run.2) staged_result "lease" 2000 a.
Proof.
  intros run w1. pose proof (accept_result_sound plain_queue staged_result "lease" 2000 staged_world staged_wf) as H.
  fold run in H. assert (run.1 = Ok (Ack true (state_str TASK_SUCCEEDED) false true RESULT_ACCEPTED)) as E by (vm_compute; reflexivity).
  destruct run as [res w']. cbn [fst snd] in E |- *. destruct H as (_ & _ & H). eexists. split; [exact E|].
  split; [reflexivity|]. split; [reflexivity|]. apply H; [exact E|reflexivity].
Defined.

Lemma expire_claims_complete_witness :
  let w := world_with held_record in
  let '(r, w') := expire_claims plain_queue (Some 6000) w in
  wf_tasks (w_store w') /\ task_steps (w_store w) (w_store w') /\
  (is_Ok r -> forall t v, at_view (w_store w') (slot t) v -> not_due 6000 v).
Proof. intros w. apply (expire_claims_complete plain_queue 6000 w). exact held_wf. Defined.

Lemma fence_claims_complete_witness :
  let w := world_with held_record in
  let '(r, w') := fence_claims plain_queue "m2" 5 w in
  wf_tasks (w_store w') /\ task_steps (w_store w) (w_store w') /\
  (is_Ok r -> forall t v, at_view (w_store w') (slot t) v -> of_term "m2" 5 v).
Proof. intros w. apply (fence_claims_complete plain_queue "m2" 5 w). exact held_wf. Defined.

(** The lease is held by another owner, under a later fence. *)
Definition deposed_world : world :=
  World (<[LEASE_KEY := demo_record "m2" 1000 5]> (w_store (world_with held_record))) 0 0
    (LeaseObj "m" 100 true 4 "").

Lemma deposed_manager_changes_nothing_witness :
  let o := OpClaim "t1" "a" "l" "m" 4 0 0 (Some 2000) None in
  w_store (run_op fenced_queue o deposed_world).2 = w_store deposed_world /\
  deposed (run_op fenced_queue o deposed_world).2.
Proof.
  intros o. apply (deposed_manager_changes_nothing fenced_queue o deposed_world);
    [reflexivity|reflexivity|].
  split; [apply demo_wf|]. intros o' f Ht.
  assert (term (w_store deposed_world) = Some ("m2", 5)) as E by reflexivity.
  rewrite E in Ht. injection Ht as <- <-. split; [lia|]. left. discriminate.
Defined.
