(* ===== verification/QueueMembership.v ===== *)
(** * Worker membership of a generation

    The membership record gives every worker a fence.  The fence moves whenever
    the worker leaves, returns or comes back under another lease, so that claims
    taken under an earlier registration are recognised and taken back. *)

From S2P Require Import Prelude PyText Sha256 Json ArtifactStore World Lease Contract ReadPlan.
From S2P Require Import Generation WorkQueue QueueStore QueueTasks QueueOps QueueResults.
From S2P Require Import QueueDemo.
Import MemoryStore.

(** ** One worker *)

(** The registration of a worker: whether it is active, and its lease. *)
Definition registration (p : dict) : bool * res string :=
  (bool_decide (dget p "state" JNull = JStr "active"), get_str p "lease_hash" "").

Definition fence_of (p : dict) : res Z := get_int p "worker_fence" 0.

(** From [p] to [p']: the fence never decreases, and increases by one whenever
    the registration changes. *)
Definition fence_moves (p p' : dict) : Prop :=
  forall f, fence_of p = Ok f -> exists f', fence_of p' = Ok f' /\ f <= f' <= f + 1 /\
    (registration p' <> registration p -> f' = f + 1).

Lemma fence_moves_refl p : fence_moves p p.
Proof. intros f Hf. exists f. split_and!; [done|lia|lia|done]. Qed.

Ltac fields := unfold fence_of, registration, get_int, get_str, assign; cbn [foldl fst snd];
  repeat first [rewrite dget_insert_eq | rewrite dget_insert_ne by done].

Lemma departed_moves now p f :
  next_fence p = Ok f ->
  fence_moves p (assign [("state", JStr "departed"); ("worker_fence", JInt f);
                         ("last_seen_ms", JInt now)] p).
Proof.
  unfold next_fence. intros Hn g Hg. unfold fence_of in Hg. rewrite Hg in Hn.
  injection Hn as <-. exists (g + 1). split_and!; [|lia|lia|done].
  fields. done.
Qed.

Lemma refresh_moves now p o p' reasons :
  refresh_worker now p o = Ok (p', reasons) ->
  fence_moves p p' /\ registration p' = (true, req_str o "lease_hash").
Proof.
  unfold refresh_worker. intros Hr.
  apply bind_Ok in Hr as (ph & Hph & Hr). apply bind_Ok in Hr as (oh & Hoh & Hr).
  apply bind_Ok in Hr as (same & Hsame & Hr). rewrite Hoh.
  apply bind_Ok in Hr as ([p1 r1] & Hstep & Hr).
  apply bind_Ok in Hr as (pc & _ & Hr). apply bind_Ok in Hr as (oc & _ & Hr).
  set (p2 := if negb (pc =? oc) then <["capacity" := JInt oc]> p1 else p1).
  assert (p' = assign [("lease_hash", JStr oh); ("last_seen_ms", JInt now)] p2) as ->.
  { unfold p2. destruct (negb (pc =? oc)); by injection Hr as <- <-. }
  clear Hr.
  assert (forall k v, k <> "capacity" -> dget p2 k v = dget p1 k v) as H2.
  { intros k v Hk. unfold p2. destruct (negb (pc =? oc)); [by apply dget_insert_ne|done]. }
  assert (forall k v, k <> "capacity" -> k <> "lease_hash" -> k <> "last_seen_ms" ->
    dget (assign [("lease_hash", JStr oh); ("last_seen_ms", JInt now)] p2) k v = dget p1 k v) as H3.
  { intros k v ? ? ?. unfold assign. cbn [foldl fst snd]. rewrite !dget_insert_ne by done. auto. }
  unfold fence_moves, fence_of, registration, get_int, get_str. rewrite !H3 by done.
  assert (dget (assign [("lease_hash", JStr oh); ("last_seen_ms", JInt now)] p2) "lease_hash" (JStr "")
    = JStr oh) as ->.
  { unfold assign. cbn [foldl fst snd]. rewrite dget_insert_ne by done. apply dget_insert_eq. }
  cbn [py_str].
  destruct (negb same || _) eqn:Hch.
  - apply bind_Ok in Hstep as (f & Hf & Hstep). injection Hstep as Hp1 _.
    assert (dget p1 "state" JNull = JStr "active") as Hs1 by (rewrite <- Hp1; by fields).
    assert (dget p1 "worker_fence" (JInt 0) = JInt f) as Hf1 by (rewrite <- Hp1; by fields).
    rewrite (bool_decide_eq_true_2 _ Hs1). split; [|done]. intros g Hg.
    unfold next_fence, get_int in Hf. rewrite Hg in Hf. injection Hf as <-.
    exists (g + 1). split_and!; [|lia|lia|done]. by rewrite Hf1.
  - injection Hstep as <- <-. apply orb_false_iff in Hch as [Hs Ha].
    apply negb_false_iff in Ha. rewrite Ha. split; [|done].
    destruct same; [|done]. apply compare_digest_true in Hsame as <-.
    unfold get_str in Hph. intros g Hg. exists g. split_and!; [done|lia|lia|].
    by rewrite Hph.
Qed.

(** What reconciliation does to one worker of the record. *)
Definition worker_evolves (p p' : option dict) (observed : option dict) : Prop :=
  match p, p' with
  | Some p, Some p' => fence_moves p p' /\
      match observed with
      | Some o => registration p' = (true, req_str o "lease_hash")
      | None => (registration p').1 = false
      end
  | None, Some p' => exists now o, observed = Some o /\ p' = joined_worker now o
  | None, None => observed = None
  | Some _, None => False
  end.

Lemma reconcile_worker_evolves now p o p' reasons :
  reconcile_worker now p o = Ok (p', reasons) -> worker_evolves p p' o.
Proof.
  destruct p as [p|], o as [o|]; cbn [reconcile_worker].
  - intros Hr. apply bind_Ok in Hr as ([p1 r1] & Hr & He). injection He as <- _.
    by apply refresh_moves in Hr.
  - case_bool_decide as Ha.
    + intros Hr. apply bind_Ok in Hr as (f & Hf & Hr). injection Hr as <- _.
      split; [by apply departed_moves|]. fields. by rewrite bool_decide_eq_false_2.
    + intros [= <- _]. split; [apply fence_moves_refl|]. fields. by apply bool_decide_eq_false_2.
  - intros [= <- _]. by exists now, o.
  - by intros [= <- _].
Qed.

(** The loop treats every listed agent once and no other. *)
Lemma reconcile_loop_spec now observed agents : forall existing reasons ws' reasons',
  NoDup agents ->
  reconcile_loop now observed agents existing reasons = Ok (ws', reasons') ->
  forall a, if decide (a ∈ agents) then worker_evolves (existing !! a) (ws' !! a) (observed !! a)
            else ws' !! a = existing !! a.
Proof.
  induction agents as [|b agents IH]; intros existing reasons ws' reasons' Hnd Hr a; cbn in Hr.
  { injection Hr as <- _. rewrite decide_False by apply not_elem_of_nil. done. }
  apply NoDup_cons in Hnd as [Hb Hnd]. apply bind_Ok in Hr as ([w r] & Hw & Hr). cbn [fst snd] in Hr.
  specialize (IH _ _ _ _ Hnd Hr a). apply reconcile_worker_evolves in Hw.
  destruct (decide (a = b)) as [->|Hne].
  - rewrite decide_True by left. rewrite decide_False in IH by done. rewrite IH.
    destruct w as [w|]; [by rewrite lookup_insert_eq|]. by destruct (existing !! b).
  - assert (match w with Some w => <[b := w]> existing | None => existing end !! a = existing !! a)
      as Hsame by (destruct w; [by rewrite lookup_insert_ne|done]).
    rewrite Hsame in IH. destruct (decide (a ∈ agents)) as [Hin|Hin].
    + rewrite decide_True by by right. done.
    + rewrite decide_False; [done|]. intros [?|?]%elem_of_cons; done.
Qed.

Lemma sorted_keys_elem (m : gset string) a : a ∈ sorted_keys m <-> a ∈ m.
Proof. unfold sorted_keys. rewrite merge_sort_Permutation. apply elem_of_elements. Qed.

Lemma sorted_keys_nodup (m : gset string) : NoDup (sorted_keys m).
Proof. unfold sorted_keys. rewrite merge_sort_Permutation. apply NoDup_elements. Qed.

(** A stored set of workers reads back. *)
Lemma stored_workers_of m ws :
  m !! "workers" = Some (JObj (obj_values ws)) -> stored_workers m = Ok ws.
Proof.
  intros Hm. unfold stored_workers, get_dict, dget. rewrite Hm. cbn [default from_option id mbind res_bind].
  unfold obj_values. rewrite map_to_list_fmap.
  assert (forall l : list (string * dict),
    res_map (fun kv : string * json => d ← as_obj kv.2; Ok (kv.1, d)) (prod_map id JObj <$> l) = Ok l)
    as Hl.
  { induction l as [|[k d] l IH]; [done|]. cbn in *. by rewrite IH. }
  rewrite Hl. cbn. by rewrite list_to_map_to_list.
Qed.

Section membership.
Context `{Env, QueueEnv} (q : queue) `{!Leadership q}.

(** The workers that may appear after reconciliation. *)
Definition eligible (policy : string) (ws current : gmap string dict) (a : string) : Prop :=
  is_Some (ws !! a) \/ (policy = "elastic" /\ is_Some (current !! a)).

Definition members_evolve (policy : string) (ws current ws' : gmap string dict) : Prop :=
  forall a, (is_Some (ws' !! a) <-> eligible policy ws current a) /\
    (eligible policy ws current a -> worker_evolves (ws !! a) (ws' !! a) (current !! a)).

Lemma reconciled_spec m current policy now m' :
  reconciled m current policy now = Ok m' ->
  exists ws ws' v, stored_workers m = Ok ws /\ stored_workers m' = Ok ws' /\
    members_evolve policy ws current ws' /\
    (m' !! "membership_version" = m !! "membership_version" \/
     get_int m "membership_version" 0 = Ok v /\ m' !! "membership_version" = Some (JInt (v + 1))).
Proof.
  unfold reconciled. intros Hr. apply bind_Ok in Hr as (ws & Hws & Hr). cbv zeta in Hr.
  set (allowed := if String.eqb policy "elastic" then dom ws ∪ dom current else dom ws) in Hr.
  apply bind_Ok in Hr as ([ws' reasons] & Hl & Hr). cbn [fst snd] in Hr.
  set (m1 := assign [("workers", JObj (obj_values ws')); ("updated_at_ms", JInt now)] m) in Hr.
  assert (m1 !! "workers" = Some (JObj (obj_values ws'))) as Hm1.
  { unfold m1, assign. cbn [foldl fst snd]. by rewrite lookup_insert_ne, lookup_insert_eq. }
  assert (m1 !! "membership_version" = m !! "membership_version") as Hmv.
  { unfold m1, assign. cbn [foldl fst snd]. by rewrite !lookup_insert_ne. }
  assert (forall a, a ∈ allowed <-> eligible policy ws current a) as Hal.
  { intros a. unfold allowed, eligible. destruct (String.eqb_spec policy "elastic").
    - rewrite elem_of_union, !elem_of_dom. naive_solver.
    - rewrite elem_of_dom. naive_solver. }
  assert (members_evolve policy ws current ws') as Hev.
  { intros a. pose proof (reconcile_loop_spec _ _ _ _ _ _ _ (sorted_keys_nodup allowed) Hl a) as Ha.
    destruct (decide (a ∈ sorted_keys allowed)) as [Hin|Hin]; rewrite sorted_keys_elem, Hal in Hin.
    - split; [|done]. split; [done|]. intros _.
      destruct (ws !! a) as [p|] eqn:Ep, (ws' !! a) as [p'|]; cbn in Ha; try done.
      destruct Hin as [[]|[_ [o Ho]]]; congruence.
    - split; [|done]. rewrite Ha. split; [by left|done]. }
  exists ws, ws'. case_bool_decide as Hre.
  - injection Hr as <-. exists 0. split_and!; [done|by apply stored_workers_of|done|by left].
  - apply bind_Ok in Hr as (v & Hv & Hr). injection Hr as <-. exists v. split_and!; [done| |done|].
    + apply stored_workers_of. unfold assign. cbn [foldl fst snd]. by rewrite !lookup_insert_ne.
    + right. split; [|unfold assign; cbn [foldl fst snd]; by rewrite lookup_insert_ne, lookup_insert_eq].
      unfold get_int, dget in *. by rewrite <- Hmv.
Qed.

(** Reconciling the workers of a generation keeps fences meaningful.  The
    stored membership afterwards has the prior workers and, under the elastic
    policy only, the newly observed ones; a worker is active exactly when it was
    observed, under the observed lease; its fence never decreases and increases
    whenever its registration changed; the version only moves up by one. *)
Theorem reconcile_membership_correct gid gf workers policy now w m' w' m current :
  reconcile_membership q gid gf workers policy now w = (Ok m', w') ->
  read_result (w_store w) (membership_key gid) = Ok (Some m) ->
  current_workers workers = Ok current ->
  (exists stored, stamped m' stored /\
     read_result (w_store w') (membership_key gid) = Ok (Some stored)) /\
  exists ws ws' v, stored_workers m = Ok ws /\ stored_workers m' = Ok ws' /\
    members_evolve (lower (strip policy)) ws current ws' /\
    (m' !! "membership_version" = m !! "membership_version" \/
     get_int m "membership_version" 0 = Ok v /\ m' !! "membership_version" = Some (JInt (v + 1))).
Proof.
  intros Hrun Hm Hcur.
  assert (wp (reconcile_membership q gid gf workers policy now) (fun r w' => forall m', r = Ok m' ->
    (exists stored, stamped m' stored /\
       read_result (w_store w') (membership_key gid) = Ok (Some stored)) /\
    exists n, reconciled m current (lower (strip policy)) n = Ok m') w) as Hwp.
  { unfold reconcile_membership. apply wp_bind. pose proof (reads_now_or now w) as Hnow.
    destruct (now_or now w) as [[n|e] w1] eqn:En; (eapply wp_run; [exact En|]); [|done].
    cbn in Hnow. cbv zeta. destruct (negb _); [by apply wp_raise|].
    apply wp_bind, wp_lift. rewrite Hcur. apply wp_bind. eapply wp_run; [apply read_eq|].
    rewrite Hnow, Hm. apply wp_bind, wp_lift. destruct (py_str _); [|done].
    apply wp_bind, wp_lift. destruct (get_int m "generation_fence" (-1)); [|done].
    destruct (_ || _); [by apply wp_raise|].
    apply wp_bind, wp_lift. destruct (py_str _); [|done]. destruct (negb _); [by apply wp_raise|].
    apply wp_bind, wp_lift. destruct (reconciled m current _ n) as [m2|] eqn:Er; [|done].
    apply wp_bind. eapply wp_mono; [by apply (write_effect q)|]. intros [[]|e] w2 Hw; [|done].
    destruct Hw as (k & d & Hk & Hst & Hs & _). apply wp_ret. intros m3 [= <-].
    split; [|by exists n]. exists d. split; [done|]. eapply read_result_at; [exact Hk|].
    by rewrite Hs, lookup_insert_eq. }
  unfold wp in Hwp. rewrite Hrun in Hwp. destruct (Hwp m' eq_refl) as [Hst [n Hn]].
  split; [done|]. by eapply reconciled_spec.
Qed.

(** ** Taking back the claims of fenced workers *)

(** A claim on a task of the generation is held by a registered worker. *)
Definition held_by_member (gid : string) (ws : dict) (v : tview) : Prop :=
  tv_state v = TASK_CLAIMED -> get_str (tv_payload v) "generation_id" "" = Ok gid ->
  claim_still_valid ws (default ∅ (tv_claim v)) = Ok true.

Lemma reassign_one_wp gid ws now n d w :
  wf_tasks (w_store w) -> current (w_store w) d ->
  wp (reassign_one q gid ws now n d) (fun r w' => visits d (w_store w) (w_store w') /\
    (is_Ok r -> settled_at (held_by_member gid ws) d (w_store w'))) w.
Proof.
  intros Hwf (k & v & Ha & Hs & Hv & Hw). unfold reassign_one. view_lift.
  assert (visits d (w_store w) (w_store w)) as Hvis by (by apply visits_refl).
  assert (key_is d k) as Hk by (exists v; split; [done|apply Hw]).
  assert (at_view (w_store w) k v) as Hat by (by exists (encode d)).
  assert (dget d "state" JNull = js (tv_state v)) as ->.
  { apply view_of_spec in Hv as (_ & Hst & _). unfold dget. by rewrite Hst. }
  case_bool_decide as Hc.
  2: { apply wp_bind, wp_lift, wp_ret. split; [done|]. intros _. exists k, v. split_and!; [done|done|].
       intros Hst. by rewrite js_inj in Hc. }
  apply js_inj in Hc. apply wp_bind, wp_lift.
  destruct (get_str (tv_payload v) "generation_id" "") as [g|] eqn:Eg; [|split; [done|by intros []]].
  cbn [mbind res_bind]. destruct (String.eqb_spec g gid) as [->|Hne]; cbn [negb].
  2: { apply wp_ret. split; [done|]. intros _. exists k, v. split_and!; [done|done|].
       intros _ Hg. congruence. }
  view_lift. apply wp_bind, wp_lift.
  destruct (claim_still_valid ws _) as [[]|] eqn:Ev; [|clear Ev|split; [done|by intros []]].
  { apply wp_ret. split; [done|]. intros _. exists k, v. split_and!; [done|done|]. by intros _ _. }
  apply wp_bind, wp_lift.
  destruct (reassigned_task now d) as [new|] eqn:E; [|split; [done|by intros []]].
  pose proof (reassigned_task_view _ _ _ _ E Hv) as Hnew.
  apply wp_bind, wp_lift. rewrite (id_view _ _ Hnew). cbn [tv_id set_view]. apply wp_bind.
  eapply wp_mono.
  { eapply (write_task q _ k v); try done; [apply Hw| |].
    - apply step_ok_set; [right; by rewrite Hc|lia].
    - apply wf_view_set; [done|]. split; [by intros []|done]. }
  intros r w' (H1 & H2 & H3 & H4).
  assert (visits d (w_store w) (w_store w')) as Hvis'.
  { split_and!; [done|done|]. intros k' _ Hk'. apply H3. by intros ->. }
  destruct r as [[]|e]; [apply wp_ret|]; (split; [done|]); [|by intros []]. intros _.
  eexists k, _. split_and!; [done|exact H4|done].
Qed.

(** Reassignment is complete.  When [reassign_fenced_claims] returns, every
    task of the generation that is still claimed is held by an active worker of
    the given membership, under its current lease and fence. *)
Theorem reassign_fenced_claims_complete gid m now w :
  wf_tasks (w_store w) ->
  let '(r, w') := reassign_fenced_claims q gid m now w in
  wf_tasks (w_store w') /\ task_steps (w_store w) (w_store w') /\
  (is_Ok r -> exists ws, get_dict m "workers" = Ok ws /\
     forall t v, at_view (w_store w') (slot t) v -> held_by_member gid ws v).
Proof.
  intros Hwf. pose (P := fun (r : res Z) (w' : world) =>
    wf_tasks (w_store w') /\ task_steps (w_store w) (w_store w') /\
    (is_Ok r -> exists ws, get_dict m "workers" = Ok ws /\
       forall t v, at_view (w_store w') (slot t) v -> held_by_member gid ws v)).
  assert (wp (reassign_fenced_claims q gid m now) P w) as Hwp.
  { unfold reassign_fenced_claims. apply wp_bind. pose proof (reads_now_or now w) as Hnow.
    destruct (now_or now w) as [[n|e] w1] eqn:En; (eapply wp_run; [exact En|]); cbn in Hnow;
      [|rewrite <- Hnow in Hwf; unfold P; rewrite <- Hnow; split_and!; [done|done|by intros []]].
    rewrite <- Hnow in Hwf. apply wp_bind, wp_lift.
    destruct (get_dict m "workers") as [ws|] eqn:Ews;
      [|unfold P; rewrite <- Hnow; split_and!; [done|done|by intros []]].
    eapply (wp_all_tasks q _ (held_by_member gid ws)); try done; [apply reassign_one_wp| |].
    - intros c w' Hwf' Hst HP. rewrite Hnow in Hst. destruct (truthy_int c).
      2: { apply wp_ret. split_and!; [done|done|]. intros _. by exists ws. }
      apply wp_bind, wp_lift. destruct (get_int m "reassignment_count" 0);
        [|split_and!; [done|done|by intros []]]. apply wp_bind.
      eapply wp_mono; [by apply (write_effect q)|]. intros [[]|e] w2 Hw2; cbn in Hw2.
      2: { unfold P. rewrite Hw2. split_and!; [done|done|by intros []]. }
      destruct Hw2 as (k & d & Hk & _ & Hs & _). apply wp_ret.
      assert (forall k', task_area k' -> w_store w2 !! k' = w_store w' !! k') as Hsame.
      { intros k' Hk'. rewrite Hs, lookup_insert_ne; [done|]. intros ->.
        apply membership_key_area in Hk. by eapply membership_not_task. }
      split_and!; [by eapply wf_tasks_same|etrans; [done|by apply task_rel_same]|].
      intros _. exists ws. split; [done|]. intros t v Hv. apply (HP t).
      unfold at_view in *. rewrite <- Hsame; [done|]. right. by exists t.
    - intros e w' ? Hst. rewrite Hnow in Hst. split_and!; [done|done|by intros []]. }
  unfold wp, P in Hwp. by destruct (reassign_fenced_claims q gid m now w).
Qed.
End membership.

(** ** Witnesses *)

#[local] Existing Instance queue_env.
#[local] Existing Instance queue_lib.

(** One registered worker, while another one is observed. *)
Definition demo_members : dict :=
  membership_record "g" 3 4 "elastic"
    (obj_values (<["a" := joined_worker 10 (mk_dict [("agent_id", JStr "a");
                            ("lease_hash", JStr "h"); ("capacity", JInt 1)])]> ∅))
    "initialized" 10.
Definition members_world : world :=
  World {[ membership_key "g" := encode demo_members ]} 0 0 (LeaseObj "m" 100 true 4 "").
Definition observed : list dict :=
  [mk_dict [("agent_id", JStr "b"); ("lease_id", JStr "l2"); ("capacity", JInt 2)]].
Definition reconcile_run : res dict * world :=
  reconcile_membership plain_queue "g" 3 observed "elastic" (Some 20) members_world.
Definition observed_now : gmap string dict :=
  match current_workers observed with Ok c => c | Err _ => ∅ end.

Lemma reconcile_membership_correct_witness :
  (exists stored, stamped (result ∅ reconcile_run) stored /\
     read_result (w_store reconcile_run.2) (membership_key "g") = Ok (Some stored)) /\
  exists ws ws' v, stored_workers demo_members = Ok ws /\
    stored_workers (result ∅ reconcile_run) = Ok ws' /\
    members_evolve (lower (strip "elastic")) ws observed_now ws' /\
    ((result ∅ reconcile_run) !! "membership_version" = demo_members !! "membership_version" \/
     get_int demo_members "membership_version" 0 = Ok v /\
     (result ∅ reconcile_run) !! "membership_version" = Some (JInt (v + 1))).
Proof.
  apply (reconcile_membership_correct plain_queue "g" 3 observed "elastic" (Some 20) members_world
           (result ∅ reconcile_run) reconcile_run.2 demo_members observed_now).
  - apply run_ok. vm_compute. reflexivity.
  - vm_compute. reflexivity.
  - vm_compute. reflexivity.
Defined.

Lemma reassign_fenced_claims_complete_witness :
  let w := world_with member_record in
  let '(r, w') := reassign_fenced_claims plain_queue "g" demo_members (Some 20) w in
  wf_tasks (w_store w') /\ task_steps (w_store w) (w_store w') /\
  (is_Ok r -> exists ws, get_dict demo_members "workers" = Ok ws /\
     forall t v, at_view (w_store w') (slot t) v -> held_by_member "g" ws v).
Proof.
  intros w. apply (reassign_fenced_claims_complete plain_queue "g" demo_members (Some 20) w).
  exact member_wf.
Defined.
