(* ===== verification/QueueRequests.v ===== *)
(** * Requests, publication and membership of the queue

    The creation of a request is idempotent and complete, the reply to a resent
    result, publication of a snapshot, fencing of departed workers. *)

From S2P Require Import Prelude PyText Sha256 Json ArtifactStore World Lease Contract ReadPlan.
From S2P Require Import Generation WorkQueue QueueStore QueueTasks QueueOps QueueResults.
From S2P Require Import QueueHistory QueueDemo.
Import MemoryStore.

Lemma request_not_idempotency k : area REQUESTS_PREFIX k -> area IDEMPOTENCY_PREFIX k -> False.
Proof. solve_disjoint. Qed.
Lemma task_not_idempotency k : area IDEMPOTENCY_PREFIX k -> task_area k -> False.
Proof. apply idempotency_not_task. Qed.

Lemma Ok_inj {A} (a b : A) : Ok a = Ok b -> a = b.
Proof. congruence. Qed.

Section requests.
Context `{Env, QueueEnv} (q : queue) `{!Leadership q}.

(** A record of a new task is stored at [k]. *)
Definition holds_new (s : mem) (k : string) : Prop := exists v, at_view s k v /\ new_ok v.

Definition is_new_record (r : string * dict) : Prop :=
  exists rid payload now, r.2 = new_task_record q r.1 rid payload now.

Lemma write_new_holds r w :
  is_new_record r ->
  wp (write_ q (task_key r.1) r.2) (fun res w' =>
    (forall k, ~ task_area k -> w_store w' !! k = w_store w !! k) /\
    (forall k, holds_new (w_store w) k -> holds_new (w_store w') k) /\
    (is_Ok res -> exists k, normalize_key (task_key r.1) = Ok k /\ holds_new (w_store w') k)) w.
Proof.
  intros (rid & payload & now & ->). eapply wp_mono; [by apply write_effect|].
  intros [[]|e] w'; cbn; intros Hw; [|rewrite Hw; split_and!; [done|done|by intros []]].
  destruct Hw as (k & d & Hk & Hst & Hs & _).
  assert (holds_new (w_store w') k) as Hnew.
  { eexists. split; [exists (encode d); rewrite Hs, lookup_insert_eq; split; [done|]|].
    - cbn. rewrite (stamped_view _ _ Hst). reflexivity.
    - done. }
  split_and!.
  - intros k' Hn. rewrite Hs, lookup_insert_ne; [done|]. intros ->. by eapply Hn, task_key_area.
  - intros k' Hk'. destruct (decide (k' = k)) as [->|Hne]; [done|].
    unfold holds_new, at_view in *. by rewrite Hs, lookup_insert_ne.
  - intros _. by exists k.
Qed.

(** The creation loop leaves a new task at every key it writes, and changes
    nothing outside the task records. *)
Lemma create_tasks_wp (records : list (string * dict)) : forall w,
  Forall is_new_record records ->
  wp (forM_ (fun r => write_ q (task_key r.1) r.2) records) (fun res w' =>
    (forall k, ~ task_area k -> w_store w' !! k = w_store w !! k) /\
    (forall k, holds_new (w_store w) k -> holds_new (w_store w') k) /\
    (is_Ok res -> forall r, r ∈ records ->
       exists k, normalize_key (task_key r.1) = Ok k /\ holds_new (w_store w') k)) w.
Proof.
  unfold forM_. induction records as [|r records IH]; intros w Hrec.
  { apply wp_ret. split_and!; [done|done|]. intros _ r Hr. by apply not_elem_of_nil in Hr. }
  apply Forall_cons in Hrec as [Hr Hrec]. apply wp_bind.
  eapply wp_mono; [by apply write_new_holds|].
  intros [[]|e] w1 (H1 & H2 & H3); [|split_and!; [done|done|by intros []]].
  destruct (H3 ltac:(by eexists)) as (k & Hk & Hn).
  eapply wp_mono; [by apply IH|]. intros res w2 (G1 & G2 & G3). split_and!.
  - intros k' Hk'. by rewrite G1, H1.
  - auto.
  - intros Hok r' [->|Hr']%elem_of_cons; [exists k; auto|by apply G3].
Qed.

(** The index entry of [identity] leads to the request [d]. *)
Definition indexed (s : mem) (identity : string) (d : dict) : Prop :=
  exists e rid, read_result s (idempotency_key identity) = Ok (Some e) /\
    req_str e "request_id" = Ok rid /\ read_result s (request_key rid) = Ok (Some d).

Lemma create_indexed rk table epoch tf gid gf sha tasks dl tenant d w :
  request_tenant tasks = Some tenant ->
  indexed (w_store w) (request_identity table epoch gid gf sha tenant) d ->
  create_request q rk table epoch tf gid gf sha tasks dl w = (Ok d, w).
Proof.
  intros Ht (e & rid & He & Hr & Hd). unfold create_request. rewrite Ht. cbv zeta.
  unfold mbind, M_bind. rewrite read_eq, He. unfold lift. rewrite Hr.
  unfold get_request. by rewrite read_eq, Hd.
Qed.

(** What a successful creation leaves behind. *)
Definition created (s s' : mem) (identity : string) (tasks : list materialize_task) (d : dict)
  : Prop :=
  exists d', stamped d d' /\ indexed s' identity d' /\
    (read_result s (idempotency_key identity) = Ok None ->
       get_bool d "ready" false = true /\
       d !! "task_ids" = Some (JList (map JStr (map (new_task_id (sha256_hex identity)) tasks))) /\
       forall t, t ∈ tasks -> exists k,
         normalize_key (task_key (new_task_id (sha256_hex identity) t)) = Ok k /\
         holds_new s' k).

Lemma create_request_created rk table epoch tf gid gf sha tasks dl w :
  wp (create_request q rk table epoch tf gid gf sha tasks dl) (fun r w' =>
    forall d, r = Ok d -> exists tenant, request_tenant tasks = Some tenant /\
      created (w_store w) (w_store w') (request_identity table epoch gid gf sha tenant) tasks d) w.
Proof.
  unfold create_request. destruct (request_tenant tasks) as [tenant|]; [|by apply wp_raise].
  cbv zeta. set (identity := request_identity _ _ _ _ _ _). apply wp_bind.
  eapply wp_run; [apply read_eq|].
  destruct (read_result (w_store w) (idempotency_key identity)) as [[e|]|e] eqn:Eid; [| |done].
  { apply wp_bind, wp_lift. destruct (req_str e "request_id") as [rid|] eqn:Er; [|done].
    apply wp_bind. unfold get_request. eapply wp_run; [apply read_eq|].
    destruct (read_result (w_store w) (request_key rid)) as [[r|]|] eqn:Eq;
      [|by apply wp_raise|done].
    apply wp_ret. intros d [= <-]. exists tenant. split; [done|]. fold identity. exists r.
    split_and!; [apply stamped_refl|by exists e, rid|intros ?; congruence]. }
  apply wp_bind. eapply wp_run; [reflexivity|].
  destruct (singleton_or_empty _) as [ds|]; [|by apply wp_raise].
  set (records := map _ tasks). set (request := new_request_record _ _ _ _ _ _ _ _ _ _ _ _ _ _).
  set (rid := sha256_hex identity) in *. apply wp_bind.
  eapply wp_mono; [by apply (write_effect q)|]. intros [[]|e] w1 _; [|done]. apply wp_bind.
  eapply wp_mono; [apply (create_tasks_wp records)|].
  { apply Forall_forall. intros r (t & -> & _)%list_elem_of_fmap. by eexists _, _, _. }
  intros [[]|e] w2 (_ & _ & Hnew); [|done]. specialize (Hnew ltac:(by eexists)). apply wp_bind.
  eapply wp_mono; [by apply (write_effect q)|]. intros [[]|e] w3 Hw3; [|done].
  destruct Hw3 as (kr & dr & Hkr & Hstr & Hs3 & _). apply wp_bind.
  eapply wp_mono; [by apply (write_effect q)|]. intros [[]|e] w4 Hw4; [|done].
  destruct Hw4 as (ki & di & Hki & Hsti & Hs4 & _). apply wp_ret. intros d <-%Ok_inj.
  exists tenant. split; [done|]. fold identity. exists dr.
  pose proof (request_key_area _ _ Hkr) as Har. pose proof (idempotency_file_area _ _ Hki) as Hai.
  assert (kr <> ki) as Hne by (intros ->; by eapply request_not_idempotency).
  split_and!; [done| |].
  - exists di, rid. split_and!.
    + eapply read_result_at; [exact Hki|]. by rewrite Hs4, lookup_insert_eq.
    + unfold req_str, dget_req. by rewrite (Hsti "request_id") by done.
    + eapply read_result_at; [exact Hkr|]. by rewrite Hs4, lookup_insert_ne, Hs3, lookup_insert_eq.
  - intros _. split_and!; [reflexivity| |].
    + rewrite lookup_insert_ne by done. change (request !! "task_ids") with (Some (JList (map JStr (map fst records)))).
      do 3 f_equal. apply map_map.
    + intros t Ht.
      assert (exists r, r ∈ records /\ r.1 = new_task_id rid t) as (r & Hr & Er).
      { eexists. split; [apply list_elem_of_fmap; exists t; by split|done]. }
      destruct (Hnew r Hr) as (k & Hk & v & Hv & Hok). rewrite Er in Hk. exists k. split; [done|]. exists v. split; [|done].
      pose proof (task_key_area _ _ Hk) as Ha. unfold at_view in *.
      rewrite Hs4, lookup_insert_ne, Hs3, lookup_insert_ne; [done|..]; intros ->.
      * by eapply request_not_task.
      * by eapply idempotency_not_task.
Qed.

(** Creating a request is idempotent and complete.  A creation that returns
    has made the request ready, lists exactly the tasks' ids and left a queued
    record for each; any later creation with the same table, epoch, generation,
    plan and tenant, whatever its other arguments, returns that stored request
    and changes nothing. *)
Theorem create_request_idempotent rk table epoch tf gid gf sha tasks dl w d w' :
  create_request q rk table epoch tf gid gf sha tasks dl w = (Ok d, w') ->
  exists tenant, request_tenant tasks = Some tenant /\
    let identity := request_identity table epoch gid gf sha tenant in
    created (w_store w) (w_store w') identity tasks d /\
    exists d', stamped d d' /\ forall rk2 tf2 tasks2 dl2 w2,
      w_store w2 = w_store w' -> request_tenant tasks2 = Some tenant ->
      create_request q rk2 table epoch tf2 gid gf sha tasks2 dl2 w2 = (Ok d', w2).
Proof.
  intros Hc. pose proof (create_request_created rk table epoch tf gid gf sha tasks dl w) as Hp.
  unfold wp in Hp. rewrite Hc in Hp. destruct (Hp d eq_refl) as (tenant & Ht & Hcr).
  exists tenant. split; [done|]. split; [done|]. destruct Hcr as (d' & Hd & Hi & _).
  exists d'. split; [done|]. intros rk2 tf2 tasks2 dl2 w2 Hw Ht2.
  apply (create_indexed _ _ _ _ _ _ _ _ _ tenant); [done|]. by rewrite Hw.
Qed.

(** ** Resent results *)

Lemma digest_ascii s : is_ascii (sha256_hex s) = true.
Proof.
  unfold is_ascii. eapply str_forallb_impl; [|apply sha256_is_hex].
  intros c. destruct c as [[] [] [] [] [] [] [] []]; vm_compute; congruence.
Qed.

Lemma digest_truthy s : truthy_str (sha256_hex s) = true.
Proof.
  unfold truthy_str. destruct (String.eqb_spec (sha256_hex s) "") as [Heq|]; [|done].
  pose proof (sha256_length s) as Hl. by rewrite Heq in Hl.
Qed.

(** Whether the saved copy of an accepted result compares equal to the result:
    the comparison covers fields the copy does not hold. *)
Definition recognised (r : task_result) : bool :=
  (if rs_ok r then String.eqb "" (rs_error_code r)
   else (0 =? rs_size_bytes r) && (0 =? rs_record_count r) && String.eqb "" (rs_content_hash r)
        && String.eqb "" (rs_s3_etag r)
        && String.eqb (str_or (rs_error_code r) "agent_error") (rs_error_code r))
  && (0 =? rs_membership_version r) && (0 =? rs_worker_fence r).

Lemma same_result_recognised r staging now :
  same_result (if rs_ok r then success_record r staging now else failure_result r now) r
    = Ok (recognised r).
Proof.
  unfold recognised. destruct (rs_ok r); unfold same_result.
  - set (d := success_record r staging now).
    change (dget d "agent_id" JNull) with (JStr (rs_agent_id r)).
    change (get_int d "attempt" (-1)) with (Ok (rs_attempt r)).
    change (get_int d "size_bytes" 0) with (Ok (rs_size_bytes r)).
    change (get_int d "record_count" 0) with (Ok (rs_record_count r)).
    change (get_str d "content_hash" "") with (Ok (rs_content_hash r)).
    change (get_str d "s3_etag" "") with (Ok (rs_s3_etag r)).
    change (get_str d "error_code" "") with (Ok "").
    change (get_int d "membership_version" 0) with (Ok 0).
    change (get_int d "worker_fence" 0) with (Ok 0).
    rewrite bool_decide_eq_true_2 by done. cbn [negb mbind res_bind].
    rewrite !Z.eqb_refl, !String.eqb_refl. cbn [negb].
    destruct (String.eqb "" (rs_error_code r)); cbn [negb andb]; [|done].
    by destruct (0 =? rs_membership_version r).
  - set (d := failure_result r now).
    change (dget d "agent_id" JNull) with (JStr (rs_agent_id r)).
    change (get_int d "attempt" (-1)) with (Ok (rs_attempt r)).
    change (get_int d "size_bytes" 0) with (Ok 0).
    change (get_int d "record_count" 0) with (Ok 0).
    change (get_str d "content_hash" "") with (Ok "").
    change (get_str d "s3_etag" "") with (Ok "").
    change (get_str d "error_code" "") with (Ok (str_or (rs_error_code r) "agent_error")).
    change (get_int d "membership_version" 0) with (Ok 0).
    change (get_int d "worker_fence" 0) with (Ok 0).
    rewrite bool_decide_eq_true_2 by done. cbn [negb mbind res_bind].
    rewrite Z.eqb_refl. cbn [negb].
    destruct (0 =? rs_size_bytes r), (0 =? rs_record_count r), (String.eqb "" (rs_content_hash r)),
      (String.eqb "" (rs_s3_etag r)), (String.eqb (str_or _ _) (rs_error_code r)),
      (0 =? rs_membership_version r); done.
Qed.

(** The reply to a resent result.  When the agent repeats a report that was
    accepted, nothing changes, and the reply is "duplicate" exactly when the
    report carries no membership version and no worker fence (and, for a
    failure, no sizes and an explicit error code); otherwise the identical
    report is answered "conflict". *)
Theorem resent_result_reply r lease now w a w' :
  wf_tasks (w_store w) -> accept_result q r lease (Some now) w = (Ok a, w') ->
  ack_reason_code a = RESULT_ACCEPTED ->
  forall now2 w2, w_store w2 = w_store w' ->
    accept_result q r lease (Some now2) w2
      = (Ok (Ack (recognised r) (ack_state a) (recognised r) (terminal_name (ack_state a))
               (if recognised r then RESULT_DUPLICATE else RESULT_CONFLICT)), w2).
Proof.
  intros Hwf Hrun Hac now2 w2 Hw2. pose proof (accept_result_wp q r lease now w Hwf) as Hp.
  unfold wp in Hp. rewrite Hrun in Hp. destruct Hp as (_ & _ & Hp).
  destruct (Hp a eq_refl Hac) as (k & v & c & _ & _ & _ & Hcm & _ & Hset & _).
  destruct Hcm as (_ & _ & _ & Hatt & Hlease & _).
  destruct Hset as (payload & _ & _ & _ & _ & _ & hash & staging & Hh & p & Hrd & Hst & Hph & Hres).
  assert (hash = sha256_hex lease) as -> by congruence. cbn [snd] in Hrd.
  unfold accept_result. unfold now_or, mbind at 1, M_bind at 1, mret, M_ret.
  unfold mbind at 1, M_bind at 1. rewrite read_eq, Hw2, <- Hatt, Hrd.
  unfold lift. f_equal. unfold duplicate_reply.
  assert (get_str p "agent_lease_hash" "" = Ok (sha256_hex lease)) as ->
    by (unfold get_str, dget; by rewrite Hph).
  assert (get_str p "state" "" = Ok (ack_state a)) as -> by (unfold get_str, dget; by rewrite Hst).
  cbn [mbind res_bind].
  rewrite digest_truthy, compare_digest_refl by apply digest_ascii. cbn [mbind res_bind negb].
  assert (get_dict p "result"
    = Ok (if rs_ok r then success_record r staging now else failure_result r now)) as ->
    by (unfold get_dict, dget; by rewrite Hres).
  cbn [mbind res_bind]. by rewrite same_result_recognised.
Qed.

(** ** Operator retry *)

(** The failed task at [id] was reset, with a deadline of at least a second. *)
Definition task_reset (s s' : mem) (id : string) (now : Z) : Prop :=
  exists k v rid req dl, normalize_key (task_key id) = Ok k /\ at_view s k v /\
    tv_state v = TASK_FAILED /\ read_result s (request_key rid) = Ok (Some req) /\
    truthy (dget req "published" JNull) = false /\ now + 1000 <= dl /\
    at_view s' k (retried_view dl v).

Lemma retry_task_wp id w :
  wf_tasks (w_store w) ->
  wp (retry_task q id) (fun r w' => wf_tasks (w_store w') /\
    (r = Ok false -> w_store w' = w_store w) /\
    (r = Ok true -> task_reset (w_store w) (w_store w') id (clock (w_ticks w)))) w.
Proof.
  intros Hwf. unfold retry_task, get_task, get_request. apply wp_bind. eapply wp_run; [reflexivity|].
  apply wp_bind. eapply wp_run; [apply read_eq|]. cbn [w_store tick].
  destruct (read_result (w_store w) (task_key id)) as [[d|]|e] eqn:Er; [|by apply wp_ret|done].
  destruct (get_task_wf _ w _ Hwf Er) as (k & v & Hk & Ha & Hv & Hat & Hw).
  view_lift. case_bool_decide as Hst; cbn [negb]; [|by apply wp_ret]. apply js_inj in Hst.
  apply wp_bind, wp_lift. destruct (req_str d "request_id") as [rid|]; [|done].
  apply wp_bind. eapply wp_run; [apply read_eq|]. cbn [w_store tick].
  destruct (read_result (w_store w) (request_key rid)) as [[req|]|e] eqn:Eq; [|by apply wp_ret|done].
  destruct (truthy (dget req "published" JNull)) eqn:Hpub; [by apply wp_ret|].
  apply wp_bind, wp_lift. destruct (get_int req "deadline_ms" 0) as [rd|]; [|done].
  apply wp_bind, wp_lift. destruct (get_int req "created_at_ms" 0) as [rc|]; [|done].
  cbv zeta. set (dl := clock (w_ticks w) + Z.max 1000 (rd - rc)). apply wp_bind.
  destruct (delete_results_same q id (tick w) Hwf) as [H1 H2].
  destruct (delete_results q id (tick w)) as [[[]|e] w1] eqn:E1; (eapply wp_run; [exact E1|]);
    cbn in H1, H2; [|done].
  apply wp_bind, wp_lift. destruct (retried_task _ dl d) as [new|] eqn:En; [|done].
  pose proof (retried_task_view _ _ _ _ _ En Hv) as Hnew. apply wp_bind.
  eapply wp_mono; [by eapply (write_retried q _ k v dl new w1)|].
  intros [[]|e] w2 (G1 & _ & G2); [|done]. specialize (G2 ltac:(by eexists)).
  apply wp_bind, wp_lift. destruct (req_str req "request_id") as [rid'|]; [|done]. apply wp_bind.
  eapply wp_mono; [by apply (write_effect q)|]. intros [[]|e] w3 Hw3; [|cbn in Hw3; by rewrite Hw3].
  destruct Hw3 as (kr & dr & Hkr & _ & Hs3 & _).
  assert (forall k', task_area k' -> w_store w3 !! k' = w_store w2 !! k') as Hsame.
  { intros k' Hk'. rewrite Hs3, lookup_insert_ne; [done|]. intros ->.
    apply request_key_area in Hkr. by eapply request_not_task. }
  apply wp_ret. split_and!; [by eapply wf_tasks_same|done|]. intros _.
  exists k, v, rid, req, dl. split_and!; [done..|lia|].
  unfold at_view in *. by rewrite Hsame.
Qed.

(** An operator's retry resets exactly one failed task.  [retry_task]
    answers true only for a task in the failed state whose request is not
    published, and leaves it queued, unclaimed, with no attempts used and a new
    deadline; a negative answer changes nothing.  This is the one transition
    that the published table does not have. *)
Theorem retry_task_correct id w :
  wf_tasks (w_store w) ->
  let '(r, w') := retry_task q id w in
  wf_tasks (w_store w') /\ (r = Ok false -> w_store w' = w_store w) /\
  (r = Ok true -> task_reset (w_store w) (w_store w') id (clock (w_ticks w))) /\
  valid_task_transition TASK_FAILED TASK_QUEUED = false.
Proof.
  intros Hwf. pose proof (retry_task_wp id w Hwf) as Hp. unfold wp in Hp.
  destruct (retry_task q id w). by destruct Hp as (? & ? & ?).
Qed.
End requests.

(** ** Witnesses *)

#[local] Existing Instance queue_env.
#[local] Existing Instance queue_lib.

Definition create_run : res dict * world :=
  create_request plain_queue "orders/x" "orders" 1 "delta" "g" 3 "sha" [some_task] 90000 empty_world.

Lemma create_request_idempotent_witness :
  exists tenant, request_tenant [some_task] = Some tenant /\
    let identity := request_identity "orders" 1 "g" 3 "sha" tenant in
    created (w_store empty_world) (w_store create_run.2) identity [some_task]
      (result ∅ create_run) /\
    exists d', stamped (result ∅ create_run) d' /\ forall rk2 tf2 tasks2 dl2 w2,
      w_store w2 = w_store create_run.2 -> request_tenant tasks2 = Some tenant ->
      create_request plain_queue rk2 "orders" 1 tf2 "g" 3 "sha" tasks2 dl2 w2 = (Ok d', w2).
Proof.
  apply (create_request_idempotent plain_queue "orders/x" "orders" 1 "delta" "g" 3 "sha"
           [some_task] 90000 empty_world).
  apply run_ok. vm_compute. reflexivity.
Defined.

(** A failure report of the claimed worker, with its membership and fence. *)
Definition member_result : task_result :=
  TaskResult "agent-1" "orders" 1 0 false 0 0 "" "boom" "t1" "r1" "tok" 1 "g" 3 "sha" true 0
    "source_error" 2 1 "".

Definition accept_run : res ack * world :=
  accept_result plain_queue member_result "lease" (Some 2000) (world_with member_record).
Definition no_ack : ack := Ack false "" false false "".

Lemma resent_result_reply_witness :
  accept_result plain_queue member_result "lease" (Some 3000) accept_run.2
    = (Ok (Ack (recognised member_result) (ack_state (result no_ack accept_run))
             (recognised member_result) (terminal_name (ack_state (result no_ack accept_run)))
             (if recognised member_result then RESULT_DUPLICATE else RESULT_CONFLICT)),
       accept_run.2).
Proof.
  apply (resent_result_reply plain_queue member_result "lease" 2000 (world_with member_record)
           (result no_ack accept_run) accept_run.2).
  - exact member_wf.
  - apply run_ok. vm_compute. reflexivity.
  - vm_compute. reflexivity.
  - reflexivity.
Defined.

(** The repeated report is not recognised, although nothing about it changed. *)
Example member_result_not_recognised : recognised member_result = false.
Proof. reflexivity. Qed.

Lemma retry_task_correct_witness :
  let w := world_with waiting_record in
  let '(r, w') := retry_task plain_queue "t1" w in
  wf_tasks (w_store w') /\ (r = Ok false -> w_store w' = w_store w) /\
  (r = Ok true -> task_reset (w_store w) (w_store w') "t1" (clock (w_ticks w))) /\
  valid_task_transition TASK_FAILED TASK_QUEUED = false.
Proof. intros w. apply (retry_task_correct plain_queue "t1" w). exact waiting_wf. Defined.
