(* ===== verification/QueuePublish.v ===== *)
(** * Publication of snapshots

    What [publish_snapshot] checks before it commits, what it commits, and that
    [get_snapshot] serves exactly the committed manifest. *)

From S2P Require Import Prelude PyText Sha256 Json ArtifactStore World Lease Contract ReadPlan.
From S2P Require Import Generation WorkQueue QueueStore QueueTasks QueueOps QueueResults.
From S2P Require Import QueueHistory QueueDemo.
Import MemoryStore.

(** ** The objects of a manifest *)

Definition split_stored (s : mem) (p : split_ref) : Prop :=
  exists k b, normalize_key (sr_object_key p) = Ok k /\ s !! k = Some b /\
    blob_size b = sr_size_bytes p /\ sha256_hex (blob_bytes b) = sr_content_hash p.

Definition key_stored (s : mem) (key : string) : Prop :=
  exists k, normalize_key key = Ok k /\ is_Some (s !! k).

Definition objects_stored (s : mem) (m : snapshot_manifest) : Prop :=
  Forall (split_stored s) (sm_splits m) /\ Forall (key_stored s) (sm_metadata_keys m).

(** A loop of checks that only read succeeds exactly when all of them do. *)
Lemma forM_check {A} (f : A -> M world unit) (P : mem -> A -> Prop) l w :
  (forall a, exists r, f a w = (r, w) /\ (r = Ok tt <-> P (w_store w) a)) ->
  exists r, forM_ f l w = (r, w) /\ (r = Ok tt <-> Forall (P (w_store w)) l).
Proof.
  intros Hf. unfold forM_. induction l as [|a l (r & IH & Hr)]; [by exists (Ok tt)|].
  destruct (Hf a) as (r1 & H1 & Hr1). cbn [foldM]. unfold mbind, M_bind. rewrite H1.
  destruct r1 as [[]|e].
  - exists r. split; [exact IH|]. rewrite Hr, Forall_cons. naive_solver.
  - exists (Err e). split; [done|]. rewrite Forall_cons. split; [done|].
    intros [Ha _]. by apply Hr1 in Ha.
Qed.

Lemma verify_objects_spec e1 e2 m w :
  exists r, verify_objects e1 e2 m w = (r, w) /\ (r = Ok tt <-> objects_stored (w_store w) m).
Proof.
  unfold verify_objects.
  edestruct (forM_check (fun s => ok ← st (verify (sr_object_key s) (sr_size_bytes s) (sr_content_hash s));
    if (ok : bool) then mret tt else raise (e1 (sr_object_key s))) split_stored (sm_splits m) w)
    as (r1 & H1 & Hr1).
  { intros p. unfold mbind, M_bind, st, verify. destruct (normalize_key (sr_object_key p)) as [k|e] eqn:Hk.
    2: { rewrite (with_key_Err _ _ _ Hk). cbn. rewrite set_store_id. eexists; split; [done|].
         split; [done|]. intros (k & b & ? & _). congruence. }
    rewrite (with_key_Ok _ _ _ Hk). cbn [fst snd]. rewrite set_store_id.
    destruct (w_store w !! k) as [b|] eqn:Hb.
    2: { eexists; split; [done|]. split; [done|]. intros (k' & b & ? & ? & _). congruence. }
    destruct (blob_size b =? sr_size_bytes p) eqn:Hs; cbn [andb].
    2: { eexists; split; [done|]. split; [done|]. intros (k' & b' & ? & ? & Hsz & _).
         assert (b' = b) as -> by congruence. lia. }
    destruct (String.eqb_spec (sha256_hex (blob_bytes b)) (sr_content_hash p)) as [Hh|Hh].
    - exists (Ok tt). split; [done|]. split; [|done]. intros _. exists k, b. split_and!; [done|done|lia|done].
    - eexists; split; [done|]. split; [done|]. intros (k' & b' & ? & ? & _ & ?).
      assert (b' = b) as -> by congruence. done. }
  edestruct (forM_check (fun k => h ← st (head k);
    match h with Some _ => mret tt | None => raise (e2 k) end) key_stored (sm_metadata_keys m) w)
    as (r2 & H2 & Hr2).
  { intros key. unfold mbind, M_bind, st, head. destruct (normalize_key key) as [k|e] eqn:Hk.
    2: { rewrite (with_key_Err _ _ _ Hk). cbn. rewrite set_store_id. eexists; split; [done|].
         split; [done|]. intros (k & ? & _). congruence. }
    rewrite (with_key_Ok _ _ _ Hk). cbn [fst snd]. rewrite set_store_id.
    destruct (w_store w !! k) as [b|] eqn:Hb; cbn.
    - exists (Ok tt). split; [done|]. split; [|done]. intros _. exists k. by rewrite Hb.
    - eexists; split; [done|]. split; [done|]. intros (k' & ? & [? ?]). congruence. }
  unfold mbind at 1, M_bind at 1. rewrite H1. destruct r1 as [[]|e].
  - exists r2. split; [exact H2|]. unfold objects_stored. naive_solver.
  - exists (Err e). split; [done|]. split; [done|]. intros [Hs _]. by apply Hr1 in Hs.
Qed.

(** ** The manifest that is stored *)

Definition with_origin (dataset_id : string) (produced_at : Z) (m : snapshot_manifest)
  : snapshot_manifest :=
  SnapshotManifest (sm_table m) (sm_epoch m) (sm_table_format m) (sm_splits m)
    (sm_metadata_keys m) (sm_generation_id m) (sm_generation_fence m) (sm_plan_sha256 m)
    (sm_published_at_ms m) (sm_request_id m) dataset_id produced_at (sm_tenant_id m).

Lemma snapshot_payload_decodes m ds at_ms :
  manifest_from_dict (snapshot_payload m ds at_ms) = Ok (with_origin ds at_ms m).
Proof.
  change (snapshot_payload m ds at_ms) with
    (opt_field "produced_at_ms" true (JInt at_ms)
      (opt_field "dataset_id" true (JStr ds) (manifest_to_dict m))).
  unfold manifest_from_dict. unfold_reads. unfold manifest_to_dict.
  set (d := opt_field "produced_at_ms" true _ _). read_fields d. decode_fields.
  cbn -[of_objs res_map]. rewrite (of_objs_map _ _ _ split_ref_roundtrip).
  cbn -[res_map]. rewrite as_str_map. done.
Qed.

(** ** The commit *)

Lemma area_parent dir sub k : area (dir +:+ "/" +:+ sub) k -> area dir k.
Proof.
  intros [->|[t ->]]; right; [by exists sub|]. exists (sub +:+ "/" +:+ t). by rewrite !app_assoc_s.
Qed.

(** No object outside the queue's own directory changed. *)
Definition outside_same (s s' : mem) : Prop := forall k, ~ area PREFIX k -> s' !! k = s !! k.

#[global] Instance outside_same_preorder : PreOrder outside_same.
Proof. split; [by intros s k|]. intros a b c H1 H2 k Hk. rewrite H2, H1; done. Qed.

Lemma snapshot_key_inside t e k : normalize_key (snapshot_key t e) = Ok k -> area PREFIX k.
Proof. intros Hk%snapshot_key_area. by apply (area_parent PREFIX "snapshots"). Qed.
Lemma request_key_inside i k : normalize_key (request_key i) = Ok k -> area PREFIX k.
Proof. intros Hk%request_key_area. by apply (area_parent PREFIX "requests"). Qed.

Definition inside {A} (values : list (string * A)) : Prop :=
  forall kv k, kv ∈ values -> normalize_key kv.1 = Ok k -> area PREFIX k.

Lemma inside_map {A B} (f : A -> B) (values : list (string * A)) :
  inside values -> inside (map (fun kv => (kv.1, f kv.2)) values).
Proof. intros Hi kv k (kv' & -> & Hin)%list_elem_of_fmap. cbn. by apply Hi. Qed.

Lemma put_all_outside (values : list (string * blob)) : forall s,
  inside values -> outside_same s (put_all values s).2.
Proof.
  unfold put_all, forM_. induction values as [|[key d] values IH]; intros s Hi; [by intros k|].
  cbn [foldM]. unfold mbind, M_bind. cbn [fst snd].
  destruct (normalize_key key) as [k|e] eqn:Hk.
  - rewrite (with_key_Ok _ _ _ Hk). etrans; [|apply IH].
    + intros k' Hk'. rewrite lookup_insert_ne; [done|]. intros ->. apply Hk'.
      by apply (Hi (key, d) k'); [left|].
    + intros kv k' Hin. apply Hi. by right.
  - rewrite (with_key_Err _ _ _ Hk). by intros k.
Qed.

Lemma guarded_put_batch_outside g b values s :
  inside values -> outside_same s (guarded_put_batch g b values s).2.
Proof.
  intros Hi. unfold guarded_put_batch, with_key. destruct (normalize_key g); [|by intros k].
  case_bool_decide; [|by intros k]. unfold mbind, M_bind.
  pose proof (put_all_outside values s Hi) as Hp. by destruct (put_all values s) as [[]].
Qed.

Section publish.
Context `{Env, QueueEnv} (q : queue) `{!Leadership q}.

(** The batch of the commit touches the queue's directory only, and when it
    returns every record of it has been read back. *)
Lemma guarded_write_batch_wp g b values w :
  inside values ->
  wp (guarded_write_batch q g b values) (fun r w' =>
    outside_same (w_store w) (w_store w') /\
    (is_Ok r -> forall kv, kv ∈ values -> exists d, stamped kv.2 d /\
       read_result (w_store w') kv.1 = Ok (Some d))) w.
Proof.
  intros Hi. unfold guarded_write_batch. apply wp_bind.
  eapply (wp_mono _ (fun r w' => outside_same (w_store w) (w_store w') /\
    forall pc, r = Ok pc -> forall kv, kv ∈ values -> exists d, stamped kv.2 d /\ (kv.1, d) ∈ pc.1)).
  - destruct (q_leadership_check q) as [chk|] eqn:Hq.
    + apply wp_bind. pose proof (leadership_check_reads q chk Hq w) as Hr.
      destruct (leadership chk w) as [[[o f]|e] w1] eqn:El; cbn in Hr;
        (eapply wp_run; [exact El|]); [|by rewrite Hr].
      cbn [fst snd]. apply wp_bind. unfold st_now, now_ms, st.
      eapply wp_run; [unfold mbind, M_bind; cbn; reflexivity|]. cbn [w_store tick fst snd]. rewrite Hr.
      set (prepared := map _ (map _ values)).
      assert (outside_same (w_store w)
        (fenced_guarded_put_batch (clock (w_ticks w1)) LEASE_KEY o f g b prepared (w_store w)).2) as Hs.
      { unfold fenced_guarded_put_batch. destruct (fence_matches _ _ _ _ _) as [[]|]; try (by intros k).
        apply guarded_put_batch_outside. by apply (inside_map encode), (inside_map (stamp o f)). }
      destruct (fenced_guarded_put_batch _ _ _ _ _ _ _ _) as [[c|e] s'] eqn:Ef; cbn [fst snd] in *.
      * apply wp_ret. split; [done|]. intros pc [= <-] kv Hkv. exists (stamp o f kv.2).
        split; [apply stamped_stamp|]. cbn [fst]. apply list_elem_of_fmap. by exists kv.
      * by split.
    + apply wp_bind. unfold st. eapply wp_run; [reflexivity|].
      set (bs := map _ values).
      assert (outside_same (w_store w) (guarded_put_batch g b bs (w_store w)).2) as Hs
        by (apply guarded_put_batch_outside; by apply (inside_map encode)).
      destruct (guarded_put_batch g b bs (w_store w)) as [[c|e] s']; cbn [fst snd] in *.
      * apply wp_ret. split; [done|]. intros pc [= <-] kv Hkv. exists kv.2.
        split; [apply stamped_refl|]. cbn [fst]. by destruct kv.
      * by split.
  - intros [[prepared c]|e] w1 [Hs Hpc]; [|by split; [|intros []]].
    specialize (Hpc _ eq_refl). destruct (negb c); [apply wp_raise; by split; [|intros []]|].
    destruct (forM_check (fun kv : string * dict => r ← read_ kv.1;
      if bool_decide (r = Some kv.2) then mret tt
      else raise (WorkQueueError ("queue batch verification failed: " +:+ kv.1)))
      (fun s kv => read_result s kv.1 = Ok (Some kv.2)) prepared w1) as (r & Hr & Hall).
    { intros kv. unfold mbind, M_bind. rewrite read_eq.
      destruct (read_result (w_store w1) kv.1) as [o|e].
      - case_bool_decide as Ho; eexists; (split; [done|]); [by rewrite Ho|].
        split; [done|]. intros [= ->]. done.
      - eexists. by split. }
    eapply wp_run; [exact Hr|]. split; [done|]. intros [[] ->] kv Hkv.
    destruct (Hpc kv Hkv) as (d & Hd & Hin). exists d. split; [done|].
    rewrite Forall_forall in Hall. by apply (proj1 Hall eq_refl (kv.1, d)).
Qed.

(** What a publication leaves behind. *)
Definition published (s s' : mem) (rid : string) (r : dict) (m : snapshot_manifest) (ds : string)
  (at_ms now : Z) (d : dict) : Prop :=
  d = assign [("published", JBool true);
              ("snapshot_key", JStr (snapshot_key (sm_table m) (sm_epoch m)));
              ("updated_at_ms", JInt now)] r /\
  (exists rec, read_result s' (snapshot_key (sm_table m) (sm_epoch m)) = Ok (Some rec) /\
     rec !! "manifest" = Some (JObj (snapshot_payload m ds at_ms))) /\
  (exists d', stamped d d' /\ read_result s' (request_key rid) = Ok (Some d')) /\
  outside_same s s'.

Lemma commit_snapshot_wp rid r ds at_ms raw g m now w :
  q_federation q = None ->
  wp (commit_snapshot q rid r (snapshot_payload m ds at_ms) raw g m now) (fun res w' =>
    forall d, res = Ok d -> published (w_store w) (w_store w') rid r m ds at_ms now d) w.
Proof.
  intros Hf. unfold commit_snapshot. rewrite Hf. cbv zeta. apply wp_bind.
  set (rec := mk_dict [("version", JInt 1); ("manifest", JObj (snapshot_payload m ds at_ms))]).
  set (req := assign _ r). set (key := snapshot_key _ _).
  assert (forall d, stamped rec d ->
    d !! "manifest" = Some (JObj (snapshot_payload m ds at_ms))) as Hrec
    by (intros d Hd; by rewrite Hd).
  eapply (wp_mono _ (fun res w' => is_Ok res -> outside_same (w_store w) (w_store w') /\
    (exists d, stamped rec d /\ read_result (w_store w') key = Ok (Some d)) /\
    exists d, stamped req d /\ read_result (w_store w') (request_key rid) = Ok (Some d))).
  - assert (wp (write_ q key rec;; write_ q (request_key rid) req) (fun res w' => is_Ok res ->
      outside_same (w_store w) (w_store w') /\
      (exists d, stamped rec d /\ read_result (w_store w') key = Ok (Some d)) /\
      exists d, stamped req d /\ read_result (w_store w') (request_key rid) = Ok (Some d)) w) as Htwo.
    { apply wp_bind. eapply wp_mono; [by apply (write_effect q)|]. intros [[]|e] w1 H1; [|by intros []].
      destruct H1 as (ks & d1 & Hks & Hd1 & Hs1 & _).
      eapply wp_mono; [by apply (write_effect q)|]. intros [[]|e] w2 H2; [|by intros []]. intros _.
      destruct H2 as (kr & d2 & Hkr & Hd2 & Hs2 & _).
      assert (kr <> ks).
      { intros ->. apply request_key_area in Hkr. apply snapshot_key_area in Hks.
        revert Hkr Hks. generalize ks. intros k. solve_disjoint. }
      split_and!.
      - intros k Hk. rewrite Hs2, Hs1, !lookup_insert_ne; [done|intros ->; apply Hk..].
        + by eapply snapshot_key_inside.
        + by eapply request_key_inside.
      - exists d1. split; [done|]. eapply read_result_at; [exact Hks|].
        by rewrite Hs2, lookup_insert_ne, Hs1, lookup_insert_eq.
      - exists d2. split; [done|]. eapply read_result_at; [exact Hkr|]. by rewrite Hs2, lookup_insert_eq. }
    destruct g as [g|]; [|exact Htwo]. destruct raw as [raw|]; [|exact Htwo].
    eapply wp_mono; [apply guarded_write_batch_wp|].
    + intros kv k [->|[->|Hn]%elem_of_cons]%elem_of_cons Hk; [| |by apply not_elem_of_nil in Hn].
      * by eapply snapshot_key_inside.
      * by eapply request_key_inside.
    + intros res w' [Hout Hall] Hok. specialize (Hall Hok). split_and!; [done| |].
      * apply (Hall (key, rec)). by left.
      * apply (Hall (request_key rid, req)). right. by left.
  - intros [[]|e] w' Hw; [|done]. destruct (Hw ltac:(by eexists)) as (H1 & (d1 & Hd1 & Hr1) & H3).
    apply wp_ret. intros d [= <-]. split_and!; [done| |done|done]. exists d1. split; [done|by apply Hrec].
Qed.

(** What a publication through a federation leaves behind: the federation
    published the manifest, with the request's dataset and production time, from
    the store as it was, and then only the request's record was written. *)
Definition announced (fed : federation_ops) (s s' : mem) (rid : string) (r : dict)
  (m : snapshot_manifest) (ds : string) (at_ms now : Z) (d : dict) : Prop :=
  d = assign [("published", JBool true); ("updated_at_ms", JInt now)] r /\
  exists w1 x w2 k d', w_store w1 = s /\
    fed_publish fed (with_origin ds at_ms m) w1 = (Ok x, w2) /\
    normalize_key (request_key rid) = Ok k /\ stamped d d' /\
    s' = <[k := encode d']> (w_store w2).

Definition committed (s s' : mem) (rid : string) (r : dict) (m : snapshot_manifest) (ds : string)
  (at_ms now : Z) (d : dict) : Prop :=
  match q_federation q with
  | None => published s s' rid r m ds at_ms now d
  | Some fed => announced fed s s' rid r m ds at_ms now d
  end.

Lemma commit_wp rid r ds at_ms raw g m now w :
  wp (commit_snapshot q rid r (snapshot_payload m ds at_ms) raw g m now) (fun res w' =>
    forall d, res = Ok d -> committed (w_store w) (w_store w') rid r m ds at_ms now d) w.
Proof.
  unfold committed. destruct (q_federation q) as [fed|] eqn:Hf; [|by apply commit_snapshot_wp].
  unfold commit_snapshot. rewrite Hf. apply wp_bind, wp_lift. rewrite snapshot_payload_decodes.
  apply wp_bind. destruct (fed_publish fed (with_origin ds at_ms m) w) as [[x|e] w1] eqn:Ep;
    (eapply wp_run; [exact Ep|]); [|done].
  cbv zeta. apply wp_bind. set (req := assign _ r).
  eapply wp_mono; [by apply (write_effect q)|]. intros [[]|e] w2 H2; [|done].
  destruct H2 as (k & d2 & Hk & Hd2 & Hs2 & _). apply wp_ret. intros d [= <-].
  split; [done|]. exists w, x, w1, k, d2. by split_and!.
Qed.

(** ** Publication *)

(** The generation record the publication checks: when a coordinator record
    exists, it is the manifest's generation, plan and fence, and not expired. *)
Definition generation_current (s : mem) (m : snapshot_manifest) (now : Z) : Prop :=
  forall c, coordinator s (Some c) ->
    gc_generation_id c = sm_generation_id m /\ gc_fence c = sm_generation_fence m /\
    gc_plan_sha256 c = sm_plan_sha256 m /\ now < gc_expires_at_ms c.

Lemma generation_stale_false c m now :
  generation_stale (Some c) m now = false ->
  gc_generation_id c = sm_generation_id m /\ gc_fence c = sm_generation_fence m /\
  gc_plan_sha256 c = sm_plan_sha256 m /\ now < gc_expires_at_ms c.
Proof.
  cbn. intros Hs. apply orb_false_iff in Hs as [Hs He]. apply orb_false_iff in Hs as [Hs H3].
  apply orb_false_iff in Hs as [H1 H2]. apply negb_false_iff in H1, H2, H3.
  apply String.eqb_eq in H1, H3. split_and!; [done|lia|done|lia].
Qed.

Lemma current_generation_record_at w c :
  coordinator (w_store w) (Some c) ->
  current_generation_record w = (Ok (w_store w !! COORDINATOR_KEY, Some c), w).
Proof.
  intros Hc. unfold current_generation_record, mbind, M_bind. rewrite (read_coordinator _ _ Hc).
  cbn [fst snd fmap option_fmap option_map]. unfold lift. rewrite context_roundtrip; [done|].
  apply Hc.
Qed.

Lemma publish_snapshot_wp rid m w :
  wp (publish_snapshot q rid m) (fun res w' => forall d, res = Ok d ->
    exists r ds at_ms, read_result (w_store w) (request_key rid) = Ok (Some r) /\
      r !! "state" = Some (js TASK_SUCCEEDED) /\ manifest_matches rid r m = Ok true /\
      generation_current (w_store w) m (clock (w_ticks w)) /\ objects_stored (w_store w) m /\
      req_int r "created_at_ms" = Ok at_ms /\
      committed (w_store w) (w_store w') rid r m ds at_ms (clock (w_ticks w)) d) w.
Proof.
  unfold publish_snapshot, get_request. apply wp_bind. eapply wp_run; [reflexivity|].
  apply wp_bind. eapply wp_run; [apply read_eq|]. cbn [w_store tick].
  destruct (read_result (w_store w) (request_key rid)) as [[r|]|e] eqn:Er; [|by apply wp_raise|done].
  apply wp_bind, wp_lift. destruct (dget_req r "state") as [stt|] eqn:Est; [|done].
  case_bool_decide as Hst; cbn [negb]; [|by apply wp_raise]. subst stt.
  apply wp_bind, wp_lift. destruct (manifest_matches rid r m) as [[]|] eqn:Em; cbn [negb];
    [|by apply wp_raise|done].
  apply wp_bind. pose proof (current_generation_record_reads (tick w)) as Hg.
  destruct (current_generation_record (tick w)) as [[[raw g]|e] w1] eqn:Eg;
    (eapply wp_run; [exact Eg|]); [|done]. cbn [fst snd w_store tick] in *.
  destruct (generation_stale g m (clock (w_ticks w))) eqn:Hstale; [by apply wp_raise|].
  apply wp_bind. edestruct verify_objects_spec as (rv & Hv & Hok). eapply wp_run; [exact Hv|].
  destruct rv as [[]|e]; [|done]. destruct Hok as [Hok _]. specialize (Hok eq_refl). rewrite Hg in Hok.
  apply wp_bind, wp_lift. destruct (task_ids_req r) as [ids|]; [|done]. apply wp_bind.
  match goal with |- wp ?mm _ _ => assert (reads mm) as Hds end.
  { apply reads_foldM. intros acc i. unfold task_dataset, get_task. apply reads_bind; [apply read_reads|].
    intros [t0|]; solve_reads. }
  specialize (Hds w1). destruct (foldM task_dataset [] ids w1) as [[dss|e] w2] eqn:Ed;
    (eapply wp_run; [exact Ed|]); [|done]. cbn [snd] in Hds.
  lazy beta iota. destruct (singleton_or_empty _) as [ds|]; [|by apply wp_raise].
  apply wp_bind, wp_lift. destruct (req_int r "created_at_ms") as [at_ms|] eqn:Eat; [|done].
  destruct (_ && _); [by apply wp_raise|]. destruct (_ && _); [by apply wp_raise|].
  eapply wp_mono; [by apply commit_wp|]. intros res w' Hp d Hd. exists r, ds, at_ms.
  assert (w_store w2 = w_store w) as Hw by congruence. rewrite Hw in Hp.
  split_and!; [done| |done| |done|done|by apply Hp].
  - unfold dget_req in Est. destruct (r !! "state"); cbn in Est; [by injection Est as ->|done].
  - intros c Hc. apply generation_stale_false.
    rewrite (current_generation_record_at (tick w) c Hc) in Eg. injection Eg as _ <- _. done.
Qed.

(** ** Serving *)

Lemma snapshot_key_normal t e :
  clean_segment (pad20 e +:+ ".json") ->
  normalize_key (snapshot_key t e) = Ok (snapshot_key t e).
Proof.
  intros He. apply normalize_safe.
  exists ["_control"; "work-queue"; "v1"; "snapshots"; sha256_hex t; pad20 e +:+ ".json"].
  split_and!; [done| |reflexivity].
  pose proof (sha256_clean t) as Ht.
  repeat apply Forall_cons_2; [by split_and!..|exact Ht|exact He|constructor].
Qed.

Lemma epoch_segment_clean e : clean_segment (pad20 e +:+ ".json").
Proof.
  assert (str_forallb key_char (pad20 e +:+ ".json") = true) as Hc.
  { rewrite str_forallb_app. unfold pad20. rewrite str_forallb_app, pretty_chars.
    rewrite !andb_true_r. generalize (20 - String.length (pretty e))%nat. intros n.
    by induction n. }
  apply key_chars_clean; [done|]. rewrite length_app_s. cbn. lia.
Qed.

Lemma get_snapshot_found t e d m ds at_ms w :
  q_federation q = None -> e <> 0 ->
  read_result (w_store w) (snapshot_key t e) = Ok (Some d) ->
  d !! "manifest" = Some (JObj (snapshot_payload m ds at_ms)) ->
  objects_stored (w_store w) m ->
  get_snapshot q t e w = (Ok (Some (with_origin ds at_ms m)), w).
Proof.
  intros Hf He Hr Hm Hobj. unfold get_snapshot. rewrite Hf.
  pose proof (snapshot_key_normal t e (epoch_segment_clean e)) as Hn.
  destruct (read_result_some _ _ _ Hr) as (k & Hk & Hs). assert (k = snapshot_key t e) as -> by congruence.
  set (dir := SNAPSHOTS_PREFIX +:+ "/" +:+ sha256_hex t +:+ "/").
  destruct (list_spec dir (w_store w)) as (items & Hl & _ & _ & Hin).
  unfold st. unfold mbind at 1, M_bind at 1. rewrite Hl. cbn [fst snd]. rewrite set_store_id.
  apply Z.eqb_neq in He. rewrite He.
  assert (is_Some (list_find (fun item => os_key item = snapshot_key t e) items)) as [[i it] Hfind].
  { apply (list_find_elem_of _ _ (mk_stat (snapshot_key t e) (encode d))); [|done].
    apply Hin. exists (snapshot_key t e), (encode d). split_and!; [done| |done].
    assert (lstrip_char slash (replace_char backslash slash dir) = dir) as ->.
    { unfold dir. rewrite !replace_char_app. rewrite (replace_char_id _ _ (sha256_hex t)); [reflexivity|].
      eapply str_forallb_impl; [|apply sha256_is_hex].
      intros [[] [] [] [] [] [] [] []]; vm_compute; congruence. }
    apply startswith_spec. exists (pad20 e +:+ ".json"). unfold snapshot_key, dir.
    by rewrite !app_assoc_s. }
  rewrite Hfind. cbn [fmap option_fmap option_map snd].
  apply list_find_Some in Hfind as (_ & -> & _).
  unfold mbind at 1, M_bind at 1. rewrite read_eq, Hr. unfold manifest_of, dget_req. rewrite Hm.
  cbn [of_option mbind res_bind as_obj]. rewrite snapshot_payload_decodes.
  unfold mbind at 1, M_bind at 1, lift.
  edestruct verify_objects_spec as (rv & Hv & Hok). unfold mbind at 1, M_bind at 1. rewrite Hv.
  destruct Hok as [_ Hok]. rewrite Hok; [done|]. exact Hobj.
Qed.

(** The data objects of a manifest lie outside the queue's own records. *)
Definition objects_outside (m : snapshot_manifest) : Prop :=
  forall key k, key ∈ map sr_object_key (sm_splits m) ++ sm_metadata_keys m ->
    normalize_key key = Ok k -> ~ area PREFIX k.

Lemma objects_stored_outside s s' m :
  objects_outside m -> outside_same s s' -> objects_stored s m -> objects_stored s' m.
Proof.
  intros Hout Hsame [H1 H2]. split.
  - apply Forall_forall. intros p Hp. destruct (Forall_elem _ _ _ H1 Hp) as (k & b & Hk & Hb & Hrest).
    exists k, b. split; [done|]. rewrite Hsame; [done|]. apply (Hout (sr_object_key p)); [|done].
    apply elem_of_app. left. apply list_elem_of_fmap. by exists p.
  - apply Forall_forall. intros key Hkey. destruct (Forall_elem _ _ _ H2 Hkey) as (k & Hk & Hb).
    exists k. split; [done|]. rewrite Hsame; [done|]. apply (Hout key); [|done].
    apply elem_of_app. by right.
Qed.


(** A published snapshot is what readers get.  After a publication,
    [get_snapshot] of that table and epoch returns the published manifest, with
    the dataset and production time of the request, until the queue's records or
    the objects change. *)
Theorem published_snapshot_served rid m w d w' :
  q_federation q = None -> sm_epoch m <> 0 -> objects_outside m ->
  publish_snapshot q rid m w = (Ok d, w') ->
  exists ds at_ms, forall w2, w_store w2 = w_store w' ->
    get_snapshot q (sm_table m) (sm_epoch m) w2 = (Ok (Some (with_origin ds at_ms m)), w2).
Proof.
  intros Hf He Hout Hrun. pose proof (publish_snapshot_wp rid m w) as Hp. unfold wp, committed in Hp.
  rewrite Hf in Hp.
  rewrite Hrun in Hp. destruct (Hp d eq_refl) as (r & ds & at_ms & _ & _ & _ & _ & Hobj & _ & Hpub).
  destruct Hpub as (_ & (rec & Hrec & Hm) & _ & Hsame). cbn [snd] in *.
  exists ds, at_ms. intros w2 Hw2. apply (get_snapshot_found _ _ rec); [done|done|by rewrite Hw2|done|].
  rewrite Hw2. by eapply objects_stored_outside.
Qed.
End publish.

(** ** Witnesses *)

#[local] Existing Instance queue_env.
#[local] Existing Instance queue_lib.

Definition demo_manifest : snapshot_manifest :=
  SnapshotManifest "orders" 7 "delta"
    [SplitRef "data/orders/part-0" 5 2 (sha256_hex "bytes") None] ["data/orders/log"]
    "g" 3 "sha" 0 "r1" "" 0 "".
Definition succeeded_request : dict :=
  <["state" := js TASK_SUCCEEDED]>
    (new_request_record "r1" "identity" "orders/x" "orders" 7 "delta" "" "" "g" 3 "sha" 90000 [] 500).
Definition publish_world : world :=
  World (<["data/orders/part-0" := BRaw "bytes"]> (<["data/orders/log" := BRaw "log"]>
          {[ request_key "r1" := encode succeeded_request ]})) 0 0 (LeaseObj "m" 100 true 4 "").
Definition publish_run : res dict * world := publish_snapshot plain_queue "r1" demo_manifest publish_world.

Lemma demo_objects_outside : objects_outside demo_manifest.
Proof.
  intros key k [->|[->|Hn]%elem_of_cons]%elem_of_cons Hk; [..|by apply not_elem_of_nil in Hn];
    injection Hk as <-; intros Ha%area_startswith; discriminate.
Qed.


Lemma published_snapshot_served_witness :
  exists ds at_ms, forall w2, w_store w2 = w_store publish_run.2 ->
    get_snapshot plain_queue (sm_table demo_manifest) (sm_epoch demo_manifest) w2
      = (Ok (Some (with_origin ds at_ms demo_manifest)), w2).
Proof.
  apply (published_snapshot_served plain_queue "r1" demo_manifest publish_world
           (result ∅ publish_run) publish_run.2).
  - reflexivity.
  - discriminate.
  - exact demo_objects_outside.
  - apply run_ok. vm_compute. reflexivity.
Defined.
