(* ===== verification/LruCache.v ===== *)
(** * The result cache

    [cache/lru_cache.py]: the size-bounded LRU cache with expiry, the pinned
    splits, and the tiers (memory, disk, artifact store) that serve Parquet
    objects.  An [OrderedDict] is the list of its items, oldest first; a
    directory of files is a map from paths to contents, and an oracle says which
    of its operations raise [OSError]; readings of the monotonic clock come from
    [clock]. *)

From S2P Require Import Prelude PyText Sha256 Json ArtifactStore World.
Import MemoryStore.

(** ** [BytesLRUCache] *)

Definition entry : Type := string * (blob * Z).

Record lru := Lru {
  lru_max_bytes : Z;
  lru_ttl : Z;
  lru_store : list entry;
  lru_current_bytes : Z;
}.

Definition new_lru (max_bytes ttl_seconds : Z) : lru := Lru max_bytes (ttl_seconds * 1000) [] 0.

Definition set_items (items : list entry) (current : Z) (c : lru) : lru :=
  Lru (lru_max_bytes c) (lru_ttl c) items current.

(** [self._store.get(key)] *)
Definition find_entry (key : string) (items : list entry) : option (blob * Z) :=
  snd <$> (snd <$> list_find (fun e : entry => e.1 = key) items).

(** [self._store.pop(key, None)], the items that remain *)
Definition drop_key (key : string) (items : list entry) : list entry :=
  filter (fun e : entry => e.1 <> key) items.

(** [_evict] *)
Definition evict (key : string) (c : lru) : lru :=
  match find_entry key (lru_store c) with
  | None => c
  | Some (data, _) =>
      set_items (drop_key key (lru_store c)) (lru_current_bytes c - blob_size data) c
  end.

(** [get], given the reading of the clock it makes when the key is present *)
Definition lru_get (now : Z) (key : string) (c : lru) : option blob * lru :=
  match find_entry key (lru_store c) with
  | None => (None, c)
  | Some (data, expiry) =>
      if expiry <? now then (None, evict key c)
      else (Some data,
            set_items (drop_key key (lru_store c) ++ [(key, (data, expiry))])
              (lru_current_bytes c) c)
  end.

(** The [while] loop of [put]: the oldest items go until the new one fits. *)
Fixpoint make_room (size max_bytes current : Z) (items : list entry) : list entry * Z :=
  match items with
  | [] => ([], current)
  | e :: rest =>
      if max_bytes <? current + size
      then make_room size max_bytes (current - blob_size e.2.1) rest
      else (items, current)
  end.

(** [put], given the reading of the clock it makes *)
Definition lru_put (now : Z) (key : string) (data : blob) (c : lru) : lru :=
  if lru_max_bytes c <? blob_size data then c
  else
    let c := evict key c in
    let '(items, current) :=
      make_room (blob_size data) (lru_max_bytes c) (lru_current_bytes c) (lru_store c) in
    set_items (items ++ [(key, (data, now + lru_ttl c))]) (current + blob_size data) c.

(** ** The tiers *)

(** The settings the module reads, and which operations on the files of the disk cache raise
    [OSError]. *)
Record cache_config := CacheConfig {
  PARQUET_DISK_CACHE : bool;
  PARQUET_DISK_CACHE_DIR : string;
  ARTIFACT_STORE_SERVING : bool;
  disk_error : nat -> bool;
}.

Record cache_state := CacheState {
  cs_metadata : lru;
  cs_parquet : lru;
  cs_pinned : gmap string blob;
  cs_disk : gmap string blob;
  cs_store : mem;
  cs_ticks : nat;
}.

Definition set_metadata (c : lru) (s : cache_state) : cache_state :=
  CacheState c (cs_parquet s) (cs_pinned s) (cs_disk s) (cs_store s) (cs_ticks s).
Definition set_parquet (c : lru) (s : cache_state) : cache_state :=
  CacheState (cs_metadata s) c (cs_pinned s) (cs_disk s) (cs_store s) (cs_ticks s).
Definition set_pinned (p : gmap string blob) (s : cache_state) : cache_state :=
  CacheState (cs_metadata s) (cs_parquet s) p (cs_disk s) (cs_store s) (cs_ticks s).
Definition set_disk (d : gmap string blob) (s : cache_state) : cache_state :=
  CacheState (cs_metadata s) (cs_parquet s) (cs_pinned s) d (cs_store s) (cs_ticks s).
Definition set_cstore (m : mem) (s : cache_state) : cache_state :=
  CacheState (cs_metadata s) (cs_parquet s) (cs_pinned s) (cs_disk s) m (cs_ticks s).

Definition tick_cache (s : cache_state) : cache_state :=
  CacheState (cs_metadata s) (cs_parquet s) (cs_pinned s) (cs_disk s) (cs_store s) (S (cs_ticks s)).

(** [sum(f(x) for x in l)] *)
Definition sum_list_with_Z {A} (f : A -> Z) (l : list A) : Z := foldr (fun x n => f x + n) 0 l.

(** [os.path.join] of a directory and a plain file name *)
Definition path_join (dir name : string) : string :=
  if truthy_str dir && negb (endswith dir "/") then dir +:+ "/" +:+ name else dir +:+ name.

Section cache.
Context `{Env} (cfg : cache_config).

(** [time.monotonic()] *)
Definition monotonic : M cache_state Z := fun s =>
  (Ok (clock (cs_ticks s)),
   CacheState (cs_metadata s) (cs_parquet s) (cs_pinned s) (cs_disk s) (cs_store s)
     (S (cs_ticks s))).

(** A [get] on one of the two caches: the clock is read when the key is there. *)
Definition cache_get (sel : cache_state -> lru) (upd : lru -> cache_state -> cache_state)
  (key : string) : M cache_state (option blob) :=
  c ← gets sel;
  match find_entry key (lru_store c) with
  | None => mret None
  | Some _ =>
      now ← monotonic;
      let r := lru_get now key c in
      modify (upd r.2);; mret r.1
  end.

Definition cache_put (sel : cache_state -> lru) (upd : lru -> cache_state -> cache_state)
  (key : string) (data : blob) : M cache_state unit :=
  c ← gets sel;
  if lru_max_bytes c <? blob_size data then mret tt
  else now ← monotonic; modify (upd (lru_put now key data c)).

Definition get_metadata (key : string) : M cache_state (option blob) :=
  cache_get cs_metadata set_metadata key.
Definition put_metadata (key : string) (data : blob) : M cache_state unit :=
  cache_put cs_metadata set_metadata key data.
Definition parquet_get (key : string) : M cache_state (option blob) :=
  cache_get cs_parquet set_parquet key.
Definition parquet_put (key : string) (data : blob) : M cache_state unit :=
  cache_put cs_parquet set_parquet key data.

(** [_disk_path] *)
Definition disk_path (key : string) : string :=
  path_join (PARQUET_DISK_CACHE_DIR cfg) (sha256_hex key +:+ ".parquet").

(** An operation on the files of the disk cache, or what is done when it raises [OSError]. *)
Definition on_disk {A} (m failed : M cache_state A) : M cache_state A := fun s =>
  if disk_error cfg (cs_ticks s) then failed (tick_cache s) else m (tick_cache s).

(** [_disk_read], [_disk_write]: every [OSError] is swallowed; a file is replaced as a whole or not at
    all. *)
Definition disk_read (key : string) : M cache_state (option blob) :=
  if PARQUET_DISK_CACHE cfg then on_disk (gets (fun s => cs_disk s !! disk_path key)) (mret None)
  else mret None.
Definition disk_write (key : string) (data : blob) : M cache_state unit :=
  if PARQUET_DISK_CACHE cfg
  then on_disk (modify (fun s => set_disk (<[disk_path key := data]> (cs_disk s)) s)) (mret tt)
  else mret tt.

(** One call of the artifact store. *)
Definition on_store {A} (m : M mem A) : M cache_state A := fun s =>
  ((m (cs_store s)).1, set_cstore (m (cs_store s)).2 s).

(** [_store_read], [_store_write], [_store_delete]: every error is swallowed. *)
Definition store_read (key : string) : M cache_state (option blob) :=
  if ARTIFACT_STORE_SERVING cfg
  then catch (b ← on_store (get key 0 None); mret (Some b)) (fun _ => mret None)
  else mret None.
Definition store_write (key : string) (data : blob) : M cache_state unit :=
  if ARTIFACT_STORE_SERVING cfg
  then catch (on_store (put key data);; mret tt) (fun _ => mret tt) else mret tt.
Definition store_delete (key : string) : M cache_state unit :=
  if ARTIFACT_STORE_SERVING cfg
  then catch (on_store (delete_ key);; mret tt) (fun _ => mret tt) else mret tt.

Definition get_parquet (key : string) : M cache_state (option blob) :=
  pinned ← gets (fun s => cs_pinned s !! key);
  match pinned with
  | Some b => mret (Some b)
  | None =>
      data ← parquet_get key;
      match data with
      | Some b => mret (Some b)
      | None =>
          disk ← disk_read key;
          match disk with
          | Some b => parquet_put key b;; mret (Some b)
          | None =>
              stored ← store_read key;
              match stored with
              | Some b => parquet_put key b;; mret (Some b)
              | None => mret None
              end
          end
      end
  end.

Definition peek_parquet (key : string) : M cache_state (option blob) :=
  pinned ← gets (fun s => cs_pinned s !! key);
  match pinned with
  | Some b => mret (Some b)
  | None =>
      data ← parquet_get key;
      match data with
      | Some b => mret (Some b)
      | None =>
          disk ← disk_read key;
          match disk with
          | Some b => mret (Some b)
          | None => store_read key
          end
      end
  end.

Definition warm_parquet (key : string) : M cache_state (option blob) :=
  disk ← disk_read key;
  data ← match disk with Some b => mret (Some b) | None => store_read key end;
  match data with
  | Some b => parquet_put key b;; mret (Some b)
  | None => mret None
  end.

Definition put_parquet (key : string) (data : blob) : M cache_state unit :=
  parquet_put key data;; disk_write key data;; store_write key data.

Definition pin_parquet (key : string) (data : blob) : M cache_state unit :=
  modify (fun s => set_pinned (<[key := data]> (cs_pinned s)) s);;
  disk_write key data;; store_write key data.

Definition evict_parquet (key : string) : M cache_state unit :=
  modify (fun s => set_pinned (delete key (cs_pinned s)) s);;
  modify (fun s => set_parquet (evict key (cs_parquet s)) s);;
  (if PARQUET_DISK_CACHE cfg
   then on_disk (modify (fun s => set_disk (delete (disk_path key) (cs_disk s)) s)) (mret tt) else mret tt);;
  store_delete key.

Definition unpin_all : M cache_state unit := modify (set_pinned ∅).

(** One of the first two sections of [stats]. *)
Definition lru_stats (c : lru) : json :=
  JObj (mk_dict [("entries", JInt (Z.of_nat (length (lru_store c))));
                 ("bytes", JInt (lru_current_bytes c)); ("max_bytes", JInt (lru_max_bytes c))]).

Definition stats : M cache_state dict := gets (fun s =>
  mk_dict [("metadata", lru_stats (cs_metadata s)); ("parquet", lru_stats (cs_parquet s));
           ("parquet_pinned", JObj (mk_dict
              [("entries", JInt (Z.of_nat (size (cs_pinned s))));
               ("bytes", JInt (sum_list_with_Z blob_size (snd <$> map_to_list (cs_pinned s))))]));
           ("artifact_store_serving", JBool (ARTIFACT_STORE_SERVING cfg))]).
End cache.

(** * Theorems *)

(** ** One cache *)

Fixpoint total (items : list entry) : Z :=
  match items with [] => 0 | e :: items => blob_size e.2.1 + total items end.

Definition lru_ok (c : lru) : Prop :=
  NoDup (map fst (lru_store c)) /\ lru_current_bytes c = total (lru_store c) /\
  total (lru_store c) <= lru_max_bytes c.

#[local] Arguments blob_size : simpl never.

Lemma blob_size_nonneg b : 0 <= blob_size b.
Proof. unfold blob_size. lia. Qed.

Lemma total_nonneg items : 0 <= total items.
Proof. induction items as [|e l IH]; cbn; [lia|]. pose proof (blob_size_nonneg e.2.1). lia. Qed.

Lemma total_app l k : total (l ++ k) = total l + total k.
Proof. induction l as [|e l IH]; cbn; [lia|]. rewrite IH. lia. Qed.

Lemma find_entry_cons key e l :
  find_entry key (e :: l) = if decide (e.1 = key) then Some e.2 else find_entry key l.
Proof.
  unfold find_entry. cbn. destruct (decide (e.1 = key)); [done|].
  by destruct (list_find _ l) as [[]|].
Qed.

Lemma drop_key_cons key e l :
  drop_key key (e :: l) = if decide (e.1 = key) then drop_key key l else e :: drop_key key l.
Proof.
  unfold drop_key. destruct (decide (e.1 = key)) as [Hk|Hk].
  - by rewrite filter_cons_False by (intros Hn; by apply Hn).
  - by rewrite filter_cons_True.
Qed.

Lemma find_entry_None key l : find_entry key l = None <-> (key ∉ map fst l).
Proof.
  induction l as [|e l IH]; [split; [intros _; apply not_elem_of_nil|done]|].
  rewrite find_entry_cons. cbn [map]. rewrite not_elem_of_cons.
  destruct (decide (e.1 = key)) as [->|Hk]; [split; [done|naive_solver]|].
  rewrite IH. naive_solver.
Qed.

Lemma drop_key_absent key l : (key ∉ map fst l) -> drop_key key l = l.
Proof.
  induction l as [|e l IH]; [done|]. cbn [map]. rewrite not_elem_of_cons. intros [Hk Hl].
  rewrite drop_key_cons, decide_False by congruence. by rewrite IH.
Qed.

Lemma drop_key_gone key l : key ∉ map fst (drop_key key l).
Proof.
  induction l as [|e l IH]; [apply not_elem_of_nil|]. rewrite drop_key_cons.
  destruct (decide (e.1 = key)); [done|]. cbn [map]. rewrite not_elem_of_cons. by split; [congruence|].
Qed.

Lemma drop_key_sub key k l : k ∈ map fst (drop_key key l) -> k ∈ map fst l.
Proof.
  induction l as [|e l IH]; [done|]. rewrite drop_key_cons. destruct (decide (e.1 = key)); cbn [map].
  - intros Hk. right. auto.
  - intros [->|Hk]%elem_of_cons; [by left|right; auto].
Qed.

Lemma drop_key_nodup key l : NoDup (map fst l) -> NoDup (map fst (drop_key key l)).
Proof.
  induction l as [|e l IH]; [done|]. cbn [map]. rewrite NoDup_cons. intros [He Hl].
  rewrite drop_key_cons. destruct (decide (e.1 = key)); [by apply IH|]. cbn [map].
  apply NoDup_cons. split; [|by apply IH]. intros Hin. by apply He, (drop_key_sub key).
Qed.

Lemma total_drop key d x l :
  NoDup (map fst l) -> find_entry key l = Some (d, x) ->
  total (drop_key key l) = total l - blob_size d.
Proof.
  induction l as [|e l IH]; [done|]. cbn [map]. rewrite NoDup_cons, find_entry_cons, drop_key_cons.
  intros [He Hl]. destruct (decide (e.1 = key)) as [<-|Hk].
  - intros [= He2]. rewrite drop_key_absent by done. cbn. rewrite He2. cbn. lia.
  - intros Hf. cbn. rewrite IH by done. lia.
Qed.

Lemma evict_ok key c : lru_ok c -> lru_ok (evict key c).
Proof.
  intros (Hn & Hc & Hm). unfold evict. destruct (find_entry key (lru_store c)) as [[d x]|] eqn:Hf; [|done].
  unfold lru_ok, set_items. cbn. rewrite (total_drop _ _ _ _ Hn Hf).
  pose proof (blob_size_nonneg d). split_and!; [by apply drop_key_nodup|lia|lia].
Qed.

Lemma evict_store key c : lru_store (evict key c) = drop_key key (lru_store c).
Proof.
  unfold evict. destruct (find_entry key (lru_store c)) as [[d x]|] eqn:Hf; [done|].
  by rewrite drop_key_absent by (by apply find_entry_None).
Qed.

Lemma evict_bounds key c :
  lru_max_bytes (evict key c) = lru_max_bytes c /\ lru_ttl (evict key c) = lru_ttl c.
Proof. unfold evict. by destruct (find_entry _ _) as [[]|]. Qed.

(** Which entries a [put] discards: a shortest prefix, in age order. *)
Lemma make_room_spec size max_bytes : forall items current items' current',
  current = total items ->
  make_room size max_bytes current items = (items', current') ->
  exists dropped, items = dropped ++ items' /\ current' = total items' /\
    (items' = [] \/ total items' + size <= max_bytes) /\
    (forall d e, dropped = d ++ [e] -> max_bytes < total (e :: items') + size).
Proof.
  induction items as [|e items IH]; intros current items' current' Hc Hr; cbn [make_room] in Hr.
  { injection Hr as <- <-. exists []. split_and!; [done|done|by left|]. intros [] ?; done. }
  destruct (Z.ltb_spec max_bytes (current + size)) as [Hlt|Hle].
  2: { injection Hr as <- <-. exists []. split_and!; [done|done|right; lia|]. intros [] ?; done. }
  destruct (IH (current - blob_size e.2.1) items' current') as (dropped & -> & Hc' & Hfit & Hmin);
    [rewrite Hc; cbn; lia|done|].
  exists (e :: dropped). split_and!; [done|done|done|]. intros d e' Hd.
  destruct d as [|x d]; injection Hd as <- Hd; [|by eapply Hmin].
  subst dropped. cbn in *. lia.
Qed.

(** The entries after a [put] that fits: the untouched rest of the former ones,
    then the new one. *)
Lemma lru_put_spec now key data c :
  lru_ok c -> blob_size data <= lru_max_bytes c ->
  exists dropped kept, drop_key key (lru_store c) = dropped ++ kept /\
    lru_put now key data c =
      set_items (kept ++ [(key, (data, now + lru_ttl c))]) (total kept + blob_size data) c /\
    total kept + blob_size data <= lru_max_bytes c /\
    (forall d e, dropped = d ++ [e] -> lru_max_bytes c < total (e :: kept) + blob_size data).
Proof.
  intros Hok Hsz. pose proof (evict_ok key c Hok) as (Hn & Hc & Hm).
  destruct (evict_bounds key c) as [Emax Ettl]. unfold lru_put.
  destruct (Z.ltb_spec (lru_max_bytes c) (blob_size data)); [lia|]. cbv zeta.
  destruct (make_room _ _ _ _) as [kept current] eqn:Hr.
  destruct (make_room_spec _ _ _ _ _ _ Hc Hr) as (dropped & Hd & -> & Hfit & Hmin).
  rewrite evict_store in Hd. rewrite Emax in Hfit, Hmin. exists dropped, kept. split_and!; [done| | |done].
  - unfold set_items. by rewrite Emax, Ettl.
  - destruct Hfit as [->|?]; [cbn; lia|done].
Qed.

Lemma lru_put_ok now key data c : lru_ok c -> lru_ok (lru_put now key data c).
Proof.
  intros Hok. destruct (Z.ltb_spec (lru_max_bytes c) (blob_size data)) as [Hlt|Hle].
  { unfold lru_put. by rewrite (proj2 (Z.ltb_lt _ _) Hlt). }
  destruct (lru_put_spec now key data c Hok Hle) as (dropped & kept & Hd & -> & Hfit & _).
  destruct Hok as (Hn & _ & _). unfold lru_ok, set_items. cbn. rewrite total_app, map_app. cbn.
  split_and!; [|lia|lia]. pose proof (drop_key_nodup key _ Hn) as Hk. rewrite Hd, map_app in Hk.
  apply NoDup_app in Hk as (_ & _ & Hk). apply NoDup_app. split_and!; [done| |apply NoDup_singleton].
  intros x Hx Hx'. apply list_elem_of_singleton in Hx' as ->. apply (drop_key_gone key (lru_store c)).
  rewrite Hd, map_app. apply elem_of_app. by right.
Qed.

Lemma lru_get_ok now key c : lru_ok c -> lru_ok (lru_get now key c).2.
Proof.
  intros Hok. unfold lru_get. destruct (find_entry key (lru_store c)) as [[d x]|] eqn:Hf; [|done].
  destruct (x <? now); [by apply evict_ok|]. destruct Hok as (Hn & Hc & Hm). unfold lru_ok, set_items. cbn.
  rewrite total_app, (total_drop _ _ _ _ Hn Hf), map_app. cbn. split_and!; [|lia|lia].
  apply NoDup_app. split_and!; [by apply drop_key_nodup| |apply NoDup_singleton].
  intros k Hk Hk'. apply list_elem_of_singleton in Hk' as ->. by apply (drop_key_gone key (lru_store c)).
Qed.

Lemma find_entry_last key v l :
  (key ∉ map fst l) -> find_entry key (l ++ [(key, v)]) = Some v.
Proof.
  induction l as [|e l IH]; cbn [app map].
  - intros _. rewrite find_entry_cons. by rewrite decide_True.
  - rewrite not_elem_of_cons, find_entry_cons. intros [Hk Hl]. rewrite decide_False by congruence. auto.
Qed.

(** A well-formed cache of capacity [m]. *)
Definition lru_within (m : Z) (c : lru) : Prop := lru_ok c /\ lru_max_bytes c = m.

Lemma evict_within m key c : lru_within m c -> lru_within m (evict key c).
Proof. intros [? <-]. split; [by apply evict_ok|apply evict_bounds]. Qed.

Lemma lru_get_within m now key c : lru_within m c -> lru_within m (lru_get now key c).2.
Proof.
  intros [? <-]. split; [by apply lru_get_ok|]. unfold lru_get.
  destruct (find_entry _ _) as [[d x]|]; [|done]. destruct (_ <? _); [apply evict_bounds|done].
Qed.

Lemma lru_put_within m now key data c : lru_within m c -> lru_within m (lru_put now key data c).
Proof.
  intros [? <-]. split; [by apply lru_put_ok|]. unfold lru_put. destruct (_ <? _); [done|].
  cbv zeta. destruct (make_room _ _ _ _). apply evict_bounds.
Qed.

(** [put] is an LRU insertion.  An object that fits is found by the next
    [get] until its expiry has passed, and makes room by discarding a shortest
    run of the least recently used entries, the others keeping their order.  An
    object larger than the cache changes nothing: an older value of the same
    key, if there is one, stays and is still served. *)
Theorem lru_put_correct now key data c :
  lru_ok c ->
  (blob_size data <= lru_max_bytes c ->
     (exists dropped kept, drop_key key (lru_store c) = dropped ++ kept /\
        lru_store (lru_put now key data c) = kept ++ [(key, (data, now + lru_ttl c))] /\
        (forall d e, dropped = d ++ [e] -> lru_max_bytes c < total (e :: kept) + blob_size data)) /\
     forall now2, (lru_get now2 key (lru_put now key data c)).1
                  = if now + lru_ttl c <? now2 then None else Some data) /\
  (lru_max_bytes c < blob_size data -> lru_put now key data c = c).
Proof.
  intros Hok. split.
  - intros Hle. destruct (lru_put_spec now key data c Hok Hle) as (dropped & kept & Hd & Hput & _ & Hmin).
    split; [exists dropped, kept; split_and!; [done|by rewrite Hput|done]|].
    intros now2. unfold lru_get. rewrite Hput. cbn [lru_store set_items].
    rewrite find_entry_last; [by destruct (_ <? _)|]. intros Hin.
    apply (drop_key_gone key (lru_store c)). rewrite Hd, map_app. apply elem_of_app. by right.
  - intros Hlt. unfold lru_put. by rewrite (proj2 (Z.ltb_lt _ _) Hlt).
Qed.

Definition two_byte_cache : lru := Lru 4 10 [("a", (BRaw "xx", 50)); ("b", (BRaw "yy", 60))] 4.

Lemma two_byte_cache_ok : lru_ok two_byte_cache.
Proof. by split_and!; [by apply (bool_decide_unpack _)|vm_compute|vm_compute]. Qed.

Lemma lru_put_correct_witness :
  (lru_get 20 "c" (lru_put 10 "c" (BRaw "zz") two_byte_cache)).1 = Some (BRaw "zz").
Proof.
  pose proof (lru_put_correct 10 "c" (BRaw "zz") two_byte_cache two_byte_cache_ok) as [Hfit _].
  destruct (Hfit ltac:(by vm_compute)) as [_ Hget]. rewrite Hget. vm_compute. reflexivity.
Defined.

(** ** The module *)

Inductive cache_op :=
| GetMetadata (key : string) | PutMetadata (key : string) (data : blob)
| GetParquet (key : string) | PeekParquet (key : string) | WarmParquet (key : string)
| PutParquet (key : string) (data : blob) | PinParquet (key : string) (data : blob)
| EvictParquet (key : string) | UnpinAll.

Section tiers.
Context `{Env} (cfg : cache_config) (meta_max parquet_max : Z).

Definition run_cache (o : cache_op) : M cache_state unit :=
  match o with
  | GetMetadata k => get_metadata k;; mret tt
  | PutMetadata k d => put_metadata k d
  | GetParquet k => get_parquet cfg k;; mret tt
  | PeekParquet k => peek_parquet cfg k;; mret tt
  | WarmParquet k => warm_parquet cfg k;; mret tt
  | PutParquet k d => put_parquet cfg k d
  | PinParquet k d => pin_parquet cfg k d
  | EvictParquet k => evict_parquet cfg k
  | UnpinAll => unpin_all
  end.

Definition run_caches (ops : list cache_op) (s : cache_state) : cache_state :=
  foldl (fun s o => (run_cache o s).2) s ops.

Definition cache_ok (s : cache_state) : Prop :=
  lru_within meta_max (cs_metadata s) /\ lru_within parquet_max (cs_parquet s).

(** Everything but the two caches and the clock is unchanged. *)
Definition same_tiers (s s' : cache_state) : Prop :=
  cs_pinned s' = cs_pinned s /\ cs_disk s' = cs_disk s /\ cs_store s' = cs_store s.

#[local] Instance same_tiers_preorder : PreOrder same_tiers.
Proof. split; [by intros s|]. intros a b c (?&?&?) (?&?&?). unfold same_tiers. split_and!; congruence. Qed.

(** The pins are unchanged. *)
Definition same_pins (s s' : cache_state) : Prop := cs_pinned s' = cs_pinned s.
#[local] Instance same_pins_preorder : PreOrder same_pins.
Proof. split; [by intros s|]. intros a b c. unfold same_pins. congruence. Qed.

Lemma cache_get_keeps m sel upd key :
  (forall c s, same_tiers s (upd c s) /\
     (cache_ok s -> lru_within m c -> cache_ok (upd c s))) ->
  (forall s, cache_ok s -> lru_within m (sel s)) ->
  maintains cache_ok same_tiers (cache_get sel upd key).
Proof.
  intros Hupd Hsel s Hok. unfold cache_get, mbind, M_bind, gets.
  destruct (find_entry key (lru_store (sel s))) eqn:Hf; [|done].
  unfold monotonic, modify. cbn [fst snd]. destruct (Hupd (lru_get (clock (cs_ticks s)) key (sel s)).2
    (CacheState (cs_metadata s) (cs_parquet s) (cs_pinned s) (cs_disk s) (cs_store s)
       (S (cs_ticks s)))) as [Ht Hk].
  split; [|exact Ht]. apply Hk; [exact Hok|]. by apply lru_get_within, Hsel.
Qed.

Lemma cache_put_keeps m sel upd key data :
  (forall c s, same_tiers s (upd c s) /\
     (cache_ok s -> lru_within m c -> cache_ok (upd c s))) ->
  (forall s, cache_ok s -> lru_within m (sel s)) ->
  maintains cache_ok same_tiers (cache_put sel upd key data).
Proof.
  intros Hupd Hsel s Hok. unfold cache_put, mbind, M_bind, gets.
  destruct (_ <? _); [done|]. unfold monotonic, modify. cbn [fst snd].
  destruct (Hupd (lru_put (clock (cs_ticks s)) key data (sel s))
    (CacheState (cs_metadata s) (cs_parquet s) (cs_pinned s) (cs_disk s) (cs_store s)
       (S (cs_ticks s)))) as [Ht Hk].
  split; [|exact Ht]. apply Hk; [exact Hok|]. by apply lru_put_within, Hsel.
Qed.

Lemma parquet_get_keeps key : maintains cache_ok same_tiers (parquet_get key).
Proof. apply (cache_get_keeps parquet_max); [|by intros s []]. intros c s. split; [done|]. by intros [? _]. Qed.
Lemma parquet_put_keeps key data : maintains cache_ok same_tiers (parquet_put key data).
Proof. apply (cache_put_keeps parquet_max); [|by intros s []]. intros c s. split; [done|]. by intros [? _]. Qed.
Lemma get_metadata_keeps key : maintains cache_ok same_tiers (get_metadata key).
Proof. apply (cache_get_keeps meta_max); [|by intros s []]. intros c s. split; [done|]. by intros [_ ?]. Qed.
Lemma put_metadata_keeps key data : maintains cache_ok same_tiers (put_metadata key data).
Proof. apply (cache_put_keeps meta_max); [|by intros s []]. intros c s. split; [done|]. by intros [_ ?]. Qed.

Lemma store_read_pure key s : exists o, store_read cfg key s = (Ok o, s).
Proof.
  unfold store_read. destruct (ARTIFACT_STORE_SERVING cfg); [|by exists None].
  unfold catch, mbind, M_bind, on_store. pose proof (get_read_only key 0 None (cs_store s)) as Hg.
  destruct (get key 0 None (cs_store s)) as [[b|e] s']; cbn in *; subst s';
    [exists (Some b)|exists None]; by destruct s.
Qed.

Lemma disk_read_run key s : exists o,
  disk_read cfg key s = (Ok o, if PARQUET_DISK_CACHE cfg then tick_cache s else s).
Proof.
  unfold disk_read. destruct (PARQUET_DISK_CACHE cfg); [|by eexists].
  unfold on_disk. destruct (disk_error cfg _); by eexists.
Qed.

Lemma reads_keep {A} (R : relation cache_state) `{!PreOrder R} (m : M cache_state A) :
  (forall s, exists r, m s = (r, s)) -> maintains cache_ok R m.
Proof. intros Hm s Hs. destruct (Hm s) as [r ->]. by split. Qed.
(** The evolution of the pins that each operation allows. *)
Definition pins_step (o : cache_op) (s s' : cache_state) : Prop :=
  cs_pinned s' = match o with
                 | PinParquet k d => <[k := d]> (cs_pinned s)
                 | EvictParquet k => delete k (cs_pinned s)
                 | UnpinAll => ∅
                 | _ => cs_pinned s
                 end.

Lemma same_tiers_pins {A} (m : M cache_state A) :
  maintains cache_ok same_tiers m -> maintains cache_ok same_pins m.
Proof. intros Hm s Hs. destruct (Hm s Hs) as [? (? & _)]. by split. Qed.

Lemma disk_write_keeps key data : maintains cache_ok same_pins (disk_write cfg key data).
Proof.
  intros s Hs. unfold disk_write. destruct (PARQUET_DISK_CACHE cfg); [|done].
  unfold on_disk. by destruct (disk_error cfg _).
Qed.

Lemma on_store_keeps {A} (m : M mem A) :
  maintains cache_ok same_pins (catch (on_store m;; mret tt) (fun _ => mret tt)).
Proof.
  intros s Hs. unfold catch, mbind, M_bind, on_store. by destruct (m (cs_store s)) as [[|] ?].
Qed.

Lemma store_write_keeps key data : maintains cache_ok same_pins (store_write cfg key data).
Proof. unfold store_write. destruct (ARTIFACT_STORE_SERVING cfg); [apply on_store_keeps|]. by intros s. Qed.

Lemma store_delete_keeps key : maintains cache_ok same_pins (store_delete cfg key).
Proof. unfold store_delete. destruct (ARTIFACT_STORE_SERVING cfg); [apply on_store_keeps|]. by intros s. Qed.

#[local] Hint Resolve parquet_get_keeps parquet_put_keeps get_metadata_keeps put_metadata_keeps
  same_tiers_pins disk_write_keeps store_write_keeps store_delete_keeps : fsp.

Lemma disk_read_keeps key : maintains cache_ok same_tiers (disk_read cfg key).
Proof. intros s Hs. destruct (disk_read_run key s) as [o ->]. by destruct (PARQUET_DISK_CACHE cfg). Qed.
Lemma store_read_keeps key : maintains cache_ok same_tiers (store_read cfg key).
Proof. apply (reads_keep _). intros s. destruct (store_read_pure key s) as [o ->]. by eexists. Qed.
#[local] Hint Resolve disk_read_keeps store_read_keeps : fsp.

(** Walk through a body whose steps are in the hint database. *)
Ltac keeps :=
  repeat first
    [ apply (maintains_ret _ _) | apply (maintains_gets _ _) | solve [eauto with fsp] |
       apply (maintains_bind _ _); [|intros ?] | case_scrut ].

Lemma get_parquet_keeps key : maintains cache_ok same_tiers (get_parquet cfg key).
Proof. unfold get_parquet. keeps. Qed.
Lemma peek_parquet_keeps key : maintains cache_ok same_tiers (peek_parquet cfg key).
Proof. unfold peek_parquet. keeps. Qed.
Lemma warm_parquet_keeps key : maintains cache_ok same_tiers (warm_parquet cfg key).
Proof. unfold warm_parquet. keeps. Qed.

#[local] Hint Resolve get_parquet_keeps peek_parquet_keeps warm_parquet_keeps : fsp.

Lemma pins_of (m : M cache_state unit) s :
  maintains cache_ok same_pins m -> cache_ok s -> cache_ok (m s).2 /\ cs_pinned (m s).2 = cs_pinned s.
Proof. intros Hm Hs. by apply Hm. Qed.

(** Every operation keeps both caches well-formed and moves the pins as it says. *)
Lemma run_cache_step o s :
  cache_ok s -> cache_ok (run_cache o s).2 /\ pins_step o s (run_cache o s).2.
Proof.
  intros Hs. unfold pins_step.
  destruct o as [k|k d|k|k|k|k d|k d|k|]; cbn [run_cache];
    try by (apply pins_of; [keeps|exact Hs]).
  - assert (Hk : maintains cache_ok same_pins (disk_write cfg k d;; store_write cfg k d)) by keeps.
    exact (pins_of _ (set_pinned (<[k:=d]> (cs_pinned s)) s) Hk Hs).
  - assert (Hk : maintains cache_ok same_pins
      ((if PARQUET_DISK_CACHE cfg
        then on_disk cfg (modify (fun s => set_disk (delete (disk_path cfg k) (cs_disk s)) s)) (mret tt) else mret tt);;
       store_delete cfg k)).
    { apply (maintains_bind _ _); [|keeps]. intros s' Hs'. destruct (PARQUET_DISK_CACHE cfg); [|done].
      unfold on_disk. by destruct (disk_error cfg _). }
    refine (pins_of _ (set_parquet (evict k (cs_parquet s)) (set_pinned (delete k (cs_pinned s)) s)) Hk _).
    destruct Hs. split; [done|]. by apply evict_within.
  - done.
Qed.

Lemma run_caches_app ops1 ops2 s : run_caches (ops1 ++ ops2) s = run_caches ops2 (run_caches ops1 s).
Proof. apply foldl_app. Qed.

Lemma run_caches_ok ops s : cache_ok s -> cache_ok (run_caches ops s).
Proof.
  revert s. induction ops as [|o ops IH]; intros s Hs; [done|]. apply IH. by apply run_cache_step.
Qed.

Definition touches_pin (key : string) (o : cache_op) : bool :=
  match o with
  | PinParquet k _ | EvictParquet k => bool_decide (k = key)
  | UnpinAll => true
  | _ => false
  end.

Lemma run_caches_pin key data ops s :
  cache_ok s -> cs_pinned s !! key = Some data ->
  forallb (fun o => negb (touches_pin key o)) ops = true ->
  cs_pinned (run_caches ops s) !! key = Some data.
Proof.
  revert s. induction ops as [|o ops IH]; intros s Hs Hp Ho; [done|].
  cbn in Ho. apply andb_prop in Ho as [Ho Hops]. destruct (run_cache_step o s Hs) as [Hs' Hpin].
  apply IH; [done| |done]. rewrite Hpin.
  destruct o; cbn in Ho; try done; apply negb_true_iff, bool_decide_eq_false in Ho.
  - by rewrite lookup_insert_ne.
  - by rewrite lookup_delete_ne.
Qed.

(** C26: the memory the caches use is bounded, whatever is done to them: started
    empty, after any sequence of operations each of the two caches holds one
    entry per key, its byte counter is the size of what it holds, and that is
    at most the capacity it was built with. *)
Theorem caches_bounded meta_ttl parquet_ttl pins disk store ticks ops :
  0 <= meta_max -> 0 <= parquet_max ->
  let s := run_caches ops
    (CacheState (new_lru meta_max meta_ttl) (new_lru parquet_max parquet_ttl) pins disk store ticks) in
  lru_ok (cs_metadata s) /\ lru_current_bytes (cs_metadata s) <= meta_max /\
  lru_ok (cs_parquet s) /\ lru_current_bytes (cs_parquet s) <= parquet_max.
Proof.
  intros Hm Hp s. assert (Hs : cache_ok s).
  { apply run_caches_ok. by split; (split; [split_and!; [apply NoDup_nil_2|done|done]|]). }
  destruct Hs as [[Hm1 Em] [Hp1 Ep]]. split_and!; [done| |done|].
  - destruct Hm1 as (_ & -> & ?). lia.
  - destruct Hp1 as (_ & -> & ?). lia.
Qed.

(** A pinned split is served verbatim for the life of its snapshot: once it
    is pinned, and until it is pinned again, evicted or all pins are dropped,
    every lookup answers its bytes, whatever is cached, expires or is evicted
    in between. *)
Theorem pinned_split_served key data ops s :
  cache_ok s -> forallb (fun o => negb (touches_pin key o)) ops = true ->
  let s' := run_caches ops (pin_parquet cfg key data s).2 in
  get_parquet cfg key s' = (Ok (Some data), s') /\ peek_parquet cfg key s' = (Ok (Some data), s').
Proof.
  intros Hs Ho s'. destruct (run_cache_step (PinParquet key data) s Hs) as [Hs1 Hp1].
  assert (Hp : cs_pinned s' !! key = Some data).
  { apply run_caches_pin; [exact Hs1| |done]. cbn [run_cache] in Hp1. rewrite Hp1. apply lookup_insert_eq. }
  unfold get_parquet, peek_parquet, mbind, M_bind, gets. by rewrite Hp.
Qed.

(** What a tier below the memory holds for a key, the disk before the store. *)
Definition below (key : string) (s : cache_state) : option blob :=
  match (disk_read cfg key s).1 with
  | Ok (Some b) => Some b
  | _ => match (store_read cfg key s).1 with Ok o => o | Err _ => None end
  end.

Lemma store_read_tick key s : store_read cfg key (tick_cache s) = ((store_read cfg key s).1, tick_cache s).
Proof.
  unfold store_read. destruct (ARTIFACT_STORE_SERVING cfg); [|done].
  unfold catch, mbind, M_bind, on_store. cbn [cs_store tick_cache]. pose proof (get_read_only key 0 None (cs_store s)) as Hg.
  destruct (get key 0 None (cs_store s)) as [[b|e] m]; cbn in *; by subst m.
Qed.

Lemma below_reads key s : exists s', s' = (if PARQUET_DISK_CACHE cfg then tick_cache s else s) /\
  ((disk_read cfg key s = (Ok None, s') /\ store_read cfg key s' = (Ok (below key s), s')) \/
   (exists b, disk_read cfg key s = (Ok (Some b), s') /\ below key s = Some b)).
Proof.
  eexists. split; [reflexivity|]. unfold below. destruct (disk_read_run key s) as [[b|] Hd]; rewrite Hd; [right; by exists b|left].
  split; [done|]. destruct (store_read_pure key s) as [o Ho]. destruct (PARQUET_DISK_CACHE cfg); [|by rewrite Ho].
  by rewrite store_read_tick, Ho.
Qed.

(** A restarted process: the caches and the pins are gone. *)
Definition restarted (s : cache_state) : cache_state :=
  CacheState (new_lru meta_max 0) (new_lru parquet_max 0) ∅ (cs_disk s) (cs_store s) (cs_ticks s).

(** With nothing in memory the lookups answer what the tiers below hold. *)
Lemma cold_get_parquet key s :
  cs_pinned s !! key = None -> find_entry key (lru_store (cs_parquet s)) = None ->
  (get_parquet cfg key s).1 = Ok (below key s).
Proof.
  intros Hp Hf. unfold get_parquet, mbind, M_bind, gets. rewrite Hp.
  unfold parquet_get, cache_get, mbind, M_bind, gets. rewrite Hf. unfold mret at 1, M_ret at 1.
  assert (Hput : forall b s, (parquet_put key b s).1 = Ok tt).
  { intros b s0. unfold parquet_put, cache_put, mbind, M_bind, gets. by destruct (_ <? _). }
  destruct (below_reads key s) as (s' & _ & [[-> ->]|(b & -> & ->)]).
  - destruct (below key s) as [b|]; [|done]. specialize (Hput b s').
    destruct (parquet_put key b s') as [[u|e] ?]; cbn in *; congruence.
  - specialize (Hput b s'). destruct (parquet_put key b s') as [[u|e] ?]; cbn in *; congruence.
Qed.

(** No operation on the files fails. *)
Definition reliable : Prop := PARQUET_DISK_CACHE cfg = true -> forall n, disk_error cfg n = false.

Lemma disk_write_run key data s : reliable ->
  disk_write cfg key data s =
    (Ok tt, if PARQUET_DISK_CACHE cfg then set_disk (<[disk_path cfg key := data]> (cs_disk s)) (tick_cache s) else s).
Proof.
  intros Hr. unfold disk_write, reliable in *. destruct (PARQUET_DISK_CACHE cfg); [|done].
  unfold on_disk. by rewrite Hr.
Qed.

(** The store holds what a write of a valid key put there. *)
Lemma store_write_run key k data s :
  ARTIFACT_STORE_SERVING cfg = true -> normalize_key key = Ok k ->
  store_write cfg key data s = (Ok tt, set_cstore (<[k := data]> (cs_store s)) s).
Proof.
  intros Hst Hk. unfold store_write. rewrite Hst. unfold catch, mbind, M_bind, on_store.
  unfold put. by rewrite (with_key_Ok _ _ _ Hk).
Qed.

Lemma store_read_run key k s :
  ARTIFACT_STORE_SERVING cfg = true -> normalize_key key = Ok k ->
  store_read cfg key s = (Ok (cs_store s !! k), s).
Proof.
  intros Hst Hk. unfold store_read. rewrite Hst. unfold catch, mbind, M_bind, on_store.
  rewrite (get_whole _ _ _ Hk). destruct s as [? ? ? ? m ?]. cbn. by destruct (m !! k).
Qed.

Lemma store_write_disk key data s :
  exists m, store_write cfg key data s = (Ok tt, set_cstore m s).
Proof.
  unfold store_write. destruct (ARTIFACT_STORE_SERVING cfg).
  - unfold catch, mbind, M_bind, on_store. destruct (put key data (cs_store s)) as [[|] m]; by exists m.
  - exists (cs_store s). by destruct s.
Qed.

(** Where a write-through lands durably: the disk cache is on, or the store
    serves and takes the key. *)
Definition durable (key : string) : Prop :=
  PARQUET_DISK_CACHE cfg = true \/ (ARTIFACT_STORE_SERVING cfg = true /\ is_Ok (normalize_key key)).

Lemma written_below key data s :
  reliable -> durable key -> below key (restarted ((disk_write cfg key data;; store_write cfg key data) s).2) = Some data.
Proof.
  intros Hr Hd. unfold mbind, M_bind. rewrite disk_write_run by done. unfold below, disk_read, reliable in *.
  destruct (PARQUET_DISK_CACHE cfg) eqn:Hdc.
  - destruct (store_write_disk key data (set_disk (<[disk_path cfg key:=data]> (cs_disk s)) (tick_cache s))) as [m ->].
    unfold on_disk. rewrite Hr by done. cbn. by rewrite lookup_insert_eq.
  - destruct Hd as [?|[Hs [k Hk]]]; [congruence|]. rewrite (store_write_run _ _ _ _ Hs Hk).
    rewrite (store_read_run _ _ _ Hs Hk). cbn. by rewrite lookup_insert_eq.
Qed.

Lemma evict_parquet_run key s : exists d m n,
  evict_parquet cfg key s = (Ok tt, CacheState (cs_metadata s) (evict key (cs_parquet s)) (delete key (cs_pinned s)) d m n) /\
  (reliable -> PARQUET_DISK_CACHE cfg = true -> d = delete (disk_path cfg key) (cs_disk s)) /\
  (forall k, ARTIFACT_STORE_SERVING cfg = true -> normalize_key key = Ok k -> m = delete k (cs_store s)).
Proof.
  assert (Hdisk : forall s1, exists d n, (if PARQUET_DISK_CACHE cfg
      then on_disk cfg (modify (fun s => set_disk (delete (disk_path cfg key) (cs_disk s)) s)) (mret tt) else mret tt) s1
      = (Ok tt, CacheState (cs_metadata s1) (cs_parquet s1) (cs_pinned s1) d (cs_store s1) n) /\
      (reliable -> PARQUET_DISK_CACHE cfg = true -> d = delete (disk_path cfg key) (cs_disk s1))).
  { intros s1. unfold reliable. destruct (PARQUET_DISK_CACHE cfg); [|exists (cs_disk s1), (cs_ticks s1); split; [by destruct s1|discriminate]].
    unfold on_disk. destruct (disk_error cfg (cs_ticks s1)) eqn:He; eexists _, _; (split; [reflexivity|]).
    - intros Hr. by rewrite Hr in He.
    - done. }
  unfold evict_parquet. unfold mbind at 1, M_bind at 1. unfold modify at 1. unfold mbind at 1, M_bind at 1. unfold modify at 1.
  unfold mbind at 1, M_bind at 1.
  destruct (Hdisk (set_parquet (evict key (cs_parquet s)) (set_pinned (delete key (cs_pinned s)) s))) as (d & n & E & Hd).
  cbn [cs_parquet set_pinned] in *. rewrite E. cbn [cs_metadata cs_parquet cs_pinned cs_store set_parquet set_pinned].
  unfold store_delete. destruct (ARTIFACT_STORE_SERVING cfg); [|by exists d, (cs_store s), n].
  unfold catch, mbind, M_bind, on_store. cbn [cs_store]. destruct (delete_ key (cs_store s)) as [r m] eqn:Hr. exists d, m, n.
  split; [by destruct r|]. split; [done|]. intros k _ Hk. unfold delete_ in Hr. rewrite (with_key_Ok _ _ _ Hk) in Hr. by injection Hr as _ <-.
Qed.

Lemma evicted_below key s r : reliable ->
  r = (evict_parquet cfg key s).2 \/ r = restarted (evict_parquet cfg key s).2 -> below key r = None.
Proof.
  intros Hrel. destruct (evict_parquet_run key s) as (d & m & n & -> & Hdisk & Hm). intros Hr.
  assert (Hd : (disk_read cfg key r).1 = Ok None).
  { unfold disk_read, reliable in *. destruct (PARQUET_DISK_CACHE cfg); [|done]. unfold on_disk, gets. rewrite Hrel by done. rewrite Hdisk in Hr by done.
    destruct Hr as [-> | ->]; cbn; by rewrite lookup_delete_eq. }
  assert (Hs : cs_store r = m) by (by destruct Hr as [-> | ->]). clear Hr.
  unfold below. rewrite Hd. cbn. destruct (ARTIFACT_STORE_SERVING cfg) eqn:Hst; [|by unfold store_read; rewrite Hst].
  destruct (normalize_key key) as [k|e] eqn:Hk.
  - rewrite (store_read_run _ _ _ Hst Hk). cbn. rewrite Hs, (Hm k eq_refl eq_refl). by rewrite lookup_delete_eq.
  - unfold store_read. rewrite Hst. unfold catch, mbind, M_bind, on_store, get.
    by rewrite (with_key_Err _ _ _ Hk).
Qed.

(** C27: a split survives a restart and an eviction is final, as long as no operation on the files
    of the disk cache fails (a failed one is swallowed, see [failed_write_serves_old]).  When the disk
    cache is on, or the artifact store serves and takes the key, a process that
    starts with nothing in memory answers a lookup with exactly the bytes that
    [put_parquet] or [pin_parquet] wrote before it; after [evict_parquet] no
    lookup finds the key, neither in this process nor in a restarted one. *)
Theorem split_survives_restart key data s :
  reliable -> durable key ->
  (get_parquet cfg key (restarted (put_parquet cfg key data s).2)).1 = Ok (Some data) /\
  (get_parquet cfg key (restarted (pin_parquet cfg key data s).2)).1 = Ok (Some data) /\
  (get_parquet cfg key (evict_parquet cfg key s).2).1 = Ok None /\
  (get_parquet cfg key (restarted (evict_parquet cfg key s).2)).1 = Ok None.
Proof.
  intros Hr Hd. rewrite !cold_get_parquet; try done.
  - split_and!.
    + unfold put_parquet. unfold mbind at 1, M_bind at 1.
      assert (Hput : exists s', parquet_put key data s = (Ok tt, s')).
      { unfold parquet_put, cache_put, mbind, M_bind, gets. destruct (_ <? _); by eexists. }
      destruct Hput as [s' ->]. by rewrite written_below.
    + by erewrite <- (written_below key data (set_pinned (<[key:=data]> (cs_pinned s)) s) Hr Hd).
    + rewrite (evicted_below key s); eauto.
    + rewrite (evicted_below key s); eauto.
  - destruct (evict_parquet_run key s) as (d & m & n & -> & _). cbn. apply lookup_delete_eq.
  - destruct (evict_parquet_run key s) as (d & m & n & -> & _). cbn. rewrite evict_store.
    apply find_entry_None, drop_key_gone.
Qed.
End tiers.

(** ** Instances *)

Definition cache_env : Env := {| clock n := Z.of_nat n; token n := "tok" |}.
#[local] Existing Instance cache_env.

Definition disk_only : cache_config := CacheConfig true "/var/cache" false (fun _ => false).
Definition store_only : cache_config := CacheConfig false "" true (fun _ => false).

Definition cold : cache_state := CacheState (new_lru 4 10) (new_lru 4 10) ∅ ∅ ∅ 0.

Lemma cold_ok : cache_ok 4 4 cold.
Proof. by split; (split; [split_and!; [apply NoDup_nil_2|done|done]|]). Qed.

Lemma caches_bounded_witness :
  0 <= 4 /\ lru_current_bytes (cs_parquet (run_caches disk_only
    [PutParquet "a" (BRaw "xxx"); PutParquet "b" (BRaw "yyy"); GetParquet "a"] cold)) <= 4.
Proof.
  split; [lia|].
  apply (caches_bounded disk_only 4 4 10 10 ∅ ∅ ∅ 0
    [PutParquet "a" (BRaw "xxx"); PutParquet "b" (BRaw "yyy"); GetParquet "a"]); lia.
Defined.

Lemma pinned_split_served_witness :
  let s := run_caches store_only [PutParquet "a" (BRaw "other"); EvictParquet "b"; GetParquet "a"]
             (pin_parquet store_only "a" (BRaw "xxx") cold).2 in
  get_parquet store_only "a" s = (Ok (Some (BRaw "xxx")), s).
Proof.
  intros s. apply (pinned_split_served store_only 4 4 "a" (BRaw "xxx")
    [PutParquet "a" (BRaw "other"); EvictParquet "b"; GetParquet "a"] cold cold_ok).
  reflexivity.
Defined.

Lemma split_survives_restart_witness :
  durable store_only "t/a.parquet" /\
  (get_parquet store_only "t/a.parquet"
     (restarted 4 4 (put_parquet store_only "t/a.parquet" (BRaw "xxxxx") cold).2)).1
  = Ok (Some (BRaw "xxxxx")).
Proof.
  assert (Hd : durable store_only "t/a.parquet").
  { right. split; [reflexivity|]. eexists. vm_compute. reflexivity. }
  split; [exact Hd|]. apply (split_survives_restart store_only 4 4 "t/a.parquet" (BRaw "xxxxx") cold); [|exact Hd].
  intros Hon. discriminate Hon.
Defined.

(** The write of new bytes to the disk cache fails, the store takes them, and a restarted process
    answers the old bytes of the disk cache. *)
Definition full_disk : cache_config := CacheConfig true "/var/cache" true (fun n => Nat.eqb n 3).
Example failed_write_serves_old :
  let s := (put_parquet full_disk "a" (BRaw "old") cold).2 in
  let s' := (put_parquet full_disk "a" (BRaw "new") s).2 in
  cs_store s' !! "a" = Some (BRaw "new") /\ (get_parquet full_disk "a" (restarted 4 4 s')).1 = Ok (Some (BRaw "old")).
Proof. split; vm_compute; reflexivity. Qed.

(** A [put] of an object larger than the cache leaves the former value of its
    key in place. *)
Example oversized_put_is_stale :
  (lru_get 20 "a" (lru_put 10 "a" (BRaw "12345") two_byte_cache)).1 = Some (BRaw "xx").
Proof. reflexivity. Qed.
