(* ===== verification/Sources.v ===== *)
(** * Source tables and what their databases can do

    [config.py] (columns, column transforms, tables with their effective
    planning settings, connections) and [db/capabilities.py] (the capability
    matrix per database flavor).  The configured values are the fields of
    [source_config]; the tokenization keys, which live in the environment and
    an encrypted store, are a function of that record. *)

From S2P Require Import Prelude PyText.
From Stdlib Require Import Ascii.

(** [p in s] for strings *)
Fixpoint str_contains (p s : string) : bool :=
  startswith s p || match s with EmptyString => false | String _ s' => str_contains p s' end.

(** [s.split(sep, 1)[0]] *)
Fixpoint before (sep s : string) : string :=
  if startswith s sep then ""
  else match s with EmptyString => "" | String a s' => String a (before sep s') end.

(** An f-string: its parts, in order. *)
Definition fmt (parts : list string) : string := join "" parts.

Lemma fmt_cons x l : fmt (x :: l) = x +:+ fmt l.
Proof. unfold fmt, join. destruct l as [|y l]; cbn [String.concat]; [by rewrite app_nil_r_s|done]. Qed.

(** [repr] of a plain name in a message *)
Definition quoted (s : string) : string := fmt ["'"; s; "'"].

(** [x or ""] on an optional string *)
Definition or_empty (o : option string) : string := default "" o.
Definition truthy_opt (o : option string) : bool := truthy_str (or_empty o).

(** [repr] of a list of strings *)
Definition repr_list (l : list string) : string := fmt ["["; join ", " (map quoted l); "]"].

(** ** Columns *)

Record column_transform := ColumnTransform {
  ct_kind : string;
  ct_key_ref : option string;
  ct_domain : option string;
  ct_normalization : string;
}.

Definition COLUMN_TRANSFORM_KINDS : list string := ["deterministic_hash"; "random_token"].
Definition COLUMN_NORMALIZATIONS : list string := ["none"; "trim"; "trim_lower"].

(** [ColumnTransform(...)]: the constructor with its [__post_init__] *)
Definition make_transform (kind : string) (key_ref domain : option string) (normalization : string)
  : res column_transform :=
  if negb (bool_decide (kind ∈ COLUMN_TRANSFORM_KINDS))
  then Err (ValueError ("Unsupported column transform kind: " +:+ quoted kind))
  else if negb (bool_decide (normalization ∈ COLUMN_NORMALIZATIONS))
  then Err (ValueError ("Unsupported column normalization: " +:+ quoted normalization))
  else if String.eqb kind "deterministic_hash" && negb (truthy_opt key_ref)
  then Err (ValueError "deterministic_hash requires a non-empty key_ref")
  else if String.eqb kind "random_token" && truthy_opt key_ref
  then Err (ValueError "random_token does not accept key_ref")
  else Ok (ColumnTransform kind key_ref domain normalization).

Record column_def := ColumnDef {
  cd_field_id : Z;
  cd_name : string;
  cd_iceberg_type : string;
  cd_nullable : bool;
  cd_source : option string;
  cd_transform : option column_transform;
  cd_policy_id : option string;
}.

(** [source_name]: [self.source or self.name] *)
Definition source_name (c : column_def) : string := str_or (or_empty (cd_source c)) (cd_name c).

(** [ColumnDef.__post_init__] *)
Definition check_column (c : column_def) : res column_def :=
  match cd_transform c with
  | Some _ =>
      if String.eqb (lower (strip (cd_iceberg_type c))) "string" then Ok c
      else Err (ValueError (fmt ["Transformed column "; quoted (cd_name c); " must use Iceberg type 'string'"]))
  | None => Ok c
  end.

(** [replace(column, source=..., transform=...)] *)
Definition with_transform (t : option column_transform) (c : column_def) : column_def :=
  ColumnDef (cd_field_id c) (cd_name c) (cd_iceberg_type c) (cd_nullable c) (cd_source c) t (cd_policy_id c).
Definition with_source (s : option string) (c : column_def) : column_def :=
  ColumnDef (cd_field_id c) (cd_name c) (cd_iceberg_type c) (cd_nullable c) s (cd_transform c) (cd_policy_id c).

(** ** Configuration *)

Record source_config := SourceConfig {
  DB_URL : string;
  QUERY_MAX_ROWS : Z;
  CONNECTIONS : gmap string (string * Z);
  NUM_SPLITS : Z;
  SPLIT_STRATEGY : string;
  SPLIT_BALANCE : string;
  SPLIT_TARGET_ROWS : Z;
  SPLIT_TARGET_BYTES : Z;
  SPLIT_ESTIMATED_BYTES_PER_ROW : Z;
  SPLIT_COUNT_MIN : Z;
  SPLIT_COUNT_MAX : Z;
  SPLIT_SAMPLE_ROWS : Z;
  SPLIT_USE_STATS_HISTOGRAM : bool;
  TOKENIZATION_FALLBACK : string;
  environ : string -> option string;
  ENABLE_CREDENTIAL_STORE : bool;
  stored_tokenization_key : string -> option string;
}.

(** [tokenization_key_env_var] *)
Definition is_alnum (a : ascii) : bool :=
  let n := N_of_ascii a in
  (N.leb 48 n && N.leb n 57) || (N.leb 65 n && N.leb n 90) || (N.leb 97 n && N.leb n 122).
Definition ascii_upper (a : ascii) : ascii :=
  let n := N_of_ascii a in
  if (N.leb 97 n && N.leb n 122)%bool then ascii_of_N (n - 32) else a.
Definition upper : string -> string := str_map ascii_upper.
Definition tokenization_key_env_var (key_ref : string) : string :=
  "FSP_TOKENIZATION_KEY_" +:+ str_map (fun a => if is_alnum a then a else "_"%char) (upper key_ref).

Section config.
Context (cfg : source_config).

(** [resolve_tokenization_key]: the environment, then the credential store with
    its key vault, whose answer ([None] also when it is unavailable) is a setting *)
Definition resolve_tokenization_key (key_ref : string) : res string :=
  let env_var := tokenization_key_env_var key_ref in
  let value := or_empty (environ cfg env_var) in
  let value := if negb (truthy_str value) && ENABLE_CREDENTIAL_STORE cfg
               then or_empty (stored_tokenization_key cfg key_ref) else value in
  if negb (truthy_str value)
  then Err (ValueError (fmt ["Tokenization key "; quoted key_ref; " is not configured; set "; env_var;
                             " or save it in the encrypted tokenization key store"]))
  else Ok value.

Definition effective_db_url (connection_id : string) : string :=
  if negb (truthy_str connection_id) || String.eqb connection_id "default" then DB_URL cfg
  else match CONNECTIONS cfg !! connection_id with Some c => c.1 | None => DB_URL cfg end.

Definition effective_query_max_rows (connection_id : string) : Z :=
  if negb (truthy_str connection_id) || String.eqb connection_id "default" then QUERY_MAX_ROWS cfg
  else match CONNECTIONS cfg !! connection_id with Some c => c.2 | None => QUERY_MAX_ROWS cfg end.

(** ** Tables *)

Record table_def := TableDef {
  td_name : string;
  td_source_table : string;
  td_schema : list column_def;
  td_num_splits : Z;
  td_key_column : option string;
  td_connection_id : string;
  td_split_target_rows : option Z;
  td_split_target_bytes : option Z;
  td_split_estimated_bytes_per_row : option Z;
  td_split_strategy : option string;
  td_split_balance : option string;
  td_split_sample_rows : option Z;
  td_enabled : bool;
}.

(** [value.strip().lower() or None] *)
Definition clean_choice (o : option string) : option string :=
  match o with
  | Some s => if truthy_str (lower (strip s)) then Some (lower (strip s)) else None
  | None => None
  end.

(** [TableDef(...)]: the fields with their [__post_init__] *)
Definition make_table (name source_table : string) (schema : list column_def) (num_splits : option Z)
  (key_column : option string) (connection_id : string)
  (target_rows target_bytes bytes_per_row : option Z) (strategy balance : option string)
  (sample_rows : option Z) (enabled : bool) : table_def :=
  TableDef name source_table schema (default (NUM_SPLITS cfg) num_splits) key_column
    (str_or connection_id "default") target_rows target_bytes bytes_per_row
    (clean_choice strategy) (clean_choice balance) sample_rows enabled.

Definition effective_split_target_rows (t : table_def) : Z :=
  default (SPLIT_TARGET_ROWS cfg) (td_split_target_rows t).
Definition effective_split_target_bytes (t : table_def) : Z :=
  default (SPLIT_TARGET_BYTES cfg) (td_split_target_bytes t).
Definition effective_split_estimated_bytes_per_row (t : table_def) : Z :=
  default (SPLIT_ESTIMATED_BYTES_PER_ROW cfg) (td_split_estimated_bytes_per_row t).
Definition effective_split_strategy (t : table_def) : string :=
  default (SPLIT_STRATEGY cfg) (td_split_strategy t).
Definition effective_split_balance (t : table_def) : string :=
  default (SPLIT_BALANCE cfg) (td_split_balance t).
Definition effective_split_sample_rows (t : table_def) : Z :=
  default (SPLIT_SAMPLE_ROWS cfg) (td_split_sample_rows t).

(** The row cap of a split query. *)
Definition effective_max_rows (t : table_def) : Z :=
  let bytes := effective_split_target_bytes t in
  let per_row := effective_split_estimated_bytes_per_row t in
  let byte_target_rows :=
    if (0 <? bytes) && (0 <? per_row) then Z.max 1 ((bytes + per_row - 1) / per_row) else 0 in
  Z.max (effective_query_max_rows (td_connection_id t))
    (Z.max (effective_split_target_rows t) byte_target_rows).
End config.

(** ** Capabilities *)

Record flavor_capabilities := FlavorCapabilities {
  flavor : string;
  async_driver : bool;
  supports_streaming_query : bool;
  supports_view_listing : bool;
  supports_primary_key_reflection : bool;
  supports_range_key_bounds : bool;
  supports_modulo_split : bool;
  supports_fast_row_estimate : bool;
  support_status : string;
  requires_explicit_split_key : bool;
  supports_freshness_probe : bool;
  supports_deterministic_tokenization : bool;
  supports_random_tokenization : bool;
  supports_ntile : bool;
  supports_stats_histogram : bool;
  source_snapshot_provider : string;
  supports_distributed_snapshot : bool;
  source_snapshot_reopenable : bool;
  required_connection_fields : list string;
}.

Definition TOKENIZATION_NATIVE : string := "native".
Definition TOKENIZATION_ARROW : string := "arrow".
Definition TOKENIZATION_NONE : string := "none".
Definition SOURCE_SNAPSHOT_NONE : string := "none".

Definition tokenization_backend (caps : flavor_capabilities) (kind fallback : string) : string :=
  let native := if String.eqb kind "deterministic_hash"
                then supports_deterministic_tokenization caps
                else supports_random_tokenization caps in
  if native then TOKENIZATION_NATIVE
  else if String.eqb fallback TOKENIZATION_ARROW then TOKENIZATION_ARROW
  else TOKENIZATION_NONE.

Definition tokenization_warning (caps : flavor_capabilities) (kind fallback : string) : option string :=
  if negb (String.eqb (tokenization_backend caps kind fallback) TOKENIZATION_ARROW) then None
  else Some (fmt [flavor caps; " "; kind;
    " uses Arrow fallback: plaintext source values cross into the proxy, increasing proxy CPU/memory and source-to-proxy data transfer while reducing safe throughput. Arrow fallback is opt-in."]).

(** The keys of [_capability_gaps]; the texts it explains them with are left out. *)
Definition capability_gaps (caps : flavor_capabilities) : list string :=
  (if supports_streaming_query caps then [] else ["streaming_query"]) ++
  (if supports_primary_key_reflection caps then [] else ["primary_key_reflection"]) ++
  (if supports_fast_row_estimate caps then [] else ["fast_row_estimate"]) ++
  (if supports_freshness_probe caps then [] else ["freshness_probe"]) ++
  (if supports_stats_histogram caps then [] else ["stats_histogram"]) ++
  (if supports_deterministic_tokenization caps && supports_random_tokenization caps
   then [] else ["native_tokenization"]) ++
  (if String.eqb (source_snapshot_provider caps) SOURCE_SNAPSHOT_NONE then ["source_snapshot"] else []).

(** The fields in the order of the record: driver, streaming, views, primary
    keys, ranges, modulo, fast estimate, status, explicit key, freshness,
    deterministic and random tokens, ntile, histogram, snapshots. *)
Definition CAPABILITIES : gmap string flavor_capabilities := list_to_map [
  ("sqlite", FlavorCapabilities "sqlite" true true true true true true false "development"
     false true false false true false "none" false false []);
  ("postgresql", FlavorCapabilities "postgresql" true true true true true true true "supported"
     false true true true true true "postgresql_exported" true false []);
  ("mssql", FlavorCapabilities "mssql" true true true true true true true "supported"
     false true true true true true "mssql_transaction" false false []);
  ("oracle", FlavorCapabilities "oracle" false false true true true true true "supported"
     false false true true true false "none" false false []);
  ("databricks", FlavorCapabilities "databricks" false false true false true true false "beta"
     true false true true true false "none" false false ["http_path"]);
  ("redshift", FlavorCapabilities "redshift" false false true true true true false "beta"
     false false false false true false "none" false false []);
  ("teradata", FlavorCapabilities "teradata" false false true true true true false "beta"
     false false false false true false "none" false false []);
  ("impala", FlavorCapabilities "impala" false false true false true true false "supported"
     true false false false true false "none" false false []);
  ("generic", FlavorCapabilities "generic" false false false false false true false "unsupported"
     false false false false false false "none" false false [])
].

Definition generic_capabilities : flavor_capabilities :=
  FlavorCapabilities "generic" false false false false false true false "unsupported"
    false false false false false false "none" false false [].

Definition DIALECT_ALIASES : gmap string string :=
  list_to_map [("postgres", "postgresql"); ("sqlserver", "mssql"); ("oraclesql", "oracle")].

Definition normalize_dialect (dialect : option string) : string :=
  let key := lower (strip (or_empty dialect)) in default key (DIALECT_ALIASES !! key).

(** The part of a database URL that names its driver. *)
Definition url_scheme (db_url : string) : string := before "://" (lower db_url).

Definition flavor_from_db_url (db_url : string) : string :=
  let scheme := url_scheme db_url in
  if str_contains "redshift" scheme then "redshift"
  else if str_contains "postgres" scheme then "postgresql"
  else if str_contains "mssql" scheme then "mssql"
  else if str_contains "oracle" scheme then "oracle"
  else if str_contains "databricks" scheme then "databricks"
  else if str_contains "teradata" scheme then "teradata"
  else if str_contains "impala" scheme then "impala"
  else if str_contains "sqlite" scheme then "sqlite"
  else "generic".

Definition capabilities_for_dialect (dialect : option string) : flavor_capabilities :=
  default generic_capabilities (CAPABILITIES !! normalize_dialect dialect).
Definition capabilities_for_db_url (db_url : string) : flavor_capabilities :=
  default generic_capabilities (CAPABILITIES !! flavor_from_db_url db_url).

Definition missing_required_fields (dialect : option string) (query : gmap string string) : list string :=
  filter (fun field => truthy_opt (query !! field) = false)
    (required_connection_fields (capabilities_for_dialect dialect)).

(** The default of the two lookups is the matrix's own generic row. *)
Lemma generic_row : CAPABILITIES !! "generic" = Some generic_capabilities.
Proof. reflexivity. Qed.

(** Every flavor a URL can name has a row of its own, which names it. *)
Lemma flavor_row url : exists caps,
  CAPABILITIES !! flavor_from_db_url url = Some caps /\ flavor caps = flavor_from_db_url url.
Proof.
  unfold flavor_from_db_url.
  repeat match goal with |- context [if ?c then _ else _] => destruct c end;
    (eexists; split; [reflexivity|reflexivity]).
Qed.
