(* ===== verification/Dialects.v ===== *)
(** * SQL dialects

    [planner/dialects.py]: identifier quoting, casts, projections and the three
    shapes of split query for every supported database, as text.  A method of
    the class hierarchy is a function that matches on the dialect; identifiers
    are plain strings (not SQLAlchemy's [quoted_name]). *)

From S2P Require Import Prelude PyText Sources.
From Stdlib Require Import Ascii.

Inductive dialect :=
| Generic | SQLite | Postgres | MSSQL | Oracle | Databricks | Redshift | Teradata | Impala.

#[global] Instance dialect_eq_dec : EqDecision dialect.
Proof. solve_decision. Defined.

Definition dialect_name (d : dialect) : string :=
  match d with
  | Generic => "generic" | SQLite => "sqlite" | Postgres => "postgresql" | MSSQL => "mssql"
  | Oracle => "oracle" | Databricks => "databricks" | Redshift => "redshift"
  | Teradata => "teradata" | Impala => "impala"
  end.

Definition int_cast_type (d : dialect) : string :=
  match d with
  | Generic | SQLite => "INTEGER"
  | Oracle => "NUMBER(19)"
  | _ => "BIGINT"
  end.

Definition double_quote : ascii := "034".
Definition quote_open (d : dialect) : ascii :=
  match d with MSSQL => "[" | Databricks | Impala => "`" | _ => double_quote end.
Definition quote_close (d : dialect) : ascii :=
  match d with MSSQL => "]" | Databricks | Impala => "`" | _ => double_quote end.

(** [s.replace(c, c * 2)] *)
Fixpoint double_char (c : ascii) (s : string) : string :=
  match s with
  | EmptyString => ""
  | String a s' => if Ascii.eqb a c then String a (String a (double_char c s')) else String a (double_char c s')
  end.

(** [s.replace(c * 2, c)] *)
Fixpoint undouble_char (c : ascii) (s : string) : string :=
  match s with
  | EmptyString => ""
  | String a s' =>
      match s' with
      | String b s'' =>
          if Ascii.eqb a c && Ascii.eqb b c then String a (undouble_char c s'') else String a (undouble_char c s')
      | EmptyString => String a ""
      end
  end.

(** [Dialect.quote] *)
Definition base_quote (d : dialect) (ident : string) : string :=
  String (quote_open d) (double_char (quote_close d) ident +:+ String (quote_close d) "").

(** [s.islower()] *)
Definition islower (s : string) : bool :=
  negb (str_forallb (fun a => negb (is_alnum a) || match digit_value a with Some _ => true | None => false end) s)
  && String.eqb (lower s) s.

(** The name [OracleDialect.quote] quotes: an explicitly quoted one keeps its
    case, a lower-case one is the catalog's upper-case one. *)
Definition oracle_name (ident : string) : string :=
  let q := String double_quote "" in
  if (2 <=? Z.of_nat (String.length ident)) && startswith ident q && endswith ident q
  then undouble_char double_quote (str_take (String.length ident - 2) (str_drop 1 ident))
  else if islower ident then upper ident else ident.

Definition quote (d : dialect) (ident : string) : string :=
  match d with Oracle => base_quote d (oracle_name ident) | _ => base_quote d ident end.

Definition quote_qualified (d : dialect) (name : string) : string :=
  join "." (map (quote d) (split_on "." name)).

Definition cast_int (d : dialect) (expr : string) : string :=
  fmt ["CAST("; expr; " AS "; int_cast_type d; ")"].

(** [range_parameter] *)
Definition oracle_range_parameter (name : string) (key_type : option string) : string :=
  match key_type with
  | Some "date" => fmt ["TO_DATE(:"; name; ", 'YYYY-MM-DD')"]
  | Some "timestamp" => fmt ["TO_TIMESTAMP(:"; name; ", 'YYYY-MM-DD HH24:MI:SS.FF6')"]
  | Some "timestamptz" => fmt ["TO_TIMESTAMP_TZ(:"; name; ", 'YYYY-MM-DD HH24:MI:SS.FF6 TZH:TZM')"]
  | _ => ":" +:+ name
  end.
Definition range_parameter (d : dialect) (name : string) (key_type : option string) : string :=
  match d with Oracle => oracle_range_parameter name key_type | _ => ":" +:+ name end.

(** ** Projections: the expression, the output reference and the bind values *)

Definition projection : Type := string * string * list (string * string).

(** [Dialect.render_projection] *)
Definition plain_projection (d : dialect) (c : column_def) : res projection :=
  let source := quote d (source_name c) in
  let output := quote d (cd_name c) in
  match cd_transform c with
  | Some t =>
      Err (ValueError (fmt ["Dialect "; quoted (dialect_name d); " does not support column transform ";
                            quoted (ct_kind t)]))
  | None =>
      Ok (if String.eqb (source_name c) (cd_name c) then source else fmt [source; " AS "; output], output, [])
  end.

Definition key_param (prefix : string) : string := "fsp_token_key_" +:+ prefix.
Definition domain_param (prefix : string) : string := "fsp_token_domain_" +:+ prefix.

(** The normalised text of a value: the cast, trimmed and lowered on demand. *)
Definition normalized_value (cast trim_open trim_close low : string) (t : column_transform) : string :=
  let value := cast in
  let value := if bool_decide (ct_normalization t ∈ ["trim"; "trim_lower"])
               then fmt [trim_open; value; trim_close] else value in
  if String.eqb (ct_normalization t) "trim_lower" then fmt [low; "("; value; ")"] else value.

(** The shape the native [render_projection] methods share: a random token, a
    keyed hash, or what the method does with any other transform. *)
Definition native_projection (cfg : source_config) (c : column_def) (t : column_transform)
  (random hash : string) (source output prefix : string) (otherwise : res projection) : res projection :=
  if String.eqb (ct_kind t) "random_token" then
    Ok (fmt ["CASE WHEN "; source; " IS NULL THEN NULL "; "ELSE "; random; " END AS "; output], output, [])
  else if String.eqb (ct_kind t) "deterministic_hash" then
    key ← resolve_tokenization_key cfg (or_empty (ct_key_ref t));
    Ok (hash, output,
        [(key_param prefix, key); (domain_param prefix, str_or (or_empty (ct_domain t)) (cd_name c))])
  else otherwise.

Definition postgres_render_projection (cfg : source_config) (c : column_def) (prefix : string) : res projection :=
  match cd_transform c with
  | None => plain_projection Postgres c
  | Some t =>
      let source := quote Postgres (source_name c) in
      let output := quote Postgres (cd_name c) in
      let value := normalized_value (fmt ["CAST("; source; " AS text)"]) "BTRIM(" ")" "LOWER" t in
      native_projection cfg c t "CAST(gen_random_uuid() AS text)"
        (fmt ["CASE WHEN "; source; " IS NULL THEN NULL "; "ELSE UPPER(ENCODE(DIGEST(";
              "CAST(:"; key_param prefix; " AS text) || '|' || "; "CAST(:"; domain_param prefix; " AS text) || '|' || ";
              value; ", "; "'sha256'), 'hex')) END AS "; output])
        source output prefix (plain_projection Postgres c)
  end.

Definition mssql_render_projection (cfg : source_config) (c : column_def) (prefix : string) : res projection :=
  match cd_transform c with
  | None => plain_projection MSSQL c
  | Some t =>
      let source := quote MSSQL (source_name c) in
      let output := quote MSSQL (cd_name c) in
      let value := normalized_value (fmt ["CONVERT(nvarchar(max), "; source; ")"]) "LTRIM(RTRIM(" "))" "LOWER" t in
      native_projection cfg c t "CONVERT(varchar(36), NEWID())"
        (fmt ["CASE WHEN "; source; " IS NULL THEN NULL "; "ELSE CONVERT(varchar(64), HASHBYTES('SHA2_256', ";
              "CONCAT(CONVERT(nvarchar(max), :"; key_param prefix; "), N'|', "; "CONVERT(nvarchar(max), :";
              domain_param prefix; "), N'|', "; value; ")), 2) "; "END AS "; output])
        source output prefix (plain_projection MSSQL c)
  end.

(** Oracle quotes the output name as it is, and renders a column whose transform
    it does not know as a plain one. *)
Definition oracle_render_projection (cfg : source_config) (c : column_def) (prefix : string) : res projection :=
  let source := quote Oracle (source_name c) in
  let output := base_quote Oracle (cd_name c) in
  let plain := Ok (if String.eqb source output then source else fmt [source; " AS "; output], output, []) in
  match cd_transform c with
  | None => plain
  | Some t =>
      let value := normalized_value (fmt ["CAST("; source; " AS VARCHAR2(4000))"]) "TRIM(" ")" "LOWER" t in
      native_projection cfg c t "RAWTOHEX(SYS_GUID())"
        (fmt ["CASE WHEN "; source; " IS NULL THEN NULL "; "ELSE RAWTOHEX(STANDARD_HASH(";
              "CAST(:"; key_param prefix; " AS VARCHAR2(4000)) || '|' || "; "CAST(:"; domain_param prefix;
              " AS VARCHAR2(4000)) || '|' || "; value; ", "; "'SHA256')) END AS "; output])
        source output prefix plain
  end.

Definition databricks_render_projection (cfg : source_config) (c : column_def) (prefix : string) : res projection :=
  match cd_transform c with
  | None => plain_projection Databricks c
  | Some t =>
      let source := quote Databricks (source_name c) in
      let output := quote Databricks (cd_name c) in
      let value := normalized_value (fmt ["CAST("; source; " AS STRING)"]) "trim(" ")" "lower" t in
      native_projection cfg c t "uuid()"
        (fmt ["CASE WHEN "; source; " IS NULL THEN NULL "; "ELSE upper(sha2(concat(";
              "CAST(:"; key_param prefix; " AS STRING), '|', "; "CAST(:"; domain_param prefix; " AS STRING), '|', ";
              value; "), 256)) "; "END AS "; output])
        source output prefix (plain_projection Databricks c)
  end.

Definition render_projection (cfg : source_config) (d : dialect) (c : column_def) (prefix : string)
  : res projection :=
  match d with
  | Postgres => postgres_render_projection cfg c prefix
  | MSSQL => mssql_render_projection cfg c prefix
  | Oracle => oracle_render_projection cfg c prefix
  | Databricks => databricks_render_projection cfg c prefix
  | _ => plain_projection d c
  end.

(** ** The three query shapes *)

Section modulo.
Context (d : dialect) (projected source pk num_splits_param split_index_param max_rows_param : string).

Definition base_build_select : string :=
  fmt ["SELECT "; projected; " FROM "; source; " WHERE ";
       "("; cast_int d pk; " % :"; num_splits_param; ") = :"; split_index_param; " ORDER BY "; pk;
       " LIMIT :"; max_rows_param].

Definition mssql_build_select : string :=
  fmt ["SELECT TOP (:"; max_rows_param; ") "; projected; " FROM "; source; " WHERE ";
       "("; cast_int d pk; " % :"; num_splits_param; ") = :"; split_index_param; " ORDER BY "; pk].

Definition oracle_build_select : string :=
  fmt ["SELECT "; projected; " FROM "; source; " WHERE ";
       "(MOD("; cast_int d pk; ", :"; num_splits_param; ")) = :"; split_index_param; " ORDER BY "; pk;
       " FETCH FIRST :"; max_rows_param; " ROWS ONLY"].

Definition teradata_build_select : string :=
  fmt ["SELECT "; projected; " FROM "; source; " WHERE ";
       "("; cast_int d pk; " MOD :"; num_splits_param; ") = :"; split_index_param;
       " QUALIFY ROW_NUMBER() OVER (ORDER BY "; pk; ") <= :"; max_rows_param; " ORDER BY "; pk].

Definition build_select : string :=
  match d with
  | MSSQL => mssql_build_select
  | Oracle => oracle_build_select
  | Teradata => teradata_build_select
  | _ => base_build_select
  end.
End modulo.

Section range.
Context (d : dialect) (projected source pk key_lo_param key_hi_param max_rows_param : string) (key_type : option string).

Definition base_build_select_range : string :=
  let predicate := fmt [pk; " >= :"; key_lo_param; " AND "; pk; " < :"; key_hi_param] in
  fmt ["SELECT "; projected; " FROM "; source; " WHERE "; predicate; " ORDER BY "; pk; " LIMIT :"; max_rows_param].

Definition mssql_build_select_range : string :=
  let predicate := fmt [pk; " >= :"; key_lo_param; " AND "; pk; " < :"; key_hi_param] in
  fmt ["SELECT TOP (:"; max_rows_param; ") "; projected; " FROM "; source; " WHERE "; predicate; " ORDER BY "; pk].

Definition oracle_build_select_range : string :=
  let predicate := fmt [pk; " >= "; range_parameter d key_lo_param key_type; " AND "; pk; " < ";
                        range_parameter d key_hi_param key_type] in
  fmt ["SELECT "; projected; " FROM "; source; " WHERE "; predicate; " ORDER BY "; pk;
       " FETCH FIRST :"; max_rows_param; " ROWS ONLY"].

Definition databricks_build_select_range : string :=
  let predicate := fmt [pk; " >= :"; key_lo_param; " AND "; pk; " < :"; key_hi_param] in
  fmt ["SELECT "; projected; " FROM "; source; " WHERE "; predicate; " ORDER BY "; pk; " LIMIT :"; max_rows_param].

Definition teradata_build_select_range : string :=
  let predicate := fmt [pk; " >= :"; key_lo_param; " AND "; pk; " < :"; key_hi_param] in
  fmt ["SELECT "; projected; " FROM "; source; " WHERE "; predicate;
       " QUALIFY ROW_NUMBER() OVER (ORDER BY "; pk; ") <= :"; max_rows_param; " ORDER BY "; pk].

Definition build_select_range : string :=
  match d with
  | MSSQL => mssql_build_select_range
  | Oracle => oracle_build_select_range
  | Databricks => databricks_build_select_range
  | Teradata => teradata_build_select_range
  | _ => base_build_select_range
  end.
End range.

Section row_number.
Context (d : dialect) (projected : string) (outer_projected : option string).
Context (source order_by num_splits_param split_index_param max_rows_param : string).

Definition numbered_rows : string :=
  fmt ["SELECT "; projected; ", "; "ROW_NUMBER() OVER (ORDER BY "; order_by; ") AS "; quote d "__row_num";
       " FROM "; source].
Definition outer_columns : string := str_or (or_empty outer_projected) projected.

Definition base_build_select_row_number : string :=
  let rownum := quote d "__row_num" in
  fmt ["SELECT "; outer_columns; " FROM ("; numbered_rows; ") AS q "; "WHERE ";
       "(("; rownum; " - 1) % :"; num_splits_param; ") = :"; split_index_param;
       " ORDER BY "; rownum; " LIMIT :"; max_rows_param].

Definition mssql_build_select_row_number : string :=
  let rownum := quote d "__row_num" in
  fmt ["SELECT TOP (:"; max_rows_param; ") "; outer_columns; " FROM ("; numbered_rows; ") AS q "; "WHERE ";
       "((q."; rownum; " - 1) % :"; num_splits_param; ") = :"; split_index_param; " ORDER BY q."; rownum].

Definition oracle_build_select_row_number : string :=
  let rownum := quote d "__row_num" in
  fmt ["SELECT "; outer_columns; " FROM ("; numbered_rows; ") q "; "WHERE ";
       "(MOD((q."; rownum; " - 1), :"; num_splits_param; ")) = :"; split_index_param;
       " ORDER BY q."; rownum; " FETCH FIRST :"; max_rows_param; " ROWS ONLY"].

Definition teradata_build_select_row_number : string :=
  let rownum := quote d "__row_num" in
  fmt ["SELECT "; outer_columns; " FROM ("; numbered_rows; ") AS q "; "WHERE ";
       "((q."; rownum; " - 1) MOD :"; num_splits_param; ") = :"; split_index_param;
       " QUALIFY ROW_NUMBER() OVER (ORDER BY q."; rownum; ") <= :"; max_rows_param; " ORDER BY q."; rownum].

Definition build_select_row_number : string :=
  match d with
  | MSSQL => mssql_build_select_row_number
  | Oracle => oracle_build_select_row_number
  | Teradata => teradata_build_select_row_number
  | _ => base_build_select_row_number
  end.
End row_number.

Definition get_dialect (db_url : string) : dialect :=
  let scheme := url_scheme db_url in
  if str_contains "mssql" scheme then MSSQL
  else if str_contains "redshift" scheme then Redshift
  else if str_contains "postgres" scheme then Postgres
  else if str_contains "oracle" scheme then Oracle
  else if str_contains "databricks" scheme then Databricks
  else if str_contains "teradata" scheme then Teradata
  else if str_contains "impala" scheme then Impala
  else if str_contains "sqlite" scheme then SQLite
  else Generic.

(** * Theorems *)

#[local] Arguments String.append !_ _ /.

(** ** The dialects and the capability matrix agree *)

Definition flavor_of (d : dialect) : flavor_capabilities :=
  default generic_capabilities (CAPABILITIES !! dialect_name d).

(** The two classifications test the same names; only [mssql] comes in another
    place. *)
Lemma dialect_name_flavor url :
  str_contains "mssql" (url_scheme url) = false \/
  (str_contains "redshift" (url_scheme url) = false /\ str_contains "postgres" (url_scheme url) = false) ->
  dialect_name (get_dialect url) = flavor_from_db_url url.
Proof.
  unfold get_dialect, flavor_from_db_url. cbv zeta.
  destruct (str_contains "mssql" _), (str_contains "redshift" _), (str_contains "postgres" _);
    intros [?|[??]]; try done; by repeat case_match.
Qed.

Lemma capabilities_of_dialect url :
  str_contains "mssql" (url_scheme url) = false \/
  (str_contains "redshift" (url_scheme url) = false /\ str_contains "postgres" (url_scheme url) = false) ->
  capabilities_for_db_url url = flavor_of (get_dialect url).
Proof. intros Hu. unfold capabilities_for_db_url, flavor_of. by rewrite dialect_name_flavor. Qed.

Lemma transform_kinds kind key_ref domain normalization t :
  make_transform kind key_ref domain normalization = Ok t ->
  (ct_kind t = "deterministic_hash" /\ truthy_opt (ct_key_ref t) = true) \/ ct_kind t = "random_token".
Proof.
  unfold make_transform. case_bool_decide as Hk; [|done]. case_bool_decide; [|done]. cbn [negb].
  destruct (truthy_opt key_ref) eqn:Hr; rewrite ?andb_false_r, ?andb_true_r; cbn [negb];
    repeat (case_match; try done); intros [= <-]; cbn [ct_kind ct_key_ref]; try (rewrite Hr);
    unfold COLUMN_TRANSFORM_KINDS in Hk; set_unfold in Hk; naive_solver.
Qed.

(** The dialects that render transforms themselves. *)
Definition native (d : dialect) : bool :=
  match d with Postgres | MSSQL | Oracle | Databricks => true | _ => false end.

Lemma backend_native d kind :
  tokenization_backend (flavor_of d) kind TOKENIZATION_NONE = TOKENIZATION_NATIVE <-> native d = true.
Proof. unfold tokenization_backend. destruct (String.eqb kind _), d; vm_compute; split; congruence. Qed.

Lemma render_native cfg d c t prefix :
  native d = true -> cd_transform c = Some t ->
  exists random hash output otherwise, render_projection cfg d c prefix =
    native_projection cfg c t random hash (quote d (source_name c)) output prefix otherwise.
Proof.
  intros Hn Ht. destruct d; try done; cbn [render_projection];
    unfold postgres_render_projection, mssql_render_projection, oracle_render_projection, databricks_render_projection;
    rewrite Ht; by eexists _, _, _, _.
Qed.

Lemma render_not_native cfg d c t prefix :
  native d = false -> cd_transform c = Some t -> ~ is_Ok (render_projection cfg d c prefix).
Proof.
  intros Hn Ht. destruct d; try done; cbn [render_projection]; unfold plain_projection; rewrite Ht; by intros [r ?].
Qed.

(** The capability matrix and the query generator agree, so a column that is
    to be tokenized is never sent as plain text by mistake.  For a URL that does
    not name two families at once, the dialect of the queries is the flavor of
    the matrix, and a valid transform is rendered natively exactly when the
    matrix says the database computes that kind of token (and, for a hash, its
    key is configured); otherwise rendering raises. *)
Theorem tokenization_matrix_faithful cfg url c kind key_ref domain normalization t prefix :
  str_contains "mssql" (url_scheme url) = false \/
  (str_contains "redshift" (url_scheme url) = false /\ str_contains "postgres" (url_scheme url) = false) ->
  make_transform kind key_ref domain normalization = Ok t ->
  let d := get_dialect url in
  flavor (capabilities_for_db_url url) = dialect_name d /\
  (is_Ok (render_projection cfg d (with_transform (Some t) c) prefix) <->
     tokenization_backend (capabilities_for_db_url url) (ct_kind t) TOKENIZATION_NONE = TOKENIZATION_NATIVE /\
     (ct_kind t = "deterministic_hash" -> is_Ok (resolve_tokenization_key cfg (or_empty (ct_key_ref t))))).
Proof.
  intros Hu Ht d. rewrite (capabilities_of_dialect url Hu). fold d. clearbody d.
  split; [by destruct d|]. rewrite backend_native. set (c' := with_transform (Some t) c).
  destruct (native d) eqn:Hn; [|split; [|naive_solver]].
  2: { intros Hok. by destruct (render_not_native cfg d c' t prefix Hn eq_refl). }
  destruct (render_native cfg d c' t prefix Hn eq_refl) as (random & hash & output & otherwise & ->).
  unfold native_projection. destruct (transform_kinds _ _ _ _ _ Ht) as [[Hk _]|Hk]; rewrite Hk.
  - destruct (resolve_tokenization_key cfg (or_empty (ct_key_ref t))) as [v|e]; cbn.
    + split; [intros _; split; [done|by exists v]|by eexists].
    + split; [by intros [r ?]|]. intros [_ Hkey]. by destruct (Hkey eq_refl).
  - split; [intros _; split; done|by eexists].
Qed.

Definition plain_config : source_config :=
  SourceConfig "sqlite:///db" 1000 ∅ 8 "modulo" "span" 100000 0 0 1 256 0 true "none"
    (fun _ => None) true (fun k => if String.eqb k "k1" then Some "secret" else None).

Definition email_column : column_def := ColumnDef 1 "email" "string" true None None None.

Lemma tokenization_matrix_faithful_witness :
  is_Ok (render_projection plain_config (get_dialect "postgresql://h/db")
    (with_transform (Some (ColumnTransform "deterministic_hash" (Some "k1") None "trim")) email_column) "0").
Proof.
  apply (tokenization_matrix_faithful plain_config "postgresql://h/db" email_column
    "deterministic_hash" (Some "k1") None "trim" (ColumnTransform "deterministic_hash" (Some "k1") None "trim") "0").
  - left. reflexivity.
  - vm_compute. reflexivity.
  - split; [vm_compute; reflexivity|]. intros _. eexists. vm_compute. reflexivity.
Defined.
