(* ===== verification/Floats.v ===== *)
(** * Binary64 arithmetic

    The floating-point operations of Python's [float] the planner uses, on the
    dyadic numbers they produce: a finite value is [m * 2^e], and every
    operation rounds its exact result to 53 significant bits, ties to even.
    Magnitudes stay far from overflow and from the subnormal range, which are
    not represented. *)

From S2P Require Import Prelude.

Record float := Float { mantissa : Z; exponent : Z }.

(** The integer nearest to [num / den], ties to even ([den > 0]). *)
Definition round_half_even (num den : Z) : Z :=
  let q := num / den in
  match (2 * (num mod den)) ?= den with
  | Lt => q
  | Gt => q + 1
  | Eq => if Z.even q then q else q + 1
  end.

Definition pow2 (e : Z) : Z := 2 ^ Z.max 0 e.

(** [a / b * 2^-e] as a fraction *)
Definition scaled (a b e : Z) : Z * Z := (a * pow2 (- e), b * pow2 e).

(** The exponent that gives [a / b] ([a, b > 0]) 53 bits before the point. *)
Definition fraction_exponent (a b : Z) : Z :=
  let l := Z.log2 a - Z.log2 b in
  let '(num, den) := scaled a b l in
  if den <=? num then l - 52 else l - 53.

(** The rounded quotient of two integers, [b > 0]. *)
Definition fquot (a b : Z) : float :=
  if a =? 0 then Float 0 0
  else
    let e := fraction_exponent (Z.abs a) b in
    let '(num, den) := scaled (Z.abs a) b e in
    Float (Z.sgn a * round_half_even num den) e.

(** [a / b] for two Python integers, [float(n)], [f * n], [f + n] *)
Definition int_truediv (a b : Z) : float := if 0 <? b then fquot a b else fquot (- a) (- b).
Definition float_of_int (n : Z) : float := fquot n 1.
Definition fmul_int (f : float) (n : Z) : float :=
  let '(num, den) := scaled (mantissa f * n) 1 (- exponent f) in fquot num den.
Definition fadd (f g : float) : float :=
  let e := Z.min (exponent f) (exponent g) in
  let s := mantissa f * 2 ^ (exponent f - e) + mantissa g * 2 ^ (exponent g - e) in
  let '(num, den) := scaled s 1 (- e) in fquot num den.

(** [f >= g] *)
Definition fgeb (f g : float) : bool :=
  let e := Z.min (exponent f) (exponent g) in
  mantissa g * 2 ^ (exponent g - e) <=? mantissa f * 2 ^ (exponent f - e).

(** [int(f)] truncates, [math.ceil(f)] rounds up. *)
Definition ftrunc (f : float) : Z :=
  let '(num, den) := scaled (mantissa f) 1 (- exponent f) in Z.quot num den.
Definition fceil (f : float) : Z :=
  let '(num, den) := scaled (mantissa f) 1 (- exponent f) in - ((- num) / den).

(** The microseconds [datetime.fromtimestamp] keeps of a number of seconds: the
    fraction times a million, rounded to an integer. *)
Definition fmicros (f : float) : Z :=
  let '(num, den) := scaled (mantissa f) 1 (- exponent f) in
  let whole := Z.quot num den in
  let frac := fmul_int (fquot (Z.rem num den) den) 1000000 in
  let '(fnum, fden) := scaled (mantissa frac) 1 (- exponent frac) in
  whole * 1000000 + round_half_even fnum fden.

(** ** Small quotients round up as exact ones do *)

(** [math.ceil(a / b)] in exact arithmetic *)
Definition ceil_div (a b : Z) : Z := - ((- a) / b).

Lemma ceil_div_spec a b k : 0 < b -> (k - 1) * b < a <= k * b -> ceil_div a b = k.
Proof. intros Hb [H1 H2]. unfold ceil_div. rewrite <- (Z.div_unique (- a) b (- k) (k * b - a)); lia. Qed.

Lemma ceil_div_bounds a b : 0 < b -> (ceil_div a b - 1) * b < a <= ceil_div a b * b.
Proof.
  intros Hb. unfold ceil_div. pose proof (Z.div_mod (- a) b). pose proof (Z.mod_pos_bound (- a) b Hb). nia.
Qed.

Lemma round_half_even_mono_le num den k : 0 < den -> num <= k * den -> round_half_even num den <= k.
Proof.
  intros Hd Hk. unfold round_half_even. pose proof (Z.div_mod num den ltac:(lia)) as Hm.
  pose proof (Z.mod_pos_bound num den Hd). destruct (Z.compare_spec (2 * (num mod den)) den);
    [destruct (Z.even _)|..]; nia.
Qed.

Lemma round_half_even_gt num den k : 0 < den -> (2 * k + 1) * den < 2 * num -> k < round_half_even num den.
Proof.
  intros Hd Hk. unfold round_half_even. pose proof (Z.div_mod num den ltac:(lia)) as Hm.
  pose proof (Z.mod_pos_bound num den Hd). destruct (Z.compare_spec (2 * (num mod den)) den);
    [destruct (Z.even _)|..]; nia.
Qed.

Lemma pow2_pos e : 0 < pow2 e.
Proof. unfold pow2. apply Z.pow_pos_nonneg; lia. Qed.

Lemma pow2_nonpos e : e <= 0 -> pow2 e = 1.
Proof. intros. unfold pow2. by rewrite Z.max_l by lia. Qed.

(** [a / b] is at least half of [2^l] for the difference [l] of the bit lengths. *)
Lemma log2_quotient a b l :
  0 < a -> 0 < b -> l = Z.log2 a - Z.log2 b -> b * pow2 l <= 2 * (a * pow2 (- l)).
Proof.
  intros Ha Hb Hl. pose proof (Z.log2_spec a Ha) as [La _]. pose proof (Z.log2_spec b Hb) as [_ Ub].
  pose proof (Z.log2_nonneg a). pose proof (Z.log2_nonneg b). unfold pow2.
  assert (E : 2 ^ Z.succ (Z.log2 b) * 2 ^ Z.max 0 l = 2 * (2 ^ Z.log2 a * 2 ^ Z.max 0 (- l))).
  { rewrite (Z.pow_succ_r 2 (Z.log2 b)) by lia. rewrite <- Z.mul_assoc, <- !Z.pow_add_r by lia.
    do 2 f_equal. lia. }
  pose proof (Z.pow_pos_nonneg 2 (Z.max 0 l)). pose proof (Z.pow_pos_nonneg 2 (Z.max 0 (- l))). nia.
Qed.

(** Moving the point by [k] bits. *)
Lemma scaled_shift a b c l k :
  0 < a -> 0 < b -> 0 < c -> 0 <= k -> b * pow2 l <= c * (a * pow2 (- l)) ->
  2 ^ k * (b * pow2 (l - k)) <= c * (a * pow2 (- (l - k))).
Proof.
  intros Ha Hb Hc Hk Hle.
  assert (E : pow2 (- (l - k)) * pow2 l = 2 ^ k * pow2 (- l) * pow2 (l - k)).
  { unfold pow2. rewrite <- !Z.pow_add_r by lia. f_equal. lia. }
  pose proof (pow2_pos l). pose proof (pow2_pos (l - k)). pose proof (Z.pow_pos_nonneg 2 k).
  apply (Zmult_le_reg_r _ _ (pow2 l)); [lia|].
  replace (c * (a * pow2 (- (l - k))) * pow2 l) with (c * a * (pow2 (- (l - k)) * pow2 l)) by ring.
  rewrite E. replace (2 ^ k * (b * pow2 (l - k)) * pow2 l) with (b * pow2 l * (2 ^ k * pow2 (l - k))) by ring.
  replace (c * a * (2 ^ k * pow2 (- l) * pow2 (l - k)))
    with (c * (a * pow2 (- l)) * (2 ^ k * pow2 (l - k))) by ring.
  apply Z.mul_le_mono_nonneg_r; nia.
Qed.

(** With the chosen exponent the quotient has at least 53 bits. *)
Lemma fraction_exponent_large a b e :
  0 < a -> 0 < b -> e = fraction_exponent a b -> 2 ^ 52 * (b * pow2 e) <= a * pow2 (- e).
Proof.
  intros Ha Hb ->. unfold fraction_exponent, scaled. set (l := Z.log2 a - Z.log2 b).
  destruct (Z.leb_spec (b * pow2 l) (a * pow2 (- l))).
  - pose proof (scaled_shift a b 1 l 52). lia.
  - pose proof (scaled_shift a b 2 l 53 Ha Hb ltac:(lia) ltac:(lia) (log2_quotient a b l Ha Hb eq_refl)).
    change (2 ^ 53) with (2 * 2 ^ 52) in *. lia.
Qed.

(** The rounding of a quotient below [2^53] does not cross an integer. *)
Lemma fceil_truediv a b : 0 < a < 2 ^ 53 -> 0 < b -> fceil (int_truediv a b) = ceil_div a b.
Proof.
  intros [Ha Hmax] Hb. unfold int_truediv, fquot. rewrite (proj2 (Z.ltb_lt 0 b)) by lia.
  destruct (Z.eqb_spec a 0); [lia|]. rewrite Z.abs_eq, Z.sgn_pos by lia. unfold fceil, scaled. cbn [mantissa exponent].
  pose proof (fraction_exponent_large a b _ Ha Hb eq_refl) as Hbig. set (e := fraction_exponent a b) in *.
  assert (He : e <= 0).
  { destruct (Z.le_gt_cases e 0); [done|]. rewrite (pow2_nonpos (- e)) in Hbig by lia.
    assert (2 <= pow2 e); [|nia]. unfold pow2. rewrite Z.max_r by lia.
    replace 2 with (2 ^ 1) at 1 by lia. apply Z.pow_le_mono_r; lia. }
  rewrite Z.opp_involutive, (pow2_nonpos e He) in *. pose proof (pow2_pos (- e)).
  set (s := pow2 (- e)) in *. fold (ceil_div (1 * round_half_even (a * s) (b * 1) * 1) (1 * s)).
  rewrite !Z.mul_1_l, !Z.mul_1_r in *. pose proof (ceil_div_bounds a b Hb) as [Hlo Hhi].
  apply ceil_div_spec; [done|]. split.
  - apply round_half_even_gt; [done|]. nia.
  - apply round_half_even_mono_le; [done|]. nia.
Qed.
