(* ===== verification/Snapshots.v ===== *)
(** * Live snapshots

    [iceberg/state_store.py]: the object paths of a table, the deterministic
    snapshot built for it, and the registry of current and retained snapshots.
    A Python [dict] is an association list in insertion order, because lookups
    iterate over it.  Parsing a database URL is SQLAlchemy's: [url_parts] gives
    the host, the database and the [odbc_connect] parameter of a URL, or
    nothing when it is malformed. *)

From S2P Require Import Prelude PyText Sha256 Json Sources.
From Stdlib Require Import Ascii.

(** ** Splits and snapshots *)

Inductive key_value :=
| KInt (z : Z)
| KDate (ordinal : Z)
| KStamp (wall : Z) (offset : option Z)
| KText (s : string).

#[global] Instance key_value_eq_dec : EqDecision key_value.
Proof. solve_decision. Defined.

(** [iceberg/stats.py]: the statistics of a column in one data file *)
Record column_stats := ColumnStats {
  cst_field_id : Z;
  cst_column_size : Z;
  cst_value_count : Z;
  cst_null_count : Z;
  cst_lower : option string;
  cst_upper : option string;
}.
#[global] Instance column_stats_eq_dec : EqDecision column_stats.
Proof. solve_decision. Defined.

Record split_descriptor := SplitDescriptor {
  sd_split_index : Z;
  sd_num_splits : Z;
  sd_object_key : string;
  sd_watermark_ms : Z;
  sd_table : table_def;
  sd_record_count : option Z;
  sd_file_size_in_bytes : option Z;
  sd_content_hash : option string;
  sd_s3_etag : option string;
  sd_stats : option (gmap Z column_stats);
  sd_split_key_column : option string;
  sd_key_lo : option key_value;
  sd_key_hi : option key_value;
  sd_canonical_object_key : option string;
}.

Record snapshot_state := SnapshotState {
  ss_snapshot_id : Z;
  ss_sequence_number : Z;
  ss_watermark_ms : Z;
  ss_manifest_list_key : string;
  ss_manifest_file_key : string;
  ss_metadata_key : string;
  ss_version_hint_key : string;
  ss_table : table_def;
  ss_table_path : string;
  ss_legacy_table_path : string;
  ss_splits : list split_descriptor;
  ss_version : Z;
  ss_uuid : string;
  ss_total_records : option Z;
  ss_metadata_bytes : option string;
  ss_manifest_list_bytes : option string;
  ss_manifest_file_bytes : option string;
}.

(** [_snapshots] and [_history] *)
Record registry := Registry {
  rg_snapshots : list (string * snapshot_state);
  rg_history : list (string * list snapshot_state);
}.

(** ** Object paths *)

Definition is_path_char (a : ascii) : bool :=
  is_alnum a || Ascii.eqb a "." || Ascii.eqb a "_" || Ascii.eqb a "-".

(** [re.sub(r"[^A-Za-z0-9._-]+", "_", v)]; [run] says that the character before
    was replaced. *)
Fixpoint sub_unsafe (run : bool) (s : string) : string :=
  match s with
  | EmptyString => ""
  | String a s' =>
      if is_path_char a then String a (sub_unsafe false s')
      else if run then sub_unsafe true s' else String "_" (sub_unsafe true s')
  end.

(** [_safe_segment] *)
Definition safe_segment (s : option string) (fallback : string) : string :=
  let v := strip (or_empty s) in
  let v := if truthy_str v then v else fallback in
  str_or (sub_unsafe false v) fallback.

(** [s.rpartition(c)[2]]: the part after the last [c] *)
Fixpoint rpartition_tail (c : ascii) (s : string) : string :=
  match s with
  | EmptyString => ""
  | String a s' =>
      match partition c s' with
      | Some _ => rpartition_tail c s'
      | None => if Ascii.eqb a c then s' else s
      end
  end.

(** [_split_source_table] *)
Definition split_source_table (source_table : string) : string * string :=
  if str_contains "." source_table
  then (str_or (rpartition_head "." source_table) "default", str_or (rpartition_tail "." source_table) "table")
  else ("default", str_or source_table "table").

(** [unquote_plus] *)
Definition hex_value (a : ascii) : option N :=
  let n := N_of_ascii a in
  if N.leb 48 n && N.leb n 57 then Some (n - 48)%N
  else if N.leb 97 n && N.leb n 102 then Some (n - 87)%N
  else if N.leb 65 n && N.leb n 70 then Some (n - 55)%N
  else None.

Fixpoint unquote (s : string) : string :=
  match s with
  | EmptyString => ""
  | String a s' =>
      match s' with
      | String h (String l s'') =>
          match Ascii.eqb a "%", hex_value h, hex_value l with
          | true, Some x, Some y => String (ascii_of_N (16 * x + y)) (unquote s'')
          | _, _, _ => String a (unquote s')
          end
      | _ => String a (unquote s')
      end
  end.
Definition unquote_plus (s : string) : string := unquote (replace_char "+" " " s).

(** The [key=value] items of an ODBC connection string, later ones winning. *)
Definition odbc_parts (value : string) : gmap string string :=
  foldl (fun parts item =>
    match partition "=" item with
    | Some (key, raw) => <[lower (strip key) := strip_braces (strip raw)]> parts
    | None => parts
    end) ∅ (split_on ";" (unquote_plus value)).

(** [parts.get(k1) or parts.get(k2) or ...]: the last one when none is truthy *)
Fixpoint first_truthy (parts : gmap string string) (ks : list string) : option string :=
  match ks with
  | [] => None
  | [k] => parts !! k
  | k :: ks => if truthy_opt (parts !! k) then parts !! k else first_truthy parts ks
  end.

(** [_odbc_connect_identity] *)
Definition odbc_connect_identity (value : option string) : option string * option string :=
  if negb (truthy_opt value) then (None, None)
  else
    let parts := odbc_parts (or_empty value) in
    let server := first_truthy parts ["server"; "addr"; "address"] in
    let database := first_truthy parts ["database"; "initial catalog"] in
    let server := match server with
                  | Some s => if truthy_str s && startswith (lower s) "tcp:" then Some (str_drop 4 s) else Some s
                  | None => None
                  end in
    let server := match server with
                  | Some s => if truthy_str s && str_contains "," s then Some (before "," s) else Some s
                  | None => None
                  end in
    (server, database).

(** The settings the module reads, and the URL parser of SQLAlchemy. *)
Record serving_config := ServingConfig {
  sv_sources : source_config;
  OBJECT_PATH_LAYOUT : string;
  ENABLE_LEGACY_PATH_ALIASES : bool;
  SNAPSHOT_HISTORY_LIMIT : Z;
  DB_SOURCE_TABLE : string;
  TABLE_SCHEMA : list column_def;
  url_parts : string -> option (option string * option string * option string);
}.

Definition opt_or (a b : option string) : option string := if truthy_opt a then a else b.

Section snapshots.
Context (cfg : serving_config).

(** [_connection_identity] *)
Definition connection_identity (t : table_def) : string * string :=
  match url_parts cfg (effective_db_url (sv_sources cfg) (td_connection_id t)) with
  | None => ("local", "default")
  | Some (host, database, odbc) =>
      let '(odbc_server, odbc_database) := odbc_connect_identity odbc in
      (safe_segment (opt_or host odbc_server) "local", safe_segment (opt_or database odbc_database) "default")
  end.

Definition legacy_table_path (t : table_def) (warehouse_prefix : string) : string :=
  fmt [warehouse_prefix; "/"; safe_segment (Some (td_name t)) "table"].

Definition canonical_table_path (t : table_def) (warehouse_prefix : string) : string :=
  let '(server, database) := connection_identity t in
  let '(schema, obj) := split_source_table (td_source_table t) in
  fmt [warehouse_prefix; "/"; safe_segment (Some server) "local"; "/"; safe_segment (Some database) "default";
       "/"; safe_segment (Some schema) "default"; "/"; safe_segment (Some obj) "table"].

Definition active_table_path (t : table_def) (warehouse_prefix : string) : string :=
  if String.eqb (OBJECT_PATH_LAYOUT cfg) "canonical" then canonical_table_path t warehouse_prefix
  else legacy_table_path t warehouse_prefix.

(** ** The registry *)

Definition get_all_snapshots (r : registry) : list snapshot_state :=
  match rg_history r with
  | [] => map snd (rg_snapshots r)
  | _ => concat (map snd (rg_history r))
  end.

(** [key == root or key.startswith(root + "/")] *)
Definition under (root key : string) : bool := String.eqb key root || startswith key (root +:+ "/").

Definition alias_to_active_key (r : registry) (key : string) : string :=
  if negb (String.eqb (OBJECT_PATH_LAYOUT cfg) "canonical" && ENABLE_LEGACY_PATH_ALIASES cfg) then key
  else match list_find (fun s => under (ss_legacy_table_path s) key = true) (get_all_snapshots r) with
       | Some (_, s) => ss_table_path s +:+ str_drop (String.length (ss_legacy_table_path s)) key
       | None => key
       end.

Definition active_to_legacy_key (s : snapshot_state) (key : string) : string :=
  if under (ss_table_path s) key
  then ss_legacy_table_path s +:+ str_drop (String.length (ss_table_path s)) key
  else key.

(** [int(s, 16)] of hexadecimal digits *)
Definition hex_int (s : string) : Z :=
  Z.of_N (foldl (fun n a => (16 * n + default 0 (hex_value a))%N) 0%N (String.list_ascii_of_string s)).

(** The identifiers derived from a seed: id, uuid. *)
Definition seed_id (digest : string) : Z := hex_int (str_take 15 digest).
Definition seed_uuid (digest : string) : string := str_take 32 digest.

Definition snapshot_seed (t : table_def) (bucket table_path : string) : string :=
  fmt [bucket; "/"; table_path; "|source="; td_source_table t; "|key="; or_empty (td_key_column t);
       "|splits="; pretty (td_num_splits t); "|strategy="; effective_split_strategy (sv_sources cfg) t;
       "|target="; pretty (effective_split_target_rows (sv_sources cfg) t)].

(** [range(n)] *)
Definition zrange (n : Z) : list Z := map Z.of_nat (seq 0 (Z.to_nat n)).

Definition new_split (t : table_def) (table_path : string) (snap_id now_ms : Z) (i : Z) : split_descriptor :=
  SplitDescriptor i (td_num_splits t)
    (fmt [table_path; "/data/split-"; pretty i; "-"; pretty snap_id; ".parquet"]) now_ms t
    None None None None None None None None None.

(** The snapshot [build_table_snapshot] makes. *)
Definition table_snapshot (t : table_def) (bucket warehouse_prefix : string) : snapshot_state :=
  let table_path := active_table_path t warehouse_prefix in
  let digest := sha256_hex (snapshot_seed t bucket table_path) in
  let snap_id := seed_id digest in
  let snap_uuid := seed_uuid digest in
  let now_ms := 1700000000000 + hex_int (str_take 10 (str_drop 15 digest)) mod 86400000 in
  SnapshotState snap_id 1 now_ms
    (fmt [table_path; "/metadata/snap-"; pretty snap_id; "-1-"; snap_uuid; ".avro"])
    (fmt [table_path; "/metadata/"; snap_uuid; "-m0.avro"])
    (fmt [table_path; "/metadata/v1.metadata.json"])
    (fmt [table_path; "/metadata/version-hint.text"])
    t table_path (legacy_table_path t warehouse_prefix)
    (map (new_split t table_path snap_id now_ms) (zrange (td_num_splits t)))
    1 "" None None None None.

Definition build_table_snapshot (t : table_def) (bucket warehouse_prefix : string) : M registry snapshot_state :=
  let snap := table_snapshot t bucket warehouse_prefix in
  modify (fun r => Registry (odict_set (td_name t) snap (rg_snapshots r))
                            (odict_set (td_name t) [snap] (rg_history r)));;
  mret snap.

(** The next version of a snapshot. *)
Definition next_version (cur : snapshot_state) (bucket : string) : snapshot_state :=
  let table_path := ss_table_path cur in
  let version := ss_version cur + 1 in
  let digest := sha256_hex (fmt [bucket; "/"; table_path; "/v"; pretty version]) in
  let snap_id := seed_id digest in
  let snap_uuid := seed_uuid digest in
  let seq := ss_sequence_number cur + 1 in
  SnapshotState snap_id seq (ss_watermark_ms cur + 1000 * version)
    (fmt [table_path; "/metadata/snap-"; pretty snap_id; "-"; pretty seq; "-"; snap_uuid; ".avro"])
    (fmt [table_path; "/metadata/"; snap_uuid; "-m"; pretty version; ".avro"])
    (fmt [table_path; "/metadata/v"; pretty version; ".metadata.json"])
    (ss_version_hint_key cur) (ss_table cur) table_path (ss_legacy_table_path cur)
    (ss_splits cur) version "" (ss_total_records cur) None None None.

Definition advance_table_snapshot (table_name bucket : string) : M registry snapshot_state :=
  r ← gets id;
  match odict_get table_name (rg_snapshots r) with
  | None => raise (KeyError table_name)
  | Some cur =>
      let new := next_version cur bucket in
      let name := td_name (ss_table cur) in
      modify (fun r => Registry (odict_set name new (rg_snapshots r))
        (odict_set name (default [cur] (odict_get name (rg_history r)) ++ [new]) (rg_history r)));;
      mret new
  end.

Definition build_all_snapshots (tables : list table_def) (bucket warehouse_prefix : string)
  : M registry (list snapshot_state) :=
  modify (fun _ => Registry [] []);;
  foldM (fun acc t => s ← build_table_snapshot t bucket warehouse_prefix; mret (acc ++ [s])) [] tables.

Definition build_snapshot (table_name : string) (num_splits : Z) (bucket warehouse_prefix : string)
  : M registry snapshot_state :=
  let t := make_table (sv_sources cfg) table_name (DB_SOURCE_TABLE cfg) (TABLE_SCHEMA cfg) (Some num_splits)
             None "default" None None None None None None true in
  modify (fun _ => Registry [] []);;
  build_table_snapshot t bucket warehouse_prefix.

Definition get_snapshot (table_name : option string) : M registry snapshot_state :=
  r ← gets id;
  match table_name with
  | Some n =>
      lift (of_option (RuntimeError (fmt ["No snapshot registered for table "; quoted n; "."]))
              (odict_get n (rg_snapshots r)))
  | None =>
      match rg_snapshots r with
      | [] => raise (RuntimeError "Snapshot not yet initialised. Call build_snapshot() first.")
      | [(_, s)] => mret s
      | _ => raise (RuntimeError "Multiple tables registered; specify a table name.")
      end
  end.

Definition get_snapshot_history (table_name : string) (r : registry) : list snapshot_state :=
  default [] (odict_get table_name (rg_history r)).

(** [while len(hist) > limit: pruned.append(hist.pop(0))] *)
Fixpoint prune (limit : nat) (hist : list snapshot_state) : list snapshot_state * list snapshot_state :=
  match hist with
  | [] => ([], [])
  | s :: rest =>
      if (limit <? length hist)%nat then let '(pruned, kept) := prune limit rest in (s :: pruned, kept)
      else ([], hist)
  end.

Definition register_snapshot (snap : snapshot_state) : M registry (list snapshot_state) :=
  let name := td_name (ss_table snap) in
  r ← gets id;
  let hist := default [] (odict_get name (rg_history r)) ++ [snap] in
  let '(pruned, kept) := prune (Z.to_nat (Z.max 1 (SNAPSHOT_HISTORY_LIMIT cfg))) hist in
  modify (fun r => Registry (odict_set name snap (rg_snapshots r)) (odict_set name kept (rg_history r)));;
  mret pruned.

Definition unregister_snapshot (table_name : string) : M registry unit :=
  modify (fun r => Registry (odict_pop table_name (rg_snapshots r)) (odict_pop table_name (rg_history r))).

(** [split.object_key == key or split.canonical_object_key == key] *)
Definition has_key (key : string) (s : split_descriptor) : bool :=
  String.eqb (sd_object_key s) key || bool_decide (sd_canonical_object_key s = Some key).

(** The first split with the key, in the order of the snapshots given. *)
Definition find_split (key : string) (snaps : list snapshot_state) : option split_descriptor :=
  snd <$> list_find (fun s => has_key key s = true) (concat (map ss_splits snaps)).

Definition get_split_by_key (object_key : string) (r : registry) : option split_descriptor :=
  let key := alias_to_active_key r object_key in
  match find_split key (map snd (rg_snapshots r)) with
  | Some s => Some s
  | None => find_split key (concat (map snd (rg_history r)))
  end.
End snapshots.

(** * Theorems *)

(** ** The registry invariant *)

(** A table's history ends with its current snapshot. *)
Definition current_of (name : string) (cur : snapshot_state) (hist : list snapshot_state) : Prop :=
  td_name (ss_table cur) = name /\ last hist = Some cur.

Definition registry_ok (r : registry) : Prop := paired current_of (rg_snapshots r) (rg_history r).

Inductive registry_op :=
| BuildTable (t : table_def) (bucket prefix : string)
| Advance (name bucket : string)
| BuildAll (ts : list table_def) (bucket prefix : string)
| BuildOne (name : string) (splits : Z) (bucket prefix : string)
| Register (s : snapshot_state)
| Unregister (name : string).

Section registry.
Context (cfg : serving_config).

Definition run_registry (o : registry_op) : M registry unit :=
  match o with
  | BuildTable t b p => build_table_snapshot cfg t b p;; mret tt
  | Advance n b => advance_table_snapshot n b;; mret tt
  | BuildAll ts b p => build_all_snapshots cfg ts b p;; mret tt
  | BuildOne n k b p => build_snapshot cfg n k b p;; mret tt
  | Register s => register_snapshot cfg s;; mret tt
  | Unregister n => unregister_snapshot n
  end.

Definition run_registries (ops : list registry_op) (r : registry) : registry :=
  foldl (fun r o => (run_registry o r).2) r ops.

(** What the prune loop keeps: the newest [limit] versions. *)
Lemma prune_spec limit : forall hist,
  let '(pruned, kept) := prune limit hist in
  hist = pruned ++ kept /\ (length kept <= limit)%nat /\ (pruned <> [] -> length kept = limit).
Proof.
  induction hist as [|s hist IH]; [cbn; split_and!; [done|lia|done]|]. cbn [prune].
  destruct (Nat.ltb_spec limit (length (s :: hist))) as [Hlt|Hge].
  - destruct (prune limit hist) as [pruned kept]. destruct IH as (-> & Hlen & Hp). cbn in Hlt.
    split_and!; [done|done|]. intros _. destruct pruned; [|by apply Hp]. cbn in Hlt. lia.
  - split_and!; [done|done|done].
Qed.

Lemma last_suffix {A} (l k : list A) x : last (l ++ k) = Some x -> k <> [] -> last k = Some x.
Proof. intros H Hk. destruct k as [|y k]; [done|]. by rewrite last_app_cons in H. Qed.

Lemma prune_last limit hist s pruned kept :
  (0 < limit)%nat -> last hist = Some s -> prune limit hist = (pruned, kept) -> last kept = Some s.
Proof.
  intros Hl Hs Hp. pose proof (prune_spec limit hist) as H. rewrite Hp in H. destruct H as (-> & _ & Hk).
  apply (last_suffix pruned); [done|]. intros ->. destruct pruned; [done|].
  assert (length (@nil snapshot_state) = limit) by (by apply Hk). cbn in *. lia.
Qed.

Lemma register_run s r : exists pruned kept,
  prune (Z.to_nat (Z.max 1 (SNAPSHOT_HISTORY_LIMIT cfg)))
    (default [] (odict_get (td_name (ss_table s)) (rg_history r)) ++ [s]) = (pruned, kept) /\
  last kept = Some s /\
  register_snapshot cfg s r = (Ok pruned,
    Registry (odict_set (td_name (ss_table s)) s (rg_snapshots r))
             (odict_set (td_name (ss_table s)) kept (rg_history r))).
Proof.
  unfold register_snapshot, mbind, M_bind, gets. cbn [id].
  destruct (prune _ _) as [pruned kept] eqn:Hp. exists pruned, kept. split_and!; [done| |done].
  eapply prune_last; [|apply last_snoc|exact Hp]. lia.
Qed.

Lemma build_table_ok t b p r : registry_ok r -> registry_ok (build_table_snapshot cfg t b p r).2.
Proof. intros Hr. by apply paired_set. Qed.

Lemma build_tables_ok ts b p : forall acc r, registry_ok r ->
  registry_ok (foldM (fun acc t => s ← build_table_snapshot cfg t b p; mret (acc ++ [s])) acc ts r).2.
Proof. induction ts as [|t ts IH]; intros acc r Hr; [done|]. apply IH. by apply build_table_ok. Qed.

Lemma empty_ok : registry_ok (Registry [] []).
Proof. constructor. Qed.

Lemma advance_ok n b r : registry_ok r -> registry_ok (advance_table_snapshot n b r).2.
Proof.
  intros Hr. unfold advance_table_snapshot, mbind, M_bind, gets. cbn [id].
  destruct (odict_get n (rg_snapshots r)) as [cur|] eqn:Hc; [|done].
  apply paired_set; [done|]. split; [done|]. apply last_snoc.
Qed.

Lemma run_registry_ok o r : registry_ok r -> registry_ok (run_registry o r).2.
Proof.
  intros Hr. destruct o as [t b p|n b|ts b p|n k b p|s|n]; cbn [run_registry].
  - by apply (build_table_ok t b p).
  - pose proof (advance_ok n b r Hr) as H. unfold mbind, M_bind. by destruct (advance_table_snapshot n b r) as [[|] ?].
  - pose proof (build_tables_ok ts b p [] (Registry [] []) empty_ok) as H.
    unfold build_all_snapshots, mbind, M_bind, modify in *. by destruct (foldM _ [] ts _) as [[|] ?].
  - apply (build_table_ok _ b p). apply empty_ok.
  - destruct (register_run s r) as (pruned & kept & _ & Hl & Hrun).
    unfold mbind, M_bind. rewrite Hrun. by apply paired_set.
  - by apply paired_pop.
Qed.

Lemma run_registries_ok ops r : registry_ok r -> registry_ok (run_registries ops r).
Proof. revert r. induction ops as [|o ops IH]; intros r Hr; [done|]. apply IH. by apply run_registry_ok. Qed.

Lemma find_split_spec key snaps :
  match find_split key snaps with
  | Some s => has_key key s = true /\ exists snap, snap ∈ snaps /\ s ∈ ss_splits snap
  | None => forall snap s, snap ∈ snaps -> s ∈ ss_splits snap -> has_key key s = false
  end.
Proof.
  unfold find_split. destruct (list_find _ _) as [[i s]|] eqn:Hf; cbn [fmap option_fmap option_map].
  - apply list_find_Some in Hf as (Hi & Hk & _). split; [done|].
    apply list_elem_of_lookup_2, list_elem_of_In, in_concat in Hi as (l & Hl & Hs).
    apply in_map_iff in Hl as (snap & <- & Hsnap). exists snap. split; by apply list_elem_of_In.
  - apply list_find_None in Hf. intros snap s Hsnap Hs. apply not_true_is_false.
    rewrite Forall_forall in Hf. apply Hf. apply list_elem_of_In, in_concat.
    exists (ss_splits snap). split; [|by apply list_elem_of_In]. apply in_map_iff.
    exists snap. split; [done|]. by apply list_elem_of_In.
Qed.

(** The current snapshots are among the retained ones. *)
Lemma current_retained r snap :
  registry_ok r -> snap ∈ map snd (rg_snapshots r) -> snap ∈ concat (map snd (rg_history r)).
Proof.
  intros Hr Hin. apply list_elem_of_In, in_map_iff in Hin as ([k s] & <- & Hin). cbn [snd].
  apply list_elem_of_In in Hin. destruct (paired_In_l _ _ _ _ _ Hr Hin) as (hist & Hh & _ & Hl).
  apply list_elem_of_In, in_concat. exists hist. split.
  - apply in_map_iff. exists (k, hist). split; [done|]. by apply list_elem_of_In.
  - apply list_elem_of_In. apply last_Some in Hl as [l ->]. apply elem_of_app. right. by left.
Qed.

Lemma all_snapshots_history r : registry_ok r -> get_all_snapshots r = concat (map snd (rg_history r)).
Proof. unfold registry_ok, get_all_snapshots. by destruct 1. Qed.

(** Every retained split stays addressable.  After any sequence of builds,
    advances, registrations and removals, the current snapshot of each table is
    the newest of its history, and a data-file key resolves exactly when some
    split of some retained version, current or older, carries it (after the
    legacy alias is translated); the split found carries the key. *)
Theorem retained_splits_found ops key :
  let r := run_registries ops (Registry [] []) in
  (forall name cur, odict_get name (rg_snapshots r) = Some cur ->
     last (get_snapshot_history name r) = Some cur) /\
  match get_split_by_key cfg key r with
  | Some s => has_key (alias_to_active_key cfg r key) s = true /\
              exists snap, snap ∈ get_all_snapshots r /\ s ∈ ss_splits snap
  | None => forall snap s, snap ∈ get_all_snapshots r -> s ∈ ss_splits snap ->
              has_key (alias_to_active_key cfg r key) s = false
  end.
Proof.
  intros r. assert (Hr : registry_ok r) by (apply run_registries_ok, empty_ok). split.
  - intros name cur Hc. unfold get_snapshot_history.
    destruct (paired_get _ _ _ name Hr) as [[Hn _]|(v & w & Hv & -> & _ & Hl)]; [congruence|].
    rewrite Hv in Hc. by injection Hc as <-.
  - rewrite (all_snapshots_history r Hr). unfold get_split_by_key. cbv zeta.
    set (k := alias_to_active_key cfg r key).
    pose proof (find_split_spec k (map snd (rg_snapshots r))) as Hcur.
    destruct (find_split k (map snd (rg_snapshots r))) as [s|].
    + destruct Hcur as [Hk (snap & Hin & Hs)]. split; [done|]. exists snap. split; [|done].
      by apply current_retained.
    + apply find_split_spec.
Qed.

(** Registering a version keeps the history bounded: the new snapshot is the
    current one and the newest of at most [SNAPSHOT_HISTORY_LIMIT] versions, the
    versions handed back for eviction are exactly the oldest ones that no longer
    fit, and other tables are untouched. *)
Theorem register_bounds_history ops s :
  let r := run_registries ops (Registry [] []) in
  let name := td_name (ss_table s) in
  exists pruned r', register_snapshot cfg s r = (Ok pruned, r') /\
    get_snapshot_history name r ++ [s] = pruned ++ get_snapshot_history name r' /\
    Z.of_nat (length (get_snapshot_history name r')) <= Z.max 1 (SNAPSHOT_HISTORY_LIMIT cfg) /\
    (pruned <> [] -> Z.of_nat (length (get_snapshot_history name r')) = Z.max 1 (SNAPSHOT_HISTORY_LIMIT cfg)) /\
    last (get_snapshot_history name r') = Some s /\ odict_get name (rg_snapshots r') = Some s /\
    (forall other, other <> name ->
       get_snapshot_history other r' = get_snapshot_history other r /\
       odict_get other (rg_snapshots r') = odict_get other (rg_snapshots r)).
Proof.
  intros r name. destruct (register_run s r) as (pruned & kept & Hp & Hl & Hrun).
  pose proof (prune_spec (Z.to_nat (Z.max 1 (SNAPSHOT_HISTORY_LIMIT cfg)))
    (default [] (odict_get name (rg_history r)) ++ [s])) as H. unfold name in *. rewrite Hp in H.
  destruct H as (Happ & Hlen & Hfull). eexists pruned, _. split; [exact Hrun|].
  unfold get_snapshot_history. cbn [rg_history rg_snapshots]. rewrite odict_get_set_eq.
  change (default [] (Some kept)) with kept.
  split_and!; [done|lia|intros Hne; specialize (Hfull Hne); lia|done|apply odict_get_set_eq|].
  intros other Ho. by rewrite !odict_get_set_ne.
Qed.
End registry.

(** ** Instances *)

Definition demo_serving : serving_config :=
  ServingConfig
    (SourceConfig "postgresql://h/db" 1000 ∅ 2 "modulo" "span" 100000 0 0 1 256 0 true "none" (fun _ => None) false (fun _ => None))
    "canonical" true 2 "sales" [] (fun _ => Some (Some "h", Some "db", None)).

Definition demo_table (name source : string) : table_def :=
  make_table (sv_sources demo_serving) name source [] None None "" None None None None None None true.

(** Tables of different source names can share one canonical path: every run of
    other characters becomes one underscore. *)
Example canonical_paths_collide :
  canonical_table_path demo_serving (demo_table "a" "dbo.order lines") "wh"
  = canonical_table_path demo_serving (demo_table "b" "dbo.order_lines") "wh".
Proof. vm_compute. reflexivity. Qed.

Example legacy_alias_resolves :
  let r := run_registries demo_serving [BuildTable (demo_table "orders" "dbo.orders") "bkt" "wh"] (Registry [] []) in
  alias_to_active_key demo_serving r "wh/orders/metadata/v1.metadata.json"
  = "wh/h/db/dbo/orders/metadata/v1.metadata.json".
Proof. vm_compute. reflexivity. Qed.

Example built_split_resolves :
  let r := run_registries demo_serving [BuildTable (demo_table "orders" "dbo.orders") "bkt" "wh"] (Registry [] []) in
  (sd_split_index <$> (get_split_by_key demo_serving
     (default "" (sd_object_key <$> (ss_splits (table_snapshot demo_serving (demo_table "orders" "dbo.orders") "bkt" "wh")
        !! 1%nat))) r)) = Some 1.
Proof. vm_compute. reflexivity. Qed.
