(* ===== verification/SplitPlanner.v ===== *)
(** * Split planning

    [planner/split_planner.py]: the choice of the split key, the number of
    splits, equal-span and equal-count key ranges, the assignment of ranges to a
    snapshot's splits, and the query of one split.  The source database answers
    through a [read_session], the interface of [db/read_points.py], which is a
    parameter.  ISO text bounds are not parsed. *)

From S2P Require Import Prelude PyText Sources Dialects Floats Snapshots.
From Stdlib Require Import Ascii.

Definition INTEGER_TYPES : list string := ["int"; "long"].
Definition TEMPORAL_TYPES : list string := ["date"; "timestamp"; "timestamptz"].

Definition in_types (t : option string) (types : list string) : bool :=
  match t with Some t => bool_decide (t ∈ types) | None => false end.

(** What planning asks of the source. *)
Record read_session := ReadSession {
  fetch_table_row_count : string -> res (option Z);
  fetch_key_bounds : string -> string -> res (option (Z * Z));
  fetch_column_bounds : string -> string -> res (option (key_value * key_value));
  fetch_key_histogram_bounds : string -> string -> Z -> res (option (list key_value * key_value));
  fetch_key_quantile_bounds : string -> string -> Z -> Z -> bool -> res (option (list key_value * key_value));
}.

Section keys.
Context (cfg : source_config).

Definition table_caps (t : table_def) : flavor_capabilities :=
  capabilities_for_db_url (effective_db_url cfg (td_connection_id t)).

(** [key in {column.name, column.source_name}] *)
Definition names_column (key : string) (c : column_def) : bool :=
  String.eqb key (cd_name c) || String.eqb key (source_name c).

(** [_require_explicit_split_key] *)
Definition require_explicit_split_key (t : table_def) : res (option string) :=
  let caps := table_caps t in
  if negb (requires_explicit_split_key caps) then Ok None
  else
    let key := strip (or_empty (td_key_column t)) in
    if negb (truthy_str key) then
      Err (ValueError (fmt ["Dialect "; quoted (flavor caps);
        " requires an explicit key_column; primary-key reflection is unavailable."]))
    else if negb (bool_decide (td_schema t = [])) && negb (existsb (names_column key) (td_schema t)) then
      Err (ValueError (fmt ["Explicit key_column "; quoted key;
        " is not present in the reflected source columns."]))
    else Ok (Some key).

(** [_pk_column] *)
Definition pk_column (t : table_def) : res string :=
  _ ← require_explicit_split_key t;
  if truthy_opt (td_key_column t) then Ok (or_empty (td_key_column t))
  else match list_find (fun c => cd_nullable c = false /\ cd_iceberg_type c ∈ ["int"; "long"]) (td_schema t) with
       | Some (_, c) => Ok (cd_name c)
       | None =>
           match td_schema t with
           | c :: _ => Ok (cd_name c)
           | [] => Err (Unmodelled "IndexError: list index out of range")
           end
       end.

(** [_column_type]; [casefold] on ASCII names is [lower] *)
Definition column_type (t : table_def) (column_name : string) : option string :=
  cd_iceberg_type ∘ snd <$> list_find (fun c =>
    lower column_name = lower (cd_name c) \/ lower column_name = lower (source_name c)) (td_schema t).

(** [_first_column_of_type] *)
Definition first_column_of_type (t : table_def) (allowed : list string) : option string :=
  cd_name ∘ snd <$> list_find (fun c => cd_iceberg_type c ∈ allowed) (td_schema t).

(** [_choose_strategy_key] *)
Definition choose_strategy_key (t : table_def) (strategy : string) : res string :=
  explicit_key ← require_explicit_split_key t;
  if truthy_opt explicit_key then Ok (or_empty explicit_key)
  else if truthy_opt (td_key_column t) then Ok (or_empty (td_key_column t))
  else
    let integer := if bool_decide (strategy ∈ ["range"; "auto"])
                   then first_column_of_type t INTEGER_TYPES else None in
    if truthy_opt integer then Ok (or_empty integer)
    else
      let temporal := if bool_decide (strategy ∈ ["date"; "auto"])
                      then first_column_of_type t TEMPORAL_TYPES else None in
      if truthy_opt temporal then Ok (or_empty temporal) else pk_column t.
End keys.

(** ** Ranges *)

Definition compute_key_ranges (lo hi n : Z) : list (Z * Z) :=
  let n := Z.max 1 n in
  if hi <? lo then (lo, lo + 1) :: replicate (Z.to_nat (n - 1)) (lo + 1, lo + 1)
  else
    let span := hi - lo + 1 in
    let bound i := if i =? 0 then lo else if i =? n then hi + 1 else lo + (span * i) / n in
    map (fun i => (bound i, bound (i + 1))) (zrange n).

(** Temporal values: a date is its ordinal, a timestamp its microseconds since
    1970 on its own wall clock with its offset from UTC when it has one. *)

Definition day_us : Z := 86400000000.
Definition epoch_ordinal : Z := 719163.
Definition max_ordinal : Z := 3652059.

(** [value.date()] *)
Definition stamp_date (wall : Z) : Z := wall / day_us + epoch_ordinal.

(** [_coerce_temporal] *)
Definition coerce_temporal (v : key_value) (kind : string) : res key_value :=
  if String.eqb kind "date" then
    match v with
    | KDate o => Ok (KDate o)
    | KStamp wall _ => Ok (KDate (stamp_date wall))
    | KText _ => Err (Unmodelled "date.fromisoformat")
    | KInt _ => Err (TypeError "unsupported date bound type")
    end
  else
    match v with
    | KStamp wall off => Ok (KStamp wall off)
    | KDate o => Ok (KStamp ((o - epoch_ordinal) * day_us) (Some 0))
    | KText _ => Err (Unmodelled "datetime.fromisoformat")
    | KInt _ => Err (TypeError "unsupported datetime bound type")
    end.

(** [int(dt.timestamp() * 1_000_000)] of a UTC time of [us] microseconds *)
Definition stamp_tick (us : Z) : Z := ftrunc (fmul_int (int_truediv us 1000000) 1000000).

(** [_to_tick] of a coerced value *)
Definition to_tick (v : key_value) : Z :=
  match v with
  | KDate o => o
  | KStamp wall off => stamp_tick (wall - default 0 off)
  | KInt z => z
  | KText _ => 0
  end.

(** [_from_tick]; dates and times beyond the calendar raise *)
Definition from_tick (tick : Z) (kind : string) (timezone_aware : bool) : res key_value :=
  if String.eqb kind "date" then
    if (1 <=? tick) && (tick <=? max_ordinal) then Ok (KDate tick)
    else Err (ValueError "ordinal must be in 1..3652059")
  else
    let us := fmicros (int_truediv tick 1000000) in
    if (1 <=? stamp_date us) && (stamp_date us <=? max_ordinal)
    then Ok (KStamp us (if timezone_aware then Some 0 else None))
    else Err (ValueError "year is out of range").

Definition has_timezone (v : key_value) : bool :=
  match v with KStamp _ (Some _) => true | _ => false end.

Definition compute_temporal_ranges (lo hi : key_value) (n : Z) (kind : string)
  : res (list (key_value * key_value)) :=
  lo_v ← coerce_temporal lo kind;
  hi_v ← coerce_temporal hi kind;
  let ranges := compute_key_ranges (to_tick lo_v) (to_tick hi_v) n in
  let aware := String.eqb kind "date" || has_timezone lo_v || has_timezone hi_v in
  res_map (fun r => a ← from_tick r.1 kind aware; b ← from_tick r.2 kind aware; Ok (a, b)) ranges.

Definition temporal_kind (key_type : string) : string :=
  if String.eqb key_type "date" then "date" else "timestamp".

(** [int(value)] of a key *)
Definition int_of_key (v : key_value) : res Z :=
  match v with
  | KInt z => Ok z
  | KText s => of_option (ValueError "invalid literal for int()") (int_of_string s)
  | _ => Err (TypeError "int() argument must be a string or a number")
  end.

(** [_range_upper] *)
Definition range_upper (hi : key_value) (key_type : string) : res key_value :=
  if bool_decide (key_type ∈ INTEGER_TYPES) then z ← int_of_key hi; Ok (KInt (z + 1))
  else
    let kind := temporal_kind key_type in
    v ← coerce_temporal hi kind;
    from_tick (to_tick v + 1) kind (String.eqb kind "date" || has_timezone v).

(** [_coerce_key] *)
Definition coerce_key (v : key_value) (key_type : string) : res key_value :=
  if bool_decide (key_type ∈ INTEGER_TYPES) then z ← int_of_key v; Ok (KInt z)
  else coerce_temporal v (temporal_kind key_type).

(** ** Equal-count boundaries *)

(** The [while] loop: how far [k] moves at a step, with [fuel] the quantiles left. *)
Fixpoint take_quantiles (fuel : nat) (high : key_value) (cum : float) (total n k : Z)
  : list key_value * Z :=
  match fuel with
  | O => ([], k)
  | S fuel =>
      if (k <? n) && fgeb cum (int_truediv (k * total) n)
      then let '(ms, k) := take_quantiles fuel high cum total n (k + 1) in (high :: ms, k)
      else ([], k)
  end.

Fixpoint scan_steps (steps : list (key_value * Z)) (cum : float) (total n k : Z) : list key_value :=
  match steps with
  | [] => []
  | (high, rows) :: steps =>
      let '(ms, k) := take_quantiles (Z.to_nat (n - k)) high cum total n k in
      ms ++ scan_steps steps (fadd cum (float_of_int (Z.max 0 rows))) total n k
  end.

Definition mins_from_histogram_steps (steps : list (key_value * Z)) (n : Z) : option (list key_value) :=
  match steps, last steps with
  | first :: _, Some final =>
      if n <? 1 then None
      else
        let total := foldl (fun t s => t + Z.max 0 s.2) 0 steps in
        if total <=? 0 then None
        else
          let mins := first.1 :: scan_steps steps (Float 0 0) total n 1 in
          let padded := mins ++ replicate (Z.to_nat n - length mins) final.1 in
          Some (take (Z.to_nat n) padded)
  | _, _ => None
  end.

Definition mins_from_equidepth (bounds : list key_value) (n : Z) : option (list key_value) :=
  let b := Z.of_nat (length bounds) in
  if (n <? 1) || (b <? 2) then None
  else Some (omap (fun i => bounds !! Z.to_nat ((i * (b - 1)) / n)) (zrange n)).

(** The ranges between consecutive minimums, the last up to [upper]. *)
Fixpoint ranges_from_mins (mins : list key_value) (upper : key_value) : list (key_value * key_value) :=
  match mins with
  | [] => []
  | [lo] => [(lo, upper)]
  | lo :: ((hi :: _) as rest) => (lo, hi) :: ranges_from_mins rest upper
  end.

(** [while len(ranges) < n: ranges.append((upper, upper))], then [ranges[:n]] *)
Definition pad_ranges (ranges : list (key_value * key_value)) (upper : key_value) (n : Z)
  : list (key_value * key_value) :=
  take (Z.to_nat n) (ranges ++ replicate (Z.to_nat n - length ranges) (upper, upper)).

Section planning.
Context (cfg : source_config) (session : read_session).

(** [try: ... except Exception: ... = None] around a read of the source *)
Definition or_none {A} (r : res (option A)) : option A := match r with Ok o => o | Err _ => None end.

(** The quantile query, when the histogram gave nothing. *)
Definition quantile_bounds (t : table_def) (key key_type : string) (n : Z)
  : option (list key_value * key_value) :=
  or_none (fetch_key_quantile_bounds session (td_source_table t) key n
             (effective_split_sample_rows cfg t) (bool_decide (key_type ∈ INTEGER_TYPES))).

(** The bucket minimums and the maximum: the optimizer's histogram when there is
    one, else the quantile query. *)
Definition key_statistics (t : table_def) (key key_type : string) (n : Z)
  : option (list key_value * key_value) :=
  let histogram :=
    if SPLIT_USE_STATS_HISTOGRAM cfg && supports_stats_histogram (table_caps cfg t)
       && bool_decide (key_type ∈ INTEGER_TYPES)
    then or_none (fetch_key_histogram_bounds session (td_source_table t) key n) else None in
  match histogram with Some r => Some r | None => quantile_bounds t key key_type n end.

(** [_balanced_ranges] *)
Definition balanced_ranges (t : table_def) (key : string) (key_type : option string) (n : Z)
  : option (list (key_value * key_value)) :=
  match key_type with
  | None => None
  | Some key_type =>
      if n <? 1 then None
      else
        match key_statistics t key key_type n with
        | None => None
        | Some (raw_mins, raw_max) =>
            match (mins ← res_map (fun m => coerce_key m key_type) raw_mins;
                   upper ← range_upper raw_max key_type; Ok (mins, upper)) with
            | Err _ => None
            | Ok ([], _) => None
            | Ok (mins, upper) => Some (pad_ranges (ranges_from_mins mins upper) upper n)
            end
        end
  end.

Definition compute_split_count (estimated_rows : option Z)
  (target_rows target_bytes estimated_bytes_per_row min_splits max_splits default_splits : Z) : Z :=
  let fallback := Z.max min_splits (Z.min max_splits default_splits) in
  match estimated_rows with
  | None => fallback
  | Some rows =>
      if rows <=? 0 then fallback
      else
        let by_rows := if 0 <? target_rows then [fceil (int_truediv rows target_rows)] else [] in
        let by_bytes := if (0 <? target_bytes) && (0 <? estimated_bytes_per_row)
                        then [fceil (int_truediv (rows * estimated_bytes_per_row) target_bytes)] else [] in
        match by_rows ++ by_bytes with
        | [] => fallback
        | p :: ps => Z.max min_splits (Z.min max_splits (foldl Z.max p ps))
        end
  end.

Definition choose_table_num_splits (t : table_def) : Z :=
  let target_rows := effective_split_target_rows cfg t in
  let target_bytes := effective_split_target_bytes cfg t in
  let per_row := effective_split_estimated_bytes_per_row cfg t in
  if (target_rows <=? 0) && ((target_bytes <=? 0) || (per_row <=? 0)) then td_num_splits t
  else
    match fetch_table_row_count session (td_source_table t) with
    | Err _ => td_num_splits t
    | Ok est =>
        compute_split_count est target_rows target_bytes per_row
          (SPLIT_COUNT_MIN cfg) (SPLIT_COUNT_MAX cfg) (td_num_splits t)
    end.

(** ** Assigning ranges to a snapshot's splits *)

Definition set_key_column (key : string) (s : split_descriptor) : split_descriptor :=
  SplitDescriptor (sd_split_index s) (sd_num_splits s) (sd_object_key s) (sd_watermark_ms s) (sd_table s)
    (sd_record_count s) (sd_file_size_in_bytes s) (sd_content_hash s) (sd_s3_etag s) (sd_stats s)
    (Some key) (sd_key_lo s) (sd_key_hi s) (sd_canonical_object_key s).

Definition set_range (s : split_descriptor) (r : key_value * key_value) : split_descriptor :=
  SplitDescriptor (sd_split_index s) (sd_num_splits s) (sd_object_key s) (sd_watermark_ms s) (sd_table s)
    (sd_record_count s) (sd_file_size_in_bytes s) (sd_content_hash s) (sd_s3_etag s) (sd_stats s)
    (sd_split_key_column s) (Some r.1) (Some r.2) (sd_canonical_object_key s).

(** [for split, (rlo, rhi) in zip(snap.splits, ranges)] *)
Fixpoint assign_ranges (splits : list split_descriptor) (ranges : list (key_value * key_value))
  : list split_descriptor :=
  match splits, ranges with
  | s :: splits, r :: ranges => set_range s r :: assign_ranges splits ranges
  | _, _ => splits
  end.

Definition int_ranges (ranges : list (Z * Z)) : list (key_value * key_value) :=
  map (fun r => (KInt r.1, KInt r.2)) ranges.

(** The last part of [plan_ranges_for_snapshot]: integer spans, then temporal
    spans, on splits that carry the key. *)
Definition plan_spans (t : table_def) (strategy key : string) (key_type : option string)
  (splits : list split_descriptor) : res (bool * list split_descriptor) :=
  let n := Z.of_nat (length splits) in
  let temporal :=
    if bool_decide (strategy ∈ ["date"; "auto"]) && in_types key_type TEMPORAL_TYPES then
      match or_none (fetch_column_bounds session (td_source_table t) key) with
      | Some (lo, hi) =>
          ranges ← compute_temporal_ranges lo hi n (or_empty key_type);
          Ok (true, assign_ranges splits ranges)
      | None => Ok (false, splits)
      end
    else Ok (false, splits) in
  if bool_decide (strategy ∈ ["range"; "auto"]) && in_types key_type INTEGER_TYPES then
    match or_none (fetch_key_bounds session (td_source_table t) key) with
    | Some (lo, hi) => Ok (true, assign_ranges splits (int_ranges (compute_key_ranges lo hi n)))
    | None => if String.eqb strategy "range" then Ok (false, splits) else temporal
    end
  else temporal.

Definition plan_ranges_for_snapshot (t : table_def) (splits : list split_descriptor)
  : res (bool * list split_descriptor) :=
  let strategy := effective_split_strategy cfg t in
  let strategy := if String.eqb strategy "modulo" && (0 <? effective_split_target_rows cfg t)
                  then "range" else strategy in
  if String.eqb strategy "modulo" then Ok (false, splits)
  else
    key ← choose_strategy_key cfg t strategy;
    let key_type := column_type t key in
    let splits := map (set_key_column key) splits in
    let caps := table_caps cfg t in
    if negb (supports_range_key_bounds caps) then Ok (false, splits)
    else
      let balanced :=
        if String.eqb (effective_split_balance cfg t) "count"
           && (supports_ntile caps || supports_stats_histogram caps)
           && in_types key_type (INTEGER_TYPES ++ TEMPORAL_TYPES)
        then balanced_ranges t key key_type (Z.of_nat (length splits)) else None in
      match balanced with
      | Some ranges => Ok (true, assign_ranges splits ranges)
      | None => plan_spans t strategy key key_type splits
      end.
End planning.

(** ** The query of a split *)

(** A bind value of a query. *)
Inductive bind_value := BInt (z : Z) | BKey (v : key_value) | BText (s : string).

(** Calendar dates: the year, month and day of an ordinal (1 is 0001-01-01). *)
Definition civil (ordinal : Z) : Z * Z * Z :=
  let z := ordinal + 305 in
  let era := z / 146097 in
  let doe := z mod 146097 in
  let yoe := (doe - doe / 1460 + doe / 36524 - doe / 146096) / 365 in
  let doy := doe - (365 * yoe + yoe / 4 - yoe / 100) in
  let mp := (5 * doy + 2) / 153 in
  let m := if mp <? 10 then mp + 3 else mp - 9 in
  (yoe + era * 400 + (if m <=? 2 then 1 else 0), m, doy - (153 * mp + 2) / 5 + 1).

(** [f"{n:0{w}d}"] for a nonnegative [n] *)
Definition padded (w : nat) (n : Z) : string := let s := pretty n in zeros (w - String.length s) +:+ s.

(** [value.isoformat()] of a date *)
Definition date_text (ordinal : Z) : string :=
  let '(y, m, d) := civil ordinal in fmt [padded 4 y; "-"; padded 2 m; "-"; padded 2 d].

(** [strftime("%Y-%m-%d %H:%M:%S.%f")] *)
Definition stamp_text (wall : Z) : string :=
  let us := wall mod day_us in
  fmt [date_text (stamp_date wall); " "; padded 2 (us / 3600000000); ":"; padded 2 (us / 60000000 mod 60); ":";
       padded 2 (us / 1000000 mod 60); "."; padded 6 (us mod 1000000)].

(** [serialize_range_bound] *)
Definition serialize_range_bound (d : dialect) (v : key_value) (key_type : option string) : bind_value :=
  match d, key_type, v with
  | Oracle, Some "date", KDate o => BText (date_text o)
  | Oracle, Some "date", KStamp wall _ => BText (date_text (stamp_date wall))
  | Oracle, Some "timestamptz", KStamp wall off => BText (stamp_text (wall - default 0 off) +:+ " +00:00")
  | Oracle, Some "timestamp", KStamp wall _ => BText (stamp_text wall)
  | _, _, _ => BKey v
  end.

Section query.
Context (cfg : source_config).

Definition allow_arrow : string :=
  if String.eqb (TOKENIZATION_FALLBACK cfg) "arrow" then "arrow" else "none".

(** The backend of a column's transform. *)
Definition column_backend (t : table_def) (tr : column_transform) : string :=
  tokenization_backend (table_caps cfg t) (ct_kind tr) allow_arrow.

(** [arrow_fallback_columns] *)
Definition arrow_fallback_columns (t : table_def) : list column_def :=
  map (fun c =>
    match cd_transform c with
    | None => c
    | Some tr =>
        if negb (String.eqb (column_backend t tr) "arrow")
        then with_transform None (with_source (Some (cd_name c)) c)
        else with_source (Some (cd_name c)) c
    end) (td_schema t).

(** [_query_projection_columns] *)
Definition query_projection_columns (t : table_def) : list column_def :=
  map (fun c =>
    match cd_transform c with
    | Some tr => if String.eqb (column_backend t tr) "arrow" then with_transform None c else c
    | None => c
    end) (td_schema t).

Definition render_columns (t : table_def) (d : dialect) : res (list projection) :=
  res_map (fun ic : Z * column_def => render_projection cfg d ic.2 (pretty ic.1))
    (combine (zrange (Z.of_nat (length (td_schema t)))) (query_projection_columns t)).

(** Which rows of the source a split's query selects. *)
Inductive split_predicate :=
| RangePredicate (lo hi : key_value) (key_type : option string)
| RowNumberPredicate
| ModuloPredicate.

Definition choose_predicate (s : split_descriptor) (key_type : option string) : split_predicate :=
  match sd_key_lo s, sd_key_hi s with
  | Some lo, Some hi =>
      RangePredicate lo hi
        (if bool_decide (key_type = Some "timestamptz")
            && match lo with KStamp _ None => true | _ => false end
         then Some "timestamp" else key_type)
  | _, _ => if in_types key_type INTEGER_TYPES then ModuloPredicate else RowNumberPredicate
  end.

(** The column a split's query splits by: [split.split_key_column or _pk_column(table)] *)
Definition split_key_name (s : split_descriptor) : res string :=
  if truthy_opt (sd_split_key_column s) then Ok (or_empty (sd_split_key_column s))
  else pk_column cfg (sd_table s).

Definition build_split_query (s : split_descriptor) : res (string * list (string * bind_value)) :=
  let t := sd_table s in
  let d := get_dialect (effective_db_url cfg (td_connection_id t)) in
  _ ← require_explicit_split_key cfg t;
  key_name ← split_key_name s;
  let caps := table_caps cfg t in
  if requires_explicit_split_key caps && negb (bool_decide (Some key_name = td_key_column t)) then
    Err (ValueError (fmt ["Dialect "; quoted (flavor caps);
      " requires split_key_column to match the explicit table key_column."]))
  else if requires_explicit_split_key caps && negb (bool_decide (td_schema t = []))
          && negb (existsb (names_column key_name) (td_schema t)) then
    Err (ValueError (fmt ["Explicit split key "; quoted key_name;
      " is not present in the reflected source columns."]))
  else
    let key_type := column_type t key_name in
    let pk := quote d key_name in
    if existsb (fun c => match cd_transform c with Some _ => names_column key_name c | None => false end)
         (td_schema t) then
      Err (ValueError (fmt ["Split key "; quoted key_name; " cannot have a column transform"]))
    else
      rendered ← render_columns t d;
      let projected := join ", " (map (fun p : projection => p.1.1) rendered) in
      let outer_projected := join ", " (map (fun p : projection => p.1.2) rendered) in
      let params := concat (map (fun p : projection => map (fun kv => (kv.1, BText kv.2)) p.2) rendered) in
      let source := quote_qualified d (td_source_table t) in
      let max_rows := BInt (effective_max_rows cfg t) in
      let modulo_params := params ++ [("num_splits", BInt (sd_num_splits s));
                                      ("split_index", BInt (sd_split_index s)); ("max_rows", max_rows)] in
      Ok match choose_predicate s key_type with
         | RangePredicate lo hi kt =>
             (build_select_range d projected source pk "key_lo" "key_hi" "max_rows" kt,
              params ++ [("key_lo", serialize_range_bound d lo kt);
                         ("key_hi", serialize_range_bound d hi kt); ("max_rows", max_rows)])
         | RowNumberPredicate =>
             (build_select_row_number d projected (Some outer_projected) source pk
                "num_splits" "split_index" "max_rows", modulo_params)
         | ModuloPredicate =>
             (build_select d projected source pk "num_splits" "split_index" "max_rows", modulo_params)
         end.
End query.

Example oracle_timestamp_bound :
  serialize_range_bound Oracle (KStamp 1102903988066799 (Some 0)) (Some "timestamptz")
  = BText "2004-12-13 02:13:08.066799 +00:00".
Proof. vm_compute. reflexivity. Qed.

Example oracle_date_bound :
  serialize_range_bound Oracle (KDate 719163) (Some "date") = BText "1970-01-01" /\
  serialize_range_bound Oracle (KDate 730179) (Some "date") = BText "2000-02-29" /\
  serialize_range_bound Oracle (KDate max_ordinal) (Some "date") = BText "9999-12-31".
Proof. vm_compute. done. Qed.
