(* ===== verification/SplitPartition.v ===== *)
(** * The splits of a snapshot partition its rows

    Theorems about [SplitPlanner]: the computed ranges tile the key range, the
    planned splits select every row once (with the rows they miss spelled out),
    the errors of date planning, equal-count ranges and histograms, and the
    capacity of the chosen number of splits. *)

From S2P Require Import Prelude PyText Sources Dialects Floats Snapshots SplitPlanner.
From Stdlib Require Import Ascii.

(** ** Consecutive boundaries *)

(** [k] lies in the half-open range [r]. *)
Definition covers (k : Z) (r : Z * Z) : Prop := r.1 <= k < r.2.

Section boundaries.
Context (b : Z -> Z) (n : Z).
Hypothesis n_nonneg : 0 <= n.
Hypothesis b_mono : forall i, 0 <= i < n -> b i <= b (i + 1).

Lemma boundaries_le i j : 0 <= i <= j -> j <= n -> b i <= b j.
Proof.
  intros Hi Hj. replace j with (i + Z.of_nat (Z.to_nat (j - i))) by lia.
  assert (Hd : i + Z.of_nat (Z.to_nat (j - i)) <= n) by lia. revert Hd.
  induction (Z.to_nat (j - i)) as [|d IH]; intros Hd; [rewrite Z.add_0_r; lia|].
  etrans; [apply IH; lia|]. replace (i + Z.of_nat (S d)) with (i + Z.of_nat d + 1) by lia.
  apply b_mono. lia.
Qed.

(** Every point between the first and the last boundary lies in one range only. *)
Lemma boundaries_cover k :
  b 0 <= k < b n -> exists i, 0 <= i < n /\ b i <= k < b (i + 1) /\
    forall j, 0 <= j < n -> b j <= k < b (j + 1) -> j = i.
Proof.
  intros [Hlo Hhi].
  assert (Hex : exists i, 0 <= i < n /\ b i <= k < b (i + 1)).
  { assert (Hall : forall d : nat, Z.of_nat d <= n -> k < b (Z.of_nat d) ->
      exists i, 0 <= i < Z.of_nat d /\ b i <= k < b (i + 1)).
    { induction d as [|d IH]; intros Hd Hk; [change (Z.of_nat 0) with 0 in Hk; lia|].
      destruct (Z.lt_ge_cases k (b (Z.of_nat d))) as [Hlt|Hge].
      - destruct IH as (i & ? & ?); [lia|done|]. exists i. split; [lia|done].
      - exists (Z.of_nat d). split; [lia|]. replace (Z.of_nat d + 1) with (Z.of_nat (S d)) by lia. done. }
    destruct (Hall (Z.to_nat n)) as (i & Hi & Hk); rewrite ?Z2Nat.id by done; [done|done|].
    rewrite Z2Nat.id in Hi by done. by exists i. }
  destruct Hex as (i & Hi & Hk). exists i. split_and!; [lia|lia|lia|lia|].
  intros j Hj Hkj. destruct (Z.lt_trichotomy i j) as [Hij|[->|Hij]]; [|done|].
  - pose proof (boundaries_le (i + 1) j). lia.
  - pose proof (boundaries_le (j + 1) i). lia.
Qed.
End boundaries.

(** ** Equal-span ranges *)

Lemma zrange_lookup n i : 0 <= i < n -> zrange n !! Z.to_nat i = Some i.
Proof.
  intros Hi. unfold zrange. rewrite list_lookup_fmap, lookup_seq_lt by lia. cbn. f_equal. lia.
Qed.

Lemma zrange_length n : length (zrange n) = Z.to_nat n.
Proof. unfold zrange. by rewrite length_map, length_seq. Qed.

Lemma zrange_lookup_inv n j x : zrange n !! j = Some x -> x = Z.of_nat j /\ 0 <= x < n.
Proof.
  unfold zrange. rewrite list_lookup_fmap. intros (y & [-> Hy]%lookup_seq & ->)%fmap_Some. lia.
Qed.

(** The boundary before range [i]. *)
Definition span_bound (lo hi n i : Z) : Z :=
  if i =? 0 then lo else if i =? n then hi + 1 else lo + ((hi - lo + 1) * i) / n.

Lemma span_bound_exact lo hi n i : 0 < n -> 0 <= i <= n -> span_bound lo hi n i = lo + ((hi - lo + 1) * i) / n.
Proof.
  intros Hn Hi. unfold span_bound. destruct (Z.eqb_spec i 0) as [->|].
  { rewrite Z.mul_0_r, Z.div_0_l by lia. lia. }
  destruct (Z.eqb_spec i n) as [->|]; [|done]. rewrite Z.div_mul by lia. lia.
Qed.

Lemma compute_key_ranges_lookup lo hi n i :
  lo <= hi -> 0 <= i < Z.max 1 n ->
  compute_key_ranges lo hi n !! Z.to_nat i =
    Some (span_bound lo hi (Z.max 1 n) i, span_bound lo hi (Z.max 1 n) (i + 1)).
Proof.
  intros Hle Hi. unfold compute_key_ranges. cbv zeta. destruct (Z.ltb_spec hi lo); [lia|].
  rewrite list_lookup_fmap, zrange_lookup by lia. done.
Qed.

Lemma compute_key_ranges_length lo hi n : length (compute_key_ranges lo hi n) = Z.to_nat (Z.max 1 n).
Proof.
  unfold compute_key_ranges. cbv zeta. destruct (hi <? lo); cbn [length].
  - rewrite length_replicate. lia.
  - by rewrite length_map, zrange_length.
Qed.

(** Neighbouring boundaries are a whole share of the span apart, up to one. *)
Lemma span_bound_step lo hi n i :
  0 < n -> 0 <= i < n ->
  (hi - lo + 1) / n <= span_bound lo hi n (i + 1) - span_bound lo hi n i <= (hi - lo + 1) / n + 1.
Proof.
  intros Hn Hi. rewrite !span_bound_exact by lia. set (s := hi - lo + 1).
  pose proof (Z.div_mod (s * i) n ltac:(lia)). pose proof (Z.mod_pos_bound (s * i) n Hn).
  pose proof (Z.div_mod (s * (i + 1)) n ltac:(lia)). pose proof (Z.mod_pos_bound (s * (i + 1)) n Hn).
  pose proof (Z.div_mod s n ltac:(lia)). pose proof (Z.mod_pos_bound s n Hn).
  set (a := s * i / n) in *. set (c := s * (i + 1) / n) in *. set (q := s / n) in *. nia.
Qed.

Lemma span_bound_mono lo hi n i :
  lo <= hi -> 0 < n -> 0 <= i < n -> span_bound lo hi n i <= span_bound lo hi n (i + 1).
Proof.
  intros Hle Hn Hi. pose proof (span_bound_step lo hi n i Hn Hi).
  assert (0 <= (hi - lo + 1) / n) by (apply Z.div_pos; lia). lia.
Qed.

Lemma span_bound_ends lo hi n : 0 < n -> span_bound lo hi n 0 = lo /\ span_bound lo hi n n = hi + 1.
Proof.
  intros Hn. unfold span_bound. rewrite Z.eqb_refl. destruct (Z.eqb_spec n 0); [lia|]. by rewrite Z.eqb_refl.
Qed.

(** Exactly one range of the list covers [k]. *)
Definition covered_once (k : Z) (rs : list (Z * Z)) : Prop :=
  exists i r, rs !! i = Some r /\ covers k r /\ forall j r', rs !! j = Some r' -> covers k r' -> j = i.

(** Ranges cut at monotone boundaries cover every point once. *)
Lemma boundaries_covered_once b rs k :
  (forall i, 0 <= i < Z.of_nat (length rs) -> b i <= b (i + 1)) ->
  (forall i : nat, (i < length rs)%nat -> rs !! i = Some (b (Z.of_nat i), b (Z.of_nat i + 1))) ->
  b 0 <= k < b (Z.of_nat (length rs)) -> covered_once k rs.
Proof.
  intros Hmono Hrs Hk.
  destruct (boundaries_cover b (Z.of_nat (length rs)) ltac:(lia) Hmono k Hk) as (i & Hi & Hc & Hu).
  exists (Z.to_nat i), (b i, b (i + 1)). split_and!; [|done|].
  - rewrite Hrs by lia. by rewrite Z2Nat.id by lia.
  - intros j r' Hj Hr'. pose proof (lookup_lt_Some _ _ _ Hj) as Hlen. rewrite Hrs in Hj by done.
    injection Hj as <-. pose proof (Hu (Z.of_nat j) ltac:(lia) Hr'). lia.
Qed.

(** A key of the inclusive range lies in exactly one of the computed ranges. *)
Lemma key_ranges_cover lo hi n k : lo <= k <= hi -> covered_once k (compute_key_ranges lo hi n).
Proof.
  intros Hk. set (m := Z.max 1 n). destruct (span_bound_ends lo hi m ltac:(lia)) as [E0 En].
  apply (boundaries_covered_once (span_bound lo hi m)); rewrite ?compute_key_ranges_length, ?Z2Nat.id by lia.
  - intros i Hi. apply span_bound_mono; lia.
  - intros i Hi. rewrite <- (compute_key_ranges_lookup lo hi n) by lia. by rewrite Nat2Z.id.
  - fold m. rewrite E0, En. lia.
Qed.

Lemma key_ranges_within lo hi n i r k :
  lo <= hi -> compute_key_ranges lo hi n !! i = Some r -> covers k r -> lo <= k <= hi.
Proof.
  intros Hle Hi Hr. pose proof (lookup_lt_Some _ _ _ Hi) as Hlen. rewrite compute_key_ranges_length in Hlen.
  pose proof (compute_key_ranges_lookup lo hi n (Z.of_nat i) Hle ltac:(lia)) as Hl.
  rewrite Nat2Z.id, Hi in Hl. injection Hl as ->. unfold covers in Hr. cbn in Hr.
  set (m := Z.max 1 n) in *. destruct (span_bound_ends lo hi m ltac:(lia)) as [E0 En].
  pose proof (boundaries_le (span_bound lo hi m) m (fun i Hi => span_bound_mono lo hi m i Hle ltac:(lia) Hi)) as Hb.
  pose proof (Hb 0 (Z.of_nat i) ltac:(lia) ltac:(lia)). pose proof (Hb (Z.of_nat i + 1) m ltac:(lia) ltac:(lia)). lia.
Qed.

(** ** Which rows a split selects

    The rows a query selects before its row limit cuts them: a comparison with NULL is not
    true, and [%] and [MOD] truncate towards zero.  [SplitQueries] relates it to the text
    of the queries. *)

Record row := Row { row_key : option key_value; row_number : Z }.

(** The position of a key on its axis. *)
Definition key_position (v : key_value) : option Z :=
  match v with
  | KInt z => Some z
  | KDate o => Some o
  | KStamp wall off => Some (wall - default 0 off)
  | KText _ => None
  end.

Definition selects (num_splits split_index : Z) (p : split_predicate) (r : row) : bool :=
  match p with
  | RangePredicate lo hi _ =>
      match row_key r ≫= key_position, key_position lo, key_position hi with
      | Some k, Some a, Some b => (a <=? k) && (k <? b)
      | _, _, _ => false
      end
  | ModuloPredicate =>
      match row_key r with
      | Some (KInt k) => Z.rem k num_splits =? split_index
      | _ => false
      end
  | RowNumberPredicate => Z.rem (row_number r - 1) num_splits =? split_index
  end.

Definition split_selects (key_type : option string) (s : split_descriptor) (r : row) : Prop :=
  selects (sd_num_splits s) (sd_split_index s) (choose_predicate s key_type) r = true.

(** Exactly one split of the list selects the row. *)
Definition selected_once (key_type : option string) (splits : list split_descriptor) (r : row) : Prop :=
  exists i s, splits !! i = Some s /\ split_selects key_type s r /\
    forall j s', splits !! j = Some s' -> split_selects key_type s' r -> j = i.

(** The splits of a new snapshot of [t]: numbered, without ranges. *)
Definition fresh_splits (t : table_def) (splits : list split_descriptor) : Prop :=
  forall i s, splits !! i = Some s ->
    sd_split_index s = Z.of_nat i /\ sd_num_splits s = Z.of_nat (length splits) /\
    sd_table s = t /\ sd_key_lo s = None /\ sd_split_key_column s = None.

Lemma assign_ranges_length splits : forall ranges, length (assign_ranges splits ranges) = length splits.
Proof. induction splits as [|s splits IH]; intros [|r ranges]; cbn; auto. Qed.

Lemma assign_ranges_lookup splits : forall ranges i s r,
  splits !! i = Some s -> ranges !! i = Some r -> assign_ranges splits ranges !! i = Some (set_range s r).
Proof.
  induction splits as [|s0 splits IH]; intros [|r0 ranges] [|i] s r Hs Hr; try done; cbn in *; [congruence|eauto].
Qed.

(** Splits numbered like their positions, in the modulo and row-number forms. *)
Lemma residue_selected_once key_type splits r (z : Z) :
  (forall i s, splits !! i = Some s -> split_selects key_type s r <-> Z.rem z (Z.of_nat (length splits)) = Z.of_nat i) ->
  splits <> [] -> 0 <= z -> selected_once key_type splits r.
Proof.
  intros Hsel Hne Hz. set (n := Z.of_nat (length splits)) in *.
  assert (Hn : 0 < n) by (destruct splits; [done|cbn in n; lia]).
  pose proof (Z.rem_bound_pos z n Hz Hn) as Hb. set (i := Z.to_nat (Z.rem z n)).
  destruct (splits !! i) as [s|] eqn:Hi; [|apply lookup_ge_None in Hi; lia].
  exists i, s. split_and!; [done|apply (Hsel _ _ Hi); lia|].
  intros j s' Hj Hs'. apply (Hsel _ _ Hj) in Hs'. lia.
Qed.

(** Splits that own integer ranges. *)
Lemma ranges_selected_once key_type splits rs k rn :
  length rs = length splits -> covered_once k rs ->
  selected_once key_type (assign_ranges splits (int_ranges rs)) (Row (Some (KInt k)) rn).
Proof.
  intros Hlen (i & r & Hi & Hc & Hu).
  assert (Hsel : forall s r, split_selects key_type (set_range s (KInt r.1, KInt r.2)) (Row (Some (KInt k)) rn)
                             <-> covers k r).
  { intros s r0. unfold split_selects, covers. cbn. rewrite andb_true_iff, Z.leb_le, Z.ltb_lt. done. }
  assert (Hlook : forall j s r, splits !! j = Some s -> rs !! j = Some r ->
    assign_ranges splits (int_ranges rs) !! j = Some (set_range s (KInt r.1, KInt r.2))).
  { intros j s r0 Hs Hr. apply assign_ranges_lookup; [done|]. unfold int_ranges. by rewrite list_lookup_fmap, Hr. }
  destruct (lookup_lt_is_Some_2 splits i) as [s Hs]; [rewrite <- Hlen; by eapply lookup_lt_Some|].
  exists i, (set_range s (KInt r.1, KInt r.2)). split_and!; [by apply Hlook|by apply Hsel|].
  intros j s' Hj Hs'. pose proof (lookup_lt_Some _ _ _ Hj) as Hl. rewrite assign_ranges_length in Hl.
  destruct (lookup_lt_is_Some_2 splits j Hl) as [s0 Hs0]. destruct (lookup_lt_is_Some_2 rs j) as [r0 Hr0]; [lia|].
  rewrite (Hlook j s0 r0 Hs0 Hr0) in Hj. injection Hj as <-. apply (Hu j r0 Hr0). by apply Hsel in Hs'.
Qed.

(** ** Planning *)

Section plan_theorems.
Context (cfg : source_config) (session : read_session).

(** The planner's key is the one the queries use. *)
Lemma choose_key_default t strategy key :
  choose_strategy_key cfg t strategy = Ok key -> truthy_str key = true \/ pk_column cfg t = Ok key.
Proof.
  unfold choose_strategy_key. destruct (require_explicit_split_key cfg t) as [explicit|e]; [|done].
  cbn [mbind res_bind]. cbv zeta. unfold truthy_opt.
  repeat match goal with |- context [if ?c then _ else _] => destruct c eqn:? end;
    intros H; first [by right|injection H as <-; by left].
Qed.

Lemma planned_key_name t strategy key key' s :
  choose_strategy_key cfg t strategy = Ok key -> sd_split_key_column s = Some key -> sd_table s = t ->
  split_key_name cfg s = Ok key' -> key' = key.
Proof.
  intros Hc Hs Ht. unfold split_key_name. rewrite Hs, Ht. unfold truthy_opt.
  change (or_empty (Some key)) with key.
  destruct (choose_key_default _ _ _ Hc) as [Hk|Hk]; [rewrite Hk; by intros [= <-]|].
  destruct (truthy_str key); intros H; [by injection H|congruence].
Qed.

Lemma int_not_temporal kt : in_types kt INTEGER_TYPES = true -> in_types kt TEMPORAL_TYPES = false.
Proof.
  destruct kt as [kt|]; [|done]. cbn [in_types]. intros H%bool_decide_eq_true. apply bool_decide_eq_false.
  unfold INTEGER_TYPES, TEMPORAL_TYPES in *. set_unfold in H. set_unfold. naive_solver.
Qed.

(** Planning only ever gives ranges to the splits. *)
Lemma plan_spans_shape t strategy key kt splits b splits' :
  plan_spans session t strategy key kt splits = Ok (b, splits') ->
  splits' = splits \/ exists ranges, splits' = assign_ranges splits ranges.
Proof.
  unfold plan_spans. cbv zeta. intros H.
  repeat match type of H with
    | context [if ?c then _ else _] => destruct c
    | context [or_none ?r] => destruct (or_none r) as [[? ?]|]
    | context [compute_temporal_ranges ?a ?b ?c ?d] => destruct (compute_temporal_ranges a b c d)
    end; (discriminate || (injection H as _ <-; eauto)).
Qed.

Lemma assign_ranges_head s splits ranges : exists s' splits',
  assign_ranges (s :: splits) ranges = s' :: splits' /\
  sd_split_key_column s' = sd_split_key_column s /\ sd_table s' = sd_table s.
Proof. destruct ranges as [|r ranges]; cbn [assign_ranges]; by eexists _, _. Qed.

(** The spans of an integer key. *)
Lemma plan_spans_integer t strategy key kt splits b splits' :
  in_types kt INTEGER_TYPES = true -> plan_spans session t strategy key kt splits = Ok (b, splits') ->
  (b = false /\ splits' = splits) \/
  exists lo hi, b = true /\ fetch_key_bounds session (td_source_table t) key = Ok (Some (lo, hi)) /\
    splits' = assign_ranges splits (int_ranges (compute_key_ranges lo hi (Z.of_nat (length splits)))).
Proof.
  intros Hint. unfold plan_spans. rewrite (int_not_temporal _ Hint), Hint, !andb_false_r, andb_true_r. cbv zeta.
  destruct (bool_decide (strategy ∈ ["range"; "auto"])); [|intros [= <- <-]; by left].
  destruct (fetch_key_bounds session (td_source_table t) key) as [[[lo hi]|]|e]; cbn [or_none].
  - intros [= <- <-]. right. by exists lo, hi.
  - destruct (String.eqb strategy "range"); intros [= <- <-]; by left.
  - destruct (String.eqb strategy "range"); intros [= <- <-]; by left.
Qed.

(** The outcome of planning with equal spans: no key ranges, or those of the
    chosen key's bounds. *)
Lemma plan_integer_cases t splits b splits' :
  effective_split_balance cfg t <> "count" ->
  plan_ranges_for_snapshot cfg session t splits = Ok (b, splits') ->
  (b = false /\ splits' = splits) \/
  exists strategy key, choose_strategy_key cfg t strategy = Ok key /\
    let keyed := map (set_key_column key) splits in
    (b = false /\ splits' = keyed) \/ plan_spans session t strategy key (column_type t key) keyed = Ok (b, splits').
Proof.
  intros Hbal. unfold plan_ranges_for_snapshot. cbv zeta.
  set (strategy := if _ && _ then "range" else _).
  destruct (String.eqb strategy "modulo"); [intros [= <- <-]; by left|].
  destruct (choose_strategy_key cfg t strategy) as [key|e] eqn:Hk; [|done]. cbn [mbind res_bind].
  intros H. right. exists strategy, key. split; [done|].
  destruct (supports_range_key_bounds (table_caps cfg t)); cbn [negb] in H; [|left; by injection H as <- <-].
  right. rewrite (proj2 (String.eqb_neq _ "count") Hbal) in H. exact H.
Qed.

Lemma fresh_residue t kt splits splits' k rn :
  fresh_splits t splits -> in_types kt INTEGER_TYPES = true ->
  splits' = splits \/ (exists key, splits' = map (set_key_column key) splits) ->
  forall i s, splits' !! i = Some s ->
    split_selects kt s (Row (Some (KInt k)) rn) <-> Z.rem k (Z.of_nat (length splits')) = Z.of_nat i.
Proof.
  intros Hf Hint Hsp i s Hi.
  assert (Hs : sd_split_index s = Z.of_nat i /\ sd_num_splits s = Z.of_nat (length splits') /\ sd_key_lo s = None).
  { destruct Hsp as [->|[key ->]].
    - destruct (Hf i s Hi) as (? & ? & _ & ? & _). done.
    - rewrite list_lookup_fmap in Hi. apply fmap_Some in Hi as (s0 & Hi & ->).
      destruct (Hf i s0 Hi) as (? & ? & _ & ? & _). by rewrite length_map. }
  destruct Hs as (Hx & Hn & Hlo). unfold split_selects, choose_predicate. rewrite Hlo, Hint. cbn [selects row_key].
  rewrite Hx, Hn. apply Z.eqb_eq.
Qed.

(** A split of an integer key: with an integer range, or without one. *)
Definition integer_split (s : split_descriptor) : Prop :=
  sd_key_lo s = None \/ exists a b, sd_key_lo s = Some (KInt a) /\ sd_key_hi s = Some (KInt b).

Lemma assign_ranges_integer t rs : forall splits, Forall (fun s => sd_table s = t /\ sd_key_lo s = None) splits ->
  Forall (fun s => sd_table s = t /\ integer_split s) (assign_ranges splits (int_ranges rs)).
Proof.
  induction rs as [|r rs IH]; intros splits Hs.
  - assert (assign_ranges splits (int_ranges []) = splits) as -> by (by destruct splits).
    eapply Forall_impl; [exact Hs|]. intros s [? ?]. split; [done|by left].
  - destruct Hs as [|s splits [Ht _] Hs]; [constructor|]. cbn. constructor; [|by apply IH]. split; [done|]. right. by exists r.1, r.2.
Qed.

Lemma fresh_integer t splits : fresh_splits t splits -> Forall (fun s => sd_table s = t /\ sd_key_lo s = None) splits.
Proof. intros Hf. apply Forall_lookup. intros i s Hi. by destruct (Hf i s Hi) as (_ & _ & ? & ? & _). Qed.

(** The splits of a snapshot select the rows of an integer-keyed source once each.
    Whatever equal-span planning decides (no ranges, or ranges from the source's
    key bounds), when the queries split by an integer column every row whose key
    is within those bounds, or is not negative when there are no ranges, is
    selected by exactly one split. *)
Lemma planned_selected_once t splits b splits' key rn :
  fresh_splits t splits -> splits <> [] -> effective_split_balance cfg t <> "count" ->
  plan_ranges_for_snapshot cfg session t splits = Ok (b, splits') ->
  Forall (fun s => split_key_name cfg s = Ok key) splits' ->
  in_types (column_type t key) INTEGER_TYPES = true ->
  Forall (fun s => sd_table s = t /\ integer_split s) splits' /\
  if b then exists lo hi, fetch_key_bounds session (td_source_table t) key = Ok (Some (lo, hi)) /\
    forall k, lo <= k <= hi -> selected_once (column_type t key) splits' (Row (Some (KInt k)) rn)
  else forall k, 0 <= k -> selected_once (column_type t key) splits' (Row (Some (KInt k)) rn).
Proof.
  intros Hf Hne Hbal Hplan Hkey Hint.
  assert (Hmod : splits' = splits \/ (exists key, splits' = map (set_key_column key) splits) ->
    Forall (fun s => sd_table s = t /\ integer_split s) splits' /\
    forall k, 0 <= k -> selected_once (column_type t key) splits' (Row (Some (KInt k)) rn)).
  { intros Hsp. split.
    { eapply (Forall_impl (fun s => sd_table s = t /\ sd_key_lo s = None)); [|intros s [? ?]; split; [done|by left]].
      destruct Hsp as [->|[key' ->]]; [by apply fresh_integer|]. apply Forall_fmap. by apply fresh_integer. }
    intros k Hk. apply (residue_selected_once _ _ _ k); [by eapply fresh_residue| |done].
    destruct Hsp as [->|[key' ->]]; [done|]. by destruct splits. }
  destruct (plan_integer_cases t splits b splits' Hbal Hplan) as [[-> Hsp]|(strategy & key' & Hk & Hcases)].
  { apply Hmod. by left. }
  cbv zeta in Hcases. set (keyed := map (set_key_column key') splits) in *.
  destruct Hcases as [[-> Hsp]|Hspans]; [apply Hmod; right; by exists key'|].
  assert (E : key = key').
  { destruct splits as [|s0 splits]; [done|]. cbn [map] in keyed.
    assert (Hhd : exists s' rest, splits' = s' :: rest /\ sd_split_key_column s' = Some key' /\ sd_table s' = t).
    { destruct (Hf 0%nat s0 eq_refl) as (_ & _ & Ht & _).
      destruct (plan_spans_shape _ _ _ _ _ _ _ Hspans) as [->|[ranges ->]]; [by eexists _, _|].
      destruct (assign_ranges_head (set_key_column key' s0) (map (set_key_column key') splits) ranges)
        as (s' & rest & E1 & E2 & E3). exists s', rest. split_and!; [exact E1|exact E2|].
      by rewrite E3. }
    destruct Hhd as (s' & rest & -> & Hk' & Ht'). apply Forall_cons in Hkey as [Hs' _].
    by eapply planned_key_name. }
  subst key'. destruct (plan_spans_integer _ _ _ _ _ _ _ Hint Hspans) as [[-> ->]|(lo & hi & -> & Hb & ->)].
  - apply Hmod. right. by exists key.
  - split; [apply assign_ranges_integer, Forall_fmap; by apply fresh_integer|].
    exists lo, hi. split; [done|]. intros k Hrange. apply ranges_selected_once; [|by apply key_ranges_cover].
    rewrite compute_key_ranges_length. destruct splits; [done|]. subst keyed. cbn [map length]. lia.
Qed.

(** ** Rows no split selects *)

(** Which rows the fallback splits miss.  A row whose key is NULL is selected
    by no split of an integer-keyed table, whether it was planned by ranges or
    not; and without ranges a row with a negative key is selected only when the
    number of splits divides the key, because the remainder of a negative number
    is not a split index. *)
Theorem unselected_rows t kt splits rn :
  fresh_splits t splits -> in_types kt INTEGER_TYPES = true ->
  (forall s, s ∈ splits -> ~ split_selects kt s (Row None rn)) /\
  (forall ranges s, s ∈ assign_ranges splits ranges -> ~ split_selects kt s (Row None rn)) /\
  forall k, k < 0 ->
    ((exists s, s ∈ splits /\ split_selects kt s (Row (Some (KInt k)) rn)) <->
     splits <> [] /\ Z.rem k (Z.of_nat (length splits)) = 0).
Proof.
  intros Hf Hint. assert (Hnull : forall s, ~ split_selects kt s (Row None rn)).
  { intros s. unfold split_selects, choose_predicate. rewrite Hint.
    destruct (sd_key_lo s), (sd_key_hi s); done. }
  split_and!; [auto|auto|]. intros k Hk.
  pose proof (fresh_residue t kt splits splits k rn Hf Hint (or_introl eq_refl)) as Hres. split.
  - intros (s & [i Hi]%list_elem_of_lookup & Hs). split; [by intros ->|]. apply (Hres i s Hi) in Hs.
    pose proof (Z.rem_nonpos k (Z.of_nat (length splits))). pose proof (lookup_lt_Some _ _ _ Hi). lia.
  - intros [Hne Hz]. destruct splits as [|s splits]; [done|]. exists s. split; [by left|].
    apply (Hres 0%nat s eq_refl). by rewrite Hz.
Qed.

(** ** Date keys *)

Lemma compute_key_ranges_within lo hi n r :
  lo <= hi -> r ∈ compute_key_ranges lo hi n -> lo <= r.1 <= hi + 1 /\ lo <= r.2 <= hi + 1.
Proof.
  intros Hle [i Hi]%list_elem_of_lookup. pose proof (lookup_lt_Some _ _ _ Hi) as Hlen.
  rewrite compute_key_ranges_length in Hlen.
  pose proof (compute_key_ranges_lookup lo hi n (Z.of_nat i) Hle ltac:(lia)) as Hl.
  rewrite Nat2Z.id, Hi in Hl. injection Hl as ->. cbn [fst snd]. set (m := Z.max 1 n) in *.
  destruct (span_bound_ends lo hi m ltac:(lia)) as [E0 En].
  pose proof (boundaries_le (span_bound lo hi m) m (fun i Hi => span_bound_mono lo hi m i Hle ltac:(lia) Hi)) as Hb.
  pose proof (Hb 0 (Z.of_nat i) ltac:(lia) ltac:(lia)). pose proof (Hb 0 (Z.of_nat i + 1) ltac:(lia) ltac:(lia)).
  pose proof (Hb (Z.of_nat i) m ltac:(lia) ltac:(lia)). pose proof (Hb (Z.of_nat i + 1) m ltac:(lia) ltac:(lia)). lia.
Qed.

Lemma last_range lo hi n : lo <= hi -> exists a, (a, hi + 1) ∈ compute_key_ranges lo hi n.
Proof.
  intros Hle. set (m := Z.max 1 n).
  pose proof (compute_key_ranges_lookup lo hi n (m - 1) Hle ltac:(lia)) as Hl.
  rewrite Z.sub_add in Hl. destruct (span_bound_ends lo hi m ltac:(lia)) as [_ En].
  fold m in Hl. rewrite En in Hl. eexists. by eapply list_elem_of_lookup_2.
Qed.

(** One element that raises makes the whole loop raise, when nothing else can. *)
Lemma res_map_err {A B} (f : A -> res B) e l x :
  (forall a, is_Ok (f a) \/ f a = Err e) -> x ∈ l -> f x = Err e -> res_map f l = Err e.
Proof.
  intros Hf Hx He. induction l as [|y l IH]; [by apply not_elem_of_nil in Hx|]. cbn [res_map].
  destruct (Hf y) as [[b Hb]|Hb]; rewrite Hb; [|done]. cbn [mbind res_bind].
  apply elem_of_cons in Hx as [->|Hx]; [congruence|]. by rewrite IH.
Qed.

Definition date_error : exn := ValueError "ordinal must be in 1..3652059".

(** Equal-span planning of a date column: it works out the ranges exactly when
    the day after the last one is a date of the calendar. *)
Lemma date_ranges lo hi n :
  1 <= lo -> lo <= hi <= max_ordinal ->
  compute_temporal_ranges (KDate lo) (KDate hi) n "date" =
    (if hi =? max_ordinal then Err date_error
     else Ok (map (fun r => (KDate r.1, KDate r.2)) (compute_key_ranges lo hi n))).
Proof.
  intros Hlo Hhi. unfold compute_temporal_ranges. change (String.eqb "date" "date") with true.
  cbn [coerce_temporal mbind res_bind to_tick]. cbv zeta. change (String.eqb "date" "date") with true. cbv iota.
  cbn [mbind res_bind to_tick].
  assert (Htick : forall k, from_tick k "date" true =
    if (1 <=? k) && (k <=? max_ordinal) then Ok (KDate k) else Err date_error) by done.
  destruct (Z.eqb_spec hi max_ordinal) as [->|Hne].
  - destruct (last_range lo max_ordinal n ltac:(lia)) as [a Ha]. apply (res_map_err _ _ _ _) with (2 := Ha).
    + intros [x y]. cbn [fst snd]. cbn [orb]. rewrite !Htick.
      destruct ((1 <=? x) && _); [|by right]. cbn [mbind res_bind].
      destruct (_ && _); [left; by eexists|by right].
    + destruct (compute_key_ranges_within lo max_ordinal n _ ltac:(lia) Ha) as [[H1 H2] _]. cbn [fst snd] in *.
      cbn [orb]. rewrite !Htick. rewrite (proj2 (Z.leb_gt (max_ordinal + 1) max_ordinal)) by lia.
      rewrite andb_false_r. by destruct ((1 <=? a) && _).
  - apply res_map_ok. intros r Hr. destruct (compute_key_ranges_within lo hi n r ltac:(lia) Hr) as [H1 H2].
    cbn [orb]. rewrite !Htick. by rewrite !(proj2 (andb_true_iff _ _)) by (split; apply Z.leb_le; lia).
Qed.

(** When planning a date-keyed table raises.  With the date strategy and a
    source that reports its first and last day, planning assigns ranges unless
    the last day is 9999-12-31, the last of the calendar: the exclusive upper
    bound does not exist then, and the error escapes to the caller. *)
Theorem date_planning_errors t key splits lo hi :
  effective_split_strategy cfg t = "date" -> effective_split_balance cfg t <> "count" ->
  supports_range_key_bounds (table_caps cfg t) = true ->
  choose_strategy_key cfg t "date" = Ok key -> column_type t key = Some "date" ->
  fetch_column_bounds session (td_source_table t) key = Ok (Some (KDate lo, KDate hi)) ->
  1 <= lo -> lo <= hi <= max_ordinal ->
  plan_ranges_for_snapshot cfg session t splits =
    if hi =? max_ordinal then Err date_error
    else Ok (true, assign_ranges (map (set_key_column key) splits)
               (map (fun r => (KDate r.1, KDate r.2)) (compute_key_ranges lo hi (Z.of_nat (length splits))))).
Proof.
  intros Hs Hb Hc Hk Ht Hf Hlo Hhi. unfold plan_ranges_for_snapshot. cbv zeta. rewrite Hs.
  change (String.eqb "date" "modulo") with false. cbn [andb]. cbv iota.
  change (String.eqb "date" "modulo") with false. cbv iota. rewrite Hk. cbn [mbind res_bind].
  rewrite Hc, Ht. cbn [negb]. rewrite (proj2 (String.eqb_neq _ "count") Hb). cbn [andb].
  unfold plan_spans. cbv zeta. rewrite Hf. cbn [or_none or_empty].
  change (bool_decide ("date" ∈ ["date"; "auto"]) && in_types (Some "date") TEMPORAL_TYPES) with true.
  change (bool_decide ("date" ∈ ["range"; "auto"]) && in_types (Some "date") INTEGER_TYPES) with false.
  cbv iota. change (or_empty (Some "date")) with "date". rewrite (date_ranges lo hi) by done.
  rewrite length_map. by destruct (hi =? max_ordinal).
Qed.

(** ** Equal-count ranges *)

(** The ranges between ascending minimums, on integers, with the empty tail. *)
Definition count_ranges (mins : list Z) (upper : Z) (n : nat) : list (Z * Z) :=
  map (fun i : nat => (default upper (mins !! i), default upper (mins !! S i))) (seq 0 n).

Lemma ranges_from_mins_ints mins upper :
  ranges_from_mins (map KInt mins) (KInt upper) = int_ranges (count_ranges mins upper (length mins)).
Proof.
  induction mins as [|lo mins IH]; [done|]. destruct mins as [|hi mins]; [done|].
  cbn [map ranges_from_mins]. cbn [map ranges_from_mins] in IH. rewrite IH.
  unfold count_ranges, int_ranges. cbn [length seq map]. f_equal. rewrite !map_map.
  rewrite <- (seq_shift (length mins) 1), map_map. done.
Qed.

Lemma Sorted_step {A} (R : relation A) l i x y :
  Sorted R l -> l !! i = Some x -> l !! S i = Some y -> R x y.
Proof.
  intros Hs. revert i. induction Hs as [|a l Hs IH Hd]; intros i Hx Hy; [done|].
  destruct i as [|i]; [|by eapply IH]. cbn in Hx, Hy. injection Hx as ->.
  destruct Hd; [done|]. cbn in Hy. by injection Hy as ->.
Qed.

Lemma seq_app_replicate mins upper (n : nat) :
  (length mins <= n)%nat ->
  count_ranges mins upper n = count_ranges mins upper (length mins) ++ replicate (n - length mins) (upper, upper).
Proof.
  intros Hn. unfold count_ranges. replace n with (length mins + (n - length mins))%nat at 1 by lia.
  rewrite seq_app, map_app. f_equal. cbn [Nat.add]. remember (n - length mins)%nat as d eqn:Ed.
  assert (Htail : forall a, (length mins <= a)%nat ->
    map (fun i : nat => (default upper (mins !! i), default upper (mins !! S i))) (seq a d) = replicate d (upper, upper)).
  { clear Ed. induction d as [|d IH]; intros a Ha; [done|]. cbn [seq map replicate].
    rewrite !lookup_ge_None_2 by lia. cbn [default]. f_equal. apply IH. lia. }
  by apply Htail.
Qed.

(** The whole list is the boundaries it was cut at. *)
Lemma pad_ranges_ints mins upper n :
  Z.of_nat (length mins) <= n ->
  pad_ranges (ranges_from_mins (map KInt mins) (KInt upper)) (KInt upper) n
  = int_ranges (count_ranges mins upper (Z.to_nat n)).
Proof.
  intros Hn. unfold pad_ranges. rewrite ranges_from_mins_ints.
  assert (Hl : forall m, length (count_ranges mins upper m) = m)
    by (intros m; unfold count_ranges; by rewrite length_map, length_seq).
  assert (E : forall d, replicate d (KInt upper, KInt upper) = int_ranges (replicate d (upper, upper)))
    by (intros d; symmetry; exact (fmap_replicate _ d (upper, upper))).
  rewrite E. unfold int_ranges. rewrite <- map_app, length_map, Hl, <- seq_app_replicate by lia.
  apply take_ge. by rewrite length_map, Hl.
Qed.

Lemma count_ranges_covered mins upper n k :
  Sorted Z.le mins -> Forall (fun m => m <= upper) mins -> (0 < n)%nat ->
  default upper (head mins) <= k < upper -> (length mins <= n)%nat -> covered_once k (count_ranges mins upper n).
Proof.
  intros Hs Hu Hn Hk Hlen. set (b i := default upper (mins !! Z.to_nat i)).
  assert (Hcl : length (count_ranges mins upper n) = n) by (unfold count_ranges; by rewrite length_map, length_seq).
  apply (boundaries_covered_once b); rewrite Hcl.
  - intros i Hi. unfold b. replace (Z.to_nat (i + 1)) with (S (Z.to_nat i)) by lia.
    destruct (mins !! Z.to_nat i) as [x|] eqn:Hx.
    + destruct (mins !! S (Z.to_nat i)) as [y|] eqn:Hy; cbn [default].
      * exact (Sorted_step Z.le mins _ _ _ Hs Hx Hy).
      * rewrite Forall_forall in Hu. apply Hu. by eapply list_elem_of_lookup_2.
    + apply lookup_ge_None in Hx. rewrite lookup_ge_None_2 by lia. cbn [default]. lia.
  - intros i Hi. unfold count_ranges, b. rewrite list_lookup_fmap, lookup_seq_lt by done. cbn [fmap option_fmap option_map].
    rewrite Nat2Z.id. by replace (Z.to_nat (Z.of_nat i + 1)) with (S i) by lia.
  - unfold b. rewrite (lookup_ge_None_2 mins (Z.to_nat (Z.of_nat n))) by lia. cbn [default].
    destruct mins; done.
Qed.

(** Equal-count splits partition the rows too.  When the source's statistics
    give ascending integer minimums, no more of them than splits, and a maximum
    above them, every row with a key from the first minimum to the maximum is
    selected by exactly one split. *)
Theorem balanced_splits_partition t key kt splits mins mx rn :
  kt ∈ INTEGER_TYPES -> mins <> [] -> Sorted Z.le mins -> Forall (fun m => m <= mx) mins ->
  (length mins <= length splits)%nat ->
  key_statistics cfg session t key kt (Z.of_nat (length splits)) = Some (map KInt mins, KInt mx) ->
  exists ranges, balanced_ranges cfg session t key (Some kt) (Z.of_nat (length splits)) = Some ranges /\
    forall k, default mx (head mins) <= k <= mx ->
      selected_once (Some kt) (assign_ranges splits ranges) (Row (Some (KInt k)) rn).
Proof.
  intros Hkt Hne Hs Hu Hlen Hstat. set (n := Z.of_nat (length splits)) in *.
  assert (Hpos : (0 < length splits)%nat) by (destruct mins; [done|cbn in Hlen; lia]).
  exists (int_ranges (count_ranges mins (mx + 1) (length splits))). split.
  - unfold balanced_ranges. destruct (Z.ltb_spec n 1); [lia|]. rewrite Hstat.
    assert (Hmap : res_map (fun m => coerce_key m kt) (map KInt mins) = Ok (map KInt mins)).
    { rewrite (res_map_ok _ id); [by rewrite map_id|]. intros a (z & -> & _)%list_elem_of_fmap.
      unfold coerce_key. by rewrite bool_decide_eq_true_2. }
    rewrite Hmap. unfold range_upper. rewrite bool_decide_eq_true_2 by done. cbn [mbind res_bind int_of_key].
    destruct (map KInt mins) as [|m ms] eqn:Em; [by destruct mins|]. rewrite <- Em.
    rewrite pad_ranges_ints by lia. unfold n. by rewrite Nat2Z.id.
  - intros k Hk. apply ranges_selected_once.
    + unfold count_ranges. by rewrite length_map, length_seq.
    + apply count_ranges_covered; [done| |done| |done].
      * eapply Forall_impl; [exact Hu|]. cbn. lia.
      * destruct mins; [done|]. cbn [head default] in *. cbn in Hk. cbn. lia.
Qed.

(** ** Minimums from a histogram *)

Section histogram.
Context (R : relation key_value) `{!PreOrder R}.

Lemma take_quantiles_all fuel high cum total n : forall k ms k',
  take_quantiles fuel high cum total n k = (ms, k') -> Forall (eq high) ms.
Proof.
  induction fuel as [|fuel IH]; intros k ms k'; cbn [take_quantiles]; [intros [= <- <-]; constructor|].
  destruct (_ && _); [|intros [= <- <-]; constructor].
  destruct (take_quantiles fuel high cum total n (k + 1)) as [ms0 k0] eqn:E. intros [= <- <-].
  constructor; [done|]. by eapply IH.
Qed.

Lemma StronglySorted_const high ms : Forall (eq high) ms -> StronglySorted R ms.
Proof.
  induction 1 as [|x ms -> Hms IH]; [constructor|]. constructor; [done|].
  eapply Forall_impl; [exact Hms|]. by intros y <-.
Qed.

Lemma StronglySorted_app_2 l k :
  StronglySorted R l -> StronglySorted R k -> (forall x y, x ∈ l -> y ∈ k -> R x y) -> StronglySorted R (l ++ k).
Proof.
  intros Hl Hk Hlk. induction Hl as [|x l Hl IH Hx]; [done|]. cbn [app]. constructor.
  - apply IH. intros a b Ha. apply Hlk. by right.
  - apply Forall_app. split; [done|]. apply Forall_forall. intros y Hy. apply Hlk; [by left|done].
Qed.

(** What the scan picks comes from the steps, in their order. *)
Lemma scan_steps_sorted steps : forall cum total n k,
  StronglySorted R (map fst steps) ->
  StronglySorted R (scan_steps steps cum total n k) /\ forall x, x ∈ scan_steps steps cum total n k -> x ∈ map fst steps.
Proof.
  induction steps as [|[high rows] steps IH]; intros cum total n k Hs; [split; [constructor|done]|].
  cbn [scan_steps map fst] in *. apply StronglySorted_inv in Hs as [Hs Hh].
  destruct (take_quantiles _ high cum total n k) as [ms k'] eqn:E. apply take_quantiles_all in E.
  destruct (IH (fadd cum (float_of_int (Z.max 0 rows))) total n k' Hs) as [Hsort Hin]. split.
  - apply StronglySorted_app_2; [by eapply StronglySorted_const|done|]. intros x y Hx Hy.
    rewrite Forall_forall in E. rewrite <- (E x Hx). rewrite Forall_forall in Hh. auto.
  - intros x [Hx|Hx]%elem_of_app; [rewrite Forall_forall in E; rewrite <- (E x Hx); by left|right; auto].
Qed.

(** The last step of an ascending list is above all others. *)
Lemma last_above l z x : StronglySorted R l -> last l = Some z -> x ∈ l -> R x z.
Proof.
  induction 1 as [|y l Hl IH Hy]; intros Hz Hx; [done|]. destruct l as [|y' l].
  - injection Hz as ->. apply list_elem_of_singleton in Hx as ->. done.
  - rewrite last_cons_cons in Hz. apply elem_of_cons in Hx as [->|Hx]; [|auto].
    rewrite Forall_forall in Hy. apply Hy. by apply last_Some_elem_of.
Qed.

Lemma StronglySorted_take l n : StronglySorted R l -> StronglySorted R (take n l).
Proof.
  intros Hl. revert n. induction Hl as [|x l Hl IH Hx]; intros [|n]; cbn [take]; try constructor; [auto|].
  by apply Forall_take.
Qed.

(** The minimums taken from an ascending histogram are what range planning
    needs: exactly [n] keys of the histogram, ascending, the first of them the
    histogram's first. *)
Theorem histogram_mins_ascending steps n mins :
  StronglySorted R (map fst steps) -> mins_from_histogram_steps steps n = Some mins ->
  Z.of_nat (length mins) = n /\ StronglySorted R mins /\ head mins = head (map fst steps) /\
  forall x, x ∈ mins -> x ∈ map fst steps.
Proof.
  intros Hs. unfold mins_from_histogram_steps.
  destruct steps as [|first rest]; [done|]. set (steps := first :: rest) in *.
  destruct (last steps) as [final|] eqn:Hl; [|done]. destruct (Z.ltb_spec n 1); [done|]. cbv zeta.
  destruct (_ <=? 0); [done|]. set (picked := scan_steps steps _ _ n 1).
  destruct (scan_steps_sorted steps (Float 0 0) (foldl (fun t s => t + Z.max 0 s.2) 0 steps) n 1 Hs) as [Hsort Hin].
  fold picked in Hsort, Hin. set (pad := replicate _ final.1). intros E. apply (inj Some) in E. subst mins.
  assert (Hfinal : last (map fst steps) = Some final.1) by (change (map fst steps) with (fst <$> steps); by rewrite fmap_last, Hl).
  assert (Hfirst : StronglySorted R (first.1 :: picked)).
  { constructor; [done|]. apply Forall_forall. intros x Hx. specialize (Hin x Hx).
    apply StronglySorted_inv in Hs as [_ Hf]. apply elem_of_cons in Hin as [->|Hin]; [done|].
    rewrite Forall_forall in Hf. auto. }
  assert (Hmem : forall x, x ∈ (first.1 :: picked) ++ pad -> x ∈ map fst steps).
  { intros x [[->|Hx]%elem_of_cons|Hx]%elem_of_app; [by left|auto|].
    apply elem_of_replicate in Hx as [-> _]. by apply last_Some_elem_of. }
  split_and!.
  - rewrite length_take, length_app. unfold pad. rewrite length_replicate. lia.
  - apply StronglySorted_take, StronglySorted_app_2; [done|apply (StronglySorted_const final.1)|].
    + apply Forall_forall. intros x Hx. by apply elem_of_replicate in Hx as [-> _].
    + intros x y Hx Hy. apply elem_of_replicate in Hy as [-> _].
      apply (last_above (map fst steps) final.1 x Hs Hfinal), Hmem, elem_of_app. by left.
  - unfold steps. destruct (Z.to_nat n) eqn:En; [lia|]. reflexivity.
  - intros x Hx. apply elem_of_take in Hx as (i & Hi & _). apply Hmem. by eapply list_elem_of_lookup_2.
Qed.
End histogram.

(** ** The number of splits *)

Lemma fceil_cover a b : 0 < a < 2 ^ 53 -> 0 < b -> a <= fceil (int_truediv a b) * b /\ 0 < fceil (int_truediv a b).
Proof. intros Ha Hb. rewrite fceil_truediv by done. pose proof (ceil_div_bounds a b Hb). nia. Qed.

Lemma foldl_max_ge ps : forall p x, x <= p \/ x ∈ ps -> x <= foldl Z.max p ps.
Proof.
  induction ps as [|y ps IH]; intros p x Hx; cbn [foldl].
  - destruct Hx as [?|Hx]; [done|by apply not_elem_of_nil in Hx].
  - apply IH. destruct Hx as [?|[->|?]%elem_of_cons]; [left; lia|left; lia|by right].
Qed.

(** The count is clamped between its limits and, short of the upper one, at
    least every proposal. *)
Lemma split_count_ge rows tr tb pr mn mx d p :
  0 < rows -> mn <= mx ->
  (0 < tr /\ p = fceil (int_truediv rows tr)) \/ (0 < tb /\ 0 < pr /\ p = fceil (int_truediv (rows * pr) tb)) ->
  let c := compute_split_count (Some rows) tr tb pr mn mx d in mn <= c <= mx /\ (c < mx -> p <= c).
Proof.
  intros Hr Hm Hp c. unfold c, compute_split_count. cbv zeta. destruct (Z.leb_spec rows 0); [lia|].
  set (ps := _ ++ _). assert (Hin : p ∈ ps).
  { unfold ps. apply elem_of_app. destruct Hp as [[Ht ->]|(Ht & Hpr & ->)].
    - left. rewrite (proj2 (Z.ltb_lt 0 tr) Ht). by left.
    - right. rewrite (proj2 (Z.ltb_lt 0 tb) Ht), (proj2 (Z.ltb_lt 0 pr) Hpr). by left. }
  destruct ps as [|q qs]; [by apply not_elem_of_nil in Hin|]. apply elem_of_cons in Hin.
  assert (p <= foldl Z.max q qs) by (apply foldl_max_ge; destruct Hin as [->|]; [left; lia|by right]). lia.
Qed.

(** The chosen number of splits is within its configured limits and, short
    of the upper limit, its splits can hold the table: with the estimated row
    count right and below [2^53] (in bytes when those are planned for), the row
    caps of the splits' queries together leave no row out. *)
Theorem split_count_capacity t rows :
  let c := choose_table_num_splits cfg session t in
  let tr := effective_split_target_rows cfg t in
  let tb := effective_split_target_bytes cfg t in
  let pr := effective_split_estimated_bytes_per_row cfg t in
  0 < tr \/ (0 < tb /\ 0 < pr) -> SPLIT_COUNT_MIN cfg <= SPLIT_COUNT_MAX cfg ->
  fetch_table_row_count session (td_source_table t) = Ok (Some rows) ->
  0 < rows -> rows * Z.max 1 pr < 2 ^ 53 ->
  SPLIT_COUNT_MIN cfg <= c <= SPLIT_COUNT_MAX cfg /\
  (c < SPLIT_COUNT_MAX cfg -> rows <= c * effective_max_rows cfg t).
Proof.
  intros c tr tb pr Hdyn Hlim Hrows Hpos Hbig.
  assert (Ec : c = compute_split_count (Some rows) tr tb pr (SPLIT_COUNT_MIN cfg) (SPLIT_COUNT_MAX cfg) (td_num_splits t)).
  { unfold c, choose_table_num_splits. cbv zeta. fold tr tb pr. rewrite Hrows.
    destruct (Z.leb_spec tr 0), (Z.leb_spec tb 0), (Z.leb_spec pr 0); cbn [andb orb]; done || lia. }
  clearbody c. subst c. unfold effective_max_rows. cbv zeta. fold tr tb pr.
  assert (Hr1 : rows < 2 ^ 53) by (apply Z.le_lt_trans with (2 := Hbig); nia).
  assert (Hr2 : rows * pr < 2 ^ 53) by (apply Z.le_lt_trans with (2 := Hbig); nia).
  set (cap := Z.max _ _). destruct Hdyn as [Htr|[Htb Hpr]].
  - destruct (split_count_ge rows tr tb pr _ _ (td_num_splits t) _ Hpos Hlim (or_introl (conj Htr eq_refl)))
      as [Hb Hp]. split; [exact Hb|]. intros Hc. specialize (Hp Hc).
    destruct (fceil_cover rows tr ltac:(lia) Htr) as [Hcov Hq]. assert (tr <= cap) by (unfold cap; lia). nia.
  - destruct (split_count_ge rows tr tb pr _ _ (td_num_splits t) _ Hpos Hlim
      (or_intror (conj Htb (conj Hpr eq_refl)))) as [Hb Hp]. split; [exact Hb|]. intros Hc. specialize (Hp Hc).
    destruct (fceil_cover (rows * pr) tb ltac:(nia) Htb) as [Hcov Hq].
    set (bt := Z.max 1 ((tb + pr - 1) / pr)).
    assert (Hbt : tb <= bt * pr).
    { unfold bt. pose proof (Z.div_mod (tb + pr - 1) pr ltac:(lia)). pose proof (Z.mod_pos_bound (tb + pr - 1) pr Hpr). nia. }
    assert (bt <= cap).
    { unfold cap. rewrite (proj2 (Z.ltb_lt 0 tb) Htb), (proj2 (Z.ltb_lt 0 pr) Hpr). cbn [andb]. fold bt. lia. }
    set (n := compute_split_count _ _ _ _ _ _ _) in *. clearbody n cap bt.
    set (q := fceil _) in *. clearbody q. apply (Zmult_le_reg_r _ _ pr); [lia|].
    assert (q * tb <= n * (bt * pr)) by nia. assert (n * bt <= n * cap) by nia.
    assert (n * bt * pr <= n * cap * pr) by (apply Z.mul_le_mono_nonneg_r; lia). lia.
Qed.
End plan_theorems.

(** ** Timestamp keys *)

(** Microseconds do not always survive [int(dt.timestamp() * 1_000_000)]: the
    largest key of this table is 2004-12-13 02:13:08.066799 UTC, its tick comes
    out one microsecond short, and the exclusive end of the last range is the
    key itself. *)
Example timestamp_maximum_dropped :
  compute_temporal_ranges (KStamp 1102903988000000 (Some 0)) (KStamp 1102903988066799 (Some 0)) 1 "timestamptz"
  = Ok [(KStamp 1102903988000000 (Some 0), KStamp 1102903988066799 (Some 0))].
Proof. vm_compute. reflexivity. Qed.

(** ** Instances *)

Definition demo_config (strategy : string) (target : Z) : source_config :=
  SourceConfig "postgresql://h/db" 1000 ∅ 3 strategy "span" target 0 0 1 256 0 true "none" (fun _ => None) false (fun _ => None).

Definition demo_columns : list column_def :=
  [ColumnDef 1 "id" "long" false None None None; ColumnDef 2 "day" "date" true None None None].

Definition demo_source (cfg : source_config) (key : option string) : table_def :=
  make_table cfg "orders" "dbo.orders" demo_columns (Some 3) key "" None None None None None None true.

Definition demo_splits (t : table_def) : list split_descriptor :=
  map (new_split t "wh/orders" 7 0) (zrange (td_num_splits t)).

Definition demo_session : read_session :=
  ReadSession (fun _ => Ok (Some 250)) (fun _ _ => Ok (Some (10, 19)))
    (fun _ _ => Ok (Some (KDate 730000, KDate 730009)))
    (fun _ _ _ => Ok (Some ([KInt 10; KInt 13], KInt 19))) (fun _ _ _ _ _ => Ok None).

Lemma demo_splits_fresh cfg key : fresh_splits (demo_source cfg key) (demo_splits (demo_source cfg key)).
Proof.
  intros i s Hi. destruct i as [|[|[|i]]]; [| | |done];
    (unfold demo_splits in Hi; cbn in Hi; injection Hi as <-; by vm_compute).
Qed.

Lemma unselected_rows_witness :
  let t := demo_source (demo_config "modulo" 0) None in
  ~ (exists s, s ∈ demo_splits t /\ split_selects (Some "long") s (Row (Some (KInt (-1))) 1)).
Proof.
  intros t Hs.
  destruct (unselected_rows t (Some "long") (demo_splits t) 1 (demo_splits_fresh _ None) eq_refl) as (_ & _ & Hneg).
  apply (Hneg (-1) ltac:(lia)) in Hs as [_ Hr]. vm_compute in Hr. discriminate Hr.
Defined.

Definition sentinel_session : read_session :=
  ReadSession (fun _ => Ok None) (fun _ _ => Ok None)
    (fun _ _ => Ok (Some (KDate 730000, KDate max_ordinal)))
    (fun _ _ _ => Ok None) (fun _ _ _ _ _ => Ok None).

Lemma date_planning_errors_witness :
  let cfg := demo_config "date" 0 in
  let t := demo_source cfg (Some "day") in
  plan_ranges_for_snapshot cfg sentinel_session t (demo_splits t) = Err date_error.
Proof.
  intros cfg t.
  exact (date_planning_errors cfg sentinel_session t "day" (demo_splits t) 730000 max_ordinal
    eq_refl ltac:(discriminate) eq_refl eq_refl eq_refl eq_refl ltac:(lia) ltac:(unfold max_ordinal; lia)).
Defined.

Lemma balanced_splits_partition_witness :
  let cfg := demo_config "range" 0 in
  let t := demo_source cfg None in
  exists ranges, balanced_ranges cfg demo_session t "id" (Some "long") 3 = Some ranges /\
    selected_once (Some "long") (assign_ranges (demo_splits t) ranges) (Row (Some (KInt 19)) 1).
Proof.
  intros cfg t.
  destruct (balanced_splits_partition cfg demo_session t "id" "long" (demo_splits t) [10; 13] 19 1)
    as (ranges & Hr & Hsel).
  - unfold INTEGER_TYPES. right. left.
  - discriminate.
  - repeat constructor; lia.
  - repeat constructor; lia.
  - vm_compute. lia.
  - vm_compute. reflexivity.
  - exists ranges. split; [exact Hr|]. apply Hsel. cbn. lia.
Defined.

(** The order of integer keys. *)
Definition int_key_le (a b : key_value) : Prop :=
  match a, b with KInt x, KInt y => x <= y | _, _ => a = b end.

#[local] Instance int_key_le_preorder : PreOrder int_key_le.
Proof.
  split; [intros []; cbn; done || lia|]. intros [] [] []; cbn; try done; try congruence; lia.
Qed.

Lemma histogram_mins_ascending_witness :
  exists mins, mins_from_histogram_steps [(KInt 1, 1); (KInt 5, 10); (KInt 9, 10)] 3 = Some mins /\
    StronglySorted int_key_le mins.
Proof.
  eexists. split; [vm_compute; reflexivity|].
  refine (proj1 (proj2 (histogram_mins_ascending int_key_le [(KInt 1, 1); (KInt 5, 10); (KInt 9, 10)] 3 _ _ _))).
  - repeat constructor; cbn; lia.
  - vm_compute. reflexivity.
Defined.

Lemma split_count_capacity_witness :
  let cfg := demo_config "range" 100 in
  let t := demo_source cfg None in
  choose_table_num_splits cfg demo_session t = 3 /\ 250 <= 3 * effective_max_rows cfg t.
Proof.
  intros cfg t. split; [vm_compute; reflexivity|].
  apply (split_count_capacity cfg demo_session t 250); vm_compute; try (by left); done || reflexivity.
Defined.
