(* ===== verification/SplitQueries.v ===== *)
(** * What the queries of the splits return

    The text of a split's query is that of a condition on the split key inside a SELECT
    with an order and a row limit; on a source that answers such queries the queries of
    the planned splits divide the rows among them. *)

From S2P Require Import Prelude PyText Sources Dialects Floats Snapshots SplitPlanner SplitPartition.
From Stdlib Require Import Ascii.

(** ** Conditions and their text *)

Inductive term :=
| Column (c : string)
| Param (p : string)
| IntOf (t : term)
| Modulo (a b : term).

Inductive condition :=
| AtLeast (a b : term)
| Below (a b : term)
| Equal (a b : term)
| Both (a b : condition).

Fixpoint show_term (d : dialect) (t : term) : string :=
  match t with
  | Column c => quote d c
  | Param p => ":" +:+ p
  | IntOf t => fmt ["CAST("; show_term d t; " AS "; int_cast_type d; ")"]
  | Modulo a b =>
      match d with
      | Oracle => fmt ["(MOD("; show_term d a; ", "; show_term d b; "))"]
      | Teradata => fmt ["("; show_term d a; " MOD "; show_term d b; ")"]
      | _ => fmt ["("; show_term d a; " % "; show_term d b; ")"]
      end
  end.

Fixpoint show_condition (d : dialect) (c : condition) : string :=
  match c with
  | AtLeast a b => fmt [show_term d a; " >= "; show_term d b]
  | Below a b => fmt [show_term d a; " < "; show_term d b]
  | Equal a b => fmt [show_term d a; " = "; show_term d b]
  | Both a b => fmt [show_condition d a; " AND "; show_condition d b]
  end.

(** A SELECT of the rows that meet a condition, in the order of a column, at most [:max_rows] of
    them. *)
Definition select_text (d : dialect) (projected source where_ order : string) : string :=
  match d with
  | MSSQL => fmt ["SELECT TOP (:max_rows) "; projected; " FROM "; source; " WHERE "; where_; " ORDER BY "; order]
  | Oracle => fmt ["SELECT "; projected; " FROM "; source; " WHERE "; where_; " ORDER BY "; order;
                   " FETCH FIRST :max_rows ROWS ONLY"]
  | Teradata => fmt ["SELECT "; projected; " FROM "; source; " WHERE "; where_;
                     " QUALIFY ROW_NUMBER() OVER (ORDER BY "; order; ") <= :max_rows ORDER BY "; order]
  | _ => fmt ["SELECT "; projected; " FROM "; source; " WHERE "; where_; " ORDER BY "; order; " LIMIT :max_rows"]
  end.

(** ** Their meaning *)

(** The dictionary of the parameters: a later entry replaces an earlier one. *)
Definition bound (params : list (string * bind_value)) (p : string) : option bind_value :=
  (list_to_map (reverse params) : gmap string bind_value) !! p.

(** The integer a term stands for, NULL being none, on a row whose column [key] is [v]. *)
Fixpoint term_value (params : list (string * bind_value)) (key : string) (v : option Z) (t : term) : option Z :=
  match t with
  | Column c => if String.eqb c key then v else None
  | Param p => match bound params p with Some (BInt z) | Some (BKey (KInt z)) => Some z | _ => None end
  | IntOf t => term_value params key v t
  | Modulo a b =>
      match term_value params key v a, term_value params key v b with
      | Some x, Some y => Some (Z.rem x y)
      | _, _ => None
      end
  end.

Definition compare_with (test : Z -> Z -> bool) (a b : option Z) : bool :=
  match a, b with Some x, Some y => test x y | _, _ => false end.

Fixpoint holds (params : list (string * bind_value)) (key : string) (v : option Z) (c : condition) : bool :=
  match c with
  | AtLeast a b => compare_with Z.geb (term_value params key v a) (term_value params key v b)
  | Below a b => compare_with Z.ltb (term_value params key v a) (term_value params key v b)
  | Equal a b => compare_with Z.eqb (term_value params key v a) (term_value params key v b)
  | Both a b => holds params key v a && holds params key v b
  end.

Definition range_condition (key : string) : condition :=
  Both (AtLeast (Column key) (Param "key_lo")) (Below (Column key) (Param "key_hi")).
Definition modulo_condition (key : string) : condition :=
  Equal (Modulo (IntOf (Column key)) (Param "num_splits")) (Param "split_index").

(** A source with the given rows, each with the value of its key column: it answers the two forms of
    query with the rows that meet the condition, by increasing key, cut to the row limit. *)
Definition answers {R} (key_of : R -> option Z) (execute : string -> list (string * bind_value) -> list R)
    (d : dialect) (projected key source : string) (rows : list R) : Prop :=
  forall c params n, c ∈ [range_condition key; modulo_condition key] -> bound params "max_rows" = Some (BInt n) ->
    exists found, found ≡ₚ filter (fun r => holds params key (key_of r) c = true) rows /\
      StronglySorted (fun a b => forall x y, key_of a = Some x -> key_of b = Some y -> x <= y) found /\
      execute (select_text d projected source (show_condition d c) (quote d key)) params = take (Z.to_nat n) found.

(** ** The text of the queries *)

(** Flatten two texts to the same sequence of pieces. *)
Ltac same_text :=
  cbn [show_term show_condition]; unfold cast_int; rewrite !fmt_cons; change (fmt []) with ""; rewrite ?app_nil_r_s;
  repeat (rewrite !app_assoc_s || rewrite !app_nil_r_s); cbn [String.append]; reflexivity.

Lemma integer_type kt : in_types kt INTEGER_TYPES = true -> kt = Some "int" \/ kt = Some "long".
Proof.
  destruct kt as [k|]; [|done]. cbn. intros H%bool_decide_eq_true.
  apply elem_of_cons in H as [->|H]; [by left|]. apply list_elem_of_singleton in H as ->. by right.
Qed.

Lemma range_text d projected source key kt : in_types kt INTEGER_TYPES = true ->
  build_select_range d projected source (quote d key) "key_lo" "key_hi" "max_rows" kt
  = select_text d projected source (show_condition d (range_condition key)) (quote d key).
Proof.
  intros [->| ->]%integer_type; destruct d;
    unfold build_select_range, base_build_select_range, mssql_build_select_range, oracle_build_select_range,
      databricks_build_select_range, teradata_build_select_range, range_parameter, oracle_range_parameter, range_condition, select_text;
    same_text.
Qed.

Lemma modulo_text d projected source key :
  build_select d projected source (quote d key) "num_splits" "split_index" "max_rows"
  = select_text d projected source (show_condition d (modulo_condition key)) (quote d key).
Proof.
  destruct d; unfold build_select, base_build_select, mssql_build_select, oracle_build_select,
    teradata_build_select, modulo_condition, select_text; same_text.
Qed.

(** ** The queries of the planned splits *)

Section queries.
Context (cfg : source_config) (session : read_session).

Definition source_dialect (t : table_def) : dialect := get_dialect (effective_db_url cfg (td_connection_id t)).

(** The selected columns of a table's queries. *)
Definition projected_text (t : table_def) : string :=
  match render_columns cfg t (source_dialect t) with
  | Ok rendered => join ", " (map (fun p : projection => p.1.1) rendered)
  | Err _ => ""
  end.

(** The condition of a split of an integer key. *)
Definition split_condition (s : split_descriptor) (key : string) : condition :=
  match sd_key_lo s, sd_key_hi s with
  | Some _, Some _ => range_condition key
  | _, _ => modulo_condition key
  end.

Lemma bound_last params p v : bound (params ++ [(p, v)]) p = Some v.
Proof. unfold bound. rewrite reverse_app. cbn. apply lookup_insert_eq. Qed.
Lemma bound_before params p q v : p <> q -> bound (params ++ [(p, v)]) q = bound params q.
Proof. intros Hne. unfold bound. rewrite reverse_app. cbn. by rewrite lookup_insert_ne. Qed.

(** The query of a split of an integer key: its text is that of its condition, its limit is that of the
    table, and the condition holds for exactly the rows the split selects. *)
Lemma split_query_condition s key sql params :
  integer_split s -> split_key_name cfg s = Ok key -> in_types (column_type (sd_table s) key) INTEGER_TYPES = true ->
  build_split_query cfg s = Ok (sql, params) ->
  sql = select_text (source_dialect (sd_table s)) (projected_text (sd_table s))
    (quote_qualified (source_dialect (sd_table s)) (td_source_table (sd_table s)))
    (show_condition (source_dialect (sd_table s)) (split_condition s key)) (quote (source_dialect (sd_table s)) key) /\
  bound params "max_rows" = Some (BInt (effective_max_rows cfg (sd_table s))) /\
  forall k, holds params key (Some k) (split_condition s key) = true <->
    split_selects (column_type (sd_table s) key) s (Row (Some (KInt k)) 0).
Proof.
  intros Hs Hkey Hint H. unfold build_split_query in H. destruct (require_explicit_split_key cfg (sd_table s)); [|done].
  cbn [mbind res_bind] in H. rewrite Hkey in H. cbn [mbind res_bind] in H. cbv zeta in H.
  destruct (_ && _) in H; [done|]. destruct (_ && _) in H; [done|]. destruct (existsb _ _) in H; [done|].
  fold (source_dialect (sd_table s)) in H. set (d := source_dialect (sd_table s)) in *.
  unfold projected_text. fold d. destruct (render_columns cfg (sd_table s) d) as [rendered|]; [|done]. cbn [mbind res_bind] in H.
  set (pre := concat _) in H. unfold split_selects, choose_predicate in *. unfold split_condition.
  destruct Hs as [Hlo|(lo & hi & Hlo & Hhi)].
  - rewrite Hlo, Hint in *. injection H as <- <-. split; [by rewrite modulo_text|].
    replace (pre ++ _) with (((pre ++ [("num_splits", BInt (sd_num_splits s))]) ++ [("split_index", BInt (sd_split_index s))])
      ++ [("max_rows", BInt (effective_max_rows cfg (sd_table s)))]) by (by rewrite <- !app_assoc).
    split; [apply bound_last|]. intros k. cbn [holds modulo_condition term_value selects row_key].
    rewrite String.eqb_refl, (bound_before _ "max_rows" "num_splits"), (bound_before _ "split_index" "num_splits") by done.
    rewrite bound_last, (bound_before _ "max_rows" "split_index"), bound_last by done. done.
  - rewrite Hlo, Hhi in *. rewrite andb_false_r in H |- *. injection H as <- <-.
    split; [by rewrite range_text|].
    assert (serialize_range_bound d (KInt lo) (column_type (sd_table s) key) = BKey (KInt lo) /\
            serialize_range_bound d (KInt hi) (column_type (sd_table s) key) = BKey (KInt hi)) as [-> ->].
    { destruct (integer_type _ Hint) as [-> | ->]; by destruct d. }
    replace (pre ++ _) with (((pre ++ [("key_lo", BKey (KInt lo))]) ++ [("key_hi", BKey (KInt hi))])
      ++ [("max_rows", BInt (effective_max_rows cfg (sd_table s)))]) by (by rewrite <- !app_assoc).
    split; [apply bound_last|]. intros k. cbn [holds range_condition term_value selects row_key].
    rewrite String.eqb_refl, (bound_before _ "max_rows" "key_lo"), (bound_before _ "key_hi" "key_lo") by done.
    rewrite bound_last, (bound_before _ "max_rows" "key_hi"), bound_last by done. cbn. by rewrite Z.geb_leb.
Qed.

(** *** Dividing the rows *)

Lemma divide_one {A B} (sel : A -> B -> bool) (l : list A) (r : B) rows i a :
  l !! i = Some a -> sel a r = true -> (forall j a', l !! j = Some a' -> sel a' r = true -> j = i) ->
  concat (map (fun a => filter (fun x => sel a x = true) (r :: rows)) l)
  ≡ₚ r :: concat (map (fun a => filter (fun x => sel a x = true) rows) l).
Proof.
  intros Hi Ha Hu. rewrite <- (take_drop_middle l i a Hi).
  assert (Hother : forall part, (forall x, x ∈ part -> sel x r = false) ->
    map (fun a => filter (fun x => sel a x = true) (r :: rows)) part = map (fun a => filter (fun x => sel a x = true) rows) part).
  { intros part Hpart. apply map_ext_in. intros x Hx. apply list_elem_of_In in Hx. rewrite filter_cons_False; [done|].
    by rewrite (Hpart x Hx). }
  rewrite !map_app, !concat_app. cbn [map concat]. rewrite (Hother (take i l)), (Hother (drop (S i) l)).
  - rewrite filter_cons_True by done. cbn [app]. by rewrite <- Permutation_middle.
  - intros x (j & Hj)%list_elem_of_lookup. destruct (sel x r) eqn:E; [|done]. rewrite lookup_drop in Hj.
    specialize (Hu _ _ Hj E). lia.
  - intros x (j & Hj)%list_elem_of_lookup. destruct (sel x r) eqn:E; [|done]. apply lookup_take_Some in Hj as [Hj Hlt].
    specialize (Hu _ _ Hj E). lia.
Qed.

Lemma divide_rows {A B} (sel : A -> B -> bool) (l : list A) rows :
  (forall r, r ∈ rows -> exists i a, l !! i = Some a /\ sel a r = true /\ forall j a', l !! j = Some a' -> sel a' r = true -> j = i) ->
  concat (map (fun a => filter (fun x => sel a x = true) rows) l) ≡ₚ rows.
Proof.
  induction rows as [|r rows IH]; intros Hrows.
  - clear. induction l as [|a l IH]; [done|]. cbn. exact IH.
  - destruct (Hrows r) as (i & a & Hi & Ha & Hu); [left|]. rewrite (divide_one sel l r rows i a) by done.
    rewrite IH; [done|]. intros r' Hr'. apply Hrows. by right.
Qed.

Lemma filter_same {A} (P Q : A -> bool) (l : list A) : (forall x, x ∈ l -> P x = true <-> Q x = true) ->
  filter (fun x => P x = true) l = filter (fun x => Q x = true) l.
Proof.
  induction l as [|a l IH]; intros H; [done|]. assert (Ha := H a ltac:(left)). rewrite !filter_cons, IH by (intros x Hx; apply H; by right).
  destruct (decide (P a = true)), (decide (Q a = true)); tauto.
Qed.

Lemma Forall2_choose {A B} (P : A -> B -> Prop) l : (forall a, a ∈ l -> exists b, P a b) -> exists k, Forall2 P l k.
Proof.
  induction l as [|a l IH]; intros H; [by exists []|]. destruct (H a) as [b Hb]; [left|].
  destruct IH as [k Hk]; [intros x Hx; apply H; by right|]. exists (b :: k). by constructor.
Qed.

(** Each split's query returns its part of the rows, in key order, cut to the row limit. *)
Definition divided {R} (execute : string -> list (string * bind_value) -> list R) (limit : Z)
    (splits : list split_descriptor) (rows : list R) : Prop :=
  exists parts, concat parts ≡ₚ rows /\ Forall2 (fun s part => exists sql params,
    build_split_query cfg s = Ok (sql, params) /\ execute sql params = take (Z.to_nat limit) part) splits parts.

Lemma queries_divide {R} (key_of : R -> option Z) execute t key splits rows :
  answers key_of execute (source_dialect t) (projected_text t) key (quote_qualified (source_dialect t) (td_source_table t)) rows ->
  Forall (fun s => sd_table s = t /\ integer_split s) splits ->
  Forall (fun s => split_key_name cfg s = Ok key) splits -> Forall (fun s => is_Ok (build_split_query cfg s)) splits ->
  in_types (column_type t key) INTEGER_TYPES = true ->
  (forall r, r ∈ rows -> exists k, key_of r = Some k /\ selected_once (column_type t key) splits (Row (Some (KInt k)) 0)) ->
  divided execute (effective_max_rows cfg t) splits rows.
Proof.
  intros Hans Hsp Hkey Hbuild Hint Hrows.
  set (sel := fun s r => match key_of r with
    | Some k => selects (sd_num_splits s) (sd_split_index s) (choose_predicate s (column_type t key)) (Row (Some (KInt k)) 0)
    | None => false end).
  destruct (Forall2_choose (fun s part => part ≡ₚ filter (fun r => sel s r = true) rows /\ exists sql params,
    build_split_query cfg s = Ok (sql, params) /\ execute sql params = take (Z.to_nat (effective_max_rows cfg t)) part) splits)
    as [parts Hparts].
  - intros s Hs. rewrite Forall_forall in Hsp, Hkey, Hbuild. destruct (Hsp s Hs) as [Ht Hi]. destruct (Hbuild s Hs) as [[sql params] Hq].
    rewrite <- Ht in Hint. destruct (split_query_condition s key sql params Hi (Hkey s Hs) Hint Hq) as (Hsql & Hmax & Hsel).
    rewrite Ht in *. destruct (Hans (split_condition s key) params (effective_max_rows cfg t)) as (found & Hperm & _ & Hex); [|done|].
    { unfold split_condition. destruct (sd_key_lo s), (sd_key_hi s); repeat constructor. }
    exists found. split; [|exists sql, params; split; [done|by rewrite Hsql]]. rewrite Hperm.
    erewrite (filter_same (fun r => holds params key (key_of r) (split_condition s key)) (sel s)); [done|]. intros r Hr. destruct (Hrows r Hr) as (k & Hk & _). unfold sel. rewrite Hk. apply Hsel.
  - exists parts. split.
    + transitivity (concat (map (fun s => filter (fun r => sel s r = true) rows) splits)).
      * clear -Hparts. induction Hparts as [|s part splits parts [H1 _] _ IH]; [done|]. cbn. by rewrite H1, IH.
      * apply divide_rows. intros r Hr. destruct (Hrows r Hr) as (k & Hk & i & s & Hi & Hs & Hu).
        exists i, s. unfold sel. rewrite Hk. split_and!; [done..|]. intros j s' Hj Hs'. by apply (Hu j s').
    + eapply Forall2_impl; [exact Hparts|]. by intros s part [_ ?].
Qed.

(** C28: the queries of the splits divide the rows of an integer-keyed source.  Whatever
    equal-span planning decides (no ranges, or ranges from the source's key bounds), when the queries
    can be built and split by an integer column, then for all rows whose keys are within those bounds, or
    not negative when there are no ranges, and every source that answers a SELECT of this shape with the
    rows that meet its WHERE condition, ordered and cut to the row limit: the rows fall into one part
    per split, each row into exactly one part, and each split's query returns its part, cut to the
    table's row limit.  So no row is read twice, and the only rows that are missed are those a
    part has beyond the limit. *)
Theorem planned_splits_partition {R} (key_of : R -> option Z) execute t splits b splits' key rows :
  fresh_splits t splits -> splits <> [] -> effective_split_balance cfg t <> "count" ->
  plan_ranges_for_snapshot cfg session t splits = Ok (b, splits') ->
  Forall (fun s => split_key_name cfg s = Ok key) splits' -> Forall (fun s => is_Ok (build_split_query cfg s)) splits' ->
  in_types (column_type t key) INTEGER_TYPES = true ->
  answers key_of execute (source_dialect t) (projected_text t) key (quote_qualified (source_dialect t) (td_source_table t)) rows ->
  if b then exists lo hi, fetch_key_bounds session (td_source_table t) key = Ok (Some (lo, hi)) /\
    ((forall r, r ∈ rows -> exists k, key_of r = Some k /\ lo <= k <= hi) -> divided execute (effective_max_rows cfg t) splits' rows)
  else (forall r, r ∈ rows -> exists k, key_of r = Some k /\ 0 <= k) -> divided execute (effective_max_rows cfg t) splits' rows.
Proof.
  intros Hf Hne Hbal Hplan Hkey Hbuild Hint Hans.
  destruct (planned_selected_once cfg session t splits b splits' key 0 Hf Hne Hbal Hplan Hkey Hint) as [Hall Honce].
  assert (forall P : Z -> Prop, (forall k, P k -> selected_once (column_type t key) splits' (Row (Some (KInt k)) 0)) ->
    (forall r, r ∈ rows -> exists k, key_of r = Some k /\ P k) -> divided execute (effective_max_rows cfg t) splits' rows) as Hdiv.
  { intros P HP Hrows. apply (queries_divide key_of execute t key); try done. intros r Hr.
    destruct (Hrows r Hr) as (k & Hk & Hp). exists k. split; [done|by apply HP]. }
  destruct b; [|by apply (Hdiv (fun k => 0 <= k))]. destruct Honce as (lo & hi & Hb & Honce). exists lo, hi. split; [done|].
  by apply (Hdiv (fun k => lo <= k <= hi)).
Qed.
End queries.

(** ** A source of three rows *)

Definition three_config : source_config := demo_config "range" 0.
Definition three_table : table_def := demo_source three_config None.
Definition three_rows : list Z := [10; 16; 19].
Definition three_text (c : condition) : string :=
  select_text (source_dialect three_config three_table) (projected_text three_config three_table)
    (quote_qualified (source_dialect three_config three_table) (td_source_table three_table))
    (show_condition (source_dialect three_config three_table) c) (quote (source_dialect three_config three_table) "id").

(** A database that recognises the two queries. *)
Definition three_execute (sql : string) (params : list (string * bind_value)) : list Z :=
  let c := if String.eqb sql (three_text (range_condition "id")) then range_condition "id" else modulo_condition "id" in
  match bound params "max_rows" with
  | Some (BInt n) => take (Z.to_nat n) (filter (fun k => holds params "id" (Some k) c = true) three_rows)
  | _ => []
  end.

Lemma three_answers :
  answers Some three_execute (source_dialect three_config three_table) (projected_text three_config three_table) "id"
    (quote_qualified (source_dialect three_config three_table) (td_source_table three_table)) three_rows.
Proof.
  intros c params n Hc Hn. exists (filter (fun k => holds params "id" (Some k) c = true) three_rows). split; [reflexivity|]. split.
  - unfold three_rows. repeat (rewrite filter_cons; case_decide);
      repeat constructor; intros x y [= <-] [= <-]; lia.
  - unfold three_execute. fold (three_text c). rewrite Hn.
    apply elem_of_cons in Hc as [->|Hc]; [by rewrite String.eqb_refl|]. apply list_elem_of_singleton in Hc as ->.
    assert (String.eqb (three_text (modulo_condition "id")) (three_text (range_condition "id")) = false) as -> by (vm_compute; reflexivity).
    reflexivity.
Qed.

Lemma planned_splits_partition_witness :
  exists splits', plan_ranges_for_snapshot three_config demo_session three_table (demo_splits three_table) = Ok (true, splits') /\
    divided three_config three_execute (effective_max_rows three_config three_table) splits' three_rows.
Proof.
  destruct (plan_ranges_for_snapshot three_config demo_session three_table (demo_splits three_table)) as [[b splits']|e] eqn:Hp;
    [|vm_compute in Hp; discriminate Hp].
  assert (b = true) as -> by (vm_compute in Hp; by injection Hp as <- _).
  exists splits'. split; [reflexivity|].
  destruct (planned_splits_partition three_config demo_session Some three_execute three_table (demo_splits three_table) true splits' "id" three_rows)
    as (lo & hi & Hb & Hdiv).
  - apply demo_splits_fresh.
  - discriminate.
  - discriminate.
  - exact Hp.
  - vm_compute in Hp. injection Hp as <-. repeat constructor.
  - vm_compute in Hp. injection Hp as <-. repeat constructor; eexists; vm_compute; reflexivity.
  - vm_compute. reflexivity.
  - exact three_answers.
  - injection Hb as <- <-. apply Hdiv. intros r Hr. exists r. split; [reflexivity|].
    unfold three_rows in Hr. rewrite !elem_of_cons in Hr. destruct Hr as [->|[->|[->|Hr]]]; [lia..|]. by apply not_elem_of_nil in Hr.
Defined.
