(* ===== verification/Authorization.v ===== *)
(** * Users, roles and permissions

    [security/authorization.py]: the permissions and the roles that grant them,
    users with grants bound to a context, the decision on one request, and the
    directory of users and groups with its encoding. *)

From S2P Require Import Prelude PyText Json ArtifactStore Sources.
From Stdlib Require Import Ascii.

(** ** Permissions and roles *)

Definition PERMISSIONS : gset string := list_to_set [
  "monitor.read"; "troubleshoot.read"; "config.read"; "config.write"; "storage.mount.inspect";
  "tokenization.assign"; "tokenization.policy.read"; "tokenization.policy.admin"; "tokenization.reidentify";
  "security.metadata.read"; "security.credentials.admin"; "users.admin"; "system.admin"].

Definition ROLE_PERMISSIONS : gmap string (gset string) := list_to_map [
  ("viewer", list_to_set ["monitor.read"]);
  ("monitor_troubleshooter", list_to_set ["monitor.read"; "troubleshoot.read"]);
  ("config_operator", list_to_set ["monitor.read"; "troubleshoot.read"; "config.read"; "config.write";
     "storage.mount.inspect"; "tokenization.assign"]);
  ("tokenization_administrator", list_to_set ["monitor.read"; "troubleshoot.read"; "tokenization.assign";
     "tokenization.policy.read"; "tokenization.policy.admin"]);
  ("security_administrator", list_to_set ["monitor.read"; "troubleshoot.read"; "security.metadata.read";
     "security.credentials.admin"]);
  ("user_administrator", list_to_set ["monitor.read"; "troubleshoot.read"; "users.admin"]);
  ("auditor", list_to_set ["tokenization.reidentify"]);
  ("system_administrator", PERMISSIONS ∖ {["tokenization.reidentify"]})].

Definition known_role (role : string) : bool := bool_decide (is_Some (ROLE_PERMISSIONS !! role)).

(** [f"unknown roles: {sorted(unknown)}"] *)
Definition unknown_roles (roles : list string) : exn :=
  ValueError (fmt ["unknown roles: "; repr_list (sorted_set (filter (fun r => known_role r = false) roles))]).

(** ** Directory object identifiers *)

(** [s.replace(p, "")] *)
Fixpoint remove_sub (p : string) (skip : nat) (s : string) : string :=
  match s with
  | EmptyString => ""
  | String a s' =>
      match skip with
      | S k => remove_sub p k s'
      | O => if startswith s p then remove_sub p (String.length p - 1) s' else String a (remove_sub p 0 s')
      end
  end.

Definition hex_digit (a : ascii) : option Z :=
  let n := Z.of_N (N_of_ascii a) in
  if (48 <=? n) && (n <=? 57) then Some (n - 48)
  else if (97 <=? n) && (n <=? 102) then Some (n - 87)
  else if (65 <=? n) && (n <=? 70) then Some (n - 55)
  else None.

(** [int(s, 16)]: white space and a sign around, [0x] in front, single
    underscores between digits *)
Fixpoint hex_digits (last : bool) (acc : Z) (s : string) : option Z :=
  match s with
  | EmptyString => if last then Some acc else None
  | String a s' =>
      match hex_digit a with
      | Some d => hex_digits true (16 * acc + d) s'
      | None => if Ascii.eqb a "_" && last then hex_digits false acc s' else None
      end
  end.

Definition hex_unsigned (s : string) : option Z :=
  match s with
  | String a (String b s') =>
      if Ascii.eqb a "0" && (Ascii.eqb b "x" || Ascii.eqb b "X") then hex_digits true 0 s' else hex_digits false 0 s
  | _ => hex_digits false 0 s
  end.

Definition hex_int_of_string (s : string) : option Z :=
  match strip s with
  | String a s' =>
      if Ascii.eqb a "-" then Z.opp <$> hex_unsigned s'
      else if Ascii.eqb a "+" then hex_unsigned s'
      else hex_unsigned (String a s')
  | EmptyString => None
  end.

(** [f"{n:0{w}x}"], the [w] low digits *)
Definition hex_char (d : Z) : ascii := ascii_of_N (Z.to_N (if d <? 10 then 48 + d else 87 + d)).
Fixpoint hex_text (w : nat) (n : Z) : string :=
  match w with
  | O => ""
  | S w => String (hex_char (n / 16 ^ Z.of_nat w mod 16)) (hex_text w n)
  end.

(** [str(uuid.UUID(s))] *)
Definition canonical_uuid (s : string) : option string :=
  let hex := remove_sub "-" 0 (strip_braces (remove_sub "uuid:" 0 (remove_sub "urn:" 0 s))) in
  if negb (Z.of_nat (String.length hex) =? 32) then None
  else match hex_int_of_string hex with
       | Some n =>
           if (0 <=? n) && (n <? 2 ^ 128) then
             let t := hex_text 32 n in
             Some (join "-" [str_take 8 t; str_take 4 (str_drop 8 t); str_take 4 (str_drop 12 t);
                             str_take 4 (str_drop 16 t); str_drop 20 t])
           else None
       | None => None
       end.

Definition entra_subject_id (tenant_id object_id : string) : res string :=
  match canonical_uuid (strip tenant_id), canonical_uuid (strip object_id) with
  | Some tenant, Some object_value => Ok (fmt ["entra:"; tenant; ":"; object_value])
  | _, _ => Err (ValueError "Entra tenant_id and object_id must be UUIDs")
  end.

(** ** Grants *)

(** A context binds keys to JSON values: the decoder does not convert them. *)
Record permission_grant := PermissionGrant {
  pg_permission : string;
  pg_context : dict;
}.

#[global] Instance permission_grant_eq_dec : EqDecision permission_grant.
Proof. solve_decision. Defined.

(** [not str(v).strip()]: only a string can be blank *)
Definition blank (v : json) : bool := match v with JStr s => negb (truthy_str (strip s)) | _ => false end.

(** [PermissionGrant(...)]: the constructor with its [__post_init__] *)
Definition make_grant (permission : string) (context : dict) : res permission_grant :=
  if negb (bool_decide (permission ∈ PERMISSIONS))
  then Err (ValueError (fmt ["unknown permission: "; quoted permission]))
  else if existsb (fun kv : string * json => negb (truthy_str (strip kv.1)) || blank kv.2) (map_to_list context)
  then Err (ValueError "permission context keys and values must be non-empty")
  else Ok (PermissionGrant permission context).

Definition grant_to_dict (g : permission_grant) : json :=
  JObj (mk_dict [("permission", JStr (pg_permission g)); ("context", JObj (pg_context g))]).

(** [dict(v or {})] *)
Definition dict_of (v : json) : res dict :=
  if truthy v then match v with
    | JObj d => Ok d
    | JList _ => Err (Unmodelled "dict() of a list")
    | JStr _ => Err (ValueError "dictionary update sequence element #0 has length 1; 2 is required")
    | _ => Err (TypeError "object is not iterable")
    end
  else Ok ∅.

Definition grant_from_dict (raw : json) : res permission_grant :=
  match raw with
  | JObj raw =>
      permission ← get_str raw "permission" "";
      context ← dict_of (dget raw "context" JNull);
      make_grant permission context
  | _ => Err (ValueError "permission grant must be an object")
  end.

(** ** Users *)

Record user := User {
  us_user_id : string;
  us_roles : list string;
  us_grants : list permission_grant;
  us_enabled : bool;
  us_identity_source : string;
  us_tenant_id : option string;
  us_object_id : option string;
  us_display_name : option string;
}.

#[global] Instance user_eq_dec : EqDecision user.
Proof. solve_decision. Defined.

(** [User(...)]: the constructor with its [__post_init__] *)
Definition make_user (u : user) : res user :=
  if negb (truthy_str (strip (us_user_id u))) || negb (str_forallb (fun a => negb (is_space a)) (us_user_id u))
  then Err (ValueError "user_id must be non-empty and contain no whitespace")
  else if negb (forallb known_role (us_roles u)) then Err (unknown_roles (us_roles u))
  else if negb (bool_decide (us_identity_source u ∈ ["local"; "oidc"; "entra"]))
  then Err (ValueError "identity_source must be 'local', 'oidc', or 'entra'")
  else if String.eqb (us_identity_source u) "entra" then
    if negb (truthy_opt (us_tenant_id u)) || negb (truthy_opt (us_object_id u))
    then Err (ValueError "Entra users require tenant_id and object_id")
    else
      subject ← entra_subject_id (or_empty (us_tenant_id u)) (or_empty (us_object_id u));
      if negb (String.eqb (us_user_id u) subject) then Err (ValueError "Entra user_id must match tenant_id and object_id")
      else Ok u
  else if bool_decide (us_tenant_id u <> None) || bool_decide (us_object_id u <> None)
  then Err (ValueError "tenant_id and object_id are only valid for Entra users")
  else Ok u.

Definition opt_json (o : option string) : json := match o with Some s => JStr s | None => JNull end.

(** [User.to_public] *)
Definition user_to_public (u : user) : dict :=
  let public := mk_dict [
    ("user_id", JStr (us_user_id u)); ("roles", JList (map JStr (us_roles u)));
    ("grants", JList (map grant_to_dict (us_grants u))); ("enabled", JBool (us_enabled u));
    ("identity_source", JStr (us_identity_source u))] in
  if String.eqb (us_identity_source u) "entra" then
    <["tenant_id" := opt_json (us_tenant_id u)]> (<["object_id" := opt_json (us_object_id u)]>
      (<["display_name" := opt_json (us_display_name u)]> public))
  else public.

Definition FORBIDDEN : list string := ["password"; "password_hash"; "secret"; "token"; "access_token"].

(** The elements of [v or []]: a string gives its characters. *)
Fixpoint chars (s : string) : list json :=
  match s with EmptyString => [] | String a s => JStr (String a "") :: chars s end.
Definition elements_of (v : json) : res (list json) :=
  if truthy v then match v with
    | JList l => Ok l
    | JStr s => Ok (chars s)
    | JObj _ => Err (Unmodelled "iteration over a dict")
    | _ => Err (TypeError "object is not iterable")
    end
  else Ok [].

(** [str(raw[k]).strip() if raw.get(k) else None] *)
Definition clean_opt (raw : dict) (k : string) : res (option string) :=
  let v := dget raw k JNull in
  if truthy v then s ← py_str v; Ok (Some (strip s)) else Ok None.

(** [User.from_dict] *)
Definition user_from_dict (raw : json) : res user :=
  match raw with
  | JObj raw =>
      if existsb (fun k => bool_decide (is_Some (raw !! k))) FORBIDDEN
      then Err (ValueError "user records must not contain credentials or tokens")
      else
        user_id ← get_str raw "user_id" "";
        roles ← elements_of (dget raw "roles" JNull);
        roles ← res_map (fun r => s ← py_str r; Ok (strip s)) roles;
        grants ← elements_of (dget raw "grants" JNull);
        grants ← res_map grant_from_dict grants;
        source ← get_str raw "identity_source" "local";
        tenant_id ← clean_opt raw "tenant_id";
        object_id ← clean_opt raw "object_id";
        display_name ← clean_opt raw "display_name";
        make_user (User (strip user_id) roles grants (get_bool raw "enabled" true) (lower (strip source))
                     tenant_id object_id display_name)
  | _ => Err (ValueError "user must be an object")
  end.

(** [ROLE_PERMISSIONS[role]] *)
Definition role_permissions (role : string) : res (gset string) := of_option (KeyError role) (ROLE_PERMISSIONS !! role).

(** [User.permissions] *)
Definition permissions (u : user) : res (gset string) :=
  by_role ← res_map role_permissions (us_roles u);
  Ok (⋃ by_role ∪ list_to_set (map pg_permission (filter (fun g => pg_context g = ∅) (us_grants u)))).

(** [requested.get(key) == value or value == "*"], for every key of the grant *)
Definition context_matches (requested : gmap string string) (context : dict) : bool :=
  forallb (fun kv : string * json =>
    bool_decide (opt_json (requested !! kv.1) = kv.2) || bool_decide (kv.2 = JStr "*")) (map_to_list context).

(** [User.can] *)
Definition can (u : user) (permission : string) (context : gmap string string) : res bool :=
  if negb (us_enabled u) || negb (bool_decide (permission ∈ PERMISSIONS)) then Ok false
  else
    ps ← permissions u;
    if bool_decide (permission ∈ ps) then Ok true
    else Ok (existsb (fun g => String.eqb (pg_permission g) permission && context_matches context (pg_context g)) (us_grants u)).

Record authorization_decision := AuthorizationDecision {
  de_user_id : string;
  de_permission : string;
  de_context : gmap string string;
  de_allowed : bool;
  de_reason : string;
}.

(** [authorize] *)
Definition authorize_user (u : user) (permission : string) (context : gmap string string) : res authorization_decision :=
  if negb (bool_decide (permission ∈ PERMISSIONS))
  then Ok (AuthorizationDecision (us_user_id u) permission context false "unknown permission")
  else if negb (us_enabled u)
  then Ok (AuthorizationDecision (us_user_id u) permission context false "user is disabled")
  else
    allowed ← can u permission context;
    Ok (AuthorizationDecision (us_user_id u) permission context allowed
          (if allowed : bool then "allowed" else "permission denied")).

Definition require (u : user) (permission : string) (context : gmap string string) : res authorization_decision :=
  decision ← authorize_user u permission context;
  if negb (de_allowed decision) then Err (AuthorizationError "permission denied") else Ok decision.

(** ** The directory *)

Record group := Group {
  gr_group_id : string;
  gr_tenant_id : string;
  gr_display_name : string;
  gr_roles : list string;
  gr_enabled : bool;
}.

Record directory := Directory {
  di_users : list (string * user);
  di_groups : list (string * group);
}.

Definition replace (u : user) : M directory unit :=
  modify (fun d => Directory (odict_set (us_user_id u) u (di_users d)) (di_groups d)).

(** [replace_group]: the group is stored before its roles are checked *)
Definition replace_group (raw : dict) : M directory unit :=
  group_id ← lift (get_str raw "group_id" "");
  let group_id := lower (strip group_id) in
  if negb (truthy_str group_id) then raise (ValueError "group_id must be non-empty")
  else
    tenant_id ← lift (get_str raw "tenant_id" "");
    display_name ← lift (get_str raw "display_name" "");
    roles ← lift (elements_of (dget raw "roles" JNull));
    roles ← lift (res_map (fun r => s ← py_str r; Ok (strip s)) roles);
    let g := Group group_id (strip tenant_id) (strip display_name) roles (get_bool raw "enabled" true) in
    modify (fun d => Directory (di_users d) (odict_set group_id g (di_groups d)));;
    if negb (forallb known_role roles) then raise (unknown_roles roles) else mret tt.

Definition groups_for (d : directory) (tenant_id : string) (group_ids : list string) : list group :=
  map snd (filter (fun kg : string * group =>
    bool_decide (kg.1 ∈ map lower group_ids) && gr_enabled kg.2
    && String.eqb (lower (gr_tenant_id kg.2)) (lower (strip tenant_id)) = true) (di_groups d)).

(** [any(...)]: stops at the first group that grants the permission *)
Fixpoint any_grants (permission : string) (gs : list group) : res bool :=
  match gs with
  | [] => Ok false
  | g :: gs =>
      granted ← res_map role_permissions (gr_roles g);
      if bool_decide (permission ∈ ⋃ granted) then Ok true else any_grants permission gs
  end.

Definition authorize_groups (d : directory) (tenant_id : string) (group_ids : list string) (permission : string) : res bool :=
  any_grants permission (groups_for d tenant_id group_ids).

Definition group_permissions (d : directory) (tenant_id : string) (group_ids : list string) : res (gset string) :=
  sets ← res_map (fun g => by_role ← res_map role_permissions (gr_roles g); Ok (⋃ by_role)) (groups_for d tenant_id group_ids);
  Ok (⋃ sets).

Definition get_user (user_id : string) (d : directory) : res user :=
  of_option (AuthorizationError "user not found") (odict_get user_id (di_users d)).

Definition is_admin (u : user) : bool := bool_decide ("system_administrator" ∈ us_roles u).
Definition enabled_admins (d : directory) : Z :=
  Z.of_nat (length (filter (fun ku : string * user => us_enabled ku.2 && is_admin ku.2 = true) (di_users d))).

Definition disabled (u : user) : user :=
  User (us_user_id u) (us_roles u) (us_grants u) false (us_identity_source u) (us_tenant_id u) (us_object_id u)
    (us_display_name u).

Definition disable (user_id : string) : M directory unit :=
  u ← (fun d => (get_user user_id d, d));
  if negb (us_enabled u) then mret tt
  else
    admins ← gets enabled_admins;
    if is_admin u && (admins <=? 1)
    then raise (AuthorizationError "cannot disable the last enabled system administrator")
    else
      v ← lift (make_user (disabled u));
      modify (fun d => Directory (odict_set user_id v (di_users d)) (di_groups d)).

Definition group_to_dict (g : group) : json :=
  JObj (mk_dict [("group_id", JStr (gr_group_id g)); ("tenant_id", JStr (gr_tenant_id g));
                 ("display_name", JStr (gr_display_name g)); ("roles", JList (map JStr (gr_roles g)));
                 ("enabled", JBool (gr_enabled g))]).

(** [sorted(self._users)], [sorted(self._groups)] *)
Definition entry_le {A} (a b : string * A) : Prop := (a.1 ≤ b.1)%string.
#[global] Instance entry_le_dec {A} (a b : string * A) : Decision (entry_le a b).
Proof. unfold entry_le. apply _. Defined.

Definition list_public (d : directory) : list json :=
  map (fun ku => JObj (user_to_public ku.2)) (merge_sort entry_le (di_users d)).
Definition list_groups_public (d : directory) : list json :=
  map (fun kg => group_to_dict kg.2) (merge_sort entry_le (di_groups d)).

(** [UserDirectory.to_dict] and [UserDirectory.from_dict] *)
Definition directory_to_dict (d : directory) : json :=
  JObj (mk_dict [("users", JList (list_public d)); ("groups", JList (list_groups_public d))]).

Definition directory_from_dict (raw : json) : res directory :=
  match raw with
  | JObj raw =>
      match dget raw "users" JNull with
      | JList users =>
          users ← res_map user_from_dict users;
          groups ← match dget raw "groups" (JList []) with
                   | JList groups => Ok groups
                   | JStr s => Ok (chars s)
                   | JObj _ => Err (Unmodelled "iteration over a dict")
                   | _ => Err (TypeError "object is not iterable")
                   end;
          let load :=
            forM_ replace users;;
            forM_ (fun g => match g with
                            | JObj g => replace_group g
                            | _ => raise (AttributeError "object has no attribute 'get'")
                            end) groups in
          let '(r, d) := load (Directory [] []) in
          _ ← r; Ok d
      | _ => Err (ValueError "user directory must contain a users list")
      end
  | _ => Err (ValueError "user directory must contain a users list")
  end.

(** * Theorems *)

#[local] Opaque entra_subject_id unknown_roles PERMISSIONS ROLE_PERMISSIONS.

(** ** Well-formed users *)

(** What the constructors establish. *)
Definition grant_ok (g : permission_grant) : Prop := make_grant (pg_permission g) (pg_context g) = Ok g.
Definition user_ok (u : user) : Prop := make_user u = Ok u /\ Forall grant_ok (us_grants u).

Lemma make_grant_ok p c g : make_grant p c = Ok g -> grant_ok g.
Proof.
  unfold grant_ok, make_grant. intros H. destruct (negb (bool_decide (p ∈ _))) eqn:Hp; [discriminate|].
  destruct (existsb _ (map_to_list c)) eqn:Hc; [discriminate|]. injection H as <-.
  cbn [pg_permission pg_context]. by rewrite Hp, Hc.
Qed.

Lemma grant_from_dict_ok raw g : grant_from_dict raw = Ok g -> grant_ok g.
Proof. unfold grant_from_dict. destruct raw; try done. intros H. invert_Ok H. by apply make_grant_ok in H. Qed.

Lemma make_user_inv u v : make_user u = Ok v -> v = u.
Proof.
  unfold make_user. intros H. destruct (negb (truthy_str _) || _); [discriminate|]. destruct (negb (forallb _ _)); [discriminate|].
  destruct (negb (bool_decide _)); [discriminate|]. destruct (String.eqb (us_identity_source u) "entra").
  - destruct (negb (truthy_opt _) || _); [discriminate|]. apply bind_Ok in H as (subject & _ & H).
    destruct (negb _); [discriminate|congruence].
  - destruct (_ || _); [discriminate|congruence].
Qed.

Lemma make_user_roles u v : make_user u = Ok v -> forallb known_role (us_roles u) = true.
Proof.
  unfold make_user. intros H. destruct (negb (truthy_str _) || _); [discriminate|].
  by destruct (forallb known_role (us_roles u)).
Qed.

(** Decoding builds users through the constructors. *)
Lemma user_from_dict_ok raw u : user_from_dict raw = Ok u -> user_ok u.
Proof.
  unfold user_from_dict. destruct raw; try done. destruct (existsb _ FORBIDDEN); [discriminate|]. intros H. invert_Ok H.
  pose proof (make_user_inv _ _ H) as ->. split; [done|]. cbn [us_grants].
  eapply res_map_Forall; [|done]. intros ?? ?. by eapply grant_from_dict_ok.
Qed.

Lemma make_user_disabled u v : make_user u = Ok v -> make_user (disabled u) = Ok (disabled u).
Proof.
  unfold make_user. cbn [disabled us_user_id us_roles us_identity_source us_tenant_id us_object_id].
  intros H. destruct (negb (truthy_str _) || _); [discriminate|]. destruct (negb (forallb _ _)); [discriminate|].
  destruct (negb (bool_decide _)); [discriminate|]. destruct (String.eqb (us_identity_source u) "entra").
  - destruct (negb (truthy_opt _) || _); [discriminate|]. apply bind_Ok in H as (subject & -> & H). cbn [mbind res_bind].
    destruct (negb _); [discriminate|reflexivity].
  - destruct (_ || _); [discriminate|reflexivity].
Qed.

Lemma disabled_ok u : user_ok u -> user_ok (disabled u).
Proof. intros [Hu Hg]. split; [by eapply make_user_disabled|done]. Qed.

Lemma role_permissions_known role : known_role role = true -> is_Ok (role_permissions role).
Proof.
  unfold known_role, role_permissions. intros [ps Hps]%bool_decide_eq_true. rewrite Hps. by exists ps.
Qed.

Lemma res_map_total {A B} (f : A -> res B) l : Forall (fun a => is_Ok (f a)) l -> is_Ok (res_map f l).
Proof.
  induction 1 as [|a l [b Hb] _ [bs Hbs]]; [by exists []|]. exists (b :: bs). cbn. rewrite Hb. cbn. by rewrite Hbs.
Qed.

Lemma known_roles_permissions roles : forallb known_role roles = true -> is_Ok (res_map role_permissions roles).
Proof.
  intros Hr. apply res_map_total, Forall_forall. intros role Hin. apply role_permissions_known.
  rewrite forallb_forall in Hr. apply Hr. by apply list_elem_of_In.
Qed.

Lemma elem_of_role_union roles sets p : res_map role_permissions roles = Ok sets ->
  p ∈ ⋃ sets <-> exists role ps, role ∈ roles /\ ROLE_PERMISSIONS !! role = Some ps /\ p ∈ ps.
Proof.
  revert sets. induction roles as [|role roles IH]; intros sets H; cbn [res_map] in H.
  - injection H as <-. set_solver.
  - apply bind_Ok in H as (ps & E & H). apply bind_Ok in H as (pss & E' & H). injection H as <-.
    unfold role_permissions in E. destruct (ROLE_PERMISSIONS !! role) as [ps'|] eqn:Hr; [|done]. injection E as ->.
    cbn. rewrite elem_of_union, (IH _ E'). split.
    + intros [Hp|(role' & ps' & ? & ? & ?)]; [exists role, ps|exists role', ps']; split_and!; try done; [left|by right].
    + intros (role' & ps' & [->|Hin]%elem_of_cons & Hl & Hp); [left|right; by exists role', ps']. congruence.
Qed.

(** ** The decision implements role-based access control *)

(** The policy the permissions, roles and grants define: an enabled user may use
    a known permission when a role of the user carries it, or a grant of it whose
    context agrees with the request on every key it binds. *)
Definition policy_allows (u : user) (permission : string) (requested : gmap string string) : Prop :=
  us_enabled u = true /\ permission ∈ PERMISSIONS /\
  ((exists role ps, role ∈ us_roles u /\ ROLE_PERMISSIONS !! role = Some ps /\ permission ∈ ps) \/
   (exists g, g ∈ us_grants u /\ pg_permission g = permission /\
      forall k v, pg_context g !! k = Some v -> v = JStr "*" \/ v = opt_json (requested !! k))).

Lemma context_matches_iff requested context :
  context_matches requested context = true <->
  forall k v, context !! k = Some v -> v = JStr "*" \/ v = opt_json (requested !! k).
Proof.
  unfold context_matches. rewrite forallb_forall. split.
  - intros Hall k v Hk. specialize (Hall (k, v)). cbn [fst snd] in Hall.
    rewrite <- list_elem_of_In, elem_of_map_to_list in Hall.
    apply Hall, orb_prop in Hk as [Hk|Hk]; apply bool_decide_eq_true in Hk; [by right|by left].
  - intros Hall [k v] Hin. rewrite <- list_elem_of_In, elem_of_map_to_list in Hin. cbn [fst snd].
    apply orb_true_intro. destruct (Hall k v Hin) as [->| ->]; [right|left]; by apply bool_decide_eq_true.
Qed.

Lemma permissions_total u : user_ok u -> exists ps, permissions u = Ok ps /\ forall p, p ∈ ps <->
  (exists role qs, role ∈ us_roles u /\ ROLE_PERMISSIONS !! role = Some qs /\ p ∈ qs) \/
  (exists g, g ∈ us_grants u /\ pg_permission g = p /\ pg_context g = ∅).
Proof.
  intros [Hu _]. destruct (known_roles_permissions _ (make_user_roles _ _ Hu)) as [sets Hs].
  unfold permissions. rewrite Hs. eexists. split; [reflexivity|]. intros p.
  rewrite elem_of_union, (elem_of_role_union _ _ p Hs), elem_of_list_to_set, list_elem_of_fmap.
  split; intros [Hr|Hg]; [by left| |by left|].
  - right. destruct Hg as (g & -> & [Hc Hg]%list_elem_of_filter). by exists g.
  - right. destruct Hg as (g & Hg & <- & Hc). exists g. split; [done|]. by apply list_elem_of_filter.
Qed.

Lemma can_iff u p requested : user_ok u -> exists b, can u p requested = Ok b /\ (b = true <-> policy_allows u p requested).
Proof.
  intros Hu. unfold can, policy_allows. destruct (us_enabled u); cbn [negb orb].
  2: { exists false. split; [done|]. naive_solver. }
  case_bool_decide as Hp; cbn [negb]; [|exists false; split; [done|]; naive_solver].
  destruct (permissions_total u Hu) as (ps & -> & Hps). cbn [mbind res_bind]. case_bool_decide as Hin.
  - exists true. split; [done|]. split; [intros _|done]. split_and!; [done..|].
    apply Hps in Hin as [Hr|(g & Hg & Hgp & Hc)]; [by left|right]. exists g. split_and!; [done..|].
    intros k v. by rewrite Hc, lookup_empty.
  - eexists. split; [reflexivity|]. rewrite existsb_exists. split.
    + intros (g & Hg%list_elem_of_In & [Hgp%String.eqb_eq Hm]%andb_prop). split_and!; [done..|]. right.
      exists g. split_and!; [done..|]. by apply context_matches_iff.
    + intros (_ & _ & [Hr|(g & Hg & Hgp & Hm)]); [destruct Hin; apply Hps; by left|].
      exists g. split; [by apply list_elem_of_In|]. apply andb_true_intro. split; [by apply String.eqb_eq|].
      by apply context_matches_iff.
Qed.

(** Both outcomes of [require]. *)
Lemma require_decides u p requested : user_ok u ->
  (policy_allows u p requested /\
   require u p requested = Ok (AuthorizationDecision (us_user_id u) p requested true "allowed")) \/
  (~ policy_allows u p requested /\ require u p requested = Err (AuthorizationError "permission denied")).
Proof.
  intros Hu. destruct (can_iff u p requested Hu) as (b & Hc & Hb). unfold require, authorize_user.
  case_bool_decide as Hp; cbn [negb]; [|right; split; [by intros (_ & ? & _)|reflexivity]].
  destruct (us_enabled u) eqn:He; cbn [negb]; [|right; split; [intros (? & _); congruence|reflexivity]].
  rewrite Hc. cbn [mbind res_bind]. destruct b; [left|right]; (split; [naive_solver|reflexivity]).
Qed.

(** C38: [require] implements the role-based policy.  For a well-formed user it
    returns the positive decision exactly when the policy allows the permission in
    the requested context, and otherwise raises [AuthorizationError]; no other
    error comes out of a decision. *)
Theorem require_implements_policy u p requested : user_ok u ->
  (policy_allows u p requested <->
   require u p requested = Ok (AuthorizationDecision (us_user_id u) p requested true "allowed")) /\
  (~ policy_allows u p requested <-> require u p requested = Err (AuthorizationError "permission denied")).
Proof. intros Hu. destruct (require_decides u p requested Hu) as [[Hp ->]|[Hp ->]]; split; split; done. Qed.

(** *** Separation of duties *)

Lemma reidentify_roles role ps : ROLE_PERMISSIONS !! role = Some ps -> "tokenization.reidentify" ∈ ps -> role = "auditor".
Proof.
  intros Hr Hp.
  assert (Hall : map_Forall (fun r qs => "tokenization.reidentify" ∈ qs -> r = "auditor") ROLE_PERMISSIONS)
    by (apply (bool_decide_eq_true _); vm_compute; reflexivity).
  by apply (Hall role ps).
Qed.

(** ** The directory *)

Definition directory_ok (d : directory) : Prop :=
  NoDup (map fst (di_users d)) /\ forall k u, (k, u) ∈ di_users d -> us_user_id u = k /\ user_ok u.

(** The calls that change a directory. *)
Inductive directory_op :=
| OpReplace (raw : json)
| OpReplaceGroup (raw : dict)
| OpDisable (user_id : string).

Definition run_directory_op (o : directory_op) : M directory unit :=
  match o with
  | OpReplace raw => u ← lift (user_from_dict raw); replace u
  | OpReplaceGroup raw => replace_group raw
  | OpDisable user_id => disable user_id
  end.

(** Any sequence of calls, each returning or raising. *)
Definition run_directory (ops : list directory_op) (d : directory) : directory :=
  foldl (fun d o => (run_directory_op o d).2) d ops.

Lemma replace_ok u d : user_ok u -> directory_ok d -> directory_ok (replace u d).2.
Proof.
  intros Hu [Hn Hd]. split; cbn; [by apply odict_set_NoDup|].
  intros k v [[= -> ->]|Hin]%elem_of_odict_set; [done|by apply Hd].
Qed.

Lemma replace_group_users raw d : di_users (replace_group raw d).2 = di_users d.
Proof.
  unfold replace_group. apply (wp_bind (lift (get_str raw "group_id" "")) _ (fun _ d' => di_users d' = di_users d)).
  apply wp_lift. destruct (get_str raw "group_id" "") as [i|]; [|done]. destruct (negb _); [done|].
  apply wp_bind, wp_lift. destruct (get_str raw "tenant_id" "") as [t|]; [|done].
  apply wp_bind, wp_lift. destruct (get_str raw "display_name" "") as [n|]; [|done].
  apply wp_bind, wp_lift. destruct (elements_of _) as [l|]; [|done].
  apply wp_bind, wp_lift. destruct (res_map _ l) as [roles|]; [|done].
  apply wp_bind. unfold modify, wp. cbn. by destruct (negb _).
Qed.

(** The cases of [disable]. *)
Lemma disable_cases user_id d : directory_ok d ->
  (exists r, disable user_id d = (r, d)) \/
  (exists u, odict_get user_id (di_users d) = Some u /\ us_enabled u = true /\
     (is_admin u = true -> 1 < enabled_admins d) /\
     disable user_id d = (Ok tt, Directory (odict_set user_id (disabled u) (di_users d)) (di_groups d))).
Proof.
  intros [_ Hd]. unfold disable, get_user, mbind, M_bind, gets, lift, modify, raise.
  destruct (odict_get user_id (di_users d)) as [u|] eqn:Hu; cbn [of_option]; [|left; by eexists].
  destruct (us_enabled u) eqn:He; cbn [negb]; [|left; by eexists].
  destruct (is_admin u && (enabled_admins d <=? 1)) eqn:Ha; [left; by eexists|].
  right. exists u. apply odict_get_In, Hd in Hu as Hok. destruct Hok as [_ [Hok _]].
  rewrite (make_user_disabled _ _ Hok). split_and!; [done|done| |done].
  intros Hadm. rewrite Hadm in Ha. cbn in Ha. lia.
Qed.

Lemma run_directory_op_ok o d : directory_ok d -> directory_ok (run_directory_op o d).2.
Proof.
  intros Hd. destruct o as [raw|raw|user_id]; cbn [run_directory_op].
  - unfold mbind, M_bind, lift. destruct (user_from_dict raw) as [u|e] eqn:Hu; [|done].
    apply replace_ok; [by eapply user_from_dict_ok|done].
  - unfold directory_ok. by rewrite replace_group_users.
  - destruct (disable_cases user_id d Hd) as [[r ->]|(u & Hu & _ & _ & ->)]; [done|].
    apply odict_get_In in Hu. destruct Hd as [Hn Hd]. destruct (Hd _ _ Hu) as [<- Hok].
    split; cbn; [by apply odict_set_NoDup|].
    intros k v [[= -> ->]|Hin]%elem_of_odict_set; [split; [done|by apply disabled_ok]|by apply Hd].
Qed.

Lemma run_directory_ok ops d : directory_ok d -> directory_ok (run_directory ops d).
Proof.
  revert d. induction ops as [|o ops IH]; intros d Hd; [done|]. by apply IH, run_directory_op_ok.
Qed.

(** C39: directories are well typed.  Whatever sequence of calls, returning or
    raising, builds a directory from stored records, every user in it sits under
    the user's own id, has only known roles and grants of known permissions, and
    no decision on that user raises: [can] always returns a boolean. *)
Theorem directory_well_typed ops k u p requested :
  (k, u) ∈ di_users (run_directory ops (Directory [] [])) ->
  us_user_id u = k /\ forallb known_role (us_roles u) = true /\
  Forall (fun g => pg_permission g ∈ PERMISSIONS) (us_grants u) /\ is_Ok (can u p requested).
Proof.
  intros Hin. assert (Hd : directory_ok (run_directory ops (Directory [] []))).
  { apply run_directory_ok. split; [constructor|]. by intros ?? ?%not_elem_of_nil. }
  apply Hd in Hin as [Hk Hu]. pose proof Hu as [Hm Hg]. split_and!; [done|by eapply make_user_roles| |].
  - eapply Forall_impl; [exact Hg|]. intros g. unfold grant_ok, make_grant.
    destruct (bool_decide (pg_permission g ∈ PERMISSIONS)) eqn:Hp; [|discriminate]. intros _. by apply bool_decide_eq_true in Hp.
  - destruct (can_iff u p requested Hu) as (b & -> & _). by exists b.
Qed.

(** *** The last administrator *)

Definition has_admin (d : directory) : Prop :=
  exists k u, (k, u) ∈ di_users d /\ us_enabled u = true /\ is_admin u = true.

Lemma filter_keys_NoDup {A} (P : string * A -> Prop) `{forall x, Decision (P x)} l :
  NoDup (map fst l) -> NoDup (map fst (filter P l)).
Proof.
  induction l as [|x l IH]; [done|]. intros [Hx Hl]%NoDup_cons. rewrite filter_cons. case_decide; [|auto].
  apply NoDup_cons. split; [|auto]. intros (y & E & [_ Hy]%list_elem_of_filter)%list_elem_of_fmap.
  apply Hx, list_elem_of_fmap. by exists y.
Qed.

Lemma two_keys {A} (l : list (string * A)) k : NoDup (map fst l) -> (1 < length l)%nat -> exists x, x ∈ l /\ x.1 <> k.
Proof.
  destruct l as [|x [|y l]]; cbn; [lia|lia|]. intros [Hx _]%NoDup_cons _.
  destruct (decide (x.1 = k)) as [<-|]; [|exists x; split; [left|done]].
  exists y. split; [right; left|]. intros E. destruct Hx. rewrite <- E. left.
Qed.

Lemma disable_keeps_admin user_id d : directory_ok d -> has_admin d -> has_admin (disable user_id d).2.
Proof.
  intros Hok Hadm. destruct (disable_cases user_id d Hok) as [[r ->]|(u & Hu & _ & Hlast & ->)]; [done|]. cbn.
  destruct Hok as [Hn _]. destruct Hadm as (k & v & Hv & Hve & Hva).
  destruct (decide (k = user_id)) as [->|Hk]; [|exists k, v; split; [by apply odict_set_other|done]].
  rewrite (odict_get_elem _ _ _ Hn Hv) in Hu. injection Hu as ->. specialize (Hlast Hva). unfold enabled_admins in Hlast.
  destruct (two_keys (filter (fun ku : string * user => us_enabled ku.2 && is_admin ku.2 = true) (di_users d)) user_id)
    as ([k' w] & [Hw Hin]%list_elem_of_filter & Hne).
  { by apply filter_keys_NoDup. }
  { lia. }
  cbn [fst snd] in *. apply andb_prop in Hw as [Hwe Hwa]. exists k', w. split; [by apply odict_set_other|done].
Qed.

(** No sequence of [disable] calls locks the administrators out.  From a
    directory with an enabled system administrator, however many users are
    disabled, an enabled system administrator is left. *)
Theorem last_admin_kept ops d ids : d = run_directory ops (Directory [] []) -> has_admin d ->
  has_admin (run_directory (map OpDisable ids) d).
Proof.
  intros -> Hadm. assert (Hok : directory_ok (run_directory ops (Directory [] []))).
  { apply run_directory_ok. split; [constructor|]. by intros ?? ?%not_elem_of_nil. }
  revert Hok Hadm. generalize (run_directory ops (Directory [] [])) as d.
  induction ids as [|i ids IH]; intros d Hok Hadm; [done|]. cbn. apply IH.
  - by apply (run_directory_op_ok (OpDisable i)).
  - by apply disable_keeps_admin.
Qed.

(** ** Saving and loading *)

(** What survives in a saved user: surrounding white space of the Entra fields
    and an empty display name do not, nor does the display name of other users. *)
Definition saved_opt (o : option string) : option string :=
  if truthy_opt o then Some (strip (or_empty o)) else None.
Definition saved_user (u : user) : user :=
  if String.eqb (us_identity_source u) "entra"
  then User (us_user_id u) (us_roles u) (us_grants u) (us_enabled u) (us_identity_source u)
         (saved_opt (us_tenant_id u)) (saved_opt (us_object_id u)) (saved_opt (us_display_name u))
  else User (us_user_id u) (us_roles u) (us_grants u) (us_enabled u) (us_identity_source u) None None None.

Lemma known_role_strip role : known_role role = true -> strip role = role.
Proof.
  unfold known_role. intros [ps Hps]%bool_decide_eq_true.
  assert (Hall : map_Forall (fun r _ => strip r = r) ROLE_PERMISSIONS)
    by (apply (bool_decide_eq_true _); vm_compute; reflexivity).
  by apply (Hall role ps).
Qed.

Lemma elements_of_list l : elements_of (JList l) = Ok l.
Proof. by destruct l. Qed.

Lemma strings_reload roles : forallb known_role roles = true ->
  res_map (fun r => s ← py_str r; Ok (strip s)) (map JStr roles) = Ok roles.
Proof.
  induction roles as [|r roles IH]; [done|]. cbn. intros [Hr Hrs]%andb_prop. rewrite (IH Hrs), known_role_strip by done.
  done.
Qed.

Lemma grant_roundtrip g : grant_ok g -> grant_from_dict (grant_to_dict g) = Ok g.
Proof.
  intros Hg. unfold grant_from_dict, grant_to_dict.
  change (get_str _ "permission" "") with (Ok (pg_permission g)).
  change (dget _ "context" JNull) with (JObj (pg_context g)). cbn [mbind res_bind]. unfold dict_of. cbn [truthy].
  case_bool_decide as Hc; cbn [negb]; [|exact Hg]. rewrite <- Hc. exact Hg.
Qed.

Lemma grants_reload gs : Forall grant_ok gs -> res_map grant_from_dict (map grant_to_dict gs) = Ok gs.
Proof.
  induction 1 as [|g gs Hg _ IH]; [done|]. cbn [map res_map]. rewrite (grant_roundtrip g Hg). cbn [mbind res_bind]. by rewrite IH.
Qed.

(** The shape of a well-formed user. *)
Lemma user_ok_inv u : user_ok u ->
  unspaced (us_user_id u) = true /\ truthy_str (us_user_id u) = true /\
  forallb known_role (us_roles u) = true /\ us_identity_source u ∈ ["local"; "oidc"; "entra"] /\
  (if String.eqb (us_identity_source u) "entra"
   then exists t o, us_tenant_id u = Some t /\ us_object_id u = Some o /\ entra_subject_id t o = Ok (us_user_id u)
   else us_tenant_id u = None /\ us_object_id u = None).
Proof.
  intros [Hu _]. unfold make_user in Hu.
  destruct (negb (truthy_str (strip (us_user_id u))) || negb (str_forallb (fun a => negb (is_space a)) (us_user_id u))) eqn:H1; [discriminate|].
  destruct (negb (forallb known_role (us_roles u))) eqn:H2; [discriminate|].
  destruct (negb (bool_decide (us_identity_source u ∈ ["local"; "oidc"; "entra"]))) eqn:H3; [discriminate|].
  apply orb_false_elim in H1 as [H1 H1']. apply negb_false_iff in H1, H1', H2, H3. apply bool_decide_eq_true in H3.
  rewrite strip_unspaced in H1 by done. split_and!; [done..|].
  destruct (String.eqb (us_identity_source u) "entra").
  - destruct (us_tenant_id u) as [t|]; [|discriminate]. destruct (us_object_id u) as [o|]; [|by rewrite orb_true_r in Hu].
    destruct (negb (truthy_opt (Some t)) || negb (truthy_opt (Some o))); [discriminate|].
    apply bind_Ok in Hu as (subject & Hs & Hu). destruct (String.eqb_spec (us_user_id u) subject) as [->|]; [|discriminate].
    by exists t, o.
  - destruct (us_tenant_id u), (us_object_id u); try discriminate. done.
Qed.

#[local] Transparent entra_subject_id.
Lemma subject_strip t o s : entra_subject_id t o = Ok s ->
  entra_subject_id (strip t) (strip o) = Ok s /\ truthy_str (strip t) = true /\ truthy_str (strip o) = true /\
  truthy_str t = true /\ truthy_str o = true.
Proof.
  intros H. unfold entra_subject_id in *. rewrite !strip_idem.
  destruct (canonical_uuid (strip t)) as [t'|] eqn:Ht; [|discriminate].
  destruct (canonical_uuid (strip o)) as [o'|] eqn:Ho; [|discriminate].
  split; [exact H|]. clear H.
  assert (Hs : forall x y, canonical_uuid (strip x) = Some y -> truthy_str (strip x) = true /\ truthy_str x = true).
  { intros [|a x] y Hx; [vm_compute in Hx; discriminate|]. split; [|done].
    destruct (strip (String a x)); [vm_compute in Hx; discriminate|done]. }
  destruct (Hs _ _ Ht), (Hs _ _ Ho). done.
Qed.

#[local] Opaque entra_subject_id.

Lemma saved_user_make u : user_ok u -> make_user (saved_user u) = Ok (saved_user u).
Proof.
  intros Hu. destruct (user_ok_inv u Hu) as (H1 & H2 & H3 & H4 & H5). unfold saved_user, make_user.
  destruct (String.eqb (us_identity_source u) "entra") eqn:He;
    cbn [us_user_id us_roles us_identity_source us_tenant_id us_object_id];
    rewrite strip_unspaced, H2 by done; unfold unspaced in H1; rewrite H1, H3, bool_decide_eq_true_2 by done; cbn [negb orb];
    rewrite He; [|done].
  destruct H5 as (t & o & -> & -> & Hs). apply subject_strip in Hs as (Hs & Ht & Ho & Ht' & Ho').
  assert (Hsv : forall x, truthy_str x = true -> saved_opt (Some x) = Some (strip x)) by (intros x Hx; unfold saved_opt, truthy_opt; cbn; by rewrite Hx).
  rewrite !Hsv by done. change (truthy_opt (Some (strip t))) with (truthy_str (strip t)).
  change (truthy_opt (Some (strip o))) with (truthy_str (strip o)). rewrite Ht, Ho. cbn [negb orb].
  change (or_empty (Some (strip t))) with (strip t). change (or_empty (Some (strip o))) with (strip o).
  rewrite Hs. cbn [mbind res_bind]. by rewrite String.eqb_refl.
Qed.

Lemma clean_opt_saved d k o : d !! k = Some (opt_json o) -> clean_opt d k = Ok (saved_opt o).
Proof.
  intros Hd. unfold clean_opt, dget, saved_opt. rewrite Hd. by destruct o as [[|a s]|].
Qed.

Lemma clean_opt_absent d k : d !! k = None -> clean_opt d k = Ok None.
Proof. intros Hd. unfold clean_opt, dget. by rewrite Hd. Qed.

Lemma user_roundtrip u : user_ok u -> user_from_dict (JObj (user_to_public u)) = Ok (saved_user u).
Proof.
  intros Hu. rewrite <- (saved_user_make u Hu). destruct (user_ok_inv u Hu) as (H1 & H2 & H3 & H4 & _).
  assert (Hsrc : lower (strip (us_identity_source u)) = us_identity_source u) 
    by (rewrite !elem_of_cons in H4; destruct H4 as [E|[E|[E|E%not_elem_of_nil]]]; by rewrite ?E).
  unfold user_from_dict, user_to_public, saved_user.
  destruct (String.eqb (us_identity_source u) "entra");
    (change (existsb _ FORBIDDEN) with false; cbv iota;
     change (get_str _ "user_id" "") with (Ok (us_user_id u));
     change (dget _ "roles" JNull) with (JList (map JStr (us_roles u)));
     change (dget _ "grants" JNull) with (JList (map grant_to_dict (us_grants u)));
     change (get_str _ "identity_source" "local") with (Ok (us_identity_source u));
     change (get_bool _ "enabled" true) with (us_enabled u);
     cbn [mbind res_bind]; rewrite !elements_of_list; cbn [mbind res_bind];
     rewrite (strings_reload _ H3); cbn [mbind res_bind]; rewrite (grants_reload _ (proj2 Hu)); cbn [mbind res_bind]).
  - rewrite (clean_opt_saved _ "tenant_id" (us_tenant_id u)), (clean_opt_saved _ "object_id" (us_object_id u)),
      (clean_opt_saved _ "display_name" (us_display_name u)) by reflexivity. cbn [mbind res_bind].
    by rewrite strip_unspaced, Hsrc by done.
  - rewrite !clean_opt_absent by reflexivity. cbn [mbind res_bind]. by rewrite strip_unspaced, Hsrc by done.
Qed.

Lemma saved_user_decides u p requested : can (saved_user u) p requested = can u p requested.
Proof. unfold saved_user. by destruct (String.eqb _ _). Qed.

(** *** Groups *)

Definition group_ok (k : string) (g : group) : Prop :=
  gr_group_id g = k /\ lower (strip k) = k /\ truthy_str k = true /\
  strip (gr_tenant_id g) = gr_tenant_id g /\ strip (gr_display_name g) = gr_display_name g.

Definition groups_ok (gs : list (string * group)) : Prop :=
  NoDup (map fst gs) /\ forall k g, (k, g) ∈ gs -> group_ok k g.

Lemma replace_group_groups raw d : groups_ok (di_groups d) -> groups_ok (di_groups (replace_group raw d).2).
Proof.
  intros Hd. unfold replace_group. apply (wp_bind (lift (get_str raw "group_id" "")) _ (fun _ d' => groups_ok (di_groups d'))).
  apply wp_lift. destruct (get_str raw "group_id" "") as [i|]; [|done].
  destruct (negb (truthy_str (lower (strip i)))) eqn:Hi; [done|].
  apply wp_bind, wp_lift. destruct (get_str raw "tenant_id" "") as [t|]; [|done].
  apply wp_bind, wp_lift. destruct (get_str raw "display_name" "") as [n|]; [|done].
  apply wp_bind, wp_lift. destruct (elements_of _) as [l|]; [|done].
  apply wp_bind, wp_lift. destruct (res_map _ l) as [roles|]; [|done].
  apply wp_bind. assert (Hset : groups_ok (odict_set (lower (strip i))
    (Group (lower (strip i)) (strip t) (strip n) roles (get_bool raw "enabled" true)) (di_groups d))).
  { destruct Hd as [Hn Hd]. split; [by apply odict_set_NoDup|].
    intros k g [[= -> ->]|Hin]%elem_of_odict_set; [|by apply Hd]. apply negb_false_iff in Hi.
    unfold group_ok. cbn [gr_group_id gr_tenant_id gr_display_name]. rewrite strip_lower, lower_idem, !strip_idem. done. }
  unfold modify, wp. destruct (negb (forallb known_role roles)); exact Hset.
Qed.

Lemma run_directory_groups ops d :
  directory_ok d -> groups_ok (di_groups d) -> groups_ok (di_groups (run_directory ops d)).
Proof.
  revert d. induction ops as [|o ops IH]; intros d Hok Hd; [done|]. cbn. apply IH; [by apply run_directory_op_ok|].
  destruct o as [raw|raw|user_id]; cbn [run_directory_op].
  - unfold mbind, M_bind, lift. by destruct (user_from_dict raw).
  - by apply replace_group_groups.
  - by destruct (disable_cases user_id d Hok) as [[r ->]|(u & _ & _ & _ & ->)].
Qed.

Lemma group_reload k g d : group_ok k g -> forallb known_role (gr_roles g) = true ->
  exists raw, group_to_dict g = JObj raw /\
    replace_group raw d = (Ok tt, Directory (di_users d) (odict_set k g (di_groups d))).
Proof.
  intros (<- & Hk & Hne & Ht & Hn) Hr. eexists. split; [reflexivity|]. unfold replace_group, mbind, M_bind, lift, modify.
  change (get_str _ "group_id" "") with (Ok (gr_group_id g)).
  change (get_str _ "tenant_id" "") with (Ok (gr_tenant_id g)).
  change (get_str _ "display_name" "") with (Ok (gr_display_name g)).
  change (dget _ "roles" JNull) with (JList (map JStr (gr_roles g))).
  change (get_bool _ "enabled" true) with (gr_enabled g).
  cbv beta iota zeta. rewrite Hk, Hne. cbn [negb]. rewrite elements_of_list.
  change (res_map _ (map JStr (gr_roles g))) with (res_map (fun r => s ← py_str r; Ok (strip s)) (map JStr (gr_roles g))).
  rewrite (strings_reload _ Hr), Hr, Ht, Hn. cbn [negb]. by destruct g.
Qed.

(** *** Loading the lists a directory writes *)

Lemma load_users l : forall acc gs,
  (forall k u, (k, u) ∈ l -> us_user_id u = k) -> NoDup (map fst (acc ++ l)) ->
  forM_ replace (map (fun ku => saved_user ku.2) l) (Directory acc gs) =
  (Ok tt, Directory (acc ++ map (fun ku => (ku.1, saved_user ku.2)) l) gs).
Proof.
  induction l as [|[k u] l IH]; intros acc gs Hid Hn; [by rewrite app_nil_r|].
  cbn [map forM_ foldM]. unfold mbind, M_bind, replace, modify. cbn [fst snd di_users di_groups].
  assert (Hk : us_user_id (saved_user u) = k).
  { rewrite <- (Hid k u) by left. unfold saved_user. by destruct (String.eqb _ _). }
  rewrite Hk, odict_set_fresh.
  - unfold forM_ in IH. rewrite map_app in Hn. cbn in Hn.
    change (foldM _ () ?l) with (foldM (fun (_ : unit) (a : user) => replace a) () l).
    rewrite IH; [by rewrite <- app_assoc|intros; apply Hid; by right|]. rewrite !map_app. cbn. by rewrite <- app_assoc.
  - rewrite map_app in Hn. apply NoDup_app in Hn as (_ & Hd & _). intros Hin. apply (Hd k Hin). left.
Qed.

Definition load_group (g : json) : M directory unit :=
  match g with
  | JObj g => replace_group g
  | _ => raise (AttributeError "object has no attribute 'get'")
  end.

Lemma load_groups us l : forall acc,
  (forall k g, (k, g) ∈ l -> group_ok k g /\ forallb known_role (gr_roles g) = true) -> NoDup (map fst (acc ++ l)) ->
  forM_ load_group (map (fun kg => group_to_dict kg.2) l) (Directory us acc) = (Ok tt, Directory us (acc ++ l)).
Proof.
  induction l as [|[k g] l IH]; intros acc Hid Hn; [by rewrite app_nil_r|].
  cbn [map forM_ foldM]. destruct (Hid k g ltac:(left)) as [Hg Hr].
  destruct (group_reload k g (Directory us acc) Hg Hr) as (raw & E & Hload). unfold mbind, M_bind. cbn [snd]. rewrite E.
  cbn [load_group]. rewrite Hload. cbn [di_users di_groups]. rewrite odict_set_fresh.
  - change (foldM _ () ?l) with (forM_ load_group l).
    rewrite IH; [by rewrite <- app_assoc|intros; apply Hid; by right|]. by rewrite <- app_assoc.
  - rewrite map_app in Hn. apply NoDup_app in Hn as (_ & Hd & _). intros Hin. apply (Hd k Hin). left.
Qed.

Lemma directory_reload d : directory_ok d -> groups_ok (di_groups d) ->
  (forall k g, (k, g) ∈ di_groups d -> forallb known_role (gr_roles g) = true) ->
  directory_from_dict (directory_to_dict d) =
  Ok (Directory (map (fun ku => (ku.1, saved_user ku.2)) (merge_sort entry_le (di_users d)))
        (merge_sort entry_le (di_groups d))).
Proof.
  intros [Hn Hd] [Hgn Hg] Hr. unfold directory_from_dict, directory_to_dict.
  change (dget _ "users" JNull) with (JList (list_public d)).
  change (dget _ "groups" (JList [])) with (JList (list_groups_public d)). cbv beta iota.
  unfold list_public, list_groups_public. set (us := merge_sort entry_le (di_users d)). set (gs := merge_sort entry_le (di_groups d)).
  assert (Hus : us ≡ₚ di_users d) by apply merge_sort_Permutation.
  assert (Hgs : gs ≡ₚ di_groups d) by apply merge_sort_Permutation.
  rewrite (res_map_roundtrip _ _ (fun ku => saved_user ku.2)).
  2: { intros [k u] Hin. rewrite Hus in Hin. apply user_roundtrip, (Hd k u Hin). }
  cbn [mbind res_bind]. unfold mbind at 1, M_bind at 1. rewrite load_users.
  2: { intros k u Hin. rewrite Hus in Hin. apply (Hd k u Hin). }
  2: { cbn [app]. by rewrite Hus. }
  change (forM_ _ (map _ gs)) with (forM_ load_group (map (fun kg => group_to_dict kg.2) gs)). rewrite load_groups; [done| |].
  - intros k g Hin. rewrite Hgs in Hin. split; [by apply Hg|by eapply Hr].
  - cbn [app]. by rewrite Hgs.
Qed.

(** The decision on groups depends only on which groups there are. *)
Definition group_grants (p : string) (g : group) : bool :=
  existsb (fun role => match ROLE_PERMISSIONS !! role with Some ps => bool_decide (p ∈ ps) | None => false end) (gr_roles g).

Lemma any_grants_known p gs : Forall (fun g => forallb known_role (gr_roles g) = true) gs ->
  any_grants p gs = Ok (existsb (group_grants p) gs).
Proof.
  induction 1 as [|g gs Hg _ IH]; [done|]. cbn [any_grants existsb].
  destruct (known_roles_permissions _ Hg) as [sets Hs]. rewrite Hs. cbn [mbind res_bind].
  assert (Hb : bool_decide (p ∈ ⋃ sets) = group_grants p g).
  { apply eq_true_iff_eq. rewrite bool_decide_eq_true, (elem_of_role_union _ _ p Hs). unfold group_grants.
    rewrite existsb_exists. split.
    - intros (role & ps & Hin & Hl & Hp). exists role. split; [by apply list_elem_of_In|]. rewrite Hl. by apply bool_decide_eq_true.
    - intros (role & Hin%list_elem_of_In & Hp). destruct (ROLE_PERMISSIONS !! role) as [ps|] eqn:Hl; [|done].
      apply bool_decide_eq_true in Hp. by exists role, ps. }
  rewrite Hb. by destruct (group_grants p g).
Qed.

Lemma authorize_groups_perm d d' tenant ids p :
  di_groups d' ≡ₚ di_groups d -> (forall k g, (k, g) ∈ di_groups d -> forallb known_role (gr_roles g) = true) ->
  authorize_groups d' tenant ids p = authorize_groups d tenant ids p.
Proof.
  intros Hperm Hr.
  assert (Hp : groups_for d' tenant ids ≡ₚ groups_for d tenant ids) by (unfold groups_for; by rewrite Hperm).
  assert (Hall : Forall (fun g => forallb known_role (gr_roles g) = true) (groups_for d tenant ids)).
  { apply Forall_forall. intros g ([k g'] & -> & [_ Hin]%list_elem_of_filter)%list_elem_of_fmap. by eapply Hr. }
  unfold authorize_groups. rewrite !any_grants_known; [|done|by rewrite Hp].
  f_equal. apply eq_true_iff_eq. rewrite !existsb_exists. setoid_rewrite <- list_elem_of_In. by setoid_rewrite Hp.
Qed.

(** Saving a directory and loading it again changes no decision.  For every
    directory that calls can build and whose groups have known roles, the encoding
    decodes; the same users are found, each deciding every permission as before,
    and the groups decide as before. *)
Theorem directory_roundtrip ops d : d = run_directory ops (Directory [] []) ->
  (forall k g, (k, g) ∈ di_groups d -> forallb known_role (gr_roles g) = true) ->
  exists d', directory_from_dict (directory_to_dict d) = Ok d' /\
    (forall id p requested,
       (u ← get_user id d'; can u p requested) = (u ← get_user id d; can u p requested)) /\
    (forall tenant ids p, authorize_groups d' tenant ids p = authorize_groups d tenant ids p).
Proof.
  intros -> Hr. set (d := run_directory ops (Directory [] [])) in *.
  assert (Hempty : directory_ok (Directory [] [])) by (split; [constructor|by intros ?? ?%not_elem_of_nil]).
  assert (Hok : directory_ok d) by by apply run_directory_ok.
  assert (Hg : groups_ok (di_groups d)).
  { apply run_directory_groups; [done|]. split; [constructor|by intros ?? ?%not_elem_of_nil]. }
  eexists. split; [by apply directory_reload|]. split.
  - intros id p requested. unfold get_user. cbn [di_users].
    rewrite (odict_get_perm saved_user (di_users d)); [|apply Hok|apply merge_sort_Permutation].
    destruct (odict_get id (di_users d)) as [u|]; [|done]. apply saved_user_decides.
  - intros tenant ids p. apply authorize_groups_perm; [apply merge_sort_Permutation|done].
Qed.

(** ** A worked directory *)

Definition demo_user (id role : string) : json :=
  JObj (mk_dict [("user_id", JStr id); ("roles", JList [JStr role])]).
Definition demo_ops : list directory_op :=
  [OpReplace (demo_user "root" "system_administrator"); OpReplace (demo_user "eve" "auditor");
   OpReplaceGroup (mk_dict [("group_id", JStr "Ops"); ("roles", JList [JStr "config_operator"])])].
Definition demo_admin : user := User "root" ["system_administrator"] [] true "local" None None None.

Lemma require_implements_policy_witness :
  user_ok demo_admin /\ ~ policy_allows demo_admin "tokenization.reidentify" ∅.
Proof.
  assert (Hu : user_ok demo_admin) by (split; [vm_compute; reflexivity|constructor]). split; [exact Hu|].
  apply (proj2 (require_implements_policy demo_admin "tokenization.reidentify" ∅ Hu)). vm_compute. reflexivity.
Defined.

Lemma directory_well_typed_witness : is_Ok (can demo_admin "system.admin" ∅).
Proof.
  refine (proj2 (proj2 (proj2 (directory_well_typed demo_ops "root" demo_admin "system.admin" ∅ _)))).
  vm_compute. left.
Defined.

Lemma last_admin_kept_witness :
  has_admin (run_directory (map OpDisable ["eve"; "root"; "nobody"; "root"]) (run_directory demo_ops (Directory [] []))).
Proof.
  apply (last_admin_kept demo_ops); [reflexivity|].
  exists "root", demo_admin. split; [vm_compute; left|split; vm_compute; reflexivity].
Defined.

Lemma directory_roundtrip_witness :
  exists d', directory_from_dict (directory_to_dict (run_directory demo_ops (Directory [] []))) = Ok d'.
Proof.
  destruct (directory_roundtrip demo_ops (run_directory demo_ops (Directory [] [])) eq_refl) as (d' & Hd & _).
  - intros k g Hin. vm_compute in Hin. apply elem_of_cons in Hin as [E|E%not_elem_of_nil]; [|destruct E].
    injection E as -> ->. vm_compute. reflexivity.
  - exists d'. exact Hd.
Defined.

(** *** Where the code departs from its intent *)

(** A group that is refused stays in the directory, and a later decision on it
    raises. *)
Example refused_group_stays :
  let d := (replace_group (mk_dict [("group_id", JStr "g"); ("tenant_id", JStr "t"); ("roles", JList [JStr "wizard"])])
              (Directory [] [])).2 in
  authorize_groups d "t" ["g"] "monitor.read" = Err (KeyError "wizard").
Proof. vm_compute. reflexivity. Qed.

(** [replace] has no guard: saving the last administrator as disabled removes
    the last enabled administrator. *)
Example replace_removes_last_admin :
  enabled_admins (run_directory demo_ops (Directory [] [])) = 1 /\
  enabled_admins (run_directory (demo_ops ++ [OpReplace (JObj (mk_dict [("user_id", JStr "root");
    ("roles", JList [JStr "system_administrator"]); ("enabled", JBool false)]))]) (Directory [] [])) = 0.
Proof. vm_compute. done. Qed.
