(* ===== verification/OperatorGate.v ===== *)
(** * The operator gate

    [security/authorization_middleware.py], with the request authentication of
    [security/authorization.py] and the route predicates of
    [security/agent_auth.py] and [security/operator_auth.py] it calls: which
    permission a route needs, who may use it, and the rate and concurrency limits
    of mount operations.  [dispatch] is two steps around the handler it calls:
    [dispatch] decides, [complete] runs when the handler has answered or raised; other
    requests run in between.  The identity providers (sessions, Entra and OIDC
    tokens) are functions of the environment. *)

From S2P Require Import Prelude PyText Json World Sources Authorization.
From Stdlib Require Import Ascii.

(** ** Requests and settings *)

Record http_request := HttpRequest {
  hr_method : string;
  hr_path : string;
  hr_headers : gmap string string;
  hr_cookies : gmap string string;
  hr_user : option user;
}.

Definition header (r : http_request) (k : string) : string := default "" (hr_headers r !! k).

Record gate_env := GateEnv {
  FSP_AUTHZ_ENFORCE : string;
  MANAGER_AUTH_ENABLED : bool;
  MANAGER_AUTH_PASSWORD : string;
  ADMIN_TOKEN : string;
  FSP_INTERNAL_MONITOR_TOKEN : string;
  MOUNT_TEST_REQUESTS_PER_MINUTE : Z;
  MOUNT_TEST_MAX_CONCURRENCY : Z;
  resolve_session : string -> option user;
  authenticate_entra_token : string -> option user;
  authenticate_oidc_token : string -> option user;
  audit_available : bool;
}.

(** ** Routes *)

Definition one_of (s : string) (l : list string) : bool := bool_decide (s ∈ l).
Definition reading (method : string) : bool := one_of method ["GET"; "HEAD"].

Definition AGENT_EXACT_ROUTES : list (string * string) :=
  [("POST", "/control/register"); ("POST", "/control/heartbeat"); ("POST", "/control/task-result");
   ("POST", "/control/materialize")].
Definition AGENT_PREFIX_ROUTES : list (string * string) :=
  [("GET", "/control/assignment/"); ("GET", "/control/snapshot/")].

Definition matches_single_segment (method path route_method prefix : string) : bool :=
  let suffix := if startswith path prefix then str_drop (String.length prefix) path else "" in
  String.eqb method route_method && truthy_str suffix && negb (str_contains "/" suffix).

Definition is_agent_route (method path : string) : bool :=
  let normalized_method := upper method in
  bool_decide ((normalized_method, path) ∈ AGENT_EXACT_ROUTES)
  || existsb (fun mp : string * string => matches_single_segment normalized_method path mp.1 mp.2) AGENT_PREFIX_ROUTES.

Definition EXEMPT_PREFIXES : list string := ["/healthz"; "/readyz"; "/favicon.ico"].
Definition DEFAULT_OPERATOR_PREFIXES : list string :=
  ["/_admin"; "/_config"; "/_manager"; "/_monitor"; "/agents"; "/control"].

Definition is_operator_route (path : string) (prefixes : list string) : bool :=
  existsb (fun p => String.eqb path p || startswith path (p +:+ "/")) prefixes.

(** [internal_monitor_ok] *)
Definition internal_monitor_ok (e : gate_env) (r : http_request) : bool :=
  if negb (startswith (hr_path r) "/_monitor/api/") then false
  else
    let presented := header r "x-fsp-internal-monitor" in
    truthy_str (FSP_INTERNAL_MONITOR_TOKEN e) && truthy_str presented
    && String.eqb presented (FSP_INTERNAL_MONITOR_TOKEN e).

Definition MOUNT_OPERATIONS : list string := ["/_config/api/mounts/test"; "/_config/api/mounts/inspect"].
Definition CONFIG_RESOURCES : list string :=
  ["apply"; "audit"; "bootstrap"; "connect"; "connections"; "current"; "inspect"; "manager"; "modules"; "mounts";
   "open-mirror"; "save"; "settings"; "sources"; "tokenization-key-references"].

(** [authorization_enforced] *)
Definition authorization_enforced (e : gate_env) (path : string) : bool :=
  if startswith path "/_reidentify/" then true
  else if String.eqb (strip (FSP_AUTHZ_ENFORCE e)) "1" then true
  else is_operator_route path DEFAULT_OPERATOR_PREFIXES && MANAGER_AUTH_ENABLED e && truthy_str (MANAGER_AUTH_PASSWORD e).

(** [_permission] *)
Definition route_permission (path method : string) : option string :=
  let under p := startswith path p in
  if under "/_reidentify/api/v1/lookup" then Some "tokenization.reidentify"
  else if under "/_admin" then Some (if reading method then "monitor.read" else "system.admin")
  else if String.eqb path "/agents" || under "/agents/" then Some (if reading method then "monitor.read" else "system.admin")
  else if String.eqb path "/control" || under "/control/" then Some "system.admin"
  else if negb (under "/_config" || under "/_manager" || under "/_monitor") then None
  else if one_of path ["/_config/api/authorization/login"; "/_config/api/authorization/status";
                       "/_config/api/authorization/msal-config"; "/_manager"; "/_manager/";
                       "/_manager/api/authorization/msal-config"; "/_config/"; "/_config"] then None
  else if under "/_config/api/authorization/logout" || under "/_config/api/authorization/me" then Some "monitor.read"
  else if under "/_config/api/authorization/users" then Some "users.admin"
  else if under "/_config/api/authorization/groups" then Some "users.admin"
  else if under "/_config/api/entra/directory/" then Some "users.admin"
  else if under "/_config/api/tokenization/policies"
  then Some (if reading method then "tokenization.policy.read" else "tokenization.policy.admin")
  else if under "/_config/api/tokenization-keys"
  then Some (if reading method then "security.metadata.read" else "security.credentials.admin")
  else if under "/_config/api/reidentification/mappings" then Some "system.admin"
  else if existsb (fun p => under ("/_config/api/" +:+ p))
            ["credentials"; "s3-credentials"; "azure-credentials"; "access-keys"; "backup"; "restore"]
  then Some (if reading method then "security.metadata.read" else "security.credentials.admin")
  else if under "/_config/api/keyvault" then Some "security.metadata.read"
  else if one_of path ["/_config/api/mounts/test"; "/_config/api/mounts/inspect"] then Some "storage.mount.inspect"
  else if under "/_manager/api/health" || under "/_monitor" then Some "monitor.read"
  else if under "/_manager/api/" then Some (if reading method then "monitor.read" else "system.admin")
  else if existsb (fun p => String.eqb path ("/_config/api/" +:+ p) || under ("/_config/api/" +:+ p +:+ "/")) CONFIG_RESOURCES
  then Some (if reading method then "config.read" else "config.write")
  else None.

(** [path.rsplit("/", 1)[-1]] *)
Definition last_segment (path : string) : string := default "" (last (split_on "/" path)).

(** [_context] *)
Definition route_context (path : string) : gmap string string :=
  let bounded s := truthy_str s && (Z.of_nat (String.length s) <=? 200) in
  let context : gmap string string := ∅ in
  let context := if startswith path "/_config/api/tokenization/policies/" && bounded (last_segment path)
                 then <["policy_namespace" := last_segment path]> context else context in
  if startswith path "/_config/api/authorization/users/" && bounded (last_segment path)
  then <["user" := last_segment path]> context else context.

(** ** Authentication *)

Definition authenticate_admin_token (e : gate_env) (supplied_token : string) : option user :=
  if truthy_str (ADMIN_TOKEN e) && truthy_str supplied_token && String.eqb supplied_token (ADMIN_TOKEN e)
  then Some (User "admin-token" ["system_administrator"] [] true "local" None None None) else None.

(** The first provider that knows the caller, in the order of the code. *)
Definition authenticate_request (e : gate_env) (supplied_token session_token bearer : string) : option user :=
  match authenticate_admin_token e supplied_token with
  | Some u => Some u
  | None =>
      match (if truthy_str session_token then resolve_session e session_token else None) with
      | Some u => Some u
      | None =>
          if truthy_str bearer then
            match authenticate_entra_token e bearer with
            | Some u => Some u
            | None => authenticate_oidc_token e bearer
            end
          else None
      end
  end.

Definition bearer_token (authorization_header : string) : string :=
  match partition " " authorization_header with
  | Some (scheme, tok) => if String.eqb (lower scheme) "bearer" then strip tok else ""
  | None => ""
  end.

(** ** The gate *)

Record audit_entry := AuditEntry {
  au_status : Z;
  au_outcome : string;
  au_reason : string;
  au_identity : string;
}.

Record gate_state := GateState {
  gs_hits : gmap string (list Z);
  gs_active : Z;
  gs_audit : list audit_entry;
  gs_ticks : nat;
}.

Inductive verdict :=
| Forward (u : option user) (slot : option string)
| Respond (status : Z) (error : string).

(** [while hits and hits[0] <= now - 60: hits.popleft()], in milliseconds *)
Fixpoint expire_hits (horizon : Z) (hits : list Z) : list Z :=
  match hits with
  | [] => []
  | t :: hits' => if t <=? horizon then expire_hits horizon hits' else hits
  end.
Definition WINDOW_MS : Z := 60000.

Section gate.
Context `{Env} (e : gate_env).

Definition mount_rate : Z := Z.max 1 (MOUNT_TEST_REQUESTS_PER_MINUTE e).
Definition mount_max_active : Z := Z.max 1 (MOUNT_TEST_MAX_CONCURRENCY e).

Definition mount_rate_allowed (identity : string) : M gate_state bool := fun s =>
  let now := clock (gs_ticks s) in
  let hits := expire_hits (now - WINDOW_MS) (default [] (gs_hits s !! identity)) in
  if mount_rate <=? Z.of_nat (length hits)
  then (Ok false, GateState (<[identity := hits]> (gs_hits s)) (gs_active s) (gs_audit s) (S (gs_ticks s)))
  else (Ok true, GateState (<[identity := hits ++ [now]]> (gs_hits s)) (gs_active s) (gs_audit s) (S (gs_ticks s))).

Definition acquire_mount_slot : M gate_state bool := fun s =>
  if mount_max_active <=? gs_active s then (Ok false, s)
  else (Ok true, GateState (gs_hits s) (gs_active s + 1) (gs_audit s) (gs_ticks s)).

Definition release_mount_slot : M gate_state unit :=
  modify (fun s => GateState (gs_hits s) (gs_active s - 1) (gs_audit s) (gs_ticks s)).

Definition audit_mount (status : Z) (outcome reason identity : string) : M gate_state unit :=
  modify (fun s => GateState (gs_hits s) (gs_active s) (gs_audit s ++ [AuditEntry status outcome reason identity]) (gs_ticks s)).

Definition audit_if (mount_operation : bool) (status : Z) (outcome reason identity : string) : M gate_state unit :=
  if mount_operation then audit_mount status outcome reason identity else mret tt.

(** [_audit_reidentification]: [false] when a re-identification cannot be audited *)
Definition audit_reidentification (r : http_request) : bool :=
  if negb (startswith (hr_path r) "/_reidentify/") then true else audit_available e.

Definition deny (r : http_request) (status : Z) (reason identity : string) : M gate_state verdict :=
  audit_if (one_of (hr_path r) MOUNT_OPERATIONS) status "denied" reason identity;;
  if negb (audit_reidentification r) then mret (Respond 503 "audit service unavailable")
  else mret (Respond status reason).

(** The limits of a mount operation, once the caller is authorized. *)
Definition admit_mount (u : option user) (identity : string) : M gate_state verdict :=
  allowed ← mount_rate_allowed identity;
  if negb allowed then
    audit_mount 429 "denied" "request limit exceeded" identity;; mret (Respond 429 "request limit exceeded")
  else
    slot ← acquire_mount_slot;
    if negb slot then
      audit_mount 429 "denied" "concurrency limit exceeded" identity;; mret (Respond 429 "concurrency limit exceeded")
    else mret (Forward u (Some identity)).

Definition pass (r : http_request) (u : option user) : M gate_state verdict :=
  if negb (one_of (hr_path r) MOUNT_OPERATIONS) then mret (Forward u None)
  else admit_mount u (match u with Some u => us_user_id u | None => "unauthenticated" end).

(** [dispatch] up to the call of the handler *)
Definition dispatch (r : http_request) : M gate_state verdict :=
  if String.eqb (header r "x-fsp-authz-bypass") "1" then
    audit_if (one_of (hr_path r) MOUNT_OPERATIONS) 401 "denied" "invalid authorization request" "";;
    mret (Respond 401 "invalid authorization request")
  else if existsb (startswith (hr_path r)) EXEMPT_PREFIXES then mret (Forward (hr_user r) None)
  else if is_agent_route (hr_method r) (hr_path r) then mret (Forward (hr_user r) None)
  else if internal_monitor_ok e r then mret (Forward (hr_user r) None)
  else
    match route_permission (hr_path r) (upper (hr_method r)) with
    | None => mret (Forward (hr_user r) None)
    | Some permission =>
        if negb (authorization_enforced e (hr_path r)) then pass r (hr_user r)
        else
          let u := match hr_user r with
                   | Some u => Some u
                   | None => authenticate_request e (header r "x-admin-token") (default "" (hr_cookies r !! "fsp_session"))
                               (bearer_token (header r "authorization"))
                   end in
          match u with
          | None => deny r 401 "authentication required" ""
          | Some u =>
              match require u permission (route_context (hr_path r)) with
              | Ok _ => pass r (Some u)
              | Err (AuthorizationError _) => deny r 403 "permission denied" (us_user_id u)
              | Err x => raise x
              end
          end
    end.

(** [dispatch] after the handler of a mount operation answered ([Some status]) or
    raised ([None]) *)
Definition complete (identity : string) (answer : option Z) : M gate_state unit :=
  match answer with
  | None => audit_mount 500 "failed" "operation failed" identity;; release_mount_slot
  | Some status =>
      release_mount_slot;;
      audit_mount status (if status <? 400 then "allowed" else "failed") "operation completed" identity
  end.
End gate.

(** * Theorems *)

(** ** Who passes *)

Section soundness.
Context `{Env} (e : gate_env).

(** The providers return users their constructor accepts. *)
Definition providers_ok : Prop :=
  (forall t u, resolve_session e t = Some u -> user_ok u) /\
  (forall t u, authenticate_entra_token e t = Some u -> user_ok u) /\
  (forall t u, authenticate_oidc_token e t = Some u -> user_ok u).

Lemma authenticate_request_ok a b c u : providers_ok -> authenticate_request e a b c = Some u -> user_ok u.
Proof.
  intros (Hs & He & Ho). unfold authenticate_request, authenticate_admin_token.
  destruct (_ && _ && _).
  { intros [= <-]. split; [vm_compute; reflexivity|constructor]. }
  destruct (if truthy_str b then resolve_session e b else None) as [v|] eqn:Hb.
  { intros [= <-]. destruct (truthy_str b); [by eapply Hs|done]. }
  destruct (truthy_str c); [|done]. destruct (authenticate_entra_token e c) as [v|] eqn:Hc; [intros [= <-]; by eapply He|apply Ho].
Qed.

Lemma deny_responds r status reason identity s :
  exists st x, (deny e r status reason identity s).1 = Ok (Respond st x).
Proof.
  unfold deny, audit_if, mbind, M_bind. destruct (one_of _ _), (audit_reidentification e r); cbn; by eexists _, _.
Qed.

Lemma pass_user r u v slot s s' : pass e r u s = (Ok (Forward v slot), s') -> v = u.
Proof.
  unfold pass, admit_mount. destruct (one_of _ _); cbn [negb]; [|by intros [= -> _ _]].
  unfold mbind, M_bind, mount_rate_allowed, acquire_mount_slot.
  destruct (_ <=? _); cbn; [done|]. destruct (_ <=? _); cbn; [done|]. by intros [= -> _ _].
Qed.

(** A route the gate leaves to others. *)
Definition ungated (r : http_request) : bool :=
  existsb (startswith (hr_path r)) EXEMPT_PREFIXES || is_agent_route (hr_method r) (hr_path r) || internal_monitor_ok e r.

Definition request_ok (r : http_request) : Prop := forall u, hr_user r = Some u -> user_ok u.

Lemma admit_forward r s u slot s' p :
  providers_ok -> request_ok r -> ungated r = false ->
  route_permission (hr_path r) (upper (hr_method r)) = Some p -> authorization_enforced e (hr_path r) = true ->
  dispatch e r s = (Ok (Forward u slot), s') -> exists v, u = Some v /\ user_ok v /\ policy_allows v p (route_context (hr_path r)).
Proof.
  intros Hp Hr Hun Hperm Henf. unfold ungated in Hun. apply orb_false_elim in Hun as [[H1 H2]%orb_false_elim H3].
  unfold dispatch. destruct (String.eqb _ "1").
  { unfold audit_if, mbind, M_bind. by destruct (one_of _ _). }
  rewrite H1, H2, H3, Hperm, Henf. cbn [negb]. cbv zeta.
  set (o := match hr_user r with Some u => Some u | None => _ end).
  assert (Ho : forall v, o = Some v -> user_ok v).
  { unfold o. intros v. destruct (hr_user r) as [w|] eqn:Hw; [intros [= <-]; by apply Hr|]. by apply authenticate_request_ok. }
  destruct o as [v|].
  2: { destruct (deny_responds r 401 "authentication required" "" s) as (st & x & E).
       intros E2. rewrite E2 in E. done. }
  destruct (require_decides v p (route_context (hr_path r)) (Ho v eq_refl)) as [[Hal ->]|[_ ->]].
  - intros E. apply pass_user in E as ->. exists v. split_and!; [done|by apply Ho|done].
  - destruct (deny_responds r 403 "permission denied" (us_user_id v) s) as (st & x & E).
    intros E2. rewrite E2 in E. done.
Qed.
End soundness.

(** *** Re-identification *)

Definition LOOKUP : string := "/_reidentify/api/v1/lookup".

Lemma matches_no_prefix m path rm prefix : startswith path prefix = false -> matches_single_segment m path rm prefix = false.
Proof. intros Hp. unfold matches_single_segment. rewrite Hp. cbn. by rewrite andb_false_r. Qed.

Lemma lookup_gated e r t : hr_path r = LOOKUP +:+ t ->
  ungated e r = false /\ authorization_enforced e (hr_path r) = true /\
  route_permission (hr_path r) (upper (hr_method r)) = Some "tokenization.reidentify".
Proof.
  intros Hp. unfold ungated, is_agent_route, internal_monitor_ok, authorization_enforced, route_permission. rewrite Hp.
  split_and!; [|vm_compute; reflexivity|change "/_reidentify/api/v1/lookup" with LOOKUP; by rewrite startswith_app].
  rewrite bool_decide_eq_false_2; [unfold AGENT_PREFIX_ROUTES; cbn [existsb fst snd]; by rewrite !matches_no_prefix by reflexivity|].
  unfold AGENT_EXACT_ROUTES.
  intros Hin. repeat (apply elem_of_cons in Hin as [Hin|Hin]; [by injection Hin|]). by apply not_elem_of_nil in Hin.
Qed.

(** C33: nobody re-identifies tokens without the duty.  Whatever the settings,
    also with authorization switched off, the gate forwards a request to the
    re-identification API only for an enabled user who is an auditor, or holds an
    explicit grant of [tokenization.reidentify] that the request's context meets;
    administration roles, the admin token included, do not suffice. *)
Theorem reidentification_gate `{Env} e r t s u slot s' :
  providers_ok e -> request_ok r -> hr_path r = LOOKUP +:+ t ->
  dispatch e r s = (Ok (Forward u slot), s') ->
  exists v, u = Some v /\ us_enabled v = true /\
    ("auditor" ∈ us_roles v \/
     exists g, g ∈ us_grants v /\ pg_permission g = "tokenization.reidentify" /\
       forall k x, pg_context g !! k = Some x -> x = JStr "*" \/ x = opt_json (route_context (hr_path r) !! k)).
Proof.
  intros He Hr Hp Ha. destruct (lookup_gated e r t Hp) as (Hun & Henf & Hperm).
  destruct (admit_forward e r s u slot s' _ He Hr Hun Hperm Henf Ha) as (v & -> & _ & Hen & _ & Hwho).
  exists v. split; [done|]. split; [done|]. destruct Hwho as [(role & ps & Hin & Hl & Hps)|Hg]; [left|by right].
  by rewrite <- (reidentify_roles role ps Hl Hps).
Qed.

(** The gate enforces the permission of the route.  Where authorization is
    enforced, a request to a route that needs a permission is forwarded only for
    a user to whom the role-based policy allows it in the context the path names;
    agent routes, liveness probes and authenticated scrapes are not gated. *)
Theorem operator_gate_sound `{Env} e r s u slot s' p :
  providers_ok e -> request_ok r -> ungated e r = false ->
  route_permission (hr_path r) (upper (hr_method r)) = Some p -> authorization_enforced e (hr_path r) = true ->
  dispatch e r s = (Ok (Forward u slot), s') ->
  exists v, u = Some v /\ policy_allows v p (route_context (hr_path r)).
Proof.
  intros He Hr Hun Hperm Henf Ha. destruct (admit_forward e r s u slot s' p He Hr Hun Hperm Henf Ha) as (v & -> & _ & Hal).
  by exists v.
Qed.

(** ** The limits of mount operations *)

Section limits.
Context `{Env} (e : gate_env).

(** A history of the gate: its state, the identities whose mount operation is in
    flight, and the times at which operations were admitted. *)
Record history := History {
  hi_state : gate_state;
  hi_flight : list string;
  hi_log : list (string * Z);
}.

(** Requests are admitted and, in any order, operations in flight complete. *)
Inductive gate_step : history -> history -> Prop :=
| step_refused r s s' fl lg res : dispatch e r s = (res, s') ->
    (forall u i, res <> Ok (Forward u (Some i))) -> gate_step (History s fl lg) (History s' fl lg)
| step_admitted r s s' fl lg u i : dispatch e r s = (Ok (Forward u (Some i)), s') ->
    gate_step (History s fl lg) (History s' (i :: fl) (lg ++ [(i, clock (gs_ticks s))]))
| step_complete i answer s fl fl' lg : fl ≡ₚ i :: fl' ->
    gate_step (History s fl lg) (History (complete i answer s).2 fl' lg).

Definition start : history := History (GateState ∅ 0 [] 0) [] [].

(** The times at which [i] was let through the rate limit. *)
Definition times (i : string) (l : list (string * Z)) : list Z := map snd (filter (fun x => x.1 = i) l).
Definition in_window (w t : Z) : Prop := w < t <= w + WINDOW_MS.
#[global] Instance in_window_dec w t : Decision (in_window w t).
Proof. unfold in_window. apply _. Defined.
Definition busy (w : Z) (i : string) (l : list (string * Z)) : Z := Z.of_nat (length (filter (in_window w) (times i l))).

Lemma times_app i l j t : times i (l ++ [(j, t)]) = times i l ++ (if decide (j = i) then [t] else []).
Proof. unfold times. rewrite filter_app, map_app. f_equal. rewrite filter_cons. cbn. by case_decide. Qed.

Lemma expire_hits_split horizon hits : exists dropped,
  hits = dropped ++ expire_hits horizon hits /\ Forall (fun t => t <= horizon) dropped.
Proof.
  induction hits as [|t hits (dropped & E & Hd)]; [by exists []|]. cbn. destruct (Z.leb_spec t horizon); [|by exists []].
  exists (t :: dropped). split; [by rewrite E at 1|by constructor].
Qed.

(** The invariant of the rate limiter: of the times let through, the deque of an
    identity keeps all but those outside the current window. *)
Definition rate_inv (hits : gmap string (list Z)) (now : Z) (l : list (string * Z)) : Prop :=
  forall i, (exists dropped, times i l = dropped ++ default [] (hits !! i) /\
                             Forall (fun t => t <= now - WINDOW_MS) dropped) /\
    forall w, busy w i l <= mount_rate e.

Lemma rate_inv_later hits now now' l : now <= now' -> rate_inv hits now l -> rate_inv hits now' l.
Proof.
  intros Hn Hi i. destruct (Hi i) as [(dropped & E & Hd) Hw]. split; [|done]. exists dropped. split; [done|].
  eapply Forall_impl; [exact Hd|]. cbn. lia.
Qed.

Lemma busy_app w i l t : busy w i (l ++ [(i, t)]) = busy w i l + (if decide (in_window w t) then 1 else 0).
Proof.
  unfold busy. rewrite times_app, decide_True, filter_app, length_app by done. rewrite filter_cons.
  case_decide; cbn; lia.
Qed.

Lemma busy_other w i j l t : j <> i -> busy w i (l ++ [(j, t)]) = busy w i l.
Proof. intros Hj. unfold busy. rewrite times_app, decide_False by done. by rewrite app_nil_r. Qed.

Lemma filter_none {A} (P : A -> Prop) `{forall x, Decision (P x)} l : Forall (fun x => ~ P x) l -> filter P l = [].
Proof. induction 1 as [|x l Hx _ IH]; [done|]. by rewrite filter_cons_False. Qed.

Lemma rate_inv_step i hits now l : rate_inv hits now l ->
  let kept := expire_hits (now - WINDOW_MS) (default [] (hits !! i)) in
  rate_inv (<[i := kept]> hits) now l /\
  (Z.of_nat (length kept) < mount_rate e -> rate_inv (<[i := kept ++ [now]]> hits) now (l ++ [(i, now)])).
Proof.
  intros Hi kept. destruct (Hi i) as [(dropped & E & Hd) Hw].
  destruct (expire_hits_split (now - WINDOW_MS) (default [] (hits !! i))) as (more & E2 & Hm). fold kept in E2.
  assert (Htimes : times i l = (dropped ++ more) ++ kept) by (by rewrite E, E2, app_assoc).
  assert (Hold : Forall (fun t => t <= now - WINDOW_MS) (dropped ++ more)) by (apply Forall_app; done).
  split.
  - intros j. destruct (decide (i = j)) as [<-|Hj]; [rewrite lookup_insert_eq|rewrite lookup_insert_ne by done; apply Hi].
    split; [|done]. exists (dropped ++ more). done.
  - intros Hk j. destruct (decide (i = j)) as [<-|Hj].
    2: { rewrite lookup_insert_ne by done. rewrite times_app, decide_False, app_nil_r by done.
         destruct (Hi j) as [Hj1 Hj2]. split; [done|]. intros w. rewrite busy_other by done. apply Hj2. }
    rewrite lookup_insert_eq. split.
    { exists (dropped ++ more). rewrite times_app, decide_True, Htimes by done. split; [by rewrite <- app_assoc|done]. }
    intros w. rewrite busy_app. case_decide as Hin; [|specialize (Hw w); lia].
    unfold busy. rewrite Htimes, filter_app, length_app.
    rewrite (filter_none (in_window w) (dropped ++ more)).
    + pose proof (length_filter (in_window w) kept). cbn. lia.
    + eapply Forall_impl; [exact Hold|]. cbn. unfold in_window in *. lia.
Qed.

(** *** What a request does to the counters *)

Definition same_counters (s s' : gate_state) : Prop :=
  gs_hits s' = gs_hits s /\ gs_active s' = gs_active s /\ gs_ticks s' = gs_ticks s.

Lemma deny_counters r status reason identity s : same_counters s (deny e r status reason identity s).2.
Proof.
  unfold deny, audit_if, mbind, M_bind. by destruct (one_of _ _), (audit_reidentification e r).
Qed.

Lemma pass_cases r u s :
  (exists i, pass e r u s = admit_mount e u i s) \/ pass e r u s = (Ok (Forward u None), s).
Proof. unfold pass. destruct (one_of _ _); cbn [negb]; [left; by eexists|by right]. Qed.

Lemma admit_cases r s :
  (exists u i, dispatch e r s = admit_mount e u i s) \/
  ((forall u i, (dispatch e r s).1 <> Ok (Forward u (Some i))) /\ same_counters s (dispatch e r s).2).
Proof.
  unfold dispatch. destruct (String.eqb _ "1").
  { right. unfold audit_if, mbind, M_bind. by destruct (one_of _ _). }
  destruct (existsb _ EXEMPT_PREFIXES); [by right|]. destruct (is_agent_route _ _); [by right|].
  destruct (internal_monitor_ok e r); [by right|]. destruct (route_permission _ _) as [p|]; [|by right].
  assert (Hpass : forall u, (exists u' i, pass e r u s = admit_mount e u' i s) \/
    ((forall u' i, (pass e r u s).1 <> Ok (Forward u' (Some i))) /\ same_counters s (pass e r u s).2)).
  { intros u. destruct (pass_cases r u s) as [[i ->]| ->]; [left; by eexists _, _|by right]. }
  assert (Hdeny : forall st x i, (forall u' i', (deny e r st x i s).1 <> Ok (Forward u' (Some i'))) /\
    same_counters s (deny e r st x i s).2).
  { intros st x i. split; [|apply deny_counters]. destruct (deny_responds e r st x i s) as (? & ? & ->). done. }
  destruct (authorization_enforced _ _); cbn [negb]; [|apply Hpass]. cbv zeta.
  destruct (match hr_user r with Some _ => _ | None => _ end) as [v|]; [|right; apply Hdeny].
  destruct (require _ _ _) as [d|x]; [apply Hpass|]. destruct x; first [right; apply Hdeny|by right].
Qed.

Lemma admit_mount_counters u i s :
  let now := clock (gs_ticks s) in
  let kept := expire_hits (now - WINDOW_MS) (default [] (gs_hits s !! i)) in
  gs_ticks (admit_mount e u i s).2 = S (gs_ticks s) /\
  ((exists st x, (admit_mount e u i s).1 = Ok (Respond st x) /\ gs_active (admit_mount e u i s).2 = gs_active s /\
      (gs_hits (admit_mount e u i s).2 = <[i := kept]> (gs_hits s) \/
       Z.of_nat (length kept) < mount_rate e /\ gs_hits (admit_mount e u i s).2 = <[i := kept ++ [now]]> (gs_hits s))) \/
   ((admit_mount e u i s).1 = Ok (Forward u (Some i)) /\ gs_active (admit_mount e u i s).2 = gs_active s + 1 /\
    gs_active s < mount_max_active e /\
    Z.of_nat (length kept) < mount_rate e /\ gs_hits (admit_mount e u i s).2 = <[i := kept ++ [now]]> (gs_hits s))).
Proof.
  intros now kept. unfold admit_mount, mbind, M_bind, mount_rate_allowed, acquire_mount_slot. fold now. fold kept.
  destruct (Z.leb_spec (mount_rate e) (Z.of_nat (length kept))); cbn.
  { split; [done|]. left. eexists _, _. split_and!; [done|done|by left]. }
  destruct (Z.leb_spec (mount_max_active e) (gs_active s)); cbn.
  { split; [done|]. left. eexists _, _. split_and!; [done|done|by right]. }
  split; [done|]. by right.
Qed.

(** *** The invariant *)

Hypothesis clock_monotone : forall i j, (i <= j)%nat -> clock i <= clock j.

Definition history_ok (h : history) : Prop :=
  gs_active (hi_state h) = Z.of_nat (length (hi_flight h)) /\ gs_active (hi_state h) <= mount_max_active e /\
  exists l, rate_inv (gs_hits (hi_state h)) (clock (gs_ticks (hi_state h))) l /\ hi_log h `sublist_of` l.

Lemma start_ok : history_ok start.
Proof.
  split_and!; [done|unfold mount_max_active; cbn; lia|]. exists []. split; [|done]. intros i. split.
  - by exists [].
  - intros w. unfold busy, mount_rate. cbn. lia.
Qed.

Lemma gate_step_ok h h' : gate_step h h' -> history_ok h -> history_ok h'.
Proof.
  intros Hs (Ha & Hm & l & Hl & Hsub). destruct Hs as [r s s' fl lg res Hr Hne|r s s' fl lg u i Hr|i answer s fl fl' lg Hfl];
    cbn [hi_state hi_flight hi_log] in *.
  - destruct (admit_cases r s) as [(u & i & E)|(_ & Eh & Ea & Et)].
    2: { rewrite Hr in Eh, Ea, Et. cbn in Eh, Ea, Et. unfold history_ok. cbn. rewrite Eh, Ea, Et. split_and!; [done..|]. by exists l. }
    rewrite Hr in E. pose proof (admit_mount_counters u i s) as Hc. rewrite <- E in Hc. cbn [fst snd] in Hc. cbv zeta in Hc.
    destruct Hc as (Et & [(st & x & _ & Ea & Eh)|(Ef & _)]); [|by destruct (Hne _ _ Ef)].
    unfold history_ok. cbn. rewrite Ea, Et. split_and!; [done..|].
    destruct (rate_inv_step i _ _ _ Hl) as [Hk1 Hk2].
    assert (Hle : clock (gs_ticks s) <= clock (S (gs_ticks s))) by (apply clock_monotone; lia).
    destruct Eh as [Eh|[Hlt Eh]]; rewrite Eh.
    + exists l. split; [by eapply rate_inv_later|done].
    + eexists. split; [eapply rate_inv_later; [exact Hle|by apply Hk2]|]. by apply sublist_inserts_r.
  - destruct (admit_cases r s) as [(u' & i' & E)|[Hne _]]; [|by rewrite Hr in Hne; destruct (Hne u i)].
    rewrite Hr in E. pose proof (admit_mount_counters u' i' s) as Hc. rewrite <- E in Hc. cbn [fst snd] in Hc. cbv zeta in Hc.
    destruct Hc as (Et & [(st & x & Ef & _)|(Ef & Ea & Hlt & Hk & Eh)]); [done|]. injection Ef as <- <-.
    unfold history_ok. cbn. rewrite Ea, Et, Eh. split_and!; [cbn; lia|lia|].
    destruct (rate_inv_step i _ _ _ Hl) as [_ Hk2].
    eexists. split; [eapply rate_inv_later; [|by apply Hk2]; apply clock_monotone; lia|]. by apply sublist_app.
  - assert (Hlen : length fl = S (length fl')) by (by rewrite Hfl).
    assert (Hc : gs_hits (complete i answer s).2 = gs_hits s /\ gs_active (complete i answer s).2 = gs_active s - 1 /\
      gs_ticks (complete i answer s).2 = gs_ticks s) by (by destruct answer).
    destruct Hc as (Eh & Ea & Et). unfold history_ok. cbn. rewrite Eh, Ea, Et. split_and!; [lia|lia|]. by exists l.
Qed.

Lemma busy_sublist w i l k : l `sublist_of` k -> busy w i l <= busy w i k.
Proof.
  intros Hs. unfold busy, times. apply inj_le. induction Hs as [|[j t] l k Hs IH|[j t] l k Hs IH]; [done| |].
  - rewrite !filter_cons. cbn. case_decide; [|done]. cbn [map snd]. rewrite !filter_cons. case_decide; cbn; lia.
  - rewrite (filter_cons _ (j, t)). cbn. case_decide; [|done]. cbn [map snd]. rewrite (filter_cons _ t). case_decide; cbn; lia.
Qed.
End limits.

(** The limits of mount operations hold.  However requests and completions
    interleave, the operations in flight are exactly those the counter counts and
    never more than configured, and no caller is admitted more often in any window
    of a minute than configured, whatever the window. *)
Theorem mount_limits_hold `{Env} e h : (forall i j, (i <= j)%nat -> clock i <= clock j) ->
  rtc (gate_step e) start h ->
  gs_active (hi_state h) = Z.of_nat (length (hi_flight h)) /\
  Z.of_nat (length (hi_flight h)) <= mount_max_active e /\
  forall w i, busy w i (hi_log h) <= mount_rate e.
Proof.
  intros Hclk Hr. assert (Hok : history_ok e h).
  { revert Hr. generalize (start_ok e). generalize start as h0. intros h0 H0 Hr. induction Hr as [|h0 h1 h2 Hs _ IH]; [done|].
    apply IH. by eapply gate_step_ok. }
  destruct Hok as (Ha & Hm & l & Hl & Hsub). split_and!; [done|lia|]. intros w i.
  etrans; [by apply busy_sublist|]. apply Hl.
Qed.

(** ** Worked instances *)

Definition demo_auditor : user := User "eve" ["auditor"] [] true "oidc" None None None.
Definition demo_gate : gate_env :=
  GateEnv "1" true "pw" "admin" "" 2 1 (fun _ => None) (fun _ => None)
    (fun t => if String.eqb t "tok" then Some demo_auditor else None) true.
Definition demo_tick : Env := {| clock := fun n => 1000 * Z.of_nat n; token := fun _ => "" |}.
Definition demo_call (method path : string) (headers : list (string * string)) : http_request :=
  HttpRequest method path (list_to_map headers) ∅ None.
Definition demo_start : gate_state := GateState ∅ 0 [] 0.
Definition demo_lookup : http_request :=
  demo_call "POST" "/_reidentify/api/v1/lookup/p/t/c" [("authorization", "Bearer tok")].
Definition demo_mount : http_request :=
  demo_call "POST" "/_config/api/mounts/test" [("x-admin-token", "admin")].

Lemma demo_providers : providers_ok demo_gate.
Proof.
  split_and!; [done|done|]. intros t u. cbn. destruct (String.eqb t "tok"); [|done]. intros [= <-].
  split; [vm_compute; reflexivity|constructor].
Qed.

Lemma reidentification_gate_witness :
  (@dispatch demo_tick demo_gate demo_lookup demo_start).1 = Ok (Forward (Some demo_auditor) None) /\
  exists v, Some demo_auditor = Some v /\ us_enabled v = true.
Proof.
  split; [vm_compute; reflexivity|].
  destruct (@reidentification_gate demo_tick demo_gate demo_lookup "/p/t/c" demo_start (Some demo_auditor) None demo_start
    demo_providers) as (v & E & He & _).
  - intros u. discriminate.
  - reflexivity.
  - vm_compute. reflexivity.
  - exists v. split; [exact E|exact He].
Defined.

Lemma operator_gate_sound_witness :
  exists v, Some demo_auditor = Some v /\ policy_allows v "tokenization.reidentify" (route_context (hr_path demo_lookup)).
Proof.
  apply (@operator_gate_sound demo_tick demo_gate demo_lookup demo_start (Some demo_auditor) None demo_start
    "tokenization.reidentify" demo_providers).
  - intros u. discriminate.
  - vm_compute. reflexivity.
  - vm_compute. reflexivity.
  - vm_compute. reflexivity.
  - vm_compute. reflexivity.
Defined.

Lemma mount_limits_hold_witness :
  busy 0 "admin-token" [("admin-token", 0)] <= mount_rate demo_gate.
Proof.
  refine (proj2 (proj2 (@mount_limits_hold demo_tick demo_gate
    (History (@dispatch demo_tick demo_gate demo_mount demo_start).2 ["admin-token"] [("admin-token", 0)]) _ _)) 0 "admin-token").
  - intros i j Hij. cbn [clock demo_tick]. lia.
  - apply rtc_once. eapply (@step_admitted demo_tick demo_gate demo_mount demo_start _ [] []). vm_compute. reflexivity.
Defined.

(** With the limits of one operation in flight and two a minute, a second request
    is refused while the first runs, and a third one for the rate. *)
Example mount_limits_demo :
  let s1 := (@dispatch demo_tick demo_gate demo_mount demo_start).2 in
  let s2 := (@dispatch demo_tick demo_gate demo_mount s1).2 in
  (@dispatch demo_tick demo_gate demo_mount s1).1 = Ok (Respond 429 "concurrency limit exceeded") /\
  (@dispatch demo_tick demo_gate demo_mount (complete "admin-token" (Some 200) s2).2).1 = Ok (Respond 429 "request limit exceeded").
Proof. vm_compute. done. Qed.

(** *** Where the code departs from its intent *)

(** The clean-up and reset calls of the monitor change state, and need only the
    permission to read it. *)
Example monitor_writes_need_read :
  route_permission "/_monitor/api/open-mirror/cleanup" "POST" = Some "monitor.read" /\
  route_permission "/_monitor/api/reset" "POST" = Some "monitor.read".
Proof. vm_compute. done. Qed.

(** A configuration path outside the listed resources needs no permission. *)
Example unlisted_config_path_open : route_permission "/_config/api/settings-export" "POST" = None.
Proof. reflexivity. Qed.
