(* ===== verification/AccessKeys.v ===== *)
(** * Access keys and the front door

    [security/access_keys.py]: proxy access keys with their scopes, their store
    behind a cache of a few seconds, and the authorization of a request; and the
    part of [main.py] that decides whether a request to the data plane passes, with the backend key of
    an object of a mounted bucket ([storage/mounts.py], [storage/passthrough.py]).
    The credential store is the map of the records it decrypts ([None] for one
    it cannot); a [dict] whose order no result depends on is a [gmap]. *)

From S2P Require Import Prelude PyText Sha256 Json ArtifactStore World Sources Snapshots S3Auth Authorization OperatorGate.
From Stdlib Require Import Ascii.

Record access_key := AccessKey {
  ak_access_key_id : string;
  ak_secret_key : string;
  ak_label : string;
  ak_allowed_buckets : list string;
  ak_allowed_prefixes : gmap string (list string);
  ak_permissions : string;
  ak_enabled : bool;
}.

#[global] Instance access_key_eq_dec : EqDecision access_key.
Proof. solve_decision. Defined.

(** [str(d.get(k) or default)] *)
Definition or_str (d : dict) (k default_ : string) : res string :=
  let v := dget d k JNull in if truthy v then py_str v else Ok default_.

(** [str(p).replace("\\", "/").strip("/")] *)
Definition clean_prefix (p : string) : string := strip_char slash (replace_char backslash slash p).

(** A list given as a list or as one string. *)
Definition one_or_many (v : json) : res (list json) :=
  match v with
  | JStr s => Ok [JStr s]
  | JList l => Ok l
  | JObj _ => Err (Unmodelled "iteration over a dict")
  | _ => Err (TypeError "object is not iterable")
  end.

Definition parse_prefixes (v : json) : res (list string) :=
  items ← (if truthy v then one_or_many v else match v with JStr s => Ok [JStr s] | _ => Ok [] end);
  res_map (fun p => s ← py_str p; Ok (clean_prefix s)) items.

(** [{str(b): [...] for b, prefixes in ap_in.items()}] *)
Definition parse_allowed_prefixes (v : json) : res (gmap string (list string)) :=
  match v with
  | JObj m =>
      l ← res_map (fun kv : string * json => ps ← parse_prefixes kv.2; Ok (kv.1, ps)) (map_to_list m);
      Ok (list_to_map l)
  | _ => Ok ∅
  end.

Definition parse_access_key (d : dict) : res access_key :=
  let ab := dget d "allowed_buckets" JNull in
  buckets ← (if truthy ab then one_or_many ab else Ok []);
  prefixes ← parse_allowed_prefixes (dget d "allowed_prefixes" JNull);
  access_key_id ← or_str d "access_key_id" "";
  secret_key ← or_str d "secret_key" "";
  label ← or_str d "label" "";
  names ← res_map py_str buckets;
  permissions ← or_str d "permissions" "read";
  Ok (AccessKey (strip access_key_id) secret_key (strip label)
        (filter (fun b => b <> "") (map strip names)) prefixes (lower (strip permissions))
        (get_bool d "enabled" true)).

(** [_VALID_KEY_ID]: 8 to 64 letters and digits; [$] also matches before a final
    newline *)
Definition valid_key_id (s : string) : bool :=
  let body := match str_rev s with
              | String a r => if Ascii.eqb a "010" then str_rev r else s
              | EmptyString => s
              end in
  str_forallb is_alnum body && (8 <=? Z.of_nat (String.length body)) && (Z.of_nat (String.length body) <=? 64).

Definition validate_access_key (ak : access_key) : list string :=
  (if negb (truthy_str (ak_access_key_id ak)) || negb (valid_key_id (ak_access_key_id ak))
   then ["access_key_id must be 8-64 alphanumeric characters"] else []) ++
  (if negb (truthy_str (ak_secret_key ak)) then ["secret_key is required"] else []) ++
  (if negb (bool_decide (ak_permissions ak ∈ ["read"; "read-write"]))
   then ["permissions must be 'read' or 'read-write'"] else []) ++
  (if bool_decide (ak_allowed_buckets ak = [])
   then ["allowed_buckets must list at least one bucket (or '*')"] else []).

Definition str_list (l : list string) : json := JList (map JStr l).
Definition prefixes_json (m : gmap string (list string)) : json := JObj (str_list <$> m).

(** [to_public] *)
Definition to_public (ak : access_key) : dict :=
  mk_dict [("access_key_id", JStr (ak_access_key_id ak)); ("label", JStr (ak_label ak));
           ("allowed_buckets", str_list (ak_allowed_buckets ak));
           ("allowed_prefixes", prefixes_json (ak_allowed_prefixes ak));
           ("permissions", JStr (ak_permissions ak)); ("enabled", JBool (ak_enabled ak))].

(** The record [save_access_key] stores. *)
Definition access_record (ak : access_key) : dict :=
  mk_dict [("access_key_id", JStr (ak_access_key_id ak)); ("secret_key", JStr (ak_secret_key ak));
           ("label", JStr (ak_label ak)); ("allowed_buckets", str_list (ak_allowed_buckets ak));
           ("allowed_prefixes", prefixes_json (ak_allowed_prefixes ak));
           ("permissions", JStr (ak_permissions ak)); ("enabled", JBool (ak_enabled ak))].

(** ** The store and its cache *)

Record key_state := KeyState {
  ks_records : gmap string (option dict);
  ks_cache : option (gmap string access_key);
  ks_cache_ts : Z;
  ks_ticks : nat;
}.

Definition CACHE_TTL : Z := 5000.

(** [_read_all]: an error in one record empties the result *)
Definition read_all (records : gmap string (option dict)) : gmap string access_key :=
  match res_map (fun kr : string * dict => ak ← parse_access_key kr.2; Ok (kr.1, ak))
          (omap (fun kr : string * option dict => match kr.2 with Some d => Some (kr.1, d) | None => None end)
             (map_to_list records)) with
  | Ok l => list_to_map l
  | Err _ => ∅
  end.

(** The settings the module reads. *)
Record key_config := KeyConfig {
  ACCESS_KEY_ID : string;
  SECRET_ACCESS_KEY : string;
}.

Section keys.
Context `{Env} (cfg : key_config).

(** [_all_keys] on the default store *)
Definition all_keys : M key_state (gmap string access_key) := fun s =>
  let now := clock (ks_ticks s) in
  let s := KeyState (ks_records s) (ks_cache s) (ks_cache_ts s) (S (ks_ticks s)) in
  match ks_cache s with
  | Some keys =>
      if now - ks_cache_ts s <? CACHE_TTL then (Ok keys, s)
      else (Ok (read_all (ks_records s)), KeyState (ks_records s) (Some (read_all (ks_records s))) now (ks_ticks s))
  | None =>
      (Ok (read_all (ks_records s)), KeyState (ks_records s) (Some (read_all (ks_records s))) now (ks_ticks s))
  end.

Definition invalidate_cache : M key_state unit :=
  modify (fun s => KeyState (ks_records s) None (ks_cache_ts s) (ks_ticks s)).

Definition get_access_key (access_key_id : string) : M key_state (option access_key) :=
  keys ← all_keys; mret (keys !! strip access_key_id).

Definition list_access_keys : M key_state (list dict) :=
  keys ← all_keys; mret (map (fun kv => to_public kv.2) (map_to_list keys)).

(** [save_access_key], with [CredentialStore.set_access_key] *)
Definition save_access_key (ak : access_key) : M key_state unit :=
  let kid := strip (ak_access_key_id ak) in
  if negb (truthy_str kid) then raise (ValueError "access key id must be non-empty")
  else
    modify (fun s => KeyState (<[kid := Some (access_record ak)]> (ks_records s)) (ks_cache s) (ks_cache_ts s) (ks_ticks s));;
    invalidate_cache.

Definition delete_access_key (access_key_id : string) : M key_state bool :=
  let kid := strip access_key_id in
  s ← gets id;
  modify (fun s => KeyState (delete kid (ks_records s)) (ks_cache s) (ks_cache_ts s) (ks_ticks s));;
  invalidate_cache;;
  mret (bool_decide (is_Some (ks_records s !! kid))).

Definition any_keys_defined : M key_state bool :=
  keys ← all_keys; mret (negb (bool_decide (keys = ∅))).

Definition resolve_secret (access_key_id : string) : M key_state (option string) :=
  ak ← get_access_key access_key_id;
  mret match ak with
       | Some ak => if ak_enabled ak then Some (ak_secret_key ak) else None
       | None => if String.eqb access_key_id (ACCESS_KEY_ID cfg) then Some (SECRET_ACCESS_KEY cfg) else None
       end.

(** The decision of [authorize] once the key is looked up: [None] allows. *)
Definition key_in_prefix (key p : string) : bool :=
  let norm := lstrip_char slash (replace_char backslash slash key) in
  startswith norm (p +:+ "/") || String.eqb norm p || String.eqb p "".

Definition scope_denial (ak : access_key) (bucket key : string) : option string :=
  if negb (ak_enabled ak) then Some "access key is disabled"
  else if negb (bool_decide ("*" ∈ ak_allowed_buckets ak)) && negb (bool_decide (bucket ∈ ak_allowed_buckets ak))
  then Some (fmt ["key not authorized for bucket "; quoted bucket])
  else match ak_allowed_prefixes ak !! bucket with
       | Some (p :: ps) =>
           if existsb (key_in_prefix key) (p :: ps) then None
           else Some (fmt ["key not authorized for this prefix in bucket "; quoted bucket])
       | _ => None
       end.

Definition READ_METHODS : list string := ["GET"; "HEAD"].

Definition authorize (access_key_id bucket key method : string) : M key_state (option string) :=
  if negb (bool_decide (upper method ∈ READ_METHODS)) then mret (Some "read-only: writes are not permitted")
  else
    ak ← get_access_key access_key_id;
    mret match ak with None => None | Some ak => scope_denial ak bucket key end.

(** ** The object a request of a mounted bucket resolves to *)

(** [storage/mounts.py], [_norm_prefix]: how a mount's prefix is stored *)
Definition norm_prefix (p : string) : string :=
  let p := strip_char slash (replace_char backslash slash p) in
  if truthy_str p then p +:+ "/" else "".

(** [storage/passthrough.py], [_backend_key]: the key is percent-decoded once more; an escape that is
    not valid UTF-8 is kept as its bytes *)
Definition backend_key (mount_prefix key : string) : string :=
  mount_prefix +:+ lstrip_char slash (replace_char backslash slash (unquote key)).

(** ** The front door *)

Record front_config := FrontConfig {
  REQUIRE_SIGV4 : bool;
  ENFORCE_MOUNT_AUTH : bool;
  mounted : string -> bool;
  monitor_ok : bool;
}.

Record request := Request {
  rq_method : string;
  rq_path : string;
  rq_raw_path : string;
  rq_query : string;
  rq_headers : list (string * string);
}.

Definition AUTH_EXEMPT_PREFIXES : list string := ["/healthz"; "/readyz"; "/metrics"; "/favicon.ico"].
Definition OPERATOR_PREFIXES : list string := ["/_admin"; "/_config"; "/_monitor"].

(** [_bucket_key_from_path] *)
Definition bucket_key_from_path (path : string) : string * string :=
  let p := lstrip_char slash path in
  if negb (truthy_str p) then ("", "")
  else match partition slash p with Some (b, k) => (b, k) | None => (p, "") end.

(** The outcome of the middleware: the request goes on, with the identity it was
    authenticated as, or is refused. *)
Inductive outcome :=
| Passed (who : option string)
| Denied (code message : string).

(** A path the middleware leaves to other handlers. *)
Definition exempt (f : front_config) (r : request) : bool :=
  String.eqb (rq_method r) "OPTIONS"
  || existsb (fun p => String.eqb (rq_path r) p || startswith (rq_path r) p) AUTH_EXEMPT_PREFIXES
  || is_operator_route (rq_path r) OPERATOR_PREFIXES || is_operator_route (rq_path r) ["/_manager"]
  || (startswith (rq_path r) "/_monitor/api/" && monitor_ok f).

(** The key id a request presents, as [verify_signature] reads it. *)
Definition presented_key (r : request) : option string :=
  match parse_authorization (default "" (lower_headers (rq_headers r) !! "authorization")) with
  | Verified (credential, _, _) =>
      match split_on "/" credential with
      | [k; _; _; service; terminator] =>
          if String.eqb service SERVICE && String.eqb terminator "aws4_request" then Some k else None
      | _ => None
      end
  | Rejected _ _ => None
  end.

(** The resolver is called once, for the presented key. *)
Definition resolve_presented (r : request) : M key_state (option string) :=
  match presented_key r with Some k => resolve_secret k | None => mret None end.

(** The path the client signed: bytes beyond ASCII are escaped. *)
Fixpoint ascii_path (raw : string) : string :=
  match raw with
  | EmptyString => ""
  | String a raw => (if (N_of_ascii a <? 128)%N then String a "" else percent a) +:+ ascii_path raw
  end.

Definition sigv4_auth_middleware (f : front_config) (now : Z) (r : request) : M key_state outcome :=
  if exempt f r then mret (Passed None)
  else
    let '(bucket, key) := bucket_key_from_path (rq_path r) in
    let is_mounted := truthy_str bucket && mounted f bucket in
    if negb (REQUIRE_SIGV4 f || (is_mounted && ENFORCE_MOUNT_AUTH f)) then mret (Passed None)
    else
      secret ← resolve_presented r;
      match verify_signature (rq_method r) (ascii_path (rq_raw_path r)) (rq_query r) (rq_headers r) (fun _ => secret) None
              now MAX_CLOCK_SKEW_SECONDS with
      | Rejected code message => mret (Denied code message)
      | Verified who =>
          denial ← authorize who bucket key (rq_method r);
          mret match denial with
               | None => Passed (Some who)
               | Some reason => Denied "AccessDenied" reason
               end
      end.
End keys.

(** * Theorems *)

(** ** Prefix scopes confine *)

Definition key_segments (s : string) : list string :=
  filter keep_segment (split_on slash (replace_char backslash slash s)).

Lemma keep_lstrip s : filter keep_segment (split_on slash (lstrip_char slash s)) = filter keep_segment (split_on slash s).
Proof. by rewrite <- (filter_keep_nonempty (split_on slash (lstrip_char slash s))), split_lstrip, filter_keep_nonempty. Qed.

Lemma key_segments_join a b : key_segments (a +:+ String slash b) = key_segments a ++ key_segments b.
Proof.
  unfold key_segments. rewrite replace_char_app.
  change (replace_char backslash slash (String slash b)) with (String slash (replace_char backslash slash b)).
  by rewrite split_on_app, filter_app.
Qed.

Lemma key_segments_lstrip s : key_segments (lstrip_char slash s) = key_segments s.
Proof.
  induction s as [|c s IH]; [done|]. cbn [lstrip_char]. destruct (Ascii.eqb_spec c slash) as [->|]; [|done].
  rewrite IH. exact (eq_sym (key_segments_join "" s)).
Qed.

(** *** Percent-decoding keeps the separators *)

(** Two steps of an induction at a time, as [unquote] looks two characters ahead. *)
Lemma string_ind2 (P : string -> Prop) : P "" -> (forall a, P (String a "")) ->
  (forall a h, P (String h "") -> P (String a (String h ""))) ->
  (forall a h l s, P s -> P (String h (String l s)) -> P (String a (String h (String l s)))) -> forall s, P s.
Proof.
  intros H0 H1 H2 H3 s. enough (P s /\ (forall a, P (String a s)) /\ forall a h, P (String a (String h s))) by tauto.
  induction s as [|c s (IH0 & IH1 & IH2)]; [split_and!; auto|]. split_and!; [auto|auto|]. intros a h. apply H3; auto.
Qed.

Lemma unquote_plain c s : Ascii.eqb c "%" = false -> unquote (String c s) = String c (unquote s).
Proof. intros Hc. destruct s as [|h [|l s]]; [done..|]. cbn [unquote]. by rewrite Hc. Qed.

Lemma unquote_step a h l s : unquote (String a (String h (String l s))) =
  match Ascii.eqb a "%", hex_value h, hex_value l with
  | true, Some x, Some y => String (ascii_of_N (16 * x + y)) (unquote s)
  | _, _, _ => String a (unquote (String h (String l s)))
  end.
Proof. done. Qed.

Lemma unquote_join c a b : Ascii.eqb c "%" = false -> hex_value c = None ->
  unquote (a +:+ String c b) = unquote a +:+ String c (unquote b).
Proof.
  intros Hc Hx. revert a. apply string_ind2.
  - by apply unquote_plain.
  - intros x. rewrite <- (unquote_plain c b Hc). change (String x "" +:+ String c b) with (String x (String c b)).
    destruct b as [|l b]; [done|]. cbn [unquote]. rewrite Hx. by destruct (Ascii.eqb x "%").
  - intros x y IH. change (String x (String y "") +:+ String c b) with (String x (String y (String c b))).
    transitivity (String x (unquote (String y (String c b)))).
    + cbn [unquote]. rewrite Hx. by destruct (Ascii.eqb x "%"), (hex_value y).
    + change (String y (String c b)) with (String y "" +:+ String c b). by rewrite IH.
  - intros x y z a IH0 IH1. change (String x (String y (String z a)) +:+ String c b) with (String x (String y (String z (a +:+ String c b)))).
    change (String y (String z a) +:+ String c b) with (String y (String z (a +:+ String c b))) in IH1.
    rewrite !unquote_step. destruct (Ascii.eqb x "%"), (hex_value y), (hex_value z); cbn [String.append];
      first [by rewrite IH0|by rewrite IH1].
Qed.

Lemma unquote_replace s : replace_char backslash slash (unquote (replace_char backslash slash s)) = replace_char backslash slash (unquote s).
Proof.
  assert (Hchar : forall a, hex_value (if Ascii.eqb a backslash then slash else a) = hex_value a /\
    Ascii.eqb (if Ascii.eqb a backslash then slash else a) "%" = Ascii.eqb a "%")
    by (intros [[] [] [] [] [] [] [] []]; by vm_compute).
  assert (Htwice : forall a t, replace_char backslash slash (String (if Ascii.eqb a backslash then slash else a) t)
    = String (if Ascii.eqb a backslash then slash else a) (replace_char backslash slash t))
    by (intros a t; unfold replace_char; cbn; by destruct (Ascii.eqb a backslash) eqn:E; cbn; rewrite ?E).
  assert (Hstep : forall a t, replace_char backslash slash (String a t) = String (if Ascii.eqb a backslash then slash else a) (replace_char backslash slash t))
    by done.
  revert s. apply string_ind2; [done|intros a; rewrite !Hstep; change (replace_char backslash slash "") with ""; cbn [unquote]; by rewrite Htwice, Hstep|..].
  - intros a h _. rewrite !Hstep. change (replace_char backslash slash "") with "". cbn [unquote]. by rewrite !Htwice, !Hstep.
  - intros a h l s IH0 IH1. rewrite !Hstep in *. rewrite !unquote_step.
    destruct (Hchar a) as [_ ->], (Hchar h) as [-> _], (Hchar l) as [-> _].
    destruct (Ascii.eqb a "%"), (hex_value h), (hex_value l); rewrite ?Htwice, ?Hstep;
      (f_equal; first [exact IH0|exact IH1]).
Qed.

Lemma authorize_scope `{Env} id bucket key method s ak :
  (authorize id bucket key method s).1 = Ok None -> (get_access_key id s).1 = Ok (Some ak) ->
  upper method ∈ READ_METHODS /\ scope_denial ak bucket key = None.
Proof.
  unfold authorize. case_bool_decide; [|done]. cbn [negb]. intros Ha Hg. split; [done|]. revert Ha.
  unfold mbind at 1, M_bind at 1. destruct (get_access_key id s) as [r s']. cbn [fst] in Hg. subst r. by intros [= ?].
Qed.

(** A key that passes the prefix test has the components of the prefix first, also when both are
    percent-decoded once more. *)
Lemma key_in_prefix_segments key p : key_in_prefix key p = true ->
  exists rest, key_segments (unquote key) = key_segments (unquote p) ++ rest.
Proof.
  unfold key_in_prefix. set (norm := lstrip_char slash (replace_char backslash slash key)).
  assert (key_segments (unquote key) = key_segments (unquote norm)) as ->.
  { transitivity (key_segments (unquote (replace_char backslash slash key))).
    - unfold key_segments. by rewrite unquote_replace.
    - unfold norm. generalize (replace_char backslash slash key) as t. induction t as [|c t IH]; [done|].
      cbn [lstrip_char]. destruct (Ascii.eqb_spec c slash) as [->|]; [|done].
      rewrite unquote_plain, <- IH by done. exact (key_segments_join "" (unquote t)). }
  intros [[Hin|Hin]%orb_prop|Hin]%orb_prop.
  - apply startswith_inv in Hin as [t ->]. rewrite app_assoc_s. change ("/" +:+ t) with (String slash t).
    rewrite unquote_join, key_segments_join by done. by eexists.
  - apply String.eqb_eq in Hin as ->. exists []. by rewrite app_nil_r.
  - apply String.eqb_eq in Hin as ->. by eexists.
Qed.

Lemma lstrip_forallb P c s : str_forallb P s = true -> str_forallb P (lstrip_char c s) = true.
Proof. induction s as [|a s IH]; [done|]. cbn [lstrip_char]. destruct (Ascii.eqb a c); [|done]. cbn. intros [_ H]%andb_prop. auto. Qed.
Lemma rstrip_forallb P c s : str_forallb P s = true -> str_forallb P (rstrip_char c s) = true.
Proof.
  induction s as [|a s IH]; [done|]. cbn. intros [Ha H]%andb_prop. destruct (_ && _); [done|]. cbn. by rewrite Ha, IH.
Qed.

Lemma backend_key_segments mp key : key_segments (backend_key (norm_prefix mp) key) = key_segments mp ++ key_segments (unquote key).
Proof.
  unfold backend_key. assert (forall u, key_segments (norm_prefix mp +:+ u) = key_segments mp ++ key_segments u) as ->.
  { intros u. unfold norm_prefix, strip_char.
    assert (key_segments (rstrip_char slash (lstrip_char slash (replace_char backslash slash mp))) = key_segments mp) as Hmp.
    { unfold key_segments. rewrite (replace_char_id _ _ (rstrip_char _ _)) by apply rstrip_forallb, lstrip_forallb, replace_backslash_free.
      by rewrite <- (filter_keep_nonempty (split_on slash (rstrip_char _ _))), split_rstrip, split_lstrip, filter_keep_nonempty. }
    destruct (truthy_str _) eqn:E.
    - rewrite app_assoc_s. change ("/" +:+ u) with (String slash u). by rewrite key_segments_join, Hmp.
    - rewrite <- Hmp. unfold truthy_str in E. apply negb_false_iff, String.eqb_eq in E. by rewrite E. }
  f_equal. rewrite key_segments_lstrip. unfold key_segments. f_equal. f_equal. by apply replace_char_id, replace_backslash_free.
Qed.

Lemma normalized_components s k : normalize_key s = Ok k -> split_on slash k = key_segments s /\ ".." ∉ split_on slash k.
Proof.
  intros Hk. pose proof Hk as (Hdots & Hne & ->)%normalize_key_spec.
  assert (Forall clean_segment (key_segments s)) as Hc.
  { apply Forall_forall. intros seg Hin. apply list_elem_of_filter in Hin as [[H1 H2] Hin].
    unfold clean_segment. repeat split; [done|done|by intros ->| |].
    - exact (Forall_elem _ _ _ (split_on_free slash _) Hin).
    - exact (Forall_elem _ _ _ (split_on_forallb _ slash _ (replace_backslash_free s)) Hin). }
  fold (key_segments s) in *. rewrite split_on_clean by done. split; [done|].
  intros Hin. by apply list_elem_of_filter in Hin as [_ Hin].
Qed.

(** C31: an authorized request stays within the scope of its key.  When [authorize] allows a request of
    a stored key, the method only reads, the key is enabled and may use the bucket; and when the key is
    confined to prefixes of that bucket and the bucket is a mount that is served as it is, the object the
    backend resolves the request to, after the key is percent-decoded once more and put below the mount's
    prefix, has a path of which the first components are those of the mount's prefix, then come those of
    one of the key's prefixes (decoded alike), and none is [..], however the request's path was
    spelled. *)
Theorem authorize_confines `{Env} id bucket key method s ak k ps mount_prefix :
  (authorize id bucket key method s).1 = Ok None -> (get_access_key id s).1 = Ok (Some ak) ->
  ak_allowed_prefixes ak !! bucket = Some ps -> ps <> [] ->
  normalize_key (backend_key (norm_prefix mount_prefix) key) = Ok k ->
  upper method ∈ READ_METHODS /\ ak_enabled ak = true /\ ("*" ∈ ak_allowed_buckets ak \/ bucket ∈ ak_allowed_buckets ak) /\
  exists p rest, p ∈ ps /\ split_on slash k = key_segments mount_prefix ++ key_segments (unquote p) ++ rest /\
    ".." ∉ split_on slash k.
Proof.
  intros Hauth Hget Hps Hne Hk. apply authorize_scope with (2 := Hget) in Hauth as [Hm Hden]. split; [done|].
  revert Hden. unfold scope_denial. intros Hden. destruct (ak_enabled ak); [|done]. cbn [negb] in Hden. split; [done|].
  destruct (bool_decide ("*" ∈ ak_allowed_buckets ak) || bool_decide (bucket ∈ ak_allowed_buckets ak)) eqn:Hb.
  2: { apply orb_false_elim in Hb as [E1 E2]. rewrite E1, E2 in Hden. done. }
  split.
  { apply orb_prop in Hb as [Hb|Hb]; apply bool_decide_eq_true in Hb; [by left|by right]. }
  assert (Hden' : match ak_allowed_prefixes ak !! bucket with
       | Some (p :: ps) =>
           if existsb (key_in_prefix key) (p :: ps) then None
           else Some (fmt ["key not authorized for this prefix in bucket "; quoted bucket])
       | _ => None end = None).
  { destruct (bool_decide ("*" ∈ _)), (bool_decide (bucket ∈ _)); done. }
  clear Hden. rewrite Hps in Hden'. destruct ps as [|p0 ps]; [done|].
  destruct (existsb (key_in_prefix key) (p0 :: ps)) eqn:Hex; [|done].
  apply existsb_exists in Hex as (p & Hp & Hin). destruct (key_in_prefix_segments key p Hin) as [rest Hrest].
  destruct (normalized_components _ _ Hk) as [Hpath Hdots]. exists p, rest. split; [by apply list_elem_of_In|]. split; [|done].
  by rewrite Hpath, backend_key_segments, Hrest.
Qed.

(** ** The front door *)

Section front_door.
Context `{Env} (cfg : key_config) (f : front_config).

(** The snapshot of the keys that a lookup sees, and the state it leaves. *)
Definition seen (s : key_state) : gmap string access_key :=
  match all_keys s with (Ok keys, _) => keys | (Err _, _) => ∅ end.
Definition looked_up (s : key_state) : key_state := (all_keys s).2.

Lemma all_keys_seen s : all_keys s = (Ok (seen s), looked_up s).
Proof.
  unfold seen, looked_up, all_keys. cbv zeta. destruct (ks_cache _); [|done]. by destruct (_ <? _).
Qed.

(** A lookup sees the store, or a snapshot younger than the cache's time to live. *)
Lemma seen_spec s : seen s = read_all (ks_records s) \/
  (ks_cache s = Some (seen s) /\ clock (ks_ticks s) - ks_cache_ts s < CACHE_TTL).
Proof.
  unfold seen, all_keys. cbv zeta. cbn [ks_cache ks_cache_ts ks_records ks_ticks].
  destruct (ks_cache s) as [keys|]; [|by left]. destruct (Z.ltb_spec (clock (ks_ticks s) - ks_cache_ts s) CACHE_TTL); [by right|by left].
Qed.

(** The next lookup sees the same snapshot, unless it has expired by then. *)
Lemma seen_again s : seen (looked_up s) = seen s \/
  (seen (looked_up s) = read_all (ks_records s) /\ CACHE_TTL <= clock (S (ks_ticks s)) - ks_cache_ts (looked_up s)).
Proof.
  assert (ks_records (looked_up s) = ks_records s /\ ks_ticks (looked_up s) = S (ks_ticks s) /\ ks_cache (looked_up s) = Some (seen s)) as (Er & Et & Ec).
  { unfold looked_up, seen, all_keys. cbv zeta. cbn [ks_cache ks_cache_ts ks_records ks_ticks].
    destruct (ks_cache s) as [keys|] eqn:E; [|done]. by destruct (_ <? _). }
  unfold seen at 1 3, all_keys. cbv zeta. cbn [ks_cache ks_cache_ts ks_records ks_ticks]. rewrite Er, Et, Ec.
  destruct (Z.ltb_spec (clock (S (ks_ticks s)) - ks_cache_ts (looked_up s)) CACHE_TTL); [by left|by right].
Qed.

Lemma get_access_key_seen id s : get_access_key id s = (Ok (seen s !! strip id), looked_up s).
Proof. unfold get_access_key, mbind, M_bind. by rewrite all_keys_seen. Qed.

(** Whose secret signs for an identity: that of an enabled key, or the legacy one. *)
Definition signs_for (keys : gmap string access_key) (who secret : string) : Prop :=
  match keys !! strip who with
  | Some ak => ak_enabled ak = true /\ secret = ak_secret_key ak
  | None => who = ACCESS_KEY_ID cfg /\ secret = SECRET_ACCESS_KEY cfg
  end.

(** What an identity may read: a stored key its scope, any other everything. *)
Definition in_scope (keys : gmap string access_key) (who bucket key : string) : Prop :=
  match keys !! strip who with
  | Some ak => scope_denial ak bucket key = None
  | None => True
  end.

Lemma resolve_secret_seen id s secret :
  resolve_secret cfg id s = (Ok (Some secret), looked_up s) -> signs_for (seen s) id secret.
Proof.
  unfold resolve_secret, mbind, M_bind, signs_for. rewrite get_access_key_seen. cbn [mret M_ret].
  destruct (seen s !! strip id) as [ak|].
  - destruct (ak_enabled ak); by intros [= <-].
  - destruct (String.eqb_spec id (ACCESS_KEY_ID cfg)); by intros [= <-].
Qed.

Lemma resolve_secret_state id s : exists r, resolve_secret cfg id s = (Ok r, looked_up s).
Proof. unfold resolve_secret, mbind, M_bind. rewrite get_access_key_seen. by eexists. Qed.

Lemma verified_presented r secret who now :
  verify_signature (rq_method r) (ascii_path (rq_raw_path r)) (rq_query r) (rq_headers r) (fun _ => secret) None
    now MAX_CLOCK_SKEW_SECONDS = Verified who -> presented_key r = Some who.
Proof.
  intros (p & signed & sig & t & Ha & Hs & _)%verify_signature_iff. unfold presented_key. rewrite Ha, Hs.
  by rewrite !String.eqb_refl.
Qed.

(** C30: the front door lets in whom it should, by the snapshots of the keys it looks at.  On a
    path that is not exempt and needs authentication, a request passes only when its signature is
    valid for the secret of the key it presents, the method only reads, and that key is an enabled key of
    the snapshot the first lookup sees, or the configured legacy key; nothing passes without an
    identity.  If the snapshot the second lookup sees has the key, the object lies within its scope
    there.  The first snapshot is the store's content or a cached one younger than [CACHE_TTL];
    the second one is the same, or the store's content if the first has expired by then (and if the
    key is gone from the store by then, its scope is not checked, see [stale_key_unscoped]). *)
Theorem front_door_sound now r who s s' bucket key :
  exempt f r = false -> bucket_key_from_path (rq_path r) = (bucket, key) ->
  REQUIRE_SIGV4 f || (truthy_str bucket && mounted f bucket && ENFORCE_MOUNT_AUTH f) = true ->
  sigv4_auth_middleware cfg f now r s = (Ok (Passed who), s') ->
  exists id secret p first second, who = Some id /\ upper (rq_method r) ∈ READ_METHODS /\
    signs_for first id secret /\ in_scope second id bucket key /\
    signed_by (rq_headers r) (fun _ => Some secret) None now MAX_CLOCK_SKEW_SECONDS
      (rq_method r) (ascii_path (rq_raw_path r)) (rq_query r) id p /\
    (first = read_all (ks_records s) \/ (ks_cache s = Some first /\ clock (ks_ticks s) - ks_cache_ts s < CACHE_TTL)) /\
    (second = first \/
     (second = read_all (ks_records s) /\ CACHE_TTL <= clock (S (ks_ticks s)) - ks_cache_ts (looked_up s))).
Proof.
  intros Hex Hbk Hreq. unfold sigv4_auth_middleware. rewrite Hex, Hbk, Hreq. cbn [negb]. cbv zeta.
  unfold mbind at 1, M_bind at 1. unfold resolve_presented.
  destruct (presented_key r) as [k|] eqn:Hk.
  2: { cbn [mret M_ret]. destruct (verify_signature _ _ _ _ _ _ _ _) as [id|] eqn:Hv; [|done].
       apply verified_presented in Hv. congruence. }
  destruct (resolve_secret_state k s) as [sec Es]. rewrite Es.
  destruct (verify_signature _ _ _ _ _ _ _ _) as [id|] eqn:Hv; [|done].
  pose proof (verified_presented _ _ _ _ Hv) as Hid. rewrite Hk in Hid. injection Hid as ->.
  apply verify_signature_iff in Hv as [p Hp].
  assert (Hsec : exists secret, sec = Some secret) by (destruct Hp as (? & ? & ? & _ & _ & E & _); by eexists).
  destruct Hsec as [secret ->]. pose proof (resolve_secret_seen id s secret Es) as Hres.
  unfold authorize. case_bool_decide as Hm; cbn [negb]; [|done].
  unfold mbind, M_bind. rewrite get_access_key_seen. cbn [mret M_ret].
  intros E. exists id, secret, p, (seen s), (seen (looked_up s)). split_and!; [|done|done| |done|apply seen_spec|apply seen_again].
  - destruct (seen (looked_up s) !! _) as [ak|]; [destruct (scope_denial ak bucket key); [done|]|]; by injection E as <- _.
  - unfold in_scope. destruct (seen (looked_up s) !! _) as [ak|]; [|done]. by destruct (scope_denial ak bucket key).
Qed.
End front_door.

(** ** Revocation *)

Lemma read_all_absent records kid : records !! kid = None -> read_all records !! kid = None.
Proof.
  intros Hk. unfold read_all. destruct (res_map _ _) as [l|e] eqn:Hl; [|done].
  apply not_elem_of_list_to_map_1. intros Hin. apply list_elem_of_fmap in Hin as ([k ak] & -> & Hin).
  destruct (res_map_source _ _ _ _ Hl Hin) as ([k1 d] & H1 & E). apply bind_Ok in E as (ak1 & _ & E).
  injection E as -> _. apply list_elem_of_omap in H1 as ([k2 o] & H2 & E).
  destruct o as [d2|]; [|done]. injection E as -> _. apply elem_of_map_to_list in H2. cbn in *. congruence.
Qed.

Section revocation.
Context `{Env} (cfg : key_config) (f : front_config).

(** A request the front door authenticates, presenting [who]. *)
Definition must_authenticate (r : request) (who : string) : Prop :=
  exempt f r = false /\ presented_key r = Some who /\
  REQUIRE_SIGV4 f || (truthy_str (bucket_key_from_path (rq_path r)).1 && mounted f (bucket_key_from_path (rq_path r)).1
                      && ENFORCE_MOUNT_AUTH f) = true.

Lemma delete_access_key_state id s :
  (delete_access_key id s).2 = KeyState (delete (strip id) (ks_records s)) None (ks_cache_ts s) (ks_ticks s).
Proof. done. Qed.

(** What may happen to a process and its store while the key [kid] stays deleted: requests and other
    lookups, saved and deleted keys, time, and other processes that change the store. *)
Inductive key_step (kid : string) (s : key_state) : key_state -> Prop :=
| step_request now r : key_step kid s (sigv4_auth_middleware cfg f now r s).2
| step_get id : key_step kid s (get_access_key id s).2
| step_list : key_step kid s (list_access_keys s).2
| step_any : key_step kid s (any_keys_defined s).2
| step_save ak : strip (ak_access_key_id ak) <> kid -> key_step kid s (save_access_key ak s).2
| step_delete id : key_step kid s (delete_access_key id s).2
| step_outside records n : records !! kid = None -> (ks_ticks s <= n)%nat ->
    key_step kid s (KeyState records (ks_cache s) (ks_cache_ts s) n).

(** The key is deleted, and a cached snapshot lacks it, or was read no later than at [since] (if this
    is given). *)
Definition forgotten (kid : string) (since : option Z) (s : key_state) : Prop :=
  ks_records s !! kid = None /\
  match ks_cache s with
  | Some keys => keys !! kid = None \/ exists t, since = Some t /\ ks_cache_ts s <= t
  | None => True
  end.

#[local] Instance anything_preorder : PreOrder (fun _ _ : key_state => True).
Proof. by split. Qed.

Lemma all_keys_forgets kid since s : forgotten kid since s ->
  forgotten kid since (all_keys s).2 /\
  ((forall t, since = Some t -> t + CACHE_TTL <= clock (ks_ticks s)) -> seen s !! kid = None).
Proof.
  intros [Hr Hc]. pose proof (read_all_absent _ _ Hr) as Hnew.
  unfold forgotten, seen, all_keys. cbv zeta. cbn [ks_cache ks_cache_ts ks_records ks_ticks].
  destruct (ks_cache s) as [keys|]; [|cbn; auto].
  destruct (Z.ltb_spec (clock (ks_ticks s) - ks_cache_ts s) CACHE_TTL) as [Hlt|Hge]; cbn [fst snd ks_cache ks_cache_ts ks_records].
  - split; [done|]. intros Hold. destruct Hc as [Hc|(t & Ht & Hle)]; [done|]. specialize (Hold t Ht). lia.
  - auto.
Qed.

Lemma all_keys_maintains kid since : maintains (forgotten kid since) (fun _ _ => True) all_keys.
Proof. intros s Hs. split; [by apply all_keys_forgets|done]. Qed.
Lemma get_access_key_maintains kid since id : maintains (forgotten kid since) (fun _ _ => True) (get_access_key id).
Proof. apply maintains_bind; [apply _|apply all_keys_maintains|intros keys; apply maintains_ret, _]. Qed.
Lemma resolve_secret_maintains kid since id : maintains (forgotten kid since) (fun _ _ => True) (resolve_secret cfg id).
Proof. apply maintains_bind; [apply _|apply get_access_key_maintains|intros ak; apply maintains_ret, _]. Qed.
Lemma authorize_maintains kid since id bucket key method : maintains (forgotten kid since) (fun _ _ => True) (authorize id bucket key method).
Proof.
  unfold authorize. destruct (negb _); [apply maintains_ret, _|].
  apply maintains_bind; [apply _|apply get_access_key_maintains|intros ak; apply maintains_ret, _].
Qed.
Lemma middleware_maintains kid since now r : maintains (forgotten kid since) (fun _ _ => True) (sigv4_auth_middleware cfg f now r).
Proof.
  unfold sigv4_auth_middleware. destruct (exempt f r); [apply maintains_ret, _|].
  destruct (bucket_key_from_path (rq_path r)) as [bucket key]. cbv zeta. destruct (negb _); [apply maintains_ret, _|].
  apply maintains_bind; [apply _| |intros secret].
  - unfold resolve_presented. destruct (presented_key r); [apply resolve_secret_maintains|apply maintains_ret, _].
  - destruct (verify_signature _ _ _ _ _ _ _ _); [|apply maintains_ret, _].
    apply maintains_bind; [apply _|apply authorize_maintains|intros d; apply maintains_ret, _].
Qed.

Lemma key_step_forgotten kid since s s' : key_step kid s s' -> forgotten kid since s -> forgotten kid since s'.
Proof.
  intros Hstep Hs. pose proof Hs as [Hr Hc]. destruct Hstep as [now r|id| | |ak Hne|id|records n Hnone Hn].
  - by apply middleware_maintains.
  - by apply get_access_key_maintains.
  - assert (maintains (forgotten kid since) (fun _ _ => True) list_access_keys) as H';
      [|by apply H']. apply maintains_bind; [apply _|apply all_keys_maintains|intros keys; apply maintains_ret, _].
  - assert (maintains (forgotten kid since) (fun _ _ => True) any_keys_defined) as H';
      [|by apply H']. apply maintains_bind; [apply _|apply all_keys_maintains|intros keys; apply maintains_ret, _].
  - unfold save_access_key. cbv zeta. destruct (negb _); [done|]. split; [|done].
    transitivity (ks_records s !! kid); [|exact Hr]. cbn [modify invalidate_cache snd]. by apply lookup_insert_ne.
  - rewrite delete_access_key_state. split; [|done]. cbn [ks_records].
    destruct (decide (strip id = kid)) as [->|Hne]; [apply lookup_delete_eq|by rewrite lookup_delete_ne].
  - by split.
Qed.

Lemma key_steps_forgotten kid since s s' : rtc (key_step kid) s s' -> forgotten kid since s -> forgotten kid since s'.
Proof. induction 1 as [s|s1 s2 s3 H1 _ IH]; [done|]. intros Hs. by apply IH, (key_step_forgotten _ _ s1). Qed.

Lemma forgotten_denied now r who since s : forgotten (strip who) since s ->
  (forall t, since = Some t -> t + CACHE_TTL <= clock (ks_ticks s)) -> who <> ACCESS_KEY_ID cfg -> must_authenticate r who ->
  exists code message, (sigv4_auth_middleware cfg f now r s).1 = Ok (Denied code message).
Proof.
  intros Hs Ht Hw (Hex & Hp & Hreq). unfold sigv4_auth_middleware. rewrite Hex.
  destruct (bucket_key_from_path (rq_path r)) as [bucket key]. cbn [fst] in Hreq. cbv zeta. rewrite Hreq. cbn [negb].
  unfold mbind at 1, M_bind at 1. unfold resolve_presented. rewrite Hp.
  unfold resolve_secret, mbind, M_bind. rewrite get_access_key_seen. cbn [mret M_ret].
  rewrite (proj2 (all_keys_forgets _ _ _ Hs) Ht), (proj2 (String.eqb_neq _ _) Hw).
  destruct (verify_signature _ _ _ _ _ _ _ _) as [id|code m] eqn:Hv; [|by eexists _, _].
  apply verify_signature_iff in Hv as [p (? & ? & ? & _ & _ & E & _)]. done.
Qed.

(** C32: a revoked key is refused, at once by the process that revokes it and
    within the cache's time to live by every other, and from then on.  Let [who] not be the configured
    legacy key.  A request that presents it is denied in every state that is reached from the one
    [delete_access_key] leaves, whatever requests, lookups and changes of other keys come in between, as
    long as nobody stores the key again.  In a process that did not delete it, and whose cached snapshot, if
    any, was not read in the future, the same holds from [CACHE_TTL] after the moment the
    store has it no more. *)
Theorem revoked_key_denied now r who s s' :
  who <> ACCESS_KEY_ID cfg -> must_authenticate r who ->
  (rtc (key_step (strip who)) (delete_access_key who s).2 s' ->
   exists code message, (sigv4_auth_middleware cfg f now r s').1 = Ok (Denied code message)) /\
  (ks_records s !! strip who = None -> ks_cache_ts s <= clock (ks_ticks s) -> rtc (key_step (strip who)) s s' ->
   clock (ks_ticks s) + CACHE_TTL <= clock (ks_ticks s') ->
   exists code message, (sigv4_auth_middleware cfg f now r s').1 = Ok (Denied code message)).
Proof.
  intros Hw Hr. split.
  - intros Hsteps. apply (forgotten_denied now r who None); [|done..]. eapply key_steps_forgotten; [exact Hsteps|].
    split; [apply lookup_delete_eq|done].
  - intros Hgone Hts Hsteps Ht. apply (forgotten_denied now r who (Some (clock (ks_ticks s)))); [|by intros t [= <-]|done|done].
    eapply key_steps_forgotten; [exact Hsteps|]. split; [done|]. destruct (ks_cache s); [|done]. right. by eexists.
Qed.
End revocation.

(** ** A worked deployment *)

Definition demo_clock (period : Z) : Env := {| clock := fun n => period * Z.of_nat n; token := fun _ => "" |}.
Definition demo_cfg : key_config := KeyConfig "legacy" "legacy-secret".
Definition demo_front : front_config := FrontConfig true true (fun _ => false) false.
Definition demo_key : access_key :=
  AccessKey "FSPKEY12" "s3cret" "finance" ["lake"] {[ "lake" := ["2026"] ]} "read" true.
Definition demo_records : gmap string (option dict) := {[ "FSPKEY12" := Some (access_record demo_key) ]}.
Definition demo_state : key_state := KeyState demo_records None 0 0.

(** A request signed with the key's secret. *)
Definition demo_request (path : string) : request :=
  Request "GET" path path ""
    (client_headers "FSPKEY12" "s3cret" "eu-west-1" "GET" path "" "proxy:8000" EMPTY_SHA256 "20240229T120000Z").
Definition demo_now : Z := 1709208000 * 1000000.

Example stored_record_parses : read_all demo_records = {[ "FSPKEY12" := demo_key ]}.
Proof. apply map_eq_iff. intros k. vm_compute. reflexivity. Qed.

Lemma authorize_confines_witness :
  (@authorize (demo_clock 1) "FSPKEY12" "lake" "2026//%2e/a.parquet" "GET" demo_state).1 = Ok None /\
  exists p rest, p ∈ ["2026"] /\ split_on slash "raw/eu/2026/a.parquet" = ["raw"; "eu"] ++ key_segments (unquote p) ++ rest.
Proof.
  split; [vm_compute; reflexivity|].
  destruct (@authorize_confines (demo_clock 1) "FSPKEY12" "lake" "2026//%2e/a.parquet" "GET" demo_state
    demo_key "raw/eu/2026/a.parquet" ["2026"] "/raw/eu") as (_ & _ & _ & p & rest & Hp & Hs & _);
    [vm_compute; reflexivity..|discriminate|vm_compute; reflexivity|].
  exists p, rest. split; [exact Hp|exact Hs].
Defined.

Lemma front_door_sound_witness :
  exists id secret p first second, Some "FSPKEY12" = Some id /\ upper "GET" ∈ READ_METHODS /\
    signs_for demo_cfg first id secret /\ in_scope second id "lake" "2026/a.parquet" /\
    signed_by (rq_headers (demo_request "/lake/2026/a.parquet")) (fun _ => Some secret) None demo_now
      MAX_CLOCK_SKEW_SECONDS "GET" (ascii_path "/lake/2026/a.parquet") "" id p /\ first = read_all demo_records.
Proof.
  destruct (@front_door_sound (demo_clock 1) demo_cfg demo_front demo_now (demo_request "/lake/2026/a.parquet")
    (Some "FSPKEY12") demo_state
    (@sigv4_auth_middleware (demo_clock 1) demo_cfg demo_front demo_now (demo_request "/lake/2026/a.parquet") demo_state).2
    "lake" "2026/a.parquet") as (id & secret & p & first & second & H1 & H2 & H3 & H4 & H5 & [H6|[H6 _]] & _).
  - vm_compute. reflexivity.
  - vm_compute. reflexivity.
  - vm_compute. reflexivity.
  - vm_compute. reflexivity.
  - exists id, secret, p, first, second. split_and!; [exact H1|exact H2|exact H3|exact H4|exact H5|exact H6].
  - discriminate H6.
Defined.

(** The key is deleted, another key is saved and looked up, and then the deleted key is used. *)
Definition other_key : access_key := AccessKey "FSPKEY99" "0ther" "ops" ["*"] ∅ "read" true.
Definition after_revocation : key_state :=
  (@get_access_key (demo_clock 1) "FSPKEY99" (@save_access_key other_key (@delete_access_key "FSPKEY12" demo_state).2).2).2.

Lemma revoked_key_denied_witness :
  ks_cache after_revocation <> None /\
  exists code message,
    (@sigv4_auth_middleware (demo_clock 1) demo_cfg demo_front demo_now (demo_request "/lake/2026/a.parquet") after_revocation).1
    = Ok (Denied code message).
Proof.
  split; [discriminate|].
  refine (proj1 (@revoked_key_denied (demo_clock 1) demo_cfg demo_front demo_now (demo_request "/lake/2026/a.parquet")
    "FSPKEY12" demo_state after_revocation _ _) _).
  - discriminate.
  - split; [|split]; vm_compute; reflexivity.
  - eapply rtc_l; [apply step_save with (ak := other_key); vm_compute; discriminate|].
    eapply rtc_l; [apply step_get with (id := "FSPKEY99")|]. apply rtc_refl.
Defined.

(** *** Where the code departs from its intent *)

(** The exempt prefixes are compared without a path boundary, so a bucket whose
    name begins with one of them is served without authentication. *)
Example exempt_prefix_unbounded `{Env} s :
  sigv4_auth_middleware demo_cfg demo_front demo_now
    (Request "GET" "/metrics-archive/2026/a.parquet" "/metrics-archive/2026/a.parquet" "" []) s = (Ok (Passed None), s).
Proof. reflexivity. Qed.

(** [authorize] takes an identity without a stored key for the legacy one.  When
    the key is removed and the cache expires between the two lookups, a request
    outside the key's scope passes. *)
Example stale_key_unscoped :
  (@sigv4_auth_middleware (demo_clock 5000) demo_cfg demo_front demo_now (demo_request "/vault/secret.parquet")
     (KeyState ∅ (Some {[ "FSPKEY12" := demo_key ]}) 0 0)).1 = Ok (Passed (Some "FSPKEY12")).
Proof. vm_compute. reflexivity. Qed.

(** The legacy key is resolved, with every bucket open to it, also when access
    keys are defined. *)
Example legacy_key_survives :
  (@any_keys_defined (demo_clock 1) demo_state).1 = Ok true /\
  (@resolve_secret (demo_clock 1) demo_cfg "legacy" demo_state).1 = Ok (Some "legacy-secret") /\
  (@authorize (demo_clock 1) "legacy" "vault" "secret.parquet" "GET" demo_state).1 = Ok None.
Proof. vm_compute. done. Qed.

(** One malformed record hides every key. *)
Example malformed_record_hides_all :
  read_all (<["BROKEN01" := Some (mk_dict [("allowed_buckets", JInt 7)])]> demo_records) = ∅.
Proof. vm_compute. reflexivity. Qed.
