(* ===== verification/Placement.v ===== *)
(** * Placement policies

    [control/placement.py]: materializer pools, stores, serving endpoints and the
    placement policies of connections and tables, read from the operator's
    configuration and validated for tenant isolation and data residency.  A [dict]
    is a [gmap]: when a configuration has several faults, which one is reported
    first is not fixed by the model, and neither is which of two keys that differ
    only in surrounding white space, or of two pools that
    share an identity in a configuration not read by [placement_from_dict], wins. *)

From S2P Require Import Prelude PyText Json Sources.
From Stdlib Require Import Ascii.

(** ** Data *)

Record agent_version_policy := AgentVersionPolicy {
  av_current : string;
  av_previous : string;
  av_rollout_order : list string;
  av_rings : gmap string (gset string);
}.

Record store_profile := StoreProfile {
  sp_location : string;
  sp_provider : string;
  sp_tenant_id : string;
}.

Record serving_endpoint := ServingEndpoint {
  se_location : string;
  se_storage_profile : string;
  se_url : string;
  se_tenant_id : string;
}.

Record materializer_pool := MaterializerPool {
  mp_pool_id : string;
  mp_identities : gset string;
  mp_location : string;
  mp_storage_profile : string;
  mp_allowed_connection_ids : gset string;
  mp_allowed_table_patterns : list string;
  mp_max_concurrency : option Z;
  mp_heartbeat_ms : option Z;
  mp_heartbeat_miss_limit : option Z;
  mp_claim_lease_seconds : option Z;
  mp_tenant_id : string;
  mp_upgrade_ring : string;
}.

Record materializer_policy := MaterializerPolicy {
  po_tenant_id : string;
  po_required_pool : string;
  po_required_location : string;
  po_required_storage_profile : string;
  po_fallback_pools : list string;
  po_max_concurrency : option Z;
  po_source_max_concurrency : option Z;
  po_residency_locations : list string;
  po_staging_storage_profile : string;
  po_serving_endpoints : list string;
  po_replica_storage_profiles : list string;
  po_cache_storage_profiles : list string;
  po_freshness_target_ms : option Z;
}.

#[global] Instance materializer_pool_eq_dec : EqDecision materializer_pool.
Proof. solve_decision. Defined.
#[global] Instance materializer_policy_eq_dec : EqDecision materializer_policy.
Proof. solve_decision. Defined.

(** [MaterializerPolicy()] *)
Definition default_policy : materializer_policy :=
  MaterializerPolicy "" "" "" "" [] None None [] "" [] [] [] None.

Record placement_config := PlacementConfig {
  pc_pools : gmap string materializer_pool;
  pc_connections : gmap string materializer_policy;
  pc_tables : gmap (string * string) materializer_policy;
  pc_stores : gmap string store_profile;
  pc_serving_endpoints : gmap string serving_endpoint;
  pc_tenants : gset string;
  pc_agent_versions : option agent_version_policy;
  pc_active_storage_profile : string;
}.

(** ** File name patterns ([fnmatchcase]) *)

(** A bracket expression: single characters and ranges, perhaps negated. *)
Fixpoint bracket_has (fuel : nat) (a : ascii) (set : list ascii) : bool :=
  match fuel with
  | O => false
  | S fuel =>
      match set with
      | lo :: d :: hi :: rest =>
          if Ascii.eqb d "-"
          then (N.leb (N_of_ascii lo) (N_of_ascii a) && N.leb (N_of_ascii a) (N_of_ascii hi)) || bracket_has fuel a rest
          else Ascii.eqb lo a || bracket_has fuel a (d :: hi :: rest)
      | lo :: rest => Ascii.eqb lo a || bracket_has fuel a rest
      | [] => false
      end
  end.

(** The characters up to the closing bracket, the first of which may be one. *)
Fixpoint until_bracket (s : list ascii) : option (list ascii * list ascii) :=
  match s with
  | [] => None
  | a :: s => if Ascii.eqb a "]" then Some ([], s)
              else match until_bracket s with Some (x, r) => Some (a :: x, r) | None => None end
  end.
Definition bracket (s : list ascii) : option (bool * list ascii * list ascii) :=
  let '(neg, s) := match s with a :: s' => if Ascii.eqb a "!" then (true, s') else (false, s) | [] => (false, s) end in
  match s with
  | [] => None
  | a :: s => match until_bracket s with Some (x, r) => Some (neg, a :: x, r) | None => None end
  end.

Inductive glob := Star | Any | OneOf (neg : bool) (set : list ascii) | Exactly (a : ascii).

Fixpoint parse_glob (fuel : nat) (s : list ascii) : list glob :=
  match fuel, s with
  | O, _ | _, [] => []
  | S fuel, a :: s =>
      if Ascii.eqb a "*" then Star :: parse_glob fuel s
      else if Ascii.eqb a "?" then Any :: parse_glob fuel s
      else if Ascii.eqb a "[" then
        match bracket s with
        | Some (neg, set, rest) => OneOf neg set :: parse_glob fuel rest
        | None => Exactly a :: parse_glob fuel s
        end
      else Exactly a :: parse_glob fuel s
  end.

Definition glob_one (g : glob) (a : ascii) : bool :=
  match g with
  | Star => false
  | Any => true
  | OneOf neg set => xorb neg (bracket_has (length set) a set)
  | Exactly b => Ascii.eqb a b
  end.

Fixpoint glob_match (gs : list glob) (s : list ascii) : bool :=
  match gs with
  | [] => match s with [] => true | _ => false end
  | Star :: gs =>
      (fix star (s : list ascii) : bool :=
         glob_match gs s || match s with [] => false | _ :: s => star s end) s
  | g :: gs => match s with [] => false | a :: s => glob_one g a && glob_match gs s end
  end.

Definition fnmatchcase (name pattern : string) : bool :=
  let p := String.list_ascii_of_string pattern in glob_match (parse_glob (length p) p) (String.list_ascii_of_string name).

(** [MaterializerPool.allows] *)
Definition allows (p : materializer_pool) (connection_id source_table : string) : bool :=
  if negb (truthy_str connection_id) || negb (bool_decide (connection_id ∈ mp_allowed_connection_ids p)) then false
  else bool_decide (mp_allowed_table_patterns p = [])
       || existsb (fnmatchcase source_table) (mp_allowed_table_patterns p).

(** ** Reading fields *)

Definition residency (detail : string) : exn := PlacementPolicyViolation "residency_policy_violation" detail.
Definition isolation (detail : string) : exn := PlacementPolicyViolation "tenant_isolation_violation" detail.

(** [_optional_text], [_required_text] *)
Definition optional_text (item : dict) (key : string) : res string :=
  match dget item key (JStr "") with
  | JStr s => Ok (strip s)
  | _ => Err (ValueError (fmt ["placement field "; quoted key; " must be a string"]))
  end.
Definition required_text (item : dict) (key : string) : res string :=
  value ← optional_text item key;
  if negb (truthy_str value) then Err (ValueError (fmt ["placement field "; quoted key; " must be non-empty"])) else Ok value.

(** [list(dict.fromkeys(...))]: the first of equal entries stays *)
Fixpoint unique (seen : list string) (l : list string) : list string :=
  match l with
  | [] => []
  | x :: l => if bool_decide (x ∈ seen) then unique seen l else x :: unique (x :: seen) l
  end.

Definition text_entry (v : json) : option string :=
  match v with JStr s => if truthy_str (strip s) then Some (strip s) else None | _ => None end.

(** [_text_list] *)
Definition text_list (item : dict) (key : string) (required : bool) : res (list string) :=
  match dget item key (if required then JNull else JList []) with
  | JList l =>
      match mapM text_entry l with
      | Some entries => Ok (unique [] entries)
      | None => Err (ValueError (fmt ["placement field "; quoted key; " must be a list of strings"]))
      end
  | _ => Err (ValueError (fmt ["placement field "; quoted key; " must be a list of strings"]))
  end.

(** [_positive_limit] *)
Definition positive_limit (v : json) (scope field : string) : res (option Z) :=
  match v with
  | JNull => Ok None
  | JInt z => if z <? 1 then Err (ValueError (fmt [scope; " "; field; " must be a positive integer"])) else Ok (Some z)
  | _ => Err (ValueError (fmt [scope; " "; field; " must be a positive integer"]))
  end.

(** [[A-Za-z0-9][A-Za-z0-9._:-]{0,63}] *)
Definition tenant_format (s : string) : bool :=
  match s with
  | String a s =>
      is_alnum a
      && str_forallb (fun c => is_alnum c || Ascii.eqb c "." || Ascii.eqb c "_" || Ascii.eqb c ":" || Ascii.eqb c "-") s
      && (Z.of_nat (String.length s) <=? 63)
  | EmptyString => false
  end.

(** [_tenant_id] *)
Definition tenant_id_of (item : json) (required : bool) (scope : string) (tenants : gset string) : res string :=
  let '(value, is_dict) := match item with JObj d => (dget d "tenant_id" (JStr ""), true) | v => (v, false) end in
  match value with
  | JStr s =>
      let tenant_id := strip s in
      if required && negb (truthy_str tenant_id) then Err (isolation (fmt [scope; " must belong to one configured tenant"]))
      else if truthy_str tenant_id && negb (tenant_format tenant_id)
      then Err (ValueError (fmt [scope; " tenant_id has an invalid format"]))
      else if truthy_str tenant_id && negb (bool_decide (tenants = ∅)) && negb (bool_decide (tenant_id ∈ tenants))
      then Err (isolation (fmt [scope; " references unknown tenant "; quoted tenant_id]))
      else if is_dict && truthy_str tenant_id && bool_decide (tenants = ∅)
      then Err (isolation (fmt [scope; " requires a top-level tenants declaration"]))
      else Ok tenant_id
  | _ => Err (ValueError (fmt [scope; " tenant_id must be a string"]))
  end.

(** ** Agent versions *)

Definition is_digit (a : ascii) : bool := match digit_value a with Some _ => true | None => false end.
Definition all_digits (s : string) : bool := truthy_str s && str_forallb is_digit s.
(** [str(int(s))] of digits *)
Definition plain_int (s : string) : string := pretty (default 0 (digits_value 0 s)).

(** [_release_line] *)
Definition release_line (v : json) (field : string) : res string :=
  let bad := Err (ValueError (fmt ["agent_versions "; field; " must use major.minor"])) in
  match v with
  | JStr s =>
      match partition "." (strip s) with
      | Some (major, minor) =>
          if all_digits major && all_digits minor then Ok (fmt [plain_int major; "."; plain_int minor]) else bad
      | None => bad
      end
  | _ => bad
  end.

Definition nonblank_text (v : json) : bool := match v with JStr s => truthy_str (strip s) | _ => false end.

Definition version_ring (supported : gset string) (ring : string * json) : res (string * gset string) :=
  match ring.2 with
  | JList (r :: rs) =>
      if negb (truthy_str (strip ring.1))
      then Err (ValueError "agent_versions ring definitions must be non-empty lists")
      else
        releases ← res_map (fun v => release_line v (fmt ["ring "; quoted ring.1])) (r :: rs);
        let normalized : gset string := list_to_set releases in
        if negb (bool_decide (normalized ⊆ supported))
        then Err (ValueError (fmt ["agent_versions ring "; quoted ring.1; " includes a release outside N/N-1"]))
        else Ok (strip ring.1, normalized)
  | _ => Err (ValueError "agent_versions ring definitions must be non-empty lists")
  end.

(** [_agent_version_policy] *)
Definition make_version_policy (raw : json) : res (option agent_version_policy) :=
  if bool_decide (raw = JNull) || bool_decide (raw = JObj ∅) then Ok None
  else match raw with
  | JObj d =>
      if negb (bool_decide (dom d = list_to_set ["current"; "previous"; "rings"; "rollout_order"] :> gset string))
      then Err (ValueError "agent_versions requires current, previous, rings and rollout_order")
      else
        current ← release_line (dget d "current" JNull) "current";
        previous ← release_line (dget d "previous" JNull) "previous";
        if String.eqb current previous then Err (ValueError "agent_versions current and previous must differ")
        else match dget d "rings" JNull, dget d "rollout_order" JNull with
        | JObj rings, JList order =>
            if bool_decide (rings = ∅) || negb (forallb nonblank_text order)
            then Err (ValueError "agent_versions requires non-empty rings and rollout_order")
            else
              order ← res_map (fun v => s ← py_str v; Ok (strip s)) order;
              if negb (bool_decide (NoDup order)) || negb (bool_decide (list_to_set order = dom rings :> gset string))
              then Err (ValueError "agent_versions rollout_order must list every ring exactly once")
              else
                rings ← res_map (version_ring {[current; previous]}) (map_to_list rings);
                Ok (Some (AgentVersionPolicy current previous order (list_to_map rings)))
        | _, _ => Err (ValueError "agent_versions requires non-empty rings and rollout_order")
        end
  | _ => Err (ValueError "agent_versions requires current, previous, rings and rollout_order")
  end.

(** [_upgrade_ring] *)
Definition upgrade_ring (item : dict) (policy : option agent_version_policy) (scope : string) : res string :=
  ring ← optional_text item "upgrade_ring";
  match policy with
  | None => if truthy_str ring then Err (ValueError (fmt [scope; " upgrade_ring requires agent_versions"])) else Ok ""
  | Some p =>
      if negb (truthy_str ring) || negb (bool_decide (is_Some (av_rings p !! ring)))
      then Err (ValueError (fmt [scope; " must reference one configured upgrade ring"])) else Ok ring
  end.

(** [(\d+)\.(\d+)(?:\.\d+)?(?:[-+][0-9A-Za-z.-]+)?], the two first groups *)
Fixpoint take_digits (s : string) : string * string :=
  match s with
  | String a s' => if is_digit a then let '(d, r) := take_digits s' in (String a d, r) else ("", s)
  | EmptyString => ("", "")
  end.
Definition version_suffix (s : string) : bool :=
  match s with
  | EmptyString => true
  | String a s =>
      (Ascii.eqb a "-" || Ascii.eqb a "+") && truthy_str s
      && str_forallb (fun c => is_alnum c || Ascii.eqb c "." || Ascii.eqb c "-") s
  end.
Definition semantic_version (s : string) : option (string * string) :=
  let '(major, r) := take_digits s in
  match r with
  | String dot r =>
      if negb (truthy_str major) || negb (Ascii.eqb dot ".") then None
      else
        let '(minor, r) := take_digits r in
        if negb (truthy_str minor) then None
        else
          let patch := match r with
                       | String a r' => if Ascii.eqb a "." then let '(p, r'') := take_digits r' in
                                          if truthy_str p then r'' else r
                                        else r
                       | EmptyString => r
                       end in
          if version_suffix patch then Some (major, minor) else None
  | EmptyString => None
  end.

(** ** Policies *)

Definition POLICY_KEYS : gset string := list_to_set [
  "required_pool"; "required_location"; "required_storage_profile"; "fallback_pools"; "max_concurrency";
  "source_max_concurrency"; "residency_locations"; "staging_storage_profile"; "serving_endpoints";
  "replica_storage_profiles"; "cache_storage_profiles"; "freshness_target_ms"; "tenant_id"].

Definition unknown_keys (d : dict) (allowed : gset string) : list string :=
  sorted_set (filter (fun k => k ∉ allowed) (map fst (map_to_list d))).

(** [_policy] *)
Definition make_policy (raw : json) (pools : gmap string materializer_pool) (scope : string) (tenants : gset string)
  : res materializer_policy :=
  match raw with
  | JObj d =>
      if negb (bool_decide (unknown_keys d POLICY_KEYS = []))
      then Err (ValueError (fmt [scope; " policy has unknown keys: "; repr_list (unknown_keys d POLICY_KEYS)]))
      else
        required_pool ← optional_text d "required_pool";
        required_location ← optional_text d "required_location";
        required_storage_profile ← optional_text d "required_storage_profile";
        fallback_pools ← text_list d "fallback_pools" false;
        if negb (bool_decide (fallback_pools = [])) && negb (truthy_str required_pool)
        then Err (ValueError (fmt [scope; " fallback_pools requires required_pool"]))
        else
          let named_pools := (if truthy_str required_pool then [required_pool] else []) ++ fallback_pools in
          let unknown_pools := filter (fun p => pools !! p = None) named_pools in
          if negb (bool_decide (unknown_pools = []))
          then Err (ValueError (fmt [scope; " references unknown pools: "; repr_list unknown_pools]))
          else if negb (bool_decide (NoDup named_pools)) then Err (ValueError (fmt [scope; " policy repeats a pool"]))
          else
            tenant_id ← tenant_id_of raw (negb (bool_decide (tenants = ∅))) scope tenants;
            max_concurrency ← positive_limit (dget d "max_concurrency" JNull) scope "max_concurrency";
            source_max ← positive_limit (dget d "source_max_concurrency" JNull) scope "source_max_concurrency";
            residency_locations ← text_list d "residency_locations" false;
            staging ← optional_text d "staging_storage_profile";
            serving ← text_list d "serving_endpoints" false;
            replicas ← text_list d "replica_storage_profiles" false;
            caches ← text_list d "cache_storage_profiles" false;
            freshness ← positive_limit (dget d "freshness_target_ms" JNull) scope "freshness_target_ms";
            Ok (MaterializerPolicy tenant_id required_pool required_location required_storage_profile fallback_pools
                  max_concurrency source_max residency_locations staging serving replicas caches freshness)
  | _ => Err (ValueError (fmt [scope; " policy must be an object"]))
  end.

(** ** Validation *)

Definition reject {A} (bad : bool) (e : exn) (k : res A) : res A := if bad then Err e else k.

(** A [for] loop of checks. *)
Fixpoint check_all {A} (f : A -> res unit) (l : list A) : res unit :=
  match l with [] => Ok tt | a :: l => _ ← f a; check_all f l end.

Section validation.
Context (c : placement_config).

Definition tenants_on : bool := negb (bool_decide (pc_tenants c = ∅)).

(** [{*policy..., } - {""}] *)
Definition policy_profiles (p : materializer_policy) : list string :=
  filter (fun s => s <> "") (po_required_storage_profile p :: po_staging_storage_profile p
    :: po_replica_storage_profiles p ++ po_cache_storage_profiles p).

(** [validate_tenant] *)
Definition validate_tenant (p : materializer_policy) (connection_id : string) : res unit :=
  if negb tenants_on then Ok tt
  else
    reject (negb (bool_decide (po_tenant_id p ∈ pc_tenants c)))
      (isolation "dataset policy must belong to one configured tenant")
    (reject (match pc_connections c !! connection_id with
             | Some parent => negb (String.eqb (po_tenant_id parent) (po_tenant_id p)) | None => false end)
      (isolation "table override cannot change connection tenant")
    (_ ← check_all (fun profile_id =>
            if match pc_stores c !! profile_id with Some s => String.eqb (sp_tenant_id s) (po_tenant_id p) | None => false end
            then Ok tt else Err (isolation (fmt ["store "; quoted profile_id; " belongs to another tenant"])))
          (policy_profiles p);
     _ ← check_all (fun pool_id =>
            if negb (truthy_str pool_id) then Ok tt
            else if match pc_pools c !! pool_id with Some q => String.eqb (mp_tenant_id q) (po_tenant_id p) | None => false end
            then Ok tt else Err (isolation (fmt ["pool "; quoted pool_id; " belongs to another tenant"])))
          (po_required_pool p :: po_fallback_pools p);
     check_all (fun endpoint_id =>
            if match pc_serving_endpoints c !! endpoint_id with
               | Some e => String.eqb (se_tenant_id e) (po_tenant_id p) | None => false end
            then Ok tt else Err (isolation (fmt ["serving endpoint "; quoted endpoint_id; " belongs to another tenant"])))
          (po_serving_endpoints p))).

Definition subset (l k : list string) : bool := forallb (fun x => bool_decide (x ∈ k)) l.

Definition staging_or_required (p : materializer_policy) : string :=
  str_or (po_staging_storage_profile p) (po_required_storage_profile p).

(** The checks of one pool and of one serving endpoint, with the profile they add. *)
Definition pool_in_boundary (p : materializer_policy) (pool_id : string) : res string :=
  match pc_pools c !! pool_id with
  | Some q =>
      reject (negb (bool_decide (mp_location q ∈ po_residency_locations p)) || negb (truthy_str (mp_storage_profile q)))
        (residency (fmt ["pool "; quoted pool_id; " is missing or outside the boundary"])) (Ok (mp_storage_profile q))
  | None => Err (residency (fmt ["pool "; quoted pool_id; " is missing or outside the boundary"]))
  end.

Definition endpoint_in_boundary (p : materializer_policy) (endpoint_id : string) : res string :=
  match pc_serving_endpoints c !! endpoint_id with
  | Some e =>
      reject (negb (bool_decide (se_location e ∈ po_residency_locations p)))
        (residency (fmt ["serving endpoint "; quoted endpoint_id; " is missing or outside the boundary"]))
      (reject (match pc_stores c !! se_storage_profile e with
               | Some s => negb (String.eqb (sp_location s) (se_location e)) | None => true end)
        (residency "serving endpoint must read a store in its own location")
      (reject (negb (bool_decide (se_storage_profile e ∈ po_required_storage_profile p :: po_replica_storage_profiles p)))
        (residency "serving endpoint must read the published store or a configured replica")
        (Ok (se_storage_profile e))))
  | None => Err (residency (fmt ["serving endpoint "; quoted endpoint_id; " is missing or outside the boundary"]))
  end.

Definition store_in_boundary (p : materializer_policy) (profile_id : string) : res unit :=
  match pc_stores c !! profile_id with
  | Some s => reject (negb (bool_decide (sp_location s ∈ po_residency_locations p)))
                (residency (fmt ["store "; quoted profile_id; " is missing or outside the boundary"])) (Ok tt)
  | None => Err (residency (fmt ["store "; quoted profile_id; " is missing or outside the boundary"]))
  end.

(** [validate_residency] *)
Definition validate_residency (p : materializer_policy) (connection_id : string) : res unit :=
  reject (match pc_connections c !! connection_id with
          | Some parent =>
              negb (bool_decide (po_residency_locations parent = []))
              && (bool_decide (po_residency_locations p = [])
                  || negb (subset (po_residency_locations p) (po_residency_locations parent)))
          | None => false end)
    (residency "table override cannot widen connection residency")
  (if bool_decide (po_residency_locations p = []) then
     reject (truthy_str (po_staging_storage_profile p) || negb (bool_decide (po_serving_endpoints p = []))
             || negb (bool_decide (po_replica_storage_profiles p = [])) || negb (bool_decide (po_cache_storage_profiles p = [])))
       (residency "federated chain requires residency_locations") (Ok tt)
   else
     reject (negb (truthy_str (po_required_pool p)) || negb (truthy_str (po_required_storage_profile p))
             || bool_decide (po_serving_endpoints p = []))
       (residency "constrained policy requires pool, published store and serving endpoint")
     (reject (truthy_str (po_required_location p) && negb (bool_decide (po_required_location p ∈ po_residency_locations p)))
       (residency "required location is outside the boundary")
     (pool_profiles ← res_map (pool_in_boundary p) (po_required_pool p :: po_fallback_pools p);
      endpoint_profiles ← res_map (endpoint_in_boundary p) (po_serving_endpoints p);
      check_all (store_in_boundary p)
        (po_required_storage_profile p :: staging_or_required p :: po_replica_storage_profiles p
         ++ po_cache_storage_profiles p ++ pool_profiles ++ endpoint_profiles)))).

(** [validate_dispatch] *)
Definition validate_dispatch (p : materializer_policy) (connection_id : string) : res unit :=
  _ ← validate_tenant p connection_id;
  _ ← validate_residency p connection_id;
  if bool_decide (po_residency_locations p = []) then Ok tt
  else
    reject (negb (truthy_str (pc_active_storage_profile c)))
      (residency "FSP_ARTIFACT_STORE_PROFILE is required for constrained dispatch")
    (pool_profiles ← res_map (fun pool_id => q ← of_option (KeyError pool_id) (pc_pools c !! pool_id); Ok (mp_storage_profile q))
                       (po_required_pool p :: po_fallback_pools p);
     reject (negb (String.eqb (po_required_storage_profile p) (pc_active_storage_profile c))
             || negb (String.eqb (staging_or_required p) (pc_active_storage_profile c))
             || existsb (fun s => negb (String.eqb s (pc_active_storage_profile c))) pool_profiles)
       (residency "current work queue supports one staging/published store; cross-store dispatch is not enabled") (Ok tt)).

(** [validate_task_tenant] *)
Definition validate_task_tenant (tenant_id : string) (p : materializer_policy) : res unit :=
  if negb tenants_on then
    reject (truthy_str tenant_id) (isolation "task declares a tenant but tenant isolation is disabled") (Ok tt)
  else reject (negb (truthy_str tenant_id) || negb (String.eqb tenant_id (po_tenant_id p)))
         (isolation "task tenant does not match dataset tenant") (Ok tt).

(** [policy_for] *)
Definition policy_for (connection_id source_table : string) : materializer_policy :=
  let parent := default default_policy (pc_connections c !! connection_id) in
  match pc_tables c !! (connection_id, source_table) with
  | Some p =>
      match po_source_max_concurrency p, po_source_max_concurrency parent with
      | None, Some n =>
          MaterializerPolicy (po_tenant_id p) (po_required_pool p) (po_required_location p) (po_required_storage_profile p)
            (po_fallback_pools p) (po_max_concurrency p) (Some n) (po_residency_locations p) (po_staging_storage_profile p)
            (po_serving_endpoints p) (po_replica_storage_profiles p) (po_cache_storage_profiles p) (po_freshness_target_ms p)
      | _, _ => p
      end
  | None => parent
  end.

(** [enabled] *)
Definition enabled : bool :=
  tenants_on || negb (bool_decide (pc_pools c = ∅)) || negb (bool_decide (pc_connections c = ∅))
  || negb (bool_decide (pc_tables c = ∅)).

(** [identity_pools] *)
Definition identity_pools : gmap string materializer_pool :=
  list_to_map (concat (map (fun q => map (fun i => (i, q)) (elements (mp_identities q))) (map snd (map_to_list (pc_pools c))))).
Definition pool_for_identity (identity : string) : option materializer_pool := identity_pools !! identity.

(** [validate_agent_version] *)
Definition validate_agent_version (identity version : string) : res unit :=
  match pc_agent_versions c with
  | None => Ok tt
  | Some policy =>
      match pool_for_identity identity with
      | None => Err (AgentVersionUnsupported (fmt ["Agent "; quoted identity; " is not assigned to a version ring"]))
      | Some pool =>
          match semantic_version (strip version) with
          | None => Err (AgentVersionUnsupported (fmt ["Agent "; quoted identity; " did not report a semantic version"]))
          | Some (major, minor) =>
              let release := fmt [plain_int major; "."; plain_int minor] in
              reject (negb (String.eqb release (av_current policy)) && negb (String.eqb release (av_previous policy)))
                (AgentVersionUnsupported (fmt ["Agent "; quoted identity; " release "; release; " is outside N/N-1 (";
                                               av_current policy; ", "; av_previous policy; ")"]))
              (match av_rings policy !! mp_upgrade_ring pool with
               | Some allowed =>
                   reject (negb (bool_decide (release ∈ allowed)))
                     (AgentVersionUnsupported (fmt ["Agent "; quoted identity; " release "; release; " is not enabled for ring ";
                                                    quoted (mp_upgrade_ring pool)])) (Ok tt)
               | None => Err (KeyError (mp_upgrade_ring pool))
               end)
          end
      end
  end.
(** ** Binding identities to credentials *)

(** [setdefault(key, set()).add(pool_id)] *)
Definition add_to (m : gmap string (gset string)) (key pool_id : string) : gmap string (gset string) :=
  <[key := {[pool_id]} ∪ default ∅ (m !! key)]> m.
Definition shared_key (m : gmap string (gset string)) : bool :=
  existsb (fun kv : string * gset string => bool_decide ((1 < size kv.2)%nat)) (map_to_list m).

Definition printable (a : ascii) : bool := N.leb 33 (N_of_ascii a) && N.leb (N_of_ascii a) 126.
Definition token_entry (entry : string * json) : option (string * string) :=
  match entry.2 with
  | JStr token =>
      if truthy_str entry.1 && (32 <=? Z.of_nat (String.length token)) && str_forallb printable token
      then Some (entry.1, token) else None
  | _ => None
  end.

(** [validate_identity_tokens], on what [json.loads] returns ([None] where it raises) *)
Definition validate_identity_tokens (parsed : option json) (shared_tokens : list string) : res unit :=
  let malformed := Err (ValueError "AGENT_IDENTITY_TOKENS must map agent IDs to tokens of at least 32 bytes") in
  match parsed with
  | None => Err (ValueError "AGENT_IDENTITY_TOKENS must be valid JSON")
  | Some (JObj raw) =>
      match mapM token_entry (map_to_list raw) with
      | None => malformed
      | Some tokens =>
          let bound := dom identity_pools in
          let named : gset string := list_to_set (map fst tokens) in
          let missing := if enabled then sorted_set (elements (bound ∖ named)) else [] in
          let unexpected := if enabled then sorted_set (elements (named ∖ bound)) else [] in
          reject (negb (bool_decide (missing = [])))
            (ValueError (fmt ["AGENT_IDENTITY_TOKENS is missing pool identities: "; repr_list missing]))
          (reject (negb (bool_decide (unexpected = [])))
            (ValueError (fmt ["AGENT_IDENTITY_TOKENS contains unmapped identities: "; repr_list unexpected]))
          (let token_pools := foldl (fun m (it : string * string) =>
                                match pool_for_identity it.1 with
                                | Some q => add_to m it.2 (mp_pool_id q) | None => m end) ∅ tokens in
           reject (shared_key token_pools) (ValueError "identity tokens must be unique across materializer pools")
           (reject (existsb (fun t => bool_decide (t ∈ filter (fun s => s <> "") shared_tokens)) (map snd tokens))
             (ValueError "identity tokens must differ from AGENT_TOKEN and AGENT_TOKEN_PREVIOUS") (Ok tt))))
      end
  | Some _ => malformed
  end.

(** One claim of [validate_entra_identities]: the pools each of its values stands for *)
Fixpoint entra_pools (identities : gmap string (gmap string string)) (claim : string)
    (l : list (string * materializer_pool)) (m : gmap string (gset string)) : res (gmap string (gset string)) :=
  match l with
  | [] => Ok m
  | (agent_id, q) :: l =>
      match identities !! agent_id ≫= (fun d => d !! claim) with
      | Some v => entra_pools identities claim l (add_to m v (mp_pool_id q))
      | None => Err (KeyError claim)
      end
  end.

(** [validate_entra_identities] *)
Definition validate_entra_identities (identities : gmap string (gmap string string)) : res unit :=
  let missing := sorted_set (elements (dom identity_pools ∖ dom identities)) in
  reject (negb (bool_decide (missing = [])))
    (ValueError (fmt ["Entra bindings are missing pool identities: "; repr_list missing]))
  (check_all (fun claim =>
     m ← entra_pools identities claim (map_to_list identity_pools) ∅;
     reject (shared_key m) (ValueError (fmt ["Entra "; claim; " bindings must be unique across materializer pools"])) (Ok tt))
   ["client_id"; "principal_id"]).

(** [validate_mtls_identities] *)
Definition validate_mtls_identities (identities : gmap string string) : res unit :=
  let unexpected := sorted_set (filter (fun i => i ∉ dom identity_pools) (map snd (map_to_list identities))) in
  reject (negb (bool_decide (unexpected = [])))
    (ValueError (fmt ["mTLS bindings contain unmapped Agent identities: "; repr_list unexpected])) (Ok tt).
End validation.

(** [bind_runtime_store], [bind_serving_store] *)
Definition with_active (profile_id : string) (c : placement_config) : placement_config :=
  PlacementConfig (pc_pools c) (pc_connections c) (pc_tables c) (pc_stores c) (pc_serving_endpoints c) (pc_tenants c)
    (pc_agent_versions c) profile_id.

Definition all_policies (c : placement_config) : list materializer_policy :=
  map snd (map_to_list (pc_connections c)) ++ map snd (map_to_list (pc_tables c)).

Definition bind_runtime_store (profile_id provider : string) : M placement_config unit :=
  modify (with_active profile_id);;
  c ← gets id;
  if truthy_str profile_id
     && match pc_stores c !! profile_id with Some s => negb (String.eqb (sp_provider s) provider) | None => true end
  then raise (residency "active artifact store does not match its declared provider")
  else lift (check_all (fun p => validate_dispatch c p "") (all_policies c)).

Definition bind_serving_store (profile_id provider endpoint_id : string) : M placement_config unit :=
  c ← gets id;
  match pc_stores c !! profile_id, pc_serving_endpoints c !! endpoint_id with
  | Some s, Some e =>
      if negb (String.eqb (sp_provider s) provider) || negb (String.eqb (se_storage_profile e) profile_id)
         || negb (String.eqb (se_location e) (sp_location s))
      then raise (residency "serving store must match its declared provider and endpoint")
      else
        lift (check_all (fun kp : string * materializer_policy =>
                _ ← validate_tenant c kp.2 kp.1; validate_residency c kp.2 kp.1) (map_to_list (pc_connections c)));;
        modify (with_active profile_id)
  | _, _ => raise (residency "serving store must match its declared provider and endpoint")
  end.

(** ** Reading a configuration *)

(** [urlsplit], as far as the serving endpoint check reads its result.  The check
    of a bracketed host as an IP address is [ipaddress]'s, a parameter. *)
Definition is_c0 (a : ascii) : bool := N.leb (N_of_ascii a) 32.
Fixpoint lstrip_c0 (s : string) : string :=
  match s with String a s' => if is_c0 a then lstrip_c0 s' else s | EmptyString => "" end.
Fixpoint drop_newlines (s : string) : string :=
  match s with
  | EmptyString => ""
  | String a s => if existsb (Ascii.eqb a) ["009"; "010"; "013"]%char then drop_newlines s else String a (drop_newlines s)
  end.
Fixpoint netloc_of (s : string) : string * string :=
  match s with
  | EmptyString => ("", "")
  | String a s' => if existsb (Ascii.eqb a) ["/"; "?"; "#"]%char then ("", s)
                   else let '(n, r) := netloc_of s' in (String a n, r)
  end.
Definition cut (c : ascii) (s : string) : string * string :=
  match partition c s with Some (a, b) => (a, b) | None => (s, "") end.
(** [rpartition("@")]: what follows the last one, and what precedes it *)
Definition after_last (c : ascii) (s : string) : string * string :=
  match partition c (str_rev s) with Some (h, t) => (str_rev t, str_rev h) | None => ("", s) end.

Definition has_char (c : ascii) (s : string) : bool := match partition c s with Some _ => true | None => false end.

Definition bracketed_host (s : string) : string := (cut "]" (cut "[" s).2).1.

(** The host name of [host\[:port\]], brackets dropped. *)
Definition hostname_of (hostinfo : string) : string :=
  if has_char "[" hostinfo then bracketed_host hostinfo else (cut ":" hostinfo).1.

Abbreviation pool_map := (gmap string materializer_pool).
Abbreviation policy_map := (gmap string materializer_policy).
Abbreviation table_map := (gmap (string * string) materializer_policy).

Section reading.
Context (ip_address : string -> bool).

(** [parsed.scheme == "https"], a host name, no credentials, query or fragment; or
    the [ValueError] of [urlsplit] itself *)
Definition serving_url_ok (url : string) : bool :=
  let url := drop_newlines (lstrip_c0 url) in
  let '(scheme, rest) := cut ":" url in
  if negb (String.eqb (lower scheme) "https") || negb (startswith rest "//") then false
  else
    let '(netloc, rest) := netloc_of (str_drop 2 rest) in
    let '(before_fragment, fragment) := cut "#" rest in
    let '(_, query) := cut "?" before_fragment in
    let '(userinfo, hostinfo) := after_last "@" netloc in
    let '(username, password) := cut ":" userinfo in
    if xorb (has_char "[" netloc) (has_char "]" netloc)
       || (has_char "[" netloc && negb (ip_address (bracketed_host netloc))) then false
    else truthy_str (hostname_of hostinfo) && negb (truthy_str username) && negb (truthy_str password)
         && negb (truthy_str query) && negb (truthy_str fragment).

Definition POOL_KEYS : gset string := list_to_set [
  "pool_id"; "identities"; "location"; "storage_profile"; "allowed_connection_ids"; "allowed_table_patterns";
  "max_concurrency"; "heartbeat_ms"; "heartbeat_miss_limit"; "claim_lease_seconds"; "tenant_id"; "upgrade_ring"].

(** One pool of the list: the pools so far and the identities they use. *)
Definition add_pool (tenants : gset string) (versions : option agent_version_policy)
    (acc : pool_map * gset string) (item : json) : res (pool_map * gset string) :=
  let '(pools, identities) := acc in
  match item with
  | JObj d =>
      if negb (bool_decide (unknown_keys d POOL_KEYS = []))
      then Err (ValueError (fmt ["pool definition has unknown fields: "; repr_list (unknown_keys d POOL_KEYS)]))
      else
        pool_id ← required_text d "pool_id";
        if bool_decide (is_Some (pools !! pool_id))
        then Err (ValueError (fmt ["duplicate materializer pool "; quoted pool_id]))
        else
          pool_identities ← text_list d "identities" true;
          let duplicates := filter (fun i => i ∈ identities) pool_identities in
          if bool_decide (pool_identities = [])
          then Err (ValueError (fmt ["pool "; quoted pool_id; " must define identities"]))
          else if negb (bool_decide (duplicates = []))
          then Err (ValueError (fmt ["agent identities are assigned to multiple pools: "; repr_list (sorted_set duplicates)]))
          else
            allowed_connections ← text_list d "allowed_connection_ids" true;
            table_patterns ← text_list d "allowed_table_patterns" false;
            max_concurrency ← positive_limit (dget d "max_concurrency" JNull) pool_id "max_concurrency";
            location ← optional_text d "location";
            storage_profile ← optional_text d "storage_profile";
            heartbeat_ms ← positive_limit (dget d "heartbeat_ms" JNull) pool_id "heartbeat_ms";
            miss_limit ← positive_limit (dget d "heartbeat_miss_limit" JNull) pool_id "heartbeat_miss_limit";
            claim_lease ← positive_limit (dget d "claim_lease_seconds" JNull) pool_id "claim_lease_seconds";
            tenant_id ← tenant_id_of item (negb (bool_decide (tenants = ∅))) (fmt ["pool "; quoted pool_id]) tenants;
            ring ← upgrade_ring d versions (fmt ["pool "; quoted pool_id]);
            let pool := MaterializerPool pool_id (list_to_set pool_identities) location storage_profile
                          (list_to_set allowed_connections) table_patterns max_concurrency heartbeat_ms miss_limit
                          claim_lease tenant_id ring in
            Ok (<[pool_id := pool]> pools, identities ∪ list_to_set pool_identities)
  | _ => Err (ValueError "each placement pool must be an object")
  end.

Fixpoint res_fold {A B} (f : B -> A -> res B) (b : B) (l : list A) : res B :=
  match l with [] => Ok b | a :: l => b' ← f b a; res_fold f b' l end.

Definition object_entries (d : dict) (key : string) : res dict :=
  match dget d key (JObj ∅) with
  | JObj o => Ok o
  | _ => Err (ValueError (fmt ["placement "; key; " must be an object"]))
  end.

(** One connection: its policy and, for its tables, its definition. *)
Definition add_connection (pools : pool_map) (tenants : gset string) (acc : policy_map * gmap string json)
    (entry : string * json) : res (policy_map * gmap string json) :=
  let key := strip entry.1 in
  if negb (truthy_str key) then Err (ValueError "connection policy keys must be non-empty")
  else
    policy ← make_policy entry.2 pools (fmt ["connection "; quoted key]) tenants;
    Ok (<[key := policy]> acc.1, <[key := entry.2]> acc.2).

(** The first occurrence of a two-character separator. *)
Fixpoint partition_colons (s : string) : option (string * string) :=
  match s with
  | EmptyString => None
  | String a s' =>
      match s' with
      | String b r =>
          if Ascii.eqb a ":" && Ascii.eqb b ":" then Some ("", r)
          else match partition_colons s' with Some (x, y) => Some (String a x, y) | None => None end
      | EmptyString => None
      end
  end.

(** What a table's definition takes from its connection's. *)
Definition inherit_policy (parent : option materializer_policy) (definition : option json) (d : dict) : res dict :=
  match parent with
  | None => Ok d
  | Some p =>
      let d := if truthy_str (po_tenant_id p) && bool_decide (d !! "tenant_id" = None)
               then <["tenant_id" := JStr (po_tenant_id p)]> d else d in
      if truthy_str (po_tenant_id p) && negb (bool_decide (dget d "tenant_id" JNull = JStr (po_tenant_id p)))
      then Err (isolation "table override cannot change connection tenant")
      else if bool_decide (po_residency_locations p = []) then Ok d
      else
        let d := d ∪ match definition with Some (JObj base) => base | _ => ∅ end in
        locations ← text_list d "residency_locations" false;
        if bool_decide (locations = []) || negb (subset locations (po_residency_locations p))
        then Err (residency "table override cannot widen connection residency") else Ok d
  end.

Definition add_table (pools : pool_map) (tenants : gset string) (connections : policy_map) (definitions : gmap string json)
    (acc : table_map) (entry : string * json) : res table_map :=
  match partition_colons entry.1 with
  | Some (connection_id, source_table) =>
      if negb (truthy_str (strip connection_id)) || negb (truthy_str (strip source_table))
      then Err (ValueError "table policy keys must use 'connection_id::source_table'")
      else
        let key := (strip connection_id, strip source_table) in
        match entry.2 with
        | JObj d =>
            d ← inherit_policy (connections !! key.1) (definitions !! key.1) d;
            policy ← make_policy (JObj d) pools (fmt ["table "; quoted key.1; "::"; quoted key.2]) tenants;
            Ok (<[key := policy]> acc)
        | _ => Err (ValueError "table policy must be an object")
        end
  | None => Err (ValueError "table policy keys must use 'connection_id::source_table'")
  end.

Definition read_store (tenants : gset string) (acc : gmap string store_profile) (entry : string * json)
  : res (gmap string store_profile) :=
  if negb (truthy_str (strip entry.1)) then Err (ValueError "store profile names must be non-empty strings")
  else
    let bad := Err (ValueError "store profiles require location, provider and optional tenant_id") in
    match entry.2 with
    | JObj d =>
        if negb (bool_decide (unknown_keys d (list_to_set ["location"; "provider"; "tenant_id"]) = [])) then bad
        else
          provider ← required_text d "provider";
          if negb (bool_decide (provider ∈ ["azure"; "s3"; "gcs"; "local"]))
          then Err (ValueError (fmt ["unsupported store provider: "; provider]))
          else
            location ← required_text d "location";
            tenant_id ← tenant_id_of entry.2 (negb (bool_decide (tenants = ∅))) (fmt ["store "; quoted entry.1]) tenants;
            Ok (<[entry.1 := StoreProfile location provider tenant_id]> acc)
    | _ => bad
    end.

Definition read_endpoint (tenants : gset string) (acc : gmap string serving_endpoint) (entry : string * json)
  : res (gmap string serving_endpoint) :=
  if negb (truthy_str (strip entry.1)) then Err (ValueError "serving endpoint names must be non-empty strings")
  else
    let bad := Err (ValueError "serving endpoints require location, storage_profile, url and optional tenant_id") in
    match entry.2 with
    | JObj d =>
        if negb (bool_decide (unknown_keys d (list_to_set ["location"; "storage_profile"; "url"; "tenant_id"]) = [])) then bad
        else
          url ← required_text d "url";
          if negb (serving_url_ok url) then Err (ValueError "serving endpoint URL must use HTTPS without credentials")
          else
            location ← required_text d "location";
            storage_profile ← required_text d "storage_profile";
            tenant_id ← tenant_id_of entry.2 (negb (bool_decide (tenants = ∅)))
                          (fmt ["serving endpoint "; quoted entry.1]) tenants;
            Ok (<[entry.1 := ServingEndpoint location storage_profile url tenant_id]> acc)
    | _ => bad
    end.

(** A pool reaches only connections of its own tenant. *)
Definition check_pool_connections (connections : policy_map) (q : materializer_pool) : res unit :=
  check_all (fun connection_id =>
    match connections !! connection_id with
    | None => Err (ValueError (fmt ["pool "; quoted (mp_pool_id q); " references unknown connection "; quoted connection_id]))
    | Some p =>
        if String.eqb (po_tenant_id p) (mp_tenant_id q) then Ok tt
        else Err (isolation (fmt ["pool "; quoted (mp_pool_id q); " cannot access connection "; quoted connection_id;
                                  " from another tenant"]))
    end) (elements (mp_allowed_connection_ids q)).

Definition CONFIG_KEYS : gset string := list_to_set [
  "tenants"; "pools"; "connections"; "tables"; "stores"; "serving_endpoints"; "agent_versions"].

(** [PlacementConfig.from_dict] *)
Definition placement_from_dict (value : dict) : res placement_config :=
  if negb (bool_decide (unknown_keys value CONFIG_KEYS = []))
  then Err (ValueError (fmt ["unknown placement configuration keys: "; repr_list (unknown_keys value CONFIG_KEYS)]))
  else match dget value "tenants" (JList []) with
  | JList raw_tenants =>
      names ← res_map (fun item => tenant_id_of item true "tenant" ∅) raw_tenants;
      if negb (bool_decide (NoDup names)) then Err (ValueError "placement tenants must be unique")
      else
        let tenants : gset string := list_to_set names in
        versions ← make_version_policy (dget value "agent_versions" JNull);
        match dget value "pools" (JList []) with
        | JList raw_pools =>
            pooled ← res_fold (add_pool tenants versions) (∅, ∅) raw_pools;
            let pools := pooled.1 in
            raw_connections ← object_entries value "connections";
            conns ← res_fold (add_connection pools tenants) (∅, ∅) (map_to_list raw_connections);
            raw_tables ← object_entries value "tables";
            tables ← res_fold (add_table pools tenants conns.1 conns.2) ∅ (map_to_list raw_tables);
            raw_stores ← object_entries value "stores";
            stores ← res_fold (read_store tenants) ∅ (map_to_list raw_stores);
            raw_endpoints ← object_entries value "serving_endpoints";
            endpoints ← res_fold (read_endpoint tenants) ∅ (map_to_list raw_endpoints);
            let c := PlacementConfig pools conns.1 tables stores endpoints tenants versions "" in
            _ ← check_all (fun p => _ ← validate_tenant c p ""; validate_residency c p "") (all_policies c);
            _ ← (if tenants_on c then check_all (check_pool_connections conns.1) (map snd (map_to_list pools)) else Ok tt);
            Ok c
        | _ => Err (ValueError "placement pools must be a list")
        end
  | _ => Err (ValueError "placement tenants must be a list")
  end.
End reading.
