(* ===== verification/PlacementProps.v ===== *)
(** * Placement policies: residency and tenant isolation

    What a configuration accepted by [placement_from_dict] guarantees of every
    policy it holds and of the effective policy of every table, what binding a
    store adds, who an Agent's identity stands for, and the meaning of the table
    patterns of a pool. *)

From S2P Require Import Prelude PyText Json Sources Placement.
From Stdlib Require Import Ascii.

(** ** Inverting the checks *)

Lemma reject_Ok {A} b e (k : res A) a : reject b e k = Ok a <-> b = false /\ k = Ok a.
Proof. destruct b; cbn; naive_solver. Qed.

Lemma check_all_Ok {A} (f : A -> res unit) l u : check_all f l = Ok u <-> Forall (fun a => f a = Ok tt) l.
Proof.
  destruct u. induction l as [|a l IH]; cbn; [by split; [constructor|]|].
  rewrite Forall_cons, <- IH. destruct (f a) as [[]|]; cbn; naive_solver.
Qed.

Lemma res_fold_inv {A B} (f : B -> A -> res B) (I : B -> Prop) l b b' :
  I b -> (forall x a y, a ∈ l -> I x -> f x a = Ok y -> I y) -> res_fold f b l = Ok b' -> I b'.
Proof.
  revert b. induction l as [|a l IH]; cbn; intros b Hb Hf H; [by injection H as <-|].
  apply bind_Ok in H as (b1 & E & H). eapply (IH b1); [|set_solver|done]. eapply Hf; [left|..]; done.
Qed.

Lemma orb_false a b : a || b = false <-> a = false /\ b = false.
Proof. apply orb_false_iff. Qed.

Lemma subset_spec l k : subset l k = true <-> l ⊆ k.
Proof.
  unfold subset. rewrite forallb_forall. split; intros H x Hx.
  - specialize (H x). rewrite bool_decide_eq_true in H. apply H. by apply list_elem_of_In.
  - apply bool_decide_eq_true, H. by apply list_elem_of_In.
Qed.

(** ** The residency boundary of a policy *)

Section boundary.
Context (c : placement_config) (p : materializer_policy).

(** The store of that name exists and lies inside the boundary of [p]. *)
Definition store_inside (profile_id : string) : Prop :=
  exists s, pc_stores c !! profile_id = Some s /\ sp_location s ∈ po_residency_locations p.

(** The chain a dataset's bytes pass through: the pools that materialize it, the
    stores they write, and the endpoints that serve it. *)
Definition inside_boundary : Prop :=
  (forall pool_id, pool_id ∈ po_required_pool p :: po_fallback_pools p ->
     exists q, pc_pools c !! pool_id = Some q /\ mp_location q ∈ po_residency_locations p
       /\ store_inside (mp_storage_profile q))
  /\ (forall endpoint_id, endpoint_id ∈ po_serving_endpoints p ->
     exists e, pc_serving_endpoints c !! endpoint_id = Some e /\ se_location e ∈ po_residency_locations p
       /\ store_inside (se_storage_profile e)
       /\ se_storage_profile e ∈ po_required_storage_profile p :: po_replica_storage_profiles p)
  /\ (forall profile_id, profile_id ∈ po_required_storage_profile p :: staging_or_required p
        :: po_replica_storage_profiles p ++ po_cache_storage_profiles p -> store_inside profile_id)
  /\ po_serving_endpoints p <> [].

Lemma pool_in_boundary_Ok pool_id s : pool_in_boundary c p pool_id = Ok s ->
  exists q, pc_pools c !! pool_id = Some q /\ mp_location q ∈ po_residency_locations p /\ s = mp_storage_profile q.
Proof.
  unfold pool_in_boundary. destruct (pc_pools c !! pool_id) as [q|]; [|done].
  rewrite reject_Ok, orb_false, !negb_false_iff, bool_decide_eq_true. intros [[? _] [= <-]]. eauto.
Qed.

Lemma endpoint_in_boundary_Ok endpoint_id s : endpoint_in_boundary c p endpoint_id = Ok s ->
  exists e, pc_serving_endpoints c !! endpoint_id = Some e /\ se_location e ∈ po_residency_locations p
    /\ s = se_storage_profile e /\ s ∈ po_required_storage_profile p :: po_replica_storage_profiles p.
Proof.
  unfold endpoint_in_boundary. destruct (pc_serving_endpoints c !! endpoint_id) as [e|]; [|done].
  rewrite !reject_Ok, !negb_false_iff, !bool_decide_eq_true. intros (? & _ & ? & [= <-]). eauto 6.
Qed.

Lemma store_in_boundary_Ok profile_id : store_in_boundary c p profile_id = Ok tt -> store_inside profile_id.
Proof.
  unfold store_in_boundary, store_inside. destruct (pc_stores c !! profile_id) as [s|]; [|done].
  rewrite reject_Ok, negb_false_iff, bool_decide_eq_true. intros [? _]. eauto.
Qed.

(** A constrained policy that passes keeps its whole chain inside its boundary. *)
Lemma validate_residency_inside connection_id :
  validate_residency c p connection_id = Ok tt -> po_residency_locations p <> [] -> inside_boundary.
Proof.
  unfold validate_residency. rewrite reject_Ok. intros [_ H] Hne.
  rewrite bool_decide_eq_false_2 in H by done. rewrite !reject_Ok in H. destruct H as (Hreq & _ & H).
  rewrite !orb_false in Hreq. destruct Hreq as [_ Hserve]. apply bool_decide_eq_false in Hserve.
  apply bind_Ok in H as (pp & Hpp & H). apply bind_Ok in H as (ep & Hep & H). rewrite check_all_Ok, Forall_forall in H.
  assert (Hstore : forall s, s ∈ po_required_storage_profile p :: staging_or_required p :: po_replica_storage_profiles p
            ++ po_cache_storage_profiles p ++ pp ++ ep -> store_inside s) by (intros s Hs; by apply store_in_boundary_Ok, H).
  split_and!.
  - intros pool_id Hin. destruct (res_map_image _ _ _ _ Hpp Hin) as (s & Hs & Hok).
    destruct (pool_in_boundary_Ok _ _ Hok) as (q & ? & ? & ->). exists q. split_and!; [done..|]. apply Hstore. set_solver.
  - intros endpoint_id Hin. destruct (res_map_image _ _ _ _ Hep Hin) as (s & Hs & Hok).
    destruct (endpoint_in_boundary_Ok _ _ Hok) as (e & ? & ? & -> & ?). exists e. split_and!; [done..| |done].
    apply Hstore. set_solver.
  - intros s Hs. apply Hstore. set_solver.
  - done.
Qed.

(** A policy without a boundary has no chain to keep. *)
Lemma validate_residency_free connection_id :
  validate_residency c p connection_id = Ok tt -> po_residency_locations p = [] ->
  po_staging_storage_profile p = "" /\ po_serving_endpoints p = [] /\ po_replica_storage_profiles p = []
  /\ po_cache_storage_profiles p = [].
Proof.
  unfold validate_residency. rewrite reject_Ok. intros [_ H] He. rewrite bool_decide_eq_true_2 in H by done.
  rewrite reject_Ok, !orb_false, !negb_false_iff, !bool_decide_eq_true, truthy_str_false in H. naive_solver.
Qed.

(** ** The tenant of a policy *)

(** Everything the policy names belongs to its tenant. *)
Definition inside_tenant : Prop :=
  po_tenant_id p ∈ pc_tenants c
  /\ (forall profile_id, profile_id ∈ policy_profiles p ->
        exists s, pc_stores c !! profile_id = Some s /\ sp_tenant_id s = po_tenant_id p)
  /\ (forall pool_id, pool_id ∈ po_required_pool p :: po_fallback_pools p -> pool_id <> "" ->
        exists q, pc_pools c !! pool_id = Some q /\ mp_tenant_id q = po_tenant_id p)
  /\ (forall endpoint_id, endpoint_id ∈ po_serving_endpoints p ->
        exists e, pc_serving_endpoints c !! endpoint_id = Some e /\ se_tenant_id e = po_tenant_id p).

Lemma validate_tenant_inside connection_id :
  validate_tenant c p connection_id = Ok tt -> tenants_on c = true -> inside_tenant.
Proof.
  unfold validate_tenant. intros H Ht. rewrite Ht in H. cbn [negb] in H. rewrite !reject_Ok in H.
  destruct H as (Hin & _ & H). apply negb_false_iff, bool_decide_eq_true in Hin.
  apply bind_Ok in H as ([] & Hs & H). apply bind_Ok in H as ([] & Hq & He).
  rewrite check_all_Ok, Forall_forall in Hs, Hq, He.
  split_and!; [done|..]; intros x Hx.
  - specialize (Hs x Hx). cbn in Hs. destruct (pc_stores c !! x) as [s|]; [|done].
    destruct (String.eqb_spec (sp_tenant_id s) (po_tenant_id p)); [eauto|done].
  - intros Hne. specialize (Hq x Hx). cbn in Hq. rewrite (proj2 (truthy_str_true x) Hne) in Hq. cbn in Hq.
    destruct (pc_pools c !! x) as [q|]; [|done]. destruct (String.eqb_spec (mp_tenant_id q) (po_tenant_id p)); [eauto|done].
  - specialize (He x Hx). cbn in He. destruct (pc_serving_endpoints c !! x) as [e|]; [|done].
    destruct (String.eqb_spec (se_tenant_id e) (po_tenant_id p)); [eauto|done].
Qed.
End boundary.

(** ** What reading a policy keeps *)

Lemma tenant_id_of_strip item required scope tenants t :
  tenant_id_of item required scope tenants = Ok t -> exists s, t = strip s /\ (required = true -> t <> "").
Proof.
  unfold tenant_id_of.
  destruct (match item with JObj d => (dget d "tenant_id" (JStr ""), true) | v => (v, false) end) as [v is_dict].
  destruct v; try done. cbn zeta. intros H. destruct (required && _) eqn:Hr; [done|].
  repeat (destruct (_ : bool) in H; [done|]). injection H as <-. exists s. split; [done|].
  intros ->. cbn in Hr. by apply negb_false_iff, truthy_str_true in Hr.
Qed.

(** The tenant a policy object names is the one it gets. *)
Lemma tenant_id_of_named d s required scope tenants t :
  d !! "tenant_id" = Some (JStr s) -> strip s = s -> tenant_id_of (JObj d) required scope tenants = Ok t -> t = s.
Proof.
  intros Hd Hs. unfold tenant_id_of, dget. rewrite Hd. cbn -[strip tenant_format]. rewrite Hs. intros H.
  repeat (destruct (_ : bool) in H; [done|]). by injection H as <-.
Qed.

Lemma make_policy_fields raw pools scope tenants p : make_policy raw pools scope tenants = Ok p ->
  exists d, raw = JObj d /\ text_list d "residency_locations" false = Ok (po_residency_locations p)
    /\ tenant_id_of raw (negb (bool_decide (tenants = ∅))) scope tenants = Ok (po_tenant_id p).
Proof.
  unfold make_policy. destruct raw as [| | | | |d]; try done. intros H. exists d. split; [done|].
  destruct (negb _) in H; [done|].
  apply bind_Ok in H as (? & _ & H). apply bind_Ok in H as (? & _ & H). apply bind_Ok in H as (? & _ & H).
  apply bind_Ok in H as (? & _ & H). destruct (_ && _) in H; [done|]. cbn zeta in H.
  destruct (negb _) in H; [done|]. destruct (negb _) in H; [done|].
  apply bind_Ok in H as (? & Ht & H). apply bind_Ok in H as (? & _ & H). apply bind_Ok in H as (? & _ & H).
  apply bind_Ok in H as (? & Hr & H). do 5 (apply bind_Ok in H as (? & _ & H)). injection H as <-. done.
Qed.

(** What a table may not change of its connection. *)
Definition narrows (parent p : materializer_policy) : Prop :=
  (po_tenant_id parent <> "" -> po_tenant_id p = po_tenant_id parent)
  /\ (po_residency_locations parent <> [] ->
      po_residency_locations p <> [] /\ po_residency_locations p ⊆ po_residency_locations parent).

Lemma inherit_policy_narrows parent definition d d' scope tenants pools p :
  strip (po_tenant_id parent) = po_tenant_id parent ->
  inherit_policy (Some parent) definition d = Ok d' -> make_policy (JObj d') pools scope tenants = Ok p -> narrows parent p.
Proof.
  intros Hstrip Hi Hp. destruct (make_policy_fields _ _ _ _ _ Hp) as (d2 & [= <-] & Hr & Ht). clear Hp.
  unfold inherit_policy in Hi. set (d1 := if (truthy_str (po_tenant_id parent) && _) then _ else d) in Hi.
  destruct (_ && negb (bool_decide (dget d1 _ _ = _))) eqn:Hten; [done|].
  assert (Hnamed : po_tenant_id parent <> "" -> d1 !! "tenant_id" = Some (JStr (po_tenant_id parent))).
  { intros Hne. rewrite (proj2 (truthy_str_true _) Hne) in Hten. cbn in Hten.
    apply negb_false_iff, bool_decide_eq_true in Hten. unfold dget in Hten. destruct (d1 !! "tenant_id"); cbn in Hten; congruence. }
  destruct (bool_decide_reflect (po_residency_locations parent = [])) as [Hempty|Hne].
  - injection Hi as <-. split; [|done]. intros Hn. eapply tenant_id_of_named; [apply Hnamed, Hn|done|exact Ht].
  - cbn zeta in Hi. apply bind_Ok in Hi as (locations & Hl & Hi). destruct (_ || _) eqn:Hb in Hi; [done|].
    injection Hi as <-. rewrite Hr in Hl. injection Hl as <-. apply orb_false in Hb as [Hb1 Hb2].
    apply bool_decide_eq_false in Hb1. apply negb_false_iff, subset_spec in Hb2. split; [|done].
    intros Hn. eapply tenant_id_of_named; [|done|exact Ht]. by apply lookup_union_Some_l, Hnamed.
Qed.

(** ** The pools *)

Definition ring_known (versions : option agent_version_policy) (q : materializer_pool) : Prop :=
  match versions with Some v => is_Some (av_rings v !! mp_upgrade_ring q) | None => True end.

(** Pools are filed under their own name, name a known ring and share no identity. *)
Record pools_ok (versions : option agent_version_policy) (pools : pool_map) (identities : gset string) : Prop := {
  pool_entry id q : pools !! id = Some q -> mp_pool_id q = id /\ mp_identities q ⊆ identities /\ ring_known versions q;
  pool_named : pools !! "" = None;
  pool_disjoint id1 id2 q1 q2 : pools !! id1 = Some q1 -> pools !! id2 = Some q2 -> id1 <> id2 ->
    mp_identities q1 ## mp_identities q2;
}.

Lemma upgrade_ring_known d versions scope ring q :
  upgrade_ring d versions scope = Ok ring -> mp_upgrade_ring q = ring -> ring_known versions q.
Proof.
  unfold upgrade_ring, ring_known. intros H Hq. apply bind_Ok in H as (r & _ & H). destruct versions as [v|]; [|done].
  destruct (_ || _) eqn:Hb; [done|]. injection H as <-. apply orb_false in Hb as [_ Hb].
  apply negb_false_iff, bool_decide_eq_true in Hb. by rewrite Hq.
Qed.

Lemma required_text_Ok d k v : required_text d k = Ok v -> v <> "".
Proof.
  unfold required_text. intros H. apply bind_Ok in H as (x & _ & H). destruct (truthy_str x) eqn:Hx; cbn in H; [|done].
  injection H as <-. by apply truthy_str_true.
Qed.

(** What adding one pool does to the pools so far. *)
Lemma add_pool_step tenants versions acc item acc' : add_pool tenants versions acc item = Ok acc' ->
  exists q, acc.1 !! mp_pool_id q = None /\ mp_identities q ## acc.2 /\ ring_known versions q /\ mp_pool_id q <> ""
    /\ acc' = (<[mp_pool_id q := q]> acc.1, acc.2 ∪ mp_identities q).
Proof.
  destruct acc as [pools identities]. unfold add_pool. destruct item as [| | | | |d]; try done. intros H.
  destruct (negb _) in H; [done|]. apply bind_Ok in H as (pool_id & Hid & H).
  apply required_text_Ok in Hid. destruct (bool_decide_reflect (is_Some (pools !! pool_id))) as [|Hfresh]; [done|].
  apply bind_Ok in H as (ids & _ & H). cbn zeta in H. destruct (bool_decide (ids = [])) in H; [done|].
  destruct (negb _) eqn:Hdup in H; [done|]. apply negb_false_iff, bool_decide_eq_true in Hdup.
  do 9 (apply bind_Ok in H as (? & _ & H)). apply bind_Ok in H as (ring & Hring & H).
  match type of H with Ok (<[_ := ?q]> _, _) = _ => exists q end. injection H as <-.
  cbn [mp_pool_id mp_identities fst snd]. split_and!; [by apply eq_None_not_Some| |by eapply upgrade_ring_known|done..].
  intros i Hi Hin. assert (i ∈ filter (fun i => i ∈ identities) ids) as Hf by (apply list_elem_of_filter; set_solver).
  rewrite Hdup in Hf. by apply not_elem_of_nil in Hf.
Qed.

Lemma add_pool_ok tenants versions acc item acc' :
  pools_ok versions acc.1 acc.2 -> add_pool tenants versions acc item = Ok acc' -> pools_ok versions acc'.1 acc'.2.
Proof.
  intros [Hent Hnone Hdis] (q & Hfresh & Hq & Hring & Hne & ->)%add_pool_step. cbn [fst snd]. split.
  - intros id q'. rewrite lookup_insert_Some. intros [[<- <-]|[_ Hl]]; [split; [done|split; [set_solver|done]]|].
    destruct (Hent _ _ Hl) as (? & ? & ?). split; [done|split; [set_solver|done]].
  - by rewrite lookup_insert_ne.
  - intros id1 id2 q1 q2. rewrite !lookup_insert_Some. intros [[<- <-]|[_ H1]] [[<- <-]|[_ H2]] Hd; [done|..].
    + destruct (Hent _ _ H2) as (_ & ? & _). set_solver.
    + destruct (Hent _ _ H1) as (_ & ? & _). set_solver.
    + eauto.
Qed.

(** Every identity stands for the one pool that lists it. *)
Lemma pool_for_identity_spec c ids versions i q : pools_ok versions (pc_pools c) ids ->
  pool_for_identity c i = Some q <-> exists id, pc_pools c !! id = Some q /\ i ∈ mp_identities q.
Proof.
  intros Hok. unfold pool_for_identity, identity_pools.
  set (entry q0 := map (fun i0 => (i0, q0)) (elements (mp_identities q0))).
  assert (Hmem : forall x (l : list materializer_pool), x ∈ concat (map entry l) <-> x.2 ∈ l /\ x.1 ∈ mp_identities x.2).
  { intros [j r] l. rewrite list_elem_of_In, in_concat. cbn [fst snd]. split.
    - intros (e & He & Hin). apply in_map_iff in He as (r0 & <- & Hr0). apply in_map_iff in Hin as (j0 & [= <- <-] & Hj).
      split; [by apply list_elem_of_In|]. by apply elem_of_elements, list_elem_of_In.
    - intros [Hr Hj]. exists (entry r). split; [by apply in_map, list_elem_of_In|].
      apply in_map_iff. exists j. split; [done|]. by apply list_elem_of_In, elem_of_elements. }
  assert (Hval : forall r, r ∈ map snd (map_to_list (pc_pools c)) <-> exists id, pc_pools c !! id = Some r).
  { intros r. rewrite list_elem_of_fmap. setoid_rewrite <- elem_of_map_to_list. split.
    - intros ([id ?] & -> & ?). eauto.
    - intros (id & ?). by exists (id, r). }
  assert (Huniq : forall r1 r2, (i, r1) ∈ concat (map entry (map snd (map_to_list (pc_pools c)))) ->
            (i, r2) ∈ concat (map entry (map snd (map_to_list (pc_pools c)))) -> r1 = r2).
  { intros r1 r2 [[id1 E1]%Hval Hi1]%Hmem [[id2 E2]%Hval Hi2]%Hmem. cbn [fst snd] in *.
    destruct (decide (id1 = id2)) as [->|Hne]; [congruence|]. 
    pose proof (pool_disjoint _ _ _ Hok _ _ _ _ E1 E2 Hne) as Hd. set_solver. }
  split.
  - intros H. apply elem_of_list_to_map_2, Hmem in H as [[id ?]%Hval ?]. eauto.
  - intros (id & Hl & Hi). assert (Hin : (i, q) ∈ concat (map entry (map snd (map_to_list (pc_pools c)))))
      by (apply Hmem; split; [apply Hval; eauto|done]).
    apply elem_of_list_to_map_1'; [|done]. intros r Hr. by apply (Huniq q r).
Qed.

(** ** What an accepted configuration satisfies *)

(** The two releases are the only ones any ring enables. *)
Definition version_policy_ok (v : agent_version_policy) : Prop :=
  av_current v <> av_previous v
  /\ forall ring allowed, av_rings v !! ring = Some allowed -> allowed ⊆ {[av_current v; av_previous v]}.

Lemma version_ring_supported supported ring k allowed : version_ring supported ring = Ok (k, allowed) -> allowed ⊆ supported.
Proof.
  unfold version_ring. destruct (ring.2) as [| | | |[|r rs]|]; try done. destruct (negb _); [done|]. intros H.
  apply bind_Ok in H as (releases & _ & H). cbn zeta in H. destruct (negb _) eqn:Hb in H; [done|]. injection H as <- <-.
  by apply negb_false_iff, bool_decide_eq_true in Hb.
Qed.

Lemma make_version_policy_ok raw v : make_version_policy raw = Ok (Some v) -> version_policy_ok v.
Proof.
  unfold make_version_policy. destruct (_ || _); [done|]. destruct raw as [| | | | |d]; try done.
  destruct (negb _); [done|]. intros H. apply bind_Ok in H as (current & _ & H). apply bind_Ok in H as (previous & _ & H).
  destruct (String.eqb_spec current previous); [done|].
  destruct (dget d "rings" JNull) as [| | | | |rings]; try done. destruct (dget d "rollout_order" JNull); try done.
  destruct (_ || _) in H; [done|]. apply bind_Ok in H as (order & _ & H). destruct (_ || _) in H; [done|].
  apply bind_Ok in H as (rs & Hrs & H). injection H as <-. split; [done|]. cbn [av_rings av_current av_previous].
  intros ring allowed Hl. apply elem_of_list_to_map_2 in Hl.
  destruct (res_map_source _ _ _ _ Hrs Hl) as (x & _ & Hx). by eapply version_ring_supported.
Qed.

(** The connections' tenants are free of surrounding white space. *)
Lemma add_connection_strip pools tenants acc entry acc' :
  (forall k p, acc.1 !! k = Some p -> strip (po_tenant_id p) = po_tenant_id p) ->
  add_connection pools tenants acc entry = Ok acc' ->
  forall k p, acc'.1 !! k = Some p -> strip (po_tenant_id p) = po_tenant_id p.
Proof.
  intros IH. unfold add_connection. cbn zeta. destruct (negb _); [done|]. intros H.
  apply bind_Ok in H as (p0 & Hp & H). injection H as <-. intros k p. cbn [fst].
  rewrite lookup_insert_Some. intros [[_ <-]|[_ Hl]]; [|by eapply IH].
  destruct (make_policy_fields _ _ _ _ _ Hp) as (d & _ & _ & Ht). apply tenant_id_of_strip in Ht as (s & -> & _).
  apply strip_idem.
Qed.

Lemma add_table_narrows (pools : pool_map) (tenants : gset string) (connections : policy_map) (definitions : dict) (acc acc' : table_map) (entry : string * json) :
  (forall k p, connections !! k = Some p -> strip (po_tenant_id p) = po_tenant_id p) ->
  (forall k p parent, acc !! k = Some p -> connections !! k.1 = Some parent -> narrows parent p) ->
  add_table pools tenants connections definitions acc entry = Ok acc' ->
  forall k p parent, acc' !! k = Some p -> connections !! k.1 = Some parent -> narrows parent p.
Proof.
  intros Hstrip IH. unfold add_table. destruct (partition_colons entry.1) as [[conn table]|]; [|done].
  destruct (_ || _); [done|]. cbn zeta. destruct entry.2 as [| | | | |d]; try done. intros H.
  apply bind_Ok in H as (d' & Hi & H). apply bind_Ok in H as (p0 & Hp & H). injection H as <-.
  intros k p parent. rewrite lookup_insert_Some. intros [[<- <-]|[_ Hl]] Hc; [|by eapply IH].
  rewrite Hc in Hi. eapply inherit_policy_narrows; [by eapply Hstrip|exact Hi|exact Hp].
Qed.

Lemma add_table_named (pools : pool_map) (tenants : gset string) (connections : policy_map) (definitions : dict)
    (acc acc' : table_map) (entry : string * json) conn :
  acc !! (conn, "") = None -> add_table pools tenants connections definitions acc entry = Ok acc' -> acc' !! (conn, "") = None.
Proof.
  intros IH. unfold add_table. destruct (partition_colons entry.1) as [[x table]|]; [|done].
  destruct (_ || _) eqn:Hb; [done|]. cbn zeta. destruct entry.2 as [| | | | |d]; try done. intros H.
  apply bind_Ok in H as (d' & _ & H). apply bind_Ok in H as (p0 & _ & H). injection H as <-.
  apply orb_false in Hb as [_ Hb]. apply negb_false_iff, truthy_str_true in Hb. rewrite lookup_insert_ne; [done|]. congruence.
Qed.

Record config_ok (c : placement_config) : Prop := {
  config_policies p : p ∈ all_policies c -> validate_tenant c p "" = Ok tt /\ validate_residency c p "" = Ok tt;
  config_pools : exists identities, pools_ok (pc_agent_versions c) (pc_pools c) identities;
  config_tables conn table p parent :
    pc_tables c !! (conn, table) = Some p -> pc_connections c !! conn = Some parent -> narrows parent p;
  config_reach : tenants_on c = true -> forall id q, pc_pools c !! id = Some q ->
    check_pool_connections (pc_connections c) q = Ok tt;
  config_versions v : pc_agent_versions c = Some v -> version_policy_ok v;
  config_tenants : "" ∉ pc_tenants c;
  config_table_names conn : pc_tables c !! (conn, "") = None;
}.

Lemma placement_from_dict_ok ip_address value c : placement_from_dict ip_address value = Ok c -> config_ok c.
Proof.
  unfold placement_from_dict. destruct (negb _); [done|].
  destruct (dget value "tenants" (JList [])) as [| | | |raw_tenants|]; try done. intros H.
  apply bind_Ok in H as (names & Hnames & H). destruct (negb _) in H; [done|]. cbn zeta in H.
  apply bind_Ok in H as (versions & Hv & H).
  destruct (dget value "pools" (JList [])) as [| | | |raw_pools|]; try done.
  apply bind_Ok in H as (pooled & Hp & H). apply bind_Ok in H as (raw_connections & _ & H).
  apply bind_Ok in H as (conns & Hc & H). apply bind_Ok in H as (raw_tables & _ & H).
  apply bind_Ok in H as (tables & Ht & H). apply bind_Ok in H as (raw_stores & _ & H).
  apply bind_Ok in H as (stores & _ & H). apply bind_Ok in H as (raw_endpoints & _ & H).
  apply bind_Ok in H as (endpoints & _ & H). apply bind_Ok in H as ([] & Hpol & H). apply bind_Ok in H as ([] & Hreach & H).
  injection H as <-. rewrite check_all_Ok, Forall_forall in Hpol.
  assert (Hstrip : forall k p, conns.1 !! k = Some p -> strip (po_tenant_id p) = po_tenant_id p).
  { eapply (res_fold_inv _ (fun acc => forall k p, acc.1 !! k = Some p -> strip (po_tenant_id p) = po_tenant_id p));
      [|intros x a y _ Hx Hy; eapply add_connection_strip; [exact Hx|exact Hy]|exact Hc].
    intros k p. cbn. by rewrite lookup_empty. }
  split; cbn [pc_agent_versions pc_pools pc_tables pc_connections pc_tenants].
  - intros p Hin. specialize (Hpol p Hin). cbn beta in Hpol. apply bind_Ok in Hpol as ([] & ? & ?). done.
  - exists pooled.2. eapply (res_fold_inv _ (fun acc => pools_ok versions acc.1 acc.2));
      [|intros x a y _ Hx Hy; eapply add_pool_ok; [exact Hx|exact Hy]|exact Hp].
    split; cbn; intros *; rewrite lookup_empty; done.
  - intros conn table. eapply (res_fold_inv _ (fun acc : table_map =>
        forall k p parent, acc !! k = Some p -> conns.1 !! k.1 = Some parent -> narrows parent p) _ _ _);
      [|intros x a y _ Hx Hy; eapply add_table_narrows; [exact Hstrip|exact Hx|exact Hy]|exact Ht].
    intros k p parent. by rewrite lookup_empty.
  - intros Hon id q Hl. rewrite Hon, check_all_Ok, Forall_forall in Hreach. apply Hreach.
    apply list_elem_of_fmap. exists (id, q). split; [done|]. by apply elem_of_map_to_list.
  - intros v ->. by eapply make_version_policy_ok.
  - rewrite elem_of_list_to_set. intros Hin. destruct (res_map_source _ _ _ _ Hnames Hin) as (item & _ & Hi).
    apply tenant_id_of_strip in Hi as (s & _ & Hne). by apply Hne.
  - intros conn. eapply (res_fold_inv _ (fun acc : table_map => acc !! (conn, "") = None));
      [|intros x a y _ Hx Hy; eapply add_table_named; [exact Hx|exact Hy]|exact Ht]. apply lookup_empty.
Qed.

(** ** The effective policy of a table *)

Lemma all_policies_connection c conn p : pc_connections c !! conn = Some p -> p ∈ all_policies c.
Proof.
  intros H. apply elem_of_app. left. apply list_elem_of_fmap. exists (conn, p). split; [done|]. by apply elem_of_map_to_list.
Qed.
Lemma all_policies_table c k p : pc_tables c !! k = Some p -> p ∈ all_policies c.
Proof.
  intros H. apply elem_of_app. right. apply list_elem_of_fmap. exists (k, p). split; [done|]. by apply elem_of_map_to_list.
Qed.

(** Two policies that differ at most in the limit a table takes from its connection. *)
Definition same_reach (p p' : materializer_policy) : Prop :=
  po_tenant_id p' = po_tenant_id p /\ po_required_pool p' = po_required_pool p
  /\ po_required_storage_profile p' = po_required_storage_profile p /\ po_fallback_pools p' = po_fallback_pools p
  /\ po_residency_locations p' = po_residency_locations p /\ po_staging_storage_profile p' = po_staging_storage_profile p
  /\ po_serving_endpoints p' = po_serving_endpoints p /\ po_replica_storage_profiles p' = po_replica_storage_profiles p
  /\ po_cache_storage_profiles p' = po_cache_storage_profiles p.

Lemma same_reach_boundary c p p' : same_reach p p' -> inside_boundary c p -> inside_boundary c p'.
Proof.
  unfold inside_boundary, store_inside, staging_or_required. intros (_ & E1 & E2 & E3 & E4 & E5 & E6 & E7 & E8).
  by rewrite E1, E2, E3, E4, E5, E6, E7, E8.
Qed.
Lemma same_reach_tenant c p p' : same_reach p p' -> inside_tenant c p -> inside_tenant c p'.
Proof.
  unfold inside_tenant, policy_profiles. intros (E0 & E1 & E2 & E3 & _ & E5 & E6 & E7 & E8).
  by rewrite E0, E1, E2, E3, E5, E6, E7, E8.
Qed.

(** The policy a table gets is one the configuration holds and narrows its connection's. *)
Lemma policy_for_source c conn table parent : config_ok c -> pc_connections c !! conn = Some parent ->
  exists p, p ∈ all_policies c /\ narrows parent p /\ same_reach p (policy_for c conn table).
Proof.
  intros Hc Hp. unfold policy_for. rewrite Hp. cbn [from_option id]. destruct (pc_tables c !! (conn, table)) as [p|] eqn:Ht.
  - exists p. split; [by eapply all_policies_table|]. split; [by eapply config_tables|].
    destruct (po_source_max_concurrency p), (po_source_max_concurrency parent); unfold same_reach; by split_and!.
  - exists parent. split; [by eapply all_policies_connection|]. by repeat split.
Qed.

(** Data residency: with a configuration the Manager accepted, a table of a
    connection that names residency locations gets a policy whose own locations
    are some of the connection's, whatever its override says, and everything its
    bytes pass through exists and lies inside them: every pool that may
    materialize it with the store the pool writes, the published, staging, replica
    and cache stores, and every serving endpoint, which reads the published store
    or a replica. *)
Theorem effective_policy_inside_boundary ip_address value c conn table parent :
  placement_from_dict ip_address value = Ok c ->
  pc_connections c !! conn = Some parent -> po_residency_locations parent <> [] ->
  po_residency_locations (policy_for c conn table) <> []
  /\ po_residency_locations (policy_for c conn table) ⊆ po_residency_locations parent
  /\ inside_boundary c (policy_for c conn table).
Proof.
  intros Hc%placement_from_dict_ok Hp Hne.
  destruct (policy_for_source c conn table parent Hc Hp) as (p & Hin & [_ Hnarrow] & Hsame).
  destruct (Hnarrow Hne) as [Hne' Hsub]. destruct (config_policies _ Hc p Hin) as [_ Hres].
  pose proof Hsame as (_ & _ & _ & _ & E & _). rewrite E. split_and!; [done..|].
  eapply same_reach_boundary; [exact Hsame|]. by eapply validate_residency_inside.
Qed.

(** Tenant isolation: with tenants configured, a pool that allows a table
    belongs to the tenant of the table's effective policy, and so do every store,
    pool and serving endpoint that policy names: an Agent of one tenant's pool is
    never allowed a table of another. *)
Theorem tenant_isolation_holds ip_address value c agent_id q conn table :
  placement_from_dict ip_address value = Ok c -> tenants_on c = true ->
  pool_for_identity c agent_id = Some q -> allows q conn table = true ->
  po_tenant_id (policy_for c conn table) = mp_tenant_id q /\ inside_tenant c (policy_for c conn table).
Proof.
  intros Hc%placement_from_dict_ok Hon Hq Hallow. destruct (config_pools _ Hc) as [ids Hpools].
  apply (pool_for_identity_spec _ _ _ _ _ Hpools) in Hq as (id & Hl & _).
  pose proof (config_reach _ Hc Hon _ _ Hl) as Hreach. unfold check_pool_connections in Hreach.
  rewrite check_all_Ok, Forall_forall in Hreach. unfold allows in Hallow. destruct (_ || _) eqn:Hb in Hallow; [done|].
  apply orb_false in Hb as [_ Hb]. apply negb_false_iff, bool_decide_eq_true in Hb.
  specialize (Hreach conn (proj2 (elem_of_elements _ _) Hb)). cbn beta in Hreach.
  destruct (pc_connections c !! conn) as [parent|] eqn:Hconn; [|done].
  destruct (String.eqb_spec (po_tenant_id parent) (mp_tenant_id q)) as [Heq|]; [|done].
  destruct (policy_for_source c conn table parent Hc Hconn) as (p & Hin & [Hnarrow _] & Hsame).
  destruct (config_policies _ Hc p Hin) as [Hten _].
  pose proof (validate_tenant_inside _ _ _ (proj1 (config_policies _ Hc _ (all_policies_connection _ _ _ Hconn))) Hon) as [Hpar _].
  assert (po_tenant_id parent <> "") by (intros E; rewrite E in Hpar; by apply (config_tenants _ Hc)).
  pose proof Hsame as (E0 & _). rewrite E0, Hnarrow, Heq by done. split; [done|].
  eapply same_reach_tenant; [exact Hsame|]. by eapply validate_tenant_inside.
Qed.

(** Agent versions: with an accepted configuration that sets a version policy,
    an Agent is let in exactly when its identity is in a pool and its version is a
    semantic version whose release the pool's ring enables; that release is the
    current or the previous one, and every other Agent gets
    [AgentVersionUnsupported], never another error. *)
Theorem agent_version_decided ip_address value c v agent_id version :
  placement_from_dict ip_address value = Ok c -> pc_agent_versions c = Some v ->
  match validate_agent_version c agent_id version with
  | Ok _ => exists q major minor allowed, pool_for_identity c agent_id = Some q
      /\ semantic_version (strip version) = Some (major, minor)
      /\ av_rings v !! mp_upgrade_ring q = Some allowed
      /\ fmt [plain_int major; "."; plain_int minor] ∈ allowed
      /\ (fmt [plain_int major; "."; plain_int minor] = av_current v
          \/ fmt [plain_int major; "."; plain_int minor] = av_previous v)
  | Err e => (exists detail, e = AgentVersionUnsupported detail)
      /\ ~ exists q major minor allowed, pool_for_identity c agent_id = Some q
        /\ semantic_version (strip version) = Some (major, minor)
        /\ av_rings v !! mp_upgrade_ring q = Some allowed
        /\ fmt [plain_int major; "."; plain_int minor] ∈ allowed
  end.
Proof.
  intros Hc%placement_from_dict_ok Hv. destruct (config_pools _ Hc) as [ids Hpools].
  destruct (config_versions _ Hc v Hv) as [_ Hrings]. unfold validate_agent_version. rewrite Hv.
  destruct (pool_for_identity c agent_id) as [q|] eqn:Hq; [|split; [eauto|naive_solver]].
  destruct (semantic_version (strip version)) as [[major minor]|]; [|split; [eauto|naive_solver]].
  apply (pool_for_identity_spec _ _ _ _ _ Hpools) in Hq as (id & Hl & _).
  destruct (pool_entry _ _ _ Hpools _ _ Hl) as (_ & _ & Hring). unfold ring_known in Hring. rewrite Hv in Hring.
  destruct Hring as [allowed Hal]. specialize (Hrings _ _ Hal). rewrite Hal. cbn zeta.
  set (release := fmt [plain_int major; "."; plain_int minor]).
  destruct (String.eqb_spec release (av_current v)), (String.eqb_spec release (av_previous v)); cbn [negb andb reject];
    (destruct (bool_decide_reflect (release ∈ allowed)) as [Hin|Hin]; cbn [negb reject]);
    try (by exists q, major, minor, allowed; auto 8); try (by split; [eauto|naive_solver]).
  split; [eauto|]. set_solver.
Qed.

(** ** Binding a store *)

Lemma with_active_inside c p profile_id : inside_boundary (with_active profile_id c) p <-> inside_boundary c p.
Proof. done. Qed.

(** A constrained policy that may be dispatched lives in the active store alone. *)
Lemma validate_dispatch_inside c p conn : validate_dispatch c p conn = Ok tt -> po_residency_locations p <> [] ->
  inside_boundary c p /\ pc_active_storage_profile c <> ""
  /\ po_required_storage_profile p = pc_active_storage_profile c /\ staging_or_required p = pc_active_storage_profile c
  /\ (forall pool_id, pool_id ∈ po_required_pool p :: po_fallback_pools p ->
        exists q, pc_pools c !! pool_id = Some q /\ mp_storage_profile q = pc_active_storage_profile c).
Proof.
  unfold validate_dispatch. intros H Hne. apply bind_Ok in H as ([] & _ & H). apply bind_Ok in H as ([] & Hres & H).
  rewrite bool_decide_eq_false_2 in H by done. rewrite reject_Ok in H. destruct H as [Hact H].
  apply negb_false_iff, truthy_str_true in Hact. apply bind_Ok in H as (profiles & Hprof & H).
  rewrite reject_Ok, !orb_false, !negb_false_iff, !String.eqb_eq in H. destruct H as [[[Hr Hs] Hall] _].
  split_and!; [by eapply validate_residency_inside|done..|].
  intros pool_id Hpool. destruct (res_map_image _ _ _ _ Hprof Hpool) as (s & Hs' & Hok).
  destruct (pc_pools c !! pool_id) as [q|]; [|done]. injection Hok as <-. exists q. split; [done|].
  destruct (String.eqb_spec (mp_storage_profile q) (pc_active_storage_profile c)) as [|Hbad]; [done|]. exfalso.
  assert (existsb (fun s => negb (String.eqb s (pc_active_storage_profile c))) profiles = true) as Hex; [|congruence].
  apply existsb_exists. exists (mp_storage_profile q). split; [by apply list_elem_of_In|].
  by apply negb_true_iff, String.eqb_neq.
Qed.

(** Binding the artifact store: when the Manager starts with an artifact store
    profile and binding it succeeds, every policy with residency locations
    publishes to and stages in exactly that store, as does every pool that may run
    it, and its whole chain lies inside its boundary; the store has the declared
    provider.  Without a profile no policy has residency locations. *)
Theorem bind_runtime_store_sound profile_id provider c c' p :
  bind_runtime_store profile_id provider c = (Ok tt, c') -> p ∈ all_policies c -> po_residency_locations p <> [] ->
  pc_active_storage_profile c' = profile_id
  /\ (exists s, pc_stores c !! profile_id = Some s /\ sp_provider s = provider)
  /\ po_required_storage_profile p = profile_id /\ staging_or_required p = profile_id
  /\ (forall pool_id, pool_id ∈ po_required_pool p :: po_fallback_pools p ->
        exists q, pc_pools c !! pool_id = Some q /\ mp_storage_profile q = profile_id)
  /\ inside_boundary c p.
Proof.
  unfold bind_runtime_store, mbind, M_bind, modify, gets, lift, raise, id. intros H Hin Hne.
  destruct (truthy_str profile_id && _) eqn:Hstore; [done|]. injection H as H <-.
  rewrite check_all_Ok, Forall_forall in H.
  destruct (validate_dispatch_inside _ _ _ (H p Hin) Hne) as (Hb & Hact & Hr & Hs & Hp). cbn [with_active pc_active_storage_profile] in *.
  rewrite (proj2 (truthy_str_true _) Hact) in Hstore. split_and!; [done| |done..].
  cbn [with_active pc_stores andb] in Hstore. destruct (pc_stores c !! profile_id) as [s|]; [|done]. exists s. split; [done|].
  by apply negb_false_iff, String.eqb_eq in Hstore.
Qed.

(** ** Table patterns *)

(** What a pattern means: [*] any run of characters, [?] one, a closed bracket
    expression one of its characters or, negated, any other; everything else,
    an unclosed bracket included, itself. *)
Inductive matches : list ascii -> list ascii -> Prop :=
| matches_nil : matches [] []
| matches_star p s1 s2 : matches p s2 -> matches ("*"%char :: p) (s1 ++ s2)
| matches_any p a s : matches p s -> matches ("?"%char :: p) (a :: s)
| matches_bracket p neg set rest a s : bracket p = Some (neg, set, rest) ->
    (bracket_has (length set) a set = negb neg) -> matches rest s -> matches ("["%char :: p) (a :: s)
| matches_open p s : bracket p = None -> matches p s -> matches ("["%char :: p) ("["%char :: s)
| matches_char p a s : a <> "*"%char -> a <> "?"%char -> a <> "["%char -> matches p s -> matches (a :: p) (a :: s).

Lemma until_bracket_length s x r : until_bracket s = Some (x, r) -> (length r < length s)%nat.
Proof.
  revert x r. induction s as [|a s IH]; cbn; intros x r H; [done|]. destruct (Ascii.eqb a "]"); [injection H as <- <-; lia|].
  destruct (until_bracket s) as [[x0 r0]|]; [|done]. injection H as <- <-. specialize (IH _ _ eq_refl). lia.
Qed.
Lemma bracket_length s neg set rest : bracket s = Some (neg, set, rest) -> (length rest < length s)%nat.
Proof.
  unfold bracket. destruct s as [|a s]; [done|].
  destruct (Ascii.eqb a "!"); [destruct s as [|b s]; [done|]|];
    destruct (until_bracket s) as [[x r]|] eqn:E; try done; intros [= <- <- <-]; apply until_bracket_length in E; cbn; lia.
Qed.

Lemma glob_match_star gs s : glob_match (Star :: gs) s = true <-> exists s1 s2, s = s1 ++ s2 /\ glob_match gs s2 = true.
Proof.
  induction s as [|a s IH].
  - change (glob_match (Star :: gs) []) with (glob_match gs [] || false). rewrite orb_false_r. split.
    + intros H. by exists [], [].
    + intros (s1 & s2 & E & H). symmetry in E. apply app_nil in E as [-> ->]. done.
  - change (glob_match (Star :: gs) (a :: s)) with (glob_match gs (a :: s) || glob_match (Star :: gs) s).
    rewrite orb_true_iff, IH. split.
    + intros [H|(s1 & s2 & -> & H)]; [by exists [], (a :: s)|by exists (a :: s1), s2].
    + intros ([|b s1] & s2 & E & H); cbn in E; [left; by subst|]. injection E as <- ->. right. by exists s1, s2.
Qed.

Lemma glob_match_one g gs a s : g <> Star -> glob_match (g :: gs) (a :: s) = glob_one g a && glob_match gs s.
Proof. by destruct g. Qed.
Lemma glob_match_one_nil g gs : g <> Star -> glob_match (g :: gs) [] = false.
Proof. by destruct g. Qed.

(** One piece of a pattern that is not a star consumes one character. *)
Lemma glob_match_head g gs s : g <> Star ->
  glob_match (g :: gs) s = true <-> exists a s', s = a :: s' /\ glob_one g a = true /\ glob_match gs s' = true.
Proof.
  intros Hg. destruct s as [|a s]; [rewrite glob_match_one_nil by done; split; [done|naive_solver]|].
  rewrite glob_match_one, andb_true_iff by done. naive_solver.
Qed.

Lemma glob_matches fuel p s : (length p <= fuel)%nat -> glob_match (parse_glob fuel p) s = true <-> matches p s.
Proof.
  revert p s. induction fuel as [|fuel IH]; intros [|a p] s Hf; cbn in Hf; try lia;
    try (cbn; destruct s; split; [try done; constructor|by inversion 1..]).
  cbn [parse_glob]. destruct (Ascii.eqb_spec a "*") as [->|Hstar].
  { rewrite glob_match_star. setoid_rewrite IH; [|lia]. split.
    - intros (s1 & s2 & -> & H). by constructor.
    - inversion 1; subst; [eauto|done]. }
  destruct (Ascii.eqb_spec a "?") as [->|Hany].
  { rewrite glob_match_head by done. setoid_rewrite IH; [|lia]. split.
    - intros (b & s' & -> & _ & H). by constructor.
    - inversion 1; subst; [eauto|done]. }
  assert (Hplain : glob_match (Exactly a :: parse_glob fuel p) s = true <-> exists s', s = a :: s' /\ matches p s').
  { rewrite glob_match_head by done. setoid_rewrite IH; [|lia]. cbn [glob_one]. setoid_rewrite Ascii.eqb_eq. naive_solver. }
  destruct (Ascii.eqb_spec a "[") as [->|Hopen].
  - destruct (bracket p) as [[[neg set] rest]|] eqn:Hb.
    + pose proof (bracket_length _ _ _ _ Hb). rewrite glob_match_head by done. setoid_rewrite IH; [|lia]. cbn [glob_one]. split.
      * intros (b & s' & -> & Hin & H'). eapply matches_bracket; [exact Hb| |done].
        destruct neg, (bracket_has _ b set); done.
      * inversion 1; subst; [|congruence|done]. simplify_eq.
        eexists _, _. split_and!; [done| |done]. by match goal with E : bracket_has _ _ _ = _ |- _ => rewrite E; destruct neg end.
    + rewrite Hplain. split; [intros (s' & -> & H); by apply matches_open|]. inversion 1; subst; [congruence|eauto|done].
  - rewrite Hplain. split; [intros (s' & -> & H); by apply matches_char|]. inversion 1; subst; try done. eauto.
Qed.

(** Table patterns: the matcher of [allowed_table_patterns] agrees with the
    meaning of a pattern for every pattern and every table name: it decides the
    relation [matches], on malformed patterns too, and its bounds are enough. *)
Theorem fnmatchcase_matches name pattern :
  fnmatchcase name pattern = true <-> matches (String.list_ascii_of_string pattern) (String.list_ascii_of_string name).
Proof. apply glob_matches. done. Qed.

(** ** Identity tokens *)

Section tokens.
Context (c : placement_config).

Definition pool_step (m : gmap string (gset string)) (it : string * string) : gmap string (gset string) :=
  match pool_for_identity c it.1 with Some q => add_to m it.2 (mp_pool_id q) | None => m end.

Lemma add_to_keeps m k x t y : y ∈ default ∅ (m !! t) -> y ∈ default ∅ (add_to m k x !! t).
Proof.
  unfold add_to. destruct (decide (k = t)) as [->|]; [|by rewrite lookup_insert_ne].
  rewrite lookup_insert_eq. cbn. set_solver.
Qed.

Lemma pool_fold_keeps l m t y : y ∈ default ∅ (m !! t) -> y ∈ default ∅ (foldl pool_step m l !! t).
Proof.
  revert m. induction l as [|it l IH]; intros m Hm; [done|]. cbn. apply IH. unfold pool_step.
  destruct (pool_for_identity c it.1); [by apply add_to_keeps|done].
Qed.

Lemma pool_fold_has l m i t q : (i, t) ∈ l -> pool_for_identity c i = Some q ->
  mp_pool_id q ∈ default ∅ (foldl pool_step m l !! t).
Proof.
  revert m. induction l as [|it l IH]; intros m Hin Hq; [by apply not_elem_of_nil in Hin|]. cbn.
  apply elem_of_cons in Hin as [<-|Hin]; [|by apply IH]. apply pool_fold_keeps. unfold pool_step. cbn [fst snd].
  rewrite Hq. unfold add_to. rewrite lookup_insert_eq. cbn. set_solver.
Qed.

Lemma shared_key_false m k x y : shared_key m = false -> x ∈ default ∅ (m !! k) -> y ∈ default ∅ (m !! k) -> x = y.
Proof.
  intros Hs Hx Hy. destruct (m !! k) as [s|] eqn:Hl; cbn in Hx, Hy; [|set_solver].
  assert (size s <= 1)%nat as Hsize.
  { destruct (decide (1 < size s)%nat) as [Hgt|]; [|lia]. exfalso.
    enough (shared_key m = true) by congruence. apply existsb_exists. exists (k, s). split; [|by apply bool_decide_eq_true].
    by apply list_elem_of_In, elem_of_map_to_list. }
  destruct (decide (x = y)) as [|Hne]; [done|].
  assert (({[x; y]} : gset string) ⊆ s) as Hsub by set_solver. apply subseteq_size in Hsub.
  rewrite size_union, !size_singleton in Hsub by set_solver. lia.
Qed.

Lemma token_entry_Some entry i t : token_entry entry = Some (i, t) ->
  entry = (i, JStr t) /\ i <> "" /\ (32 <= String.length t)%nat.
Proof.
  unfold token_entry. destruct entry as [k [| | |s| |]]; try done. cbn [fst snd]. destruct (_ && _) eqn:Hb; [|done].
  intros [= <- <-]. apply andb_true_iff in Hb as [Hb _]. apply andb_true_iff in Hb as [H1 H2].
  apply truthy_str_true in H1. split_and!; [done..|]. apply Z.leb_le in H2. lia.
Qed.

Lemma token_entries raw tokens i v : mapM token_entry (map_to_list raw) = Some tokens -> raw !! i = Some v ->
  exists t, v = JStr t /\ (i, t) ∈ tokens /\ i <> "" /\ (32 <= String.length t)%nat.
Proof.
  intros Hm%mapM_Some Hl. apply elem_of_map_to_list, list_elem_of_lookup in Hl as [n Hn].
  destruct (Forall2_lookup_l _ _ _ _ _ Hm Hn) as ([i' t] & Ht & He).
  apply token_entry_Some in He as ([= <- ->] & ? & ?). exists t. split_and!; [done| |done..].
  by eapply list_elem_of_lookup_2.
Qed.

Lemma token_names raw tokens i : mapM token_entry (map_to_list raw) = Some tokens ->
  i ∈ map fst tokens -> is_Some (raw !! i).
Proof.
  intros Hm%mapM_Some Hi. apply list_elem_of_fmap in Hi as ([i' t] & -> & Hi). apply list_elem_of_lookup in Hi as [n Hn].
  destruct (Forall2_lookup_r _ _ _ _ _ Hm Hn) as (e & He & Ht). apply token_entry_Some in Ht as (-> & _).
  apply list_elem_of_lookup_2, elem_of_map_to_list in He. eauto.
Qed.

Lemma sorted_set_nil l : sorted_set l = [] -> l = [].
Proof.
  unfold sorted_set. intros H. assert (remove_dups l = []) as Hd.
  { apply Permutation_nil_r. rewrite <- H. symmetry. apply merge_sort_Permutation. }
  destruct l as [|x l]; [done|]. assert (x ∈ remove_dups (x :: l)) as Hx by (apply elem_of_remove_dups; left).
  rewrite Hd in Hx. by apply not_elem_of_nil in Hx.
Qed.

Lemma difference_nil (X Y : gset string) : sorted_set (elements (X ∖ Y)) = [] -> X ⊆ Y.
Proof. intros H%sorted_set_nil%elements_empty_inv. set_solver. Qed.
End tokens.

(** Identity tokens: when the tokens pass the check, every one has at least 32
    bytes and none is one of the fleet's shared tokens, two identities with the
    same token are in the same pool, so that a token never speaks for two pools,
    and with placement enabled exactly the identities of the pools have one. *)
Theorem identity_tokens_sound c raw shared :
  validate_identity_tokens c (Some (JObj raw)) shared = Ok tt ->
  (forall i v, raw !! i = Some v -> exists t, v = JStr t /\ (32 <= String.length t)%nat /\ t ∉ shared)
  /\ (forall i1 i2 t q1 q2, raw !! i1 = Some (JStr t) -> raw !! i2 = Some (JStr t) ->
        pool_for_identity c i1 = Some q1 -> pool_for_identity c i2 = Some q2 -> mp_pool_id q1 = mp_pool_id q2)
  /\ (enabled c = true -> forall i, is_Some (raw !! i) <-> is_Some (pool_for_identity c i)).
Proof.
  unfold validate_identity_tokens. destruct (mapM token_entry (map_to_list raw)) as [tokens|] eqn:Hm; [|done].
  cbn zeta. rewrite !reject_Ok. intros (Hmiss & Hunex & Hkey & Hshared & _).
  apply negb_false_iff, bool_decide_eq_true in Hmiss, Hunex.
  split_and!.
  - intros i v Hl. destruct (token_entries _ _ _ _ Hm Hl) as (t & -> & Hin & _ & Hlen). exists t. split_and!; [done..|].
    intros Hs. enough (existsb (fun t => bool_decide (t ∈ filter (fun s => s <> "") shared)) (map snd tokens) = true) by congruence.
    apply existsb_exists. exists t. split; [by apply list_elem_of_In, list_elem_of_fmap; exists (i, t)|].
    apply bool_decide_eq_true, list_elem_of_filter. split; [|done]. intros ->. cbn in Hlen. lia.
  - intros i1 i2 t q1 q2 H1 H2 Hq1 Hq2.
    destruct (token_entries _ _ _ _ Hm H1) as (t1 & [= <-] & Hin1 & _). destruct (token_entries _ _ _ _ Hm H2) as (t2 & [= <-] & Hin2 & _).
    exact (shared_key_false _ t _ _ Hkey (pool_fold_has c tokens ∅ i1 t q1 Hin1 Hq1) (pool_fold_has c tokens ∅ i2 t q2 Hin2 Hq2)).
  - intros Hen i. rewrite Hen in Hmiss, Hunex. apply difference_nil in Hmiss, Hunex. unfold pool_for_identity.
    rewrite <- (elem_of_dom (D:=gset string) (identity_pools c)). split.
    + intros [v Hv]. destruct (token_entries _ _ _ _ Hm Hv) as (t & _ & Hin & _). apply Hunex, elem_of_list_to_set.
      apply list_elem_of_fmap. by exists (i, t).
    + intros Hi. apply Hmiss, elem_of_list_to_set in Hi. by eapply token_names.
Qed.

(** ** A worked configuration *)

Definition demo_object (l : list (string * json)) : json := JObj (list_to_map l).
Definition demo_texts (l : list string) : json := JList (map JStr l).

Definition demo_pool (id identity location store tenant : string) (connections : list string) (ring : string) : json :=
  demo_object [("pool_id", JStr id); ("identities", demo_texts [identity]); ("location", JStr location);
    ("storage_profile", JStr store); ("allowed_connection_ids", demo_texts connections);
    ("allowed_table_patterns", demo_texts ["public.*"; "sales.order[st]"]); ("max_concurrency", JInt 4);
    ("tenant_id", JStr tenant); ("upgrade_ring", JStr ring)].

Definition demo_policy (pool store tenant : string) (locations endpoints : list string) : json :=
  demo_object [("required_pool", JStr pool); ("required_storage_profile", JStr store); ("tenant_id", JStr tenant);
    ("residency_locations", demo_texts locations); ("serving_endpoints", demo_texts endpoints)].

(** Two tenants, a pool, a store and a connection each; the first keeps its data in
    two European locations and narrows one table to one of them. *)
Definition demo_config : dict := list_to_map [
  ("tenants", demo_texts ["contoso"; "fabrikam"]);
  ("agent_versions", demo_object [("current", JStr "1.10"); ("previous", JStr "1.9");
     ("rings", demo_object [("canary", demo_texts ["1.10"]); ("broad", demo_texts ["1.9"; "1.10"])]);
     ("rollout_order", demo_texts ["canary"; "broad"])]);
  ("pools", JList [demo_pool "eu" "agent-eu" "westeurope" "blob-eu" "contoso" ["erp"] "canary";
                   demo_pool "us" "agent-us" "eastus" "blob-us" "fabrikam" ["crm"] "broad"]);
  ("stores", demo_object
     [("blob-eu", demo_object [("location", JStr "westeurope"); ("provider", JStr "azure"); ("tenant_id", JStr "contoso")]);
      ("blob-us", demo_object [("location", JStr "eastus"); ("provider", JStr "azure"); ("tenant_id", JStr "fabrikam")])]);
  ("serving_endpoints", demo_object
     [("edge-eu", demo_object [("location", JStr "westeurope"); ("storage_profile", JStr "blob-eu");
                               ("url", JStr "https://edge.eu.example:8443/s3"); ("tenant_id", JStr "contoso")])]);
  ("connections", demo_object
     [("erp", demo_policy "eu" "blob-eu" "contoso" ["westeurope"; "northeurope"] ["edge-eu"]);
      ("crm", demo_object [("tenant_id", JStr "fabrikam")])]);
  ("tables", demo_object [("erp::sales.orders", demo_object [("residency_locations", demo_texts ["westeurope"])])])].

Definition no_brackets (_ : string) : bool := false.

Definition config_or_empty (r : res placement_config) : placement_config :=
  match r with Ok c => c | Err _ => PlacementConfig ∅ ∅ ∅ ∅ ∅ ∅ None "" end.
Definition demo_placement : placement_config := config_or_empty (placement_from_dict no_brackets demo_config).

Example demo_config_accepted : placement_from_dict no_brackets demo_config = Ok demo_placement.
Proof. vm_compute. reflexivity. Qed.

Definition demo_parent : materializer_policy := default default_policy (pc_connections demo_placement !! "erp").
Definition demo_agent_pool : materializer_pool :=
  default (MaterializerPool "" ∅ "" "" ∅ [] None None None None "" "") (pool_for_identity demo_placement "agent-eu").

Lemma effective_policy_inside_boundary_witness :
  po_residency_locations demo_parent = ["westeurope"; "northeurope"]
  /\ po_residency_locations (policy_for demo_placement "erp" "sales.orders") = ["westeurope"]
  /\ inside_boundary demo_placement (policy_for demo_placement "erp" "sales.orders").
Proof.
  split; [vm_compute; reflexivity|]. split; [vm_compute; reflexivity|].
  apply (effective_policy_inside_boundary no_brackets demo_config demo_placement "erp" "sales.orders" demo_parent);
    [vm_compute; reflexivity..|vm_compute; discriminate].
Defined.

Lemma tenant_isolation_holds_witness :
  po_tenant_id (policy_for demo_placement "erp" "sales.orders") = mp_tenant_id demo_agent_pool
  /\ inside_tenant demo_placement (policy_for demo_placement "erp" "sales.orders").
Proof.
  apply (tenant_isolation_holds no_brackets demo_config demo_placement "agent-eu" demo_agent_pool "erp" "sales.orders");
    vm_compute; reflexivity.
Defined.

Lemma agent_version_decided_witness :
  validate_agent_version demo_placement "agent-eu" "1.10.3-rc.1" = Ok tt
  /\ exists q major minor allowed, pool_for_identity demo_placement "agent-eu" = Some q
      /\ semantic_version "1.10.3-rc.1" = Some (major, minor) /\ mp_upgrade_ring q = "canary"
      /\ fmt [plain_int major; "."; plain_int minor] ∈ (allowed : gset string).
Proof.
  assert (H : validate_agent_version demo_placement "agent-eu" "1.10.3-rc.1" = Ok tt) by (vm_compute; reflexivity).
  split; [exact H|].
  pose proof (agent_version_decided no_brackets demo_config demo_placement
    (default (AgentVersionPolicy "" "" [] ∅) (pc_agent_versions demo_placement)) "agent-eu" "1.10.3-rc.1"
    ltac:(vm_compute; reflexivity) ltac:(vm_compute; reflexivity)) as Hd.
  rewrite H in Hd. destruct Hd as (q & major & minor & allowed & Hq & Hs & _ & Hin & _).
  exists q, major, minor, allowed. split; [exact Hq|]. split; [exact Hs|]. split; [|exact Hin].
  assert (q = demo_agent_pool) as -> by (unfold demo_agent_pool; rewrite Hq; reflexivity). vm_compute. reflexivity.
Defined.

(** The other tenant's Agent is on the broad ring; a release the policy has
    retired and a version that is not one are refused. *)
Example agent_version_cases :
  validate_agent_version demo_placement "agent-us" "1.9" = Ok tt
  /\ (exists d, validate_agent_version demo_placement "agent-eu" "1.9" = Err (AgentVersionUnsupported d))
  /\ (exists d, validate_agent_version demo_placement "agent-eu" "1.8.0" = Err (AgentVersionUnsupported d))
  /\ (exists d, validate_agent_version demo_placement "agent-eu" "1.10." = Err (AgentVersionUnsupported d)).
Proof. split_and!; [vm_compute; reflexivity|eexists; vm_compute; reflexivity..]. Qed.

(** Refused overrides: another tenant, and a location the connection does not have. *)
Definition demo_override (override : list (string * json)) : dict :=
  <["tables" := demo_object [("erp::sales.orders", demo_object override)]]> demo_config.
Example overrides_refused :
  placement_from_dict no_brackets (demo_override [("tenant_id", JStr "fabrikam")])
    = Err (isolation "table override cannot change connection tenant")
  /\ placement_from_dict no_brackets (demo_override [("residency_locations", demo_texts ["eastus"])])
    = Err (residency "table override cannot widen connection residency").
Proof. split; vm_compute; reflexivity. Qed.

Lemma bind_runtime_store_sound_witness :
  po_required_storage_profile demo_parent = "blob-eu" /\ staging_or_required demo_parent = "blob-eu"
  /\ inside_boundary demo_placement demo_parent.
Proof.
  pose proof (bind_runtime_store_sound "blob-eu" "azure" demo_placement (with_active "blob-eu" demo_placement) demo_parent
    ltac:(vm_compute; reflexivity)
    ltac:(apply all_policies_connection with (conn := "erp"); vm_compute; reflexivity) ltac:(vm_compute; discriminate))
    as (_ & _ & H1 & H2 & _ & H3).
  auto.
Defined.

Definition demo_tokens : dict := list_to_map [
  ("agent-eu", JStr "0123456789abcdef0123456789abcdef"); ("agent-us", JStr "fedcba9876543210fedcba9876543210")].
Lemma identity_tokens_sound_witness :
  validate_identity_tokens demo_placement (Some (JObj demo_tokens)) ["shared"] = Ok tt
  /\ forall i, is_Some (demo_tokens !! i) <-> is_Some (pool_for_identity demo_placement i).
Proof.
  assert (H : validate_identity_tokens demo_placement (Some (JObj demo_tokens)) ["shared"] = Ok tt) by (vm_compute; reflexivity).
  split; [exact H|]. apply (identity_tokens_sound _ _ _ H). vm_compute. reflexivity.
Defined.

(** One token for two pools, and a missing one, are refused. *)
Example identity_tokens_refused :
  validate_identity_tokens demo_placement
    (Some (JObj (<["agent-us" := JStr "0123456789abcdef0123456789abcdef"]> demo_tokens))) []
    = Err (ValueError "identity tokens must be unique across materializer pools")
  /\ validate_identity_tokens demo_placement (Some (JObj (delete "agent-us" demo_tokens))) []
    = Err (ValueError "AGENT_IDENTITY_TOKENS is missing pool identities: ['agent-us']").
Proof. split; vm_compute; reflexivity. Qed.

Example patterns :
  map (fun n => fnmatchcase n "sales.order[s]?") ["sales.orders1"; "sales.orders"; "sales.orderx1"] = [true; false; false]
  /\ fnmatchcase "a-c" "a[!a-c]c" = true /\ fnmatchcase "a[b" "a[b" = true /\ fnmatchcase "Public.t" "public.*" = false
  /\ fnmatchcase "x]y" "x[]]y" = true.
Proof. split_and!; vm_compute; reflexivity. Qed.
