(* ===== verification/Egress.v ===== *)
(** * The egress ledger

    [enterprise/control/egress.py]: every transfer that crosses a region or site
    boundary is one immutable object below the month it happened in, and the
    monthly report adds them up.  The prices of the report are decimal fractions
    and only displayed: the report is modelled as the rows with their bytes and the
    totals of priced and unpriced bytes. *)

From S2P Require Import Prelude PyText Sha256 Json JsonCanon ArtifactStore Contract Sources S3Auth.
From Stdlib Require Import Ascii.
Import MemoryStore StreamOps.

Definition EGRESS_PREFIX : string := "_control/egress/v1".

Record egress_event := EgressEvent {
  ee_event_id : string;
  ee_occurred_at_ms : Z;
  ee_tenant_id : string;
  ee_dataset_id : string;
  ee_pool_id : string;
  ee_source_region : string;
  ee_destination_region : string;
  ee_direction : string;
  ee_bytes : Z;
}.
#[global] Instance egress_event_eq_dec : EqDecision egress_event.
Proof. solve_decision. Defined.

(** ** The month of a time stamp *)

(** Year and month of the day number since 1970-01-01. *)
Definition civil_from_days (days : Z) : Z * Z * Z :=
  let z := days + 719468 in
  let era := z / 146097 in
  let doe := z mod 146097 in
  let yoe := (doe - doe / 1460 + doe / 36524 - doe / 146096) / 365 in
  let doy := doe - (365 * yoe + yoe / 4 - yoe / 100) in
  let mp := (5 * doy + 2) / 153 in
  let d := doy - (153 * mp + 2) / 5 + 1 in
  let m := if mp <? 10 then mp + 3 else mp - 9 in
  (yoe + era * 400 + (if m <=? 2 then 1 else 0), m, d).

Definition two_digits (n : Z) : string := if n <? 10 then "0" +:+ pretty n else pretty n.

(** The last millisecond of the year 9999, where [datetime] ends. *)
Definition MAX_TIME_MS : Z := 253402300799999.

(** [datetime.fromtimestamp(ms / 1000, timezone.utc).strftime("%Y-%m")] *)
Definition month_of (ms : Z) : res string :=
  if (ms <? 0) || (MAX_TIME_MS <? ms) then Err (Unmodelled "a date outside 1970..9999")
  else let '(y, m, _) := civil_from_days (ms / 86400000) in Ok (fmt [pretty y; "-"; two_digits m]).

(** ** Events *)

Definition blank_text (s : string) : bool := negb (truthy_str (strip s)).

Definition first_blank (e : egress_event) : option string :=
  fst <$> (list_find (fun f : string * string => blank_text f.2 = true)
    [("event_id", ee_event_id e); ("dataset_id", ee_dataset_id e); ("pool_id", ee_pool_id e);
     ("source_region", ee_source_region e); ("destination_region", ee_destination_region e);
     ("direction", ee_direction e)] ≫= fun x => Some x.2).

(** [validate] *)
Definition event_validate (e : egress_event) : res unit :=
  match first_blank e with
  | Some name => Err (ValueError (fmt ["egress event "; name; " must be non-empty"]))
  | None =>
      _ ← raise_if (ee_occurred_at_ms e <? 1) (ValueError "egress event occurred_at_ms must be positive");
      _ ← raise_if (ee_bytes e <? 0) (ValueError "egress event bytes must be a non-negative integer");
      raise_if (String.eqb (ee_source_region e) (ee_destination_region e))
        (ValueError "egress event must cross a region or site boundary")
  end.

Definition event_fields (month : string) (e : egress_event) : dict :=
  mk_dict [("version", JInt 1); ("month", JStr month); ("event_id", JStr (ee_event_id e));
    ("occurred_at_ms", JInt (ee_occurred_at_ms e)); ("tenant_id", JStr (ee_tenant_id e));
    ("dataset_id", JStr (ee_dataset_id e)); ("pool_id", JStr (ee_pool_id e));
    ("source_region", JStr (ee_source_region e)); ("destination_region", JStr (ee_destination_region e));
    ("direction", JStr (ee_direction e)); ("bytes", JInt (ee_bytes e))].

Definition event_to_dict (e : egress_event) : res dict :=
  _ ← event_validate e;
  month ← month_of (ee_occurred_at_ms e);
  Ok (event_fields month e).

Definition event_from_dict (value : json) : res egress_event :=
  match value with
  | JObj d =>
      _ ← raise_if (negb (eq_num (dget d "version" JNull) 1)) (ValueError "invalid egress event");
      event_id ← req_str d "event_id";
      occurred_at_ms ← req_int d "occurred_at_ms";
      tenant_id ← get_str d "tenant_id" "";
      dataset_id ← req_str d "dataset_id";
      pool_id ← req_str d "pool_id";
      source_region ← req_str d "source_region";
      destination_region ← req_str d "destination_region";
      direction ← req_str d "direction";
      bytes ← req_int d "bytes";
      let e := EgressEvent event_id occurred_at_ms tenant_id dataset_id pool_id source_region
                 destination_region direction bytes in
      _ ← event_validate e;
      month ← month_of (ee_occurred_at_ms e);
      _ ← raise_if (negb (bool_decide (dget d "month" JNull = JStr month)))
            (ValueError "egress event month does not match timestamp");
      Ok e
  | _ => Err (ValueError "invalid egress event")
  end.

(** ** The ledger *)

Definition event_key (month event_id : string) : string :=
  fmt [EGRESS_PREFIX; "/"; month; "/"; sha256_hex event_id; ".json"].

(** [EgressLedger.record] *)
Definition record_event (e : egress_event) : M mem unit :=
  doc ← lift (event_to_dict e);
  month ← lift (month_of (ee_occurred_at_ms e));
  let raw := BJson (JObj doc) in
  put_blob_if_absent (event_key month (ee_event_id e)) raw (Some (blob_size raw));; mret tt.

(** [\d{4}-(0[1-9]|1[0-2])] *)
Definition is_month (s : string) : bool :=
  match fixed_digits 4 0 s with
  | Some (_, String dash rest) =>
      Ascii.eqb dash "-" &&
      match fixed_digits 2 0 rest with
      | Some (m, EmptyString) => (1 <=? m) && (m <=? 12)
      | _ => false
      end
  | _ => false
  end.

(** Tuples of strings are compared field by field. *)
Fixpoint tuple_leb (a b : list string) : bool :=
  match a, b with
  | [], _ => true
  | _ :: _, [] => false
  | x :: a, y :: b => if String.eqb x y then tuple_leb a b else bool_decide (x ≤ y)%string
  end.
Definition boundary_key (e : egress_event) : list string :=
  [ee_tenant_id e; ee_dataset_id e; ee_pool_id e; ee_source_region e; ee_destination_region e; ee_direction e].
Definition event_le (a b : egress_event) : Prop :=
  tuple_leb (boundary_key a ++ [ee_event_id a]) (boundary_key b ++ [ee_event_id b]) = true.
#[global] Instance event_le_dec a b : Decision (event_le a b).
Proof. unfold event_le. apply _. Defined.

(** One object of the month's listing. *)
Definition read_event (month : string) (item : object_stat) : M mem egress_event :=
  raw ← get (os_key item) 0 None;
  match loads raw with
  | None => raise (ValueError (fmt ["invalid egress ledger record "; os_key item]))
  | Some value =>
      e ← lift (event_from_dict value);
      m ← lift (month_of (ee_occurred_at_ms e));
      lift (_ ← raise_if (negb (String.eqb m month))
              (ValueError (fmt ["egress ledger record is under the wrong month: "; os_key item]));
            Ok e)
  end.

Definition collect_event (month : string) (acc : list egress_event) (item : object_stat) : M mem (list egress_event) :=
  e ← read_event month item; mret (acc ++ [e]).

Definition month_events (month : string) : M mem (list egress_event) :=
  _ ← lift (raise_if (negb (is_month month)) (ValueError "egress report month must use YYYY-MM"));
  items ← list_ (fmt [EGRESS_PREFIX; "/"; month; "/"]);
  events ← foldM (collect_event month) [] items;
  mret (merge_sort event_le events).

(** ** The report *)

Record egress_row := EgressRow {
  row_key : list string;
  row_bytes : Z;
  row_transfers : Z;
}.

(** [rows.setdefault(key, {...})], then the two additions. *)
Fixpoint add_event (e : egress_event) (rows : list egress_row) : list egress_row :=
  match rows with
  | [] => [EgressRow (boundary_key e) (ee_bytes e) 1]
  | r :: rows =>
      if bool_decide (row_key r = boundary_key e)
      then EgressRow (row_key r) (row_bytes r + ee_bytes e) (row_transfers r + 1) :: rows
      else r :: add_event e rows
  end.
Definition row_le (a b : egress_row) : Prop := tuple_leb (row_key a) (row_key b) = true.
#[global] Instance row_le_dec a b : Decision (row_le a b).
Proof. unfold row_le. apply _. Defined.

(** [f"{source_region}->{destination_region}"] *)
Definition row_boundary (r : egress_row) : string :=
  fmt [default "" (row_key r !! 3%nat); "->"; default "" (row_key r !! 4%nat)].

Record egress_report := EgressReport {
  rp_month : string;
  rp_total_bytes : Z;
  rp_priced_bytes : Z;
  rp_unpriced_bytes : Z;
  rp_rows : list egress_row;
}.

Definition add_row (rates : gset string) (p : egress_report) (r : egress_row) : egress_report :=
  let priced := bool_decide (row_boundary r ∈ rates) in
  EgressReport (rp_month p) (rp_total_bytes p + row_bytes r)
    (if priced then rp_priced_bytes p + row_bytes r else rp_priced_bytes p)
    (if priced then rp_unpriced_bytes p else rp_unpriced_bytes p + row_bytes r)
    (rp_rows p ++ [r]).

(** [EgressLedger.report], for the set of boundaries that have a rate. *)
Definition report (month : string) (rates : gset string) : M mem egress_report :=
  events ← month_events month;
  let rows := foldl (fun rows e => add_event e rows) [] events in
  mret (foldl (add_row rates) (EgressReport month 0 0 0 []) (merge_sort row_le rows)).

(** ** Examples of the calendar *)

(** The first and the last millisecond of a month, leap days included. *)
Example month_boundaries :
  map month_of [0; 951782399999; 951782400000; 951868799999; 951868800000; 1735689599999; 1735689600000; MAX_TIME_MS]
  = map Ok ["1970-01"; "2000-02"; "2000-02"; "2000-02"; "2000-03"; "2024-12"; "2025-01"; "9999-12"].
Proof. vm_compute. reflexivity. Qed.

(** * Theorems *)

(** ** A recorded event reads back *)

Lemma event_round_trip e d : event_to_dict e = Ok d -> event_from_dict (JObj d) = Ok e.
Proof.
  unfold event_to_dict. intros H. invert_Ok H. injection H as <-. destruct v.
  unfold event_from_dict, event_fields. unfold_reads. set (d := mk_dict _). read_fields d.
  destruct e. cbn -[month_of event_validate d] in *. rewrite E. cbn -[month_of d]. rewrite E0. cbn -[d].
  by rewrite bool_decide_eq_true_2.
Qed.

(** ** Keys of the ledger *)

Lemma pretty_N_go_length x : forall s, (String.length s <= String.length (pretty_N_go x s))%nat.
Proof.
  induction (N.lt_wf_0 x) as [x _ IH]. intros s.
  destruct (decide (x = 0%N)) as [->|Hx]; [by rewrite pretty_N_go_0|].
  rewrite pretty_N_go_step by lia. etrans; [|apply IH; apply N.div_lt; lia]. cbn. lia.
Qed.

Lemma pretty_nonempty (z : Z) : (0 < String.length (pretty z))%nat.
Proof.
  assert (H : forall p, (0 < String.length (pretty_N_go (Npos p) ""))%nat).
  { intros p. rewrite pretty_N_go_step by lia. eapply Nat.lt_le_trans; [|apply pretty_N_go_length]. cbn. lia. }
  destruct z as [|p|p]; [cbn; lia|apply H|].
  change (pretty (Z.neg p)) with ("-" +:+ pretty_N_go (Npos p) ""). rewrite length_app_s. cbn. lia.
Qed.

Lemma two_digits_chars n : str_forallb key_char (two_digits n) = true /\ (0 < String.length (two_digits n))%nat.
Proof.
  unfold two_digits. pose proof (pretty_nonempty n). pose proof (pretty_chars n).
  destruct (n <? 10); [rewrite str_forallb_app, length_app_s|]; by split; [|lia].
Qed.

Lemma month_clean ms m : month_of ms = Ok m -> clean_segment m.
Proof.
  unfold month_of. destruct (_ || _); [done|]. destruct (civil_from_days _) as [[y mo] d]. intros [= <-].
  change (fmt [pretty y; "-"; two_digits mo]) with (pretty y +:+ "" +:+ "-" +:+ "" +:+ two_digits mo).
  pose proof (two_digits_chars mo) as [H1 H2]. pose proof (pretty_nonempty y).
  apply key_chars_clean; [by rewrite !str_forallb_app, pretty_chars, H1|]. rewrite !length_app_s. cbn. lia.
Qed.

Lemma event_key_dir month id : event_key month id = (EGRESS_PREFIX +:+ "/") +:+ month +:+ "/" +:+ (sha256_hex id +:+ ".json").
Proof. unfold event_key, fmt. cbn [join String.concat]. by rewrite !app_assoc_s. Qed.

Lemma event_key_normal month id : clean_segment month -> normalize_key (event_key month id) = Ok (event_key month id).
Proof.
  intros Hm. apply normalize_safe. exists ["_control"; "egress"; "v1"; month; sha256_hex id +:+ ".json"].
  split_and!; [done| |by rewrite event_key_dir].
  repeat apply Forall_cons_2; [by split_and!..|exact Hm|apply sha256_json_clean|constructor].
Qed.

(** Two slash-free names are told apart before the next slash. *)
Lemma segment_split a b x y :
  clean_segment a -> clean_segment b -> a +:+ String slash x = b +:+ String slash y -> a = b /\ x = y.
Proof.
  intros (_ & _ & _ & Ha & _) (_ & _ & _ & Hb & _) He. pose proof He as He2.
  apply (f_equal (split_on slash)) in He.
  rewrite !split_on_app, (split_on_single _ a), (split_on_single _ b) in He by done.
  injection He as -> _. split; [done|]. clear -He2. induction b as [|c b IH]; injection He2; auto.
Qed.

(** ** What the ledger holds *)

(** The document of a valid event and its place. *)
Definition filed (e : egress_event) (k : string) (b : blob) : Prop :=
  exists month, event_validate e = Ok tt /\ month_of (ee_occurred_at_ms e) = Ok month /\
    k = event_key month (ee_event_id e) /\ b = BJson (JObj (event_fields month e)).

Lemma filed_doc e k b : filed e k b -> exists d, b = BJson (JObj d) /\ event_from_dict (JObj d) = Ok e.
Proof.
  intros (month & Hv & Hm & _ & ->). eexists; split; [done|]. apply event_round_trip.
  unfold event_to_dict. by rewrite Hv; cbn [mbind res_bind]; rewrite Hm.
Qed.

Lemma filed_inj e1 e2 k1 k2 b : filed e1 k1 b -> filed e2 k2 b -> e1 = e2.
Proof. intros (d1 & -> & H1)%filed_doc (d2 & [= <-] & H2)%filed_doc. congruence. Qed.

Definition ledger_key (k : string) : Prop := startswith k (EGRESS_PREFIX +:+ "/") = true.

(** The ledger's objects are those of the events recorded so far. *)
Definition ledger_of (es : list egress_event) (s : mem) : Prop :=
  forall k b, ledger_key k -> (s !! k = Some b <-> exists e, e ∈ es /\ filed e k b).

Lemma filed_ledger_key e k b : filed e k b -> ledger_key k.
Proof. intros (month & _ & _ & -> & _). unfold ledger_key. rewrite event_key_dir. apply startswith_app. Qed.

(** Different documents of the events have different digests. *)
Definition digests_distinguish (es : list egress_event) : Prop :=
  forall e e' k k' b b', e ∈ es -> e' ∈ es -> filed e k b -> filed e' k' b' ->
    sha256_hex (blob_bytes b) = sha256_hex (blob_bytes b') -> b = b'.

Lemma record_event_files es e s s' :
  digests_distinguish (e :: es) -> ledger_of es s -> record_event e s = (Ok tt, s') -> ledger_of (e :: es) s'.
Proof.
  intros Hdig Hl. unfold record_event, event_to_dict. unfold mbind at 1, M_bind at 1, lift.
  destruct (event_validate e) as [[]|] eqn:Ev; cbn [mbind res_bind]; [|done].
  destruct (month_of _) as [month|] eqn:Em; cbn [mbind res_bind]; [|done].
  unfold mbind at 1, M_bind at 1. cbn zeta. unfold mbind, M_bind.
  set (raw := BJson _). set (key := event_key _ _).
  pose proof (event_key_normal month (ee_event_id e) (month_clean _ _ Em)) as Hn.
  pose proof (put_blob_if_absent_effect key key raw (Some (blob_size raw)) s Hn) as Hp. rewrite Hp. clear Hp.
  assert (negative (Some (blob_size raw)) = false) as -> by (cbn; apply Z.ltb_ge; unfold blob_size; lia).
  assert (length_mismatch (Some (blob_size raw)) (blob_bytes raw) = false) as ->
    by (cbn [length_mismatch]; fold (blob_size raw); by rewrite Z.eqb_refl).
  assert (Hf : filed e key raw) by (exists month; by split_and!).
  destruct (s !! key) as [b|] eqn:Ek.
  - destruct (proj1 (Hl key b (filed_ledger_key _ _ _ Hf)) Ek) as (e' & He' & Hf').
    destruct (_ && _) eqn:Hsame; [|done]. intros [= <-]. apply andb_true_iff in Hsame as [_ Hsha%String.eqb_eq].
    assert (b = raw) as -> by (apply (Hdig e' e key key b raw); [by right|by left|done..]).
    intros k b Hk. rewrite (Hl k b Hk). pose proof (filed_inj _ _ _ _ _ Hf Hf') as <-. split.
    + intros (x & ? & ?). exists x. by split; [right|].
    + intros (x & [->|]%elem_of_cons & ?); eauto.
  - intros [= <-]. intros k b Hk. destruct (decide (k = key)) as [->|Hne].
    + rewrite lookup_insert_eq. split.
      * intros [= <-]. exists e. split; [left|done].
      * intros (e' & [->|He']%elem_of_cons & Hf'); [destruct Hf' as (m2 & _ & E2 & _ & ->); rewrite Em in E2; by injection E2 as <-|].
        assert (s !! key = Some b) by (apply Hl; eauto). congruence.
    + rewrite lookup_insert_ne, (Hl k b Hk) by done. split; [intros (e' & ? & ?); exists e'; by split; [right|]|].
      intros (e' & [->|He']%elem_of_cons & Hf'); [|eauto]. exfalso. apply Hne.
      destruct Hf' as (m2 & _ & E2 & -> & _). rewrite Em in E2. by injection E2 as <-.
Qed.

Lemma record_all_files : forall es done s s', digests_distinguish (rev es ++ done) -> ledger_of done s ->
  forM_ record_event es s = (Ok tt, s') -> ledger_of (rev es ++ done) s'.
Proof.
  induction es as [|e es IH]; intros done s s' Hdig Hl Hr; [by injection Hr as <-|].
  unfold forM_ in *. cbn [foldM] in Hr. unfold mbind, M_bind in Hr.
  destruct (record_event e s) as [[[]|] s1] eqn:E; [|done].
  cbn [rev] in *. rewrite <- app_assoc in *. apply (IH (e :: done) s1); [done| |done].
  apply (record_event_files done e s); [|done|done].
  intros a a' k k' b b' Ha Ha'. apply Hdig; apply elem_of_app; by right.
Qed.

(** ** Reading a month *)

Definition in_month (month : string) (e : egress_event) : bool :=
  bool_decide (month_of (ee_occurred_at_ms e) = Ok month).

(** The object of the listing holds this event. *)
Definition holds (month : string) (s : mem) (item : object_stat) (e : egress_event) : Prop :=
  exists b, s !! os_key item = Some b /\ filed e (os_key item) b /\ in_month month e = true.

Lemma read_event_holds month s item e : holds month s item e -> read_event month item s = (Ok e, s).
Proof.
  intros (b & Hb & Hf & Hm). unfold read_event. unfold mbind at 1, M_bind at 1.
  assert (normalize_key (os_key item) = Ok (os_key item)) as Hn.
  { destruct Hf as (m & _ & Em & -> & _). apply event_key_normal. by eapply month_clean. }
  rewrite (get_whole _ _ s Hn), Hb. destruct (filed_doc _ _ _ Hf) as (d & -> & Hd). unfold mbind, M_bind, lift.
  cbn [of_option loads]. rewrite Hd. apply bool_decide_eq_true_1 in Hm. rewrite Hm.
  by rewrite String.eqb_refl.
Qed.

Lemma read_events month s items es : Forall2 (holds month s) items es -> forall acc,
  foldM (collect_event month) acc items s = (Ok (acc ++ es), s).
Proof.
  induction 1 as [|item e items es He Hes IH]; intros acc; [by rewrite app_nil_r|]. cbn [foldM].
  unfold mbind, M_bind. unfold collect_event at 1, mbind, M_bind. rewrite (read_event_holds _ _ _ _ He). cbn. rewrite IH. by rewrite <- app_assoc.
Qed.

Lemma month_prefix_normal month : clean_segment month ->
  lstrip_char slash (replace_char backslash slash (fmt [EGRESS_PREFIX; "/"; month; "/"])) = (EGRESS_PREFIX +:+ "/") +:+ month +:+ "/".
Proof.
  intros (_ & _ & _ & _ & Hb). unfold fmt. cbn [join String.concat]. rewrite !replace_char_app.
  rewrite (replace_char_id _ _ month) by done. change (month +:+ "" +:+ "/") with (month +:+ "/"). by rewrite !app_assoc_s.
Qed.

Lemma filed_in_dir month e k b :
  clean_segment month -> filed e k b -> startswith k ((EGRESS_PREFIX +:+ "/") +:+ month +:+ "/") = in_month month e.
Proof.
  intros Hc (m & _ & Hm & -> & _). rewrite event_key_dir. unfold in_month. rewrite Hm.
  apply eq_true_iff_eq. rewrite bool_decide_eq_true, startswith_spec. split.
  - intros [t Ht]. rewrite (app_assoc_s (EGRESS_PREFIX +:+ "/")), (app_assoc_s month) in Ht. apply app_inv_l_s in Ht. by destruct (segment_split _ _ _ _ (month_clean _ _ Hm) Hc Ht) as [-> _].
  - intros [= ->]. eexists. by rewrite !app_assoc_s.
Qed.

Definition digits (s : string) : bool := str_forallb (fun a => bool_decide (is_Some (digit_value a))) s.

Lemma fixed_digits_shape n : forall acc s v r, fixed_digits n acc s = Some (v, r) ->
  exists p, s = p +:+ r /\ digits p = true /\ String.length p = n.
Proof.
  induction n as [|n IH]; intros acc s v r H; cbn [fixed_digits] in H; [injection H as <- <-; by exists ""|].
  destruct s as [|a s]; [done|]. destruct (digit_value a) as [d|] eqn:Ed; [|done].
  destruct (IH _ _ _ _ H) as (p & -> & Hp & <-). exists (String a p). split_and!; [done| |done].
  cbn. unfold digits in Hp. rewrite Hp, Ed. done.
Qed.

Lemma digits_chars s : digits s = true -> str_forallb key_char s = true.
Proof.
  apply str_forallb_impl. intros a. rewrite bool_decide_eq_true. intros [d Hd]. revert Hd.
  destruct a as [[] [] [] [] [] [] [] []]; vm_compute; congruence.
Qed.

Lemma is_month_clean month : is_month month = true -> clean_segment month.
Proof.
  unfold is_month. destruct (fixed_digits 4 0 month) as [[y [|dash rest]]|] eqn:E1; [done| |done].
  rewrite andb_true_iff. intros [Hd%Ascii.eqb_eq H]. subst dash.
  destruct (fixed_digits 2 0 rest) as [[m [|]]|] eqn:E2; [|done..].
  destruct (fixed_digits_shape _ _ _ _ _ E1) as (p & -> & Hp%digits_chars & Hlp),
    (fixed_digits_shape _ _ _ _ _ E2) as (q & -> & Hq%digits_chars & Hlq).
  apply key_chars_clean; rewrite app_nil_r_s.
  - rewrite str_forallb_app, Hp. exact Hq.
  - rewrite length_app_s, Hlp. lia.
Qed.

(** The events of the month, one per recorded event. *)
Lemma month_events_exact es month s :
  ledger_of es s -> Forall (fun e => exists k b, filed e k b) es -> is_month month = true ->
  exists l, month_events month s = (Ok l, s) /\ l ≡ₚ filter (fun e => in_month month e = true) (remove_dups es).
Proof.
  intros Hl Hfile Hi. pose proof (is_month_clean _ Hi) as Hc. unfold month_events, lift. rewrite Hi.
  unfold mbind, M_bind. cbn [raise_if negb].
  destruct (list_spec (fmt [EGRESS_PREFIX; "/"; month; "/"]) s) as (items & -> & _ & Hnd & Hin).
  rewrite (month_prefix_normal month Hc) in Hin.
  assert (exists evs, Forall2 (holds month s) items evs) as [evs Hev].
  { apply Forall_exists_Forall2_l, Forall_forall. intros item Hitem.
    apply Hin in Hitem as (k & b & Hk & Hp & ->). cbn [os_key mk_stat].
    assert (ledger_key k) as Hlk by (apply startswith_spec in Hp as [t ->]; unfold ledger_key; rewrite app_assoc_s; apply startswith_app).
    destruct (proj1 (Hl k b Hlk) Hk) as (e & He & Hf). exists e, b. cbn [os_key mk_stat].
    split_and!; [done..|]. by rewrite <- (filed_in_dir month e k b). }
  rewrite (read_events _ _ _ _ Hev []). cbn [app]. eexists. split; [done|]. rewrite merge_sort_Permutation.
  apply NoDup_Permutation.
  - assert (map os_key items = map (fun e => event_key month (ee_event_id e)) evs) as Hkeys.
    { clear -Hev. induction Hev as [|item e items evs (b & _ & (m & _ & Hm & Hk & _) & Hi) _ IH]; [done|]. cbn. f_equal; [|done].
      rewrite Hk. apply bool_decide_eq_true_1 in Hi. rewrite Hm in Hi. by injection Hi as ->. }
    apply (NoDup_fmap_1 (fun e => event_key month (ee_event_id e))).
    change (NoDup (map (fun e => event_key month (ee_event_id e)) evs)). by rewrite <- Hkeys.
  - apply NoDup_filter, NoDup_remove_dups.
  - intros e. rewrite list_elem_of_filter, elem_of_remove_dups. split.
    + intros He. destruct (proj1 (list_elem_of_lookup _ _) He) as [i Hei].
      destruct (Forall2_lookup_r _ _ _ _ _ Hev Hei) as (item & _ & b & Hb & Hf & Hm). split; [done|].
      destruct (proj1 (Hl _ _ (filed_ledger_key _ _ _ Hf)) Hb) as (e' & He' & Hf').
      by rewrite (filed_inj _ _ _ _ _ Hf Hf').
    + intros [Hm He]. rewrite Forall_forall in Hfile. destruct (Hfile e He) as (k & b & Hf).
      assert (s !! k = Some b) as Hk by (apply Hl; [by eapply filed_ledger_key|eauto]).
      assert (mk_stat k b ∈ items) as Hitem.
      { apply Hin. exists k, b. split_and!; [done| |done]. by rewrite (filed_in_dir month e k b). }
      destruct (proj1 (list_elem_of_lookup _ _) Hitem) as [i Hii].
      destruct (Forall2_lookup_l _ _ _ _ _ Hev Hii) as (e' & He' & b' & Hb' & Hf' & _). cbn [os_key mk_stat] in *.
      assert (b' = b) as -> by congruence. rewrite (filed_inj _ _ _ _ _ Hf Hf'). by eapply list_elem_of_lookup_2.
Qed.

(** ** The totals *)

Definition sum_bytes (es : list egress_event) : Z := foldr (fun e acc => ee_bytes e + acc) 0 es.

(** The rows of a list of events: one per boundary, with its bytes and transfers. *)
Definition same_boundary (key : list string) (es : list egress_event) : list egress_event :=
  filter (fun e => boundary_key e = key) es.
Definition rows_of (es : list egress_event) (rows : list egress_row) : Prop :=
  NoDup (map row_key rows) /\
  (forall e, e ∈ es -> boundary_key e ∈ map row_key rows) /\
  forall r, r ∈ rows -> row_bytes r = sum_bytes (same_boundary (row_key r) es) /\
    row_transfers r = Z.of_nat (length (same_boundary (row_key r) es)).

Lemma sum_bytes_app l k : sum_bytes (l ++ k) = sum_bytes l + sum_bytes k.
Proof. unfold sum_bytes in *. induction l as [|e l IH]; cbn [foldr app]; lia. Qed.
#[global] Instance sum_bytes_perm : Proper ((≡ₚ) ==> (=)) sum_bytes.
Proof.
  induction 1 as [|e l k _ IH|e f l|l k m _ IH1 _ IH2]; [done|unfold sum_bytes in *; cbn [foldr]; lia|unfold sum_bytes; cbn [foldr]; lia|by rewrite IH1].
Qed.

Lemma same_boundary_snoc key es e :
  same_boundary key (es ++ [e]) = same_boundary key es ++ (if bool_decide (boundary_key e = key) then [e] else []).
Proof.
  unfold same_boundary. rewrite filter_app. f_equal. case_bool_decide.
  - by rewrite filter_cons_True.
  - by rewrite filter_cons_False.
Qed.

Lemma add_event_keys e rows :
  map row_key (add_event e rows) =
    if bool_decide (boundary_key e ∈ map row_key rows) then map row_key rows else map row_key rows ++ [boundary_key e].
Proof.
  induction rows as [|r rows IH]; [done|]. cbn [add_event map].
  destruct (decide (row_key r = boundary_key e)) as [Hr|Hr].
  - rewrite (bool_decide_eq_true_2 _ Hr). cbn [map row_key]. rewrite bool_decide_eq_true_2; [done|]. rewrite Hr. left.
  - rewrite (bool_decide_eq_false_2 _ Hr). cbn [map]. rewrite IH.
    destruct (decide (boundary_key e ∈ map row_key rows)) as [Hin|Hin].
    + rewrite !bool_decide_eq_true_2; [done|by right|done].
    + rewrite !bool_decide_eq_false_2; [done| |done]. rewrite elem_of_cons. naive_solver.
Qed.

(** The row an event is added to, a new row, and the rows it leaves alone. *)
Lemma added_to_row e rows r :
  NoDup (map row_key rows) -> r ∈ add_event e rows -> boundary_key e = row_key r -> boundary_key e ∈ map row_key rows ->
  exists r0, r0 ∈ rows /\ row_key r0 = row_key r /\ row_bytes r = row_bytes r0 + ee_bytes e /\
    row_transfers r = row_transfers r0 + 1.
Proof.
  induction rows as [|r1 rows IH]; intros Hnd Hin Hk Hm; [by apply not_elem_of_nil in Hm|].
  cbn [add_event map] in *. apply NoDup_cons in Hnd as [Hn Hnd]. case_bool_decide as H1.
  - apply elem_of_cons in Hin as [->|Hin]; [exists r1; cbn; by split_and!; [left|..]|].
    exfalso. apply Hn. rewrite H1, Hk. by apply list_elem_of_fmap_2.
  - apply elem_of_cons in Hin as [->|Hin]; [by rewrite Hk in H1|]. apply elem_of_cons in Hm as [Hm|Hm]; [congruence|].
    destruct (IH Hnd Hin Hk Hm) as (r0 & ? & ?). exists r0. by split; [right|].
Qed.

Lemma added_new_row e rows r :
  r ∈ add_event e rows -> boundary_key e = row_key r -> ~ boundary_key e ∈ map row_key rows ->
  row_bytes r = ee_bytes e /\ row_transfers r = 1.
Proof.
  induction rows as [|r1 rows IH]; intros Hin Hk Hm; cbn [add_event map] in *.
  - by apply list_elem_of_singleton in Hin as ->.
  - rewrite elem_of_cons in Hm. case_bool_decide as H1; [naive_solver|].
    apply elem_of_cons in Hin as [->|Hin]; [naive_solver|]. apply IH; [done..|naive_solver].
Qed.

Lemma other_row e rows r : r ∈ add_event e rows -> boundary_key e <> row_key r -> r ∈ rows.
Proof.
  induction rows as [|r1 rows IH]; intros Hin Hk; cbn [add_event] in *.
  - by apply list_elem_of_singleton in Hin as ->.
  - case_bool_decide as H1; apply elem_of_cons in Hin as [->|Hin].
    + cbn in Hk. congruence.
    + by right.
    + left.
    + right. auto.
Qed.

Lemma no_boundary key es : (forall e, e ∈ es -> boundary_key e <> key) -> same_boundary key es = [].
Proof.
  induction es as [|e es IH]; intros H; [done|]. unfold same_boundary. rewrite filter_cons_False; [|apply H; left].
  apply IH. intros x Hx. apply H. by right.
Qed.

Lemma add_event_rows es e rows : rows_of es rows -> rows_of (es ++ [e]) (add_event e rows).
Proof.
  intros (Hnd & Hall & Hr). split; [|split].
  - rewrite add_event_keys. case_bool_decide as Hin; [done|]. apply NoDup_app. split_and!; [done| |apply NoDup_singleton].
    intros x Hx ->%list_elem_of_singleton. done.
  - intros x. rewrite elem_of_app, list_elem_of_singleton, add_event_keys.
    intros [Hx| ->]; case_bool_decide as Hin; rewrite ?elem_of_app, ?list_elem_of_singleton; auto.
  - intros r Hin. rewrite same_boundary_snoc.
    destruct (decide (boundary_key e = row_key r)) as [Hk|Hk].
    + rewrite bool_decide_eq_true_2, sum_bytes_app, length_app by done. cbn.
      destruct (decide (boundary_key e ∈ map row_key rows)) as [Hm|Hm].
      * destruct (added_to_row e rows r Hnd Hin Hk Hm) as (r0 & Hr0 & Hk0 & -> & ->).
        destruct (Hr r0 Hr0) as [-> ->]. rewrite Hk0. lia.
      * destruct (added_new_row e rows r Hin Hk Hm) as [-> ->].
        rewrite no_boundary; [cbn; lia|]. rewrite <- Hk. intros x Hx Hxk. apply Hm. rewrite <- Hxk. auto.
    + rewrite bool_decide_eq_false_2, app_nil_r by done. apply Hr. by eapply other_row.
Qed.

Lemma rows_of_events es : rows_of es (foldl (fun rows e => add_event e rows) [] es).
Proof.
  assert (forall done rows, rows_of done rows -> rows_of (done ++ es) (foldl (fun rows e => add_event e rows) rows es)) as H.
  { induction es as [|e es IH]; intros done rows Hr; [by rewrite app_nil_r|]. cbn [foldl].
    rewrite cons_middle, app_assoc. apply IH. by apply add_event_rows. }
  apply (H [] []). split_and!; [constructor|intros e He; by apply not_elem_of_nil in He..].
Qed.

Definition sum_rows (rows : list egress_row) : Z := foldr (fun r acc => row_bytes r + acc) 0 rows.

Lemma add_event_sum e rows : sum_rows (add_event e rows) = sum_rows rows + ee_bytes e.
Proof. unfold sum_rows in *. induction rows as [|r rows IH]; cbn; [lia|]. case_bool_decide; cbn; lia. Qed.

Lemma sum_rows_events es : sum_rows (foldl (fun rows e => add_event e rows) [] es) = sum_bytes es.
Proof.
  assert (forall rows, sum_rows (foldl (fun rows e => add_event e rows) rows es) = sum_rows rows + sum_bytes es) as ->; [|cbn; lia].
  induction es as [|e es IH]; intros rows; cbn [foldl sum_bytes foldr]; [lia|].
  rewrite IH, add_event_sum. unfold sum_bytes. lia.
Qed.

#[global] Instance sum_rows_perm : Proper ((≡ₚ) ==> (=)) sum_rows.
Proof.
  induction 1 as [|e l k _ IH|e f l|l k m _ IH1 _ IH2]; [done|unfold sum_rows in *; cbn [foldr]; lia|unfold sum_rows; cbn [foldr]; lia|by rewrite IH1].
Qed.

Lemma add_rows rates rows : forall p,
  let q := foldl (add_row rates) p rows in
  rp_total_bytes q = rp_total_bytes p + sum_rows rows /\
  rp_priced_bytes q + rp_unpriced_bytes q = rp_priced_bytes p + rp_unpriced_bytes p + sum_rows rows /\
  rp_rows q = rp_rows p ++ rows.
Proof.
  induction rows as [|r rows IH]; intros p q; [cbn; rewrite app_nil_r; split_and!; [lia|lia|done]|].
  destruct (IH (add_row rates p r)) as (H1 & H2 & H3). unfold q. cbn [foldl]. rewrite H1, H2, H3.
  unfold add_row, sum_rows. cbn [foldr rp_total_bytes rp_priced_bytes rp_unpriced_bytes rp_rows]. rewrite <- app_assoc.
  destruct (bool_decide _); split_and!; try done; lia.
Qed.

Lemma record_all_fileable : forall es s s', forM_ record_event es s = (Ok tt, s') ->
  Forall (fun e => exists k b, filed e k b) es.
Proof.
  induction es as [|e es IH]; intros s s' Hr; [constructor|].
  unfold forM_ in *. cbn [foldM] in Hr. unfold mbind, M_bind in Hr.
  destruct (record_event e s) as [[[]|] s1] eqn:E; [|done]. constructor; [|by eapply IH]. revert E.
  unfold record_event, event_to_dict. unfold mbind at 1, M_bind at 1, lift.
  destruct (event_validate e) as [[]|] eqn:Ev; cbn [mbind res_bind]; [|done].
  destruct (month_of _) as [month|] eqn:Em; cbn [mbind res_bind]; [|done]. intros _.
  do 2 eexists. exists month. by split_and!.
Qed.

Lemma remove_dups_rev (es : list egress_event) : remove_dups (rev es) ≡ₚ remove_dups es.
Proof.
  apply NoDup_Permutation; [apply NoDup_remove_dups..|]. intros e. rewrite !elem_of_remove_dups.
  by rewrite !list_elem_of_In, <- in_rev.
Qed.

Lemma same_boundary_perm key l l' : l ≡ₚ l' -> same_boundary key l ≡ₚ same_boundary key l'.
Proof. intros H. unfold same_boundary. by rewrite H. Qed.

Lemma rows_of_perm l l' rows rows' : l ≡ₚ l' -> rows ≡ₚ rows' -> rows_of l rows -> rows_of l' rows'.
Proof.
  intros Hl Hr (H1 & H2 & H3). split; [|split].
  - by rewrite <- Hr.
  - intros e He. rewrite <- Hr. apply H2. by rewrite Hl.
  - intros r Hin. rewrite <- Hr in Hin. destruct (H3 r Hin) as [-> ->].
    by rewrite (same_boundary_perm (row_key r) _ _ Hl).
Qed.

(** Every transfer is counted exactly once.  When a list of egress events has
    been recorded without an error in a store whose ledger was empty, the report of
    a month succeeds, its total is the sum of the bytes of the events of that month
    (an event recorded again by a retry counts once), the priced and the unpriced
    bytes add up to the total, and its rows are the boundaries of those events, each
    once, with the bytes and the number of the transfers across it.  The documents of
    the recorded events that differ have different SHA-256 digests. *)
Theorem egress_counted_once es s s' month rates :
  (forall k, startswith k (EGRESS_PREFIX +:+ "/") = true -> s !! k = None) ->
  forM_ record_event es s = (Ok tt, s') ->
  is_month month = true ->
  digests_distinguish es ->
  let counted := filter (fun e => in_month month e = true) (remove_dups es) in
  exists p, report month rates s' = (Ok p, s') /\
    rp_total_bytes p = sum_bytes counted /\
    rp_priced_bytes p + rp_unpriced_bytes p = rp_total_bytes p /\
    rows_of counted (rp_rows p).
Proof.
  intros Hs Hr Hm Hdig.
  assert (Hl0 : ledger_of [] s).
  { intros k b Hk. rewrite (Hs k Hk). split; [done|]. intros (e & He & _). by apply not_elem_of_nil in He. }
  assert (Hl : ledger_of (rev es) s').
  { rewrite <- (app_nil_r (rev es)). apply (record_all_files es [] s); [|done|done]. rewrite app_nil_r.
    intros a a' k k' b b' Ha Ha'. apply Hdig; [rewrite list_elem_of_In, in_rev, <- list_elem_of_In; done..]. }
  assert (Hf : Forall (fun e => exists k b, filed e k b) (rev es)).
  { by apply Forall_rev, (record_all_fileable _ _ _ Hr). }
  destruct (month_events_exact _ _ _ Hl Hf Hm) as (l & Hev & Hp). rewrite remove_dups_rev in Hp.
  unfold report. unfold mbind, M_bind. rewrite Hev. eexists. split; [done|]. cbv zeta.
  set (rows := foldl _ [] l). destruct (add_rows rates (merge_sort row_le rows) (EgressReport month 0 0 0 [])) as (H1 & H2 & H3).
  rewrite H1, H2, H3. cbn [rp_total_bytes rp_priced_bytes rp_unpriced_bytes rp_rows app].
  pose proof (merge_sort_Permutation row_le rows) as Hsort.
  assert (Hsum : sum_rows (merge_sort row_le rows) = sum_bytes l).
  { etrans; [exact (sum_rows_perm _ _ Hsort)|apply sum_rows_events]. }
  split; [rewrite Hsum; by apply sum_bytes_perm|]. split; [lia|].
  apply (rows_of_perm l _ rows); [done|by symmetry|apply rows_of_events].
Qed.

Lemma egress_counted_once_witness :
  let e1 := EgressEvent "replicate:a" 1735689600000 "" "c::t" "replication" "eu" "us" "replication" 70 in
  let e2 := EgressEvent "replicate:b" 1735689600001 "" "c::t" "replication" "eu" "us" "replication" 5 in
  exists s', forM_ record_event [e1; e2; e1] ∅ = (Ok tt, s') /\
  let counted := filter (fun e => in_month "2025-01" e = true) (remove_dups [e1; e2; e1]) in
  exists p, report "2025-01" {["eu->us"]} s' = (Ok p, s') /\
    rp_total_bytes p = sum_bytes counted /\
    rp_priced_bytes p + rp_unpriced_bytes p = rp_total_bytes p /\
    rows_of counted (rp_rows p).
Proof.
  intros e1 e2.
  assert (match (forM_ record_event [e1; e2; e1] ∅).1 with Ok _ => true | Err _ => false end = true) as Hok
    by (vm_compute; reflexivity).
  destruct (forM_ record_event [e1; e2; e1] ∅) as [[[]|] s'] eqn:Hs'; [|discriminate Hok].
  exists s'. split; [reflexivity|].
  apply (egress_counted_once [e1; e2; e1] ∅ s' "2025-01" {["eu->us"]}).
  - intros k _. apply lookup_empty.
  - exact Hs'.
  - reflexivity.
  - assert (Hf1 : forall k b, filed e1 k b -> b = BJson (JObj (event_fields "2025-01" e1))).
    { intros k b (m & _ & Hm & _ & ->). assert (month_of (ee_occurred_at_ms e1) = Ok "2025-01") as Hm1 by (vm_compute; reflexivity).
      rewrite Hm1 in Hm. by injection Hm as <-. }
    assert (Hf2 : forall k b, filed e2 k b -> b = BJson (JObj (event_fields "2025-01" e2))).
    { intros k b (m & _ & Hm & _ & ->). assert (month_of (ee_occurred_at_ms e2) = Ok "2025-01") as Hm2 by (vm_compute; reflexivity).
      rewrite Hm2 in Hm. by injection Hm as <-. }
    assert (Hne : String.eqb (sha256_hex (blob_bytes (BJson (JObj (event_fields "2025-01" e1)))))
                             (sha256_hex (blob_bytes (BJson (JObj (event_fields "2025-01" e2))))) = false) by (vm_compute; reflexivity).
    apply String.eqb_neq in Hne.
    intros a a' k k' b b' Ha Ha' Hb Hb' Hsha.
    assert (Hcases : forall x, x ∈ [e1; e2; e1] -> x = e1 \/ x = e2).
    { intros x. rewrite !elem_of_cons. intros [->|[->|[->|Hx]]]; [by left|by right|by left|destruct (not_elem_of_nil _ Hx)]. }
    destruct (Hcases a Ha) as [->| ->], (Hcases a' Ha') as [->| ->];
      rewrite ?(Hf1 _ _ Hb), ?(Hf2 _ _ Hb), ?(Hf1 _ _ Hb'), ?(Hf2 _ _ Hb') in *; first [reflexivity|by destruct Hne|by destruct Hne; symmetry].
Defined.
