(* ===== verification/Federation.v ===== *)
(** * Federated publication

    [enterprise/control/federation.py]: the catalog of datasets shared by regional
    Managers, the verifier that runs next to the data, and the coordinator that
    publishes a generation through both.  Ownership of a dataset, its lease and the
    generation each region serves are one record of the catalog store, changed by
    compare-and-swap only.

    There is one artifact store per handle, so that the catalog, the local store and
    the stores of the replicas may be the same object or different ones. *)

From S2P Require Import Prelude PyText Sha256 Json ArtifactStore World Contract Sources S3Auth WorkQueue Placement Egress.
From Stdlib Require Import Ascii.
Import MemoryStore StreamOps.

(** ** References and descriptors *)

Record object_reference := ObjectReference {
  or_store_profile : string;
  or_key : string;
  or_size_bytes : Z;
  or_sha256 : string;
}.
#[global] Instance object_reference_eq_dec : EqDecision object_reference.
Proof. solve_decision. Defined.

(** [re.fullmatch(r"[0-9a-f]{64}", s)] *)
Definition sha256_text (s : string) : bool := str_forallb is_hex_lower s && Nat.eqb (String.length s) 64.

(** [ObjectReference.__post_init__] *)
Definition make_reference (store_profile key : string) (size_bytes : Z) (sha256 : string) : res object_reference :=
  _ ← raise_if (negb (truthy_str store_profile)) (ValueError "object reference requires a profile and canonical key");
  k ← normalize_key key;
  _ ← raise_if (negb (String.eqb k key)) (ValueError "object reference requires a profile and canonical key");
  _ ← raise_if (size_bytes <? 0) (ValueError "object reference size must be a non-negative integer");
  _ ← raise_if (negb (sha256_text sha256)) (ValueError "object reference requires a lowercase SHA-256 digest");
  Ok (ObjectReference store_profile key size_bytes sha256).

Definition reference_to_dict (r : object_reference) : dict :=
  mk_dict [("store_profile", JStr (or_store_profile r)); ("key", JStr (or_key r));
           ("size_bytes", JInt (or_size_bytes r)); ("sha256", JStr (or_sha256 r))].

(** [ObjectReference.from_dict]: values of another type are refused as the source
    refuses them; a profile that is true but no string is not followed. *)
Definition reference_from_dict (v : json) : res object_reference :=
  d ← as_obj v;
  profile ← dget_req d "store_profile";
  key ← dget_req d "key";
  size ← dget_req d "size_bytes";
  sha ← dget_req d "sha256";
  match profile, key, size, sha with
  | JStr p, JStr k, JInt n, JStr h => make_reference p k n h
  | JStr _, _, _, _ => Err (ValueError "invalid object reference")
  | p, _, _, _ =>
      if truthy p then Err (Unmodelled "a storage profile that is no string")
      else Err (ValueError "object reference requires a profile and canonical key")
  end.

Record generation_descriptor := GenerationDescriptor {
  gd_dataset_id : string;
  gd_generation_id : string;
  gd_sequence : Z;
  gd_produced_at_ms : Z;
  gd_objects : list object_reference;
  gd_manifest : object_reference;
  gd_snapshot_key : string;
}.
#[global] Instance generation_descriptor_eq_dec : EqDecision generation_descriptor.
Proof. solve_decision. Defined.

(** [GenerationDescriptor.__post_init__] *)
Definition make_descriptor (dataset_id generation_id : string) (sequence produced_at_ms : Z)
    (objects : list object_reference) (manifest : object_reference) (snapshot_key : string)
  : res generation_descriptor :=
  let keys := map or_key objects in
  _ ← raise_if (negb (truthy_str dataset_id) || negb (truthy_str generation_id) || bool_decide (objects = []))
        (ValueError "generation descriptor requires dataset, generation and objects");
  _ ← raise_if ((sequence <? 1) || (produced_at_ms <? 1))
        (ValueError "generation sequence and timestamp must be positive integers");
  _ ← raise_if (negb (bool_decide (NoDup keys))) (ValueError "generation descriptor repeats an object key");
  _ ← raise_if (bool_decide (or_key manifest ∈ keys)) (ValueError "generation manifest cannot reference itself");
  _ ← raise_if (truthy_str snapshot_key && negb (bool_decide (snapshot_key ∈ keys)))
        (ValueError "snapshot must be one of the verified generation objects");
  Ok (GenerationDescriptor dataset_id generation_id sequence produced_at_ms objects manifest snapshot_key).

Definition all_objects (d : generation_descriptor) : list object_reference := gd_objects d ++ [gd_manifest d].

(** The content of an object, wherever it is stored. *)
Definition content_entry (r : object_reference) : json :=
  JObj (mk_dict [("key", JStr (or_key r)); ("size_bytes", JInt (or_size_bytes r)); ("sha256", JStr (or_sha256 r))]).

Definition manifest_document (d : generation_descriptor) : dict :=
  opt_field "snapshot_key" (truthy_str (gd_snapshot_key d)) (JStr (gd_snapshot_key d)) $
  mk_dict [("version", JInt 1); ("dataset_id", JStr (gd_dataset_id d));
    ("generation_id", JStr (gd_generation_id d)); ("sequence", JInt (gd_sequence d));
    ("produced_at_ms", JInt (gd_produced_at_ms d)); ("objects", JList (map content_entry (gd_objects d)))].

Definition generation_to_dict (d : generation_descriptor) : dict :=
  opt_field "snapshot_key" (truthy_str (gd_snapshot_key d)) (JStr (gd_snapshot_key d)) $
  mk_dict [("dataset_id", JStr (gd_dataset_id d)); ("generation_id", JStr (gd_generation_id d));
    ("sequence", JInt (gd_sequence d)); ("produced_at_ms", JInt (gd_produced_at_ms d));
    ("objects", JList (map (fun r => JObj (reference_to_dict r)) (gd_objects d)));
    ("manifest", JObj (reference_to_dict (gd_manifest d)))].

(** An [int] of a descriptor, and a [str]: other types are not followed where the
    source would accept them. *)
Definition plain_int_of (v : json) : res Z :=
  match v with JInt z => Ok z | _ => Err (ValueError "generation sequence and timestamp must be positive integers") end.
Definition plain_str_of (v : json) : res string :=
  match v with JStr s => Ok s | _ => Err (Unmodelled "a descriptor field that is no string") end.

Definition generation_from_dict (v : json) : res generation_descriptor :=
  d ← as_obj v;
  dataset ← dget_req d "dataset_id"; dataset ← plain_str_of dataset;
  generation ← dget_req d "generation_id"; generation ← plain_str_of generation;
  sequence ← dget_req d "sequence"; sequence ← plain_int_of sequence;
  produced ← dget_req d "produced_at_ms"; produced ← plain_int_of produced;
  objects ← dget_req d "objects";
  objects ← (match objects with JList l => Ok l | _ => Err (TypeError "object is not iterable") end);
  objects ← res_map reference_from_dict objects;
  manifest ← dget_req d "manifest"; manifest ← reference_from_dict manifest;
  snapshot ← plain_str_of (dget d "snapshot_key" (JStr ""));
  make_descriptor dataset generation sequence produced objects manifest snapshot.

(** ** The stores of a region *)

Abbreviation store_map := (gmap string mem).

Record fworld := FWorld {
  fw_stores : store_map;
  fw_ticks : nat;
}.

Definition store_at (h : string) (w : fworld) : mem := default ∅ (fw_stores w !! h).

(** One operation on the store with a handle. *)
Definition on {A} (h : string) (m : M mem A) : M fworld A := fun w =>
  let r := m (store_at h w) in (r.1, FWorld (<[h := r.2]> (fw_stores w)) (fw_ticks w)).

(** [get(key, length=n)]: the first [n] bytes; an object no longer than that is
    returned whole. *)
Definition get_prefix (key : string) (n : Z) : M mem blob :=
  raw ← get key 0 None;
  mret (if blob_size raw <=? n then raw else BRaw (py_slice (blob_bytes raw) 0 n)).

(** [json.loads] *)
Definition parse_json (raw : blob) : res json := of_option (ValueError "JSONDecodeError") (loads raw).

Record verified_replica := VerifiedReplica {
  vr_descriptor : generation_descriptor;
  vr_storage_profile : string;
  vr_proof : string;
}.

(** The secret of this process, from [secrets.token_bytes(32)]. *)
Class ReceiptKey := receipt_key : list N.

Definition receipt_proof `{ReceiptKey} (d : generation_descriptor) (storage_profile : string) : string :=
  hex_bytes (hmac_text receipt_key
    (dumps (JObj (mk_dict [("generation", JObj (generation_to_dict d)); ("storage_profile", JStr storage_profile)])))).

(** [dataset_id.partition("::")] and its check. *)
Definition dataset_parts (dataset_id : string) : res (string * string) :=
  match partition_colons dataset_id with
  | Some (connection, table) =>
      if truthy_str connection && truthy_str table then Ok (connection, table)
      else Err (ValueError "dataset ID must use connection_id::source_table")
  | None => Err (ValueError "dataset ID must use connection_id::source_table")
  end.

(** ** The regional verifier *)

Record verifier := Verifier {
  rv_placement : placement_config;
  rv_stores : gmap string string;
}.

Definition MANIFEST_LIMIT : Z := 4 * 1024 * 1024.

(** [{required, *replicas}] *)
Definition publication_chain (p : materializer_policy) : list string :=
  po_required_storage_profile p :: po_replica_storage_profiles p.

Section verifier.
Context `{HKey : ReceiptKey} (v : verifier).

Definition verify_failed (r : object_reference) : exn :=
  CatalogConflict (fmt ["replica object verification failed: "; or_key r]).

Definition verify_bytes (target : string) (r : object_reference) : M fworld unit :=
  verified ← catch (on target (verify (or_key r) (or_size_bytes r) (or_sha256 r)))
    (fun e => match e with ObjectNotFound _ => raise (verify_failed r) | e => raise e end);
  if (verified : bool) then mret tt else raise (verify_failed r).

(** The checks of [verify] that read no object, with the store they select. *)
Definition verify_target (d : generation_descriptor) (storage_profile : string) : res string :=
  ct ← dataset_parts (gd_dataset_id d);
  let policy := policy_for (rv_placement v) ct.1 ct.2 in
  _ ← validate_residency (rv_placement v) policy ct.1;
  _ ← raise_if (bool_decide (po_residency_locations policy = [])
                || negb (bool_decide (storage_profile ∈ publication_chain policy)))
        (residency "replica target is not in the dataset publication chain");
  target ← of_option (ValueError (fmt ["regional store is not configured: "; storage_profile])) (rv_stores v !! storage_profile);
  _ ← raise_if (existsb (fun r => negb (String.eqb (or_store_profile r) storage_profile)) (all_objects d))
        (ValueError "replica descriptor must reference its target store");
  _ ← raise_if (MANIFEST_LIMIT <? or_size_bytes (gd_manifest d))
        (ValueError "generation manifest exceeds the 4 MiB control-metadata limit");
  Ok target.

Definition check_manifest (d : generation_descriptor) (raw : blob) : res unit :=
  _ ← raise_if (negb (blob_size raw =? or_size_bytes (gd_manifest d)))
        (CatalogConflict "generation manifest size changed during verification");
  _ ← raise_if (negb (String.eqb (sha256_hex (blob_bytes raw)) (or_sha256 (gd_manifest d))))
        (CatalogConflict "generation manifest digest changed during verification");
  value ← parse_json raw;
  raise_if (negb (bool_decide (value = JObj (manifest_document d))))
    (CatalogConflict "generation manifest does not describe exactly these objects").

(** [RegionalReplicaVerifier.verify] *)
Definition verify_replica (d : generation_descriptor) (storage_profile : string) : M fworld verified_replica :=
  target ← lift (verify_target d storage_profile);
  forM_ (verify_bytes target) (all_objects d);;
  raw ← on target (get_prefix (or_key (gd_manifest d)) (MANIFEST_LIMIT + 1));
  lift (check_manifest d raw);;
  mret (VerifiedReplica d storage_profile (receipt_proof d storage_profile)).

(** One object of [replicate]: streamed from the published store to the target. *)
Definition replicate_object (required target storage_profile : string) (refs : list object_reference) (r : object_reference)
  : M fworld (list object_reference) :=
  lift (raise_if (negb (String.eqb (or_store_profile r) required))
          (residency "replication source is not the published store"));;
  source ← lift (of_option (ValueError (fmt ["regional source store is not configured: "; or_store_profile r]))
                   (rv_stores v !! or_store_profile r));
  contents ← on source (get (or_key r) 0 None);
  on target (put_blob_if_absent (or_key r) contents (Some (or_size_bytes r)));;
  copy ← lift (make_reference storage_profile (or_key r) (or_size_bytes r) (or_sha256 r));
  mret (refs ++ [copy]).

(** [RegionalReplicaVerifier.replicate] *)
Definition replicate (d : generation_descriptor) (storage_profile : string) : M fworld verified_replica :=
  ct ← lift (dataset_parts (gd_dataset_id d));
  let policy := policy_for (rv_placement v) ct.1 ct.2 in
  lift (validate_residency (rv_placement v) policy ct.1);;
  lift (raise_if (negb (bool_decide (storage_profile ∈ po_replica_storage_profiles policy)))
          (residency "replication target is not a configured replica"));;
  target ← lift (of_option (ValueError (fmt ["regional store is not configured: "; storage_profile])) (rv_stores v !! storage_profile));
  verify_replica d (po_required_storage_profile policy);;
  refs ← foldM (replicate_object (po_required_storage_profile policy) target storage_profile) [] (all_objects d);
  last_ref ← lift (of_option (Unmodelled "a descriptor without a manifest") (last refs));
  copy ← lift (make_descriptor (gd_dataset_id d) (gd_generation_id d) (gd_sequence d) (gd_produced_at_ms d)
                 (removelast refs) last_ref (gd_snapshot_key d));
  verify_replica copy storage_profile.
End verifier.

(** ** The global catalog *)

Record catalog := Catalog {
  ct_store : string;
  ct_placement : placement_config;
}.

Definition DATASETS_PREFIX : string := "_control/federation/datasets/".
Definition catalog_key (dataset_id : string) : string := fmt [DATASETS_PREFIX; sha256_hex dataset_id; ".json"].

(** [_policy] *)
Definition dataset_policy (c : placement_config) (dataset_id : string) : res materializer_policy :=
  ct ← dataset_parts dataset_id;
  let policy := policy_for c ct.1 ct.2 in
  _ ← validate_tenant c policy ct.1;
  _ ← validate_residency c policy ct.1;
  _ ← raise_if (bool_decide (po_residency_locations policy = []))
        (residency "federation requires an explicit residency boundary");
  Ok policy.

(** [_positive] *)
Definition positive (value : Z) (name : string) : res unit :=
  raise_if (value <? 1) (ValueError (fmt [name; " must be a positive integer"])).

(** [_require_owner] *)
Definition check_owner (record : dict) (owner_id : string) (fence now : Z) : res unit :=
  let stale : res unit := Err (CatalogConflict "dataset ownership is stale or expired") in
  owner ← dget_req record "owner_id";
  if negb (bool_decide (owner = JStr owner_id)) then stale else
  f ← dget_req record "fence";
  if negb (eq_num f fence) then stale else
  expires ← dget_req record "expires_at_ms";
  expires ← as_num expires;
  if expires <=? now then stale else Ok tt.

(** The record [create] installs, and the updates of the other operations as
    functions of the record they read. *)
Definition created_record (policy : materializer_policy) (dataset_id owner_id owner_location : string)
    (lease_ms freshness_target_ms now : Z) : dict :=
  mk_dict [("version", JInt 1); ("dataset_id", JStr dataset_id); ("owner_id", JStr owner_id);
    ("owner_location", JStr owner_location); ("fence", JInt 1); ("expires_at_ms", JInt (now + lease_ms));
    ("freshness_target_ms", JInt freshness_target_ms); ("replicas", JObj ∅); ("generations", JObj ∅);
    ("tenant_id", JStr (po_tenant_id policy))].

Definition next_owner (record : dict) (owner_id location : string) (expires : Z) : res dict :=
  fence ← dget_req record "fence";
  fence ← as_num fence;
  Ok (assign [("owner_id", JStr owner_id); ("owner_location", JStr location); ("fence", JInt (fence + 1));
              ("expires_at_ms", JInt expires)] record).

Definition handover_record (record : dict) (owner_id : string) (fence : Z) (new_owner_id new_location : string)
    (lease_ms now : Z) : res dict :=
  _ ← check_owner record owner_id fence now;
  next_owner record new_owner_id new_location (now + lease_ms).

Definition takeover_record (record : dict) (new_owner_id new_location : string) (lease_ms now : Z) : res dict :=
  expires ← dget_req record "expires_at_ms";
  expires ← as_num expires;
  _ ← raise_if (now <? expires) (CatalogConflict "dataset owner lease is still live");
  next_owner record new_owner_id new_location (now + lease_ms).

Definition renew_record (record : dict) (owner_id : string) (fence lease_ms now : Z) : res dict :=
  _ ← check_owner record owner_id fence now;
  Ok (<["expires_at_ms" := JInt (now + lease_ms)]> record).

(** What one sequence number stands for in every region. *)
Definition generation_identity (d : generation_descriptor) : json :=
  JObj (mk_dict [("generation_id", JStr (gd_generation_id d)); ("produced_at_ms", JInt (gd_produced_at_ms d));
                 ("objects", JList (map content_entry (all_objects d)))]).

(** The checks of [advertise] against the replica advertised so far. *)
Definition check_current (current : option json) (d : generation_descriptor) (value : json) : res unit :=
  match current with
  | None | Some JNull => Ok tt
  | Some v =>
      o ← as_obj v;
      s ← dget_req o "sequence";
      s ← as_num s;
      _ ← raise_if (gd_sequence d <? s) (CatalogConflict "replica generation would move backwards");
      raise_if ((s =? gd_sequence d) && negb (bool_decide (v = value)))
        (CatalogConflict "generation sequence already identifies different content")
  end.

Definition advertise_record (record : dict) (r : verified_replica) (owner_id : string) (fence now : Z) : res dict :=
  let d := vr_descriptor r in
  _ ← check_owner record owner_id fence now;
  replicas ← dget_req record "replicas"; replicas ← attr_obj replicas;
  generations ← dget_req record "generations"; generations ← attr_obj generations;
  let value := JObj (generation_to_dict d) in
  let identity := generation_identity d in
  let known := dget generations (pretty (gd_sequence d)) JNull in
  _ ← raise_if (negb (bool_decide (known = JNull)) && negb (bool_decide (known = identity)))
        (CatalogConflict "generation sequence differs from another regional replica");
  _ ← check_current (replicas !! vr_storage_profile r) d value;
  Ok (<["replicas" := JObj (<[vr_storage_profile r := value]> replicas)]>
      (<["generations" := JObj (<[pretty (gd_sequence d) := identity]> generations)]> record)).

Section catalog.
Context `{HEnv : Env} `{HKey : ReceiptKey} (c : catalog).

Definition fnow : M fworld Z := fun w => (Ok (clock (fw_ticks w)), FWorld (fw_stores w) (S (fw_ticks w))).
Definition fnow_or (now : option Z) : M fworld Z := match now with Some n => mret n | None => fnow end.

(** The checks of a decoded record: its version, its dataset and its tenant. *)
Definition validated_record (dataset_id : string) (value : json) : res dict :=
  match value with
  | JObj record =>
      _ ← raise_if (negb (eq_num (dget record "version" JNull) 1)
                    || negb (bool_decide (dget record "dataset_id" JNull = JStr dataset_id)))
            (ValueError "invalid durable catalog record");
      policy ← dataset_policy (ct_placement c) dataset_id;
      tenant ← get_str record "tenant_id" "";
      _ ← validate_task_tenant (ct_placement c) tenant policy;
      Ok record
  | _ => Err (ValueError "invalid durable catalog record")
  end.

(** [_read] *)
Definition read_record (dataset_id : string) : M fworld (blob * dict) :=
  raw ← catch (on (ct_store c) (get (catalog_key dataset_id) 0 None))
    (fun e => match e with
      | ObjectNotFound _ => raise (CatalogConflict (fmt ["catalog dataset is not registered: "; dataset_id]))
      | e => raise e
      end);
  record ← lift (value ← parse_json raw; validated_record dataset_id value);
  mret (raw, record).

(** [get] *)
Definition get_record (dataset_id : string) : M fworld dict := rr ← read_record dataset_id; mret rr.2.

Definition record_le (a b : string * dict) : Prop := (a.1 ≤ b.1)%string.
#[global] Instance record_le_dec a b : Decision (record_le a b).
Proof. unfold record_le. apply _. Defined.

Definition read_listed (acc : list (string * dict)) (item : object_stat) : M fworld (list (string * dict)) :=
  raw ← on (ct_store c) (get (os_key item) 0 None);
  value ← lift (parse_json raw);
  match value with
  | JObj record =>
      match dget record "dataset_id" JNull with
      | JStr dataset_id =>
          record ← lift (validated_record dataset_id (JObj record)); mret (acc ++ [(dataset_id, record)])
      | _ => raise (ValueError "invalid durable catalog record")
      end
  | _ => raise (ValueError "invalid durable catalog record")
  end.

(** [list_records], each record with its dataset id. *)
Definition list_records : M fworld (list (string * dict)) :=
  items ← on (ct_store c) (list_ DATASETS_PREFIX);
  records ← foldM read_listed [] items;
  mret (merge_sort record_le records).

(** [_commit] *)
Definition commit (dataset_id : string) (expected : option blob) (record : dict) : M fworld dict :=
  swapped ← on (ct_store c) (compare_and_swap (catalog_key dataset_id) expected (BJson (JObj record)));
  if (swapped : bool) then mret record
  else raise (CatalogConflict "catalog record changed concurrently; reload before retrying").

Definition create (dataset_id owner_id owner_location : string) (lease_ms freshness_target_ms : Z) (now_ms : option Z)
  : M fworld dict :=
  policy ← lift (dataset_policy (ct_placement c) dataset_id);
  lift (positive lease_ms "lease_ms");;
  lift (positive freshness_target_ms "freshness_target_ms");;
  lift (raise_if (negb (truthy_str owner_id)) (ValueError "catalog owner must be non-empty"));;
  lift (raise_if (negb (bool_decide (owner_location ∈ po_residency_locations policy)))
          (residency "owner location is outside the boundary"));;
  now ← fnow_or now_ms;
  commit dataset_id None (created_record policy dataset_id owner_id owner_location lease_ms freshness_target_ms now).

Definition handover (dataset_id owner_id : string) (fence : Z) (new_owner_id new_location : string) (lease_ms : Z)
    (now_ms : option Z) : M fworld dict :=
  policy ← lift (dataset_policy (ct_placement c) dataset_id);
  lift (positive lease_ms "lease_ms");;
  lift (raise_if (negb (truthy_str new_owner_id) || String.eqb new_owner_id owner_id)
          (ValueError "handover requires a different non-empty owner"));;
  lift (raise_if (negb (bool_decide (new_location ∈ po_residency_locations policy)))
          (residency "handover target is outside the boundary"));;
  now ← fnow_or now_ms;
  rr ← read_record dataset_id;
  record ← lift (handover_record rr.2 owner_id fence new_owner_id new_location lease_ms now);
  commit dataset_id (Some rr.1) record.

Definition takeover (dataset_id new_owner_id new_location : string) (lease_ms : Z) (now_ms : option Z) : M fworld dict :=
  policy ← lift (dataset_policy (ct_placement c) dataset_id);
  lift (positive lease_ms "lease_ms");;
  lift (raise_if (negb (truthy_str new_owner_id)) (ValueError "takeover requires a non-empty owner"));;
  lift (raise_if (negb (bool_decide (new_location ∈ po_residency_locations policy)))
          (residency "takeover target is outside the boundary"));;
  now ← fnow_or now_ms;
  rr ← read_record dataset_id;
  record ← lift (takeover_record rr.2 new_owner_id new_location lease_ms now);
  commit dataset_id (Some rr.1) record.

Definition renew (dataset_id owner_id : string) (fence lease_ms : Z) (now_ms : option Z) : M fworld dict :=
  lift (dataset_policy (ct_placement c) dataset_id);;
  lift (positive lease_ms "lease_ms");;
  now ← fnow_or now_ms;
  rr ← read_record dataset_id;
  record ← lift (renew_record rr.2 owner_id fence lease_ms now);
  commit dataset_id (Some rr.1) record.

(** The checks of [advertise] before the record is read. *)
Definition check_receipt (r : verified_replica) : res unit :=
  let d := vr_descriptor r in
  _ ← raise_if (negb (String.eqb (vr_proof r) (receipt_proof d (vr_storage_profile r))))
        (CatalogConflict "replica receipt was not issued by this regional verifier process");
  policy ← dataset_policy (ct_placement c) (gd_dataset_id d);
  raise_if (negb (bool_decide (vr_storage_profile r ∈ publication_chain policy))
            || existsb (fun o => negb (String.eqb (or_store_profile o) (vr_storage_profile r))) (all_objects d))
    (residency "verified replica does not match the publication chain").

Definition advertise (r : verified_replica) (owner_id : string) (fence : Z) (now_ms : option Z) : M fworld dict :=
  lift (check_receipt r);;
  now ← fnow_or now_ms;
  lift (raise_if (now <? gd_produced_at_ms (vr_descriptor r)) (ValueError "generation timestamp cannot be in the future"));;
  rr ← read_record (gd_dataset_id (vr_descriptor r));
  record ← lift (advertise_record rr.2 r owner_id fence now);
  commit (gd_dataset_id (vr_descriptor r)) (Some rr.1) record.

(** [resolve] *)
Definition resolve (dataset_id endpoint_id : string) (now_ms : option Z) : M fworld dict :=
  policy ← lift (dataset_policy (ct_placement c) dataset_id);
  lift (raise_if (negb (bool_decide (endpoint_id ∈ po_serving_endpoints policy)))
          (residency "endpoint is not assigned to this dataset"));;
  endpoint ← lift (of_option (KeyError endpoint_id) (pc_serving_endpoints (ct_placement c) !! endpoint_id));
  record ← get_record dataset_id;
  replicas ← lift (v ← dget_req record "replicas"; attr_obj v);
  match dget replicas (se_storage_profile endpoint) JNull with
  | JNull => raise (CatalogConflict "regional replica has no complete generation")
  | replica =>
      now ← fnow_or now_ms;
      produced ← lift (o ← as_obj replica; v ← dget_req o "produced_at_ms"; as_num v);
      target ← lift (dget_req record "freshness_target_ms");
      target_ms ← lift (as_num target);
      mret (mk_dict [("dataset_id", JStr dataset_id); ("endpoint", JStr (se_url endpoint));
        ("location", JStr (se_location endpoint)); ("storage_profile", JStr (se_storage_profile endpoint));
        ("generation", replica); ("stale", JBool (target_ms <? now - produced)); ("freshness_target_ms", target)])
  end.
End catalog.

(** ** The coordinator of one regional Manager *)

Record regional_coordinator := Coordinator {
  co_catalog : catalog;
  co_verifier : verifier;
  co_store : string;
  co_owner_id : string;
  co_owner_location : string;
  co_storage_profile : string;
  co_lease_ms : Z;
}.

(** [FederatedPublicationCoordinator.__init__] *)
Definition make_coordinator (cat : catalog) (v : verifier) (store owner_id owner_location storage_profile : string)
    (lease_ms : Z) : res regional_coordinator :=
  _ ← raise_if (negb (truthy_str owner_id) || negb (truthy_str owner_location) || negb (truthy_str storage_profile))
        (ValueError "federation requires Manager, location and storage profile identifiers");
  _ ← positive lease_ms "lease_ms";
  Ok (Coordinator cat v store owner_id owner_location storage_profile lease_ms).

(** The documents and keys a publication adds to the local store. *)
Definition snapshot_doc (m : snapshot_manifest) : blob := BJson (JObj (manifest_to_dict m)).
Definition snapshot_digest (m : snapshot_manifest) : string := sha256_hex (blob_bytes (snapshot_doc m)).
Definition fed_snapshot_key (m : snapshot_manifest) : string :=
  fmt ["_control/federation/snapshots/"; sha256_hex (sm_dataset_id m); "/"; snapshot_digest m; ".json"].
Definition fed_manifest_key (m : snapshot_manifest) : string :=
  fmt ["_control/federation/manifests/"; sha256_hex (sm_dataset_id m); "/"; sha256_hex (sm_generation_id m); "/";
       snapshot_digest m; ".json"].
Definition zeros64 : string := "0000000000000000000000000000000000000000000000000000000000000000".

Section coordinator.
Context `{HEnv : Env} `{HKey : ReceiptKey} (co : regional_coordinator).

(** [_object_reference]: the size and digest of the stored bytes. *)
Definition reference_of_object (key : string) : M fworld object_reference :=
  contents ← catch (on (co_store co) (get key 0 None))
    (fun e => match e with
      | ObjectNotFound _ => raise (CatalogConflict (fmt ["published object is missing: "; key]))
      | e => raise e
      end);
  lift (make_reference (co_storage_profile co) key (blob_size contents) (sha256_hex (blob_bytes contents))).

Definition reference_metadata (refs : list object_reference) (key : string) : M fworld (list object_reference) :=
  r ← reference_of_object key; mret (refs ++ [r]).

(** [_descriptor] *)
Definition describe (m : snapshot_manifest) : M fworld generation_descriptor :=
  lift (raise_if (negb (truthy_str (sm_dataset_id m)) || negb (truthy_str (sm_generation_id m))
                  || (sm_published_at_ms m <? 1) || (sm_produced_at_ms m <? 1))
          (ValueError "federated publication requires durable generation metadata"));;
  on (co_store co) (put_blob_if_absent (fed_snapshot_key m) (snapshot_doc m) (Some (blob_size (snapshot_doc m))));;
  splits ← lift (res_map (fun s => make_reference (co_storage_profile co) (sr_object_key s) (sr_size_bytes s) (sr_content_hash s))
                   (sm_splits m));
  metadata ← foldM reference_metadata [] (sm_metadata_keys m);
  snapshot_ref ← lift (make_reference (co_storage_profile co) (fed_snapshot_key m) (blob_size (snapshot_doc m)) (snapshot_digest m));
  placeholder ← lift (make_reference (co_storage_profile co) (fed_manifest_key m) 0 zeros64);
  d ← lift (make_descriptor (sm_dataset_id m) (sm_generation_id m) (sm_published_at_ms m) (sm_produced_at_ms m)
              (splits ++ metadata ++ [snapshot_ref]) placeholder (fed_snapshot_key m));
  let doc := BJson (JObj (manifest_document d)) in
  on (co_store co) (put_blob_if_absent (fed_manifest_key m) doc (Some (blob_size doc)));;
  manifest_ref ← lift (make_reference (co_storage_profile co) (fed_manifest_key m) (blob_size doc) (sha256_hex (blob_bytes doc)));
  lift (make_descriptor (gd_dataset_id d) (gd_generation_id d) (gd_sequence d) (gd_produced_at_ms d) (gd_objects d)
          manifest_ref (fed_snapshot_key m)).

(** [int(record["fence"])] *)
Definition record_fence (record : dict) : res Z := req_int record "fence".

Definition foreign (record : dict) : res bool :=
  owner ← dget_req record "owner_id";
  if negb (bool_decide (owner = JStr (co_owner_id co))) then Ok true else
  location ← dget_req record "owner_location";
  Ok (negb (bool_decide (location = JStr (co_owner_location co)))).

(** [require_owner] *)
Definition require_owner (dataset_id : string) : M fworld dict :=
  record ← get_record (co_catalog co) dataset_id;
  other ← lift (foreign record);
  lift (raise_if other (CatalogConflict "dataset is owned by another regional Manager"));;
  fence ← lift (record_fence record);
  now ← fnow;
  lift (check_owner record (co_owner_id co) fence now);;
  mret record.

(** [publish] *)
Definition publish (m : snapshot_manifest) : M fworld dict :=
  policy ← lift (dataset_policy (ct_placement (co_catalog co)) (sm_dataset_id m));
  lift (validate_task_tenant (ct_placement (co_catalog co)) (sm_tenant_id m) policy);;
  record ← require_owner (sm_dataset_id m);
  d ← describe m;
  receipt ← verify_replica (co_verifier co) d (co_storage_profile co);
  fence ← lift (record_fence record);
  advertise (co_catalog co) receipt (co_owner_id co) fence None.

(** The object a descriptor names as its serving snapshot. *)
Definition snapshot_reference (value : json) : res (generation_descriptor * object_reference) :=
  d ← generation_from_dict value;
  _ ← raise_if (negb (truthy_str (gd_snapshot_key d))) (CatalogConflict "regional generation has no serving snapshot");
  r ← of_option (RuntimeError "StopIteration") (snd <$> list_find (fun r => or_key r = gd_snapshot_key d) (gd_objects d));
  _ ← raise_if (negb (String.eqb (or_store_profile r) (co_storage_profile co)))
        (residency "snapshot belongs to another regional store");
  _ ← raise_if (MANIFEST_LIMIT <? or_size_bytes r) (ValueError "serving snapshot exceeds the 4 MiB metadata limit");
  Ok (d, r).

Definition decode_snapshot (dataset_id table : string) (epoch : Z) (d : generation_descriptor) (r : object_reference) (raw : blob)
  : res (option snapshot_manifest) :=
  _ ← raise_if (negb (blob_size raw =? or_size_bytes r) || negb (String.eqb (sha256_hex (blob_bytes raw)) (or_sha256 r)))
        (CatalogConflict "regional serving snapshot verification failed");
  value ← parse_json raw;
  doc ← as_obj value;
  m ← manifest_from_dict doc;
  _ ← raise_if (negb (String.eqb (sm_dataset_id m) dataset_id) || negb (String.eqb (sm_table m) table)
                || negb (String.eqb (sm_generation_id m) (gd_generation_id d))
                || negb (sm_produced_at_ms m =? gd_produced_at_ms d))
        (CatalogConflict "regional serving snapshot identity differs");
  Ok (if truthy_int epoch && negb (sm_epoch m =? epoch) then None else Some m).

(** [snapshot] *)
Definition snapshot (dataset_id table : string) (epoch : Z) : M fworld (option snapshot_manifest) :=
  record ← get_record (co_catalog co) dataset_id;
  replicas ← lift (v ← dget_req record "replicas"; attr_obj v);
  match dget replicas (co_storage_profile co) JNull with
  | JNull => mret None
  | value =>
      dr ← lift (snapshot_reference value);
      raw ← on (co_store co) (get_prefix (or_key dr.2) (or_size_bytes dr.2 + 1));
      lift (decode_snapshot dataset_id table epoch dr.1 dr.2 raw)
  end.

(** The egress event of one replication. *)
Definition replication_event (dataset_id tenant_id : string) (d : generation_descriptor) (target source_location target_location : string)
  : egress_event :=
  EgressEvent (fmt ["replicate:"; dataset_id; ":"; gd_generation_id d; ":"; target]) (gd_produced_at_ms d) tenant_id dataset_id
    "replication" source_location target_location "replication"
    (foldr (fun r acc => or_size_bytes r + acc) 0 (all_objects d)).

Definition store_location (profile : string) : res string :=
  s ← of_option (KeyError profile) (pc_stores (ct_placement (co_catalog co)) !! profile); Ok (sp_location s).

(** One target of [replicate_owned], unless it already has the generation. *)
Definition replicate_target (dataset_id : string) (record replicas : dict) (policy : materializer_policy) (d : generation_descriptor)
    (completed : Z) (target : string) : M fworld Z :=
  done ← lift (match dget replicas target JNull with
               | JNull => Ok false
               | current => o ← as_obj current; s ← dget_req o "sequence"; s ← as_num s; Ok (gd_sequence d <=? s)
               end);
  if (done : bool) then mret completed else
  receipt ← replicate (co_verifier co) d target;
  source_location ← lift (store_location (po_required_storage_profile policy));
  target_location ← lift (store_location target);
  (if String.eqb source_location target_location then mret tt
   else
     tenant ← lift (get_str record "tenant_id" "");
     on (co_store co) (record_event (replication_event dataset_id tenant d target source_location target_location)));;
  fence ← lift (record_fence record);
  advertise (co_catalog co) receipt (co_owner_id co) fence None;;
  mret (completed + 1).

Definition replicate_record (completed : Z) (entry : string * dict) : M fworld Z :=
  other ← lift (foreign entry.2);
  if (other : bool) then mret completed else
  policy ← lift (dataset_policy (ct_placement (co_catalog co)) entry.1);
  replicas ← lift (v ← dget_req entry.2 "replicas"; attr_obj v);
  match dget replicas (po_required_storage_profile policy) JNull with
  | JNull => mret completed
  | source =>
      d ← lift (generation_from_dict source);
      foldM (replicate_target entry.1 entry.2 replicas policy d) completed (po_replica_storage_profiles policy)
  end.

(** [replicate_owned] *)
Definition replicate_owned : M fworld Z :=
  records ← list_records (co_catalog co); foldM replicate_record 0 records.

Definition renew_listed (renewed : list dict) (entry : string * dict) : M fworld (list dict) :=
  other ← lift (foreign entry.2);
  if (other : bool) then mret renewed else
  fence ← lift (record_fence entry.2);
  r ← renew (co_catalog co) entry.1 (co_owner_id co) fence (co_lease_ms co) None;
  mret (renewed ++ [r]).

(** [renew_owned] *)
Definition renew_owned : M fworld (list dict) :=
  records ← list_records (co_catalog co); foldM renew_listed [] records.
End coordinator.
