(* ===== verification/FederationProps.v ===== *)
(** * The catalog of published generations: ownership, history and serving

    What every history of catalog operations by any number of Managers leaves in the
    record of a dataset, what a published generation guarantees, and that a published
    snapshot is the one served. *)

From S2P Require Import Prelude PyText Sha256 Json JsonCanon ArtifactStore World Contract Sources S3Auth WorkQueue Placement PlacementProps Egress Federation.
From S2P Require Import QueueStore QueueHistory.
Import MemoryStore StreamOps.

(** ** Stores *)

Lemma store_at_on {A} h (m : M mem A) w g :
  store_at g (on h m w).2 = if bool_decide (g = h) then (m (store_at h w)).2 else store_at g w.
Proof.
  unfold on, store_at. cbn. case_bool_decide as Hg.
  - by subst; rewrite lookup_insert_eq.
  - by rewrite lookup_insert_ne.
Qed.

(** Computations that leave every store alone. *)
Definition freads {A} (m : M fworld A) : Prop := forall w h, store_at h (m w).2 = store_at h w.

Lemma freads_pure {A} (m : M fworld A) : (forall w, (m w).2 = w) -> freads m.
Proof. intros H w h. by rewrite H. Qed.

Lemma freads_bind {A B} (m : M fworld A) (f : A -> M fworld B) : freads m -> (forall a, freads (f a)) -> freads (m ≫= f).
Proof.
  intros Hm Hf w h. unfold mbind, M_bind. specialize (Hm w h). destruct (m w) as [[a|e] w1]; cbn in *; [by rewrite Hf|done].
Qed.

Lemma freads_catch {A} (m : M fworld A) k : freads m -> (forall e, freads (k e)) -> freads (catch m k).
Proof.
  intros Hm Hk w h. unfold catch. specialize (Hm w h). destruct (m w) as [[a|e] w1]; cbn in *; [done|by rewrite Hk].
Qed.

Lemma freads_foldM {A B} (f : B -> A -> M fworld B) l : (forall b a, freads (f b a)) -> forall b, freads (foldM f b l).
Proof. intros Hf. induction l as [|a l IH]; intros b; [by apply freads_pure|]. by apply freads_bind. Qed.

Lemma freads_on {A} h (m : M mem A) : (forall s, (m s).2 = s) -> freads (on h m).
Proof. intros Hm w g. rewrite store_at_on, Hm. case_bool_decide; by subst. Qed.

Lemma freads_lift {A} (r : res A) : freads (lift r).
Proof. by apply freads_pure. Qed.
Lemma freads_ret {A} (a : A) : freads (mret a).
Proof. by apply freads_pure. Qed.
Lemma freads_raise {A} e : freads (raise (A:=A) e).
Proof. by apply freads_pure. Qed.
Lemma freads_fnow_or `{HEnv : Env} n : freads (fnow_or n).
Proof. by destruct n. Qed.
Lemma freads_fnow `{HEnv : Env} : freads fnow.
Proof. done. Qed.
Lemma freads_get h key off len : freads (on h (get key off len)).
Proof. apply freads_on. intros s. apply get_read_only. Qed.
Lemma get_prefix_read_only key n s : (get_prefix key n s).2 = s.
Proof.
  unfold get_prefix, mbind, M_bind. pose proof (get_read_only key 0 None s) as H. by destruct (get key 0 None s) as [[] s'].
Qed.
Lemma freads_get_prefix h key n : freads (on h (get_prefix key n)).
Proof. apply freads_on, get_prefix_read_only. Qed.
Lemma freads_verify h key n d : freads (on h (verify key n d)).
Proof. apply freads_on. intros s. unfold verify, with_key. by destruct (normalize_key key). Qed.
Lemma freads_list h p : freads (on h (list_ p)).
Proof. by apply freads_on. Qed.

#[export] Hint Resolve freads_lift freads_ret freads_raise freads_fnow_or freads_fnow freads_get freads_get_prefix
  freads_verify freads_list : fsp.

(** By structure. *)
Ltac solve_freads :=
  repeat first
    [ solve [eauto with fsp]
    | apply freads_bind; [|intros ?]
    | apply freads_catch; [|intros ?]
    | apply freads_foldM; intros ? ?
    | case_scrut ].

(** ** What [get_prefix] is *)

(** The prefix read agrees with the store's ranged read. *)
Lemma get_prefix_bytes key k n s b : normalize_key key = Ok k -> s !! k = Some b -> 0 <= n ->
  exists x y, get_prefix key n s = (Ok x, s) /\ get key 0 (Some n) s = (Ok y, s) /\ blob_bytes x = blob_bytes y.
Proof.
  intros Hk Hb Hn. unfold get_prefix, mbind, M_bind. rewrite (get_whole _ k s Hk), Hb. cbn.
  do 2 eexists. split; [done|]. split.
  { unfold get. rewrite (with_key_Ok _ k) by done. rewrite Hb. done. }
  destruct (Z.leb_spec (blob_size b) n) as [Hle|Hgt]; [|done]. cbn [blob_bytes].
  rewrite (py_slice_take _ 0 n) by lia. replace (str_drop (Z.to_nat 0) (blob_bytes b)) with (blob_bytes b) by (by destruct (blob_bytes b)).
  unfold blob_size in Hle.
  rewrite <- (str_take_min (Z.to_nat n) (blob_bytes b)).
  replace (Z.to_nat n `min` String.length (blob_bytes b))%nat with (String.length (blob_bytes b)) by lia. pose proof (str_take_drop (String.length (blob_bytes b)) (blob_bytes b)) as Ht.
  pose proof (str_drop_length (String.length (blob_bytes b)) (blob_bytes b)) as Hl. rewrite Nat.sub_diag in Hl.
  destruct (str_drop _ (blob_bytes b)); [|done]. by rewrite app_nil_r_s in Ht.
Qed.

(** ** The record of a dataset *)

(** The fields of a record as the catalog writes it. *)
Record catalog_view := CatalogView {
  cv_owner : string;
  cv_location : string;
  cv_fence : Z;
  cv_expires : Z;
  cv_freshness : Z;
  cv_replicas : dict;
  cv_generations : dict;
  cv_tenant : string;
}.

Definition has_view (dataset_id : string) (d : dict) (v : catalog_view) : Prop :=
  d !! "version" = Some (JInt 1) /\ d !! "dataset_id" = Some (JStr dataset_id) /\
  d !! "owner_id" = Some (JStr (cv_owner v)) /\ d !! "owner_location" = Some (JStr (cv_location v)) /\
  d !! "fence" = Some (JInt (cv_fence v)) /\ d !! "expires_at_ms" = Some (JInt (cv_expires v)) /\
  d !! "freshness_target_ms" = Some (JInt (cv_freshness v)) /\
  d !! "replicas" = Some (JObj (cv_replicas v)) /\ d !! "generations" = Some (JObj (cv_generations v)) /\
  d !! "tenant_id" = Some (JStr (cv_tenant v)).

(** A generation a region advertises, with the content its sequence stands for. *)
Definition advertised (policy : materializer_policy) (dataset_id : string) (generations : dict) (profile : string) (v : json) : Prop :=
  exists d, v = JObj (generation_to_dict d) /\ gd_dataset_id d = dataset_id /\ profile ∈ publication_chain policy /\
    Forall (fun r => or_store_profile r = profile) (all_objects d) /\
    generations !! pretty (gd_sequence d) = Some (generation_identity d).

Record view_ok (policy : materializer_policy) (dataset_id : string) (v : catalog_view) : Prop := {
  vo_owner : cv_owner v <> "";
  vo_location : cv_location v ∈ po_residency_locations policy;
  vo_fence : 1 <= cv_fence v;
  vo_tenant : cv_tenant v = po_tenant_id policy;
  vo_generations : forall k x, cv_generations v !! k = Some x -> exists d, x = generation_identity d /\ k = pretty (gd_sequence d);
  vo_replicas : forall p x, cv_replicas v !! p = Some x -> advertised policy dataset_id (cv_generations v) p x;
}.

(** The sequence number of an advertised value. *)
Definition sequence_of (v : json) : option Z :=
  match v with JObj d => match d !! "sequence" with Some (JInt n) => Some n | _ => None end | _ => None end.

(** The order of records in time. *)
Record view_le (v v' : catalog_view) : Prop := {
  le_fence : cv_fence v <= cv_fence v';
  le_owner : cv_fence v = cv_fence v' -> cv_owner v' = cv_owner v /\ cv_location v' = cv_location v;
  le_generations : forall k x, cv_generations v !! k = Some x -> cv_generations v' !! k = Some x;
  le_replicas : forall p x, cv_replicas v !! p = Some x ->
    exists x' n n', cv_replicas v' !! p = Some x' /\ sequence_of x = Some n /\ sequence_of x' = Some n' /\
      n <= n' /\ (n = n' -> x' = x);
}.

Lemma descriptor_sequence d : generation_to_dict d !! "sequence" = Some (JInt (gd_sequence d)).
Proof. unfold generation_to_dict. rewrite lookup_opt_field_ne by discriminate. done. Qed.

Lemma sequence_of_descriptor d : sequence_of (JObj (generation_to_dict d)) = Some (gd_sequence d).
Proof. unfold sequence_of. by rewrite descriptor_sequence. Qed.

Section order.
Context (policy : materializer_policy) (dataset_id : string).

Lemma view_le_refl v : view_ok policy dataset_id v -> view_le v v.
Proof.
  intros Hv. split; [lia|done|done|]. intros p x Hp. destruct (vo_replicas _ _ _ Hv p x Hp) as (d & -> & _).
  exists (JObj (generation_to_dict d)), (gd_sequence d), (gd_sequence d). rewrite sequence_of_descriptor. by split_and!.
Qed.

Lemma view_le_trans u v w : view_le u v -> view_le v w -> view_le u w.
Proof.
  intros [F1 O1 G1 R1] [F2 O2 G2 R2]. split; [lia| |eauto|].
  - intros Heq. assert (cv_fence u = cv_fence v) as Hu by lia. assert (cv_fence v = cv_fence w) as Hv by lia.
    destruct (O2 Hv) as [Ha Hb], (O1 Hu) as [Hc Hd]. split; congruence.
  - intros p x Hp. destruct (R1 p x Hp) as (y & n & m & Hy & Hn & Hm & Hle & He).
    destruct (R2 p y Hy) as (z & m' & k & Hz & Hm' & Hk & Hle' & He'). assert (m' = m) as -> by congruence.
    exists z, n, k. split_and!; [done..|lia|]. intros ->. assert (m = k) as -> by lia. rewrite He' by done. by apply He.
Qed.
End order.

(** ** Steps of the catalog *)

(** One atomic effect on the catalog store of some Manager.  [record] is what that
    Manager decoded from the object [raw] it read at some earlier moment: other
    Managers may have changed the record in between. *)
Section steps.
Context `{HKey : ReceiptKey} (c : catalog) (dataset_id : string).

Abbreviation key := (catalog_key dataset_id).
Abbreviation swap expected record s s' :=
  (exists b, compare_and_swap key expected (BJson (JObj record)) s = (Ok b, s')).

Inductive catalog_step (policy : materializer_policy) : mem -> mem -> Prop :=
| step_create owner location lease freshness now s s' :
    owner <> "" -> location ∈ po_residency_locations policy ->
    swap None (created_record policy dataset_id owner location lease freshness now) s s' ->
    catalog_step policy s s'
| step_handover raw record owner fence new_owner location lease now record' s s' :
    raw = BJson (JObj record) -> new_owner <> "" -> location ∈ po_residency_locations policy ->
    handover_record record owner fence new_owner location lease now = Ok record' ->
    swap (Some raw) record' s s' -> catalog_step policy s s'
| step_takeover raw record new_owner location lease now record' s s' :
    raw = BJson (JObj record) -> new_owner <> "" -> location ∈ po_residency_locations policy ->
    takeover_record record new_owner location lease now = Ok record' ->
    swap (Some raw) record' s s' -> catalog_step policy s s'
| step_renew raw record owner fence lease now record' s s' :
    raw = BJson (JObj record) -> renew_record record owner fence lease now = Ok record' ->
    swap (Some raw) record' s s' -> catalog_step policy s s'
| step_advertise raw record r owner fence now record' s s' :
    raw = BJson (JObj record) -> gd_dataset_id (vr_descriptor r) = dataset_id -> check_receipt c r = Ok tt ->
    advertise_record record r owner fence now = Ok record' ->
    swap (Some raw) record' s s' -> catalog_step policy s s'
| step_other s s' : s' !! key = s !! key -> catalog_step policy s s'.
End steps.

Lemma catalog_key_normal dataset_id : normalize_key (catalog_key dataset_id) = Ok (catalog_key dataset_id).
Proof.
  apply normalize_safe. exists ["_control"; "federation"; "datasets"; sha256_hex dataset_id +:+ ".json"].
  split_and!; [done| |reflexivity].
  repeat apply Forall_cons_2; [by split_and!..|apply sha256_json_clean|constructor].
Qed.

(** ** What each update does to the fields *)

Ltac unfold_view := unfold has_view in *; cbn [cv_owner cv_location cv_fence cv_expires cv_freshness cv_replicas cv_generations cv_tenant] in *.

Section updates.
Context (dataset_id : string) (d : dict) (v : catalog_view) (Hd : has_view dataset_id d v).

Lemma check_owner_inv owner fence now u : check_owner d owner fence now = Ok u ->
  cv_owner v = owner /\ cv_fence v = fence /\ now < cv_expires v.
Proof.
  destruct Hd as (_ & _ & Ho & _ & Hf & He & _). unfold check_owner, dget_req. rewrite Ho, Hf, He.
  cbn [of_option mbind res_bind as_num]. rewrite eq_num_int. case_bool_decide as H1; cbn [negb]; [|done]. injection H1 as ->.
  destruct (Z.eqb_spec (cv_fence v) fence) as [->|]; cbn [negb]; [|done].
  destruct (Z.leb_spec (cv_expires v) now); [done|]. by intros _.
Qed.

Definition with_owner (owner location : string) (expires : Z) : catalog_view :=
  CatalogView owner location (cv_fence v + 1) expires (cv_freshness v) (cv_replicas v) (cv_generations v) (cv_tenant v).

Lemma next_owner_view owner location expires d' :
  next_owner d owner location expires = Ok d' -> has_view dataset_id d' (with_owner owner location expires).
Proof.
  destruct Hd as (H1 & H2 & _ & _ & Hf & _ & H7 & H8 & H9 & H10). unfold next_owner, dget_req. rewrite Hf. cbn.
  intros [= <-]. unfold_view. dict_lookup. by split_and!.
Qed.

Definition with_lease_until (expires : Z) : catalog_view :=
  CatalogView (cv_owner v) (cv_location v) (cv_fence v) expires (cv_freshness v) (cv_replicas v) (cv_generations v) (cv_tenant v).

Lemma renew_view owner fence lease now d' :
  renew_record d owner fence lease now = Ok d' -> has_view dataset_id d' (with_lease_until (now + lease)).
Proof.
  unfold renew_record. intros H. invert_Ok H. injection H as <-.
  destruct Hd as (H1 & H2 & H3 & H4 & H5 & _ & H7 & H8 & H9 & H10). unfold_view. dict_lookup. by split_and!.
Qed.

Definition with_replica (r : verified_replica) : catalog_view :=
  CatalogView (cv_owner v) (cv_location v) (cv_fence v) (cv_expires v) (cv_freshness v)
    (<[vr_storage_profile r := JObj (generation_to_dict (vr_descriptor r))]> (cv_replicas v))
    (<[pretty (gd_sequence (vr_descriptor r)) := generation_identity (vr_descriptor r)]> (cv_generations v)) (cv_tenant v).

Lemma advertise_view r owner fence now d' :
  advertise_record d r owner fence now = Ok d' -> has_view dataset_id d' (with_replica r) /\
  (let known := dget (cv_generations v) (pretty (gd_sequence (vr_descriptor r))) JNull in
   known = JNull \/ known = generation_identity (vr_descriptor r)) /\
  check_current (cv_replicas v !! vr_storage_profile r) (vr_descriptor r) (JObj (generation_to_dict (vr_descriptor r))) = Ok tt /\
  cv_owner v = owner /\ cv_fence v = fence /\ now < cv_expires v.
Proof.
  unfold advertise_record. intros H. apply bind_Ok in H as (u & Hown & H). apply check_owner_inv in Hown.
  destruct Hd as (H1 & H2 & H3 & H4 & H5 & H6 & H7 & H8 & H9 & H10).
  unfold dget_req in H. rewrite H8, H9 in H. cbn [of_option mbind res_bind attr_obj] in H.
  apply bind_Ok in H as (u1 & Hk & H). apply bind_Ok in H as ([] & Hc & H). injection H as <-.
  split; [unfold_view; dict_lookup; by split_and!|]. split; [|done].
  apply raise_if_Ok in Hk. cbv zeta.
  destruct (decide (dget (cv_generations v) (pretty (gd_sequence (vr_descriptor r))) JNull = JNull)) as [He|He]; [by left|right].
  rewrite (bool_decide_eq_false_2 _ He) in Hk. cbn in Hk. apply negb_false_iff in Hk. by apply bool_decide_eq_true_1 in Hk.
Qed.
End updates.

(** ** Every step keeps the record in order *)

Section history.
Context `{HKey : ReceiptKey} (c : catalog) (dataset_id : string) (policy : materializer_policy).
Context (Hpolicy : dataset_policy (ct_placement c) dataset_id = Ok policy).

Abbreviation key := (catalog_key dataset_id).

Definition catalog_ok (s : mem) : Prop :=
  forall b, s !! key = Some b -> exists d v, b = BJson (JObj d) /\ has_view dataset_id d v /\ view_ok policy dataset_id v.

(** The record went from one version to a later one. *)
Definition catalog_le (s s' : mem) : Prop :=
  forall d v, s !! key = Some (BJson (JObj d)) -> has_view dataset_id d v ->
  exists d' v', s' !! key = Some (BJson (JObj d')) /\ has_view dataset_id d' v' /\ view_le v v'.

Lemma has_view_inj d v v' : has_view dataset_id d v -> has_view dataset_id d v' -> v = v'.
Proof. destruct v, v'. unfold_view. intros. destruct_and!. by simplify_eq. Qed.

Lemma swap_step expected record s s' b :
  compare_and_swap key expected (BJson (JObj record)) s = (Ok b, s') ->
  (s !! key = expected /\ s' = <[key := BJson (JObj record)]> s) \/ s' = s.
Proof.
  rewrite (compare_and_swap_spec _ key) by apply catalog_key_normal.
  destruct (decide (s !! key = expected)); intros [= <- <-]; [by left|by right].
Qed.

(** The new record is in order and later than the old one. *)
Definition improves (v : catalog_view) (d' : dict) : Prop :=
  exists v', has_view dataset_id d' v' /\ view_ok policy dataset_id v' /\ view_le v v'.

Lemma next_owner_improves d v owner location expires d' :
  has_view dataset_id d v -> view_ok policy dataset_id v -> owner <> "" -> location ∈ po_residency_locations policy ->
  next_owner d owner location expires = Ok d' -> improves v d'.
Proof.
  intros Hd Hv Ho Hl Hn. exists (with_owner v owner location expires).
  split; [by eapply next_owner_view|]. destruct Hv. split; split; cbn; try done; try lia.
  intros p x Hp. destruct (vo_replicas0 p x Hp) as (g & -> & _).
  exists (JObj (generation_to_dict g)), (gd_sequence g), (gd_sequence g). rewrite sequence_of_descriptor. by split_and!.
Qed.

Lemma renew_improves d v owner fence lease now d' :
  has_view dataset_id d v -> view_ok policy dataset_id v -> renew_record d owner fence lease now = Ok d' -> improves v d'.
Proof.
  intros Hd Hv Hn. exists (with_lease_until v (now + lease)). split; [by eapply renew_view|].
  destruct (view_le_refl _ _ _ Hv), Hv. split; split; cbn; done.
Qed.

Lemma check_current_le d0 d value : check_current (Some (JObj (generation_to_dict d0))) d value = Ok tt ->
  gd_sequence d0 <= gd_sequence d /\ (gd_sequence d0 = gd_sequence d -> JObj (generation_to_dict d0) = value).
Proof.
  unfold check_current. cbn [as_obj mbind res_bind]. unfold dget_req. rewrite descriptor_sequence.
  cbn [of_option as_num mbind res_bind]. intros H. apply bind_Ok in H as (u & H1%raise_if_Ok & H2%raise_if_Ok).
  apply Z.ltb_ge in H1. split; [done|]. intros He. rewrite He, Z.eqb_refl in H2. cbn in H2.
  apply negb_false_iff in H2. by apply bool_decide_eq_true_1 in H2.
Qed.

Lemma check_receipt_chain r : gd_dataset_id (vr_descriptor r) = dataset_id -> check_receipt c r = Ok tt ->
  vr_storage_profile r ∈ publication_chain policy /\
  Forall (fun o => or_store_profile o = vr_storage_profile r) (all_objects (vr_descriptor r)).
Proof.
  intros Hd H. unfold check_receipt in H. apply bind_Ok in H as (u & _ & H). rewrite Hd, Hpolicy in H. cbn in H.
  apply raise_if_Ok, orb_false_iff in H as [H1 H2]. apply negb_false_iff, bool_decide_eq_true_1 in H1. split; [done|].
  apply Forall_forall. intros o Ho. destruct (String.eqb_spec (or_store_profile o) (vr_storage_profile r)) as [|Hne]; [done|].
  enough (existsb (fun o => negb (String.eqb (or_store_profile o) (vr_storage_profile r))) (all_objects (vr_descriptor r)) = true) by congruence.
  apply existsb_exists. exists o. split; [by apply list_elem_of_In|]. apply negb_true_iff. by apply String.eqb_neq.
Qed.

Lemma advertise_improves d v r owner fence now d' :
  has_view dataset_id d v -> view_ok policy dataset_id v ->
  gd_dataset_id (vr_descriptor r) = dataset_id -> check_receipt c r = Ok tt ->
  advertise_record d r owner fence now = Ok d' -> improves v d'.
Proof.
  intros Hd Hv Hds Hr H. destruct (check_receipt_chain r Hds Hr) as [Hchain Hrefs].
  destruct (advertise_view _ _ _ Hd _ _ _ _ _ H) as (Hview & Hknown & Hcur & _). exists (with_replica v r).
  split; [done|]. destruct Hv as [V1 V2 V3 V4 V5 V6]. set (g := vr_descriptor r) in *.
  assert (Hkept : forall k x, cv_generations v !! k = Some x ->
    <[pretty (gd_sequence g) := generation_identity g]> (cv_generations v) !! k = Some x).
  { intros k x Hk. destruct (decide (k = pretty (gd_sequence g))) as [->|]; [|by rewrite lookup_insert_ne].
    rewrite lookup_insert_eq. unfold dget in Hknown. rewrite Hk in Hknown. cbn in Hknown.
    destruct Hknown as [->| ->]; [|done]. by destruct (V5 _ _ Hk) as (? & ? & _). }
  split; split; cbn; fold g; try done; try lia.
  - intros k x Hk. destruct (decide (k = pretty (gd_sequence g))) as [->|].
    + rewrite lookup_insert_eq in Hk. injection Hk as <-. by exists g.
    + rewrite lookup_insert_ne in Hk by done. by apply V5.
  - intros p x Hp. destruct (decide (p = vr_storage_profile r)) as [->|].
    + rewrite lookup_insert_eq in Hp. injection Hp as <-. exists g. split_and!; [done..|]. by rewrite lookup_insert_eq.
    + rewrite lookup_insert_ne in Hp by done. destruct (V6 p x Hp) as (e & -> & E1 & E2 & E3 & E4).
      exists e. split_and!; [done..|]. by apply Hkept.
  - intros p x Hp. destruct (V6 p x Hp) as (e & -> & _). destruct (decide (p = vr_storage_profile r)) as [->|Hne].
    + rewrite Hp in Hcur. destruct (check_current_le _ _ _ Hcur) as [Hle He].
      exists (JObj (generation_to_dict g)), (gd_sequence e), (gd_sequence g). rewrite lookup_insert_eq, !sequence_of_descriptor.
      split_and!; [done..|]. intros Heq. by rewrite (He Heq).
    + exists (JObj (generation_to_dict e)), (gd_sequence e), (gd_sequence e).
      rewrite lookup_insert_ne, sequence_of_descriptor by done. by split_and!.
Qed.

Lemma created_improves owner location lease freshness now :
  owner <> "" -> location ∈ po_residency_locations policy ->
  exists v, has_view dataset_id (created_record policy dataset_id owner location lease freshness now) v /\ view_ok policy dataset_id v.
Proof.
  intros Ho Hl. exists (CatalogView owner location 1 (now + lease) freshness ∅ ∅ (po_tenant_id policy)).
  split; [by split_and!|]. split; cbn; try done.
Qed.

Lemma swap_improves d record s s' :
  catalog_ok s -> (exists b, compare_and_swap key (Some (BJson (JObj d))) (BJson (JObj record)) s = (Ok b, s')) ->
  (forall v, has_view dataset_id d v -> view_ok policy dataset_id v -> improves v record) ->
  catalog_ok s' /\ catalog_le s s'.
Proof.
  intros Hs [b Hb] Himp. destruct (swap_step _ _ _ _ _ Hb) as [[Hk ->]| ->].
  - destruct (Hs _ Hk) as (d0 & v & [= <-] & Hview & Hok). destruct (Himp v Hview Hok) as (v' & Hview' & Hok' & Hle). split.
    + intros b'. rewrite lookup_insert_eq. intros [= <-]. by exists record, v'.
    + intros d1 v1 H1 H2. assert (d1 = d) as -> by congruence. rewrite (has_view_inj _ _ _ H2 Hview).
      exists record, v'. by rewrite lookup_insert_eq.
  - split; [done|]. intros d1 v1 H1 H2. exists d1, v1. split_and!; [done..|].
    destruct (Hs _ H1) as (d2 & v2 & [= <-] & Hv2 & Hok). rewrite (has_view_inj _ _ _ H2 Hv2). by apply (view_le_refl policy dataset_id).
Qed.

Lemma catalog_step_keeps s s' : catalog_ok s -> catalog_step c dataset_id policy s s' -> catalog_ok s' /\ catalog_le s s'.
Proof.
  intros Hs Hstep.
  destruct Hstep as [owner location lease freshness now s s' Ho Hl [b Hb]
    |raw d owner fence new_owner location lease now d' s s' -> Ho Hl Hr Hb
    |raw d new_owner location lease now d' s s' -> Ho Hl Hr Hb
    |raw d owner fence lease now d' s s' -> Hr Hb
    |raw d r owner fence now d' s s' -> Hds Hrc Hr Hb|s s' He].
  - destruct (swap_step _ _ _ _ _ Hb) as [[Hk ->]| ->].
    + destruct (created_improves owner location lease freshness now Ho Hl) as (v & Hv & Hok). split.
      * intros b'. rewrite lookup_insert_eq. intros [= <-]. eauto.
      * intros d1 v1 H1. congruence.
    + split; [done|]. intros d1 v1 H1 H2. exists d1, v1. split_and!; [done..|].
      destruct (Hs _ H1) as (d2 & v2 & [= <-] & Hv2 & Hok). rewrite (has_view_inj _ _ _ H2 Hv2). by apply (view_le_refl policy dataset_id).
  - apply (swap_improves d d'); [done..|]. intros v Hv Hok. unfold handover_record in Hr. invert_Ok Hr.
    by eapply next_owner_improves.
  - apply (swap_improves d d'); [done..|]. intros v Hv Hok. unfold takeover_record in Hr. invert_Ok Hr.
    by eapply next_owner_improves.
  - apply (swap_improves d d'); [done..|]. intros v Hv Hok. by eapply renew_improves.
  - apply (swap_improves d d'); [done..|]. intros v Hv Hok. by eapply advertise_improves.
  - split; [intros b Hb; apply Hs; congruence|]. intros d1 v1 H1 H2. exists d1, v1. split_and!; [congruence|done|].
    destruct (Hs _ H1) as (d2 & v2 & [= <-] & Hv2 & Hok). rewrite (has_view_inj _ _ _ H2 Hv2). by apply (view_le_refl policy dataset_id).
Qed.

Lemma catalog_steps_keep s s' : rtc (catalog_step c dataset_id policy) s s' -> catalog_ok s -> catalog_ok s' /\ catalog_le s s'.
Proof.
  induction 1 as [s|s1 s2 s3 Hstep _ IH]; intros Hs.
  - by apply (catalog_step_keeps s s Hs), step_other.
  - destruct (catalog_step_keeps s1 s2 Hs Hstep) as [H2 Hle]. destruct (IH H2) as [H3 Hle3]. split; [done|].
    intros d v Hd Hv. destruct (Hle d v Hd Hv) as (d' & v' & Hd' & Hv' & Hvle).
    destruct (Hle3 d' v' Hd' Hv') as (d'' & v'' & ? & ? & ?). exists d'', v''. split_and!; [done..|]. by eapply view_le_trans.
Qed.
End history.

(** ** The operations are steps of the catalog *)

Inductive catalog_op :=
| OpCreate (dataset_id owner_id owner_location : string) (lease_ms freshness_target_ms : Z) (now_ms : option Z)
| OpHandover (dataset_id owner_id : string) (fence : Z) (new_owner_id new_location : string) (lease_ms : Z) (now_ms : option Z)
| OpTakeover (dataset_id new_owner_id new_location : string) (lease_ms : Z) (now_ms : option Z)
| OpRenew (dataset_id owner_id : string) (fence lease_ms : Z) (now_ms : option Z)
| OpAdvertise (r : verified_replica) (owner_id : string) (fence : Z) (now_ms : option Z).

Definition op_dataset (op : catalog_op) : string :=
  match op with
  | OpCreate d _ _ _ _ _ | OpHandover d _ _ _ _ _ _ | OpTakeover d _ _ _ _ | OpRenew d _ _ _ _ => d
  | OpAdvertise r _ _ _ => gd_dataset_id (vr_descriptor r)
  end.

Section refinement.
Context `{HEnv : Env} `{HKey : ReceiptKey} (c : catalog).

Definition perform_op (op : catalog_op) : M fworld dict :=
  match op with
  | OpCreate d o l lease fresh n => create c d o l lease fresh n
  | OpHandover d o f o' l lease n => handover c d o f o' l lease n
  | OpTakeover d o l lease n => takeover c d o l lease n
  | OpRenew d o f lease n => renew c d o f lease n
  | OpAdvertise r o f n => advertise c r o f n
  end.

Definition stays (w w' : fworld) : Prop := forall h, store_at h w' = store_at h w.

(** The effect of one operation: a step of its dataset's record, nothing else. *)
Definition one_step (dataset_id : string) (policy : materializer_policy) (w w' : fworld) : Prop :=
  catalog_step c dataset_id policy (store_at (ct_store c) w) (store_at (ct_store c) w') /\
  (forall k, k <> catalog_key dataset_id -> store_at (ct_store c) w' !! k = store_at (ct_store c) w !! k) /\
  (forall h, h <> ct_store c -> store_at h w' = store_at h w).

Lemma stays_step dataset_id policy w w' : stays w w' -> one_step dataset_id policy w w'.
Proof. intros H. split_and!; [apply step_other|..]; by rewrite ?H. Qed.

Lemma stays_then dataset_id policy w w1 w' : stays w w1 -> one_step dataset_id policy w1 w' -> one_step dataset_id policy w w'.
Proof. unfold one_step. intros H. rewrite !H. intros (? & H2 & H3). split_and!; [done..|]. intros h Hh. by rewrite H3, H. Qed.

Lemma wp_freads {A} (m : M fworld A) (Q : res A -> fworld -> Prop) w :
  freads m -> (forall r w1, stays w w1 -> m w = (r, w1) -> Q r w1) -> wp m Q w.
Proof. intros Hm H. unfold wp. destruct (m w) as [r w1] eqn:E. apply H; [|done]. intros h. by rewrite <- (Hm w h), E. Qed.

Lemma freads_read_record dataset_id : freads (read_record c dataset_id).
Proof. unfold read_record. solve_freads. Qed.

Lemma read_record_doc dataset_id w raw record w' :
  read_record c dataset_id w = (Ok (raw, record), w') ->
  raw = BJson (JObj record) /\ store_at (ct_store c) w !! catalog_key dataset_id = Some raw /\
  validated_record c dataset_id (JObj record) = Ok record.
Proof.
  intros H. unfold read_record in H. run_Ok H. injection H as <- <- _.
  unfold catch, on in E. rewrite (get_whole _ _ _ (catalog_key_normal dataset_id)) in E.
  destruct (store_at (ct_store c) w !! catalog_key dataset_id) as [b|] eqn:Eb; [|done]. cbn in E. injection E as -> _.
  destruct (loads a) as [value|] eqn:El; unfold parse_json in E0; rewrite El in E0; [|done]. cbn in E0.
  destruct a as [u|]; [|done]. injection El as <-. destruct u as [| | | | |d]; try done.
  assert (a0 = d) as ->; [|done]. cbn in E0. invert_Ok E0. by injection E0.
Qed.

Lemma commit_step dataset_id policy expected record w :
  (forall s s', (exists b, compare_and_swap (catalog_key dataset_id) expected (BJson (JObj record)) s = (Ok b, s')) ->
     catalog_step c dataset_id policy s s') ->
  one_step dataset_id policy w (commit c dataset_id expected record w).2.
Proof.
  intros Hs. set (s := store_at (ct_store c) w).
  pose proof (compare_and_swap_spec (catalog_key dataset_id) _ expected (BJson (JObj record)) s (catalog_key_normal _)) as Hc.
  assert (Hst : forall h, store_at h (commit c dataset_id expected record w).2 =
    if bool_decide (h = ct_store c) then (compare_and_swap (catalog_key dataset_id) expected (BJson (JObj record)) s).2 else store_at h w).
  { intros h. unfold commit, mbind, M_bind. pose proof (store_at_on (ct_store c) (compare_and_swap (catalog_key dataset_id) expected (BJson (JObj record))) w h) as Ho.
    destruct (on _ _ w) as [[[]|] w1]; cbn in *; done. }
  unfold one_step. rewrite !Hst, !bool_decide_eq_true_2 by done. fold s. split_and!.
  - apply Hs. rewrite Hc. destruct (decide _); eauto.
  - intros k Hk. rewrite Hc. destruct (decide _); cbn [snd]; [by rewrite lookup_insert_ne|done].
  - intros h Hh. by rewrite Hst, bool_decide_eq_false_2.
Qed.

(** The two ends of an operation: checks that change nothing, then the commit. *)
Lemma step_check {A B} (r : res A) (f : A -> M fworld B) (P : fworld -> Prop) w :
  P w -> (forall a, r = Ok a -> P (f a w).2) -> P ((lift r ≫= f) w).2.
Proof. intros Hw Hf. unfold mbind, M_bind, lift. destruct r; [by apply Hf|done]. Qed.

Lemma step_reads {A B} dataset_id policy (m : M fworld A) (f : A -> M fworld B) w :
  freads m -> (forall a w1, m w = (Ok a, w1) -> one_step dataset_id policy w1 (f a w1).2) ->
  one_step dataset_id policy w ((m ≫= f) w).2.
Proof.
  intros Hm Hf. unfold mbind, M_bind. specialize (Hm w). destruct (m w) as [[a|e] w1] eqn:E; cbn in *.
  - eapply stays_then; [|by apply Hf]. done.
  - by apply stays_step.
Qed.
End refinement.

(** Pass a check of the operation. *)
Ltac pass_check H := apply (step_check _ _ (one_step _ _ _ _)); [by apply stays_step|intros ? H].
Ltac pass_read H := apply step_reads; [eauto using freads_read_record with fsp|intros ? ? H].

Section refinement2.
Context `{HEnv : Env} `{HKey : ReceiptKey} (c : catalog).

Lemma raise_if_nonempty s e u : raise_if (negb (truthy_str s)) e = Ok u -> s <> "".
Proof. intros H%raise_if_Ok. by intros ->. Qed.
Lemma raise_if_elem (x : string) (l : list string) e u : raise_if (negb (bool_decide (x ∈ l))) e = Ok u -> x ∈ l.
Proof. intros H%raise_if_Ok%negb_false_iff. by apply bool_decide_eq_true_1 in H. Qed.

Lemma create_step d o l lease fresh n policy w : dataset_policy (ct_placement c) d = Ok policy ->
  one_step c d policy w (create c d o l lease fresh n w).2.
Proof.
  intros Hp. unfold create. pass_check Hq. assert (a = policy) as -> by congruence.
  pass_check H1. pass_check H2. pass_check Ho. pass_check Hl. pass_read Hn.
  apply commit_step. intros s s' Hs. eapply step_create; [by eapply raise_if_nonempty|by eapply raise_if_elem|exact Hs].
Qed.

Lemma handover_step d o f o' l lease n policy w : dataset_policy (ct_placement c) d = Ok policy ->
  one_step c d policy w (handover c d o f o' l lease n w).2.
Proof.
  intros Hp. unfold handover. pass_check Hq. assert (a = policy) as -> by congruence.
  pass_check H1. pass_check Ho. pass_check Hl. pass_read Hn. pass_read Hr.
  apply raise_if_Ok, orb_false_iff in Ho as [Ho _]. apply negb_false_iff in Ho.
  destruct a3 as [raw record]. apply read_record_doc in Hr as (-> & _). pass_check Hrec.
  apply commit_step. intros s s' Hs. eapply step_handover; [done| | |exact Hrec|exact Hs]; [by intros ->|by eapply raise_if_elem].
Qed.

Lemma takeover_step d o l lease n policy w : dataset_policy (ct_placement c) d = Ok policy ->
  one_step c d policy w (takeover c d o l lease n w).2.
Proof.
  intros Hp. unfold takeover. pass_check Hq. assert (a = policy) as -> by congruence.
  pass_check H1. pass_check Ho. pass_check Hl. pass_read Hn. pass_read Hr.
  destruct a3 as [raw record]. apply read_record_doc in Hr as (-> & _). pass_check Hrec.
  apply commit_step. intros s s' Hs.
  eapply step_takeover; [done| | |exact Hrec|exact Hs]; [by eapply raise_if_nonempty|by eapply raise_if_elem].
Qed.

Lemma renew_step d o f lease n policy w : dataset_policy (ct_placement c) d = Ok policy ->
  one_step c d policy w (renew c d o f lease n w).2.
Proof.
  intros Hp. unfold renew. pass_check Hq. pass_check H1. pass_read Hn. pass_read Hr.
  destruct a2 as [raw record]. apply read_record_doc in Hr as (-> & _). pass_check Hrec.
  apply commit_step. intros s s' Hs. eapply step_renew; [done|exact Hrec|exact Hs].
Qed.

Lemma advertise_step r o f n policy w : dataset_policy (ct_placement c) (gd_dataset_id (vr_descriptor r)) = Ok policy ->
  one_step c (gd_dataset_id (vr_descriptor r)) policy w (advertise c r o f n w).2.
Proof.
  intros Hp. unfold advertise. pass_check Hc. pass_read Hn. pass_check Ht. pass_read Hr.
  destruct a2 as [raw record]. apply read_record_doc in Hr as (-> & _). pass_check Hrec. destruct a.
  apply commit_step. intros s s' Hs. eapply step_advertise; [done|done|exact Hc|exact Hrec|exact Hs].
Qed.
End refinement2.

(** ** Verified bytes *)

(** The bytes of a reference are in the store. *)
Definition stored (s : mem) (r : object_reference) : Prop :=
  exists b, s !! or_key r = Some b /\ blob_size b = or_size_bytes r /\ sha256_hex (blob_bytes b) = or_sha256 r.

(** A reference and a descriptor as their constructors build them. *)
Definition reference_ok (r : object_reference) : Prop :=
  make_reference (or_store_profile r) (or_key r) (or_size_bytes r) (or_sha256 r) = Ok r.
Definition descriptor_ok (d : generation_descriptor) : Prop :=
  make_descriptor (gd_dataset_id d) (gd_generation_id d) (gd_sequence d) (gd_produced_at_ms d) (gd_objects d) (gd_manifest d)
    (gd_snapshot_key d) = Ok d /\ Forall reference_ok (all_objects d).

Lemma make_reference_Ok p k n h r : make_reference p k n h = Ok r ->
  r = ObjectReference p k n h /\ reference_ok r /\ normalize_key k = Ok k.
Proof.
  intros H. pose proof H as H0. unfold make_reference in H. invert_Ok H. injection H as <-.
  apply raise_if_Ok, negb_false_iff, String.eqb_eq in E1. subst. split_and!; done.
Qed.

Lemma make_descriptor_Ok a b n t os m k d : make_descriptor a b n t os m k = Ok d ->
  d = GenerationDescriptor a b n t os m k /\ NoDup (map or_key os) /\ (or_key m ∉ map or_key os) /\
  (k <> "" -> k ∈ map or_key os).
Proof.
  intros H. unfold make_descriptor in H. invert_Ok H. injection H as <-.
  apply raise_if_Ok, negb_false_iff, bool_decide_eq_true_1 in E1. apply raise_if_Ok, bool_decide_eq_false_1 in E2.
  apply raise_if_Ok in E3. split_and!; [done..|]. intros Hk. apply andb_false_iff in E3 as [E3|E3].
  - unfold truthy_str in E3. by destruct (String.eqb_spec k "").
  - by apply negb_false_iff, bool_decide_eq_true_1 in E3.
Qed.

Lemma reference_ok_normal r : reference_ok r -> normalize_key (or_key r) = Ok (or_key r).
Proof. intros H. by apply make_reference_Ok in H as (_ & _ & ?). Qed.

Lemma reference_round_trip r : reference_ok r -> reference_from_dict (JObj (reference_to_dict r)) = Ok r.
Proof.
  intros H. unfold reference_from_dict. cbn [as_obj mbind res_bind]. unfold_reads. set (d := reference_to_dict r).
  unfold reference_to_dict in d. read_fields d. exact H.
Qed.

Lemma references_round_trip l : Forall reference_ok l ->
  res_map reference_from_dict (map (fun r => JObj (reference_to_dict r)) l) = Ok l.
Proof. induction 1 as [|r l Hr Hl IH]; cbn [res_map map]; [done|]. by rewrite reference_round_trip, IH. Qed.

(** A descriptor survives the catalog. *)
Lemma descriptor_round_trip d : descriptor_ok d -> generation_from_dict (JObj (generation_to_dict d)) = Ok d.
Proof.
  intros [Hd Hr]. apply Forall_app in Hr as [Ho Hm]. inversion_clear Hm.
  unfold generation_from_dict. cbn [as_obj mbind res_bind]. unfold_reads. set (e := generation_to_dict d).
  unfold generation_to_dict in e. read_fields e. cbn [of_option mbind res_bind plain_str_of plain_int_of].
  rewrite (references_round_trip _ Ho). cbn [mbind res_bind]. rewrite reference_round_trip by done.
  cbn [mbind res_bind].
  assert (plain_str_of (default (JStr "") (if truthy_str (gd_snapshot_key d) then Some (JStr (gd_snapshot_key d)) else mk_dict [] !! "snapshot_key"))
    = Ok (gd_snapshot_key d)) as -> by (unfold truthy_str; by destruct (String.eqb_spec (gd_snapshot_key d) "") as [->|]).
  exact Hd.
Qed.

Lemma freads_run {A} (m : M fworld A) w r w' : freads m -> m w = (r, w') -> stays w w'.
Proof. intros Hm H h. by rewrite <- (Hm w h), H. Qed.

Lemma verify_bytes_Ok target r w w' u : normalize_key (or_key r) = Ok (or_key r) ->
  verify_bytes target r w = (Ok u, w') -> stays w w' /\ stored (store_at target w) r.
Proof.
  intros Hk H. split.
  { eapply freads_run; [|exact H]. unfold verify_bytes. solve_freads. }
  unfold verify_bytes in H. run_Ok H. destruct a; [|done]. unfold catch, on, verify in E.
  rewrite (with_key_Ok _ _ _ Hk) in E. cbn in E. injection E as E _.
  destruct (store_at target w !! or_key r) as [b|] eqn:Eb; [|done].
  apply andb_true_iff in E as [E1%Z.eqb_eq E2%String.eqb_eq]. by exists b.
Qed.

Lemma stays_refl w : stays w w.
Proof. done. Qed.
Lemma stays_trans w1 w2 w3 : stays w1 w2 -> stays w2 w3 -> stays w1 w3.
Proof. intros H1 H2 h. by rewrite H2, H1. Qed.

Lemma verify_all_Ok target l : Forall reference_ok l -> forall w w' u, forM_ (verify_bytes target) l w = (Ok u, w') ->
  stays w w' /\ Forall (stored (store_at target w)) l.
Proof.
  unfold forM_. induction 1 as [|r l Hr Hl IH]; intros w w' u H; [by injection H as _ <-|].
  cbn [foldM] in H. run_Ok H. apply verify_bytes_Ok in E as [Hs Hst]; [|by apply reference_ok_normal].
  destruct a. destruct (IH _ _ _ H) as [Hs' Hall]. split; [by eapply stays_trans|]. constructor; [done|].
  by rewrite Hs in Hall.
Qed.

Section publication.
Context `{HEnv : Env} `{HKey : ReceiptKey}.

Lemma freads_verify_replica v d p : freads (verify_replica v d p).
Proof. unfold verify_replica, forM_, verify_bytes. solve_freads. Qed.

(** What a receipt of the verifier stands for. *)
Lemma verify_replica_Ok v d p w receipt w' : Forall reference_ok (all_objects d) ->
  verify_replica v d p w = (Ok receipt, w') ->
  stays w w' /\ receipt = VerifiedReplica d p (receipt_proof d p) /\
  exists target, verify_target v d p = Ok target /\ Forall (stored (store_at target w)) (all_objects d) /\
    store_at target w !! or_key (gd_manifest d) = Some (BJson (JObj (manifest_document d))).
Proof.
  intros Hr H. split.
  { eapply freads_run; [|exact H]. apply freads_verify_replica. }
  unfold verify_replica in H. run_Ok H. injection H as <- _. split; [done|]. exists a. split; [done|].
  destruct (verify_all_Ok _ _ Hr _ _ _ E0) as [Hs Hst]. split; [done|]. clear E0.
  apply Forall_app in Hr as [_ Hm]. inversion_clear Hm as [|? ? Hmk _]. apply reference_ok_normal in Hmk.
  unfold on in E1. rewrite Hs in E1. unfold get_prefix, mbind at 1, M_bind at 1 in E1. rewrite (get_whole _ _ _ Hmk) in E1.
  apply Forall_app in Hst as [_ Hmst]. inversion_clear Hmst as [|? ? (b & Hb & Hsz & Hsha) _]. rewrite Hb in E1. cbn in E1.
  injection E1 as <- _. rewrite Hb. f_equal.
  unfold check_manifest in E2. invert_Ok E2. apply raise_if_Ok, negb_false_iff, bool_decide_eq_true_1 in E2. subst.
  unfold parse_json in E3. destruct (blob_size b <=? MANIFEST_LIMIT + 1); [|done]. destruct b; [|done]. by injection E3 as ->.
Qed.

Lemma fnow_or_Ok n w a w' : fnow_or n w = (Ok a, w') -> n = Some a \/ exists i, a = clock i.
Proof. destruct n; intros [= <- <-]; [by left|right; eauto]. Qed.

Lemma commit_Ok c dataset_id expected record w record' w' : commit c dataset_id expected record w = (Ok record', w') ->
  record' = record /\ store_at (ct_store c) w !! catalog_key dataset_id = expected /\
  forall h, store_at h w' = if bool_decide (h = ct_store c)
      then <[catalog_key dataset_id := BJson (JObj record)]> (store_at (ct_store c) w) else store_at h w.
Proof.
  intros H. unfold commit in H. apply fbind_Ok in H as (b & w1 & E & H). destruct b; [|done]. injection H as <- <-.
  split; [done|].
  pose proof (compare_and_swap_spec (catalog_key dataset_id) _ expected (BJson (JObj record)) (store_at (ct_store c) w) (catalog_key_normal _)) as Hc.
  assert (w1 = (on (ct_store c) (compare_and_swap (catalog_key dataset_id) expected (BJson (JObj record))) w).2) as Hw by (by rewrite E).
  unfold on in E. rewrite Hc in E. destruct (decide _) as [Hd|]; [|done]. split; [done|]. intros h.
  by rewrite Hw, store_at_on, Hc.
Qed.

Lemma verify_target_store v d p target : verify_target v d p = Ok target -> rv_stores v !! p = Some target.
Proof.
  unfold verify_target. intros H. do 3 apply bind_Ok in H as (? & _ & H).
  destruct (rv_stores v !! p) as [t|]; [|done]. cbn in H. invert_Ok H. by injection H as ->.
Qed.

(** [advertise], step by step. *)
Lemma advertise_Ok c r o f n w record w' : advertise c r o f n w = (Ok record, w') ->
  exists old now, check_receipt c r = Ok tt /\
    store_at (ct_store c) w !! catalog_key (gd_dataset_id (vr_descriptor r)) = Some (BJson (JObj old)) /\
    validated_record c (gd_dataset_id (vr_descriptor r)) (JObj old) = Ok old /\
    (n = Some now \/ exists i, now = clock i) /\ gd_produced_at_ms (vr_descriptor r) <= now /\
    advertise_record old r o f now = Ok record /\
    forall h, store_at h w' = if bool_decide (h = ct_store c)
      then <[catalog_key (gd_dataset_id (vr_descriptor r)) := BJson (JObj record)]> (store_at (ct_store c) w) else store_at h w.
Proof.
  intros H. unfold advertise in H. run_Ok H. destruct a2 as [raw old]. cbn [fst snd] in *. destruct a.
  pose proof (freads_run _ _ _ _ (freads_fnow_or n) E0) as Hs1.
  pose proof (freads_run _ _ _ _ (freads_read_record _ _) E2) as Hs2.
  destruct (read_record_doc _ _ _ _ _ _ E2) as (-> & Hst & Hval). rewrite Hs1 in Hst.
  destruct (commit_Ok _ _ _ _ _ _ _ H) as (-> & _ & Hw'). exists old, a0. split_and!; try done.
  - by apply (fnow_or_Ok n w _ w0).
  - apply raise_if_Ok in E1. by apply Z.ltb_ge in E1.
  - intros h. rewrite Hw', !Hs2, !Hs1. done.
Qed.

(** ** The descriptor of a publication *)

Lemma make_references_ok p (f : split_ref -> res object_reference) l k :
  (forall s, f s = make_reference p (sr_object_key s) (sr_size_bytes s) (sr_content_hash s)) ->
  res_map f l = Ok k -> Forall reference_ok k.
Proof.
  intros Hf Hk. eapply res_map_Forall; [|exact Hk]. intros s r. rewrite Hf. by intros (_ & ? & _)%make_reference_Ok.
Qed.

Context (co : regional_coordinator).

Lemma freads_reference_of_object key : freads (reference_of_object co key).
Proof. unfold reference_of_object. solve_freads. Qed.

Lemma metadata_ok keys : forall acc w refs w', Forall reference_ok acc ->
  foldM (reference_metadata co) acc keys w = (Ok refs, w') -> Forall reference_ok refs.
Proof.
  induction keys as [|k keys IH]; intros acc w refs w' Ha H; [by injection H as <- _|].
  cbn [foldM] in H. apply fbind_Ok in H as (acc1 & w1 & E & H). apply (IH acc1 w1 refs w'); [|done].
  unfold reference_metadata in E. apply fbind_Ok in E as (r & w2 & E & E2). injection E2 as <- _.
  apply Forall_app. split; [done|]. constructor; [|constructor].
  unfold reference_of_object in E. apply fbind_Ok in E as (b & w3 & _ & E). apply lift_Ok in E as [E _].
  by apply make_reference_Ok in E as (_ & ? & _).
Qed.

(** The keys a publication writes, and what it leaves alone. *)
Definition grows (w w' : fworld) (keys : list string) : Prop :=
  (forall h, h <> co_store co -> store_at h w' = store_at h w) /\
  (forall k b, store_at (co_store co) w !! k = Some b -> store_at (co_store co) w' !! k = Some b) /\
  (forall k, k ∉ keys -> store_at (co_store co) w' !! k = store_at (co_store co) w !! k).

Lemma grows_stays w w' : stays w w' -> grows w w' [].
Proof. intros H. split_and!; intros; by rewrite H. Qed.

Lemma grows_trans w1 w2 w3 k1 k2 : grows w1 w2 k1 -> grows w2 w3 k2 -> grows w1 w3 (k1 ++ k2).
Proof.
  intros (A1 & B1 & C1) (A2 & B2 & C2). split_and!.
  - intros h Hh. by rewrite A2, A1.
  - eauto.
  - intros k Hk. rewrite not_elem_of_app in Hk. destruct Hk. by rewrite C2, C1.
Qed.

Lemma put_document_Ok key doc w st w' : normalize_key key = Ok key ->
  on (co_store co) (put_blob_if_absent key doc (Some (blob_size doc))) w = (Ok st, w') ->
  grows w w' [key] /\ exists b, store_at (co_store co) w' !! key = Some b /\ blob_size b = blob_size doc /\
    sha256_hex (blob_bytes b) = sha256_hex (blob_bytes doc) /\ (store_at (co_store co) w !! key = None -> b = doc).
Proof.
  intros Hk H. pose proof (store_at_on (co_store co) (put_blob_if_absent key doc (Some (blob_size doc))) w) as Hon.
  rewrite H in Hon. cbn [snd] in Hon. unfold on in H. cbv zeta in H.
  pose proof (put_blob_if_absent_keeps key key doc (Some (blob_size doc)) (store_at (co_store co) w) Hk) as Hp.
  destruct (put_blob_if_absent _ _ _ _) as [r s'] eqn:E. destruct Hp as (P1 & P2 & P3). injection H as -> _. cbn [snd] in Hon.
  pose proof (Hon (co_store co)) as Hc. rewrite bool_decide_eq_true_2 in Hc by done. rewrite <- Hc in P1, P2, P3. split.
  - split_and!; [|done|].
    + intros h Hh. by rewrite Hon, bool_decide_eq_false_2.
    + intros k Hne. apply P2. intros ->. apply Hne. left.
  - destruct (P3 st eq_refl) as (b & ? & _ & ? & ? & ?). by exists b.
Qed.

Lemma fed_snapshot_key_normal m : normalize_key (fed_snapshot_key m) = Ok (fed_snapshot_key m).
Proof.
  apply normalize_safe. exists ["_control"; "federation"; "snapshots"; sha256_hex (sm_dataset_id m); snapshot_digest m +:+ ".json"].
  split_and!; [done| |reflexivity].
  repeat apply Forall_cons_2; [by split_and!..|apply sha256_clean|apply sha256_json_clean|constructor].
Qed.

Lemma fed_manifest_key_normal m : normalize_key (fed_manifest_key m) = Ok (fed_manifest_key m).
Proof.
  apply normalize_safe. exists ["_control"; "federation"; "manifests"; sha256_hex (sm_dataset_id m); sha256_hex (sm_generation_id m);
                                snapshot_digest m +:+ ".json"].
  split_and!; [done| |reflexivity].
  repeat apply Forall_cons_2; [by split_and!..|apply sha256_clean|apply sha256_clean|apply sha256_json_clean|constructor].
Qed.
Lemma describe_Ok m w d w' : describe co m w = (Ok d, w') ->
  descriptor_ok d /\ gd_dataset_id d = sm_dataset_id m /\ gd_generation_id d = sm_generation_id m /\
  gd_sequence d = sm_published_at_ms m /\ gd_produced_at_ms d = sm_produced_at_ms m /\
  gd_snapshot_key d = fed_snapshot_key m /\
  ObjectReference (co_storage_profile co) (fed_snapshot_key m) (blob_size (snapshot_doc m)) (snapshot_digest m) ∈ gd_objects d /\
  grows w w' [fed_snapshot_key m; fed_manifest_key m] /\
  exists b, store_at (co_store co) w' !! fed_snapshot_key m = Some b /\ blob_size b = blob_size (snapshot_doc m) /\
    sha256_hex (blob_bytes b) = snapshot_digest m /\ (store_at (co_store co) w !! fed_snapshot_key m = None -> b = snapshot_doc m).
Proof.
  intros H. unfold describe in H. run_Ok H. apply lift_Ok in H as [H ->].
  destruct (put_document_Ok _ _ _ _ _ (fed_snapshot_key_normal m) E0) as [G1 (b & Hb & Hsz & Hsha & Hnew)].
  destruct (put_document_Ok _ _ _ _ _ (fed_manifest_key_normal m) E6) as [G2 _].
  pose proof (freads_run _ _ _ _ (freads_foldM (reference_metadata co) _ (fun _ k => freads_bind _ _ (freads_reference_of_object k) (fun r => freads_ret _)) _) E2) as Hs.
  pose proof (make_references_ok (co_storage_profile co) _ _ _ (fun s => eq_refl) E1) as Hsplits.
  pose proof (metadata_ok _ _ _ _ _ (Forall_nil_2 _) E2) as Hmeta.
  apply make_reference_Ok in E3 as (-> & Hsnap & _), E4 as (-> & Hplace & _), E7 as (-> & Hman & _).
  apply make_descriptor_Ok in E5 as (-> & _). cbn [gd_dataset_id gd_generation_id gd_sequence gd_produced_at_ms gd_objects] in H.
  pose proof H as H0. apply make_descriptor_Ok in H as (-> & _).
  unfold descriptor_ok, all_objects. cbn [gd_dataset_id gd_generation_id gd_sequence gd_produced_at_ms gd_objects gd_manifest gd_snapshot_key].
  split; [split; [done|]; repeat (apply Forall_app; split); auto using Forall_cons, Forall_nil|].
  split; [done|]. split; [done|]. split; [done|]. split; [done|]. split; [done|]. split; [rewrite !elem_of_app; right; right; left|].
  split; [exact (grows_trans _ _ _ _ _ G1 (grows_trans _ _ _ _ _ (grows_stays _ _ Hs) G2))|].
  exists b. split; [|exact (conj Hsz (conj Hsha Hnew))]. destruct G2 as (_ & G2 & _). apply G2. rewrite Hs. exact Hb.
Qed.

Lemma require_owner_Ok dataset_id w record w' : require_owner co dataset_id w = (Ok record, w') ->
  stays w w' /\ store_at (ct_store (co_catalog co)) w !! catalog_key dataset_id = Some (BJson (JObj record)) /\
  record !! "owner_id" = Some (JStr (co_owner_id co)) /\ record !! "owner_location" = Some (JStr (co_owner_location co)).
Proof.
  intros H. split.
  { eapply freads_run; [|exact H]. unfold require_owner, get_record. solve_freads; apply freads_read_record. }
  unfold require_owner in H. run_Ok H. injection H as <- _. unfold get_record in E. apply fbind_Ok in E as ([raw d] & w2 & E & E').
  injection E' as <- _. apply read_record_doc in E as (-> & Hst & _). split; [done|].
  apply raise_if_Ok in E1. subst. unfold foreign, dget_req in E0.
  destruct (d !! "owner_id") as [x|]; [|done]. cbn [of_option mbind res_bind] in E0. case_bool_decide as Hx; [|done]. subst.
  cbn [negb] in E0. destruct (d !! "owner_location") as [y|]; [|done]. cbn [of_option mbind res_bind] in E0.
  injection E0 as E0. apply negb_false_iff, bool_decide_eq_true_1 in E0. by subst.
Qed.
Lemma check_owner_fields d o f now u : check_owner d o f now = Ok u ->
  d !! "owner_id" = Some (JStr o) /\ (exists v, d !! "fence" = Some v /\ eq_num v f = true) /\
  exists x e, d !! "expires_at_ms" = Some x /\ as_num x = Ok e /\ now < e.
Proof.
  unfold check_owner, dget_req. destruct (d !! "owner_id") as [x|]; [|done]. cbn [of_option mbind res_bind].
  case_bool_decide as Hx; [|done]. subst. cbn [negb]. destruct (d !! "fence") as [v|]; [|done]. cbn [of_option mbind res_bind].
  destruct (eq_num v f) eqn:Hv; [|done]. cbn [negb]. destruct (d !! "expires_at_ms") as [y|]; [|done]. cbn [of_option mbind res_bind].
  destruct (as_num y) as [e|] eqn:He; [|done]. cbn [mbind res_bind]. destruct (Z.leb_spec e now); [done|]. intros _.
  split; [done|]. split; [by exists v|]. by exists y, e.
Qed.

Lemma advertise_record_fields old r o f now record : advertise_record old r o f now = Ok record ->
  (exists u, check_owner old o f now = Ok u) /\
  (exists reps, record !! "replicas" = Some (JObj reps) /\
     reps !! vr_storage_profile r = Some (JObj (generation_to_dict (vr_descriptor r)))) /\
  forall k, k <> "replicas" -> k <> "generations" -> record !! k = old !! k.
Proof.
  unfold advertise_record. intros H. invert_Ok H. injection H as <-. split; [eauto|]. split.
  - eexists. rewrite lookup_insert_eq. split; [done|]. by rewrite lookup_insert_eq.
  - intros k H1 H2. by rewrite !lookup_insert_ne.
Qed.

Lemma catalog_key_other dataset_id m : catalog_key dataset_id ∉ [fed_snapshot_key m; fed_manifest_key m].
Proof.
  rewrite !elem_of_cons. intros [H|[H|H%not_elem_of_nil]]; [| |done].
  - change (catalog_key dataset_id) with ("_control/federation/d" +:+ "atasets/" +:+ "" +:+ sha256_hex dataset_id +:+ "" +:+ ".json") in H.
    discriminate H.
  - discriminate H.
Qed.

(** One publication, step by step. *)
Lemma publish_Ok m w record w' : publish co m w = (Ok record, w') ->
  rv_stores (co_verifier co) !! co_storage_profile co = Some (co_store co) ->
  exists policy d old now i w1,
    dataset_policy (ct_placement (co_catalog co)) (sm_dataset_id m) = Ok policy /\
    co_storage_profile co ∈ publication_chain policy /\
    grows w w1 [fed_snapshot_key m; fed_manifest_key m] /\ descriptor_ok d /\
    gd_dataset_id d = sm_dataset_id m /\ gd_generation_id d = sm_generation_id m /\
    gd_sequence d = sm_published_at_ms m /\ gd_produced_at_ms d = sm_produced_at_ms m /\ gd_snapshot_key d = fed_snapshot_key m /\
    ObjectReference (co_storage_profile co) (fed_snapshot_key m) (blob_size (snapshot_doc m)) (snapshot_digest m) ∈ gd_objects d /\
    (store_at (co_store co) w !! fed_snapshot_key m = None -> store_at (co_store co) w1 !! fed_snapshot_key m = Some (snapshot_doc m)) /\
    Forall (fun r => or_store_profile r = co_storage_profile co /\ stored (store_at (co_store co) w1) r) (all_objects d) /\
    store_at (ct_store (co_catalog co)) w !! catalog_key (sm_dataset_id m) = Some (BJson (JObj old)) /\
    validated_record (co_catalog co) (sm_dataset_id m) (JObj old) = Ok old /\ now = clock i /\
    old !! "owner_location" = Some (JStr (co_owner_location co)) /\
    (exists fence, advertise_record old (VerifiedReplica d (co_storage_profile co) (receipt_proof d (co_storage_profile co)))
                     (co_owner_id co) fence now = Ok record) /\
    forall h, store_at h w' = if bool_decide (h = ct_store (co_catalog co))
      then <[catalog_key (sm_dataset_id m) := BJson (JObj record)]> (store_at (ct_store (co_catalog co)) w1) else store_at h w1.
Proof.
  intros H Hstore. unfold publish in H. run_Ok H.
  apply require_owner_Ok in E1 as (Hs0 & Hold & Hown & Hloc).
  apply describe_Ok in E2 as (Hd & D1 & D2 & D3 & D4 & D5 & D6 & Hg & b & Hb & Hsz & Hsha & Hnew).
  destruct (verify_replica_Ok _ _ _ _ _ _ (proj2 Hd) E3) as (Hs1 & -> & target & Htarget & Hstored & _).
  apply advertise_Ok in H as (old & now & Hrc & Hst & Hval & Hnow & Hprod & Hadv & Hw'). cbn [vr_descriptor vr_storage_profile] in *.
  rewrite D1 in *. destruct Hnow as [?|[i Hi]]; [done|].
  assert (target = co_store co) as -> by (apply verify_target_store in Htarget; congruence).
  assert (Hcat : store_at (ct_store (co_catalog co)) w2 !! catalog_key (sm_dataset_id m)
                 = store_at (ct_store (co_catalog co)) w0 !! catalog_key (sm_dataset_id m)).
  { rewrite Hs1. destruct Hg as (G1 & _ & G3). destruct (decide (ct_store (co_catalog co) = co_store co)) as [->|Hne].
    - apply G3, catalog_key_other.
    - by rewrite G1. }
  rewrite Hs0 in Hcat. assert (a1 = old) as -> by congruence.
  destruct (check_receipt_chain (co_catalog co) (sm_dataset_id m) a E (VerifiedReplica a2 (co_storage_profile co) (receipt_proof a2 (co_storage_profile co))) D1 Hrc)
    as [Hchain Hprofiles]. cbn [vr_descriptor vr_storage_profile] in *.
  exists a, a2, old, now, i, w1. split; [done|]. split; [done|].
  split; [exact (grows_trans _ _ _ _ _ (grows_stays _ _ Hs0) Hg)|].
  split; [done|]. split; [done|]. split; [done|]. split; [done|]. split; [done|]. split; [done|]. split; [done|].
  split; [rewrite <- Hs0; intros Hn; by rewrite Hb, Hnew|].
  split; [apply Forall_and; done|]. split; [done|]. split; [done|]. split; [done|]. split; [done|]. split; [by exists a4|].
  intros h. rewrite Hw'. rewrite !Hs1. done.
Qed.
(** ** Serving *)

Lemma validated_same c dataset_id old record :
  (forall k, k <> "replicas" -> k <> "generations" -> record !! k = old !! k) ->
  validated_record c dataset_id (JObj old) = Ok old -> validated_record c dataset_id (JObj record) = Ok record.
Proof.
  intros Hk H. unfold validated_record, dget, get_str, dget in *. rewrite !Hk by done.
  apply bind_Ok in H as (u & -> & H). cbn [mbind res_bind]. apply bind_Ok in H as (policy & -> & H). cbn [mbind res_bind].
  apply bind_Ok in H as (t & -> & H). cbn [mbind res_bind]. by apply bind_Ok in H as (u' & -> & H).
Qed.

Lemma read_committed c dataset_id record w :
  store_at (ct_store c) w !! catalog_key dataset_id = Some (BJson (JObj record)) ->
  validated_record c dataset_id (JObj record) = Ok record ->
  exists w', get_record c dataset_id w = (Ok record, w') /\ stays w w'.
Proof.
  intros Hst Hv.
  assert (exists w', get_record c dataset_id w = (Ok record, w')) as [w' H].
  { unfold get_record, read_record, mbind, M_bind, catch, on. rewrite (get_whole _ _ _ (catalog_key_normal dataset_id)), Hst.
    cbn -[validated_record]. rewrite Hv. eauto. }
  exists w'. split; [done|]. eapply freads_run; [|exact H]. unfold get_record. solve_freads; apply freads_read_record.
Qed.

Lemma find_reference (l : list object_reference) r : NoDup (map or_key l) -> r ∈ l ->
  snd <$> list_find (fun x => or_key x = or_key r) l = Some r.
Proof.
  induction l as [|x l IH]; intros Hn Hr; [by apply not_elem_of_nil in Hr|]. cbn [map] in Hn. apply NoDup_cons in Hn as [Hx Hn].
  cbn [list_find]. destruct (decide (or_key x = or_key r)) as [He|He].
  - apply elem_of_cons in Hr as [->|Hr]; [done|]. exfalso. apply Hx. rewrite He. by apply list_elem_of_fmap_2.
  - apply elem_of_cons in Hr as [->|Hr]; [done|]. specialize (IH Hn Hr).
    destruct (list_find (fun x => or_key x = or_key r) l) as [[i y]|]; [|done]. done.
Qed.

Lemma snapshot_reference_of d r : descriptor_ok d -> r ∈ gd_objects d -> or_key r = gd_snapshot_key d ->
  or_store_profile r = co_storage_profile co ->
  snapshot_reference co (JObj (generation_to_dict d)) =
    if MANIFEST_LIMIT <? or_size_bytes r then Err (ValueError "serving snapshot exceeds the 4 MiB metadata limit") else Ok (d, r).
Proof.
  intros Hd Hr Hk Hp. unfold snapshot_reference. rewrite descriptor_round_trip by done. cbn [mbind res_bind].
  assert (gd_snapshot_key d <> "") as Hne.
  { intros Hz. destruct Hd as [_ Hall]. rewrite Forall_forall in Hall.
    assert (reference_ok r) as Hok by (apply Hall; unfold all_objects; apply elem_of_app; by left).
    apply reference_ok_normal in Hok. rewrite Hk, Hz in Hok. discriminate. }
  rewrite (proj2 (truthy_str_true _) Hne). cbn [raise_if negb mbind res_bind].
  rewrite <- Hk. rewrite find_reference; [|by destruct Hd as [(_ & ? & _)%make_descriptor_Ok _]|done].
  cbn [of_option mbind res_bind]. rewrite Hp, String.eqb_refl. cbn [raise_if negb mbind res_bind]. by destruct (_ <? _).
Qed.
(** The stored snapshot document is the one published, whoever stored it. *)
Lemma snapshot_document m w w1 :
  grows w w1 [fed_snapshot_key m; fed_manifest_key m] ->
  (store_at (co_store co) w !! fed_snapshot_key m = None -> store_at (co_store co) w1 !! fed_snapshot_key m = Some (snapshot_doc m)) ->
  stored (store_at (co_store co) w1)
    (ObjectReference (co_storage_profile co) (fed_snapshot_key m) (blob_size (snapshot_doc m)) (snapshot_digest m)) ->
  (forall b, store_at (co_store co) w !! fed_snapshot_key m = Some b -> sha256_hex (blob_bytes b) = snapshot_digest m -> b = snapshot_doc m) ->
  store_at (co_store co) w1 !! fed_snapshot_key m = Some (snapshot_doc m).
Proof.
  intros (_ & G & _) Hnew (b & Hb & _ & Hsha) Hdoc. cbn [or_key or_sha256] in *.
  destruct (store_at (co_store co) w !! fed_snapshot_key m) as [b0|] eqn:E0; [|by apply Hnew].
  assert (b0 = b) as -> by (apply G in E0; congruence). rewrite Hb. f_equal. by apply Hdoc.
Qed.

Lemma decode_published d r m e :
  gd_generation_id d = sm_generation_id m -> gd_produced_at_ms d = sm_produced_at_ms m ->
  or_size_bytes r = blob_size (snapshot_doc m) -> or_sha256 r = snapshot_digest m -> e = 0 \/ e = sm_epoch m ->
  decode_snapshot (sm_dataset_id m) (sm_table m) e d r (snapshot_doc m) = Ok (Some m).
Proof.
  intros Hg Hp Hs Hh He. unfold decode_snapshot. rewrite Hs, Hh, Z.eqb_refl. fold (snapshot_digest m). rewrite String.eqb_refl.
  cbn [negb orb raise_if mbind res_bind snapshot_doc parse_json loads of_option as_obj]. rewrite manifest_roundtrip.
  cbn [mbind res_bind]. rewrite !String.eqb_refl, Hg, Hp, String.eqb_refl, Z.eqb_refl. cbn [negb orb raise_if mbind res_bind].
  destruct He as [->| ->]; [done|]. by rewrite Z.eqb_refl, andb_false_r.
Qed.

Lemma catalog_key_not_snapshot dataset_id m : catalog_key dataset_id <> fed_snapshot_key m.
Proof. intros H. apply (catalog_key_other dataset_id m). rewrite H. left. Qed.

Lemma get_prefix_whole h key n w b : normalize_key key = Ok key -> store_at h w !! key = Some b -> blob_size b <= n ->
  exists w', on h (get_prefix key n) w = (Ok b, w') /\ stays w w'.
Proof.
  intros Hk Hb Hn.
  assert (exists w', on h (get_prefix key n) w = (Ok b, w')) as [w' H].
  { unfold on, get_prefix, mbind, M_bind. rewrite (get_whole _ _ _ Hk), Hb. cbn. apply Z.leb_le in Hn. rewrite Hn. eauto. }
  exists w'. split; [done|]. eapply freads_run; [|exact H]. apply freads_get_prefix.
Qed.

(** A published snapshot is the one served.  After [publish] succeeds, [snapshot]
    of the dataset and table, for the latest epoch or for the published one, returns
    exactly the published manifest and changes no store; but when the encoded snapshot
    is larger than 4 MiB it raises [ValueError], although the publication succeeded.
    The local store is the one the verifier has for this region, and an object that
    [publish] finds under its snapshot key with the digest of the snapshot is the
    snapshot. *)
Theorem federated_snapshot_served m e w record w' :
  publish co m w = (Ok record, w') ->
  rv_stores (co_verifier co) !! co_storage_profile co = Some (co_store co) ->
  (forall b, store_at (co_store co) w !! fed_snapshot_key m = Some b -> sha256_hex (blob_bytes b) = snapshot_digest m -> b = snapshot_doc m) ->
  e = 0 \/ e = sm_epoch m ->
  exists w'', snapshot co (sm_dataset_id m) (sm_table m) e w' =
    ((if MANIFEST_LIMIT <? blob_size (snapshot_doc m)
      then Err (ValueError "serving snapshot exceeds the 4 MiB metadata limit") else Ok (Some m)), w'') /\ stays w' w''.
Proof.
  intros H Hstore Hdoc He.
  destruct (publish_Ok _ _ _ _ H Hstore) as (policy & d & old & now & i & w1 & _ & _ & Hg & Hd & D1 & D2 & D3 & D4 & D5 & Hr
    & Hnew & Hall & Hold & Hval & _ & _ & [fence Hadv] & Hw').
  set (r := ObjectReference _ _ _ _) in Hr.
  assert (stored (store_at (co_store co) w1) r) as Hst.
  { rewrite Forall_forall in Hall. apply Hall. unfold all_objects. apply elem_of_app. by left. }
  pose proof (snapshot_document m w w1 Hg Hnew Hst Hdoc) as Hsnap.
  destruct (advertise_record_fields _ _ _ _ _ _ Hadv) as (_ & (reps & Hreps & Hrep) & Hsame). cbn [vr_storage_profile vr_descriptor] in Hrep.
  destruct (read_committed (co_catalog co) (sm_dataset_id m) record w') as (w2 & Hget & Hs2).
  { rewrite Hw', bool_decide_eq_true_2 by done. by rewrite lookup_insert_eq. }
  { by eapply validated_same. }
  unfold snapshot, mbind, M_bind. rewrite Hget. unfold lift at 1, dget_req. rewrite Hreps. cbn [of_option mbind res_bind attr_obj].
  unfold dget. rewrite Hrep. cbn [default from_option id].
  unfold lift. rewrite (snapshot_reference_of d r Hd Hr (eq_sym D5) eq_refl). cbn [or_size_bytes r].
  destruct (MANIFEST_LIMIT <? blob_size (snapshot_doc m)); [by exists w2|]. cbn [fst snd].
  assert (store_at (co_store co) w2 !! fed_snapshot_key m = Some (snapshot_doc m)) as Hs.
  { rewrite Hs2, Hw'. case_bool_decide as Hc; [|done]. rewrite lookup_insert_ne, <- Hc by apply catalog_key_not_snapshot. done. }
  destruct (get_prefix_whole (co_store co) (fed_snapshot_key m) (blob_size (snapshot_doc m) + 1) w2 _ (fed_snapshot_key_normal m) Hs ltac:(lia))
    as (w3 & Hp & Hs3).
  cbn [or_key or_size_bytes r]. rewrite Hp. exists w3. split; [|by eapply stays_trans].
  by rewrite (decode_published d r m e).
Qed.
(** C23: what is advertised has been verified, by the owner, inside the boundary.
    When [publish] succeeds, the record of the dataset named this Manager and its
    location as the owner under an unexpired lease when the record was replaced; the
    record now in the catalog advertises, for this region's profile, a descriptor of
    the published generation whose sequence is the publication time; the profile is
    part of the dataset's publication chain; and every object of the descriptor, the
    manifest included, names that profile and is in the region's store with the size
    and the SHA-256 digest the catalog advertises (a catalog in the same store does
    not count its own record among them). *)
Theorem published_generation_verified m w record w' :
  publish co m w = (Ok record, w') ->
  rv_stores (co_verifier co) !! co_storage_profile co = Some (co_store co) ->
  exists policy d old now i reps,
    dataset_policy (ct_placement (co_catalog co)) (sm_dataset_id m) = Ok policy /\
    co_storage_profile co ∈ publication_chain policy /\
    (store_at (ct_store (co_catalog co)) w !! catalog_key (sm_dataset_id m) = Some (BJson (JObj old)) /\
     old !! "owner_id" = Some (JStr (co_owner_id co)) /\ old !! "owner_location" = Some (JStr (co_owner_location co)) /\
     now = clock i /\ exists x expires, old !! "expires_at_ms" = Some x /\ as_num x = Ok expires /\ now < expires) /\
    (store_at (ct_store (co_catalog co)) w' !! catalog_key (sm_dataset_id m) = Some (BJson (JObj record)) /\
     record !! "replicas" = Some (JObj reps) /\ reps !! co_storage_profile co = Some (JObj (generation_to_dict d)) /\
     gd_dataset_id d = sm_dataset_id m /\ gd_generation_id d = sm_generation_id m /\ gd_sequence d = sm_published_at_ms m) /\
    forall r, r ∈ all_objects d -> or_store_profile r = co_storage_profile co /\
      ((co_store co = ct_store (co_catalog co) -> or_key r <> catalog_key (sm_dataset_id m)) -> stored (store_at (co_store co) w') r).
Proof.
  intros H Hstore.
  destruct (publish_Ok _ _ _ _ H Hstore) as (policy & d & old & now & i & w1 & Hp & Hchain & Hg & Hd & D1 & D2 & D3 & D4 & D5 & Hr
    & Hnew & Hall & Hold & Hval & Hi & Hloc & [fence Hadv] & Hw').
  destruct (advertise_record_fields _ _ _ _ _ _ Hadv) as ([u Hown] & (reps & Hreps & Hrep) & _).
  destruct (check_owner_fields _ _ _ _ _ Hown) as (Ho & _ & Hexp).
  exists policy, d, old, now, i, reps. split; [done|]. split; [done|].
  split; [by split_and!|]. split; [split_and!; try done; rewrite Hw', bool_decide_eq_true_2 by done; by rewrite lookup_insert_eq|].
  intros r Hin. rewrite Forall_forall in Hall. destruct (Hall r Hin) as [Hprof (b & Hb & Hsz & Hsha)]. split; [done|].
  intros Hne. exists b. split; [|done]. rewrite Hw'. case_bool_decide as Hc; [|done].
  rewrite lookup_insert_ne by (intros He; by apply (Hne Hc)). by rewrite <- Hc.
Qed.
End publication.

(** C25: the catalog refines its step relation.  Every catalog operation either raises
    before anything is written, because the dataset has no valid policy, or performs
    one atomic step of [catalog_step] on the record of its dataset, whatever the
    outcome, and leaves every other key of the catalog store and every other store
    as it was. *)
Theorem catalog_operations_refine `{HEnv : Env} `{HKey : ReceiptKey} (c : catalog) op w :
  match dataset_policy (ct_placement c) (op_dataset op) with
  | Ok policy => one_step c (op_dataset op) policy w (perform_op c op w).2
  | Err _ => (exists e, (perform_op c op w).1 = Err e) /\ (perform_op c op w).2 = w
  end.
Proof.
  destruct (dataset_policy (ct_placement c) (op_dataset op)) as [policy|e] eqn:Hp.
  - destruct op; cbn [op_dataset perform_op] in *;
      eauto using create_step, handover_step, takeover_step, renew_step, advertise_step.
  - assert (forall r, gd_dataset_id (vr_descriptor r) = op_dataset op -> exists e', check_receipt c r = Err e') as Hr.
    { intros r Hr. unfold check_receipt. rewrite Hr, Hp. cbn [mbind res_bind]. destruct (raise_if _ _); eauto. }
    destruct op; cbn [op_dataset perform_op] in *; [..|destruct (Hr r eq_refl) as [e' He']];
      unfold create, handover, takeover, renew, advertise, mbind, M_bind, lift; rewrite ?Hp, ?He'; eauto.
Qed.

(** C24: the history of a dataset's record.  Starting from a catalog without the
    dataset, after any interleaving of the steps of any number of Managers, stale
    reads included, a record [s1] and any later record [s2] of it are well formed:
    the owner is known and its location is inside the residency boundary, and every
    region advertises only objects of its own store, as the content recorded for the
    sequence number.  From [s1] to [s2] the fence never decreases and one fence value
    names one owner at one location; what a sequence number stands for never changes;
    and in every region the advertised sequence never goes back, nor does its content
    change under the same sequence. *)
Theorem catalog_history `{HKey : ReceiptKey} (c : catalog) dataset_id policy s0 s1 s2 d1 :
  dataset_policy (ct_placement c) dataset_id = Ok policy ->
  s0 !! catalog_key dataset_id = None ->
  rtc (catalog_step c dataset_id policy) s0 s1 -> s1 !! catalog_key dataset_id = Some (BJson (JObj d1)) ->
  rtc (catalog_step c dataset_id policy) s1 s2 ->
  exists v1 d2 v2, has_view dataset_id d1 v1 /\ view_ok policy dataset_id v1 /\
    s2 !! catalog_key dataset_id = Some (BJson (JObj d2)) /\ has_view dataset_id d2 v2 /\ view_ok policy dataset_id v2 /\
    view_le v1 v2.
Proof.
  intros Hp Hn H1 Hd1 H2.
  destruct (catalog_steps_keep c dataset_id policy Hp _ _ H1) as [Hok1 _]; [intros b Hb; congruence|].
  destruct (catalog_steps_keep c dataset_id policy Hp _ _ H2 Hok1) as [Hok2 Hle].
  destruct (Hok1 _ Hd1) as (d & v1 & [= <-] & Hv1 & Hvo1). destruct (Hle d1 v1 Hd1 Hv1) as (d2 & v2 & Hd2 & Hv2 & Hvle).
  destruct (Hok2 _ Hd2) as (d' & v' & [= <-] & Hv' & Hvo2). rewrite (has_view_inj dataset_id _ _ _ Hv' Hv2) in Hvo2.
  exists v1, d2, v2. split_and!; done.
Qed.

(** ** The coordinator as the queue's federation

    With the catalog in the Manager's own store, the queue's collaborator is this
    regional_coordinator running on that store. *)

Section frame.
Context `{HEnv : Env} `{HKey : ReceiptKey}.

(** Run a computation of the region on the Manager's store. *)
Definition region_run {A} (h : string) (m : M fworld A) : M world A := fun w =>
  let r := m (FWorld {[h := w_store w]} (w_ticks w)) in
  (r.1, World (store_at h r.2) (fw_ticks r.2) (w_tokens w) (w_lease w)).

Definition queue_federation (co : regional_coordinator) : federation_ops :=
  FederationOps (fun m => region_run (co_store co) (publish co m;; mret tt))
    (fun d t e => region_run (co_store co) (snapshot co d t e)).

(** Computations that leave the task records of a store alone. *)
Definition spares {A} (h : string) (m : M fworld A) : Prop :=
  forall w k, task_area k -> store_at h (m w).2 !! k = store_at h w !! k.

Lemma spares_freads {A} h (m : M fworld A) : freads m -> spares h m.
Proof. intros Hm w k _. by rewrite Hm. Qed.

Lemma spares_bind {A B} h (m : M fworld A) (f : A -> M fworld B) : spares h m -> (forall a, spares h (f a)) -> spares h (m ≫= f).
Proof.
  intros Hm Hf w k Hk. unfold mbind, M_bind. specialize (Hm w k Hk).
  destruct (m w) as [[a|e] w1]; cbn in *; [by rewrite Hf|done].
Qed.

Lemma fed_area k t : k = "_control/federation/" +:+ t -> task_area k -> False.
Proof. intros ->. intros H%area_startswith. apply startswith_spec in H as [u H]. cbn in H. discriminate. Qed.

Lemma spares_put h g key doc n : normalize_key key = Ok key -> (exists t, key = "_control/federation/" +:+ t) ->
  spares h (on g (put_blob_if_absent key doc n)).
Proof.
  intros Hn [t Ht] w k Hk. rewrite store_at_on. case_bool_decide as Hg; [subst h|done].
  pose proof (put_blob_if_absent_keeps key key doc n (store_at g w) Hn) as Hp.
  destruct (put_blob_if_absent key doc n (store_at g w)) as [r s']. destruct Hp as (_ & Hp & _). cbn [snd].
  apply Hp. intros ->. by eapply fed_area.
Qed.

Lemma spares_cas h g d e b : spares h (on g (compare_and_swap (catalog_key d) e b)).
Proof.
  intros w k Hk. rewrite store_at_on. case_bool_decide as Hg; [subst h|done].
  rewrite (compare_and_swap_spec _ _ _ _ _ (catalog_key_normal d)). destruct (decide _); [|done]. cbn [snd].
  rewrite lookup_insert_ne; [done|]. intros <-. by eapply (fed_area _ ("datasets/" +:+ "" +:+ sha256_hex d +:+ "" +:+ ".json")).
Qed.

Lemma fed_snapshot_key_area m : exists t, fed_snapshot_key m = "_control/federation/" +:+ t.
Proof.
  exists ("snapshots/" +:+ "" +:+ sha256_hex (sm_dataset_id m) +:+ "" +:+ "/" +:+ "" +:+ snapshot_digest m +:+ "" +:+ ".json").
  reflexivity.
Qed.
Lemma fed_manifest_key_area m : exists t, fed_manifest_key m = "_control/federation/" +:+ t.
Proof.
  exists ("manifests/" +:+ "" +:+ sha256_hex (sm_dataset_id m) +:+ "" +:+ "/" +:+ "" +:+ sha256_hex (sm_generation_id m) +:+ "" +:+ "/"
          +:+ "" +:+ snapshot_digest m +:+ "" +:+ ".json").
  reflexivity.
Qed.

Lemma spares_lift {A} h (r : res A) : spares h (lift r).
Proof. apply spares_freads, freads_lift. Qed.

Lemma spares_describe h co m : spares h (describe co m).
Proof.
  unfold describe. apply spares_bind; [apply spares_lift|intros _].
  apply spares_bind; [apply spares_put; [apply fed_snapshot_key_normal|apply fed_snapshot_key_area]|intros _].
  apply spares_bind; [apply spares_lift|intros splits].
  apply spares_bind; [apply spares_freads; unfold reference_metadata, reference_of_object; solve_freads|intros metadata].
  do 3 (apply spares_bind; [apply spares_lift|intros ?]). cbv zeta.
  apply spares_bind; [apply spares_put; [apply fed_manifest_key_normal|apply fed_manifest_key_area]|intros _].
  apply spares_bind; [apply spares_lift|intros ?]. apply spares_lift.
Qed.

Lemma spares_publish h co m : spares h (publish co m).
Proof.
  unfold publish.
  apply spares_bind; [apply spares_freads; solve_freads|intros policy].
  apply spares_bind; [apply spares_freads; solve_freads|intros u].
  apply spares_bind; [apply spares_freads; unfold require_owner, get_record; solve_freads; apply freads_read_record|intros record].
  apply spares_bind.
  { apply spares_describe. }
  intros d. apply spares_bind; [apply spares_freads, freads_verify_replica|intros receipt].
  apply spares_bind; [apply spares_freads; solve_freads|intros fence].
  unfold advertise. repeat (apply spares_bind; [apply spares_freads; solve [eauto using freads_read_record with fsp]|intros ?]).
  unfold commit. apply spares_bind; [apply spares_cas|intros swapped]. apply spares_freads. solve_freads.
Qed.

Lemma freads_snapshot co d t e : freads (snapshot co d t e).
Proof. unfold snapshot, get_record. solve_freads; apply freads_read_record. Qed.
Lemma region_run_spares {A} h (m : M fworld A) w k : spares h m -> task_area k -> w_store (region_run h m w).2 !! k = w_store w !! k.
Proof.
  intros Hm Hk. unfold region_run. cbn [snd w_store]. rewrite (Hm _ k Hk). unfold store_at. cbn. by rewrite lookup_singleton_eq.
Qed.

(** The queue's theorems hold for a queue federated through this coordinator. *)
#[global] Instance coordinator_frame q co tables : FederationFrame (configure_federation q (queue_federation co) tables).
Proof.
  split.
  - intros fed m [= <-] w k Hk. apply region_run_spares; [|done]. apply spares_bind; [apply spares_publish|intros _].
    apply spares_freads, freads_ret.
  - intros fed d t e [= <-] w k Hk. apply region_run_spares; [|done]. apply spares_freads, freads_snapshot.
Qed.
End frame.

(** ** A region that publishes *)

Definition region_env : Env := {| clock := fun n => 1735689600000 + Z.of_nat n; token := fun _ => "" |}.
Definition region_key : ReceiptKey := [1; 2; 3]%N.
Definition region_catalog : catalog := Catalog "catalog" demo_placement.
Definition region_coordinator : regional_coordinator :=
  Coordinator region_catalog (Verifier demo_placement {["blob-eu" := "eu"]}) "eu" "mgr-eu" "westeurope" "blob-eu" 60000.
Definition region_dataset : string := "erp::sales.orders".
Definition region_manifest : snapshot_manifest :=
  SnapshotManifest "orders" 7 "delta" [SplitRef "orders/part-0.parquet" 3 1 (sha256_hex "abc") None] [] "gen-1" 1 ""
    1735689600000 "req-1" region_dataset 1735689600000 "contoso".

(** A dataset created by the Manager, and its split in the local store. *)
Definition region_world : fworld :=
  (create (HEnv:=region_env) region_catalog region_dataset "mgr-eu" "westeurope" 60000 1000 None
     (FWorld {["eu" := {["orders/part-0.parquet" := BRaw "abc"]}]} 0)).2.

Definition region_publish : res dict * fworld :=
  publish (HEnv:=region_env) (HKey:=region_key) region_coordinator region_manifest region_world.

Definition succeeds {A} (r : res A) : bool := match r with Ok _ => true | Err _ => false end.

Lemma region_publish_succeeds : succeeds region_publish.1 = true.
Proof. vm_compute. reflexivity. Qed.

Lemma federated_snapshot_served_witness :
  exists record w', region_publish = (Ok record, w') /\
  exists w'',
    snapshot region_coordinator region_dataset "orders" 7 w' =
      ((if MANIFEST_LIMIT <? blob_size (snapshot_doc region_manifest)
        then Err (ValueError "serving snapshot exceeds the 4 MiB metadata limit") else Ok (Some region_manifest)), w'') /\ stays w' w''.
Proof.
  pose proof region_publish_succeeds as Hok. destruct region_publish as [[record|e] w'] eqn:E; [|discriminate Hok].
  exists record, w'. split; [reflexivity|].
  apply (federated_snapshot_served (HEnv:=region_env) (HKey:=region_key) region_coordinator region_manifest 7 region_world record w' E).
  - reflexivity.
  - intros b. assert (store_at (co_store region_coordinator) region_world !! fed_snapshot_key region_manifest = None) as ->
      by (vm_compute; reflexivity). intros Hn. discriminate Hn.
  - right. reflexivity.
Defined.

Lemma published_generation_verified_witness :
  exists record w' d reps, region_publish = (Ok record, w') /\ record !! "replicas" = Some (JObj reps) /\
    reps !! "blob-eu" = Some (JObj (generation_to_dict d)) /\
    forall r, r ∈ all_objects d -> stored (store_at "eu" w') r.
Proof.
  pose proof region_publish_succeeds as Hok. destruct region_publish as [[record|e] w'] eqn:E; [|discriminate Hok].
  destruct (published_generation_verified (HEnv:=region_env) (HKey:=region_key) region_coordinator region_manifest region_world record w' E
    eq_refl) as (policy & d & old & now & i & reps & _ & _ & _ & (_ & Hreps & Hd & _) & Hall).
  exists record, w', d, reps. split; [reflexivity|]. split; [exact Hreps|]. split; [exact Hd|].
  intros r Hr. apply (Hall r Hr). discriminate.
Defined.

Definition region_policy : materializer_policy := policy_for demo_placement "erp" "sales.orders".
Definition region_created : dict := created_record region_policy region_dataset "mgr-eu" "westeurope" 60000 1000 1735689600000.

Definition region_handed : dict :=
  match handover_record region_created "mgr-eu" 1 "mgr-north" "westeurope" 60000 1735689600500 with Ok d => d | Err _ => ∅ end.

Lemma catalog_history_witness :
  let s1 : mem := <[catalog_key region_dataset := BJson (JObj region_created)]> ∅ in
  let s2 : mem := <[catalog_key region_dataset := BJson (JObj region_handed)]> s1 in
  exists v1 d2 v2, has_view region_dataset region_created v1 /\ view_ok region_policy region_dataset v1 /\
    s2 !! catalog_key region_dataset = Some (BJson (JObj d2)) /\ has_view region_dataset d2 v2 /\
    view_ok region_policy region_dataset v2 /\ view_le v1 v2.
Proof.
  intros s1 s2.
  assert (Hloc : "westeurope" ∈ po_residency_locations region_policy) by (vm_compute; repeat constructor).
  assert (Hh : handover_record region_created "mgr-eu" 1 "mgr-north" "westeurope" 60000 1735689600500 = Ok region_handed).
  { assert (Hok : succeeds (handover_record region_created "mgr-eu" 1 "mgr-north" "westeurope" 60000 1735689600500) = true)
      by (vm_compute; reflexivity).
    unfold region_handed. destruct (handover_record _ _ _ _ _ _ _); [reflexivity|discriminate Hok]. }
  apply (catalog_history (HKey:=region_key) region_catalog region_dataset region_policy ∅ s1 s2 region_created).
  - vm_compute. reflexivity.
  - apply lookup_empty.
  - apply rtc_once. apply (step_create _ _ _ "mgr-eu" "westeurope" 60000 1000 1735689600000); [discriminate|exact Hloc|].
    exists true. rewrite (compare_and_swap_spec _ _ _ _ _ (catalog_key_normal _)). rewrite decide_True by apply lookup_empty. reflexivity.
  - apply lookup_insert_eq.
  - apply rtc_once.
    apply (step_handover _ _ _ _ region_created "mgr-eu" 1 "mgr-north" "westeurope" 60000 1735689600500 region_handed _ _ eq_refl);
      [discriminate|exact Hloc|exact Hh|].
    exists true. rewrite (compare_and_swap_spec _ _ _ _ _ (catalog_key_normal _)). rewrite decide_True by apply lookup_insert_eq. reflexivity.
Defined.
