(* ===== verification/Registry.v ===== *)
(** * The agent registry

    [control/registry.py]: the Manager's view of its Agents, with registration,
    heartbeats, queued commands, liveness, and the copy kept in the leader lease.
    Times are binary64 seconds of a monotonic clock.  The durable document is a
    list of [agent_snapshot]s; its JSON form, which holds a float, is a parameter,
    and so is the network test of [ipaddress].  The ages [to_public] reports for
    display are left out. *)

From S2P Require Import Prelude PyText Json World Lease Contract Sources Floats Placement.
From Stdlib Require Import Ascii.

(** ** Data *)

Record agent_health := AgentHealth {
  ah_cpu_pct : float;
  ah_mem_bytes : Z;
  ah_cache_bytes : Z;
  ah_inflight : Z;
}.
Definition no_health : agent_health := AgentHealth (Float 0 0) 0 0 0.

Record heartbeat_request := HeartbeatRequest {
  hr_agent_id : string;
  hr_lease_id : string;
  hr_health : agent_health;
  hr_serving_tables : list string;
  hr_epochs : gmap string Z;
  hr_active_task_ids : list string;
}.

(** What an Agent says of itself, and what the operator's pools say of it. *)
Record agent_claims := AgentClaims {
  ac_host : string;
  ac_port : Z;
  ac_os : string;
  ac_version : string;
  ac_capacity_hint : Z;
  ac_advertise_host : string;
  ac_capabilities : list string;
  ac_shard_index : Z;
  ac_contract_version : string;
}.

Record agent_placement := AgentPlacement {
  ap_pool_id : string;
  ap_location : string;
  ap_storage_profile : string;
  ap_tenant_id : string;
  ap_upgrade_ring : string;
  ap_allowed_connection_ids : list string;
  ap_allowed_table_patterns : list string;
}.

(** [AgentRecord] *)
Record agent_record := AgentRecord {
  ar_agent_id : string;
  ar_lease_id : string;
  ar_claims : agent_claims;
  ar_placement : agent_placement;
  ar_registered_at : float;
  ar_last_seen : float;
  ar_health : agent_health;
  ar_serving_tables : list string;
  ar_epochs : gmap string Z;
  ar_commands : list control_command;
  ar_draining : bool;
}.

(** One entry of the durable document: the record, its two times as ages in
    milliseconds, without what the pools say. *)
Record agent_snapshot := AgentSnapshot {
  as_agent_id : string;
  as_lease_id : string;
  as_claims : agent_claims;
  as_registered_age_ms : Z;
  as_last_seen_age_ms : Z;
  as_health : agent_health;
  as_serving_tables : list string;
  as_epochs : gmap string Z;
  as_commands : list control_command;
  as_draining : bool;
}.

Record agent_registry := AgentRegistry {
  rg_heartbeat_ms : Z;
  rg_miss_limit : Z;
  rg_allowed_hosts : list string;
  rg_placement : placement_config;
  rg_agents : list (string * agent_record);
  rg_durable : bool;
}.

(** [Registry()] *)
Definition new_registry (heartbeat_ms miss_limit : Z) (allowed_hosts : list string) (placement : placement_config) : agent_registry :=
  AgentRegistry heartbeat_ms (Z.max 1 miss_limit)
    (map (fun x => lower (strip x)) (filter (fun x => strip x <> "") allowed_hosts)) placement [] false.

Definition set_agents (l : list (string * agent_record)) (r : agent_registry) : agent_registry :=
  AgentRegistry (rg_heartbeat_ms r) (rg_miss_limit r) (rg_allowed_hosts r) (rg_placement r) l (rg_durable r).
Definition set_durable (b : bool) (r : agent_registry) : agent_registry :=
  AgentRegistry (rg_heartbeat_ms r) (rg_miss_limit r) (rg_allowed_hosts r) (rg_placement r) (rg_agents r) b.

(** A Manager process: its registry, and the store and lease it shares. *)
Record fleet := Fleet {
  fl_registry : agent_registry;
  fl_world : world;
  fl_readings : nat;
  fl_uuids : nat;
}.
Definition set_registry (r : agent_registry) (f : fleet) : fleet := Fleet r (fl_world f) (fl_readings f) (fl_uuids f).

Class Process := {
  monotonic : nat -> float;
  uuid : nat -> string;
  encode_snapshot : list agent_snapshot -> json;
  decode_snapshot : json -> res (list agent_snapshot);
  in_network : string -> string -> bool;
}.

Section registry.
Context `{Env} `{Process}.

Definition on_world {A} (m : M world A) : M fleet A := fun f =>
  ((m (fl_world f)).1, Fleet (fl_registry f) (m (fl_world f)).2 (fl_readings f) (fl_uuids f)).
(** [_now()], [uuid.uuid4().hex] *)
Definition now_ : M fleet float := fun f =>
  (Ok (monotonic (fl_readings f)), Fleet (fl_registry f) (fl_world f) (S (fl_readings f)) (fl_uuids f)).
Definition uuid4 : M fleet string := fun f =>
  (Ok (uuid (fl_uuids f)), Fleet (fl_registry f) (fl_world f) (fl_readings f) (S (fl_uuids f))).

Definition reg {A} (g : agent_registry -> A) : M fleet A := gets (fun f => g (fl_registry f)).
Definition update_agents (g : list (string * agent_record) -> list (string * agent_record)) : M fleet unit :=
  modify (fun f => set_registry (set_agents (g (rg_agents (fl_registry f))) (fl_registry f)) f).

Definition fsub (f g : float) : float := fadd f (Float (- mantissa g) (exponent g)).

(** [max(0, int((now - t) * 1000))] and back *)
Definition age_ms (now t : float) : Z := Z.max 0 (ftrunc (fmul_int (fsub now t) 1000)).
Definition time_at_age (now : float) (age : Z) : float := fsub now (int_truediv (Z.max 0 age) 1000).

Definition agent_le (a b : string * agent_record) : Prop := str_le (ar_agent_id a.2) (ar_agent_id b.2).
#[local] Instance agent_le_dec a b : Decision (agent_le a b).
Proof. unfold agent_le. apply _. Defined.

Definition snapshot_of (now : float) (r : agent_record) : agent_snapshot :=
  AgentSnapshot (ar_agent_id r) (ar_lease_id r) (ar_claims r) (age_ms now (ar_registered_at r))
    (age_ms now (ar_last_seen r)) (ar_health r) (ar_serving_tables r) (ar_epochs r) (ar_commands r) (ar_draining r).

(** [_snapshot_locked] *)
Definition snapshot_locked : M fleet (list agent_snapshot) :=
  now ← now_;
  reg (fun r => map (fun kv => snapshot_of now kv.2) (merge_sort agent_le (rg_agents r))).

(** What a record takes from the pool of its identity. *)
Definition placement_fields (pool : option materializer_pool) : agent_placement :=
  match pool with
  | Some q => AgentPlacement (mp_pool_id q) (mp_location q) (mp_storage_profile q) (mp_tenant_id q) (mp_upgrade_ring q)
                (merge_sort str_le (elements (mp_allowed_connection_ids q))) (mp_allowed_table_patterns q)
  | None => AgentPlacement "" "" "" "" "" [] []
  end.

(** One entry of [_restore_locked]: a record, or nothing where its version is no
    longer supported. *)
Definition restore_entry (c : placement_config) (now : float) (s : agent_snapshot) : res (option agent_record) :=
  match validate_agent_version c (as_agent_id s) (ac_version (as_claims s)) with
  | Ok _ =>
      let claims := as_claims s in
      Ok (Some (AgentRecord (as_agent_id s) (as_lease_id s)
            (AgentClaims (ac_host claims) (ac_port claims) (ac_os claims) (ac_version claims) (ac_capacity_hint claims)
               (ac_advertise_host claims) (sorted_set (ac_capabilities claims)) (ac_shard_index claims)
               (ac_contract_version claims))
            (placement_fields (pool_for_identity c (as_agent_id s)))
            (time_at_age now (as_registered_age_ms s)) (time_at_age now (as_last_seen_age_ms s)) (as_health s)
            (as_serving_tables s) (as_epochs s) (as_commands s) (as_draining s)))
  | Err (AgentVersionUnsupported _) => Ok None
  | Err e => Err e
  end.

Definition restored (c : placement_config) (now : float) (l : list agent_snapshot) : res (list (string * agent_record)) :=
  records ← res_map (restore_entry c now) l;
  Ok (foldl (fun d r => odict_set (ar_agent_id r) r d) [] (omap id records)).

(** [_restore_locked] *)
Definition restore_locked (l : list agent_snapshot) : M fleet unit :=
  now ← now_;
  c ← reg rg_placement;
  agents ← lift (restored c now l);
  update_agents (fun _ => agents).

(** [_persist_locked] *)
Definition persist_locked (before : list agent_snapshot) : M fleet unit :=
  durable ← reg rg_durable;
  if negb durable then mret tt
  else catch (s ← snapshot_locked; on_world (mutate_state "registry" (encode_snapshot s) None);; mret tt)
             (fun e => restore_locked before;; raise e).

(** [attach_durable_state], [detach_durable_state] *)
Definition attach_durable_state (restore : bool) : M fleet Z :=
  modify (fun f => set_registry (set_durable true (fl_registry f)) f);;
  (if restore then
     v ← on_world (read_state "registry");
     match v with JNull => mret tt | v => l ← lift (decode_snapshot v); restore_locked l end
   else mret tt);;
  s ← snapshot_locked;
  on_world (mutate_state "registry" (encode_snapshot s) None).
Definition detach_durable_state : M fleet unit :=
  modify (fun f => set_registry (set_durable false (fl_registry f)) f).

(** [rstrip(".")] *)
Definition rstrip_dot (s : string) : string := rstrip_char "."%char s.

(** [_host_allowed] *)
Definition host_allowed (r : agent_registry) (host : string) : bool :=
  if bool_decide (rg_allowed_hosts r = []) then true
  else
    let value := rstrip_dot (lower (strip host)) in
    existsb (fun entry => String.eqb value (rstrip_dot entry) || in_network value entry) (rg_allowed_hosts r).

(** The record of a new registration. *)
Definition new_record (req : register_request) (c : placement_config) (lease : string) (now : float) : agent_record :=
  AgentRecord (rr_agent_id req) lease
    (AgentClaims (rr_host req) (rr_port req) (rr_os req) (rr_version req) (rr_capacity_hint req) (rr_advertise_host req)
       (sorted_set (rr_capabilities req)) (rr_shard_index req) (rr_contract_version req))
    (placement_fields (pool_for_identity c (rr_agent_id req))) now now no_health [] ∅ [] false.

(** [pool.x if pool and pool.x else default] *)
Definition pool_setting (get : materializer_pool -> option Z) (pool : option materializer_pool) (otherwise : Z) : Z :=
  match pool ≫= get with Some n => if truthy_int n then n else otherwise | None => otherwise end.

(** [register] *)
Definition register (req : register_request) : M fleet register_response :=
  r ← reg id;
  let c := rg_placement r in
  if negb ((1 <=? rr_port req) && (rr_port req <=? 65535)) then raise (ValueError "agent port must be in 1..65535")
  else if rr_shard_index req <? -1 then raise (ValueError "agent shard_index must be >= -1")
  else if negb (contract_compatible (rr_contract_version req))
  then raise (ValueError (fmt ["incompatible control contract "; quoted (rr_contract_version req); "; Manager uses ";
                               CONTRACT_VERSION]))
  else if negb (host_allowed r (rr_host req)) || negb (host_allowed r (str_or (rr_advertise_host req) (rr_host req)))
  then raise (ValueError "agent host is not allowed by AGENT_HOST_ALLOWLIST")
  else
    lift (validate_agent_version c (rr_agent_id req) (rr_version req));;
    lease ← uuid4;
    now ← now_;
    before ← snapshot_locked;
    update_agents (odict_set (rr_agent_id req) (new_record req c lease now));;
    persist_locked before;;
    mret (RegisterResponse lease (pool_setting mp_heartbeat_ms (pool_for_identity c (rr_agent_id req)) (rg_heartbeat_ms r))
            CONTRACT_VERSION).

Definition beat (now : float) (req : heartbeat_request) (a : agent_record) : agent_record :=
  AgentRecord (ar_agent_id a) (ar_lease_id a) (ar_claims a) (ar_placement a) (ar_registered_at a) now (hr_health req)
    (hr_serving_tables req) (hr_epochs req) [] (ar_draining a).

(** [heartbeat] *)
Definition heartbeat (req : heartbeat_request) : M fleet (list control_command) :=
  before ← snapshot_locked;
  rec ← reg (fun r => odict_get (hr_agent_id req) (rg_agents r));
  let stale := raise (LeaseError (fmt ["unknown or stale lease for agent "; quoted (hr_agent_id req)])) in
  match rec with
  | Some a =>
      if negb (String.eqb (ar_lease_id a) (hr_lease_id req)) then stale
      else
        now ← now_;
        update_agents (odict_set (hr_agent_id req) (beat now req a));;
        persist_locked before;;
        mret (ar_commands a)
  | None => stale
  end.

Definition add_command (cmd : control_command) (a : agent_record) : agent_record :=
  AgentRecord (ar_agent_id a) (ar_lease_id a) (ar_claims a) (ar_placement a) (ar_registered_at a) (ar_last_seen a)
    (ar_health a) (ar_serving_tables a) (ar_epochs a) (ar_commands a ++ [cmd])
    (if String.eqb (cc_kind cmd) "drain" then true else ar_draining a).

(** [queue_command], [broadcast], [remove] *)
Definition queue_command (agent_id : string) (cmd : control_command) : M fleet bool :=
  before ← snapshot_locked;
  rec ← reg (fun r => odict_get agent_id (rg_agents r));
  match rec with
  | None => mret false
  | Some a =>
      update_agents (odict_set agent_id (add_command cmd a));;
      persist_locked before;;
      mret true
  end.

Definition broadcast (cmd : control_command) : M fleet Z :=
  before ← snapshot_locked;
  update_agents (map (fun kv : string * agent_record => (kv.1, add_command cmd kv.2)));;
  persist_locked before;;
  reg (fun r => Z.of_nat (length (rg_agents r))).

Definition remove (agent_id : string) : M fleet bool :=
  before ← snapshot_locked;
  rec ← reg (fun r => odict_get agent_id (rg_agents r));
  match rec with
  | None => mret false
  | Some _ => update_agents (odict_pop agent_id);; persist_locked before;; mret true
  end.

(** ** Liveness and views *)

(** [heartbeat_timeout_seconds], [_is_alive] *)
Definition heartbeat_timeout_seconds (r : agent_registry) (agent_id : string) : float :=
  let pool := pool_for_identity (rg_placement r) agent_id in
  fmul_int (int_truediv (pool_setting mp_heartbeat_ms pool (rg_heartbeat_ms r)) 1000)
    (pool_setting mp_heartbeat_miss_limit pool (rg_miss_limit r)).
Definition record_alive (r : agent_registry) (a : agent_record) (now : float) : bool :=
  fgeb (heartbeat_timeout_seconds r (ar_agent_id a)) (fsub now (ar_last_seen a)).

(** [is_alive], [dead_agents], [get], [list_agents], [count] *)
Definition is_alive (agent_id : string) : M fleet bool :=
  rec ← reg (fun r => odict_get agent_id (rg_agents r));
  match rec with
  | None => mret false
  | Some a => now ← now_; reg (fun r => record_alive r a now)
  end.
Definition dead_agents : M fleet (list string) :=
  now ← now_;
  reg (fun r => map (fun kv => ar_agent_id kv.2) (filter (fun kv => record_alive r kv.2 now = false) (rg_agents r))).
Definition get_agent (agent_id : string) : M fleet (option agent_record) := reg (fun r => odict_get agent_id (rg_agents r)).
Definition list_agents : M fleet (list agent_record) := reg (fun r => map snd (rg_agents r)).
Definition agent_count : M fleet Z := reg (fun r => Z.of_nat (length (rg_agents r))).
End registry.
