(* ===== verification/RegistryProps.v ===== *)
(** * The agent registry: identities, rollback and command delivery

    What every registry a Manager can reach satisfies, what a failed durable write
    leaves behind, and that each command reaches its Agent exactly once. *)

From S2P Require Import Prelude PyText Json ArtifactStore World Lease Contract Sources Floats Placement PlacementProps Registry.

#[local] Existing Instance agent_le_dec.

(** ** Records the registry may hold *)

(** The placement of a record is the operator's, and its version is admitted. *)
Record record_ok (c : placement_config) (k : string) (a : agent_record) : Prop := {
  ok_key : ar_agent_id a = k;
  ok_placement : ar_placement a = placement_fields (pool_for_identity c k);
  ok_version : validate_agent_version c k (ac_version (ar_claims a)) = Ok tt;
  ok_capabilities : sorted_set (ac_capabilities (ar_claims a)) = ac_capabilities (ar_claims a);
}.

Definition agents_ok (c : placement_config) (l : list (string * agent_record)) : Prop :=
  NoDup (map fst l) /\ forall k a, (k, a) ∈ l -> record_ok c k a.
Definition registry_ok (r : agent_registry) : Prop := agents_ok (rg_placement r) (rg_agents r).

(** ** Sorted sets *)

Lemma sorted_set_idem l : sorted_set (sorted_set l) = sorted_set l.
Proof.
  unfold sorted_set.
  assert (Hid : forall k : list string, NoDup k -> remove_dups k = k).
  { induction k as [|x k IH]; intros Hk; [done|]. apply NoDup_cons in Hk as [Hx Hk]. cbn.
    destruct (decide_rel _ x k); [done|]. by rewrite IH. }
  rewrite Hid by (rewrite merge_sort_Permutation; apply NoDup_remove_dups). assert (Total str_le) by (intros a b; unfold str_le; apply total; apply _).
  assert (Transitive str_le) by (intros a b d; unfold str_le; apply transitivity).
  assert (AntiSymm (=) str_le) by (intros a b; unfold str_le; apply anti_symm; apply _).
  apply (Sorted_unique str_le); [apply Sorted_merge_sort, _..|]. apply merge_sort_Permutation.
Qed.

(** ** A durable copy and its restoration *)

Section restore.
Context `{Process}.

(** The record a snapshot of [a] is restored to. *)
Definition at_time (now now' : float) (a : agent_record) : agent_record :=
  AgentRecord (ar_agent_id a) (ar_lease_id a) (ar_claims a) (ar_placement a)
    (time_at_age now' (age_ms now (ar_registered_at a))) (time_at_age now' (age_ms now (ar_last_seen a)))
    (ar_health a) (ar_serving_tables a) (ar_epochs a) (ar_commands a) (ar_draining a).

(** The Agents of [l'] are those of [l] with times moved: the ages they had at [now], in whole
    milliseconds, they have at [now']. *)
Definition moved (now now' : float) (l l' : list (string * agent_record)) : Prop :=
  forall k, odict_get k l' = at_time now now' <$> odict_get k l.

Lemma restore_entry_snapshot c k now now' a : record_ok c k a ->
  restore_entry c now' (snapshot_of now a) = Ok (Some (at_time now now' a)).
Proof.
  intros [Hk Hp Hv Hc]. unfold restore_entry, snapshot_of, at_time. cbn [as_agent_id as_claims].
  rewrite Hk, Hv. destruct (ar_claims a). cbn in *. by rewrite Hc, <- Hp.
Qed.

Lemma at_time_ok c k now now' a : record_ok c k a -> record_ok c k (at_time now now' a).
Proof. intros []. by split. Qed.

Lemma restored_snapshots c now now' (l : list (string * agent_record)) :
  (forall k a, (k, a) ∈ l -> record_ok c k a) ->
  res_map (restore_entry c now') (map (fun kv => snapshot_of now kv.2) l)
  = Ok (map (fun kv => Some (at_time now now' kv.2)) l).
Proof.
  induction l as [|[k a] l IH]; intros Hl; [done|]. cbn [map res_map snd].
  rewrite (restore_entry_snapshot c k) by (apply Hl; left). cbn. rewrite IH; [done|]. intros k' a' Hin. apply Hl. by right.
Qed.

Definition rebuild (l : list agent_record) : list (string * agent_record) :=
  foldl (fun d r => odict_set (ar_agent_id r) r d) [] l.

Lemma rebuild_snoc l r : rebuild (l ++ [r]) = odict_set (ar_agent_id r) r (rebuild l).
Proof. unfold rebuild. by rewrite foldl_app. Qed.

Lemma rebuild_spec l : NoDup (map ar_agent_id l) ->
  NoDup (map fst (rebuild l)) /\ forall k a, odict_get k (rebuild l) = Some a <-> a ∈ l /\ ar_agent_id a = k.
Proof.
  induction l as [|r l IH] using rev_ind; intros HN.
  - split; [constructor|]. intros k a. cbn. set_solver.
  - rewrite map_app in HN. apply NoDup_app in HN as (HN & Hfresh & _). destruct (IH HN) as [Hd Hg].
    rewrite rebuild_snoc. split; [by apply odict_set_NoDup|]. intros k a.
    destruct (decide (ar_agent_id r = k)) as [<-|Hne].
    + rewrite odict_get_set_eq, elem_of_app, list_elem_of_singleton. split; [intros [= ->]; auto|].
      intros [[Hin| ->] E]; [|done]. exfalso. apply (Hfresh (ar_agent_id r)); [|left].
      rewrite <- E. apply list_elem_of_fmap. eauto.
    + rewrite odict_get_set_ne by done. rewrite Hg, elem_of_app, list_elem_of_singleton. naive_solver.
Qed.

Lemma agents_ok_ids c l : agents_ok c l -> map (fun kv => ar_agent_id kv.2) l = map fst l.
Proof. intros [_ Hl]. apply map_ext_in. intros [k a] Hin. cbn. apply (Hl k a). by apply list_elem_of_In. Qed.

Lemma agents_ok_sorted c l : agents_ok c l -> agents_ok c (merge_sort agent_le l).
Proof.
  intros [HN Hl]. split.
  - eapply (NoDup_Permutation_proper _ (map fst l)); [|exact HN]. by rewrite merge_sort_Permutation.
  - intros k a Hin. rewrite merge_sort_Permutation in Hin. by apply Hl.
Qed.

(** Restoring a copy gives back the fleet it was taken of, whatever the clock. *)
Lemma restored_copy c now now' l : agents_ok c l ->
  exists l', restored c now' (map (fun kv => snapshot_of now kv.2) (merge_sort agent_le l)) = Ok l'
    /\ agents_ok c l' /\ moved now now' l l'.
Proof.
  intros Hok. pose proof (agents_ok_sorted _ _ Hok) as Hs. set (s := merge_sort agent_le l) in *.
  unfold restored. rewrite (restored_snapshots c now now' s) by apply Hs. cbn.
  assert (Hom : omap id (map (fun kv => Some (at_time now now' kv.2)) s) = map (fun kv : string * agent_record => at_time now now' kv.2) s).
  { clear. induction s as [|x s IH]; [done|]. cbn. by rewrite IH. }
  rewrite Hom. set (rs := map _ s).
  assert (Hids : map ar_agent_id rs = map fst s).
  { unfold rs. rewrite map_map. rewrite <- (agents_ok_ids c s Hs). done. }
  destruct (rebuild_spec rs) as [HN Hget]; [rewrite Hids; apply Hs|]. fold (rebuild rs). exists (rebuild rs). split; [done|].
  assert (Hback : forall k a, odict_get k (rebuild rs) = Some a -> exists a0, (k, a0) ∈ l /\ a = at_time now now' a0).
  { intros k a [Hin Hk]%Hget. apply list_elem_of_fmap in Hin as ([k0 a0] & -> & Hin). cbn in Hk.
    assert (k0 = k) as -> by (destruct Hs as [_ Hs]; rewrite <- (ok_key _ _ _ (Hs _ _ Hin)); done).
    exists a0. split; [|done]. unfold s in Hin. by rewrite merge_sort_Permutation in Hin. }
  split.
  - split; [done|]. intros k a Hin. apply odict_get_elem in Hin; [|done]. destruct (Hback _ _ Hin) as (a0 & Hin0 & ->).
    apply at_time_ok. by apply Hok.
  - intros x. destruct Hok as [HNl Hl]. destruct (odict_get x l) as [a|] eqn:Hx.
    + cbn. apply odict_get_In in Hx. apply Hget. split; [|apply (Hl _ _ Hx)].
      apply list_elem_of_fmap. exists (x, a). split; [done|]. unfold s. by rewrite merge_sort_Permutation.
    + destruct (odict_get x (rebuild rs)) as [a|] eqn:Hr; [|done]. exfalso.
      destruct (Hback _ _ Hr) as (a0 & Hin0 & _). apply odict_get_elem in Hin0; [congruence|done].
Qed.
End restore.

(** ** What each operation does to the fleet *)

Section operations.
Context `{Env} `{Process}.

(** What a failed operation leaves: the settings and the Agents as they were, or, when the copy taken at
    one reading of the clock was restored at a later one, with their times moved accordingly. *)
Definition rolled_back (f f' : fleet) : Prop :=
  exists l, fl_registry f' = set_agents l (fl_registry f) /\ agents_ok (rg_placement (fl_registry f)) l
    /\ (l = rg_agents (fl_registry f) \/ exists i j, (fl_readings f <= i < j)%nat /\ (j < fl_readings f')%nat
          /\ moved (monotonic i) (monotonic j) (rg_agents (fl_registry f)) l).

Lemma rolled_back_same f f' : registry_ok (fl_registry f) -> fl_registry f' = fl_registry f -> rolled_back f f'.
Proof. intros Hr E. unfold rolled_back. rewrite E. exists (rg_agents (fl_registry f)). split_and!; [by destruct (fl_registry f)|done|by left]. Qed.

Lemma set_agents_twice l l' r : set_agents l (set_agents l' r) = set_agents l r.
Proof. done. Qed.

(** After writing [g agents] to memory, the durable write either succeeds or
    brings the copy taken before back. *)
Lemma persist_outcome f0 i g before f : fl_registry f = set_agents g (fl_registry f0) -> registry_ok (fl_registry f0) ->
  before = map (fun kv => snapshot_of (monotonic i) kv.2) (merge_sort agent_le (rg_agents (fl_registry f0))) ->
  (fl_readings f0 <= i < fl_readings f)%nat ->
  match persist_locked before f with
  | (Ok _, f') => fl_registry f' = set_agents g (fl_registry f0)
  | (Err _, f') => rolled_back f0 f'
  end.
Proof.
  intros Hf Hr -> Hi. unfold persist_locked, mbind, M_bind, reg, gets. rewrite Hf. cbn [rg_durable set_agents].
  destruct (rg_durable (fl_registry f0)); cbn [negb]; [|done]. unfold catch, snapshot_locked, now_, reg, gets, mbind, M_bind, on_world.
  cbn [fst snd fl_world]. destruct (mutate_state _ _ _ _) as [[v|e] w]; cbn [fst snd]; [done|].
  unfold restore_locked, mbind, M_bind, now_, reg, gets, lift, update_agents, modify. cbn [fl_registry fl_readings].
  rewrite Hf. cbn [rg_placement set_agents].
  match goal with |- context [restored _ (monotonic ?t) _] =>
    destruct (restored_copy (rg_placement (fl_registry f0)) (monotonic i) (monotonic t) (rg_agents (fl_registry f0)) Hr) as (l & -> & Hl & Hs) end.
  cbn [fst snd fl_registry set_registry]. exists l. cbn [fl_registry set_registry fl_readings]. split_and!; [by rewrite ?Hf|done|]. right. exists i, (S (fl_readings f)). split_and!; [lia..|done].
Qed.

(** Step through an operation that changes no record until [persist_locked]. *)
Ltac run_op := unfold snapshot_locked; unfold mbind, M_bind, reg, gets, now_, uuid4, reg, gets, lift, raise, update_agents, modify, mret, M_ret;
  cbn [fst snd fl_registry set_registry id].

Ltac persisted Hr f :=
  match goal with |- context [persist_locked ?b ?f1] =>
    pose proof (persist_outcome f _ _ b f1 eq_refl Hr eq_refl ltac:(cbn; lia)) as Hp; destruct (persist_locked b f1) as [[[]|?] ?] end.

Lemma heartbeat_outcome req f : registry_ok (fl_registry f) ->
  match heartbeat req f with
  | (Ok commands, f') => exists a now, odict_get (hr_agent_id req) (rg_agents (fl_registry f)) = Some a
      /\ ar_lease_id a = hr_lease_id req /\ commands = ar_commands a
      /\ fl_registry f' = set_agents (odict_set (hr_agent_id req) (beat now req a) (rg_agents (fl_registry f))) (fl_registry f)
  | (Err _, f') => rolled_back f f'
  end.
Proof.
  intros Hr. unfold heartbeat. run_op.
  destruct (odict_get (hr_agent_id req) (rg_agents (fl_registry f))) as [a|] eqn:Ha; [|by apply rolled_back_same].
  destruct (String.eqb_spec (ar_lease_id a) (hr_lease_id req)); cbn [negb]; [|by apply rolled_back_same].
  persisted Hr f; [|done]. by exists a, (monotonic (S (fl_readings f))).
Qed.

Lemma queue_command_outcome agent_id cmd f : registry_ok (fl_registry f) ->
  match queue_command agent_id cmd f with
  | (Ok true, f') => exists a, odict_get agent_id (rg_agents (fl_registry f)) = Some a
      /\ fl_registry f' = set_agents (odict_set agent_id (add_command cmd a) (rg_agents (fl_registry f))) (fl_registry f)
  | (Ok false, f') => odict_get agent_id (rg_agents (fl_registry f)) = None /\ fl_registry f' = fl_registry f
  | (Err _, f') => rolled_back f f'
  end.
Proof.
  intros Hr. unfold queue_command. run_op.
  destruct (odict_get agent_id (rg_agents (fl_registry f))) as [a|] eqn:Ha; [|done].
  persisted Hr f; [|done]. by exists a.
Qed.

Lemma broadcast_outcome cmd f : registry_ok (fl_registry f) ->
  match broadcast cmd f with
  | (Ok n, f') => n = Z.of_nat (length (rg_agents (fl_registry f)))
      /\ fl_registry f' = set_agents (map (fun kv : string * agent_record => (kv.1, add_command cmd kv.2)) (rg_agents (fl_registry f)))
                            (fl_registry f)
  | (Err _, f') => rolled_back f f'
  end.
Proof.
  intros Hr. unfold broadcast. run_op. persisted Hr f; [|done]. rewrite Hp. cbn. by rewrite length_map.
Qed.

Lemma remove_outcome agent_id f : registry_ok (fl_registry f) ->
  match remove agent_id f with
  | (Ok true, f') => fl_registry f' = set_agents (odict_pop agent_id (rg_agents (fl_registry f))) (fl_registry f)
  | (Ok false, f') => odict_get agent_id (rg_agents (fl_registry f)) = None /\ fl_registry f' = fl_registry f
  | (Err _, f') => rolled_back f f'
  end.
Proof.
  intros Hr. unfold remove. run_op.
  destruct (odict_get agent_id (rg_agents (fl_registry f))) as [a|] eqn:Ha; [|done]. by persisted Hr f.
Qed.

(** The checks a registration must pass. *)
Definition registrable (r : agent_registry) (req : register_request) : Prop :=
  1 <= rr_port req <= 65535 /\ -1 <= rr_shard_index req /\ contract_compatible (rr_contract_version req) = true
  /\ host_allowed r (rr_host req) = true /\ host_allowed r (str_or (rr_advertise_host req) (rr_host req)) = true
  /\ validate_agent_version (rg_placement r) (rr_agent_id req) (rr_version req) = Ok tt.

Lemma register_outcome req f : registry_ok (fl_registry f) ->
  match register req f with
  | (Ok resp, f') => registrable (fl_registry f) req
      /\ exists now, fl_registry f' = set_agents (odict_set (rr_agent_id req)
                        (new_record req (rg_placement (fl_registry f)) (rp_lease_id resp) now) (rg_agents (fl_registry f))) (fl_registry f)
  | (Err _, f') => rolled_back f f'
  end.
Proof.
  intros Hr. unfold register. run_op.
  destruct (negb ((1 <=? rr_port req) && _)) eqn:E1; [by apply rolled_back_same|].
  destruct (rr_shard_index req <? -1) eqn:E2; [by apply rolled_back_same|].
  destruct (negb (contract_compatible _)) eqn:E3; [by apply rolled_back_same|].
  destruct (negb (host_allowed _ _) || _) eqn:E4; [by apply rolled_back_same|].
  destruct (validate_agent_version _ _ _) as [[]|e] eqn:E5; [|by apply rolled_back_same]. cbn [fl_uuids fl_readings].
  persisted Hr f; [|done]. split; [|eexists; exact Hp].
  apply orb_false_iff in E4 as [E4 E4']. rewrite !negb_false_iff in *. apply andb_true_iff in E1 as [??].
  unfold registrable. split_and!; try done; lia.
Qed.
End operations.

(** ** Runs of the registry *)

Inductive registry_op :=
| Register (req : register_request)
| Heartbeat (req : heartbeat_request)
| Command (agent_id : string) (cmd : control_command)
| Broadcast (cmd : control_command)
| Remove (agent_id : string)
| Attach (restore : bool)
| Detach.

Section runs.
Context `{Env} `{Process}.

(** One call; what a heartbeat answers is kept, other answers are dropped. *)
Definition perform (o : registry_op) : M fleet (list control_command) :=
  match o with
  | Register req => register req;; mret []
  | Heartbeat req => heartbeat req
  | Command agent_id cmd => queue_command agent_id cmd;; mret []
  | Broadcast cmd => broadcast cmd;; mret []
  | Remove agent_id => remove agent_id;; mret []
  | Attach restore => attach_durable_state restore;; mret []
  | Detach => detach_durable_state;; mret []
  end.

(** The fleets a Manager that starts with no Agents can reach; between two calls
    other processes may change the store in any way. *)
Inductive reachable (heartbeat_ms miss_limit : Z) (hosts : list string) (c : placement_config) : fleet -> Prop :=
| reach_start w n m : reachable heartbeat_ms miss_limit hosts c (Fleet (new_registry heartbeat_ms miss_limit hosts c) w n m)
| reach_call f o : reachable heartbeat_ms miss_limit hosts c f -> reachable heartbeat_ms miss_limit hosts c (perform o f).2
| reach_world f w : reachable heartbeat_ms miss_limit hosts c f ->
    reachable heartbeat_ms miss_limit hosts c (Fleet (fl_registry f) w (fl_readings f) (fl_uuids f)).

Lemma new_record_ok req c lease now : validate_agent_version c (rr_agent_id req) (rr_version req) = Ok tt ->
  record_ok c (rr_agent_id req) (new_record req c lease now).
Proof. intros Hv. split; cbn; try done. apply sorted_set_idem. Qed.
Lemma beat_ok c k now req a : record_ok c k a -> record_ok c k (beat now req a).
Proof. intros []. by split. Qed.
Lemma add_command_ok c k cmd a : record_ok c k a -> record_ok c k (add_command cmd a).
Proof. intros []. by split. Qed.

Lemma agents_ok_set c l k a : agents_ok c l -> record_ok c k a -> agents_ok c (odict_set k a l).
Proof.
  intros [HN Hl] Ha. split; [by apply odict_set_NoDup|]. intros k' a' [[= -> ->]|Hin]%elem_of_odict_set; [done|by apply Hl].
Qed.
Lemma agents_ok_pop c l k : agents_ok c l -> agents_ok c (odict_pop k l).
Proof.
  intros [HN Hl]. unfold odict_pop. split.
  - clear Hl. induction l as [|[x a] l IH]; [constructor|]. cbn in HN. apply NoDup_cons in HN as [Hx HN].
    destruct (decide (x = k)) as [->|Hne].
    + rewrite filter_cons_False by (cbn; naive_solver). by apply IH.
    + rewrite filter_cons_True by done. cbn. constructor; [|by apply IH]. intros Hin. apply Hx.
      apply list_elem_of_fmap in Hin as (y & -> & Hin). apply list_elem_of_filter in Hin as [_ Hin]. apply list_elem_of_fmap. eauto.
  - intros k' a' Hin. apply list_elem_of_filter in Hin as [_ Hin]. by apply Hl.
Qed.
Lemma agents_ok_map c l g : agents_ok c l -> (forall k a, record_ok c k a -> record_ok c k (g a)) ->
  agents_ok c (map (fun kv : string * agent_record => (kv.1, g kv.2)) l).
Proof.
  intros [HN Hl] Hg. split; [by rewrite map_map|]. intros k a Hin.
  apply list_elem_of_fmap in Hin as ([k0 a0] & [= -> ->] & Hin). by apply Hg, Hl.
Qed.

Lemma agents_ok_get c l k a : agents_ok c l -> odict_get k l = Some a -> record_ok c k a.
Proof. intros [_ Hl] Hg. by apply Hl, odict_get_In. Qed.

(** Whatever a durable copy holds, what is restored of it is bound to the pools. *)
Lemma restored_ok c now s l : restored c now s = Ok l -> agents_ok c l.
Proof.
  unfold restored. intros Hr. apply bind_Ok in Hr as (records & Hrec & Hr). injection Hr as <-. fold (rebuild (omap id records)).
  assert (Hall : Forall (fun r => record_ok c (ar_agent_id r) r) (omap id records)).
  { apply Forall_forall. intros r Hin. apply list_elem_of_omap in Hin as (o & Hin & Ho). cbn in Ho. subst o.
    destruct (res_map_source _ _ _ _ Hrec Hin) as (e & _ & He). unfold restore_entry in He.
    destruct (validate_agent_version _ _ _) as [[]|[]] eqn:Hv; try done. injection He as <-. split; cbn; try done.
    apply sorted_set_idem. }
  induction (omap id records) as [|r k IH] using rev_ind; [by split; [constructor|set_solver]|].
  apply Forall_app in Hall as [Hall Hlast]. rewrite rebuild_snoc. apply agents_ok_set; [by apply IH|]. by inversion Hlast.
Qed.

Lemma attach_ok restore f : registry_ok (fl_registry f) ->
  registry_ok (fl_registry (attach_durable_state restore f).2)
  /\ rg_placement (fl_registry (attach_durable_state restore f).2) = rg_placement (fl_registry f).
Proof.
  intros Hr. unfold attach_durable_state, snapshot_locked, mbind, M_bind, modify, lift, mret, M_ret, now_, reg, gets, on_world.
  cbn [fst snd fl_registry fl_world set_registry].
  destruct restore; cbn [fst snd]; [|destruct (mutate_state _ _ _ _) as [[]?]; by cbn].
  destruct (read_state _ _) as [[v|e] w]; cbn [fst snd fl_registry fl_world]; [|done].
  destruct v; try (destruct (mutate_state _ _ _ _) as [[]?]; by cbn);
    (destruct (decode_snapshot _) as [snap|]; [|done]);
    unfold restore_locked, mbind, M_bind, now_, reg, gets, lift, update_agents, modify;
    cbn [fst snd fl_registry fl_world set_registry rg_placement set_durable fl_readings];
    (destruct (restored _ _ snap) as [agents|] eqn:El; [|done]); apply restored_ok in El;
    destruct (mutate_state _ _ _ _) as [[]?]; by cbn.
Qed.

Lemma rolled_back_ok f f' : rolled_back f f' -> registry_ok (fl_registry f') /\ rg_placement (fl_registry f') = rg_placement (fl_registry f).
Proof. intros (l & E & Hl & _). rewrite E. by split. Qed.

(** Every call keeps the records bound to the pools. *)
Lemma perform_ok o f : registry_ok (fl_registry f) ->
  registry_ok (fl_registry (perform o f).2) /\ rg_placement (fl_registry (perform o f).2) = rg_placement (fl_registry f).
Proof.
  intros Hr. destruct o as [req|req|k cmd|cmd|k|restore|]; cbn [perform]; unfold mbind, M_bind, mret, M_ret.
  - pose proof (register_outcome req f Hr) as Ho. destruct (register req f) as [[resp|e] f']; cbn [fst snd]; [|by apply rolled_back_ok].
    destruct Ho as [Hreg (now & ->)]. split; [|done]. apply agents_ok_set; [done|]. apply new_record_ok. apply Hreg.
  - pose proof (heartbeat_outcome req f Hr) as Ho. destruct (heartbeat req f) as [[cmds|e] f']; cbn [fst snd]; [|by apply rolled_back_ok].
    destruct Ho as (a & now & Ha & _ & _ & ->). split; [|done]. apply agents_ok_set; [done|]. eapply beat_ok, agents_ok_get; done.
  - pose proof (queue_command_outcome k cmd f Hr) as Ho. destruct (queue_command k cmd f) as [[[]|e] f']; cbn [fst snd];
      [|by destruct Ho as [_ ->]|by apply rolled_back_ok].
    destruct Ho as (a & Ha & ->). split; [|done]. apply agents_ok_set; [done|]. eapply add_command_ok, agents_ok_get; done.
  - pose proof (broadcast_outcome cmd f Hr) as Ho. destruct (broadcast cmd f) as [[n|e] f']; cbn [fst snd]; [|by apply rolled_back_ok].
    destruct Ho as [_ ->]. split; [|done]. apply agents_ok_map; [done|]. intros ??. apply add_command_ok.
  - pose proof (remove_outcome k f Hr) as Ho. destruct (remove k f) as [[[]|e] f']; cbn [fst snd];
      [|by destruct Ho as [_ ->]|by apply rolled_back_ok].
    rewrite Ho. split; [|done]. by apply agents_ok_pop.
  - pose proof (attach_ok restore f Hr) as Ho. by destruct (attach_durable_state restore f) as [[]?].
  - done.
Qed.

Lemma reachable_ok hb miss hosts c f : reachable hb miss hosts c f -> registry_ok (fl_registry f) /\ rg_placement (fl_registry f) = c.
Proof.
  induction 1 as [w n m|f o _ [Hr Hc]|f w _ IH]; [|destruct (perform_ok o f Hr); split; [done|congruence]|done].
  split; [|done]. split; cbn; [constructor|]. intros k a Hin. by apply not_elem_of_nil in Hin.
Qed.
End runs.

(** ** Delivery of commands *)

Section delivery.
Context `{Env} `{Process}.

(** What a call hands to Agent [k], and what it queues for it. *)
Definition handed (k : string) (o : registry_op) (r : res (list control_command)) : list control_command :=
  match o, r with
  | Heartbeat req, Ok l => if String.eqb (hr_agent_id req) k then l else []
  | _, _ => []
  end.
Definition queued (k : string) (o : registry_op) (r : res (list control_command)) : list control_command :=
  match o, r with
  | Command k' cmd, Ok _ => if String.eqb k' k then [cmd] else []
  | Broadcast cmd, Ok _ => [cmd]
  | _, _ => []
  end.

(** A call that does not end the registration of [k]. *)
Definition keeps_agent (k : string) (o : registry_op) : bool :=
  match o with
  | Register req => negb (String.eqb (rr_agent_id req) k)
  | Remove k' => negb (String.eqb k' k)
  | Attach _ => false
  | _ => true
  end.

Lemma odict_get_pop_ne {V} k k2 (d : list (string * V)) : k <> k2 -> odict_get k2 (odict_pop k d) = odict_get k2 d.
Proof.
  intros Hne. unfold odict_pop. induction d as [|[x v] d IH]; [done|]. destruct (decide (x = k)) as [->|Hx].
  - rewrite filter_cons_False by (cbn; naive_solver). cbn. by rewrite (proj2 (String.eqb_neq k k2) Hne).
  - rewrite filter_cons_True by done. cbn. by rewrite IH.
Qed.

Lemma odict_get_map {V} k (g : V -> V) d :
  odict_get k (map (fun kv : string * V => (kv.1, g kv.2)) d) = g <$> odict_get k d.
Proof. induction d as [|[x v] d IH]; [done|]. cbn. by destruct (String.eqb x k). Qed.

Lemma rolled_back_get f f' k a : rolled_back f f' -> odict_get k (rg_agents (fl_registry f)) = Some a ->
  exists a', odict_get k (rg_agents (fl_registry f')) = Some a' /\ ar_lease_id a' = ar_lease_id a /\ ar_commands a' = ar_commands a.
Proof.
  intros (l & -> & _ & [->|(i & j & _ & _ & Hs)]) Ha; [by exists a|]. cbn. rewrite Hs, Ha. by eexists.
Qed.

(** The record of [k] after one call, and its pending commands. *)
Definition accounted (k : string) (a : agent_record) (out inc : list control_command) (f' : fleet) : Prop :=
  exists a', odict_get k (rg_agents (fl_registry f')) = Some a' /\ ar_lease_id a' = ar_lease_id a
    /\ out ++ ar_commands a' = ar_commands a ++ inc.

Lemma accounted_rolled_back k a f f' : rolled_back f f' ->
  odict_get k (rg_agents (fl_registry f)) = Some a -> accounted k a [] [] f'.
Proof.
  intros Hr Ha. destruct (rolled_back_get _ _ _ _ Hr Ha) as (a' & ? & ? & ?). exists a'. split_and!; [done..|].
  by rewrite app_nil_r.
Qed.
Lemma accounted_same k a f' : odict_get k (rg_agents (fl_registry f')) = Some a -> accounted k a [] [] f'.
Proof. intros Ha. exists a. by rewrite app_nil_r. Qed.

Lemma perform_accounted k o f a : registry_ok (fl_registry f) -> odict_get k (rg_agents (fl_registry f)) = Some a ->
  keeps_agent k o = true ->
  accounted k a (handed k o (perform o f).1) (queued k o (perform o f).1) (perform o f).2.
Proof.
  intros Hr Ha Hk. destruct o as [req|req|k' cmd|cmd|k'|restore|]; cbn [perform keeps_agent] in *; try done;
    unfold mbind, M_bind, mret, M_ret.
  - apply negb_true_iff, String.eqb_neq in Hk. pose proof (register_outcome req f Hr) as Ho.
    destruct (register req f) as [[resp|e] f']; cbn [fst snd handed queued]; [|by eapply accounted_rolled_back].
    destruct Ho as [_ (now & E)]. apply accounted_same. rewrite E. cbn. by rewrite odict_get_set_ne.
  - pose proof (heartbeat_outcome req f Hr) as Ho. destruct (heartbeat req f) as [[cmds|e] f']; cbn [fst snd handed queued];
      [|by eapply accounted_rolled_back].
    destruct Ho as (b & now & Hb & _ & -> & E). destruct (String.eqb_spec (hr_agent_id req) k) as [<-|Hne].
    + rewrite Ha in Hb. injection Hb as <-. exists (beat now req a). rewrite E. cbn. by rewrite odict_get_set_eq.
    + apply accounted_same. rewrite E. cbn. by rewrite odict_get_set_ne.
  - pose proof (queue_command_outcome k' cmd f Hr) as Ho. destruct (queue_command k' cmd f) as [[[]|e] f']; cbn [fst snd handed queued];
      [| |by eapply accounted_rolled_back].
    + destruct Ho as (b & Hb & E). destruct (String.eqb_spec k' k) as [->|Hne].
      * rewrite Ha in Hb. injection Hb as <-. exists (add_command cmd a). rewrite E. cbn. by rewrite odict_get_set_eq.
      * apply accounted_same. rewrite E. cbn. by rewrite odict_get_set_ne.
    + destruct Ho as [Hb E]. destruct (String.eqb_spec k' k) as [->|Hne]; [congruence|]. apply accounted_same. by rewrite E.
  - pose proof (broadcast_outcome cmd f Hr) as Ho. destruct (broadcast cmd f) as [[n|e] f']; cbn [fst snd handed queued];
      [|by eapply accounted_rolled_back].
    destruct Ho as [_ E]. exists (add_command cmd a). rewrite E. cbn. by rewrite odict_get_map, Ha.
  - apply negb_true_iff, String.eqb_neq in Hk. pose proof (remove_outcome k' f Hr) as Ho.
    destruct (remove k' f) as [[[]|e] f']; cbn [fst snd handed queued]; [| |by eapply accounted_rolled_back].
    + apply accounted_same. rewrite Ho. cbn. by rewrite odict_get_pop_ne.
    + apply accounted_same. by destruct Ho as [_ ->].
  - by apply accounted_same.
Qed.

(** A stretch of calls during which [k] stays registered, with everything handed to
    it and everything queued for it; other processes may change the store between
    calls. *)
Inductive stretch (k : string) : fleet -> list control_command -> list control_command -> fleet -> Prop :=
| stretch_nil f : stretch k f [] [] f
| stretch_call f o out inc f' : keeps_agent k o = true -> stretch k (perform o f).2 out inc f' ->
    stretch k f (handed k o (perform o f).1 ++ out) (queued k o (perform o f).1 ++ inc) f'
| stretch_world f w out inc f' : stretch k (Fleet (fl_registry f) w (fl_readings f) (fl_uuids f)) out inc f' ->
    stretch k f out inc f'.


(** Identity binding: in every registry a Manager can reach, also after durable
    copies of any content were restored and durable writes failed, each Agent is
    filed under its own identity, its pool, tenant, location, store, connections
    and table patterns are those of the operator's pool for that identity, whatever
    the Agent claimed when it registered, and its version is admitted. *)
Theorem registered_agents_bound hb miss hosts c f k a :
  reachable hb miss hosts c f -> odict_get k (rg_agents (fl_registry f)) = Some a ->
  ar_agent_id a = k /\ ar_placement a = placement_fields (pool_for_identity c k)
  /\ validate_agent_version c k (ac_version (ar_claims a)) = Ok tt.
Proof.
  intros [Hr <-]%reachable_ok Ha. by destruct (agents_ok_get _ _ _ _ Hr Ha).
Qed.

End delivery.

(** ** A worked run *)

#[local] Instance run_env : Env := {| clock n := 1000 * Z.of_nat n; token n := pretty (Z.of_nat n) |}.
#[local] Instance run_process : Process := {|
  monotonic n := int_truediv (Z.of_nat n) 8;
  uuid n := "lease-" +:+ pretty (Z.of_nat n);
  encode_snapshot l := JInt (Z.of_nat (length l));
  decode_snapshot _ := Ok [];
  in_network _ _ := false |}.

Definition run_request (version location : string) : register_request :=
  RegisterRequest "agent-eu" "10.0.0.4" 8443 "linux" version 2 "" "1.1" ["materializer"; "serve"; "serve"] "us" location 0.
Definition run_start : fleet :=
  Fleet (new_registry 2000 3 [] demo_placement) (World ∅ 0 0 (LeaseObj "m" 15000 false 0 "")) 0 0.
Definition run_beat : heartbeat_request := HeartbeatRequest "agent-eu" "lease-0" no_health [] ∅ [].
Definition run_drain : control_command := ControlCommand "drain" (Some 5000) None None None.
Definition run_reload : control_command := ControlCommand "reload" None (Some "config") None None.

(** The Agent registers, claiming the other tenant's pool and location. *)
Definition run_registered : fleet := (perform (Register (run_request "1.10.0" "eastus")) run_start).2.
Definition run_agent : agent_record := new_record (run_request "1.10.0" "eastus") demo_placement "lease-0" (Float 0 0).

Lemma run_reachable : reachable 2000 3 [] demo_placement run_registered.
Proof. apply reach_call. apply reach_start. Defined.

Lemma registered_agents_bound_witness :
  match odict_get "agent-eu" (rg_agents (fl_registry run_registered)) with
  | Some a => ar_placement a = placement_fields (pool_for_identity demo_placement "agent-eu")
      /\ ap_pool_id (ar_placement a) = "eu" /\ ap_tenant_id (ar_placement a) = "contoso"
      /\ ap_location (ar_placement a) = "westeurope"
  | None => False
  end.
Proof.
  destruct (odict_get "agent-eu" (rg_agents (fl_registry run_registered))) as [a|] eqn:Ha; [|vm_compute in Ha; discriminate].
  pose proof (registered_agents_bound 2000 3 [] demo_placement run_registered "agent-eu" a run_reachable Ha) as (_ & Hp & _).
  split; [exact Hp|]. rewrite Hp. vm_compute. repeat split; reflexivity.
Defined.

Lemma stretch_step k o f h q out inc f' : keeps_agent k o = true ->
  handed k o (perform o f).1 = h -> queued k o (perform o f).1 = q -> stretch k (perform o f).2 out inc f' ->
  stretch k f (h ++ out) (q ++ inc) f'.
Proof. intros Hk <- <- Hs. by apply stretch_call. Qed.


(** With a durable copy attached but no leadership, queueing a command raises and the copy is
    restored. *)
Definition run_attached : fleet := (perform (Attach true) run_registered).2.
Lemma attached_reachable : reachable 2000 3 [] demo_placement run_attached.
Proof. apply reach_call. exact run_reachable. Defined.


(** A retired version is refused at registration. *)
Example retired_version_refused :
  exists d, (perform (Register (run_request "1.9.2" "westeurope")) run_start).1 = Err (AgentVersionUnsupported d).
Proof. eexists. vm_compute. reflexivity. Qed.

(** With a durable copy attached but no leadership, queueing a command raises and
    the command is not left behind in memory. *)
Example deposed_manager_queues_nothing :
  rg_durable (fl_registry run_attached) = true
  /\ match perform (Command "agent-eu" run_drain) run_attached with
     | (Err (StaleLeaderError _), f') => ar_commands <$> odict_get "agent-eu" (rg_agents (fl_registry f')) = Some []
     | _ => False
     end.
Proof. split; vm_compute; reflexivity. Qed.
