(* ===== verification/PolicyBundle.v ===== *)
(** * Signed placement policies

    [control/policy_bundle.py]: a placement policy is read from a signed bundle, the last good
    bundle is kept in a file and serves while the endpoint is unavailable, and a bundle may not be
    rolled back.  The reader of JSON texts, the signature scheme and the endpoint are parameters. *)

From S2P Require Import Prelude PyText Json ArtifactStore Sources Placement.
From Stdlib Require Import Ascii.

(** [json.loads], [load_pem_public_key] and [Ed25519PublicKey.verify] *)
Inductive pem :=
| NotPem
| OtherKey
| Ed25519 (key : string).
Class Signing := {
  read_json : string -> option json;
  load_pem : string -> pem;
  ed25519_verify : string -> string -> string -> bool;
}.

Definition MAX_BUNDLE_BYTES : Z := 4 * 1024 * 1024.
Definition SCHEMA_VERSION : Z := 1.
Definition ALLOWED_FIELDS : gset string := {["schema_version"; "revision"; "issued_at_ms"; "key_id"; "placement"; "signature"]}.

(** [VerifiedPolicyBundle] *)
Record verified_bundle := VerifiedBundle {
  vb_revision : Z;
  vb_issued_at_ms : Z;
  vb_key_id : string;
  vb_placement : dict;
  vb_raw : string;
}.

(** ** The signed text *)

(** Texts outside ASCII are left as they are. *)
Definition escape_utf8 (a : ascii) : string :=
  if (127 <=? N_of_ascii a)%N then String a "" else escape_char a.
Fixpoint escape_text (s : string) : string :=
  match s with
  | EmptyString => ""
  | String a s => escape_utf8 a +:+ escape_text s
  end.
Definition text_literal (s : string) : string := String quote_char (escape_text s) +:+ String quote_char "".

(** [json.dumps(v, sort_keys=True, separators=(",", ":"), ensure_ascii=False)] *)
Fixpoint dumps_utf8 (v : json) : string :=
  match v with
  | JNull => "null"
  | JBool b => if b then "true" else "false"
  | JInt z => pretty z
  | JStr s => text_literal s
  | JList l => fmt ["["; join "," (map dumps_utf8 l); "]"]
  | JObj d =>
      let items := map_fold (fun k v acc => (k, dumps_utf8 v) :: acc) [] d in
      fmt ["{"; join "," (map (fun kv => fmt [text_literal kv.1; ":"; kv.2]) (merge_sort key_le items)); "}"]
  end.

(** [_canonical_bytes] *)
Definition canonical_bytes (value : dict) : string := dumps_utf8 (JObj (delete "signature" value)).

(** ** Base64 *)

Definition b64_digit (a : ascii) : option N :=
  let n := N_of_ascii a in
  if (65 <=? n)%N && (n <=? 90)%N then Some (n - 65)%N
  else if (97 <=? n)%N && (n <=? 122)%N then Some (n - 71)%N
  else if (48 <=? n)%N && (n <=? 57)%N then Some (n + 4)%N
  else if (n =? 43)%N then Some 62%N
  else if (n =? 47)%N then Some 63%N
  else None.
Definition is_pad (a : ascii) : bool := Ascii.eqb a "=".
Definition byte_of (n : N) : ascii := ascii_of_N (N.land n 255).

(** [base64.b64decode(s, validate=True)]: groups of four digits, the last one padded *)
Fixpoint b64decode (s : string) : option string :=
  match s with
  | EmptyString => Some ""
  | String a (String b (String c (String d rest))) =>
      x ← b64_digit a; y ← b64_digit b;
      let first := byte_of (N.lor (N.shiftl x 2) (N.shiftr y 4)) in
      if is_pad c && is_pad d && String.eqb rest "" then Some (String first "")
      else
        z ← b64_digit c;
        let second := byte_of (N.lor (N.shiftl y 4) (N.shiftr z 2)) in
        if is_pad d && String.eqb rest "" then Some (String first (String second ""))
        else
          w ← b64_digit d;
          more ← b64decode rest;
          Some (String first (String second (String (byte_of (N.lor (N.shiftl z 6) w)) more)))
  | _ => None
  end.

Example b64decode_text : b64decode "UG9saWN5IQ==" = Some "Policy!" /\ b64decode "UG9saWN5" = Some "Policy" /\
  b64decode "UG9s=" = None /\ b64decode "UG9 saWN5" = None.
Proof. vm_compute. repeat split. Qed.

(** ** Verification *)

Section verification.
Context `{HSigning : Signing}.

Definition invalid (msg : string) : exn := PolicyBundleValidationError msg.

Definition missing_fields (d : dict) : list string := sorted_set (filter (fun k => d !! k = None) (elements ALLOWED_FIELDS)).

(** [value == 1], which holds of [True] too *)
Definition equals_int (v : json) (n : Z) : bool :=
  match v with JInt z => z =? n | JBool b => (if b then 1 else 0) =? n | _ => false end.

(** The parts of a bundle that do not depend on the key. *)
Definition bundle_fields (value : dict) (expected_key_id : string) : res (Z * Z * string * dict * string) :=
  _ ← raise_if (negb (bool_decide (unknown_keys value ALLOWED_FIELDS = [])))
        (invalid (fmt ["policy bundle has unknown fields: "; repr_list (unknown_keys value ALLOWED_FIELDS)]));
  _ ← raise_if (negb (bool_decide (missing_fields value = [])))
        (invalid (fmt ["policy bundle is missing fields: "; repr_list (missing_fields value)]));
  _ ← raise_if (negb (equals_int (dget value "schema_version" JNull) SCHEMA_VERSION)) (invalid "unsupported policy bundle schema version");
  revision ← match dget value "revision" JNull with
             | JInt z => if z <? 1 then Err (invalid "policy bundle revision must be a positive integer") else Ok z
             | _ => Err (invalid "policy bundle revision must be a positive integer")
             end;
  issued_at_ms ← match dget value "issued_at_ms" JNull with
                 | JInt z => if z <? 0 then Err (invalid "policy bundle issued_at_ms must be a non-negative integer") else Ok z
                 | _ => Err (invalid "policy bundle issued_at_ms must be a non-negative integer")
                 end;
  key_id ← match dget value "key_id" JNull with
           | JStr s => if truthy_str (strip s) then Ok (strip s) else Err (invalid "policy bundle key_id must be a non-empty string")
           | _ => Err (invalid "policy bundle key_id must be a non-empty string")
           end;
  _ ← raise_if (truthy_str expected_key_id && negb (String.eqb key_id expected_key_id))
        (invalid (fmt ["policy bundle key_id "; quoted key_id; " does not match the pinned key"]));
  placement ← match dget value "placement" JNull with
              | JObj d => Ok d
              | _ => Err (invalid "policy bundle placement must be a JSON object")
              end;
  signature_text ← match dget value "signature" JNull with
                   | JStr s => if truthy_str s then Ok s else Err (invalid "policy bundle signature must be non-empty base64")
                   | _ => Err (invalid "policy bundle signature must be non-empty base64")
                   end;
  Ok (revision, issued_at_ms, key_id, placement, signature_text).

(** The signature over the rest of the bundle. *)
Definition check_signature (public_key_pem signature_text : string) (value : dict) : res unit :=
  signature ← of_option (invalid "policy bundle signature must be valid base64") (b64decode signature_text);
  match load_pem public_key_pem with
  | NotPem => Err (invalid "policy bundle public key must be valid PEM")
  | OtherKey => Err (invalid "policy bundle public key must use Ed25519")
  | Ed25519 key => raise_if (negb (ed25519_verify key signature (canonical_bytes value))) (invalid "policy bundle signature verification failed")
  end.

(** [verify_policy_bundle] *)
Definition verify_policy_bundle (raw public_key_pem expected_key_id : string) : res verified_bundle :=
  _ ← raise_if (MAX_BUNDLE_BYTES <? Z.of_nat (String.length raw)) (invalid "policy bundle exceeds 4 MiB");
  match read_json raw with
  | None => Err (invalid "policy bundle must be valid JSON")
  | Some (JObj value) =>
      fields ← bundle_fields value expected_key_id;
      let '(revision, issued_at_ms, key_id, placement, signature_text) := fields in
      _ ← check_signature public_key_pem signature_text value;
      Ok (VerifiedBundle revision issued_at_ms key_id placement raw)
  | Some _ => Err (invalid "policy bundle must be a JSON object")
  end.
End verification.

(** ** Loading *)

(** The files of the Manager's host by path (a file that cannot be read is [None]), the number
    of outside events so far, and whether a write at a moment succeeds. *)
Record host := Host {
  ho_files : gmap string (option string);
  ho_ticks : nat;
}.
Class Disk := { disk_writes : nat -> bool; }.

Definition host_tick : M host nat := fun h => (Ok (ho_ticks h), Host (ho_files h) (S (ho_ticks h))).

(** [_read_file] *)
Definition read_file (path description : string) : M host string :=
  entry ← gets (fun h => ho_files h !! path);
  match entry with
  | Some (Some raw) => mret raw
  | _ => raise (invalid (fmt ["cannot read "; description; " "; quoted path]))
  end.

(** [_write_cache]: the temporary file takes the place of the old one at once, or not at all *)
Definition write_cache `{Disk} (path raw : string) : M host unit :=
  k ← host_tick;
  if disk_writes k then modify (fun h => Host (<[path := Some raw]> (ho_files h)) (ho_ticks h))
  else raise (invalid (fmt ["cannot persist policy bundle cache "; quoted path])).

(** What the endpoint did. *)
Inductive fetched :=
| Fetched (raw : string)
| RemoteUnavailable
| FetchRaises (e : exn).

(** [LoadedPolicyBundle] *)
Record loaded (T : Type) := Loaded {
  lb_value : T;
  lb_revision : Z;
  lb_key_id : string;
  lb_from_cache : bool;
}.
Arguments Loaded {T} _ _ _ _.
Arguments lb_value {T} _.
Arguments lb_revision {T} _.
Arguments lb_key_id {T} _.
Arguments lb_from_cache {T} _.

Record bundle_settings := BundleSettings {
  public_key_file : string;
  cache_file : string;
  expected_key_id : string;
  timeout_ms : Z;
}.

Section loading.
Context `{HSigning : Signing} `{HDisk : Disk} {T : Type} (value_loader : dict -> res T) (cfg : bundle_settings).

Definition read_cached (public_key : string) : M host (option verified_bundle) :=
  present ← gets (fun h => bool_decide (is_Some (ho_files h !! cache_file cfg)));
  if present : bool then
    raw ← read_file (cache_file cfg) "policy bundle cache";
    b ← lift (verify_policy_bundle raw public_key (expected_key_id cfg));
    mret (Some b)
  else mret None.

(** No older revision, and no other content under the same one. *)
Definition check_succession (cached : option verified_bundle) (remote : verified_bundle) : res unit :=
  match cached with
  | None => Ok tt
  | Some c =>
      _ ← raise_if (vb_revision remote <? vb_revision c)
            (invalid (fmt ["policy bundle rollback rejected: revision "; pretty (vb_revision remote); " is older than cached revision ";
               pretty (vb_revision c)]));
      raise_if ((vb_revision remote =? vb_revision c) && negb (String.eqb (vb_raw remote) (vb_raw c)))
        (invalid (fmt ["policy bundle revision "; pretty (vb_revision remote); " was reused with different content"]))
  end.

(** [load_policy_bundle] *)
Definition load_policy_bundle (fetcher : nat -> fetched) : M host (loaded T) :=
  lift (raise_if (negb (truthy_str (public_key_file cfg))) (invalid "FSP_POLICY_BUNDLE_PUBLIC_KEY_FILE is required"));;
  lift (raise_if (negb (truthy_str (cache_file cfg))) (invalid "FSP_POLICY_BUNDLE_CACHE_FILE is required"));;
  lift (raise_if (timeout_ms cfg <=? 0) (invalid "FSP_POLICY_BUNDLE_TIMEOUT_SECONDS must be positive"));;
  public_key ← read_file (public_key_file cfg) "policy bundle public key";
  cached ← read_cached public_key;
  k ← host_tick;
  match fetcher k with
  | FetchRaises e => raise e
  | RemoteUnavailable =>
      match cached with
      | None => raise (PolicyBundleUnavailable "policy bundle endpoint is unavailable and no last-known-good bundle exists")
      | Some c => v ← lift (value_loader (vb_placement c)); mret (Loaded v (vb_revision c) (vb_key_id c) true)
      end
  | Fetched raw =>
      remote ← lift (verify_policy_bundle raw public_key (expected_key_id cfg));
      lift (check_succession cached remote);;
      v ← lift (value_loader (vb_placement remote));
      write_cache (cache_file cfg) raw;;
      mret (Loaded v (vb_revision remote) (vb_key_id remote) false)
  end.

(** [load_policy_bundle_from_store]: the object of a store at a moment *)
Definition fetch_from_store (store : nat -> MemoryStore.mem) (object_key : string) (k : nat) : fetched :=
  match (MemoryStore.get object_key 0 None (store k)).1 with
  | Ok b => Fetched (blob_bytes b)
  | Err (ObjectNotFound _ | OSError _) => RemoteUnavailable
  | Err e => FetchRaises e
  end.
Definition load_policy_bundle_from_store (store : nat -> MemoryStore.mem) (object_key : string) : M host (loaded T) :=
  lift (raise_if (negb (truthy_str (strip object_key))) (invalid "FSP_POLICY_BUNDLE_BLOB_NAME is required"));;
  load_policy_bundle (fetch_from_store store object_key).

(** * Theorems *)

(** The starts of a Manager, one after the other, each with what the endpoint does then. *)
Fixpoint starts (fetchers : list (nat -> fetched)) (h : host) : list (res (loaded T)) * host :=
  match fetchers with
  | [] => ([], h)
  | f :: rest => let '(r, h) := load_policy_bundle f h in let '(rs, h) := starts rest h in (r :: rs, h)
  end.
Definition returned (results : list (res (loaded T))) : list (loaded T) :=
  omap (fun r => match r with Ok x => Some x | Err _ => None end) results.

Definition public_key_of (h : host) : string := default "" (default None (ho_files h !! public_key_file cfg)).

(** The cache holds the text of bundle [b], verified. *)
Definition holds (h : host) (raw : string) (b : verified_bundle) : Prop :=
  ho_files h !! cache_file cfg = Some (Some raw) /\ verify_policy_bundle raw (public_key_of h) (expected_key_id cfg) = Ok b.
(** Bundles can be loaded: the settings are there and the key can be read. *)
Definition configured (h : host) : Prop :=
  truthy_str (public_key_file cfg) = true /\ truthy_str (cache_file cfg) = true /\ 0 < timeout_ms cfg /\
  ho_files h !! public_key_file cfg = Some (Some (public_key_of h)).
(** What was loaded is the policy of [b]. *)
Definition loaded_from (b : verified_bundle) (x : loaded T) : Prop :=
  value_loader (vb_placement b) = Ok (lb_value x) /\ lb_revision x = vb_revision b /\ lb_key_id x = vb_key_id b.
(** [raw'] may follow [raw]. *)
Definition succeeds (raw : string) (b : verified_bundle) (raw' : string) (b' : verified_bundle) : Prop :=
  vb_revision b <= vb_revision b' /\ (vb_revision b = vb_revision b' -> raw = raw').

Lemma verified_raw raw key expected b : verify_policy_bundle raw key expected = Ok b -> vb_raw b = raw.
Proof.
  unfold verify_policy_bundle. intros H. invert_Ok H. destruct (read_json raw) as [[| | | | |value]|]; try done.
  apply bind_Ok in H as ([[[[x1 x2] x3] x4] x5] & _ & H). apply bind_Ok in H as ([] & _ & H). by injection H as <-.
Qed.

Lemma succession_ok c r : check_succession (Some c) r = Ok tt -> succeeds (vb_raw c) c (vb_raw r) r.
Proof.
  unfold check_succession, raise_if. destruct (Z.ltb_spec (vb_revision r) (vb_revision c)); [done|]. cbn [mbind res_bind].
  destruct (Z.eqb_spec (vb_revision r) (vb_revision c)); cbn [andb].
  - destruct (String.eqb_spec (vb_raw r) (vb_raw c)); [|done]. intros _. split; [lia|done].
  - intros _. split; [lia|]. intros ?. lia.
Qed.

Lemma succeeds_trans raw b raw1 b1 raw2 b2 : succeeds raw b raw1 b1 -> succeeds raw1 b1 raw2 b2 -> succeeds raw b raw2 b2.
Proof. intros [H1 E1] [H2 E2]. split; [lia|]. intros ?. rewrite E1 by lia. apply E2. lia. Qed.

Lemma guard_run {S A} b e (m : M S A) (s : S) : (lift (raise_if b e);; m) s = if b then (Err e, s) else m s.
Proof. by destruct b. Qed.

Definition same_files (h h' : host) : Prop := ho_files h' = ho_files h.
#[local] Instance same_files_preorder : PreOrder same_files.
Proof. split; [by intros h|]. intros a b c H1 H2. unfold same_files in *. congruence. Qed.

Lemma read_file_keeps path description : maintains (fun _ => True) same_files (read_file path description).
Proof. intros h _. unfold read_file, mbind, M_bind, gets. by destruct (ho_files h !! path) as [[raw|]|]. Qed.
Lemma read_cached_keeps key : maintains (fun _ => True) same_files (read_cached key).
Proof.
  unfold read_cached. apply maintains_bind; [apply _|apply maintains_gets, _|]. intros []; [|apply maintains_ret, _].
  apply maintains_bind; [apply _|apply read_file_keeps|]. intros raw. apply maintains_bind; [apply _|apply maintains_lift, _|].
  intros b. apply maintains_ret, _.
Qed.

Lemma read_cached_holds h c h' : read_cached (public_key_of h) h = (Ok c, h') -> h' = h /\
  match c with
  | Some b => holds h (vb_raw b) b
  | None => ho_files h !! cache_file cfg = None
  end.
Proof.
  unfold read_cached. intros H. apply fbind_Ok in H as (present & h1 & E & H). injection E as <- <-.
  case_bool_decide as Hp.
  - apply fbind_Ok in H as (raw & h1 & E & H). apply fbind_Ok in H as (b & h2 & E2 & H). apply lift_Ok in E2 as [E2 ->]. injection H as Hc Hh. subst c h1.
    unfold read_file, mbind, M_bind, gets in E. destruct (ho_files h !! cache_file cfg) as [[r|]|] eqn:Ef; [|done|done].
    injection E as E Eh. subst r h'. rewrite (verified_raw _ _ _ _ E2). by split.
  - injection H as Hc Hh. subst c h'. split; [done|]. by apply eq_None_not_Some.
Qed.

(** What a start does: when it returns, the cache holds the bundle that was loaded, which follows
    the one the cache held; when it raises, the files are as they were. *)
Lemma load_run f h r h' : public_key_file cfg <> cache_file cfg -> load_policy_bundle f h = (r, h') ->
  public_key_of h' = public_key_of h /\
  match r with
  | Err _ => ho_files h' = ho_files h
  | Ok x => exists raw b, holds h' raw b /\ loaded_from b x /\ configured h' /\ (holds h raw b \/ exists k, f k = Fetched raw) /\
      forall raw0 b0, holds h raw0 b0 -> succeeds raw0 b0 raw b
  end.
Proof.
  intros Hne. unfold load_policy_bundle. rewrite !guard_run.
  destruct (truthy_str (public_key_file cfg)) eqn:Hc1; cbn [negb]; [|by intros [= <- <-]].
  destruct (truthy_str (cache_file cfg)) eqn:Hc2; cbn [negb]; [|by intros [= <- <-]]. destruct (Z.leb_spec (timeout_ms cfg) 0) as [|Hc3]; [by intros [= <- <-]|].
  unfold mbind at 1, M_bind at 1. unfold read_file at 1, mbind at 1, M_bind at 1, gets at 1.
  destruct (ho_files h !! public_key_file cfg) as [[key|]|] eqn:Ek; [|by intros [= <- <-]..].
  assert (key = public_key_of h) as -> by (unfold public_key_of; by rewrite Ek). cbn [mret M_ret].
  unfold mbind at 1, M_bind at 1. pose proof (read_cached_keeps (public_key_of h) h I) as [_ Hk2]. unfold same_files in Hk2.
  destruct (read_cached (public_key_of h) h) as [[c|e] h1] eqn:E2; cbn [snd] in Hk2.
  2: { intros [= <- <-]. unfold public_key_of. by rewrite Hk2. }
  apply read_cached_holds in E2 as [-> Hc]. clear Hk2. unfold mbind at 1, M_bind at 1. cbn [host_tick].
  set (h1 := Host (ho_files h) (S (ho_ticks h))). destruct (f (ho_ticks h)) as [raw| |e] eqn:Ef; [| |by intros [= <- <-]].
  - unfold mbind, M_bind, lift. destruct (verify_policy_bundle raw _ _) as [b|e] eqn:Ev; [|by intros [= <- <-]].
    destruct (check_succession c b) as [[]|e] eqn:Ec; [|by intros [= <- <-]].
    destruct (value_loader (vb_placement b)) as [v|e] eqn:El; [|by intros [= <- <-]].
    unfold write_cache, mbind, M_bind. cbn [host_tick]. destruct (disk_writes _); [|by intros [= <- <-]]. cbn [modify mret M_ret].
    intros [= <- <-]. assert (forall n, public_key_of (Host (<[cache_file cfg := Some raw]> (ho_files h)) n) = public_key_of h) as Hkey.
    { intros n. unfold public_key_of. cbn [ho_files]. by rewrite lookup_insert_ne by done. }
    split; [apply Hkey|]. exists raw, b. split; [|split; [done|split; [|split; [by right; exists (ho_ticks h)|]]]].
    + split; [cbn [ho_files]; by rewrite lookup_insert_eq|]. by rewrite Hkey.
    + split_and!; [done..|]. rewrite Hkey. cbn [ho_files]. by rewrite lookup_insert_ne by done.
    + intros raw0 b0 [Hf0 Hv0]. destruct c as [c|]; [|congruence]. destruct Hc as [Hf Hv]. assert (raw0 = vb_raw c) as -> by congruence.
      assert (b0 = c) as -> by congruence. rewrite <- (verified_raw _ _ _ _ Ev). by apply succession_ok.
  - destruct c as [c|]; [|by intros [= <- <-]]. unfold mbind, M_bind, lift.
    destruct (value_loader (vb_placement c)) as [v|e] eqn:El; intros [= <- <-]; [|done]. split; [done|].
    exists (vb_raw c), c. split; [done|]. split; [done|]. split; [by split_and!|]. split; [by left|]. intros raw0 b0 [Hf0 Hv0]. destruct Hc as [Hf Hv].
    assert (raw0 = vb_raw c) as -> by congruence. assert (b0 = c) as -> by congruence. split; [lia|done].
Qed.

Lemma starts_run fetchers : public_key_file cfg <> cache_file cfg -> forall h results h', starts fetchers h = (results, h') ->
  public_key_of h' = public_key_of h /\
  (forall raw b, holds h raw b -> Forall (fun x => exists raw' b', verify_policy_bundle raw' (public_key_of h) (expected_key_id cfg) = Ok b' /\
     loaded_from b' x /\ succeeds raw b raw' b') (returned results)) /\
  Forall (fun x => exists raw b, (holds h raw b \/ exists f k, f ∈ fetchers /\ f k = Fetched raw) /\
    verify_policy_bundle raw (public_key_of h) (expected_key_id cfg) = Ok b /\ loaded_from b x) (returned results) /\
  StronglySorted (fun x y => lb_revision x <= lb_revision y /\
    (lb_revision x = lb_revision y -> lb_value x = lb_value y /\ lb_key_id x = lb_key_id y)) (returned results) /\
  match last (returned results) with
  | None => ho_files h' = ho_files h
  | Some x => configured h' /\ exists raw b, holds h' raw b /\ loaded_from b x
  end.
Proof.
  intros Hne. induction fetchers as [|f fetchers IH]; cbn [starts]; intros h results h' H.
  - injection H as <- <-. cbn. split_and!; try done; constructor.
  - destruct (load_policy_bundle f h) as [r h1] eqn:E1. destruct (starts fetchers h1) as [rs h2] eqn:E2. injection H as <- <-.
    apply load_run in E1 as [Hkey Hr]; [|done]. destruct (IH h1 rs h2 E2) as (Hkey2 & Hc & Hp & Hs & Hl). rewrite Hkey in *.
    assert (forall fs, (exists f0 k, f0 ∈ fetchers /\ f0 k = Fetched fs) -> exists f0 k, f0 ∈ f :: fetchers /\ f0 k = Fetched fs) as Hin.
    { intros fs (f0 & k & Hf & E). exists f0, k. by split; [right|]. }
    destruct r as [x|e].
    + change (returned (Ok x :: rs)) with (x :: returned rs). destruct Hr as (raw & b & Hb & Hx & Hconf & Hsrc & Hsucc).
      pose proof (Hc raw b Hb) as Hlater. assert (verify_policy_bundle raw (public_key_of h) (expected_key_id cfg) = Ok b) as Hv
        by (destruct Hb as [_ Hv]; by rewrite <- Hkey). split_and!; [done| | | |].
      * intros raw0 b0 H0. constructor; [by exists raw, b; split_and!; [| |apply Hsucc]|].
        eapply Forall_impl; [exact Hlater|]. intros y (raw' & b' & Hv' & Hy & Hs'). exists raw', b'. split_and!; [done..|].
        eapply succeeds_trans; [by apply Hsucc|done].
      * constructor; [exists raw, b; split; [|done]; destruct Hsrc as [?|[k Hk]]; [by left|right; exists f, k; by split; [left|]]|].
        eapply Forall_impl; [exact Hp|]. intros y (raw' & b' & Hsrc' & Hv' & Hy). exists raw', b'. split; [|done].
        destruct Hsrc' as [Hh|Hf]; [|right; by apply Hin].
        destruct Hh as [Hf1 _], Hb as [Hfb _]. assert (raw' = raw) as -> by congruence. assert (b' = b) as -> by congruence.
        destruct Hsrc as [?|[k Hk]]; [by left|right; exists f, k; by split; [left|]].
      * constructor; [done|]. eapply Forall_impl; [exact Hlater|]. intros y (raw' & b' & Hv' & (Ey & Ry & Ky) & [Hle Heq]).
        destruct Hx as (Ex & Rx & Kx). rewrite Rx, Ry. split; [done|]. intros E. specialize (Heq E). subst raw'. assert (b' = b) as -> by congruence.
        split; congruence.
      * rewrite last_cons. destruct (last (returned rs)) as [y|]; [done|]. split; [unfold configured; by rewrite Hl, Hkey2, <- Hkey|].
        exists raw, b. split; [|done]. destruct Hb as [Hf _]. split; [by rewrite Hl|]. by rewrite Hkey2.
    + change (returned (Err e :: rs)) with (returned rs).
      assert (forall raw b, holds h1 raw b <-> holds h raw b) as Hh by (intros raw b; unfold holds; by rewrite Hr, Hkey).
      split_and!; [done| | |done|].
      * intros raw b H0. apply Hc. by apply Hh.
      * eapply Forall_impl; [exact Hp|]. intros y (raw' & b' & Hsrc' & Hv'). exists raw', b'. split; [|done].
        destruct Hsrc' as [?|?]; [left; by apply Hh|right; by apply Hin].
      * destruct (last (returned rs)); [done|]. congruence.
Qed.

Lemma outage_run f h raw b x : configured h -> holds h raw b -> loaded_from b x -> f (ho_ticks h) = RemoteUnavailable ->
  (load_policy_bundle f h).1 = Ok (Loaded (lb_value x) (lb_revision x) (lb_key_id x) true).
Proof.
  intros (H1 & H2 & H3 & H4) [Hf Hv] (Ex & Rx & Kx) Hu. unfold load_policy_bundle. rewrite !guard_run, H1, H2. cbn [negb].
  rewrite (proj2 (Z.leb_gt _ _) H3).
  assert (forall path d r, ho_files h !! path = Some (Some r) -> read_file path d h = (Ok r, h)) as Hread
    by (intros path d r E; unfold read_file, mbind, M_bind, gets; by rewrite E).
  rewrite (run_bind _ _ (public_key_of h) h h) by (by apply Hread). rewrite (run_bind _ _ (Some b) h h).
  - rewrite (run_bind _ _ (ho_ticks h) h (Host (ho_files h) (S (ho_ticks h)))) by done. rewrite Hu.
    unfold mbind, M_bind, lift. rewrite Ex. by rewrite Rx, Kx.
  - unfold read_cached. rewrite (run_bind _ _ true h h) by (unfold gets; by rewrite bool_decide_eq_true_2 by (by rewrite Hf)).
    rewrite (run_bind _ _ raw h h) by (by apply Hread). by rewrite (run_bind _ _ b h h) by (unfold lift; by rewrite Hv).
Qed.

(** C21: A policy is never rolled back.  However often a Manager starts and whatever the endpoint
    answers, the policies it runs under come from texts that were in the cache or answered by the endpoint
    and verified under the configured key; their revisions never decrease, one revision always means
    one policy, and none is older than the one cached at the beginning.  While the endpoint is
    unavailable, the last policy loaded is loaded again. *)
Theorem policy_never_rolls_back fetchers h results h' :
  public_key_file cfg <> cache_file cfg -> starts fetchers h = (results, h') ->
  let policies := returned results in
  Forall (fun x => exists raw b, (holds h raw b \/ exists f k, f ∈ fetchers /\ f k = Fetched raw) /\
    verify_policy_bundle raw (public_key_of h) (expected_key_id cfg) = Ok b /\ loaded_from b x) policies /\
  StronglySorted (fun x y => lb_revision x <= lb_revision y /\
    (lb_revision x = lb_revision y -> lb_value x = lb_value y /\ lb_key_id x = lb_key_id y)) policies /\
  (forall raw b, holds h raw b -> Forall (fun x => vb_revision b <= lb_revision x) policies) /\
  (forall x f, last policies = Some x -> f (ho_ticks h') = RemoteUnavailable ->
   (load_policy_bundle f h').1 = Ok (Loaded (lb_value x) (lb_revision x) (lb_key_id x) true)).
Proof.
  intros Hne H. cbv zeta. pose proof (starts_run fetchers Hne h results h' H) as (Hkey & Hc & Hp & Hs & Hl). split_and!; [done..| |].
  - intros raw b Hb. eapply Forall_impl; [exact (Hc raw b Hb)|]. intros x (raw' & b' & _ & (_ & -> & _) & [Hle _]). done.
  - intros x f Hx Hf. rewrite Hx in Hl. destruct Hl as (Hconf & raw & b & Hb & Hx'). by apply (outage_run f h' raw b x).
Qed.
End loading.

(** ** Worked case *)

(** Bundles of the revisions 1 and 2 signed with the signature "sig". *)
Definition bundle_doc (revision : Z) : json :=
  JObj (mk_dict [("schema_version", JInt 1); ("revision", JInt revision); ("issued_at_ms", JInt 0); ("key_id", JStr "k1");
    ("placement", JObj ∅); ("signature", JStr "c2ln")]).
Definition demo_signing : Signing := {|
  read_json raw := if String.eqb raw "one" then Some (bundle_doc 1) else if String.eqb raw "two" then Some (bundle_doc 2) else None;
  load_pem text := if String.eqb text "PEM" then Ed25519 "K" else NotPem;
  ed25519_verify key signature message := String.eqb key "K" && String.eqb signature "sig";
|}.
Definition good_disk : Disk := {| disk_writes _ := true |}.
Definition demo_settings : bundle_settings := BundleSettings "/key.pem" "/cache.json" "k1" 5000.
Definition fresh_host : host := Host {["/key.pem" := Some "PEM"]} 0.
(** The endpoint answers the newer bundle, then the older one, then nothing. *)
Definition endpoint_days : list (nat -> fetched) := [(fun _ => Fetched "two"); (fun _ => Fetched "one"); (fun _ => RemoteUnavailable)].
Definition demo_loader : dict -> res placement_config := placement_from_dict (fun _ => true).
Definition demo_starts : list (res (loaded placement_config)) * host :=
  @starts demo_signing good_disk placement_config demo_loader demo_settings endpoint_days fresh_host.

Lemma policy_never_rolls_back_witness :
  map lb_revision (returned demo_starts.1) = [2; 2] /\ map lb_from_cache (returned demo_starts.1) = [false; true] /\
  Forall (fun x => exists raw b, verify_policy_bundle (HSigning := demo_signing) raw "PEM" "k1" = Ok b /\ lb_revision x = vb_revision b)
    (returned demo_starts.1).
Proof.
  split; [vm_compute; reflexivity|]. split; [vm_compute; reflexivity|].
  destruct (@policy_never_rolls_back demo_signing good_disk placement_config demo_loader demo_settings endpoint_days fresh_host
              demo_starts.1 demo_starts.2) as [H _]; [discriminate|unfold demo_starts; destruct (starts _ _ _ _); reflexivity|].
  eapply Forall_impl; [exact H|]. intros x (raw & b & _ & Hv & _ & Hr & _). exists raw, b. split; [exact Hv|exact Hr].
Defined.

(** The cached bundle must verify even when the endpoint answers: after the pinned key id has
    changed, no start succeeds until the cache is removed. *)
Example key_rotation_needs_clean_cache :
  let h := demo_starts.2 in
  let rotated := BundleSettings "/key.pem" "/cache.json" "k2" 5000 in
  forall f, (@load_policy_bundle demo_signing good_disk placement_config demo_loader rotated f h).1 =
    Err (PolicyBundleValidationError "policy bundle key_id 'k1' does not match the pinned key").
Proof. intros h rotated f. vm_compute. reflexivity. Qed.
