(* ===== verification/Scheduler.v ===== *)
(** * The task scheduler

    [control/task_scheduler.py]: one pass of the primary Manager over the durable
    queue, which settles the membership of each generation and claims runnable
    tasks for Agents of the registry within their placement policies.  Metrics,
    logs and audit records are left out; the loop that computes the queue depths
    for them still parses every runnable task, as the source does. *)

From S2P Require Import Prelude PyText Sha256 Json World Lease Contract ReadPlan Generation WorkQueue Sources Floats Placement Registry.

(** The settings of a [TaskScheduler]. *)
Record scheduler := Scheduler {
  sc_manager_owner : string;
  sc_manager_fence : Z;
  sc_max_inflight : Z;
  sc_membership_policy : string;
}.

Definition new_scheduler (manager_owner : string) (manager_fence max_inflight : Z) (membership_policy : string) : res scheduler :=
  let policy := lower (strip membership_policy) in
  if negb (bool_decide (policy ∈ ["fixed"; "elastic"]))
  then Err (ValueError "membership_policy must be 'fixed' or 'elastic'")
  else Ok (Scheduler manager_owner manager_fence (Z.max 1 max_inflight) policy).

(** A candidate: its load and its identity. *)
Abbreviation candidate := (float * string)%type.

(** The claims counted per Agent, dataset, source and pool. *)
Record claim_counts := ClaimCounts {
  n_agents : gmap string Z;
  n_datasets : gmap (string * string) Z;
  n_sources : gmap string Z;
  n_pools : gmap string Z;
}.
Definition no_claims : claim_counts := ClaimCounts ∅ ∅ ∅ ∅.

(** [counts[key] = counts.get(key, 0) + 1] *)
Definition count `{Countable K} (m : gmap K Z) (k : K) : Z := default 0 (m !! k).
Definition count_one `{Countable K} (k : K) (m : gmap K Z) : gmap K Z := <[k := count m k + 1]> m.

Section scheduler.
Context `{Env} `{Process} `{QueueEnv} (q : queue) (sc : scheduler).

Definition is_materializer (a : agent_record) : bool := bool_decide ("materializer" ∈ ac_capabilities (ar_claims a)).

(** [max(1, int(public.get("capacity_hint", 0) or 1))] *)
Definition capacity_of (a : agent_record) : Z := Z.max 1 (int_or (ac_capacity_hint (ar_claims a)) 1).

(** Whether one live Agent has room, with its load. *)
Definition agent_candidate (claims : gmap string Z) (required_owner_shard : option Z) (allowed_workers : option (gset string))
    (a : agent_record) : option candidate :=
  let agent_id := ar_agent_id a in
  if match allowed_workers with Some s => negb (bool_decide (agent_id ∈ s)) | None => false end then None
  else if negb (is_materializer a) then None
  else if ar_draining a then None
  else if match required_owner_shard with Some n => negb (ac_shard_index (ar_claims a) =? n) | None => false end then None
  else
    let capacity := capacity_of a in
    let limit := match required_owner_shard with Some _ => 1 | None => sc_max_inflight sc * capacity end in
    if limit <=? count claims agent_id then None
    else Some (int_truediv (ah_inflight (ar_health a) + count claims agent_id) capacity, agent_id).

(** [_eligible_agents]: one round of its loop, and the whole *)
Definition consider_agent (claims : gmap string Z) (required_owner_shard : option Z) (allowed_workers : option (gset string))
    (acc : list candidate) (a : agent_record) : M fleet (list candidate) :=
  alive ← is_alive (ar_agent_id a);
  mret (if (alive : bool)
        then match agent_candidate claims required_owner_shard allowed_workers a with Some x => acc ++ [x] | None => acc end
        else acc).
Definition eligible_agents (claims : gmap string Z) (required_owner_shard : option Z) (allowed_workers : option (gset string))
  : M fleet (list candidate) :=
  publics ← list_agents;
  foldM (consider_agent claims required_owner_shard allowed_workers) [] publics.

(** [_tie_break] *)
Definition tie_break (task_id agent_id : string) : string := sha256_hex (fmt [task_id; "|"; agent_id]).

(** [_contract_version] *)
Definition contract_version_of (a : agent_record) : Z * Z :=
  match version_tuple (ac_contract_version (ar_claims a)) with Ok v => v | Err _ => (0, 0) end.

(** [_dataset_scope] *)
Definition dataset_scope (c : placement_config) (connection_id source_table : string) : string * string :=
  if bool_decide (is_Some (pc_tables c !! (connection_id, source_table))) then (connection_id, source_table) else (connection_id, "").

(** What the policy of a dataset pins, and the pools it names. *)
Definition pinning (p : materializer_policy) : bool :=
  truthy_str (po_required_pool p) || truthy_str (po_required_location p) || truthy_str (po_required_storage_profile p)
  || negb (bool_decide (po_fallback_pools p = [])).
Definition targets (p : materializer_policy) : list string :=
  (if truthy_str (po_required_pool p) then [po_required_pool p] else []) ++ po_fallback_pools p.

Definition under (limit : option Z) (n : Z) : bool := match limit with Some l => n <? l | None => true end.

(** The inner function [matching] *)
Definition matching (c : placement_config) (agents : gmap string agent_record) (connection_id source_table : string)
    (p : materializer_policy) (pool_claims : gmap string Z) (target : string) (x : candidate) : bool :=
  match agents !! x.2 with
  | None => false
  | Some a =>
      if pinning p && negb (tuple_le (1, 1) (contract_version_of a)) then false
      else
        let pool_id := ap_pool_id (ar_placement a) in
        match pc_pools c !! pool_id with
        | None => false
        | Some pool =>
            if truthy_str target && negb (String.eqb pool_id target) then false
            else if negb (allows pool connection_id source_table) then false
            else if truthy_str (po_required_location p) && negb (String.eqb (mp_location pool) (po_required_location p)) then false
            else if truthy_str (po_required_storage_profile p)
                    && negb (String.eqb (mp_storage_profile pool) (po_required_storage_profile p)) then false
            else under (mp_max_concurrency pool) (count pool_claims pool_id)
        end
  end.

(** The first target with a match, else nothing. *)
Fixpoint first_target (f : string -> list candidate) (l : list string) : list candidate :=
  match l with
  | [] => []
  | t :: l => match f t with [] => first_target f l | x => x end
  end.

(** [except PlacementPolicyViolation: return otherwise] *)
Definition unless_violation {A} (r : res unit) (otherwise : A) (k : res A) : res A :=
  match r with
  | Ok _ => k
  | Err (PlacementPolicyViolation _ _) => Ok otherwise
  | Err e => Err e
  end.

(** [_placement_eligible], on the public records of the registry *)
Definition placement_eligible (c : placement_config) (publics : list agent_record) (candidates : list candidate)
    (connection_id source_table tenant_id : string) (p : materializer_policy) (n : claim_counts) : res (list candidate) :=
  let agents : gmap string agent_record := list_to_map (reverse (map (fun a => (ar_agent_id a, a)) publics)) in
  unless_violation (validate_task_tenant c tenant_id p) []
  (let candidates :=
     if tenants_on c
     then filter (fun x => (match agents !! x.2 with Some a => ap_tenant_id (ar_placement a) | None => "" end) = tenant_id) candidates
     else candidates in
   if tenants_on c && bool_decide (candidates = []) then Ok []
   else
     unless_violation (validate_dispatch c p connection_id) []
     (if negb (enabled c) then Ok candidates
      else if negb (under (po_source_max_concurrency p) (count (n_sources n) connection_id)) then Ok []
      else if negb (under (po_max_concurrency p) (count (n_datasets n) (dataset_scope c connection_id source_table))) then Ok []
      else
        let f target := filter (fun x => matching c agents connection_id source_table p (n_pools n) target x = true) candidates in
        match targets p with
        | [] => Ok (f "")
        | l => Ok (first_target f l)
        end)).

(** [min(agents, key=lambda item: (item[0], tie_break))]: the first of the least *)
Definition before_ (task_id : string) (x y : candidate) : bool :=
  negb (fgeb x.1 y.1)
  || (fgeb y.1 x.1 && fgeb x.1 y.1 && bool_decide (tie_break task_id x.2 <> tie_break task_id y.2 /\ str_le (tie_break task_id x.2) (tie_break task_id y.2))).
Fixpoint least (task_id : string) (x : candidate) (l : list candidate) : candidate :=
  match l with
  | [] => x
  | y :: l => least task_id (if before_ task_id y x then y else x) l
  end.

(** ** Memberships *)

(** The Agents that can work at all, as [reconcile_membership] takes them. *)
Definition worker_entry (a : agent_record) (lease_id : string) : dict :=
  mk_dict [("agent_id", JStr (ar_agent_id a)); ("lease_id", JStr lease_id); ("capacity", JInt (capacity_of a))].
Definition live_workers : M fleet (list (string * dict)) :=
  publics ← list_agents;
  foldM (fun acc a =>
    rec ← get_agent (ar_agent_id a);
    match rec with
    | None => mret acc
    | Some r =>
        alive ← is_alive (ar_agent_id a);
        if negb alive || negb (is_materializer a) || ar_draining a then mret acc
        else mret (acc ++ [(ar_agent_id a, worker_entry a (ar_lease_id r))])
    end) [] publics.

(** [any(...)] over a fallible test *)
Fixpoint res_any {A} (f : A -> res bool) (l : list A) : res bool :=
  match l with
  | [] => Ok false
  | a :: l => b ← f a; if (b : bool) then Ok true else res_any f l
  end.

(** Whether a worker could run one of the generation's tasks. *)
Definition could_run (c : placement_config) (publics : list agent_record) (agent_id : string) (t : materialize_task) : res bool :=
  l ← placement_eligible c publics [(Float 0 0, agent_id)] (mt_connection_id t) (mt_source_table t) (mt_tenant_id t)
        (policy_for c (mt_connection_id t) (mt_source_table t)) no_claims;
  Ok (negb (bool_decide (map snd l = []))).

(** The unfinished tasks of a generation. *)
Definition generation_payloads (generation_id : string) (tasks : list dict) : res (list materialize_task) :=
  l ← res_map (fun task =>
        if in_terminal (dget task "state" JNull) then Ok []
        else
          inner ← get_dict task "task";
          g ← get_str inner "generation_id" "";
          if String.eqb g generation_id then t ← payload_of task; Ok [t] else Ok []) tasks;
  Ok (concat l).

(** One step of the membership loop of [dispatch_once]. *)
Definition settle_membership (tasks : list dict) (workers : list (string * dict)) (memberships : gmap string dict) (task : dict)
  : M fleet (gmap string dict) :=
  if in_terminal (dget task "state" JNull) then mret memberships
  else
    payload ← lift (payload_of task);
    let g := mt_generation_id payload in
    if negb (truthy_str g) || bool_decide (is_Some (memberships !! g)) then mret memberships
    else
      payloads ← lift (generation_payloads g tasks);
      publics ← list_agents;
      c ← reg rg_placement;
      chosen ← lift (res_map (fun w : string * dict =>
        ok ← res_any (could_run c publics w.1) payloads; Ok (if (ok : bool) then [w.2] else [])) workers);
      membership ← on_world (reconcile_membership q g (mt_generation_fence payload) (concat chosen) (sc_membership_policy sc) None);
      on_world (reassign_fenced_claims q g membership None);;
      stored ← on_world (get_membership g);
      (* [get_membership(...) or membership]: an empty record is falsy *)
      mret (<[g := match stored with Some m => if bool_decide (m = ∅) then membership else m | None => membership end]> memberships).

(** ** Dispatch *)

(** The claims already out. *)
Definition count_claim (c : placement_config) (agents : list (string * agent_record)) (n : claim_counts) (task : dict)
  : res claim_counts :=
  state ← dget_req task "state";
  if negb (bool_decide (state = js TASK_CLAIMED)) then Ok n
  else
    claim ← get_dict task "claim";
    agent_id ← get_str claim "agent_id" "";
    if negb (truthy_str agent_id) then Ok n
    else
      payload ← payload_of task;
      let pool_id := match odict_get agent_id agents with Some a => ap_pool_id (ar_placement a) | None => "" end in
      Ok (ClaimCounts (count_one agent_id (n_agents n))
            (count_one (dataset_scope c (mt_connection_id payload) (mt_source_table payload)) (n_datasets n))
            (count_one (mt_connection_id payload) (n_sources n))
            (if truthy_str pool_id then count_one pool_id (n_pools n) else n_pools n)).

(** The shard a transaction-bound read is tied to. *)
Definition owner_shard (g : option generation_context) (connection_id source_table : string) : option Z :=
  match g with
  | None => None
  | Some g =>
      match List.find (fun p => String.eqb (tp_table_id p) (fmt [connection_id; "::"; source_table])) (gc_table_plans g) with
      | Some p => if String.eqb (rd_provider (tp_descriptor p)) "mssql_transaction" then Some (rd_owner_shard (tp_descriptor p)) else None
      | None => None
      end
  end.

(** The active members of a membership record. *)
Definition active_members (membership : dict) : res (gset string) :=
  workers ← get_dict membership "workers";
  l ← res_map (fun kv : string * json => w ← as_obj kv.2;
         Ok (if bool_decide (dget w "state" JNull = JStr "active") then [kv.1] else [])) (map_to_list workers);
  Ok (list_to_set (concat l)).

(** The Agents a task may go to, by load. *)
Definition task_candidates (c : placement_config) (n : claim_counts) (members : option (gset string)) (g : option generation_context)
    (t : materialize_task) (p : materializer_policy) : M fleet (list candidate) :=
  agents ← eligible_agents (n_agents n) (owner_shard g (mt_connection_id t) (mt_source_table t)) members;
  publics ← list_agents;
  lift (placement_eligible c publics agents (mt_connection_id t) (mt_source_table t) (mt_tenant_id t) p n).

Definition no_agent : string := "no_eligible_materializer".

(** Hand a claimed task to its Agent and count it. *)
Definition deliver (c : placement_config) (n : claim_counts) (dispatched : Z) (t : materialize_task) (agent_id : string)
    (command_task : materialize_task) : M fleet (claim_counts * Z) :=
  sent ← queue_command agent_id (ControlCommand "materialize" None None (Some command_task) None);
  if negb (sent : bool) then
    on_world (release_claim q (mt_task_id command_task) (mt_claim_token command_task) "agent_unregistered_before_delivery");;
    mret (n, dispatched)
  else
    worker ← get_agent agent_id;
    let pool_id := match worker with Some a => ap_pool_id (ar_placement a) | None => "" end in
    mret (ClaimCounts (count_one agent_id (n_agents n))
            (count_one (dataset_scope c (mt_connection_id t) (mt_source_table t)) (n_datasets n))
            (count_one (mt_connection_id t) (n_sources n))
            (if truthy_str pool_id then count_one pool_id (n_pools n) else n_pools n), dispatched + 1).

(** Claim a task for the chosen Agent. *)
Definition assign_task (c : placement_config) (memberships : gmap string dict) (n : claim_counts) (dispatched : Z) (task_id : string)
    (t : materialize_task) (agent_id : string) : M fleet (claim_counts * Z) :=
  record ← get_agent agent_id;
  match record with
  | None => mret (n, dispatched)
  | Some a =>
      let membership := default ∅ (memberships !! mt_generation_id t) in
      workers ← lift (get_dict membership "workers");
      worker ← lift (as_obj (dget workers agent_id (JObj ∅)));
      version ← lift (get_int membership "membership_version" 0);
      fence ← lift (get_int worker "worker_fence" 0);
      let lease_seconds := pool_for_identity c agent_id ≫= mp_claim_lease_seconds in
      claimed ← catch (t ← on_world (claim_task q task_id agent_id (ar_lease_id a) (sc_manager_owner sc) (sc_manager_fence sc)
                                       version fence None lease_seconds); mret (Some t))
                      (fun e => match e with WorkQueueConflict _ => mret None | e => raise e end);
      match claimed with
      | None => mret (n, dispatched)
      | Some command_task => deliver c n dispatched t agent_id command_task
      end
  end.

(** Whether a task belongs to another generation than the current one. *)
Definition fenced_out (g : option generation_context) (t : materialize_task) : bool :=
  match g with
  | Some g => negb (String.eqb (mt_generation_id t) (gc_generation_id g)) || negb (mt_generation_fence t =? gc_fence g)
              || negb (String.eqb (mt_plan_sha256 t) (gc_plan_sha256 g))
  | None => false
  end.

(** One runnable task of [dispatch_once]. *)
Definition dispatch_task (memberships : gmap string dict) (acc : claim_counts * Z) (task : dict) : M fleet (claim_counts * Z) :=
  let '(n, dispatched) := acc in
  g ← on_world current_generation;
  t ← lift (payload_of task);
  task_id ← lift (task_id_of task);
  if fenced_out g t then
    on_world (cancel_request q (mt_request_id t) "generation_fenced");; mret acc
  else
    c ← reg rg_placement;
    let p := policy_for c (mt_connection_id t) (mt_source_table t) in
    match validate_task_tenant c (mt_tenant_id t) p ≫= (fun _ => validate_dispatch c p (mt_connection_id t)) with
    | Err (PlacementPolicyViolation code _) => on_world (set_dispatch_status q task_id code);; mret acc
    | Err e => raise e
    | Ok _ =>
        members ← lift (match memberships !! mt_generation_id t with
                        | Some m => s ← active_members m; Ok (Some s) | None => Ok None end);
        agents ← task_candidates c n members g t p;
        match agents with
        | [] => on_world (set_dispatch_status q task_id no_agent);; mret acc
        | x :: l => assign_task c memberships n dispatched task_id t (least task_id x l).2
        end
    end.

(** [dispatch_once] *)
Definition dispatch_once : M fleet Z :=
  on_world (expire_claims q None);;
  tasks ← on_world list_tasks;
  workers ← live_workers;
  memberships ← foldM (settle_membership tasks workers) ∅ tasks;
  tasks ← on_world list_tasks;
  c ← reg rg_placement;
  agents ← reg rg_agents;
  n ← lift (res_fold (count_claim c agents) no_claims tasks);
  runnable ← on_world (runnable_tasks q None (Some tasks) false);
  lift (res_map payload_of runnable);;
  r ← foldM (dispatch_task memberships) (n, 0) runnable;
  mret r.2.
End scheduler.
