(* ===== verification/SchedulerProps.v ===== *)
(** * The task scheduler: who gets a task

    Every Agent that is handed a task is alive, able, within its limits and inside
    the placement policy of the dataset; the limits on Agents, pools, sources and
    datasets hold over a whole pass. *)

From S2P Require Import Prelude PyText Sha256 Json ArtifactStore World Lease Contract ReadPlan Generation WorkQueue QueueDemo Sources Floats Placement PlacementProps Registry RegistryProps Scheduler.

(** ** Computations that leave the registry alone *)

Definition steady {A} (m : M fleet A) : Prop := forall f, fl_registry (m f).2 = fl_registry f.

Section steady.
Context `{Env} `{Process}.
Lemma steady_ret {A} (a : A) : steady (mret a).
Proof. done. Qed.
Lemma steady_raise {A} e : steady (raise (A := A) e).
Proof. done. Qed.
Lemma steady_lift {A} (r : res A) : steady (lift r).
Proof. done. Qed.
Lemma steady_reg {A} (g : agent_registry -> A) : steady (reg g).
Proof. done. Qed.
Lemma steady_on_world {A} (m : M world A) : steady (on_world m).
Proof. done. Qed.
Lemma steady_now : steady now_.
Proof. done. Qed.
Lemma steady_bind {A B} (m : M fleet A) (k : A -> M fleet B) : steady m -> (forall a, steady (k a)) -> steady (m ≫= k).
Proof.
  intros Hm Hk f. unfold mbind, M_bind. specialize (Hm f). destruct (m f) as [[a|e] f']; cbn in *; [by rewrite Hk|done].
Qed.
Lemma steady_catch {A} (m : M fleet A) k : steady m -> (forall e, steady (k e)) -> steady (catch m k).
Proof.
  intros Hm Hk f. unfold catch. specialize (Hm f). destruct (m f) as [[a|e] f']; cbn in *; [done|by rewrite Hk].
Qed.
Lemma steady_foldM {A B} (g : B -> A -> M fleet B) l : (forall b a, steady (g b a)) -> forall b, steady (foldM g b l).
Proof. intros Hg. induction l as [|a l IH]; intros b; [apply steady_ret|]. apply steady_bind; [apply Hg|apply IH]. Qed.
Lemma steady_is_alive k : steady (is_alive k).
Proof. intros f. unfold is_alive, reg, gets, mbind, M_bind. by destruct (odict_get k _). Qed.
End steady.

#[export] Hint Resolve steady_ret steady_raise steady_lift steady_reg steady_on_world steady_now steady_is_alive : fsp.

(** Prove that a computation leaves the registry alone, by structure. *)
Ltac solve_steady :=
  repeat first
    [ solve [eauto with fsp]
    | apply steady_bind; [|intros ?]
    | apply steady_catch; [|intros ?]
    | apply steady_foldM; intros ? ?
    | case_scrut ].

(** ** The Agents a task may go to *)

Section candidates.
Context `{HEnv : Env} `{HProc : Process} `{HQ : QueueEnv} (q : queue) (sc : scheduler).

(** What an eligible Agent is, whatever the policy, when it was found between two readings of the
    clock. *)
Record able (from until : nat) (r : agent_registry) (claims : gmap string Z) (shard : option Z) (members : option (gset string)) (k : string)
    (a : agent_record) : Prop := {
  able_registered : odict_get k (rg_agents r) = Some a;
  able_alive : exists i, (from <= i < until)%nat /\ record_alive r a (monotonic i) = true;
  able_capable : "materializer" ∈ ac_capabilities (ar_claims a);
  able_not_draining : ar_draining a = false;
  able_member : forall s, members = Some s -> k ∈ s;
  able_shard : forall n, shard = Some n -> ac_shard_index (ar_claims a) = n /\ count claims k < 1;
  able_room : shard = None -> count claims k < sc_max_inflight sc * capacity_of a;
}.

Lemma able_later from until from' until' r claims shard members k a : (from' <= from)%nat -> (until <= until')%nat ->
  able from until r claims shard members k a -> able from' until' r claims shard members k a.
Proof. intros H1 H2 [? (i & ? & ?)]. split; try done. exists i. split; [lia|done]. Qed.

Lemma agent_candidate_able from until r claims shard members k a x i :
  registry_ok r -> (k, a) ∈ rg_agents r -> (from <= i < until)%nat -> record_alive r a (monotonic i) = true ->
  agent_candidate sc claims shard members a = Some x -> x.2 = k /\ able from until r claims shard members k a.
Proof.
  intros [HN Hall] Hin Hi Halive. pose proof (ok_key _ _ _ (Hall _ _ Hin)) as Hid. unfold agent_candidate. rewrite Hid.
  destruct (match members with Some s => _ | None => _ end) eqn:Hm; [done|].
  destruct (is_materializer a) eqn:Hmat; cbn [negb]; [|done]. destruct (ar_draining a) eqn:Hd; [done|].
  destruct (match shard with Some n => _ | None => _ end) eqn:Hs; [done|]. cbn zeta.
  destruct (_ <=? count claims k) eqn:Hl; [done|]. intros [= <-]. split; [done|]. apply Z.leb_gt in Hl. split; try done.
  - by apply odict_get_elem.
  - by exists i.
  - by apply bool_decide_eq_true in Hmat.
  - intros s ->. by apply negb_false_iff, bool_decide_eq_true in Hm.
  - intros n ->. apply negb_false_iff, Z.eqb_eq in Hs. split; [done|]. lia.
  - intros ->. lia.
Qed.

Lemma is_alive_run k f : exists b f', is_alive k f = (Ok b, f') /\ fl_registry f' = fl_registry f
  /\ fl_world f' = fl_world f /\ (fl_readings f <= fl_readings f')%nat
  /\ (b = true -> exists a i, odict_get k (rg_agents (fl_registry f)) = Some a /\ (fl_readings f <= i < fl_readings f')%nat
        /\ record_alive (fl_registry f) a (monotonic i) = true).
Proof.
  unfold is_alive, reg, gets, mbind, M_bind, now_. destruct (odict_get k _) as [a|] eqn:Ha; cbn.
  - eexists _, _. split_and!; [done..|cbn; lia|]. intros Hb. exists a, (fl_readings f). split_and!; [done|cbn; lia..|done].
  - eexists _, _. split_and!; [done..|cbn; lia|]. done.
Qed.

Lemma consider_agents_able claims shard members r l : registry_ok r -> (forall a, a ∈ l -> exists k, (k, a) ∈ rg_agents r) ->
  forall from acc f, fl_registry f = r -> (from <= fl_readings f)%nat ->
  Forall (fun x : candidate => exists a, able from (fl_readings f) r claims shard members x.2 a) acc ->
  exists l' f', foldM (consider_agent sc claims shard members) acc l f = (Ok l', f') /\ fl_registry f' = r /\ fl_world f' = fl_world f
    /\ (fl_readings f <= fl_readings f')%nat
    /\ Forall (fun x : candidate => exists a, able from (fl_readings f') r claims shard members x.2 a) l'.
Proof.
  intros Hr. induction l as [|a l IH]; intros Hl from acc f Hf Hfrom Hacc; [by exists acc, f|].
  destruct (is_alive_run (ar_agent_id a) f) as (b & f1 & Ealive & E1 & W1 & Hle & Hb).
  assert (Estep : consider_agent sc claims shard members acc a f
    = (Ok (if b then match agent_candidate sc claims shard members a with Some x => acc ++ [x] | None => acc end else acc), f1))
    by (unfold consider_agent, mbind, M_bind; by rewrite Ealive).
  cbn [foldM]. unfold mbind, M_bind. rewrite Estep.
  assert (Hacc1 : Forall (fun x : candidate => exists a, able from (fl_readings f1) r claims shard members x.2 a) acc).
  { eapply Forall_impl; [exact Hacc|]. intros x [a' Ha']. exists a'. by eapply able_later; [| |exact Ha']. }
  destruct (IH ltac:(set_solver) from (if b then match agent_candidate sc claims shard members a with Some x => acc ++ [x] | None => acc end else acc) f1)
    as (l' & f' & E' & R' & W' & Hle' & Hall'); [congruence|lia| |exists l', f'; split_and!; [done..|congruence|lia|done]].
  destruct b; [|done]. destruct (Hb eq_refl) as (a' & i & Ha' & Hi & Halive).
  destruct (Hl a) as [k Hk]; [left|]. pose proof (proj2 Hr _ _ Hk) as Hok. rewrite Hf, (ok_key _ _ _ Hok) in Ha'.
  rewrite (odict_get_elem k a) in Ha'; [|apply Hr|done]. injection Ha' as <-.
  destruct (agent_candidate sc claims shard members a) as [x|] eqn:Hx; [|done].
  rewrite Hf in Halive. apply Forall_app. split; [done|]. constructor; [|constructor].
  destruct (agent_candidate_able from (fl_readings f1) _ _ _ _ _ _ _ i Hr Hk ltac:(lia) Halive Hx) as [-> ?]. eauto.
Qed.

Lemma eligible_agents_able claims shard members f : registry_ok (fl_registry f) ->
  exists l f', eligible_agents sc claims shard members f = (Ok l, f') /\ fl_registry f' = fl_registry f /\ fl_world f' = fl_world f
    /\ Forall (fun x : candidate => exists a, able (fl_readings f) (fl_readings f') (fl_registry f) claims shard members x.2 a) l.
Proof.
  intros Hr. destruct (consider_agents_able claims shard members (fl_registry f) (map snd (rg_agents (fl_registry f))) Hr) with
    (from := fl_readings f) (acc := [] : list candidate) (f := f) as (l & f' & E & ? & ? & _ & ?); [|done|done|constructor|by exists l, f'].
  intros a Ha. apply list_elem_of_fmap in Ha as ([k a'] & -> & ?). by exists k.
Qed.

(** ** What a policy adds *)

Definition public_map (publics : list agent_record) : gmap string agent_record :=
  list_to_map (reverse (map (fun a => (ar_agent_id a, a)) publics)).

Lemma public_map_registry r k a : registry_ok r -> public_map (map snd (rg_agents r)) !! k = Some a ->
  odict_get k (rg_agents r) = Some a.
Proof.
  intros [HN Hall] Hl. apply elem_of_list_to_map_2, elem_of_reverse, list_elem_of_fmap in Hl as (a' & [= -> ->] & Hin).
  apply list_elem_of_fmap in Hin as ([k a''] & -> & Hin). cbn. rewrite (ok_key _ _ _ (Hall _ _ Hin)). by apply odict_get_elem.
Qed.

(** What the placement policy asks of the pool of a candidate. *)
Record fits (c : placement_config) (conn table : string) (p : materializer_policy) (n : claim_counts) (pool_id : string)
    (pool : materializer_pool) : Prop := {
  fits_pool : pc_pools c !! pool_id = Some pool;
  fits_target : targets p <> [] -> exists t, t ∈ targets p /\ (t <> "" -> t = pool_id);
  fits_allowed : allows pool conn table = true;
  fits_location : po_required_location p <> "" -> mp_location pool = po_required_location p;
  fits_store : po_required_storage_profile p <> "" -> mp_storage_profile pool = po_required_storage_profile p;
  fits_pool_limit : under (mp_max_concurrency pool) (count (n_pools n) pool_id) = true;
  fits_source_limit : under (po_source_max_concurrency p) (count (n_sources n) conn) = true;
  fits_dataset_limit : under (po_max_concurrency p) (count (n_datasets n) (dataset_scope c conn table)) = true;
}.

Lemma matching_fits c agents conn table p n target x : matching c agents conn table p (n_pools n) target x = true ->
  under (po_source_max_concurrency p) (count (n_sources n) conn) = true ->
  under (po_max_concurrency p) (count (n_datasets n) (dataset_scope c conn table)) = true ->
  (targets p <> [] -> target ∈ targets p) ->
  exists a pool, agents !! x.2 = Some a /\ fits c conn table p n (ap_pool_id (ar_placement a)) pool.
Proof.
  unfold matching. intros H Hsrc Hds Ht. destruct (agents !! x.2) as [a|]; [|done]. destruct (pinning p && _); [done|].
  cbn zeta in H. destruct (pc_pools c !! _) as [pool|] eqn:Hpool; [|done].
  destruct (truthy_str target && _) eqn:E1; [done|]. destruct (allows pool conn table) eqn:E2; cbn [negb] in H; [|done].
  destruct (truthy_str (po_required_location p) && _) eqn:E3; [done|].
  destruct (truthy_str (po_required_storage_profile p) && _) eqn:E4; [done|].
  exists a, pool. split; [done|]. split; try done.
  - intros Hne. exists target. split; [by apply Ht|]. intros Hnt. rewrite (proj2 (truthy_str_true _) Hnt) in E1. cbn in E1.
    by apply negb_false_iff, String.eqb_eq in E1.
  - intros Hne. rewrite (proj2 (truthy_str_true _) Hne) in E3. cbn in E3. by apply negb_false_iff, String.eqb_eq in E3.
  - intros Hne. rewrite (proj2 (truthy_str_true _) Hne) in E4. cbn in E4. by apply negb_false_iff, String.eqb_eq in E4.
Qed.

Lemma first_target_elem f l x : x ∈ first_target f l -> exists t, t ∈ l /\ x ∈ f t.
Proof.
  induction l as [|t l IH]; cbn; [by intros ?%not_elem_of_nil|]. destruct (f t) eqn:E; intros Hx.
  - destruct (IH Hx) as (t' & ? & ?). exists t'. split; [by right|done].
  - exists t. split; [left|]. by rewrite E.
Qed.

Lemma unless_violation_Ok {A} (r : res unit) (d : A) k v : unless_violation r d k = Ok v -> (r = Ok tt /\ k = Ok v) \/ v = d.
Proof. destruct r as [[]|[]]; cbn; intros H; try done; [by left|right; congruence]. Qed.

Lemma task_tenant_Ok c tenant p : validate_task_tenant c tenant p = Ok tt -> tenants_on c = true ->
  tenant <> "" /\ tenant = po_tenant_id p.
Proof.
  unfold validate_task_tenant. intros H Hon. rewrite Hon in H. cbn [negb] in H.
  rewrite reject_Ok, orb_false, !negb_false_iff, String.eqb_eq, truthy_str_true in H. tauto.
Qed.

(** A candidate that passes the policy. *)
Lemma placement_eligible_fits c publics candidates conn table tenant p n l x :
  placement_eligible c publics candidates conn table tenant p n = Ok l -> x ∈ l ->
  x ∈ candidates /\ validate_task_tenant c tenant p = Ok tt /\ validate_dispatch c p conn = Ok tt
  /\ (tenants_on c = true -> exists a, public_map publics !! x.2 = Some a /\ ap_tenant_id (ar_placement a) = tenant)
  /\ (enabled c = true -> exists a pool, public_map publics !! x.2 = Some a
        /\ fits c conn table p n (ap_pool_id (ar_placement a)) pool).
Proof.
  unfold placement_eligible. fold (public_map publics). intros H Hx.
  apply unless_violation_Ok in H as [[Hten H]| ->]; [|by apply not_elem_of_nil in Hx].
  set (cs := if tenants_on c then _ else candidates) in H.
  destruct (tenants_on c && bool_decide (cs = [])); [injection H as <-; by apply not_elem_of_nil in Hx|].
  apply unless_violation_Ok in H as [[Hdis H]| ->]; [|by apply not_elem_of_nil in Hx].
  assert (Hcs : x ∈ cs /\ (enabled c = true -> exists a pool, public_map publics !! x.2 = Some a
        /\ fits c conn table p n (ap_pool_id (ar_placement a)) pool)).
  { destruct (enabled c); cbn [negb] in H; [|injection H as <-; by split].
    destruct (under (po_source_max_concurrency p) _) eqn:E1; cbn [negb] in H; [|injection H as <-; by apply not_elem_of_nil in Hx].
    destruct (under (po_max_concurrency p) _) eqn:E2; cbn [negb] in H; [|injection H as <-; by apply not_elem_of_nil in Hx].
    cbn zeta in H. destruct (targets p) as [|t0 ts] eqn:Ht.
    - injection H as <-. apply list_elem_of_filter in Hx as [Hm Hx]. split; [done|]. intros _.
      eapply matching_fits; [exact Hm|done..|]. by rewrite Ht.
    - match type of H with Ok ?y = Ok _ => assert (l = y) as -> by congruence end. apply first_target_elem in Hx as (t & Hin & Hx). apply list_elem_of_filter in Hx as [Hm Hx]. split; [done|].
      intros _. eapply matching_fits; [exact Hm|done..|]. by rewrite Ht. }
  destruct Hcs as [Hcs Hfit]. unfold cs in Hcs. split_and!; [|done..| |done].
  - destruct (tenants_on c); [by apply list_elem_of_filter in Hcs as [_ ?]|done].
  - intros Hon. rewrite Hon in Hcs. apply list_elem_of_filter in Hcs as [Hc _].
    destruct (public_map publics !! x.2) as [a|]; [by exists a|]. exfalso.
    destruct (task_tenant_Ok _ _ _ Hten Hon) as [Hne _]. by apply Hne.
Qed.
End candidates.

(** ** The choice *)

Section choice.
Lemma least_elem task_id x l : least task_id x l ∈ x :: l.
Proof.
  revert x. induction l as [|y l IH]; intros x; cbn; [left|].
  specialize (IH (if before_ task_id y x then y else x)). destruct (before_ task_id y x); set_solver.
Qed.

(** The comparison of loads does not depend on the exponent it is made at. *)
Lemma fgeb_at e f g : e <= exponent f -> e <= exponent g ->
  fgeb f g = (mantissa g * 2 ^ (exponent g - e) <=? mantissa f * 2 ^ (exponent f - e)).
Proof.
  intros Hf Hg. unfold fgeb. set (m := Z.min (exponent f) (exponent g)).
  assert (Hm : e <= m) by lia.
  replace (exponent g - e) with ((exponent g - m) + (m - e)) by lia.
  replace (exponent f - e) with ((exponent f - m) + (m - e)) by lia.
  rewrite !Z.pow_add_r by lia. rewrite !Z.mul_assoc. apply eq_true_iff_eq. rewrite !Z.leb_le.
  apply Z.mul_le_mono_pos_r. apply Z.pow_pos_nonneg; lia.
Qed.

Lemma fgeb_refl f : fgeb f f = true.
Proof. unfold fgeb. apply Z.leb_le. lia. Qed.
Lemma fgeb_trans f g h : fgeb f g = true -> fgeb g h = true -> fgeb f h = true.
Proof.
  set (e := Z.min (exponent f) (Z.min (exponent g) (exponent h))).
  rewrite (fgeb_at e f g), (fgeb_at e g h), (fgeb_at e f h) by lia. rewrite !Z.leb_le. lia.
Qed.
Lemma fgeb_total f g : fgeb f g = true \/ fgeb g f = true.
Proof.
  set (e := Z.min (exponent f) (exponent g)).
  rewrite (fgeb_at e f g), (fgeb_at e g f) by lia. rewrite !Z.leb_le. lia.
Qed.

(** [x] is not after [y]: less loaded, or equally and with no greater digest. *)
Definition no_later (task_id : string) (x y : candidate) : Prop :=
  fgeb y.1 x.1 = true /\ (fgeb x.1 y.1 = true -> str_le (tie_break task_id x.2) (tie_break task_id y.2)).

Lemma no_later_refl task_id x : no_later task_id x x.
Proof. split; [apply fgeb_refl|]. intros _. destruct (str_le_total (tie_break task_id x.2) (tie_break task_id x.2)); done. Qed.
Lemma no_later_trans task_id x y z : no_later task_id x y -> no_later task_id y z -> no_later task_id x z.
Proof.
  intros [H1 H1'] [H2 H2']. split; [by eapply fgeb_trans|]. intros H3.
  eapply str_le_trans; [apply H1'; by eapply fgeb_trans|apply H2'; by eapply fgeb_trans].
Qed.
Lemma before_no_later task_id x y : before_ task_id x y = true -> no_later task_id x y.
Proof.
  unfold before_, no_later. rewrite orb_true_iff, negb_true_iff, !andb_true_iff, bool_decide_eq_true.
  intros [H|[[H1 H2] [_ H3]]]; [|tauto]. split; [|congruence]. destruct (fgeb_total x.1 y.1); congruence.
Qed.
Lemma not_before_no_later task_id x y : before_ task_id x y = false -> no_later task_id y x.
Proof.
  unfold before_, no_later. rewrite orb_false_iff, negb_false_iff, !andb_false_iff, bool_decide_eq_false.
  intros [H1 H2]. split; [done|]. intros H3. destruct H2 as [[H2|H2]|H2]; [congruence..|].
  destruct (str_le_total (tie_break task_id y.2) (tie_break task_id x.2)) as [|Hle]; [done|].
  destruct (decide (tie_break task_id x.2 = tie_break task_id y.2)) as [E|E]; [by rewrite E in *|]. exfalso. tauto.
Qed.

(** The choice is the least loaded candidate. *)
Lemma least_no_later task_id x l y : y ∈ x :: l -> no_later task_id (least task_id x l) y.
Proof.
  revert x y. induction l as [|z l IH]; intros x y Hy; cbn.
  - apply list_elem_of_singleton in Hy as ->. apply no_later_refl.
  - destruct (before_ task_id z x) eqn:Hb.
    + apply elem_of_cons in Hy as [->|Hy]; [|by apply IH].
      eapply no_later_trans; [apply (IH z z); left|]. by apply before_no_later.
    + apply elem_of_cons in Hy as [->|Hy]; [apply IH; left|]. apply elem_of_cons in Hy as [->|Hy]; [|apply IH; by right].
      eapply no_later_trans; [apply (IH x x); left|]. by apply not_before_no_later.
Qed.
End choice.

(** ** One task *)

Lemma bindM_Ok {S A B} (m : M S A) (k : A -> M S B) s b s' : (m ≫= k) s = (Ok b, s') ->
  exists a s1, m s = (Ok a, s1) /\ k a s1 = (Ok b, s').
Proof. unfold mbind, M_bind. destruct (m s) as [[a|e] s1]; [eauto|done]. Qed.

Section pass.
Context `{HEnv : Env} `{HProc : Process} `{HQ : QueueEnv} (q : queue) (sc : scheduler).

(** The registry keeps its settings and, of every Agent, what it claimed and where
    it is placed. *)
Definition same_fleet (r r' : agent_registry) : Prop :=
  registry_ok r' /\ rg_placement r' = rg_placement r
  /\ forall k, option_Forall2 (fun a b => ar_claims a = ar_claims b /\ ar_placement a = ar_placement b)
                 (odict_get k (rg_agents r)) (odict_get k (rg_agents r')).

Lemma same_fleet_refl r : registry_ok r -> same_fleet r r.
Proof. intros Hr. split_and!; [done..|]. intros k. destruct (odict_get k _); by constructor. Qed.
Lemma same_fleet_trans r1 r2 r3 : same_fleet r1 r2 -> same_fleet r2 r3 -> same_fleet r1 r3.
Proof.
  intros (_ & E1 & H1) (Hr & E2 & H2). split_and!; [done|congruence|]. intros k. specialize (H1 k). specialize (H2 k).
  destruct H1 as [a b [??]|]; inversion H2; subst; constructor. naive_solver congruence.
Qed.

Lemma queue_command_same k cmd f b f' : registry_ok (fl_registry f) -> queue_command k cmd f = (Ok b, f') ->
  same_fleet (fl_registry f) (fl_registry f').
Proof.
  intros Hr Hq. pose proof (queue_command_outcome k cmd f Hr) as Ho. rewrite Hq in Ho.
  destruct (perform_ok (Command k cmd) f Hr) as [Hok Hpl]. cbn [perform] in Hok, Hpl. unfold mbind, M_bind in Hok, Hpl. rewrite Hq in Hok, Hpl.
  split_and!; [done..|]. destruct b; [|destruct Ho as [_ ->]; intros x; destruct (odict_get x _); by constructor].
  destruct Ho as (a & Ha & ->). intros x. cbn. destruct (decide (x = k)) as [->|Hne].
  - rewrite Ha, odict_get_set_eq. by constructor.
  - rewrite odict_get_set_ne by done. destruct (odict_get x _); by constructor.
Qed.

(** Computations that only read the clock forward. *)
Definition forward {A} (m : M fleet A) : Prop := forall f, (fl_readings f <= fl_readings (m f).2)%nat.
Lemma forward_keep {A} (m : M fleet A) : (forall f, fl_readings (m f).2 = fl_readings f) -> forward m.
Proof. intros H f. by rewrite H. Qed.
Lemma forward_bind {A B} (m : M fleet A) (k : A -> M fleet B) : forward m -> (forall a, forward (k a)) -> forward (m ≫= k).
Proof.
  intros Hm Hk f. unfold mbind, M_bind. specialize (Hm f). destruct (m f) as [[a|e] f'] eqn:E; cbn in *; [|done].
  specialize (Hk a f'). lia.
Qed.
Lemma forward_catch {A} (m : M fleet A) k : forward m -> (forall e, forward (k e)) -> forward (catch m k).
Proof.
  intros Hm Hk f. unfold catch. specialize (Hm f). destruct (m f) as [[a|e] f'] eqn:E; cbn in *; [done|].
  specialize (Hk e f'). lia.
Qed.
Lemma forward_foldM {A B} (g : B -> A -> M fleet B) l : (forall b a, forward (g b a)) -> forall b, forward (foldM g b l).
Proof. intros Hg. induction l as [|a l IH]; intros b; [by apply forward_keep|]. apply forward_bind; [apply Hg|apply IH]. Qed.

(** Prove that a computation reads the clock forward, by structure. *)
Ltac solve_forward :=
  repeat first
    [ apply forward_keep; done
    | intros ?; cbn; lia
    | apply forward_bind; [|intros ?]
    | apply forward_catch; [|intros ?]
    | apply forward_foldM; intros ? ?
    | case_scrut ].

Lemma assign_task_forward c ms n d task_id t k : forward (assign_task q sc c ms n d task_id t k).
Proof.
  unfold assign_task, deliver, queue_command, persist_locked, restore_locked, snapshot_locked, get_agent, update_agents. solve_forward.
Qed.

(** The counts after one more claim of Agent [a]. *)
Definition counted (c : placement_config) (t : materialize_task) (a : agent_record) (n : claim_counts) : claim_counts :=
  ClaimCounts (count_one (ar_agent_id a) (n_agents n))
    (count_one (dataset_scope c (mt_connection_id t) (mt_source_table t)) (n_datasets n))
    (count_one (mt_connection_id t) (n_sources n))
    (if truthy_str (ap_pool_id (ar_placement a)) then count_one (ap_pool_id (ar_placement a)) (n_pools n) else n_pools n).

(** Agent [k] was handed task [t], the claims standing at [n]. *)
Record handed_to (from until : nat) (r : agent_registry) (g : option generation_context) (members : option (gset string)) (n : claim_counts)
    (t : materialize_task) (k : string) (a : agent_record) : Prop := {
  handed_able : able sc from until r (n_agents n) (owner_shard g (mt_connection_id t) (mt_source_table t)) members k a;
  handed_current : fenced_out g t = false;
  handed_tenant : validate_task_tenant (rg_placement r) (mt_tenant_id t)
      (policy_for (rg_placement r) (mt_connection_id t) (mt_source_table t)) = Ok tt;
  handed_dispatch : validate_dispatch (rg_placement r)
      (policy_for (rg_placement r) (mt_connection_id t) (mt_source_table t)) (mt_connection_id t) = Ok tt;
  handed_same_tenant : tenants_on (rg_placement r) = true -> ap_tenant_id (ar_placement a) = mt_tenant_id t;
  handed_fits : enabled (rg_placement r) = true -> exists pool,
      fits (rg_placement r) (mt_connection_id t) (mt_source_table t)
        (policy_for (rg_placement r) (mt_connection_id t) (mt_source_table t)) n (ap_pool_id (ar_placement a)) pool;
}.

(** The task was claimed for Agent [k] under its lease, from the store as it stood, and the
    claimed task was sent to that Agent and to no other. *)
Record sent_to (task_id : string) (f f' : fleet) (k : string) (a : agent_record) : Prop := {
  sent_claim : exists cmd version fence lease_seconds w w', w_store w = w_store (fl_world f)
    /\ claim_task q task_id k (ar_lease_id a) (sc_manager_owner sc) (sc_manager_fence sc) version fence None lease_seconds w = (Ok cmd, w')
    /\ rg_agents (fl_registry f') = odict_set k (add_command (ControlCommand "materialize" None None (Some cmd) None) a) (rg_agents (fl_registry f));
}.

Lemma deliver_outcome c n d t k cmd f n' d' f' a : registry_ok (fl_registry f) -> odict_get k (rg_agents (fl_registry f)) = Some a ->
  deliver q c n d t k cmd f = (Ok (n', d'), f') ->
  same_fleet (fl_registry f) (fl_registry f') /\ ((n' = n /\ d' = d) \/ (n' = counted c t a n /\ d' = d + 1
    /\ rg_agents (fl_registry f') = odict_set k (add_command (ControlCommand "materialize" None None (Some cmd) None) a) (rg_agents (fl_registry f)))).
Proof.
  intros Hr Ha Hd. unfold deliver in Hd. apply bindM_Ok in Hd as (b & f1 & Hq & Hd).
  pose proof (queue_command_outcome k (ControlCommand "materialize" None None (Some cmd) None) f Hr) as Ho. rewrite Hq in Ho.
  pose proof (queue_command_same _ _ _ _ _ Hr Hq) as Hs. pose proof Hs as (Hr1 & _ & Hk).
  assert (ar_agent_id a = k) as Hid by exact (ok_key _ _ _ (agents_ok_get _ _ _ _ Hr Ha)).
  destruct b; cbn [negb] in Hd.
  - apply bindM_Ok in Hd as (w & f2 & Hw & Hd). unfold get_agent, reg, gets in Hw. injection Hw as <- <-. injection Hd as <- <- <-.
    split; [done|]. right. destruct Ho as (a0 & Ha0 & Ereg). rewrite Ha in Ha0. injection Ha0 as <-.
    split; [|by rewrite Ereg]. specialize (Hk k). rewrite Ha in Hk. inversion Hk as [x y [_ Hp] E1 E2|]; subst.
    unfold counted. by rewrite <- Hp.
  - apply bindM_Ok in Hd as (? & f2 & Hw & Hd). injection Hd as <- <- <-. unfold on_world in Hw. injection Hw as _ <-. cbn. auto.
Qed.

Lemma assign_task_outcome c ms n d task_id t k f n' d' f' a : registry_ok (fl_registry f) ->
  odict_get k (rg_agents (fl_registry f)) = Some a -> assign_task q sc c ms n d task_id t k f = (Ok (n', d'), f') ->
  same_fleet (fl_registry f) (fl_registry f') /\ ((n' = n /\ d' = d) \/ (n' = counted c t a n /\ d' = d + 1 /\ sent_to task_id f f' k a)).
Proof.
  intros Hr Ha Hd. unfold assign_task in Hd. apply bindM_Ok in Hd as (rec & f1 & Hg & Hd).
  unfold get_agent, reg, gets in Hg. injection Hg as <- <-. rewrite Ha in Hd. cbn zeta in Hd.
  do 4 (apply bindM_Ok in Hd as (? & ? & Hl & Hd); injection Hl as _ <-).
  apply bindM_Ok in Hd as (claimed & f1 & Hc & Hd).
  assert (E : fl_registry f1 = fl_registry f).
  { match type of Hc with ?m f = _ => assert (Hsteady : steady m) by solve_steady end.
    specialize (Hsteady f). by rewrite Hc in Hsteady. }
  destruct claimed as [cmd|]; [|injection Hd as <- <- <-; rewrite E; split; [by apply same_fleet_refl|auto]].
  pose proof Hr as Hr1. pose proof Ha as Ha1. rewrite <- E in Hr1, Ha1.
  destruct (deliver_outcome _ _ _ _ _ _ _ _ _ _ _ Hr1 Ha1 Hd) as [Hs Hout]. rewrite E in Hs, Hout. split; [done|].
  destruct Hout as [?|(-> & -> & Hsent)]; [by left|]. right. split_and!; [done..|]. split.
  unfold catch in Hc. unfold mbind at 1, M_bind at 1 in Hc. unfold on_world in Hc.
  match type of Hc with context [claim_task q task_id k ?l ?o ?mf ?v ?fe None ?ls ?w] =>
    destruct (claim_task q task_id k l o mf v fe None ls w) as [[cmd0|e] w'] eqn:Ecl;
      [|cbn [fst snd] in Hc; destruct e; discriminate Hc] end.
  cbn in Hc. injection Hc as -> _. by do 6 eexists; split; [|split; [exact Ecl|done]].
Qed.

Lemma current_generation_reads : reads current_generation.
Proof.
  unfold current_generation, current_generation_record. apply reads_bind; [|by intros].
  apply reads_bind; [apply read_raw_json_reads|]. intros [raw [d|]]; cbn; [|by apply reads_ret].
  apply reads_bind; [done|by intros].
Qed.

(** One round of the dispatch loop: nothing is counted, or one Agent was handed the
    task and is counted. *)
Lemma dispatch_task_outcome ms n d task f n' d' f' : registry_ok (fl_registry f) ->
  dispatch_task q sc ms (n, d) task f = (Ok (n', d'), f') ->
  same_fleet (fl_registry f) (fl_registry f') /\
  ((n' = n /\ d' = d) \/ (d' = d + 1 /\ exists t task_id g members k a until, payload_of task = Ok t /\ task_id_of task = Ok task_id
     /\ handed_to (fl_readings f) until (fl_registry f) g members n t k a /\ (until <= fl_readings f')%nat /\ sent_to task_id f f' k a /\ n' = counted (rg_placement (fl_registry f)) t a n)).
Proof.
  intros Hr Hd. unfold dispatch_task in Hd. apply bindM_Ok in Hd as (g & f1 & Hg & Hd).
  assert (fl_registry f1 = fl_registry f /\ w_store (fl_world f1) = w_store (fl_world f) /\ fl_readings f1 = fl_readings f) as (E1 & W1 & R1).
  { unfold on_world in Hg. injection Hg as _ <-. split_and!; [done| |done]. apply current_generation_reads. }
  clear Hg.
  apply bindM_Ok in Hd as (t & f2 & Ht & Hd). unfold lift in Ht. injection Ht as Ht <-.
  apply bindM_Ok in Hd as (task_id & f2 & Hi & Hd). unfold lift in Hi. injection Hi as Hi <-.
  assert (Hskip : forall (m : M world bool) f3, (on_world m;; mret (n, d)) f3 = (Ok (n', d'), f') -> fl_registry f3 = fl_registry f ->
            same_fleet (fl_registry f) (fl_registry f') /\ n' = n /\ d' = d).
  { intros m f3 Hm E3. apply bindM_Ok in Hm as (? & f4 & Hw & Hm). unfold on_world in Hw. injection Hw as _ <-. injection Hm as <- <- <-.
    cbn. rewrite E3. split; [by apply same_fleet_refl|done]. }
  destruct (fenced_out g t) eqn:Hfence; [destruct (Hskip _ _ Hd E1) as (? & ? & ?); auto|].
  apply bindM_Ok in Hd as (c & f2 & Hc & Hd). unfold reg, gets in Hc. injection Hc as <- <-. rewrite E1 in Hd. cbn zeta in Hd.
  set (c := rg_placement (fl_registry f)) in *. set (p := policy_for c (mt_connection_id t) (mt_source_table t)) in *.
  destruct (validate_task_tenant c (mt_tenant_id t) p ≫= (fun _ => validate_dispatch c p (mt_connection_id t))) as [[]|e];
    [|destruct e; try done; destruct (Hskip _ _ Hd E1) as (? & ? & ?); auto].
  apply bindM_Ok in Hd as (members & f2 & Hm & Hd). unfold lift in Hm. injection Hm as _ <-.
  apply bindM_Ok in Hd as (agents & f2 & Hag & Hd). unfold task_candidates in Hag.
  apply bindM_Ok in Hag as (cands & f3 & Hel & Hag).
  destruct (eligible_agents_able sc (n_agents n) (owner_shard g (mt_connection_id t) (mt_source_table t)) members f1)
    as (l & f4 & Hel' & E4 & W4 & Hable); [by rewrite E1|]. rewrite Hel' in Hel. injection Hel as <- <-. rewrite E1 in E4, Hable. rewrite R1 in Hable.
  apply bindM_Ok in Hag as (publics & f5 & Hp & Hag). unfold list_agents, reg, gets in Hp. injection Hp as <- <-.
  unfold lift in Hag. injection Hag as Hag <-. rewrite E4 in Hag.
  destruct agents as [|x rest]; [destruct (Hskip _ _ Hd E4) as (? & ? & ?); auto|].
  set (y := least task_id x rest) in Hd. assert (Hy : y ∈ x :: rest) by apply least_elem. clearbody y.
  destruct (placement_eligible_fits _ _ _ _ _ _ _ _ _ _ Hag Hy) as (Hyl & Hten & Hdis & Hsame & Hfit).
  rewrite Forall_forall in Hable. destruct (Hable _ Hyl) as [a Ha]. pose proof (able_registered _ _ _ _ _ _ _ _ _ Ha) as Hreg.
  assert (Hpub : forall b, public_map (map snd (rg_agents (fl_registry f))) !! y.2 = Some b -> b = a)
    by (intros b Hb; apply public_map_registry in Hb; [congruence|done]).
  assert (Hr4 : registry_ok (fl_registry f4)) by (by rewrite E4). assert (Hreg4 := Hreg). rewrite <- E4 in Hreg4.
  destruct (assign_task_outcome _ _ _ _ _ _ _ _ _ _ _ _ Hr4 Hreg4 Hd) as [Hfl Hout]. rewrite E4 in Hfl. split; [done|]. destruct Hout as [?|(-> & -> & [Hsent])]; [auto|]. right. split; [done|].
  rewrite W4, W1, E4 in Hsent. exists t, task_id, g, members, y.2, a, (fl_readings f4). split_and!; [done..| | |by split|done].
  2: { pose proof (assign_task_forward (rg_placement (fl_registry f)) ms n d task_id t y.2 f4) as Hfw. unfold c in Hd. by rewrite Hd in Hfw. }
  split; try done.
  - intros Hon. destruct (Hsame Hon) as (b & Hb & <-). by rewrite (Hpub _ Hb).
  - intros Hen. destruct (Hfit Hen) as (b & pool & Hb & Hf). rewrite (Hpub _ Hb) in Hf. by exists pool.
Qed.
End pass.

(** ** Claims over a pass *)

Lemma config_ok_active c profile_id : config_ok c -> config_ok (with_active profile_id c).
Proof. intros []. by split. Qed.

(** The pool of a registered Agent, and the pool a policy matched, are the same. *)
Lemma agent_pool_bound c k a pool : config_ok c -> ar_placement a = placement_fields (pool_for_identity c k) ->
  pc_pools c !! ap_pool_id (ar_placement a) = Some pool -> pool_for_identity c k = Some pool.
Proof.
  intros Hc Hp Hl. destruct (config_pools _ Hc) as [ids Hpools]. rewrite Hp in Hl.
  destruct (pool_for_identity c k) as [q|] eqn:Hq; cbn in Hl; [|by rewrite (pool_named _ _ _ Hpools) in Hl].
  apply (pool_for_identity_spec _ _ _ _ _ Hpools) in Hq as (id & Hid & _).
  destruct (pool_entry _ _ _ Hpools _ _ Hid) as [E _]. rewrite E, Hid in Hl. done.
Qed.

(** A pool that fits a constrained policy lies inside its boundary. *)
Lemma fits_inside c conn table p n pool_id pool : config_ok c -> validate_dispatch c p conn = Ok tt ->
  po_residency_locations p <> [] -> fits c conn table p n pool_id pool ->
  mp_location pool ∈ po_residency_locations p /\ mp_storage_profile pool = pc_active_storage_profile c.
Proof.
  intros Hc Hd Hne [Hpool Ht _ _ _ _ _ _]. destruct (config_pools _ Hc) as [ids Hpools].
  destruct (validate_dispatch_inside _ _ _ Hd Hne) as ((Hin & _) & _ & _ & _ & Hact).
  assert (Hreq : po_required_pool p <> "").
  { intros E. destruct (Hin "") as (x & Hx & _); [rewrite E; left|]. by rewrite (pool_named _ _ _ Hpools) in Hx. }
  unfold targets in Ht. rewrite (proj2 (truthy_str_true _) Hreq) in Ht. cbn [app] in Ht. destruct Ht as (t & Hmem & Heq); [done|].
  destruct (Hin t Hmem) as (x & Hx & Hloc & _). destruct (Hact t Hmem) as (x' & Hx' & Hst). rewrite Hx in Hx'. injection Hx' as <-.
  assert (t = pool_id) as -> by (apply Heq; intros ->; by rewrite (pool_named _ _ _ Hpools) in Hx).
  rewrite Hpool in Hx. by injection Hx as ->.
Qed.

Section claims.
Context `{HEnv : Env} `{HProc : Process} `{HQ : QueueEnv} (q : queue) (sc : scheduler).

(** C19: Dispatch and placement: with an accepted configuration bound to a store,
    whatever registrations, heartbeats and failures led to the registry, a round of the dispatch
    loop that hands a task out claims it for one Agent, under the lease of that Agent and from the
    store as it stood, and sends the claimed task to that Agent and to no other; this Agent was
    alive at a reading of the clock made in this round, a materializer, not draining and
    below its own limit, and its identity is one the operator put in a pool that allows the
    table, belongs to the task's and the dataset's tenant and, for a dataset with
    residency locations, lies in one of them and writes the bound store. *)
Theorem dispatch_within_placement ip_address value c hb miss hosts profile_id ms n d task f n' d' f' :
  placement_from_dict ip_address value = Ok c -> enabled c = true ->
  reachable hb miss hosts (with_active profile_id c) f ->
  dispatch_task q sc ms (n, d) task f = (Ok (n', d'), f') -> d' <> d ->
  exists t task_id k a pool i, payload_of task = Ok t /\ task_id_of task = Ok task_id
    /\ odict_get k (rg_agents (fl_registry f)) = Some a /\ sent_to q sc task_id f f' k a
    /\ (fl_readings f <= i < fl_readings f')%nat /\ record_alive (fl_registry f) a (monotonic i) = true
    /\ "materializer" ∈ ac_capabilities (ar_claims a) /\ ar_draining a = false
    /\ count (n_agents n) k < Z.max 1 (sc_max_inflight sc * capacity_of a)
    /\ pool_for_identity c k = Some pool /\ allows pool (mt_connection_id t) (mt_source_table t) = true
    /\ (tenants_on c = true -> mp_tenant_id pool = mt_tenant_id t
        /\ mt_tenant_id t = po_tenant_id (policy_for c (mt_connection_id t) (mt_source_table t)))
    /\ (po_residency_locations (policy_for c (mt_connection_id t) (mt_source_table t)) <> [] ->
        mp_location pool ∈ po_residency_locations (policy_for c (mt_connection_id t) (mt_source_table t))
        /\ mp_storage_profile pool = profile_id).
Proof.
  intros Hc Hen Hreach Hd Hne. apply placement_from_dict_ok in Hc. apply (config_ok_active c profile_id) in Hc.
  apply reachable_ok in Hreach as [Hr Hpl]. destruct (dispatch_task_outcome q sc _ _ _ _ _ _ _ _ Hr Hd) as [_ [[_ ?]|(_ & Hout)]]; [done|].
  destruct Hout as (t & task_id & g & members & k & a & until & Ht & Hi & [Hable Hfence Hten Hdis Hsame Hfit] & Hu & Hsent & _). rewrite Hpl in *.
  destruct (Hfit Hen) as [pool Hf]. destruct Hable as [Hreg (i & Hrange & Halive) Hcap Hdrain _ Hshard Hroom].
  pose proof (ok_placement _ _ _ (agents_ok_get _ _ _ _ Hr Hreg)) as Hplace. rewrite Hpl in Hplace.
  pose proof (agent_pool_bound _ _ _ _ Hc Hplace (fits_pool _ _ _ _ _ _ _ Hf)) as Hpool.
  exists t, task_id, k, a, pool, i. split_and!; [done..|lia|lia|done|done|done| |exact Hpool|by eapply fits_allowed| |].
  - destruct (owner_shard g _ _) as [s|] eqn:Hs; [destruct (Hshard s eq_refl)|specialize (Hroom eq_refl)]; lia.
  - intros Hon. split; [|exact (proj2 (task_tenant_Ok _ _ _ Hten Hon))]. rewrite <- Hsame by done. by rewrite Hplace, Hpool.
  - intros Hres. eapply (fits_inside (with_active profile_id c)); [done|exact Hdis|exact Hres|exact Hf].
Qed.

(** ** The limits over a whole pass *)

(** One more claim, allowed by every limit. *)
Definition allowed_claim (r : agent_registry) (n n' : claim_counts) : Prop :=
  exists t g members k a from until, handed_to sc from until r g members n t k a /\ n' = counted (rg_placement r) t a n.

Lemma dispatch_loop ms tasks f n d n' d' f' : registry_ok (fl_registry f) ->
  foldM (dispatch_task q sc ms) (n, d) tasks f = (Ok (n', d'), f') ->
  same_fleet (fl_registry f) (fl_registry f')
  /\ rtc (fun m m' => exists r, same_fleet (fl_registry f) r /\ allowed_claim r m m') n n'.
Proof.
  revert f n d. induction tasks as [|task tasks IH]; intros f n d Hr Hd.
  - injection Hd as -> _ <-. split; [by apply same_fleet_refl|constructor].
  - cbn [foldM] in Hd. apply bindM_Ok in Hd as ([n1 d1] & f1 & Hstep & Hd).
    destruct (dispatch_task_outcome q sc _ _ _ _ _ _ _ _ Hr Hstep) as [Hs Hout]. pose proof Hs as (Hr1 & _ & _).
    destruct (IH f1 n1 d1 Hr1 Hd) as [Hs1 Hrtc]. split; [by eapply same_fleet_trans|].
    assert (Hrest : rtc (fun m m' => exists r, same_fleet (fl_registry f) r /\ allowed_claim r m m') n1 n').
    { eapply rtc_subrel; [|exact Hrtc]. intros m m' (r & Hr' & ?). exists r. split; [by eapply same_fleet_trans|done]. }
    destruct Hout as [[-> _]|(_ & t & task_id & g & members & k & a & until & _ & _ & Hh & _ & _ & ->)]; [done|].
    eapply rtc_l; [|exact Hrest]. exists (fl_registry f). split; [by apply same_fleet_refl|]. by exists t, g, members, k, a, (fl_readings f), until.
Qed.

(** A counter that grows only below its limit stays below it. *)
Lemma count_bounded (proj : claim_counts -> Z) (limit : Z) (step : relation claim_counts) n n' :
  (forall m m', step m m' -> proj m' = proj m \/ (proj m' = proj m + 1 /\ proj m < limit)) ->
  rtc step n n' -> proj n' <= Z.max (proj n) limit.
Proof. intros Hs Hr. induction Hr as [m|m m1 m2 H1 _ IH]; [lia|]. destruct (Hs _ _ H1) as [E|[E ?]]; lia. Qed.

Lemma count_one_at `{Countable K} (m : gmap K Z) k x : count (count_one k m) x = if decide (k = x) then count m x + 1 else count m x.
Proof.
  unfold count, count_one. destruct (decide (k = x)) as [->|Hne]; [by rewrite lookup_insert_eq|by rewrite lookup_insert_ne].
Qed.

Lemma under_lt l n : under (Some l) n = true -> n < l.
Proof. cbn. apply Z.ltb_lt. Qed.

(** Tables that count towards the same dataset have the same limit. *)
Lemma scope_policy c conn table conn' table' : (forall x, pc_tables c !! (x, "") = None) ->
  dataset_scope c conn table = dataset_scope c conn' table' ->
  po_max_concurrency (policy_for c conn' table') = po_max_concurrency (policy_for c conn table).
Proof.
  intros Hnames. unfold dataset_scope, policy_for.
  destruct (pc_tables c !! (conn, table)) as [p|] eqn:E1, (pc_tables c !! (conn', table')) as [p'|] eqn:E2; cbn; intros E; simplify_eq.
  - done.
  - by rewrite Hnames in *.
  - by rewrite Hnames in *.
  - done.
Qed.

(** C20: Concurrency limits: over a whole pass, whatever tasks there are, the claims
    counted for an Agent, a pool, a source connection and a dataset end at most at
    the larger of what they started with and the configured limit: the Agent's
    slots times its capacity, the pool's, the connection's (the greatest of its
    tables') and the dataset's maximum. *)
Theorem dispatch_limits_hold ip_address value c hb miss hosts profile_id ms tasks f n d n' d' f' :
  placement_from_dict ip_address value = Ok c -> enabled c = true ->
  reachable hb miss hosts (with_active profile_id c) f ->
  foldM (dispatch_task q sc ms) (n, d) tasks f = (Ok (n', d'), f') ->
  (forall k a, odict_get k (rg_agents (fl_registry f)) = Some a ->
     count (n_agents n') k <= Z.max (count (n_agents n) k) (Z.max 1 (sc_max_inflight sc * capacity_of a)))
  /\ (forall id pool l, pc_pools c !! id = Some pool -> mp_max_concurrency pool = Some l ->
     count (n_pools n') id <= Z.max (count (n_pools n) id) l)
  /\ (forall conn l, (forall table, exists l', po_source_max_concurrency (policy_for c conn table) = Some l' /\ l' <= l) ->
     count (n_sources n') conn <= Z.max (count (n_sources n) conn) l)
  /\ (forall conn table l, po_max_concurrency (policy_for c conn table) = Some l ->
     count (n_datasets n') (dataset_scope c conn table)
     <= Z.max (count (n_datasets n) (dataset_scope c conn table)) l).
Proof.
  intros Hc Hen Hreach Hd. apply placement_from_dict_ok in Hc. apply reachable_ok in Hreach as [Hr Hplace].
  destruct (dispatch_loop _ _ _ _ _ _ _ _ Hr Hd) as [_ Hrtc].
  split_and!.
  - intros k a Hk. eapply (count_bounded (fun m => count (n_agents m) k)); [|exact Hrtc].
    intros m m' (r & (Hok & _ & Hsame) & t & g & members & k' & a' & from & until & [Hable _ _ _ _ _] & ->). cbn [counted n_agents].
    destruct Hable as [Hreg _ _ _ _ Hshard Hroom]. rewrite (ok_key _ _ _ (agents_ok_get _ _ _ _ Hok Hreg)), count_one_at.
    destruct (decide (k' = k)) as [->|]; [right|by left]. split; [done|].
    specialize (Hsame k). rewrite Hk, Hreg in Hsame. inversion Hsame as [x y [Hcl _]|]; subst.
    assert (capacity_of a = capacity_of a') as -> by (unfold capacity_of; by rewrite Hcl).
    destruct (owner_shard g _ _) as [s|] eqn:Hs; [destruct (Hshard s eq_refl)|specialize (Hroom eq_refl)]; lia.
  - intros id pool l Hpool Hl. eapply (count_bounded (fun m => count (n_pools m) id)); [|exact Hrtc].
    intros m m' (r & (_ & Hpl & _) & t & g & members & k' & a' & from & until & [_ _ _ _ _ Hfit] & ->). cbn [counted n_pools]. rewrite Hpl, Hplace in Hfit.
    destruct (truthy_str _); [|by left]. rewrite count_one_at. destruct (decide _) as [<-|]; [right|by left]. split; [done|].
    destruct (Hfit Hen) as [pool' Hf]. pose proof (fits_pool _ _ _ _ _ _ _ Hf) as E. cbn [with_active pc_pools] in E. rewrite Hpool in E. injection E as <-.
    pose proof (fits_pool_limit _ _ _ _ _ _ _ Hf) as Hu. rewrite Hl in Hu. by apply under_lt.
  - intros conn l Hl. eapply (count_bounded (fun m => count (n_sources m) conn)); [|exact Hrtc].
    intros m m' (r & (_ & Hpl & _) & t & g & members & k' & a' & from & until & [_ _ _ _ _ Hfit] & ->). cbn [counted n_sources]. rewrite Hpl, Hplace in Hfit.
    rewrite count_one_at. destruct (decide _) as [<-|]; [right|by left]. split; [done|].
    destruct (Hfit Hen) as [pool' Hf]. pose proof (fits_source_limit _ _ _ _ _ _ _ Hf) as Hu.
    destruct (Hl (mt_source_table t)) as (l' & El & ?). cbn in Hu. change (policy_for (with_active profile_id c)) with (policy_for c) in Hu. rewrite El in Hu. apply under_lt in Hu. lia.
  - intros conn table l Hl. eapply (count_bounded (fun m => count (n_datasets m) (dataset_scope c conn table))); [|exact Hrtc].
    intros m m' (r & (_ & Hpl & _) & t & g & members & k' & a' & from & until & [_ _ _ _ _ Hfit] & ->). cbn [counted n_datasets]. rewrite Hpl, Hplace in *.
    rewrite count_one_at. destruct (decide _) as [E|]; [right|by left]. split; [done|].
    destruct (Hfit Hen) as [pool' Hf]. pose proof (fits_dataset_limit _ _ _ _ _ _ _ Hf) as Hu.
    change (dataset_scope (with_active profile_id c)) with (dataset_scope c) in Hu, E.
    change (policy_for (with_active profile_id c)) with (policy_for c) in Hu.
    rewrite E, <- (scope_policy _ _ _ _ _ (config_table_names _ Hc) E), Hl in Hu. by apply under_lt.
Qed.
End claims.

(** ** A worked pass *)

#[local] Existing Instance queue_env.
#[local] Existing Instance queue_lib.
#[local] Existing Instance run_process.

Definition pass_config : placement_config := with_active "blob-eu" demo_placement.
Definition pass_task : materialize_task :=
  MaterializeTask "orders" 1 0 "sales.orders" "orders/part-0.parquet" [] None "" "" "" 0 0
    "erp" "" "" 0 "" "delta" 0 1 "" "" 0 0 "contoso".
Definition pass_scheduler : scheduler := Scheduler "m" 4 2 "fixed".

(** The Agent registers, and a request with one task is created. *)
Definition pass_registered : fleet :=
  (@perform queue_env run_process (Register (run_request "1.10.0" "eastus"))
     (Fleet (new_registry 2000 3 [] pass_config) (World ∅ 0 0 (LeaseObj "m" 100 true 4 "")) 0 0)).2.
Definition pass_world : world :=
  (create_request plain_queue "orders/x" "orders" 1 "delta" "" 0 "" [pass_task] 90000 (World ∅ 0 0 (LeaseObj "m" 100 true 4 ""))).2.
Definition pass_fleet : fleet := Fleet (fl_registry pass_registered) pass_world (fl_readings pass_registered) (fl_uuids pass_registered).
Definition pass_record : dict :=
  match (list_tasks pass_world).1 with Ok (t :: _) => t | _ => ∅ end.

Lemma pass_reachable : @reachable queue_env run_process 2000 3 [] pass_config pass_fleet.
Proof. apply reach_world, reach_call, reach_start. Defined.

(** The pass claims the task for the Agent and queues one command. *)
Example pass_dispatches :
  match dispatch_once plain_queue pass_scheduler pass_fleet with
  | (Ok n, f') => n = 1 /\ (map cc_kind ∘ ar_commands) <$> odict_get "agent-eu" (rg_agents (fl_registry f')) = Some ["materialize"]
      /\ match (list_tasks (fl_world f')).1 with Ok [t] => t !! "state" = Some (js TASK_CLAIMED) | _ => False end
  | _ => False
  end.
Proof. vm_compute. repeat split; reflexivity. Qed.

(** An Agent that stopped sending heartbeats gets nothing. *)
Definition pass_late : fleet := Fleet (fl_registry pass_registered) pass_world 60 0.
Example late_agent_skipped :
  match dispatch_once plain_queue pass_scheduler pass_late with
  | (Ok n, f') => n = 0 /\ match (list_tasks (fl_world f')).1 with
                           | Ok [t] => t !! "state" = Some (js TASK_QUEUED) /\ t !! "dispatch_status" = Some (JStr no_agent)
                           | _ => False end
  | _ => False
  end.
Proof. vm_compute. repeat split; reflexivity. Qed.

Definition pass_outcome : res (claim_counts * Z) * fleet := dispatch_task plain_queue pass_scheduler ∅ (no_claims, 0) pass_record pass_fleet.

Lemma dispatch_within_placement_witness :
  exists t task_id k a pool, payload_of pass_record = Ok t /\ pool_for_identity demo_placement k = Some pool
    /\ sent_to plain_queue pass_scheduler task_id pass_fleet pass_outcome.2 k a
    /\ allows pool (mt_connection_id t) (mt_source_table t) = true /\ mp_tenant_id pool = mt_tenant_id t.
Proof.
  destruct pass_outcome as [[[n' d']|e] f'] eqn:Ho; [|vm_compute in Ho; discriminate].
  assert (Hd : d' <> 0).
  { intros ->. assert (match pass_outcome with (Ok (_, x), _) => negb (x =? 0) | _ => true end = true) as Hx by (vm_compute; reflexivity).
    rewrite Ho in Hx. discriminate. }
  destruct (dispatch_within_placement plain_queue pass_scheduler no_brackets demo_config demo_placement 2000 3 [] "blob-eu"
    ∅ no_claims 0 pass_record pass_fleet n' d' f' ltac:(vm_compute; reflexivity) ltac:(vm_compute; reflexivity) pass_reachable Ho Hd)
    as (t & task_id & k & a & pool & i & Ht & _ & _ & Hsent & _ & _ & _ & _ & _ & Hp & Hal & Hten & _).
  exists t, task_id, k, a, pool. split; [exact Ht|]. split; [exact Hp|]. split; [exact Hsent|]. split; [exact Hal|]. apply Hten. vm_compute. reflexivity.
Defined.

Definition pass_loop : res (claim_counts * Z) * fleet :=
  foldM (dispatch_task plain_queue pass_scheduler ∅) (no_claims, 0) [pass_record; pass_record] pass_fleet.
Lemma dispatch_limits_hold_witness :
  match pass_loop with (Ok (n', _), _) => count (n_pools n') "eu" = 1 /\ count (n_pools n') "eu" <= 4 | _ => False end.
Proof.
  assert (Hone : match pass_loop with (Ok (n', _), _) => count (n_pools n') "eu" =? 1 | _ => false end = true)
    by (vm_compute; reflexivity).
  destruct pass_loop as [[[n' d']|e] f'] eqn:Ho; [|discriminate]. apply Z.eqb_eq in Hone. split; [exact Hone|].
  destruct (dispatch_limits_hold plain_queue pass_scheduler no_brackets demo_config demo_placement 2000 3 [] "blob-eu"
    ∅ [pass_record; pass_record] pass_fleet no_claims 0 n' d' f' ltac:(vm_compute; reflexivity) ltac:(vm_compute; reflexivity)
    pass_reachable Ho) as (_ & Hpool & _).
  assert (Hb : count (n_pools n') "eu" <= Z.max (count (n_pools no_claims) "eu") 4);
    [|replace (Z.max (count (n_pools no_claims) "eu") 4) with 4 in Hb by (vm_compute; reflexivity); exact Hb].
  eapply Hpool; vm_compute; reflexivity.
Defined.
