(* ===== verification/Sha1.v ===== *)
(** * SHA-1

    [hashlib.sha1], which open mirroring uses to tell whether a row changed:
    executable, with the padding and the words of [Sha256]. *)

From S2P Require Import Prelude PyText Sha256.
From Stdlib Require Import NArith.

#[local] Open Scope N_scope.

Definition rotl32 (n x : N) : N :=
  N.land (N.lor (N.shiftl x n) (N.shiftr x (32 - n))) 0xffffffff.

(** Message schedule, most recent word first. *)
Fixpoint sha1_schedule (n : nat) (ws : list N) : list N :=
  match n with
  | O => ws
  | S n =>
      let w := rotl32 1 (N.lxor (N.lxor (nth 2 ws 0) (nth 7 ws 0)) (N.lxor (nth 13 ws 0) (nth 15 ws 0))) in
      sha1_schedule n (w :: ws)
  end.

(** The function and the constant of a round. *)
Definition sha1_function (t : nat) (b c d : N) : N * N :=
  if (t <? 20)%nat then (N.lor (N.land b c) (N.land (N.lxor b 0xffffffff) d), 0x5a827999)
  else if (t <? 40)%nat then (N.lxor b (N.lxor c d), 0x6ed9eba1)
  else if (t <? 60)%nat then (N.lor (N.land b c) (N.lor (N.land b d) (N.land c d)), 0x8f1bbcdc)
  else (N.lxor b (N.lxor c d), 0xca62c1d6).

Definition sha1_round (st : list N) (tw : nat * N) : list N :=
  match st with
  | [a; b; c; d; e] =>
      let '(f, k) := sha1_function tw.1 b c d in
      [add32 (add32 (rotl32 5 a) f) (add32 e (add32 k tw.2)); a; rotl32 30 b; c; d]
  | _ => st
  end.

Definition sha1_compress (st block : list N) : list N :=
  zip_with add32 st (foldl sha1_round st (zip (seq 0 80) (rev (sha1_schedule 64 (rev block))))).

Fixpoint sha1_blocks (n : nat) (ws st : list N) : list N :=
  match n with
  | O => st
  | S n => sha1_blocks n (drop 16 ws) (sha1_compress st (take 16 ws))
  end.

(** [hashlib.sha1(s).hexdigest()] *)
Definition sha1_hex (s : string) : string :=
  let ws := words (pad (string_bytes s)) in
  foldr (fun w acc => hex_word 8 w +:+ acc) ""
    (sha1_blocks (length ws / 16) ws [0x67452301; 0xefcdab89; 0x98badcfe; 0x10325476; 0xc3d2e1f0]).

Example sha1_abc : sha1_hex "abc" = "a9993e364706816aba3e25717850c26c9cd0d89d".
Proof. vm_compute. reflexivity. Qed.

Example sha1_two_blocks :
  sha1_hex "abcdbcdecdefdefgefghfghighijhijkijkljklmklmnlmnomnopnopq" = "84983e441c3bd26ebaae4aa1f95129e5e54670f1".
Proof. vm_compute. reflexivity. Qed.
