(* ===== verification/MirrorState.v ===== *)
(** * Open mirroring: state of a mirrored table and its changes

    [open_mirror/state.py] and [open_mirror/changes.py]: the cursor and the row map
    that are kept between cycles, their file, and the change set computed from them;
    [open_mirror/config.py]: the targets.

    A source value is null, a boolean, an integer or a text; other types of cursor
    values are not followed.  Documents keep the order of their members, since the
    order of the row map decides the order of the deletions in a change file.  The
    optional encryption of the state file is left out. *)

From S2P Require Import Prelude PyText Sha256 Sha1 Json Docs Sources.
From Stdlib Require Import Ascii.
#[local] Set Warnings "-register-all".

(** ** Source values and rows *)

Inductive cell :=
| CNull
| CBool (b : bool)
| CInt (z : Z)
| CText (s : string).

#[global] Instance cell_eq_dec : EqDecision cell.
Proof. solve_decision. Defined.
#[global] Instance cell_countable : Countable cell.
Proof.
  refine (inj_countable' (fun c => match c with
      | CNull => inl (inl tt) | CBool b => inl (inr b) | CInt z => inr (inl z) | CText s => inr (inr s) end)
    (fun x => match x with
      | inl (inl tt) => CNull | inl (inr b) => CBool b | inr (inl z) => CInt z | inr (inr s) => CText s end) _).
  by intros [].
Defined.

Abbreviation row := (gmap string cell).

(** [row.get(name)] *)
Definition cell_of (r : row) (name : string) : cell := default CNull (r !! name).

(** A value in a document ([json.dump]). *)
Definition cell_doc (c : cell) : doc :=
  match c with CNull => DNull | CBool b => DBool b | CInt z => DInt z | CText s => DStr s end.

(** ** Cursors *)

(** [encode_watermark] *)
Definition encode_watermark (c : cell) : doc :=
  match c with
  | CNull => DNull
  | CBool b => DObj [("t", DStr "int"); ("v", DInt (if b then 1 else 0))]
  | CInt z => DObj [("t", DStr "int"); ("v", DInt z)]
  | CText s => DObj [("t", DStr "str"); ("v", DStr s)]
  end.

(** The conversions of [decode_watermark] that may raise; a raised [ValueError] or
    [TypeError] is its [except] branch. *)
Definition decode_as (t : doc) (v : doc) : res cell :=
  match t with
  | DStr "int" => z ← doc_int v; Ok (CInt z)
  | DStr "str" => s ← doc_str v; Ok (CText s)
  | DStr "float" | DStr "datetime" | DStr "date" | DStr "bytes" => Err (Unmodelled "a cursor value of this type")
  | _ => Ok CNull
  end.

Definition decode_watermark (stored : doc) : res cell :=
  match stored with
  | DObj d =>
      if bool_decide (d = []) then Ok CNull
      else match oget d "v" with
           | DNull => Ok CNull
           | v => match decode_as (oget d "t") v with
                  | Err (ValueError _) | Err (TypeError _) => Ok CNull
                  | r => r
                  end
           end
  | _ => Ok CNull
  end.

Definition WATERMARK_TYPES : list string := ["int"; "float"; "datetime"; "date"; "bytes"; "str"].

(** [_valid_encoded] *)
Definition valid_encoded (value : doc) : res bool :=
  match value with
  | DNull => Ok true
  | DObj d =>
      match oget d "t" with
      | DList _ | DObj _ => Err (TypeError "unhashable type")
      | DStr t =>
          if bool_decide (t ∈ WATERMARK_TYPES) && bool_decide (is_Some (odict_get "v" d)) then
            c ← decode_watermark value; Ok (negb (bool_decide (c = CNull)))
          else Ok false
      | _ => Ok false
      end
  | _ => Ok false
  end.

Record committed_cursor := CommittedCursor {
  cc_watermark : doc;
  cc_keys : list doc;
  cc_file : option string;
  cc_committed_at : option string;
}.

Definition opt_str (o : option string) : doc := match o with Some s => DStr s | None => DNull end.

Definition cursor_to_json (c : committed_cursor) : doc :=
  DObj [("watermark", cc_watermark c); ("keys", DList (cc_keys c)); ("file", opt_str (cc_file c));
        ("committed_at", opt_str (cc_committed_at c))].

(** [str(data[k]) if data.get(k) else None] *)
Definition str_if (d : members) (k : string) : res (option string) :=
  if doc_truthy (oget d k) then s ← doc_str (oget d k); Ok (Some s) else Ok None.

Fixpoint res_forallb {A} (f : A -> res bool) (l : list A) : res bool :=
  match l with
  | [] => Ok true
  | a :: l => b ← f a; if (b : bool) then res_forallb f l else Ok false
  end.

(** [_valid_encoded(v) and v is not None] *)
Definition valid_key (v : doc) : res bool :=
  b ← valid_encoded v; Ok (b && negb (bool_decide (v = DNull))).

(** [CommittedCursor.from_json] *)
Definition cursor_from_json (data : doc) : res (option committed_cursor) :=
  match data with
  | DNull => Ok None
  | DObj d =>
      let watermark := oget d "watermark" in
      ok ← valid_encoded watermark;
      keys ← (match oget_or d "keys" (DList []) with
              | DList keys => if (ok : bool) then k ← res_forallb valid_key keys; Ok (if (k : bool) then Some keys else None) else Ok None
              | _ => Ok None
              end);
      match keys with
      | None => Err (ValueError "committed cursor contains invalid typed values")
      | Some keys =>
          file ← str_if d "file";
          committed_at ← str_if d "committed_at";
          Ok (Some (CommittedCursor watermark keys file committed_at))
      end
  | _ => Err (TypeError "committed cursor must be an object or null")
  end.

(** ** Pending batches *)

(** The row map of the snapshot strategy: the digest of a row and its key values. *)
Record pending_batch := PendingBatch {
  pb_prior : option committed_cursor;
  pb_next : committed_cursor;
  pb_path : string;
  pb_row_count : Z;
  pb_content_hash : string;
  pb_initial : bool;
  pb_snapshot_keys : option members;
  pb_payload_path : option string;
}.

Definition opt_cursor (c : option committed_cursor) : doc := match c with Some c => cursor_to_json c | None => DNull end.

Definition pending_to_json (p : pending_batch) : doc :=
  DObj [("prior", opt_cursor (pb_prior p)); ("next", cursor_to_json (pb_next p)); ("path", DStr (pb_path p));
        ("row_count", DInt (pb_row_count p)); ("content_hash", DStr (pb_content_hash p)); ("initial", DBool (pb_initial p));
        ("snapshot_keys", match pb_snapshot_keys p with Some d => DObj d | None => DNull end);
        ("payload_path", opt_str (pb_payload_path p))].

(** [isinstance(v, int)]: booleans are integers. *)
Definition int_value (v : doc) : option Z :=
  match v with DInt z => Some z | DBool b => Some (if b then 1 else 0) | _ => None end.

(** [PendingBatch.from_json] *)
Definition pending_from_json (data : doc) : res (option pending_batch) :=
  match data with
  | DNull => Ok None
  | DObj d =>
      next ← cursor_from_json (oget d "next");
      match oget d "path", oget d "content_hash", int_value (oget d "row_count"), next,
            oget d "snapshot_keys", oget d "payload_path" with
      | DStr path, DStr content_hash, Some row_count, Some next, (DNull | DObj _) as snapshot_keys, (DNull | DStr _) as payload_path =>
          if truthy_str path && Nat.eqb (String.length content_hash) 64 && (0 <=? row_count)
             && (match payload_path with DStr s => truthy_str s | _ => true end)
          then
            prior ← cursor_from_json (oget d "prior");
            Ok (Some (PendingBatch prior next path row_count content_hash (doc_truthy (oget_or d "initial" (DBool false)))
                  (match snapshot_keys with DObj k => Some k | _ => None end)
                  (match payload_path with DStr s => Some s | _ => None end)))
          else Err (ValueError "pending batch metadata is invalid")
      | _, _, _, _, _, _ => Err (ValueError "pending batch metadata is invalid")
      end
  | _ => Err (TypeError "pending batch must be an object or null")
  end.

(** ** The state of a table *)

Record publish_state := PublishState {
  ps_strategy : string;
  ps_projection_fingerprint : option string;
  ps_initialized : bool;
  ps_committed : option committed_cursor;
  ps_pending : option pending_batch;
  ps_keys : members;
  ps_published_rows_total : Z;
  ps_last_batch_rows : Z;
  ps_last_published_at : option string;
}.

(** [PublishState(strategy=...)] *)
Definition new_state (strategy : string) : publish_state := PublishState strategy None false None None [] 0 0 None.

Definition STATE_VERSION : Z := 2.

Definition state_to_json (s : publish_state) : members :=
  [("version", DInt STATE_VERSION); ("strategy", DStr (ps_strategy s));
   ("projection_fingerprint", opt_str (ps_projection_fingerprint s)); ("initialized", DBool (ps_initialized s));
   ("committed", opt_cursor (ps_committed s));
   ("pending", match ps_pending s with Some p => pending_to_json p | None => DNull end);
   ("keys", DObj (ps_keys s)); ("published_rows_total", DInt (ps_published_rows_total s));
   ("last_batch_rows", DInt (ps_last_batch_rows s)); ("last_published_at", opt_str (ps_last_published_at s))].

Definition doc_is_int (v : doc) (n : Z) : bool := match int_value v with Some z => z =? n | None => false end.

(** [PublishState.from_json]: version 1 and version 2 *)
Definition state_from_v1 (d : members) : res publish_state :=
  let watermark := oget d "watermark" in
  ok ← valid_encoded watermark;
  match oget_or d "keys" (DObj []) with
  | DObj keys =>
      if (ok : bool) then
        Ok (match watermark with
            | DNull => PublishState "snapshot" None true None None keys 0 0 None
            | w => PublishState "watermark" None true (Some (CommittedCursor w [] None None)) None keys 0 0 None
            end)
      else Err (ValueError "version 1 state is invalid")
  | _ => Err (ValueError "version 1 state is invalid")
  end.

Definition fingerprint_field (v : doc) : res (option string) :=
  match v with
  | DNull => Ok None
  | DStr s => if Nat.eqb (String.length s) 64 then Ok (Some s) else Err (ValueError "projection fingerprint is invalid")
  | _ => Err (ValueError "projection fingerprint is invalid")
  end.

Definition state_from_v2 (d : members) : res publish_state :=
  match oget d "strategy" with
  | DStr strategy =>
      if negb (bool_decide (strategy ∈ ["watermark"; "snapshot"; "initial"]))
      then Err (ValueError "unsupported state strategy") else
      fingerprint ← fingerprint_field (oget d "projection_fingerprint");
      match oget d "initialized", oget_or d "keys" (DObj []) with
      | DBool initialized, DObj keys =>
          match int_value (oget_or d "published_rows_total" (DInt 0)), int_value (oget_or d "last_batch_rows" (DInt 0)),
                oget d "last_published_at" with
          | Some total, Some batch, (DNull | DStr _) as published_at =>
              if (total <? 0) || (batch <? 0) then Err (ValueError "published row metrics are invalid") else
              committed ← cursor_from_json (oget d "committed");
              pending ← pending_from_json (oget d "pending");
              Ok (PublishState strategy fingerprint initialized committed pending keys total batch
                    (match published_at with DStr s => Some s | _ => None end))
          | _, _, _ => Err (ValueError "published row metrics are invalid")
          end
      | _, _ => Err (TypeError "state initialized/keys fields are invalid")
      end
  | DList _ | DObj _ => Err (TypeError "unhashable type")
  | _ => Err (ValueError "unsupported state strategy")
  end.

Definition state_from_json (data : doc) : res publish_state :=
  match data with
  | DObj d =>
      let version := oget_or d "version" (DInt 1) in
      if doc_is_int version 1 then state_from_v1 d
      else if doc_is_int version STATE_VERSION then state_from_v2 d
      else Err (ValueError "unsupported state version")
  | _ => Err (TypeError "state must be a JSON object")
  end.

(** ** Digests of rows *)

(** [_canon] *)
Definition canon (c : cell) : string :=
  match c with
  | CNull => String "000" ""
  | CBool true => "True"
  | CBool false => "False"
  | CInt z => pretty z
  | CText s => s
  end.

(** [row_hash] *)
Definition row_hash (r : row) (columns : list column_def) : string :=
  sha1_hex (join "|" (map (fun c => canon (cell_of r (cd_name c))) columns)).

(** [key_string] *)
Definition key_string (r : row) (key_columns : list string) : string :=
  join "|" (map (fun k => canon (cell_of r k)) key_columns).

(** [projection_fingerprint] *)
Definition json_opt (o : option string) : json := match o with Some s => JStr s | None => JNull end.

Definition column_policy (cfg : source_config) (c : column_def) : json :=
  let key_digest :=
    match cd_transform c with
    | Some t =>
        if String.eqb (ct_kind t) "deterministic_hash" then
          match ct_key_ref t with
          | Some ref => match resolve_tokenization_key cfg ref with Ok key => JStr (sha256_hex key) | Err _ => JNull end
          | None => JNull
          end
        else JNull
    | None => JNull
    end in
  JObj (mk_dict [("field_id", JInt (cd_field_id c)); ("name", JStr (cd_name c)); ("source", JStr (source_name c));
    ("type", JStr (cd_iceberg_type c)); ("nullable", JBool (cd_nullable c)); ("key_digest", key_digest);
    ("transform", match cd_transform c with
       | Some t => JObj (mk_dict [("kind", JStr (ct_kind t)); ("key_ref", json_opt (ct_key_ref t));
                                  ("domain", json_opt (ct_domain t)); ("normalization", JStr (ct_normalization t))])
       | None => JNull end)]).

Definition projection_fingerprint (cfg : source_config) (columns : list column_def) : string :=
  sha256_hex (dumps (JList (map (column_policy cfg) columns))).

(** One entry of the row map. *)
Definition row_entry (columns : list column_def) (key_columns : list string) (r : row) : doc :=
  DObj [("h", DStr (row_hash r columns)); ("k", DList (map (fun k => cell_doc (cell_of r k)) key_columns))].

(** [build_state_from_rows] *)
Definition keys_of_rows (rows : list row) (columns : list column_def) (key_columns : list string) : members :=
  foldl (fun keys r => odict_set (key_string r key_columns) (row_entry columns key_columns r) keys) [] rows.
Definition build_state_from_rows (rows : list row) (columns : list column_def) (key_columns : list string) : publish_state :=
  PublishState "snapshot" None true None None (keys_of_rows rows columns key_columns) 0 0 None.

(** ** Change sets *)

Definition INSERT : Z := 0.
Definition UPDATE : Z := 1.
Definition DELETE : Z := 2.
Definition UPSERT : Z := 4.

Record change_batch := ChangeBatch {
  cb_rows : list row;
  cb_markers : list Z;
  cb_new_state : publish_state;
  cb_inserts : Z;
  cb_updates : Z;
  cb_deletes : Z;
}.

Definition has_changes (b : change_batch) : bool := negb (bool_decide (cb_rows b = [])).

Definition append (b : change_batch) (r : row) (marker i u d : Z) : change_batch :=
  ChangeBatch (cb_rows b ++ [r]) (cb_markers b ++ [marker]) (cb_new_state b) (cb_inserts b + i) (cb_updates b + u) (cb_deletes b + d).

(** The value kept in a document as a source value again. *)
Definition doc_cell (v : doc) : cell :=
  match v with DBool b => CBool b | DInt z => CInt z | DStr s => CText s | _ => CNull end.

Section changes.
Context (prev : members) (columns : list column_def) (key_columns : list string) (default_upsert : bool).

(** One row of the first loop of [compute_changes]. *)
Definition change_row (b : change_batch) (r : row) : res change_batch :=
  match odict_get (key_string r key_columns) prev with
  | None | Some DNull => Ok (append b r (if default_upsert then UPSERT else INSERT) 1 0 0)
  | Some (DObj old) =>
      if doc_eqb (oget old "h") (DStr (row_hash r columns)) then Ok b
      else Ok (append b r (if default_upsert then UPSERT else UPDATE) 0 1 0)
  | Some _ => Err (AttributeError "get")
  end.

(** [{kc: key_values[i] if i < len(key_values) else None ...}] *)
Fixpoint deleted_row (cols : list string) (values : list doc) : row :=
  match cols with
  | [] => ∅
  | c :: cols =>
      (* a repeated column keeps its last value *)
      let rest := deleted_row cols (tl values) in
      match rest !! c with
      | Some _ => rest
      | None => <[c := match values with v :: _ => doc_cell v | [] => CNull end]> rest
      end
  end.

Definition scalar (v : doc) : bool := match v with DList _ | DObj _ => false | _ => true end.

(** [(meta or {}).get("k") or []] *)
Definition key_values (meta : doc) : res (list doc) :=
  match meta with
  | DObj d =>
      match oget d "k" with
      | DList l => if forallb scalar l then Ok l else Err (Unmodelled "a key value that is a container")
      | v => if doc_truthy v then Err (Unmodelled "key values that are no list") else Ok []
      end
  | v => if doc_truthy v then Err (AttributeError "get") else Ok []
  end.

(** One entry of the second loop. *)
Definition change_gone (seen : list string) (b : change_batch) (entry : string * doc) : res change_batch :=
  if bool_decide (entry.1 ∈ seen) then Ok b
  else values ← key_values entry.2; Ok (append b (deleted_row key_columns values) DELETE 0 0 1).

Fixpoint res_foldl {A B} (f : B -> A -> res B) (b : B) (l : list A) : res B :=
  match l with [] => Ok b | a :: l => b' ← f b a; res_foldl f b' l end.

(** [compute_changes] *)
Definition compute_changes (rows : list row) : res change_batch :=
  let start := ChangeBatch [] [] (build_state_from_rows rows columns key_columns) 0 0 0 in
  b ← res_foldl change_row start rows;
  res_foldl (change_gone (map (fun r => key_string r key_columns) rows)) b prev.
End changes.

(** ** Targets *)

Record mirror_table := MirrorTable {
  mt_name : string;
  mt_source_table : string;
  mt_target_table : string;
  mt_key_column : string;
  mt_schema : option string;
  mt_mode : option string;
  mt_watermark_column : option string;
  mt_enabled : bool;
  mt_columns : option (list column_def);
}.

Record mirror_target := MirrorTarget {
  tg_id : string;
  tg_connection_id : string;
  tg_partner_name : string;
  tg_source_type : option string;
  tg_source_version : option string;
  tg_enabled : bool;
  tg_tables : list mirror_table;
}.

(** [key_columns] *)
Definition key_columns (t : mirror_table) : list string :=
  filter (fun s => s <> "") (map strip (split_on "," (mt_key_column t))).

(** [strategy] *)
Definition table_strategy (t : mirror_table) : string :=
  match mt_mode t with
  | Some "watermark" => "watermark"
  | Some "snapshot" => "snapshot"
  | _ => if truthy_opt (mt_watermark_column t) then "watermark" else "snapshot"
  end.

(** ** State files *)

(** [_slug] *)
Definition slug (text : string) : string :=
  str_or (strip_char "_" (str_map (fun a => if is_alnum a then a else "_"%char) text)) "x".

Definition state_file_name (target : mirror_target) (table : mirror_table) : string :=
  fmt [slug (tg_id target); "__"; slug (or_empty (mt_schema table)); "__"; slug (mt_target_table table); ".json"].
Definition manifest_file_name (target : mirror_target) : string := fmt [slug (tg_id target); "__tables.json"].

(** What a file holds: a JSON document, or other bytes. *)
Inductive file_contents :=
| FJson (v : doc)
| FBytes (b : string).
#[global] Instance file_contents_eq_dec : EqDecision file_contents.
Proof. solve_decision. Defined.

Inductive load_status := SMissing | SValid | SCorrupt | SIncompatible.
#[global] Instance load_status_eq_dec : EqDecision load_status.
Proof. solve_decision. Defined.
Definition status_str (s : load_status) : string :=
  match s with SMissing => "missing" | SValid => "valid" | SCorrupt => "corrupt" | SIncompatible => "incompatible" end.

(** [load_state], given the contents of the file; a [TypeError] or [ValueError] makes
    the state corrupt, or incompatible when its text says "unsupported". *)
Definition load_state (contents : option file_contents) : res (load_status * option publish_state * string) :=
  match contents with
  | None => Ok (SMissing, None, "")
  | Some (FBytes _) => Ok (SCorrupt, None, "JSONDecodeError")
  | Some (FJson v) =>
      match state_from_json v with
      | Ok s => Ok (SValid, Some s, "")
      | Err (TypeError m) | Err (ValueError m) => Ok (if str_contains "unsupported" m then SIncompatible else SCorrupt, None, m)
      | Err e => Err e
      end
  end.
