(* ===== verification/Landing.v ===== *)
(** * Open mirroring: the landing zone and its publisher

    [open_mirror/landing_zone.py] (paths and the file-system backend),
    [open_mirror/manifest.py] (numbered data files), [open_mirror/metadata.py] and
    [open_mirror/publisher.py].

    The disk of a Manager is the state directory and the landing zone.  Every write
    that survives a crash is recorded in the trace of the run, so that a crash after
    any of them can be reasoned about.  Writing goes through a temporary file that is
    then renamed; file operations do not fail. *)

From S2P Require Import Prelude PyText Sha256 Json ArtifactStore Sources Docs MirrorState.
From Stdlib Require Import Ascii.

(** ** The disk *)

(** An indented JSON text, or a data file. *)
Inductive zone_file :=
| ZJson (v : json)
| ZData (b : string).
#[global] Instance zone_file_eq_dec : EqDecision zone_file.
Proof. solve_decision. Defined.

Abbreviation file_map := (gmap string file_contents).
Abbreviation zone := (gmap string zone_file).

Record disk := Disk {
  dk_files : file_map;
  dk_zone : zone;
}.

(** The trace holds the disk after each write, the latest first; [mw_ticks] counts
    what the run asked of the outside world. *)
Record mworld := MWorld {
  mw_disk : disk;
  mw_trace : list disk;
  mw_ticks : nat;
}.

Definition write_disk (f : disk -> disk) : M mworld unit := fun w =>
  (Ok tt, MWorld (f (mw_disk w)) (f (mw_disk w) :: mw_trace w) (mw_ticks w)).
Definition disk_ {A} (f : disk -> A) : M mworld A := gets (fun w => f (mw_disk w)).

Definition set_file (path : string) (c : file_contents) (d : disk) : disk := Disk (<[path := c]> (dk_files d)) (dk_zone d).
Definition drop_file (path : string) (d : disk) : disk := Disk (delete path (dk_files d)) (dk_zone d).
Definition set_zone (path : string) (c : zone_file) (d : disk) : disk := Disk (dk_files d) (<[path := c]> (dk_zone d)).

(** [tmp = f"{path}.tmp"]; write; [os.replace(tmp, path)] *)
Definition tmp (path : string) : string := path +:+ ".tmp".
Definition replace_file (path : string) (c : file_contents) : M mworld unit :=
  write_disk (set_file (tmp path) c);;
  write_disk (fun d => drop_file (tmp path) (set_file path c d)).
Definition remove_file (path : string) : M mworld unit := write_disk (drop_file path).

(** ** Paths *)

Definition SCHEMA_FOLDER_SUFFIX : string := ".schema".

(** [table_relative_path] *)
Definition strip_path (s : string) : string := strip_char "/" (strip s).
Definition table_relative_path (target_table schema : string) : res string :=
  let table := strip_path target_table in
  if negb (truthy_str table) then Err (ValueError "target_table must be non-empty")
  else
    let schema := strip_path schema in
    Ok (if truthy_str schema then fmt [schema; SCHEMA_FOLDER_SUFFIX; "/"; table] else table).

(** [LocalLandingZone._abs], relative to the root *)
Definition zone_path (rel_path : string) : res string :=
  let parts := filter keep_segment (split_on slash (replace_char backslash slash rel_path)) in
  if bool_decide (".." ∈ parts) then Err (ValueError (fmt ["path escapes the landing zone: "; quoted rel_path]))
  else Ok (join "/" parts).

(** The name of the entry of a directory that leads to a file. *)
Definition child_name (dir path : string) : option string :=
  let pfx := if truthy_str dir then dir +:+ "/" else "" in
  if startswith path pfx then
    match split_on slash (str_drop (String.length pfx) path) with n :: _ => Some n | [] => None end
  else None.

(** [exists]: a file, or a directory with files below it *)
Definition path_exists (z : zone) (p : string) : bool :=
  bool_decide (is_Some (z !! p)) || existsb (fun kv : string * zone_file => bool_decide (is_Some (child_name p kv.1))) (map_to_list z).
Definition zone_exists (rel_path : string) : M mworld bool :=
  p ← lift (zone_path rel_path); disk_ (fun d => path_exists (dk_zone d) p).

(** [list_dir]: the sorted names of the entries; a path that is a file has nothing
    below it *)
Definition dir_names (z : zone) (p : string) : list string :=
  sorted_set (omap (fun kv : string * zone_file => child_name p kv.1) (map_to_list z)).
Definition list_dir (rel_path : string) : M mworld (list string) :=
  p ← lift (zone_path rel_path); disk_ (fun d => dir_names (dk_zone d) p).

(** [write_bytes], [write_text] *)
Definition write_zone (rel_path : string) (c : zone_file) : M mworld unit :=
  p ← lift (zone_path rel_path);
  write_disk (set_zone (tmp p) c);;
  write_disk (fun d => let d := set_zone p c d in Disk (dk_files d) (delete (tmp p) (dk_zone d))).

(** [remove_tree] *)
Definition below (dir path : string) : bool := String.eqb path dir || startswith path (dir +:+ "/").
Definition remove_tree (rel_path : string) : M mworld unit :=
  p ← lift (zone_path rel_path);
  write_disk (fun d => Disk (dk_files d) (filter (fun kv => below p kv.1 = false) (dk_zone d))).

(** ** Numbered data files *)

Definition FILE_INDEX_WIDTH : Z := 20.

(** [format_file_name] *)
Definition format_file_name (index : Z) : res string :=
  if index <? 1 then Err (ValueError "file index is 1-based; must be >= 1")
  else if 10 ^ FILE_INDEX_WIDTH <=? index then Err (ValueError "file index exceeds the 20-digit landing-zone limit")
  else Ok (pad20 index +:+ ".parquet").

(** [s.rpartition(".")]: what is before and after the last dot *)
Fixpoint rpartition_dot (s : string) : option (string * string) :=
  match s with
  | EmptyString => None
  | String a s' =>
      match rpartition_dot s' with
      | Some (x, y) => Some (String a x, y)
      | None => if Ascii.eqb a "." then Some ("", s') else None
      end
  end.

Definition all_decimal (s : string) : bool := truthy_str s && str_forallb (fun a => bool_decide (is_Some (digit_value a))) s.

(** [parse_file_index] *)
Definition parse_file_index (name : string) : option Z :=
  let n := strip name in
  if negb (truthy_str n) || startswith n "_" then None
  else match rpartition_dot n with
       | Some (stem, ext) =>
           if truthy_str stem && truthy_str ext && all_decimal stem then digits_value 0 stem else None
       | None => None
       end.

(** [next_file_index] *)
Definition next_file_index (names : list string) : Z :=
  1 + foldl (fun highest name => match parse_file_index name with
                                 | Some idx => if highest <? idx then idx else highest
                                 | None => highest end) 0 names.

(** ** Metadata *)

Definition TABLE_METADATA_FILE : string := "_metadata.json".
Definition PARTNER_EVENTS_FILE : string := "_partnerEvents.json".

(** [build_table_metadata(key_columns)] *)
Definition build_table_metadata (keys : list string) : res json :=
  let keys := filter (fun s => s <> "") (map strip keys) in
  if bool_decide (keys = []) then Err (ValueError "build_table_metadata: at least one key column is required")
  else Ok (JObj (mk_dict [("keyColumns", JList (map JStr keys))])).

(** [build_partner_events] *)
Definition build_partner_events (partner_name : string) (source_type source_version : option string) : res json :=
  let name := strip partner_name in
  if negb (truthy_str name) then Err (ValueError "build_partner_events: partner_name is required")
  else
    let info := opt_field "sourceVersion" (truthy_opt source_version) (JStr (or_empty source_version))
                  (opt_field "sourceType" (truthy_opt source_type) (JStr (or_empty source_type)) ∅) in
    Ok (JObj (opt_field "sourceInfo" (negb (bool_decide (info = ∅))) (JObj info) (mk_dict [("partnerName", JStr name)]))).

(** ** The publisher *)

(** What pyarrow makes of the rows, the published columns and the markers. *)
Class Parquet := {
  landing_parquet : list column_def -> list row -> option (list Z) -> string;
}.

Section publisher.
Context `{HParquet : Parquet} (target : mirror_target).

(** [_table_dir] *)
Definition table_dir (table : mirror_table) : res string :=
  table_relative_path (mt_target_table table) (or_empty (mt_schema table)).

(** [ensure_partner_events] *)
Definition ensure_partner_events : M mworld unit :=
  if negb (truthy_opt (tg_source_type target)) && String.eqb (tg_partner_name target) "" then mret tt
  else
    event ← lift (build_partner_events (tg_partner_name target) (tg_source_type target) (tg_source_version target));
    write_zone PARTNER_EVENTS_FILE (ZJson event).

(** [ensure_table_metadata] *)
Definition ensure_table_metadata (table : mirror_table) : M mworld unit :=
  dir ← lift (table_dir table);
  let rel := fmt [dir; "/"; TABLE_METADATA_FILE] in
  found ← zone_exists rel;
  if (found : bool) then mret tt
  else meta ← lift (build_table_metadata (key_columns table)); write_zone rel (ZJson meta).

(** [reserve_batch_path] *)
Definition reserve_batch_path (table : mirror_table) : M mworld string :=
  dir ← lift (table_dir table);
  names ← list_dir dir;
  name ← lift (format_file_name (next_file_index names));
  mret (fmt [dir; "/"; name]).

(** [prepare_batch] *)
Definition prepare_batch (rows : list row) (columns : list column_def) (markers : option (list Z)) : res (string * string) :=
  match markers with
  | Some l =>
      if Nat.eqb (length l) (length rows) then
        let payload := landing_parquet columns rows markers in Ok (payload, sha256_hex payload)
      else Err (ValueError "row_markers must have one entry per row")
  | None => let payload := landing_parquet columns rows None in Ok (payload, sha256_hex payload)
  end.

(** [write_batch_at] *)
Definition write_batch_at (path payload : string) : M mworld unit :=
  write_zone path (ZData payload);;
  found ← zone_exists path;
  if (found : bool) then mret tt else raise (OSError (fmt ["landing-zone write could not be verified at "; quoted path])).

(** [drop_table] *)
Definition drop_table (table : mirror_table) : M mworld string :=
  dir ← lift (table_dir table); remove_tree dir;; mret dir.
End publisher.
