(* ===== verification/MirrorPublish.v ===== *)
(** * Open mirroring: the publication of a table

    [open_mirror/source.py]: the queries, the columns, the snapshot and the watermark
    strategies with their write-ahead protocol, the recovery of a pending batch, the
    dropped tables and the loop over a target.

    The source database, the reflection of a table, the clock and the leadership
    check are parameters that may answer differently at every call.  The page loop of
    the watermark strategy has fuel, one unit for a page. *)

From S2P Require Import Prelude PyText Sha256 Json ArtifactStore Lease Sources Dialects Docs MirrorState Landing.
From Stdlib Require Import Ascii.

(** ** The queries *)

Definition MAX_ROWS_PARAM : string := "max_rows".

(** [_select_all_sql] *)
Definition select_all_sql (d : dialect) (projected source max_rows_param : string) : string :=
  match d with
  | MSSQL => fmt ["SELECT TOP (:"; max_rows_param; ") "; projected; " FROM "; source]
  | Oracle => fmt ["SELECT "; projected; " FROM "; source; " FETCH FIRST :"; max_rows_param; " ROWS ONLY"]
  | Teradata => fmt ["SELECT "; projected; " FROM "; source; " ";
                     "QUALIFY ROW_NUMBER() OVER (ORDER BY 1) <= :"; max_rows_param]
  | _ => fmt ["SELECT "; projected; " FROM "; source; " LIMIT :"; max_rows_param]
  end.

(** [text.replace("  ", " ")] *)
Fixpoint single_spaces (s : string) : string :=
  match s with
  | String " " (String " " s') => String " " (single_spaces s')
  | String a s' => String a (single_spaces s')
  | EmptyString => EmptyString
  end.

(** [_limited_ordered_sql] *)
Definition limited_ordered_sql (d : dialect) (projected source whr order max_rows_param : string) : string :=
  let clauses := strip (fmt [whr; " ORDER BY "; order]) in
  match d with
  | MSSQL => fmt ["SELECT TOP (:"; max_rows_param; ") "; projected; " FROM "; source; " "; clauses]
  | Oracle => fmt ["SELECT "; projected; " FROM "; source; " "; clauses; " ";
                   "FETCH FIRST :"; max_rows_param; " ROWS ONLY"]
  | Teradata => single_spaces (fmt ["SELECT "; projected; " FROM "; source; " "; whr; " ";
                   "QUALIFY ROW_NUMBER() OVER (ORDER BY "; order; ") <= :"; max_rows_param; " ";
                   "ORDER BY "; order])
  | _ => fmt ["SELECT "; projected; " FROM "; source; " "; clauses; " LIMIT :"; max_rows_param]
  end.

(** [_select_ordered_sql] *)
Definition select_ordered_sql (d : dialect) (projected source order_col : string) (key_cols : list string)
  (max_rows_param : string) : string :=
  limited_ordered_sql d projected source "" (join ", " (order_col :: key_cols)) max_rows_param.

(** [_key_ladder], with the index of the first column still to come *)
Definition key_name (pfx : string) (j : nat) : string := pfx +:+ pretty (Z.of_nat j).

Definition ladder_part (columns : list string) (pfx : string) (index : nat) (column : string) : string :=
  let equals := join " AND " (imap (fun j c => fmt [c; " = :"; key_name pfx j]) (take index columns)) in
  let greater := fmt [column; " > :"; key_name pfx index] in
  if truthy_str equals then fmt ["("; equals; " AND "; greater; ")"] else greater.
Definition key_ladder (columns : list string) (pfx : string) : string :=
  join " OR " (imap (ladder_part columns pfx) columns).

(** [_select_since_sql] *)
Definition select_since_sql (d : dialect) (projected source order_col wm_param : string) (key_cols order_key_cols : list string)
  (max_rows_param : string) : string :=
  let whr := fmt ["WHERE "; order_col; " > :"; wm_param] in
  let whr := if negb (bool_decide (key_cols = []))
             then fmt [whr; " OR ("; order_col; " = :"; wm_param; " AND ("; key_ladder key_cols "key"; "))"] else whr in
  limited_ordered_sql d projected source whr (join ", " (order_col :: order_key_cols)) max_rows_param.

(** ** Configuration and columns *)

Record mirror_config := MirrorConfig {
  mc_source : source_config;
  OPEN_MIRROR_MODE : string;
  OPEN_MIRROR_MAX_ROWS : Z;
  OPEN_MIRROR_MAX_PAGES_PER_CYCLE : Z;
  OPEN_MIRROR_MAX_ROWS_PER_CYCLE : Z;
}.

Abbreviation bind_params := (gmap string cell).

(** What the run asks of the outside world, at its n-th question. *)
Class MirrorEnv := {
  mirror_settings : mirror_config;
  execute_query : nat -> string -> bind_params -> string -> res (list row);
  derive_table_schema : nat -> string -> string -> res (list column_def);
  leadership_check : option (nat -> res unit);
  now_text : nat -> string;
}.

(** [_configured_columns] *)
Definition columns_from (name : string) (cols : list column_def) : list column_def :=
  filter (fun c => source_name c = name) cols.
Definition pass_through (name : string) (c : column_def) : bool :=
  String.eqb (cd_name c) name && negb (bool_decide (is_Some (cd_transform c))).

Fixpoint check_controls (configured : list column_def) (names : list string) : res unit :=
  match names with
  | [] => Ok tt
  | n :: names =>
      match columns_from n configured with
      | [] => Err (ValueError (fmt ["Open Mirror control column "; quoted n; " must be present in columns"]))
      | c :: _ =>
          if pass_through n c then check_controls configured names
          else Err (ValueError (fmt ["Open Mirror control column "; quoted n; " must be pass-through"]))
      end
  end.

Definition configured_columns (table : mirror_table) (reflected : list column_def) : res (list column_def) :=
  match mt_columns table with
  | None => Ok reflected
  | Some configured =>
      let missing := filter (fun n => n ∉ map cd_name reflected) (map source_name configured) in
      if negb (bool_decide (missing = []))
      then Err (ValueError (fmt ["Open Mirror columns are not present in source "; quoted (mt_source_table table); ": "; repr_list missing]))
      else
        check_controls configured (key_columns table) ≫= fun _ =>
        let wm := or_empty (mt_watermark_column table) in
        match (if truthy_str wm then columns_from wm configured else []) with
        | c :: _ =>
            if pass_through wm c then Ok configured
            else Err (ValueError (fmt ["Open Mirror watermark column "; quoted wm; " must be "; "pass-through when published"]))
        | [] => Ok configured
        end
  end.

(** [_control_columns]: the private columns, and the aliases by control name *)
Definition control_column (table : mirror_table) (reflected published : list column_def)
  (acc : list column_def * list (string * string)) (control_name : string) : res (list column_def * list (string * string)) :=
  if bool_decide (control_name ∈ map source_name published) then Ok acc
  else
    (* a later column of the same name replaces an earlier one *)
    match list_find (fun c => cd_name c = control_name) (reverse reflected) with
    | None => Err (ValueError (fmt ["Open Mirror control column "; quoted control_name; " is not present in source"]))
    | Some (_, c) =>
        if bool_decide (control_name ∈ key_columns table)
        then Err (ValueError (fmt ["Open Mirror key column "; quoted control_name; " must be published pass-through"]))
        else
          let alias := "__om_control_" +:+ pretty (Z.of_nat (length acc.1)) in
          Ok (acc.1 ++ [ColumnDef (cd_field_id c) alias (cd_iceberg_type c) (cd_nullable c) (Some control_name) None None],
              odict_set control_name alias acc.2)
    end.

Definition control_columns (table : mirror_table) (reflected published : list column_def)
  : res (list column_def * list (string * string)) :=
  let controls := key_columns table ++ (if truthy_opt (mt_watermark_column table) then [or_empty (mt_watermark_column table)] else []) in
  res_foldl (control_column table reflected published) ([], []) controls.

(** [_restore_control_values] *)
Definition restore_row (aliases : list (string * string)) (r : row) : row :=
  foldl (fun r a => <[a.1 := cell_of r a.2]> r) r aliases.
Definition restore_control_values (rows : list row) (aliases : list (string * string)) : list row :=
  map (restore_row aliases) rows.

(** [_render_projection] *)
Definition mirror_projection (cfg : source_config) (d : dialect) (cols : list column_def) : res (string * bind_params) :=
  ps ← res_map (fun ic => render_projection cfg d ic.2 ("om_" +:+ pretty (Z.of_nat (S ic.1)))) (imap pair cols);
  Ok (join ", " (map (fun p => p.1.1) ps),
      foldl (fun m (p : projection) => foldl (fun m kv => <[kv.1 := CText kv.2]> m) m p.2) ∅ ps).

(** [_has_random_tokens] *)
Definition has_random_tokens (columns : list column_def) : bool :=
  existsb (fun c => match cd_transform c with Some t => String.eqb (ct_kind t) "random_token" | None => false end) columns.

(** ** Results *)

Record publish_result := PublishResult {
  pr_table : string;
  pr_action : string;
  pr_rows : Z;
  pr_inserts : Z;
  pr_updates : Z;
  pr_deletes : Z;
  pr_path : option string;
  pr_error : option exn;
  pr_columns : list column_def;
  pr_strategy : option string;
  pr_reason : option string;
  pr_input_cursor : option committed_cursor;
  pr_output_cursor : option committed_cursor;
  pr_pages_read : Z;
  pr_rows_scanned : Z;
  pr_rows_published : Z;
  pr_state_status : load_status;
  pr_recovery : option string;
  pr_query_mode : option string;
}.

Record target_result := TargetResult {
  tr_results : list publish_result;
  tr_dropped : list string;
  tr_skipped : bool;
}.

(** ** Setters of the state *)

Definition with_pending (p : option pending_batch) (s : publish_state) : publish_state :=
  PublishState (ps_strategy s) (ps_projection_fingerprint s) (ps_initialized s) (ps_committed s) p (ps_keys s)
    (ps_published_rows_total s) (ps_last_batch_rows s) (ps_last_published_at s).
Definition with_fingerprint (f : option string) (s : publish_state) : publish_state :=
  PublishState (ps_strategy s) f (ps_initialized s) (ps_committed s) (ps_pending s) (ps_keys s)
    (ps_published_rows_total s) (ps_last_batch_rows s) (ps_last_published_at s).
Definition with_strategy (strategy : string) (s : publish_state) : publish_state :=
  PublishState strategy (ps_projection_fingerprint s) (ps_initialized s) (ps_committed s) (ps_pending s) (ps_keys s)
    (ps_published_rows_total s) (ps_last_batch_rows s) (ps_last_published_at s).
Definition with_initialized (s : publish_state) : publish_state :=
  PublishState (ps_strategy s) (ps_projection_fingerprint s) true (ps_committed s) (ps_pending s) (ps_keys s)
    (ps_published_rows_total s) (ps_last_batch_rows s) (ps_last_published_at s).

(** The state after [_finalize_pending]: the next cursor with its file and time, the
    counters and the row map *)
Definition landed_cursor (p : pending_batch) (now : string) : committed_cursor :=
  CommittedCursor (cc_watermark (pb_next p)) (cc_keys (pb_next p)) (Some (pb_path p)) (Some now).
Definition finalized (s : publish_state) (p : pending_batch) (now : string) : publish_state :=
  PublishState (ps_strategy s) (ps_projection_fingerprint s) true (Some (landed_cursor p now)) None
    (default (ps_keys s) (pb_snapshot_keys p))
    (ps_published_rows_total s + pb_row_count p) (pb_row_count p) (Some now).

(** ** Cursors *)

(** [_cursor_values] *)
Definition cursor_values (cursor : option committed_cursor) : res (cell * list cell) :=
  match cursor with
  | None => Ok (CNull, [])
  | Some c => w ← decode_watermark (cc_watermark c); ks ← res_map decode_watermark (cc_keys c); Ok (w, ks)
  end.

(** [_next_cursor] *)
Definition next_cursor (r : row) (watermark_column : string) (keys : list string) : res committed_cursor :=
  let values := map (cell_of r) (watermark_column :: keys) in
  if existsb (fun v => bool_decide (v = CNull)) values
  then Err (ValueError (fmt ["cursor columns must be non-null: "; repr_list (watermark_column :: keys)]))
  else Ok (CommittedCursor (encode_watermark (cell_of r watermark_column))
             (map (fun k => encode_watermark (cell_of r k)) keys) None None).

(** A new [CommittedCursor()] *)
Definition empty_cursor : committed_cursor := CommittedCursor DNull [] None None.

Section env.
Context `{HEnv : MirrorEnv} `{HParquet : Parquet}.

Definition cfg : source_config := mc_source mirror_settings.

(** Ask the outside world. *)
Definition ask {A} (f : nat -> res A) : M mworld A := fun w =>
  (f (mw_ticks w), MWorld (mw_disk w) (mw_trace w) (S (mw_ticks w))).

Definition check_leadership : M mworld unit :=
  match leadership_check with Some check => ask check | None => mret tt end.
Definition now_ : M mworld string := ask (fun n => Ok (now_text n)).

(** [_default_mode], [_effective_max_rows], [_effective_mode], [_strategy] *)
Definition default_mode : string := lower (strip (str_or (OPEN_MIRROR_MODE mirror_settings) "incremental")).

Definition mirror_max_rows (max_rows : option Z) : option Z :=
  match max_rows with
  | Some n => Some n
  | None => if OPEN_MIRROR_MAX_ROWS mirror_settings =? 0 then None else Some (OPEN_MIRROR_MAX_ROWS mirror_settings)
  end.

Definition effective_mode (table : mirror_table) (invocation : option string) : res string :=
  let mode := if truthy_opt invocation then lower (strip (or_empty invocation))
              else str_or (lower (strip (or_empty (mt_mode table)))) default_mode in
  if bool_decide (mode ∈ ["incremental"; "watermark"; "snapshot"; "initial"]) then Ok mode
  else Err (ValueError (fmt ["unsupported Open Mirror mode "; quoted mode])).

Definition mode_strategy (table : mirror_table) (mode : string) : string :=
  if bool_decide (mode ∈ ["watermark"; "snapshot"]) then mode else table_strategy table.

(** [_read_rows_watermark] *)
Definition watermark_query (target : mirror_target) (table : mirror_table) (cols : list column_def)
  (wm_col : string) (watermark : cell) (last_keys : list cell) (limit : Z) : res (string * bind_params) :=
  let d := get_dialect (effective_db_url cfg (tg_connection_id target)) in
  pp ← mirror_projection cfg d cols;
  let source := quote_qualified d (mt_source_table table) in
  let order_col := quote d wm_col in
  let key_cols := map (quote d) (key_columns table) in
  match watermark with
  | CNull => Ok (select_ordered_sql d pp.1 source order_col key_cols MAX_ROWS_PARAM, pp.2 ∪ {[MAX_ROWS_PARAM := CInt limit]})
  | _ =>
      let predicate_keys := if Nat.eqb (length last_keys) (length key_cols) then key_cols else [] in
      Ok (select_since_sql d pp.1 source order_col "wm" predicate_keys key_cols MAX_ROWS_PARAM,
          list_to_map (imap (fun i v => (key_name "key" i, v)) last_keys) ∪
          (pp.2 ∪ {[MAX_ROWS_PARAM := CInt limit; "wm" := watermark]}))
  end.

Definition read_rows_watermark (target : mirror_target) (table : mirror_table) (columns controls : list column_def)
  (aliases : list (string * string)) (wm_col : string) (watermark : cell) (last_keys : list cell) (limit : Z)
  : M mworld (list row) :=
  q ← lift (watermark_query target table (columns ++ controls) wm_col watermark last_keys limit);
  rows ← ask (fun n => execute_query n q.1 q.2 (tg_connection_id target));
  mret (restore_control_values rows aliases).

(** [_read_source_rows] *)
Definition snapshot_query (target : mirror_target) (table : mirror_table) (cols : list column_def) (limit : Z)
  : res (string * bind_params) :=
  let d := get_dialect (effective_db_url cfg (tg_connection_id target)) in
  pp ← mirror_projection cfg d cols;
  Ok (select_all_sql d pp.1 (quote_qualified d (mt_source_table table)) MAX_ROWS_PARAM,
      pp.2 ∪ {[MAX_ROWS_PARAM := CInt limit]}).

Definition read_source_rows (target : mirror_target) (table : mirror_table) (columns controls : list column_def)
  (aliases : list (string * string)) (max_rows : option Z) : M mworld (list row) :=
  q ← lift (snapshot_query target table (columns ++ controls)
              (default (effective_query_max_rows cfg (tg_connection_id target)) max_rows));
  rows ← ask (fun n => execute_query n q.1 q.2 (tg_connection_id target));
  mret (restore_control_values rows aliases).

(** ** One table *)

Section table.
Context (target : mirror_target) (table : mirror_table).

Definition state_path : string := state_file_name target table.

(** [save_state] *)
Definition save_state (s : publish_state) : M mworld unit := replace_file state_path (FJson (DObj (state_to_json s))).

(** [_load_valid_state] *)
Definition load_valid_state : M mworld (load_status * option publish_state) :=
  f ← disk_ (fun d => dk_files d !! state_path);
  l ← lift (load_state f);
  let '(status, state, error) := l in
  if bool_decide (status ∈ [SMissing; SValid]) then mret (status, state)
  else raise (StateSafetyError (fmt ["Open Mirror state is "; status_str status; " at "; state_path; ": "; error; "; ";
                                     "refusing an implicit full load"])).

(** [_pending_payload_path], [_write_pending_payload], [_read_pending_payload] *)
Definition pending_payload_path : string := state_path +:+ ".pending.parquet".
Definition write_pending_payload (payload : string) : M mworld unit := replace_file pending_payload_path (FBytes payload).
Definition read_pending_payload (path expected_digest : string) : M mworld string :=
  f ← disk_ (fun d => dk_files d !! path);
  match f with
  | Some (FBytes payload) =>
      if String.eqb (sha256_hex payload) expected_digest then mret payload
      else raise (PendingStateError (fmt ["prepared Open Mirror payload at "; quoted path; " does not match pending digest"]))
  | Some (FJson _) => raise (Unmodelled "the bytes of a state file")
  | None => raise (OSError "No such file or directory")
  end.

(** [_finalize_pending], with the state it leaves *)
Definition finalize_pending (s : publish_state) : M mworld publish_state :=
  match ps_pending s with
  | None => mret s
  | Some p =>
      now ← now_;
      let s := finalized s p now in
      save_state s;;
      (match pb_payload_path p with
       | Some path => found ← disk_ (fun d => bool_decide (is_Some (dk_files d !! path)));
                      if (found : bool) then remove_file path else mret tt
       | None => mret tt
       end);;
      mret s
  end.

(** The write-ahead protocol both strategies share: record the batch as pending,
    unless it already is; write its file; commit it. *)
Definition record_pending (s : publish_state) (columns : list column_def) (payload : string)
  (mk : string -> option string -> pending_batch) : M mworld (string * publish_state) :=
  path ← reserve_batch_path table;
  let payload_path := if has_random_tokens columns then Some pending_payload_path else None in
  (if has_random_tokens columns then write_pending_payload payload else mret tt);;
  let s := with_pending (Some (mk path payload_path)) s in
  check_leadership;;
  save_state s;;
  mret (path, s).

Definition land_pending (s : publish_state) (path payload : string) : M mworld publish_state :=
  check_leadership;;
  write_batch_at path payload;;
  check_leadership;;
  finalize_pending s.

(** *** [_publish_watermark] *)

Record page_loop := PageLoop {
  pl_state : publish_state;
  pl_cursor : option committed_cursor;
  pl_initial : bool;
  pl_pages : Z;
  pl_scanned : Z;
  pl_published : Z;
  pl_last_path : option string;
  pl_action : string;
}.

Section strategy.
Context (columns controls : list column_def) (aliases : list (string * string)) (status : load_status)
  (reason : option string) (dry_run : bool) (max_rows : option Z).

Definition page_size : Z :=
  let n := default 0 max_rows in
  if n =? 0 then effective_query_max_rows cfg (tg_connection_id target) else n.

(** Does the recorded batch still match the page? *)
Definition page_matches (p : pending_batch) (rows : list row) (digest : string) (next : committed_cursor) : bool :=
  (pb_row_count p =? Z.of_nat (length rows)) && String.eqb (pb_content_hash p) digest
  && doc_eqb (cc_watermark (pb_next p)) (cc_watermark next)
  && doc_eqb (DList (cc_keys (pb_next p))) (DList (cc_keys next)).

(** The body of the loop on a page with rows, up to the commit. *)
Definition publish_page (l : page_loop) (rows : list row) (next : committed_cursor) : M mworld (publish_state * string) :=
  let first := pl_initial l && (pl_published l =? 0) in
  let markers := if first then None else Some (replicate (length rows) UPSERT) in
  check_leadership;;
  ensure_partner_events target;;
  ensure_table_metadata table;;
  pd ← lift (prepare_batch rows columns markers);
  let '(payload, digest) := pd in
  ps ← (match ps_pending (pl_state l) with
        | Some p =>
            if page_matches p rows digest next then mret (pb_path p, pl_state l)
            else raise (PendingStateError (fmt ["pending batch at "; state_path; " no longer matches its source page"]))
        | None =>
            record_pending (pl_state l) columns payload (fun path payload_path =>
              PendingBatch (pl_cursor l) next path (Z.of_nat (length rows)) digest first None payload_path)
        end);
  let '(path, s) := ps in
  s ← land_pending s path payload;
  mret (s, path).

(** One turn of the loop: the new variables, and whether it goes on. *)
Definition watermark_page (wm_col : string) (initial_publish : bool) (l : page_loop) : M mworld (page_loop * bool) :=
  cv ← lift (cursor_values (pl_cursor l));
  rows ← read_rows_watermark target table columns controls aliases wm_col cv.1 cv.2 page_size;
  let pages := pl_pages l + 1 in
  let scanned := pl_scanned l + Z.of_nat (length rows) in
  match last rows with
  | None =>
      s ← (if pl_initial l && negb dry_run then
             check_leadership;;
             let s := with_strategy "watermark" (with_initialized (pl_state l)) in
             save_state s;; mret s
           else mret (pl_state l));
      mret (PageLoop s (pl_cursor l) (pl_initial l) pages scanned (pl_published l) (pl_last_path l) (pl_action l), false)
  | Some r =>
      next ← lift (next_cursor r wm_col (key_columns table));
      spc ← (if dry_run then mret (pl_state l, Some next, pl_last_path l)
             else sp ← publish_page l rows next; mret (sp.1, ps_committed sp.1, Some sp.2));
      let '(s, cursor, last_path) := spc in
      let more := negb (Z.of_nat (length rows) <? page_size)
                  && negb (truthy_int (OPEN_MIRROR_MAX_PAGES_PER_CYCLE mirror_settings)
                           && (OPEN_MIRROR_MAX_PAGES_PER_CYCLE mirror_settings <=? pages))
                  && negb (truthy_int (OPEN_MIRROR_MAX_ROWS_PER_CYCLE mirror_settings)
                           && (OPEN_MIRROR_MAX_ROWS_PER_CYCLE mirror_settings <=? scanned)) in
      mret (PageLoop (with_pending None s) cursor false pages scanned (pl_published l + Z.of_nat (length rows)) last_path
              (if initial_publish then "initial" else "incremental"), more)
  end.

Fixpoint watermark_pages (fuel : nat) (wm_col : string) (initial_publish : bool) (l : page_loop) : M mworld page_loop :=
  match fuel with
  | O => raise (Unmodelled "more pages than the loop is followed for")
  | S fuel =>
      lm ← watermark_page wm_col initial_publish l;
      if (lm.2 : bool) then watermark_pages fuel wm_col initial_publish lm.1 else mret lm.1
  end.

Definition publish_watermark (fuel : nat) (state : publish_state) : M mworld publish_result :=
  let wm_col := or_empty (mt_watermark_column table) in
  let column_names := map cd_name columns ++ map source_name controls in
  if negb (truthy_str wm_col && bool_decide (wm_col ∈ column_names))
  then raise (ValueError (fmt ["watermark_column "; quoted wm_col; " is not a column of "; quoted (mt_source_table table)])) else
  let missing_keys := filter (fun k => k ∉ column_names) (key_columns table) in
  if negb (bool_decide (missing_keys = []))
  then raise (ValueError (fmt ["key columns are not present in source: "; repr_list missing_keys])) else
  let initial := negb (ps_initialized state) in
  let cursor := match ps_pending state with Some p => pb_prior p | None => ps_committed state end in
  l ← watermark_pages fuel wm_col initial
        (PageLoop state cursor initial 0 0 0 None (if initial then "initial" else "noop"));
  mret (PublishResult (mt_name table) (if dry_run then "dry_run" else pl_action l) (pl_published l)
          (if initial then pl_published l else 0) (if String.eqb (pl_action l) "incremental" then pl_published l else 0) 0
          (pl_last_path l) None columns (Some "watermark") reason cursor (pl_cursor l) (pl_pages l) (pl_scanned l) (pl_published l)
          status (if bool_decide (is_Some (ps_pending state)) then Some "retry_missing_file" else None)
          (Some (match cursor with None => "initial" | Some _ => "watermark" end))).

(** *** [_publish_snapshot] *)

(** What one scan makes of the state: the row map, the rows, the markers, the counts
    and the action. *)
Definition snapshot_changes (state : publish_state) (rows : list row)
  : res (members * list row * option (list Z) * (Z * Z * Z) * string) :=
  if negb (ps_initialized state) then
    Ok (ps_keys (build_state_from_rows rows columns (key_columns table)), rows, None, (Z.of_nat (length rows), 0, 0), "initial")
  else
    b ← compute_changes (ps_keys state) columns (key_columns table) false rows;
    Ok (ps_keys (cb_new_state b), cb_rows b, Some (cb_markers b), (cb_inserts b, cb_updates b, cb_deletes b),
        if has_changes b then "incremental" else "noop").

Definition publish_scan (state : publish_state) (keys : members) (batch_rows : list row) (markers : option (list Z))
  : M mworld string :=
  check_leadership;;
  ensure_partner_events target;;
  ensure_table_metadata table;;
  pd ← lift (prepare_batch batch_rows columns markers);
  let '(payload, digest) := pd in
  ps ← (match ps_pending state with
        | Some p =>
            if String.eqb (pb_content_hash p) digest && (pb_row_count p =? Z.of_nat (length batch_rows))
            then mret (pb_path p, state)
            else raise (PendingStateError (fmt ["pending snapshot batch at "; state_path; " no longer matches source"]))
        | None =>
            record_pending state columns payload (fun path payload_path =>
              PendingBatch (ps_committed state) empty_cursor path (Z.of_nat (length batch_rows)) digest
                (negb (ps_initialized state)) (Some keys) payload_path)
        end);
  let '(path, s) := ps in
  s ← land_pending s path payload;
  save_state (with_strategy "snapshot" s);;
  mret path.

Definition publish_snapshot (state : publish_state) : M mworld publish_result :=
  rows ← read_source_rows target table columns controls aliases max_rows;
  ch ← lift (snapshot_changes state rows);
  let '(keys, batch_rows, markers, (inserts, updates, deletes), action) := ch in
  let scanned := Z.of_nat (length rows) in
  let published := Z.of_nat (length batch_rows) in
  let recovery := if bool_decide (is_Some (ps_pending state)) then Some "retry_missing_file" else None in
  if dry_run then
    mret (PublishResult (mt_name table) "dry_run" published inserts updates deletes None None columns (Some "snapshot") reason
            None None 1 scanned 0 status recovery (Some "snapshot_full_scan"))
  else if String.eqb action "noop" then
    mret (PublishResult (mt_name table) "noop" 0 0 0 0 None None columns (Some "snapshot") None
            None None 1 scanned 0 status None (Some "snapshot_full_scan"))
  else
    path ← publish_scan state keys batch_rows markers;
    mret (PublishResult (mt_name table) action published inserts updates deletes (Some path) None columns (Some "snapshot") reason
            None None 1 scanned published status recovery (Some "snapshot_full_scan")).
End strategy.

(** *** [publish_table] *)

Definition recovered (status : load_status) (strategy reason recovery : string) (input output : option committed_cursor) : publish_result :=
  PublishResult (mt_name table) "recovery" 0 0 0 0 None None [] (Some strategy) (Some reason) input output 0 0 0 status
    (Some recovery) (Some (if String.eqb strategy "watermark" then "watermark" else "snapshot_full_scan")).

(** The recovery of a pending batch: [None] when it is left to the strategy. *)
Definition recover_pending (status : load_status) (strategy : string) (s : publish_state) (p : pending_batch)
  : M mworld (option publish_result) :=
  found ← zone_exists (pb_path p);
  if (found : bool) then
    check_leadership;;
    s ← finalize_pending s;
    mret (Some (recovered status strategy "pending_file_found" "finalized_existing_file" (pb_prior p) (ps_committed s)))
  else
    match pb_payload_path p with
    | None => mret None
    | Some payload_path =>
        prepared ← disk_ (fun d => bool_decide (is_Some (dk_files d !! payload_path)));
        if negb prepared then mret None
        else if negb (String.eqb payload_path pending_payload_path)
        then raise (StateSafetyError (fmt ["pending payload path at "; state_path; " is outside the expected state path"]))
        else
          payload ← read_pending_payload payload_path (pb_content_hash p);
          s ← land_pending s (pb_path p) payload;
          mret (Some (recovered status strategy "pending_payload_found" "replayed_prepared_payload" (pb_prior p) (ps_committed s)))
    end.

Definition projection_changed : exn :=
  StateSafetyError (fmt ["Open Mirror projection changed at "; state_path; "; explicitly reset "; "or request an initial load"]).

(** The checks of the stored state before anything is read from the source. *)
Definition check_state (strategy : string) (explicit_initial : bool) (state : option publish_state) : res unit :=
  match state with
  | None => Ok tt
  | Some s =>
      raise_if (negb (String.eqb (ps_strategy s) strategy) && negb explicit_initial)
        (StateSafetyError (fmt ["tracking strategy changed from "; quoted (ps_strategy s); " to "; quoted strategy; " at ";
                                state_path; "; explicitly reset or request an initial load"])) ≫= fun _ =>
      match mt_columns table with
      | None => Ok tt
      | Some cols =>
          match ps_projection_fingerprint s with
          | None => raise_if (ps_initialized s) (StateSafetyError (fmt ["Open Mirror state at "; state_path;
                      " has no projection fingerprint; "; "explicitly reset or request an initial load"]))
          | Some f => raise_if (negb (String.eqb f (projection_fingerprint cfg cols)) && negb explicit_initial) projection_changed
          end
      end
  end.

(** The fingerprint of the columns against that of the state. *)
Definition bind_fingerprint (explicit_initial : bool) (s : publish_state) (fingerprint : string) : res publish_state :=
  match ps_projection_fingerprint s with
  | None => Ok (with_fingerprint (Some fingerprint) s)
  | Some f =>
      if String.eqb f fingerprint then Ok s
      else if explicit_initial then Ok (with_fingerprint (Some fingerprint) s)
      else Err projection_changed
  end.

Definition publish_table (fuel : nat) (mode : option string) (dry_run : bool) (max_rows : option Z) : M mworld publish_result :=
  let max_rows := mirror_max_rows max_rows in
  mode ← lift (effective_mode table mode);
  let strategy := mode_strategy table mode in
  ls ← load_valid_state;
  let '(status, state) := ls in
  let explicit_initial := String.eqb mode "initial" in
  let reason := if explicit_initial then Some "operator_requested"
                else if bool_decide (status = SMissing) then Some "state_missing" else None in
  lift (check_state strategy explicit_initial state);;
  r ← (match state with
       | Some s => match ps_pending s with Some p => recover_pending status strategy s p | None => mret None end
       | None => mret None
       end);
  match r with
  | Some r => mret r
  | None =>
      let s := match state with
               | Some s => if explicit_initial && negb (bool_decide (is_Some (ps_pending s))) then new_state strategy else s
               | None => new_state strategy
               end in
      reflected ← ask (fun n => derive_table_schema n (mt_source_table table) (tg_connection_id target));
      columns ← lift (configured_columns table reflected);
      cc ← lift (control_columns table reflected columns);
      s ← lift (bind_fingerprint explicit_initial s (projection_fingerprint cfg columns));
      if String.eqb strategy "watermark"
      then publish_watermark columns cc.1 cc.2 status reason dry_run max_rows fuel s
      else publish_snapshot columns cc.1 cc.2 status reason dry_run max_rows s
  end.
End table.

(** ** A target *)

(** [entry.get(k) or ""] of a recorded table *)
Definition entry_text (d : members) (k : string) : res string :=
  match oget d k with
  | DStr s => Ok s
  | v => if doc_truthy v then Err (Unmodelled "a table name that is no text") else Ok ""
  end.

(** [load_published_tables] *)
Definition published_tables (f : option file_contents) : list members :=
  match f with
  | Some (FJson (DObj d)) =>
      match oget d "tables" with
      | DList l => omap (fun v => match v with DObj t => Some t | _ => None end) l
      | _ => []
      end
  | _ => []
  end.

(** The stand-in for a table that is no longer configured. *)
Definition stale_table (schema target_table : string) : mirror_table :=
  MirrorTable target_table "" target_table "_dropped" (if truthy_str schema then Some schema else None) None None true None.

Section target.
Context (target : mirror_target).

Definition configured_tables : list (string * string) :=
  map (fun t => (or_empty (mt_schema t), mt_target_table t)) (tg_tables target).

(** [delete_state] *)
Definition delete_state (table : mirror_table) : M mworld unit :=
  found ← disk_ (fun d => bool_decide (is_Some (dk_files d !! state_path target table)));
  if (found : bool) then remove_file (state_path target table) else mret tt.

(** [_reconcile_drops], from the entries still to come *)
Fixpoint drop_stale (dry_run : bool) (entries : list members) (dropped : list string) : M mworld (list string) :=
  match entries with
  | [] => mret dropped
  | entry :: entries =>
      schema ← lift (entry_text entry "schema");
      target_table ← lift (entry_text entry "target_table");
      if negb (truthy_str target_table) || bool_decide ((schema, target_table) ∈ configured_tables)
      then drop_stale dry_run entries dropped
      else
        let stale := stale_table schema target_table in
        (if dry_run then mret tt else drop_table stale;; delete_state stale);;
        dir ← lift (table_dir stale);
        drop_stale dry_run entries (dropped ++ [dir])
  end.
Definition reconcile_drops (dry_run : bool) : M mworld (list string) :=
  f ← disk_ (fun d => dk_files d !! manifest_file_name target);
  drop_stale dry_run (published_tables f) [].

(** A table of the loop, with what its [except] branch reports; the time of the
    failure is read off the state file that is there then. *)
Definition failed_result (table : mirror_table) (e : exn) (status : load_status) (error : string) : publish_result :=
  PublishResult (mt_name table) "error" 0 0 0 0 None (Some e) [] (Some (table_strategy table))
    (Some (match e with
           | PendingStateError _ => "state_pending_invalid"
           | _ => if str_contains "pending batch" error then "state_pending_invalid" else "state_" +:+ status_str status
           end)) None None 0 0 0 status None None.

Definition publish_guarded (fuel : nat) (mode : option string) (dry_run : bool) (max_rows : option Z) (table : mirror_table)
  : M mworld publish_result :=
  catch (check_leadership;; publish_table target table fuel mode dry_run max_rows)
        (fun e => match e with
                  | Unmodelled _ => raise e
                  | _ => f ← disk_ (fun d => dk_files d !! state_path target table);
                         l ← lift (load_state f);
                         mret (failed_result table e l.1.1 l.2)
                  end).

Fixpoint publish_tables (fuel : nat) (mode : option string) (dry_run : bool) (max_rows : option Z) (tables : list mirror_table)
  : M mworld (list publish_result) :=
  match tables with
  | [] => mret []
  | t :: tables =>
      if mt_enabled t then
        r ← publish_guarded fuel mode dry_run max_rows t;
        rs ← publish_tables fuel mode dry_run max_rows tables; mret (r :: rs)
      else publish_tables fuel mode dry_run max_rows tables
  end.

(** [save_published_tables] *)
Definition save_published_tables : M mworld unit :=
  replace_file (manifest_file_name target) (FJson (DObj [("tables", DList
    (map (fun t => DObj [("schema", DStr (or_empty (mt_schema t))); ("target_table", DStr (mt_target_table t))])
         (filter (fun t => mt_enabled t = true) (tg_tables target))))])).

(** [publish_target] *)
Definition publish_target (fuel : nat) (mode : option string) (dry_run : bool) (max_rows : option Z) (reconcile : bool)
  : M mworld target_result :=
  if negb (tg_enabled target) then mret (TargetResult [] [] true)
  else
    dropped ← (if reconcile then catch (check_leadership;; reconcile_drops dry_run)
                   (fun e => match e with Unmodelled _ => raise e | _ => mret [] end) else mret []);
    results ← publish_tables fuel mode dry_run max_rows (tg_tables target);
    (if dry_run then mret tt else check_leadership;; save_published_tables);;
    mret (TargetResult results dropped false).
End target.
End env.
