(* ===== verification/MirrorChanges.v ===== *)
(** * Open mirroring: change sets bring the mirror up to date

    A mirrored table is a map from key values to the values of the published columns.
    A change file is applied the strict way the row markers document it: an insert
    needs an absent key, an update and a delete need a present one.  The change set
    [compute_changes] makes of the stored row map and a new scan never fails there and
    leaves exactly the scanned rows. *)

From S2P Require Import Prelude PyText Sha1 Json Sources Docs MirrorState.
From Stdlib Require Import Ascii.

(** ** Mirrored tables *)

Abbreviation mirror := (gmap (list cell) (list cell)).

Section spec.
Context (columns : list column_def) (keys : list string).

Definition row_key (r : row) : list cell := map (cell_of r) keys.
Definition published (r : row) : list cell := map (fun c => cell_of r (cd_name c)) columns.

(** The table that holds the rows. *)
Definition contents (rows : list row) : mirror := list_to_map (map (fun r => (row_key r, published r)) rows).

(** A marked row, applied strictly: [None] when the marker does not fit the table. *)
Definition apply_change (m : mirror) (change : Z * row) : option mirror :=
  let '(marker, r) := change in
  let present := bool_decide (is_Some (m !! row_key r)) in
  if marker =? INSERT then (if present then None else Some (<[row_key r := published r]> m))
  else if marker =? UPDATE then (if present then Some (<[row_key r := published r]> m) else None)
  else if marker =? DELETE then (if present then Some (delete (row_key r) m) else None)
  else if marker =? UPSERT then Some (<[row_key r := published r]> m)
  else None.

Fixpoint apply_changes (m : mirror) (changes : list (Z * row)) : option mirror :=
  match changes with
  | [] => Some m
  | c :: changes => m' ← apply_change m c; apply_changes m' changes
  end.

Definition batch_changes (b : change_batch) : list (Z * row) := zip (cb_markers b) (cb_rows b).

(** The texts that stand for a key and for a row tell the rows apart. *)
Definition distinguished (rows : list row) : Prop :=
  forall r r', r ∈ rows -> r' ∈ rows ->
    (key_string r keys = key_string r' keys -> row_key r = row_key r') /\
    (row_hash r columns = row_hash r' columns -> published r = published r').

(** ** Proof *)

Lemma apply_changes_app l k m m' :
  apply_changes m l = Some m' -> apply_changes m (l ++ k) = apply_changes m' k.
Proof.
  revert m. induction l as [|c l IH]; intros m; simpl; [by intros [= ->]|].
  destruct (apply_change m c) as [m1|]; [|done]. apply IH.
Qed.

Lemma apply_changes_cons m c l : apply_changes m (c :: l) = apply_change m c ≫= fun m' => apply_changes m' l.
Proof. done. Qed.

Lemma key_string_key r : key_string r keys = join "|" (map canon (row_key r)).
Proof. unfold row_key, key_string. by rewrite map_map. Qed.

Lemma keys_of_rows_distinct rows :
  NoDup (map (fun r => key_string r keys) rows) ->
  keys_of_rows rows columns keys = map (fun r => (key_string r keys, row_entry columns keys r)) rows.
Proof.
  unfold keys_of_rows. induction rows as [|r rows IH] using rev_ind; [done|].
  rewrite map_app. simpl. rewrite NoDup_app. intros (HN & Hf & _).
  rewrite foldl_app, IH by done. simpl. rewrite odict_set_fresh; [by rewrite map_app|].
  rewrite map_map. simpl. intros Hin. apply (Hf _ Hin). by apply list_elem_of_singleton.
Qed.

Lemma deleted_row_key r : NoDup keys ->
  row_key (deleted_row keys (map (fun k => cell_doc (cell_of r k)) keys)) = row_key r.
Proof.
  intros HN. unfold row_key.
  assert (Hl : forall l, NoDup l -> forall k, k ∈ l ->
    deleted_row l (map (fun k => cell_doc (cell_of r k)) l) !! k = Some (cell_of r k)).
  { intros l. induction l as [|c l IH]; intros Hl k Hk; [by apply not_elem_of_nil in Hk|].
    apply NoDup_cons in Hl as [Hc Hl]. simpl.
    assert (Hnone : forall l v, c ∉ l -> deleted_row l v !! c = None).
    { clear. intros l. induction l as [|x l IH]; intros v Hc; simpl; [by rewrite lookup_empty|].
      rewrite not_elem_of_cons in Hc. destruct Hc as [Hx Hc].
      destruct (deleted_row l (tl v) !! x); [by apply IH|]. rewrite lookup_insert_ne by done. by apply IH. }
    rewrite Hnone by done. apply elem_of_cons in Hk as [->|Hk].
    - rewrite lookup_insert_eq. by destruct (cell_of r c).
    - rewrite lookup_insert_ne by (intros ->; done). by apply IH. }
  apply map_ext_in. intros k Hk. apply list_elem_of_In in Hk. unfold cell_of at 1. by rewrite (Hl keys).
Qed.

(** *** One scan *)

Lemma append_changes b r mk i u d : length (cb_markers b) = length (cb_rows b) ->
  batch_changes (append b r mk i u d) = batch_changes b ++ [(mk, r)].
Proof. intros H. unfold batch_changes. simpl. by rewrite zip_with_app. Qed.

(** The changes the first loop adds, row by row. *)
Definition row_change (prev : members) (r : row) : list (Z * row) :=
  match odict_get (key_string r keys) prev with
  | Some (DObj old) => if doc_eqb (oget old "h") (DStr (row_hash r columns)) then [] else [(UPDATE, r)]
  | _ => [(INSERT, r)]
  end.
Definition entry_change (seen : list string) (entry : string * doc) : list (Z * row) :=
  if bool_decide (entry.1 ∈ seen) then []
  else match key_values entry.2 with Ok values => [(DELETE, deleted_row keys values)] | Err _ => [] end.

Definition entry_ok (e : string * doc) : Prop := (exists d, e.2 = DObj d) /\ is_Ok (key_values e.2).
Definition batch_ok (b : change_batch) : Prop :=
  length (cb_markers b) = length (cb_rows b) /\
  Z.of_nat (length (cb_rows b)) = cb_inserts b + cb_updates b + cb_deletes b.

Lemma append_ok b r mk i u d : batch_ok b -> i + u + d = 1 -> batch_ok (append b r mk i u d).
Proof. unfold batch_ok. simpl. rewrite !length_app. simpl. lia. Qed.

(** A step, and a loop, that adds changes to the batch. *)
Definition adds (b b' : change_batch) (l : list (Z * row)) : Prop :=
  batch_ok b' /\ batch_changes b' = batch_changes b ++ l /\ cb_new_state b' = cb_new_state b.

Lemma adds_append b r mk i u d : batch_ok b -> i + u + d = 1 -> adds b (append b r mk i u d) [(mk, r)].
Proof. intros Hb H. split; [by apply append_ok|]. split; [apply append_changes, Hb|done]. Qed.

Lemma adds_nil b : batch_ok b -> adds b b [].
Proof. intros Hb. split; [done|]. by rewrite app_nil_r. Qed.

Lemma loop_adds {A} (f : change_batch -> A -> res change_batch) (g : A -> list (Z * row)) (l : list A) :
  (forall b a, a ∈ l -> batch_ok b -> exists b', f b a = Ok b' /\ adds b b' (g a)) ->
  forall b, batch_ok b -> exists b', res_foldl f b l = Ok b' /\ adds b b' (concat (map g l)).
Proof.
  induction l as [|a l IH]; intros Hf b Hb; simpl; [exists b; split; [done|by apply adds_nil]|].
  destruct (Hf b a) as (b1 & -> & Hok1 & Hc1 & Hs1); [by left|done|]. simpl.
  destruct (IH (fun b a Ha => Hf b a (list_elem_of_further _ _ _ Ha)) b1 Hok1) as (b' & -> & Hok & Hc & Hs).
  exists b'. split; [done|]. split; [done|]. split; [by rewrite Hc, Hc1, app_assoc|congruence].
Qed.

Lemma change_row_adds prev b r : (forall e, e ∈ prev -> entry_ok e) -> batch_ok b ->
  exists b', change_row prev columns keys false b r = Ok b' /\ adds b b' (row_change prev r).
Proof.
  intros Hp Hb. unfold change_row, row_change.
  destruct (odict_get (key_string r keys) prev) as [v|] eqn:Hg; [|eexists; split; [done|by apply adds_append]].
  apply odict_get_In in Hg. destruct (Hp _ Hg) as [[d Hd] _]. simpl in Hd. subst v.
  destruct (doc_eqb (oget d "h") _); eexists; (split; [done|]); [by apply adds_nil|by apply adds_append].
Qed.

Lemma change_gone_adds seen b e : entry_ok e -> batch_ok b ->
  exists b', change_gone keys seen b e = Ok b' /\ adds b b' (entry_change seen e).
Proof.
  intros [_ [values Hv]] Hb. unfold change_gone, entry_change. rewrite Hv.
  case_bool_decide; eexists; (split; [done|]); [by apply adds_nil|by apply adds_append].
Qed.

Lemma compute_changes_loops prev rows : (forall e, e ∈ prev -> entry_ok e) ->
  exists b, compute_changes prev columns keys false rows = Ok b /\ batch_ok b /\
    batch_changes b = concat (map (row_change prev) rows) ++
                      concat (map (entry_change (map (fun r => key_string r keys) rows)) prev) /\
    cb_new_state b = build_state_from_rows rows columns keys.
Proof.
  intros Hp. unfold compute_changes.
  destruct (loop_adds (change_row prev columns keys false) (row_change prev) rows
              (fun b r _ => change_row_adds prev b r Hp)
              (ChangeBatch [] [] (build_state_from_rows rows columns keys) 0 0 0)) as (b1 & -> & H1 & Hc1 & Hs1); [done|].
  destruct (loop_adds (change_gone keys (map (fun r => key_string r keys) rows)) (entry_change (map (fun r => key_string r keys) rows))
              prev (fun b e He => change_gone_adds _ b e (Hp e He)) b1 H1) as (b & Hb & Hok & Hc & Hs).
  exists b. split; [exact Hb|]. split; [done|]. split; [by rewrite Hc, Hc1|by rewrite Hs, Hs1].
Qed.

(** *** Two scans *)

Section scans.
Context (old new : list row).
Hypothesis Hkeys : NoDup keys.
Hypothesis Hold : NoDup (map row_key old).
Hypothesis Hnew : NoDup (map row_key new).
Hypothesis Hdist : distinguished (old ++ new).

Lemma same_key r r' : r ∈ old ++ new -> r' ∈ old ++ new -> key_string r keys = key_string r' keys <-> row_key r = row_key r'.
Proof.
  intros Hr Hr'. split; [apply (Hdist r r' Hr Hr')|]. rewrite !key_string_key. by intros ->.
Qed.

Lemma key_strings_distinct rows : rows ⊆ old ++ new -> NoDup (map row_key rows) -> NoDup (map (fun r => key_string r keys) rows).
Proof.
  intros Hsub. induction rows as [|r rows IH]; simpl; [constructor|]. intros [Hr HN]%NoDup_cons. apply NoDup_cons. split.
  - intros (r' & Heq & Hin)%list_elem_of_fmap. apply Hr. apply list_elem_of_fmap. exists r'. split; [|done].
    apply same_key; [apply Hsub; by left|apply Hsub; by right|done].
  - apply IH; [|done]. intros x Hx. apply Hsub. by right.
Qed.

Let prev : members := keys_of_rows old columns keys.

Lemma prev_map : prev = map (fun r => (key_string r keys, row_entry columns keys r)) old.
Proof. apply keys_of_rows_distinct, key_strings_distinct; [|done]. intros x Hx. apply elem_of_app. by left. Qed.

Lemma scalars l : forallb scalar (map cell_doc l) = true.
Proof. induction l as [|[] l IH]; done. Qed.

Lemma row_entry_values r : key_values (row_entry columns keys r) = Ok (map (fun k => cell_doc (cell_of r k)) keys).
Proof. unfold key_values, row_entry. cbn. rewrite <- (map_map (cell_of r) cell_doc), scalars. done. Qed.

Lemma prev_ok e : e ∈ prev -> entry_ok e.
Proof.
  rewrite prev_map. intros (r & -> & _)%list_elem_of_fmap. split; [by eexists|]. eexists. apply row_entry_values.
Qed.

(** What the stored map and the mirror say of a scanned row. *)
Lemma prev_lookup r : r ∈ new ->
  match odict_get (key_string r keys) prev with
  | Some v => exists r0, v = row_entry columns keys r0 /\ contents old !! row_key r = Some (published r0) /\ r0 ∈ old
  | None => contents old !! row_key r = None
  end.
Proof.
  intros Hr. destruct (odict_get (key_string r keys) prev) as [v|] eqn:Hg.
  - apply odict_get_In in Hg. rewrite prev_map in Hg. apply list_elem_of_fmap in Hg as (r0 & [= Hk ->] & Hin).
    exists r0. split; [done|]. split; [|done]. unfold contents. apply elem_of_list_to_map; [by rewrite map_map|].
    apply list_elem_of_fmap. exists r0. split; [|done]. f_equal. apply same_key; [apply elem_of_app; by right|apply elem_of_app; by left|done].
  - unfold contents. apply not_elem_of_list_to_map. rewrite <- list_fmap_compose. intros (r0 & Hk & Hin)%list_elem_of_fmap. simpl in Hk.
    assert (Hg' : (key_string r0 keys, row_entry columns keys r0) ∈ prev).
    { rewrite prev_map. apply list_elem_of_fmap. by exists r0. }
    apply odict_get_elem in Hg'.
    + rewrite (proj2 (same_key r0 r (proj2 (elem_of_app _ _ _) (or_introl Hin)) (proj2 (elem_of_app _ _ _) (or_intror Hr)))) in Hg' by done.
      congruence.
    + rewrite prev_map, map_map. apply key_strings_distinct; [|done]. intros x Hx. apply elem_of_app. by left.
Qed.

Lemma row_change_known r r0 : odict_get (key_string r keys) prev = Some (row_entry columns keys r0) ->
  row_change prev r = if String.eqb (row_hash r0 columns) (row_hash r columns) then [] else [(UPDATE, r)].
Proof. unfold row_change. by intros ->. Qed.
Lemma row_change_new r : odict_get (key_string r keys) prev = None -> row_change prev r = [(INSERT, r)].
Proof. unfold row_change. by intros ->. Qed.

(** The first loop. *)
Lemma rows_applied rows m : rows ⊆ new -> NoDup (map row_key rows) ->
  (forall r, r ∈ rows -> m !! row_key r = contents old !! row_key r) ->
  apply_changes m (concat (map (row_change prev) rows)) = Some (contents rows ∪ m).
Proof.
  revert m. induction rows as [|r rows IH]; intros m Hsub HN Hm.
  { simpl. unfold contents. simpl. by rewrite (left_id_L ∅ (∪)). }
  assert (Hr : r ∈ new) by (apply Hsub; by left).
  assert (Hsub' : rows ⊆ new) by (intros x Hx; apply Hsub; by right).
  simpl in HN. apply NoDup_cons in HN as [Hfresh HN].
  assert (Hlook : forall r', r' ∈ rows -> row_key r <> row_key r').
  { intros r' Hr' Heq. apply Hfresh. rewrite Heq. by apply list_elem_of_fmap_2. }
  assert (Hset : forall mk m', apply_change m (mk, r) = Some m' -> m' = <[row_key r := published r]> m ->
    apply_changes m ([(mk, r)] ++ concat (map (row_change prev) rows)) = Some (contents (r :: rows) ∪ m)).
  { intros mk m' Ha ->. cbn [app]. rewrite apply_changes_cons, Ha. cbn [mbind option_bind]. rewrite IH; [|done|done|].
    - f_equal. rewrite <- insert_union_r; [apply insert_union_l|].
      apply not_elem_of_list_to_map. rewrite <- list_fmap_compose. intros (r' & Hk & Hin)%list_elem_of_fmap. by apply (Hlook r').
    - intros r' Hr'. rewrite lookup_insert_ne by auto. apply Hm. by right. }
  cbn [map concat]. pose proof (prev_lookup r Hr) as Hp.
  assert (Hmr : m !! row_key r = contents old !! row_key r) by (apply Hm; by left).
  destruct (odict_get (key_string r keys) prev) as [v|] eqn:Hg.
  - destruct Hp as (r0 & -> & Hc & Hin0). rewrite (row_change_known _ _ Hg). destruct (String.eqb_spec (row_hash r0 columns) (row_hash r columns)) as [Heq|_].
    + cbn [app]. rewrite IH; [|done|done|intros; apply Hm; by right]. f_equal.
      apply (Hdist r0 r) in Heq; [|apply elem_of_app; by left|apply elem_of_app; by right].
      apply map_eq. intros k. unfold contents. simpl. rewrite !lookup_union. destruct (decide (row_key r = k)) as [<-|Hne].
      * rewrite lookup_insert_eq, Hmr, Hc, Heq.
        rewrite not_elem_of_list_to_map_1; [done|]. rewrite <- list_fmap_compose. intros (r' & Hk & Hin)%list_elem_of_fmap. by apply (Hlook r').
      * by rewrite lookup_insert_ne.
    + eapply Hset; [|done]. unfold apply_change. simpl. rewrite bool_decide_true; [done|]. rewrite Hmr, Hc. eauto.
  - rewrite (row_change_new _ Hg). eapply Hset; [|done]. unfold apply_change. simpl. rewrite bool_decide_false; [done|]. rewrite Hmr, Hp. by intros [].
Qed.

(** The second loop. *)
Lemma gone_applied rows seen m : NoDup (map row_key rows) ->
  (forall r, r ∈ rows -> key_string r keys ∉ seen -> is_Some (m !! row_key r)) ->
  exists m', apply_changes m (concat (map (entry_change seen) (map (fun r => (key_string r keys, row_entry columns keys r)) rows))) = Some m' /\
    (forall r, r ∈ rows -> key_string r keys ∉ seen -> m' !! row_key r = None) /\
    (forall k, (forall r, r ∈ rows -> key_string r keys ∉ seen -> row_key r <> k) -> m' !! k = m !! k).
Proof.
  revert m. induction rows as [|r rows IH]; intros m HN Hm.
  { exists m. split; [done|]. split; [by intros r ?%not_elem_of_nil|done]. }
  simpl in HN. apply NoDup_cons in HN as [Hfresh HN]. cbn [map concat]. unfold entry_change at 1. cbn [fst snd].
  assert (Hne : forall r', r' ∈ rows -> row_key r' <> row_key r).
  { intros r' Hr' Heq. apply Hfresh. rewrite <- Heq. by apply list_elem_of_fmap_2. }
  rewrite row_entry_values. case_bool_decide as Hseen; cbn [app].
  - destruct (IH m HN) as (m' & Ha & Hin & Hout); [intros; apply Hm; [by right|done]|].
    exists m'. split; [done|]. split.
    + intros r' [->|Hr']%elem_of_cons Hns; [done|by apply Hin].
    + intros k Hk. apply Hout. intros r' Hr' Hns. apply Hk; [by right|done].
  - rewrite apply_changes_cons. unfold apply_change at 1.
    rewrite deleted_row_key by done. rewrite bool_decide_true by (apply Hm; [by left|done]). cbn [mbind option_bind Z.eqb INSERT UPDATE DELETE].
    destruct (IH (delete (row_key r) m) HN) as (m' & Ha & Hin & Hout).
    { intros r' Hr' Hns. rewrite lookup_delete_ne by (symmetry; by apply Hne). apply Hm; [by right|done]. }
    exists m'. split; [exact Ha|]. split.
    + intros r' [->|Hr']%elem_of_cons Hns; [|by apply Hin].
      rewrite Hout by auto. apply lookup_delete_eq.
    + intros k Hk. rewrite Hout by (intros r' Hr' Hns; apply Hk; [by right|done]).
      apply lookup_delete_ne. apply Hk; [by left|done].
Qed.

Lemma contents_lookup rows r : r ∈ rows -> NoDup (map row_key rows) -> contents rows !! row_key r = Some (published r).
Proof.
  intros Hr HN. apply elem_of_list_to_map; [by rewrite map_map|]. apply list_elem_of_fmap. by exists r.
Qed.
Lemma contents_absent rows k : contents rows !! k = None <-> forall r, r ∈ rows -> row_key r <> k.
Proof.
  unfold contents. rewrite <- not_elem_of_list_to_map, <- list_fmap_compose. split.
  - intros Hn r Hr Hk. apply Hn. apply list_elem_of_fmap. by exists r.
  - intros Hk (r & -> & Hr)%list_elem_of_fmap. by apply (Hk r).
Qed.

Lemma changes_applied b :
  batch_changes b = concat (map (row_change prev) new) ++ concat (map (entry_change (map (fun r => key_string r keys) new)) prev) ->
  apply_changes (contents old) (batch_changes b) = Some (contents new).
Proof.
  intros ->. erewrite apply_changes_app by (apply rows_applied; done). rewrite prev_map.
  set (seen := map (fun r => key_string r keys) new).
  assert (Hin_old : forall r, r ∈ old -> r ∈ old ++ new) by (intros; apply elem_of_app; by left).
  assert (Hin_new : forall r, r ∈ new -> r ∈ old ++ new) by (intros; apply elem_of_app; by right).
  assert (Hseen : forall r, r ∈ old -> key_string r keys ∈ seen <-> exists r', r' ∈ new /\ row_key r' = row_key r).
  { intros r Hr. unfold seen. rewrite list_elem_of_fmap. split; intros (r' & H1 & H2); exists r'.
    - split; [done|]. symmetry. apply same_key; auto.
    - split; [|done]. symmetry. apply same_key; auto. }
  destruct (gone_applied old seen (contents new ∪ contents old) Hold) as (m' & -> & Hin & Hout).
  { intros r Hr _. rewrite lookup_union, (contents_lookup old r Hr Hold). destruct (contents new !! row_key r); simpl; eauto. }
  f_equal. apply map_eq. intros k. destruct (contents new !! k) as [v|] eqn:Hk.
  - rewrite Hout; [by rewrite lookup_union, Hk; destruct (contents old !! k)|].
    intros r Hr Hns <-. apply Hns, Hseen; [done|].
    destruct (decide (Exists (fun r' => row_key r' = row_key r) new)) as [(r' & ? & ?)%Exists_exists|Hno]; [by exists r'|].
    assert (contents new !! row_key r = None) as Hnone; [|congruence]. apply contents_absent. intros r' Hr' Heq. apply Hno, Exists_exists. eauto.
  - destruct (contents old !! k) as [v|] eqn:Hko.
    + apply elem_of_list_to_map_2 in Hko. apply list_elem_of_fmap in Hko as (r & [= -> ->] & Hr).
      apply Hin; [done|]. rewrite Hseen by done. intros (r' & Hr' & Heq). by apply (proj1 (contents_absent new (row_key r)) Hk r').
    + rewrite Hout; [by rewrite lookup_union, Hk, Hko|]. intros r Hr _. by apply (proj1 (contents_absent old k) Hko).
Qed.

(** Nothing is published when the table has not changed. *)
Lemma row_hash_published r r' : published r = published r' -> row_hash r columns = row_hash r' columns.
Proof.
  assert (H : forall r, row_hash r columns = sha1_hex (join "|" (map canon (published r)))).
  { intros x. unfold row_hash, published. by rewrite map_map. }
  rewrite !H. by intros ->.
Qed.

Lemma row_unchanged r : contents old = contents new -> r ∈ new -> row_change prev r = [].
Proof.
  intros Heq Hin. pose proof (prev_lookup r Hin) as Hp. rewrite Heq, (contents_lookup new r Hin Hnew) in Hp.
  destruct (odict_get (key_string r keys) prev) as [v|] eqn:Hg; [|done].
  destruct Hp as (r0 & -> & [= Hc] & Hin0). rewrite (row_change_known _ _ Hg), (row_hash_published r r0) by done.
  by rewrite String.eqb_refl.
Qed.

Lemma entry_unchanged e : contents old = contents new -> e ∈ prev ->
  entry_change (map (fun r => key_string r keys) new) e = [].
Proof.
  rewrite prev_map. intros Heq (r & -> & Hr)%list_elem_of_fmap. unfold entry_change. cbn [fst snd].
  rewrite bool_decide_true; [done|]. pose proof (contents_lookup old r Hr Hold) as Hc.
  rewrite Heq in Hc. apply elem_of_list_to_map_2, list_elem_of_fmap in Hc as (r' & [= Hk _] & Hr').
  apply list_elem_of_fmap. exists r'. split; [|done]. by rewrite !key_string_key, Hk.
Qed.

Lemma concat_nil {A B} (f : A -> list B) l : (forall a, a ∈ l -> f a = []) -> concat (map f l) = [].
Proof.
  induction l as [|a l IH]; intros H; [done|]. cbn [map concat]. rewrite (H a) by (by left). apply IH. intros; apply H; by right.
Qed.

Lemma scan_published :
  exists b, compute_changes prev columns keys false new = Ok b /\
    apply_changes (contents old) (batch_changes b) = Some (contents new) /\
    ps_keys (cb_new_state b) = keys_of_rows new columns keys /\
    Z.of_nat (length (cb_rows b)) = cb_inserts b + cb_updates b + cb_deletes b /\
    (has_changes b = true <-> contents old <> contents new).
Proof.
  destruct (compute_changes_loops prev new prev_ok) as (b & Hb & [Hlen Hsum] & Hc & Hs).
  pose proof (changes_applied b Hc) as Ha. exists b. split; [done|]. split; [done|]. rewrite Hs. split; [done|]. split; [done|].
  unfold has_changes. rewrite negb_true_iff, bool_decide_eq_false. split; intros Hne Heq; apply Hne.
  - assert (Hz : batch_changes b = []).
    { rewrite Hc, (concat_nil (row_change prev)), (concat_nil (entry_change _)); [done| |]; intros; [by apply entry_unchanged|by apply row_unchanged]. }
    unfold batch_changes in Hz. destruct (cb_rows b), (cb_markers b); done.
  - unfold batch_changes in Ha. rewrite Heq, zip_with_nil_r in Ha. simpl in Ha. congruence.
Qed.
End scans.
End spec.

(** C17: the snapshot strategy.  From the row map stored after one scan of a table and the
    rows of the next scan, the change set is always computed; applied by key to a mirror
    that holds the earlier rows, an insert only meets absent keys, an update and a delete
    only present ones, and the mirror ends with exactly the new rows; the row map it
    leaves is that of the new rows, the counts add up to the rows published, and nothing
    is published exactly when the two scans agree.  The rows of a scan have distinct
    keys, and the stored texts of keys and rows tell the rows apart. *)
Theorem change_set_updates_mirror columns keys old new :
  NoDup keys -> NoDup (map (row_key keys) old) -> NoDup (map (row_key keys) new) ->
  distinguished columns keys (old ++ new) ->
  exists b, compute_changes (keys_of_rows old columns keys) columns keys false new = Ok b /\
    apply_changes columns keys (contents columns keys old) (batch_changes b) = Some (contents columns keys new) /\
    ps_keys (cb_new_state b) = keys_of_rows new columns keys /\
    Z.of_nat (length (cb_rows b)) = cb_inserts b + cb_updates b + cb_deletes b /\
    (has_changes b = true <-> contents columns keys old <> contents columns keys new).
Proof. apply scan_published. Qed.

(** ** Examples *)

Definition demo_columns : list column_def :=
  [ColumnDef 1 "id" "long" false None None None; ColumnDef 2 "name" "string" true None None None].
Definition demo_row (id : Z) (name : string) : row := {["id" := CInt id; "name" := CText name]}.

Lemma change_set_updates_mirror_witness :
  exists b, compute_changes (keys_of_rows [demo_row 1 "a"; demo_row 2 "b"] demo_columns ["id"]) demo_columns ["id"] false
              [demo_row 2 "c"; demo_row 3 "d"] = Ok b /\ has_changes b = true.
Proof.
  destruct (change_set_updates_mirror demo_columns ["id"] [demo_row 1 "a"; demo_row 2 "b"] [demo_row 2 "c"; demo_row 3 "d"])
    as (b & Hb & _ & _ & _ & Hc).
  - apply (bool_decide_unpack _). vm_compute. exact I.
  - apply (bool_decide_unpack _). vm_compute. exact I.
  - apply (bool_decide_unpack _). vm_compute. exact I.
  - intros r r' Hr Hr'. repeat (apply elem_of_cons in Hr as [->|Hr]); try by apply not_elem_of_nil in Hr.
    all: repeat (apply elem_of_cons in Hr' as [->|Hr']); try by apply not_elem_of_nil in Hr'.
    all: split; intros H; vm_compute in H |- *; congruence.
  - exists b. split; [exact Hb|]. apply Hc. intros H. apply (f_equal (lookup [CInt 1])) in H. vm_compute in H. congruence.
Defined.

(** The texts are joined by a bar that values may contain: two rows with different keys
    share one entry of the row map, and a change that moves a bar is not seen. *)
Definition pair_columns : list column_def :=
  [ColumnDef 1 "a" "string" false None None None; ColumnDef 2 "b" "string" false None None None].
Definition pair_row (a b : string) : row := {["a" := CText a; "b" := CText b]}.

Lemma row_map_merges_keys :
  pair_row "x|y" "z" <> pair_row "x" "y|z" /\
  length (keys_of_rows [pair_row "x|y" "z"; pair_row "x" "y|z"] pair_columns ["a"; "b"]) = 1%nat.
Proof.
  split; [|vm_compute; reflexivity]. intros H. apply (f_equal (lookup "a")) in H. vm_compute in H. congruence.
Qed.

Lemma moved_bar_unseen :
  let columns := pair_columns ++ [ColumnDef 3 "c" "string" false None None None] in
  let r := <["c" := CText "1|2"]> (pair_row "k" "0") in
  let r' := <["b" := CText "0|1"]> (<["c" := CText "2"]> (pair_row "k" "0")) in
  published columns r <> published columns r' /\
  (compute_changes (keys_of_rows [r] columns ["a"]) columns ["a"] false [r'] ≫= fun b => Ok (has_changes b)) = Ok false.
Proof. split; [vm_compute; congruence|vm_compute; reflexivity]. Qed.
