(* ===== verification/LandingProps.v ===== *)
(** * Open mirroring: names in the landing zone

    Paths below the root, the numbered names of data files, and that the next number
    is fresh. *)

From S2P Require Import Prelude PyText Numerals Json ArtifactStore Sources Docs MirrorState Landing.
From Stdlib Require Import Ascii.

(** ** Numbered names *)

Lemma str_forallb_mono (f g : ascii -> bool) s : (forall a, f a = true -> g a = true) -> str_forallb f s = true -> str_forallb g s = true.
Proof. intros H. induction s as [|a s IH]; [done|]. cbn. rewrite !andb_true_iff. intros [Ha Hs]. auto. Qed.

Lemma rpartition_digits d e : str_forallb is_digit d = true -> rpartition_dot e = None ->
  rpartition_dot (d +:+ String "." e) = Some (d, e).
Proof.
  intros Hd He. induction d as [|a d IH].
  - change ("" +:+ String "." e) with (String "." e). cbn [rpartition_dot]. by rewrite He.
  - cbn in Hd. apply andb_true_iff in Hd as [_ Hd]. rewrite app_cons_s. cbn [rpartition_dot]. by rewrite IH.
Qed.

Lemma numbered_name n : format_file_name n = Ok (pad20 n +:+ ".parquet") -> 0 < n.
Proof. unfold format_file_name. destruct (Z.ltb_spec n 1); [done|lia]. Qed.

Lemma file_index_roundtrip n name : format_file_name n = Ok name -> parse_file_index name = Some n.
Proof.
  unfold format_file_name. destruct (Z.ltb_spec n 1) as [|Hn]; [done|]. destruct (_ <=? n); [done|]. intros [= <-].
  assert (0 < n) as Hp by lia. destruct (pad20_nonempty n Hp) as (a & s & Hs). pose proof (pad20_digits n Hp) as Hd.
  assert (Hstrip : strip (pad20 n +:+ ".parquet") = pad20 n +:+ ".parquet").
  { apply strip_unspaced. unfold unspaced. rewrite str_forallb_app.
    rewrite (str_forallb_mono is_digit _ (pad20 n)); [done| |done]. intros x (_ & _ & _ & _ & ->)%digit_chars. done. }
  unfold parse_file_index. rewrite Hstrip, rpartition_digits by done.
  assert (truthy_str (pad20 n +:+ ".parquet") = true) as -> by (rewrite Hs; done).
  assert (startswith (pad20 n +:+ ".parquet") "_" = false) as ->.
  { rewrite Hs in *. cbn in Hd. apply andb_true_iff in Hd as [(_ & Ha & _)%digit_chars _].
    destruct (startswith _ "_") eqn:Hst; [|done]. apply startswith_inv in Hst as [t Ht]. by injection Ht as -> _. }
  cbn [negb orb]. assert (truthy_str (pad20 n) = true) as Ht by (rewrite Hs; done).
  unfold all_decimal. rewrite Ht. cbn [truthy_str andb negb].
  change (str_forallb (fun a => bool_decide (is_Some (digit_value a))) (pad20 n)) with (str_forallb is_digit (pad20 n)).
  rewrite Hd. cbn. by apply pad20_value.
Qed.

Lemma next_file_index_above names : 0 < next_file_index names /\
  forall name idx, name ∈ names -> parse_file_index name = Some idx -> idx < next_file_index names.
Proof.
  unfold next_file_index. set (f := fun _ _ => _).
  assert (H : forall names h, h <= foldl f h names /\
    forall name idx, name ∈ names -> parse_file_index name = Some idx -> idx <= foldl f h names).
  { clear names. intros names. induction names as [|n names IH]; intros h; cbn [foldl].
    - split; [lia|]. by intros name idx ?%not_elem_of_nil.
    - destruct (IH (f h n)) as [Hle Hin]. assert (h <= f h n).
      { unfold f. destruct (parse_file_index n); [|lia]. destruct (Z.ltb_spec h z); lia. }
      split; [lia|]. intros name idx [->|Hn]%elem_of_cons Hp; [|by apply (Hin name)].
      assert (idx <= f h n); [|lia]. unfold f. rewrite Hp. destruct (Z.ltb_spec h idx); lia. }
  destruct (H names 0) as [H0 Hin]. split; [lia|]. intros name idx Hn Hp. specialize (Hin name idx Hn Hp). lia.
Qed.

(** ** Paths *)

(** [a // b]: a name below a directory, where the root is the empty path *)
Definition below_dir (dir name : string) : string := if truthy_str dir then fmt [dir; "/"; name] else name.

(** A name that is one segment. *)
Definition one_segment (name : string) : Prop :=
  keep_segment name /\ name <> ".." /\ str_forallb (fun a => negb (Ascii.eqb a slash)) name = true /\
  replace_char backslash slash name = name.

Lemma join_snoc c l (x : string) : join (String c "") (l ++ [x]) = if truthy_str (join (String c "") l) || negb (bool_decide (l = []))
  then join (String c "") l +:+ String c x else x.
Proof.
  induction l as [|y l IH]; [done|]. rewrite orb_true_r.
  destruct (decide (l = [])) as [->|Hl]; [done|]. cbn [app]. rewrite !join_cons by (try done; by destruct l).
  rewrite IH, bool_decide_false, orb_true_r by done. by rewrite app_assoc_s, app_cons_s.
Qed.

Lemma zone_path_dir dir name z : one_segment name -> zone_path (fmt [dir; "/"; name]) = Ok z ->
  exists pd, zone_path dir = Ok pd /\ z = below_dir pd name.
Proof.
  intros (Hk & Hd & Hf & Hb). unfold zone_path.
  change (fmt [dir; "/"; name]) with (dir +:+ "" +:+ String "/" ("" +:+ name)).
  change ("" +:+ String "/" ("" +:+ name)) with (String "/" name).
  rewrite replace_char_app. change (replace_char backslash slash (String "/" name)) with (String slash (replace_char backslash slash name)).
  rewrite Hb, split_on_app, (split_on_single _ name), filter_app, filter_cons_True by done. cbn [filter].
  set (l := filter keep_segment _). case_bool_decide as Hin; [done|]. intros [= <-].
  rewrite elem_of_app in Hin. rewrite bool_decide_false by tauto. exists (join "/" l). split; [done|].
  rewrite filter_nil, (join_snoc "/"). unfold below_dir. destruct (truthy_str (join "/" l)) eqn:Ht; [done|].
  case_bool_decide as Hl; [by rewrite Hl|]. exfalso. destruct l as [|x l'] eqn:El; [done|].
  assert (x <> "") as Hx.
  { assert (x ∈ l) as Hx by (rewrite El; by left). unfold l in Hx. by apply list_elem_of_filter in Hx as [[? _] _]. }
  destruct x as [|a x]; [done|]. destruct l'; done.
Qed.

Lemma zone_path_ok dir pd name : zone_path dir = Ok pd -> one_segment name -> exists z, zone_path (fmt [dir; "/"; name]) = Ok z.
Proof.
  unfold zone_path. case_bool_decide as Hin; [done|]. intros _ (Hk & Hd & Hf & Hb).
  change (fmt [dir; "/"; name]) with (dir +:+ "" +:+ String "/" ("" +:+ name)).
  change ("" +:+ String "/" ("" +:+ name)) with (String "/" name).
  rewrite replace_char_app. change (replace_char backslash slash (String "/" name)) with (String slash (replace_char backslash slash name)).
  rewrite Hb, split_on_app, (split_on_single _ name), filter_app, filter_cons_True, filter_nil by done.
  rewrite bool_decide_false; [by eexists|]. rewrite elem_of_app, list_elem_of_singleton. intros [|]; [done|congruence].
Qed.

Lemma child_name_below dir name : str_forallb (fun a => negb (Ascii.eqb a slash)) name = true ->
  child_name dir (below_dir dir name) = Some name.
Proof.
  intros Hf. unfold child_name, below_dir. destruct (truthy_str dir).
  - change (fmt [dir; "/"; name]) with (dir +:+ "" +:+ "/" +:+ "" +:+ name).
    assert (dir +:+ "" +:+ "/" +:+ "" +:+ name = (dir +:+ "/") +:+ name) as -> by (by rewrite app_assoc_s).
    rewrite startswith_app, str_drop_app, split_on_single by done. done.
  - assert (startswith name "" = true) as -> by (destruct name; done).
    cbn [String.length]. assert (str_drop 0 name = name) as -> by (by destruct name). by rewrite split_on_single.
Qed.

Lemma dir_names_below (z : zone) dir name : is_Some (z !! below_dir dir name) ->
  str_forallb (fun a => negb (Ascii.eqb a slash)) name = true -> name ∈ dir_names z dir.
Proof.
  intros [c Hc] Hf. unfold dir_names, sorted_set. rewrite merge_sort_Permutation, elem_of_remove_dups.
  apply list_elem_of_omap. exists (below_dir dir name, c). split; [by apply elem_of_map_to_list|].
  by apply child_name_below.
Qed.

(** The last character tells data files from other files. *)
Fixpoint last_char (s : string) : option ascii :=
  match s with
  | EmptyString => None
  | String a s' => match last_char s' with Some c => Some c | None => Some a end
  end.
Lemma last_char_app a b : b <> "" -> last_char (a +:+ b) = last_char b.
Proof.
  intros Hb. induction a as [|x a IH]; [done|]. rewrite app_cons_s. cbn [last_char]. rewrite IH.
  destruct b as [|y b]; [done|]. cbn [last_char]. by destruct (last_char b).
Qed.

Definition data_file (path : string) : Prop := last_char path = Some "t"%char.
#[global] Instance data_file_dec path : Decision (data_file path).
Proof. unfold data_file. apply _. Defined.

Lemma tmp_not_data path : ~ data_file (tmp path).
Proof. unfold data_file, tmp. by rewrite last_char_app. Qed.
Lemma tmp_ne path : tmp path <> path.
Proof.
  intros H. apply (f_equal String.length) in H. unfold tmp in H. rewrite length_app_s in H. cbn in H. lia.
Qed.

Lemma below_dir_last dir name : name <> "" -> last_char (below_dir dir name) = last_char name.
Proof.
  intros Hn. unfold below_dir. destruct (truthy_str dir); [|done].
  change (fmt [dir; "/"; name]) with (dir +:+ "" +:+ "/" +:+ "" +:+ name).
  assert (dir +:+ "" +:+ "/" +:+ "" +:+ name = (dir +:+ "/") +:+ name) as -> by (by rewrite app_assoc_s).
  by apply last_char_app.
Qed.

Lemma numbered_segment n : 0 < n -> one_segment (pad20 n +:+ ".parquet").
Proof.
  intros Hn. destruct (pad20_nonempty n Hn) as (a & s & Hs). pose proof (pad20_digits n Hn) as Hd.
  assert (Hfree : forall c, c ∈ [slash; backslash] -> str_forallb (fun a => negb (Ascii.eqb a c)) (pad20 n) = true).
  { intros c Hc. revert Hd. apply str_forallb_mono. intros x (_ & _ & H1 & H2 & _)%digit_chars.
    apply negb_true_iff, Ascii.eqb_neq. rewrite !elem_of_cons in Hc. destruct Hc as [->|[->|Hc]]; [done|done|by apply not_elem_of_nil in Hc]. }
  assert (Hrep : forall s, str_forallb (fun a => negb (Ascii.eqb a backslash)) s = true -> replace_char backslash slash s = s).
  { clear. intros s. induction s as [|a s IH]; [done|]. unfold replace_char in *. cbn. rewrite andb_true_iff, negb_true_iff.
    intros [-> Hs]. by rewrite IH. }
  split_and!.
  - split; intros H; apply (f_equal last_char) in H; rewrite last_char_app in H by done; discriminate H.
  - intros H; apply (f_equal last_char) in H; rewrite last_char_app in H by done; discriminate H.
  - rewrite str_forallb_app, Hfree by left. done.
  - rewrite replace_char_app, Hrep; [done|]. apply Hfree. right. left.
Qed.

(** The next numbered file of a directory is new, and is a data file. *)
Lemma reserved_fresh (zn : zone) dir pd name z :
  zone_path dir = Ok pd -> format_file_name (next_file_index (dir_names zn pd)) = Ok name ->
  zone_path (fmt [dir; "/"; name]) = Ok z -> zn !! z = None /\ data_file z.
Proof.
  intros Hpd Hname Hz. set (n := next_file_index _) in Hname.
  assert (name = pad20 n +:+ ".parquet") as ->.
  { unfold format_file_name in Hname. destruct (_ <? 1); [done|]. destruct (_ <=? _); [done|]. by injection Hname as <-. }
  pose proof (numbered_name n Hname) as Hn. pose proof (numbered_segment n Hn) as Hseg.
  destruct (zone_path_dir _ _ _ Hseg Hz) as (pd' & Hpd' & ->). rewrite Hpd in Hpd'. injection Hpd' as <-. split.
  - destruct (zn !! below_dir pd (pad20 n +:+ ".parquet")) as [c|] eqn:Hc; [|done]. exfalso.
    assert (pad20 n +:+ ".parquet" ∈ dir_names zn pd) as Hin by (apply dir_names_below; [eauto|apply Hseg]).
    destruct (next_file_index_above (dir_names zn pd)) as [_ Hlt]. apply (Hlt _ n) in Hin; [|by apply file_index_roundtrip].
    unfold n in Hin. lia.
  - unfold data_file. rewrite below_dir_last by apply Hseg. by rewrite last_char_app.
Qed.

(** Numbered data files.  The name of a data file parses back to its number; the next
    number is above that of every file of the folder, so the reserved path is not
    taken, whatever other entries the folder has. *)
Theorem data_file_numbers_fresh (zn : zone) dir pd name z :
  zone_path dir = Ok pd -> format_file_name (next_file_index (dir_names zn pd)) = Ok name ->
  zone_path (fmt [dir; "/"; name]) = Ok z ->
  parse_file_index name = Some (next_file_index (dir_names zn pd)) /\
  (forall other i, other ∈ dir_names zn pd -> parse_file_index other = Some i -> i < next_file_index (dir_names zn pd)) /\
  zn !! z = None.
Proof.
  intros Hpd Hname Hz. split; [by apply file_index_roundtrip|]. split; [apply next_file_index_above|].
  by apply (reserved_fresh zn dir pd name).
Qed.

Lemma data_file_numbers_fresh_witness :
  let zn : zone := {["dbo.schema/sales/00000000000000000009.parquet" := ZData "x"; "dbo.schema/sales/_metadata.json" := ZJson JNull]} in
  zn !! "dbo.schema/sales/00000000000000000010.parquet" = None.
Proof.
  intros zn. apply (data_file_numbers_fresh zn "dbo.schema/sales" "dbo.schema/sales" "00000000000000000010.parquet").
  - vm_compute. reflexivity.
  - vm_compute. reflexivity.
  - vm_compute. reflexivity.
Defined.
