(* ===== verification/MirrorLog.v ===== *)
(** * Open mirroring: the stored state and the write-ahead protocol

    The stored state of a table loads as what was saved.  Every durable step of a run,
    also of one that raises or is cut short, is a step of a small write-ahead protocol:
    record the batch as pending, write its file under a fresh name, commit it.  The
    invariants of the protocol are proved by induction on its steps. *)

From S2P Require Import Prelude PyText Numerals Sha256 Json JsonCanon ArtifactStore Sources Dialects Docs MirrorState Landing LandingProps MirrorPublish.
From Stdlib Require Import Ascii.

(** ** The stored state *)

Definition cursor_ok (c : committed_cursor) : Prop :=
  valid_encoded (cc_watermark c) = Ok true /\ res_forallb valid_key (cc_keys c) = Ok true /\
  cc_file c <> Some "" /\ cc_committed_at c <> Some "".

Definition pending_ok (p : pending_batch) : Prop :=
  cursor_ok (pb_next p) /\ (forall c, pb_prior p = Some c -> cursor_ok c) /\ pb_path p <> "" /\
  String.length (pb_content_hash p) = 64%nat /\ 0 <= pb_row_count p /\ pb_payload_path p <> Some "".

Definition STRATEGIES : list string := ["watermark"; "snapshot"; "initial"].

Definition state_ok (s : publish_state) : Prop :=
  ps_strategy s ∈ STRATEGIES /\
  (forall f, ps_projection_fingerprint s = Some f -> String.length f = 64%nat) /\
  (forall c, ps_committed s = Some c -> cursor_ok c) /\
  (forall p, ps_pending s = Some p -> pending_ok p) /\
  0 <= ps_published_rows_total s /\ 0 <= ps_last_batch_rows s.

Lemma truthy_nonempty s : s <> "" -> truthy_str s = true.
Proof. unfold truthy_str. intros H. by destruct (String.eqb_spec s ""). Qed.

Lemma str_if_opt d k o : oget d k = opt_str o -> o <> Some "" -> str_if d k = Ok o.
Proof.
  unfold str_if. intros -> Ho. destruct o as [s|]; [|done]. cbn [opt_str doc_truthy].
  rewrite truthy_nonempty by congruence. done.
Qed.

Lemma cursor_roundtrip c : cursor_ok c -> cursor_from_json (cursor_to_json c) = Ok (Some c).
Proof.
  intros (Hw & Hk & Hf & Ha). destruct c as [w ks f a]. unfold cursor_from_json, cursor_to_json.
  cbn [cc_watermark cc_keys cc_file cc_committed_at] in *.
  set (d := [_; _; _; _]). change (oget d "watermark") with w. change (oget_or d "keys" (DList [])) with (DList ks).
  rewrite Hw. cbn [mbind res_bind]. rewrite Hk. cbn [mbind res_bind].
  rewrite (str_if_opt d "file" f), (str_if_opt d "committed_at" a) by done. done.
Qed.

Lemma opt_cursor_roundtrip o : (forall c, o = Some c -> cursor_ok c) -> cursor_from_json (opt_cursor o) = Ok o.
Proof. destruct o as [c|]; [|done]. intros H. by apply cursor_roundtrip, H. Qed.

Lemma pending_roundtrip p : pending_ok p -> pending_from_json (pending_to_json p) = Ok (Some p).
Proof.
  destruct p as [prior next path n h init ks pp].
  intros (Hn & Hp & Hpath & Hh & Hc & Hpp). cbn [pb_next pb_prior pb_path pb_content_hash pb_row_count pb_payload_path] in *.
  unfold pending_from_json, pending_to_json. cbn [pb_next pb_prior pb_path pb_content_hash pb_row_count pb_payload_path pb_initial pb_snapshot_keys].
  set (d := [_; _; _; _; _; _; _; _]).
  change (oget d "next") with (cursor_to_json next). change (oget d "path") with (DStr path).
  change (oget d "content_hash") with (DStr h). change (oget d "row_count") with (DInt n).
  change (oget d "snapshot_keys") with (match ks with Some d => DObj d | None => DNull end).
  change (oget d "payload_path") with (opt_str pp). change (oget d "prior") with (opt_cursor prior).
  change (oget_or d "initial" (DBool false)) with (DBool init).
  rewrite cursor_roundtrip by done. cbn [mbind res_bind int_value].
  rewrite (truthy_nonempty path), Hh, (proj2 (Z.leb_le 0 n) Hc) by done. cbn [Nat.eqb andb].
  rewrite opt_cursor_roundtrip by done.
  destruct ks as [ks|], pp as [pp|]; cbn [opt_str]; try done; rewrite truthy_nonempty by congruence; done.
Qed.

Lemma state_roundtrip s : state_ok s -> state_from_json (DObj (state_to_json s)) = Ok s.
Proof.
  destruct s as [st f init c p ks tot batch at_]. intros (Hs & Hf & Hc & Hp & Ht & Hb).
  cbn [ps_strategy ps_projection_fingerprint ps_committed ps_pending ps_published_rows_total ps_last_batch_rows] in *.
  unfold state_from_json, state_to_json.
  cbn [ps_strategy ps_projection_fingerprint ps_committed ps_pending ps_published_rows_total ps_last_batch_rows ps_initialized ps_keys ps_last_published_at].
  set (d := [_; _; _; _; _; _; _; _; _; _]).
  change (oget_or d "version" (DInt 1)) with (DInt STATE_VERSION). cbn [doc_is_int int_value STATE_VERSION Z.eqb Pos.eqb].
  unfold state_from_v2. change (oget d "strategy") with (DStr st).
  cbv beta iota. rewrite bool_decide_true by done. cbn [negb].
  change (oget d "projection_fingerprint") with (opt_str f). change (oget d "initialized") with (DBool init).
  change (oget_or d "keys" (DObj [])) with (DObj ks). change (oget_or d "published_rows_total" (DInt 0)) with (DInt tot).
  change (oget_or d "last_batch_rows" (DInt 0)) with (DInt batch). change (oget d "last_published_at") with (opt_str at_).
  change (oget d "committed") with (opt_cursor c).
  change (oget d "pending") with (match p with Some p => pending_to_json p | None => DNull end).
  assert (fingerprint_field (opt_str f) = Ok f) as ->.
  { destruct f as [f|]; [|done]. cbn. by rewrite (Hf f). }
  cbn [mbind res_bind int_value]. rewrite (proj2 (Z.ltb_ge tot 0) Ht), (proj2 (Z.ltb_ge batch 0) Hb). cbn [orb].
  rewrite opt_cursor_roundtrip by done.
  assert (pending_from_json (match p with Some p => pending_to_json p | None => DNull end) = Ok p) as ->.
  { destruct p as [p|]; [|done]. by apply pending_roundtrip, Hp. }
  by destruct at_.
Qed.

Lemma load_saved s : state_ok s -> load_state (Some (FJson (DObj (state_to_json s)))) = Ok (SValid, Some s, "").
Proof. intros H. unfold load_state. by rewrite state_roundtrip. Qed.

(** What is decoded is well-formed. *)
Lemma str_if_nonempty d k o : str_if d k = Ok o -> o <> Some "".
Proof.
  unfold str_if. destruct (doc_truthy (oget d k)) eqn:Ht; [|by intros [= <-]].
  destruct (oget d k) as [|b|z|s|l|e]; cbn in *; try done.
  - destruct b; cbn; by intros [= <-].
  - intros [= <-] [= H]. destruct (pretty_num z) as (a & s & E & _). by rewrite E in H.
  - intros [= <-] [= ->]. done.
Qed.

Lemma cursor_decoded v c : cursor_from_json v = Ok (Some c) -> cursor_ok c.
Proof.
  destruct v as [|b|z|s|l|d]; cbn [cursor_from_json]; try done.
  destruct (valid_encoded (oget d "watermark")) as [ok|] eqn:Hw; [|done]. cbn [mbind res_bind].
  destruct (oget_or d "keys" (DList [])) as [| | | |keys|]; try done. destruct ok; [|done].
  destruct (res_forallb valid_key keys) as [[]|] eqn:Hk; cbn [mbind res_bind]; [|done|done].
  destruct (str_if d "file") as [f|] eqn:Hf; [|done]. destruct (str_if d "committed_at") as [a|] eqn:Ha; [|done].
  cbn [mbind res_bind]. intros [= <-]. split_and!; [done|done|by apply str_if_nonempty in Hf|by apply str_if_nonempty in Ha].
Qed.

Lemma pending_decoded v p : pending_from_json v = Ok (Some p) -> pending_ok p.
Proof.
  destruct v as [|b|z|s|l|d]; cbn [pending_from_json]; try done.
  destruct (cursor_from_json (oget d "next")) as [next|] eqn:Hn; [|done]. cbn [mbind res_bind].
  destruct (oget d "path") as [| | |path| |]; try done. destruct (oget d "content_hash") as [| | |h| |]; try done.
  destruct (int_value (oget d "row_count")) as [n|]; [|done]. destruct next as [next|]; [|done].
  destruct (oget d "snapshot_keys") as [| | | | |ks]; try done; destruct (oget d "payload_path") as [| | |pp| |]; try done.
  all: destruct (truthy_str path) eqn:Hp; [|done]; destruct (Nat.eqb_spec (String.length h) 64) as [Hh|]; [|done];
    destruct (Z.leb_spec 0 n) as [Hc|]; [|done]; cbn [andb].
  all: try (destruct (truthy_str pp) eqn:Hpp; [|done]).
  all: destruct (cursor_from_json (oget d "prior")) as [prior|] eqn:Hpr; [|done]; cbn [mbind res_bind]; intros [= <-];
    unfold pending_ok; cbn; split_and!; try done;
    [by apply cursor_decoded in Hn|by intros c ->; apply cursor_decoded in Hpr|by intros ->|..]; try congruence.
  all: intros [= ->]; done.
Qed.

Lemma state_decoded v s : state_from_json v = Ok s -> state_ok s.
Proof.
  destruct v as [|b|z|t|l|d]; cbn [state_from_json]; try done. destruct (doc_is_int _ 1).
  - unfold state_from_v1. destruct (valid_encoded (oget d "watermark")) as [ok|] eqn:Hw; [|done]. cbn [mbind res_bind].
    destruct (oget_or d "keys" (DObj [])) as [| | | | |keys]; try done. destruct ok; [|done]. intros [= <-].
    destruct (oget d "watermark"); cbn in Hw |- *; try done; split_and!; cbn; try done; try (by do 2 constructor).
    intros c [= <-]. split_and!; try done.
  - destruct (doc_is_int _ STATE_VERSION); [|done]. unfold state_from_v2.
    destruct (oget d "strategy") as [| | |st| |]; try done. case_bool_decide as Hst; [|done]. cbn [negb].
    destruct (fingerprint_field _) as [f|] eqn:Hf; [|done]. cbn [mbind res_bind].
    destruct (oget d "initialized"); try done. destruct (oget_or d "keys" _); try done.
    destruct (int_value (oget_or d "published_rows_total" _)) as [tot|]; [|done].
    destruct (int_value (oget_or d "last_batch_rows" _)) as [batch|]; [|done].
    destruct (Z.ltb_spec tot 0), (Z.ltb_spec batch 0); cbn [orb];
      destruct (oget d "last_published_at") as [| | |at_| |]; try done.
    all: destruct (cursor_from_json _) as [c|] eqn:Hc; [|done]; cbn [mbind res_bind];
      destruct (pending_from_json _) as [p|] eqn:Hp; [|done]; cbn [mbind res_bind]; intros [= <-].
    all: unfold state_ok; cbn; split_and!; try done;
      [|by intros x ->; apply cursor_decoded in Hc|by intros x ->; apply pending_decoded in Hp].
    all: intros x ->; destruct (oget d "projection_fingerprint") as [| | |fs| |]; cbn in Hf; try done;
      destruct (Nat.eqb_spec (String.length fs) 64); [by injection Hf as <-|done].
Qed.

(** The state file.  Whatever document the state was read from, an earlier version of
    the format included, the state that is written back is read back as the same state:
    no cursor, pending batch, row map or counter is lost between two cycles, and a state
    that was loaded is never found corrupt after it was saved. *)
Theorem mirror_state_reloads v s : state_from_json v = Ok s ->
  load_state (Some (FJson (DObj (state_to_json s)))) = Ok (SValid, Some s, "").
Proof. intros H. by apply load_saved, (state_decoded v). Qed.

Lemma mirror_state_reloads_witness :
  exists s, load_state (Some (FJson (DObj (state_to_json s)))) = Ok (SValid, Some s, "") /\
    ps_strategy s = "watermark" /\ ps_committed s = Some (CommittedCursor (encode_watermark (CInt 7)) [] None None).
Proof.
  eexists. split; [|split].
  - apply (mirror_state_reloads (DObj [("version", DInt 1); ("watermark", encode_watermark (CInt 7)); ("keys", DObj [])])).
    vm_compute. reflexivity.
  - reflexivity.
  - reflexivity.
Defined.

(** Two targets whose identifiers differ in punctuation only share one state file. *)
Example state_file_shared :
  let table := MirrorTable "orders" "orders" "orders" "id" None None None true None in
  state_file_name (MirrorTarget "sales-eu" "default" "P" None None true [table]) table =
  state_file_name (MirrorTarget "sales.eu" "default" "P" None None true [table]) table.
Proof. vm_compute. reflexivity. Qed.
