(* ===== verification/MirrorProtocol.v ===== *)
(** * Open mirroring: the write-ahead protocol

    Every durable step of [publish_table], also of a run that raises or is cut short,
    is a step of a small protocol: record the batch as pending, write its file under a
    fresh name, commit it. *)

From S2P Require Import Prelude PyText Numerals Sha256 Json ArtifactStore Sources Dialects Docs MirrorState Landing LandingProps MirrorPublish MirrorLog.
From Stdlib Require Import Ascii.

Lemma wp_disk {A} (f : disk -> A) (Q : res A -> mworld -> Prop) w : Q (Ok (f (mw_disk w))) w -> wp (disk_ f) Q w.
Proof. done. Qed.

Section protocol.
Context `{HEnv : MirrorEnv} `{HParquet : Parquet} (target : mirror_target) (table : mirror_table).
Hypothesis now_given : forall n, now_text n <> "".

(** ** The protocol *)

(** The state the file of the table holds, if it holds one. *)
Definition stored (d : disk) : option publish_state :=
  match dk_files d !! state_path target table with
  | Some (FJson v) => match state_from_json v with Ok s => Some s | Err _ => None end
  | _ => None
  end.

(** What a run may hold in memory when the file holds [o]: the same pending batch, and
    the committed cursor or, for a new initial load, none. *)
Definition derived (o : option publish_state) (s : publish_state) : Prop :=
  state_ok s /\ ps_pending s = o ≫= ps_pending /\ (ps_committed s = None \/ ps_committed s = o ≫= ps_committed).

(** The data files and the stored state are the same. *)
Definition same_view (d d' : disk) : Prop :=
  stored d' = stored d /\ forall z, data_file z -> dk_zone d' !! z = dk_zone d !! z.

Definition expected_payload (p : pending_batch) : Prop :=
  pb_payload_path p = None \/ pb_payload_path p = Some (pending_payload_path target table).

Inductive mirror_step (d d' : disk) : Prop :=
| step_aside : same_view d d' -> mirror_step d d'
| step_record s p z :
    derived (stored d) s -> ps_pending s = None ->
    expected_payload p -> zone_path (pb_path p) = Ok z -> data_file z -> dk_zone d !! z = None ->
    stored d' = Some (with_pending (Some p) s) -> dk_zone d' = dk_zone d -> mirror_step d d'
| step_land s p z payload :
    stored d = Some s -> ps_pending s = Some p -> zone_path (pb_path p) = Ok z -> dk_zone d !! z = None ->
    sha256_hex payload = pb_content_hash p ->
    stored d' = stored d -> dk_zone d' !! z = Some (ZData payload) ->
    (forall z', data_file z' -> z' <> z -> dk_zone d' !! z' = dk_zone d !! z') -> mirror_step d d'
| step_commit s p z now :
    derived (stored d) s -> ps_pending s = Some p -> zone_path (pb_path p) = Ok z -> path_exists (dk_zone d) z = true ->
    stored d' = Some (finalized s p now) -> dk_zone d' = dk_zone d -> mirror_step d d'
| step_settle s :
    derived (stored d) s -> stored d' = Some s -> dk_zone d' = dk_zone d -> mirror_step d d'.

(** A pending batch has a data file for a path and the usual side file. *)
Definition disk_ok (d : disk) : Prop :=
  forall s p, stored d = Some s -> ps_pending s = Some p ->
    expected_payload p /\ exists z, zone_path (pb_path p) = Ok z /\ data_file z.

Lemma derived_stored d s p : derived (stored d) s -> ps_pending s = Some p ->
  exists s0, stored d = Some s0 /\ ps_pending s0 = Some p.
Proof. intros (_ & Hp & _) Hs. rewrite Hs in Hp. destruct (stored d) as [s0|]; [|done]. exists s0. split; [done|]. by symmetry. Qed.

Lemma step_disk_ok d d' : mirror_step d d' -> disk_ok d -> disk_ok d'.
Proof.
  intros H Hd s' p' Hs' Hp'. destruct H as [[Hs _]|s p z _ _ He Hz Hdz _ Hs _|s p z payload _ _ _ _ _ Hs _ _|s p z now _ _ _ _ Hs _|s Hder Hs _].
  - rewrite Hs in Hs'. by apply (Hd s').
  - rewrite Hs in Hs'. injection Hs' as <-. cbn in Hp'. injection Hp' as <-. eauto.
  - rewrite Hs in Hs'. by apply (Hd s').
  - rewrite Hs in Hs'. injection Hs' as <-. done.
  - rewrite Hs in Hs'. injection Hs' as <-. destruct (derived_stored _ _ _ Hder Hp') as (s0 & H0 & Hp0). by apply (Hd s0).
Qed.

(** ** Following a run *)

(** A list of disks, the latest first, in which each is one step from the one before it. *)
Fixpoint linked (l : list disk) : Prop :=
  match l with
  | b :: r => match r with a :: _ => mirror_step a b | [] => True end /\ linked r
  | [] => True
  end.

Lemma linked_cons b a r : mirror_step a b -> linked (a :: r) -> linked (b :: a :: r).
Proof. by split. Qed.
Lemma linked_app l x r : linked (l ++ [x]) -> linked (x :: r) -> linked (l ++ x :: r).
Proof. induction l as [|b l IH]; [done|]. intros [H1 H2] Hr. destruct l as [|a l]; (split; [done|]); by apply IH. Qed.
Lemma linked_drop k l : linked l -> linked (drop k l).
Proof. revert l. induction k as [|k IH]; intros [|b l]; try done. intros [_ H]. by apply IH. Qed.
Lemma linked_at l i a b : linked l -> l !! i = Some b -> l !! S i = Some a -> mirror_step a b.
Proof.
  revert i. induction l as [|x l IH]; intros i Hl Hb Ha; [done|]. destruct Hl as [H1 H2]. destruct i as [|i].
  - injection Hb as <-. destruct l as [|y l]; [done|]. by injection Ha as <-.
  - by apply (IH i).
Qed.
Lemma linked_all (P : disk -> Prop) l d : (forall a b, mirror_step a b -> P a -> P b) -> linked (l ++ [d]) -> P d -> Forall P (l ++ [d]).
Proof.
  intros Hstep Hl Hd. induction l as [|b l IH]; [by constructor|]. destruct Hl as [H1 H2]. specialize (IH H2). constructor; [|done].
  destruct l as [|a l]; (eapply Hstep; [exact H1|]); by inversion_clear IH.
Qed.

Section run.
Context (w0 : mworld).

Definition follows (w : mworld) : Prop :=
  exists l, mw_trace w = l ++ mw_trace w0 /\ linked (l ++ [mw_disk w0]) /\ head (l ++ [mw_disk w0]) = Some (mw_disk w).
Definition Inv (w : mworld) : Prop := follows w /\ disk_ok (mw_disk w).
Definition quiet (w w' : mworld) : Prop := same_view (mw_disk w) (mw_disk w').

#[local] Instance quiet_preorder : PreOrder quiet.
Proof.
  split; [by intros w|]. intros w1 w2 w3 [H1 H2] [H3 H4]. split; [congruence|]. intros z Hz. by rewrite H4, H2.
Qed.

Lemma Inv_write f w : Inv w -> mirror_step (mw_disk w) (f (mw_disk w)) ->
  Inv (MWorld (f (mw_disk w)) (f (mw_disk w) :: mw_trace w) (mw_ticks w)).
Proof.
  intros [(l & Hl & Hall & Hr) Hd] Hs. split.
  - exists (f (mw_disk w) :: l). cbn [mw_trace mw_disk]. split; [by rewrite Hl|]. split; [|done].
    cbn [app]. destruct (l ++ [mw_disk w0]) as [|x r]; [done|]. injection Hr as ->. by apply linked_cons.
  - by apply (step_disk_ok (mw_disk w)).
Qed.

Lemma write_aside f : (forall d, same_view d (f d)) -> maintains Inv quiet (write_disk f).
Proof. intros Hf w Hw. cbn. split; [apply Inv_write; [done|]; by apply step_aside|apply Hf]. Qed.

Lemma wp_quiet {A} (m : M mworld A) (Q : res A -> mworld -> Prop) w :
  maintains Inv quiet m -> Inv w -> (forall r w', Inv w' -> quiet w w' -> Q r w') -> wp m Q w.
Proof. intros Hm Hw HQ. destruct (Hm w Hw). by apply HQ. Qed.

Lemma stored_files d d' : dk_files d' !! state_path target table = dk_files d !! state_path target table -> stored d' = stored d.
Proof. unfold stored. by intros ->. Qed.

Lemma tmp_not_state path : state_path target table = path \/ path = pending_payload_path target table -> tmp path <> state_path target table.
Proof.
  intros [<-| ->]; [apply tmp_ne|]. intros H. apply (f_equal String.length) in H. unfold tmp, pending_payload_path in H.
  rewrite !length_app_s in H. cbn in H. lia.
Qed.
Lemma payload_not_state : pending_payload_path target table <> state_path target table.
Proof. intros H. apply (f_equal String.length) in H. unfold pending_payload_path in H. rewrite length_app_s in H. cbn in H. lia. Qed.

(** Operations that leave the state and the data files alone. *)
Lemma quiet_ask {A} (f : nat -> res A) : maintains Inv quiet (ask f).
Proof. intros w [H Hd]. by split; [split|]. Qed.

Lemma quiet_leadership : maintains Inv quiet check_leadership.
Proof. unfold check_leadership. destruct leadership_check; [apply quiet_ask|auto with fsp typeclass_instances]. Qed.

Lemma leadership_disk w : mw_disk (check_leadership w).2 = mw_disk w.
Proof. unfold check_leadership. by destruct leadership_check. Qed.

Lemma quiet_disk {A} (f : disk -> A) : maintains Inv quiet (disk_ f).
Proof. unfold disk_. auto with fsp typeclass_instances. Qed.

Lemma quiet_write_payload payload : maintains Inv quiet (write_pending_payload target table payload).
Proof.
  apply maintains_bind; [apply _| |intros _]; apply write_aside; intros d; (split; [|done]); apply stored_files; cbn.
  - rewrite lookup_insert_ne; [done|]. apply tmp_not_state. by right.
  - rewrite lookup_delete_ne by (apply tmp_not_state; by right). by rewrite lookup_insert_ne by apply payload_not_state.
Qed.

Lemma quiet_write_zone rel c : (forall z, zone_path rel = Ok z -> ~ data_file z) -> maintains Inv quiet (write_zone rel c).
Proof.
  intros Hrel. unfold write_zone. destruct (zone_path rel) as [z|e] eqn:Hz; [|intros w Hw; by split].
  intros w Hw. change (Inv ((write_disk (set_zone (tmp z) c);; write_disk (fun d => let d := set_zone z c d in Disk (dk_files d) (delete (tmp z) (dk_zone d)))) w).2
    /\ quiet w ((write_disk (set_zone (tmp z) c);; write_disk (fun d => let d := set_zone z c d in Disk (dk_files d) (delete (tmp z) (dk_zone d)))) w).2).
  revert w Hw. apply maintains_bind; [apply _| |intros _]; apply write_aside; intros d; (split; [done|]); intros z' Hz'; cbn.
  - rewrite lookup_insert_ne; [done|]. intros <-. by apply tmp_not_data in Hz'.
  - rewrite lookup_delete_ne by (intros <-; by apply tmp_not_data in Hz').
    rewrite lookup_insert_ne; [done|]. intros <-. by apply (Hrel z).
Qed.

Lemma metadata_not_data dir z : zone_path (fmt [dir; "/"; TABLE_METADATA_FILE]) = Ok z -> ~ data_file z.
Proof.
  intros (pd & _ & ->)%zone_path_dir; [|by split_and!]. unfold data_file. by rewrite below_dir_last.
Qed.

Lemma quiet_partner_events : maintains Inv quiet (ensure_partner_events target).
Proof.
  unfold ensure_partner_events. destruct (_ && _); [auto with fsp typeclass_instances|].
  apply maintains_bind; [apply _|auto with fsp typeclass_instances|]. intros event. apply quiet_write_zone.
  intros z Hz. vm_compute in Hz. injection Hz as <-. by vm_compute.
Qed.

Lemma quiet_table_metadata : maintains Inv quiet (ensure_table_metadata table).
Proof.
  unfold ensure_table_metadata, zone_exists.
  repeat (first [apply maintains_bind; [apply _| |intros ?]|apply quiet_disk|by auto with fsp typeclass_instances]).
  destruct (_ : bool); [auto with fsp typeclass_instances|]. apply maintains_bind; [apply _|auto with fsp typeclass_instances|intros meta].
  apply quiet_write_zone. apply metadata_not_data.
Qed.

(** Saving the state is one step of the protocol. *)
Lemma wp_save s w (Q : res unit -> mworld -> Prop) : Inv w -> state_ok s ->
  (forall d d', dk_zone d = dk_zone (mw_disk w) -> stored d = stored (mw_disk w) ->
     dk_zone d' = dk_zone d -> stored d' = Some s -> mirror_step d d') ->
  (forall w', Inv w' -> stored (mw_disk w') = Some s -> dk_zone (mw_disk w') = dk_zone (mw_disk w) -> Q (Ok tt) w') ->
  wp (save_state target table s) Q w.
Proof.
  intros Hw Hs Hstep HQ. set (c := FJson (DObj (state_to_json s))).
  set (w1 := MWorld (set_file (tmp (state_path target table)) c (mw_disk w)) (set_file (tmp (state_path target table)) c (mw_disk w) :: mw_trace w) (mw_ticks w)).
  assert (Hst : stored (mw_disk w1) = stored (mw_disk w)).
  { apply stored_files. cbn. rewrite lookup_insert_ne; [done|]. apply tmp_ne. }
  assert (H1 : Inv w1) by (apply (Inv_write (set_file (tmp (state_path target table)) c)); [done|by apply step_aside]).
  set (f := fun d => drop_file (tmp (state_path target table)) (set_file (state_path target table) c d)).
  assert (H2 : stored (f (mw_disk w1)) = Some s).
  { unfold stored. cbn. rewrite lookup_delete_ne by apply tmp_ne. rewrite lookup_insert_eq. unfold c. by rewrite state_roundtrip. }
  apply (HQ (MWorld (f (mw_disk w1)) (f (mw_disk w1) :: mw_trace w1) (mw_ticks w1))).
  - apply Inv_write; [done|]. apply Hstep; done.
  - exact H2.
  - done.
Qed.

(** *** Recording a batch *)

Lemma state_ok_pending s p : state_ok s -> pending_ok p -> state_ok (with_pending (Some p) s).
Proof. intros (H1 & H2 & H3 & H4 & H5) Hp. split_and!; cbn; try done; try apply H5. by intros x [= <-]. Qed.

Lemma fmt_nonempty (a b : string) : fmt [a; "/"; b] <> "".
Proof. by destruct a. Qed.

(** The state and its pending batch, ready for its file to be written. *)
Definition ready (s : publish_state) (path payload : string) (w : mworld) : Prop :=
  derived (stored (mw_disk w)) s /\ exists p z, ps_pending s = Some p /\ pb_path p = path /\ zone_path path = Ok z /\ data_file z /\
    dk_zone (mw_disk w) !! z = None /\ pb_content_hash p = sha256_hex payload.

Lemma quiet_derived w w' s : quiet w w' -> derived (stored (mw_disk w)) s -> derived (stored (mw_disk w')) s.
Proof. by intros [-> _]. Qed.

Lemma quiet_ready s path payload w w' : quiet w w' -> ready s path payload w -> ready s path payload w'.
Proof.
  intros Hq (Hd & p & z & Hp & Hpath & Hz & Hdz & Hn & Hh). split; [by eapply quiet_derived|].
  exists p, z. split_and!; try done. destruct Hq as [_ Hq]. by rewrite Hq.
Qed.

Lemma wp_record s columns payload mk w (Q : res (string * publish_state) -> mworld -> Prop) :
  Inv w -> derived (stored (mw_disk w)) s -> ps_pending s = None ->
  (forall path pp, path <> "" -> pp <> Some "" -> pending_ok (mk path pp)) ->
  (forall path pp, pb_path (mk path pp) = path /\ pb_payload_path (mk path pp) = pp /\ pb_content_hash (mk path pp) = sha256_hex payload) ->
  (forall e w', Inv w' -> Q (Err e) w') ->
  (forall path p w', Inv w' -> ready (with_pending (Some p) s) path payload w' -> Q (Ok (path, with_pending (Some p) s)) w') ->
  wp (record_pending target table s columns payload mk) Q w.
Proof.
  intros Hw Hd Hp Hok Hmk HE HQ. unfold record_pending. apply wp_bind.
  unfold reserve_batch_path. apply wp_bind, wp_lift. destruct (table_dir table) as [dir|e] eqn:Hdir; [|by apply HE].
  apply wp_bind. unfold list_dir. apply wp_bind, wp_lift. destruct (zone_path dir) as [pd|e] eqn:Hpd; [|by apply HE].
  apply wp_disk. apply wp_bind, wp_lift.
  destruct (format_file_name _) as [name|e] eqn:Hname; [|by apply HE]. apply wp_ret.
  set (path := fmt [dir; "/"; name]).
  assert (Hz : exists z, zone_path path = Ok z /\ dk_zone (mw_disk w) !! z = None /\ data_file z).
  { assert (exists z, zone_path path = Ok z) as [z Hz].
    { apply (zone_path_ok dir pd); [done|]. unfold format_file_name in Hname. destruct (_ <? 1) eqn:Hlt; [done|]. destruct (_ <=? _); [done|].
      injection Hname as <-. apply numbered_segment. apply Z.ltb_ge in Hlt. lia. }
    exists z. split; [done|]. by apply (reserved_fresh _ dir pd name). }
  destruct Hz as (z & Hz & Hnone & Hdz).
  set (pp := if has_random_tokens columns then Some (pending_payload_path target table) else None).
  assert (Hpp : pp <> Some "") by (unfold pp; destruct (has_random_tokens columns); [|done]; unfold pending_payload_path;
    intros [= H]; destruct (state_path target table); done).
  destruct (Hmk path pp) as (Hm1 & Hm2 & Hm3). set (p := mk path pp) in *.
  apply wp_bind. apply wp_quiet; [destruct (has_random_tokens columns); [apply quiet_write_payload|auto with fsp typeclass_instances]|done|].
  intros [[]|e] w1 H1 Hq1; [|by apply HE]. apply wp_bind. apply wp_quiet; [apply quiet_leadership|done|].
  intros [[]|e] w2 H2 Hq2; [|by apply HE]. assert (Hq : quiet w w2) by (by etrans).
  assert (Hd2 : derived (stored (mw_disk w2)) s) by (by eapply quiet_derived).
  assert (Hn2 : dk_zone (mw_disk w2) !! z = None) by (destruct Hq as [_ Hq]; by rewrite Hq).
  assert (Hpk : pending_ok p) by (apply Hok; [apply fmt_nonempty|done]).
  apply wp_bind. apply wp_save; [done|apply state_ok_pending; [apply Hd|done]| |].
  - intros d d' E1 E2 E3 E4. apply (step_record d d' s p z); try done; [by rewrite E2| |by rewrite Hm1|by rewrite E1].
    unfold expected_payload. rewrite Hm2. unfold pp. destruct (has_random_tokens columns); [by right|by left].
  - intros w3 H3 Hs3 Hz3. apply wp_ret. apply HQ; [done|]. split.
    + rewrite Hs3. split; [apply state_ok_pending; [apply Hd|done]|]. split; [done|]. by right.
    + exists p, z. rewrite Hz3. done.
Qed.

(** *** Landing and committing a batch *)

Lemma state_ok_finalized s p now : state_ok s -> ps_pending s = Some p -> now <> "" -> state_ok (finalized s p now).
Proof.
  intros (H1 & H2 & H3 & H4 & H5 & H6) Hp Hn. destruct (H4 p Hp) as ((C1 & C2 & C3 & C4) & P2 & P3 & P4 & P5 & P6).
  split_and!; cbn; try done; [|lia]. intros c [= <-]. split_and!; cbn; congruence.
Qed.

Lemma wp_finalize s p z w (Q : res publish_state -> mworld -> Prop) :
  Inv w -> derived (stored (mw_disk w)) s -> ps_pending s = Some p -> zone_path (pb_path p) = Ok z ->
  path_exists (dk_zone (mw_disk w)) z = true ->
  (forall e w', Inv w' -> Q (Err e) w') ->
  (forall now w', Inv w' -> stored (mw_disk w') = Some (finalized s p now) -> state_ok (finalized s p now) -> Q (Ok (finalized s p now)) w') ->
  wp (finalize_pending target table s) Q w.
Proof.
  intros Hw Hd Hp Hz Hx HE HQ. unfold finalize_pending. rewrite Hp. apply wp_bind.
  apply (wp_run _ (Ok (now_text (mw_ticks w))) w (MWorld (mw_disk w) (mw_trace w) (S (mw_ticks w)))); [done|].
  set (now := now_text _). set (w1 := MWorld _ _ _).
  assert (Hok : state_ok (finalized s p now)) by (apply state_ok_finalized; [apply Hd|done|apply now_given]).
  assert (He : expected_payload p).
  { destruct Hw as [_ Hw]. destruct (derived_stored _ _ _ Hd Hp) as (s0 & H0 & Hp0). by apply (Hw s0 p). }
  apply wp_bind. apply wp_save; [exact Hw|done| |].
  - intros d d' E1 E2 E3 E4. apply (step_commit d d' s p z now); try done; [by rewrite E2|by rewrite E1].
  - intros w2 H2 Hs2 _. apply wp_bind. apply wp_quiet; [|done|].
    + destruct He as [-> | ->]; [auto with fsp typeclass_instances|].
      apply maintains_bind; [apply _|apply quiet_disk|]. intros [].
      * apply write_aside. intros d. split; [|done]. apply stored_files. cbn. by rewrite lookup_delete_ne by apply payload_not_state.
      * auto with fsp typeclass_instances.
    + intros [[]|e] w3 H3 [Hs3 _]; [|by apply HE]. apply wp_ret. apply HQ; [done| |done]. by rewrite Hs3.
Qed.

Lemma path_exists_file (zn : zone) z c : zn !! z = Some c -> path_exists zn z = true.
Proof. intros H. unfold path_exists. rewrite bool_decide_true by (rewrite H; eauto). done. Qed.

(** Writing the file of the pending batch. *)
Lemma wp_write_batch s path payload z w (Q : res unit -> mworld -> Prop) :
  Inv w -> ready s path payload w -> zone_path path = Ok z ->
  (forall w', Inv w' -> stored (mw_disk w') = stored (mw_disk w) -> dk_zone (mw_disk w') !! z = Some (ZData payload) -> Q (Ok tt) w') ->
  wp (write_batch_at path payload) Q w.
Proof.
  intros Hw (Hd & p & z' & Hp & Hpath & Hz' & Hdz & Hn & Hh) Hz HQ. rewrite Hz in Hz'. injection Hz' as <-.
  destruct (derived_stored _ _ _ Hd Hp) as (s0 & Hs0 & Hp0).
  set (d1 := set_zone (tmp z) (ZData payload) (mw_disk w)). set (w1 := MWorld d1 (d1 :: mw_trace w) (mw_ticks w)).
  set (f := fun d => let d := set_zone z (ZData payload) d in Disk (dk_files d) (delete (tmp z) (dk_zone d))).
  set (w2 := MWorld (f d1) (f d1 :: d1 :: mw_trace w) (mw_ticks w)).
  assert (Hv : same_view (mw_disk w) d1).
  { split; [done|]. intros x Hx. cbn. rewrite lookup_insert_ne; [done|]. intros <-. by apply tmp_not_data in Hx. }
  assert (H1 : Inv w1) by (apply (Inv_write (set_zone (tmp z) (ZData payload))); [done|by apply step_aside]).
  assert (Hin : dk_zone (f d1) !! z = Some (ZData payload)).
  { cbn. rewrite lookup_delete_ne by apply tmp_ne. by rewrite lookup_insert_eq. }
  assert (H2 : Inv w2).
  { apply (Inv_write f w1 H1). apply (step_land _ _ s0 p z payload); try done; [by rewrite Hpath|by destruct Hv as [_ ->]|].
    intros x Hx Hne. cbn. rewrite lookup_delete_ne by (intros <-; by apply tmp_not_data in Hx). by rewrite lookup_insert_ne. }
  unfold write_batch_at. apply wp_bind. unfold write_zone. apply wp_bind, wp_lift. rewrite Hz.
  apply (wp_run _ (Ok tt) w w2); [done|]. apply wp_bind. unfold zone_exists. apply wp_bind, wp_lift. rewrite Hz.
  apply wp_disk. cbn [mw_disk w2]. rewrite (path_exists_file _ _ _ Hin). apply wp_ret. by apply HQ.
Qed.

Lemma wp_land s path payload w (Q : res publish_state -> mworld -> Prop) :
  Inv w -> ready s path payload w ->
  (forall e w', Inv w' -> Q (Err e) w') ->
  (forall s' w', Inv w' -> stored (mw_disk w') = Some s' -> state_ok s' -> ps_pending s' = None -> Q (Ok s') w') ->
  wp (land_pending target table s path payload) Q w.
Proof.
  intros Hw Hr HE HQ. unfold land_pending. apply wp_bind, wp_quiet; [apply quiet_leadership|done|].
  intros [[]|e] w1 H1 Hq1; [|by apply HE]. apply (quiet_ready _ _ _ _ _ Hq1) in Hr.
  pose proof Hr as (Hd & p & z & Hp & Hpath & Hz & Hdz & _). apply wp_bind. apply (wp_write_batch s path payload z); [done|done|done|].
  intros w2 H2 Hs2 Hz2. apply wp_bind, wp_quiet; [apply quiet_leadership|done|].
  intros [[]|e] w3 H3 Hq3; [|by apply HE].
  apply (wp_finalize s p z); [done| |done|by rewrite Hpath| |done|].
  - apply (quiet_derived _ _ _ Hq3). by rewrite Hs2.
  - destruct Hq3 as [_ Hq3]. apply (path_exists_file _ _ (ZData payload)). by rewrite Hq3.
  - intros now w4 H4 Hs4 Hok. by apply HQ.
Qed.

(** *** A page of the watermark strategy *)

Lemma valid_encoded_cell c : c <> CNull -> valid_encoded (encode_watermark c) = Ok true.
Proof. intros Hc. destruct c as [|b|z|s]; done. Qed.

Lemma next_cursor_ok r wm keys c : next_cursor r wm keys = Ok c -> cursor_ok c.
Proof.
  unfold next_cursor. cbn [map existsb]. case_bool_decide as Hw; [done|]. cbn [orb].
  destruct (existsb _ (map (cell_of r) keys)) eqn:He; [done|]. intros [= <-]. split_and!; cbn [cc_watermark cc_keys cc_file cc_committed_at];
    [by apply valid_encoded_cell| |done|done].
  induction keys as [|k keys IH]; [done|]. cbn in He. cbn [map res_forallb]. case_bool_decide as Hk; [done|]. cbn [orb] in He.
  assert (valid_key (encode_watermark (cell_of r k)) = Ok true) as ->; [by destruct (cell_of r k)|]. cbn [mbind res_bind]. by apply IH.
Qed.

(** The loop variables match the disk. *)
Definition in_step (l : page_loop) (w : mworld) : Prop :=
  derived (stored (mw_disk w)) (pl_state l) /\ (forall c, pl_cursor l = Some c -> cursor_ok c) /\
  (forall p z, ps_pending (pl_state l) = Some p -> zone_path (pb_path p) = Ok z -> dk_zone (mw_disk w) !! z = None).

Lemma quiet_in_step l w w' : Inv w -> quiet w w' -> in_step l w -> in_step l w'.
Proof.
  intros Hw Hq (H1 & H2 & H3). split_and!; [by eapply quiet_derived|done|].
  intros p z Hp Hz. destruct (derived_stored _ _ _ H1 Hp) as (s0 & Hs0 & Hp0). destruct Hw as [_ Hw].
  destruct (Hw s0 p Hs0 Hp0) as (_ & z' & Hz' & Hdz). rewrite Hz in Hz'. injection Hz' as <-.
  destruct Hq as [_ Hq]. rewrite Hq by done. by apply (H3 p).
Qed.

(** A pending batch that still matches is ready to be landed. *)
Lemma in_step_ready l w p payload : Inv w -> in_step l w -> ps_pending (pl_state l) = Some p ->
  pb_content_hash p = sha256_hex payload -> ready (pl_state l) (pb_path p) payload w.
Proof.
  intros [_ Hw] (H1 & _ & H3) Hp Hh. split; [done|]. destruct (derived_stored _ _ _ H1 Hp) as (s0 & Hs0 & Hp0).
  destruct (Hw s0 p Hs0 Hp0) as (_ & z & Hz & Hdz). exists p, z. split_and!; try done. by apply (H3 p).
Qed.

Lemma prepare_digest rows columns markers payload digest :
  prepare_batch rows columns markers = Ok (payload, digest) -> digest = sha256_hex payload.
Proof. unfold prepare_batch. destruct markers as [l|]; [destruct (Nat.eqb _ _); [|done]|]; by intros [= <- <-]. Qed.

Lemma stored_in_step s' w : stored (mw_disk w) = Some s' -> state_ok s' -> ps_pending s' = None ->
  derived (stored (mw_disk w)) (with_pending None s').
Proof.
  intros Hs Hok Hp. rewrite Hs. destruct s' as [a b c d e f g h i]. cbn in Hp. subst e. split; [exact Hok|]. cbn. split; [done|]. by right.
Qed.

Lemma wp_publish_page columns l rows next w (Q : res (publish_state * string) -> mworld -> Prop) :
  Inv w -> in_step l w -> cursor_ok next ->
  (forall e w', Inv w' -> Q (Err e) w') ->
  (forall s' path w', Inv w' -> stored (mw_disk w') = Some s' -> state_ok s' -> ps_pending s' = None -> Q (Ok (s', path)) w') ->
  wp (publish_page target table columns l rows next) Q w.
Proof.
  intros Hw Hl Hnext HE HQ. unfold publish_page.
  apply wp_bind, wp_quiet; [apply quiet_leadership|done|]. intros [[]|e] w1 H1 Hq1; [|by apply HE].
  apply wp_bind, wp_quiet; [apply quiet_partner_events|done|]. intros [[]|e] w2 H2 Hq2; [|by apply HE].
  apply wp_bind, wp_quiet; [apply quiet_table_metadata|done|]. intros [[]|e] w3 H3 Hq3; [|by apply HE].
  assert (Hl3 : in_step l w3).
  { apply (quiet_in_step _ w2); [done|done|]. apply (quiet_in_step _ w1); [done|done|]. by apply (quiet_in_step _ w). }
  clear Hl Hw. apply wp_bind, wp_lift. destruct (prepare_batch _ _ _) as [[payload digest]|e] eqn:Hpb; [|by apply HE].
  apply prepare_digest in Hpb. apply wp_bind.
  assert (Hland : forall s path w', Inv w' -> ready s path payload w' ->
    wp (s' ← land_pending target table s path payload; mret (s', path)) Q w').
  { intros s path w' Hw' Hr. apply wp_bind. apply wp_land; [done|done|done|]. intros s' w4 H4 Hs4 Hok Hp. apply wp_ret. by apply HQ. }
  destruct (ps_pending (pl_state l)) as [p|] eqn:Hp.
  - destruct (page_matches p rows digest next) eqn:Hm; [|apply wp_raise; by apply HE]. apply wp_ret. apply Hland; [done|].
    apply in_step_ready; [done|done|done|]. unfold page_matches in Hm. rewrite !andb_true_iff in Hm.
    destruct Hm as [[[_ Hm%String.eqb_eq] _] _]. congruence.
  - apply wp_record; [done|apply Hl3|done| | |done|].
    + intros path pp Hpath Hpp. split_and!; cbn; try done; [apply Hl3| |lia]. rewrite Hpb. apply sha256_length.
    + intros path pp. cbn. by rewrite Hpb.
    + intros path p w4 H4 Hr. by apply Hland.
Qed.

Lemma quiet_read_watermark columns controls aliases wm_col w_ ks n :
  maintains Inv quiet (read_rows_watermark target table columns controls aliases wm_col w_ ks n).
Proof.
  unfold read_rows_watermark. apply maintains_bind; [apply _|auto with fsp typeclass_instances|intros q].
  apply maintains_bind; [apply _|apply quiet_ask|intros rows]. auto with fsp typeclass_instances.
Qed.

Lemma quiet_read_source columns controls aliases max_rows :
  maintains Inv quiet (read_source_rows target table columns controls aliases max_rows).
Proof.
  unfold read_source_rows. apply maintains_bind; [apply _|auto with fsp typeclass_instances|intros q].
  apply maintains_bind; [apply _|apply quiet_ask|intros rows]. auto with fsp typeclass_instances.
Qed.

Definition page_done (r : res (page_loop * bool)) (w : mworld) : Prop :=
  Inv w /\ forall l, r = Ok (l, true) -> in_step l w.

Lemma derived_watermark o s : derived o s -> derived o (with_strategy "watermark" (with_initialized s)).
Proof.
  intros ((H1 & H2) & H3 & H4). split; [|done]. split; [by left|]. exact H2.
Qed.

Lemma wp_watermark_page columns controls aliases max_rows wm_col initial l w : Inv w -> in_step l w ->
  wp (watermark_page target table columns controls aliases false max_rows wm_col initial l) page_done w.
Proof.
  intros Hw Hl. unfold watermark_page. apply wp_bind, wp_lift. destruct (cursor_values _) as [cv|e]; [|by split].
  apply wp_bind, wp_quiet; [apply quiet_read_watermark|done|]. intros [rows|e] w1 H1 Hq1; [|by split].
  apply (quiet_in_step _ _ _ Hw Hq1) in Hl. destruct (last rows) as [r|].
  - apply wp_bind, wp_lift. destruct (next_cursor _ _ _) as [next|e] eqn:Hn; [|by split]. apply next_cursor_ok in Hn.
    apply wp_bind. apply wp_bind. apply wp_publish_page; [done|done|done|by split|].
    intros s' path w2 H2 Hs2 Hok Hp. apply wp_ret. apply wp_ret. split; [done|]. intros l' [= <- _]. split_and!.
    + by apply stored_in_step.
    + cbn. intros c Hc. by apply Hok.
    + done.
  - apply wp_bind. destruct (pl_initial l && negb false).
    + apply wp_bind, wp_quiet; [apply quiet_leadership|done|]. intros [[]|e] w2 H2 Hq2; [|by split].
      destruct Hl as (Hd & _). apply (quiet_derived _ _ _ Hq2), derived_watermark in Hd. apply wp_bind, wp_save; [done|apply Hd| |].
      * intros d d' E1 E2 E3 E4. apply (step_settle _ _ (with_strategy "watermark" (with_initialized (pl_state l)))); [by rewrite E2|done|done].
      * intros w3 H3 _ _. apply wp_ret. apply wp_ret. by split.
    + apply wp_ret. apply wp_ret. by split.
Qed.

Lemma wp_watermark_pages columns controls aliases max_rows wm_col initial fuel : forall l w, Inv w -> in_step l w ->
  wp (watermark_pages target table columns controls aliases false max_rows fuel wm_col initial l) (fun _ w' => Inv w') w.
Proof.
  induction fuel as [|fuel IH]; intros l w Hw Hl; [done|]. cbn [watermark_pages]. apply wp_bind.
  eapply wp_mono; [by apply wp_watermark_page|]. intros [[l' []]|e] w' [H1 H2]; [|exact H1..]. by apply IH, H2.
Qed.

(** A dry run changes nothing. *)
Lemma quiet_dry_pages columns controls aliases max_rows wm_col initial fuel : forall l,
  maintains Inv quiet (watermark_pages target table columns controls aliases true max_rows fuel wm_col initial l).
Proof.
  induction fuel as [|fuel IH]; intros l; cbn [watermark_pages]; [by auto with fsp typeclass_instances|].
  apply maintains_bind; [apply _| |intros [l' []]; cbn [fst snd]; [apply IH|by auto with fsp typeclass_instances]].
  unfold watermark_page. apply maintains_bind; [apply _|auto with fsp typeclass_instances|intros cv].
  apply maintains_bind; [apply _|apply quiet_read_watermark|intros rows]. rewrite andb_false_r.
  destruct (last rows).
  - apply maintains_bind; [apply _|auto with fsp typeclass_instances|intros next].
    apply maintains_bind; [apply _|auto with fsp typeclass_instances|intros [[s c] path]]. auto with fsp typeclass_instances.
  - apply maintains_bind; [apply _|auto with fsp typeclass_instances|intros s]. auto with fsp typeclass_instances.
Qed.

Lemma wp_publish_watermark columns controls aliases status reason dry_run max_rows fuel s w :
  Inv w -> derived (stored (mw_disk w)) s ->
  (forall p z, ps_pending s = Some p -> zone_path (pb_path p) = Ok z -> dk_zone (mw_disk w) !! z = None) ->
  wp (publish_watermark target table columns controls aliases status reason dry_run max_rows fuel s) (fun _ w' => Inv w') w.
Proof.
  intros Hw Hd Hz. unfold publish_watermark. destruct (negb _); [done|]. destruct (negb _); [done|]. apply wp_bind.
  destruct dry_run.
  - apply wp_quiet; [apply quiet_dry_pages|done|]. by intros [l|e] w' H _.
  - eapply wp_mono; [apply wp_watermark_pages; [done|]|]; [|by intros [l|e] w' H]. split_and!; [done| |done].
    intros c Hc. cbn in Hc. destruct Hd as ((_ & _ & Hc2 & Hc3 & _) & _). destruct (ps_pending s) as [p|]; [|by apply Hc2].
    destruct (Hc3 p eq_refl) as (_ & Hprior & _). by apply Hprior.
Qed.

(** *** The snapshot strategy *)

Lemma empty_cursor_ok : cursor_ok empty_cursor.
Proof. by split_and!. Qed.

Lemma wp_publish_scan columns s keys rows markers w :
  Inv w -> derived (stored (mw_disk w)) s ->
  (forall p z, ps_pending s = Some p -> zone_path (pb_path p) = Ok z -> dk_zone (mw_disk w) !! z = None) ->
  wp (publish_scan target table columns s keys rows markers) (fun _ w' => Inv w') w.
Proof.
  intros Hw Hd Hz. set (l := PageLoop s (ps_committed s) false 0 0 0 None "").
  assert (Hl : in_step l w) by (split_and!; [done|intros c Hc; by apply Hd|done]).
  unfold publish_scan.
  apply wp_bind, wp_quiet; [apply quiet_leadership|done|]. intros [[]|e] w1 H1 Hq1; [|done].
  apply wp_bind, wp_quiet; [apply quiet_partner_events|done|]. intros [[]|e] w2 H2 Hq2; [|done].
  apply wp_bind, wp_quiet; [apply quiet_table_metadata|done|]. intros [[]|e] w3 H3 Hq3; [|done].
  assert (Hl3 : in_step l w3).
  { apply (quiet_in_step _ w2); [done|done|]. apply (quiet_in_step _ w1); [done|done|]. by apply (quiet_in_step _ w). }
  apply wp_bind, wp_lift. destruct (prepare_batch _ _ _) as [[payload digest]|e] eqn:Hpb; [|done].
  apply prepare_digest in Hpb. apply wp_bind.
  assert (Hland : forall s path w', Inv w' -> ready s path payload w' ->
    wp (s' ← land_pending target table s path payload; save_state target table (with_strategy "snapshot" s');; mret path) (fun _ w => Inv w) w').
  { intros s1 path w' Hw' Hr. apply wp_bind. apply wp_land; [done|done|done|]. intros s' w4 H4 Hs4 Hok Hp.
    assert (Hok' : state_ok (with_strategy "snapshot" s')) by (destruct Hok as [_ Hok]; split; [right; left|exact Hok]).
    apply wp_bind, wp_save; [done|done| |by intros].
    intros d d' E1 E2 E3 E4. apply (step_settle _ _ (with_strategy "snapshot" s')); [|done|done].
    rewrite E2, Hs4. split; [done|]. split; [done|]. by right. }
  destruct (ps_pending s) as [p|] eqn:Hp.
  - destruct (_ && _) eqn:Hm; [|done]. apply andb_true_iff in Hm as [Hm%String.eqb_eq _]. apply wp_ret. apply Hland; [done|].
    apply (in_step_ready l); [done|done|done|]. congruence.
  - apply wp_record; [done|apply Hl3|done| | |done|].
    + intros path pp Hpath Hpp. split_and!; cbn; try done; [intros c Hc; by apply Hd| |lia]. rewrite Hpb. apply sha256_length.
    + intros path pp. cbn. by rewrite Hpb.
    + intros path p w4 H4 Hr. by apply Hland.
Qed.

Lemma wp_publish_snapshot columns controls aliases status reason dry_run max_rows s w :
  Inv w -> derived (stored (mw_disk w)) s ->
  (forall p z, ps_pending s = Some p -> zone_path (pb_path p) = Ok z -> dk_zone (mw_disk w) !! z = None) ->
  wp (publish_snapshot target table columns controls aliases status reason dry_run max_rows s) (fun _ w' => Inv w') w.
Proof.
  intros Hw Hd Hz. set (l := PageLoop s (ps_committed s) false 0 0 0 None "").
  assert (Hl : in_step l w) by (split_and!; [done|intros c Hc; by apply Hd|done]).
  unfold publish_snapshot. apply wp_bind, wp_quiet; [apply quiet_read_source|done|]. intros [rows|e] w1 H1 Hq1; [|done].
  apply (quiet_in_step _ _ _ Hw Hq1) in Hl as (Hd1 & _ & Hz1).
  apply wp_bind, wp_lift. destruct (snapshot_changes _ _ _ _) as [[[[[keys brows] markers] [[i u] dl]] action]|e]; [|done].
  destruct dry_run; [done|]. destruct (String.eqb action "noop"); [done|]. apply wp_bind.
  eapply wp_mono; [by apply wp_publish_scan|]. by intros [path|e] w'.
Qed.

(** *** The whole run *)

Lemma wp_recover status strategy s p w (Q : res (option publish_result) -> mworld -> Prop) :
  Inv w -> derived (stored (mw_disk w)) s -> ps_pending s = Some p ->
  (forall r w', Inv w' -> r <> Ok None -> Q r w') ->
  ((forall z, zone_path (pb_path p) = Ok z -> dk_zone (mw_disk w) !! z = None) -> Q (Ok None) w) ->
  wp (recover_pending target table status strategy s p) Q w.
Proof.
  intros Hw Hd Hp HQ HN. destruct (derived_stored _ _ _ Hd Hp) as (s0 & Hs0 & Hp0).
  destruct (proj2 Hw s0 p Hs0 Hp0) as (_ & z & Hz & Hdz).
  unfold recover_pending, zone_exists. apply wp_bind. apply wp_bind, wp_lift. rewrite Hz. apply wp_disk.
  destruct (path_exists (dk_zone (mw_disk w)) z) eqn:Hx.
  - apply wp_bind. destruct (quiet_leadership w Hw) as [H1 Hq1]. pose proof (leadership_disk w) as Hsame. unfold wp at 1.
    destruct (check_leadership w) as [[[]|e] w1]; cbn [fst snd] in *; [|by apply HQ]. apply wp_bind.
    apply (wp_finalize s p z); [done|by eapply quiet_derived|done|done|by rewrite Hsame|by intros; apply HQ|].
    intros now w2 H2 _ _. apply wp_ret. by apply HQ.
  - assert (Hnone : dk_zone (mw_disk w) !! z = None).
    { destruct (dk_zone (mw_disk w) !! z) as [c|] eqn:E; [|done]. by rewrite (path_exists_file _ _ _ E) in Hx. }
    assert (HN' : Q (Ok None) w) by (apply HN; intros z' Hz'; rewrite Hz in Hz'; by injection Hz' as <-).
    destruct (pb_payload_path p) as [pp|]; [|by apply wp_ret].
    apply wp_bind, wp_disk. destruct (bool_decide _); cbn [negb]; [|by apply wp_ret].
    destruct (String.eqb pp _) eqn:Epp; cbn [negb]; [|apply wp_raise; by apply HQ].
    apply wp_bind. unfold read_pending_payload. apply wp_bind, wp_disk.
    destruct (dk_files (mw_disk w) !! pp) as [[v|payload]|]; [apply wp_raise; by apply HQ| |apply wp_raise; by apply HQ].
    destruct (String.eqb_spec (sha256_hex payload) (pb_content_hash p)) as [Hh|]; [|apply wp_raise; by apply HQ].
    apply wp_ret. apply wp_bind. apply wp_land; [done| |by intros; apply HQ|].
    + split; [done|]. exists p, z. by split_and!.
    + intros s' w1 H1 _ _ _. apply wp_ret. by apply HQ.
Qed.

Lemma strategy_known mode : mode_strategy table mode ∈ STRATEGIES.
Proof.
  unfold mode_strategy. case_bool_decide as H.
  - rewrite !elem_of_cons in H. destruct H as [->|[->|H]]; [by left|by right; left|by apply not_elem_of_nil in H].
  - unfold table_strategy. repeat case_match; subst; try (by left); by right; left.
Qed.

Lemma load_state_stored w status state error :
  load_state (dk_files (mw_disk w) !! state_path target table) = Ok (status, state, error) -> status ∈ [SMissing; SValid] ->
  stored (mw_disk w) = state /\ forall s, state = Some s -> state_ok s.
Proof.
  unfold load_state, stored. intros H Hst. destruct (dk_files (mw_disk w) !! state_path target table) as [[v|b]|].
  - destruct (state_from_json v) as [s|e] eqn:Hs.
    + injection H as <- <- <-. split; [done|]. intros s' [= <-]. by apply state_decoded in Hs.
    + destruct e; try done; injection H as <- <- <-; exfalso; destruct (str_contains _ _);
        rewrite !elem_of_cons in Hst; destruct Hst as [Hst|[Hst|Hst]]; try done; by apply not_elem_of_nil in Hst.
  - injection H as <- <- <-. exfalso. rewrite !elem_of_cons in Hst; destruct Hst as [Hst|[Hst|Hst]]; try done; by apply not_elem_of_nil in Hst.
  - injection H as <- <- <-. done.
Qed.

Lemma bind_fingerprint_derived o explicit s columns s' : derived o s ->
  bind_fingerprint target table explicit s (projection_fingerprint cfg columns) = Ok s' ->
  derived o s' /\ ps_pending s' = ps_pending s.
Proof.
  intros Hd. assert (Hw : derived o (with_fingerprint (Some (projection_fingerprint cfg columns)) s)).
  { destruct Hd as ((H1 & H2 & H3) & H4). split; [|exact H4]. split; [done|]. split; [|exact H3].
    intros f [= <-]. apply sha256_length. }
  unfold bind_fingerprint. destruct (ps_projection_fingerprint s) as [f|]; [|by intros [= <-]].
  destruct (String.eqb _ _); [by intros [= <-]|]. destruct explicit; [by intros [= <-]|done].
Qed.

Lemma wp_publish_table fuel mode dry_run max_rows w : Inv w ->
  wp (publish_table target table fuel mode dry_run max_rows) (fun _ w' => Inv w') w.
Proof.
  intros Hw. unfold publish_table. apply wp_bind, wp_lift. destruct (effective_mode table mode) as [m|e]; [|done].
  apply wp_bind. unfold load_valid_state. apply wp_bind, wp_disk. apply wp_bind, wp_lift.
  destruct (load_state _) as [[[status state] error]|e] eqn:Hload; [|done].
  case_bool_decide as Hst; [|done]. apply wp_ret. destruct (load_state_stored _ _ _ _ Hload Hst) as [Hs Hok].
  set (explicit := String.eqb m "initial"). set (strategy := mode_strategy table m).
  apply wp_bind, wp_lift. destruct (check_state _ _ _ _ _) as [[]|e]; [|done].
  (* the strategy goes on from a state whose pending file, if any, is missing *)
  assert (Hrest : forall s, derived (stored (mw_disk w)) s ->
    (forall p z, ps_pending s = Some p -> zone_path (pb_path p) = Ok z -> dk_zone (mw_disk w) !! z = None) ->
    forall reason, wp (reflected ← ask (fun n => derive_table_schema n (mt_source_table table) (tg_connection_id target));
      columns ← lift (configured_columns table reflected);
      cc ← lift (control_columns table reflected columns);
      s ← lift (bind_fingerprint target table explicit s (projection_fingerprint cfg columns));
      if String.eqb strategy "watermark"
      then publish_watermark target table columns cc.1 cc.2 status reason dry_run (mirror_max_rows max_rows) fuel s
      else publish_snapshot target table columns cc.1 cc.2 status reason dry_run (mirror_max_rows max_rows) s) (fun _ w' => Inv w') w).
  { intros s Hd Hz reason.
    set (l := PageLoop s (ps_committed s) false 0 0 0 None "").
    assert (Hl : in_step l w) by (split_and!; [done|intros c Hc; by apply Hd|done]).
    apply wp_bind, wp_quiet; [apply quiet_ask|done|]. intros [reflected|e] w1 H1 Hq1; [|done].
    apply (quiet_in_step _ _ _ Hw Hq1) in Hl as (Hd1 & _ & Hz1). cbn [pl_state l] in Hd1, Hz1.
    apply wp_bind, wp_lift. destruct (configured_columns table reflected) as [columns|e]; [|done].
    apply wp_bind, wp_lift. destruct (control_columns table reflected columns) as [cc|e]; [|done].
    apply wp_bind, wp_lift. destruct (bind_fingerprint _ _ _ _ _) as [s'|e] eqn:Hb; [|done].
    destruct (bind_fingerprint_derived _ _ _ _ _ Hd1 Hb) as [Hd' Hp']. rewrite <- Hp' in Hz1.
    destruct (String.eqb strategy "watermark"); [by apply wp_publish_watermark|by apply wp_publish_snapshot]. }
  assert (Hnew : stored (mw_disk w) ≫= ps_pending = None -> derived (stored (mw_disk w)) (new_state strategy)).
  { intros Hnone. split; [|split; [by rewrite Hnone|by left]]. split_and!; cbn; try done. apply strategy_known. }
  apply wp_bind. destruct state as [s|]; [|by apply wp_ret, Hrest; [apply Hnew; rewrite Hs|]].
  assert (Hd : derived (stored (mw_disk w)) s) by (rewrite Hs; split; [by apply Hok|]; split; [done|by right]).
  destruct (ps_pending s) as [p|] eqn:Hp.
  - rewrite andb_false_r. apply wp_recover; [done|done|done| |].
    + intros [[r|]|e] w' Hw' Hne; done.
    + intros Hz. apply Hrest; [done|]. intros p' z. rewrite Hp. intros [= <-]. apply Hz.
  - rewrite andb_true_r. apply wp_ret. destruct explicit.
    + apply Hrest; [|done]. apply Hnew. rewrite Hs. exact Hp.
    + apply Hrest; [done|]. by rewrite Hp.
Qed.
End run.

(** ** Interrupted runs *)

(** The disks that any number of runs leave behind one after the other, the latest first: each durable
    write of a run gives one, and a run may be cut short after any of them. *)
Inductive crash_history (d : disk) : list disk -> Prop :=
| history_start : crash_history d [d]
| history_run d1 h fuel mode dry_run max_rows ticks k :
    crash_history d (d1 :: h) ->
    crash_history d (drop k (mw_trace (publish_table target table fuel mode dry_run max_rows (MWorld d1 [] ticks)).2) ++ d1 :: h).

Lemma history_linked d h : disk_ok d -> crash_history d h -> linked h /\ exists l, h = l ++ [d].
Proof.
  intros Hd. induction 1 as [|d1 h fuel mode dry mx ticks k _ (IH & l & Hl)]; [split; [done|by exists []]|].
  split; [|eexists; rewrite Hl; by rewrite app_assoc].
  assert (disk_ok d1) as Hd1.
  { rewrite Hl in IH. pose proof (linked_all disk_ok l d step_disk_ok IH Hd) as Hall. rewrite <- Hl in Hall. by inversion_clear Hall. }
  set (w := MWorld d1 [] ticks). assert (Hw : Inv w w) by (split; [exists []; by split_and!|done]).
  destruct (wp_publish_table w fuel mode dry mx w Hw) as [(l1 & E1 & Hlink & _) _]. rewrite E1, app_nil_r.
  apply linked_app; [|done]. destruct (decide (k <= length l1)%nat) as [Hk|Hk].
  - rewrite <- (drop_app_le l1 [d1]) by done. by apply linked_drop.
  - by rewrite drop_ge by lia.
Qed.

(** The file of a pending batch, once there, is the recorded one. *)
Definition consistent (d : disk) : Prop :=
  forall s p z c, stored d = Some s -> ps_pending s = Some p -> zone_path (pb_path p) = Ok z -> dk_zone d !! z = Some c ->
    exists payload, c = ZData payload /\ sha256_hex payload = pb_content_hash p.

Lemma step_consistent d d' : mirror_step d d' -> disk_ok d -> consistent d -> consistent d'.
Proof.
  intros H Hd Hc s' p' z' c Hs' Hp' Hz' Hc'.
  destruct H as [[Hs Hz]|s p z _ _ _ Hz _ Hn Hs Hzn|s p z payload Hs0 Hp0 Hz _ Hh Hs Hin _|s p z now _ _ _ _ Hs _|s Hder Hs Hzn].
  - rewrite Hs in Hs'. destruct (Hd s' p' Hs' Hp') as (_ & z & Ez & Hdz). rewrite Hz' in Ez. injection Ez as <-.
    rewrite Hz in Hc' by done. by apply (Hc s' p' z').
  - rewrite Hs in Hs'. injection Hs' as <-. cbn in Hp'. injection Hp' as <-. rewrite Hz in Hz'. injection Hz' as <-. congruence.
  - rewrite Hs, Hs0 in Hs'. injection Hs' as <-. rewrite Hp0 in Hp'. injection Hp' as <-. rewrite Hz in Hz'. injection Hz' as <-.
    rewrite Hin in Hc'. injection Hc' as <-. eauto.
  - rewrite Hs in Hs'. injection Hs' as <-. done.
  - rewrite Hs in Hs'. injection Hs' as <-. destruct (derived_stored _ _ _ Hder Hp') as (s0 & H0 & Hp0).
    rewrite Hzn in Hc'. by apply (Hc s0 p' z').
Qed.

Lemma step_keeps d d' z c : mirror_step d d' -> data_file z -> dk_zone d !! z = Some c -> dk_zone d' !! z = Some c.
Proof.
  intros H Hdz Hc.
  destruct H as [[_ Hz]|s p z1 _ _ _ _ _ _ _ Hzn|s p z1 payload _ _ _ Hn _ _ _ Hz|s p z1 now _ _ _ _ _ Hzn|s _ _ Hzn];
    [by rewrite Hz|by rewrite Hzn| |by rewrite Hzn|by rewrite Hzn].
  rewrite Hz; [done|done|]. intros ->. congruence.
Qed.

Lemma step_new d d' z c : mirror_step d d' -> data_file z -> dk_zone d !! z = None -> dk_zone d' !! z = Some c ->
  exists s p payload, stored d = Some s /\ ps_pending s = Some p /\ zone_path (pb_path p) = Ok z /\
    c = ZData payload /\ sha256_hex payload = pb_content_hash p.
Proof.
  intros H Hdz Hn Hc.
  destruct H as [[_ Hz]|s p z1 _ _ _ _ _ _ _ Hzn|s p z1 payload Hs Hp Hz1 _ Hh _ Hin Hz|s p z1 now _ _ _ _ _ Hzn|s _ _ Hzn];
    [rewrite Hz in Hc by done; congruence|rewrite Hzn in Hc; congruence| |rewrite Hzn in Hc; congruence|rewrite Hzn in Hc; congruence].
  destruct (decide (z = z1)) as [->|Hne]; [|rewrite Hz in Hc by done; congruence].
  rewrite Hin in Hc. injection Hc as <-. by exists s, p, payload.
Qed.

(** The committed cursor of a step is the earlier one, none, or that of the pending batch. *)
Definition commits (d : disk) (c : committed_cursor) : Prop :=
  exists s p z now, stored d = Some s /\ ps_pending s = Some p /\ zone_path (pb_path p) = Ok z /\
    path_exists (dk_zone d) z = true /\ c = landed_cursor p now.

Lemma step_committed d d' s' c : mirror_step d d' -> stored d' = Some s' -> ps_committed s' = Some c ->
  (exists s, stored d = Some s /\ ps_committed s = Some c) \/ commits d c.
Proof.
  intros H Hs' Hc.
  assert (Hder : forall s, derived (stored d) s -> ps_committed s = Some c -> exists s0, stored d = Some s0 /\ ps_committed s0 = Some c).
  { intros s (_ & _ & [Hz|Hz]) Hsc; rewrite Hsc in Hz; [done|]. destruct (stored d) as [s0|]; [|done]. exists s0. by split. }
  destruct H as [[Hs _]|s p z1 Hd _ _ _ _ _ Hs _|s p z1 payload _ _ _ _ _ Hs _ _|s p z1 now Hd Hp Hz1 Hx Hs _|s Hd Hs _];
    rewrite Hs in Hs'.
  - left. by exists s'.
  - injection Hs' as <-. left. by apply (Hder s).
  - left. by exists s'.
  - injection Hs' as <-. cbn in Hc. injection Hc as <-. right. destruct (derived_stored _ _ _ Hd Hp) as (s0 & H0 & Hp0).
    by exists s0, p, z1, now.
  - injection Hs' as <-. left. by apply (Hder s).
Qed.

(** C16: the landing zone survives crashes.  Take the disks that any number of runs of [publish_table]
    leave behind, one for each durable write, where each run may raise or be cut short after any
    write, whatever the source, the clock and the leadership check answer.  In each of them the file of a
    batch that is still pending is absent or has the recorded digest.  From each one to the next, a data
    file that is in the landing zone is neither changed nor removed; a data file that appears was
    recorded as the pending batch in the stored state before this write, and has the recorded SHA-256
    digest; and the committed cursor is the one of before or that of the pending batch, whose path
    was there before this write.  The first disk is assumed to have a data file's path in its pending
    batch, if there is one, and no other file there than the recorded one; an empty disk is such. *)
Theorem landing_zone_crash_safe d h :
  disk_ok d -> consistent d -> crash_history d h ->
  Forall consistent h /\
  forall i before after, h !! S i = Some before -> h !! i = Some after ->
    (forall z c, data_file z -> dk_zone before !! z = Some c -> dk_zone after !! z = Some c) /\
    (forall z c, data_file z -> dk_zone before !! z = None -> dk_zone after !! z = Some c ->
       exists s p payload, stored before = Some s /\ ps_pending s = Some p /\ zone_path (pb_path p) = Ok z /\
         c = ZData payload /\ sha256_hex payload = pb_content_hash p) /\
    (forall s' c, stored after = Some s' -> ps_committed s' = Some c ->
       (exists s, stored before = Some s /\ ps_committed s = Some c) \/ commits before c).
Proof.
  intros Hok Hc Hh. destruct (history_linked d h Hok Hh) as (Hl & l & ->). split.
  - eapply Forall_impl; [apply (linked_all (fun x => disk_ok x /\ consistent x))|by intros x [_ Hx]]; [|done|done].
    intros a b Hs [Ha Hca]. split; [by apply (step_disk_ok a)|by apply (step_consistent a)].
  - intros i a b Ha Hb. pose proof (linked_at _ _ _ _ Hl Hb Ha) as Hs. split_and!.
    + intros z c Hz. by apply step_keeps.
    + intros z c Hz. by apply step_new.
    + intros s' c. by apply step_committed.
Qed.
End protocol.

(** ** A first scan *)

Definition scan_columns : list column_def := [ColumnDef 1 "id" "long" false None None None].
Definition scan_table : mirror_table := MirrorTable "orders" "orders" "orders" "id" None (Some "snapshot") None true None.
Definition scan_target : mirror_target := MirrorTarget "t1" "default" "Partner" None None true [scan_table].

#[local] Instance scan_env : MirrorEnv := {|
  mirror_settings := MirrorConfig plain_config "incremental" 0 0 0;
  execute_query := fun _ _ _ _ => Ok [{["id" := CInt 1]}; {["id" := CInt 2]}];
  derive_table_schema := fun _ _ _ => Ok scan_columns;
  leadership_check := None;
  now_text := fun _ => "2026-01-01T00:00:00Z";
|}.
#[local] Instance scan_parquet : Parquet := {|
  landing_parquet := fun cols rows markers => fmt ["PAR1"; pretty (Z.of_nat (length rows)); "PAR1"];
|}.

Definition scan_trace : list disk := mw_trace (publish_table scan_target scan_table 1 None false None (MWorld (Disk ∅ ∅) [] 0)).2.

Lemma scan_now n : now_text n <> "".
Proof. discriminate. Qed.

(** The first file of the scan. *)
Definition scan_file : string := "orders/00000000000000000001.parquet".

Lemma landing_zone_crash_safe_witness :
  exists before after s p payload, scan_trace !! 5%nat = Some before /\ scan_trace !! 4%nat = Some after /\
    dk_zone before !! scan_file = None /\ dk_zone after !! scan_file = Some (ZData payload) /\
    stored scan_target scan_table before = Some s /\ ps_pending s = Some p /\ sha256_hex payload = pb_content_hash p.
Proof.
  assert (exists before, scan_trace !! 5%nat = Some before /\ dk_zone before !! scan_file = None) as (before & Hb & Hno).
  { eexists. split; vm_compute; reflexivity. }
  assert (exists after c, scan_trace !! 4%nat = Some after /\ dk_zone after !! scan_file = Some c) as (after & c & Ha & Hz).
  { do 2 eexists. split; vm_compute; reflexivity. }
  destruct (landing_zone_crash_safe scan_target scan_table scan_now (Disk ∅ ∅) (drop 0 scan_trace ++ [Disk ∅ ∅])) as [_ Hstep].
  - intros s p Hs. discriminate Hs.
  - intros s p z x Hs. discriminate Hs.
  - apply history_run. apply history_start.
  - destruct (Hstep 4%nat before after) as (_ & Hnew & _).
    + apply lookup_app_l_Some. exact Hb.
    + apply lookup_app_l_Some. exact Ha.
    + destruct (Hnew scan_file c) as (s & p & payload & Hs & Hp & _ & Hc & Hh).
      * vm_compute. reflexivity.
      * exact Hno.
      * exact Hz.
      * exists before, after, s, p, payload. rewrite Hz, Hc. split_and!; done.
Defined.
