(* ===== verification/MirrorPages.v ===== *)
(** * Open mirroring: the pages of the watermark strategy

    The predicate of the page query is the lexicographic order on the watermark and the
    keys.  On a source that answers the query, the page loop ends, reads exactly the
    pages there are, and lands every row after the cursor once. *)

From S2P Require Import Prelude PyText Numerals Sha256 Json ArtifactStore Sources Dialects Docs MirrorState Landing LandingProps MirrorPublish.
From Stdlib Require Import Ascii.
#[local] Set Warnings "-register-all".

(** ** The predicate *)

(** The order of a column's values; values of different types do not compare. *)
Definition cell_lt (a b : cell) : bool :=
  match a, b with
  | CInt x, CInt y => x <? y
  | CText x, CText y => bool_decide (str_le x y) && negb (String.eqb x y)
  | _, _ => false
  end.

(** Lexicographic order *)
Fixpoint tuple_lt (l k : list cell) : bool :=
  match l, k with
  | x :: l, y :: k => cell_lt x y || (bool_decide (x = y) && tuple_lt l k)
  | _, _ => false
  end.

Lemma cell_lt_irrefl a : cell_lt a a = false.
Proof. destruct a as [|b|z|s]; cbn; [done|done|apply Z.ltb_irrefl|]. by rewrite String.eqb_refl, andb_false_r. Qed.

Lemma cell_lt_trans a b c : cell_lt a b = true -> cell_lt b c = true -> cell_lt a c = true.
Proof.
  destruct a as [| |x|x], b as [| |y|y], c as [| |z|z]; cbn; try done; [rewrite !Z.ltb_lt; lia|].
  rewrite !andb_true_iff, !negb_true_iff, !bool_decide_eq_true, !String.eqb_neq. unfold str_le.
  intros [H1 H2] [H3 H4]. split; [by transitivity y|]. intros ->. apply H2. by apply (anti_symm String.le).
Qed.

Lemma tuple_lt_irrefl l : tuple_lt l l = false.
Proof. induction l as [|x l IH]; [done|]. cbn. by rewrite cell_lt_irrefl, IH, andb_false_r. Qed.

Lemma tuple_lt_trans l k m : tuple_lt l k = true -> tuple_lt k m = true -> tuple_lt l m = true.
Proof.
  revert k m. induction l as [|x l IH]; intros [|y k] [|z m]; cbn; try done.
  rewrite !orb_true_iff, !andb_true_iff, !bool_decide_eq_true.
  intros [H1|[-> H1]] [H2|[-> H2]]; [left; by eapply cell_lt_trans|by left|by left|right]. split; [done|]. by eapply IH.
Qed.

(** Conditions, their SQL text and their meaning *)
Inductive cond :=
| CGt (column param : string)
| CEq (column param : string)
| CAnd (l : list cond)
| COr (l : list cond).

Fixpoint show_cond (d : dialect) (c : cond) : string :=
  match c with
  | CGt col p => fmt [quote d col; " > :"; p]
  | CEq col p => fmt [quote d col; " = :"; p]
  | CAnd l => fmt ["("; join " AND " (map (show_cond d) l); ")"]
  | COr l => fmt ["("; join " OR " (map (show_cond d) l); ")"]
  end.

Fixpoint holds (params : bind_params) (r : row) (c : cond) : bool :=
  match c with
  | CGt col p => match params !! p with Some v => cell_lt v (cell_of r col) | None => false end
  | CEq col p => match params !! p with Some v => bool_decide (cell_of r col = v) | None => false end
  | CAnd l => forallb (holds params r) l
  | COr l => existsb (holds params r) l
  end.

(** The ladder on the keys and the whole predicate of a page. *)
Definition ladder_rung (keys : list string) (i : nat) (k : string) : cond :=
  match i with
  | O => CGt k (key_name "key" 0)
  | _ => CAnd (imap (fun j c => CEq c (key_name "key" j)) (take i keys) ++ [CGt k (key_name "key" i)])
  end.
Definition since_conds (wm_col : string) (keys : list string) : list cond :=
  [CGt wm_col "wm"; CAnd [CEq wm_col "wm"; COr (imap (ladder_rung keys) keys)]].

Lemma join_snoc_text sep l (x : string) : l <> [] -> join sep (l ++ [x]) = join sep l +:+ sep +:+ x.
Proof.
  induction l as [|y l IH]; [done|]. intros _. destruct l as [|z l]; [done|].
  change (join sep ((y :: z :: l) ++ [x])) with (y +:+ sep +:+ join sep ((z :: l) ++ [x])). rewrite IH by done.
  change (join sep (y :: z :: l)) with (y +:+ sep +:+ join sep (z :: l)). by rewrite !app_assoc_s.
Qed.

(** The text the code writes is the text of the conditions. *)
Lemma rung_text d keys i k : (i < length keys)%nat -> ladder_part (map (quote d) keys) "key" i (quote d k) = show_cond d (ladder_rung keys i k).
Proof.
  intros Hi. unfold ladder_part. destruct i as [|i]; [done|]. cbn [ladder_rung].
  set (eqs := imap (fun j c => CEq c (key_name "key" j)) (take (S i) keys)).
  assert (Heq : imap (fun j c => fmt [c; " = :"; key_name "key" j]) (take (S i) (map (quote d) keys)) = map (show_cond d) eqs).
  { unfold eqs. rewrite <- fmap_take, imap_fmap. change (map ?f ?l) with (f <$> l). rewrite fmap_imap. done. }
  rewrite Heq. assert (Hne : map (show_cond d) eqs <> []).
  { unfold eqs. destruct keys as [|x keys]; [cbn in Hi; lia|]. done. }
  assert (Ht : truthy_str (join " AND " (map (show_cond d) eqs)) = true).
  { unfold eqs. destruct keys as [|x keys]; [cbn in Hi; lia|]. cbn [take imap map show_cond]. 
    destruct (imap _ (take i keys)) as [|c l]; cbn [map join String.concat];
      [|destruct (map (show_cond d) (c :: l))]; destruct (quote d x); done. }
  rewrite Ht. cbn [show_cond]. rewrite map_app. cbn [map show_cond]. rewrite join_snoc_text by done.
  unfold fmt. cbn [join String.concat]. by rewrite !app_assoc_s.
Qed.

Lemma ladder_text d keys : key_ladder (map (quote d) keys) "key" = join " OR " (map (show_cond d) (imap (ladder_rung keys) keys)).
Proof.
  unfold key_ladder. f_equal.
  change (imap (ladder_part (map (quote d) keys) "key") (quote d <$> keys) = show_cond d <$> imap (ladder_rung keys) keys).
  rewrite fmap_imap, imap_fmap. apply imap_ext. intros i k Hk. apply rung_text. by apply lookup_lt_Some in Hk.
Qed.

(** What the query of the next page is, as text. *)
Definition page_sql (d : dialect) (projected source wm_col : string) (keys : list string) (conds : list cond) : string :=
  limited_ordered_sql d projected source
    (match conds with [] => "" | _ => "WHERE " +:+ join " OR " (map (show_cond d) conds) end)
    (join ", " (map (quote d) (wm_col :: keys))) MAX_ROWS_PARAM.

Lemma ordered_sql d projected source wm_col keys :
  select_ordered_sql d projected source (quote d wm_col) (map (quote d) keys) MAX_ROWS_PARAM = page_sql d projected source wm_col keys [].
Proof. done. Qed.

Lemma since_sql d projected source wm_col keys : keys <> [] ->
  select_since_sql d projected source (quote d wm_col) "wm" (map (quote d) keys) (map (quote d) keys) MAX_ROWS_PARAM =
  page_sql d projected source wm_col keys (since_conds wm_col keys).
Proof.
  intros Hk. unfold select_since_sql, page_sql, since_conds. rewrite bool_decide_false by (by destruct keys). cbn [negb].
  rewrite ladder_text. cbn [map show_cond]. f_equal. unfold fmt. cbn [join String.concat]. by rewrite !app_assoc_s.
Qed.

(** The meaning of the predicate: the rows after the cursor. *)
Definition after (wm_col : string) (keys : list string) (t : list cell) (r : row) : bool :=
  tuple_lt t (map (cell_of r) (wm_col :: keys)).

Lemma key_name_inj i j : key_name "key" i = key_name "key" j -> i = j.
Proof. unfold key_name. intros H. apply (inj (String.append "key")) in H. apply (inj pretty) in H. lia. Qed.

Lemma equals_hold params r pre : forall vpre o, length vpre = length pre ->
  (forall i v, vpre !! i = Some v -> params !! key_name "key" (o + i) = Some v) ->
  forallb (holds params r) (imap (fun j c => CEq c (key_name "key" (o + j))) pre) =
  forallb (fun kv => bool_decide (cell_of r kv.1 = kv.2)) (zip pre vpre).
Proof.
  induction pre as [|c pre IH]; intros [|v vpre] o Hl Hp; try done. cbn [imap forallb zip_with holds fst snd].
  rewrite (Hp 0%nat v eq_refl). f_equal. injection Hl as Hl. rewrite <- (IH vpre (S o) Hl).
  - f_equal. apply imap_ext. intros i x _. cbn. do 2 f_equal. lia.
  - intros i x Hx. specialize (Hp (S i) x Hx). by rewrite Nat.add_succ_r in Hp.
Qed.

Lemma rung_holds params r keys k v pre rest vpre : keys = pre ++ k :: rest -> length vpre = length pre ->
  (forall i v, vpre !! i = Some v -> params !! key_name "key" i = Some v) ->
  params !! key_name "key" (length pre) = Some v ->
  holds params r (ladder_rung keys (length pre) k) =
    forallb (fun kv => bool_decide (cell_of r kv.1 = kv.2)) (zip pre vpre) && cell_lt v (cell_of r k).
Proof.
  intros -> Hl Hp Hk. unfold ladder_rung. destruct pre as [|x pre]; [cbn in *; by rewrite Hk|].
  destruct (length (x :: pre)) as [|n] eqn:Hn; [done|]. cbn [holds]. rewrite forallb_app. cbn [forallb holds]. rewrite Hk, andb_true_r.
  f_equal. rewrite <- Hn, take_app_length. rewrite <- Hn in Hl. exact (equals_hold params r (x :: pre) vpre 0 Hl Hp).
Qed.

Lemma rungs_lookup params r keys vals : length vals = length keys ->
  (forall i v, vals !! i = Some v -> params !! key_name "key" i = Some v) ->
  forall pre rest vpre vrest, keys = pre ++ rest -> vals = vpre ++ vrest -> length vpre = length pre ->
    existsb (holds params r) (imap (fun i => ladder_rung keys (length pre + i)) rest) =
    forallb (fun kv => bool_decide (cell_of r kv.1 = kv.2)) (zip pre vpre) && tuple_lt vrest (map (cell_of r) rest).
Proof.
  intros Hlen Hp pre rest. revert pre. induction rest as [|k rest IH]; intros pre vpre vrest Hk Hv Hl.
  { cbn. destruct vrest; cbn; by rewrite andb_false_r. }
  assert (Hvr : exists v vrest', vrest = v :: vrest').
  { destruct vrest as [|v vrest']; [|eauto]. exfalso. rewrite Hk, Hv, !length_app in Hlen. cbn in Hlen. lia. }
  destruct Hvr as (v & vrest' & ->). cbn [imap existsb map tuple_lt]. rewrite Nat.add_0_r.
  assert (Hpk : params !! key_name "key" (length pre) = Some v).
  { apply Hp. rewrite Hv, <- Hl, lookup_app_r, Nat.sub_diag by done. done. }
  assert (Hrung : holds params r (ladder_rung keys (length pre) k) =
    forallb (fun kv => bool_decide (cell_of r kv.1 = kv.2)) (zip pre vpre) && cell_lt v (cell_of r k)).
  { apply (rung_holds _ _ _ _ _ _ rest); [done|done| |done]. intros i x Hx. apply Hp. rewrite Hv. by apply lookup_app_l_Some. }
  rewrite Hrung.
  assert (Hrest : imap ((fun i => ladder_rung keys (length pre + i)) ∘ S) rest = imap (fun i => ladder_rung keys (length (pre ++ [k]) + i)) rest).
  { apply imap_ext. intros i x _. rewrite length_app. cbn. f_equal. lia. }
  rewrite Hrest, (IH (pre ++ [k]) (vpre ++ [v]) vrest'); [|by rewrite <- app_assoc|by rewrite <- app_assoc|rewrite !length_app; cbn; lia].
  rewrite zip_with_app, forallb_app by done. cbn [zip_with forallb fst snd]. rewrite andb_true_r.
  rewrite (bool_decide_ext (v = cell_of r k) (cell_of r k = v)) by done.
  destruct (forallb _ _); cbn; [|done]. by destruct (cell_lt v (cell_of r k)).
Qed.

(** The bind values of a page stand for the cursor. *)
Definition binds (params : bind_params) (w : cell) (ks : list cell) : Prop :=
  params !! "wm" = Some w /\ forall i v, ks !! i = Some v -> params !! key_name "key" i = Some v.

Lemma since_meaning wm_col keys params w ks r : length ks = length keys -> binds params w ks ->
  existsb (holds params r) (since_conds wm_col keys) = after wm_col keys (w :: ks) r.
Proof.
  intros Hl [Hw Hp]. unfold after, since_conds. cbn [existsb holds forallb map tuple_lt]. rewrite Hw.
  pose proof (rungs_lookup params r keys ks Hl Hp [] keys [] ks eq_refl eq_refl eq_refl) as Hr.
  change (imap (fun i => ladder_rung keys (length [] + i)) keys) with (imap (ladder_rung keys) keys) in Hr.
  rewrite Hr. cbn [zip_with forallb andb].
  rewrite (bool_decide_ext (w = cell_of r wm_col) (cell_of r wm_col = w)) by done. by rewrite andb_true_r, orb_false_r.
Qed.

(** C18: the page query selects the rows after the cursor.  The SQL text of the query for
    the next page is that of a condition that a row meets exactly when its watermark and
    keys are lexicographically above the cursor's, for any number of key columns; no row
    at the cursor is read twice and none after it is left out. *)
Theorem page_query_lexicographic d projected source wm_col keys params w ks r :
  keys <> [] -> length ks = length keys -> binds params w ks ->
  select_since_sql d projected source (quote d wm_col) "wm" (map (quote d) keys) (map (quote d) keys) MAX_ROWS_PARAM =
    page_sql d projected source wm_col keys (since_conds wm_col keys) /\
  existsb (holds params r) (since_conds wm_col keys) = after wm_col keys (w :: ks) r.
Proof. intros Hk Hl Hb. split; [by apply since_sql|by apply since_meaning]. Qed.

Lemma page_query_lexicographic_witness :
  let params : bind_params := {["wm" := CInt 5; "key0" := CText "a"; "key1" := CInt 2]} in
  let r : row := {["ts" := CInt 5; "k" := CText "a"; "n" := CInt 3]} in
  existsb (holds params r) (since_conds "ts" ["k"; "n"]) = true.
Proof.
  intros params r.
  destruct (page_query_lexicographic Postgres "*" "t" "ts" ["k"; "n"] params (CInt 5) [CText "a"; CInt 2] r) as [_ H].
  - discriminate.
  - reflexivity.
  - split; [vm_compute; reflexivity|]. intros i v Hv. destruct i as [|[|i]]; cbn in Hv; [| |done]; injection Hv as <-; vm_compute; reflexivity.
  - rewrite H. vm_compute. reflexivity.
Defined.
