(* ===== verification/MirrorLoop.v ===== *)
(** * Open mirroring: the page loop ends and lands every row

    On a source whose rows have distinct, comparable watermark and key values, the loop
    of the watermark strategy reads one page more than the full pages there are and
    lands every row after the cursor once, in order. *)

From S2P Require Import Prelude PyText Numerals Sha256 Json ArtifactStore Sources Dialects Docs MirrorState Landing LandingProps MirrorPublish MirrorPages.
From Stdlib Require Import Ascii Sorted.

(** ** Sorted sources *)

Lemma filter_accepted {A} (P : A -> Prop) `{forall x, Decision (P x)} (l : list A) : (forall x, x ∈ l -> P x) -> filter P l = l.
Proof.
  induction l as [|a l IH]; intros H1; [done|]. rewrite filter_cons_True by (apply H1; by left). f_equal. apply IH. intros; apply H1; by right.
Qed.
Lemma filter_rejected {A} (P : A -> Prop) `{forall x, Decision (P x)} (l : list A) : (forall x, x ∈ l -> ~ P x) -> filter P l = [].
Proof.
  induction l as [|a l IH]; intros H1; [done|]. rewrite filter_cons_False by (apply H1; by left). apply IH. intros; apply H1; by right.
Qed.

Section sorted.
Context (wm_col : string) (keys : list string).

Definition tuple (r : row) : list cell := map (cell_of r) (wm_col :: keys).
Definition ordered (a b : row) : Prop := tuple_lt (tuple a) (tuple b) = true.

(** The rows after an optional cursor. *)
Definition after_opt (t : option (list cell)) (r : row) : bool :=
  match t with None => true | Some t => after wm_col keys t r end.

Lemma after_ordered t a b : after_opt t a = true -> ordered a b -> after_opt t b = true.
Proof. destruct t as [t|]; [|done]. unfold after_opt, after, ordered, tuple. apply tuple_lt_trans. Qed.

Lemma after_suffix t l : StronglySorted ordered l -> exists pre, l = pre ++ filter (fun r => after_opt t r = true) l.
Proof.
  induction 1 as [|a l Hs [pre IH] Ha]; [by exists []|]. destruct (after_opt t a) eqn:E.
  - exists []. rewrite filter_cons_True by done. cbn. f_equal. symmetry. apply filter_accepted.
    rewrite Forall_forall in Ha. intros x Hx. apply (after_ordered t a); [done|]. by apply Ha.
  - rewrite filter_cons_False by (by rewrite E). exists (a :: pre). cbn. by rewrite <- IH.
Qed.

Lemma after_row l a r b : StronglySorted ordered l -> l = a ++ r :: b ->
  filter (fun x => after_opt (Some (tuple r)) x = true) l = b.
Proof.
  intros Hs ->. rewrite filter_app. apply StronglySorted_app in Hs as (Hab & Ha & Hrb).
  apply StronglySorted_inv in Hrb as [Hb Hr].
  rewrite (filter_rejected _ a), filter_cons_False; [cbn [app]; apply filter_accepted; rewrite Forall_forall in Hr; exact Hr|..].
  - unfold after_opt, after. intros Hx. by rewrite tuple_lt_irrefl in Hx.
  - intros x Hx Hax. unfold after_opt, after in Hax. fold (tuple x) in Hax.
    assert (tuple_lt (tuple x) (tuple r) = true) as Hxr by (apply (Hab x r); [done|by left]).
    pose proof (tuple_lt_trans _ _ _ Hax Hxr) as Hc. by rewrite tuple_lt_irrefl in Hc.
Qed.
End sorted.

(** ** The landing zone during a cycle *)

Section zone.
Context (pd : string).

(** Every numbered file of the folder is below [b]. *)
Definition numbers_below (b : Z) (zn : zone) : Prop :=
  forall name i, name ∈ dir_names zn pd -> parse_file_index name = Some i -> i < b.

Lemma elem_of_dir_names (zn : zone) name : name ∈ dir_names zn pd <-> exists k, is_Some (zn !! k) /\ child_name pd k = Some name.
Proof.
  unfold dir_names, sorted_set. rewrite merge_sort_Permutation, elem_of_remove_dups, list_elem_of_omap. split.
  - intros ([k c] & Hin & Hc). apply elem_of_map_to_list in Hin. exists k. cbn in Hc. split; [eauto|done].
  - intros (k & [c Hk] & Hc). exists (k, c). by rewrite elem_of_map_to_list.
Qed.

Lemma numbers_next b (zn : zone) : 1 <= b -> numbers_below b zn -> next_file_index (dir_names zn pd) <= b.
Proof.
  intros Hb Hn. unfold numbers_below in Hn. unfold next_file_index. set (f := fun _ _ => _).
  assert (H : forall names h, h < b -> (forall name i, name ∈ names -> parse_file_index name = Some i -> i < b) -> foldl f h names < b).
  { intros names. induction names as [|x names IH]; intros h Hh Hx; [done|]. cbn [foldl]. apply IH.
    - unfold f. destruct (parse_file_index x) as [i|] eqn:E; [|done]. destruct (h <? i); [|done]. apply (Hx x); [by left|done].
    - intros name i Hin. apply Hx. by right. }
  assert (foldl f 0 (dir_names zn pd) < b); [|lia]. apply H; [lia|]. exact Hn.
Qed.

(** What a write of one file does to the zone. *)
Definition wrote (z : string) (c : zone_file) (w w' : mworld) : Prop :=
  dk_zone (mw_disk w') = delete (tmp z) (<[z := c]> (<[tmp z := c]> (dk_zone (mw_disk w)))).

Lemma write_zone_runs rel z c w : zone_path rel = Ok z -> exists w', write_zone rel c w = (Ok tt, w') /\ wrote z c w w'.
Proof. intros Hz. unfold write_zone, mbind, M_bind, lift. rewrite Hz. by eexists. Qed.

Lemma wrote_numbers z c w w' b : wrote z c w w' -> (forall name i, child_name pd z = Some name -> parse_file_index name = Some i -> i < b) ->
  numbers_below b (dk_zone (mw_disk w)) -> numbers_below b (dk_zone (mw_disk w')).
Proof.
  intros Hw Hz Hn name i Hin Hp. apply elem_of_dir_names in Hin as (k & [x Hk] & Hc). rewrite Hw in Hk.
  apply lookup_delete_Some in Hk as [Hne Hk]. destruct (decide (z = k)) as [<-|Hzk]; [by apply (Hz name)|].
  rewrite !lookup_insert_ne in Hk by done. apply (Hn name); [|done]. apply elem_of_dir_names. exists k. split; [eauto|done].
Qed.

Lemma wrote_data z c w w' z' : wrote z c w w' -> data_file z' -> z' <> z -> dk_zone (mw_disk w') !! z' = dk_zone (mw_disk w) !! z'.
Proof.
  intros Hw Hd Hne. rewrite Hw, lookup_delete_ne by (intros <-; by apply tmp_not_data in Hd).
  rewrite !lookup_insert_ne; [done| |done]. intros <-. by apply tmp_not_data in Hd.
Qed.

Lemma wrote_at z c w w' : wrote z c w w' -> dk_zone (mw_disk w') !! z = Some c.
Proof. intros Hw. rewrite Hw, lookup_delete_ne by apply tmp_ne. by rewrite lookup_insert_eq. Qed.

(** Nothing numbered is added and the data files stay. *)
Definition settled (w w' : mworld) : Prop :=
  (forall z, data_file z -> dk_zone (mw_disk w') !! z = dk_zone (mw_disk w) !! z) /\
  forall b, numbers_below b (dk_zone (mw_disk w)) -> numbers_below b (dk_zone (mw_disk w')).

#[global] Instance settled_preorder : PreOrder settled.
Proof.
  split; [by intros w|]. intros a b c [H1 H2] [H3 H4]. split; [|auto]. intros z Hz. by rewrite H3, H1.
Qed.

Lemma same_zone_settled w w' : dk_zone (mw_disk w') = dk_zone (mw_disk w) -> settled w w'.
Proof. unfold settled. by intros ->. Qed.

Lemma wrote_settled z c w w' : wrote z c w w' -> ~ data_file z -> (forall name, child_name pd z = Some name -> parse_file_index name = None) ->
  settled w w'.
Proof.
  intros Hw Hd Hz. split.
  - intros z' Hz'. apply (wrote_data z c); [done|done|]. by intros ->.
  - intros b. apply (wrote_numbers z c); [done|]. intros name i Hc Hp. by rewrite (Hz name Hc) in Hp.
Qed.

Lemma no_child name : str_forallb (fun a => negb (Ascii.eqb a slash)) name = true -> pd <> "" -> child_name pd name = None.
Proof.
  intros Hf Hpd. unfold child_name. assert (truthy_str pd = true) as -> by (unfold truthy_str; by destruct (String.eqb_spec pd "")).
  destruct (startswith name (pd +:+ "/")) eqn:Hs; [|done]. exfalso. apply startswith_inv in Hs as [t ->].
  rewrite !str_forallb_app, !andb_true_iff in Hf. by destruct Hf as [[_ Hf] _].
Qed.
End zone.

(** ** Operations that succeed *)

Section loop.
Context `{HEnv : MirrorEnv} `{HParquet : Parquet} (target : mirror_target) (table : mirror_table) (dir pd : string).

(** The run may go on, and the folder of the table can be written. *)
Definition unhindered : Prop :=
  match leadership_check with Some check => forall k, check k = Ok tt | None => True end /\
  strip (tg_partner_name target) <> "" /\ key_columns table <> [] /\
  table_dir table = Ok dir /\ zone_path dir = Ok pd.

Hypothesis Hgo : unhindered.

Lemma leadership_runs w : exists w', check_leadership w = (Ok tt, w') /\ mw_disk w' = mw_disk w.
Proof.
  destruct Hgo as [Hl _]. unfold check_leadership. destruct leadership_check as [check|]; [|by eexists].
  unfold ask. rewrite Hl. by eexists.
Qed.

Lemma partner_runs w : exists w', ensure_partner_events target w = (Ok tt, w') /\ settled pd w w'.
Proof.
  destruct Hgo as (_ & Hp & _). unfold ensure_partner_events. destruct (_ && _); [by exists w|].
  unfold build_partner_events. assert (truthy_str (strip (tg_partner_name target)) = true) as ->
    by (unfold truthy_str; by destruct (String.eqb_spec (strip (tg_partner_name target)) "")).
  cbn [negb]. cbv zeta. unfold mbind at 1, M_bind at 1, lift.
  edestruct (write_zone_runs PARTNER_EVENTS_FILE PARTNER_EVENTS_FILE) as (w' & -> & Hw); [by vm_compute|].
  exists w'. split; [done|]. apply (wrote_settled pd _ _ _ _ Hw); [by vm_compute|].
  intros name Hc. destruct (decide (pd = "")) as [->|Hne].
  - vm_compute in Hc. injection Hc as <-. by vm_compute.
  - rewrite no_child in Hc by (by vm_compute + done). done.
Qed.

Lemma metadata_runs w : exists w', ensure_table_metadata table w = (Ok tt, w') /\ settled pd w w'.
Proof.
  destruct Hgo as (_ & _ & Hk & Hdir & Hpd). unfold ensure_table_metadata.
  rewrite (run_bind _ _ dir w w) by (unfold lift; by rewrite Hdir). cbv zeta.
  assert (Hseg : one_segment TABLE_METADATA_FILE) by (by split_and!).
  destruct (zone_path_ok dir pd TABLE_METADATA_FILE Hpd Hseg) as [z Hz].
  destruct (zone_path_dir _ _ _ Hseg Hz) as (pd' & Hpd' & Ez). rewrite Hpd in Hpd'. injection Hpd' as <-.
  rewrite (run_bind _ _ (path_exists (dk_zone (mw_disk w)) z) w w).
  2: { unfold zone_exists. rewrite (run_bind _ _ z w w) by (unfold lift; by rewrite Hz). done. }
  destruct (path_exists _ z); [by exists w|]. unfold build_table_metadata.
  assert (Hne : filter (fun s => s <> "") (map strip (key_columns table)) <> []).
  { unfold key_columns in *. set (l := map strip (split_on "," (mt_key_column table))) in *.
    assert (Hst : forall x, x ∈ filter (fun s => s <> "") l -> strip x = x).
    { intros x [_ Hx]%list_elem_of_filter. unfold l in Hx. apply list_elem_of_fmap in Hx as (y & -> & _). apply strip_idem. }
    destruct (filter (fun s => s <> "") l) as [|x xs] eqn:E; [done|]. cbn [map]. rewrite (Hst x) by left.
    assert (x <> "") as Hx by (assert (x ∈ filter (fun s => s <> "") l) as Hx by (rewrite E; left); by apply list_elem_of_filter in Hx as [? _]).
    by rewrite filter_cons_True. }
  rewrite bool_decide_false by done. unfold mbind at 1, M_bind at 1, lift.
  destruct (write_zone_runs (fmt [dir; "/"; TABLE_METADATA_FILE]) z
    (ZJson (JObj (mk_dict [("keyColumns", JList (map JStr (filter (fun s => s <> "") (map strip (key_columns table)))))]))) w Hz) as (w' & Hw' & Hw).
  exists w'. split; [exact Hw'|]. apply (wrote_settled pd _ _ _ _ Hw).
  - rewrite Ez. unfold data_file. by rewrite below_dir_last.
  - intros name. rewrite Ez, child_name_below by done. intros [= <-]. by vm_compute.
Qed.

(** A fresh name is reserved and the batch recorded; only state files are written. *)
Lemma record_runs s columns payload mk b w : 1 <= b -> b < 10 ^ 20 -> numbers_below pd b (dk_zone (mw_disk w)) ->
  exists path pp z w', record_pending target table s columns payload mk w = (Ok (path, with_pending (Some (mk path pp)) s), w') /\
    dk_zone (mw_disk w') = dk_zone (mw_disk w) /\ zone_path path = Ok z /\ data_file z /\ dk_zone (mw_disk w) !! z = None /\
    forall name i, child_name pd z = Some name -> parse_file_index name = Some i -> i < b + 1.
Proof.
  destruct Hgo as (_ & _ & _ & Hdir & Hpd). intros H1 Hb Hn. unfold record_pending, reserve_batch_path.
  set (idx := next_file_index (dir_names (dk_zone (mw_disk w)) pd)).
  assert (Hidx : 0 < idx <= b) by (split; [apply next_file_index_above|by apply numbers_next]).
  assert (Hname : format_file_name idx = Ok (pad20 idx +:+ ".parquet")).
  { unfold format_file_name. rewrite (proj2 (Z.ltb_ge idx 1)), (proj2 (Z.leb_gt _ idx)); [done|unfold FILE_INDEX_WIDTH; lia|lia]. }
  set (name := pad20 idx +:+ ".parquet") in *. set (path := fmt [dir; "/"; name]).
  assert (Hseg : one_segment name) by (apply numbered_segment; lia).
  destruct (zone_path_ok dir pd name Hpd Hseg) as [z Hz].
  destruct (zone_path_dir _ _ _ Hseg Hz) as (pd' & Hpd' & Ez). rewrite Hpd in Hpd'. injection Hpd' as <-.
  rewrite (run_bind _ _ path w w).
  2: { rewrite (run_bind _ _ dir w w) by (unfold lift; by rewrite Hdir).
       rewrite (run_bind _ _ (dir_names (dk_zone (mw_disk w)) pd) w w)
         by (unfold list_dir; rewrite (run_bind _ _ pd w w) by (unfold lift; by rewrite Hpd); done).
       fold idx. rewrite (run_bind _ _ name w w) by (unfold lift; by rewrite Hname). done. }
  cbv zeta. set (pp := if has_random_tokens columns then _ else None).
  assert (Hsc : exists w1, (if has_random_tokens columns then write_pending_payload target table payload else mret tt) w = (Ok tt, w1) /\
    dk_zone (mw_disk w1) = dk_zone (mw_disk w)) by (destruct (has_random_tokens columns); by eexists).
  destruct Hsc as (w1 & Hw1 & Hz1). rewrite (run_bind _ _ tt w w1 Hw1).
  destruct (leadership_runs w1) as (w2 & Hw2 & Hd2). rewrite (run_bind _ _ tt w1 w2 Hw2).
  exists path, pp, z. eexists. split; [done|]. split; [cbn; by rewrite Hd2|]. split; [done|].
  destruct (reserved_fresh (dk_zone (mw_disk w)) dir pd name z Hpd Hname Hz) as [Hnone Hdz]. split; [done|]. split; [done|].
  intros name' i Hc Hp. rewrite Ez, child_name_below in Hc by apply Hseg. injection Hc as <-.
  rewrite (file_index_roundtrip _ _ Hname) in Hp. injection Hp as <-. lia.
Qed.

(** The data files after a batch was landed at [z]. *)
Definition landed (z payload : string) (w w' : mworld) : Prop :=
  data_file z /\ dk_zone (mw_disk w) !! z = None /\ dk_zone (mw_disk w') !! z = Some (ZData payload) /\
  forall z', data_file z' -> z' <> z -> dk_zone (mw_disk w') !! z' = dk_zone (mw_disk w) !! z'.

Lemma finalize_runs s p w : ps_pending s = Some p ->
  exists now w', finalize_pending target table s w = (Ok (finalized s p now), w') /\ dk_zone (mw_disk w') = dk_zone (mw_disk w).
Proof.
  intros Hp. unfold finalize_pending. rewrite Hp. exists (now_text (mw_ticks w)).
  set (now := now_text (mw_ticks w)). set (w1 := MWorld (mw_disk w) (mw_trace w) (S (mw_ticks w))).
  rewrite (run_bind _ _ now w w1) by done. cbv zeta.
  assert (Hs : exists w2, save_state target table (finalized s p now) w1 = (Ok tt, w2) /\ dk_zone (mw_disk w2) = dk_zone (mw_disk w)) by (by eexists).
  destruct Hs as (w2 & Hw2 & Hz2). rewrite (run_bind _ _ tt w1 w2 Hw2).
  assert (Hr : exists w3, (match pb_payload_path p with
      | Some path => found ← disk_ (fun d => bool_decide (is_Some (dk_files d !! path))); if (found : bool) then remove_file path else mret tt
      | None => mret tt end) w2 = (Ok tt, w3) /\ dk_zone (mw_disk w3) = dk_zone (mw_disk w)).
  { destruct (pb_payload_path p) as [pp|]; [|by eexists]. rewrite (run_bind _ _ (bool_decide (is_Some (dk_files (mw_disk w2) !! pp))) w2 w2) by done.
    destruct (bool_decide _); by eexists. }
  destruct Hr as (w3 & Hw3 & Hz3). rewrite (run_bind _ _ tt w2 w3 Hw3). by exists w3.
Qed.

Lemma land_runs s p path payload z b w : ps_pending s = Some p -> zone_path path = Ok z -> data_file z -> dk_zone (mw_disk w) !! z = None ->
  (forall name i, child_name pd z = Some name -> parse_file_index name = Some i -> i < b) -> numbers_below pd b (dk_zone (mw_disk w)) ->
  exists now w', land_pending target table s path payload w = (Ok (finalized s p now), w') /\
    landed z payload w w' /\ numbers_below pd b (dk_zone (mw_disk w')).
Proof.
  intros Hp Hz Hdz Hnone Hi Hn. unfold land_pending.
  destruct (leadership_runs w) as (w1 & Hw1 & Hd1). rewrite (run_bind _ _ tt w w1 Hw1).
  destruct (write_zone_runs path z (ZData payload) w1 Hz) as (w2 & Hw2 & Hwr).
  assert (Hb : write_batch_at path payload w1 = (Ok tt, w2)).
  { unfold write_batch_at. rewrite (run_bind _ _ tt w1 w2 Hw2). unfold zone_exists, mbind, M_bind, lift. rewrite Hz.
    cbn [disk_ gets]. unfold path_exists. rewrite bool_decide_true by (rewrite (wrote_at _ _ _ _ Hwr); eauto). done. }
  rewrite (run_bind _ _ tt w1 w2 Hb).
  destruct (leadership_runs w2) as (w3 & Hw3 & Hd3). rewrite (run_bind _ _ tt w2 w3 Hw3).
  destruct (finalize_runs s p w3 Hp) as (now & w4 & Hf & Hz4). exists now, w4. split; [done|].
  unfold landed. rewrite Hz4, Hd3. split.
  - split_and!; [done|done|by apply (wrote_at _ _ _ _ Hwr)|]. intros z' Hz' Hne. rewrite (wrote_data _ _ _ _ _ Hwr Hz' Hne). by rewrite Hd1.
  - apply (wrote_numbers pd _ _ _ _ _ Hwr Hi). by rewrite Hd1.
Qed.

Lemma settled_landed z payload w w1 w2 : settled pd w w1 -> landed z payload w1 w2 -> landed z payload w w2.
Proof.
  intros [H1 _] (L1 & L2 & L3 & L4). split_and!; [done|by rewrite <- H1|done|]. intros z' Hz' Hne. by rewrite L4, H1.
Qed.

Lemma page_runs columns l rows next b w :
  ps_pending (pl_state l) = None -> 1 <= b -> b < 10 ^ 20 -> numbers_below pd b (dk_zone (mw_disk w)) ->
  exists s' path z markers now p w', publish_page target table columns l rows next w = (Ok (s', path), w') /\
    ps_pending s' = None /\ ps_committed s' = Some (landed_cursor p now) /\ pb_next p = next /\
    landed z (landing_parquet columns rows markers) w w' /\ numbers_below pd (b + 1) (dk_zone (mw_disk w')).
Proof.
  intros Hp H1 Hb Hn. unfold publish_page. cbv zeta.
  set (first := pl_initial l && _). set (markers := if first then None else _).
  destruct (leadership_runs w) as (w1 & Hw1 & Hd1). rewrite (run_bind _ _ tt w w1 Hw1).
  destruct (partner_runs w1) as (w2 & Hw2 & Hs2). rewrite (run_bind _ _ tt w1 w2 Hw2).
  destruct (metadata_runs w2) as (w3 & Hw3 & Hs3). rewrite (run_bind _ _ tt w2 w3 Hw3).
  assert (Hs : settled pd w w3).
  { etrans; [|exact Hs3]. etrans; [|exact Hs2]. apply same_zone_settled. by rewrite Hd1. }
  set (payload := landing_parquet columns rows markers).
  assert (Hprep : prepare_batch rows columns markers = Ok (payload, sha256_hex payload)).
  { unfold prepare_batch, payload, markers. destruct first; [done|]. by rewrite length_replicate, Nat.eqb_refl. }
  rewrite (run_bind _ _ (payload, sha256_hex payload) w3 w3) by (unfold lift; by rewrite Hprep). rewrite Hp.
  set (mk := fun path payload_path => PendingBatch _ _ _ _ _ _ _ _).
  destruct (record_runs (pl_state l) columns payload mk b w3 H1 Hb (proj2 Hs b Hn)) as (path & pp & z & w4 & Hr & Hz4 & Hzp & Hdz & Hnone & Hidx).
  rewrite (run_bind _ _ _ w3 w4 Hr). rewrite <- Hz4 in Hnone.
  assert (Hn4 : numbers_below pd (b + 1) (dk_zone (mw_disk w4))).
  { rewrite Hz4. intros name i Hin Hpi. assert (i < b); [|lia]. by apply (proj2 Hs b Hn name). }
  destruct (land_runs (with_pending (Some (mk path pp)) (pl_state l)) (mk path pp) path payload z (b + 1) w4 eq_refl Hzp Hdz Hnone Hidx Hn4)
    as (now & w5 & Hl & Hla & Hn5).
  rewrite (run_bind _ _ _ w4 w5 Hl).
  exists (finalized (with_pending (Some (mk path pp)) (pl_state l)) (mk path pp) now), path, z, markers, now, (mk path pp), w5. split_and!; try done.
  apply (settled_landed _ _ _ w4); [|done]. etrans; [exact Hs|]. by apply same_zone_settled.
Qed.

(** ** The source *)

Section source.
Context (columns controls : list column_def) (aliases : list (string * string)) (max_rows : option Z) (wm_col : string)
  (src : list row) (pp : string * bind_params).

Definition source_dialect : dialect := get_dialect (effective_db_url cfg (tg_connection_id target)).
Definition full : list row := restore_control_values src aliases.
Definition size : nat := Z.to_nat (page_size target max_rows).
Definition meets (conds : list cond) (params : bind_params) (r : row) : bool :=
  match conds with [] => true | _ => existsb (holds params r) conds end.
Definition comparable (c : cell) : bool := match c with CInt _ | CText _ => true | _ => false end.

(** A source that does not change: its rows in the order of the page query, with
    distinct comparable cursor values, and a database that answers the two forms of the
    query by its condition and its limit. *)
Record answering : Prop := Answering {
  an_size : 0 < page_size target max_rows;
  an_sorted : StronglySorted (ordered wm_col (key_columns table)) full;
  an_cells : forall r, r ∈ full -> forallb comparable (tuple wm_col (key_columns table) r) = true;
  an_projection : mirror_projection cfg source_dialect (columns ++ controls) = Ok pp;
  an_params : pp.2 !! MAX_ROWS_PARAM = None /\ pp.2 !! "wm" = None;
  an_query : forall k conds params, conds ∈ [[]; since_conds wm_col (key_columns table)] ->
    params !! MAX_ROWS_PARAM = Some (CInt (page_size target max_rows)) ->
    execute_query k (page_sql source_dialect pp.1 (quote_qualified source_dialect (mt_source_table table)) wm_col (key_columns table) conds)
      params (tg_connection_id target) =
    Ok (take size (filter (fun r => meets conds params (restore_row aliases r) = true) src));
}.

(** The cursor stands for the tuple. *)
Definition cursor_at (cur : option committed_cursor) (t : option (list cell)) : Prop :=
  match cur, t with
  | None, None => True
  | Some c, Some (w :: ks) => decode_watermark (cc_watermark c) = Ok w /\ res_map decode_watermark (cc_keys c) = Ok ks /\
                              w <> CNull /\ length ks = length (key_columns table)
  | _, _ => False
  end.

Hypothesis Hsrc : answering.

Lemma take_map_filter {A B} (f : A -> B) (P : B -> bool) k (l : list A) :
  map f (take k (filter (fun a => P (f a) = true) l)) = take k (filter (fun b => P b = true) (map f l)).
Proof.
  change (map f (take k (filter (fun a => P (f a) = true) l))) with (f <$> take k (filter (fun a => P (f a) = true) l)).
  rewrite fmap_take. f_equal. induction l as [|a l IH]; [done|]. cbn [map]. destruct (P (f a)) eqn:E.
  - rewrite !filter_cons_True by done. cbn. f_equal. exact IH.
  - rewrite !filter_cons_False by (by rewrite E). exact IH.
Qed.

Lemma key_params_none ks k : (forall i, key_name "key" i <> k) ->
  (list_to_map (imap (fun i v => (key_name "key" i, v)) ks) : bind_params) !! k = None.
Proof.
  intros Hk. apply not_elem_of_list_to_map. rewrite fmap_imap. intros (i & x & E & _)%elem_of_lookup_imap. by apply (Hk i).
Qed.

Lemma key_params_some ks i v : ks !! i = Some v ->
  (list_to_map (imap (fun i v => (key_name "key" i, v)) ks) : bind_params) !! key_name "key" i = Some v.
Proof.
  intros Hv. apply elem_of_list_to_map.
  - rewrite fmap_imap. apply NoDup_alt. intros a b x Ha Hb. rewrite list_lookup_imap in Ha, Hb.
    destruct (ks !! a); [|done]. destruct (ks !! b); [|done].
    assert (Some (key_name "key" a) = Some (key_name "key" b)) as E by (etrans; [exact Ha|symmetry; exact Hb]).
    apply key_name_inj. congruence.
  - apply list_elem_of_lookup. exists i. by rewrite list_lookup_imap, Hv.
Qed.

Lemma query_answer cur t cv : cursor_at cur t -> cursor_values cur = Ok cv ->
  exists q, watermark_query target table (columns ++ controls) wm_col cv.1 cv.2 (page_size target max_rows) = Ok q /\
    forall k, execute_query k q.1 q.2 (tg_connection_id target) =
      Ok (take size (filter (fun r => after_opt wm_col (key_columns table) t (restore_row aliases r) = true) src)).
Proof.
  destruct Hsrc as [_ _ _ Hproj [Hmax Hwm] Hans]. destruct Hgo as (_ & _ & Hk & _).
  intros Hc Hcv. unfold watermark_query. fold source_dialect. rewrite Hproj. cbn [mbind res_bind].
  destruct cur as [c|], t as [[|w ks]|]; try done.
  - destruct Hc as (Hw & Hks & Hne & Hl). cbn in Hcv. rewrite Hw in Hcv. cbn in Hcv. rewrite Hks in Hcv. injection Hcv as <-. cbn [fst snd].
    rewrite length_map, (proj2 (Nat.eqb_eq _ _) Hl).
    set (params := _ ∪ (_ ∪ _)).
    assert (Hb : binds params w ks).
    { split.
      - unfold params. rewrite lookup_union, key_params_none by (intros i Hi; discriminate Hi).
        rewrite lookup_union, Hwm. done.
      - intros i v Hv. unfold params. by rewrite lookup_union, (key_params_some _ _ _ Hv), union_Some_l. }
    assert (Hm : params !! MAX_ROWS_PARAM = Some (CInt (page_size target max_rows))).
    { unfold params. rewrite lookup_union, key_params_none by (intros i Hi; discriminate Hi). by rewrite lookup_union, Hmax. }
    exists (page_sql source_dialect pp.1 (quote_qualified source_dialect (mt_source_table table)) wm_col (key_columns table)
              (since_conds wm_col (key_columns table)), params).
    split; [destruct w; [done|..]; by rewrite since_sql|].
    intros k. cbn [fst snd]. rewrite Hans; [|right; left|done]. do 2 f_equal. apply list_filter_iff. intros r.
    cbn [meets since_conds after_opt]. fold (since_conds wm_col (key_columns table)). by rewrite (since_meaning _ _ _ w ks).
  - injection Hcv as <-. cbn [fst snd]. eexists. split; [by rewrite ordered_sql|]. intros k. cbn [fst snd].
    rewrite Hans; [done|left|]. by rewrite lookup_union, Hmax.
Qed.

Lemma read_runs cur t cv w : cursor_at cur t -> cursor_values cur = Ok cv ->
  exists w', read_rows_watermark target table columns controls aliases wm_col cv.1 cv.2 (page_size target max_rows) w =
    (Ok (take size (filter (fun r => after_opt wm_col (key_columns table) t r = true) full)), w') /\ mw_disk w' = mw_disk w.
Proof.
  intros Hc Hcv. destruct (query_answer cur t cv Hc Hcv) as (q & Hq & Hex). unfold read_rows_watermark.
  rewrite (run_bind _ _ q w w) by (unfold lift; by rewrite Hq).
  erewrite run_bind; [|unfold ask; rewrite Hex; reflexivity].
  exists (MWorld (mw_disk w) (mw_trace w) (S (mw_ticks w))). split; [|done].
  unfold restore_control_values at 1. rewrite (take_map_filter (restore_row aliases) (after_opt wm_col (key_columns table) t)). reflexivity.
Qed.

(** *** The loop *)

Lemma decode_encode c : comparable c = true -> decode_watermark (encode_watermark c) = Ok c.
Proof. by destruct c. Qed.

Lemma decode_encode_all l : forallb comparable l = true -> res_map decode_watermark (map encode_watermark l) = Ok l.
Proof.
  induction l as [|c l IH]; [done|]. cbn [forallb map res_map]. rewrite andb_true_iff. intros [Hc Hl].
  rewrite decode_encode, IH by done. done.
Qed.

Lemma next_cursor_runs r : r ∈ full ->
  exists c, next_cursor r wm_col (key_columns table) = Ok c /\ forall p now, pb_next p = c ->
    cursor_at (Some (landed_cursor p now)) (Some (tuple wm_col (key_columns table) r)).
Proof.
  intros Hr. pose proof (an_cells Hsrc r Hr) as Hc. unfold tuple in Hc. unfold next_cursor.
  assert (Hex : existsb (fun v => bool_decide (v = CNull)) (map (cell_of r) (wm_col :: key_columns table)) = false).
  { revert Hc. generalize (map (cell_of r) (wm_col :: key_columns table)). intros l. induction l as [|x l IH]; [done|].
    cbn [forallb existsb]. rewrite andb_true_iff. intros [Hx Hl]. rewrite IH by done. by destruct x. }
  rewrite Hex. eexists. split; [done|]. intros p now Hp. unfold landed_cursor, tuple. rewrite Hp. cbn [map cursor_at cc_watermark cc_keys].
  cbn [map forallb] in Hc. apply andb_true_iff in Hc as [Hw Hks]. split_and!.
  - by apply decode_encode.
  - rewrite <- (map_map (cell_of r) encode_watermark). by apply decode_encode_all.
  - by destruct (cell_of r wm_col).
  - by rewrite length_map.
Qed.

Lemma cursor_at_values cur t : cursor_at cur t -> exists cv, cursor_values cur = Ok cv.
Proof.
  destruct cur as [c|], t as [[|w ks]|]; try done; [|by eexists]. intros (Hw & Hks & _). cbn. rewrite Hw. cbn. rewrite Hks. by eexists.
Qed.

Hypothesis no_page_limit : OPEN_MIRROR_MAX_PAGES_PER_CYCLE mirror_settings = 0.
Hypothesis no_row_limit : OPEN_MIRROR_MAX_ROWS_PER_CYCLE mirror_settings = 0.

(** What a stretch of the loop has done with the rows [rem] that were left. *)
Record stretch (rem : list row) (l : page_loop) (w : mworld) (l' : page_loop) (w' : mworld) (files : list (string * list row)) : Prop := Stretch {
  st_published : pl_published l' = pl_published l + Z.of_nat (length rem);
  st_pages : pl_pages l' = pl_pages l + Z.of_nat (length rem / size) + 1;
  st_rows : concat (map snd files) = rem;
  st_names : NoDup (map fst files);
  st_files : forall z page, (z, page) ∈ files -> data_file z /\ dk_zone (mw_disk w) !! z = None /\ (length page <= size)%nat /\
    exists markers, dk_zone (mw_disk w') !! z = Some (ZData (landing_parquet columns page markers));
  st_kept : forall z c, data_file z -> dk_zone (mw_disk w) !! z = Some c -> dk_zone (mw_disk w') !! z = Some c;
  st_cursor : match last rem with
              | Some r => cursor_at (pl_cursor l') (Some (tuple wm_col (key_columns table) r))
              | None => pl_cursor l' = pl_cursor l
              end;
}.

(** A turn on an empty page. *)
Lemma empty_page_runs initial l w t : cursor_at (pl_cursor l) t ->
  filter (fun r => after_opt wm_col (key_columns table) t r = true) full = [] ->
  exists l' w', watermark_page target table columns controls aliases false max_rows wm_col initial l w = (Ok (l', false), w') /\
    stretch [] l w l' w' [].
Proof.
  intros Hc Hrem. destruct (cursor_at_values _ _ Hc) as [cv Hcv]. unfold watermark_page.
  rewrite (run_bind _ _ cv w w) by (unfold lift; by rewrite Hcv).
  destruct (read_runs _ _ _ w Hc Hcv) as (w1 & Hr & Hd1). rewrite Hrem, take_nil in Hr. rewrite (run_bind _ _ [] w w1 Hr). cbv zeta. cbn [last].
  assert (Hsave : exists s w2, (if pl_initial l && negb false then check_leadership;;
      save_state target table (with_strategy "watermark" (with_initialized (pl_state l)));; mret (with_strategy "watermark" (with_initialized (pl_state l)))
      else mret (pl_state l)) w1 = (Ok s, w2) /\ dk_zone (mw_disk w2) = dk_zone (mw_disk w)).
  { destruct (pl_initial l && negb false); [|by exists (pl_state l), w1; rewrite Hd1].
    destruct (leadership_runs w1) as (w2 & Hw2 & Hd2). rewrite (run_bind _ _ tt w1 w2 Hw2).
    eexists _, _. split; [done|]. cbn. by rewrite Hd2, Hd1. }
  destruct Hsave as (s & w2 & Hs & Hz2). rewrite (run_bind _ _ s w1 w2 Hs). eexists _, _. split; [done|].
  split; cbn; try done; [lia|rewrite Nat.Div0.div_0_l; cbn; lia|constructor|by intros z page ?%not_elem_of_nil|].
  intros z c Hz. by rewrite Hz2.
Qed.

Lemma last_take_some (l : list row) k : (0 < k)%nat -> l <> [] -> exists r a, take k l = a ++ [r] /\ last (take k l) = Some r.
Proof.
  intros Hk Hl. destruct (take k l) as [|x a _] eqn:E using rev_ind; [|exists x, a; by rewrite last_snoc].
  exfalso. destruct k; [lia|]. by destruct l.
Qed.

(** A turn on a page with rows. *)
Lemma page_turn initial l w t rem b : cursor_at (pl_cursor l) t ->
  filter (fun r => after_opt wm_col (key_columns table) t r = true) full = rem -> rem <> [] ->
  ps_pending (pl_state l) = None -> 1 <= b -> b < 10 ^ 20 -> numbers_below pd b (dk_zone (mw_disk w)) ->
  exists r l1 w1 z markers, last (take size rem) = Some r /\
    watermark_page target table columns controls aliases false max_rows wm_col initial l w = (Ok (l1, (size <=? length rem)%nat), w1) /\
    cursor_at (pl_cursor l1) (Some (tuple wm_col (key_columns table) r)) /\
    filter (fun x => after_opt wm_col (key_columns table) (Some (tuple wm_col (key_columns table) r)) x = true) full = drop size rem /\
    ps_pending (pl_state l1) = None /\
    pl_published l1 = pl_published l + Z.of_nat (length (take size rem)) /\ pl_pages l1 = pl_pages l + 1 /\
    landed z (landing_parquet columns (take size rem) markers) w w1 /\ numbers_below pd (b + 1) (dk_zone (mw_disk w1)).
Proof.
  intros Hc Hrem Hne Hp H1 Hb Hn. pose proof (an_size Hsrc) as Hsz. assert (Hsize : (0 < size)%nat) by (unfold size; lia).
  destruct (last_take_some rem size Hsize Hne) as (r & a & Ha & Hlast).
  destruct (after_suffix wm_col (key_columns table) t full (an_sorted Hsrc)) as [pre Hpre]. rewrite Hrem in Hpre.
  assert (Hfull : full = (pre ++ a) ++ r :: drop size rem).
  { rewrite Hpre at 1. rewrite <- (take_drop size rem) at 1. rewrite Ha, <- !app_assoc. done. }
  assert (Hr : r ∈ full) by (rewrite Hfull; apply elem_of_app; right; left).
  destruct (next_cursor_runs r Hr) as (next & Hnext & Hat).
  destruct (cursor_at_values _ _ Hc) as [cv Hcv]. unfold watermark_page.
  rewrite (run_bind _ _ cv w w) by (unfold lift; by rewrite Hcv).
  destruct (read_runs _ _ _ w Hc Hcv) as (w1 & Hread & Hd1). rewrite Hrem in Hread. rewrite (run_bind _ _ _ w w1 Hread). cbv zeta.
  rewrite Hlast. rewrite (run_bind _ _ next w1 w1) by (unfold lift; by rewrite Hnext).
  destruct (page_runs columns l (take size rem) next b w1 Hp H1 Hb) as (s' & path & z & markers & now & p & w2 & Hpage & Hps & Hcm & Hpn & Hland & Hn2).
  { by rewrite Hd1. }
  rewrite (run_bind _ _ (s', ps_committed s', Some path) w1 w2).
  2: { rewrite (run_bind _ _ (s', path) w1 w2 Hpage). done. }
  rewrite no_page_limit, no_row_limit. cbn [truthy_int Z.eqb negb andb]. rewrite !andb_true_r.
  exists r. eexists. exists w2, z, markers. split; [done|]. split.
  { unfold mret, M_ret. f_equal. f_equal. f_equal. rewrite length_take. destruct (Nat.leb_spec size (length rem)) as [Hle|Hlt].
    - apply negb_true_iff, Z.ltb_ge. unfold size in *. lia.
    - apply negb_false_iff, Z.ltb_lt. unfold size in *. lia. }
  cbn [pl_cursor pl_state pl_published pl_pages with_pending ps_pending]. rewrite Hcm. split; [by apply Hat|].
  split; [by apply (after_row _ _ full (pre ++ a) r); [apply (an_sorted Hsrc)|]|].
  split; [done|]. split; [done|]. split; [done|]. split; [|done].
  destruct Hland as (L1 & L2 & L3 & L4). rewrite Hd1 in L2, L4. by split_and!.
Qed.

Lemma stretch_page rem r l w l1 w1 z markers :
  rem <> [] -> (length rem < size)%nat -> last rem = Some r ->
  cursor_at (pl_cursor l1) (Some (tuple wm_col (key_columns table) r)) ->
  pl_published l1 = pl_published l + Z.of_nat (length rem) -> pl_pages l1 = pl_pages l + 1 ->
  landed z (landing_parquet columns rem markers) w w1 -> stretch rem l w l1 w1 [(z, rem)].
Proof.
  intros Hne Hlt Hlast Hc Hpub Hpg (L1 & L2 & L3 & L4). split; cbn [map fst snd concat].
  - done.
  - rewrite Nat.div_small by done. lia.
  - by rewrite app_nil_r.
  - apply NoDup_singleton.
  - intros z' page [= -> ->]%list_elem_of_singleton. split_and!; [done|done|lia|by exists markers].
  - intros z' c Hz Hz'. rewrite L4; [done|done|]. intros ->. congruence.
  - by rewrite Hlast.
Qed.

Lemma stretch_cons rem r l w l1 w1 z markers l' w' files :
  (size <= length rem)%nat -> last (take size rem) = Some r ->
  cursor_at (pl_cursor l1) (Some (tuple wm_col (key_columns table) r)) ->
  pl_published l1 = pl_published l + Z.of_nat (length (take size rem)) -> pl_pages l1 = pl_pages l + 1 ->
  landed z (landing_parquet columns (take size rem) markers) w w1 ->
  stretch (drop size rem) l1 w1 l' w' files -> stretch rem l w l' w' ((z, take size rem) :: files).
Proof.
  intros Hle Hlast Hc Hpub Hpg (L1 & L2 & L3 & L4) [S1 S2 S3 S4 S5 S6 S7].
  assert (Hsize : (0 < size)%nat) by (pose proof (an_size Hsrc); unfold size; lia).
  rewrite length_drop in S1, S2. rewrite length_take, Nat.min_l in Hpub by done. split; cbn [map fst snd concat].
  - lia.
  - assert (length rem / size = S ((length rem - size) / size))%nat as ->; [|lia].
    replace (length rem) with ((length rem - size) + 1 * size)%nat at 1 by lia. rewrite Nat.div_add by lia. lia.
  - rewrite S3. apply take_drop.
  - apply NoDup_cons. split; [|done]. intros (x & Hx & Hin)%list_elem_of_fmap. destruct x as [z' page]. cbn in Hx. subst z'.
    destruct (S5 z page Hin) as (_ & Hnone & _). congruence.
  - intros z' page [[= -> ->]|Hin]%elem_of_cons.
    + split_and!; [done|done|rewrite length_take; lia|]. exists markers. by apply S6.
    + destruct (S5 z' page Hin) as (Hd & Hnone & Hl & Hm). split_and!; [done| |done|done].
      rewrite <- L4; [done|done|]. intros ->. congruence.
  - intros z' c Hz Hz'. apply S6; [done|]. rewrite L4; [done|done|]. intros ->. congruence.
  - destruct (last (drop size rem)) as [x|] eqn:E.
    + assert (last rem = Some x) as ->; [|done]. rewrite <- (take_drop size rem), last_app, E. done.
    + apply last_None in E. assert (last rem = Some r) as ->; [|by rewrite S7].
      rewrite <- (take_drop size rem), E, app_nil_r. done.
Qed.

Lemma pages_run initial fuel : forall l w t rem b, cursor_at (pl_cursor l) t ->
  filter (fun r => after_opt wm_col (key_columns table) t r = true) full = rem ->
  ps_pending (pl_state l) = None -> 1 <= b -> b + Z.of_nat fuel <= 10 ^ 20 -> numbers_below pd b (dk_zone (mw_disk w)) ->
  (length rem < fuel * size)%nat ->
  exists l' w' files, watermark_pages target table columns controls aliases false max_rows fuel wm_col initial l w = (Ok l', w') /\
    stretch rem l w l' w' files.
Proof.
  induction fuel as [|fuel IH]; intros l w t rem b Hc Hrem Hp H1 Hb Hn Hlt; [cbn in Hlt; lia|]. cbn [watermark_pages].
  destruct (decide (rem = [])) as [->|Hne].
  - destruct (empty_page_runs initial l w t Hc Hrem) as (l' & w' & Hpage & Hst). rewrite (run_bind _ _ _ w w' Hpage).
    exists l', w', []. by split.
  - destruct (page_turn initial l w t rem b Hc Hrem Hne Hp H1 ltac:(lia) Hn)
      as (r & l1 & w1 & z & markers & Hlast & Hpage & Hc1 & Hrest & Hp1 & Hpub & Hpg & Hland & Hn1).
    rewrite (run_bind _ _ _ w w1 Hpage). cbn [fst snd]. destruct (Nat.leb_spec size (length rem)) as [Hle|Hsm].
    + destruct (IH l1 w1 _ (drop size rem) (b + 1) Hc1 Hrest Hp1 ltac:(lia) ltac:(lia) Hn1) as (l' & w' & files & Hrun & Hst).
      { rewrite length_drop. lia. }
      exists l', w', ((z, take size rem) :: files). split; [done|]. by eapply stretch_cons.
    + rewrite take_ge in * by lia. exists l1, w1, [(z, rem)]. split; [done|]. by eapply stretch_page.
Qed.

Lemma watermark_cycle status reason s w t b fuel :
  mt_watermark_column table = Some wm_col -> wm_col <> "" ->
  (forall k, k ∈ wm_col :: key_columns table -> k ∈ map cd_name columns ++ map source_name controls) ->
  ps_pending s = None -> cursor_at (ps_committed s) t -> 1 <= b -> numbers_below pd b (dk_zone (mw_disk w)) ->
  let rem := filter (fun r => after_opt wm_col (key_columns table) t r = true) full in
  (length rem / size < fuel)%nat -> b + Z.of_nat fuel <= 10 ^ 20 ->
  exists r l' w' files, publish_watermark target table columns controls aliases status reason false max_rows fuel s w = (Ok r, w') /\
    pr_rows_published r = pl_published l' /\ pr_pages_read r = pl_pages l' /\ pr_output_cursor r = pl_cursor l' /\
    stretch rem (PageLoop s (ps_committed s) (negb (ps_initialized s)) 0 0 0 None (if negb (ps_initialized s) then "initial" else "noop")) w l' w' files.
Proof.
  intros Hwm Hne Hcols Hp Hc H1 Hn rem Hfuel Hb. unfold publish_watermark. rewrite Hwm, Hp. cbn [or_empty default from_option id].
  assert (truthy_str wm_col && bool_decide (wm_col ∈ map cd_name columns ++ map source_name controls) = true) as ->.
  { unfold truthy_str. rewrite bool_decide_true by (apply Hcols; by left). by destruct (String.eqb_spec wm_col ""). }
  cbn [negb]. rewrite filter_rejected by (intros x Hx Hno; apply Hno, Hcols; by right).
  rewrite bool_decide_true by done. cbn [negb]. cbv zeta.
  set (l0 := PageLoop _ _ _ _ _ _ _ _).
  assert (Hsize : (0 < size)%nat) by (pose proof (an_size Hsrc); unfold size; lia).
  destruct (pages_run (negb (ps_initialized s)) fuel l0 w t rem b Hc eq_refl Hp H1 Hb Hn) as (l' & w' & files & Hrun & Hst).
  { pose proof (Nat.div_mod (length rem) size). pose proof (Nat.mod_upper_bound (length rem) size). nia. }
  rewrite (run_bind _ _ l' w w' Hrun). eexists _, l', w', files. by split_and!.
Qed.
End source.
End loop.

(** C15: the watermark cycle ends and publishes everything once.  On a source that answers
    the page query, with the caps on the pages and on the rows of a cycle switched off
    (both settings 0), in a landing zone where nothing stands in the way, and from a state with no
    pending batch, [_publish_watermark] stops after exactly one page more than the full pages
    that the rows after the cursor fill, for every bound on the pages that allows them;
    it then reports those rows, has landed each of them exactly once and in order, in
    new files of at most a page each, and every data file of before is unchanged; the
    cursor it leaves is that of the last row, or the old one when there was nothing to
    publish. *)
Theorem watermark_cycle_terminates `{HEnv : MirrorEnv} `{HParquet : Parquet} target table dir pd columns controls aliases max_rows wm_col src pp
    status reason s w t b fuel :
  unhindered target table dir pd ->
  answering target table columns controls aliases max_rows wm_col src pp ->
  OPEN_MIRROR_MAX_PAGES_PER_CYCLE mirror_settings = 0 -> OPEN_MIRROR_MAX_ROWS_PER_CYCLE mirror_settings = 0 ->
  mt_watermark_column table = Some wm_col -> wm_col <> "" ->
  (forall k, k ∈ wm_col :: key_columns table -> k ∈ map cd_name columns ++ map source_name controls) ->
  ps_pending s = None -> cursor_at table (ps_committed s) t ->
  1 <= b -> numbers_below pd b (dk_zone (mw_disk w)) ->
  let rem := filter (fun r => after_opt wm_col (key_columns table) t r = true) (full aliases src) in
  let n := size target max_rows in
  (length rem / n < fuel)%nat -> b + Z.of_nat fuel <= 10 ^ 20 ->
  exists r w' files, publish_watermark target table columns controls aliases status reason false max_rows fuel s w = (Ok r, w') /\
    pr_rows_published r = Z.of_nat (length rem) /\ pr_pages_read r = Z.of_nat (length rem / n) + 1 /\
    concat (map snd files) = rem /\ NoDup (map fst files) /\
    (forall z page, (z, page) ∈ files -> dk_zone (mw_disk w) !! z = None /\ (length page <= n)%nat /\
       exists markers, dk_zone (mw_disk w') !! z = Some (ZData (landing_parquet columns page markers))) /\
    (forall z c, data_file z -> dk_zone (mw_disk w) !! z = Some c -> dk_zone (mw_disk w') !! z = Some c) /\
    match last rem with
    | Some x => cursor_at table (pr_output_cursor r) (Some (tuple wm_col (key_columns table) x))
    | None => pr_output_cursor r = ps_committed s
    end.
Proof.
  intros Hgo Hsrc Hl1 Hl2 Hwm Hne Hcols Hp Hc H1 Hn rem n Hfuel Hb.
  destruct (watermark_cycle target table dir pd Hgo columns controls aliases max_rows wm_col src pp Hsrc Hl1 Hl2
    status reason s w t b fuel Hwm Hne Hcols Hp Hc H1 Hn Hfuel Hb) as (r & l' & w' & files & Hrun & E1 & E2 & E3 & [S1 S2 S3 S4 S5 S6 S7]).
  exists r, w', files. rewrite E1, E2, E3. cbn [pl_published pl_pages pl_cursor] in *.
  split; [done|]. split; [exact S1|]. split; [exact S2|]. split; [done|]. split; [done|]. split; [|by split].
  intros z page Hin. by destruct (S5 z page Hin) as (_ & ? & ? & ?).
Qed.

(** ** A source of three rows *)

Definition feed_columns : list column_def :=
  [ColumnDef 1 "id" "long" false None None None; ColumnDef 2 "ts" "long" false None None None].
Definition feed_row (id ts : Z) : row := {["id" := CInt id; "ts" := CInt ts]}.
Definition feed_rows : list row := [feed_row 1 10; feed_row 2 10; feed_row 3 11].
Definition feed_table : mirror_table := MirrorTable "feed" "feed" "feed" "id" None (Some "watermark") (Some "ts") true None.
Definition feed_target : mirror_target := MirrorTarget "t1" "default" "Partner" None None true [feed_table].
Definition feed_projection : string * bind_params :=
  match mirror_projection plain_config SQLite feed_columns with Ok p => p | Err _ => ("", ∅) end.
Definition feed_sql (conds : list cond) : string :=
  page_sql SQLite feed_projection.1 (quote_qualified SQLite "feed") "ts" ["id"] conds.

(** A database that recognises the two queries. *)
Definition feed_query (sql : string) (params : bind_params) : res (list row) :=
  let limit := match params !! MAX_ROWS_PARAM with Some (CInt n) => Z.to_nat n | _ => 0%nat end in
  let conds := if String.eqb sql (feed_sql []) then [] else since_conds "ts" ["id"] in
  Ok (take limit (filter (fun r => meets conds params r = true) feed_rows)).

#[local] Instance feed_env : MirrorEnv := {|
  mirror_settings := MirrorConfig plain_config "incremental" 0 0 0;
  execute_query := fun _ sql params _ => feed_query sql params;
  derive_table_schema := fun _ _ _ => Ok feed_columns;
  leadership_check := None;
  now_text := fun _ => "2026-01-01T00:00:00Z";
|}.
#[local] Instance feed_parquet : Parquet := {|
  landing_parquet := fun cols rows markers => fmt ["PAR1"; pretty (Z.of_nat (length rows)); "PAR1"];
|}.

Lemma watermark_cycle_terminates_witness :
  exists r w', publish_watermark feed_target feed_table feed_columns [] [] SMissing None false (Some 2) 2 (new_state "watermark")
      (MWorld (Disk ∅ ∅) [] 0) = (Ok r, w') /\ pr_rows_published r = 3 /\ pr_pages_read r = 2.
Proof.
  destruct (watermark_cycle_terminates feed_target feed_table "feed" "feed" feed_columns [] [] (Some 2) "ts" feed_rows feed_projection
    SMissing None (new_state "watermark") (MWorld (Disk ∅ ∅) [] 0) None 1 2) as (r & w' & files & Hrun & Hrows & Hpages & _).
  - split_and!; [exact I|discriminate|discriminate|vm_compute; reflexivity|vm_compute; reflexivity].
  - split.
    + vm_compute. reflexivity.
    + repeat constructor; vm_compute; reflexivity.
    + intros x Hx. repeat (apply elem_of_cons in Hx as [->|Hx]; [vm_compute; reflexivity|]). destruct (not_elem_of_nil _ Hx).
    + vm_compute. reflexivity.
    + split; vm_compute; reflexivity.
    + intros k conds params Hc Hm. cbn [execute_query feed_env]. unfold feed_query. rewrite Hm.
      apply elem_of_cons in Hc as [->|Hc]; [|apply elem_of_cons in Hc as [->|Hc]; [|destruct (not_elem_of_nil _ Hc)]].
      * assert (String.eqb (page_sql (source_dialect feed_target) feed_projection.1 (quote_qualified (source_dialect feed_target) (mt_source_table feed_table))
          "ts" (key_columns feed_table) []) (feed_sql []) = true) as -> by (vm_compute; reflexivity). reflexivity.
      * assert (String.eqb (page_sql (source_dialect feed_target) feed_projection.1 (quote_qualified (source_dialect feed_target) (mt_source_table feed_table))
          "ts" (key_columns feed_table) (since_conds "ts" (key_columns feed_table))) (feed_sql []) = false) as -> by (vm_compute; reflexivity). reflexivity.
  - reflexivity.
  - reflexivity.
  - reflexivity.
  - discriminate.
  - intros k Hk. repeat (apply elem_of_cons in Hk as [->|Hk]; [vm_compute; repeat constructor|]). destruct (not_elem_of_nil _ Hk).
  - reflexivity.
  - exact I.
  - lia.
  - intros name i Hin. vm_compute in Hin. destruct (not_elem_of_nil _ Hin).
  - vm_compute. lia.
  - lia.
  - exists r, w'. split; [exact Hrun|]. split; [exact Hrows|exact Hpages].
Defined.
