(* ===== verification/Md5.v ===== *)
(** * MD5

    [hashlib.md5(..., usedforsecurity=False)], which the S3 endpoint uses for entity
    tags and for stable identifiers: executable, with the padding of RFC 1321. *)

From S2P Require Import Prelude PyText Sha256 Sha1.
From Stdlib Require Import NArith.

#[local] Open Scope N_scope.

Definition md5_constants : list N :=
  [0xd76aa478; 0xe8c7b756; 0x242070db; 0xc1bdceee; 0xf57c0faf; 0x4787c62a; 0xa8304613; 0xfd469501;
   0x698098d8; 0x8b44f7af; 0xffff5bb1; 0x895cd7be; 0x6b901122; 0xfd987193; 0xa679438e; 0x49b40821;
   0xf61e2562; 0xc040b340; 0x265e5a51; 0xe9b6c7aa; 0xd62f105d; 0x02441453; 0xd8a1e681; 0xe7d3fbc8;
   0x21e1cde6; 0xc33707d6; 0xf4d50d87; 0x455a14ed; 0xa9e3e905; 0xfcefa3f8; 0x676f02d9; 0x8d2a4c8a;
   0xfffa3942; 0x8771f681; 0x6d9d6122; 0xfde5380c; 0xa4beea44; 0x4bdecfa9; 0xf6bb4b60; 0xbebfbc70;
   0x289b7ec6; 0xeaa127fa; 0xd4ef3085; 0x04881d05; 0xd9d4d039; 0xe6db99e5; 0x1fa27cf8; 0xc4ac5665;
   0xf4292244; 0x432aff97; 0xab9423a7; 0xfc93a039; 0x655b59c3; 0x8f0ccc92; 0xffeff47d; 0x85845dd1;
   0x6fa87e4f; 0xfe2ce6e0; 0xa3014314; 0x4e0811a1; 0xf7537e82; 0xbd3af235; 0x2ad7d2bb; 0xeb86d391].

(** The shift amounts of the four rounds. *)
Definition md5_shift (t : nat) : N :=
  nth (4 * (t / 16) + t mod 4)%nat [7; 12; 17; 22; 5; 9; 14; 20; 4; 11; 16; 23; 6; 10; 15; 21] 0.

(** The function of a step and the index of its message word. *)
Definition md5_function (t : nat) (b c d : N) : N * nat :=
  let not32 x := N.lxor x 0xffffffff in
  if (t <? 16)%nat then (N.lor (N.land b c) (N.land (not32 b) d), t)
  else if (t <? 32)%nat then (N.lor (N.land d b) (N.land (not32 d) c), (5 * t + 1) mod 16)%nat
  else if (t <? 48)%nat then (N.lxor b (N.lxor c d), (3 * t + 5) mod 16)%nat
  else (N.lxor c (N.lor b (not32 d)), (7 * t) mod 16)%nat.

Definition md5_step (block : list N) (st : list N) (tk : nat * N) : list N :=
  match st with
  | [a; b; c; d] =>
      let '(f, g) := md5_function tk.1 b c d in
      let sum := add32 (add32 a f) (add32 tk.2 (nth g block 0)) in
      [d; add32 b (rotl32 (md5_shift tk.1) sum); b; c]
  | _ => st
  end.

Definition md5_compress (st block : list N) : list N :=
  zip_with add32 st (foldl (md5_step block) st (zip (seq 0 64) md5_constants)).

(** The low [n] bytes of [x], least significant first *)
Fixpoint bytes_le (n : nat) (x : N) : list N :=
  match n with O => [] | S n => N.land x 255 :: bytes_le n (N.shiftr x 8) end.

Fixpoint words_le (n : nat) (bytes : list N) : list N :=
  match n with
  | O => []
  | S n => match bytes with
           | a :: b :: c :: d :: rest => (a + 256 * b + 65536 * c + 16777216 * d) :: words_le n rest
           | _ => []
           end
  end.

Definition md5_pad (bytes : list N) : list N :=
  let n := length bytes in
  bytes ++ 128 :: repeat 0 ((119 - n mod 64) mod 64)%nat ++ bytes_le 8 (8 * N.of_nat n).

Fixpoint md5_blocks (n : nat) (ws st : list N) : list N :=
  match n with
  | O => st
  | S n => md5_blocks n (drop 16 ws) (md5_compress st (take 16 ws))
  end.

(** [hashlib.md5(s).hexdigest()] *)
Definition md5_hex (s : string) : string :=
  let bytes := md5_pad (string_bytes s) in
  let ws := words_le (length bytes / 4) bytes in
  foldr (fun w acc => foldr (fun b acc => hex_word 2 b +:+ acc) "" (bytes_le 4 w) +:+ acc) ""
    (md5_blocks (length ws / 16) ws [0x67452301; 0xefcdab89; 0x98badcfe; 0x10325476]).

Example md5_empty : md5_hex "" = "d41d8cd98f00b204e9800998ecf8427e".
Proof. vm_compute. reflexivity. Qed.

Example md5_abc : md5_hex "abc" = "900150983cd24fb0d6963f7d28e17f72".
Proof. vm_compute. reflexivity. Qed.

Example md5_two_blocks :
  md5_hex "12345678901234567890123456789012345678901234567890123456789012345678901234567890" = "57edf4a22be3c955ac49da2e2107b67a".
Proof. vm_compute. reflexivity. Qed.

Lemma md5_step_length block st tk : length (md5_step block st tk) = length st.
Proof. unfold md5_step. destruct st as [|a [|b [|c [|d [|]]]]]; try done. by destruct (md5_function _ _ _ _). Qed.

Lemma md5_blocks_length n : forall ws st, length (md5_blocks n ws st) = length st.
Proof.
  induction n as [|n IH]; intros ws st; [done|]. cbn [md5_blocks]. rewrite IH. unfold md5_compress.
  rewrite length_zip_with.
  assert (forall l st', length (foldl (md5_step (take 16 ws)) st' l) = length st') as ->; [|lia].
  induction l as [|t l IHl]; intros st'; [done|]. cbn [foldl]. by rewrite IHl, md5_step_length.
Qed.

(** An entity tag is 32 lowercase hexadecimal digits. *)
Lemma md5_shape s : String.length (md5_hex s) = 32%nat /\ str_forallb is_hex_lower (md5_hex s) = true.
Proof.
  unfold md5_hex. set (bytes := md5_pad _). set (ws := words_le _ _).
  pose proof (md5_blocks_length (length ws / 16) ws [0x67452301; 0xefcdab89; 0x98badcfe; 0x10325476]) as Hl.
  revert Hl. generalize (md5_blocks (length ws / 16) ws [0x67452301; 0xefcdab89; 0x98badcfe; 0x10325476]).
  intros l Hl. cbn in Hl. do 4 (destruct l as [|? l]; [done|]). destruct l; [|done].
  cbn [foldr bytes_le]. split.
  - by rewrite !length_app_s, !hex_word_length.
  - by rewrite !str_forallb_app, !hex_word_is_hex.
Qed.
