(* ===== verification/S3Xml.v ===== *)
(** * The XML bodies of the S3 endpoint

    [s3/xml_responses.py], with the part of [xml.etree.ElementTree] it uses: elements
    with attributes, a text and children, and their serialization.  Readings of the
    clock and random identifiers are arguments.

    A reader of the serialized form is given as a reference: what a client reads back
    is the tree that was written, whatever characters a key contains. *)

From S2P Require Import Prelude PyText Sources S3Auth Egress Md5.
From Stdlib Require Import Ascii.
#[local] Set Warnings "-register-all".

(** ** [ElementTree] *)

Inductive xml := El (tag : string) (attrs : list (string * string)) (text : string) (children : list xml).

(** [_escape_cdata] *)
Fixpoint escape_cdata (s : string) : string :=
  match s with
  | EmptyString => ""
  | String a s =>
      (if Ascii.eqb a "&" then "&amp;" else if Ascii.eqb a "<" then "&lt;"
       else if Ascii.eqb a ">" then "&gt;" else String a "") +:+ escape_cdata s
  end.

Definition double_quote : string := String "034" "".

(** [_escape_attrib], on values without white space other than blanks *)
Fixpoint escape_attrib (s : string) : string :=
  match s with
  | EmptyString => ""
  | String a s =>
      (if Ascii.eqb a "&" then "&amp;" else if Ascii.eqb a "<" then "&lt;"
       else if Ascii.eqb a ">" then "&gt;" else if Ascii.eqb a "034" then "&quot;" else String a "") +:+ escape_attrib s
  end.

Definition render_attrs (attrs : list (string * string)) : string :=
  fmt (map (fun kv => fmt [" "; kv.1; "="; double_quote; escape_attrib kv.2; double_quote]) attrs).

(** [ET.tostring(e, encoding="unicode")] *)
Fixpoint tostring (e : xml) : string :=
  match e with
  | El tag attrs text children =>
      if truthy_str text || negb (match children with [] => true | _ => false end)
      then fmt ["<"; tag; render_attrs attrs; ">"; escape_cdata text; fmt (map tostring children); "</"; tag; ">"]
      else fmt ["<"; tag; render_attrs attrs; " />"]
  end.

(** An element with a text only. *)
Definition leaf (tag text : string) : xml := El tag [] text [].

Definition xml_prolog : string :=
  fmt ["<?xml version="; double_quote; "1.0"; double_quote; " encoding="; double_quote; "UTF-8"; double_quote; "?>"; newline].
Definition xml_document (root : xml) : string := xml_prolog +:+ tostring root.

Definition s3_xmlns : list (string * string) := [("xmlns", "http://s3.amazonaws.com/doc/2006-03-01/")].

(** ** Times *)

(** [strftime("%Y-%m-%dT%H:%M:%S.000Z")] of a time in milliseconds *)
Definition iso_utc (ms : Z) : string :=
  let secs := ms / 1000 in
  let '(y, m, d) := civil_from_days (secs / 86400) in
  fmt [pretty y; "-"; two_digits m; "-"; two_digits d; "T"; two_digits (secs mod 86400 / 3600); ":";
       two_digits (secs mod 3600 / 60); ":"; two_digits (secs mod 60); ".000Z"].

(** [_modified], given the reading of the clock it may make *)
Definition modified (now : Z) (ts_ms : Z) : string := if truthy_int ts_ms then iso_utc ts_ms else iso_utc now.

(** ** Responses *)

Definition list_buckets_response (now : nat -> Z) (bucket_name : string) (created_ms : Z) (extra_buckets : list string) : string :=
  xml_document (El "ListAllMyBucketsResult" s3_xmlns ""
    [El "Owner" [] "" [leaf "ID" "poc-owner"; leaf "DisplayName" "poc-owner"];
     El "Buckets" [] "" (imap (fun i name =>
       El "Bucket" [] "" [leaf "Name" name; leaf "CreationDate" (modified (now i) created_ms)]) (bucket_name :: extra_buckets))]).

(** One entry of [objects]. *)
Record listed := Listed {
  li_key : string;
  li_size : Z;
  li_last_modified_ms : Z;
  li_etag : option string;
}.

(** [_etag] *)
Definition key_etag (key : string) : string := md5_hex key.

Definition quote_tag (etag : string) : string := fmt [double_quote; etag; double_quote].

Definition contents_element (now : Z) (o : listed) : xml :=
  El "Contents" [] ""
    [leaf "Key" (li_key o); leaf "LastModified" (modified now (li_last_modified_ms o));
     leaf "ETag" (quote_tag (if truthy_opt (li_etag o) then or_empty (li_etag o) else key_etag (li_key o)));
     leaf "Size" (pretty (li_size o)); leaf "StorageClass" "STANDARD"].

Definition opt_leaf (tag : string) (o : option string) : list xml :=
  match o with Some s => [leaf tag s] | None => [] end.

Definition list_objects_tree (now : nat -> Z) (bucket prefix : string) (objects : list listed) (delimiter : string)
  (common_prefixes : list string) (max_keys : Z) (is_truncated : bool)
  (next_continuation_token continuation_token start_after : option string) : xml :=
  El "ListBucketResult" s3_xmlns ""
    ([leaf "Name" bucket; leaf "Prefix" prefix] ++ opt_leaf "StartAfter" start_after
     ++ [leaf "KeyCount" (pretty (Z.of_nat (length objects + length common_prefixes)));
         leaf "MaxKeys" (pretty max_keys); leaf "IsTruncated" (if is_truncated then "true" else "false")]
     ++ opt_leaf "ContinuationToken" continuation_token
     ++ (if truthy_opt next_continuation_token then [leaf "NextContinuationToken" (or_empty next_continuation_token)] else [])
     ++ (if truthy_str delimiter then [leaf "Delimiter" delimiter] else [])
     ++ imap (fun i o => contents_element (now i) o) objects
     ++ map (fun cp => El "CommonPrefixes" [] "" [leaf "Prefix" cp]) common_prefixes).

Definition list_objects_v2_response (now : nat -> Z) (bucket prefix : string) (objects : list listed) (delimiter : string)
  (common_prefixes : list string) (max_keys : Z) (is_truncated : bool)
  (next_continuation_token continuation_token start_after : option string) : string :=
  xml_document (list_objects_tree now bucket prefix objects delimiter common_prefixes max_keys is_truncated
    next_continuation_token continuation_token start_after).

Definition error_response (request_id host_id code message resource : string) : string :=
  xml_document (El "Error" [] ""
    [leaf "Code" code; leaf "Message" message; leaf "Resource" resource; leaf "RequestId" request_id; leaf "HostId" host_id]).

(** * Reading a document back *)

(** ** The reference reader *)

Definition is_printable (a : ascii) : bool := (32 <=? Z.of_N (N_of_ascii a)).
Definition printable (s : string) : bool := str_forallb is_printable s.

(** Replace the three entities [escape_cdata] writes; other uses of [&] are not read. *)
Fixpoint unescape (s : string) : option string :=
  match s with
  | EmptyString => Some ""
  | String a s' =>
      if Ascii.eqb a "&" then
        match s' with
        | String "a" (String "m" (String "p" (String ";" r))) => String "&" <$> unescape r
        | String "l" (String "t" (String ";" r)) => String "<" <$> unescape r
        | String "g" (String "t" (String ";" r)) => String ">" <$> unescape r
        | _ => None
        end
      else if is_printable a then String a <$> unescape s' else None
  end.

(** The name of a start tag, whose attributes are skipped. *)
Definition tag_name (head : string) : string :=
  match partition " " head with Some (n, _) => n | None => head end.

(** Drop the expected text from the front. *)
Definition expect (p s : string) : option string :=
  if startswith s p then Some (str_drop (String.length p) s) else None.

(** An element, given a reader of elements up to the end tag of their parent. *)
Definition read_with (read_list : string -> option (list xml * string)) (s : string) : option (xml * string) :=
  s ← expect "<" s;
  '(head, rest) ← partition ">" s;
  if endswith head " /" then Some (El (tag_name head) [] "" [], rest)
  else
    let close := fmt ["</"; tag_name head; ">"] in
    if startswith rest "<" then
      '(children, rest) ← read_list rest;
      rest ← expect close rest;
      Some (El (tag_name head) [] "" children, rest)
    else
      '(raw, _) ← partition "<" rest;
      text ← unescape raw;
      rest ← expect close (str_drop (String.length raw) rest);
      Some (El (tag_name head) [] text [], rest).

Fixpoint read_list (fuel : nat) (s : string) : option (list xml * string) :=
  match fuel with
  | O => None
  | S fuel =>
      if startswith s "</" then Some ([], s)
      else
        '(e, rest) ← read_with (read_list fuel) s;
        '(es, rest) ← read_list fuel rest;
        Some (e :: es, rest)
  end.

Definition read_document (fuel : nat) (s : string) : option xml :=
  s ← expect xml_prolog s;
  '(e, rest) ← read_with (read_list fuel) s;
  if truthy_str rest then None else Some e.

(** ** What is written is read *)

Fixpoint without_attrs (e : xml) : xml :=
  match e with El tag _ text children => El tag [] text (map without_attrs children) end.

(** Names are letters and digits, texts are printable, and an element has a text or
    children. *)
Definition is_name (s : string) : bool := truthy_str s && str_forallb is_alnum s.
Definition attr_ok (kv : string * string) : bool := is_name kv.1 && printable kv.2.
Fixpoint xml_ok (e : xml) : bool :=
  match e with
  | El tag attrs text children =>
      is_name tag && forallb attr_ok attrs && printable text
      && (String.eqb text "" || match children with [] => true | _ => false end)
      && forallb xml_ok children
  end.

(** Fuel: one unit per element and one for the end of each list. *)
Fixpoint xml_size (e : xml) : nat :=
  match e with El _ _ _ children => (2 + foldr (fun c n => xml_size c + n) 0 children)%nat end.

Section induction.
Context (P : xml -> Prop) (Hel : forall tag attrs text children, Forall P children -> P (El tag attrs text children)).
Fixpoint xml_induction (e : xml) : P e :=
  match e with
  | El tag attrs text children =>
      Hel tag attrs text children
        ((fix go l : Forall P l := match l with [] => Forall_nil_2 _ | c :: l => Forall_cons_2 _ _ _ (xml_induction c) (go l) end) children)
  end.
End induction.

Lemma expect_app p s : expect p (p +:+ s) = Some s.
Proof. unfold expect. rewrite startswith_app. f_equal. induction p as [|a p IH]; [done|exact IH]. Qed.

Lemma char_free_app c s t : char_free c (s +:+ t) = char_free c s && char_free c t.
Proof. apply str_forallb_app. Qed.

Lemma unescape_escape s : printable s = true -> unescape (escape_cdata s) = Some s.
Proof.
  induction s as [|a s IH]; [done|]. intros [Ha Hs]%andb_true_iff. cbn [escape_cdata].
  destruct (Ascii.eqb_spec a "&") as [->|H1]; [change (String "&" <$> unescape (escape_cdata s) = Some (String "&" s)); by rewrite IH|].
  destruct (Ascii.eqb_spec a "<") as [->|H2]; [change (String "<" <$> unescape (escape_cdata s) = Some (String "<" s)); by rewrite IH|].
  destruct (Ascii.eqb_spec a ">") as [->|H3]; [change (String ">" <$> unescape (escape_cdata s) = Some (String ">" s)); by rewrite IH|].
  change (unescape (String a (escape_cdata s)) = Some (String a s)). cbn [unescape].
  by rewrite (proj2 (Ascii.eqb_neq a "&") H1), Ha, IH.
Qed.

Lemma escape_no_markup s : char_free "<" (escape_cdata s) = true.
Proof.
  induction s as [|a s IH]; [done|]. cbn [escape_cdata]. rewrite char_free_app, IH, andb_true_r.
  destruct (Ascii.eqb_spec a "&"); [done|]. destruct (Ascii.eqb_spec a "<") as [->|Hn]; [done|].
  destruct (Ascii.eqb_spec a ">"); [done|]. cbn. by rewrite (proj2 (Ascii.eqb_neq _ _) Hn).
Qed.

Lemma escape_nonempty s : s <> "" -> exists a t, escape_cdata s = String a t /\ a <> "<"%char.
Proof.
  intros Hs. pose proof (escape_no_markup s) as Hf. destruct (escape_cdata s) as [|a t] eqn:E.
  - destruct s as [|b s]; [done|]. cbn in E. repeat case_match; discriminate E.
  - exists a, t. split; [done|]. apply andb_true_iff in Hf as [Ha _]. by apply negb_true_iff, Ascii.eqb_neq in Ha.
Qed.

(** The head of a start tag ends the way it should and has no end mark inside. *)
Lemma alnum_free c tag : is_alnum c = false -> str_forallb is_alnum tag = true -> char_free c tag = true.
Proof.
  intros Hc. apply str_forallb_impl. intros a Ha. apply negb_true_iff, Ascii.eqb_neq. intros ->. congruence.
Qed.

Lemma attrs_no_end attrs : forallb attr_ok attrs = true -> char_free ">" (render_attrs attrs) = true.
Proof.
  induction attrs as [|[k v] attrs IH]; [done|]. cbn [forallb]. intros [[[_ Hk]%andb_true_iff Hv]%andb_true_iff H]%andb_true_iff.
  unfold render_attrs in *. cbn [map fst snd]. rewrite fmt_cons, char_free_app. rewrite (IH H), andb_true_r.
  rewrite !fmt_cons, !char_free_app. cbn [fst snd] in *. rewrite (alnum_free ">" k) by done.
  assert (char_free ">" (escape_attrib v) = true) as ->; [|done].
  clear. induction v as [|a v IH]; [done|]. cbn [escape_attrib]. rewrite char_free_app, IH, andb_true_r.
  destruct (Ascii.eqb a "&"); [done|]. destruct (Ascii.eqb a "<"); [done|].
  destruct (Ascii.eqb_spec a ">") as [->|Hn]; [done|]. destruct (Ascii.eqb a "034"); [done|].
  cbn. by rewrite (proj2 (Ascii.eqb_neq _ _) Hn).
Qed.

Lemma endswith_last s a t b : a <> b -> endswith (s +:+ String a "") (t +:+ String b "") = false.
Proof.
  intros Hab. unfold endswith. rewrite !str_rev_app_dist.
  change (startswith (String a (str_rev s)) (String b (str_rev t)) = false).
  apply not_true_is_false. intros [u Hu]%startswith_inv. rewrite app_cons_s in Hu. by injection Hu as -> _.
Qed.

Lemma endswith_app s t : endswith (s +:+ t) t = true.
Proof. unfold endswith. rewrite str_rev_app_dist. apply startswith_app. Qed.

Lemma attrs_end attrs : attrs = [] \/ exists s, render_attrs attrs = s +:+ double_quote.
Proof.
  induction attrs as [|[k v] attrs IH]; [by left|]. right. unfold render_attrs. cbn [map]. rewrite fmt_cons.
  destruct IH as [->|[s Hs]].
  - cbn [map]. rewrite !fmt_cons. change (fmt []) with "". rewrite !app_nil_r_s, <- !app_assoc_s. by eexists.
  - unfold render_attrs in Hs. rewrite Hs, <- app_assoc_s. by eexists.
Qed.

Lemma attrs_blank attrs : attrs = [] \/ exists s, render_attrs attrs = String " " s.
Proof.
  destruct attrs as [|[k v] attrs]; [by left|right]. unfold render_attrs. cbn [map]. rewrite !fmt_cons, !app_assoc_s.
  by eexists.
Qed.

Lemma head_open tag attrs : is_name tag = true ->
  endswith (tag +:+ render_attrs attrs) " /" = false.
Proof.
  intros [Hne Hn]%andb_true_iff. destruct (attrs_end attrs) as [->|[s ->]].
  - change (render_attrs []) with "". rewrite app_nil_r_s.
    assert (exists s a, tag = s +:+ String a "" /\ is_alnum a = true) as (s & a & -> & Ha).
    { apply truthy_str_true in Hne. clear -Hne Hn. induction tag as [|b tag IH]; [done|].
      apply andb_true_iff in Hn as [Hb Hn]. destruct tag as [|c tag]; [by exists "", b|].
      destruct IH as (s & a & E & Ha); [done..|]. exists (String b s), a. rewrite app_cons_s, <- E. done. }
    apply (endswith_last _ _ " " "/"). intros ->. discriminate Ha.
  - rewrite <- app_assoc_s. by apply (endswith_last _ _ " " "/").
Qed.

Lemma head_name tag attrs t : is_name tag = true -> (t = "" \/ exists u, t = String " " u) ->
  tag_name (tag +:+ (render_attrs attrs +:+ t)) = tag.
Proof.
  intros [_ Hn]%andb_true_iff Ht. unfold tag_name.
  assert (char_free " " tag = true) as Hf by (by apply alnum_free).
  destruct (attrs_blank attrs) as [->|[s ->]].
  - change (render_attrs [] +:+ t) with t. destruct Ht as [->|[u ->]].
    + rewrite app_nil_r_s. by rewrite partition_free.
    + by rewrite partition_app_free.
  - change (String " " s +:+ t) with (String " " (s +:+ t)). by rewrite partition_app_free.
Qed.

(** The front of an element is read: the name, the kind of tag, what follows. *)
Lemma read_open tag attrs rest read_list :
  is_name tag = true -> forallb attr_ok attrs = true ->
  read_with read_list (fmt ["<"; tag; render_attrs attrs; ">"] +:+ rest) =
  let close := fmt ["</"; tag; ">"] in
  if startswith rest "<" then
    '(children, rest) ← read_list rest; rest ← expect close rest; Some (El tag [] "" children, rest)
  else
    '(raw, _) ← partition "<" rest; text ← unescape raw;
    rest ← expect close (str_drop (String.length raw) rest); Some (El tag [] text [], rest).
Proof.
  intros Ht Ha. rewrite !fmt_cons. change (fmt []) with "". rewrite !app_assoc_s.
  change ("" +:+ rest) with rest. unfold read_with. rewrite expect_app. cbn [mbind option_bind].
  assert (char_free ">" (tag +:+ render_attrs attrs) = true) as Hf.
  { rewrite char_free_app, attrs_no_end by done. apply andb_true_iff in Ht as [_ Ht]. by rewrite (alnum_free ">"). }
  rewrite <- app_assoc_s. change (">" +:+ rest) with (String ">" rest). rewrite partition_app_free by done.
  cbn [mbind option_bind]. rewrite head_open by done.
  rewrite <- (app_nil_r_s (render_attrs attrs)), head_name by auto. done.
Qed.

Lemma read_short tag attrs rest read_list :
  is_name tag = true -> forallb attr_ok attrs = true ->
  read_with read_list (fmt ["<"; tag; render_attrs attrs; " />"] +:+ rest) = Some (El tag [] "" [], rest).
Proof.
  intros Ht Ha. rewrite !fmt_cons. change (fmt []) with "". rewrite !app_assoc_s.
  change ("" +:+ rest) with rest. unfold read_with. rewrite expect_app. cbn [mbind option_bind].
  assert (char_free ">" ((tag +:+ render_attrs attrs) +:+ " /") = true) as Hf.
  { rewrite !char_free_app, attrs_no_end by done. apply andb_true_iff in Ht as [_ Ht]. by rewrite (alnum_free ">"). }
  change (" />" +:+ rest) with (" /" +:+ String ">" rest). rewrite <- !app_assoc_s. rewrite partition_app_free by done.
  cbn [mbind option_bind]. rewrite endswith_app, app_assoc_s, head_name by eauto. done.
Qed.

(** Every element starts with [<] and a letter or digit. *)
Lemma tostring_open e : xml_ok e = true -> exists a s, tostring e = String "<" (String a s) /\ is_alnum a = true.
Proof.
  destruct e as [tag attrs text children]. cbn [xml_ok]. intros H.
  do 4 apply andb_true_iff in H as [H _]. apply andb_true_iff in H as [Hne Hn].
  apply truthy_str_true in Hne. destruct tag as [|a tag]; [done|]. apply andb_true_iff in Hn as [Ha _].
  cbn [tostring]. destruct (_ || _); rewrite !fmt_cons; by eexists _, _.
Qed.

Lemma slash_not_open a s : is_alnum a = true -> startswith (String "<" (String a s)) "</" = false.
Proof.
  intros Ha. apply not_true_is_false. intros [t Ht]%startswith_inv. injection Ht as -> _. discriminate Ha.
Qed.

Lemma read_children fuel children rest :
  Forall (fun e => xml_ok e = true -> forall fuel rest, (xml_size e <= fuel)%nat ->
    read_with (read_list fuel) (tostring e +:+ rest) = Some (without_attrs e, rest)) children ->
  forallb xml_ok children = true -> startswith rest "</" = true ->
  (foldr (fun c n => xml_size c + n) 1 children <= fuel)%nat ->
  read_list fuel (fmt (map tostring children) +:+ rest) = Some (map without_attrs children, rest).
Proof.
  intros Hall. revert fuel. induction Hall as [|e es He Hes IH]; intros fuel Hok Hrest Hfuel.
  - destruct fuel as [|fuel]; [cbn in Hfuel; lia|]. change (fmt (map tostring []) +:+ rest) with rest.
    cbn [read_list]. by rewrite Hrest.
  - cbn [forallb] in Hok. apply andb_true_iff in Hok as [Hoke Hokes]. cbn [foldr] in Hfuel.
    assert (2 <= xml_size e)%nat by (destruct e; cbn; lia).
    assert (1 <= foldr (fun c n => xml_size c + n) 1 es)%nat by (clear; induction es; cbn; lia).
    destruct fuel as [|fuel]; [lia|]. cbn [map]. rewrite fmt_cons, app_assoc_s.
    destruct (tostring_open e Hoke) as (a & s & Hs & Ha). cbn [read_list]. rewrite Hs at 1.
    change (String "<" (String a s) +:+ ?t) with (String "<" (String a (s +:+ t))). rewrite slash_not_open by done.
    rewrite He by (done || lia). cbn [mbind option_bind]. by rewrite IH by (done || lia).
Qed.

Lemma read_element e : xml_ok e = true -> forall fuel rest, (xml_size e <= fuel)%nat ->
  read_with (read_list fuel) (tostring e +:+ rest) = Some (without_attrs e, rest).
Proof.
  induction e as [tag attrs text children IH] using xml_induction. cbn [xml_ok].
  intros [[[[Hname Hattrs]%andb_true_iff Htext]%andb_true_iff Hone]%andb_true_iff Hch]%andb_true_iff fuel rest Hfuel.
  cbn [tostring without_attrs].
  assert (forall t, fmt ["<"; tag; render_attrs attrs; ">"; escape_cdata text; t; "</"; tag; ">"] +:+ rest =
    fmt ["<"; tag; render_attrs attrs; ">"] +:+ (escape_cdata text +:+ (t +:+ (fmt ["</"; tag; ">"] +:+ rest)))) as Hsplit.
  { intros t. rewrite !fmt_cons. change (fmt []) with "". by rewrite !app_nil_r_s, !app_assoc_s. }
  assert (startswith (fmt ["</"; tag; ">"] +:+ rest) "</" = true) as Hclose.
  { rewrite fmt_cons, app_assoc_s. apply startswith_app. }
  destruct (truthy_str text) eqn:Ht.
  - assert (children = []) as ->.
    { apply truthy_str_true in Ht. apply orb_true_iff in Hone as [->%String.eqb_eq|]; [done|by destruct children]. }
    cbn [orb map]. change (fmt []) with "". rewrite Hsplit, read_open by done. cbn zeta.
    destruct (escape_nonempty text) as (a & s & Hs & Ha); [by apply truthy_str_true|].
    replace (startswith _ "<") with false.
    2:{ symmetry. apply not_true_is_false. rewrite Hs. intros [u Hu]%startswith_inv. by injection Hu as -> _. }
    change ("" +:+ ?x) with x. rewrite (fmt_cons "</"), app_assoc_s.
    change ("</" +:+ ?x) with (String "<" ("/" +:+ x)). rewrite partition_app_free by apply escape_no_markup.
    cbn [mbind option_bind]. rewrite unescape_escape by done. cbn [mbind option_bind]. rewrite str_drop_app.
    change (String "<" ("/" +:+ ?x)) with ("</" +:+ x). rewrite <- app_assoc_s, <- fmt_cons. by rewrite expect_app.
  - apply truthy_str_false in Ht as ->. destruct children as [|c children]; cbn [orb negb].
    + by rewrite read_short.
    + rewrite Hsplit, read_open by done. cbn zeta. change (escape_cdata "" +:+ ?x) with x.
      assert (startswith (fmt (map tostring (c :: children)) +:+ (fmt ["</"; tag; ">"] +:+ rest)) "<" = true) as ->.
      { cbn [map]. rewrite fmt_cons, app_assoc_s. cbn [forallb] in Hch. apply andb_true_iff in Hch as [Hc _].
        destruct (tostring_open c Hc) as (a & s & -> & _). apply (startswith_app "<"). }
      cbn [xml_size] in Hfuel. rewrite read_children; [|done..|].
      * cbn [mbind option_bind]. by rewrite expect_app.
      * enough (forall l, foldr (fun c n => xml_size c + n) 1 l = 1 + foldr (fun c n => xml_size c + n) 0 l)%nat as -> by lia.
        intros l. induction l as [|x l IHl]; cbn; [done|]. rewrite IHl. lia.
Qed.

(** A document that is written is read back, without the attributes. *)
Lemma document_roundtrip e fuel : xml_ok e = true -> (xml_size e <= fuel)%nat ->
  read_document fuel (xml_document e) = Some (without_attrs e).
Proof.
  intros He Hf. unfold read_document, xml_document. rewrite expect_app. cbn [mbind option_bind].
  rewrite <- (app_nil_r_s (tostring e)), read_element by done. done.
Qed.
