(* ===== verification/S3Range.v ===== *)
(** * Object responses and byte ranges

    [s3/router.py]: the [Range] header, the [416] test, and the response to a
    [GetObject] request.  Times are between the years 1970 and 9999. *)

From S2P Require Import Prelude PyText Numerals Sources ArtifactStore Egress Md5 S3Xml.
From Stdlib Require Import Ascii.

(** ** [email.utils.formatdate(ms / 1000.0, usegmt=True)] *)

Definition weekday_names : list string := ["Mon"; "Tue"; "Wed"; "Thu"; "Fri"; "Sat"; "Sun"].
Definition month_names : list string :=
  ["Jan"; "Feb"; "Mar"; "Apr"; "May"; "Jun"; "Jul"; "Aug"; "Sep"; "Oct"; "Nov"; "Dec"].
Definition formatdate (ms : Z) : string :=
  let secs := ms / 1000 in
  let days := secs / 86400 in
  let '(y, m, d) := civil_from_days days in
  fmt [nth (Z.to_nat ((days + 3) mod 7)) weekday_names ""; ", "; two_digits d; " ";
       nth (Z.to_nat (m - 1)) month_names ""; " "; pretty y; " "; two_digits (secs mod 86400 / 3600); ":";
       two_digits (secs mod 3600 / 60); ":"; two_digits (secs mod 60); " GMT"].

Example formatdate_2023 : formatdate 1700000000000 = "Tue, 14 Nov 2023 22:13:20 GMT".
Proof. reflexivity. Qed.

(** ** Responses *)

Record response := Response {
  rs_status : Z;
  rs_headers : list (string * string);
  rs_body : string;
}.
#[global] Instance response_eq_dec : EqDecision response.
Proof. solve_decision. Defined.

(** [_object_etag] *)
Definition object_etag (data : string) : string := quote_tag (md5_hex data).

Definition str_len (s : string) : Z := Z.of_nat (String.length s).

(** The first range of the header. *)
Definition range_spec (header : string) : string :=
  let spec := strip (str_drop (String.length "bytes=") header) in
  match partition "," spec with Some (first, _) => strip first | None => spec end.

(** [_apply_range]: the slice, its first and last position, and whether it is partial *)
Definition apply_range (data : string) (range_header : option string) : string * Z * Z * bool :=
  let total := str_len data in
  let whole := (data, 0, total - 1, false) in
  let partial start fin :=
    if (start <? 0) || (fin <? start) then whole else (py_slice data start (fin + 1), start, fin, true) in
  if negb (truthy_opt range_header) || negb (startswith (or_empty range_header) "bytes=") then whole
  else match partition "-" (range_spec (or_empty range_header)) with
       | None => whole
       | Some (start_s, end_s) =>
           if String.eqb start_s "" then
             match int_of_string end_s with
             | None => whole
             | Some n => if n <=? 0 then whole else partial (total - Z.min n total) (total - 1)
             end
           else
             match int_of_string start_s, (if truthy_str end_s then int_of_string end_s else Some (total - 1)) with
             | Some start, Some fin => partial start (Z.min fin (total - 1))
             | _, _ => whole
             end
       end.

(** [_range_is_unsatisfiable] *)
Definition range_is_unsatisfiable (range_header : option string) (total : Z) : bool :=
  if negb (truthy_opt range_header) || negb (startswith (or_empty range_header) "bytes=") then false
  else match partition "-" (range_spec (or_empty range_header)) with
       | None => false
       | Some (start_s, _) =>
           if String.eqb start_s "" then false
           else match int_of_string start_s with Some start => total <=? start | None => false end
       end.

(** [_make_object_response]; no caller passes extra headers *)
Definition make_object_response (data content_type : string) (range_header : option string)
  (last_modified_ms : option Z) (etag : option string) : response :=
  let total := str_len data in
  if range_is_unsatisfiable range_header total
  then Response 416 [("Content-Range", fmt ["bytes */"; pretty total]); ("Accept-Ranges", "bytes")] ""
  else
    let '(sliced, start, fin, is_partial) := apply_range data range_header in
    Response (if is_partial then 206 else 200)
      ([("Content-Type", content_type); ("Content-Length", pretty (str_len sliced));
        ("ETag", if truthy_opt etag then quote_tag (or_empty etag) else object_etag data); ("Accept-Ranges", "bytes")]
       ++ (if truthy_int (default 0 last_modified_ms) then [("Last-Modified", formatdate (default 0 last_modified_ms))] else [])
       ++ (if is_partial then [("Content-Range", fmt ["bytes "; pretty start; "-"; pretty fin; "/"; pretty total])] else []))
      sliced.

(** * Theorems *)

(** ** The three forms of a range request *)

Inductive range_request :=
| Bounded (first last : Z)
| From (first : Z)
| Suffix (count : Z).

Definition range_text (r : range_request) : string :=
  match r with
  | Bounded a b => fmt ["bytes="; pretty a; "-"; pretty b]
  | From a => fmt ["bytes="; pretty a; "-"]
  | Suffix n => fmt ["bytes=-"; pretty n]
  end.

Definition range_valid (r : range_request) : Prop :=
  match r with Bounded a b => 0 <= a <= b | From a => 0 <= a | Suffix n => 0 < n end.

(** The positions RFC 7233 asks for in an object of [total] bytes; none when the range
    cannot be satisfied. *)
Definition wanted (total : Z) (r : range_request) : option (Z * Z) :=
  match r with
  | Bounded a b => if total <=? a then None else Some (a, Z.min b (total - 1))
  | From a => if total <=? a then None else Some (a, total - 1)
  | Suffix n => if total =? 0 then None else Some (total - Z.min n total, total - 1)
  end.

Definition is_spec_char (a : ascii) : bool := is_digit a || Ascii.eqb a "-".

Lemma spec_char_facts a : is_spec_char a = true -> is_space a = false /\ a <> ","%char.
Proof.
  unfold is_spec_char. intros [Ha| ->%Ascii.eqb_eq]%orb_true_iff; [|done].
  pose proof (digit_chars a Ha) as (_ & _ & _ & _ & Hs). split; [done|]. intros ->. discriminate Ha.
Qed.

Lemma range_spec_plain spec : str_forallb is_spec_char spec = true -> range_spec ("bytes=" +:+ spec) = spec.
Proof.
  intros Hs. unfold range_spec. rewrite str_drop_app.
  assert (unspaced spec = true) as Hu.
  { revert Hs. apply str_forallb_impl. intros a Ha. apply negb_true_iff. by apply spec_char_facts in Ha as []. }
  rewrite strip_unspaced by done. rewrite partition_free; [done|].
  revert Hs. apply str_forallb_impl. intros a Ha. apply negb_true_iff, Ascii.eqb_neq. by apply spec_char_facts in Ha as [].
Qed.

Lemma digits_spec s : str_forallb is_digit s = true -> str_forallb is_spec_char s = true.
Proof. apply str_forallb_impl. intros a Ha. unfold is_spec_char. by rewrite Ha. Qed.

(** How the header of a request is split at its dash. *)
Lemma range_text_split r : range_valid r ->
  exists start_s end_s, range_text r = "bytes=" +:+ (start_s +:+ String "-" end_s) /\
    partition "-" (range_spec (range_text r)) = Some (start_s, end_s) /\
    match r with
    | Bounded a b => start_s = pretty a /\ end_s = pretty b
    | From a => start_s = pretty a /\ end_s = ""
    | Suffix n => start_s = "" /\ end_s = pretty n
    end.
Proof.
  intros Hr.
  assert (forall s e, str_forallb is_digit s = true -> str_forallb is_digit e = true ->
    partition "-" (range_spec ("bytes=" +:+ (s +:+ String "-" e))) = Some (s, e)) as Hp.
  { intros s e Hs He. rewrite range_spec_plain.
    - apply partition_app_free. by apply digits_free.
    - change (String "-" e) with ("-" +:+ e). rewrite !str_forallb_app, (digits_spec s), (digits_spec e) by done. done. }
  destruct r as [a b|a|n]; cbn [range_valid range_text] in *.
  - exists (pretty a), (pretty b). rewrite !fmt_cons. change (fmt []) with "". rewrite app_nil_r_s.
    split_and!; [done| |done..]. apply Hp; apply pretty_digits; lia.
  - exists (pretty a), "". rewrite !fmt_cons. change (fmt []) with "". split_and!; [done| |done..].
    apply Hp; [apply pretty_digits; lia|done].
  - exists "", (pretty n). rewrite !fmt_cons. change (fmt []) with "". rewrite app_nil_r_s.
    split_and!; [done| |done..]. apply (Hp "" (pretty n)); [done|apply pretty_digits; lia].
Qed.

Lemma range_text_prefix r : range_valid r ->
  negb (truthy_opt (Some (range_text r))) || negb (startswith (or_empty (Some (range_text r))) "bytes=") = false.
Proof.
  intros Hr. destruct (range_text_split r Hr) as (s & e & -> & _).
  apply (f_equal negb (startswith_app "bytes=" (s +:+ String "-" e))).
Qed.

(** ** What a range request is answered with *)

Lemma str_take_all s n : (String.length s <= n)%nat -> str_take n s = s.
Proof. revert n. induction s as [|a s IH]; intros [|n] H; cbn in *; [done..|lia|]. rewrite IH by lia. done. Qed.

Lemma str_take_length_le s n : (n <= String.length s)%nat -> String.length (str_take n s) = n.
Proof. revert n. induction s as [|a s IH]; intros [|n] H; cbn in *; [done|lia|done|]. rewrite IH by lia. done. Qed.

(** A slice inside the data is the part at its positions. *)
Lemma py_slice_inside data a b : 0 <= a -> a <= b -> b < str_len data ->
  str_len (py_slice data a (b + 1)) = b - a + 1 /\
  exists x y, data = x +:+ (py_slice data a (b + 1) +:+ y) /\ str_len x = a.
Proof.
  intros Ha Hab Hb. unfold str_len, py_slice in *. destruct (Z.ltb_spec (b + 1) 0); [lia|].
  rewrite Z.min_l by lia. set (n := Z.to_nat (b + 1 - a)). set (m := Z.to_nat a).
  assert (n <= String.length (str_drop m data))%nat by (rewrite str_drop_length; lia).
  split; [rewrite str_take_length_le by done; lia|].
  exists (str_take m data), (str_drop n (str_drop m data)). split.
  - by rewrite str_take_drop, str_take_drop.
  - rewrite str_take_length_le by lia. lia.
Qed.

Lemma apply_range_wanted data r : range_valid r ->
  match wanted (str_len data) r with
  | Some (a, b) => 0 <= a <= b /\ b < str_len data /\ range_is_unsatisfiable (Some (range_text r)) (str_len data) = false /\
      apply_range data (Some (range_text r)) = (py_slice data a (b + 1), a, b, true)
  | None => match r with
            | Suffix _ => data = "" /\ range_is_unsatisfiable (Some (range_text r)) (str_len data) = false /\
                apply_range data (Some (range_text r)) = (data, 0, str_len data - 1, false)
            | _ => range_is_unsatisfiable (Some (range_text r)) (str_len data) = true
            end
  end.
Proof.
  intros Hr. pose proof (range_text_prefix r Hr) as Hpre. destruct (range_text_split r Hr) as (s & e & _ & Hp & Hse).
  unfold apply_range, range_is_unsatisfiable. rewrite Hpre.
  change (or_empty (Some (range_text r))) with (range_text r). rewrite Hp. clear Hp Hpre.
  assert (0 <= str_len data) as Hlen by (unfold str_len; lia).
  destruct r as [a b|a|n]; destruct Hse as [-> ->]; cbn [range_valid wanted] in *.
  - rewrite (proj2 (String.eqb_neq (pretty a) "")) by (apply pretty_not_empty; lia).
    rewrite (proj2 (truthy_str_true (pretty b))) by (apply pretty_not_empty; lia).
    rewrite !int_of_pretty by lia. destruct (Z.leb_spec (str_len data) a); [done|].
    destruct (Z.ltb_spec a 0), (Z.ltb_spec (Z.min b (str_len data - 1)) a); cbn [orb]; try lia. split_and!; (done || lia).
  - rewrite (proj2 (String.eqb_neq (pretty a) "")) by (apply pretty_not_empty; lia). cbn [truthy_str String.eqb negb].
    rewrite !int_of_pretty by lia. destruct (Z.leb_spec (str_len data) a); [done|]. rewrite Z.min_id.
    destruct (Z.ltb_spec a 0), (Z.ltb_spec (str_len data - 1) a); cbn [orb]; try lia. split_and!; (done || lia).
  - cbn [String.eqb]. rewrite int_of_pretty by lia. destruct (Z.leb_spec n 0); [lia|].
    destruct (Z.eqb_spec (str_len data) 0) as [E|E].
    + rewrite E. rewrite Z.min_r by lia. split_and!; [|done..]. by destruct data.
    + destruct (Z.ltb_spec (str_len data - Z.min n (str_len data)) 0),
        (Z.ltb_spec (str_len data - 1) (str_len data - Z.min n (str_len data))); cbn [orb]; try lia. split_and!; (done || lia).
Qed.

(** C11: A range request gets exactly the bytes RFC 7233 asks for.  For the three forms
    of a single range: status 206, the body that sits at the wanted positions of the
    object, and headers that announce its length and positions; 416 with the size of the
    object when the range starts past its end; the whole (empty) object for a suffix of
    an empty object. *)
Theorem ranged_response_exact data content_type r modified_ms etag :
  range_valid r ->
  let resp := make_object_response data content_type (Some (range_text r)) modified_ms etag in
  match wanted (str_len data) r with
  | Some (a, b) =>
      rs_status resp = 206 /\
      (exists x y, data = x +:+ (rs_body resp +:+ y) /\ str_len x = a) /\
      str_len (rs_body resp) = b - a + 1 /\
      odict_get "Content-Length" (rs_headers resp) = Some (pretty (b - a + 1)) /\
      odict_get "Content-Range" (rs_headers resp) = Some (fmt ["bytes "; pretty a; "-"; pretty b; "/"; pretty (str_len data)])
  | None =>
      match r with
      | Suffix _ => rs_status resp = 200 /\ rs_body resp = ""
      | _ => rs_status resp = 416 /\ rs_body resp = "" /\
          odict_get "Content-Range" (rs_headers resp) = Some (fmt ["bytes */"; pretty (str_len data)])
      end
  end.
Proof.
  intros Hr. pose proof (apply_range_wanted data r Hr) as H. unfold make_object_response.
  destruct (wanted (str_len data) r) as [[a b]|].
  - destruct H as ([Ha Hab] & Hb & -> & ->). destruct (py_slice_inside data a b Ha Hab Hb) as [Hl Hxy].
    cbn zeta. cbn [rs_status rs_body rs_headers]. rewrite Hl. split_and!; [done..|].
    destruct (truthy_int _); reflexivity.
  - destruct r as [a b|a|n]; [by rewrite H..|]. destruct H as (-> & -> & ->). done.
Qed.

Lemma ranged_response_exact_witness :
  rs_body (make_object_response "PAR1....PAR1" "application/octet-stream" (Some "bytes=-4") None None) = "PAR1" /\
  rs_status (make_object_response "PAR1....PAR1" "application/octet-stream" (Some "bytes=12-") None None) = 416.
Proof.
  pose proof (ranged_response_exact "PAR1....PAR1" "application/octet-stream" (Suffix 4) None None ltac:(cbn; lia)) as H.
  pose proof (ranged_response_exact "PAR1....PAR1" "application/octet-stream" (From 12) None None ltac:(cbn; lia)) as H'.
  cbn in H'. destruct H as (_ & (x & y & E & Hx) & _). destruct H' as [H' _]. split; [vm_compute; reflexivity|exact H'].
Defined.
