(* ===== verification/SplitCompletion.v ===== *)
(** * Completion records of splits

    [runtime/split_completion.py]: the Agent that owns a split stores its Parquet object
    and then a small record that describes it; the other Agents read the record instead of
    the object.  The end of an error message that quotes another exception is left out. *)

From S2P Require Import Prelude PyText Numerals Sha256 Json ArtifactStore World Contract ReadPlan Generation WorkQueue Md5 Sources Dialects Snapshots.
From Stdlib Require Import Ascii.
Import MemoryStore StreamOps.

(** A split with the attributes of the generation it belongs to. *)
Record worker_split := WorkerSplit {
  ws_split : split_descriptor;
  ws_generation_id : string;
  ws_generation_fence : Z;
  ws_generation_token : string;
  ws_generation_plan_sha256 : string;
}.

(** [assign_generation]: every split of the snapshots gets the identity of the generation. *)
Definition assign_generation (snapshots : list snapshot_state) (c : generation_context) : list (list worker_split) :=
  map (fun snapshot => map (fun split => WorkerSplit split (gc_generation_id c) (gc_fence c) (gc_lease_token c) (gc_plan_sha256 c))
    (ss_splits snapshot)) snapshots.

Record split_completion := SplitCompletion {
  sc_generation_id : string;
  sc_fence : Z;
  sc_plan_sha256 : string;
  sc_object_key : string;
  sc_file_size_in_bytes : Z;
  sc_record_count : Z;
  sc_sha256 : string;
  sc_s3_etag : string;
  sc_stats : gmap Z column_stats;
}.

(** ** Statistics *)

(** [data.hex()] *)
Fixpoint to_hex (s : string) : string :=
  match s with
  | EmptyString => ""
  | String a s => hex_word 2 (N_of_ascii a) +:+ to_hex s
  end.

(** [bytes.fromhex(s)]: white space between the bytes is skipped *)
Fixpoint fromhex (s : string) : option string :=
  match s with
  | EmptyString => Some ""
  | String a r =>
      if is_space a then fromhex r
      else match r with
           | EmptyString => None
           | String b r => x ← hex_value a; y ← hex_value b; t ← fromhex r; Some (String (ascii_of_N (16 * x + y)) t)
           end
  end.

Definition opt_hex (o : option string) : json := match o with Some b => JStr (to_hex b) | None => JNull end.

Definition stat_json (s : column_stats) : json :=
  JObj (mk_dict [("field_id", JInt (cst_field_id s)); ("column_size", JInt (cst_column_size s)); ("value_count", JInt (cst_value_count s));
    ("null_count", JInt (cst_null_count s)); ("lower", opt_hex (cst_lower s)); ("upper", opt_hex (cst_upper s))]).

(** [_encode_stats] *)
Definition encode_stats (stats : gmap Z column_stats) : dict := kmap pretty (stat_json <$> stats).

Definition decode_bound (d : dict) (k : string) : res (option string) :=
  match dget d k JNull with
  | JNull => Ok None
  | JStr s => b ← of_option (ValueError "non-hexadecimal number found in fromhex() arg") (fromhex s); Ok (Some b)
  | _ => Err (TypeError "fromhex() argument must be str")
  end.

Definition decode_stat (item : string * json) : res (Z * column_stats) :=
  field_id ← of_option (ValueError "invalid literal for int()") (int_of_string item.1);
  value ← as_obj item.2;
  stored ← req_int value "field_id";
  if negb (stored =? field_id) then Err (ValueError "completion statistic field ID mismatch")
  else
    column_size ← req_int value "column_size";
    value_count ← req_int value "value_count";
    null_count ← req_int value "null_count";
    lower ← decode_bound value "lower";
    upper ← decode_bound value "upper";
    Ok (field_id, ColumnStats field_id column_size value_count null_count lower upper).

(** [_decode_stats] *)
Definition decode_stats (raw : json) : res (gmap Z column_stats) :=
  match raw with
  | JObj d => entries ← res_map decode_stat (map_to_list d); Ok (list_to_map entries)
  | _ => Err (AttributeError "items")
  end.

(** ** Publishing *)

Definition payload (c : split_completion) : dict :=
  mk_dict [("version", JInt 2); ("generation_id", JStr (sc_generation_id c)); ("fence", JInt (sc_fence c));
    ("plan_sha256", JStr (sc_plan_sha256 c)); ("object_key", JStr (sc_object_key c)); ("file_size_in_bytes", JInt (sc_file_size_in_bytes c));
    ("record_count", JInt (sc_record_count c)); ("sha256", JStr (sc_sha256 c)); ("s3_etag", JStr (sc_s3_etag c));
    ("stats", JObj (encode_stats (sc_stats c)))].

Definition is_hex_of (n : nat) (s : string) : bool := (String.length s =? n)%nat && str_forallb is_hex_lower s.

Section completion.
Context `{HEnv : Env}.

Definition is_legacy (s : worker_split) : bool := String.eqb (ws_generation_id s) "legacy".
Definition split_key (s : worker_split) : string := sd_object_key (ws_split s).

(** The check of the generation that each operation starts with. *)
Definition check_identity (s : worker_split) : M world unit :=
  if is_legacy s then mret tt
  else assert_generation_identity (ws_generation_id s) (ws_generation_fence s) (ws_generation_token s) (ws_generation_plan_sha256 s).

Definition publish_split_completion_record (s : worker_split) (content_hash s3_etag : string) : M world split_completion :=
  match sd_file_size_in_bytes (ws_split s), sd_record_count (ws_split s) with
  | Some size, Some records =>
      if negb (is_hex_of 64 content_hash) then raise (ValueError "split content_hash must be lowercase SHA-256")
      else if negb (is_hex_of 32 s3_etag) then raise (ValueError "split s3_etag must be lowercase MD5")
      else
        check_identity s;;
        stat ← st (head (split_key s));
        if match stat with Some x => negb (os_size x =? size) | None => true end
        then raise (RuntimeError (fmt ["streamed split size mismatch for "; split_key s]))
        else
          let completion := SplitCompletion (ws_generation_id s) (ws_generation_fence s) (ws_generation_plan_sha256 s) (split_key s)
            size records content_hash s3_etag (default ∅ (sd_stats (ws_split s))) in
          let bytes := BJson (JObj (payload completion)) in
          let key := completion_key (split_key s) (ws_generation_id s) in
          (if is_legacy s then st (put key bytes);; mret tt
           else
             written ← st_now (fun now => fenced_put now COORDINATOR_KEY (ws_generation_id s) (ws_generation_fence s) key bytes);
             if (written : bool) then mret tt
             else raise (GenerationError "generation was fenced before split completion publication"));;
          mret completion
  | _, _ => raise (ValueError "split metadata must be populated before completion")
  end.

Definition publish_split_completion (s : worker_split) (data : string) : M world split_completion :=
  match sd_file_size_in_bytes (ws_split s), sd_record_count (ws_split s) with
  | Some _, Some _ =>
      check_identity s;;
      (if is_legacy s then st (put (split_key s) (BRaw data));; mret tt
       else
         catch (st (put_stream_if_absent (split_key s) [data] (Some (Z.of_nat (String.length data))));; mret tt)
           (fun e => match e with
                     | ObjectConflict _ => raise (GenerationError "immutable split key already contains different data")
                     | e => raise e
                     end));;
      publish_split_completion_record s (sha256_hex data) (md5_hex data)
  | _, _ => raise (ValueError "split metadata must be populated before completion")
  end.

(** ** Reading *)

(** The checks of the identity of a record, in the order of the code. *)
Definition identity_differs (s : worker_split) (d : dict) : res bool :=
  let version := dget d "version" JNull in
  if negb (eq_num version 1 || eq_num version 2) then Ok true
  else if negb (bool_decide (dget d "generation_id" JNull = JStr (ws_generation_id s))) then Ok true
  else
    fence ← get_int d "fence" (-1);
    if negb (fence =? ws_generation_fence s) then Ok true
    else if negb (bool_decide (dget d "object_key" JNull = JStr (split_key s))) then Ok true
    else if truthy_str (ws_generation_plan_sha256 s) then
      plan ← (let v := dget d "plan_sha256" JNull in if truthy v then py_str v else Ok "");
      Ok (negb (String.eqb plan (ws_generation_plan_sha256 s)))
    else Ok false.

Definition decode_completion (d : dict) (s3_etag : string) : res split_completion :=
  generation_id ← req_str d "generation_id";
  fence ← req_int d "fence";
  plan ← (let v := dget d "plan_sha256" JNull in if truthy v then py_str v else Ok "");
  object_key ← req_str d "object_key";
  size ← req_int d "file_size_in_bytes";
  records ← req_int d "record_count";
  sha ← req_str d "sha256";
  stats ← decode_stats (dget d "stats" (JObj ∅));
  Ok (SplitCompletion generation_id fence plan object_key size records sha s3_etag stats).

(** The body of the [try] that reads a record. *)
Definition parse_completion (s : worker_split) (raw : blob) : M world split_completion :=
  match loads raw with
  | None => raise (ValueError "JSONDecodeError")
  | Some (JObj d) =>
      differs ← lift (identity_differs s d);
      if (differs : bool) then raise (ValueError "completion identity mismatch")
      else
        let tag := dget d "s3_etag" JNull in
        etag ← (if truthy tag then lift (py_str tag) else b ← st (get (split_key s) 0 None); mret (md5_hex (blob_bytes b)));
        lift (decode_completion d etag)
  | Some _ => raise (AttributeError "get")
  end.

Definition read_split_completion (s : worker_split) : M world (option split_completion) :=
  check_identity s;;
  raw ← catch (b ← st (get (completion_key (split_key s) (ws_generation_id s)) 0 None); mret (Some b))
          (fun e => match e with ObjectNotFound _ => mret None | e => raise e end);
  match raw with
  | None => mret None
  | Some b =>
      c ← catch (parse_completion s b)
            (fun e => match e with
                      | KeyError _ | ObjectNotFound _ | TypeError _ | ValueError _ =>
                          raise (RuntimeError (fmt ["invalid split completion for "; split_key s]))
                      | e => raise e
                      end);
      stat ← st (head (split_key s));
      if match stat with Some x => negb (os_size x =? sc_file_size_in_bytes c) | None => true end
      then raise (RuntimeError (fmt ["split completion data mismatch for "; split_key s]))
      else
        ok ← st (verify (split_key s) (sc_file_size_in_bytes c) (sc_sha256 c));
        if (ok : bool) then mret (Some c)
        else raise (RuntimeError (fmt ["split completion data mismatch for "; split_key s]))
  end.

(** [apply_split_completion]: the split as it is afterwards, and the number of its records *)
Definition apply_split_completion (s : split_descriptor) (c : split_completion) : split_descriptor * Z :=
  (SplitDescriptor (sd_split_index s) (sd_num_splits s) (sd_object_key s) (sd_watermark_ms s) (sd_table s) (Some (sc_record_count c))
     (Some (sc_file_size_in_bytes c)) (Some (sc_sha256 c)) (Some (sc_s3_etag c)) (Some (sc_stats c)) (sd_split_key_column s)
     (sd_key_lo s) (sd_key_hi s) (sd_canonical_object_key s), sc_record_count c).
End completion.

(** * Theorems *)

(** ** Statistics *)

Lemma hex_byte a : exists x y h l, hex_word 2 (N_of_ascii a) = String x (String y "") /\ is_space x = false /\
  hex_value x = Some h /\ hex_value y = Some l /\ ascii_of_N (16 * h + l) = a.
Proof. destruct a as [[] [] [] [] [] [] [] []]; do 4 eexists; (split; [reflexivity|]); (split_and!; vm_compute; reflexivity). Qed.

Lemma fromhex_to_hex s : fromhex (to_hex s) = Some s.
Proof.
  induction s as [|a s IH]; [done|]. cbn [to_hex]. destruct (hex_byte a) as (x & y & h & l & -> & Hx & Hh & Hl & Ha).
  change (String x (String y "") +:+ to_hex s) with (String x (String y (to_hex s))). cbn [fromhex]. rewrite Hx, Hh, Hl.
  cbn [mbind option_bind]. rewrite IH. cbn [mbind option_bind]. by rewrite Ha.
Qed.

(** Statistics under the field they belong to. *)
Definition stats_ok (m : gmap Z column_stats) : Prop := forall i s, m !! i = Some s -> cst_field_id s = i /\ 0 <= i.

Lemma decode_bound_ok d k o : d !! k = Some (opt_hex o) -> decode_bound d k = Ok o.
Proof. intros H. unfold decode_bound, dget. rewrite H. destruct o as [b|]; [|done]. cbn. by rewrite fromhex_to_hex. Qed.

Lemma decode_stat_ok i s : cst_field_id s = i -> 0 <= i -> decode_stat (pretty i, stat_json s) = Ok (i, s).
Proof.
  intros Hi Hp. unfold decode_stat. cbn [fst snd]. rewrite int_of_pretty by done. cbn [of_option mbind res_bind as_obj stat_json].
  unfold req_int, dget_req, mk_dict. cbn [list_to_map foldr fst snd uncurry]. simplify_map_eq.
  cbn [of_option mbind res_bind py_int]. rewrite Z.eqb_refl. cbn [negb].
  rewrite (decode_bound_ok _ "lower" (cst_lower s)) by (by simplify_map_eq).
  rewrite (decode_bound_ok _ "upper" (cst_upper s)) by (by simplify_map_eq). by destruct s.
Qed.

#[local] Instance pretty_inj_Z : Inj (=) (=) (pretty : Z -> string) := _.

Lemma decode_encode_stats m : stats_ok m -> decode_stats (JObj (encode_stats m)) = Ok m.
Proof.
  intros Hok. unfold decode_stats.
  assert (forall x, x ∈ map_to_list (encode_stats m) -> exists i s, x = (pretty i, stat_json s) /\ m !! i = Some s) as Hin.
  { intros [k v] Hkv. apply elem_of_map_to_list in Hkv. unfold encode_stats in Hkv. apply lookup_kmap_Some in Hkv as (i & -> & Hi); [|apply _].
    apply lookup_fmap_Some in Hi as (s & <- & Hs). by exists i, s. }
  assert (exists l, res_map decode_stat (map_to_list (encode_stats m)) = Ok l) as [l Hl].
  { exists (map (fun x => default (0, ColumnStats 0 0 0 0 None None) (match decode_stat x with Ok y => Some y | _ => None end)) (map_to_list (encode_stats m))).
    apply res_map_ok. intros x Hx. destruct (Hin x Hx) as (i & s & -> & Hm). by rewrite decode_stat_ok by apply (Hok i s Hm). }
  rewrite Hl. cbn [mbind res_bind]. f_equal.
  assert (forall i s, (i, s) ∈ l <-> m !! i = Some s) as Hmem.
  { intros i s. split.
    - intros Hi. destruct (res_map_source _ _ _ _ Hl Hi) as (x & Hx & E). destruct (Hin x Hx) as (i' & s' & -> & Hm).
      rewrite decode_stat_ok in E by apply (Hok _ _ Hm). by injection E as -> ->.
    - intros Hm. destruct (res_map_image decode_stat (map_to_list (encode_stats m)) l (pretty i, stat_json s) Hl) as ([i' s'] & Hi & E).
      + apply elem_of_map_to_list. unfold encode_stats. rewrite lookup_kmap, lookup_fmap, Hm by apply _. done.
      + rewrite decode_stat_ok in E by apply (Hok _ _ Hm). by injection E as <- <-. }
  apply map_eq. intros i. destruct (m !! i) as [s|] eqn:Hm.
  - apply elem_of_list_to_map_1'; [|by apply Hmem]. intros y Hy. apply Hmem in Hy. congruence.
  - apply not_elem_of_list_to_map_1. intros Hi. apply list_elem_of_fmap in Hi as ([i' s] & -> & Hs). apply Hmem in Hs. cbn in Hm. congruence.
Qed.

(** ** Publishing *)

Section theorems.
Context `{HEnv : Env}.

Definition record_key (s : worker_split) : string := completion_key (split_key s) (ws_generation_id s).

(** The completion a split publishes for its data. *)
Definition completion_of (s : worker_split) (size records : Z) (hash tag : string) : split_completion :=
  SplitCompletion (ws_generation_id s) (ws_generation_fence s) (ws_generation_plan_sha256 s) (split_key s) size records hash tag
    (default ∅ (sd_stats (ws_split s))).

Lemma check_identity_reads s : reads (check_identity s).
Proof. unfold check_identity. destruct (is_legacy s); [apply reads_ret|]. unfold assert_generation_identity.
  apply reads_bind; [apply reads_bind; [apply read_raw_json_reads|intros; apply reads_ret]|]. intros lease.
  destruct (negb _); [apply reads_raise|]. apply reads_bind; [apply reads_lift|]. intros stale. destruct stale; [apply reads_raise|].
  apply reads_bind; [apply reads_lift|]. intros e. apply reads_bind; [apply reads_now_ms|]. intros now.
  destruct (_ <=? _); [apply reads_raise|]. destruct (_ && _); [apply reads_raise|apply reads_ret].
Qed.

Lemma st_run {A} (m : M mem A) w a w' : st m w = (Ok a, w') -> (m (w_store w)).1 = Ok a /\ w_store w' = (m (w_store w)).2.
Proof. unfold st. by intros [= -> <-]. Qed.

Lemma with_key_run {A} key (f : string -> M mem A) s a s' : with_key key f s = (Ok a, s') -> exists k, normalize_key key = Ok k /\ f k s = (Ok a, s').
Proof. unfold with_key. destruct (normalize_key key) as [k|]; [by exists k|done]. Qed.

Lemma st_put_run key b w x w' : st (put key b) w = (Ok x, w') -> exists k, normalize_key key = Ok k /\ w_store w' = <[k := b]> (w_store w).
Proof.
  unfold st, put, with_key. destruct (normalize_key key) as [k|]; [|done]. intros [= _ <-]. by exists k.
Qed.

Lemma write_record_run s b w w' :
  (if is_legacy s then st (put (record_key s) b);; mret tt
   else
     written ← st_now (fun now => fenced_put now COORDINATOR_KEY (ws_generation_id s) (ws_generation_fence s) (record_key s) b);
     if (written : bool) then mret tt
     else raise (GenerationError "generation was fenced before split completion publication")) w = (Ok tt, w') ->
  exists ck, normalize_key (record_key s) = Ok ck /\ w_store w' = <[ck := b]> (w_store w).
Proof.
  destruct (is_legacy s); intros H.
  - run_Ok H. apply st_put_run in E as (k & Hk & Hs). injection H as <-. by exists k.
  - run_Ok H. destruct a; [|done]. injection H as <-. unfold st_now in E. run_Ok E. injection E0 as <- <-. unfold st in E.
    unfold fenced_put in E. cbn [w_store tick] in E. destruct (fence_matches _ _ _ _ _) as [[]|]; try discriminate E.
    destruct (normalize_key (record_key s)) as [ck|]; [|discriminate E]. injection E as <-. by exists ck.
Qed.

Lemma publish_record_run s hash tag w c w' : publish_split_completion_record s hash tag w = (Ok c, w') ->
  exists k ck b records, normalize_key (split_key s) = Ok k /\ normalize_key (record_key s) = Ok ck /\ w_store w !! k = Some b /\
    sd_file_size_in_bytes (ws_split s) = Some (blob_size b) /\ sd_record_count (ws_split s) = Some records /\
    c = completion_of s (blob_size b) records hash tag /\ w_store w' = <[ck := BJson (JObj (payload c))]> (w_store w).
Proof.
  unfold publish_split_completion_record. destruct (sd_file_size_in_bytes (ws_split s)) as [size|]; [|done].
  destruct (sd_record_count (ws_split s)) as [records|]; [|done]. destruct (negb (is_hex_of 64 _)); [done|]. destruct (negb (is_hex_of 32 _)); [done|].
  intros H. apply fbind_Ok in H as ([] & w1 & E1 & H). apply fbind_Ok in H as (stat & w2 & E2 & H).
  pose proof (check_identity_reads s w) as Hw1. rewrite E1 in Hw1. cbn [snd] in Hw1.
  apply st_run in E2 as [E2 Hw2]. unfold head in E2, Hw2. rewrite Hw1 in E2, Hw2. unfold with_key in E2, Hw2.
  destruct (normalize_key (split_key s)) as [k|] eqn:Hk; [|discriminate E2]. cbn [fst snd] in E2, Hw2. injection E2 as <-.
  destruct (w_store w !! k) as [b|] eqn:Hb; cbn [fmap option_fmap option_map] in H; [|done]. cbn [os_size mk_stat] in H.
  destruct (blob_size b =? size) eqn:Hs; [|done]. apply Z.eqb_eq in Hs as <-. cbn [negb] in H.
  apply fbind_Ok in H as ([] & w3 & E3 & H). injection H as <- <-.
  apply write_record_run in E3 as (ck & Hck & Hw3). exists k, ck, b, records. rewrite Hw3, Hw2. by split_and!.
Qed.

Lemma completion_published s data w c w' : publish_split_completion s data w = (Ok c, w') ->
  normalize_key (split_key s) <> normalize_key (record_key s) ->
  exists k ck b records, normalize_key (split_key s) = Ok k /\ normalize_key (record_key s) = Ok ck /\
    w_store w' !! k = Some b /\ w_store w' !! ck = Some (BJson (JObj (payload c))) /\
    sd_file_size_in_bytes (ws_split s) = Some (blob_size b) /\ sd_record_count (ws_split s) = Some records /\
    c = completion_of s (blob_size b) records (sha256_hex data) (md5_hex data) /\
    blob_size b = blob_size (BRaw data) /\ sha256_hex (blob_bytes b) = sha256_hex data.
Proof.
  unfold publish_split_completion. destruct (sd_file_size_in_bytes (ws_split s)) as [size|] eqn:Esize; [|done].
  destruct (sd_record_count (ws_split s)) as [records|] eqn:Erec; [|done]. intros H Hne.
  apply fbind_Ok in H as ([] & w1 & _ & H). apply fbind_Ok in H as ([] & w2 & E2 & H).
  apply publish_record_run in H as (k & ck & b & records' & Hk & Hck & Hb & Hsize & Hrec & Hc & Hw).
  assert (k <> ck) as Hkc by congruence.
  exists k, ck, b, records'. rewrite Hw, lookup_insert_ne, lookup_insert_eq by done.
  enough (blob_size b = blob_size (BRaw data) /\ sha256_hex (blob_bytes b) = sha256_hex data) as [H1 H2] by (split_and!; congruence).
  destruct (is_legacy s).
  - apply fbind_Ok in E2 as (x & w3 & E & E2). injection E2 as <-. apply st_put_run in E as (k' & Hk' & Hs). assert (k' = k) as -> by congruence.
    rewrite Hs, lookup_insert_eq in Hb. by injection Hb as <-.
  - unfold catch in E2.
    destruct ((st (put_stream_if_absent (split_key s) [data] (Some (Z.of_nat (String.length data))));; mret tt) w1) as [[u|e] w3] eqn:E.
    2: { destruct e; discriminate E2. }
    injection E2 as _ <-. apply fbind_Ok in E as (x & w4 & E & E3). injection E3 as _ <-. apply st_run in E as [E Hs].
    pose proof (put_blob_if_absent_keeps (split_key s) k (BRaw (concat_chunks [data])) (Some (Z.of_nat (String.length data))) (w_store w1) Hk) as Hp.
    unfold put_stream_if_absent in E, Hs. destruct (put_blob_if_absent _ _ _ (w_store w1)) as [r s'].
    destruct Hp as (_ & _ & Hp). cbn [fst snd] in E, Hs. destruct (Hp x E) as (b' & Hb' & _ & H1 & H2 & _).
    rewrite Hs in Hb. rewrite Hb in Hb'. injection Hb' as <-. done.
Qed.

(** ** Reading *)

Lemma payload_fields c : let d := payload c in
  d !! "version" = Some (JInt 2) /\ d !! "generation_id" = Some (JStr (sc_generation_id c)) /\ d !! "fence" = Some (JInt (sc_fence c)) /\
  d !! "plan_sha256" = Some (JStr (sc_plan_sha256 c)) /\ d !! "object_key" = Some (JStr (sc_object_key c)) /\
  d !! "file_size_in_bytes" = Some (JInt (sc_file_size_in_bytes c)) /\ d !! "record_count" = Some (JInt (sc_record_count c)) /\
  d !! "sha256" = Some (JStr (sc_sha256 c)) /\ d !! "s3_etag" = Some (JStr (sc_s3_etag c)) /\ d !! "stats" = Some (JObj (encode_stats (sc_stats c))).
Proof. unfold payload, mk_dict. cbn [list_to_map foldr fst snd uncurry]. cbv zeta. split_and!; by simplify_map_eq. Qed.

(** The same object, seen by another Agent of the generation. *)
Definition same_object (s s2 : worker_split) : Prop :=
  split_key s2 = split_key s /\ ws_generation_id s2 = ws_generation_id s /\ ws_generation_fence s2 = ws_generation_fence s /\
  ws_generation_plan_sha256 s2 = ws_generation_plan_sha256 s.

Lemma parse_run s s2 size records hash tag w : same_object s s2 -> truthy_str tag = true ->
  stats_ok (default ∅ (sd_stats (ws_split s))) ->
  let c := completion_of s size records hash tag in parse_completion s2 (BJson (JObj (payload c))) w = (Ok c, w).
Proof.
  intros (Hk & Hg & Hf & Hp) Ht Hok c. destruct (payload_fields c) as (P1 & P2 & P3 & P4 & P5 & P6 & P7 & P8 & P9 & P10).
  unfold parse_completion. cbn [loads]. set (d := payload c) in *.
  assert ((if truthy (dget d "plan_sha256" JNull) then py_str (dget d "plan_sha256" JNull) else Ok "") = Ok (ws_generation_plan_sha256 s)) as Hplan.
  { unfold dget. rewrite P4. cbn [default from_option id truthy py_str c completion_of sc_plan_sha256].
    destruct (truthy_str (ws_generation_plan_sha256 s)) eqn:E; [done|]. by apply truthy_str_false in E as ->. }
  assert (identity_differs s2 d = Ok false) as Hid.
  { unfold identity_differs, get_int. cbv zeta. rewrite Hplan. unfold dget. rewrite P1, P2, P3, P5, Hk, Hg, Hf, Hp.
    cbn [default from_option id eq_num as_num c completion_of sc_generation_id sc_fence sc_object_key py_int mbind res_bind].
    rewrite !bool_decide_eq_true_2 by done. cbn [Z.eqb Pos.eqb orb negb]. rewrite Z.eqb_refl, String.eqb_refl. cbn [negb].
    by destruct (truthy_str (ws_generation_plan_sha256 s)). }
  rewrite (run_bind _ _ false w w) by (unfold lift; by rewrite Hid). cbn [negb].
  assert (dget d "s3_etag" JNull = JStr tag) as Htag by (unfold dget; by rewrite P9). rewrite Htag. cbn [truthy]. rewrite Ht.
  rewrite (run_bind _ _ tag w w) by done. unfold lift. f_equal. unfold decode_completion, req_str, req_int, dget_req. cbv zeta.
  rewrite Hplan, P2, P3, P5, P6, P7, P8. cbn [of_option mbind res_bind py_str py_int]. unfold dget. rewrite P10. cbn [default from_option id].
  rewrite decode_encode_stats by done. done.
Qed.

Lemma md5_truthy data : truthy_str (md5_hex data) = true.
Proof. apply truthy_str_true. intros E. destruct (md5_shape data) as [H _]. by rewrite E in H. Qed.

Lemma gen_record_sha c : gc_version c = 2 -> gen_record c !! "plan_sha256" = Some (JStr (gc_plan_sha256 c)).
Proof. intros Hv. unfold gen_record. rewrite Hv. reflexivity. Qed.

(** A split that was given the generation the coordinator record still holds passes the check
    until the lease expires. *)
Lemma assigned_identity_current snapshots c splits s w :
  splits ∈ assign_generation snapshots c -> s ∈ splits ->
  coordinator (w_store w) (Some c) -> clock (w_ticks w) < gc_expires_at_ms c ->
  (check_identity s w).1 = Ok tt.
Proof.
  intros Hl Hs Hc Ht. apply list_elem_of_fmap in Hl as (snap & -> & _). apply list_elem_of_fmap in Hs as (sd & -> & _).
  unfold check_identity. cbn [ws_generation_id ws_generation_fence ws_generation_token ws_generation_plan_sha256].
  destruct (is_legacy _); [done|].
  unfold assert_generation_identity, mbind, M_bind. rewrite (read_json_coordinator _ (Some c) Hc).
  cbn [fmap option_fmap option_map from_option id]. rewrite gen_record_truthy. cbn [negb].
  unfold get_int, dget, lift. rewrite gen_record_id, gen_record_fence, gen_record_token. cbn [from_option id].
  rewrite bool_decide_eq_true_2 by done. cbn. rewrite Z.eqb_refl, bool_decide_eq_true_2 by done. cbn [negb orb].
  rewrite gen_record_expiry. cbn. rewrite (proj2 (Z.leb_gt _ _)) by done.
  destruct (truthy_str _); [|done]. cbn [andb]. rewrite gen_record_sha by apply Hc. cbn. by rewrite bool_decide_eq_true_2.
Qed.

(** C12: A completion record tells the other Agents what the owner stored.  When the owner of a
    split has published it, an Agent that has the same split (object, generation, fence, plan)
    reads back exactly the published completion from every later store that still has the two
    objects, the Parquet file and its record, and in which the Agent's generation still passes
    the identity check; the rest of the store may be anything.  Nothing is written by the read,
    and the split it updates has the size, row count, digest, tag and statistics of the owner's.
    The statistics of a split are keyed by their own field id, a natural number. *)
Theorem completion_roundtrip s data w c w1 s2 w2 :
  publish_split_completion s data w = (Ok c, w1) ->
  normalize_key (split_key s) <> normalize_key (record_key s) ->
  stats_ok (default ∅ (sd_stats (ws_split s))) ->
  same_object s s2 ->
  (forall key k, key = split_key s \/ key = record_key s -> normalize_key key = Ok k -> w_store w2 !! k = w_store w1 !! k) ->
  (check_identity s2 w2).1 = Ok tt ->
  (exists w3, read_split_completion s2 w2 = (Ok (Some c), w3) /\ w_store w3 = w_store w2) /\
  let '(mine, theirs) := ((apply_split_completion (ws_split s2) c).1, ws_split s) in
  sd_file_size_in_bytes mine = sd_file_size_in_bytes theirs /\ sd_record_count mine = sd_record_count theirs /\
  sd_content_hash mine = Some (sha256_hex data) /\ sd_s3_etag mine = Some (md5_hex data) /\
  sd_stats mine = Some (default ∅ (sd_stats theirs)).
Proof.
  intros Hpub Hne Hok Hsame Hkeep Hid. apply completion_published in Hpub as (k & ck & b & records & Hk & Hck & Hb & Hrec & Hsize & Hcount & -> & Hbs & Hbh); [|done].
  pose proof Hsame as (Ek & Eg & Ef & Ep).
  rewrite <- (Hkeep (split_key s) k) in Hb by (auto || done). rewrite <- (Hkeep (record_key s) ck) in Hrec by (auto || done).
  split; [|cbn; by rewrite Hsize, Hcount].
  destruct (check_identity s2 w2) as [r w3] eqn:E. cbn [fst] in Hid. subst r. pose proof (check_identity_reads s2 w2) as Hw3. rewrite E in Hw3. cbn [snd] in Hw3.
  exists w3. split; [|done]. unfold read_split_completion. erewrite run_bind by exact E.
  assert (completion_key (split_key s2) (ws_generation_id s2) = record_key s) as -> by (unfold record_key; congruence). rewrite Ek.
  assert (forall key x, st (get key 0 None) w3 = (x, set_store (w_store w3) w3) -> st (get key 0 None) w3 = (x, w3)) as Hset.
  { intros key x ->. by destruct w3. }
  assert (st (get (record_key s) 0 None) w3 = (Ok (BJson (JObj (payload (completion_of s (blob_size b) records (sha256_hex data) (md5_hex data))))), w3)) as Hget.
  { apply Hset. unfold st. rewrite (get_whole _ ck) by done. rewrite Hw3, Hrec. done. }
  erewrite run_bind. 2: { unfold catch. erewrite run_bind by exact Hget. reflexivity. }
  cbv beta iota. erewrite run_bind. 2: { unfold catch. rewrite (parse_run s) by (done || apply md5_truthy). reflexivity. }
  assert (st (head (split_key s)) w3 = (Ok (Some (mk_stat k b)), w3)) as Hhead.
  { unfold st, head. rewrite (with_key_Ok _ k) by done. rewrite Hw3, Hb. cbn [fst snd fmap option_fmap option_map]. by rewrite <- Hw3, set_store_id. }
  erewrite run_bind by exact Hhead. cbn [os_size mk_stat completion_of sc_file_size_in_bytes sc_sha256]. rewrite Z.eqb_refl. cbn [negb].
  assert (st (verify (split_key s) (blob_size b) (sha256_hex data)) w3 = (Ok true, w3)) as Hver.
  { unfold st, verify. rewrite (with_key_Ok _ k) by done. rewrite Hw3, Hb. cbn [fst snd]. rewrite Z.eqb_refl, Hbh, String.eqb_refl. by rewrite <- Hw3, set_store_id. }
  erewrite run_bind by exact Hver. done.
Qed.

(** A completion that is read describes the stored object: an object of its size and digest is
    under the key of the split. *)
Theorem completion_read_sound s w c w' : read_split_completion s w = (Ok (Some c), w') ->
  exists k b, normalize_key (split_key s) = Ok k /\ w_store w' !! k = Some b /\
    blob_size b = sc_file_size_in_bytes c /\ sha256_hex (blob_bytes b) = sc_sha256 c.
Proof.
  unfold read_split_completion. intros H. apply fbind_Ok in H as ([] & w1 & _ & H). apply fbind_Ok in H as (raw & w2 & _ & H).
  destruct raw as [raw|]; [|done]. apply fbind_Ok in H as (c' & w3 & _ & H). apply fbind_Ok in H as (stat & w4 & _ & H).
  destruct stat as [stat|]; [|done]. destruct (negb _); [done|]. apply fbind_Ok in H as (ok & w5 & Hv & H). destruct ok; [|done].
  injection H as <- <-. apply st_run in Hv as [Hv Hs]. unfold verify, with_key in Hv, Hs. destruct (normalize_key (split_key s)) as [k|]; [|done].
  cbn [fst snd] in Hv, Hs. injection Hv as Hv. destruct (w_store w4 !! k) as [b|] eqn:Hb; [|done].
  apply andb_true_iff in Hv as [Hsz Hh]. apply Z.eqb_eq in Hsz. apply String.eqb_eq in Hh. exists k, b. rewrite Hs. by split_and!.
Qed.
End theorems.

(** *** A worked case *)

Definition owned_table : table_def := TableDef "t" "t" [] 1 None "" None None None None None None true.
Definition owned_stats : gmap Z column_stats := {[1 := ColumnStats 1 40 3 0 (Some "a") None]}.
Definition owned_split : worker_split :=
  WorkerSplit (SplitDescriptor 0 1 "db/t/data/a.parquet" 0 owned_table (Some 3) (Some 4) None None (Some owned_stats) None None None None)
    (gc_generation_id (demo_context 5)) 5 (gc_lease_token (demo_context 5)) "".
Definition other_split : worker_split :=
  WorkerSplit (SplitDescriptor 0 1 "db/t/data/a.parquet" 0 owned_table None None None None None None None None None)
    (gc_generation_id (demo_context 5)) 5 (gc_lease_token (demo_context 5)) "".
Definition still_env : Env := {| clock := fun _ => 0; token := fun _ => "" |}.
#[local] Existing Instance still_env.
Definition after_publication : world := (publish_split_completion owned_split "PAR1" (demo_world 5)).2.
Definition owned_completion : split_completion := completion_of owned_split 4 3 (sha256_hex "PAR1") (md5_hex "PAR1").

Lemma completion_roundtrip_witness :
  exists w3, read_split_completion other_split after_publication = (Ok (Some owned_completion), w3) /\
    sd_stats (apply_split_completion (ws_split other_split) owned_completion).1 = Some owned_stats.
Proof.
  pose proof (completion_roundtrip owned_split "PAR1" (demo_world 5) owned_completion after_publication other_split after_publication) as H.
  destruct H as [(w3 & Hread & _) (_ & _ & _ & _ & Hstats)].
  - vm_compute. reflexivity.
  - vm_compute. discriminate.
  - intros i x Hx. change (owned_stats !! i = Some x) in Hx. unfold owned_stats in Hx. apply lookup_singleton_Some in Hx as [<- <-]. split; [reflexivity|lia].
  - repeat split.
  - intros key k _ _. reflexivity.
  - vm_compute. reflexivity.
  - exists w3. split; [exact Hread|exact Hstats].
Defined.
