(* ===== verification/Blake2.v ===== *)
(** * BLAKE2b

    [hashlib.blake2b(data, digest_size=n).hexdigest()] without a key: RFC 7693 on 64-bit
    words kept as [N] below [2^64]. *)

From S2P Require Import Prelude PyText Sha256 Md5.
From Stdlib Require Import Ascii.

Local Open Scope N_scope.

Definition mask64 : N := 18446744073709551615.
Definition add64 (a b : N) : N := N.land (a + b) mask64.
Definition rotr64 (n x : N) : N := N.lor (N.shiftr x n) (N.land (N.shiftl x (64 - n)) mask64).

Definition blake2b_iv : list N :=
  [7640891576956012808; 13503953896175478587; 4354685564936845355; 11912009170470909681;
   5840696475078001361; 11170449401992604703; 2270897969802886507; 6620516959819538809].

Definition blake2b_sigma : list (list nat) :=
  [[0; 1; 2; 3; 4; 5; 6; 7; 8; 9; 10; 11; 12; 13; 14; 15]%nat;
   [14; 10; 4; 8; 9; 15; 13; 6; 1; 12; 0; 2; 11; 7; 5; 3]%nat;
   [11; 8; 12; 0; 5; 2; 15; 13; 10; 14; 3; 6; 7; 1; 9; 4]%nat;
   [7; 9; 3; 1; 13; 12; 11; 14; 2; 6; 5; 10; 4; 0; 15; 8]%nat;
   [9; 0; 5; 7; 2; 4; 10; 15; 14; 1; 11; 12; 6; 8; 3; 13]%nat;
   [2; 12; 6; 10; 0; 11; 8; 3; 4; 13; 7; 5; 15; 14; 1; 9]%nat;
   [12; 5; 1; 15; 14; 13; 4; 10; 0; 7; 6; 3; 9; 2; 8; 11]%nat;
   [13; 11; 7; 14; 12; 1; 3; 9; 5; 0; 15; 4; 8; 6; 2; 10]%nat;
   [6; 15; 14; 9; 11; 3; 0; 8; 12; 2; 13; 7; 1; 4; 10; 5]%nat;
   [10; 2; 8; 4; 7; 6; 1; 5; 15; 11; 9; 14; 3; 12; 13; 0]%nat].

(** The mixing function on the positions [a], [b], [c], [d] of the working vector. *)
Definition blake2b_mix (v : list N) (p : nat * nat * nat * nat) (x y : N) : list N :=
  let '(a, b, c, d) := p in
  let g i := nth i v 0 in
  let va := add64 (add64 (g a) (g b)) x in
  let vd := rotr64 32 (N.lxor (g d) va) in
  let vc := add64 (g c) vd in
  let vb := rotr64 24 (N.lxor (g b) vc) in
  let va := add64 (add64 va vb) y in
  let vd := rotr64 16 (N.lxor vd va) in
  let vc := add64 vc vd in
  let vb := rotr64 63 (N.lxor vb vc) in
  <[a := va]> (<[b := vb]> (<[c := vc]> (<[d := vd]> v))).

Definition blake2b_positions : list (nat * nat * nat * nat) :=
  [(0, 4, 8, 12); (1, 5, 9, 13); (2, 6, 10, 14); (3, 7, 11, 15);
   (0, 5, 10, 15); (1, 6, 11, 12); (2, 7, 8, 13); (3, 4, 9, 14)]%nat.

Definition blake2b_round (m : list N) (v : list N) (s : list nat) : list N :=
  foldl (fun v ip => blake2b_mix v ip.2 (nth (nth (2 * ip.1) s 0%nat) m 0) (nth (nth (2 * ip.1 + 1) s 0%nat) m 0))
    v (imap pair blake2b_positions).

Definition blake2b_compress (h m : list N) (t : N) (is_last : bool) : list N :=
  let v := h ++ blake2b_iv in
  let v := <[12%nat := N.lxor (nth 12 v 0) (N.land t mask64)]> (<[13%nat := N.lxor (nth 13 v 0) (N.shiftr t 64)]> v) in
  let v := if is_last then <[14%nat := N.lxor (nth 14 v 0) mask64]> v else v in
  let v := foldl (blake2b_round m) v (blake2b_sigma ++ take 2 blake2b_sigma) in
  zip_with N.lxor h (zip_with N.lxor (take 8 v) (drop 8 v)).

(** Eight bytes, the lowest first, as a word. *)
Fixpoint words64_le (n : nat) (bytes : list N) : list N :=
  match n with
  | O => []
  | S n => foldr (fun b acc => b + N.shiftl acc 8) 0 (take 8 bytes) :: words64_le n (drop 8 bytes)
  end.

(** The blocks of 128 bytes, the last one filled with zeros. *)
Fixpoint blake2b_blocks (n : nat) (bytes : list N) (t : N) (h : list N) : list N :=
  match n with
  | O => h
  | S n =>
      let t' := t + N.of_nat (length (take 128 bytes)) in
      blake2b_blocks n (drop 128 bytes) t' (blake2b_compress h (words64_le 16 (take 128 bytes)) t' (n =? 0)%nat)
  end.

Definition blake2b_hex (digest_size : nat) (s : string) : string :=
  let bytes := string_bytes s in
  let count := Nat.max 1 ((length bytes + 127) / 128) in
  let h0 := match blake2b_iv with
            | x :: rest => N.lxor x (N.lxor 16842752 (N.of_nat digest_size)) :: rest
            | [] => []
            end in
  let out := concat (map (bytes_le 8) (blake2b_blocks count bytes 0 h0)) in
  foldr (fun b acc => hex_word 2 b +:+ acc) "" (take digest_size out).

Example blake2b_abc : blake2b_hex 64 "abc" =
  "ba80a53f981c4d0d6a2797b69f12f6e94c212f14685ac4b74b12bb6fdbffa2d17d87c5392aab792dc252d5de4533cc9518d38aa8dbf1925ab92386edd4009923".
Proof. vm_compute. reflexivity. Qed.
Example blake2b_two_blocks : blake2b_hex 20 (String.concat "" (replicate 200 "a")) = "48b666ff92747148c4dfe4e2437fe78dd64872d1".
Proof. vm_compute. reflexivity. Qed.
Example blake2b_empty : blake2b_hex 8 "" = "e4a6a0577479b2b4".
Proof. vm_compute. reflexivity. Qed.
