(* ===== verification/Tokenization.v ===== *)
(** * Tokenization

    [tokenization/policy.py]: policies, their registry and the durable token; and
    [storage/tokenizer.py]: the tokenization of rows that leave the source in the clear.
    [TokenizationPolicyError] is a [ValueError] and is caught as one. *)

From S2P Require Import Prelude PyText Numerals Sha256 Json Sources Dialects Md5 Blake2 MirrorState.
From Stdlib Require Import Ascii.

Definition has_space (s : string) : bool := negb (unspaced s).

(** ** Policies *)

Record policy := Policy {
  tk_policy_id : string;
  tk_kind : string;
  tk_algorithm : string;
  tk_key_ref : option string;
  tk_domain : option string;
  tk_normalization : string;
  tk_digest_size : Z;
  tk_framing_version : Z;
  tk_enabled : bool;
}.
#[global] Instance policy_eq_dec : EqDecision policy.
Proof. solve_decision. Defined.

(** The smallest and the largest digest of an approved algorithm. *)
Definition ALGORITHMS : list (string * (Z * Z)) := [("sha256", (32, 32)); ("blake2b", (1, 64))].

(** [TokenizationPolicy.__post_init__] *)
Definition check_policy (p : policy) : res policy :=
  let policy_id := strip (tk_policy_id p) in
  if String.eqb policy_id "" || has_space policy_id
  then Err (TokenizationPolicyError "policy_id must be non-empty and contain no whitespace")
  else if negb (bool_decide (tk_kind p ∈ ["durable_token"; "random_token"]))
  then Err (TokenizationPolicyError "kind must be 'durable_token' or 'random_token'")
  else match odict_get (tk_algorithm p) ALGORITHMS with
  | None => Err (TokenizationPolicyError (fmt ["unsupported tokenization algorithm: "; quoted (tk_algorithm p)]))
  | Some (min_size, max_size) =>
      if negb (bool_decide (tk_normalization p ∈ COLUMN_NORMALIZATIONS))
      then Err (TokenizationPolicyError (fmt ["unsupported tokenization normalization: "; quoted (tk_normalization p)]))
      else if negb ((min_size <=? tk_digest_size p) && (tk_digest_size p <=? max_size))
      then Err (TokenizationPolicyError (fmt [tk_algorithm p; " digest_size must be between "; pretty min_size; " and "; pretty max_size; " bytes"]))
      else if negb (tk_framing_version p =? 1) then Err (TokenizationPolicyError "unsupported tokenization framing version")
      else if String.eqb (tk_kind p) "durable_token" && negb (truthy_opt (tk_key_ref p))
      then Err (TokenizationPolicyError "durable_token requires a key_ref")
      else if String.eqb (tk_kind p) "random_token" && truthy_opt (tk_key_ref p)
      then Err (TokenizationPolicyError "random_token must not have a key_ref")
      else Ok p
  end.

Definition opt_str (o : option string) : json := match o with Some s => JStr s | None => JNull end.

(** [to_public] *)
Definition policy_to_public (p : policy) : dict :=
  mk_dict [("policy_id", JStr (tk_policy_id p)); ("kind", JStr (tk_kind p)); ("algorithm", JStr (tk_algorithm p));
    ("key_ref", opt_str (tk_key_ref p)); ("domain", opt_str (tk_domain p)); ("normalization", JStr (tk_normalization p));
    ("digest_size", JInt (tk_digest_size p)); ("framing_version", JInt (tk_framing_version p)); ("enabled", JBool (tk_enabled p))].

Definition forbidden_fields : list string := ["key"; "secret"; "secret_value"; "token_key"].

Definition policy_body (d : dict) : res policy :=
  policy_id ← req_str d "policy_id";
  kind ← req_str d "kind";
  algorithm ← get_str d "algorithm" "sha256";
  key_ref ← (let v := dget d "key_ref" JNull in if truthy v then s ← py_str v; Ok (Some (strip s)) else Ok None);
  domain ← (match dget d "domain" JNull with JNull => Ok None | v => s ← py_str v; Ok (Some s) end);
  normalization ← get_str d "normalization" "none";
  digest_size ← get_int d "digest_size" 32;
  framing_version ← get_int d "framing_version" 1;
  check_policy (Policy (strip policy_id) (lower (strip kind)) (lower (strip algorithm)) key_ref domain
    (lower (strip normalization)) digest_size framing_version (get_bool d "enabled" true)).

(** [TokenizationPolicy.from_dict]; the reason quoted in the last error is left out *)
Definition policy_from_dict (raw : json) : res policy :=
  match raw with
  | JObj d =>
      if existsb (fun k => bool_decide (is_Some (d !! k))) forbidden_fields
      then Err (TokenizationPolicyError "tokenization policy must contain key_ref, not key material")
      else match policy_body d with
           | Err (KeyError _) | Err (TypeError _) | Err (ValueError _) | Err (TokenizationPolicyError _) =>
               Err (TokenizationPolicyError "invalid tokenization policy")
           | r => r
           end
  | _ => Err (TokenizationPolicyError "tokenization policy must be an object")
  end.

(** [policy_fingerprint] *)
Definition policy_fingerprint (p : policy) : string := str_take 24 (sha256_hex (dumps (JObj (policy_to_public p)))).

(** ** Tokens *)

(** The value after the normalization of the policy. *)
Definition normalize_value (normalization value : string) : string :=
  let value := if bool_decide (normalization ∈ ["trim"; "trim_lower"]) then strip value else value in
  if String.eqb normalization "trim_lower" then lower value else value.

Definition token_domain (p : policy) : string := str_or (or_empty (tk_domain p)) (tk_policy_id p).
Definition token_payload (key domain value : string) : string := fmt [key; "|"; domain; "|"; value].

Definition token_digest (p : policy) (text : string) : string :=
  upper (if String.eqb (tk_algorithm p) "sha256" then sha256_hex text else blake2b_hex (Z.to_nat (tk_digest_size p)) text).

(** [deterministic_token] *)
Definition deterministic_token (cfg : source_config) (p : policy) (value : string) : res string :=
  if negb (String.eqb (tk_kind p) "durable_token")
  then Err (TokenizationPolicyError "only durable_token policies produce deterministic tokens")
  else
    key ← resolve_tokenization_key cfg (or_empty (tk_key_ref p));
    Ok (token_digest p (token_payload key (token_domain p) (normalize_value (tk_normalization p) value))).

(** [legacy_policy] with its default policy id *)
Definition legacy_policy (t : column_transform) (default_domain : option string) : res policy :=
  kind ← (if String.eqb (ct_kind t) "deterministic_hash" then Ok "durable_token"
          else if String.eqb (ct_kind t) "random_token" then Ok "random_token"
          else Err (TokenizationPolicyError (fmt ["unsupported legacy transform: "; quoted (ct_kind t)])));
  check_policy (Policy "legacy-inline" kind "sha256" (ct_key_ref t)
    (if truthy_opt (ct_domain t) then ct_domain t else default_domain) (ct_normalization t) 32 1 true).

(** [to_legacy_transform] *)
Definition to_legacy_transform (p : policy) : res column_transform :=
  make_transform (if String.eqb (tk_kind p) "durable_token" then "deterministic_hash" else "random_token")
    (tk_key_ref p) (tk_domain p) (tk_normalization p).

(** ** Selections *)

Record selection := Selection {
  se_action : string;
  se_policy_id : option string;
}.

(** [TokenizationSelection.__post_init__] *)
Definition check_selection (s : selection) : res selection :=
  let tokenizes := bool_decide (se_action s ∈ ["durable_token"; "random_token"]) in
  if negb (tokenizes || bool_decide (se_action s ∈ ["keep"; "remove"]))
  then Err (TokenizationPolicyError "action must be 'keep', 'remove', 'durable_token', or 'random_token'")
  else if negb tokenizes && match se_policy_id s with Some _ => true | None => false end
  then Err (TokenizationPolicyError (fmt [se_action s; " selection must not reference a policy"]))
  else if tokenizes && (negb (truthy_opt (se_policy_id s)) || has_space (or_empty (se_policy_id s)))
  then Err (TokenizationPolicyError (fmt [se_action s; " selection requires a policy_id without whitespace"]))
  else Ok s.

(** [selection_from_transform] *)
Definition selection_from_transform (t : column_transform) : res selection :=
  if String.eqb (ct_kind t) "deterministic_hash" then check_selection (Selection "durable_token" (Some "legacy-inline"))
  else if String.eqb (ct_kind t) "random_token" then check_selection (Selection "random_token" (Some "legacy-inline"))
  else Err (TokenizationPolicyError (fmt ["unsupported legacy transform: "; quoted (ct_kind t)])).

(** ** The registry of policies *)

Abbreviation policies := (list (string * policy)).

Definition register_policy (p : policy) (r : policies) : res policies :=
  if bool_decide (tk_policy_id p ∈ map fst r)
  then Err (TokenizationPolicyError (fmt ["tokenization policy already exists: "; quoted (tk_policy_id p)]))
  else Ok (odict_set (tk_policy_id p) p r).

(** [TokenizationPolicyRegistry(policies)] *)
Fixpoint register_all (l : list policy) (r : policies) : res policies :=
  match l with
  | [] => Ok r
  | p :: l => r ← register_policy p r; register_all l r
  end.

Definition replace_policy (p : policy) (r : policies) : policies := odict_set (tk_policy_id p) p r.

Definition disable_policy (policy_id : string) (r : policies) : res policies :=
  match odict_get policy_id r with
  | None => Err (TokenizationPolicyError (fmt ["unknown tokenization policy: "; quoted policy_id]))
  | Some p =>
      p ← check_policy (Policy (tk_policy_id p) (tk_kind p) (tk_algorithm p) (tk_key_ref p) (tk_domain p) (tk_normalization p)
            (tk_digest_size p) (tk_framing_version p) false);
      Ok (odict_set policy_id p r)
  end.

Definition has_policy (policy_id : string) (r : policies) : bool := bool_decide (policy_id ∈ map fst r).

Definition get_policy (policy_id : string) (r : policies) : res policy :=
  match odict_get policy_id r with
  | None => Err (TokenizationPolicyError (fmt ["unknown tokenization policy: "; quoted policy_id]))
  | Some p => if tk_enabled p then Ok p
              else Err (TokenizationPolicyError (fmt ["tokenization policy is disabled: "; quoted policy_id]))
  end.

Definition policy_key_le (a b : string * policy) : Prop := str_le a.1 b.1.
#[global] Instance policy_key_le_dec a b : Decision (policy_key_le a b).
Proof. unfold policy_key_le. apply _. Defined.

(** [list_public], by policy id *)
Definition list_public (r : policies) : list dict := map (fun kp => policy_to_public kp.2) (merge_sort policy_key_le r).

(** [to_dict] and [from_dict] of the registry *)
Definition registry_to_dict (r : policies) : dict := mk_dict [("policies", JList (map JObj (list_public r)))].

Definition registry_from_dict (raw : json) : res policies :=
  match raw with
  | JObj d =>
      match d !! "policies" with
      | Some (JList l) => ps ← res_map policy_from_dict l; register_all ps []
      | _ => Err (TokenizationPolicyError "tokenization config must contain a policies list")
      end
  | _ => Err (TokenizationPolicyError "tokenization config must contain a policies list")
  end.

(** [resolve_selection]; a selection that tokenizes has a policy id *)
Definition resolve_selection (s : selection) (r : policies) : res policy :=
  if bool_decide (se_action s ∈ ["keep"; "remove"])
  then Err (TokenizationPolicyError (fmt [se_action s; " selection does not resolve a token policy"]))
  else
    p ← get_policy (or_empty (se_policy_id s)) r;
    if String.eqb (tk_kind p) (se_action s) then Ok p
    else Err (TokenizationPolicyError (fmt ["policy "; quoted (or_empty (se_policy_id s)); " is "; quoted (tk_kind p); ", not "; quoted (se_action s)])).

(** [selection]: the table-side choice of an enabled policy *)
Definition policy_selection (policy_id : string) (r : policies) : res selection :=
  p ← get_policy policy_id r; check_selection (Selection (tk_kind p) (Some (tk_policy_id p))).

(** ** Rows *)

(** [_to_text] *)
Definition to_text (c : cell) : option string :=
  match c with
  | CNull => None
  | CBool b => Some (if b then "True" else "False")
  | CInt z => Some (pretty z)
  | CText s => Some s
  end.

(** A batch of rows with the names of its columns. *)
Record batch := Batch {
  ba_names : list string;
  ba_rows : list row;
}.

(** [pa.RecordBatch.from_pylist]: the columns are those of the first row *)
Definition batch_of_rows (rows : list row) : batch :=
  Batch (match rows with r :: _ => map fst (map_to_list r) | [] => [] end) rows.

Definition batch_column (b : batch) (name : string) : list cell := map (fun r => default CNull (r !! name)) (ba_rows b).

(** The registered tokenizers: [apply] on a column, with the random identifiers it draws *)
Definition hash_column (cfg : source_config) (t : column_transform) (c : column_def) (values : list cell) : res (list cell) :=
  p ← legacy_policy t (Some (cd_name c));
  res_map (fun v => match to_text v with
                    | None => Ok CNull
                    | Some text => k ← deterministic_token cfg p text; Ok (CText k)
                    end) values.
Definition random_column (uuid4 : nat -> string) (values : list cell) : list cell :=
  imap (fun i v => match v with CNull => CNull | _ => CText (uuid4 i) end) values.

(** [get_tokenizer(kind).apply] *)
Definition apply_tokenizer (cfg : source_config) (uuid4 : nat -> string) (t : column_transform) (c : column_def)
  (values : list cell) : res (list cell) :=
  if String.eqb (ct_kind t) "deterministic_hash" then hash_column cfg t c values
  else if String.eqb (ct_kind t) "random_token" then Ok (random_column uuid4 values)
  else Err (TokenizerError (fmt ["No tokenizer registered for transform kind "; quoted (ct_kind t);
              "; known kinds: "; repr_list ["deterministic_hash"; "random_token"]])).

(** One output column. *)
Definition output_column (cfg : source_config) (uuid4 : nat -> string) (b : batch) (c : column_def) : res (list cell) :=
  if negb (bool_decide (source_name c ∈ ba_names b))
  then Err (TokenizerError (fmt ["source column "; quoted (source_name c); " for output "; quoted (cd_name c);
              " is not in the source table (columns: "; repr_list (ba_names b); ")"]))
  else match cd_transform c with
       | Some t => apply_tokenizer cfg uuid4 t c (batch_column b (source_name c))
       | None => Ok (batch_column b (source_name c))
       end.

(** [to_pylist] of the arrays with their names; of two columns with one name the last counts *)
Definition rows_of_columns (count : nat) (columns : list (string * list cell)) : list row :=
  map (fun i => foldl (fun r nc => <[nc.1 := default CNull (nc.2 !! i)]> r) ∅ columns) (seq 0 count).

(** [tokenize_batch], with the rows it makes; [uuid4 j i] is the identifier drawn for row [i] of column [j] *)
Definition tokenize_batch (cfg : source_config) (uuid4 : nat -> nat -> string) (b : batch) (columns : list column_def) : res (list row) :=
  arrays ← res_map (fun jc => a ← output_column cfg (uuid4 jc.1) b jc.2; Ok (cd_name jc.2, a)) (imap pair columns);
  Ok (rows_of_columns (length (ba_rows b)) arrays).
