(* ===== verification/TokenizationProps.v ===== *)
(** * Tokens: what they reveal, and how policies are kept

    Tokens tell equal values from different ones and nothing else; the rows that leave the
    tokenizer hold only the selected columns; a saved registry of policies is the registry
    that is loaded. *)

From S2P Require Import Prelude PyText Numerals Sha256 Json Sources Dialects Md5 Blake2 MirrorState Tokenization.
From Stdlib Require Import Ascii.

(** ** Tokens *)

Lemma upper_hex_inj a b : str_forallb is_hex_lower a = true -> str_forallb is_hex_lower b = true -> upper a = upper b -> a = b.
Proof.
  revert b. induction a as [|x a IH]; intros [|y b]; try done. cbn [str_forallb]. intros [Hx Ha]%andb_true_iff [Hy Hb]%andb_true_iff E.
  unfold upper in *. cbn [str_map] in E. injection E as E1 E2. f_equal; [|by apply IH].
  clear -Hx Hy E1. destruct x as [[] [] [] [] [] [] [] []]; vm_compute in Hx; try discriminate Hx;
    destruct y as [[] [] [] [] [] [] [] []]; vm_compute in Hy; try discriminate Hy; vm_compute in E1; try discriminate E1; reflexivity.
Qed.

Lemma bar_split a b x y : char_free "|" a = true -> char_free "|" b = true -> a +:+ ("|" +:+ x) = b +:+ ("|" +:+ y) -> a = b /\ x = y.
Proof.
  intros Ha Hb E. pose proof (partition_app_free "|" a x Ha) as H1. pose proof (partition_app_free "|" b y Hb) as H2.
  change (a +:+ String "|" x) with (a +:+ ("|" +:+ x)) in H1. change (b +:+ String "|" y) with (b +:+ ("|" +:+ y)) in H2.
  rewrite E, H2 in H1. by injection H1 as -> ->.
Qed.

Lemma payload_split key d d' v w : char_free "|" d = true -> char_free "|" d' = true ->
  token_payload key d v = token_payload key d' w -> d = d' /\ v = w.
Proof.
  intros Hd Hd' E. unfold token_payload in E. rewrite !fmt_cons in E. change (fmt []) with "" in E. rewrite !app_nil_r_s in E.
  apply app_inv_l_s, (app_inv_l_s "|") in E. by apply bar_split.
Qed.

(** C36: Durable tokens join exactly the equal values.  Two tokens made with the same SHA-256 key
    are equal when the domains and the normalized values are; and when the domains contain
    no bar, equal tokens mean equal domains and equal normalized values, or else the two hashed
    texts themselves differ and have one SHA-256 digest.  A token is 64 upper-case hexadecimal
    digits, the form a re-identification lookup accepts. *)
Theorem durable_tokens_join cfg p q v w t u :
  tk_algorithm p = "sha256" -> tk_algorithm q = "sha256" -> tk_key_ref p = tk_key_ref q ->
  deterministic_token cfg p v = Ok t -> deterministic_token cfg q w = Ok u ->
  let same := token_domain p = token_domain q /\ normalize_value (tk_normalization p) v = normalize_value (tk_normalization q) w in
  (same -> t = u) /\
  (char_free "|" (token_domain p) = true -> char_free "|" (token_domain q) = true ->
   t = u -> same \/ exists key, resolve_tokenization_key cfg (or_empty (tk_key_ref p)) = Ok key /\
     let x := token_payload key (token_domain p) (normalize_value (tk_normalization p) v) in
     let y := token_payload key (token_domain q) (normalize_value (tk_normalization q) w) in
     x <> y /\ sha256_hex x = sha256_hex y) /\
  String.length t = 64%nat /\ str_forallb (fun a => is_digit a || (is_hex a && negb (is_hex_lower a))) t = true.
Proof.
  intros Hp Hq Hk. unfold deterministic_token. rewrite <- Hk. destruct (negb _); [done|]. destruct (resolve_tokenization_key _ _) as [key|] eqn:Ekey; [|done].
  destruct (negb _); [done|]. cbn [mbind res_bind]. unfold token_digest. rewrite Hp, Hq. intros [= <-] [= <-]. cbv zeta. split_and!.
  - by intros [-> ->].
  - intros Hd Hd' E%upper_hex_inj; [|apply sha256_is_hex..].
    destruct (decide (token_payload key (token_domain p) (normalize_value (tk_normalization p) v) =
                      token_payload key (token_domain q) (normalize_value (tk_normalization q) w))) as [Heq|Hne].
    + left. by apply payload_split in Heq.
    + right. exists key. done.
  - unfold upper. rewrite length_str_map. apply sha256_length.
  - pose proof (sha256_is_hex (token_payload key (token_domain p) (normalize_value (tk_normalization p) v))) as H.
    revert H. generalize (sha256_hex (token_payload key (token_domain p) (normalize_value (tk_normalization p) v))) as s. clear.
    induction s as [|a s IH]; [done|]. cbn [str_forallb]. intros [Ha Hs]%andb_true_iff. unfold upper. cbn [str_map str_forallb].
    apply andb_true_iff. split; [|by apply IH]. clear -Ha. destruct a as [[] [] [] [] [] [] [] []]; vm_compute in Ha; try discriminate Ha; vm_compute; reflexivity.
Qed.

(** ** Rows *)

(** What the output shows of a value: the value itself when the column is passed through,
    its token, or only whether it is null. *)
Definition shown_value (cfg : source_config) (c : column_def) (v : cell) : res cell :=
  match cd_transform c with
  | None => Ok v
  | Some t =>
      if String.eqb (ct_kind t) "deterministic_hash" then
        p ← legacy_policy t (Some (cd_name c));
        match to_text v with None => Ok CNull | Some text => k ← deterministic_token cfg p text; Ok (CText k) end
      else Ok (match v with CNull => CNull | _ => CText "" end)
  end.

(** Two batches that look the same through the columns. *)
Definition look_alike (cfg : source_config) (columns : list column_def) (b1 b2 : batch) : Prop :=
  ba_names b1 = ba_names b2 /\
  Forall (fun c => map (shown_value cfg c) (batch_column b1 (source_name c)) = map (shown_value cfg c) (batch_column b2 (source_name c))) columns.

Lemma hash_column_shown cfg t c values : cd_transform c = Some t -> ct_kind t = "deterministic_hash" -> values <> [] ->
  hash_column cfg t c values = res_map id (map (shown_value cfg c) values).
Proof.
  intros Ht Hk Hne. unfold hash_column, shown_value. rewrite Ht, Hk, String.eqb_refl. destruct (legacy_policy t (Some (cd_name c))) as [p|e]; cbn [mbind res_bind].
  - clear. induction values as [|v l IH]; [done|]. cbn [res_map map]. rewrite IH. done.
  - destruct values as [|v l]; [done|]. done.
Qed.

Lemma random_column_shown cfg t c uuid4 l1 l2 : cd_transform c = Some t -> ct_kind t <> "deterministic_hash" ->
  map (shown_value cfg c) l1 = map (shown_value cfg c) l2 -> random_column uuid4 l1 = random_column uuid4 l2.
Proof.
  intros Ht Hk. assert (forall v, shown_value cfg c v = Ok (match v with CNull => CNull | _ => CText "" end)) as Hs.
  { intros v. unfold shown_value. rewrite Ht. by rewrite (proj2 (String.eqb_neq _ _) Hk). }
  unfold random_column. revert uuid4 l2. induction l1 as [|x l1 IH]; intros uuid4 [|y l2] E; try discriminate E; [done|].
  cbn [map] in E. injection E as E1 E2. rewrite !Hs in E1. cbn [imap]. f_equal; [destruct x, y; (done || discriminate E1)|].
  by apply (IH (uuid4 ∘ S)).
Qed.

Lemma map_shown_plain cfg c l1 l2 : cd_transform c = None -> map (shown_value cfg c) l1 = map (shown_value cfg c) l2 -> l1 = l2.
Proof.
  intros Hn. assert (forall v, shown_value cfg c v = Ok v) as Hs by (intros v; unfold shown_value; by rewrite Hn).
  revert l2. induction l1 as [|x l1 IH]; intros [|y l2] E; try discriminate E; [done|]. cbn [map] in E. rewrite !Hs in E.
  injection E as -> E. f_equal. by apply IH.
Qed.

Lemma output_column_alike cfg uuid4 b1 b2 c : ba_names b1 = ba_names b2 ->
  map (shown_value cfg c) (batch_column b1 (source_name c)) = map (shown_value cfg c) (batch_column b2 (source_name c)) ->
  output_column cfg uuid4 b1 c = output_column cfg uuid4 b2 c.
Proof.
  intros Hn E. unfold output_column. rewrite Hn. destruct (negb _); [done|]. destruct (cd_transform c) as [t|] eqn:Ht.
  2: { f_equal. by apply (map_shown_plain cfg c). }
  unfold apply_tokenizer. destruct (String.eqb_spec (ct_kind t) "deterministic_hash") as [Hk|Hk].
  - destruct (batch_column b1 (source_name c)) as [|x l1] eqn:E1, (batch_column b2 (source_name c)) as [|y l2] eqn:E2; try discriminate E; [done|].
    rewrite !(hash_column_shown cfg t c) by done. by rewrite E.
  - destruct (String.eqb (ct_kind t) "random_token"); [|done]. f_equal. by apply (random_column_shown cfg t c).
Qed.

Lemma res_map_ext {A B} (f g : A -> res B) l : (forall x, x ∈ l -> f x = g x) -> res_map f l = res_map g l.
Proof.
  induction l as [|x l IH]; intros H; [done|]. cbn [res_map]. rewrite H by left. destruct (g x); [|done]. cbn [mbind res_bind].
  rewrite IH; [done|]. intros y Hy. apply H. by right.
Qed.

Lemma rows_of_columns_keys count columns r : r ∈ rows_of_columns count columns -> dom r = list_to_set (map fst columns).
Proof.
  intros Hr. unfold rows_of_columns in Hr. apply list_elem_of_fmap in Hr as (i & -> & _).
  enough (forall (r0 : row), dom (foldl (fun r nc => <[nc.1 := default CNull (nc.2 !! i)]> r) r0 columns) = dom r0 ∪ (list_to_set (map fst columns) : gset string)) as H
    by (rewrite H, dom_empty_L; set_solver).
  induction columns as [|[n a] columns IH]; intros r0; cbn [foldl map list_to_set fst]; [set_solver|]. rewrite IH, dom_insert_L. set_solver.
Qed.

Lemma output_arrays_names cfg uuid4 b (l : list (nat * column_def)) arrays :
  res_map (fun jc => a ← output_column cfg (uuid4 jc.1) b jc.2; Ok (cd_name jc.2, a)) l = Ok arrays -> map fst arrays = map (fun jc => cd_name jc.2) l.
Proof.
  revert arrays. induction l as [|[j c] l IH]; intros arrays H; cbn [res_map] in H; [by injection H as <-|].
  invert_Ok H. injection H as <-. cbn [fst snd] in E. invert_Ok E. injection E as <-. cbn [map fst snd]. f_equal. by apply IH.
Qed.

(** C37: The tokenizer lets nothing else through.  Two batches of the same size that agree, for
    every selected column, on what the output is meant to show (the value of a column that is
    passed through, the token of a hashed one, and of a randomized one only which values
    are null) give the same result: other columns and the clear text have no influence,
    not even on errors.  And every row of the result has exactly the selected columns. *)
Theorem tokenized_rows_confined cfg uuid4 columns b1 b2 :
  look_alike cfg columns b1 b2 -> length (ba_rows b1) = length (ba_rows b2) ->
  tokenize_batch cfg uuid4 b1 columns = tokenize_batch cfg uuid4 b2 columns /\
  forall rows r, tokenize_batch cfg uuid4 b1 columns = Ok rows -> r ∈ rows -> dom r = list_to_set (map cd_name columns).
Proof.
  intros [Hn Hc] Hlen. unfold tokenize_batch. rewrite <- Hlen. split.
  - f_equal. apply res_map_ext. intros [j c] Hj. cbn [fst snd]. assert (c ∈ columns) as Hin.
    { apply elem_of_lookup_imap in Hj as (i & x & E & Hx). injection E as _ ->. by apply list_elem_of_lookup_2 in Hx. }
    f_equal. apply output_column_alike; [done|]. by apply (Forall_elem _ _ _ Hc Hin).
  - intros rows r H Hr. apply bind_Ok in H as (arrays & Ha & H). injection H as <-. apply rows_of_columns_keys in Hr as ->. f_equal.
    rewrite (output_arrays_names _ _ _ _ _ Ha). clear.
    assert (forall k, map (fun jc : nat * column_def => cd_name jc.2) (imap (fun i => pair (k + i)%nat) columns) = map cd_name columns) as H.
    { induction columns as [|c l IH]; intros k; [done|]. cbn [imap map snd]. f_equal. specialize (IH (S k)). rewrite <- IH. f_equal.
      apply imap_ext. intros i x _. unfold compose. f_equal. lia. }
    exact (H 0%nat).
Qed.

(** The database and the proxy make the same token: the key and the domain bound to a pushed-down
    hash are those of the proxy's token for the same column, so a column can move from one
    to the other when the database renders its values as Python does. *)
Theorem pushdown_token_agrees cfg d c kind key_ref domain normalization t prefix sql out params text :
  native d = true -> make_transform kind key_ref domain normalization = Ok t -> ct_kind t = "deterministic_hash" ->
  cd_transform c = Some t -> cd_name c <> "" -> render_projection cfg d c prefix = Ok (sql, out, params) ->
  exists key dom, params = [(key_param prefix, key); (domain_param prefix, dom)] /\
    (p ← legacy_policy t (Some (cd_name c)); deterministic_token cfg p text) =
      Ok (upper (sha256_hex (token_payload key dom (normalize_value (ct_normalization t) text)))).
Proof.
  intros Hn Ht Hk Hc Hname Hr. destruct (render_native cfg d c t prefix Hn Hc) as (random & hash & output & otherwise & E). rewrite E in Hr.
  unfold native_projection in Hr. rewrite Hk in Hr. cbn [String.eqb Ascii.eqb Bool.eqb] in Hr.
  invert_Ok Hr. injection Hr as _ _ <-. eexists _, _. split; [done|].
  unfold make_transform in Ht. case_bool_decide as Hkinds; [|discriminate Ht]. case_bool_decide as Hnorm; [|discriminate Ht]. cbn [negb] in Ht.
  destruct (String.eqb kind "deterministic_hash" && negb (truthy_opt key_ref)) eqn:Hkey; [discriminate Ht|].
  destruct (String.eqb kind "random_token" && truthy_opt key_ref); [discriminate Ht|]. injection Ht as <-. cbn [ct_kind ct_key_ref ct_domain ct_normalization] in *. subst kind.
  rewrite String.eqb_refl in Hkey. cbn [andb] in Hkey. apply negb_false_iff in Hkey.
  unfold legacy_policy. cbn [ct_kind ct_key_ref ct_domain ct_normalization]. rewrite String.eqb_refl. cbn [mbind res_bind].
  set (dom := if truthy_opt domain then domain else Some (cd_name c)).
  assert (check_policy (Policy "legacy-inline" "durable_token" "sha256" key_ref dom normalization 32 1 true) =
    Ok (Policy "legacy-inline" "durable_token" "sha256" key_ref dom normalization 32 1 true)) as ->.
  { unfold check_policy. cbn [tk_policy_id tk_kind tk_algorithm tk_normalization tk_digest_size tk_framing_version tk_key_ref].
    change (String.eqb (strip "legacy-inline") "" || has_space (strip "legacy-inline")) with false. cbv iota.
    change (negb (bool_decide ("durable_token" ∈ ["durable_token"; "random_token"]))) with false. cbv iota.
    change (odict_get "sha256" ALGORITHMS) with (Some (32, 32)). cbv iota beta. rewrite (bool_decide_eq_true_2 _ Hnorm), Hkey. reflexivity. }
  unfold deterministic_token. cbn [mbind res_bind tk_kind tk_key_ref tk_normalization]. rewrite String.eqb_refl. cbn [negb]. rewrite E0. cbn [mbind res_bind].
  unfold token_digest. cbn [tk_algorithm]. rewrite String.eqb_refl. do 4 f_equal. unfold token_domain, dom. cbn [tk_domain tk_policy_id].
  unfold truthy_opt, str_or. destruct (truthy_str (or_empty domain)) eqn:Hd; cbn [or_empty default from_option id].
  - by rewrite Hd.
  - by rewrite (proj2 (truthy_str_true _) Hname).
Qed.

(** ** The registry *)

(** A policy in the form in which it is read: its id and its reference carry no outer space. *)
Definition policy_ok (p : policy) : Prop :=
  check_policy p = Ok p /\ strip (tk_policy_id p) = tk_policy_id p /\
  match tk_key_ref p with Some s => s <> "" /\ strip s = s | None => True end.

Definition policies_ok (r : policies) : Prop :=
  NoDup (map fst r) /\ forall k p, (k, p) ∈ r -> tk_policy_id p = k /\ policy_ok p.

Lemma check_policy_fields p q : check_policy p = Ok q ->
  q = p /\ tk_kind p ∈ ["durable_token"; "random_token"] /\ tk_algorithm p ∈ ["sha256"; "blake2b"] /\ tk_normalization p ∈ COLUMN_NORMALIZATIONS.
Proof.
  unfold check_policy. cbv zeta. destruct (_ || _); [done|]. case_bool_decide as Hk; [|done]. cbn [negb].
  destruct (odict_get (tk_algorithm p) ALGORITHMS) as [[lo hi]|] eqn:Ha; [|done]. case_bool_decide as Hn; [|done]. cbn [negb].
  destruct (negb (_ && _)); [done|]. destruct (negb _); [done|]. destruct (_ && negb _); [done|]. destruct (_ && _); [done|].
  intros [= ->]. apply odict_get_In in Ha. split_and!; [done|done| |done].
  unfold ALGORITHMS in Ha. apply elem_of_cons in Ha as [[= -> _ _]|Ha]; [by left|]. apply list_elem_of_singleton in Ha as [= -> _ _]. right. by left.
Qed.

Lemma public_fields p : let d := policy_to_public p in
  d !! "policy_id" = Some (JStr (tk_policy_id p)) /\ d !! "kind" = Some (JStr (tk_kind p)) /\ d !! "algorithm" = Some (JStr (tk_algorithm p)) /\
  d !! "key_ref" = Some (opt_str (tk_key_ref p)) /\ d !! "domain" = Some (opt_str (tk_domain p)) /\
  d !! "normalization" = Some (JStr (tk_normalization p)) /\ d !! "digest_size" = Some (JInt (tk_digest_size p)) /\
  d !! "framing_version" = Some (JInt (tk_framing_version p)) /\ d !! "enabled" = Some (JBool (tk_enabled p)) /\
  existsb (fun k => bool_decide (is_Some (d !! k))) forbidden_fields = false.
Proof.
  unfold policy_to_public, mk_dict. cbn [list_to_map foldr fst snd uncurry]. cbv zeta. do 9 (split; [by simplify_map_eq|]).
  unfold forbidden_fields. cbn [existsb]. rewrite !lookup_insert_ne by done. by rewrite lookup_empty.
Qed.

Lemma policy_roundtrip p : policy_ok p -> policy_from_dict (JObj (policy_to_public p)) = Ok p.
Proof.
  intros (Hc & Hid & Hk). destruct (public_fields p) as (P1 & P2 & P3 & P4 & P5 & P6 & P7 & P8 & P9 & P10).
  destruct (check_policy_fields _ _ Hc) as (_ & Hkind & Halg & Hnorm).
  unfold policy_from_dict. rewrite P10. unfold policy_body, req_str, get_str, get_int, get_bool, dget_req, dget.
  rewrite P1, P2, P3, P4, P5, P6, P7, P8, P9. cbn [default from_option id]. cbv zeta.
  assert ((if truthy (opt_str (tk_key_ref p)) then s ← py_str (opt_str (tk_key_ref p)); Ok (Some (strip s)) else Ok None) = Ok (tk_key_ref p)) as ->.
  { destruct (tk_key_ref p) as [s|]; [|done]. destruct Hk as [Hne Hs]. cbn [opt_str truthy]. rewrite (proj2 (truthy_str_true s) Hne). cbn. by rewrite Hs. }
  assert (match opt_str (tk_domain p) with JNull => Ok None | v => s ← py_str v; Ok (Some s) end = Ok (tk_domain p)) as -> by (by destruct (tk_domain p)).
  cbn [of_option mbind res_bind py_str py_int truthy]. rewrite Hid.
  assert (lower (strip (tk_kind p)) = tk_kind p) as ->.
  { apply elem_of_cons in Hkind as [->|Hkind]; [reflexivity|]. apply list_elem_of_singleton in Hkind as ->. reflexivity. }
  assert (lower (strip (tk_algorithm p)) = tk_algorithm p) as ->.
  { apply elem_of_cons in Halg as [->|Halg]; [reflexivity|]. apply list_elem_of_singleton in Halg as ->. reflexivity. }
  assert (lower (strip (tk_normalization p)) = tk_normalization p) as ->.
  { unfold COLUMN_NORMALIZATIONS in Hnorm. repeat (apply elem_of_cons in Hnorm as [->|Hnorm]; [reflexivity|]). by apply not_elem_of_nil in Hnorm. }
  assert (Policy (tk_policy_id p) (tk_kind p) (tk_algorithm p) (tk_key_ref p) (tk_domain p) (tk_normalization p) (tk_digest_size p)
    (tk_framing_version p) (tk_enabled p) = p) as -> by (by destruct p). by rewrite Hc.
Qed.

Lemma register_all_fresh l : forall r, NoDup (map fst r ++ map tk_policy_id l) ->
  register_all l r = Ok (r ++ map (fun p => (tk_policy_id p, p)) l).
Proof.
  induction l as [|p l IH]; intros r Hn; cbn [register_all map]; [by rewrite app_nil_r|].
  assert (tk_policy_id p ∉ map fst r) as Hp. { apply NoDup_app in Hn as (_ & H & _). intros Hin. apply (H _ Hin). left. }
  unfold register_policy. rewrite bool_decide_eq_false_2 by done. cbn [mbind res_bind]. rewrite odict_set_fresh by done.
  rewrite IH, <- app_assoc; [done|]. rewrite map_app, <- app_assoc. exact Hn.
Qed.

(** The operations on a registry, by administrators with policies that were read. *)
Inductive policies_step : policies -> policies -> Prop :=
| step_register p r r' : policy_ok p -> register_policy p r = Ok r' -> policies_step r r'
| step_replace p r : policy_ok p -> policies_step r (replace_policy p r)
| step_disable id r r' : disable_policy id r = Ok r' -> policies_step r r'.

Lemma set_policy_ok k p r : policies_ok r -> tk_policy_id p = k -> policy_ok p -> policies_ok (odict_set k p r).
Proof.
  intros [Hn Hr] Hk Hp. split; [by apply odict_set_NoDup|]. intros k' p' [[= -> ->]|Hin]%elem_of_odict_set; [done|by apply Hr].
Qed.

Lemma policies_step_ok r r' : policies_step r r' -> policies_ok r -> policies_ok r'.
Proof.
  intros [p r0 r1 Hp H|p r0 Hp|id r0 r1 H] Hr.
  - unfold register_policy in H. destruct (bool_decide _); [done|]. injection H as <-. by apply set_policy_ok.
  - by apply set_policy_ok.
  - unfold disable_policy in H. destruct (odict_get id r0) as [p|] eqn:E; [|done]. apply odict_get_In in E. destruct (proj2 Hr _ _ E) as [Hid (_ & Hs & Hk)].
    invert_Ok H. injection H as <-. destruct (check_policy_fields _ _ E0) as [-> _]. apply set_policy_ok; [done|exact Hid|]. by split_and!.
Qed.

(** A saved registry of policies is the registry that is loaded.  Whatever policies are
    registered, replaced and disabled, writing the registry and reading it back gives for
    every id the same policy, with its key reference and whether it is enabled. *)
Theorem registry_reload r : rtc policies_step [] r ->
  exists r', registry_from_dict (JObj (registry_to_dict r)) = Ok r' /\ forall id, odict_get id r' = odict_get id r /\ get_policy id r' = get_policy id r.
Proof.
  intros Hsteps. assert (policies_ok r) as [Hn Hr].
  { assert (policies_ok []) as H0 by (split; [constructor|by intros k p ?%not_elem_of_nil]). revert H0.
    induction Hsteps as [|a b c Hs _ IH]; [done|]. intros Ha. apply IH. by eapply policies_step_ok. }
  set (l := merge_sort policy_key_le r). assert (l ≡ₚ r) as Hperm by apply merge_sort_Permutation.
  assert (forall x, x ∈ l -> tk_policy_id x.2 = x.1 /\ policy_ok x.2) as Hl by (intros [k p] Hx; rewrite Hperm in Hx; by apply Hr).
  assert (map (fun p => (tk_policy_id p, p)) (map snd l) = l) as Hl2.
  { clear -Hl. induction l as [|[k p] l IH]; [done|]. cbn [map snd]. destruct (Hl (k, p)) as [E _]; [left|]. cbn [fst snd] in E. rewrite E. f_equal. apply IH. intros x Hx. apply Hl. by right. }
  exists l. assert (forall id, odict_get id l = odict_get id r) as Hget.
  { intros id. pose proof (odict_get_perm (fun p : policy => p) r l id Hn Hperm) as H.
    rewrite (map_ext _ (fun kp => kp)), map_id in H by (by intros []). rewrite H. by destruct (odict_get id r). }
  split; [|intros id; split; [done|]; unfold get_policy; by rewrite Hget].
  unfold registry_from_dict, registry_to_dict, mk_dict. cbn [list_to_map foldr fst snd uncurry]. rewrite lookup_insert_eq.
  unfold list_public. fold l. rewrite map_map. rewrite (res_map_roundtrip policy_from_dict (fun kp => JObj (policy_to_public kp.2)) snd) by (intros x Hx; apply policy_roundtrip, Hl, Hx).
  cbn [mbind res_bind]. rewrite register_all_fresh; cbn [app map]; [by rewrite Hl2|].
  rewrite map_map. assert (map (fun x : string * policy => tk_policy_id x.2) l = map fst l) as ->.
  { apply map_ext_in. intros x Hx. by apply Hl, list_elem_of_In. }
  by rewrite Hperm.
Qed.

(** *** Worked cases *)

Definition email_policy : policy := Policy "email" "durable_token" "sha256" (Some "k1") (Some "customer-email") "trim_lower" 32 1 true.
Definition shop_policy : policy := Policy "shop" "durable_token" "sha256" (Some "k1") (Some "customer-email") "none" 32 1 true.
Definition token_of (p : policy) (v : string) : string := match deterministic_token plain_config p v with Ok t => t | Err _ => "" end.

Lemma email_policy_ok : policy_ok email_policy.
Proof. split; [vm_compute; reflexivity|]. split; [vm_compute; reflexivity|]. cbn. split; [discriminate|reflexivity]. Qed.
Lemma shop_policy_ok : policy_ok shop_policy.
Proof. split; [vm_compute; reflexivity|]. split; [vm_compute; reflexivity|]. cbn. split; [discriminate|reflexivity]. Qed.

Lemma durable_tokens_join_witness : token_of email_policy " Ada@x.org" = token_of shop_policy "ada@x.org".
Proof.
  apply (durable_tokens_join plain_config email_policy shop_policy " Ada@x.org" "ada@x.org"); try reflexivity.
  split; vm_compute; reflexivity.
Defined.

Definition hashed_email : column_def := with_transform (Some (ColumnTransform "deterministic_hash" (Some "k1") None "trim")) email_column.
Definition clear_id : column_def := ColumnDef 2 "id" "long" false None None None.
Definition seen_batch : batch := batch_of_rows [{["email" := CText "ada"; "id" := CInt 1; "phone" := CText "555"]}].
Definition other_batch : batch := batch_of_rows [{["email" := CText " ada "; "id" := CInt 1; "phone" := CText "777"]}].

Lemma tokenized_rows_confined_witness :
  tokenize_batch plain_config (fun _ _ => "u") seen_batch [hashed_email; clear_id] =
  tokenize_batch plain_config (fun _ _ => "u") other_batch [hashed_email; clear_id].
Proof.
  apply (tokenized_rows_confined plain_config (fun _ _ => "u") [hashed_email; clear_id] seen_batch other_batch); [|reflexivity].
  split; [vm_compute; reflexivity|]. repeat constructor; vm_compute; reflexivity.
Defined.

Lemma registry_reload_witness :
  exists r', registry_from_dict (JObj (registry_to_dict [("shop", shop_policy); ("email", email_policy)])) = Ok r' /\
    forall id, odict_get id r' = odict_get id [("shop", shop_policy); ("email", email_policy)] /\
      get_policy id r' = get_policy id [("shop", shop_policy); ("email", email_policy)].
Proof.
  apply (registry_reload [("shop", shop_policy); ("email", email_policy)]).
  eapply rtc_l; [apply (step_register shop_policy); [exact shop_policy_ok|vm_compute; reflexivity]|].
  eapply rtc_l; [apply (step_register email_policy); [exact email_policy_ok|vm_compute; reflexivity]|].
  apply rtc_refl.
Defined.

(** The key, the domain and the value are joined with a bar that domains and values may contain: a
    value of one domain gets the token of another value of another domain. *)
Example token_domains_collide :
  let p := Policy "a" "durable_token" "sha256" (Some "k1") (Some "crm") "none" 32 1 true in
  let q := Policy "b" "durable_token" "sha256" (Some "k1") (Some "crm|email") "none" 32 1 true in
  token_domain p <> token_domain q /\ check_policy p = Ok p /\ check_policy q = Ok q /\ token_of p "email|ada" = token_of q "ada".
Proof. vm_compute. split_and!; (reflexivity || discriminate). Qed.

(** A policy whose id has a space around it is accepted as it is, and comes back under another id. *)
Example spaced_policy_renamed :
  let p := Policy " a" "random_token" "sha256" None None "none" 32 1 true in
  check_policy p = Ok p /\ registry_from_dict (JObj (registry_to_dict [(" a", p)])) =
    Ok [("a", Policy "a" "random_token" "sha256" None None "none" 32 1 true)].
Proof. vm_compute. split; reflexivity. Qed.
