(* ===== verification/Iceberg.v ===== *)
(** * Iceberg metadata of a snapshot

    [iceberg/schema.py], [iceberg/metadata.py] and [iceberg/manifest.py]: the documents
    a reader follows from the table to its data files.  The Avro encoder is a parameter;
    what is encoded is modelled.

    A snapshot object is shared by the registry's current entry and its history and
    carries the bytes built from it; the object is identified by its table and
    version, and a builder stores its result in every place that holds it. *)

From S2P Require Import Prelude PyText Sha256 Json Docs Sources Md5 Snapshots.
From Stdlib Require Import Ascii.

(** [fastavro]: the records without a container, and the container file with its schema
    and synchronization marker. *)
Class Avro := {
  schemaless_writer : doc -> doc -> string;
  avro_writer : doc -> list doc -> string -> string;
}.

Record iceberg_config := IcebergConfig {
  BUCKET_NAME : string;
  ICEBERG_SNAPSHOT_HISTORY : bool;
  ICEBERG_MANIFEST_STATS : bool;
  ic_table_schema : list column_def;
}.

(** ** [iceberg/schema.py] *)

(** [prec, scale = (int(x.strip()) for x in inner.split(","))] *)
Definition decimal_parts (t : string) : res (Z * Z) :=
  let inner := str_take (String.length t - String.length "decimal(" - 1) (str_drop (String.length "decimal(") t) in
  parts ← res_map (fun x => of_option (ValueError "invalid literal for int()") (int_of_string (strip x))) (split_on "," inner);
  match parts with
  | [prec; scale] => Ok (prec, scale)
  | _ => Err (ValueError "values to unpack")
  end.

(** [_iceberg_type_json] *)
Definition iceberg_type_json (c : column_def) : res string :=
  let t := lower (strip (cd_iceberg_type c)) in
  if startswith t "decimal("
  then ps ← decimal_parts t; Ok (fmt ["decimal("; pretty ps.1; ", "; pretty ps.2; ")"])
  else Ok (cd_iceberg_type c).

Section iceberg.
Context (cfg : iceberg_config).

Definition schema_field (c : column_def) : res doc :=
  t ← iceberg_type_json c;
  Ok (DObj [("id", DInt (cd_field_id c)); ("name", DStr (cd_name c)); ("required", DBool (negb (cd_nullable c))); ("type", DStr t)]).

Definition iceberg_schema_dict (schema_id : Z) (columns : list column_def) : res doc :=
  fields ← res_map schema_field (match columns with [] => ic_table_schema cfg | _ => columns end);
  Ok (DObj [("schema-id", DInt schema_id); ("type", DStr "struct"); ("fields", DList fields)]).

(** ** [iceberg/metadata.py] *)

Definition s3_url (key : string) : string := fmt ["s3://"; BUCKET_NAME cfg; "/"; key].

(** [_stable_uuid] *)
Definition uuid_text (h : string) : string :=
  fmt [str_take 8 h; "-"; str_take 4 (str_drop 8 h); "-"; str_take 4 (str_drop 12 h); "-"; str_take 4 (str_drop 16 h); "-";
       str_take 12 (str_drop 20 h)].
Definition stable_uuid (seed : string) : string := uuid_text (md5_hex seed).

(** [_snapshot_entry] *)
Definition snapshot_entry (s : snapshot_state) : doc :=
  let num_splits := Z.of_nat (length (ss_splits s)) in
  let total_records := default 0 (ss_total_records s) in
  DObj [("snapshot-id", DInt (ss_snapshot_id s)); ("sequence-number", DInt (ss_sequence_number s));
        ("timestamp-ms", DInt (ss_watermark_ms s));
        ("summary", DObj [("operation", DStr "append"); ("added-data-files", DStr (pretty num_splits));
                          ("added-records", DStr (pretty total_records)); ("total-records", DStr (pretty total_records));
                          ("total-data-files", DStr (pretty num_splits)); ("total-delete-files", DStr "0")]);
        ("manifest-list", DStr (s3_url (ss_manifest_list_key s))); ("schema-id", DInt 0)].

(** [max(c.field_id for c in schema)] *)
Definition max_field_id (columns : list column_def) : res Z :=
  match columns with
  | [] => Err (ValueError "max() iterable argument is empty")
  | c :: cs => Ok (foldl (fun m c => Z.max m (cd_field_id c)) (cd_field_id c) cs)
  end.

(** The snapshots a metadata version renders: all up to it, or itself alone. *)
Definition rendered_history (history : list snapshot_state) (s : snapshot_state) (include_history : bool) : list snapshot_state :=
  if include_history && ICEBERG_SNAPSHOT_HISTORY cfg
  then match filter (fun x => ss_version x <= ss_version s) history with [] => [s] | h => h end
  else [s].

Definition metadata_document (history : list snapshot_state) (s : snapshot_state) (include_history : bool) : res doc :=
  let location := fmt ["s3://"; BUCKET_NAME cfg; "/"; ss_table_path s] in
  schema ← iceberg_schema_dict 0 (td_schema (ss_table s));
  let history := rendered_history history s include_history in
  last_column ← max_field_id (td_schema (ss_table s));
  Ok (DObj [("format-version", DInt 2); ("table-uuid", DStr (stable_uuid location)); ("location", DStr location);
    ("last-sequence-number", DInt (ss_sequence_number s)); ("last-updated-ms", DInt (ss_watermark_ms s));
    ("last-column-id", DInt last_column); ("current-schema-id", DInt 0); ("schemas", DList [schema]);
    ("partition-specs", DList [DObj [("spec-id", DInt 0); ("fields", DList [])]]); ("default-spec-id", DInt 0);
    ("last-partition-id", DInt 0); ("sort-orders", DList [DObj [("order-id", DInt 0); ("fields", DList [])]]);
    ("default-sort-order-id", DInt 0); ("snapshots", DList (map snapshot_entry history));
    ("current-snapshot-id", DInt (ss_snapshot_id s));
    ("snapshot-log", DList (map (fun x => DObj [("timestamp-ms", DInt (ss_watermark_ms x)); ("snapshot-id", DInt (ss_snapshot_id x))]) history));
    ("metadata-log", DList (map (fun x => DObj [("timestamp-ms", DInt (ss_watermark_ms x)); ("metadata-file", DStr (s3_url (ss_metadata_key x)))])
       (filter (fun x => ss_version x < ss_version s) history)));
    ("refs", DObj [("main", DObj [("type", DStr "branch"); ("snapshot-id", DInt (ss_snapshot_id s))])]);
    ("statistics", DList []); ("partition-statistics", DList [])]).

(** ** The shared snapshot objects *)

Definition same_snapshot (s x : snapshot_state) : bool :=
  String.eqb (td_name (ss_table s)) (td_name (ss_table x)) && (ss_version s =? ss_version x).
Definition update_snapshot (s : snapshot_state) (f : snapshot_state -> snapshot_state) (r : registry) : registry :=
  let g x := if same_snapshot s x then f x else x in
  Registry (map (fun e => (e.1, g e.2)) (rg_snapshots r)) (map (fun e => (e.1, map g e.2)) (rg_history r)).

Definition with_bytes (metadata mlist mfile : option string) (s : snapshot_state) : snapshot_state :=
  SnapshotState (ss_snapshot_id s) (ss_sequence_number s) (ss_watermark_ms s) (ss_manifest_list_key s) (ss_manifest_file_key s)
    (ss_metadata_key s) (ss_version_hint_key s) (ss_table s) (ss_table_path s) (ss_legacy_table_path s) (ss_splits s)
    (ss_version s) (ss_uuid s) (ss_total_records s) metadata mlist mfile.
Definition with_metadata (b : string) (s : snapshot_state) : snapshot_state :=
  with_bytes (Some b) (ss_manifest_list_bytes s) (ss_manifest_file_bytes s) s.
Definition with_manifest_list (b : string) (s : snapshot_state) : snapshot_state :=
  with_bytes (ss_metadata_bytes s) (Some b) (ss_manifest_file_bytes s) s.
Definition with_manifest_file (b : string) (s : snapshot_state) : snapshot_state :=
  with_bytes (ss_metadata_bytes s) (ss_manifest_list_bytes s) (Some b) s.

(** Store a result in the object; the object a caller holds has it too. *)
Definition memoize (s : snapshot_state) (f : snapshot_state -> snapshot_state) : M registry snapshot_state :=
  modify (update_snapshot s f);; mret (f s).

(** The builders return the bytes and the object they were given, as it is afterwards. *)
Definition build_metadata_json (s : snapshot_state) (include_history : bool) : M registry (string * snapshot_state) :=
  match ss_metadata_bytes s with
  | Some b => mret (b, s)
  | None =>
      history ← gets (get_snapshot_history (td_name (ss_table s)));
      d ← lift (metadata_document history s include_history);
      let b := doc_dumps_indent 0 d in
      s ← memoize s (with_metadata b);
      mret (b, s)
  end.

(** ** [iceberg/manifest.py] *)

Definition field (name : string) (type : doc) (id : Z) : doc :=
  DObj [("name", DStr name); ("type", type); ("field-id", DInt id)].
Definition field_default (name : string) (type : doc) (id : Z) (default : doc) : doc :=
  DObj [("name", DStr name); ("type", type); ("field-id", DInt id); ("default", default)].
Definition optional (type : doc) : doc := DList [DStr "null"; type].
Definition record_type (name : string) (fields : list doc) : doc :=
  DObj [("type", DStr "record"); ("name", DStr name); ("fields", DList fields)].

Definition MANIFEST_LIST_SCHEMA : doc :=
  record_type "manifest_file"
    [field "manifest_path" (DStr "string") 500; field "manifest_length" (DStr "long") 501;
     field "partition_spec_id" (DStr "int") 502; field_default "content" (DStr "int") 517 (DInt 0);
     field_default "sequence_number" (DStr "long") 515 (DInt 0); field_default "min_sequence_number" (DStr "long") 516 (DInt 0);
     field "added_snapshot_id" (DStr "long") 503; field_default "added_files_count" (DStr "int") 504 (DInt 0);
     field_default "existing_files_count" (DStr "int") 505 (DInt 0); field_default "deleted_files_count" (DStr "int") 506 (DInt 0);
     field_default "added_rows_count" (DStr "long") 512 (DInt 0); field_default "existing_rows_count" (DStr "long") 513 (DInt 0);
     field_default "deleted_rows_count" (DStr "long") 514 (DInt 0);
     DObj [("name", DStr "partitions");
           ("type", DObj [("type", DStr "array");
              ("items", record_type "r508"
                 [field "contains_null" (DStr "boolean") 509; field_default "contains_nan" (optional (DStr "boolean")) 518 DNull;
                  field_default "lower_bound" (optional (DStr "bytes")) 510 DNull;
                  field_default "upper_bound" (optional (DStr "bytes")) 511 DNull]);
              ("element-id", DInt 508)]);
           ("field-id", DInt 507); ("default", DList [])]].

(** [_map_field] *)
Definition map_field (name : string) (field_id key_id value_id : Z) (value_type : string) : doc :=
  DObj [("name", DStr name);
        ("type", optional (DObj [("type", DStr "array");
           ("items", record_type (fmt ["k"; pretty key_id; "_v"; pretty value_id])
              [field "key" (DStr "int") key_id; field "value" (DStr value_type) value_id]);
           ("logicalType", DStr "map")]));
        ("field-id", DInt field_id); ("default", DNull)].

(** [_data_file_fields] *)
Definition data_file_fields (with_stats : bool) : list doc :=
  [field_default "content" (DStr "int") 134 (DInt 0); field "file_path" (DStr "string") 100;
   field "file_format" (DStr "string") 101; field "partition" (record_type "r102" []) 102;
   field "record_count" (DStr "long") 103; field "file_size_in_bytes" (DStr "long") 104]
  ++ (if with_stats then
        [map_field "column_sizes" 108 117 118 "long"; map_field "value_counts" 109 119 120 "long";
         map_field "null_value_counts" 110 121 122 "long"; map_field "nan_value_counts" 137 138 139 "long";
         map_field "lower_bounds" 125 126 127 "bytes"; map_field "upper_bounds" 128 129 130 "bytes"]
      else [])
  ++ [field_default "key_metadata" (optional (DStr "bytes")) 131 DNull;
      field_default "split_offsets" (optional (DObj [("type", DStr "array"); ("items", DStr "long"); ("element-id", DInt 133)])) 132 DNull;
      field_default "equality_ids" (optional (DObj [("type", DStr "array"); ("items", DStr "int"); ("element-id", DInt 136)])) 135 DNull;
      field_default "sort_order_id" (optional (DStr "int")) 140 DNull].

(** [_manifest_entry_schema] *)
Definition manifest_entry_schema (with_stats : bool) : doc :=
  record_type "manifest_entry"
    [field "status" (DStr "int") 0; field_default "snapshot_id" (optional (DStr "long")) 1 DNull;
     field_default "sequence_number" (optional (DStr "long")) 3 DNull;
     field_default "file_sequence_number" (optional (DStr "long")) 4 DNull;
     field "data_file" (record_type "r2" (data_file_fields with_stats)) 2].

Definition PLACEHOLDER_RECORD_COUNT : Z := 100000.
Definition PLACEHOLDER_FILE_SIZE : Z := 10 * 1024 * 1024.

(** [_kv]: pairs as records, sorted by their key *)
Definition kv_le (a b : Z * doc) : Prop := a.1 <= b.1.
#[global] Instance kv_le_dec a b : Decision (kv_le a b).
Proof. unfold kv_le. apply _. Defined.
Definition kv (pairs : list (Z * doc)) : doc :=
  DList (map (fun p => DObj [("key", DInt p.1); ("value", p.2)]) (merge_sort kv_le pairs)).

(** [_stat_maps] *)
Definition stat_maps (stats : option (gmap Z column_stats)) : list (string * doc) :=
  match snd <$> map_to_list (default ∅ stats) with
  | [] => map (fun k => (k, DList [])) ["column_sizes"; "value_counts"; "null_value_counts"; "nan_value_counts"; "lower_bounds"; "upper_bounds"]
  | items =>
      [("column_sizes", kv (map (fun s => (cst_field_id s, DInt (cst_column_size s))) items));
       ("value_counts", kv (map (fun s => (cst_field_id s, DInt (cst_value_count s))) items));
       ("null_value_counts", kv (map (fun s => (cst_field_id s, DInt (cst_null_count s))) items));
       ("nan_value_counts", DList []);
       ("lower_bounds", kv (omap (fun s => (fun b => (cst_field_id s, DStr b)) <$> cst_lower s) items));
       ("upper_bounds", kv (omap (fun s => (fun b => (cst_field_id s, DStr b)) <$> cst_upper s) items))]
  end.

Definition manifest_record_count (s : split_descriptor) : Z := default PLACEHOLDER_RECORD_COUNT (sd_record_count s).
Definition manifest_file_size (s : split_descriptor) : Z := default PLACEHOLDER_FILE_SIZE (sd_file_size_in_bytes s).

Definition data_file (s : split_descriptor) : doc :=
  DObj ([("content", DInt 0); ("file_path", DStr (s3_url (sd_object_key s))); ("file_format", DStr "PARQUET"); ("partition", DObj []);
         ("record_count", DInt (manifest_record_count s)); ("file_size_in_bytes", DInt (manifest_file_size s));
         ("key_metadata", DNull); ("split_offsets", DNull); ("equality_ids", DNull); ("sort_order_id", DNull)]
        ++ (if ICEBERG_MANIFEST_STATS cfg then stat_maps (sd_stats s) else [])).

Definition manifest_entry (snap : snapshot_state) (s : split_descriptor) : doc :=
  DObj [("status", DInt 1); ("snapshot_id", DInt (ss_snapshot_id snap)); ("sequence_number", DInt (ss_sequence_number snap));
        ("file_sequence_number", DInt (ss_sequence_number snap)); ("data_file", data_file s)].

Definition sum_list (l : list Z) : Z := foldr Z.add 0 l.

(** The record of the manifest list, given the length of the manifest file. *)
Definition manifest_record (snap : snapshot_state) (length_ : Z) : doc :=
  DObj [("manifest_path", DStr (s3_url (ss_manifest_file_key snap))); ("manifest_length", DInt length_);
        ("partition_spec_id", DInt 0); ("content", DInt 0); ("sequence_number", DInt (ss_sequence_number snap));
        ("min_sequence_number", DInt (ss_sequence_number snap)); ("added_snapshot_id", DInt (ss_snapshot_id snap));
        ("added_files_count", DInt (Z.of_nat (length (ss_splits snap)))); ("existing_files_count", DInt 0); ("deleted_files_count", DInt 0);
        ("added_rows_count", DInt (sum_list (map manifest_record_count (ss_splits snap))));
        ("existing_rows_count", DInt 0); ("deleted_rows_count", DInt 0); ("partitions", DList [])].

Context `{HAvro : Avro}.

(** Sixteen bytes from the first hexadecimal digits of a digest. *)
Fixpoint unhex (n : nat) (s : string) : string :=
  match n, s with
  | S n, String h (String l s) =>
      String (ascii_of_N (16 * default 0 (hex_value h) + default 0 (hex_value l))%N) (unhex n s)
  | _, _ => ""
  end.

(** [_avro_bytes]: the synchronization marker is derived from the schema and the records *)
Definition avro_bytes (schema : doc) (records : list doc) : string :=
  let encoded := String.concat "" (map (schemaless_writer schema) records) in
  let digest := sha256_hex (doc_dumps ", " ": " (sort_doc schema) +:+ encoded) in
  avro_writer schema records (unhex 16 digest).

Definition build_manifest_file (snap : snapshot_state) : M registry (string * snapshot_state) :=
  match ss_manifest_file_bytes snap with
  | Some b => mret (b, snap)
  | None =>
      let b := avro_bytes (manifest_entry_schema (ICEBERG_MANIFEST_STATS cfg)) (map (manifest_entry snap) (ss_splits snap)) in
      snap ← memoize snap (with_manifest_file b);
      mret (b, snap)
  end.

Definition build_manifest_list (snap : snapshot_state) : M registry (string * snapshot_state) :=
  match ss_manifest_list_bytes snap with
  | Some b => mret (b, snap)
  | None =>
      fs ← build_manifest_file snap;
      let '(mf_bytes, snap) := fs in
      let b := avro_bytes MANIFEST_LIST_SCHEMA [manifest_record snap (Z.of_nat (String.length mf_bytes))] in
      snap ← memoize snap (with_manifest_list b);
      mret (b, snap)
  end.
End iceberg.
