(* ===== verification/DeltaLog.v ===== *)
(** * The Delta transaction log

    [delta/log.py]: commits derived from the snapshot versions of a table and kept as
    texts, and the objects served when the table format is Delta.  The state of a
    serving Agent ([node]) is the snapshot registry, the caches and the log.

    Dictionaries that are only read by key are maps; those whose order is visible are
    association lists. *)

From S2P Require Import Prelude PyText Json Docs ArtifactStore World Sources Md5 LruCache Snapshots Iceberg.
From Stdlib Require Import Ascii.

(** A file of a version: relative path, size, records *)
Definition file_entry : Type := string * Z * Z.

Record delta_log := DeltaLog {
  dl_commits : gmap string (list string);
  dl_prev_files : gmap string (list file_entry);
  dl_committed_version : gmap string Z;
}.
Definition empty_log : delta_log := DeltaLog ∅ ∅ ∅.

(** ** Schema mapping *)

Definition simple_types : list (string * string) :=
  [("boolean", "boolean"); ("int", "integer"); ("long", "long"); ("float", "float"); ("double", "double"); ("date", "date");
   ("string", "string"); ("binary", "binary"); ("uuid", "string"); ("time", "string"); ("timestamp", "timestamp");
   ("timestamptz", "timestamp")].

(** [s.replace(" ", "")] *)
Fixpoint remove_blanks (s : string) : string :=
  match s with
  | EmptyString => ""
  | String a s => if Ascii.eqb a " " then remove_blanks s else String a (remove_blanks s)
  end.

(** [_delta_type] *)
Definition delta_type (iceberg_type : string) : string :=
  let t := lower (strip iceberg_type) in
  match odict_get t simple_types with
  | Some d => d
  | None => if startswith t "decimal(" then remove_blanks t else if startswith t "fixed(" then "binary" else "string"
  end.

Definition compact (v : doc) : string := doc_dumps "," ":" v.

(** [_schema_string] *)
Definition schema_string (columns : list column_def) : string :=
  compact (DObj [("type", DStr "struct");
    ("fields", DList (map (fun c => DObj [("name", DStr (cd_name c)); ("type", DStr (delta_type (cd_iceberg_type c)));
       ("nullable", DBool (cd_nullable c)); ("metadata", DObj [])]) columns))]).

(** [_table_uuid] *)
Definition table_uuid (name : string) : string := uuid_text (md5_hex (fmt ["delta:"; name])).

(** [_rel_path] *)
Definition rel_path (object_key table_path : string) : string :=
  let prefix := fmt [table_path; "/"] in
  if startswith object_key prefix then str_drop (String.length prefix) object_key else object_key.

(** ** Commit construction *)

(** [_add_action] *)
Definition add_action (path : string) (size records ts : Z) : doc :=
  DObj [("add", DObj [("path", DStr path); ("partitionValues", DObj []); ("size", DInt size); ("modificationTime", DInt ts);
    ("dataChange", DBool true);
    ("stats", DStr (compact (DObj [("numRecords", DInt records); ("minValues", DObj []); ("maxValues", DObj []); ("nullCount", DObj [])])))])].

(** [_remove_action] *)
Definition remove_action (path : string) (size ts : Z) : doc :=
  DObj [("remove", DObj [("path", DStr path); ("deletionTimestamp", DInt ts); ("dataChange", DBool true);
    ("extendedFileMetadata", DBool true); ("partitionValues", DObj []); ("size", DInt size)])].

(** [_metadata_action] *)
Definition metadata_action (s : snapshot_state) : doc :=
  DObj [("metaData", DObj [("id", DStr (table_uuid (td_name (ss_table s)))); ("name", DStr (td_name (ss_table s)));
    ("format", DObj [("provider", DStr "parquet"); ("options", DObj [])]);
    ("schemaString", DStr (schema_string (td_schema (ss_table s)))); ("partitionColumns", DList []);
    ("configuration", DObj [("delta.dataSkippingNumIndexedCols", DStr "0")]); ("createdTime", DInt (ss_watermark_ms s))])].

(** [_commit_info_action] *)
Definition commit_info_action (s : snapshot_state) (operation : string) : doc :=
  DObj [("commitInfo", DObj [("timestamp", DInt (ss_watermark_ms s)); ("operation", DStr operation);
    ("operationParameters", DObj []); ("engineInfo", DStr "Fabric Shortcut Proxy")])].

Definition protocol_action : doc := DObj [("protocol", DObj [("minReaderVersion", DInt 1); ("minWriterVersion", DInt 2)])].

(** [_commit_text] *)
Definition commit_text (actions : list doc) : string :=
  fmt (map (fun a => compact a +:+ String "010" "") actions).

(** The actions that open a log: what it is and the files of the first version. *)
Definition create_actions (s : snapshot_state) : list doc :=
  [commit_info_action s "CREATE TABLE"; protocol_action; metadata_action s].

(** [build_snapshot_commit]: a self-contained table with absolute paths *)
Definition build_snapshot_commit (cfg : iceberg_config) (s : snapshot_state) : string :=
  commit_text (create_actions s ++
    map (fun p => add_action (s3_url cfg (sd_object_key p)) (default 0 (sd_file_size_in_bytes p)) (default 0 (sd_record_count p))
                    (ss_watermark_ms s)) (ss_splits s)).

(** The files of a version. *)
Definition snapshot_files (s : snapshot_state) : list file_entry :=
  map (fun p => (rel_path (sd_object_key p) (ss_table_path s), default 0 (sd_file_size_in_bytes p), default 0 (sd_record_count p)))
    (ss_splits s).
Definition paths (files : list file_entry) : list string := map (fun f => f.1.1) files.

(** The difference to the previous version: new files, and files that are gone. *)
Definition diff_actions (ts : Z) (prev files : list file_entry) : list doc :=
  map (fun f => add_action f.1.1 f.1.2 f.2 ts) (filter (fun f => f.1.1 ∉ paths prev) files)
  ++ map (fun f => remove_action f.1.1 f.1.2 ts) (filter (fun f => f.1.1 ∉ paths files) prev).

(** [_register] *)
Definition register (s : snapshot_state) (lg : delta_log) : delta_log :=
  let name := td_name (ss_table s) in
  let ver := ss_version s in
  if ver <=? default 0 (dl_committed_version lg !! name) then lg
  else
    let files := snapshot_files s in
    let ts := ss_watermark_ms s in
    let commits := default [] (dl_commits lg !! name) in
    match commits with
    | [] =>
        let actions := create_actions s ++ map (fun f => add_action f.1.1 f.1.2 f.2 ts) files in
        DeltaLog (<[name := [commit_text actions]]> (dl_commits lg)) (<[name := files]> (dl_prev_files lg))
          (<[name := ver]> (dl_committed_version lg))
    | _ =>
        match diff_actions ts (default [] (dl_prev_files lg !! name)) files with
        | [] => DeltaLog (<[name := commits]> (dl_commits lg)) (dl_prev_files lg) (<[name := ver]> (dl_committed_version lg))
        | actions =>
            DeltaLog (<[name := commits ++ [commit_text (commit_info_action s "WRITE" :: actions)]]> (dl_commits lg))
              (<[name := files]> (dl_prev_files lg)) (<[name := ver]> (dl_committed_version lg))
        end
    end.

(** [_sync], given the history of the table *)
Definition sync (name : string) (history : list snapshot_state) (lg : delta_log) : delta_log :=
  foldl (fun lg s => if default 0 (dl_committed_version lg !! name) <? ss_version s then register s lg else lg) lg history.

(** ** The state of a serving Agent *)

(** Per-table change-detection state of [iceberg/freshness.py]. *)
Record freshness_state := Freshness {
  fr_probe_tokens : gmap string (option string);
  fr_ttl_gen : gmap string Z;
}.

(** [nd_ticks] counts the readings of the clock and the calls of the database. *)
Record node := Node {
  nd_registry : registry;
  nd_cache : cache_state;
  nd_log : delta_log;
  nd_fresh : freshness_state;
  nd_ticks : nat;
}.
Definition set_registry (r : registry) (n : node) : node := Node r (nd_cache n) (nd_log n) (nd_fresh n) (nd_ticks n).
Definition set_cache (c : cache_state) (n : node) : node := Node (nd_registry n) c (nd_log n) (nd_fresh n) (nd_ticks n).
Definition set_log (l : delta_log) (n : node) : node := Node (nd_registry n) (nd_cache n) l (nd_fresh n) (nd_ticks n).
Definition set_fresh (f : freshness_state) (n : node) : node := Node (nd_registry n) (nd_cache n) (nd_log n) f (nd_ticks n).

(** Take the next tick. *)
Definition tick : M node nat := fun n =>
  (Ok (nd_ticks n), Node (nd_registry n) (nd_cache n) (nd_log n) (nd_fresh n) (S (nd_ticks n))).

Definition on_registry {A} (m : M registry A) : M node A := fun n =>
  ((m (nd_registry n)).1, set_registry (m (nd_registry n)).2 n).
Definition on_cache {A} (m : M cache_state A) : M node A := fun n =>
  ((m (nd_cache n)).1, set_cache (m (nd_cache n)).2 n).
Definition on_log (f : delta_log -> delta_log) : M node unit := modify (fun n => set_log (f (nd_log n)) n).

(** [_sync(name)] *)
Definition sync_table (name : string) : M node unit :=
  history ← gets (fun n => get_snapshot_history name (nd_registry n));
  on_log (sync name history).

Definition all_snapshots : M node (list snapshot_state) := gets (fun n => get_all_snapshots (nd_registry n)).

Definition sync_all : M node unit :=
  snaps ← all_snapshots;
  forM_ sync_table (remove_dups (map (fun s => td_name (ss_table s)) snaps)).

Definition reset : M node unit := on_log (fun _ => empty_log).
Definition invalidate_table (name : string) : M node unit :=
  on_log (fun l => DeltaLog (delete name (dl_commits l)) (delete name (dl_prev_files l)) (delete name (dl_committed_version l))).

(** ** Objects *)

Record virtual_object := VirtualObject {
  vo_size : Z;
  vo_last_modified_ms : Z;
  vo_data : option string;
  vo_content_type : string;
  vo_etag : option string;
}.

Definition object_map : Type := list (string * virtual_object).

(** [_log_key] *)
Definition log_key (table_path : string) (version : nat) : string :=
  fmt [table_path; "/_delta_log/"; pad20 (Z.of_nat version); ".json"].

(** [max(snaps, key=version)]: the first of the highest version *)
Definition newest (s : snapshot_state) (snaps : list snapshot_state) : snapshot_state :=
  foldl (fun m x => if ss_version m <? ss_version x then x else m) s snaps.

(** The versions of each table, in the order the tables appear. *)
Definition by_table (snaps : list snapshot_state) : list (string * list snapshot_state) :=
  foldl (fun d s => odict_set (td_name (ss_table s)) (default [] (odict_get (td_name (ss_table s)) d) ++ [s]) d) [] snaps.

Definition version_ge (a b : snapshot_state) : Prop := ss_version b <= ss_version a.
#[global] Instance version_ge_dec a b : Decision (version_ge a b).
Proof. unfold version_ge. apply _. Defined.

Definition commit_object (cur : snapshot_state) (text : string) : virtual_object :=
  VirtualObject (Z.of_nat (String.length text)) (ss_watermark_ms cur) (Some text) "application/json" (Some (md5_hex text)).

(** The size and the entity tag a data file is listed with, given its cached bytes. *)
Definition split_size (s : split_descriptor) (cached : option blob) : Z :=
  match sd_file_size_in_bytes s, cached with
  | Some n, _ => n
  | None, Some b => blob_size b
  | None, None => 10 * 1024 * 1024
  end.
Definition split_etag (s : split_descriptor) (cached : option blob) : option string :=
  if truthy_opt (sd_s3_etag s) then sd_s3_etag s else (fun b => md5_hex (blob_bytes b)) <$> cached.

Definition split_object (snap : snapshot_state) (s : split_descriptor) (cached : option blob) : virtual_object :=
  VirtualObject (split_size s cached) (ss_watermark_ms snap) None "application/octet-stream" (split_etag s cached).

Section objects.
Context `{HEnv : Env} (ccfg : cache_config).

(** The data files of a table, each once, from the newest version that has it. *)
Definition data_objects (snaps : list snapshot_state) (acc : object_map) : M node object_map :=
  r ← foldM (fun (acc : object_map * list string) (x : snapshot_state * split_descriptor) =>
        let '(objects, seen) := acc in
        let '(snap, s) := x in
        if bool_decide (sd_object_key s ∈ seen) then mret acc
        else
          cached ← on_cache (peek_parquet ccfg (sd_object_key s));
          mret (odict_set (sd_object_key s) (split_object snap s cached) objects, sd_object_key s :: seen))
      (acc, []) (concat (map (fun snap => map (pair snap) (ss_splits snap)) (merge_sort version_ge snaps)));
  mret r.1.

Definition table_objects (acc : object_map) (e : string * list snapshot_state) : M node object_map :=
  let '(name, snaps) := e in
  sync_table name;;
  match snaps with
  | [] => raise (ValueError "max() iterable argument is empty")
  | s :: rest =>
      let cur := newest s rest in
      commits ← gets (fun n => default [] (dl_commits (nd_log n) !! name));
      let acc := foldl (fun acc it => odict_set (log_key (ss_table_path cur) it.1) (commit_object cur it.2) acc) acc
                   (imap pair commits) in
      data_objects snaps acc
  end.

Definition delta_log_objects : M node object_map :=
  snaps ← all_snapshots;
  foldM table_objects [] (by_table snaps).

Definition get_commit_bytes (key : string) : M node (option string) :=
  if negb (str_contains "/_delta_log/" key) || negb (endswith key ".json") then mret None
  else objects ← delta_log_objects; mret (odict_get key objects ≫= vo_data).
End objects.
