(* ===== verification/Retention.v ===== *)
(** * Retention

    [enterprise/retention.py]: the sweep that deletes the data objects of the shared store that no
    retained snapshot refers to. *)

From S2P Require Import Prelude PyText Sha256 Json ArtifactStore World Sources Dialects Snapshots.
From Stdlib Require Import Ascii.
Import MemoryStore.

(** [live_object_keys] *)
Definition snapshot_keys (s : snapshot_state) : list string :=
  filter (fun k => truthy_str k = true) [ss_metadata_key s; ss_manifest_list_key s; ss_manifest_file_key s; ss_version_hint_key s]
  ++ map sd_object_key (ss_splits s).
Definition live_object_keys (r : registry) : list string := concat (map snapshot_keys (get_all_snapshots r)).

(** A data split that nothing refers to. *)
Definition is_orphan (live : list string) (k : string) : bool :=
  str_contains "/data/" k && endswith k ".parquet" && negb (bool_decide (k ∈ live)).

(** One turn of the loop; a delete that raises is only logged. *)
Definition sweep_step (live : list string) (dry_run : bool) (orphans : list string) (stat : object_stat) : M mem (list string) :=
  if is_orphan live (os_key stat) then
    (if dry_run then mret tt else catch (delete_ (os_key stat);; mret tt) (fun _ => mret tt));;
    mret (orphans ++ [os_key stat])
  else mret orphans.

(** [gc_orphaned_data] *)
Definition gc_orphaned_data (r : registry) (warehouse_prefix : string) (dry_run : bool) : M mem (list string) :=
  let live := live_object_keys r in
  objects ← catch (l ← list_ warehouse_prefix; mret (Some l)) (fun _ => mret None);
  match objects with
  | None => mret []
  | Some objects =>
      orphans ← foldM (sweep_step live dry_run) [] objects;
      mret (merge_sort str_le orphans)
  end.

(** * Theorems *)

Lemma contains_spec p s : str_contains p s = true <-> exists a b, s = a +:+ p +:+ b.
Proof.
  split.
  - induction s as [|c s IH]; cbn [str_contains]; intros H; apply orb_true_iff in H as [H|H]; try done.
    1, 2: apply startswith_inv in H as [t ->]; by exists "", t.
    destruct (IH H) as (a & b & ->). by exists (String c a), b.
  - intros (a & b & ->). induction a as [|c a IH].
    + change ("" +:+ p +:+ b) with (p +:+ b). destruct (p +:+ b) as [|c t] eqn:E; cbn [str_contains]; rewrite <- E, startswith_app; done.
    + rewrite app_cons_s. cbn [str_contains]. rewrite IH. apply orb_true_r.
Qed.

Lemma endswith_spec s p : endswith s p = true <-> exists a, s = a +:+ p.
Proof.
  unfold endswith. rewrite startswith_spec. split; intros [t Ht].
  - exists (str_rev t). by rewrite <- (str_rev_involutive s), Ht, str_rev_app_dist, str_rev_involutive.
  - exists (str_rev t). by rewrite Ht, str_rev_app_dist.
Qed.

(** The names a snapshot carries, and the stored objects they refer to: the store resolves a name to
    its normal form. *)
Definition names (s : snapshot_state) (k : string) : Prop :=
  k = ss_metadata_key s \/ k = ss_manifest_list_key s \/ k = ss_manifest_file_key s \/ k = ss_version_hint_key s \/
  exists d, d ∈ ss_splits s /\ k = sd_object_key d.
Definition refers (s : snapshot_state) (k : string) : Prop := exists key, names s key /\ normalize_key key = Ok k.

(** The retained snapshots spell the names they carry in normal form. *)
Definition normal_names (r : registry) : Prop :=
  forall s key k, s ∈ get_all_snapshots r -> names s key -> normalize_key key = Ok k -> k = key.

(** The objects a sweep is to delete: data files below the prefix that no retained snapshot refers to. *)
Record collectable (r : registry) (warehouse_prefix k : string) : Prop := Collectable {
  cl_below : exists t, k = lstrip_char slash (replace_char backslash slash warehouse_prefix) +:+ t;
  cl_data : exists a b, k = a +:+ "/data/" +:+ b;
  cl_parquet : exists a, k = a +:+ ".parquet";
  cl_unreferenced : forall s, s ∈ get_all_snapshots r -> ~ refers s k;
}.

Lemma live_object_spec r k : k <> "" -> k ∈ live_object_keys r <-> exists s, s ∈ get_all_snapshots r /\ names s k.
Proof.
  intros Hk. unfold live_object_keys. rewrite list_elem_of_In, in_concat. setoid_rewrite in_map_iff. setoid_rewrite <- list_elem_of_In.
  assert (forall s, k ∈ snapshot_keys s <-> names s k) as H.
  { intros s. unfold snapshot_keys, names. rewrite elem_of_app, list_elem_of_filter, list_elem_of_fmap, !elem_of_cons.
    assert (truthy_str k = true) as Ht by (by destruct k). pose proof (not_elem_of_nil k). naive_solver. }
  split; [intros (l & (s & <- & Hs) & Hin)|intros (s & Hs & Hr)]; [exists s; by rewrite <- H|].
  exists (snapshot_keys s). split; [by exists s|by apply H].
Qed.

Lemma named_spec r k : normal_names r -> safe_key k -> (exists s, s ∈ get_all_snapshots r /\ names s k) <-> exists s, s ∈ get_all_snapshots r /\ refers s k.
Proof.
  intros Hr Hk. split; intros (s & Hs & Hn); exists s; (split; [done|]).
  - exists k. split; [done|]. by apply normalize_safe.
  - destruct Hn as (key & Hn & He). by rewrite (Hr s key k).
Qed.

Lemma orphan_spec r warehouse_prefix k : normal_names r -> safe_key k ->
  startswith k (lstrip_char slash (replace_char backslash slash warehouse_prefix)) = true /\ is_orphan (live_object_keys r) k = true <->
  collectable r warehouse_prefix k.
Proof.
  intros Hr Hk. pose proof (named_spec r k Hr Hk) as Hname.
  unfold is_orphan. rewrite !andb_true_iff, negb_true_iff, bool_decide_eq_false, startswith_spec, contains_spec, endswith_spec. split.
  - intros (Hb & [Hd Hp] & Hl). split; [done..|]. intros s Hs Hf. apply Hl, live_object_spec; [|apply Hname; by exists s].
    destruct Hp as [a ->]. by destruct a.
  - intros [Hb Hd Hp Hu]. split; [done|]. split; [done|]. rewrite live_object_spec, Hname; [intros (s & Hs & Hf); by apply (Hu s)|].
    destruct Hp as [a ->]. by destruct a.
Qed.

Lemma delete_run k (s : mem) : safe_key k -> (catch (delete_ k;; mret tt) (fun _ => mret tt) : M mem unit) s = (Ok tt, delete k s).
Proof.
  intros Hk. unfold catch, delete_, mbind, M_bind. rewrite (with_key_Ok _ k) by (by apply normalize_safe). done.
Qed.

Lemma sweep_run live dry_run objects : Forall (fun x => safe_key (os_key x)) objects -> forall acc (s : mem),
  foldM (sweep_step live dry_run) acc objects s =
  (Ok (acc ++ filter (fun k => is_orphan live k = true) (map os_key objects)),
   if dry_run then s else foldl (fun s k => delete k s) s (filter (fun k => is_orphan live k = true) (map os_key objects))).
Proof.
  induction 1 as [|x l Hx _ IH]; intros acc s; [cbn; rewrite app_nil_r; by destruct dry_run|]. cbn [foldM map].
  destruct (is_orphan live (os_key x)) eqn:E.
  2: { rewrite filter_cons_False by (by rewrite E). rewrite (run_bind _ _ acc s s) by (unfold sweep_step; by rewrite E). apply IH. }
  rewrite filter_cons_True by done.
  assert (sweep_step live dry_run acc x s = (Ok (acc ++ [os_key x]), if dry_run then s else delete (os_key x) s)) as Hstep.
  { unfold sweep_step. rewrite E. destruct dry_run; [done|]. by rewrite (run_bind _ _ tt s (delete (os_key x) s)) by (by apply delete_run). }
  erewrite run_bind by exact Hstep. rewrite IH, <- app_assoc. by destruct dry_run.
Qed.

Lemma delete_all_lookup (l : list string) (s : mem) k : foldl (fun s k => delete k s) s l !! k = if bool_decide (k ∈ l) then None else s !! k.
Proof.
  revert s. induction l as [|x l IH]; intros s; [by rewrite bool_decide_eq_false_2 by apply not_elem_of_nil|]. cbn [foldl]. rewrite IH.
  destruct (bool_decide (k ∈ l)) eqn:E.
  - apply bool_decide_eq_true in E. rewrite bool_decide_eq_true_2; [done|by right].
  - apply bool_decide_eq_false in E. destruct (decide (k = x)) as [->|Hne].
    + rewrite lookup_delete_eq, bool_decide_eq_true_2; [done|by left].
    + rewrite lookup_delete_ne, bool_decide_eq_false_2; [done| |done]. by rewrite elem_of_cons; intros [->|].
Qed.

(** C14: A sweep deletes the orphans and nothing else.  In a store whose names are normal, and when
    the retained snapshots spell their names in normal form too (they do not with a warehouse prefix
    that ends in a slash, see [gc_deletes_live]), a sweep returns, sorted and once each, exactly the
    stored data files below the prefix that no name of a retained snapshot resolves to; a dry run leaves the store as it is, a real one removes these
    objects and keeps every other one; and a second sweep finds nothing. *)
Theorem gc_collects_orphans r warehouse_prefix dry_run (s : mem) :
  (forall k b, s !! k = Some b -> safe_key k) -> normal_names r ->
  exists orphans s', gc_orphaned_data r warehouse_prefix dry_run s = (Ok orphans, s') /\
    Sorted str_le orphans /\ NoDup orphans /\
    (forall k, k ∈ orphans <-> is_Some (s !! k) /\ collectable r warehouse_prefix k) /\
    (forall k, s' !! k = if dry_run then s !! k else if bool_decide (k ∈ orphans) then None else s !! k) /\
    (dry_run = false -> gc_orphaned_data r warehouse_prefix false s' = (Ok [], s')).
Proof.
  intros Hsafe Hr. set (live := live_object_keys r).
  assert (forall dry (t : mem), (forall k b, t !! k = Some b -> safe_key k) -> exists l, NoDup l /\
    (forall k, k ∈ l <-> is_Some (t !! k) /\ collectable r warehouse_prefix k) /\
    gc_orphaned_data r warehouse_prefix dry t = (Ok (merge_sort str_le l), if dry then t else foldl (fun s k => delete k s) t l)) as Hrun.
  { intros dry t Ht. destruct (list_spec warehouse_prefix t) as (objects & Hl & _ & Hnd & Hin).
    exists (filter (fun k => is_orphan live k = true) (map os_key objects)). split_and!.
    - by apply NoDup_filter.
    - intros k. rewrite list_elem_of_filter, list_elem_of_fmap. split.
      + intros [Ho (x & -> & Hx)]. apply Hin in Hx as (k & b & Hk & Hp & ->). cbn in *. rewrite Hk. split; [done|].
        by apply orphan_spec; [|eapply Ht|split].
      + intros [[b Hb] Hc]. apply orphan_spec in Hc as [Hp Ho]; [|done|by eapply Ht]. split; [done|]. exists (mk_stat k b). split; [done|]. apply Hin. by exists k, b.
    - unfold gc_orphaned_data. fold live. rewrite (run_bind _ _ (Some objects) t t) by (unfold catch; by rewrite (run_bind _ _ objects t t) by done).
      assert (Forall (fun x => safe_key (os_key x)) objects) as Hs.
      { apply Forall_forall. intros x Hx. apply Hin in Hx as (k & b & Hk & _ & ->). by apply (Ht k b). }
      erewrite run_bind by (by apply sweep_run). done. }
  destruct (Hrun dry_run s Hsafe) as (l & Hnd & Hin & E). eexists _, _. split; [exact E|].
  assert (forall k, k ∈ merge_sort str_le l <-> k ∈ l) as Hm by (intros k; by rewrite merge_sort_Permutation). split_and!.
  - apply Sorted_merge_sort. intros a b. apply str_le_total.
  - by rewrite merge_sort_Permutation.
  - intros k. by rewrite Hm.
  - intros k. destruct dry_run; [done|]. rewrite delete_all_lookup. by rewrite (bool_decide_ext _ _ (Hm k)).
  - intros ->. destruct (Hrun false (foldl (fun s k => delete k s) s l)) as (l2 & Hnd2 & Hin2 & E2).
    { intros k b. rewrite delete_all_lookup. case_bool_decide; [done|]. apply Hsafe. }
    assert (l2 = []) as ->; [|exact E2]. destruct l2 as [|k l2]; [done|]. exfalso.
    destruct (proj1 (Hin2 k)) as [[b Hb] Hc]; [by left|]. rewrite delete_all_lookup in Hb. case_bool_decide as Hk; [done|]. apply Hk, Hin. by split; [exists b|].
Qed.

(** *** Worked cases *)

Definition gc_config : serving_config := ServingConfig
  (SourceConfig "sqlite:///a.db" 0 ∅ 1 "" "" 0 0 0 1 1 0 false "" (fun _ => None) false (fun _ => None)) "legacy" false 2 "" [] (fun _ => None).
Definition gc_table : table_def := TableDef "t" "t" [] 1 None "" None None None None None None true.
Definition gc_snapshot (prefix : string) : snapshot_state := table_snapshot gc_config gc_table "b" prefix.
Definition gc_registry (prefix : string) : registry := (build_table_snapshot gc_config gc_table "b" prefix (Registry [] [])).2.
Definition gc_key (prefix : string) : string := default "" (map sd_object_key (ss_splits (gc_snapshot prefix)) !! 0%nat).
Definition gc_store (prefix : string) : mem := (put "db/t/data/old.parquet" (BRaw "old") (put (gc_key prefix) (BRaw "new") ∅).2).2.

(** The names of the registry's snapshots, one by one. *)
Lemma gc_names_normal : normal_names (gc_registry "db").
Proof.
  assert (Forall (fun s => Forall (fun key => normalize_key key = Ok key)
    ([ss_metadata_key s; ss_manifest_list_key s; ss_manifest_file_key s; ss_version_hint_key s] ++ map sd_object_key (ss_splits s)))
    (get_all_snapshots (gc_registry "db"))) as H by (apply (bool_decide_unpack _); vm_compute; exact I).
  rewrite Forall_forall in H. intros s key k Hs Hn Hk. specialize (H s Hs). rewrite Forall_forall in H.
  enough (normalize_key key = Ok key) by congruence. apply H. rewrite elem_of_app, !elem_of_cons, list_elem_of_fmap.
  destruct Hn as [Hn|[Hn|[Hn|[Hn|(d & Hd & Hn)]]]]; [tauto..|right; by exists d].
Qed.

Lemma gc_collects_orphans_witness :
  exists orphans s', gc_orphaned_data (gc_registry "db") "db" false (gc_store "db") = (Ok orphans, s') /\
    "db/t/data/old.parquet" ∈ orphans /\ s' !! gc_key "db" = Some (BRaw "new").
Proof.
  assert (map_Forall (fun k _ => normalize_key k = Ok k) (gc_store "db")) as H by (apply (bool_decide_unpack _); vm_compute; exact I).
  destruct (gc_collects_orphans (gc_registry "db") "db" false (gc_store "db")) as (orphans & s' & Hrun & _ & _ & Hin & Hs & _).
  - intros k b Hk. exact (normalized_is_safe k k (H k b Hk)).
  - exact gc_names_normal.
  - exists orphans, s'. split; [exact Hrun|]. split.
    + apply Hin. split; [exists (BRaw "old"); vm_compute; reflexivity|]. apply orphan_spec; [exact gc_names_normal| |split; vm_compute; reflexivity].
      apply (normalized_is_safe "db/t/data/old.parquet"). vm_compute. reflexivity.
    + rewrite Hs. rewrite bool_decide_eq_false_2; [vm_compute; reflexivity|]. rewrite Hin. intros [_ Hc].
      apply orphan_spec in Hc as [_ Hc]; [vm_compute in Hc; discriminate Hc|exact gc_names_normal|].
      apply (normalized_is_safe (gc_key "db")). vm_compute. reflexivity.
Defined.

(** With a warehouse prefix that ends in a slash, the keys of the snapshots are not in the normal
    form of the store: a sweep takes every live data object for an orphan. *)
Example gc_deletes_live :
  let s : mem := (put (gc_key "db/") (BRaw "new") ∅).2 in
  gc_key "db/" ∈ live_object_keys (gc_registry "db/") /\ (get (gc_key "db/") 0 None s).1 = Ok (BRaw "new") /\
  is_Ok (gc_orphaned_data (gc_registry "db/") "db/" false s).1 /\ (gc_orphaned_data (gc_registry "db/") "db/" false s).2 = ∅.
Proof. split; [apply (bool_decide_unpack _); vm_compute; exact I|]. split; [vm_compute; reflexivity|]. split; [eexists|]; vm_compute; reflexivity. Qed.
