(* ===== verification/Freshness.v ===== *)
(** * Content-addressed refresh

    [iceberg/freshness.py]: reading a table chunk by chunk, naming each chunk by the
    hash of its rows, publishing a new version when the content changed, and the
    polling cascade.  The background task that repeats [poll_once] is left out.

    The database and the Parquet writer are parameters that may answer differently at
    every call. *)

From S2P Require Import Prelude PyText Sha256 Json Docs ArtifactStore World Sources Dialects LruCache Snapshots SplitPlanner MirrorState Iceberg DeltaLog.
From Stdlib Require Import Ascii.

(** The database: the rows of a split query (SQL text, parameters, split, connection), the
    text of a scalar ([None] for a null), the Parquet encoding of rows and the statistics
    of an encoded file. *)
Class DataSource := {
  execute_split_query : nat -> string -> list (string * bind_value) -> Z -> string -> res (list row);
  execute_scalar : nat -> string -> string -> string -> res (option string);
  rows_to_parquet : nat -> list row -> Z -> list column_def -> res string;
  collect_split_stats : string -> list column_def -> res (gmap Z column_stats);
}.

Record refresh_config := RefreshConfig {
  rf_serving : serving_config;
  rf_cache : cache_config;
  rf_iceberg : iceberg_config;
  PIN_MATERIALIZED_SPLITS : bool;
  REFRESH_STRATEGY : string;
  REFRESH_TTL_SECONDS : Z;
  REFRESH_ALLOW_FULL_PULL : bool;
}.

(** ** Content hashing *)

(** [str(v)] as bytes; a null is one zero byte *)
Definition cell_bytes (c : cell) : string :=
  match c with
  | CNull => String "000" ""
  | CBool true => "True"
  | CBool false => "False"
  | CInt z => pretty z
  | CText s => s
  end.

Definition FIELD_SEP : string := String "031" "".
Definition RECORD_SEP : string := String "030" "".

Definition row_bytes (names : list string) (r : row) : string :=
  fmt (map (fun n => cell_bytes (default CNull (r !! n)) +:+ FIELD_SEP) names) +:+ RECORD_SEP.
Definition rows_bytes (rows : list row) (columns : list column_def) : string :=
  fmt (map (row_bytes (map cd_name columns)) rows).

(** [_rows_hash] *)
Definition rows_hash (rows : list row) (columns : list column_def) : string :=
  str_take 12 (sha256_hex (rows_bytes rows columns)).

(** ** Materialize and publish *)

Definition chunk_key (table_path : string) (i : Z) (chash : string) : string :=
  fmt [table_path; "/data/split-"; pretty i; "-"; chash; ".parquet"].

(** The candidate snapshot of the chunks read. *)
Definition with_watermark (w : Z) (s : split_descriptor) : split_descriptor :=
  SplitDescriptor (sd_split_index s) (sd_num_splits s) (sd_object_key s) w (sd_table s) (sd_record_count s) (sd_file_size_in_bytes s)
    (sd_content_hash s) (sd_s3_etag s) (sd_stats s) (sd_split_key_column s) (sd_key_lo s) (sd_key_hi s) (sd_canonical_object_key s).

Definition chunks_seed (bucket table_path : string) (chunk_hashes : list string) : string :=
  fmt [bucket; "/"; table_path; ":"; join "|" (imap (fun i h => fmt [pretty (Z.of_nat i); ":"; h]) chunk_hashes)].

Definition content_snapshot (scfg : serving_config) (t : table_def) (bucket warehouse_prefix : string)
  (splits : list split_descriptor) (chunk_hashes : list string) (total_records : Z) : snapshot_state :=
  let table_path := active_table_path scfg t warehouse_prefix in
  let digest := sha256_hex (chunks_seed bucket table_path chunk_hashes) in
  let snap_id := seed_id digest in
  let snap_uuid := seed_uuid digest in
  let watermark := 1700000000000 + hex_int (str_take 10 (str_drop 15 digest)) mod 86400000 in
  SnapshotState snap_id 1 watermark
    (fmt [table_path; "/metadata/snap-"; pretty snap_id; "-1-"; snap_uuid; ".avro"])
    (fmt [table_path; "/metadata/"; snap_uuid; "-m0.avro"])
    (fmt [table_path; "/metadata/v1.metadata.json"])
    (fmt [table_path; "/metadata/version-hint.text"])
    t table_path (legacy_table_path t warehouse_prefix) (map (with_watermark watermark) splits)
    1 snap_uuid (Some total_records) None None None.

(** [_finalize_versioned_keys] *)
Definition finalize_versioned_keys (s : snapshot_state) (version : Z) : snapshot_state :=
  let table_path := ss_table_path s in
  SnapshotState (ss_snapshot_id s) version (ss_watermark_ms s)
    (fmt [table_path; "/metadata/snap-"; pretty (ss_snapshot_id s); "-"; pretty version; "-"; ss_uuid s; ".avro"])
    (fmt [table_path; "/metadata/"; ss_uuid s; "-m"; pretty version; ".avro"])
    (fmt [table_path; "/metadata/v"; pretty version; ".metadata.json"])
    (ss_version_hint_key s) (ss_table s) table_path (ss_legacy_table_path s) (ss_splits s)
    version (ss_uuid s) (ss_total_records s) None None None.

Section freshness.
Context `{HEnv : Env} `{HSource : DataSource} (cfg : refresh_config).

Definition scfg : serving_config := rf_serving cfg.

(** The variables of the loop of [materialize_table]. *)
Record chunks := Chunks {
  ck_splits : list split_descriptor;
  ck_hashes : list string;
  ck_records : Z;
}.

Definition materialize_chunk (t : table_def) (table_path : string) (acc : chunks) (i : Z) : M node chunks :=
  let probe_split := SplitDescriptor i (td_num_splits t) "" 0 t None None None None None None None None None in
  q ← lift (build_split_query (sv_sources scfg) probe_split);
  k ← tick;
  rows ← lift (execute_split_query k q.1 q.2 i (td_connection_id t));
  let chash := rows_hash rows (td_schema t) in
  let object_key := chunk_key table_path i chash in
  existing ← on_cache (peek_parquet (rf_cache cfg) object_key);
  pq_bytes ← match existing with
             | Some b => mret (blob_bytes b)
             | None =>
                 k ← tick;
                 pq ← lift (rows_to_parquet k rows i (td_schema t));
                 (if PIN_MATERIALIZED_SPLITS cfg then on_cache (pin_parquet (rf_cache cfg) object_key (BRaw pq))
                  else on_cache (put_parquet (rf_cache cfg) object_key (BRaw pq)));;
                 mret pq
             end;
  stats ← (if ICEBERG_MANIFEST_STATS (rf_iceberg cfg) then s ← lift (collect_split_stats pq_bytes (td_schema t)); mret (Some s) else mret None);
  mret (Chunks (ck_splits acc ++ [SplitDescriptor i (td_num_splits t) object_key 0 t (Some (Z.of_nat (length rows)))
                 (Some (Z.of_nat (String.length pq_bytes))) None None stats None None None None])
          (ck_hashes acc ++ [chash]) (ck_records acc + Z.of_nat (length rows))).

Definition materialize_table (t : table_def) (bucket warehouse_prefix : string) : M node snapshot_state :=
  let table_path := active_table_path scfg t warehouse_prefix in
  c ← foldM (materialize_chunk t table_path) (Chunks [] [] 0) (zrange (td_num_splits t));
  mret (content_snapshot scfg t bucket warehouse_prefix (ck_splits c) (ck_hashes c) (ck_records c)).

(** [_evict_unreferenced] *)
Definition evict_unreferenced (pruned : list snapshot_state) : M node unit :=
  r ← gets nd_registry;
  let retained := map sd_object_key (concat (map ss_splits (concat (map snd (rg_history r))))) in
  forM_ (fun s => if bool_decide (sd_object_key s ∈ retained) then mret tt
                  else on_cache (evict_parquet (rf_cache cfg) (sd_object_key s)))
    (concat (map ss_splits pruned)).

Definition publish (candidate : snapshot_state) : M node bool :=
  let name := td_name (ss_table candidate) in
  prior ← gets (fun n => odict_get name (rg_snapshots (nd_registry n)));
  if match prior with Some p => ss_snapshot_id candidate =? ss_snapshot_id p | None => false end then mret false
  else
    let version := match prior with Some p => ss_version p + 1 | None => 1 end in
    pruned ← on_registry (register_snapshot scfg (finalize_versioned_keys candidate version));
    evict_unreferenced pruned;;
    mret true.

Definition refresh_table (t : table_def) (bucket warehouse_prefix : string) : M node bool :=
  candidate ← materialize_table t bucket warehouse_prefix; publish candidate.

(** ** Change detection *)

Definition pg_probe : string :=
  "SELECT (n_tup_ins + n_tup_upd + n_tup_del) FROM pg_stat_user_tables WHERE relid = to_regclass(:t)".
Definition mssql_probe : string :=
  "SELECT MAX(last_user_update) FROM sys.dm_db_index_usage_stats WHERE database_id = DB_ID() AND object_id = OBJECT_ID(:t)".

(** [probe_change_token]: every exception is swallowed *)
Definition probe_change_token (t : table_def) : M node (option string) :=
  let url := lower (effective_db_url (sv_sources scfg) (td_connection_id t)) in
  catch
    (if str_contains "sqlite" url then
       k ← tick; v ← lift (execute_scalar k "PRAGMA data_version" "" (td_connection_id t));
       mret (Some (fmt ["dv:"; default "None" v]))
     else if str_contains "postgres" url then
       k ← tick; v ← lift (execute_scalar k pg_probe (td_source_table t) (td_connection_id t));
       mret ((fun s => fmt ["pg:"; s]) <$> v)
     else if str_contains "mssql" url then
       k ← tick; v ← lift (execute_scalar k mssql_probe (td_source_table t) (td_connection_id t));
       mret ((fun s => fmt ["ms:"; s]) <$> v)
     else mret None)
    (fun _ : exn => mret None).

Definition set_probe (name : string) (token : option string) : M node unit :=
  modify (fun n => set_fresh (Freshness (<[name := token]> (fr_probe_tokens (nd_fresh n))) (fr_ttl_gen (nd_fresh n))) n).
Definition set_ttl (name : string) (gen : Z) : M node unit :=
  modify (fun n => set_fresh (Freshness (fr_probe_tokens (nd_fresh n)) (<[name := gen]> (fr_ttl_gen (nd_fresh n)))) n).

Definition prime_probe (t : table_def) : M node unit :=
  token ← probe_change_token t; set_probe (td_name t) token.

(** [poll_once]: one detection and publish cycle, every exception swallowed *)
Definition poll_once (t : table_def) (bucket warehouse_prefix : string) : M node bool :=
  let strat := REFRESH_STRATEGY cfg in
  catch
    (if String.eqb strat "manual" then mret false
     else if String.eqb strat "content_hash" then refresh_table t bucket warehouse_prefix
     else if String.eqb strat "ttl" then
       k ← tick;
       let gen := clock k / (1000 * Z.max 1 (REFRESH_TTL_SECONDS cfg)) in
       known ← gets (fun n => fr_ttl_gen (nd_fresh n) !! td_name t);
       if bool_decide (known = Some gen) then mret false
       else set_ttl (td_name t) gen;; refresh_table t bucket warehouse_prefix
     else
       token ← probe_change_token t;
       match token with
       | Some tok =>
           known ← gets (fun n => fr_probe_tokens (nd_fresh n) !! td_name t);
           if bool_decide (known = Some (Some tok)) then mret false
           else set_probe (td_name t) (Some tok);; refresh_table t bucket warehouse_prefix
       | None =>
           if String.eqb strat "dialect_probe" then mret false
           else if REFRESH_ALLOW_FULL_PULL cfg then refresh_table t bucket warehouse_prefix
           else mret false
       end)
    (fun _ : exn => mret false).

(** [refresh_all] *)
Definition refresh_all (tables : list table_def) (bucket warehouse_prefix : string) : M node (list string) :=
  foldM (fun (changed : list string) (t : table_def) =>
    (c ← refresh_table t bucket warehouse_prefix;
     mret (match c with true => changed ++ [td_name t] | false => changed end)) : M node (list string)) [] tables.
End freshness.
