(* ===== verification/Reidentification.v ===== *)
(** * Re-identification

    [reidentification/mappings.py], [source_lookup.py], [limits.py] and [router.py] with the
    audit record of [observability/audit.py]: an auditor's lookup of the clear text
    behind a token.  Moments are in milliseconds and a date stands for the number of
    its day; latencies, the in-memory ring and logs are left out.  The scrubber of the
    audit channel, whether the audit file can be written, and the source are parameters. *)

From S2P Require Import Prelude PyText Numerals Sha256 Json ArtifactStore World Sources Dialects Snapshots SplitPlanner MirrorState Tokenization Docs Iceberg DeltaLog Freshness LruCache.
From Stdlib Require Import Ascii.

(** ** Mappings *)

Record lookup_mapping := LookupMapping {
  lm_policy_id : string;
  lm_table_id : string;
  lm_column_id : string;
  lm_lookup_column : string;
  lm_clear_text_column : string;
  lm_primary_key_column : string;
}.
#[global] Instance lookup_mapping_eq_dec : EqDecision lookup_mapping.
Proof. solve_decision. Defined.

Definition ident_start (a : ascii) : bool := (is_alnum a && negb (is_digit a)) || Ascii.eqb a "_".
Definition ident_char (a : ascii) : bool := is_alnum a || Ascii.eqb a "_" || Ascii.eqb a "$".

(** [_IDENTIFIER.fullmatch] *)
Definition is_identifier (s : string) : bool :=
  match s with String a s => ident_start a && str_forallb ident_char s | EmptyString => false end.

(** [_identifier] on a text, and on a value of a document *)
Definition identifier (text field : string) : res string :=
  let text := strip text in
  if is_identifier text then Ok text
  else Err (ReidentificationMappingError (fmt [field; " must be a simple SQL identifier"])).
Definition identifier_value (v : json) (field : string) : res string :=
  text ← (if truthy v then py_str v else Ok ""); identifier text field.

(** [LookupMapping.__post_init__] *)
Definition check_mapping (m : lookup_mapping) : res lookup_mapping :=
  if negb (truthy_str (lm_policy_id m)) || has_space (lm_policy_id m)
  then Err (ReidentificationMappingError "policy_id must be non-empty and contain no whitespace")
  else
    identifier (lm_table_id m) "table_id" ≫= fun _ =>
    identifier (lm_column_id m) "column_id" ≫= fun _ =>
    identifier (lm_lookup_column m) "lookup_column" ≫= fun _ =>
    identifier (lm_clear_text_column m) "clear_text_column" ≫= fun _ =>
    identifier (lm_primary_key_column m) "primary_key_column" ≫= fun _ => Ok m.

Definition mapping_forbidden : list string := ["key"; "secret"; "token"; "value"; "sql"; "connection"].

Definition mapping_body (d : dict) : res lookup_mapping :=
  policy_id ← req_str d "policy_id";
  v ← dget_req d "table_id"; table_id ← identifier_value v "table_id";
  v ← dget_req d "column_id"; column_id ← identifier_value v "column_id";
  v ← dget_req d "lookup_column"; lookup_column ← identifier_value v "lookup_column";
  v ← dget_req d "clear_text_column"; clear_text_column ← identifier_value v "clear_text_column";
  v ← dget_req d "primary_key_column"; primary_key_column ← identifier_value v "primary_key_column";
  check_mapping (LookupMapping (strip policy_id) table_id column_id lookup_column clear_text_column primary_key_column).

(** [LookupMapping.from_dict] *)
Definition mapping_from_dict (raw : json) : res lookup_mapping :=
  match raw with
  | JObj d =>
      if existsb (fun k => bool_decide (is_Some (d !! k))) mapping_forbidden
      then Err (ReidentificationMappingError "mapping must not contain secrets, tokens, SQL, or connection details")
      else match mapping_body d with
           | Err (KeyError k) => Err (ReidentificationMappingError (fmt ["mapping is missing "; quoted k]))
           | r => r
           end
  | _ => Err (ReidentificationMappingError "re-identification mapping must be an object")
  end.

Definition mapping_to_public (m : lookup_mapping) : dict :=
  mk_dict [("policy_id", JStr (lm_policy_id m)); ("table_id", JStr (lm_table_id m)); ("column_id", JStr (lm_column_id m));
    ("lookup_column", JStr (lm_lookup_column m)); ("clear_text_column", JStr (lm_clear_text_column m));
    ("primary_key_column", JStr (lm_primary_key_column m))].

(** The mappings in the order of their dictionary, by policy, table and column. *)
Definition mapping_key (m : lookup_mapping) : string * string * string := (lm_policy_id m, lm_table_id m, lm_column_id m).

(** [LookupMappings(mappings)] *)
Fixpoint make_mappings (l acc : list lookup_mapping) : res (list lookup_mapping) :=
  match l with
  | [] => Ok acc
  | m :: l =>
      if bool_decide (mapping_key m ∈ map mapping_key acc)
      then Err (ReidentificationMappingError "duplicate policy/table/column mapping")
      else make_mappings l (acc ++ [m])
  end.

Definition mappings_from_dict (raw : json) : res (list lookup_mapping) :=
  match raw with
  | JObj d =>
      match d !! "mappings" with
      | Some (JList l) => ms ← res_map mapping_from_dict l; make_mappings ms []
      | _ => Err (ReidentificationMappingError "re-identification config must contain a mappings list")
      end
  | _ => Err (ReidentificationMappingError "re-identification config must contain a mappings list")
  end.
Definition mappings_to_dict (ms : list lookup_mapping) : dict :=
  mk_dict [("mappings", JList (map (fun m => JObj (mapping_to_public m)) ms))].

Definition not_configured : exn := ReidentificationMappingError "re-identification mapping is not configured".

(** [get], [replace], [remove] *)
Definition get_mapping (policy_id table_id column_id : string) (ms : list lookup_mapping) : res lookup_mapping :=
  of_option not_configured (snd <$> list_find (fun m => mapping_key m = (policy_id, table_id, column_id)) ms).
Definition replace_mapping (m : lookup_mapping) (ms : list lookup_mapping) : list lookup_mapping :=
  if bool_decide (mapping_key m ∈ map mapping_key ms)
  then map (fun x => if bool_decide (mapping_key x = mapping_key m) then m else x) ms
  else ms ++ [m].
Definition remove_mapping (policy_id table_id column_id : string) (ms : list lookup_mapping) : res (list lookup_mapping) :=
  _ ← get_mapping policy_id table_id column_id ms;
  Ok (filter (fun m => mapping_key m <> (policy_id, table_id, column_id)) ms).

(** The table of a name among the enabled tables: the last one counts. *)
Definition enabled_table (tables : list table_def) (name : string) : option table_def :=
  last (filter (fun t => td_enabled t = true /\ td_name t = name) tables).

(** One turn of the loop of [validate]; a table without a schema has no columns *)
Definition validate_mapping (ps : policies) (tables : list table_def) (m : lookup_mapping) : res unit :=
  p ← get_policy (lm_policy_id m) ps;
  if negb (String.eqb (tk_kind p) "durable_token") || negb (String.eqb (tk_algorithm p) "sha256")
  then Err (ReidentificationMappingError (fmt ["policy "; quoted (lm_policy_id m); " must be an enabled durable sha256 policy"]))
  else match enabled_table tables (lm_table_id m) with
  | None => Err (ReidentificationMappingError (fmt ["mapping table "; quoted (lm_table_id m); " is not an enabled configured table with a schema"]))
  | Some t =>
      match snd <$> list_find (fun c => cd_name c = lm_column_id m) (td_schema t) with
      | Some c =>
          if negb (bool_decide (cd_policy_id c = Some (lm_policy_id m)))
          then Err (ReidentificationMappingError (fmt ["mapping column "; quoted (lm_column_id m); " is not assigned to policy "; quoted (lm_policy_id m)]))
          else if negb (String.eqb (source_name c) (lm_clear_text_column m))
          then Err (ReidentificationMappingError "clear_text_column must match the configured source column")
          else if truthy_opt (td_key_column t) && negb (bool_decide (td_key_column t = Some (lm_primary_key_column m)))
          then Err (ReidentificationMappingError "primary_key_column must match the configured table key_column")
          else Ok tt
      | None => Err (ReidentificationMappingError (fmt ["mapping column "; quoted (lm_column_id m); " is not assigned to policy "; quoted (lm_policy_id m)]))
      end
  end.
Definition validate_mappings (ps : policies) (tables : list table_def) (ms : list lookup_mapping) : res unit :=
  _ ← res_map (validate_mapping ps tables) ms; Ok tt.

(** ** The lookup query *)

Definition TOKEN_PARAMETER : string := "__token_reidentification".
Definition LIMIT_PARAMETER : string := "__reidentification_limit".

(** [_TOKEN.fullmatch] *)
Definition is_token (s : string) : bool :=
  (String.length s =? 64)%nat && str_forallb (fun a => is_digit a || (is_hex a && negb (is_hex_lower a))) s.

(** [_table_for] *)
Definition table_for (tables : list table_def) (m : lookup_mapping) : res table_def :=
  match snd <$> list_find (fun t => td_name t = lm_table_id m) tables with
  | Some t => if td_enabled t then Ok t else Err (ReidentificationMappingError "re-identification mapping table is unavailable")
  | None => Err (ReidentificationMappingError "re-identification mapping table is unavailable")
  end.

Definition build_lookup_query (cfg : source_config) (tables : list table_def) (m : lookup_mapping) (token : string)
  : res (string * list (string * bind_value) * string) :=
  if negb (is_token token) then Err (ReidentificationMappingError "token must be a 64-character uppercase sha256 value")
  else
    table ← table_for tables m;
    let d := get_dialect (effective_db_url cfg (td_connection_id table)) in
    if negb (bool_decide (dialect_name d ∈ ["mssql"; "postgresql"; "oracle"; "databricks"]))
    then Err (ReidentificationMappingError (fmt ["re-identification is not supported for dialect "; quoted (dialect_name d)]))
    else
      let source := quote_qualified d (td_source_table table) in
      let primary_key := quote d (lm_primary_key_column m) in
      let clear_text := quote d (lm_clear_text_column m) in
      let lookup := quote d (lm_lookup_column m) in
      let projected := fmt [primary_key; " AS "; quote d "__reidentify_primary_key"; ", "; clear_text; " AS "; quote d "__reidentify_value"] in
      let predicate := fmt [lookup; " = :"; TOKEN_PARAMETER] in
      let sql :=
        if String.eqb (dialect_name d) "mssql"
        then fmt ["SELECT TOP (:"; LIMIT_PARAMETER; ") "; projected; " FROM "; source; " WHERE "; predicate]
        else if String.eqb (dialect_name d) "oracle"
        then fmt ["SELECT "; projected; " FROM "; source; " WHERE "; predicate; " FETCH FIRST :"; LIMIT_PARAMETER; " ROWS ONLY"]
        else fmt ["SELECT "; projected; " FROM "; source; " WHERE "; predicate; " LIMIT :"; LIMIT_PARAMETER] in
      Ok (sql, [(TOKEN_PARAMETER, BText token); (LIMIT_PARAMETER, BInt 2)], td_connection_id table).

(** ** Quotas *)

Record limiter := Limiter {
  rl_minute : gmap string (list Z);
  rl_day : gmap (string * Z) Z;
}.

Definition DAY_MS : Z := 86400000.
Definition MINUTE_MS : Z := 60000.

(** [while recent and recent[0] <= moment - 60: recent.popleft()] *)
Fixpoint drop_old (moment : Z) (recent : list Z) : list Z :=
  match recent with
  | t :: rest => if t <=? moment - MINUTE_MS then drop_old moment rest else recent
  | [] => []
  end.

(** [RequestLimiter.allow]: the reason of a refusal, or none *)
Definition allow (identity : string) (per_minute per_day moment : Z) (l : limiter) : option string * limiter :=
  if (per_minute <? 1) || (per_day <? 1) then (Some "re-identification quota is not configured", l)
  else
    let day := moment / DAY_MS in
    let recent := drop_old moment (default [] (rl_minute l !! identity)) in
    let pruned := Limiter (<[identity := recent]> (rl_minute l)) (rl_day l) in
    if per_minute <=? Z.of_nat (length recent) then (Some "re-identification minute quota exceeded", pruned)
    else
      let count := default 0 (rl_day l !! (identity, day)) in
      if per_day <=? count
      then (Some "re-identification daily quota exceeded", Limiter (rl_minute pruned) (<[(identity, day) := count]> (rl_day l)))
      else (None, Limiter (<[identity := recent ++ [moment]]> (rl_minute l)) (<[(identity, day) := count + 1]> (rl_day l))).

(** ** The route *)

Record audit_event := AuditEvent {
  ae_request_id : string;
  ae_identity : string;
  ae_method : string;
  ae_status : Z;
  ae_outcome : string;
  ae_reason : string;
  ae_policy_id : string;
  ae_table_id : string;
  ae_column_id : string;
  ae_token_fingerprint : string;
  ae_case_reference : string;
  ae_match_count : option Z;
}.

Record desk := Desk {
  dk_limiter : limiter;
  dk_audit : list audit_event;
  dk_ticks : nat;
}.

Inductive payload :=
| Refused (error : string) (request_id : option string)
| Released (request_id : string) (primary_key value : cell).
Record reply := Reply {
  rp_status : Z;
  rp_payload : payload;
}.

Record reid_config := ReidConfig {
  rc_sources : source_config;
  rc_tables : list table_def;
  rc_mappings : list lookup_mapping;
  REQUESTS_PER_MINUTE : Z;
  REQUESTS_PER_DAY : Z;
  ENABLE_AUDIT_LOG : bool;
  AUDIT_LOG_FILE : string;
}.

(** The scrubber of free text and whether the file takes a line. *)
Class AuditSink := {
  scrub : string -> string;
  audit_writes : nat -> bool;
}.

Section route.
Context `{HEnv : Env} `{HSource : DataSource} `{HSink : AuditSink} (cfg : reid_config).

Definition desk_tick : M desk nat := fun s => (Ok (dk_ticks s), Desk (dk_limiter s) (dk_audit s) (S (dk_ticks s))).

Definition token_fingerprint (token : string) : string := str_take 16 (sha256_hex token).

(** A field that is left out when it is empty. *)
Definition scrub_field (s : string) : string := if truthy_str s then scrub s else "".

(** [audit.record_reidentification] *)
Definition record_reidentification (request_id identity method : string) (status : Z) (outcome reason policy_id table_id column_id
  fingerprint case_reference : string) (match_count : option Z) : M desk unit :=
  if negb (ENABLE_AUDIT_LOG cfg) then raise (AuditUnavailable "re-identification requires ENABLE_AUDIT_LOG=1")
  else if String.eqb (strip (AUDIT_LOG_FILE cfg)) "" then raise (AuditUnavailable "re-identification requires AUDIT_LOG_FILE")
  else
    k ← desk_tick;
    if negb (audit_writes k) then raise (AuditUnavailable "re-identification audit write failed")
    else modify (fun s => Desk (dk_limiter s) (dk_audit s ++ [AuditEvent request_id (str_or identity "-") method status (scrub outcome)
           (scrub reason) (scrub_field policy_id) (scrub_field table_id) (scrub_field column_id) (scrub_field fingerprint)
           (scrub_field case_reference) match_count]) (dk_ticks s)).

(** What a request is about. *)
Record asked := Asked {
  as_request_id : string;
  as_user_id : string;
  as_method : string;
  as_policy_id : string;
  as_table_id : string;
  as_column_id : string;
}.

(** [_audit_response]; without a payload it is the answer that says nothing *)
Definition audit_response (q : asked) (status : Z) (outcome reason token case_reference : string) (match_count : option Z)
  (answer : option payload) : M desk reply :=
  catch
    (record_reidentification (as_request_id q) (as_user_id q) (as_method q) status outcome reason (as_policy_id q) (as_table_id q)
       (as_column_id q) (if truthy_str token then token_fingerprint token else "") case_reference match_count;;
     mret (Reply status (default (Refused "not_found_or_ambiguous" (Some (as_request_id q))) answer)))
    (fun e => match e with
              | AuditUnavailable _ => mret (Reply 503 (Refused "audit service unavailable" None))
              | e => raise e
              end).

Definition REASON_CODES : list string := ["audit"; "investigation"; "legal_hold"].

(** [_CASE_REFERENCE.fullmatch]: one to 128 printable characters *)
Definition is_case_reference (s : string) : bool :=
  ((1 <=? String.length s) && (String.length s <=? 128))%nat && str_forallb (fun a => let n := N_of_ascii a in N.leb 32 n && N.leb n 126) s.

Definition invalid_request : exn := ReidentificationMappingError "invalid re-identification request".

(** The three texts of the request body; [None] is a body that is no JSON. *)
Definition read_body (body : option json) : res (string * string * string) :=
  match body with
  | Some (JObj d) =>
      if negb (bool_decide (dom d = ({["token"; "reason_code"; "case_reference"]} : gset string))) then Err invalid_request
      else
        token ← req_str d "token"; reason_code ← req_str d "reason_code"; case_reference ← req_str d "case_reference";
        Ok (token, reason_code, case_reference)
  | Some _ => Err invalid_request
  | None => Err (ValueError "JSONDecodeError")
  end.

(** The rest of the [try]: the checks, the mapping and the bounded query. *)
Definition find_rows (q : asked) (token reason_code case_reference : string) : M desk (list row) :=
  if negb (bool_decide (reason_code ∈ REASON_CODES)) || negb (is_case_reference case_reference) then raise invalid_request
  else
    m ← lift (get_mapping (as_policy_id q) (as_table_id q) (as_column_id q) (rc_mappings cfg));
    sql ← lift (build_lookup_query (rc_sources cfg) (rc_tables cfg) m token);
    k ← desk_tick;
    lift (execute_split_query k sql.1.1 sql.1.2 (-1) sql.2).

(** The answer to an exception of the [try]. *)
Definition failed (q : asked) (token case_reference : string) (e : exn) : M desk reply :=
  match e with
  | ReidentificationMappingError _ | TokenizationPolicyError _ | ValueError _ | TypeError _ =>
      audit_response q 400 "invalid_request" "invalid request or mapping" token case_reference None None
  | Unmodelled _ => raise e
  | _ => audit_response q 503 "source_failure" "source lookup unavailable" token case_reference None None
  end.

(** A computation with its exception as a value. *)
Definition attempt {A} (m : M desk A) : M desk (res A) := fun s => (Ok (m s).1, (m s).2).

Definition lookup (user_id method policy_id table_id column_id : string) (body : option json) : M desk reply :=
  k ← desk_tick;
  let q := Asked (token k) user_id method policy_id table_id column_id in
  k ← desk_tick;
  refusal ← (fun s => let '(r, l) := allow user_id (REQUESTS_PER_MINUTE cfg) (REQUESTS_PER_DAY cfg) (clock k) (dk_limiter s) in
             (Ok r, Desk l (dk_audit s) (dk_ticks s)));
  match refusal with
  | Some reason => audit_response q 429 "rate_limited" reason "" "" None (Some (Refused "request limit exceeded" (Some (as_request_id q))))
  | None =>
      match read_body body with
      | Err e => failed q "" "" e
      | Ok (tok, reason_code, case_reference) =>
          found ← attempt (find_rows q tok reason_code case_reference);
          match found with
          | Err e => failed q tok case_reference e
          | Ok [result] =>
              primary_key ← lift (of_option (KeyError "__reidentify_primary_key") (result !! "__reidentify_primary_key"));
              value ← lift (of_option (KeyError "__reidentify_value") (result !! "__reidentify_value"));
              audit_response q 200 "success" reason_code tok case_reference (Some 1) (Some (Released (as_request_id q) primary_key value))
          | Ok rows =>
              audit_response q 404 "not_found_or_ambiguous" "lookup did not produce one result" tok case_reference
                (Some (Z.of_nat (length rows))) None
          end
      end
  end.
End route.
