(* ===== verification/ReidentificationProps.v ===== *)
(** * Re-identification: audited releases within the quotas

    No clear text leaves without a durable audit record, and nobody exceeds the quotas of the
    rolling minute and of the day. *)

From S2P Require Import Prelude PyText Numerals Sha256 Json ArtifactStore World Sources Dialects Snapshots SplitPlanner MirrorState Tokenization Docs Iceberg DeltaLog Freshness LruCache Reidentification.
From Stdlib Require Import Ascii Sorted.

Section audited.
Context `{HEnv : Env} `{HSource : DataSource} `{HSink : AuditSink} (cfg : reid_config).

(** The event of an answer. *)
Definition event_of (q : asked) (status : Z) (outcome reason token case_reference : string) (match_count : option Z) : audit_event :=
  AuditEvent (as_request_id q) (str_or (as_user_id q) "-") (as_method q) status (scrub outcome) (scrub reason) (scrub_field (as_policy_id q))
    (scrub_field (as_table_id q)) (scrub_field (as_column_id q))
    (scrub_field (if truthy_str token then token_fingerprint token else "")) (scrub_field case_reference) match_count.

(** An answer with its record, or the refusal without one. *)
Definition unavailable : reply := Reply 503 (Refused "audit service unavailable" None).

Lemma audit_response_run q status outcome reason token case_reference match_count answer s : exists s',
  (audit_response cfg q status outcome reason token case_reference match_count answer s =
     (Ok (Reply status (default (Refused "not_found_or_ambiguous" (Some (as_request_id q))) answer)), s') /\
   dk_audit s' = dk_audit s ++ [event_of q status outcome reason token case_reference match_count]) \/
  (audit_response cfg q status outcome reason token case_reference match_count answer s = (Ok unavailable, s') /\ dk_audit s' = dk_audit s).
Proof.
  unfold audit_response, record_reidentification, catch.
  destruct (negb (ENABLE_AUDIT_LOG cfg)); [exists s; by right|]. destruct (String.eqb _ _); [exists s; by right|].
  unfold mbind, M_bind. cbn [desk_tick]. destruct (negb (audit_writes (dk_ticks s))); eexists; [right|left]; by split.
Qed.

(** What a run leaves: one record that carries the status of the answer and its user, or the refusal. *)
Definition audited (user_id : string) (s s' : desk) (r : reply) : Prop :=
  (exists ev, dk_audit s' = dk_audit s ++ [ev] /\ ae_status ev = rp_status r /\ ae_identity ev = str_or user_id "-") \/
  (dk_audit s' = dk_audit s /\ r = unavailable).

Lemma audit_response_audited q status outcome reason token case_reference match_count answer s r s' :
  audit_response cfg q status outcome reason token case_reference match_count answer s = (Ok r, s') -> audited (as_user_id q) s s' r.
Proof.
  intros H. destruct (audit_response_run q status outcome reason token case_reference match_count answer s) as (s1 & [[E Ha]|[E Ha]]);
    rewrite E in H; injection H as <- <-; [left|by right]. eexists. split; [exact Ha|]. done.
Qed.

(** Without a value to release, none is released. *)
Lemma audit_response_silent q status outcome reason token case_reference match_count answer s r s' :
  audit_response cfg q status outcome reason token case_reference match_count answer s = (Ok r, s') ->
  (forall rid pk v, answer <> Some (Released rid pk v)) -> forall rid pk v, rp_payload r <> Released rid pk v.
Proof.
  intros H Ha rid pk v. destruct (audit_response_run q status outcome reason token case_reference match_count answer s) as (s1 & [[E _]|[E _]]);
    rewrite E in H; injection H as <- <-; [|discriminate]. cbn [rp_payload]. destruct answer as [p|]; [|discriminate]. cbn. intros ->. by apply (Ha rid pk v).
Qed.

Lemma failed_silent q token case_reference e s r s' :
  failed cfg q token case_reference e s = (Ok r, s') -> audited (as_user_id q) s s' r /\ forall rid pk v, rp_payload r <> Released rid pk v.
Proof.
  intros H. assert (exists status outcome reason, audit_response cfg q status outcome reason token case_reference None None s = (Ok r, s'))
    as (status & outcome & reason & E) by (destruct e; try discriminate H; by eexists _, _, _).
  split; [by eapply audit_response_audited|]. by eapply audit_response_silent.
Qed.

Lemma find_rows_keeps q tok reason case_reference s : dk_audit (find_rows cfg q tok reason case_reference s).2 = dk_audit s.
Proof.
  unfold find_rows. destruct (_ || _); [done|]. unfold mbind, M_bind, lift. destruct (get_mapping _ _ _ _); [|done].
  destruct (build_lookup_query _ _ _ _); [|done]. done.
Qed.

Lemma find_rows_run q tok reason case_reference s rows s' : find_rows cfg q tok reason case_reference s = (Ok rows, s') ->
  reason ∈ REASON_CODES /\ exists m sql k, get_mapping (as_policy_id q) (as_table_id q) (as_column_id q) (rc_mappings cfg) = Ok m /\
    build_lookup_query (rc_sources cfg) (rc_tables cfg) m tok = Ok sql /\ execute_split_query k sql.1.1 sql.1.2 (-1) sql.2 = Ok rows.
Proof.
  unfold find_rows. case_bool_decide as Hr; [|done]. destruct (negb (is_case_reference _)); [done|]. cbn [negb orb]. intros H. run_Ok H.
  apply lift_Ok in H as [H _]. split; [done|]. by eexists _, _, _.
Qed.

(** C34: Clear text is released only with an audit record.  Whatever is asked and whatever the source
    and the audit file do: every answer of the route has left exactly one record, with its
    status and its user, or is the refusal "audit service unavailable" that releases
    nothing.  An answer that releases a value has status 200; its reason is an approved one,
    its mapping is configured for the policy, table and column asked for, the token went to
    the source as a bound value, the source returned exactly one row, and the record
    carries the reason and the fingerprint of the token. *)
Theorem release_is_audited user_id method policy_id table_id column_id body s r s' :
  lookup cfg user_id method policy_id table_id column_id body s = (Ok r, s') ->
  audited user_id s s' r /\
  forall rid pk v, rp_payload r = Released rid pk v ->
    rp_status r = 200 /\
    exists tok reason case_reference m sql conn k found,
      read_body body = Ok (tok, reason, case_reference) /\ reason ∈ REASON_CODES /\
      get_mapping policy_id table_id column_id (rc_mappings cfg) = Ok m /\
      build_lookup_query (rc_sources cfg) (rc_tables cfg) m tok = Ok (sql, [(TOKEN_PARAMETER, BText tok); (LIMIT_PARAMETER, BInt 2)], conn) /\
      execute_split_query k sql [(TOKEN_PARAMETER, BText tok); (LIMIT_PARAMETER, BInt 2)] (-1) conn = Ok [found] /\
      found !! "__reidentify_primary_key" = Some pk /\ found !! "__reidentify_value" = Some v /\
      dk_audit s' = dk_audit s ++ [event_of (Asked rid user_id method policy_id table_id column_id) 200 "success" reason tok case_reference (Some 1)].
Proof.
  unfold lookup. intros H. apply fbind_Ok in H as (k & s1 & E1 & H). apply fbind_Ok in H as (k2 & s2 & E2 & H).
  apply fbind_Ok in H as (refusal & s3 & E3 & H).
  set (q := Asked (token k) user_id method policy_id table_id column_id) in *.
  assert (dk_audit s3 = dk_audit s) as Hs3.
  { injection E1 as <- <-. injection E2 as <- <-. cbn [dk_limiter dk_audit dk_ticks] in E3.
    destruct (allow _ _ _ _ _) as [a l]. injection E3 as <- <-. done. }
  unfold audited. rewrite <- Hs3. destruct refusal as [why|].
  { split; [by apply audit_response_audited in H|]. intros rid pk v Hv. by apply (audit_response_silent _ _ _ _ _ _ _ _ _ _ _ H) in Hv. }
  destruct (read_body body) as [[[tok reason] case_reference]|e].
  2: { apply failed_silent in H as [H Hne]. split; [exact H|]. intros rid pk v Hv. by apply Hne in Hv. }
  apply fbind_Ok in H as (found & s4 & E4 & H). unfold attempt in E4. injection E4 as E4 Es4.
  pose proof (find_rows_keeps q tok reason case_reference s3) as Hs4. rewrite Es4 in Hs4. rewrite <- Hs4.
  destruct found as [rows|e]. 2: { apply failed_silent in H as [H Hne]. split; [exact H|]. intros rid pk v Hv. by apply Hne in Hv. }
  destruct rows as [|row [|row2 rest]]; try (split; [by apply audit_response_audited in H|]; intros rid pk v Hv;
    by apply (audit_response_silent _ _ _ _ _ _ _ _ _ _ _ H) in Hv).
  assert (find_rows cfg q tok reason case_reference s3 = (Ok [row], s4)) as Hfind by (rewrite (surjective_pairing (find_rows _ _ _ _ _ _)); congruence).
  apply find_rows_run in Hfind as (Hr & m & sql & k' & Hm & Hq & Hx). run_Ok H.
  split; [by apply audit_response_audited in H|]. intros rid pk v Hv.
  destruct (audit_response_run q 200 "success" reason tok case_reference (Some 1) (Some (Released (as_request_id q) a a0)) s4) as (s5 & [[E' Ha]|[E' _]]);
    rewrite E' in H; injection H as <- <-; [|discriminate Hv]. injection Hv as <- <- <-. split; [done|].
  assert (exists text conn, sql = (text, [(TOKEN_PARAMETER, BText tok); (LIMIT_PARAMETER, BInt 2)], conn)) as (text & conn & ->).
  { clear -Hq. unfold build_lookup_query in Hq. destruct (negb _); [done|]. invert_Ok Hq. destruct (negb _); [done|]. injection Hq as <-. by eexists _, _. }
  exists tok, reason, case_reference, m, text, conn, k', row. destruct (row !! "__reidentify_primary_key"); [|discriminate E]. destruct (row !! "__reidentify_value"); [|discriminate E0].
  cbn [of_option] in E, E0. split_and!; try done; congruence.
Qed.
End audited.

(** ** Quotas *)

Section quotas.
Context (per_minute per_day : Z).

(** The requests (user and moment) that are let through, in order. *)
Fixpoint let_through (requests : list (string * Z)) (l : limiter) : list (string * Z) :=
  match requests with
  | [] => []
  | (user, t) :: requests =>
      match allow user per_minute per_day t l with
      | (None, l) => (user, t) :: let_through requests l
      | (Some _, l) => let_through requests l
      end
  end.

(** The moments of a user. *)
Definition moments (user : string) (acc : list (string * Z)) : list Z := map snd (filter (fun r => r.1 = user) acc).

(** What the limiter knows of the requests let through up to [now]. *)
Definition tracks (acc : list (string * Z)) (now : Z) (l : limiter) : Prop :=
  forall user,
    (exists old, moments user acc = old ++ default [] (rl_minute l !! user) /\ Forall (fun t => t <= now - MINUTE_MS) old) /\
    forall day, default 0 (rl_day l !! (user, day)) = Z.of_nat (length (filter (fun t => t / DAY_MS = day) (moments user acc))).

Definition within (acc : list (string * Z)) : Prop :=
  forall user,
    (forall T, Z.of_nat (length (filter (fun t => T - MINUTE_MS < t <= T) (moments user acc))) <= Z.max 0 per_minute) /\
    (forall day, Z.of_nat (length (filter (fun t => t / DAY_MS = day) (moments user acc))) <= Z.max 0 per_day).

Lemma moments_snoc user acc u t : moments user (acc ++ [(u, t)]) = moments user acc ++ (if decide (u = user) then [t] else []).
Proof. unfold moments. rewrite filter_app, map_app. f_equal. rewrite filter_cons. cbn [fst]. by case_decide. Qed.

Lemma drop_old_split now recent : exists old, recent = old ++ drop_old now recent /\ Forall (fun t => t <= now - MINUTE_MS) old.
Proof.
  induction recent as [|t rest (old & E & Hold)]; [by exists []|]. cbn [drop_old]. destruct (Z.leb_spec t (now - MINUTE_MS)).
  - exists (t :: old). cbn. rewrite <- E. split; [done|]. by constructor.
  - by exists [].
Qed.

Lemma tracks_drop acc now t l user : tracks acc now l -> now <= t ->
  exists old, moments user acc = old ++ drop_old t (default [] (rl_minute l !! user)) /\ Forall (fun x => x <= t - MINUTE_MS) old.
Proof.
  intros H Hle. destruct (H user) as [(old & E & Hold) _]. destruct (drop_old_split t (default [] (rl_minute l !! user))) as (old2 & E2 & Hold2).
  exists (old ++ old2). rewrite E, E2 at 1. split; [by rewrite <- app_assoc|]. apply Forall_app. split; [|done].
  eapply Forall_impl; [exact Hold|]. cbn. lia.
Qed.

(** The rolling window after a request that is let through. *)
Lemma window_snoc acc now t l user T : tracks acc now l -> now <= t ->
  Z.of_nat (length (drop_old t (default [] (rl_minute l !! user)))) < per_minute ->
  Z.of_nat (length (filter (fun x => T - MINUTE_MS < x <= T) (moments user acc))) <= Z.max 0 per_minute ->
  Z.of_nat (length (filter (fun x => T - MINUTE_MS < x <= T) (moments user acc ++ [t]))) <= Z.max 0 per_minute.
Proof.
  intros H Hle Hlt Hw. rewrite filter_app, length_app. destruct (Z.lt_ge_cases T t) as [Hb|Ha].
  - rewrite (filter_cons_False _ t) by lia. cbn. lia.
  - destruct (tracks_drop acc now t l user H Hle) as (old & E & Hold). rewrite E, filter_app, length_app.
    assert (filter (fun x => T - MINUTE_MS < x <= T) old = []) as ->.
    { clear -Hold Ha. induction Hold as [|x old Hx _ IH]; [done|]. rewrite filter_cons_False by lia. exact IH. }
    pose proof (length_filter (fun x => T - MINUTE_MS < x <= T) (drop_old t (default [] (rl_minute l !! user)))) as Hl1.
    pose proof (length_filter (fun x => T - MINUTE_MS < x <= T) [t]) as Hl2. cbn [length] in *. lia.
Qed.

Lemma allow_step acc now t l user r l' : tracks acc now l -> within acc -> now <= t -> allow user per_minute per_day t l = (r, l') ->
  match r with Some _ => tracks acc t l' | None => tracks (acc ++ [(user, t)]) t l' /\ within (acc ++ [(user, t)]) end.
Proof.
  intros Ht Hw Hle. unfold allow. destruct ((per_minute <? 1) || (per_day <? 1)) eqn:Hconf.
  { intros [= <- <-]. intros u. destruct (Ht u) as [(old & E & Hold) Hd]. split; [|done]. exists old. split; [done|]. eapply Forall_impl; [exact Hold|]. cbn. lia. }
  cbv zeta. set (recent := drop_old t (default [] (rl_minute l !! user))).
  assert (forall u, exists old, moments u acc = old ++ default [] (<[user := recent]> (rl_minute l) !! u) /\ Forall (fun x => x <= t - MINUTE_MS) old) as Hpr.
  { intros u. destruct (decide (u = user)) as [->|Hne].
    - rewrite lookup_insert_eq. by apply tracks_drop with (now := now).
    - rewrite lookup_insert_ne by done. destruct (Ht u) as [(old & E & Hold) _]. exists old. split; [done|]. eapply Forall_impl; [exact Hold|]. cbn. lia. }
  destruct (Z.leb_spec per_minute (Z.of_nat (length recent))) as [Hfull|Hroom].
  { intros [= <- <-]. intros u. cbn [rl_minute rl_day]. split; [apply Hpr|apply Ht]. }
  destruct (Z.leb_spec per_day (default 0 (rl_day l !! (user, t / DAY_MS)))) as [Hday|Hday].
  { intros [= <- <-]. intros u. cbn [rl_minute rl_day]. split; [apply Hpr|]. intros day. rewrite <- (proj2 (Ht u) day).
    destruct (decide ((user, t / DAY_MS) = (u, day))) as [E|Hne]; [rewrite E, lookup_insert_eq; by rewrite <- E|by rewrite lookup_insert_ne]. }
  intros [= <- <-]. apply orb_false_iff in Hconf as [Hpm%Z.ltb_ge Hpd%Z.ltb_ge]. split.
  - intros u. cbn [rl_minute rl_day]. rewrite moments_snoc. case_decide as Hu; [subst u|].
    + rewrite lookup_insert_eq. destruct (tracks_drop acc now t l user Ht Hle) as (old & E & Hold). split.
      * exists old. cbn [default from_option id]. rewrite E. fold recent. by rewrite app_assoc.
      * intros day. rewrite filter_app, length_app. destruct (decide (t / DAY_MS = day)) as [<-|Hne].
        -- rewrite lookup_insert_eq, filter_cons_True by done. cbn [default from_option id length]. rewrite (proj2 (Ht user)). cbn. lia.
        -- rewrite lookup_insert_ne by congruence. rewrite filter_cons_False by done. rewrite (proj2 (Ht user)). cbn. lia.
    + rewrite lookup_insert_ne, app_nil_r by congruence. destruct (Ht u) as [(old & E & Hold) Hd]. split.
      * exists old. split; [done|]. eapply Forall_impl; [exact Hold|]. cbn. lia.
      * intros day. rewrite lookup_insert_ne by congruence. apply Hd.
  - intros u. rewrite moments_snoc. case_decide as Hu; [subst u|rewrite app_nil_r; apply Hw]. split.
    + intros T. by apply (window_snoc acc now t l user T Ht Hle Hroom), Hw.
    + intros day. rewrite filter_app, length_app. destruct (decide (t / DAY_MS = day)) as [<-|Hne].
      * rewrite filter_cons_True by done. rewrite (proj2 (Ht user)) in Hday. cbn. lia.
      * rewrite filter_cons_False by done. pose proof (proj2 (Hw user) day). cbn. lia.
Qed.

Lemma let_through_within requests : forall acc now l, tracks acc now l -> within acc -> StronglySorted Z.le (now :: map snd requests) ->
  within (acc ++ let_through requests l).
Proof.
  induction requests as [|[user t] requests IH]; intros acc now l Ht Hw Hs; cbn [let_through]; [by rewrite app_nil_r|].
  cbn [map snd] in Hs. apply StronglySorted_inv in Hs as [Hs Hle]. apply Forall_cons in Hle as [Hle _].
  destruct (allow user per_minute per_day t l) as [[why|] l'] eqn:E; pose proof (allow_step acc now t l user _ l' Ht Hw Hle E) as Hstep; cbn in Hstep.
  - by eapply IH.
  - destruct Hstep as [Ht' Hw']. change ((user, t) :: let_through requests l') with ([(user, t)] ++ let_through requests l'). rewrite app_assoc. by eapply IH.
Qed.
End quotas.

(** C35: The quotas hold.  For requests in the order of their moments, from any users: of the requests
    let through, those of one user in any minute, wherever it begins, are at most the quota of
    the minute, and those of one user on one day at most the quota of the day; and with
    a quota below one nothing is let through. *)
Theorem reidentification_quotas_hold per_minute per_day requests :
  StronglySorted Z.le (map snd requests) ->
  let through := let_through per_minute per_day requests (Limiter ∅ ∅) in
  (forall user T, Z.of_nat (length (filter (fun t => T - 60000 < t <= T) (moments user through))) <= Z.max 0 per_minute) /\
  (forall user day, Z.of_nat (length (filter (fun t => t / 86400000 = day) (moments user through))) <= Z.max 0 per_day).
Proof.
  intros Hs through. assert (within per_minute per_day through) as Hw.
  { unfold through. destruct requests as [|[u t] rest]; [intros user; cbn; split; intros; lia|].
    refine (let_through_within per_minute per_day ((u, t) :: rest) [] t (Limiter ∅ ∅) _ _ _).
    - intros user. cbn [rl_minute rl_day]. rewrite lookup_empty. split; [by exists []|]. intros day. by rewrite lookup_empty.
    - intros user. cbn. split; intros; lia.
    - cbn [map snd]. cbn [map snd] in Hs. constructor; [exact Hs|]. apply StronglySorted_inv in Hs as [_ Hs]. constructor; [lia|exact Hs]. }
  split; intros user; apply Hw.
Qed.

(** *** Worked cases *)

Definition vault_mapping : lookup_mapping := LookupMapping "email" "t" "email" "email_token" "email" "id".
Definition vault_table : table_def := TableDef "t" "crm.people" [email_column] 1 (Some "id") "" None None None None None None true.
Definition vault_sources : source_config :=
  SourceConfig "postgresql://h/db" 1000 ∅ 8 "modulo" "span" 100000 0 0 1 256 0 true "none" (fun _ => None) false (fun _ => None).
Definition vault : reid_config := ReidConfig vault_sources [vault_table] [vault_mapping] 2 5 true "/var/log/audit.jsonl".
Definition vault_token : string := String.concat "" (replicate 64 "A").
Definition vault_source : DataSource := {|
  execute_split_query _ _ _ _ _ := Ok [{["__reidentify_primary_key" := CInt 7; "__reidentify_value" := CText "ada"]}];
  execute_scalar _ _ _ _ := Ok None;
  rows_to_parquet _ _ _ _ := Ok "PAR1";
  collect_split_stats _ _ := Ok ∅;
|}.
Definition vault_sink : AuditSink := {| scrub s := s; audit_writes _ := true |}.
Definition vault_env : Env := {| clock n := Z.of_nat n; token n := "r" |}.
#[local] Existing Instance vault_source.
#[local] Existing Instance vault_sink.
#[local] Existing Instance vault_env.
Definition vault_body : option json :=
  Some (JObj (mk_dict [("token", JStr vault_token); ("reason_code", JStr "audit"); ("case_reference", JStr "C-1")])).
Definition open_desk : desk := Desk (Limiter ∅ ∅) [] 0.
Definition vault_run : res reply * desk := lookup vault "eve" "POST" "email" "t" "email" vault_body open_desk.

Lemma release_is_audited_witness :
  exists tok reason case_reference, read_body vault_body = Ok (tok, reason, case_reference) /\
    dk_audit vault_run.2 = [event_of (Asked "r" "eve" "POST" "email" "t" "email") 200 "success" reason tok case_reference (Some 1)].
Proof.
  pose proof (release_is_audited vault "eve" "POST" "email" "t" "email" vault_body open_desk (Reply 200 (Released "r" (CInt 7) (CText "ada"))) vault_run.2) as H.
  destruct H as [_ H].
  - vm_compute. reflexivity.
  - destruct (H "r" (CInt 7) (CText "ada") eq_refl) as (_ & tok & reason & cr & m & sql & conn & k & found & Hb & _ & _ & _ & _ & _ & _ & Ha).
    exists tok, reason, cr. split; [exact Hb|exact Ha].
Defined.

Lemma reidentification_quotas_hold_witness :
  Z.of_nat (length (filter (fun t => 60000 - 60000 < t <= 60000)
    (moments "eve" (let_through 2 5 [("eve", 1); ("eve", 2); ("eve", 3); ("ada", 3); ("eve", 60002)] (Limiter ∅ ∅))))) <= 2 /\
  let_through 2 5 [("eve", 1); ("eve", 2); ("eve", 3); ("ada", 3); ("eve", 60002)] (Limiter ∅ ∅) = [("eve", 1); ("eve", 2); ("ada", 3); ("eve", 60002)].
Proof.
  split; [|vm_compute; reflexivity].
  apply (reidentification_quotas_hold 2 5 [("eve", 1); ("eve", 2); ("eve", 3); ("ada", 3); ("eve", 60002)]).
  cbn [map snd]. repeat constructor; lia.
Defined.

(** A day that is over keeps its counter: the number of counters grows with the days. *)
Example day_counters_stay :
  let days := map (fun d => ("eve", Z.of_nat d * DAY_MS)) (seq 0 30) in
  length (map_to_list (rl_day (foldl (fun l r => (allow r.1 2 5 r.2 l).2) (Limiter ∅ ∅) days))) = 30%nat.
Proof. vm_compute. reflexivity. Qed.
