(* ===== verification/DeltaProps.v ===== *)
(** * The Delta log describes the current version

    A Delta reader fetches the commits in order and replays their [add] and [remove]
    actions.  Whatever an Agent does in between (publish, advance, list, invalidate,
    change its caches, fill in sizes), what the reader finds is the set of files of the
    current version of the table. *)

From S2P Require Import Prelude PyText Numerals Sha256 Json Docs ArtifactStore World Sources Dialects Md5 LruCache Snapshots SplitPlanner Iceberg DeltaLog Freshness.
From Stdlib Require Import Ascii Sorted.

(** ** The reader *)

Definition action_path (kind : string) (a : doc) : option string :=
  match a with
  | DObj [(k, DObj m)] =>
      if String.eqb k kind then match odict_get "path" m with Some (DStr p) => Some p | _ => None end else None
  | _ => None
  end.
Definition added (actions : list doc) : gset string := list_to_set (omap (action_path "add") actions).
Definition removed (actions : list doc) : gset string := list_to_set (omap (action_path "remove") actions).

(** A commit that adds and removes the same file is refused: its meaning would depend on
    the order of its actions. *)
Definition replay_commit (files : gset string) (actions : list doc) : option (gset string) :=
  if decide (added actions ∩ removed actions = ∅) then Some ((files ∖ removed actions) ∪ added actions) else None.
Definition replay_from (o : option (gset string)) (commits : list (list doc)) : option (gset string) :=
  foldl (fun o actions => o ≫= fun files => replay_commit files actions) o commits.
Definition replay (commits : list (list doc)) : option (gset string) := replay_from (Some ∅) commits.

Definition path_set (files : list file_entry) : gset string := list_to_set (paths files).

(** ** What a commit adds and removes *)

Lemma added_adds (ts : Z) files : omap (action_path "add") (map (fun f : file_entry => add_action f.1.1 f.1.2 f.2 ts) files) = paths files.
Proof. induction files as [|f files IH]; [done|]. cbn. by rewrite IH. Qed.
Lemma removed_adds (ts : Z) files : omap (action_path "remove") (map (fun f : file_entry => add_action f.1.1 f.1.2 f.2 ts) files) = [].
Proof. induction files as [|f files IH]; [done|]. cbn. by rewrite IH. Qed.
Lemma added_removes (ts : Z) files : omap (action_path "add") (map (fun f : file_entry => remove_action f.1.1 f.1.2 ts) files) = [].
Proof. induction files as [|f files IH]; [done|]. cbn. by rewrite IH. Qed.
Lemma removed_removes (ts : Z) files : omap (action_path "remove") (map (fun f : file_entry => remove_action f.1.1 f.1.2 ts) files) = paths files.
Proof. induction files as [|f files IH]; [done|]. cbn. by rewrite IH. Qed.

(** The paths outside another version. *)
Lemma paths_filter files other (D : forall f : file_entry, Decision (f.1.1 ∉ paths other)) :
  (list_to_set (paths (@filter _ _ _ (fun f : file_entry => f.1.1 ∉ paths other) D files)) : gset string) = path_set files ∖ path_set other.
Proof.
  unfold path_set, paths. induction files as [|f files IH]; [set_solver|].
  rewrite filter_cons. destruct (decide _) as [H|H]; cbn [map list_to_set]; set_solver.
Qed.

Lemma create_added s ts files :
  added (create_actions s ++ map (fun f : file_entry => add_action f.1.1 f.1.2 f.2 ts) files) = path_set files /\
  removed (create_actions s ++ map (fun f : file_entry => add_action f.1.1 f.1.2 f.2 ts) files) = ∅.
Proof.
  unfold added, removed. rewrite !omap_app, added_adds, removed_adds. split; [|done].
  change (omap (action_path "add") (create_actions s)) with (@nil string). done.
Qed.

Lemma diff_added s op ts prev files :
  added (commit_info_action s op :: diff_actions ts prev files) = path_set files ∖ path_set prev /\
  removed (commit_info_action s op :: diff_actions ts prev files) = path_set prev ∖ path_set files.
Proof.
  assert (forall kind, kind = "add" \/ kind = "remove" -> omap (action_path kind) (commit_info_action s op :: diff_actions ts prev files)
    = omap (action_path kind) (diff_actions ts prev files)) as Hc by (by intros kind [-> | ->]).
  unfold added, removed. rewrite !Hc by auto. unfold diff_actions.
  rewrite !omap_app, added_adds, removed_adds, added_removes, removed_removes, app_nil_r, app_nil_l.
  by rewrite !paths_filter.
Qed.

Lemma no_diff ts prev files : diff_actions ts prev files = [] -> path_set prev = path_set files.
Proof.
  unfold diff_actions. intros [Ha%map_eq_nil Hr%map_eq_nil]%app_eq_nil.
  apply (f_equal (fun l => list_to_set (paths l) : gset string)) in Ha, Hr.
  rewrite paths_filter in Ha, Hr. apply (anti_symm (⊆)); by apply empty_difference_subseteq_L.
Qed.

Lemma replay_snoc commits actions : replay (commits ++ [actions]) = replay commits ≫= fun files => replay_commit files actions.
Proof. unfold replay, replay_from. by rewrite foldl_app. Qed.

(** ** One version, and all of a history *)

Definition commits_of (lg : delta_log) (name : string) : list string := default [] (dl_commits lg !! name).
Definition prev_of (lg : delta_log) (name : string) : list file_entry := default [] (dl_prev_files lg !! name).
Definition committed_of (lg : delta_log) (name : string) : Z := default 0 (dl_committed_version lg !! name).

(** The commits of a table are texts of actions that replay to the files recorded last. *)
Definition table_logged (lg : delta_log) (name : string) : Prop :=
  exists actions, commits_of lg name = map commit_text actions /\ replay actions = Some (path_set (prev_of lg name)).

(** Nothing changed for the table. *)
Definition same_table (lg lg' : delta_log) (name : string) : Prop :=
  commits_of lg' name = commits_of lg name /\ prev_of lg' name = prev_of lg name /\ committed_of lg' name = committed_of lg name.

Lemma same_table_refl lg name : same_table lg lg name.
Proof. done. Qed.
Lemma same_table_trans lg1 lg2 lg3 name : same_table lg1 lg2 name -> same_table lg2 lg3 name -> same_table lg1 lg3 name.
Proof. unfold same_table. intros (-> & -> & ->). naive_solver congruence. Qed.

Lemma replay_commit_disjoint files actions (a r : gset string) :
  added actions = a -> removed actions = r -> a ## r -> replay_commit files actions = Some ((files ∖ r) ∪ a).
Proof. intros <- <- Hd. unfold replay_commit. rewrite decide_True; [done|]. by apply disjoint_intersection_L. Qed.

Lemma replay_create s ts files :
  replay [create_actions s ++ map (fun f : file_entry => add_action f.1.1 f.1.2 f.2 ts) files] = Some (path_set files).
Proof.
  destruct (create_added s ts files) as [Ha Hr]. unfold replay, replay_from. cbn [foldl mbind option_bind].
  rewrite (replay_commit_disjoint _ _ _ _ Ha Hr) by apply disjoint_empty_r. f_equal.
  by rewrite difference_empty_L, union_empty_l_L.
Qed.

Lemma replay_write s ts prev files :
  replay_commit (path_set prev) (commit_info_action s "WRITE" :: diff_actions ts prev files) = Some (path_set files).
Proof.
  destruct (diff_added s "WRITE" ts prev files) as [Ha Hr]. rewrite (replay_commit_disjoint _ _ _ _ Ha Hr).
  all: generalize (path_set prev), (path_set files); intros P F.
  2: set_solver.
  f_equal. apply set_eq. intros x. destruct (decide (x ∈ P)), (decide (x ∈ F)); set_solver.
Qed.

(** Registering a newer version. *)
Lemma register_spec s lg : let name := td_name (ss_table s) in
  table_logged lg name -> committed_of lg name < ss_version s ->
  table_logged (register s lg) name /\ committed_of (register s lg) name = ss_version s /\
  path_set (prev_of (register s lg) name) = path_set (snapshot_files s) /\
  commits_of lg name `prefix_of` commits_of (register s lg) name /\
  (forall other, other <> name -> same_table lg (register s lg) other).
Proof.
  intros name (actions & Hc & Hr) Hv. unfold register. fold name. unfold committed_of in Hv.
  destruct (Z.leb_spec (ss_version s) (default 0 (dl_committed_version lg !! name))); [lia|].
  fold (commits_of lg name). fold (prev_of lg name).
  assert (forall (m : gmap string (list string)) (p : gmap string (list file_entry)) (v : gmap string Z) other, other <> name ->
    (forall x, m !! other = x -> dl_commits lg !! other = x) -> (forall x, p !! other = x -> dl_prev_files lg !! other = x) ->
    (forall x, v !! other = x -> dl_committed_version lg !! other = x) -> same_table lg (DeltaLog m p v) other) as Hsame.
  { intros m p v other _ Hm Hp Hv'. unfold same_table, commits_of, prev_of, committed_of. cbn.
    by rewrite (Hm _ eq_refl), (Hp _ eq_refl), (Hv' _ eq_refl). }
  destruct (commits_of lg name) as [|c cs] eqn:Ecs.
  - split_and!.
    + exists [create_actions s ++ map (fun f : file_entry => add_action f.1.1 f.1.2 f.2 (ss_watermark_ms s)) (snapshot_files s)].
      unfold commits_of, prev_of. cbn [dl_commits dl_prev_files]. rewrite !lookup_insert_eq. split; [reflexivity|]. apply replay_create.
    + unfold committed_of. cbn. by rewrite lookup_insert_eq.
    + unfold prev_of. cbn. by rewrite lookup_insert_eq.
    + apply prefix_nil.
    + intros other Ho. apply Hsame; [done|..]; intros x; by rewrite lookup_insert_ne.
  - destruct (diff_actions (ss_watermark_ms s) (prev_of lg name) (snapshot_files s)) as [|a l] eqn:Ed.
    + split_and!.
      * exists actions. unfold commits_of, prev_of. cbn. rewrite lookup_insert_eq. by rewrite Hc.
      * unfold committed_of. cbn. by rewrite lookup_insert_eq.
      * by apply no_diff in Ed.
      * unfold commits_of. cbn. by rewrite lookup_insert_eq.
      * intros other Ho. apply Hsame; [done|..]; intros x; by rewrite ?lookup_insert_ne.
    + rewrite <- Ed. split_and!.
      * exists (actions ++ [commit_info_action s "WRITE" :: diff_actions (ss_watermark_ms s) (prev_of lg name) (snapshot_files s)]).
        unfold commits_of at 1. cbn [dl_commits]. rewrite lookup_insert_eq, Hc, map_app. split; [reflexivity|].
        rewrite replay_snoc, Hr. cbn [mbind option_bind]. rewrite replay_write. f_equal.
        unfold prev_of. cbn [dl_prev_files]. by rewrite lookup_insert_eq.
      * unfold committed_of. cbn. by rewrite lookup_insert_eq.
      * unfold prev_of. cbn. by rewrite lookup_insert_eq.
      * unfold commits_of. cbn. rewrite lookup_insert_eq. by eexists.
      * intros other Ho. apply Hsame; [done|..]; intros x; by rewrite ?lookup_insert_ne.
Qed.

Definition version_lt (a b : snapshot_state) : Prop := ss_version a < ss_version b.

Lemma sync_spec name : forall history lg,
  table_logged lg name -> StronglySorted version_lt history -> Forall (fun s => td_name (ss_table s) = name) history ->
  table_logged (sync name history lg) name /\ commits_of lg name `prefix_of` commits_of (sync name history lg) name /\
  (forall other, other <> name -> same_table lg (sync name history lg) other) /\
  (forall cur, last history = Some cur ->
    (committed_of lg name < ss_version cur -> committed_of (sync name history lg) name = ss_version cur /\
       path_set (prev_of (sync name history lg) name) = path_set (snapshot_files cur)) /\
    (ss_version cur <= committed_of lg name -> sync name history lg = lg)).
Proof.
  induction history as [|s history IH]; intros lg Hl Hs Hn; [split_and!; try done; apply prefix_nil|].
  apply StronglySorted_inv in Hs as [Hs Hlt]. apply Forall_cons in Hn as [Hname Hn]. unfold sync. cbn [foldl]. fold (committed_of lg name).
  destruct (Z.ltb_spec (committed_of lg name) (ss_version s)) as [Hc|Hc].
  - subst name. destruct (register_spec s lg Hl Hc) as (Hl1 & Hc1 & Hp1 & Hpre1 & Hsame1).
    destruct (IH (register s lg) Hl1 Hs Hn) as (Hl2 & Hpre2 & Hsame2 & Hcur2). fold (sync (td_name (ss_table s)) history (register s lg)).
    split_and!; [done|by etrans|intros other Ho; eapply same_table_trans; eauto|].
    intros cur Hlast. destruct history as [|s' history].
    + injection Hlast as <-. split; [done|lia].
    + change (last (s :: s' :: history)) with (last (s' :: history)) in Hlast. destruct (Hcur2 _ Hlast) as [H1 _].
      apply last_Some_elem_of in Hlast. pose proof (Forall_elem _ _ _ Hlt Hlast) as Hv. unfold version_lt in Hv.
      split; [intros _; apply H1; lia|lia].
  - destruct (IH lg Hl Hs Hn) as (Hl2 & Hpre2 & Hsame2 & Hcur2). fold (sync name history lg).
    split_and!; [done..|]. intros cur Hlast. destruct history as [|s' history]; [injection Hlast as <-; split; [lia|done]|].
    by apply Hcur2.
Qed.

(** ** The life of an Agent *)

(** The same version of the same table with the same files, whatever else changed. *)
Definition same_files (s s' : snapshot_state) : Prop :=
  ss_version s' = ss_version s /\ td_name (ss_table s') = td_name (ss_table s) /\
  path_set (snapshot_files s') = path_set (snapshot_files s).

Definition map_registry (f : snapshot_state -> snapshot_state) (r : registry) : registry :=
  Registry (map (fun e => (e.1, f e.2)) (rg_snapshots r)) (map (fun e => (e.1, map f e.2)) (rg_history r)).

Section agent.
Context `{HEnv : Env} `{HSource : DataSource} (cfg : refresh_config).

Inductive agent_step : node -> node -> Prop :=
| step_publish candidate n : agent_step n (publish cfg candidate n).2
| step_advance name bucket n : agent_step n (on_registry (advance_table_snapshot name bucket) n).2
| step_sync n : agent_step n (sync_all n).2
| step_list n : agent_step n (delta_log_objects (rf_cache cfg) n).2
| step_fetch key n : agent_step n (get_commit_bytes (rf_cache cfg) key n).2
| step_invalidate name n : agent_step n (invalidate_table name n).2
| step_fill f n : (forall s, same_files s (f s)) -> agent_step n (set_registry (map_registry f (nd_registry n)) n)
| step_other c fr k n : agent_step n (Node (nd_registry n) c (nd_log n) fr k).

(** The log is in step with the history of a table: versions grow from one, and the last
    version committed is no later than the current one and describes it when it is. *)
Definition in_step (lg : delta_log) (name : string) (history : list snapshot_state) : Prop :=
  table_logged lg name /\ StronglySorted version_lt history /\
  Forall (fun s => td_name (ss_table s) = name /\ 1 <= ss_version s) history /\
  match last history with
  | None => committed_of lg name = 0
  | Some cur => committed_of lg name <= ss_version cur /\
      (committed_of lg name = ss_version cur -> path_set (prev_of lg name) = path_set (snapshot_files cur))
  end.

Definition dict_ok (r : registry) : Prop := registry_ok r /\ NoDup (map fst (rg_history r)).
Definition node_ok (n : node) : Prop :=
  dict_ok (nd_registry n) /\ forall name, in_step (nd_log n) name (get_snapshot_history name (nd_registry n)).

(** The registry stays and every log keeps its commits. *)
Definition grows (n n' : node) : Prop :=
  nd_registry n' = nd_registry n /\ forall name, commits_of (nd_log n) name `prefix_of` commits_of (nd_log n') name.

#[local] Instance grows_preorder : PreOrder grows.
Proof.
  split; [done|]. intros a b c [Hr1 H1] [Hr2 H2]. split; [congruence|]. intros name. etrans; [apply H1|apply H2].
Qed.

Lemma in_step_same lg lg' name history : same_table lg lg' name -> in_step lg name history -> in_step lg' name history.
Proof.
  intros (Hc & Hp & Hv) ((actions & Ha & Hr) & Hs & Hn & Hl). unfold in_step. rewrite Hv, Hp. split_and!; [|done..].
  exists actions. by rewrite Hc, Hp.
Qed.

(** After a sync the current version is committed. *)
Lemma in_step_sync lg name history : in_step lg name history ->
  in_step (sync name history lg) name history /\ commits_of lg name `prefix_of` commits_of (sync name history lg) name /\
  (forall other, other <> name -> same_table lg (sync name history lg) other) /\
  (forall cur, last history = Some cur -> path_set (prev_of (sync name history lg) name) = path_set (snapshot_files cur)).
Proof.
  intros (Hl & Hs & Hn & Hcur).
  destruct (sync_spec name history lg Hl Hs) as (Hl' & Hpre & Hsame & Hlast).
  { eapply Forall_impl; [exact Hn|]. by intros s []. }
  unfold in_step. destruct (last history) as [cur|] eqn:E.
  - destruct Hcur as [Hle Heq]. destruct (Hlast _ eq_refl) as [Hnew Hold].
    destruct (Z.lt_total (committed_of lg name) (ss_version cur)) as [Hlt|[Hv|Hgt]]; [| |lia].
    + destruct (Hnew Hlt) as [Hc Hp]. split_and!; try done; [lia|]. by intros ? [= <-].
    + rewrite Hold by lia. split_and!; try done. intros ? [= <-]. auto.
  - apply last_None in E as ->. split_and!; done.
Qed.

Lemma sync_table_maintains name : maintains node_ok grows (sync_table name).
Proof.
  intros n [Hr Hn]. unfold sync_table, on_log, mbind, M_bind, gets, modify. cbn.
  destruct (in_step_sync _ _ _ (Hn name)) as (Hs & Hpre & Hsame & _).
  split; [split; [done|]|split; [done|]]; intros other; cbn; (destruct (decide (other = name)) as [->|Ho]; [done|]).
  - by eapply in_step_same; [apply Hsame|].
  - by destruct (Hsame other Ho) as [-> _].
Qed.

Lemma on_cache_maintains {A} (m : M cache_state A) : maintains node_ok grows (on_cache m).
Proof. intros n Hn. split; [done|]. by split. Qed.

Lemma data_objects_maintains snaps acc : maintains node_ok grows (data_objects (rf_cache cfg) snaps acc).
Proof.
  apply maintains_bind; [apply _| |intros; apply maintains_ret, _].
  apply maintains_foldM; [apply _|]. intros [objects seen] [snap s]. case_bool_decide; [apply maintains_ret, _|].
  apply maintains_bind; [apply _|apply on_cache_maintains|]. intros c. apply maintains_ret, _.
Qed.

Lemma delta_log_objects_maintains : maintains node_ok grows (delta_log_objects (rf_cache cfg)).
Proof.
  apply maintains_bind; [apply _|apply maintains_gets, _|]. intros snaps. apply maintains_foldM; [apply _|].
  intros acc [name l]. apply maintains_bind; [apply _|apply sync_table_maintains|]. intros [].
  destruct l as [|s l]; [apply maintains_raise, _|]. apply maintains_bind; [apply _|apply maintains_gets, _|].
  intros commits. apply data_objects_maintains.
Qed.
Lemma sync_all_maintains : maintains node_ok grows sync_all.
Proof.
  apply maintains_bind; [apply _|apply maintains_gets, _|]. intros snaps. apply maintains_foldM; [apply _|].
  intros [] name. apply sync_table_maintains.
Qed.

(** *** The registry *)

Lemma history_of r name : dict_ok r ->
  match odict_get name (rg_snapshots r) with
  | Some cur => td_name (ss_table cur) = name /\ last (get_snapshot_history name r) = Some cur
  | None => get_snapshot_history name r = []
  end.
Proof.
  intros [Hr _]. unfold get_snapshot_history.
  destruct (paired_get _ _ _ name Hr) as [[-> ->]|(cur & history & -> & -> & Hc)]; [done|exact Hc].
Qed.

Lemma history_set r name snaps history other :
  get_snapshot_history other (Registry snaps (odict_set name history (rg_history r))) =
  if decide (other = name) then history else get_snapshot_history other r.
Proof.
  unfold get_snapshot_history. cbn [rg_history]. destruct (decide (other = name)) as [->|Ho].
  - by rewrite odict_get_set_eq.
  - by rewrite odict_get_set_ne by congruence.
Qed.

Lemma sorted_snoc history s : StronglySorted version_lt history ->
  (forall cur, last history = Some cur -> ss_version cur < ss_version s) -> StronglySorted version_lt (history ++ [s]).
Proof.
  induction history as [|x history IH]; intros Hs Hl; [repeat constructor|].
  apply StronglySorted_inv in Hs as [Hs Hx]. cbn. constructor.
  - apply IH; [done|]. intros cur Hc. apply Hl. by destruct history.
  - apply Forall_app. split; [done|]. constructor; [|done]. unfold version_lt. destruct history as [|y history].
    + by apply Hl.
    + assert (exists z, last (y :: history) = Some z) as [z Hz] by (apply last_is_Some; done).
      pose proof (Forall_elem _ _ _ Hx (last_Some_elem_of _ _ Hz)) as Hv. unfold version_lt in Hv.
      pose proof (Hl z) as Hl'. change (last (x :: y :: history)) with (last (y :: history)) in Hl'. specialize (Hl' Hz). lia.
Qed.

Lemma sorted_suffix (l k : list snapshot_state) : StronglySorted version_lt (l ++ k) -> StronglySorted version_lt k.
Proof. induction l as [|x l IH]; [done|]. intros [H _]%StronglySorted_inv. auto. Qed.

(** A history extended by a later version (and perhaps pruned) is in step. *)
Lemma in_step_extend lg name history kept pruned s :
  in_step lg name history -> td_name (ss_table s) = name -> 1 <= ss_version s ->
  (forall cur, last history = Some cur -> ss_version cur < ss_version s) ->
  history ++ [s] = pruned ++ kept -> last kept = Some s -> in_step lg name kept.
Proof.
  intros (Hl & Hs & Hn & Hc) Hname Hv Hlt E Hlast. split_and!; [done|..].
  - apply (sorted_suffix pruned). rewrite <- E. by apply sorted_snoc.
  - assert (Forall (fun s => td_name (ss_table s) = name /\ 1 <= ss_version s) (history ++ [s])) as Hall.
    { apply Forall_app. split; [done|]. by constructor. }
    rewrite E in Hall. by apply Forall_app in Hall as [_ ?].
  - rewrite Hlast. destruct (last history) as [cur|]; [|lia]. specialize (Hlt _ eq_refl). lia.
Qed.

Lemma node_ok_registry n r name kept pruned s snaps :
  node_ok n -> registry_ok r -> r = Registry snaps (odict_set name kept (rg_history (nd_registry n))) ->
  td_name (ss_table s) = name -> 1 <= ss_version s ->
  (forall cur, last (get_snapshot_history name (nd_registry n)) = Some cur -> ss_version cur < ss_version s) ->
  get_snapshot_history name (nd_registry n) ++ [s] = pruned ++ kept -> last kept = Some s ->
  node_ok (set_registry r n).
Proof.
  intros [[_ Hr] Hn] Hok -> Hname Hv Hlt E Hlast. split; [split; [done|by apply odict_set_NoDup]|]. intros other. cbn [set_registry nd_log nd_registry].
  rewrite history_set. destruct (decide (other = name)) as [->|Ho]; [|apply Hn]. by eapply in_step_extend.
Qed.

(** The version a publication gives. *)
Lemma next_version_fresh n name cur : node_ok n -> odict_get name (rg_snapshots (nd_registry n)) = Some cur ->
  1 <= ss_version cur + 1 /\
  (forall x, last (get_snapshot_history name (nd_registry n)) = Some x -> ss_version x < ss_version cur + 1).
Proof.
  intros [Hr Hn] Hc. pose proof (history_of _ name Hr) as H. rewrite Hc in H. destruct H as [Hname Hl].
  destruct (Hn name) as (_ & _ & Hall & _).
  pose proof (Forall_elem _ _ _ Hall (last_Some_elem_of _ _ Hl)) as [_ Hv]. split; [lia|].
  intros x Hx. rewrite Hl in Hx. injection Hx as <-. lia.
Qed.

Lemma evict_unreferenced_steady pruned n :
  nd_registry (evict_unreferenced cfg pruned n).2 = nd_registry n /\ nd_log (evict_unreferenced cfg pruned n).2 = nd_log n.
Proof.
  unfold evict_unreferenced, mbind, M_bind, gets, forM_. generalize (concat (map ss_splits pruned)) as l. revert n.
  set (retained := fun n => map sd_object_key (concat (map ss_splits (concat (map snd (rg_history (nd_registry n))))))).
  assert (forall (keys : list string) l n, nd_registry (foldM (fun (_ : unit) s => if bool_decide (sd_object_key s ∈ keys) then mret tt
      else on_cache (evict_parquet (rf_cache cfg) (sd_object_key s))) tt l n).2 = nd_registry n /\
    nd_log (foldM (fun (_ : unit) s => if bool_decide (sd_object_key s ∈ keys) then mret tt
      else on_cache (evict_parquet (rf_cache cfg) (sd_object_key s))) tt l n).2 = nd_log n) as H.
  { intros keys l. induction l as [|s l IH]; intros n; [done|]. cbn [foldM]. unfold mbind, M_bind.
    case_bool_decide; [apply IH|]. unfold on_cache. destruct (evict_parquet _ _ _) as [[u|e] c]; cbn [fst snd]; [|done].
    destruct u. apply (IH (set_cache c n)). }
  intros n l. apply (H (retained n)).
Qed.
Lemma install_ok s n : let name := td_name (ss_table s) in
  node_ok n -> 1 <= ss_version s ->
  (forall cur, last (get_snapshot_history name (nd_registry n)) = Some cur -> ss_version cur < ss_version s) ->
  node_ok ((pruned ← on_registry (register_snapshot (scfg cfg) s); evict_unreferenced cfg pruned;; mret true) n).2.
Proof.
  intros name Hok Hv Hlt. pose proof Hok as [[Hr _] _]. unfold mbind, M_bind, on_registry.
  destruct (register_run (scfg cfg) s (nd_registry n)) as (pruned & kept & Hpr & Hl & ->). cbn [fst snd].
  match goal with |- context [set_registry ?r n] => set (r' := r) end.
  pose proof (prune_spec (Z.to_nat (Z.max 1 (SNAPSHOT_HISTORY_LIMIT (scfg cfg))))
    (default [] (odict_get (td_name (ss_table s)) (rg_history (nd_registry n))) ++ [s])) as Hsplit.
  rewrite Hpr in Hsplit. destruct Hsplit as (E & _ & _).
  assert (node_ok (set_registry r' n)) as [Hok1 Hok2].
  { eapply (node_ok_registry n r' name kept pruned s); [done|by apply paired_set|reflexivity|done..]. }
  destruct (evict_unreferenced_steady pruned (set_registry r' n)) as [E1 E2].
  destruct (evict_unreferenced cfg pruned (set_registry r' n)) as [[[]|e] n']; cbn [fst snd] in *;
    (change (node_ok n'); split; [by rewrite E1|intros x; rewrite E1, E2; apply Hok2]).
Qed.

Lemma publish_ok candidate n : node_ok n -> node_ok (publish cfg candidate n).2.
Proof.
  intros Hok. unfold publish. set (name := td_name (ss_table candidate)).
  unfold mbind at 1, M_bind at 1, gets. cbv beta iota.
  destruct (odict_get name (rg_snapshots (nd_registry n))) as [p|] eqn:Hp.
  - destruct (ss_snapshot_id candidate =? ss_snapshot_id p); [done|].
    destruct (next_version_fresh n name p Hok Hp) as [Hv Hlt].
    by apply (install_ok (finalize_versioned_keys candidate (ss_version p + 1)) n).
  - apply (install_ok (finalize_versioned_keys candidate 1) n); [done|done|].
    pose proof Hok as [Hr _]. intros cur Hc. pose proof (history_of _ name Hr) as H. rewrite Hp in H.
    change (td_name _) with name in Hc. by rewrite H in Hc.
Qed.

Lemma advance_step_ok name bucket n : node_ok n -> node_ok (on_registry (advance_table_snapshot name bucket) n).2.
Proof.
  intros Hok. pose proof Hok as [Hr Hn]. unfold on_registry. cbn [snd].
  pose proof (advance_ok name bucket (nd_registry n) (proj1 Hr)) as Hok'. revert Hok'.
  unfold advance_table_snapshot, mbind, M_bind, gets. cbn [id].
  destruct (odict_get name (rg_snapshots (nd_registry n))) as [cur|] eqn:Hc; [|intros _; exact Hok].
  cbn [modify fst snd]. intros Hok'. pose proof (history_of _ name Hr) as H. rewrite Hc in H. destruct H as [Hname Hl].
  destruct (next_version_fresh n name cur Hok Hc) as [Hv Hlt]. rewrite Hname in *.
  assert (default [cur] (odict_get name (rg_history (nd_registry n))) = get_snapshot_history name (nd_registry n)) as Hd.
  { unfold get_snapshot_history in *. by destruct (odict_get name (rg_history (nd_registry n))). }
  eapply (node_ok_registry n _ name _ [] (next_version cur bucket)); [done|exact Hok'|reflexivity|done|exact Hv|exact Hlt| |apply last_snoc].
  cbn [app]. by rewrite Hd.
Qed.

Lemma invalidate_ok name n : node_ok n -> node_ok (invalidate_table name n).2.
Proof.
  intros [Hr Hn]. split; [done|]. intros other. cbn [invalidate_table on_log modify snd set_log nd_log nd_registry].
  destruct (decide (other = name)) as [->|Ho].
  - destruct (Hn name) as (_ & Hs & Hall & Hl). set (lg := DeltaLog _ _ _).
    assert (commits_of lg name = [] /\ prev_of lg name = [] /\ committed_of lg name = 0) as (Ec & Ep & Ev).
    { unfold lg, commits_of, prev_of, committed_of. cbn. by rewrite !lookup_delete_eq. }
    unfold in_step. rewrite Ev, Ep. split_and!; [|done..|].
    + exists []. by rewrite Ec, Ep.
    + destruct (last _) as [cur|] eqn:E; [|done].
      pose proof (Forall_elem _ _ _ Hall (last_Some_elem_of _ _ E)) as [_ Hv]. lia.
  - eapply in_step_same; [|apply Hn]. unfold same_table, commits_of, prev_of, committed_of. cbn.
    by rewrite !lookup_delete_ne.
Qed.

Lemma history_map f r name : get_snapshot_history name (map_registry f r) = map f (get_snapshot_history name r).
Proof.
  unfold get_snapshot_history. cbn [map_registry rg_history]. induction (rg_history r) as [|[k l] h IH]; [done|].
  cbn. by destruct (String.eqb k name).
Qed.

Lemma fill_ok f n : (forall s, same_files s (f s)) -> node_ok n -> node_ok (set_registry (map_registry f (nd_registry n)) n).
Proof.
  intros Hf [[Hr Hd] Hn]. split; [split; [|by cbn; rewrite map_map]|].
  - clear Hd. unfold registry_ok, paired in *. cbn. induction Hr as [|[k s] [k' l] d e [E [Hname Hl]] H IH]; [constructor|].
    constructor; [|exact IH]. cbn in *. subst k'. split; [done|]. split; [by destruct (Hf s) as (_ & -> & _)|].
    change (last (f <$> l) = Some (f s)). by rewrite fmap_last, Hl.
  - intros name. cbn [set_registry nd_log nd_registry]. rewrite history_map. destruct (Hn name) as (Hlg & Hs & Hall & Hl).
    split_and!; [done|..].
    + clear -Hs Hf. induction Hs as [|s l Hs IH Hlt]; [constructor|]. cbn. constructor; [done|].
      apply Forall_map. eapply Forall_impl; [exact Hlt|]. intros x Hx. unfold version_lt in *.
      destruct (Hf s) as (-> & _), (Hf x) as (-> & _). done.
    + apply Forall_map. eapply Forall_impl; [exact Hall|]. intros s [? ?]. by destruct (Hf s) as (-> & -> & _).
    + change (map f ?l) with (f <$> l). rewrite fmap_last. destruct (last _) as [cur|]; cbn; [|done]. by destruct (Hf cur) as (-> & _ & ->).
Qed.

Lemma agent_step_ok n n' : agent_step n n' -> node_ok n -> node_ok n'.
Proof.
  intros Hs Hn. destruct Hs; [by apply publish_ok|by apply advance_step_ok|by apply sync_all_maintains
    |by apply delta_log_objects_maintains| |by apply invalidate_ok|by apply fill_ok|done].
  unfold get_commit_bytes. destruct (_ || _); [done|]. unfold mbind, M_bind.
  pose proof (delta_log_objects_maintains n Hn) as [H _]. by destruct (delta_log_objects _ n) as [[]].
Qed.

(** ** What a listing shows *)

Lemma peek_parquet_total key c : exists o c', peek_parquet (rf_cache cfg) key c = (Ok o, c').
Proof.
  unfold peek_parquet, mbind, M_bind, gets. destruct (cs_pinned c !! key) as [b|]; [by eexists _, _|].
  unfold parquet_get, cache_get, mbind, M_bind, gets, monotonic, modify, mret, M_ret.
  destruct (find_entry key (lru_store (cs_parquet c))) as [[d ex]|].
  2: { destruct (disk_read_run (rf_cache cfg) key c) as [o ->]. destruct o; [by eexists _, _|].
       match goal with |- context [store_read _ _ ?s] => destruct (store_read_pure (rf_cache cfg) key s) as [o ->] end. by eexists _, _. }
  cbn [fst snd]. destruct (lru_get _ _ _) as [[b|] l]; cbn [fst snd]; [by eexists _, _|].
  match goal with |- context [disk_read _ _ ?s] => destruct (disk_read_run (rf_cache cfg) key s) as [o ->] end.
  destruct o; [by eexists _, _|].
  match goal with |- context [store_read _ _ ?s] => destruct (store_read_pure (rf_cache cfg) key s) as [o ->] end. by eexists _, _.
Qed.

(** The loop over the data files: keys outside it stay, and each key gets the entry of its
    first file. *)
Lemma fold_objects l : forall objects seen n, exists objects' seen' c,
  foldM (fun (acc : object_map * list string) (x : snapshot_state * split_descriptor) =>
    let '(objects, seen) := acc in
    let '(snap, s) := x in
    if bool_decide (sd_object_key s ∈ seen) then mret acc
    else
      cached ← on_cache (peek_parquet (rf_cache cfg) (sd_object_key s));
      mret (odict_set (sd_object_key s) (split_object snap s cached) objects, sd_object_key s :: seen))
    (objects, seen) l n = (Ok (objects', seen'), set_cache c n) /\
  (forall k, k ∈ seen \/ k ∉ map (fun x => sd_object_key x.2) l -> odict_get k objects' = odict_get k objects) /\
  (forall l1 x l2, l = l1 ++ x :: l2 -> sd_object_key x.2 ∉ seen -> sd_object_key x.2 ∉ map (fun x => sd_object_key x.2) l1 ->
     exists cached, odict_get (sd_object_key x.2) objects' = Some (split_object x.1 x.2 cached)).
Proof.
  induction l as [|[snap s] l IH]; intros objects seen n.
  - exists objects, seen, (nd_cache n). split_and!; [by destruct n|done|]. intros l1 x l2 E. by destruct l1.
  - cbn [foldM]. case_bool_decide as Hin.
    + destruct (IH objects seen n) as (objects' & seen' & c & Hrun & Hkeep & Hget). exists objects', seen', c.
      split_and!; [exact Hrun|..].
      * intros k [Hk|Hk]; apply Hkeep; [by left|]. right. cbn in Hk. set_solver.
      * intros l1 x l2 E Hx Hl1. destruct l1 as [|y l1]; [by injection E as <- <-|].
        injection E as <- ->. apply (Hget l1 x l2); [done..|]. cbn in Hl1. set_solver.
    + destruct (peek_parquet_total (sd_object_key s) (nd_cache n)) as (o & c & Hp).
      destruct (IH (odict_set (sd_object_key s) (split_object snap s o) objects) (sd_object_key s :: seen) (set_cache c n))
        as (objects' & seen' & c' & Hrun & Hkeep & Hget). exists objects', seen', c'. split_and!.
      * rewrite <- (Hrun : _ = (_, set_cache c' n)). refine (run_bind _ _ (odict_set (sd_object_key s) (split_object snap s o) objects, sd_object_key s :: seen) n (set_cache c n) _).
        by rewrite (run_bind _ _ o n (set_cache c n)) by (unfold on_cache; by rewrite Hp).
      * intros k Hk. cbn in Hk. assert (k <> sd_object_key s) as Hne by set_solver.
        rewrite Hkeep by set_solver. apply odict_get_set_ne. congruence.
      * intros l1 x l2 E Hx Hl1. destruct l1 as [|y l1].
        -- injection E as <- <-. exists o. cbn [snd fst] in *. rewrite Hkeep by set_solver. apply odict_get_set_eq.
        -- injection E as <- ->. cbn in Hl1. apply (Hget l1 x l2); [done|set_solver|set_solver].
Qed.

Lemma data_objects_run snaps acc n : exists objects c,
  data_objects (rf_cache cfg) snaps acc n = (Ok objects, set_cache c n) /\
  (forall k, (forall s p, s ∈ snaps -> p ∈ ss_splits s -> sd_object_key p <> k) -> odict_get k objects = odict_get k acc) /\
  (forall cur rest p, merge_sort version_ge snaps = cur :: rest -> NoDup (map sd_object_key (ss_splits cur)) -> p ∈ ss_splits cur ->
     exists cached, odict_get (sd_object_key p) objects = Some (split_object cur p cached)).
Proof.
  unfold data_objects. set (l := concat (map (fun snap => map (pair snap) (ss_splits snap)) (merge_sort version_ge snaps))).
  destruct (fold_objects l acc [] n) as (objects & seen & c & Hrun & Hkeep & Hget). exists objects, c. split_and!.
  - by rewrite (run_bind _ _ _ _ _ Hrun).
  - intros k Hk. apply Hkeep. right. intros (x & -> & Hx)%list_elem_of_fmap.
    apply list_elem_of_In, in_concat in Hx as (m & Hm & Hx). apply in_map_iff in Hm as (s & <- & Hs).
    apply in_map_iff in Hx as (p & <- & Hp). apply list_elem_of_In in Hs, Hp. rewrite merge_sort_Permutation in Hs.
    by apply (Hk s p).
  - intros cur rest p Hm Hnd Hp. apply list_elem_of_split in Hp as (p1 & p2 & E).
    apply (Hget (map (pair cur) p1) (cur, p) (map (pair cur) p2 ++ concat (map (fun snap => map (pair snap) (ss_splits snap)) rest))).
    + unfold l. rewrite Hm. cbn [map concat]. rewrite E, map_app. cbn. by rewrite <- app_assoc.
    + by apply not_elem_of_nil.
    + rewrite map_map. cbn. rewrite E, map_app in Hnd. cbn in Hnd. apply NoDup_app in Hnd as (_ & Hnd & _).
      intros Hin. apply (Hnd _ Hin). by left.
Qed.

(** *** Keys of the log *)

Lemma after_slash a b d e : char_free "/" d = true -> char_free "/" e = true ->
  (a +:+ "/") +:+ d = (b +:+ "/") +:+ e -> a = b /\ d = e.
Proof.
  intros Hd He H. apply (f_equal str_rev) in H. rewrite !str_rev_app_dist in H. change (str_rev "/") with "/" in H.
  assert (forall s, char_free "/" s = true -> char_free "/" (str_rev s) = true) as Hrev.
  { intros s. induction s as [|x s IH]; [done|]. intros [Hx Hs]%andb_true_iff. rewrite str_rev_cons. unfold char_free in *.
    rewrite str_forallb_app. cbn. by rewrite (IH Hs), Hx. }
  apply (f_equal (partition "/")) in H.
  change (str_rev d +:+ ("/" +:+ str_rev a)) with (str_rev d +:+ String "/" (str_rev a)) in H.
  change (str_rev e +:+ ("/" +:+ str_rev b)) with (str_rev e +:+ String "/" (str_rev b)) in H.
  rewrite !partition_app_free in H by auto. injection H as Hde Hab.
  split; [rewrite <- (str_rev_involutive a), <- (str_rev_involutive b)|rewrite <- (str_rev_involutive d), <- (str_rev_involutive e)]; congruence.
Qed.

Lemma pad20_inj i j : pad20 (Z.of_nat i) = pad20 (Z.of_nat j) -> i = j.
Proof.
  assert (forall i, digits_value 0 (pad20 (Z.of_nat i)) = Some (Z.of_nat i)) as H by (intros [|k]; [done|apply pad20_value; lia]).
  intros E. apply (f_equal (digits_value 0)) in E. rewrite !H in E. injection E. lia.
Qed.

Lemma log_key_inj path path' i j : log_key path i = log_key path' j -> path = path' /\ i = j.
Proof.
  unfold log_key. rewrite !fmt_cons. change (fmt []) with "".
  change ("/_delta_log/" +:+ ?x) with ("/_delta_log" +:+ ("/" +:+ x)). rewrite !app_nil_r_s, <- !app_assoc_s. intros E.
  apply app_inv_r_s in E. assert (forall k, char_free "/" (pad20 (Z.of_nat k)) = true) as Hf.
  { intros [|k]; [done|]. apply digits_free; [done|]. apply pad20_digits. lia. }
  apply after_slash in E as [E1 E2]; [|apply Hf..]. split; [by apply app_inv_r_s in E1|by apply pad20_inj].
Qed.

Lemma newest_last s rest cur : StronglySorted version_lt (s :: rest) -> last (s :: rest) = Some cur -> newest s rest = cur.
Proof.
  revert s. induction rest as [|x rest IH]; intros s Hs Hl; [by injection Hl|].
  apply StronglySorted_inv in Hs as [Hs Hx]. apply Forall_cons in Hx as [Hx _]. unfold version_lt in Hx.
  unfold newest. cbn [foldl]. destruct (Z.ltb_spec (ss_version s) (ss_version x)); [|lia]. by apply IH.
Qed.

Lemma newest_first snaps cur : StronglySorted version_lt snaps -> last snaps = Some cur ->
  exists rest, merge_sort version_ge snaps = cur :: rest.
Proof.
  intros Hs Hl. assert (Total version_ge) by (intros a b; unfold version_ge; lia).
  assert (Transitive version_ge) by (intros a b c; unfold version_ge; lia).
  pose proof (StronglySorted_merge_sort version_ge snaps) as Hsort. pose proof (merge_sort_Permutation version_ge snaps) as Hp.
  assert (forall x, x ∈ snaps -> ss_version cur <= ss_version x -> x = cur) as Hmax.
  { clear -Hs Hl. induction Hs as [|s l Hs IH Hlt]; [done|]. destruct l as [|y l].
    - injection Hl as <-. intros x ->%list_elem_of_singleton. done.
    - change (last (s :: y :: l)) with (last (y :: l)) in Hl. intros x [->|Hx]%elem_of_cons Hv; [|by apply IH].
      pose proof (Forall_elem _ _ _ Hlt (last_Some_elem_of _ _ Hl)) as H. unfold version_lt in H. lia. }
  assert (cur ∈ merge_sort version_ge snaps) as Hin by (rewrite Hp; by apply last_Some_elem_of).
  destruct (merge_sort version_ge snaps) as [|h rest]; [by apply not_elem_of_nil in Hin|]. exists rest. f_equal.
  apply Hmax; [rewrite <- Hp; by left|]. apply StronglySorted_inv in Hsort as [_ Hall].
  apply elem_of_cons in Hin as [->|Hin]; [done|]. by pose proof (Forall_elem _ _ _ Hall Hin) as H1.
Qed.

(** The commits of a table as objects. *)
Lemma commit_objects path cur texts : forall (acc : object_map) k, let objects :=
    foldl (fun acc it => odict_set (log_key path it.1) (commit_object cur it.2) acc) acc (imap (fun i x => (i + k, x)%nat) texts) in
  (forall i, odict_get (log_key path (i + k)) objects =
     match texts !! i with Some x => Some (commit_object cur x) | None => odict_get (log_key path (i + k)) acc end) /\
  (forall key, (forall i, (k <= i)%nat -> key <> log_key path i) -> odict_get key objects = odict_get key acc).
Proof.
  induction texts as [|x texts IH]; intros acc k; [done|]. cbn [imap foldl fst snd].
  assert (imap ((fun i y => ((i + k)%nat, y)) ∘ S) texts = imap (fun i y => ((i + S k)%nat, y)) texts) as ->.
  { apply imap_ext. intros i y _. cbn. f_equal. lia. }
  destruct (IH (odict_set (log_key path (0 + k)) (commit_object cur x) acc) (S k)) as [Hi Ho]. split.
  - intros [|i].
    + change (0 + k)%nat with k in *. rewrite Ho; [apply odict_get_set_eq|]. intros j Hj E. apply log_key_inj in E as [_ ->]. lia.
    + replace (S i + k)%nat with (i + S k)%nat by lia. rewrite Hi. cbn [lookup list_lookup]. destruct (texts !! i); [done|].
      apply odict_get_set_ne. intros E. apply log_key_inj in E as [_ E]. lia.
  - intros key Hk. rewrite Ho by (intros i Hi'; apply Hk; lia). apply odict_get_set_ne. intros E. by apply (Hk k).
Qed.

(** *** Tables in a listing *)

(** One table: its commits and its data files are set, other keys stay. *)
Lemma table_objects_run acc name history cur n :
  in_step (nd_log n) name history -> get_snapshot_history name (nd_registry n) = history -> last history = Some cur ->
  (forall s p i, s ∈ history -> p ∈ ss_splits s -> sd_object_key p <> log_key (ss_table_path cur) i) ->
  exists objects c, table_objects (rf_cache cfg) acc (name, history) n =
      (Ok objects, set_cache c (set_log (sync name history (nd_log n)) n)) /\
    (forall k, (forall i, k <> log_key (ss_table_path cur) i) -> (forall s p, s ∈ history -> p ∈ ss_splits s -> sd_object_key p <> k) ->
       odict_get k objects = odict_get k acc) /\
    (forall i, odict_get (log_key (ss_table_path cur) i) objects =
       match commits_of (sync name history (nd_log n)) name !! i with
       | Some x => Some (commit_object cur x)
       | None => odict_get (log_key (ss_table_path cur) i) acc
       end) /\
    (NoDup (map sd_object_key (ss_splits cur)) -> forall p, p ∈ ss_splits cur ->
       exists cached, odict_get (sd_object_key p) objects = Some (split_object cur p cached)).
Proof.
  intros (Hlg & Hs & Hall & _) Hh Hl Hsplit. set (lg := sync name history (nd_log n)).
  destruct history as [|s0 rest]; [done|].
  set (acc' := foldl (fun acc it => odict_set (log_key (ss_table_path cur) it.1) (commit_object cur it.2) acc) acc
                 (imap pair (commits_of lg name))).
  destruct (data_objects_run (s0 :: rest) acc' (set_log lg n)) as (objects & c & Hrun & Hkeep & Hget). exists objects, c.
  destruct (commit_objects (ss_table_path cur) cur (commits_of lg name) acc 0) as [Hci Hco].
  assert (imap (fun i (x : string) => ((i + 0)%nat, x)) (commits_of lg name) = imap pair (commits_of lg name)) as Hi.
  { apply imap_ext. intros i x _. by rewrite Nat.add_0_r. }
  rewrite Hi in Hci, Hco. split_and!.
  - unfold table_objects. rewrite (run_bind _ _ tt n (set_log lg n)).
    2: { unfold sync_table. rewrite (run_bind _ _ (s0 :: rest) n n) by (unfold gets; by rewrite Hh). done. }
    rewrite (newest_last _ _ _ Hs Hl). by rewrite (run_bind _ _ (commits_of lg name) _ (set_log lg n)).
  - intros k Hk Hks. rewrite Hkeep by done. apply Hco. intros i _. apply Hk.
  - intros i. rewrite Hkeep by (intros s p Hs' Hp; by apply (Hsplit s p)). specialize (Hci i). by rewrite Nat.add_0_r in Hci.
  - intros Hnd p Hp. destruct (newest_first _ _ Hs Hl) as [rest' Hm]. by apply (Hget cur rest' p).
Qed.

(** Grouping the versions gives the histories back. *)
Lemma by_table_group name l : forall d, odict_get name d = None -> l <> [] ->
  Forall (fun s => td_name (ss_table s) = name) l ->
  foldl (fun d s => odict_set (td_name (ss_table s)) (default [] (odict_get (td_name (ss_table s)) d) ++ [s]) d) d l = d ++ [(name, l)].
Proof.
  assert (forall (d : list (string * list snapshot_state)) v w, odict_get name d = None ->
    odict_get name (d ++ [(name, v)]) = Some v /\ odict_set name w (d ++ [(name, v)]) = d ++ [(name, w)] /\ odict_set name w d = d ++ [(name, w)]) as Hd.
  { intros d v w. induction d as [|[k x] d IH]; cbn; [by rewrite String.eqb_refl|].
    destruct (String.eqb k name); [done|]. intros H. destruct (IH H) as (-> & -> & ->). done. }
  intros d Hn Hne Hall. destruct l as [|s l]; [done|]. apply Forall_cons in Hall as [Hs Hall]. cbn [foldl]. rewrite Hs, Hn.
  destruct (Hd d [] [s] Hn) as (_ & _ & Hset). change (default [] None ++ [s]) with [s]. rewrite Hset. clear Hset Hne.
  change ((name, s :: l)) with ((name, [s] ++ l)). generalize [s] as k. induction l as [|x l IH]; intros k; [by rewrite app_nil_r|].
  apply Forall_cons in Hall as [Hx Hall]. cbn [foldl]. rewrite Hx. destruct (Hd d k (k ++ [x]) Hn) as (E1 & E2 & _). rewrite E1.
  change (default [] (Some k)) with k. rewrite E2, IH by done. by rewrite <- app_assoc.
Qed.

Lemma by_table_concat h : NoDup (map fst h) ->
  Forall (fun e => e.2 <> [] /\ Forall (fun s => td_name (ss_table s) = e.1) e.2) h -> by_table (concat (map snd h)) = h.
Proof.
  intros Hnd Hall. unfold by_table.
  enough (forall d, (forall e, e ∈ h -> odict_get e.1 d = None) ->
    foldl (fun d s => odict_set (td_name (ss_table s)) (default [] (odict_get (td_name (ss_table s)) d) ++ [s]) d) d (concat (map snd h)) = d ++ h) as H
    by (by apply (H [])).
  induction Hall as [|[name l] h [Hne Hl] Hall IH]; intros d Hd; [by rewrite app_nil_r|].
  cbn [map concat snd]. cbn in Hnd. apply NoDup_cons in Hnd as [Hk Hnd]. rewrite foldl_app.
  rewrite (by_table_group name l d) by (try done; apply (Hd (name, l)); by left).
  rewrite IH; [by rewrite <- app_assoc|done|]. intros e He.
  assert (e.1 <> name) as Hen by (intros <-; apply Hk; apply list_elem_of_fmap; by exists e).
  assert (odict_get e.1 d = None) as Hg by (apply Hd; by right). clear -Hg Hen.
  induction d as [|[k x] d IH]; cbn in *; [by rewrite (proj2 (String.eqb_neq _ _)) by congruence|]. destruct (String.eqb k e.1); [done|auto].
Qed.

(** Tables are served apart: different paths, different data files, no data file where a
    commit would be, and each file of a version once. *)
Definition served_apart (h : list (string * list snapshot_state)) : Prop :=
  (forall e e' s s', e ∈ h -> e' ∈ h -> s ∈ e.2 -> s' ∈ e'.2 -> e.1 <> e'.1 ->
     ss_table_path s <> ss_table_path s' /\ forall p p', p ∈ ss_splits s -> p' ∈ ss_splits s' -> sd_object_key p <> sd_object_key p') /\
  (forall e s p path i, e ∈ h -> s ∈ e.2 -> p ∈ ss_splits s -> sd_object_key p <> log_key path i) /\
  (forall e s, e ∈ h -> s ∈ e.2 -> NoDup (map sd_object_key (ss_splits s))).

(** A table is shown: its commits at their keys and nothing after them, and the data files
    of its current version. *)
Definition table_shown (lg : delta_log) (objects : object_map) (name : string) (cur : snapshot_state) : Prop :=
  (forall i, odict_get (log_key (ss_table_path cur) i) objects = commit_object cur <$> commits_of lg name !! i) /\
  (forall p, p ∈ ss_splits cur -> exists cached, odict_get (sd_object_key p) objects = Some (split_object cur p cached)).

(** A key that belongs to no table of a list. *)
Definition foreign (h : list (string * list snapshot_state)) (k : string) : Prop :=
  forall e s, e ∈ h -> s ∈ e.2 -> (forall i, k <> log_key (ss_table_path s) i) /\ (forall p, p ∈ ss_splits s -> sd_object_key p <> k).

Definition synced (lg : delta_log) (name : string) (cur : snapshot_state) : Prop :=
  exists actions, commits_of lg name = map commit_text actions /\ replay actions = Some (path_set (snapshot_files cur)).

Lemma in_step_synced lg name history cur : in_step lg name history -> last history = Some cur -> synced (sync name history lg) name cur.
Proof.
  intros Hin Hl. destruct (in_step_sync _ _ _ Hin) as (((actions & Hc & Hr) & _) & _ & _ & Hp). exists actions. split; [done|].
  by rewrite Hr, (Hp _ Hl).
Qed.

Lemma last_in_entry (history : list snapshot_state) cur : last history = Some cur -> cur ∈ history.
Proof. apply last_Some_elem_of. Qed.

Lemma fold_tables h : forall acc n,
  node_ok n -> served_apart h -> NoDup (map fst h) ->
  (forall e, e ∈ h -> get_snapshot_history e.1 (nd_registry n) = e.2 /\ exists cur, last e.2 = Some cur /\
     forall i, odict_get (log_key (ss_table_path cur) i) acc = None) ->
  exists objects n', foldM (table_objects (rf_cache cfg)) acc h n = (Ok objects, n') /\ nd_registry n' = nd_registry n /\
    (forall k, foreign h k -> odict_get k objects = odict_get k acc) /\
    (forall name, name ∉ map fst h -> same_table (nd_log n) (nd_log n') name) /\
    (forall e cur, e ∈ h -> last e.2 = Some cur -> table_shown (nd_log n') objects e.1 cur /\ synced (nd_log n') e.1 cur).
Proof.
  induction h as [|[name history] h IH]; intros acc n Hn Hap Hnd Hh.
  { exists acc, n. split_and!; [done..|]. by intros e cur ?%not_elem_of_nil. }
  destruct (Hh (name, history) ltac:(by left)) as (Hhist & cur & Hl & Hnone). cbn [fst snd] in Hhist, Hl.
  destruct Hap as (Hdiff & Hlog & Hdup). cbn in Hnd. apply NoDup_cons in Hnd as [Hname Hnd].
  assert (in_step (nd_log n) name history) as Hin by (rewrite <- Hhist; apply Hn).
  assert ((name, history) ∈ (name, history) :: h) as Hhd by left.
  destruct (table_objects_run acc name history cur n Hin Hhist Hl) as (objects1 & c & Hrun & Hkeep & Hci & Hds).
  { intros s p i Hs Hp. by apply (Hlog (name, history) s p). }
  set (n1 := set_cache c (set_log (sync name history (nd_log n)) n)) in *.
  destruct (in_step_sync _ _ _ Hin) as (Hst & _ & Hsame & _).
  assert (node_ok n1) as Hn1.
  { destruct Hn as [Hr Hn]. split; [done|]. intros other. cbn. destruct (decide (other = name)) as [->|Ho]; [by rewrite Hhist|].
    eapply in_step_same; [by apply Hsame|apply Hn]. }
  assert (forall e s, e ∈ h -> s ∈ e.2 -> e.1 <> name) as Hother.
  { intros e s He _ E. apply Hname. rewrite <- E. apply list_elem_of_fmap. by exists e. }
  assert (forall e s i, e ∈ h -> s ∈ e.2 -> odict_get (log_key (ss_table_path s) i) objects1 = odict_get (log_key (ss_table_path s) i) acc) as Hkeep1.
  { intros e s i He Hs. apply Hkeep.
    - intros j E. apply log_key_inj in E as [E _]. apply (Hdiff e (name, history) s cur); [by right|done|done|by apply last_in_entry|by eapply Hother|done].
    - intros s' p Hs' Hp. by apply (Hlog (name, history) s' p). }
  destruct (IH objects1 n1 Hn1) as (objects & n' & Hrun2 & Hreg & Hfor & Hlogs & Hshown); [|done| |].
  { split_and!; [intros e e' s s' He He'; apply Hdiff; by right|intros e s p path i He; apply Hlog; by right|intros e s He; apply Hdup; by right]. }
  { intros e He. destruct (Hh e ltac:(by right)) as (He1 & cur' & Hl' & Hnone'). split; [done|]. exists cur'. split; [done|].
    intros i. rewrite (Hkeep1 e cur' i He) by (by apply last_in_entry). apply Hnone'. }
  assert (same_table (nd_log n1) (nd_log n') name) as Hst' by (apply Hlogs; by intros ?).
  exists objects, n'. split_and!.
  - cbn [foldM]. by rewrite (run_bind _ _ objects1 n n1) by exact Hrun.
  - done.
  - intros k Hk. rewrite Hfor by (intros e s He; apply Hk; by right).
    apply Hkeep; [apply (Hk (name, history) cur Hhd), last_in_entry, Hl|]. intros s p Hs Hp. by apply (Hk (name, history) s).
  - intros other Ho. cbn in Ho. apply not_elem_of_cons in Ho as [Ho1 Ho2]. eapply same_table_trans; [by apply Hsame|by apply Hlogs].
  - intros e cur' [->|He]%elem_of_cons Hl'; [|by apply Hshown]. cbn [fst snd] in *. rewrite Hl in Hl'. injection Hl' as <-.
    destruct Hst' as (Ec & _ & _). split.
    + split.
      * intros i. rewrite Ec, Hfor.
        -- rewrite Hci. cbn [n1 set_cache set_log nd_log]. destruct (commits_of _ _ !! i); [done|]. apply Hnone.
        -- intros e s He Hs. split; [|intros p Hp; by apply (Hlog e s p _ _ ltac:(by right))].
           intros j E. apply log_key_inj in E as [E _].
           apply (Hdiff e (name, history) s cur); [by right|done|done|by apply last_in_entry|by eapply Hother|done].
      * intros p Hp. rewrite Hfor; [apply Hds; [by apply (Hdup (name, history)), last_in_entry|done]|].
        intros e s He Hs. split; [intros i; by apply (Hlog (name, history) cur p _ _ Hhd (last_in_entry _ _ Hl))|].
        intros p' Hp'. by apply (Hdiff e (name, history) s cur ltac:(by right) Hhd Hs (last_in_entry _ _ Hl) (Hother e s He Hs)).
    + destruct (in_step_synced _ _ _ _ Hin Hl) as (actions & Ha & Hr). exists actions. by rewrite Ec.
Qed.

(** *** A started Agent *)

Definition started (tables : list table_def) (bucket prefix : string) (c : cache_state) (fr : freshness_state) (k : nat) : node :=
  Node (build_all_snapshots (scfg cfg) tables bucket prefix (Registry [] [])).2 c empty_log fr k.

Definition first_versions (r : registry) : Prop :=
  dict_ok r /\ forall e, e ∈ rg_history r -> exists s, e.2 = [s] /\ td_name (ss_table s) = e.1 /\ ss_version s = 1.

Lemma built_first tables bucket prefix : forall acc r, first_versions r ->
  first_versions (foldM (fun acc t => s ← build_table_snapshot (scfg cfg) t bucket prefix; mret (acc ++ [s])) acc tables r).2.
Proof.
  induction tables as [|t tables IH]; intros acc r Hr; [done|]. apply IH. destruct Hr as [[Hr Hd] Hv]. split.
  - split; [by apply (build_table_ok (scfg cfg) t bucket prefix)|by apply odict_set_NoDup].
  - intros e [->|He]%elem_of_odict_set; [|auto]. by exists (table_snapshot (scfg cfg) t bucket prefix).
Qed.

Lemma started_ok tables bucket prefix c fr k : node_ok (started tables bucket prefix c fr k).
Proof.
  assert (first_versions (nd_registry (started tables bucket prefix c fr k))) as [Hr Hv].
  { pose proof (built_first tables bucket prefix [] (Registry [] [])) as H. unfold started, build_all_snapshots. cbn [nd_registry].
    unfold mbind at 1, M_bind at 1, modify. apply H. split; [split; [apply empty_ok|constructor]|]. by intros e ?%not_elem_of_nil. }
  split; [done|]. intros name. unfold in_step.
  assert (table_logged empty_log name /\ committed_of empty_log name = 0) as [Hl Hc] by (split; [by exists []|done]).
  change (nd_log _) with empty_log. rewrite Hc. unfold get_snapshot_history.
  destruct (odict_get name (rg_history (nd_registry (started tables bucket prefix c fr k)))) as [l|] eqn:E.
  - apply odict_get_In in E. destruct (Hv _ E) as (s & Hs & Hname & Hone). cbn in Hs, Hname. subst l. cbn.
    split; [done|]. split; [apply SSorted_cons; [apply SSorted_nil|constructor]|]. split; [constructor; [split; [done|lia]|constructor]|]. lia.
  - cbn. split; [done|]. split; [apply SSorted_nil|]. split; [constructor|done].
Qed.

Lemma entry_history r e : dict_ok r -> e ∈ rg_history r ->
  get_snapshot_history e.1 r = e.2 /\ exists cur, last e.2 = Some cur.
Proof.
  intros [Hr Hd] He. destruct e as [name l]. apply odict_get_elem in He; [|done]. unfold get_snapshot_history. cbn. rewrite He.
  split; [done|]. destruct (paired_get _ _ _ name Hr) as [[_ E]|(cur & w & _ & E & _ & Hl)]; [congruence|].
  exists cur. rewrite He in E. by injection E as ->.
Qed.

(** A listing goes over the histories. *)
Lemma listing_by_history n : node_ok n ->
  delta_log_objects (rf_cache cfg) n = foldM (table_objects (rf_cache cfg)) [] (rg_history (nd_registry n)) n.
Proof.
  intros [Hr Hn]. unfold delta_log_objects, all_snapshots. rewrite (run_bind _ _ (get_all_snapshots (nd_registry n)) n n) by done.
  f_equal. f_equal. unfold get_all_snapshots. destruct (rg_history (nd_registry n)) as [|e h] eqn:Eh.
  - destruct Hr as [Hr _]. unfold registry_ok in Hr. rewrite Eh in Hr. apply Forall2_nil_inv_r in Hr. by rewrite Hr.
  - rewrite <- Eh. apply by_table_concat; [apply Hr|]. apply Forall_forall. intros e' He'.
    destruct (entry_history _ e' Hr He') as [Hg [cur Hl]]. split; [intros E; by rewrite E in Hl|].
    destruct (Hn e'.1) as (_ & _ & Hall & _). rewrite Hg in Hall. eapply Forall_impl; [exact Hall|]. by intros s [].
Qed.

Lemma reached_ok tables bucket prefix c fr k n : rtc agent_step (started tables bucket prefix c fr k) n -> node_ok n.
Proof.
  pose proof (started_ok tables bucket prefix c fr k) as H0. intros H. revert H0.
  induction H as [|a b d Hs _ IH]; [done|]. intros Ha. apply IH. by eapply agent_step_ok.
Qed.

End agent.

(** A Parquet file is never where a commit is. *)
Lemma parquet_not_commit s path i : s +:+ ".parquet" <> log_key path i.
Proof.
  unfold log_key. rewrite !fmt_cons. change (fmt []) with "". rewrite app_nil_r_s, <- !app_assoc_s. intros E.
  apply (f_equal str_rev) in E. rewrite !str_rev_app_dist in E. discriminate E.
Qed.

(** *** A worked case *)

Definition idle_source : DataSource := {|
  execute_split_query _ _ _ _ _ := Ok [];
  execute_scalar _ _ _ _ := Ok None;
  rows_to_parquet _ _ _ _ := Ok "PAR1";
  collect_split_stats _ _ := Ok ∅;
|}.
#[local] Existing Instance idle_source.
#[local] Existing Instance cache_env.
Definition demo_sources : source_config :=
  SourceConfig "sqlite:///a.db" 0 ∅ 1 "" "" 0 0 0 1 1 0 false "" (fun _ => None) false (fun _ => None).
Definition demo_serving : serving_config := ServingConfig demo_sources "legacy" false 2 "" [] (fun _ => None).
Definition demo_refresh : refresh_config :=
  RefreshConfig demo_serving disk_only (IcebergConfig "b" false false []) true "auto" 60 false.
Definition demo_table : table_def := TableDef "t" "t" [] 1 None "" None None None None None None true.
Definition demo_split (key : string) (size : Z) : split_descriptor :=
  SplitDescriptor 0 1 key 0 demo_table (Some 3) (Some size) None None None None None None None.
Definition demo_candidate (id : Z) (key : string) : snapshot_state :=
  SnapshotState id 1 1700000000000 "" "" "" "db/t/metadata/version-hint.text" demo_table "db/t" "db/t" [demo_split key 10] 1 "u" (Some 3) None None None.

Definition demo_start : node := started demo_refresh [] "b" "db" cold (Freshness ∅ ∅) 0.
Definition demo_published : node :=
  (publish demo_refresh (demo_candidate 2 "db/t/data/b.parquet")
    (delta_log_objects disk_only (publish demo_refresh (demo_candidate 1 "db/t/data/a.parquet") demo_start).2).2).2.


(** Rebuilding the registry starts again at version one, which the log takes for committed:
    after a rebuild that changes the files, the log still describes the old ones, and
    they are no longer served. *)
Definition demo_resplit : table_def := TableDef "t" "t" [] 2 None "" None None None None None None true.
Definition demo_rebuilt : node :=
  (sync_all (on_registry (build_all_snapshots demo_serving [demo_resplit] "b" "db")
    (sync_all (started demo_refresh [demo_table] "b" "db" cold (Freshness ∅ ∅) 0)).2).2).2.
Example rebuild_keeps_old_log :
  commits_of (nd_log demo_rebuilt) "t" =
    commits_of (register (table_snapshot demo_serving demo_table "b" "db") empty_log) "t" /\
  forallb (fun p => match get_split_by_key demo_serving (sd_object_key p) (nd_registry demo_rebuilt) with None => true | Some _ => false end)
    (ss_splits (table_snapshot demo_serving demo_table "b" "db")) = true.
Proof. vm_compute. split; reflexivity. Qed.
