(* ===== verification/FreshnessProps.v ===== *)
(** * Refresh: files of retained versions never change

    Content-addressed files are immutable: whatever a poll reads, publishes or prunes, and
    also when it fails half-way, the pinned bytes of every file a retained version refers to
    stay what they were.  Two examples record where change detection misses a change. *)

From S2P Require Import Prelude PyText Sha256 Json Docs ArtifactStore World Sources Dialects LruCache Snapshots SplitPlanner MirrorState Iceberg DeltaLog Freshness DeltaProps.
From Stdlib Require Import Ascii.

(** ** Pins *)

Definition pins (n : node) : gmap string blob := cs_pinned (nd_cache n).

(** Pins may be added, never changed or dropped; the registry stays. *)
Definition pins_grow (n n' : node) : Prop := pins n ⊆ pins n' /\ nd_registry n' = nd_registry n.
#[local] Instance pins_grow_preorder : PreOrder pins_grow.
Proof. split; [done|]. intros a b c [H1 E1] [H2 E2]. split; [by etrans|congruence]. Qed.

(** The files the retained versions refer to. *)
Definition retained (r : registry) : list string := map sd_object_key (concat (map ss_splits (concat (map snd (rg_history r))))).

(** Pinned files that are still referred to keep their bytes. *)
Definition keeps_retained (n n' : node) : Prop :=
  forall key b, pins n !! key = Some b -> key ∈ retained (nd_registry n') -> pins n' !! key = Some b.

Lemma keeps_of_grow n n' : pins_grow n n' -> keeps_retained n n'.
Proof. intros [H _] key b Hk _. by eapply lookup_weaken. Qed.

Section refresh.
Context `{HEnv : Env} `{HSource : DataSource} (cfg : refresh_config) (meta_max parquet_max : Z).

Definition caches_ok (n : node) : Prop := cache_ok meta_max parquet_max (nd_cache n).

(** A cache operation that leaves the pins alone. *)
Lemma cache_step_grows {A} (m : M cache_state A) :
  maintains (cache_ok meta_max parquet_max) same_pins m -> maintains caches_ok pins_grow (on_cache m).
Proof. intros Hm n Hn. destruct (Hm (nd_cache n) Hn) as [Hok Hp]. split; [exact Hok|]. split; [|done]. unfold pins. cbn. by rewrite Hp. Qed.

Lemma peek_grows key : maintains caches_ok pins_grow (on_cache (peek_parquet (rf_cache cfg) key)).
Proof. apply cache_step_grows, same_tiers_pins, peek_parquet_keeps. Qed.

Lemma put_grows key data : maintains caches_ok pins_grow (on_cache (put_parquet (rf_cache cfg) key data)).
Proof.
  apply cache_step_grows. intros c Hc.
  exact (run_cache_step (rf_cache cfg) meta_max parquet_max (PutParquet key data) c Hc).
Qed.

Lemma tick_grows : maintains caches_ok pins_grow tick.
Proof. intros n Hn. split; [done|]. by split. Qed.

(** Nothing is found only when nothing is pinned. *)
Lemma peek_none key c c' : peek_parquet (rf_cache cfg) key c = (Ok None, c') -> cs_pinned c !! key = None.
Proof.
  unfold peek_parquet, mbind, M_bind, gets. destruct (cs_pinned c !! key) as [b|]; [|done]. intros H. discriminate H.
Qed.

Lemma pin_grows key data n : caches_ok n -> pins n !! key = None ->
  let n' := (on_cache (pin_parquet (rf_cache cfg) key data) n).2 in caches_ok n' /\ pins_grow n n'.
Proof.
  intros Hn Hk. destruct (run_cache_step (rf_cache cfg) meta_max parquet_max (PinParquet key data) (nd_cache n) Hn) as [Hok Hp].
  split; [exact Hok|]. split; [|done]. unfold pins_step in Hp. cbn [run_cache] in Hp.
  unfold pins in *. unfold on_cache. cbn [set_cache nd_cache snd]. rewrite Hp. by apply insert_subseteq.
Qed.

(** Finding or making the bytes of a chunk. *)
Lemma chunk_bytes_grows key (make : nat -> res string) :
  maintains caches_ok pins_grow
    (existing ← on_cache (peek_parquet (rf_cache cfg) key);
     match existing with
     | Some b => mret (blob_bytes b)
     | None =>
         k ← tick; pq ← lift (make k);
         (if PIN_MATERIALIZED_SPLITS cfg then on_cache (pin_parquet (rf_cache cfg) key (BRaw pq))
          else on_cache (put_parquet (rf_cache cfg) key (BRaw pq)));;
         mret pq
     end).
Proof.
  intros n Hn. destruct (peek_grows key n Hn) as [Hok1 Hg1]. destruct (peek_parquet_total cfg key (nd_cache n)) as (o & c & Hp).
  assert (on_cache (peek_parquet (rf_cache cfg) key) n = (Ok o, set_cache c n)) as Hrun by (unfold on_cache; by rewrite Hp).
  rewrite Hrun in Hok1, Hg1. cbn [snd] in Hok1, Hg1. rewrite (run_bind _ _ _ _ _ Hrun). destruct o as [b|]; [done|].
  assert (pins (set_cache c n) !! key = None) as Hnone.
  { destruct (peek_parquet_keeps (rf_cache cfg) meta_max parquet_max key (nd_cache n) Hn) as [_ (Hpins & _)].
    rewrite Hp in Hpins. cbn in Hpins. unfold pins. cbn. rewrite Hpins. by apply peek_none in Hp. }
  destruct (tick_grows (set_cache c n) Hok1) as [Hok2 Hg2]. set (n2 := (tick (set_cache c n)).2) in *.
  rewrite (run_bind _ _ (nd_ticks n) _ n2) by done. destruct (make (nd_ticks n)) as [pq|e]; [|split; [done|by etrans]].
  rewrite (run_bind _ _ pq n2 n2) by done. destruct (PIN_MATERIALIZED_SPLITS cfg).
  - destruct (pin_grows key (BRaw pq) n2 Hok2 Hnone) as [Hok3 Hg3]. unfold mbind, M_bind.
    destruct (on_cache _ n2) as [[[]|e] n3]; (split; [done|etrans; [exact Hg1|by etrans]]).
  - destruct (put_grows key (BRaw pq) n2 Hok2) as [Hok3 Hg3]. unfold mbind, M_bind.
    destruct (on_cache _ n2) as [[[]|e] n3]; (split; [done|etrans; [exact Hg1|by etrans]]).
Qed.

Lemma materialize_table_grows t bucket prefix : maintains caches_ok pins_grow (materialize_table cfg t bucket prefix).
Proof.
  apply maintains_bind; [apply _| |intros; apply maintains_ret, _]. apply maintains_foldM; [apply _|]. intros acc i.
  apply maintains_bind; [apply _|apply maintains_lift, _|]. intros q.
  apply maintains_bind; [apply _|apply tick_grows|]. intros k.
  apply maintains_bind; [apply _|apply maintains_lift, _|]. intros rows. cbv zeta.
  pose proof (chunk_bytes_grows (chunk_key (active_table_path (scfg cfg) t prefix) i (rows_hash rows (td_schema t)))
    (fun k => rows_to_parquet k rows i (td_schema t))) as Hb.
  intros n Hn. specialize (Hb n Hn). revert Hb. unfold mbind, M_bind.
  destruct (on_cache _ n) as [[existing|e] n1]; [|done]. cbv beta iota.
  match goal with |- context [match ?m n1 with _ => _ end] => destruct (m n1) as [[pq|e] n2] end; [|done]. intros [Hok Hg].
  destruct (ICEBERG_MANIFEST_STATS _); [|done]. unfold lift. by destruct (collect_split_stats _ _).
Qed.

(** ** Publication and polling *)

Definition refresh_safe {A} (m : M node A) : Prop :=
  forall n, caches_ok n -> caches_ok (m n).2 /\ keeps_retained n (m n).2.

Lemma safe_grow {A} (m : M node A) : maintains caches_ok pins_grow m -> refresh_safe m.
Proof. intros Hm n Hn. destruct (Hm n Hn) as [? Hg]. split; [done|]. by apply keeps_of_grow. Qed.

Lemma safe_bind {A B} (m : M node A) (f : A -> M node B) :
  maintains caches_ok pins_grow m -> (forall a, refresh_safe (f a)) -> refresh_safe (m ≫= f).
Proof.
  intros Hm Hf n Hn. destruct (Hm n Hn) as [Hok Hg]. unfold mbind, M_bind.
  destruct (m n) as [[a|e] n1]; cbn [snd] in *; [|split; [done|by apply keeps_of_grow]].
  destruct (Hf a n1 Hok) as [Hok2 Hk]. split; [done|]. intros key b Hb. apply Hk. eapply lookup_weaken; [exact Hb|apply Hg].
Qed.

Lemma safe_swallow {A} (m : M node A) (a : A) : refresh_safe m -> refresh_safe (catch m (fun _ => mret a)).
Proof. intros Hm n Hn. pose proof (Hm n Hn) as H. unfold catch. by destruct (m n) as [[]]. Qed.

Lemma evict_keeps (pruned : list snapshot_state) n : caches_ok n ->
  let n' := (evict_unreferenced cfg pruned n).2 in
  caches_ok n' /\ nd_registry n' = nd_registry n /\ forall key, key ∈ retained (nd_registry n) -> pins n' !! key = pins n !! key.
Proof.
  intros Hn. unfold evict_unreferenced. rewrite (run_bind _ _ (nd_registry n) n n) by done. fold (retained (nd_registry n)).
  generalize (retained (nd_registry n)) as keep. intros keep. generalize (concat (map ss_splits pruned)) as l. intros l.
  unfold forM_. revert n Hn. induction l as [|s l IH]; intros n Hn; [split_and!; done|]. cbn [foldM].
  case_bool_decide as Hin; [apply IH, Hn|].
  destruct (run_cache_step (rf_cache cfg) meta_max parquet_max (EvictParquet (sd_object_key s)) (nd_cache n) Hn) as [Hok Hp].
  cbn [run_cache] in Hok, Hp. unfold pins_step in Hp. set (n1 := (on_cache (evict_parquet (rf_cache cfg) (sd_object_key s)) n).2).
  assert (forall key, key ∈ keep -> pins n1 !! key = pins n !! key) as Hkeep.
  { intros key Hk. unfold pins, n1, on_cache. cbn [snd set_cache nd_cache]. rewrite Hp. apply lookup_delete_ne. by intros <-. }
  unfold mbind, M_bind. destruct (on_cache _ n) as [[[]|e] n2] eqn:E; cbn [snd] in n1.
  - assert (nd_registry n2 = nd_registry n) as Er by (by injection E as _ <-).
    destruct (IH n2) as (H1 & H2 & H3); [by injection E as _ <-|]. split; [exact H1|]. split; [by rewrite H2|].
    intros key Hk. rewrite H3 by done. by apply Hkeep.
  - assert (nd_registry n2 = nd_registry n) as Er by (by injection E as _ <-).
    split; [by injection E as _ <-|]. split; [exact Er|exact Hkeep].
Qed.

Lemma publish_safe candidate : refresh_safe (publish cfg candidate).
Proof.
  intros n Hn. unfold publish.
  rewrite (run_bind _ _ (odict_get (td_name (ss_table candidate)) (rg_snapshots (nd_registry n))) n n) by done.
  destruct (match _ with Some _ => _ | None => _ end); [split; [done|intros key b Hb _; exact Hb]|].
  set (s := finalize_versioned_keys candidate _).
  destruct (register_run (scfg cfg) s (nd_registry n)) as (pruned & kept & _ & _ & Hreg).
  set (n1 := (on_registry (register_snapshot (scfg cfg) s) n).2).
  rewrite (run_bind _ _ pruned n n1) by (unfold n1, on_registry; by rewrite Hreg).
  destruct (evict_keeps pruned n1 Hn) as (Hok & Hr & Hp). unfold mbind, M_bind.
  destruct (evict_unreferenced cfg pruned n1) as [[[]|e] n2]; cbn [snd mret M_ret] in *;
    (split; [done|]; intros key b Hb Hk; cbn [snd mret M_ret] in Hk |- *; rewrite Hr in Hk; rewrite (Hp key Hk); exact Hb).
Qed.

Lemma refresh_table_safe t bucket prefix : refresh_safe (refresh_table cfg t bucket prefix).
Proof. apply safe_bind; [apply materialize_table_grows|]. intros s. apply publish_safe. Qed.

Lemma fresh_grows (f : node -> freshness_state) : maintains caches_ok pins_grow (modify (fun n => set_fresh (f n) n)).
Proof. intros n Hn. split; [done|]. by split. Qed.

Lemma probe_grows t : maintains caches_ok pins_grow (probe_change_token cfg t).
Proof.
  apply maintains_catch; [apply _| |intros e; apply maintains_ret, _].
  repeat case_match; try (apply maintains_ret, _);
    (apply maintains_bind; [apply _|apply tick_grows|]; intros k; apply maintains_bind; [apply _|apply maintains_lift, _|]; intros v; apply maintains_ret, _).
Qed.

(** C10: Files of retained versions are immutable.  Whatever one polling cycle does (detect a
    change or not, read, publish and prune, or fail at any point), every pinned file that
    a retained version refers to afterwards has the bytes it had before. *)
Theorem poll_keeps_retained_files t bucket prefix n :
  caches_ok n -> let n' := (poll_once cfg t bucket prefix n).2 in caches_ok n' /\ keeps_retained n n'.
Proof.
  revert n. apply safe_swallow. assert (refresh_safe (mret (M:=M node) false)) as Hfalse by (apply safe_grow, maintains_ret, _).
  destruct (String.eqb _ "manual"); [done|]. destruct (String.eqb _ "content_hash"); [apply refresh_table_safe|].
  destruct (String.eqb _ "ttl").
  - apply safe_bind; [apply tick_grows|]. intros k. apply safe_bind; [apply maintains_gets, _|]. intros known.
    case_bool_decide; [done|]. apply safe_bind; [apply fresh_grows|]. intros []. apply refresh_table_safe.
  - apply safe_bind; [apply probe_grows|]. intros [tok|].
    + apply safe_bind; [apply maintains_gets, _|]. intros known. case_bool_decide; [done|].
      apply safe_bind; [apply fresh_grows|]. intros []. apply refresh_table_safe.
    + destruct (String.eqb _ "dialect_probe"); [done|]. destruct (REFRESH_ALLOW_FULL_PULL cfg); [apply refresh_table_safe|done].
Qed.
End refresh.

(** ** Worked cases *)

#[local] Existing Instance cache_env.

Definition id_column : column_def := ColumnDef 1 "id" "long" false None None None.
Definition keyed_table : table_def := TableDef "t" "t" [id_column] 1 (Some "id") "" None None None None None None true.

(** A source that is down for the first [down] calls and counts its changes in [version]. *)
Definition flaky_source (down : nat) (version : string) (rows : list row) : DataSource := {|
  execute_split_query k _ _ _ _ := if (k <? down)%nat then Err (SourceUnavailable "connection refused") else Ok rows;
  execute_scalar _ _ _ _ := Ok (Some version);
  rows_to_parquet _ rows _ _ := Ok (fmt ["PAR1:"; rows_bytes rows [id_column]]);
  collect_split_stats _ _ := Ok ∅;
|}.
Definition up_source : DataSource := flaky_source 0 "7" [{["id" := CInt 1]}].

(** A pinned file of a first version. *)
Definition pinned_start : node :=
  let n := (publish demo_refresh (demo_candidate 1 "db/t/data/a.parquet") demo_start).2 in
  set_cache (set_pinned {["db/t/data/a.parquet" := BRaw "PAR1"]} (nd_cache n)) n.

Lemma poll_keeps_retained_files_witness :
  let n' := (@poll_once cache_env up_source demo_refresh keyed_table "b" "db" pinned_start).2 in
  map ss_version (get_snapshot_history "t" (nd_registry n')) = [1; 2] /\ pins n' !! "db/t/data/a.parquet" = Some (BRaw "PAR1").
Proof.
  pose proof (@poll_keeps_retained_files cache_env up_source demo_refresh 4 4 keyed_table "b" "db" pinned_start) as H.
  cbv zeta in H |- *. destruct H as [_ H]; [apply cold_ok|]. split; [vm_compute; reflexivity|].
  apply H; [vm_compute; reflexivity|]. apply (bool_decide_eq_true_1 _). vm_compute. reflexivity.
Defined.

(** The token is recorded before the table is read: when the read fails, the next poll finds
    nothing new and the change is not published until the source changes again. *)
Definition down_source : DataSource := flaky_source 3 "7" [{["id" := CInt 1]}].
Example failed_poll_forgets_change :
  let n1 := (@poll_once cache_env down_source demo_refresh keyed_table "b" "db" demo_start).2 in
  let n2 := (@poll_once cache_env down_source demo_refresh keyed_table "b" "db" n1).2 in
  (@poll_once cache_env down_source demo_refresh keyed_table "b" "db" n2).1 = Ok false /\
  rg_snapshots (nd_registry n2) = [] /\ (@refresh_table cache_env down_source demo_refresh keyed_table "b" "db" n2).1 = Ok true.
Proof. vm_compute. split_and!; reflexivity. Qed.

(** The digest of a chunk does not tell a null from a text of one zero byte, a number from its
    text, or a separator inside a value from one between values. *)
Definition text_column (i : Z) (name : string) : column_def := ColumnDef i name "string" true None None None.
Example rows_hash_confuses :
  let columns := [text_column 1 "a"; text_column 2 "b"] in
  rows_hash [{["a" := CNull; "b" := CInt 1]}] columns = rows_hash [{["a" := CText (String "000" ""); "b" := CText "1"]}] columns /\
  rows_hash [{["a" := CText (fmt ["x"; FIELD_SEP; "y"]); "b" := CText "z"]}] columns =
  rows_hash [{["a" := CText "x"; "b" := CText (fmt ["y"; FIELD_SEP; "z"])]}] columns.
Proof. vm_compute. split; reflexivity. Qed.

(** Content that returns to an earlier state is published under the earlier snapshot id: the
    history then has two versions with one id. *)
Definition three_versions : refresh_config :=
  RefreshConfig (ServingConfig demo_sources "legacy" false 3 "" [] (fun _ => None)) disk_only (IcebergConfig "b" true false []) true "auto" 60 false.
Example returning_content_repeats_id :
  let publish_ id key n := (publish three_versions (demo_candidate id key) n).2 in
  let n := publish_ 1 "db/t/data/a.parquet" (publish_ 2 "db/t/data/b.parquet" (publish_ 1 "db/t/data/a.parquet" demo_start)) in
  map (fun s => (ss_version s, ss_snapshot_id s)) (get_snapshot_history "t" (nd_registry n)) = [(1, 1); (2, 2); (3, 1)].
Proof. vm_compute. reflexivity. Qed.
