(* ===== verification/TableHealth.v ===== *)
(** * Onboarding of tables

    [runtime/quarantine.py] and [runtime/table_health.py]: a table that cannot be brought online is
    quarantined, the others are served, and a sweep retries the quarantined ones.  The resolution
    of a table against its source (reflection and validation) is a parameter. *)

From S2P Require Import Prelude PyText Numerals Sha256 Json Docs ArtifactStore World Lease Sources Dialects Md5 LruCache Snapshots SplitPlanner MirrorState Iceberg DeltaLog Freshness DeltaProps FreshnessProps.
From Stdlib Require Import Ascii.

(** [_resolve_one] at a moment: what it raises, and the table object afterwards *)
Class Resolver := {
  resolve_one : nat -> table_def -> res unit * table_def;
}.

(** ** Quarantine *)

Record quarantine_entry := QuarantineEntry {
  qe_reason : string;
  qe_since : Z;
  qe_attempts : Z;
  qe_last_attempt : option Z;
}.

(** The Agent, the quarantined tables and the configured table objects by name. *)
Record agent := Agent {
  ag_node : node;
  ag_quarantined : list (string * quarantine_entry);
  ag_tables : list (string * table_def);
}.
Definition set_quarantined (q : list (string * quarantine_entry)) (a : agent) : agent := Agent (ag_node a) q (ag_tables a).

Section health.
Context `{HEnv : Env} `{HSource : DataSource} `{HResolver : Resolver} (cfg : refresh_config).

Definition on_node {A} (m : M node A) : M agent A := fun a => ((m (ag_node a)).1, Agent (m (ag_node a)).2 (ag_quarantined a) (ag_tables a)).
Definition agent_now : M agent Z := k ← on_node tick; mret (clock k).

Definition quarantine (name reason : string) : M agent unit :=
  known ← gets (fun a => odict_get name (ag_quarantined a));
  match known with
  | None => now ← agent_now; modify (fun a => set_quarantined (odict_set name (QuarantineEntry reason now 0 None) (ag_quarantined a)) a)
  | Some e => modify (fun a => set_quarantined (odict_set name (QuarantineEntry reason (qe_since e) (qe_attempts e) (qe_last_attempt e)) (ag_quarantined a)) a)
  end.

Definition record_attempt (name : string) : M agent unit :=
  known ← gets (fun a => odict_get name (ag_quarantined a));
  match known with
  | None => mret tt
  | Some e =>
      now ← agent_now;
      modify (fun a => set_quarantined (odict_set name (QuarantineEntry (qe_reason e) (qe_since e) (qe_attempts e + 1) (Some now)) (ag_quarantined a)) a)
  end.

Definition release (name : string) : M agent bool :=
  known ← gets (fun a => bool_decide (name ∈ map fst (ag_quarantined a)));
  modify (fun a => set_quarantined (odict_pop name (ag_quarantined a)) a);;
  mret known.

Definition is_quarantined (name : string) (a : agent) : bool := bool_decide (name ∈ map fst (ag_quarantined a)).
Definition quarantined_names (a : agent) : list string := map fst (ag_quarantined a).
Definition clear_quarantine : M agent unit := modify (set_quarantined []).

(** ** Resolution *)

(** The name of the class of an exception *)
Definition exn_class (e : exn) : string :=
  match e with
  | ValueError _ => "ValueError" | TypeError _ => "TypeError" | KeyError _ => "KeyError" | AttributeError _ => "AttributeError"
  | TimeoutError _ => "TimeoutError" | RuntimeError _ => "RuntimeError" | OSError _ => "OSError"
  | SourceUnavailable _ => "SourceUnavailable" | TokenizationPolicyError _ => "TokenizationPolicyError" | _ => "Exception"
  end.

Definition ends_line (a : ascii) : bool := let n := N_of_ascii a in (N.leb 10 n && N.leb n 13) || (N.leb 28 n && N.leb n 30).
Fixpoint first_line (s : string) : string :=
  match s with
  | EmptyString => ""
  | String a s => if ends_line a then "" else String a (first_line s)
  end.

(** [_short]; the text of a missing key is quoted *)
Definition short (e : exn) : string :=
  let text := strip (match e with KeyError k | ObjectNotFound k => quoted k | _ => exn_msg e end) in
  str_take 300 (if truthy_str text then first_line text else exn_class e).

(** Resolve the object of a table; the object keeps what was found. *)
Definition resolve_table (name : string) (t : table_def) : M agent table_def :=
  k ← on_node tick;
  let '(r, t') := resolve_one k t in
  modify (fun a => Agent (ag_node a) (ag_quarantined a) (odict_set name t' (ag_tables a)));;
  lift r;;
  mret t'.

(** A computation with its exception as a value. *)
Definition try_agent {A} (m : M agent A) : M agent (res A) := fun a => (Ok (m a).1, (m a).2).

(** [resolve_resiliently] *)
Definition resolve_step (healthy : list table_def) (t : table_def) : M agent (list table_def) :=
  r ← try_agent (resolve_table (td_name t) t);
  match r with
  | Err e => quarantine (td_name t) (short e);; mret healthy
  | Ok t => release (td_name t);; mret (healthy ++ [t])
  end.
Definition resolve_resiliently (tables : list table_def) : M agent (list table_def) := foldM resolve_step [] tables.

(** [_bring_online] *)
Definition bring_online (name : string) (t : table_def) (bucket warehouse_prefix : string) : M agent unit :=
  t ← resolve_table name t;
  on_node (refresh_table cfg t bucket warehouse_prefix);;
  mret tt.

(** [_retry_pass] *)
Definition retry_one (bucket warehouse_prefix name : string) : M agent unit :=
  known ← gets (fun a => odict_get name (ag_tables a));
  match known with
  | None => release name;; mret tt
  | Some t =>
      record_attempt name;;
      r ← try_agent (bring_online name t bucket warehouse_prefix);
      match r with
      | Err _ => mret tt
      | Ok _ => release name;; mret tt
      end
  end.
Definition retry_pass (bucket warehouse_prefix : string) : M agent unit :=
  names ← gets quarantined_names;
  forM_ (retry_one bucket warehouse_prefix) names.

(** * Theorems *)

Definition entry_of (n : string) (a : agent) : option quarantine_entry := odict_get n (ag_quarantined a).
Definition served_version (n : string) (a : agent) : option snapshot_state := odict_get n (rg_snapshots (nd_registry (ag_node a))).

Lemma odict_get_pop {V} k n (d : list (string * V)) : odict_get n (odict_pop k d) = if String.eqb n k then None else odict_get n d.
Proof.
  unfold odict_pop. induction d as [|[x v] d IH]; [by destruct (String.eqb n k)|]. rewrite filter_cons. cbn [fst].
  destruct (decide (x <> k)) as [Hx|Hx]; cbn [odict_get].
  - destruct (String.eqb_spec x n) as [->|Hn]; [|exact IH]. by rewrite (proj2 (String.eqb_neq n k) Hx).
  - rewrite IH. destruct (String.eqb_spec n k) as [->|Hn]; [done|]. assert (x = k) as -> by (destruct (decide (x = k)); [done|by destruct Hx]).
    by rewrite (proj2 (String.eqb_neq k n)) by congruence.
Qed.

Lemma odict_get_keys {V} k (d : list (string * V)) : is_Some (odict_get k d) <-> k ∈ map fst d.
Proof.
  split; [intros [v Hv]; apply odict_get_In in Hv; by apply (list_elem_of_fmap_2 fst) in Hv|].
  induction d as [|[x v] d IH]; cbn; [by intros ?%not_elem_of_nil|]. intros [->|Hk]%elem_of_cons; [by rewrite String.eqb_refl|].
  destruct (String.eqb x k); [done|by apply IH].
Qed.

(** *** Publication *)

Definition registry_kept (n n' : node) : Prop := nd_registry n' = nd_registry n.
#[local] Instance registry_kept_preorder : PreOrder registry_kept.
Proof. split; [by intros n|]. intros a b c H1 H2. unfold registry_kept in *. congruence. Qed.

Lemma on_cache_keeps {A} (m : M cache_state A) : maintains (fun _ => True) registry_kept (on_cache m).
Proof. intros n _. done. Qed.
Lemma tick_keeps : maintains (fun _ => True) registry_kept tick.
Proof. intros n _. done. Qed.

Lemma materialize_keeps t bucket prefix : maintains (fun _ => True) registry_kept (materialize_table cfg t bucket prefix).
Proof.
  unfold materialize_table. apply maintains_bind; [apply _| |intros c; apply maintains_ret, _].
  apply maintains_foldM; [apply _|]. intros acc i. unfold materialize_chunk.
  repeat first
    [ apply maintains_ret, _ | apply maintains_lift, _ | apply on_cache_keeps | apply tick_keeps
    | apply maintains_bind; [apply _| |intros ?] | case_match ].
Qed.

Lemma materialized_name t bucket prefix n c n' : materialize_table cfg t bucket prefix n = (Ok c, n') -> td_name (ss_table c) = td_name t.
Proof. unfold materialize_table. intros H. run_Ok H. by injection H as <- _. Qed.

Lemma evict_keeps_registry pruned n : registry_kept n (evict_unreferenced cfg pruned n).2.
Proof.
  assert (maintains (fun _ => True) registry_kept (evict_unreferenced cfg pruned)) as H; [|by apply H].
  unfold evict_unreferenced. apply maintains_bind; [apply _|apply maintains_gets, _|]. intros r. apply maintains_foldM; [apply _|].
  intros [] x. case_bool_decide; [apply maintains_ret, _|apply on_cache_keeps].
Qed.

(** A publication that returns leaves the table served and the other tables as they were. *)
Lemma publish_run c n b n' : Freshness.publish cfg c n = (Ok b, n') ->
  is_Some (odict_get (td_name (ss_table c)) (rg_snapshots (nd_registry n'))) /\
  forall x, x <> td_name (ss_table c) -> odict_get x (rg_snapshots (nd_registry n')) = odict_get x (rg_snapshots (nd_registry n)).
Proof.
  unfold publish. intros H. apply fbind_Ok in H as (prior & n1 & E & H). injection E as <- <-.
  destruct (match odict_get _ _ with Some p => _ | None => false end) eqn:Ep.
  - injection H as <- <-. split; [|done]. by destruct (odict_get (td_name (ss_table c)) (rg_snapshots (nd_registry n))).
  - apply fbind_Ok in H as (pruned & n1 & E & H). apply fbind_Ok in H as ([] & n2 & E2 & H). injection H as _ <-.
    pose proof (evict_keeps_registry pruned n1) as Hk. rewrite E2 in Hk. unfold registry_kept in Hk. cbn [snd] in Hk. rewrite Hk.
    unfold on_registry, register_snapshot in E. revert E. unfold mbind, M_bind, gets, modify, mret, M_ret. cbn [id].
    destruct (prune _ _) as [pr kept]. intros [= _ <-]. cbn [nd_registry set_registry rg_snapshots ss_table finalize_versioned_keys]. split.
    + rewrite odict_get_set_eq. by eexists.
    + intros x Hx. by apply odict_get_set_ne.
Qed.
Lemma publish_fails_silently c n e n' : Freshness.publish cfg c n = (Err e, n') ->
  forall x, x <> td_name (ss_table c) -> odict_get x (rg_snapshots (nd_registry n')) = odict_get x (rg_snapshots (nd_registry n)).
Proof.
  unfold publish. unfold mbind at 1, M_bind at 1. cbn [gets]. destruct (match odict_get _ _ with Some p => _ | None => false end); [done|].
  unfold mbind, M_bind. intros H x Hx. destruct (on_registry _ n) as [[pruned|e1] n1] eqn:E.
  - pose proof (evict_keeps_registry pruned n1) as Hk. destruct (evict_unreferenced cfg pruned n1) as [[u|e2] n2]; [done|]. injection H as _ <-.
    unfold registry_kept in Hk. cbn [snd] in Hk. rewrite Hk. revert E.
    unfold on_registry, register_snapshot, mbind, M_bind, gets, modify, mret, M_ret. cbn [id].
    destruct (prune _ _) as [pr kept]. intros [= _ <-]. cbn [nd_registry set_registry rg_snapshots ss_table finalize_versioned_keys]. by apply odict_get_set_ne.
  - revert E. unfold on_registry, register_snapshot, mbind, M_bind, gets, modify, mret, M_ret. cbn [id]. by destruct (prune _ _) as [pr kept].
Qed.

Definition others_kept (name : string) (n n' : node) : Prop :=
  forall x, x <> name -> odict_get x (rg_snapshots (nd_registry n')) = odict_get x (rg_snapshots (nd_registry n)).

(** A refresh touches the version of its own table only, and leaves one when it returns. *)
Lemma refresh_table_run t bucket prefix n r n' : refresh_table cfg t bucket prefix n = (r, n') ->
  others_kept (td_name t) n n' /\ forall b, r = Ok b -> is_Some (odict_get (td_name t) (rg_snapshots (nd_registry n'))).
Proof.
  unfold refresh_table, mbind, M_bind. intros H. pose proof (materialize_keeps t bucket prefix n I) as [_ Hk]. unfold registry_kept in Hk.
  destruct (materialize_table cfg t bucket prefix n) as [[c|e] n1] eqn:E; cbn [snd] in Hk.
  - apply materialized_name in E. unfold others_kept. rewrite <- E, <- Hk. destruct r as [b|e].
    + apply publish_run in H as [Hs Ho]. done.
    + split; [exact (publish_fails_silently _ _ _ _ H)|done].
  - injection H as <- <-. split; [|done]. intros x _. by rewrite Hk.
Qed.

(** *** The sweep *)

Definition names_agree (a : agent) : Prop := forall n t, odict_get n (ag_tables a) = Some t -> td_name t = n.

(** What an attempt to bring [name] online leaves alone. *)
Record elsewhere (name : string) (a a' : agent) : Prop := Elsewhere {
  el_entry : forall x, x <> name -> entry_of x a' = entry_of x a;
  el_served : forall x, x <> name -> served_version x a' = served_version x a;
  el_table : forall x, x <> name -> odict_get x (ag_tables a') = odict_get x (ag_tables a);
}.
#[local] Instance elsewhere_preorder name : PreOrder (elsewhere name).
Proof.
  split; [by split|]. intros a b c [H1 H2 H3] [K1 K2 K3].
  split; intros x Hx; [rewrite K1, H1|rewrite K2, H2|rewrite K3, H3]; done.
Qed.

Lemma release_elsewhere name a : elsewhere name a (release name a).2.
Proof.
  split; intros x Hx; [|done|done]. change (odict_get x (odict_pop name (ag_quarantined a)) = odict_get x (ag_quarantined a)).
  rewrite odict_get_pop. by rewrite (proj2 (String.eqb_neq x name)).
Qed.

Lemma release_run name a : exists a', (release name;; mret tt) a = (Ok tt, a') /\ elsewhere name a a' /\
  entry_of name a' = None /\ ag_node a' = ag_node a /\ ag_tables a' = ag_tables a.
Proof.
  eexists. split; [reflexivity|]. split; [exact (release_elsewhere name a)|]. split; [|done].
  change (odict_get name (odict_pop name (ag_quarantined a)) = None). by rewrite odict_get_pop, String.eqb_refl.
Qed.

Lemma record_attempt_run name a e : entry_of name a = Some e -> exists a' at_ms, record_attempt name a = (Ok tt, a') /\ elsewhere name a a' /\
  entry_of name a' = Some (QuarantineEntry (qe_reason e) (qe_since e) (qe_attempts e + 1) (Some at_ms)) /\ ag_tables a' = ag_tables a.
Proof.
  unfold record_attempt, entry_of. intros He. unfold mbind at 1, M_bind at 1. unfold gets. rewrite He. do 2 eexists.
  split; [reflexivity|]. split; [|split; [cbn -[odict_pop odict_get odict_set]; by rewrite odict_get_set_eq|done]].
  split; intros x Hx; [|done|done]. unfold entry_of. cbn -[odict_pop odict_get odict_set]. by apply odict_get_set_ne.
Qed.

Context (resolver_names : forall k t, td_name (resolve_one k t).2 = td_name t).

Lemma bring_online_run name t bucket prefix a r a' : td_name t = name -> bring_online name t bucket prefix a = (r, a') ->
  elsewhere name a a' /\ ag_quarantined a' = ag_quarantined a /\ (names_agree a -> names_agree a') /\
  (forall u, r = Ok u -> is_Some (served_version name a')).
Proof.
  intros Hn. unfold bring_online, resolve_table, mbind, M_bind, on_node, tick. cbn [fst snd ag_node nd_ticks].
  specialize (resolver_names (nd_ticks (ag_node a)) t). destruct (resolve_one _ t) as [r0 t'] eqn:E. cbn [snd] in resolver_names.
  assert (forall x, x <> name -> odict_get x (odict_set name t' (ag_tables a)) = odict_get x (ag_tables a)) as Ht
    by (intros x Hx; by apply odict_get_set_ne).
  assert (names_agree a -> forall n q, names_agree (Agent n q (odict_set name t' (ag_tables a)))) as Hag.
  { intros Ha n q x u. cbn [ag_tables]. destruct (decide (x = name)) as [->|Hx].
    - rewrite odict_get_set_eq. intros [= <-]. congruence.
    - rewrite Ht by done. apply Ha. }
  unfold modify, lift. destruct r0 as [u|e].
  - cbn [mret M_ret ag_node ag_quarantined ag_tables].
    destruct (refresh_table cfg t' bucket prefix _) as [r1 n1] eqn:Er. apply refresh_table_run in Er as [Ho Hs].
    rewrite resolver_names, Hn in Ho, Hs. cbn [fst snd]. intros H.
    assert (a' = Agent n1 (ag_quarantined a) (odict_set name t' (ag_tables a))) as -> by (destruct r1; by injection H as _ <-).
    split; [|split; [done|split; [intros Ha; by apply Hag|]]].
    + split; intros x Hx; [done|by apply (Ho x)|by apply Ht].
    + intros v ->. destruct r1 as [b|e]; [|done]. by apply (Hs b).
  - cbn [mret M_ret]. intros [= <- <-]. split; [|split; [done|split; [intros Ha; by apply Hag|done]]].
    split; intros x Hx; [done|done|by apply Ht].
Qed.

(** What a sweep owes a quarantined table whose turn begins in [a]: a table that is no longer
    configured is released; a configured one is released exactly when it can be brought online
    there, and then the version that brought it online is served. *)
Definition settled (bucket prefix : string) (a a' : agent) (name : string) (e : quarantine_entry) : Prop :=
  match odict_get name (ag_tables a) with
  | None => entry_of name a' = None /\ served_version name a' = served_version name a
  | Some t =>
      let '(r, a1) := bring_online name t bucket prefix (record_attempt name a).2 in
      served_version name a' = served_version name a1 /\
      match r with
      | Ok _ => entry_of name a' = None /\ is_Some (served_version name a')
      | Err _ => exists at_ms, entry_of name a' = Some (QuarantineEntry (qe_reason e) (qe_since e) (qe_attempts e + 1) (Some at_ms))
      end
  end.

Lemma retry_one_run bucket prefix name a e : names_agree a -> entry_of name a = Some e ->
  exists a', retry_one bucket prefix name a = (Ok tt, a') /\ names_agree a' /\ elsewhere name a a' /\ settled bucket prefix a a' name e.
Proof.
  intros Ha He. unfold retry_one, settled. unfold mbind at 1, M_bind at 1. unfold gets.
  destruct (odict_get name (ag_tables a)) as [t|] eqn:Et.
  - destruct (record_attempt_run name a e He) as (a1 & at_ms & E1 & H1 & He1 & Ht1). unfold mbind at 1, M_bind at 1. rewrite E1.
    unfold mbind at 1, M_bind at 1. unfold try_agent. cbn [snd]. destruct (bring_online name t bucket prefix a1) as [r a2] eqn:E2.
    apply bring_online_run in E2 as (H2 & Hq2 & Hn2 & Hs2); [|by apply Ha]. cbn [fst snd].
    assert (names_agree a2) as Ha2 by (apply Hn2; unfold names_agree; by rewrite Ht1).
    destruct r as [u|x].
    + destruct (release_run name a2) as (a3 & E3 & H3 & He3 & Hn3 & Ht3). exists a3. split; [exact E3|].
      split; [unfold names_agree; by rewrite Ht3|]. split; [by transitivity a2; [transitivity a1|]|].
      unfold served_version. rewrite Hn3. split; [done|]. split; [done|]. by apply (Hs2 u).
    + exists a2. split; [done|]. split; [done|]. split; [by transitivity a1|]. split; [done|]. exists at_ms.
      unfold entry_of in *. by rewrite Hq2.
  - destruct (release_run name a) as (a3 & E3 & H3 & He3 & Hn3 & Ht3). exists a3. split; [exact E3|].
    split; [unfold names_agree; by rewrite Ht3|]. split; [done|]. split; [done|]. unfold served_version. by rewrite Hn3.
Qed.

(** The state in which the turn of a table begins, when the tables [before] had theirs. *)
Definition turn (bucket prefix : string) (before : list string) (a : agent) : agent := (forM_ (retry_one bucket prefix) before a).2.

Lemma retry_names_run bucket prefix names : NoDup names -> forall a, names_agree a -> (forall x, x ∈ names -> is_Some (entry_of x a)) ->
  exists a', forM_ (retry_one bucket prefix) names a = (Ok tt, a') /\ names_agree a' /\
    (forall x, x ∉ names -> entry_of x a' = entry_of x a /\ served_version x a' = served_version x a) /\
    (forall before x after e, names = before ++ x :: after -> entry_of x a = Some e ->
       odict_get x (ag_tables (turn bucket prefix before a)) = odict_get x (ag_tables a) /\
       settled bucket prefix (turn bucket prefix before a) a' x e).
Proof.
  unfold forM_. induction 1 as [|n names Hn Hnd IH]; intros a Ha Hq.
  - exists a. split; [done|]. split; [done|]. split; [done|]. intros before x after e Hx. by destruct before.
  - destruct (Hq n) as [e He]; [left|]. destruct (retry_one_run bucket prefix n a e Ha He) as (a1 & E1 & Ha1 & H1 & Hs1).
    destruct (IH a1) as (a2 & E2 & Ha2 & H2 & Hs2); [done| |].
    { intros x Hx. rewrite (el_entry _ _ _ H1) by (intros ->; done). apply Hq. by right. }
    exists a2. cbn [foldM]. unfold mbind at 1, M_bind at 1. rewrite E1. split; [exact E2|]. split; [done|]. split.
    + intros x [Hx Hxs]%not_elem_of_cons. destruct (H2 x Hxs) as [-> ->]. split; [by apply (el_entry _ _ _ H1)|by apply (el_served _ _ _ H1)].
    + intros before x after e' Hnames Hx'. destruct before as [|y before]; injection Hnames as -> Hnames.
      * destruct (H2 x Hn) as [K1 K2]. assert (e' = e) as -> by congruence. change (turn bucket prefix [] a) with a.
        split; [done|]. unfold settled in *. by rewrite K1, K2.
      * assert (x <> y) as Hne by (intros ->; apply Hn; rewrite Hnames; apply elem_of_app; right; by left).
        specialize (Hs2 before x after e' Hnames). rewrite (el_entry _ _ _ H1) in Hs2 by done.
        destruct (Hs2 Hx') as [K1 K2].
        assert (turn bucket prefix (y :: before) a = turn bucket prefix before a1) as -> by (unfold turn, forM_; cbn [foldM]; by erewrite run_bind by exact E1).
        split; [|exact K2]. rewrite K1. by apply (el_table _ _ _ H1).
Qed.

(** C13: a retry sweep returns whatever the sources do, quarantines no table that was not
    quarantined and leaves the versions of the other tables as they were.  A quarantined table that
    is no longer configured is released with its version as it was.  A configured one is released if
    and only if it can be brought online (resolved, read and published) in the state in which its turn
    comes, and then the version published there is served; otherwise it stays with its reason and
    first date and one attempt more.  Assumed are that tables are configured under their own names,
    which resolution keeps, and that no name is quarantined twice. *)
Theorem retry_pass_recovers bucket prefix (a : agent) :
  names_agree a -> NoDup (quarantined_names a) ->
  exists a', retry_pass bucket prefix a = (Ok tt, a') /\
    (forall x, entry_of x a = None -> entry_of x a' = None /\ served_version x a' = served_version x a) /\
    forall before x after e, quarantined_names a = before ++ x :: after -> entry_of x a = Some e ->
      odict_get x (ag_tables (turn bucket prefix before a)) = odict_get x (ag_tables a) /\
      settled bucket prefix (turn bucket prefix before a) a' x e.
Proof.
  intros Ha Hnd. unfold quarantined_names in Hnd.
  destruct (retry_names_run bucket prefix (quarantined_names a) Hnd a Ha) as (a' & E & _ & Ho & Hs).
  { intros x Hx. by apply odict_get_keys. }
  exists a'. split; [exact E|]. split; [|exact Hs].
  intros x Hx. destruct (Ho x) as [-> ->]; [|done]. intros Hin. apply odict_get_keys in Hin as [e He]. unfold entry_of in Hx. congruence.
Qed.

(** *** Startup *)

Lemma resolve_table_run name t a : exists r t' a', resolve_table name t a = (r, a') /\ ag_quarantined a' = ag_quarantined a /\
  td_name t' = td_name t /\ (r = Ok t' \/ exists e, r = Err e).
Proof.
  pose proof (resolver_names (nd_ticks (ag_node a)) t) as Hn. destruct (resolve_one (nd_ticks (ag_node a)) t) as [r0 t'] eqn:E.
  cbn [snd] in Hn. unfold resolve_table, mbind, M_bind, on_node, tick. cbn [fst snd]. rewrite E.
  destruct r0 as [u|e]; [exists (Ok t'), t'|exists (Err e), t']; eexists; (split; [reflexivity|]); (split; [done|]); (split; [done|]);
    [by left|right; by exists e].
Qed.

Lemma quarantine_run name reason a : exists a', quarantine name reason a = (Ok tt, a') /\ is_Some (entry_of name a') /\
  forall x, x <> name -> entry_of x a' = entry_of x a.
Proof.
  unfold quarantine, mbind, M_bind, gets, entry_of. destruct (odict_get name (ag_quarantined a)) as [q|]; eexists; (split; [reflexivity|]);
    (split; [cbn -[odict_get odict_set]; rewrite odict_get_set_eq; by eexists|]); intros x Hx; by apply odict_get_set_ne.
Qed.

Lemma resolve_step_run healthy t a : exists a' healthy', resolve_step healthy t a = (Ok healthy', a') /\
  ((exists t', td_name t' = td_name t /\ healthy' = healthy ++ [t'] /\ entry_of (td_name t) a' = None) \/
   healthy' = healthy /\ is_Some (entry_of (td_name t) a')) /\
  forall x, x <> td_name t -> entry_of x a' = entry_of x a.
Proof.
  destruct (resolve_table_run (td_name t) t a) as (r & t' & a1 & E & Hq & Hname & Hr). unfold resolve_step, try_agent.
  unfold mbind at 1, M_bind at 1. rewrite E. cbn [fst snd]. destruct Hr as [-> | [e ->]].
  - destruct (release_run (td_name t) a1) as (a2 & E2 & Ho & He & _). exists a2, (healthy ++ [t']). rewrite Hname. split.
    + unfold mbind, M_bind in E2 |- *. destruct (release (td_name t) a1) as [[b|x] a3]; [|done]. by injection E2 as ->.
    + split; [left; by exists t'|]. intros x Hx. rewrite (el_entry _ _ _ Ho) by done. unfold entry_of. by rewrite Hq.
  - destruct (quarantine_run (td_name t) (short e) a1) as (a2 & E2 & He & Ho). exists a2, healthy.
    unfold mbind at 1, M_bind at 1. rewrite E2. split; [done|]. split; [by right|]. intros x Hx. rewrite Ho by done. unfold entry_of. by rewrite Hq.
Qed.

(** Resolution at startup always returns: the tables whose names are not quarantined afterwards are
    the healthy ones, in the order of the configuration. *)
Theorem resolve_resiliently_partitions tables : NoDup (map td_name tables) -> forall a, exists a' healthy,
  resolve_resiliently tables a = (Ok healthy, a') /\
  map td_name healthy = filter (fun x => entry_of x a' = None) (map td_name tables).
Proof.
  unfold resolve_resiliently. assert (forall ts, NoDup (map td_name ts) -> forall healthy a, exists a' more,
    foldM resolve_step healthy ts a = (Ok (healthy ++ more), a') /\
    map td_name more = filter (fun x => entry_of x a' = None) (map td_name ts) /\
    forall x, x ∉ map td_name ts -> entry_of x a' = entry_of x a) as Hgen.
  { induction ts as [|t ts IH]; cbn [map]; intros Hnd healthy a.
    - exists a, []. rewrite app_nil_r. done.
    - apply NoDup_cons in Hnd as [Hn Hnd]. destruct (resolve_step_run healthy t a) as (a1 & h1 & E1 & H1 & Ho1).
      destruct (IH Hnd h1 a1) as (a2 & more & E2 & Hm & Ho2). cbn [foldM]. unfold mbind at 1, M_bind at 1. rewrite E1.
      specialize (Ho2 (td_name t) Hn) as Ht. assert (forall x, x ∉ td_name t :: map td_name ts -> entry_of x a2 = entry_of x a) as Hoo.
      { intros x [Hx Hxs]%not_elem_of_cons. by rewrite Ho2, Ho1. }
      destruct H1 as [(t' & Hname & -> & He)|[-> [q He]]].
      + exists a2, (t' :: more). rewrite <- app_assoc in E2. split; [exact E2|]. split; [|exact Hoo].
        rewrite filter_cons_True by congruence. cbn [map]. by rewrite Hm, Hname.
      + exists a2, more. split; [exact E2|]. split; [|exact Hoo]. rewrite filter_cons_False; [done|]. congruence. }
  intros Hnd a. destruct (Hgen tables Hnd [] a) as (a' & more & E & Hm & _). by exists a', more.
Qed.
End health.

(** ** Worked case *)

(** A resolver that finds nothing wrong. *)
#[local] Instance ready_resolver : Resolver := {| resolve_one k t := (Ok tt, t) |}.

Definition waiting (reason : string) : quarantine_entry := QuarantineEntry reason 5 2 (Some 9).
Definition two_waiting : agent :=
  Agent demo_start [("t", waiting "connection refused"); ("gone", waiting "no such table")] [("t", keyed_table)].

Lemma retry_pass_recovers_witness :
  (exists a', @retry_pass cache_env up_source ready_resolver demo_refresh "b" "db" two_waiting = (Ok tt, a') /\
    @settled cache_env up_source ready_resolver demo_refresh "b" "db" two_waiting a' "t" (waiting "connection refused") /\
    @settled cache_env up_source ready_resolver demo_refresh "b" "db"
      (@turn cache_env up_source ready_resolver demo_refresh "b" "db" ["t"] two_waiting) a' "gone" (waiting "no such table")) /\
  quarantined_names (@retry_pass cache_env up_source ready_resolver demo_refresh "b" "db" two_waiting).2 = [].
Proof.
  split; [|vm_compute; reflexivity].
  destruct (@retry_pass_recovers cache_env up_source ready_resolver demo_refresh (fun k t => eq_refl) "b" "db" two_waiting) as (a' & E & _ & Hs).
  - intros n t Ht. unfold two_waiting in Ht. cbn [ag_tables odict_get] in Ht. destruct (String.eqb_spec "t" n) as [<-|_]; [|discriminate Ht].
    injection Ht as <-. reflexivity.
  - apply (bool_decide_eq_true_1 _). vm_compute. reflexivity.
  - exists a'. split; [exact E|]. split; [apply (Hs [] "t" ["gone"])|apply (Hs ["t"] "gone" [])]; reflexivity.
Defined.
