(* ===== verification/Materializer.v ===== *)
(** * On-demand materialization

    [runtime/materializer.py] for an Agent that is not one of several shards and whose
    generations do not read from a source snapshot; other deployments are marked
    [Unmodelled].  Waiting on locks and semaphores does not show in a sequential run.

    A split object is shared by the versions that refer to it.  It is identified by its
    value: an update reaches every equal descriptor of the registry. *)

From S2P Require Import Prelude PyText Sha256 Json Docs ArtifactStore World Sources Dialects Md5 LruCache Snapshots SplitPlanner MirrorState Tokenization Iceberg DeltaLog Freshness.
From Stdlib Require Import Ascii.

#[global] Instance column_transform_eq_dec : EqDecision column_transform.
Proof. solve_decision. Defined.
#[global] Instance column_def_eq_dec : EqDecision column_def.
Proof. solve_decision. Defined.
#[global] Instance table_def_eq_dec : EqDecision table_def.
Proof. solve_decision. Defined.
#[global] Instance split_descriptor_eq_dec : EqDecision split_descriptor.
Proof. solve_decision. Defined.

(** Streamed reads, the random identifiers drawn at a moment for a column and a row, and the
    row count in the footer of a Parquet file. *)
Class RowStreams := {
  stream_split_query : nat -> string -> list (string * bind_value) -> Z -> Z -> string -> res (list (list row));
  stream_rows_to_parquet : nat -> list (list row) -> Z -> list column_def -> res (string * Z);
  uuid4 : nat -> nat -> nat -> string;
  parquet_num_rows : string -> res Z;
}.

Record materialize_config := MaterializeConfig {
  mz_refresh : refresh_config;
  TABLE_FORMAT : string;
  MATERIALIZE_MODE : string;
  AGENT_SHARD_COUNT : Z;
  GENERATION_SOURCE_CONSISTENCY : string;
  STREAMING_PARQUET : bool;
  STREAM_BATCH_ROWS : Z;
}.

(** ** Shared split objects *)

Definition update_split (old new : split_descriptor) (r : registry) : registry :=
  let g s := SnapshotState (ss_snapshot_id s) (ss_sequence_number s) (ss_watermark_ms s) (ss_manifest_list_key s)
    (ss_manifest_file_key s) (ss_metadata_key s) (ss_version_hint_key s) (ss_table s) (ss_table_path s) (ss_legacy_table_path s)
    (map (fun x => if decide (x = old) then new else x) (ss_splits s))
    (ss_version s) (ss_uuid s) (ss_total_records s) (ss_metadata_bytes s) (ss_manifest_list_bytes s) (ss_manifest_file_bytes s) in
  Registry (map (fun e => (e.1, g e.2)) (rg_snapshots r)) (map (fun e => (e.1, map g e.2)) (rg_history r)).

(** The fields that describe the content, in the order they are assigned. *)
Definition with_fields (records size : option Z) (content_hash etag : option string) (stats : option (gmap Z column_stats))
  (s : split_descriptor) : split_descriptor :=
  SplitDescriptor (sd_split_index s) (sd_num_splits s) (sd_object_key s) (sd_watermark_ms s) (sd_table s) records size
    content_hash etag stats (sd_split_key_column s) (sd_key_lo s) (sd_key_hi s) (sd_canonical_object_key s).
Definition with_size (size : Z) (s : split_descriptor) : split_descriptor :=
  with_fields (sd_record_count s) (Some size) (sd_content_hash s) (sd_s3_etag s) (sd_stats s) s.
Definition with_records (records : Z) (s : split_descriptor) : split_descriptor :=
  with_fields (Some records) (sd_file_size_in_bytes s) (sd_content_hash s) (sd_s3_etag s) (sd_stats s) s.
Definition with_tags (data : string) (s : split_descriptor) : split_descriptor :=
  with_fields (sd_record_count s) (sd_file_size_in_bytes s) (Some (sha256_hex data)) (Some (md5_hex data)) (sd_stats s) s.
Definition with_stats (stats : gmap Z column_stats) (s : split_descriptor) : split_descriptor :=
  with_fields (sd_record_count s) (sd_file_size_in_bytes s) (sd_content_hash s) (sd_s3_etag s) (Some stats) s.

Definition with_total (total : Z) (s : snapshot_state) : snapshot_state :=
  SnapshotState (ss_snapshot_id s) (ss_sequence_number s) (ss_watermark_ms s) (ss_manifest_list_key s) (ss_manifest_file_key s)
    (ss_metadata_key s) (ss_version_hint_key s) (ss_table s) (ss_table_path s) (ss_legacy_table_path s) (ss_splits s)
    (ss_version s) (ss_uuid s) (Some total) None None None.

(** [_is_materialized] *)
Definition is_materialized (s : snapshot_state) : bool :=
  match ss_splits s with
  | [] => false
  | splits => forallb (fun p => match sd_file_size_in_bytes p with Some _ => true | None => false end) splits
  end.

Section materializer.
Context `{HEnv : Env} `{HSource : DataSource} `{HStreams : RowStreams} (cfg : materialize_config).

Definition rcfg : refresh_config := mz_refresh cfg.
Definition ccfg : cache_config := rf_cache rcfg.

(** [_should_pin] *)
Definition should_pin : bool := PIN_MATERIALIZED_SPLITS rcfg && negb (String.eqb (MATERIALIZE_MODE cfg) "virtual").

(** Assign fields of a split object; the object as it is afterwards. *)
Definition assign (s : split_descriptor) (f : split_descriptor -> split_descriptor) : M node split_descriptor :=
  on_registry (modify (update_split s (f s)));; mret (f s).

Definition assign_stats (s : split_descriptor) (data : string) : M node split_descriptor :=
  if ICEBERG_MANIFEST_STATS (rf_iceberg rcfg)
  then stats ← lift (collect_split_stats data (td_schema (sd_table s))); assign s (with_stats stats)
  else mret s.

(** [_apply_bytes] *)
Definition apply_bytes (s : split_descriptor) (data : string) : M node Z :=
  s ← assign s (with_size (Z.of_nat (String.length data)));
  records ← lift (parquet_num_rows data);
  s ← assign s (fun s => with_tags data (with_records records s));
  s ← assign_stats s data;
  (if should_pin then on_cache (pin_parquet ccfg (sd_object_key s) (BRaw data)) else mret tt);;
  mret records.

(** [_apply_arrow_fallback], at the moment [k]; its log records and counters are left out *)
Definition apply_arrow_fallback (k : nat) (rows : list row) (s : split_descriptor) : res (list row) :=
  let columns := arrow_fallback_columns (sv_sources (rf_serving rcfg)) (sd_table s) in
  match rows with
  | [] => Ok []
  | _ => if existsb (fun c => match cd_transform c with Some _ => true | None => false end) columns
         then tokenize_batch (sv_sources (rf_serving rcfg)) (uuid4 k) (batch_of_rows rows) columns else Ok rows
  end.

(** The Parquet bytes of a split's query and its number of rows. *)
Definition generate_split (s : split_descriptor) : M node (string * Z) :=
  q ← lift (build_split_query (sv_sources (rf_serving rcfg)) s);
  k ← tick;
  if STREAMING_PARQUET cfg then
    batches ← lift (stream_split_query k q.1 q.2 (sd_split_index s) (STREAM_BATCH_ROWS cfg) (td_connection_id (sd_table s)));
    batches ← foldM (fun (acc : list (list row)) (b : list row) =>
        (k ← tick; b ← lift (apply_arrow_fallback k b s); mret (acc ++ [b])) : M node (list (list row))) [] batches;
    k ← tick;
    lift (stream_rows_to_parquet k batches (sd_split_index s) (td_schema (sd_table s)))
  else
    rows ← lift (execute_split_query k q.1 q.2 (sd_split_index s) (td_connection_id (sd_table s)));
    k ← tick;
    rows' ← lift (apply_arrow_fallback k rows s);
    k ← tick;
    pq ← lift (rows_to_parquet k rows' (sd_split_index s) (td_schema (sd_table s)));
    mret (pq, Z.of_nat (length rows)).

(** [_materialize_split_once], and [_materialize_split] which retries a fenced one *)
Definition materialize_split (s : split_descriptor) : M node Z :=
  if (1 <? AGENT_SHARD_COUNT cfg) || String.eqb (GENERATION_SOURCE_CONSISTENCY cfg) "snapshot"
  then raise (Unmodelled "sharded or snapshot-consistent materialization")
  else
    warm ← on_cache (warm_parquet ccfg (sd_object_key s));
    match warm with
    | Some b => apply_bytes s (blob_bytes b)
    | None =>
        warm ← on_cache (warm_parquet ccfg (sd_object_key s));
        match warm with
        | Some b => apply_bytes s (blob_bytes b)
        | None =>
            pr ← generate_split s;
            let '(pq, nrows) := pr in
            s ← assign s (fun s => with_tags pq (with_size (Z.of_nat (String.length pq)) (with_records nrows s)));
            s ← assign_stats s pq;
            (if should_pin then on_cache (pin_parquet ccfg (sd_object_key s) (BRaw pq))
             else on_cache (put_parquet ccfg (sd_object_key s) (BRaw pq)));;
            mret nrows
        end
    end.

(** [_verify_determinism] *)
Definition verify_determinism (s : split_descriptor) : M node unit :=
  first ← on_cache (peek_parquet ccfg (sd_object_key s));
  match first with
  | None => mret tt
  | Some b =>
      pr ← generate_split s;
      if String.eqb (sha256_hex (blob_bytes b)) (sha256_hex pr.1) then mret tt
      else raise (ValueError (fmt ["MATERIALIZE_MODE 'virtual' requires byte-deterministic regeneration, but split ";
        pretty (sd_split_index s); " of table "; quoted (td_name (sd_table s)); " regenerated differently. ";
        "Use a snapshot-isolated / immutable source and a pinned PyArrow version, or switch to MATERIALIZE_MODE=lazy."]))
  end.

Definition ensure_snapshot_materialized (snap : snapshot_state) : M node unit :=
  if is_materialized snap then mret tt
  else
    counts ← foldM (fun counts s => c ← materialize_split s; mret (counts ++ [c])) [] (ss_splits snap);
    on_registry (modify (update_snapshot snap (with_total (sum_list counts))));;
    (if String.eqb (TABLE_FORMAT cfg) "delta" then invalidate_table (td_name (ss_table snap)) else mret tt);;
    match ss_splits snap with
    | s :: _ => if String.eqb (MATERIALIZE_MODE cfg) "virtual" then verify_determinism s else mret tt
    | [] => mret tt
    end.
End materializer.
