(* ===== verification/S3Router.v ===== *)
(** * The S3 endpoint

    [s3/router.py]: key aliases, the virtual objects of the snapshots, and the handlers
    for listing, [HeadObject] and [GetObject].  Requests to a bucket that is mounted from a
    storage backend are passed through to it and marked [Unmodelled]; metrics, logs and
    query statistics are left out. *)

From S2P Require Import Prelude PyText Numerals Sha256 Json Docs ArtifactStore World Sources Dialects Md5 LruCache Snapshots SplitPlanner S3Xml S3Range MirrorState Iceberg DeltaLog Freshness Materializer.
From Stdlib Require Import Ascii.

Record request := Request {
  rq_query : gmap string string;
  rq_range : option string;
}.

Record endpoint_config := EndpointConfig {
  ep_materialize : materialize_config;
  WAREHOUSE_PREFIX : string;
  mount_ids : list string;
}.

(** [s.find(p)] *)
Fixpoint find_sub (p s : string) : option nat :=
  if startswith s p then Some 0%nat
  else match s with
       | EmptyString => None
       | String _ s => S <$> find_sub p s
       end.

Definition version_le (a b : snapshot_state) : Prop := ss_version a <= ss_version b.
#[global] Instance version_le_dec a b : Decision (version_le a b).
Proof. unfold version_le. apply _. Defined.

(** [d.update(e)] *)
Definition odict_update {V} (d e : list (string * V)) : list (string * V) := foldl (fun d kv => odict_set kv.1 kv.2 d) d e.

(** An entry of a listing before paging: an object or a common prefix, by its name *)
Inductive candidate := CObject (o : listed) | CPrefix (p : string).
Definition candidate_name (c : candidate) : string := match c with CObject o => li_key o | CPrefix p => p end.
Definition candidate_le (a b : candidate) : Prop := str_le (candidate_name a) (candidate_name b).
#[global] Instance candidate_le_dec a b : Decision (candidate_le a b).
Proof. unfold candidate_le. apply _. Defined.

Section router.
Context `{HEnv : Env} `{HSource : DataSource} `{HStreams : RowStreams} `{HAvro : Avro} (cfg : endpoint_config).

Definition mzcfg : materialize_config := ep_materialize cfg.
Definition vcfg : serving_config := rf_serving (mz_refresh mzcfg).
Definition ecfg : cache_config := rf_cache (mz_refresh mzcfg).
Definition icfg : iceberg_config := rf_iceberg (mz_refresh mzcfg).
Definition bucket_name : string := BUCKET_NAME icfg.
Definition is_delta : bool := String.eqb (TABLE_FORMAT mzcfg) "delta".

(** ** Keys *)

(** [_warehouse_alias_enabled] *)
Definition warehouse_alias_enabled : bool :=
  ENABLE_LEGACY_PATH_ALIASES vcfg && negb (startswith (WAREHOUSE_PREFIX cfg) "warehouse/").

(** [_normalize_incoming_key] *)
Definition normalize_incoming_key (r : registry) (key : string) : string :=
  let k := alias_to_active_key vcfg r key in
  if warehouse_alias_enabled && startswith k "warehouse/" then str_drop (String.length "warehouse/") k else k.

(** [_normalize_incoming_prefix] *)
Definition normalize_incoming_prefix (r : registry) (prefix : string) : string * bool :=
  let alias := warehouse_alias_enabled && startswith prefix "warehouse/" in
  let p := if alias then str_drop (String.length "warehouse/") prefix else prefix in
  (alias_to_active_key vcfg r p, alias).

(** [_display_key_for_prefix] *)
Definition display_key_for_prefix (key : string) (warehouse_alias : bool) : string :=
  if warehouse_alias && negb (startswith key "warehouse/") then fmt ["warehouse/"; key] else key.

(** [_is_absent_delta_sidecar] *)
Definition is_absent_delta_sidecar (key : string) : bool :=
  let normalized := rstrip_char "/" key in
  is_delta && (endswith normalized "/_last_checkpoint" || (str_contains "/_delta_log/" normalized && endswith normalized ".crc")).

(** ** Objects *)

(** [_version_hint_bytes_for] *)
Definition version_hint_bytes_for (version : Z) : string := pretty version.

Definition metadata_object (data content_type : string) (snap : snapshot_state) : virtual_object :=
  VirtualObject (str_len data) (ss_watermark_ms snap) (Some data) content_type None.

(** [_objects_for_snapshot] *)
Definition objects_for_snapshot (snap : snapshot_state) : M node object_map :=
  bs ← on_registry (build_metadata_json icfg snap true);
  let '(meta_bytes, snap) := bs in
  bs ← on_registry (build_manifest_list icfg snap);
  let '(mlist_bytes, snap) := bs in
  bs ← on_registry (build_manifest_file icfg snap);
  let '(mfile_bytes, snap) := bs in
  let objects := odict_update []
    [(ss_metadata_key snap, metadata_object meta_bytes "application/json" snap);
     (ss_version_hint_key snap, metadata_object (version_hint_bytes_for (ss_version snap)) "text/plain" snap);
     (ss_manifest_list_key snap, metadata_object mlist_bytes "application/octet-stream" snap);
     (ss_manifest_file_key snap, metadata_object mfile_bytes "application/octet-stream" snap)] in
  objects ← foldM (fun (objects : object_map) (s : split_descriptor) =>
      (cached ← on_cache (peek_parquet ecfg (sd_object_key s));
       mret (odict_set (sd_object_key s) (split_object snap s cached) objects)) : M node object_map) objects (ss_splits snap);
  mret (if String.eqb (OBJECT_PATH_LAYOUT vcfg) "canonical" && ENABLE_LEGACY_PATH_ALIASES vcfg
        then odict_update objects
               (omap (fun kv => let ak := active_to_legacy_key snap kv.1 in if String.eqb ak kv.1 then None else Some (ak, kv.2)) objects)
        else objects).

(** [_snapshot_objects] *)
Definition snapshot_objects : M node object_map :=
  if is_delta then delta_log_objects ecfg
  else
    snaps ← all_snapshots;
    foldM (fun (objects : object_map) (snap : snapshot_state) =>
      (os ← objects_for_snapshot snap; mret (odict_update objects os)) : M node object_map) [] (merge_sort version_le snaps).

(** [_version_hint_bytes] *)
Definition version_hint_bytes (r : registry) (key : string) : string :=
  match filter (fun s => ss_version_hint_key s = key) (get_all_snapshots r) with
  | [] => "1"
  | s :: rest => version_hint_bytes_for (foldl (fun m x => Z.max m (ss_version x)) (ss_version s) rest)
  end.

(** [_resolve_snapshot_for_key] *)
Definition owns_key (key : string) (s : snapshot_state) : bool :=
  bool_decide (key ∈ [ss_metadata_key s; ss_version_hint_key s; ss_manifest_list_key s; ss_manifest_file_key s]).
Definition resolve_snapshot_for_key (r : registry) (key : string) : option snapshot_state :=
  let key := alias_to_active_key vcfg r key in
  snd <$> list_find (fun s => owns_key key s = true) (get_all_snapshots r).

(** [_snapshot_for_table_name] *)
Definition snapshot_for_table_name (r : registry) (name : string) : option snapshot_state :=
  snd <$> list_find (fun s => td_name (ss_table s) = name) (get_all_snapshots r).

(** ** Deferred materialization *)

Definition deferred : bool := bool_decide (MATERIALIZE_MODE mzcfg ∈ ["lazy"; "virtual"]).

(** The snapshot a key belongs to. *)
Definition snapshot_of_key (r : registry) (key : string) : option snapshot_state :=
  let by_name := match resolve_snapshot_for_key r key with
                 | Some s => Some s
                 | None => get_split_by_key vcfg key r ≫= fun s => snapshot_for_table_name r (td_name (sd_table s))
                 end in
  match by_name with
  | Some s => Some s
  | None =>
      if str_contains "/_delta_log/" key
      then snd <$> list_find (fun s => startswith key (ss_table_path s +:+ "/_delta_log/") = true) (get_all_snapshots r)
      else None
  end.

(** [_ensure_lazy_materialized] *)
Definition ensure_lazy_materialized (key : string) : M node unit :=
  if negb deferred then mret tt
  else
    snap ← gets (fun n => snapshot_of_key (nd_registry n) key);
    match snap with Some s => ensure_snapshot_materialized mzcfg s | None => mret tt end.

(** [_ensure_lazy_materialized_for_prefix] *)
Definition ensure_lazy_materialized_for_prefix (prefix : string) : M node unit :=
  if negb deferred || negb (truthy_str prefix) then mret tt
  else
    snaps ← all_snapshots;
    forM_ (fun s => ensure_lazy_materialized (ss_table_path s +:+ "/metadata/v1.metadata.json"))
      (filter (fun s => startswith prefix (ss_table_path s) || startswith prefix (ss_legacy_table_path s) = true) snaps).

(** ** Responses *)

Definition error_reply (status : Z) (code message resource : string) (headers : list (string * string)) : M node response :=
  k1 ← tick; k2 ← tick;
  mret (Response status (("Content-Type", "application/xml") :: headers) (error_response (token k1) (token k2) code message resource)).
Definition no_such_bucket (bucket : string) : M node response :=
  error_reply 404 "NoSuchBucket" (fmt ["Bucket "; quoted bucket; " does not exist."]) "/" [].
Definition no_such_key (bucket key : string) : M node response :=
  error_reply 404 "NoSuchKey" (fmt ["Key "; quoted key; " does not exist."]) (fmt ["/"; bucket; "/"; key]) [].
Definition bare (status : Z) : response := Response status [] "".

Definition mounted (bucket : string) : bool := bool_decide (bucket ∈ mount_ids cfg).
Definition passthrough {A} : M node A := raise (Unmodelled "a mounted bucket").

Definition list_buckets : M node response :=
  snaps ← all_snapshots;
  k ← tick;
  let created_ms := match snaps with s :: _ => ss_watermark_ms s | [] => 0 end in
  mret (Response 200 [("Content-Type", "application/xml")]
    (list_buckets_response (fun i => clock (k + i)%nat) bucket_name created_ms (mount_ids cfg))).

Definition head_service : M node response := mret (bare 200).

Definition head_bucket (bucket : string) : M node response :=
  if mounted bucket then passthrough
  else mret (if String.eqb bucket bucket_name then bare 200 else bare 404).

(** ** Listing *)

Definition listed_object (key : string) (o : virtual_object) (alias : bool) : listed :=
  Listed (display_key_for_prefix key alias) (vo_size o) (vo_last_modified_ms o) (vo_etag o).

(** The name of the folder a key is in below the prefix, if the delimiter occurs after it. *)
Definition common_prefix (prefix delimiter key : string) : option string :=
  let remainder := str_drop (String.length prefix) key in
  (fun pos => prefix +:+ str_take (pos + String.length delimiter) remainder) <$> find_sub delimiter remainder.

(** The sorted entries of a listing. *)
Definition candidates (objects : object_map) (prefix delimiter : string) (alias : bool) : list candidate :=
  let matched := filter (fun kv : string * virtual_object => startswith kv.1 prefix = true) objects in
  let flat := if truthy_str delimiter then filter (fun kv : string * virtual_object => common_prefix prefix delimiter kv.1 = None) matched else matched in
  let prefixes := if truthy_str delimiter
                  then sorted_set (omap (fun kv : string * virtual_object => (fun cp => display_key_for_prefix cp alias) <$> common_prefix prefix delimiter kv.1) matched)
                  else [] in
  merge_sort candidate_le (map (fun kv => CObject (listed_object kv.1 kv.2 alias)) flat ++ map CPrefix prefixes).

(** One page: the entries after the marker, at most [max_keys], and the next token *)
Definition list_page (all : list candidate) (marker : option string) (max_keys : Z) : list candidate * bool * option string :=
  let rest := if truthy_opt marker
              then filter (fun c => ~ str_le (candidate_name c) (or_empty marker)) all else all in
  let page := take (Z.to_nat max_keys) rest in
  let is_truncated := (0 <? max_keys) && (length page <? length rest)%nat in
  (page, is_truncated, if is_truncated then candidate_name <$> last page else None).

Definition page_objects (page : list candidate) : list listed := omap (fun c => match c with CObject o => Some o | CPrefix _ => None end) page.
Definition page_prefixes (page : list candidate) : list string := omap (fun c => match c with CPrefix p => Some p | CObject _ => None end) page.

(** [int(value)] with the default and the error value of the handler *)
Definition max_keys_of (q : gmap string string) : Z :=
  match q !! "max-keys" with
  | None => 1000
  | Some v => match int_of_string v with Some n => n | None => -1 end
  end.

Definition list_objects_v2 (bucket : string) (rq : request) : M node response :=
  if mounted bucket then passthrough
  else if negb (String.eqb bucket bucket_name) then no_such_bucket bucket
  else
    let q := rq_query rq in
    let prefix_in := default "" (q !! "prefix") in
    let delimiter := default "" (q !! "delimiter") in
    let start_after := q !! "start-after" in
    let continuation_token := q !! "continuation-token" in
    let max_keys := max_keys_of q in
    if (max_keys <? 0) || (1000 <? max_keys)
    then error_reply 400 "InvalidArgument" "max-keys must be between 0 and 1000." "/" []
    else
      r ← gets nd_registry;
      let '(prefix, alias) := normalize_incoming_prefix r prefix_in in
      k ← tick;
      let now i := clock (k + i)%nat in
      let ok body := Response 200 [("Content-Type", "application/xml")] body in
      if is_delta && (is_absent_delta_sidecar prefix || endswith prefix "/_metadata/table.json.gz" || endswith prefix "/_metadata/table.json.gz/")
      then mret (ok (list_objects_v2_response now bucket prefix_in [] delimiter [] max_keys false None continuation_token start_after))
      else
        ensure_lazy_materialized_for_prefix prefix;;
        objects ← snapshot_objects;
        let '(page, is_truncated, next) :=
          list_page (candidates objects prefix delimiter alias)
            (match continuation_token with Some t => Some t | None => start_after end) max_keys in
        mret (ok (list_objects_v2_response now bucket prefix_in (page_objects page) delimiter (page_prefixes page) max_keys
          is_truncated next continuation_token start_after)).

(** ** [HeadObject] *)

Definition head_object (bucket key : string) : M node response :=
  if mounted bucket then passthrough
  else if negb (String.eqb bucket bucket_name) then mret (bare 404)
  else
    r ← gets nd_registry;
    let key := normalize_incoming_key r key in
    if is_absent_delta_sidecar key then mret (bare 404)
    else
      ensure_lazy_materialized key;;
      objects ← snapshot_objects;
      match odict_get key objects with
      | None => mret (bare 404)
      | Some o =>
          mret (Response 200
            ([("Content-Length", pretty (vo_size o)); ("Content-Type", vo_content_type o); ("Accept-Ranges", "bytes")]
             ++ (if truthy_int (vo_last_modified_ms o) then [("Last-Modified", formatdate (vo_last_modified_ms o))] else [])
             ++ (if truthy_opt (vo_etag o) then [("ETag", quote_tag (or_empty (vo_etag o)))] else [])) "")
      end.

(** ** [GetObject] *)

(** A metadata object from its cache, or built and cached. *)
Definition cached_metadata (key : string) (build : M node string) : M node string :=
  cached ← on_cache (get_metadata key);
  match cached with
  | Some b => mret (blob_bytes b)
  | None => b ← build; on_cache (put_metadata key (BRaw b));; mret b
  end.

Definition built {A} (m : M registry (A * snapshot_state)) : M node A := bs ← on_registry m; mret bs.1.

(** The metadata objects of a snapshot. *)
Definition serve_metadata (snap : snapshot_state) (key : string) (range : option string) : M node (option response) :=
  let reply data content_type := mret (Some (make_object_response data content_type range (Some (ss_watermark_ms snap)) None)) in
  if String.eqb key (ss_metadata_key snap) then
    b ← cached_metadata key (built (build_metadata_json icfg snap true)); reply b "application/json"
  else if String.eqb key (ss_version_hint_key snap) then
    r ← gets nd_registry; reply (version_hint_bytes r key) "text/plain"
  else if String.eqb key (ss_manifest_list_key snap) then
    b ← cached_metadata key (built (build_manifest_list icfg snap)); reply b "application/octet-stream"
  else if String.eqb key (ss_manifest_file_key snap) then
    b ← cached_metadata key (built (build_manifest_file icfg snap)); reply b "application/octet-stream"
  else mret None.

(** The SQL pushdown of a data object that is in no cache. *)
Definition generate_object (s : split_descriptor) : M node string :=
  q ← lift (build_split_query (sv_sources vcfg) s);
  k ← tick;
  rows ← lift (execute_split_query k q.1 q.2 (sd_split_index s) (td_connection_id (sd_table s)));
  k ← tick;
  lift (rows_to_parquet k rows (sd_split_index s) (td_schema (sd_table s))).

Definition is_source_unavailable (e : exn) : bool := match e with SourceUnavailable _ => true | _ => false end.

Definition serve_data (bucket key : string) (s : split_descriptor) (range : option string) : M node response :=
  let reply data etag := make_object_response data "application/octet-stream" range (Some (sd_watermark_ms s)) etag in
  cached ← on_cache (get_parquet ecfg key);
  match cached with
  | Some b => mret (reply (blob_bytes b) (sd_s3_etag s))
  | None =>
      generated ← catch (pq ← generate_object s; mret (Some pq)) (fun e => if is_source_unavailable e then mret None else raise e);
      match generated with
      | Some pq =>
          on_cache (put_parquet ecfg key (BRaw pq));;
          s ← assign s (with_tags pq);
          mret (reply pq (sd_s3_etag s))
      | None =>
          error_reply 503 "ServiceUnavailable" "The source database is temporarily unavailable; please retry."
            (fmt ["/"; bucket; "/"; key]) [("Retry-After", "5")]
      end
  end.

Definition get_object (bucket key : string) (rq : request) : M node response :=
  if mounted bucket then passthrough
  else if negb (String.eqb bucket bucket_name) then no_such_bucket bucket
  else if String.eqb key "" then list_objects_v2 bucket rq
  else
    r ← gets nd_registry;
    let key := normalize_incoming_key r key in
    let range := rq_range rq in
    if is_absent_delta_sidecar key then no_such_key bucket key
    else
      ensure_lazy_materialized key;;
      if is_delta && str_contains "/_delta_log/" key then
        commit ← get_commit_bytes ecfg key;
        match commit with
        | Some data =>
            objects ← delta_log_objects ecfg;
            mret (make_object_response data "application/json" range (vo_last_modified_ms <$> odict_get key objects) None)
        | None => no_such_key bucket key
        end
      else
        r ← gets nd_registry;
        meta ← match (if is_delta then None else resolve_snapshot_for_key r key) with
               | Some snap => serve_metadata snap key range
               | None => mret None
               end;
        match meta with
        | Some resp => mret resp
        | None =>
            r ← gets nd_registry;
            match get_split_by_key vcfg key r with
            | None => no_such_key bucket key
            | Some s => serve_data bucket key s range
            end
        end.
End router.
