(* ===== verification/ListingProps.v ===== *)
(** * Listing: a client that follows the tokens sees every entry once

    The client reads the XML body of each page, collects the keys and common prefixes, and
    asks again with the continuation token while the listing is truncated. *)

From S2P Require Import Prelude PyText Numerals Sha256 Json Docs ArtifactStore World Sources Dialects Md5 LruCache Snapshots SplitPlanner Egress S3Auth S3Xml S3Range MirrorState Iceberg DeltaLog Freshness DeltaProps Materializer S3Router.
From Stdlib Require Import Ascii Sorted.

(** ** The client *)

Definition children_of (e : xml) : list xml := match e with El _ _ _ c => c end.
Definition tag_of (e : xml) : string := match e with El t _ _ _ => t end.
Definition text_of (e : xml) : string := match e with El _ _ t _ => t end.

(** The text of the first child with a tag. *)
Definition child_text (tag : string) (l : list xml) : option string :=
  (fun ie => text_of ie.2) <$> list_find (fun e => tag_of e = tag) l.

(** The names of a page, whether there is more, and the next token. *)
Record page_read := PageRead {
  pr_names : list string;
  pr_truncated : bool;
  pr_next : option string;
}.

Definition read_page (body : string) : option page_read :=
  root ← read_document (String.length body) body;
  let c := children_of root in
  names ← mapM (fun e => child_text "Key" (children_of e)) (filter (fun e => tag_of e = "Contents") c);
  prefixes ← mapM (fun e => child_text "Prefix" (children_of e)) (filter (fun e => tag_of e = "CommonPrefixes") c);
  truncated ← child_text "IsTruncated" c;
  Some (PageRead (names ++ prefixes) (String.eqb truncated "true") (child_text "NextContinuationToken" c)).

(** Download a listing; the fuel bounds the number of further requests. *)
Fixpoint download (fuel : nat) (serve : option string -> option response) (token : option string) : option (list string) :=
  answer ← serve token;
  page ← read_page (rs_body answer);
  if pr_truncated page then
    match fuel with
    | O => None
    | S fuel => rest ← download fuel serve (pr_next page); Some (pr_names page ++ rest)
    end
  else Some (pr_names page).

(** ** The body of a page *)

Lemma pretty_printable (z : Z) : printable (pretty z) = true.
Proof.
  assert (forall s, str_forallb is_digit s = true -> printable s = true) as H.
  { intros s. apply str_forallb_impl. intros [[] [] [] [] [] [] [] []] Ha; vm_compute in Ha; done || (vm_compute; reflexivity). }
  destruct z as [|p|p]; [done|apply H; by apply pretty_N_go_digits|].
  change (pretty (Z.neg p)) with ("-" +:+ pretty_N_go (N.pos p) ""). unfold printable. rewrite str_forallb_app. cbn [str_forallb].
  apply H. by apply pretty_N_go_digits.
Qed.

Lemma printable_app a b : printable (a +:+ b) = printable a && printable b.
Proof. apply str_forallb_app. Qed.

Lemma fmt_printable l : forallb printable l = true -> printable (fmt l) = true.
Proof.
  induction l as [|x l IH]; [done|]. intros [Hx Hl]%andb_true_iff. rewrite fmt_cons, printable_app, Hx. auto.
Qed.

Lemma two_digits_printable n : printable (two_digits n) = true.
Proof. unfold two_digits. destruct (n <? 10); [rewrite printable_app|]; by rewrite pretty_printable. Qed.

Lemma modified_printable now ts : printable (modified now ts) = true.
Proof.
  assert (forall ms, printable (iso_utc ms) = true) as H by (intros ms; unfold iso_utc; destruct (civil_from_days _) as [[y m] d];
    apply fmt_printable; cbn [forallb]; by rewrite !two_digits_printable, pretty_printable).
  unfold modified. by destruct (truthy_int ts).
Qed.

Lemma md5_printable s : printable (md5_hex s) = true.
Proof.
  destruct (md5_shape s) as [_ H]. revert H. apply str_forallb_impl. intros a Ha.
  destruct a as [[] [] [] [] [] [] [] []]; vm_compute in Ha; done || (vm_compute; reflexivity).
Qed.

(** An entry whose texts can be written in XML. *)
Definition listed_ok (o : listed) : bool := printable (li_key o) && printable (or_empty (li_etag o)).
Definition opt_ok (o : option string) : bool := printable (or_empty o).

Lemma leaf_ok tag text : is_name tag = true -> printable text = true -> xml_ok (leaf tag text) = true.
Proof. intros Ht Hp. cbn. by rewrite Ht, Hp, orb_true_r. Qed.

Lemma contents_ok now o : listed_ok o = true -> xml_ok (contents_element now o) = true.
Proof.
  intros [Hk He]%andb_true_iff. unfold contents_element, quote_tag. cbn [xml_ok]. cbn [forallb].
  rewrite !leaf_ok; try done; [apply pretty_printable|apply fmt_printable|apply modified_printable].
  cbn [forallb]. destruct (truthy_opt (li_etag o)); [by rewrite He|]. unfold key_etag. by rewrite md5_printable.
Qed.

Lemma forallb_imap {A B} (f : nat -> A -> B) (p : B -> bool) l : (forall i x, x ∈ l -> p (f i x) = true) -> forallb p (imap f l) = true.
Proof.
  revert f. induction l as [|x l IH]; intros f H; [done|]. cbn. rewrite H by left. apply IH. intros i y Hy. apply H. by right.
Qed.

Lemma opt_leaf_ok tag o : is_name tag = true -> opt_ok o = true -> forallb xml_ok (opt_leaf tag o) = true.
Proof. intros Ht Ho. destruct o as [s|]; [|done]. cbn [opt_leaf forallb]. by rewrite leaf_ok. Qed.

Lemma tree_ok now bucket prefix objects delimiter prefixes max_keys truncated next token start :
  printable bucket = true -> printable prefix = true -> printable delimiter = true -> opt_ok next = true -> opt_ok token = true ->
  opt_ok start = true -> forallb listed_ok objects = true -> forallb printable prefixes = true ->
  xml_ok (list_objects_tree now bucket prefix objects delimiter prefixes max_keys truncated next token start) = true.
Proof.
  intros Hb Hp Hd Hn Ht Hs Ho Hc. unfold list_objects_tree. cbn [xml_ok].
  rewrite !forallb_app, !opt_leaf_ok by done. cbn [forallb]. rewrite !leaf_ok by (done || apply pretty_printable || by destruct truncated).
  assert (forallb xml_ok (imap (fun i o => contents_element (now i) o) objects) = true) as ->.
  { apply forallb_imap. intros i o Hin. apply contents_ok. eapply forallb_forall in Ho; [done|by apply list_elem_of_In]. }
  assert (forallb xml_ok (map (fun cp => El "CommonPrefixes" [] "" [leaf "Prefix" cp]) prefixes) = true) as ->.
  { clear -Hc. induction prefixes as [|p l IH]; [done|]. apply andb_true_iff in Hc as [Hp Hc]. cbn [map forallb xml_ok].
    rewrite leaf_ok by done. by rewrite IH. }
  destruct (truthy_opt next), (truthy_str delimiter); cbn [forallb]; by rewrite ?leaf_ok.
Qed.

(** Enough fuel to read a document is the length of its text. *)
Lemma size_le_text e : xml_ok e = true -> (xml_size e <= String.length (tostring e))%nat.
Proof.
  induction e as [tag attrs text children IH] using xml_induction. cbn [xml_ok].
  intros [_ Hch]%andb_true_iff. cbn [xml_size tostring].
  assert (foldr (fun c n => xml_size c + n)%nat 0%nat children <= String.length (fmt (map tostring children)))%nat as Hl.
  { clear -IH Hch. induction IH as [|c l Hc _ IHl]; [cbn; lia|]. apply andb_true_iff in Hch as [H1 H2]. cbn [map foldr].
    rewrite fmt_cons, length_app_s. specialize (Hc H1). specialize (IHl H2). lia. }
  destruct (_ || _) eqn:E.
  - rewrite !fmt_cons, !length_app_s. cbn [String.length]. lia.
  - apply orb_false_iff in E as [_ E]. destruct children; [|done]. cbn [foldr]. rewrite !fmt_cons, !length_app_s. cbn [String.length]. lia.
Qed.

(** *** Reading a page *)

Lemma read_contents now objects :
  filter (fun e => tag_of e = "Contents") (imap (fun i o => contents_element (now i) o) objects) = imap (fun i o => contents_element (now i) o) objects /\
  filter (fun e => tag_of e = "CommonPrefixes") (imap (fun i o => contents_element (now i) o) objects) = [] /\
  mapM (fun e => child_text "Key" (children_of e)) (imap (fun i o => contents_element (now i) o) objects) = Some (map li_key objects) /\
  map without_attrs (imap (fun i o => contents_element (now i) o) objects) = imap (fun i o => contents_element (now i) o) objects.
Proof.
  revert now. induction objects as [|o l IH]; intros now; [done|].
  destruct (IH (now ∘ S)) as (H1 & H2 & H3 & H4). cbn [imap]. unfold compose in *. split_and!.
  - rewrite filter_cons_True by done. f_equal. exact H1.
  - rewrite filter_cons_False by done. exact H2.
  - cbn [mapM]. change (child_text "Key" (children_of (contents_element (now 0%nat) o))) with (Some (li_key o)).
    cbn [mbind option_bind]. rewrite H3. done.
  - cbn [map]. rewrite H4. done.
Qed.

Lemma read_prefixes prefixes : let l := map (fun cp => El "CommonPrefixes" [] "" [leaf "Prefix" cp]) prefixes in
  filter (fun e => tag_of e = "CommonPrefixes") l = l /\ filter (fun e => tag_of e = "Contents") l = [] /\
  mapM (fun e => child_text "Prefix" (children_of e)) l = Some prefixes /\ map without_attrs l = l.
Proof.
  cbv zeta. induction prefixes as [|p l (H1 & H2 & H3 & H4)]; [done|]. cbn [map]. split_and!.
  - rewrite filter_cons_True by done. f_equal. exact H1.
  - rewrite filter_cons_False by done. exact H2.
  - cbn [mapM]. change (child_text "Prefix" (children_of (El "CommonPrefixes" [] "" [leaf "Prefix" p]))) with (Some p).
    cbn [mbind option_bind]. rewrite H3. done.
  - rewrite H4. done.
Qed.

(** The elements before the entries. *)
Definition head_elements (bucket prefix delimiter : string) (count max_keys : Z) (truncated : bool) (next token start : option string) : list xml :=
  [leaf "Name" bucket; leaf "Prefix" prefix] ++ opt_leaf "StartAfter" start
  ++ [leaf "KeyCount" (pretty count); leaf "MaxKeys" (pretty max_keys); leaf "IsTruncated" (if truncated then "true" else "false")]
  ++ opt_leaf "ContinuationToken" token
  ++ (if truthy_opt next then [leaf "NextContinuationToken" (or_empty next)] else [])
  ++ (if truthy_str delimiter then [leaf "Delimiter" delimiter] else []).

Lemma head_elements_read bucket prefix delimiter count max_keys truncated next token start tail :
  let l := head_elements bucket prefix delimiter count max_keys truncated next token start in
  filter (fun e => tag_of e = "Contents") l = [] /\ filter (fun e => tag_of e = "CommonPrefixes") l = [] /\
  child_text "IsTruncated" (l ++ tail) = Some (if truncated then "true" else "false") /\
  (truthy_opt next = true -> child_text "NextContinuationToken" (l ++ tail) = next) /\ map without_attrs l = l.
Proof.
  cbv zeta. unfold head_elements, truthy_opt.
  destruct start as [start|], token as [token|], (truthy_str delimiter), next as [next|]; cbn [or_empty from_option id];
    try (destruct (truthy_str next)); split_and!;
    first [reflexivity | intros H; first [reflexivity | discriminate H]].
Qed.

Lemma read_page_response now bucket prefix objects delimiter prefixes max_keys truncated next token start :
  printable bucket = true -> printable prefix = true -> printable delimiter = true -> opt_ok next = true -> opt_ok token = true ->
  opt_ok start = true -> forallb listed_ok objects = true -> forallb printable prefixes = true ->
  exists page, read_page (list_objects_v2_response now bucket prefix objects delimiter prefixes max_keys truncated next token start) = Some page /\
    pr_names page = map li_key objects ++ prefixes /\ pr_truncated page = truncated /\ (truthy_opt next = true -> pr_next page = next).
Proof.
  intros Hb Hp Hd Hn Ht Hs Ho Hc. pose proof (tree_ok now _ _ _ _ _ max_keys truncated _ _ _ Hb Hp Hd Hn Ht Hs Ho Hc) as Hok.
  unfold list_objects_v2_response. set (tree := list_objects_tree _ _ _ _ _ _ _ _ _ _ _) in *. unfold read_page.
  rewrite document_roundtrip; [|done|].
  2: { etrans; [by apply size_le_text|]. unfold xml_document. rewrite length_app_s. lia. }
  destruct (head_elements_read bucket prefix delimiter (Z.of_nat (length objects + length prefixes)) max_keys truncated next token start
    (imap (fun i o => contents_element (now i) o) objects ++ map (fun cp => El "CommonPrefixes" [] "" [leaf "Prefix" cp]) prefixes))
    as (H1 & H2 & H3 & H4 & H5).
  destruct (read_contents now objects) as (C1 & C2 & C3 & C4). destruct (read_prefixes prefixes) as (P1 & P2 & P3 & P4).
  set (h := head_elements _ _ _ _ _ _ _ _ _) in *.
  assert (children_of (without_attrs tree) = h ++ imap (fun i o => contents_element (now i) o) objects
    ++ map (fun cp => El "CommonPrefixes" [] "" [leaf "Prefix" cp]) prefixes) as Htree.
  { rewrite <- H5 at 1. rewrite <- C4 at 1. rewrite <- P4 at 1. rewrite <- !map_app. unfold tree, list_objects_tree, h, head_elements.
    cbn [without_attrs children_of]. f_equal. by rewrite <- !app_assoc. }
  cbn [mbind option_bind]. rewrite Htree, !filter_app, H1, H2, C1, C2, P1, P2, app_nil_r. cbn [app].
  rewrite C3. cbn [mbind option_bind]. rewrite P3. cbn [mbind option_bind]. rewrite H3. cbn [mbind option_bind].
  eexists. split; [done|]. cbn [pr_names pr_truncated pr_next]. split_and!; [done|by destruct truncated|exact H4].
Qed.

(** ** Pages *)

(** Entries in strictly increasing order of their names. *)
Definition name_lt (a b : candidate) : Prop := str_le (candidate_name a) (candidate_name b) /\ candidate_name a <> candidate_name b.

Lemma filter_after (pre : list candidate) c post : StronglySorted name_lt (pre ++ c :: post) ->
  filter (fun x => ~ str_le (candidate_name x) (candidate_name c)) (pre ++ c :: post) = post.
Proof.
  intros Hs. rewrite filter_app. assert (Forall (fun x => name_lt x c) pre /\ Forall (name_lt c) post) as [Hpre Hpost].
  { induction pre as [|y pre IH]; cbn in Hs; apply StronglySorted_inv in Hs as [Hs Hy]; [by split|].
    destruct (IH Hs) as [H1 H2]. split; [|done]. constructor; [|done]. apply Forall_app in Hy as [_ Hy]. by apply Forall_cons in Hy as [? _]. }
  assert (filter (fun x => ~ str_le (candidate_name x) (candidate_name c)) pre = []) as ->.
  { clear -Hpre. induction Hpre as [|x l [Hx _] _ IH]; [done|]. rewrite filter_cons_False by (intros H; by apply H). exact IH. }
  rewrite filter_cons_False by (intros H; apply H; unfold str_le; reflexivity). cbn [app].
  clear -Hpost. induction Hpost as [|x l [Hx Hne] _ IH]; [done|]. rewrite filter_cons_True; [by rewrite IH|].
  intros H. apply Hne. by apply str_le_antisym.
Qed.

(** The entries that are left when a token has been received. *)
Definition left_after (all : list candidate) (token : option string) (rest : list candidate) : Prop :=
  match token with
  | None => rest = all
  | Some t => exists pre c, all = pre ++ c :: rest /\ candidate_name c = t /\ t <> ""
  end.

Lemma list_page_run all token rest max_keys : StronglySorted name_lt all -> left_after all token rest -> 1 <= max_keys ->
  Forall (fun c => candidate_name c <> "") all ->
  let k := Z.to_nat max_keys in
  exists next, list_page all token max_keys = (take k rest, (k <? length rest)%nat, next) /\
    ((k < length rest)%nat -> left_after all next (drop k rest) /\ exists t, next = Some t /\ t <> "") /\
    ((length rest <= k)%nat -> next = None).
Proof.
  intros Hs Hl Hk Hne k.
  assert (exists before, all = before ++ rest) as [before Eall].
  { destruct token as [t|]; [|by exists []; rewrite Hl]. destruct Hl as (pre & c & -> & _). exists (pre ++ [c]). by rewrite <- app_assoc. }
  assert ((if truthy_opt token then filter (fun c => ~ str_le (candidate_name c) (or_empty token)) all else all) = rest) as Hrest.
  { destruct token as [t|]; [|by rewrite Hl]. destruct Hl as (pre & c & E & Hc & Ht). unfold truthy_opt. cbn [or_empty from_option id].
    rewrite (proj2 (truthy_str_true t) Ht), E, <- Hc. apply filter_after. by rewrite <- E. }
  unfold list_page. rewrite Hrest. fold k. cbv zeta.
  assert ((0 <? max_keys) = true) as -> by (apply Z.ltb_lt; lia). cbn [andb]. rewrite length_take.
  assert ((k `min` length rest <? length rest)%nat = (k <? length rest)%nat) as ->.
  { destruct (Nat.ltb_spec (k `min` length rest) (length rest)), (Nat.ltb_spec k (length rest)); lia || done. }
  eexists. split_and!; [done| |by intros ->%Nat.ltb_ge]. intros Hlt. rewrite (proj2 (Nat.ltb_lt _ _) Hlt).
  assert (exists c, last (take k rest) = Some c) as [c Hc] by (apply last_is_Some; intros E; apply (f_equal length) in E; rewrite length_take in E; cbn in E; lia).
  rewrite Hc. cbn [fmap option_fmap option_map].
  apply last_Some in Hc as [p Hp]. assert (c ∈ all) as Hin.
  { rewrite Eall. apply elem_of_app. right. rewrite <- (take_drop k rest), Hp. apply elem_of_app. left. apply elem_of_app. right. by left. }
  pose proof (Forall_elem _ _ _ Hne Hin) as Hcn. split; [|by exists (candidate_name c)].
  exists (before ++ p), c. split_and!; [|done|done]. rewrite Eall. rewrite <- (take_drop k rest) at 1. rewrite Hp, <- !app_assoc. done.
Qed.

(** *** The entries of a listing *)

Lemma find_sub_take p s i : find_sub p s = Some i -> is_Some (find_sub p (str_take (i + String.length p) s)).
Proof.
  revert i. induction s as [|a s IH]; intros i; cbn [find_sub].
  - destruct (startswith "" p) eqn:E; [|done]. intros [= <-]. apply startswith_inv in E as [t Ht].
    destruct p as [|b p]; [by exists 0%nat|discriminate Ht].
  - destruct (startswith (String a s) p) eqn:E.
    + intros [= <-]. apply startswith_inv in E as [t Ht]. exists 0%nat. rewrite Ht.
      assert (str_take (0 + String.length p) (p +:+ t) = p) as ->; [|].
      { clear. induction p as [|b p IH]; [by destruct t|]. cbn. f_equal. exact IH. }
      assert (startswith p p = true) as Hpp by (rewrite <- (app_nil_r_s p) at 1; apply startswith_app).
      destruct p as [|b p]; [done|]. cbn [find_sub]. by rewrite Hpp.
    + intros (j & Hj & ->)%fmap_Some. destruct (IH j Hj) as [m Hm]. cbn [str_take Nat.add]. cbn [find_sub].
      destruct (startswith (String a (str_take (j + String.length p) s)) p); [by exists 0%nat|]. rewrite Hm. by exists (S m).
Qed.

(** How a key shows in a listing: as itself, or as the folder it is in. *)
Definition shown (prefix delimiter key : string) : string :=
  if truthy_str delimiter then default key (common_prefix prefix delimiter key) else key.

Lemma folder_has_folder prefix delimiter key cp :
  common_prefix prefix delimiter key = Some cp -> common_prefix prefix delimiter cp <> None.
Proof.
  unfold common_prefix. intros (i & Hi & ->)%fmap_Some. rewrite str_drop_app. intros H. apply fmap_None in H.
  destruct (find_sub_take _ _ _ Hi) as [m Hm]. congruence.
Qed.

Lemma display_plain key : display_key_for_prefix key false = key.
Proof. done. Qed.

Lemma elem_of_candidates objects prefix delimiter x :
  x ∈ map candidate_name (candidates objects prefix delimiter false) <->
  exists k o, (k, o) ∈ objects /\ startswith k prefix = true /\ x = shown prefix delimiter k.
Proof.
  unfold candidates, shown. rewrite (fmap_Permutation candidate_name _ _ (merge_sort_Permutation candidate_le _)).
  rewrite fmap_app, elem_of_app, <- !list_fmap_compose. destruct (truthy_str delimiter).
  - split.
    + intros [Hx|Hx].
      * apply list_elem_of_fmap in Hx as ([k o] & -> & Hko). apply list_elem_of_filter in Hko as [Hn [Hs Hin]%list_elem_of_filter].
        exists k, o. cbn in *. by rewrite Hn.
      * apply list_elem_of_fmap in Hx as (cp & -> & Hcp). cbn. unfold sorted_set in Hcp.
        rewrite merge_sort_Permutation, elem_of_remove_dups in Hcp. apply list_elem_of_omap in Hcp as ([k o] & [Hs Hin]%list_elem_of_filter & Hk).
        apply fmap_Some in Hk as (c & Hc & ->). exists k, o. cbn in *. by rewrite Hc.
    + intros (k & o & Hin & Hs & ->). destruct (common_prefix prefix delimiter k) as [cp|] eqn:E; cbn.
      * right. apply list_elem_of_fmap. exists cp. split; [done|]. unfold sorted_set. rewrite merge_sort_Permutation, elem_of_remove_dups.
        apply list_elem_of_omap. exists (k, o). split; [by apply list_elem_of_filter|]. cbn. by rewrite E.
      * left. apply list_elem_of_fmap. exists (k, o). split; [done|]. apply list_elem_of_filter. split; [done|]. by apply list_elem_of_filter.
  - split.
    + intros [Hx|Hx]; [|by apply not_elem_of_nil in Hx]. apply list_elem_of_fmap in Hx as ([k o] & -> & [Hs Hin]%list_elem_of_filter). by exists k, o.
    + intros (k & o & Hin & Hs & ->). left. apply list_elem_of_fmap. exists (k, o). split; [done|]. by apply list_elem_of_filter.
Qed.

(** The listing has every name once. *)
Lemma candidate_names_nodup objects prefix delimiter : NoDup (map fst objects) ->
  NoDup (map candidate_name (candidates objects prefix delimiter false)).
Proof.
  intros Hnd. unfold candidates. cbv zeta. rewrite (fmap_Permutation candidate_name _ _ (merge_sort_Permutation candidate_le _)).
  rewrite fmap_app, <- !list_fmap_compose.
  set (matched := filter (fun kv : string * virtual_object => startswith kv.1 prefix = true) objects).
  assert (forall (P : string * virtual_object -> Prop) `{!forall x, Decision (P x)} (l : object_map), NoDup (map fst l) -> NoDup (map fst (filter P l))) as Hf.
  { clear. intros P HP l H. assert (map fst (filter P l) `sublist_of` map fst l) as Hs by apply (fmap_sublist fst), sublist_filter.
    by apply (sublist_NoDup _ _ H Hs). }
  assert (NoDup (map fst matched)) as Hm by (by apply Hf).
  apply NoDup_app. split_and!.
  - assert (forall l : object_map, candidate_name ∘ (fun kv => CObject (listed_object kv.1 kv.2 false)) <$> l = map fst l) as -> by done.
    destruct (truthy_str delimiter); [by apply Hf|done].
  - intros x Hx1 Hx2. destruct (truthy_str delimiter); [|by apply not_elem_of_nil in Hx2].
    apply list_elem_of_fmap in Hx1 as ([k o] & -> & [Hn _]%list_elem_of_filter). cbn in *.
    apply list_elem_of_fmap in Hx2 as (cp & E & Hcp). cbn in E. subst cp. unfold sorted_set in Hcp.
    rewrite merge_sort_Permutation, elem_of_remove_dups in Hcp. apply list_elem_of_omap in Hcp as ([k' o'] & _ & Hk).
    apply fmap_Some in Hk as (c & Hc & ->). by apply folder_has_folder in Hc.
  - destruct (truthy_str delimiter); [|constructor]. assert (forall l, candidate_name ∘ CPrefix <$> l = l) as -> by (intros l; apply list_fmap_id).
    unfold sorted_set. rewrite merge_sort_Permutation. apply NoDup_remove_dups.
Qed.

#[local] Instance candidate_le_trans : Transitive candidate_le.
Proof. intros a b c. apply str_le_trans. Qed.
#[local] Instance candidate_le_total : Total candidate_le.
Proof. intros a b. apply str_le_total. Qed.

Lemma sorted_strict (l : list candidate) : StronglySorted candidate_le l -> NoDup (map candidate_name l) -> StronglySorted name_lt l.
Proof.
  induction 1 as [|c l Hs IH Hc]; cbn; intros Hnd; [constructor|]. apply NoDup_cons in Hnd as [Hni Hnd]. constructor; [by apply IH|].
  apply Forall_forall. intros x Hx. split; [by apply (Forall_elem _ _ _ Hc)|]. intros E. apply Hni. rewrite E. by apply list_elem_of_fmap_2.
Qed.

Lemma candidates_sorted objects prefix delimiter : NoDup (map fst objects) ->
  StronglySorted name_lt (candidates objects prefix delimiter false).
Proof.
  intros Hnd. apply sorted_strict; [|by apply candidate_names_nodup]. apply (StronglySorted_merge_sort candidate_le).
Qed.

(** An entry that can be written in XML and used as a token. *)
Definition candidate_ok (c : candidate) : Prop :=
  match c with CObject o => listed_ok o = true | CPrefix p => printable p = true end /\ candidate_name c <> "".

(** Objects that can be listed: a name and a tag that XML can hold. *)
Definition listable (objects : object_map) : Prop :=
  NoDup (map fst objects) /\
  Forall (fun kv => kv.1 <> "" /\ printable kv.1 = true /\ opt_ok (vo_etag kv.2) = true) objects.

Lemma str_take_printable n s : printable s = true -> printable (str_take n s) = true.
Proof.
  revert s. induction n as [|n IH]; intros [|a s]; try done. unfold printable in *. cbn [str_take str_forallb].
  intros [Ha Hs]%andb_true_iff. rewrite Ha. by apply IH.
Qed.
Lemma str_drop_printable n s : printable s = true -> printable (str_drop n s) = true.
Proof.
  revert s. induction n as [|n IH]; intros [|a s]; try done. cbn [str_drop]. intros H. apply IH.
  unfold printable in *. cbn [str_forallb] in H. by apply andb_true_iff in H as [_ H].
Qed.

Lemma folder_name_ok prefix delimiter key cp : printable prefix = true -> printable key = true -> delimiter <> "" ->
  common_prefix prefix delimiter key = Some cp -> printable cp = true /\ cp <> "".
Proof.
  intros Hp Hk Hd Hc. split.
  - unfold common_prefix in Hc. apply fmap_Some in Hc as (i & Hi & ->). rewrite printable_app, Hp. by apply str_take_printable, str_drop_printable.
  - intros ->. unfold common_prefix in Hc. apply fmap_Some in Hc as (i & Hi & E). symmetry in E.
    destruct (find_sub_take _ _ _ Hi) as [m Hm]. destruct prefix; [|discriminate E]. change (str_take (i + String.length delimiter) (str_drop (String.length "") key) = "") in E. rewrite E in Hm.
    cbn in Hm. destruct delimiter; [done|]. discriminate Hm.
Qed.

Lemma candidates_ok objects prefix delimiter : listable objects -> printable prefix = true ->
  Forall candidate_ok (candidates objects prefix delimiter false).
Proof.
  intros [_ Hl] Hp. unfold candidates. cbv zeta. rewrite merge_sort_Permutation. rewrite Forall_app, !Forall_fmap. split.
  - assert (Forall (candidate_ok ∘ (fun kv => CObject (listed_object kv.1 kv.2 false))) objects) as H.
    { eapply Forall_impl; [exact Hl|]. intros [k o] (H1 & H2 & H3). split; [|exact H1]. unfold listed_ok. cbn [li_key li_etag listed_object] in *. unfold opt_ok in H3. change (printable (display_key_for_prefix k false)) with (printable k). apply andb_true_iff. by split. }
    rewrite Forall_forall in H. apply Forall_forall. intros x Hx. apply H. destruct (truthy_str delimiter); repeat apply list_elem_of_filter in Hx as [_ Hx]; exact Hx.
  - destruct (truthy_str delimiter) eqn:Ed; [|constructor]. apply truthy_str_true in Ed. apply Forall_forall. intros cp Hcp. unfold sorted_set in Hcp.
    rewrite merge_sort_Permutation, elem_of_remove_dups in Hcp. apply list_elem_of_omap in Hcp as ([k o] & [_ Hin]%list_elem_of_filter & Hk).
    apply fmap_Some in Hk as (c & Hc & ->). pose proof (Forall_elem _ _ _ Hl Hin) as (_ & Hpk & _).
    by destruct (folder_name_ok _ _ _ _ Hp Hpk Ed Hc).
Qed.

Lemma candidates_length objects prefix delimiter : listable objects ->
  (length (candidates objects prefix delimiter false) <= length objects)%nat.
Proof.
  intros [Hnd _]. rewrite <- (length_map candidate_name), <- (length_map (fun kv => shown prefix delimiter kv.1) objects).
  apply submseteq_length, NoDup_submseteq; [by apply candidate_names_nodup|].
  intros x Hx. apply elem_of_candidates in Hx as (k & o & Hin & _ & ->). apply list_elem_of_fmap. by exists (k, o).
Qed.

Lemma page_names (page : list candidate) : map li_key (page_objects page) ++ page_prefixes page ≡ₚ map candidate_name page.
Proof.
  induction page as [|[o|p] l IH]; [done| |]; cbn [map page_objects page_prefixes omap list_omap candidate_name app].
  - constructor. exact IH.
  - rewrite <- IH. symmetry. apply Permutation_middle.
Qed.

Lemma page_listed (page : list candidate) : Forall candidate_ok page ->
  forallb listed_ok (page_objects page) = true /\ forallb printable (page_prefixes page) = true.
Proof.
  induction 1 as [|[o|p] l [Hc _] _ [IH1 IH2]]; [done| |]; cbn [page_objects page_prefixes omap list_omap forallb];
    split; [apply andb_true_iff; by split|done|done|apply andb_true_iff; by split].
Qed.

(** ** The handler *)

Section listing.
Context `{HEnv : Env} `{HSource : DataSource} `{HStreams : RowStreams} `{HAvro : Avro} (cfg : endpoint_config).

(** The request for a page. *)
Definition page_request (prefix delimiter : string) (max_keys : Z) (token : option string) : request :=
  let q := <["prefix":=prefix]> (<["delimiter":=delimiter]> (<["max-keys":=pretty max_keys]> ∅)) in
  Request (match token with Some t => <["continuation-token":=t]> q | None => q end) None.

Definition answer {A} (m : M node A) (n : node) : option A := match m n with (Ok a, _) => Some a | _ => None end.

(** A node that shows these objects below a prefix, which is not an alias. *)
Definition shows (prefix : string) (objects : object_map) (n : node) : Prop :=
  normalize_incoming_prefix cfg (nd_registry n) prefix = (prefix, false) /\
  exists n1 n2, ensure_lazy_materialized_for_prefix cfg prefix (tick n).2 = (Ok tt, n1) /\ snapshot_objects cfg n1 = (Ok objects, n2).

(** A prefix that a listing looks up. *)
Definition looked_up (prefix : string) : bool :=
  negb (is_delta cfg && (is_absent_delta_sidecar cfg prefix || endswith prefix "/_metadata/table.json.gz" || endswith prefix "/_metadata/table.json.gz/")).

Lemma query_values prefix delimiter max_keys token : 1 <= max_keys ->
  let q := rq_query (page_request prefix delimiter max_keys token) in
  q !! "prefix" = Some prefix /\ q !! "delimiter" = Some delimiter /\ q !! "start-after" = None /\ q !! "continuation-token" = token /\
  max_keys_of q = max_keys.
Proof.
  intros Hk. unfold max_keys_of, page_request. cbv zeta. cbn [rq_query].
  assert (int_of_string (pretty max_keys) = Some max_keys) as Hi by (apply int_of_pretty; lia).
  destruct token as [t|]; simplify_map_eq; by rewrite ?Hi.
Qed.

Lemma list_objects_v2_run prefix delimiter max_keys token objects n :
  mounted cfg (bucket_name cfg) = false -> looked_up prefix = true -> 1 <= max_keys <= 1000 -> shows prefix objects n ->
  exists now page truncated next,
    list_page (candidates objects prefix delimiter false) token max_keys = (page, truncated, next) /\
    answer (list_objects_v2 cfg (bucket_name cfg) (page_request prefix delimiter max_keys token)) n =
      Some (Response 200 [("Content-Type", "application/xml")]
        (list_objects_v2_response now (bucket_name cfg) prefix (page_objects page) delimiter (page_prefixes page) max_keys truncated next token None)).
Proof.
  intros Hm Hl Hk [Hn (n1 & n2 & Hlazy & Hobj)]. destruct (query_values prefix delimiter max_keys token) as (Q1 & Q2 & Q3 & Q4 & Q5); [lia|].
  destruct (list_page _ token max_keys) as [[page truncated] next] eqn:Ep.
  exists (fun i => clock ((match (tick n).1 with Ok k => k | _ => 0%nat end) + i)%nat), page, truncated, next. split; [done|].
  unfold answer, list_objects_v2. rewrite Hm, String.eqb_refl. cbn [negb]. cbv zeta. rewrite Q1, Q2, Q3, Q4, Q5. cbn [default from_option id].
  assert ((max_keys <? 0) || (1000 <? max_keys) = false) as -> by (apply orb_false_iff; rewrite !Z.ltb_ge; lia).
  rewrite (run_bind _ _ (nd_registry n) n n) by done. rewrite Hn.
  erewrite (run_bind tick) by reflexivity.
  unfold looked_up in Hl. apply negb_true_iff in Hl. rewrite Hl.
  erewrite run_bind by exact Hlazy. erewrite run_bind by exact Hobj.
  replace (match token with Some t => Some t | None => None end) with token by (by destruct token).
  rewrite Ep. reflexivity.
Qed.

(** *** The objects of a node have distinct keys *)

(** Every result of the program satisfies the predicate. *)
Definition returns {S A} (P : A -> Prop) (m : M S A) : Prop := forall s a s', m s = (Ok a, s') -> P a.

Lemma returns_ret {S A} (P : A -> Prop) a : P a -> returns (S := S) P (mret a).
Proof. intros Ha s b s' [= <- _]. done. Qed.
Lemma returns_bind {S A B} (Q : A -> Prop) (P : B -> Prop) (m : M S A) f :
  returns Q m -> (forall a, Q a -> returns P (f a)) -> returns P (m ≫= f).
Proof.
  intros Hm Hf s b s'. unfold mbind, M_bind. destruct (m s) as [[a|] s1] eqn:E; [|done]. by apply Hf, (Hm s a s1).
Qed.
Lemma returns_true {S A} (m : M S A) : returns (fun _ => True) m.
Proof. done. Qed.
Lemma returns_step {S A B} (P : B -> Prop) (m : M S A) f : (forall a, returns P (f a)) -> returns P (m ≫= f).
Proof. intros Hf. by eapply returns_bind; [apply returns_true|]. Qed.
Lemma returns_foldM {S A B} (P : B -> Prop) (f : B -> A -> M S B) b l :
  P b -> (forall b a, P b -> returns P (f b a)) -> returns P (foldM f b l).
Proof.
  intros Hb Hf. revert b Hb. induction l as [|a l IH]; intros b Hb; [by apply returns_ret|]. cbn [foldM].
  eapply returns_bind; [by apply Hf|exact IH].
Qed.

Definition distinct (objects : object_map) : Prop := NoDup (map fst objects).

Lemma foldl_set_distinct {A} (f : object_map -> A -> object_map) l objects :
  (forall o a, distinct o -> distinct (f o a)) -> distinct objects -> distinct (foldl f objects l).
Proof. intros Hf. revert objects. induction l as [|a l IH]; intros objects Ho; [done|]. cbn. apply IH. by apply Hf. Qed.

Lemma update_distinct (d e : object_map) : distinct d -> distinct (odict_update d e).
Proof. apply foldl_set_distinct. intros o a. apply odict_set_NoDup. Qed.

Lemma data_objects_distinct ccfg snaps acc : distinct acc -> returns distinct (data_objects ccfg snaps acc).
Proof.
  intros Ha. unfold data_objects. apply (returns_bind (fun r : object_map * list string => distinct r.1)); [|intros r Hr; by apply returns_ret].
  apply returns_foldM; [done|]. intros [objects seen] [snap sd] Ho. destruct (bool_decide _); [by apply returns_ret|].
  apply returns_step. intros cached. apply returns_ret. by apply odict_set_NoDup.
Qed.

Lemma delta_objects_distinct ccfg : returns distinct (delta_log_objects ccfg).
Proof.
  apply returns_step. intros snaps. apply returns_foldM; [constructor|]. intros acc [name l] Ha. unfold table_objects.
  apply returns_step. intros _. destruct l as [|x rest]; [done|]. apply returns_step. intros commits. apply data_objects_distinct.
  apply foldl_set_distinct; [|done]. intros o a. apply odict_set_NoDup.
Qed.

Lemma iceberg_objects_distinct snap : returns distinct (objects_for_snapshot cfg snap).
Proof.
  unfold objects_for_snapshot. apply returns_step. intros [meta s1]. apply returns_step. intros [mlist s2]. apply returns_step. intros [mfile s3].
  apply (returns_bind distinct).
  - apply returns_foldM; [apply update_distinct; constructor|]. intros o a Ho. apply returns_step. intros cached. apply returns_ret.
    by apply odict_set_NoDup.
  - intros objects Ho. apply returns_ret. destruct (_ && _); [by apply update_distinct|done].
Qed.

Lemma snapshot_objects_distinct : returns distinct (snapshot_objects cfg).
Proof.
  unfold snapshot_objects. destruct (is_delta cfg); [apply delta_objects_distinct|]. apply returns_step. intros snaps.
  apply returns_foldM; [constructor|]. intros acc snap Ha. apply (returns_bind distinct); [apply iceberg_objects_distinct|].
  intros os _. apply returns_ret. by apply update_distinct.
Qed.

(** *** Following the tokens *)

Lemma ok_printable c : candidate_ok c -> printable (candidate_name c) = true.
Proof. intros [H _]. destruct c; [by apply andb_true_iff in H as [H _]|exact H]. Qed.

Lemma token_printable all token rest : Forall candidate_ok all -> left_after all token rest -> opt_ok token = true.
Proof.
  intros Hall. destruct token as [t|]; [|done]. intros (pre & c & -> & <- & _).
  apply Forall_app in Hall as [_ Hall]. apply Forall_cons in Hall as [Hc _]. by apply ok_printable.
Qed.

Lemma left_suffix all token rest : left_after all token rest -> exists before, all = before ++ rest.
Proof.
  destruct token as [t|]; [|by exists []]. intros (pre & c & -> & _). exists (pre ++ [c]). by rewrite <- app_assoc.
Qed.

Section client.
Context (objects : object_map) (prefix delimiter : string) (max_keys : Z) (nodes : option string -> node).
Context (Hmount : mounted cfg (bucket_name cfg) = false) (Hlook : looked_up prefix = true) (Hk : 1 <= max_keys <= 1000)
  (Hb : printable (bucket_name cfg) = true) (Hp : printable prefix = true) (Hd : printable delimiter = true) (Hl : listable objects)
  (Hshows : forall token, shows prefix objects (nodes token)).

Definition serve (token : option string) : option response :=
  answer (list_objects_v2 cfg (bucket_name cfg) (page_request prefix delimiter max_keys token)) (nodes token).

(** One page: the entries that come next, and a token for those after it. *)
Lemma page_read_run token rest : left_after (candidates objects prefix delimiter false) token rest ->
  let k := Z.to_nat max_keys in
  exists body page, serve token = Some body /\ read_page (rs_body body) = Some page /\
    pr_names page ≡ₚ map candidate_name (take k rest) /\ pr_truncated page = (k <? length rest)%nat /\
    ((k < length rest)%nat -> left_after (candidates objects prefix delimiter false) (pr_next page) (drop k rest)).
Proof.
  intros Ha k. set (all := candidates objects prefix delimiter false) in *.
  assert (Forall candidate_ok all) as Hall by (by apply candidates_ok).
  assert (StronglySorted name_lt all) as Hs by (apply candidates_sorted, Hl).
  destruct (list_page_run all token rest max_keys) as (next & Hpage & Hnext & Hlast); [done|done|lia| |].
  { eapply Forall_impl; [exact Hall|]. by intros c []. }
  fold k in Hpage, Hnext, Hlast.
  destruct (list_objects_v2_run prefix delimiter max_keys token objects (nodes token)) as (now & page & truncated & next' & E & Hrun); try done.
  fold all in E. rewrite Hpage in E. injection E as <- <- <-.
  destruct (left_suffix _ _ _ Ha) as [before Eall].
  assert (Forall candidate_ok (take k rest)) as Hpk by (apply Forall_take; rewrite Eall in Hall; by apply Forall_app in Hall as [_ ?]).
  destruct (page_listed _ Hpk) as [Ho Hf].
  assert (opt_ok next = true) as Hno.
  { destruct (Nat.lt_ge_cases k (length rest)) as [Hlt|Hge]; [|by rewrite Hlast]. apply (token_printable all next (drop k rest)); [done|]. by destruct (Hnext Hlt). }
  destruct (read_page_response now (bucket_name cfg) prefix (page_objects (take k rest)) delimiter (page_prefixes (take k rest)) max_keys
    (k <? length rest)%nat next token None) as (page & Hread & Hnames & Htr & Hnx); try done; [exact (token_printable _ _ _ Hall Ha)|].
  eexists _, page. split; [exact Hrun|]. cbn [rs_body]. split_and!; [done|by rewrite Hnames; apply page_names|done|].
  intros Hlt. destruct (Hnext Hlt) as [Hla (t & -> & Ht)]. rewrite Hnx; [done|]. by apply truthy_str_true.
Qed.

Lemma download_run fuel token rest : (length rest <= fuel)%nat -> left_after (candidates objects prefix delimiter false) token rest ->
  exists names, download fuel serve token = Some names /\ names ≡ₚ map candidate_name rest.
Proof.
  revert token rest. induction fuel as [|fuel IH]; intros token rest Hf Ha;
    destruct (page_read_run token rest Ha) as (body & page & Hs & Hr & Hn & Ht & Hx); cbn [download]; rewrite Hs; cbn [mbind option_bind];
    rewrite Hr; cbn [mbind option_bind]; rewrite Ht; destruct (Nat.ltb_spec (Z.to_nat max_keys) (length rest)) as [Hlt|Hge]; try lia.
  - exists (pr_names page). split; [done|]. by rewrite Hn, take_ge.
  - destruct (IH (pr_next page) (drop (Z.to_nat max_keys) rest)) as (names & -> & Hnames); [rewrite length_drop; lia|by apply Hx|].
    exists (pr_names page ++ names). split; [done|]. by rewrite Hn, Hnames, <- map_app, take_drop.
  - exists (pr_names page). split; [done|]. by rewrite Hn, take_ge.
Qed.
End client.

(** C9: A client that lists a bucket page by page sees every entry exactly once.  Take any
    prefix and delimiter, any page size from 1 to 1000, and answer each request on any node
    that shows the same objects.  Every request succeeds, the client can read the XML of
    every page, and following the continuation tokens ends after at most as many further
    requests as there are objects.  The names received are distinct, and they are
    exactly the objects below the prefix, each shown as itself or as its folder. *)
Theorem listing_pages_complete prefix delimiter max_keys objects (nodes : option string -> node) :
  mounted cfg (bucket_name cfg) = false -> looked_up prefix = true -> 1 <= max_keys <= 1000 ->
  printable (bucket_name cfg) = true -> printable prefix = true -> printable delimiter = true ->
  Forall (fun kv => kv.1 <> "" /\ printable kv.1 = true /\ opt_ok (vo_etag kv.2) = true) objects ->
  (forall token, shows prefix objects (nodes token)) ->
  exists names, download (length objects) (serve prefix delimiter max_keys nodes) None = Some names /\ NoDup names /\
    forall x, x ∈ names <-> exists k o, (k, o) ∈ objects /\ startswith k prefix = true /\ x = shown prefix delimiter k.
Proof.
  intros Hmount Hlook Hk Hb Hp Hd Hl Hshows.
  assert (listable objects) as Hlist.
  { split; [|done]. destruct (Hshows None) as (_ & n1 & n2 & _ & Hobj). exact (snapshot_objects_distinct _ _ _ Hobj). }
  destruct (download_run objects prefix delimiter max_keys nodes Hmount Hlook Hk Hb Hp Hd Hlist Hshows (length objects) None
    (candidates objects prefix delimiter false)) as (names & Hrun & Hnames); [by apply candidates_length|done|].
  exists names. split; [done|]. split; [rewrite Hnames; by apply candidate_names_nodup, Hlist|].
  intros x. rewrite Hnames. apply elem_of_candidates.
Qed.
End listing.

(** *** A worked case *)

#[local] Existing Instance idle_source.
#[local] Existing Instance cache_env.
Definition no_streams : RowStreams := {|
  stream_split_query _ _ _ _ _ _ := Ok [];
  stream_rows_to_parquet _ _ _ _ := Ok ("PAR1", 0);
  uuid4 _ _ _ := "";
  parquet_num_rows _ := Ok 0;
|}.
Definition plain_avro : Avro := {|
  schemaless_writer _ _ := "";
  avro_writer _ _ _ := "Obj1";
|}.
#[local] Existing Instance no_streams.
#[local] Existing Instance plain_avro.

Definition demo_endpoint : endpoint_config :=
  EndpointConfig (MaterializeConfig demo_refresh "delta" "eager" 1 "none" false 1000) "db" [].

Definition demo_run : res object_map * node := snapshot_objects demo_endpoint (tick demo_published).2.
Definition demo_objects : object_map := match demo_run with (Ok objects, _) => objects | _ => [] end.

Lemma demo_shows : shows demo_endpoint "db/t/" demo_objects demo_published.
Proof.
  split; [vm_compute; reflexivity|]. exists (tick demo_published).2, demo_run.2. split; [reflexivity|].
  assert (match demo_run.1 with Ok _ => true | _ => false end = true) as H by (vm_compute; reflexivity).
  change (demo_run = (Ok demo_objects, demo_run.2)). unfold demo_objects. by destruct demo_run as [[] ?].
Qed.

Lemma listing_pages_complete_witness :
  exists names, download (length demo_objects) (serve demo_endpoint "db/t/" "/" 1 (fun _ => demo_published)) None = Some names /\
    NoDup names /\ "db/t/data/" ∈ names /\ "db/t/_delta_log/" ∈ names.
Proof.
  pose proof (listing_pages_complete demo_endpoint "db/t/" "/" 1 demo_objects (fun _ => demo_published)) as H.
  destruct H as (names & Hrun & Hnd & Hin); try reflexivity; [lia| |intros _; exact demo_shows|].
  - assert (forallb (fun kv => negb (String.eqb kv.1 "") && printable kv.1 && opt_ok (vo_etag kv.2)) demo_objects = true) as H
      by (vm_compute; reflexivity).
    apply Forall_forall. intros kv Hkv%list_elem_of_In. rewrite forallb_forall in H.
    apply H, andb_true_iff in Hkv as [[H1%negb_true_iff H2]%andb_true_iff H3]. apply String.eqb_neq in H1. by split_and!.
  - exists names. split; [exact Hrun|]. split; [exact Hnd|].
    split; apply Hin; [exists "db/t/data/b.parquet"|exists "db/t/_delta_log/00000000000000000000.json"]; eexists;
      (split; [vm_compute; repeat first [left|right]|split; vm_compute; reflexivity]).
Defined.

(** *** What a listing and a read disagree on *)

(** The keys a node lists, and the status with which it answers a read of each. *)
Definition read_statuses (cfg : endpoint_config) (n : node) : list (option Z) :=
  match snapshot_objects cfg n with
  | (Ok objects, n) => map (fun kv => rs_status <$> answer (get_object cfg (bucket_name cfg) kv.1 (Request ∅ None)) n) objects
  | _ => []
  end.

Definition iceberg_endpoint (prefix : string) (aliases : bool) : endpoint_config :=
  EndpointConfig (MaterializeConfig (RefreshConfig (ServingConfig demo_sources "legacy" aliases 2 "" [] (fun _ => None)) disk_only
    (IcebergConfig "b" false false []) true "auto" 60 false) "iceberg" "eager" 1 "none" false 1000) prefix [].
Definition email_table : table_def := TableDef "t" "t" [email_column] 1 None "" None None None None None None true.
Definition built_node (cfg : endpoint_config) : node :=
  (on_registry (build_table_snapshot (vcfg cfg) email_table "b" (WAREHOUSE_PREFIX cfg))
    (started (mz_refresh (mzcfg cfg)) [] "b" (WAREHOUSE_PREFIX cfg) cold (Freshness ∅ ∅) 0)).2.

(** With the aliases on and the bare warehouse prefix ["warehouse"], every key of the listing
    is taken for an alias when it is read, and none is found. *)
Example warehouse_prefix_unreadable :
  read_statuses (iceberg_endpoint "db" true) (built_node (iceberg_endpoint "db" true)) = [Some 200; Some 200; Some 200; Some 200; Some 200] /\
  read_statuses (iceberg_endpoint "warehouse" true) (built_node (iceberg_endpoint "warehouse" true)) =
    [Some 404; Some 404; Some 404; Some 404; Some 404].
Proof. vm_compute. split; reflexivity. Qed.

(** The entity tags of an object of the node: in the listing, and in a read. *)
Definition both_tags (cfg : endpoint_config) (n : node) (key : string) : option (option string * option string) :=
  match snapshot_objects cfg n with
  | (Ok objects, n) =>
      o ← odict_get key objects;
      r ← answer (get_object cfg (bucket_name cfg) key (Request ∅ None)) n;
      Some (child_text "ETag" (children_of (contents_element 0 (listed_object key o false))),
            (fun ih => ih.2.2) <$> list_find (fun h => h.1 = "ETag") (rs_headers r))
  | _ => None
  end.

(** The metadata of an Iceberg table is listed with a digest of its key and read with a
    digest of its bytes. *)
Example iceberg_tags_differ :
  (let key := "db/t/metadata/version-hint.text" in
   both_tags (iceberg_endpoint "db" false) (built_node (iceberg_endpoint "db" false)) key =
     Some (Some (quote_tag (md5_hex key)), Some (quote_tag (md5_hex "1"))) /\ md5_hex key <> md5_hex "1").
Proof. vm_compute. split; [reflexivity|discriminate]. Qed.
